(* ===== verification/_CoqProject ===== *)
-Q . S2P
Prelude.v
ChunkIn.v
ChunkOut.v
LoopBuf.v
AccessControl.v
Range.v
H2Frame.v
H2State.v
H2Conn.v
H2Input.v
H2Table.v
H2Framing.v
H2Flow.v
H2Scenarios.v
Uri.v
Guard.v
Headers.v
Request.v
ReqFraming.v
Session.v
SessionBody.v
Chains.v
RespHeaders.v
RespValues.v
RespFields.v
RespOps.v
Upkd.v
UpkdSpec.v
UpkdRun.v
UpkdClaims.v
Cookies.v
CookieIndex.v
CookieClaims.v
Rewrite.v
RewriteRun.v
RewriteSpec.v
RewriteConds.v
RewriteClaims.v
Contexts.v
ContextSpec.v
ContextClaims.v
