(* ===== verification/Prelude.v ===== *)
(** * OpenLiteSpeed's protocol core: a verification development

    The part of the OpenLiteSpeed web server that decides what bytes mean: HTTP/1 and
    HTTP/2 input, the bodies and headers of requests and responses, URLs and what is
    done with them before a handler sees a request.  The definitions are translated from
    the C and C++ code under src/src and src/include, function by function and under its
    names; [Definition f] models the function or method [f] of the file that the comment
    at the top of its own file names.

    ** The program and its parts

    A connection is a stream of bytes.  On an HTTP/1 connection [HttpSession] lets
    [HttpReq] parse the header of a request in a buffer of its own; what is behind the
    header is the beginning of the body, which is read up to the Content-Length or
    through [ChunkInputStream], under the eyes of the multipart guard; what is behind the
    body is the next request.  On an HTTP/2 connection [H2ConnBase] cuts the bytes into
    frames; header blocks go through the HPACK decoder into [UnpackedHeaders], which
    writes the text of an HTTP/1 header, so that both kinds of connections give
    [HttpReq] the same text; DATA frames go into the buffers of streams.  The target of
    the request is decoded and cleaned ([HttpReq], [GPath]), its virtual host finds the
    context of the path ([ContextTree]) and runs the rewrite rules of the context
    ([RewriteEngine]), which may look at the request's cookies.  The
    response has its header fields in [HttpRespHeaders]; its body goes through [ChunkOutputStream], or as DATA frames
    within the peer's windows, or as the byte ranges the client has asked for.  Every
    queue of bytes is an [ls_loopbuf] ring.  Clients are let in by their addresses
    ([AccessControl]).

    ** The files

    Prelude: bytes, lists indexed by machine integers, the functions of the C library and
    the lemmas and tactics that all files share.

    HTTP/1 bodies.
    - ChunkIn ([http/chunkinputstream.cpp]): the decoder.  State: the record [cis].  The
      stream below is the class [InputStream] with the laws [InputStreamLaws].
    - ChunkOut ([http/chunkoutputstream.cpp], [util/iovec.cpp]): the encoder over the
      class [OutputStream]; its vector of pointers, with partial writes.
    - Guard ([http/multipartbodyguard.cpp]): the inspection of bodies before PHP's
      upload-progress code.
    - Range ([http/httprange.cpp], [http/staticfilehandler.cpp]): the Range header and
      the bodies with several ranges, over the class [BodySession].

    HTTP/1 requests.
    - Headers ([http/httpmethod.cpp], [http/httpheader.cpp]): the tables of names.
    - Request ([http/httpreq.cpp]): the parser over its buffer; ReqFraming: what length
      it takes for the body.
    - Session ([http/httpsession.cpp], [http/subrequest.cpp]): bodies and keep-alive, on
      top of Request, ChunkIn and Guard; SessionBody: where bodies end.
    - Uri ([util/gpath.cpp], [util/httputil.cpp]): targets and paths.
    - Cookies, with CookieIndex and CookieClaims ([http/httpreq.cpp]): the array of
      cookies.

    Responses.
    - RespHeaders, with RespValues, RespFields and RespOps over the shared file Chains
      ([http/httprespheaders.cpp]): the header fields.

    HTTP/2.
    - LoopBuf ([lsr/ls_loopbuf.c], [util/loopbuf.cpp]): the ring, and the class
      [ByteQueue] that the connection is written against.
    - H2Frame ([h2/h2protocol.cpp]): the frame header and the frames that are sent.
    - H2State ([h2/h2connbase.h], [h2/h2streambase.h]): the state of a connection.
    - H2Conn ([h2/h2connbase.cpp], [h2/h2streambase.cpp], [edio/bufferedos.cpp]): output
      and flow control; H2Flow: the receive side.
    - H2Input ([h2/h2connbase.cpp], [h2/h2connection.cpp]): the parser and its handlers,
      with the application as the class [App]; H2Table: the streams and their queues
      against [AppKeeps]; H2Framing: what is dispatched, against [AppLaws]; H2Scenarios:
      whole runs.
    - Upkd, with UpkdSpec, UpkdRun and UpkdClaims ([h2/unpackedheaders.cpp]): the
      builder of a request's header.

    Deciding.
    - AccessControl ([util/accesscontrol.cpp]): allow and deny lists.
    - Rewrite, RewriteRun, RewriteSpec, RewriteConds, RewriteClaims
      ([http/rewriteengine.cpp]): texts, conditions and rules of the rewrite engine.
    - Contexts, ContextSpec, ContextClaims ([http/contexttree.cpp],
      [http/contextnode.cpp], [http/httpvhost.cpp]): the context of a path.

    ** What the theorems show

    The meaning of bytes.  The chunked decoder is the byte-at-a-time automaton of the
    chunked coding, however the stream is cut ([read_refines_automaton],
    [session_decodes]); the encoder's output is decoded to what was written whatever the
    socket takes ([session_encodes], [chunked_roundtrip]).  The frame parser dispatches the
    frames the peer sent ([parse_dispatches_frames]), and cuts do not matter for control
    frames ([segmentation_irrelevant]).  A request's body is as long as the framing of the
    header that is handed on says ([body_framing]) and ends where that says, so that the
    next request begins behind it ([sized_body_boundary], [chunked_body_boundary]).  An
    HTTP/2 header becomes the HTTP/1 text of what was sent, and cannot add lines to it
    ([decodeReqHdrData_refines], [no_header_injection]).

    Data structures against what they stand for: the ring and a queue
    ([ring_refines_queue]), response headers and a list of fields ([fields_refine]), the
    subnet tree and a list of rules ([insert_then_lookup]), cookies and their text
    ([cookies_indexed], [getCookie_first]), contexts and a table of paths
    ([contexts_longest_prefix], [contexts_parents], [lookups_settle]), the table of streams
    and its queues ([table_well_formed]).

    Algorithms against references: dot segments ([clean_normalizes]), request targets
    ([parseURI_reference]), ranges ([parse_reference]), the multipart guard
    ([inspect_reference]), rewrite texts and conditions ([buildString_expands],
    [rule_applies]), header blocks in frames ([header_block_split]).

    Safety: windows are respected ([write_within_windows]) and credit is conserved
    ([read_returns_credit]), redirects to a URL stay inside the tree
    ([redirect_target_safe]), the attack is blocked within the scan budget
    ([attack_blocked]), the header parser's stores stay inside its buffer
    ([stores_in_bounds]), lengths that are announced are sent ([multipart_length_exact]).

    Termination and progress: [parse_total], [ruleset_terminates], [write_progress].

    And some theorems say where the code does not do what it means to:
    [setCookie_splits_line], [high_flags_lost], [negative_skip_never_ends],
    [missing_directories_kept], and the closed runs of ChunkOut, Uri, H2Scenarios,
    SessionBody, RespFields, UpkdClaims, RewriteClaims and ContextClaims.

    ** Integers, memory, fuel

    A machine integer is a [Z]; where its width can be passed (16-bit header lengths and
    rule flags, 32-bit windows, [off_t]) the wrap is written out with the conversions of
    Prelude.  Memory that is shared or written in place is a list of bytes with offsets: the
    header buffers of Request and Upkd, whose stores are recorded or bounded; the
    encoder's vector keeps pointers and reads the caller's memory when it is written; the
    rewrite engine's three buffers are kept apart from the pointers that share them.

    A loop that is not structural has fuel.  Where it is a number that the definition
    takes from its input (the length of the text, the number of nodes, entries, rules or
    bytes in the buffer), each turn uses up at least one of these, and the theorems are
    about the results without mention of fuel.  Where it is an argument, running out is
    [None] or an error of its own, and the theorems say how much is enough: the chunked
    decoder and encoder ask for a number of turns that the bytes at hand bound, the frame
    parser for one more than the bytes in its buffer, the rewrite engine for a number that
    the rules and the ten restarts bound.  The exception is stated as such: with a
    negative skip no fuel is enough.

    ** Not modelled

    Code that is not in the repository is a parameter: PCRE, the HPACK and QPACK decoders,
    [inet_pton], the C library's logarithm; so are the file system, sockets and the clock
    where they are asked, and the handlers of an HTTP/2 stream.  Allocation succeeds.
    Single-threaded event handling is what the code has; each component says what calls it
    is given.  Left out, because they are I/O, tables from the configuration, or glue to
    other libraries: TLS and HTTP/3, static file caching, sockets and event loops, the
    process manager, the CGI daemon and the protocols of external applications,
    modules and their interface, shared memory, server side includes, logging,
    authentication against user files, the parsers of configuration and rewrite rules,
    compression.  Of the parts that are modelled, what is missing is said at the top of
    their files. *)

From stdpp Require Export base numbers list strings option sets gmap.
From Stdlib Require Export ZArith Lia ZifyBool.
#[global] Open Scope Z_scope.

(** ** Bytes and byte strings

    A byte is a [Z] in [0, 256); a C string or memory block is a [list Z].
    String literals of the source are written as Rocq strings and turned into
    bytes by [bs]. *)

Declare Scope bytes_scope.
Delimit Scope bytes_scope with bytes.

Definition byte_of_ascii (a : Ascii.ascii) : Z := Z.of_N (Ascii.N_of_ascii a).

Fixpoint bs (s : string) : list Z :=
  match s with
  | EmptyString => []
  | String a s' => byte_of_ascii a :: bs s'
  end.

Notation "'CR'" := 13 (only parsing) : bytes_scope.
Notation "'LF'" := 10 (only parsing) : bytes_scope.
#[global] Open Scope bytes_scope.

Definition is_byte (b : Z) : Prop := 0 <= b < 256.
Definition bytes_ok (l : list Z) : Prop := Forall is_byte l.

(** ** Lists indexed by machine integers *)

Definition zlen {A} (l : list A) : Z := Z.of_nat (length l).
Definition ztake {A} (n : Z) (l : list A) : list A := take (Z.to_nat n) l.
Definition zdrop {A} (n : Z) (l : list A) : list A := drop (Z.to_nat n) l.
Definition znth (l : list Z) (i : Z) : Z := nth (Z.to_nat i) l 0.

Lemma zlen_nil {A} : zlen (@nil A) = 0.
Proof. reflexivity. Qed.

Lemma zlen_cons {A} (x : A) l : zlen (x :: l) = 1 + zlen l.
Proof. unfold zlen. cbn [length]. lia. Qed.

Lemma zlen_app {A} (l k : list A) : zlen (l ++ k) = zlen l + zlen k.
Proof. unfold zlen. rewrite length_app. lia. Qed.

Lemma zlen_nonneg {A} (l : list A) : 0 <= zlen l.
Proof. unfold zlen. lia. Qed.

Lemma zlen_rev {A} (l : list A) : zlen (rev l) = zlen l.
Proof. unfold zlen. rewrite length_rev. reflexivity. Qed.

Lemma zlen_ztake {A} n (l : list A) : 0 <= n -> zlen (ztake n l) = Z.min n (zlen l).
Proof. intros. unfold zlen, ztake. rewrite length_take. lia. Qed.

Lemma zlen_zdrop {A} n (l : list A) : 0 <= n -> zlen (zdrop n l) = Z.max 0 (zlen l - n).
Proof. intros. unfold zlen, zdrop. rewrite length_drop. lia. Qed.

Lemma ztake_zdrop {A} n (l : list A) : ztake n l ++ zdrop n l = l.
Proof. apply take_drop. Qed.

Lemma zdrop_0 {A} (l : list A) : zdrop 0 l = l.
Proof. reflexivity. Qed.

Lemma ztake_0 {A} (l : list A) : ztake 0 l = [].
Proof. reflexivity. Qed.

Lemma ztake_neg {A} n (l : list A) : n <= 0 -> ztake n l = [].
Proof. intros. unfold ztake. replace (Z.to_nat n) with 0%nat by lia. reflexivity. Qed.

Lemma ztake_all {A} n (l : list A) : zlen l <= n -> ztake n l = l.
Proof. intros. unfold ztake, zlen in *. apply take_ge. lia. Qed.

Lemma zdrop_all {A} n (l : list A) : zlen l <= n -> zdrop n l = [].
Proof. intros. unfold zdrop, zlen in *. apply drop_ge. lia. Qed.

Lemma zdrop_app_exact {A} (l k : list A) : zdrop (zlen l) (l ++ k) = k.
Proof. unfold zdrop, zlen. rewrite Nat2Z.id. apply drop_app_length. Qed.

Lemma ztake_app_exact {A} (l k : list A) : ztake (zlen l) (l ++ k) = l.
Proof. unfold ztake, zlen. rewrite Nat2Z.id. apply take_app_length. Qed.

Lemma zdrop_app_len {A} n (l k : list A) : zlen l = n -> zdrop n (l ++ k) = k.
Proof. intros <-. apply zdrop_app_exact. Qed.

Lemma ztake_app_len {A} n (l k : list A) : zlen l = n -> ztake n (l ++ k) = l.
Proof. intros <-. apply ztake_app_exact. Qed.

Lemma zdrop_zdrop {A} n m (l : list A) :
  0 <= n -> 0 <= m -> zdrop n (zdrop m l) = zdrop (m + n) l.
Proof. intros. unfold zdrop. rewrite drop_drop. f_equal. lia. Qed.

Create Rewrite HintDb zlist.
#[export] Hint Rewrite @zlen_nil @zlen_cons @zlen_app @zdrop_0 @ztake_0 : zlist.
#[export] Hint Rewrite @zlen_ztake @zlen_zdrop using lia : zlist.

(** A slice [[i, j)] of a buffer, and writing into a buffer. *)
Definition slice {A} (i j : Z) (l : list A) : list A := ztake (j - i) (zdrop i l).

(** [memmove(buf + off, d, len)]. *)
Definition store {A} (m : list A) (off : Z) (d : list A) : list A :=
  ztake off m ++ d ++ zdrop (off + zlen d) m.

Lemma zlen_slice {A} i j (l : list A) :
  0 <= i <= j -> j <= zlen l -> zlen (slice i j l) = j - i.
Proof. intros. unfold slice. rewrite zlen_ztake, zlen_zdrop by lia. lia. Qed.

Lemma slice_nil {A} i j (l : list A) : j <= i -> slice i j l = [].
Proof. intros. unfold slice, ztake. replace (Z.to_nat (j - i)) with 0%nat by lia. reflexivity. Qed.

Lemma slice_0 {A} j (l : list A) : slice 0 j l = ztake j l.
Proof. unfold slice. rewrite zdrop_0, Z.sub_0_r. reflexivity. Qed.

Lemma ztake_ztake {A} n m (l : list A) : n <= m -> ztake n (ztake m l) = ztake n l.
Proof. intros. unfold ztake. rewrite take_take. f_equal. lia. Qed.

Lemma ztake_split {A} n m (l : list A) :
  0 <= n <= m -> ztake m l = ztake n l ++ ztake (m - n) (zdrop n l).
Proof.
  intros. unfold ztake, zdrop. rewrite <- (take_drop (Z.to_nat n) (take (Z.to_nat m) l)).
  rewrite take_take, skipn_firstn_comm. f_equal; f_equal; lia.
Qed.

Lemma slice_split {A} i k j (l : list A) :
  0 <= i <= k -> k <= j -> slice i j l = slice i k l ++ slice k j l.
Proof.
  intros. unfold slice. rewrite (ztake_split (k - i) (j - i)) by lia.
  rewrite zdrop_zdrop by lia. do 2 f_equal; try lia. f_equal. lia.
Qed.

Lemma ztake_cons {A} (x : A) n l : 0 < n -> ztake n (x :: l) = x :: ztake (n - 1) l.
Proof. intros. unfold ztake. replace (Z.to_nat n) with (S (Z.to_nat (n - 1))) by lia. reflexivity. Qed.

Lemma zdrop_cons {A} (x : A) n l : 0 < n -> zdrop n (x :: l) = zdrop (n - 1) l.
Proof. intros. unfold zdrop. replace (Z.to_nat n) with (S (Z.to_nat (n - 1))) by lia. reflexivity. Qed.

Lemma zdrop_nth i (l : list Z) : 0 <= i < zlen l -> zdrop i l = znth l i :: zdrop (i + 1) l.
Proof.
  intros. unfold zdrop, znth, zlen in *.
  replace (Z.to_nat (i + 1)) with (S (Z.to_nat i)) by lia.
  apply drop_S. rewrite nth_lookup.
  destruct (l !! Z.to_nat i) eqn:E; [reflexivity|]. apply lookup_ge_None in E. lia.
Qed.

Lemma slice_cons i j (l : list Z) :
  0 <= i < j -> j <= zlen l -> slice i j l = znth l i :: slice (i + 1) j l.
Proof.
  intros. unfold slice. rewrite zdrop_nth, ztake_cons by lia. do 2 f_equal. lia.
Qed.

Lemma zlen_store {A} (m : list A) off d :
  0 <= off -> off + zlen d <= zlen m -> zlen (store m off d) = zlen m.
Proof.
  intros. pose proof (zlen_nonneg d). unfold store.
  rewrite !zlen_app, zlen_ztake, zlen_zdrop by lia. lia.
Qed.

Lemma zdrop_slice {A} k i j (l : list A) : 0 <= k <= j - i -> 0 <= i -> zdrop k (slice i j l) = slice (i + k) j l.
Proof.
  intros. unfold slice, ztake, zdrop. rewrite skipn_firstn_comm, drop_drop. f_equal; [lia|f_equal; lia].
Qed.

Lemma slice_app_l {A} i j (l k : list A) : 0 <= i -> j <= zlen l -> slice i j (l ++ k) = slice i j l.
Proof.
  intros. unfold slice, ztake, zdrop, zlen in *.
  destruct (decide (i < Z.of_nat (length l))).
  - rewrite drop_app_le by lia. rewrite take_app_le; [reflexivity|]. rewrite length_drop. lia.
  - replace (Z.to_nat (j - i)) with 0%nat by lia. reflexivity.
Qed.

Lemma slice_store {A} (m : list A) off d j :
  0 <= off -> off + zlen d <= zlen m -> j = off + zlen d ->
  slice off j (store m off d) = d.
Proof.
  intros Ho Hl ->. pose proof (zlen_nonneg d). unfold store, slice.
  rewrite zdrop_app_len by (rewrite zlen_ztake by lia; lia).
  replace (off + zlen d - off) with (zlen d) by lia. apply ztake_app_exact.
Qed.

Lemma ztake_store {A} (m : list A) off d :
  0 <= off -> off <= zlen m -> ztake off (store m off d) = ztake off m.
Proof.
  intros. unfold store. apply ztake_app_len. rewrite zlen_ztake by lia. lia.
Qed.

Lemma zdrop_store {A} (m : list A) off d k :
  0 <= off -> off + zlen d <= k -> off <= zlen m ->
  zdrop k (store m off d) = zdrop k m.
Proof.
  intros. pose proof (zlen_nonneg d). unfold store.
  assert (E : zlen (ztake off m) = off) by (rewrite zlen_ztake by lia; lia).
  replace k with (zlen (ztake off m ++ d) + (k - off - zlen d)) at 1
    by (rewrite zlen_app; lia).
  rewrite <- zdrop_zdrop by (rewrite ?zlen_app; lia).
  rewrite app_assoc, zdrop_app_exact, zdrop_zdrop by lia. f_equal. lia.
Qed.

Lemma slice_store_after {A} (m : list A) off d i j :
  0 <= off -> off + zlen d <= i -> off <= zlen m ->
  slice i j (store m off d) = slice i j m.
Proof. intros. unfold slice. rewrite zdrop_store by lia. reflexivity. Qed.

(** Reading one byte through the list operations, and lists byte by byte. *)
Lemma store_mid (a b b' c : list Z) : zlen b' = zlen b -> store (a ++ b ++ c) (zlen a) b' = a ++ b' ++ c.
Proof.
  intros H. unfold store. rewrite ztake_app_exact, H, <- zdrop_zdrop, zdrop_app_exact, zdrop_app_exact by apply zlen_nonneg. reflexivity.
Qed.

Lemma znth_ext (l k : list Z) :
  zlen l = zlen k -> (forall i, 0 <= i < zlen l -> znth l i = znth k i) -> l = k.
Proof.
  unfold zlen, znth. intros Hl Hi. apply (nth_ext l k 0 0); [lia|].
  intros n Hn. specialize (Hi (Z.of_nat n) ltac:(lia)). rewrite Nat2Z.id in Hi. exact Hi.
Qed.

Lemma znth_app (l k : list Z) i :
  0 <= i -> znth (l ++ k) i = if i <? zlen l then znth l i else znth k (i - zlen l).
Proof.
  intros. unfold znth, zlen. destruct (Z.ltb_spec i (Z.of_nat (length l))).
  - apply app_nth1. lia.
  - rewrite app_nth2 by lia. f_equal. lia.
Qed.

Lemma znth_zdrop (l : list Z) n i : 0 <= n -> 0 <= i -> znth (zdrop n l) i = znth l (n + i).
Proof.
  intros. unfold znth, zdrop. rewrite nth_skipn. f_equal. lia.
Qed.

Lemma znth_ztake (l : list Z) n i : 0 <= i < n -> znth (ztake n l) i = znth l i.
Proof. intros. unfold znth, ztake. rewrite nth_firstn. destruct (Nat.ltb_spec (Z.to_nat i) (Z.to_nat n)); [reflexivity|lia]. Qed.

Lemma znth_slice (l : list Z) a b i : 0 <= a -> 0 <= i < b - a -> znth (slice a b l) i = znth l (a + i).
Proof. intros. unfold slice. rewrite znth_ztake, znth_zdrop by lia. reflexivity. Qed.

Lemma znth_store (m d : list Z) off i :
  0 <= off <= zlen m -> 0 <= i ->
  znth (store m off d) i = if (off <=? i) && (i <? off + zlen d) then znth d (i - off) else znth m i.
Proof.
  intros Ho Hi. pose proof (zlen_nonneg d). unfold store.
  rewrite znth_app, zlen_ztake, Z.min_l by lia.
  destruct (Z.ltb_spec i off).
  { replace (off <=? i) with false by lia. apply znth_ztake. lia. }
  replace (off <=? i) with true by lia. cbn [andb]. rewrite znth_app by lia.
  destruct (Z.ltb_spec (i - off) (zlen d)), (Z.ltb_spec i (off + zlen d)); try lia.
  rewrite znth_zdrop by lia. f_equal. lia.
Qed.

Lemma ztake_snoc (l : list Z) i : 0 <= i < zlen l -> ztake (i + 1) l = ztake i l ++ [znth l i].
Proof.
  intros H. rewrite (ztake_split i (i + 1)) by lia. replace (i + 1 - i) with 1 by lia.
  rewrite zdrop_nth, ztake_cons by lia. reflexivity.
Qed.

#[global] Arguments zlen : simpl never.
#[global] Arguments ztake : simpl never.
#[global] Arguments zdrop : simpl never.
#[global] Arguments znth : simpl never.
#[global] Arguments slice : simpl never.
#[global] Arguments store : simpl never.

(** A decidable fact about every character of a range, by computation. *)
Lemma range_forall (P : Z -> bool) lo n :
  forallb P (seqZ lo n) = true -> forall c, lo <= c < lo + n -> P c = true.
Proof.
  intros Hf c Hc. eapply forallb_forall in Hf; [exact Hf|].
  apply list_elem_of_In, elem_of_seqZ. exact Hc.
Qed.

Ltac by_range lo n P :=
  apply (range_forall P lo n); [vm_compute; reflexivity | lia].

(** ** C integers *)

Definition INT_MAX : Z := 2147483647.
Definition INT64_MAX : Z := 9223372036854775807.

(** Conversion to a [w]-bit unsigned or signed integer. *)
Definition wrapu (w z : Z) : Z := z mod 2 ^ w.
Definition wraps (w z : Z) : Z := (z + 2 ^ (w - 1)) mod 2 ^ w - 2 ^ (w - 1).

Lemma wraps_small z : - 2 ^ 31 <= z < 2 ^ 31 -> wraps 32 z = z.
Proof. intros. unfold wraps. change (32 - 1) with 31. rewrite Z.mod_small; lia. Qed.

Lemma wrapu_small w z : 0 <= z < 2 ^ w -> wrapu w z = z.
Proof. apply Z.mod_small. Qed.

(** Bytes shifted into place and or-ed together are digits of a sum. *)
Lemma lor_shiftl_add a b n : 0 <= n -> 0 <= b < 2 ^ n -> Z.lor (Z.shiftl a n) b = a * 2 ^ n + b.
Proof.
  intros Hn Hb. rewrite Z.shiftl_mul_pow2 by lia. apply Z.bits_inj'. intros i Hi. rewrite Z.lor_spec.
  destruct (Z.ltb_spec i n).
  - rewrite Z.mul_pow2_bits_low by lia. cbn [orb]. rewrite <- (Z.mod_pow2_bits_low b n), <- (Z.mod_pow2_bits_low (a * 2 ^ n + b) n) by lia.
    f_equal. rewrite Z.add_comm, Z_mod_plus_full. reflexivity.
  - assert (Z.testbit b i = false) as ->.
    { destruct (Z.eq_dec b 0) as [->|]; [apply Z.bits_0|]. apply Z.bits_above_log2; [lia|].
      apply Z.log2_lt_pow2; [lia|]. apply Z.lt_le_trans with (2 ^ n); [lia|]. apply Z.pow_le_mono_r; lia. }
    rewrite orb_false_r. replace i with ((i - n) + n) by lia. rewrite <- !Z.div_pow2_bits by lia.
    f_equal. rewrite Z.div_mul, Z.div_add_l, (Z.div_small b) by lia. lia.
Qed.

Lemma land_255 a : Z.land a 255 = a mod 256.
Proof. change 255 with (Z.ones 8). apply Z.land_ones. lia. Qed.

Lemma shiftr_div a n : 0 <= n -> Z.shiftr a n = a / 2 ^ n.
Proof. apply Z.shiftr_div_pow2. Qed.

(** The value of a big-endian byte sequence. *)
Definition be_val (l : list Z) : Z := fold_left (fun a b => a * 256 + b) l 0.

(** ** The C library, as the code uses it *)

(** [memchr]: the offset of the first [b]. *)
Fixpoint memchr (b : Z) (l : list Z) : option Z :=
  match l with
  | [] => None
  | c :: l' => if c =? b then Some 0 else option_map (Z.add 1) (memchr b l')
  end.

Lemma memchr_Some b l e :
  memchr b l = Some e ->
  0 <= e < zlen l /\ l = ztake e l ++ b :: zdrop (e + 1) l /\ b ∉ ztake e l.
Proof.
  revert e. induction l as [|c l IH]; intros e; cbn [memchr]; [discriminate|].
  rewrite zlen_cons. pose proof (zlen_nonneg l). destruct (c =? b) eqn:E.
  - intros [= <-]. apply Z.eqb_eq in E as ->. rewrite ztake_0, zdrop_cons, zdrop_0 by lia.
    split; [lia|]. split; [reflexivity|]. apply not_elem_of_nil.
  - destruct (memchr b l) as [e'|] eqn:E'; [|discriminate]. intros [= <-].
    destruct (IH e' eq_refl) as (? & Hl & Hn). split; [lia|].
    rewrite ztake_cons, zdrop_cons by lia.
    replace (1 + e' - 1) with e' by lia. replace (1 + e' + 1 - 1) with (e' + 1) by lia.
    split; [cbn; congruence|]. apply not_elem_of_cons. split; [lia|assumption].
Qed.

Lemma memchr_None b l : memchr b l = None -> b ∉ l.
Proof.
  induction l as [|c l IH]; cbn [memchr]; [intros; apply not_elem_of_nil|].
  destruct (c =? b) eqn:E; [discriminate|]. destruct (memchr b l); [discriminate|].
  intros _. apply not_elem_of_cons. split; [lia|auto].
Qed.

Lemma memchr_app b l r : b ∉ l -> memchr b (l ++ b :: r) = Some (zlen l).
Proof.
  induction l as [|c l IH]; intros H; cbn [app memchr]; [rewrite Z.eqb_refl; reflexivity|].
  apply not_elem_of_cons in H as [Hc H]. rewrite (proj2 (Z.eqb_neq c b)), IH, zlen_cons by congruence. reflexivity.
Qed.

Lemma memchr_notin b l : b ∉ l -> memchr b l = None.
Proof.
  induction l as [|c l IH]; intros H; cbn [memchr]; [reflexivity|].
  apply not_elem_of_cons in H as [Hc H]. rewrite (proj2 (Z.eqb_neq c b)), IH by congruence. reflexivity.
Qed.

(** [strchr] on the text before the terminating NUL is [memchr]; [strpbrk]. *)
Fixpoint strpbrk (set l : list Z) : option Z :=
  match l with
  | [] => None
  | c :: l' => if existsb (Z.eqb c) set then Some 0 else option_map (Z.add 1) (strpbrk set l')
  end.

Definition isdigit (c : Z) : bool := (48 <=? c) && (c <=? 57).
Definition isxdigit (c : Z) : bool :=
  ((48 <=? c) && (c <=? 57)) || ((65 <=? c) && (c <=? 70)) || ((97 <=? c) && (c <=? 102)).
Definition isspace (c : Z) : bool := (c =? 32) || ((9 <=? c) && (c <=? 13)).
Definition tolower (c : Z) : Z := if (65 <=? c) && (c <=? 90) then c + 32 else c.

(** Equality of the bytes of two strings. *)
Fixpoint bytes_eqb (a b : list Z) : bool :=
  match a, b with
  | [], [] => true
  | x :: a, y :: b => (x =? y) && bytes_eqb a b
  | _, _ => false
  end.

Definition strcaseeq (a b : list Z) : bool := bytes_eqb (map tolower a) (map tolower b).

(** [strncasecmp]: the difference at the first place where two texts differ, a text
    ends with a NUL. *)
Fixpoint strncasecmp (n : nat) (a b : list Z) : Z :=
  match n with
  | O => 0
  | S n =>
      let x := tolower (hd 0 a) in let y := tolower (hd 0 b) in
      if negb (x =? y) then x - y else if x =? 0 then 0 else strncasecmp n (tl a) (tl b)
  end.

Lemma bytes_eqb_eq a b : bytes_eqb a b = true <-> a = b.
Proof.
  revert b. induction a as [|x a IH]; intros [|y b]; cbn; try (split; congruence || discriminate).
  rewrite andb_true_iff, IH, Z.eqb_eq. split; [intros [-> ->]; reflexivity|intros [= -> ->]; auto].
Qed.

Fixpoint span (p : Z -> bool) (l : list Z) : list Z * list Z :=
  match l with
  | c :: l' => if p c then let '(a, b) := span p l' in (c :: a, b) else ([], l)
  | [] => ([], [])
  end.

Lemma zlen_span_snd p l : zlen (span p l).1 + zlen (span p l).2 = zlen l.
Proof.
  induction l as [|c l IH]; [reflexivity|]. cbn [span]. destruct (p c); [|reflexivity].
  destruct (span p l) as [a b]. cbn [fst snd] in *. rewrite !zlen_cons. lia.
Qed.

Lemma span_holds p l : forallb p (span p l).1 = true.
Proof.
  induction l as [|c l IH]; [reflexivity|]. cbn [span]. destruct (p c) eqn:E; [|reflexivity].
  destruct (span p l). cbn in *. rewrite E. exact IH.
Qed.

Lemma span_app p l : (span p l).1 ++ (span p l).2 = l.
Proof. induction l as [|c l IH]; [reflexivity|]. cbn [span]. destruct (p c); [|reflexivity]. destruct (span p l). cbn in *. congruence. Qed.

Definition dec_val (ds : list Z) : Z := fold_left (fun a c => a * 10 + (c - 48)) ds 0.

(** The decimal text of a natural number below 10^20. *)
Fixpoint dec_rev (fuel : nat) (n : Z) : list Z :=
  match fuel with
  | O => []
  | S fuel => if n <? 10 then [48 + n] else (48 + n mod 10) :: dec_rev fuel (n / 10)
  end.

Definition dec (n : Z) : list Z := rev (dec_rev 20 n).
#[global] Arguments dec : simpl never.

(** How many digits that is. *)
Fixpoint ndigits (fuel : nat) (n : Z) : Z :=
  match fuel with
  | O => 0
  | S fuel => if n <? 10 then 1 else 1 + ndigits fuel (n / 10)
  end.

Lemma dec_rev_ok k : forall n, 0 <= n < 10 ^ Z.of_nat (S k) ->
  let ds := rev (dec_rev (S k) n) in
  ds <> [] /\ forallb isdigit ds = true /\ dec_val ds = n /\ zlen ds = ndigits (S k) n.
Proof.
  induction k as [|k IH]; intros n Hn ds; subst ds.
  - cbn [dec_rev ndigits]. replace (n <? 10) with true by lia. cbn. unfold dec_val. cbn.
    split_and!; try discriminate; auto; [unfold isdigit|]; lia.
  - remember (S k) as j. cbn [dec_rev ndigits]. destruct (n <? 10) eqn:E.
    + unfold dec_val. cbn. split_and!; try discriminate; auto; [unfold isdigit|]; lia.
    + pose proof (Z.mod_pos_bound n 10 ltac:(lia)). pose proof (Z.div_mod n 10 ltac:(lia)).
      destruct (IH (n / 10)) as (Hne & Hd & Hval & Hlen).
      { replace (Z.of_nat (S j)) with (1 + Z.of_nat j) in Hn by lia.
        rewrite Z.pow_add_r in Hn by lia. split; [apply Z.div_pos; lia|]. apply Z.div_lt_upper_bound; lia. }
      cbn [rev]. unfold dec_val in *. rewrite fold_left_app, Hval, forallb_app, Hd, zlen_app, Hlen. cbn.
      change (zlen [48 + n mod 10]) with 1. split_and!; try lia; [|unfold isdigit; lia].
      intros Happ. apply app_eq_nil in Happ as [_ ?]. discriminate.
Qed.

Lemma dec_ok n : 0 <= n < 10 ^ 20 ->
  dec n <> [] /\ forallb isdigit (dec n) = true /\ dec_val (dec n) = n /\ zlen (dec n) = ndigits 20 n.
Proof. apply (dec_rev_ok 19). Qed.

Lemma ndigits_bounds k : forall n, 0 <= n -> 0 < ndigits (S k) n <= Z.of_nat (S k).
Proof.
  induction k as [|k IH]; intros n Hn.
  - cbn [ndigits]. destruct (n <? 10); lia.
  - remember (S k) as j. cbn [ndigits]. destruct (n <? 10); [lia|].
    specialize (IH (n / 10) ltac:(apply Z.div_pos; lia)). lia.
Qed.

(** [strtol(s, &end, 10)] on a string that starts with a digit. *)
Definition strtol10 (s : list Z) : Z * list Z :=
  let '(ds, rest) := span isdigit s in (Z.min (dec_val ds) INT64_MAX, rest).

(** The failure of a call (lsdef.h). *)
Definition LS_FAIL : Z := -1.

(** [lstrncpy] and [lstrncat] of lsdef.h on a destination of [n] bytes. *)
Definition lstrncpy (src : list Z) (n : Z) : list Z := ztake (n - 1) src.
Definition lstrncat (dest src : list Z) (n : Z) : list Z := dest ++ ztake (n - 1 - zlen dest) src.
