(* ===== verification/ChunkIn.v ===== *)
(** * ChunkInputStream: the chunked transfer-coding decoder

    src/src/http/chunkinputstream.{h,cpp}.  The decoder sits on an abstract
    [InputStream]; the class [InputStream] below is what it relies on.  The
    state is the record [cis]; every method of the C++ class is a definition
    of the same name.  The specification is a byte-at-a-time automaton
    ([step], [run]); [read_refines] shows that the buffered, prefetching code
    implements it whatever the segmentation of the underlying stream. *)

From S2P Require Import Prelude.

(** ** The underlying stream *)

(** [is_read s n] is [m_pIS->read(buf, n)]: the value returned, the bytes
    stored and the stream afterwards; [is_readv s n1 n2] is [readv] on two
    buffers, the bytes being listed in order. *)
Class InputStream (S : Type) := {
  is_read : S -> Z -> Z * list Z * S;
  is_readv : S -> Z -> Z -> Z * list Z * S;
  is_rest : S -> list Z;
  is_failed : S -> bool
}.

(** What one read of at most [n] bytes promises. *)
Definition read_ok {S} `{InputStream S} (s : S) (n : Z) (res : Z * list Z * S) : Prop :=
  let '(r, d, s') := res in
  (0 <= r /\ r <= n /\ r = zlen d /\ is_rest s = d ++ is_rest s') \/
  (r < 0 /\ d = [] /\ is_failed s' = true /\ is_rest s = is_rest s').

Class InputStreamLaws (S : Type) `{InputStream S} := {
  is_read_ok : forall s n, 0 <= n -> read_ok s n (is_read s n);
  is_readv_ok : forall s n1 n2, 0 <= n1 -> 0 <= n2 -> read_ok s (n1 + n2) (is_readv s n1 n2)
}.

(** A concrete stream: the segments a socket delivers, with would-block and
    failure events between them. *)
Inductive event := Seg (l : list Z) | Block | Fault.

Record script := { sc_events : list event; sc_failed : bool }.

Fixpoint script_bytes (l : list event) : list Z :=
  match l with
  | [] => []
  | Seg d :: l' => d ++ script_bytes l'
  | _ :: l' => script_bytes l'
  end.

Definition script_read (s : script) (n : Z) : Z * list Z * script :=
  match sc_events s with
  | [] => (0, [], s)
  | Block :: l => (0, [], {| sc_events := l; sc_failed := sc_failed s |})
  | Fault :: l => (-1, [], {| sc_events := l; sc_failed := true |})
  | Seg d :: l =>
      (Z.min n (zlen d), ztake n d,
       {| sc_events := (if zlen d <=? n then l else Seg (zdrop n d) :: l);
          sc_failed := sc_failed s |})
  end.

#[export] Instance script_stream : InputStream script := {
  is_read := script_read;
  is_readv := fun s n1 n2 => script_read s (n1 + n2);
  is_rest := fun s => script_bytes (sc_events s);
  is_failed := sc_failed
}.

Lemma script_read_ok s n : 0 <= n -> read_ok s n (script_read s n).
Proof.
  intros Hn. destruct s as [[|[d| |] l] f]; cbn -[Z.min]; try (left; cbn; intuition lia).
  - left. unfold script_bytes; fold script_bytes.
    repeat split; try (rewrite ?zlen_ztake; pose proof (zlen_nonneg d); lia).
    destruct (zlen d <=? n) eqn:E.
    + rewrite ztake_all by lia. reflexivity.
    + cbn. rewrite app_assoc, ztake_zdrop. reflexivity.
  - right. auto with lia.
Qed.

#[export] Instance script_laws : InputStreamLaws script.
Proof.
  split; intros; apply script_read_ok; lia.
Qed.

(** ** The decoder *)

Definition INIT_CHUNK_LEN : Z := -2.
Definition INVALID_CHUNK : Z := -3.
Definition CHUNK_EOF : Z := -4.
Definition MAX_CHUNK_LEN_BUF_SIZE : Z := 80.
Definition MAX_CHUNK_TRAILER_SIZE : Z := 64 * 1024.

Record cis := Cis {
  m_iChunkLen : Z;
  m_iRemain : Z;
  m_iBufLen : Z;
  m_iBufUsed : Z;
  m_iTrailerLen : Z;
  m_achChunkLenBuf : list Z
}.

Definition set_buf (st : cis) (used len : Z) : cis :=
  Cis (m_iChunkLen st) (m_iRemain st) len used (m_iTrailerLen st) (m_achChunkLenBuf st).
Definition set_mem (st : cis) (m : list Z) : cis :=
  Cis (m_iChunkLen st) (m_iRemain st) (m_iBufLen st) (m_iBufUsed st) (m_iTrailerLen st) m.
Definition set_remain (st : cis) (r : Z) : cis :=
  Cis (m_iChunkLen st) r (m_iBufLen st) (m_iBufUsed st) (m_iTrailerLen st) (m_achChunkLenBuf st).
Definition set_chunk (st : cis) (l r : Z) : cis :=
  Cis l r (m_iBufLen st) (m_iBufUsed st) (m_iTrailerLen st) (m_achChunkLenBuf st).
Definition inc_trailer (st : cis) : cis :=
  Cis (m_iChunkLen st) (m_iRemain st) (m_iBufLen st) (m_iBufUsed st) (1 + m_iTrailerLen st)
      (m_achChunkLenBuf st).

(** The bytes of the line buffer not consumed yet. *)
Definition unread (st : cis) : list Z :=
  slice (m_iBufUsed st) (m_iBufLen st) (m_achChunkLenBuf st).

Definition open (st : cis) : cis :=
  Cis INIT_CHUNK_LEN 0 0 0 0 (m_achChunkLenBuf st).

Definition eos (st : cis) : bool := m_iChunkLen st =? CHUNK_EOF.
Definition fail (st : cis) : bool := m_iChunkLen st =? INVALID_CHUNK.

Definition xdigit_val (c : Z) : Z :=
  if c <=? 57 then c - 48 else Z.lor c 32 - 97 + 10.

(** The digit loop of [parseChunkLen(pLineEnd)]: the value and where it stops. *)
Fixpoint parse_hex (lLen : Z) (p : list Z) : option (Z * list Z) :=
  match p with
  | [] => Some (lLen, [])
  | c :: p' =>
      if isxdigit c then
        let digit := xdigit_val c in
        if lLen >? (INT_MAX - 2 - digit) / 16 then None
        else parse_hex (lLen * 16 + digit) p'
      else Some (lLen, p)
  end.

Definition is_blank (c : Z) : bool := (c =? 32) || (c =? 9).

Fixpoint skip_blank (p : list Z) : list Z :=
  match p with
  | c :: p' => if is_blank c then skip_blank p' else p
  | [] => []
  end.

Definition bad_ext_char (c : Z) : bool := ((c <? 32) && negb (c =? 9)) || (c =? 127).

(** The text of a chunk-size line, between the start of the buffer and the
    carriage return. *)
Definition parse_line (line : list Z) : option Z :=
  match parse_hex 0 line with
  | None => None
  | Some (lLen, p) =>
      if zlen p =? zlen line then None
      else
        let blank := match p with c :: _ => is_blank c | [] => false end in
        let p := if blank then skip_blank p else p in
        if blank && (zlen p =? 0) then None
        else match p with
             | [] => Some lLen
             | c :: ext =>
                 if c =? 59 then if existsb bad_ext_char ext then None else Some lLen
                 else None
             end
  end.

(** [parseChunkLen(pLineEnd)], [e] being the offset of the line feed: first
    the line is marked as consumed ([mark_line]); a zero length starts the
    trailer, skipped at once when exactly CRLF is buffered ([last_chunk]). *)
Definition mark_line (st : cis) (e : Z) : cis :=
  let st := set_buf st (e + 1) (m_iBufLen st) in
  if m_iBufUsed st >=? m_iBufLen st then set_buf st 0 0 else st.

Definition last_chunk (st : cis) : cis :=
  let st := set_chunk st 0 (-2) in
  if (m_iBufLen st - m_iBufUsed st =? 2)
     && (znth (m_achChunkLenBuf st) (m_iBufUsed st) =? CR)
     && (znth (m_achChunkLenBuf st) (m_iBufUsed st + 1) =? LF)
  then
    let st := set_buf st (m_iBufUsed st + 2) (m_iBufLen st) in
    let st :=
      if m_iBufUsed st >=? m_iBufLen st then set_buf st (m_iBufUsed st) 0
      else set_buf (set_mem st (store (m_achChunkLenBuf st) 0 (unread st)))
             0 (m_iBufLen st - m_iBufUsed st) in
    set_chunk st CHUNK_EOF 0
  else st.

Definition parseChunkLenAt (st : cis) (e : Z) : Z * cis :=
  let st := mark_line st e in
  if (e =? 0) || negb (znth (m_achChunkLenBuf st) (e - 1) =? CR) then (-1, st)
  else
    let line := ztake (e - 1) (m_achChunkLenBuf st) in
    let st := set_mem st (store (m_achChunkLenBuf st) (e - 1) [0]) in
    match parse_line line with
    | None => (-1, st)
    | Some lLen =>
        if lLen =? 0 then (1, last_chunk st)
        else (1, set_chunk st lLen (lLen + 2))
    end.

(** [parseChunkLen()]. *)
Definition parseChunkLen (st : cis) : Z * cis :=
  match memchr LF (ztake (m_iBufLen st) (m_achChunkLenBuf st)) with
  | Some e => parseChunkLenAt st e
  | None => if m_iBufLen st <? MAX_CHUNK_LEN_BUF_SIZE then (1, st) else (-1, st)
  end.

Section Decoder.
Context {S : Type} `{InputStream S}.

(** The part of [bufRead] that goes to the underlying stream: a prefetching
    read asks for eight more bytes, which land in the line buffer. *)
Definition bufRead_stream (st : cis) (s : S) (len : Z) (prefetch : bool)
  : Z * list Z * cis * S :=
  if prefetch then
    let '(ret, d, s) := is_readv s len 8 in
    if ret - len >? 0 then
      (len, ztake len d,
       set_buf (set_mem st (store (m_achChunkLenBuf st) 0 (zdrop len d)))
               (m_iBufUsed st) (ret - len), s)
    else (ret, d, st, s)
  else let '(ret, d, s) := is_read s len in (ret, d, st, s).

(** [bufRead]: value returned, bytes stored at [pBuf], state, stream. *)
Definition bufRead (st : cis) (s : S) (len : Z) (prefetch : bool) : Z * list Z * cis * S :=
  let left0 := m_iBufLen st - m_iBufUsed st in
  let left := if left0 >? 0 then Z.min left0 len else left0 in
  let d0 := if left0 >? 0 then ztake left (zdrop (m_iBufUsed st) (m_achChunkLenBuf st)) else [] in
  let st :=
    if left0 >? 0 then
      let used := m_iBufUsed st + left in
      if used =? m_iBufLen st then set_buf st 0 0 else set_buf st used (m_iBufLen st)
    else st in
  if (left0 >? 0) && (left =? len) then (left, d0, st, s)
  else
    let len := if left0 >? 0 then len - left else len in
    let '(ret, d, st, s) := bufRead_stream st s len prefetch in
    if ret >? 0 then (ret + left, d0 ++ d, st, s)
    else if negb (left =? 0) then (left, d0 ++ d, st, s)
    else (ret, d0 ++ d, st, s).

(** [nextChunk]; the loop adds at least one byte to the 80-byte buffer per
    turn, so 80 turns are enough ([nextChunk_ok]). *)
Fixpoint nextChunk_loop (fuel : nat) (st : cis) (s : S) : Z * cis * S :=
  match fuel with
  | O => (-1, st, s)
  | Datatypes.S fuel =>
      if m_iBufLen st <? MAX_CHUNK_LEN_BUF_SIZE then
        let len := if m_iBufLen st =? 0 then 16 else MAX_CHUNK_LEN_BUF_SIZE - m_iBufLen st in
        let '(len, d, s) := is_read s len in
        if len =? 0 then (0, st, s)
        else if len <? 0 then (-1, st, s)
        else
          let st := set_mem st (store (m_achChunkLenBuf st) (m_iBufLen st) d) in
          let st := set_buf st (m_iBufUsed st) (m_iBufLen st + len) in
          match memchr LF (ztake (m_iBufLen st) (m_achChunkLenBuf st)) with
          | Some e => let '(r, st) := parseChunkLenAt st e in (r, st, s)
          | None => nextChunk_loop fuel st s
          end
      else (-1, st, s)
  end.

Definition nextChunk (st : cis) (s : S) : Z * cis * S := nextChunk_loop 81 st s.

(** The character loop of [readTrailingCRLF]; [ret] is what falls through. *)
Fixpoint crlf_loop (fuel : nat) (ret : Z) (st : cis) : Z * cis :=
  match fuel with
  | O => (ret, st)
  | Datatypes.S fuel =>
      if m_iBufLen st >? m_iBufUsed st then
        let ch := znth (m_achChunkLenBuf st) (m_iBufUsed st) in
        let st := set_buf st (m_iBufUsed st + 1) (m_iBufLen st) in
        if (ch =? LF) && (m_iRemain st =? 1) then
          let st := set_remain st 0 in
          if negb (m_iBufUsed st =? 0) then
            let st := set_buf (set_mem st (store (m_achChunkLenBuf st) 0 (unread st)))
                        0 (m_iBufLen st - m_iBufUsed st) in
            if negb (m_iBufLen st =? 0) then parseChunkLen st else (1, st)
          else (1, st)
        else if (ch =? CR) && (m_iRemain st =? 2) then
          crlf_loop fuel ret (set_remain st (m_iRemain st - 1))
        else (-1, st)
      else (ret, st)
  end.

Definition readTrailingCRLF (st : cis) (s : S) : Z * cis * S :=
  if m_iBufLen st =? m_iBufUsed st then
    let st := set_buf st 0 0 in
    let '(ret, d, s) := is_read s (8 + m_iRemain st) in
    if ret <=? 0 then (ret, st, s)
    else
      let st := set_buf (set_mem st (store (m_achChunkLenBuf st) 0 d)) 0 ret in
      let '(r, st) := crlf_loop (Z.to_nat ret) ret st in (r, st, s)
  else
    let '(r, st) := crlf_loop (Z.to_nat (m_iBufLen st - m_iBufUsed st)) 1 st in (r, st, s).

(** The inner loop of [skipTrailer]; [None] when the buffer is used up. *)
Fixpoint trailer_loop (fuel : nat) (st : cis) : option Z * cis :=
  match fuel with
  | O => (None, st)
  | Datatypes.S fuel =>
      if m_iBufUsed st <? m_iBufLen st then
        if m_iTrailerLen st >=? MAX_CHUNK_TRAILER_SIZE then (Some (-1), st)
        else
          let ch := znth (m_achChunkLenBuf st) (m_iBufUsed st) in
          let st := inc_trailer (set_buf st (m_iBufUsed st + 1) (m_iBufLen st)) in
          let r := m_iRemain st in
          if r =? -3 then
            if ch =? CR then trailer_loop fuel (set_remain st (-4))
            else if ch =? LF then (Some (-1), st)
            else trailer_loop fuel st
          else if r =? -2 then
            if ch =? CR then trailer_loop fuel (set_remain st (-1))
            else if ch =? LF then (Some (-1), st)
            else trailer_loop fuel (set_remain st (-3))
          else if r =? -1 then
            if ch =? LF then
              let st := set_chunk st CHUNK_EOF 0 in
              if m_iBufUsed st =? m_iBufLen st then (Some 1, set_buf st 0 0)
              else (Some 1,
                    set_buf (set_mem st (store (m_achChunkLenBuf st) 0 (unread st)))
                      0 (m_iBufLen st - m_iBufUsed st))
            else (Some (-1), st)
          else if r =? -4 then
            if ch =? LF then trailer_loop fuel (set_remain st (-2)) else (Some (-1), st)
          else (Some (-1), st)
      else (None, st)
  end.

(** [skipTrailer]; each turn of the outer loop reads at least one byte. *)
Fixpoint skipTrailer (fuel : nat) (st : cis) (s : S) : option (Z * cis * S) :=
  match fuel with
  | O => None
  | Datatypes.S fuel =>
      let fill :=
        if m_iBufUsed st =? m_iBufLen st then
          let st := set_buf st 0 0 in
          let '(ret, d, s) := is_read s MAX_CHUNK_LEN_BUF_SIZE in
          if ret <=? 0 then inl (ret, st, s)
          else inr (set_buf (set_mem st (store (m_achChunkLenBuf st) 0 d)) 0 ret, s)
        else inr (st, s) in
      match fill with
      | inl r => Some r
      | inr (st, s) =>
          match trailer_loop (Z.to_nat (m_iBufLen st - m_iBufUsed st)) st with
          | (Some r, st) => Some (r, st, s)
          | (None, st) => skipTrailer fuel st s
          end
      end
  end.

(** [readChunkContent]; [pBuf], [size] and [len] of the C++ are the bytes
    returned here, which [read_loop] accounts for. *)
Definition readChunkContent (st : cis) (s : S) (size : Z) : Z * list Z * cis * S :=
  let readLen := m_iRemain st - 2 in
  let '(ret, d, st, s) :=
    if readLen >? size then bufRead st s size false else bufRead st s readLen true in
  if ret >? 0 then (ret, d, set_remain st (m_iRemain st - ret), s) else (ret, [], st, s).

(** One turn of the [do ... while] loop of [read], after the two tests at its
    top; [None] only when [skipTrailer] runs out of fuel. *)
Definition read_turn (fuel : nat) (st : cis) (s : S) (size : Z)
  : option (Z * list Z * cis * S) :=
  let '(ret, st, s) :=
    if m_iRemain st =? 0 then nextChunk st s else (-1, st, s) in
  let '(ret, d, st, s) :=
    if m_iRemain st >? 2 then readChunkContent st s size else (ret, [], st, s) in
  let '(ret, st, s) :=
    if (m_iRemain st <=? 2) && (m_iRemain st >? 0) then readTrailingCRLF st s
    else (ret, st, s) in
  if m_iRemain st <? 0 then
    match skipTrailer fuel st s with
    | None => None
    | Some (ret, st, s) => Some (ret, d, st, s)
    end
  else Some (ret, d, st, s).

(** The result of [read]: the value returned, the bytes stored. *)
Definition read_end (ret : Z) (out : list Z) (st : cis) (s : S) : Z * list Z * cis * S :=
  if ret <=? 0 then
    let st := if ret =? 0 then st else set_chunk st INVALID_CHUNK (m_iRemain st) in
    (if zlen out =? 0 then ret else zlen out, out, st, s)
  else (zlen out, out, st, s).

Fixpoint read_loop (fuel : nat) (st : cis) (s : S) (size : Z) (out : list Z)
  : option (Z * list Z * cis * S) :=
  match fuel with
  | O => None
  | Datatypes.S fuel' =>
      if m_iChunkLen st =? CHUNK_EOF then Some (zlen out, out, st, s)
      else if m_iChunkLen st <=? INVALID_CHUNK then Some (read_end (-1) out st s)
      else
        match read_turn fuel st s size with
        | None => None
        | Some (ret, d, st, s) =>
            let out := out ++ d in
            let size := size - zlen d in
            if (ret >? 0) && (size >? 0) then read_loop fuel' st s size out
            else Some (read_end ret out st s)
        end
  end.

Definition read (fuel : nat) (st : cis) (s : S) (size : Z) : option (Z * list Z * cis * S) :=
  read_loop fuel st s size [].

End Decoder.

(** ** Specification: a decoder that sees one byte at a time *)

Inductive mode :=
| MLine (line : list Z)           (** inside a chunk-size line *)
| MData (n : Z)                   (** [n] bytes of chunk data to come *)
| MCR                             (** the carriage return after the data *)
| MLF                             (** the line feed after it *)
| MTrail (r t : Z)                (** the trailer section, [t] bytes seen *)
| MEof
| MErr.

(** What a complete chunk-size line (without its line feed) leads to. *)
Definition line_mode (line : list Z) : mode :=
  if (zlen line =? 0) || negb (znth line (zlen line - 1) =? CR) then MErr
  else match parse_line (ztake (zlen line - 1) line) with
       | None => MErr
       | Some n => if n =? 0 then MTrail (-2) 0 else MData n
       end.

Definition trail_mode (r t ch : Z) : mode :=
  if t >=? MAX_CHUNK_TRAILER_SIZE then MErr
  else if r =? -3 then
    if ch =? CR then MTrail (-4) (1 + t) else if ch =? LF then MErr else MTrail (-3) (1 + t)
  else if r =? -2 then
    if ch =? CR then MTrail (-1) (1 + t) else if ch =? LF then MErr else MTrail (-3) (1 + t)
  else if r =? -1 then if ch =? LF then MEof else MErr
  else if r =? -4 then if ch =? LF then MTrail (-2) (1 + t) else MErr
  else MErr.

Definition step (m : mode) (b : Z) : mode * list Z :=
  match m with
  | MLine line =>
      if b =? LF then (line_mode line, [])
      else if 1 + zlen line >=? MAX_CHUNK_LEN_BUF_SIZE then (MErr, [])
      else (MLine (line ++ [b]), [])
  | MData n => (if n =? 1 then MCR else MData (n - 1), [b])
  | MCR => (if b =? CR then MLF else MErr, [])
  | MLF => (if b =? LF then MLine [] else MErr, [])
  | MTrail r t => (trail_mode r t b, [])
  | MEof => (MEof, [])
  | MErr => (MErr, [])
  end.

Definition stopped (m : mode) : bool :=
  match m with MEof | MErr => true | _ => false end.

(** The decoded bytes, the final mode and the input left over. *)
Fixpoint run (m : mode) (l : list Z) : list Z * mode * list Z :=
  if stopped m then ([], m, l)
  else match l with
       | [] => ([], m, [])
       | b :: l' =>
           let '(m1, o1) := step m b in
           let '(o, m2, r) := run m1 l' in (o1 ++ o, m2, r)
       end.

Definition emit (d : list Z) (res : list Z * mode * list Z) : list Z * mode * list Z :=
  let '(o, m, r) := res in (d ++ o, m, r).

(** The mode a decoder state is in. *)
Definition mode_of (st : cis) : mode :=
  if m_iChunkLen st =? CHUNK_EOF then MEof
  else if m_iChunkLen st <=? INVALID_CHUNK then MErr
  else if m_iRemain st =? 0 then MLine []
  else if m_iRemain st >? 2 then MData (m_iRemain st - 2)
  else if m_iRemain st =? 2 then MCR
  else if m_iRemain st =? 1 then MLF
  else MTrail (m_iRemain st) (m_iTrailerLen st).

Definition live (st : cis) : Prop := INVALID_CHUNK < m_iChunkLen st.

(** The invariant of the decoder state. *)
Record wf (st : cis) : Prop := {
  wf_mem : zlen (m_achChunkLenBuf st) = MAX_CHUNK_LEN_BUF_SIZE;
  wf_pos : 0 <= m_iBufUsed st /\ 0 <= m_iBufLen st <= MAX_CHUNK_LEN_BUF_SIZE;
  wf_live : live st ->
    m_iBufUsed st <= m_iBufLen st /\ -4 <= m_iRemain st /\ 0 <= m_iTrailerLen st /\
    (0 <= m_iRemain st -> m_iTrailerLen st = 0) /\
    (2 < m_iRemain st -> m_iBufUsed st = m_iBufLen st -> m_iBufUsed st = 0) /\
    (m_iRemain st = 0 ->
       m_iBufUsed st = 0 /\ m_iBufLen st < MAX_CHUNK_LEN_BUF_SIZE /\
       LF ∉ ztake (m_iBufLen st) (m_achChunkLenBuf st));
  wf_dead : ~ live st -> m_iChunkLen st = CHUNK_EOF /\ m_iRemain st = 0;
  wf_eof : m_iChunkLen st = CHUNK_EOF -> m_iBufUsed st = 0 \/ m_iBufLen st = 0
}.

(** ** Lemmas on the automaton *)

Lemma run_cons m b l :
  stopped m = false -> run m (b :: l) = emit (snd (step m b)) (run (fst (step m b)) l).
Proof.
  intros E. cbn [run]. rewrite E. destruct (step m b) as [m1 o1]. cbn.
  destruct (run m1 l) as [[o m2] r]. reflexivity.
Qed.

Lemma run_stop m l : stopped m = true -> run m l = ([], m, l).
Proof. destruct l; cbn; intros ->; reflexivity. Qed.

Lemma emit_nil r : emit [] r = r.
Proof. destruct r as [[? ?] ?]. reflexivity. Qed.

Lemma emit_emit a b r : emit a (emit b r) = emit (a ++ b) r.
Proof. destruct r as [[? ?] ?]. cbn. rewrite app_assoc. reflexivity. Qed.

(** A run that consumes all of its input goes on with what follows. *)
Lemma run_app m a b o m' :
  run m a = (o, m', []) -> run m (a ++ b) = emit o (run m' b).
Proof.
  revert m o. induction a as [|c a IH]; intros m o Ha.
  - destruct (stopped m) eqn:E; cbn in Ha; rewrite E in Ha; injection Ha as <- <-; symmetry; apply emit_nil.
  - destruct (stopped m) eqn:E; [rewrite run_stop in Ha by assumption; discriminate|].
    rewrite run_cons in Ha by assumption. cbn [app]. rewrite run_cons by assumption.
    destruct (run (fst (step m c)) a) as [[o1 m1] r1] eqn:E1. cbn in Ha. injection Ha as <- <- ->.
    rewrite (IH _ _ E1). apply emit_emit.
Qed.

(** The output of a prefix of the input is a prefix of the output. *)
Lemma run_prefix m a b o m' :
  run m (a ++ b) = (o, m', []) -> stopped m' = false ->
  exists o1 o2 m1, run m a = (o1, m1, []) /\ o = o1 ++ o2.
Proof.
  revert m o. induction a as [|c a IH]; intros m o Ha Hs.
  - exists [], o, m. cbn. destruct (stopped m); auto.
  - destruct (stopped m) eqn:E; [rewrite run_stop in Ha by assumption; discriminate|].
    cbn [app] in Ha. rewrite run_cons in Ha by assumption.
    destruct (run (fst (step m c)) (a ++ b)) as [[o3 m3] r3] eqn:E1. cbn in Ha. injection Ha as <- <- ->.
    destruct (IH _ _ E1 Hs) as (o1 & o2 & m1 & Hr & ->). rewrite run_cons, Hr by assumption.
    exists (snd (step m c) ++ o1), o2, m1. cbn. rewrite app_assoc. auto.
Qed.

Lemma run_line line l k :
  LF ∉ l -> zlen line + zlen l < MAX_CHUNK_LEN_BUF_SIZE ->
  run (MLine line) (l ++ k) = run (MLine (line ++ l)) k.
Proof.
  revert line. induction l as [|b l IH]; intros line Hn Hl.
  - rewrite app_nil_r. reflexivity.
  - rewrite zlen_cons in Hl. pose proof (zlen_nonneg l). apply not_elem_of_cons in Hn as [Hb Hn].
    cbn [app]. rewrite run_cons by reflexivity. cbn [step].
    rewrite (proj2 (Z.eqb_neq b LF)) by congruence.
    assert (E : (1 + zlen line >=? MAX_CHUNK_LEN_BUF_SIZE) = false) by (unfold MAX_CHUNK_LEN_BUF_SIZE in *; lia).
    rewrite E. cbn [fst snd]. rewrite emit_nil, IH, <- app_assoc; [reflexivity|assumption|].
    rewrite zlen_app, zlen_cons, zlen_nil. lia.
Qed.

(** Two facts about a whole line: it is recognised when it fits, and a line
    that does not fit in the buffer is an error. *)
Lemma run_full_line l k :
  LF ∉ l -> zlen l < MAX_CHUNK_LEN_BUF_SIZE -> run (MLine []) (l ++ LF :: k) = run (line_mode l) k.
Proof.
  intros Hn Hl. rewrite run_line by (cbn; auto). rewrite run_cons by reflexivity.
  cbn [step app]. rewrite Z.eqb_refl. cbn [fst snd]. apply emit_nil.
Qed.

Lemma run_long_line l k :
  LF ∉ l -> zlen l = MAX_CHUNK_LEN_BUF_SIZE -> exists x, run (MLine []) (l ++ k) = ([], MErr, x).
Proof.
  intros Hn Hl. unfold MAX_CHUNK_LEN_BUF_SIZE in *.
  assert (E : l = ztake 79 l ++ [znth l 79]).
  { rewrite <- (ztake_zdrop 79 l) at 1. f_equal. rewrite zdrop_nth by lia.
    rewrite zdrop_all by lia. reflexivity. }
  assert (Hb : znth l 79 <> LF) by (intros Hb; apply Hn; rewrite E, Hb; set_solver).
  rewrite E, <- app_assoc. rewrite run_line.
  2:{ intros Hin. apply Hn. rewrite E. set_solver. }
  2:{ rewrite zlen_ztake by lia. unfold MAX_CHUNK_LEN_BUF_SIZE. rewrite zlen_nil. lia. }
  cbn [app]. rewrite run_cons by reflexivity. cbn [step].
  rewrite (proj2 (Z.eqb_neq _ LF)) by assumption. rewrite zlen_ztake by lia.
  replace (1 + Z.min 79 (zlen l) >=? MAX_CHUNK_LEN_BUF_SIZE) with true
    by (unfold MAX_CHUNK_LEN_BUF_SIZE; lia).
  cbn [fst snd]. rewrite emit_nil, run_stop by reflexivity. eauto.
Qed.

Lemma run_data n d k :
  zlen d < n -> run (MData n) (d ++ k) = emit d (run (MData (n - zlen d)) k).
Proof.
  revert n. induction d as [|b d IH]; intros n Hn.
  - rewrite Z.sub_0_r, emit_nil. reflexivity.
  - rewrite zlen_cons in *. pose proof (zlen_nonneg d). cbn [app].
    rewrite run_cons by reflexivity. cbn [step fst snd].
    rewrite (proj2 (Z.eqb_neq n 1)) by lia. rewrite IH, emit_emit by lia.
    do 3 f_equal. lia.
Qed.

Lemma run_data_all d k : 0 < zlen d -> run (MData (zlen d)) (d ++ k) = emit d (run MCR k).
Proof.
  intros Hd. destruct d as [|b d _] using rev_ind; [discriminate Hd|].
  rewrite zlen_app, zlen_cons, zlen_nil. rewrite <- app_assoc, run_data by lia.
  replace (zlen d + (1 + 0) - zlen d) with 1 by lia. cbn [app].
  rewrite run_cons by reflexivity. cbn [step fst snd Z.eqb Pos.eqb]. apply emit_emit.
Qed.

Lemma hd_mode st : m_iChunkLen st = CHUNK_EOF -> mode_of st = MEof.
Proof. intros E. unfold mode_of. rewrite E. reflexivity. Qed.

(** Unfolding [mode_of] on a live state. *)
Lemma mode_live st :
  live st ->
  mode_of st =
    if m_iRemain st =? 0 then MLine []
    else if m_iRemain st >? 2 then MData (m_iRemain st - 2)
    else if m_iRemain st =? 2 then MCR
    else if m_iRemain st =? 1 then MLF
    else MTrail (m_iRemain st) (m_iTrailerLen st).
Proof.
  unfold live, mode_of, INVALID_CHUNK, CHUNK_EOF. intros.
  rewrite (proj2 (Z.eqb_neq _ _)) by lia. rewrite (proj2 (Z.leb_gt _ _)) by lia. reflexivity.
Qed.

Lemma skip_blank_len p : zlen (skip_blank p) <= zlen p.
Proof.
  induction p as [|c p IH]; cbn [skip_blank]; [reflexivity|].
  destruct (is_blank c); rewrite ?zlen_cons; lia.
Qed.

Lemma xdigit_val_range c : isxdigit c = true -> 0 <= xdigit_val c <= 15.
Proof.
  intros Hc.
  assert (Hr : 48 <= c < 48 + 55) by (unfold isxdigit in Hc; lia).
  pose proof (range_forall
    (fun c => implb (isxdigit c) ((0 <=? xdigit_val c) && (xdigit_val c <=? 15)))
    48 55 eq_refl c Hr) as Hx.
  cbn beta in Hx. rewrite Hc in Hx. cbn [implb] in Hx. lia.
Qed.

Lemma parse_hex_spec p : forall a,
  match parse_hex a p with
  | None => True
  | Some (n, q) => 0 <= a -> a <= INT_MAX - 2 -> 0 <= n <= INT_MAX - 2
  end.
Proof.
  induction p as [|c p IH]; intros a; cbn [parse_hex]; [lia|].
  destruct (isxdigit c) eqn:Ex; [|lia].
  destruct (a >? (INT_MAX - 2 - xdigit_val c) / 16) eqn:E; [exact I|].
  specialize (IH (a * 16 + xdigit_val c)).
  pose proof (xdigit_val_range c Ex).
  destruct (parse_hex _ p) as [[n q]|]; [|exact I].
  intros. apply IH; [lia|].
  assert (a <= (INT_MAX - 2 - xdigit_val c) / 16) by lia.
  pose proof (Z.mul_div_le (INT_MAX - 2 - xdigit_val c) 16 ltac:(lia)). lia.
Qed.

Lemma parse_line_bound line n : parse_line line = Some n -> 0 <= n <= INT_MAX - 2.
Proof.
  unfold parse_line. pose proof (parse_hex_spec line 0) as Hs.
  destruct (parse_hex 0 line) as [[v q]|]; [|discriminate].
  assert (Hv : 0 <= v <= INT_MAX - 2) by (apply Hs; unfold INT_MAX; lia).
  destruct (zlen q =? zlen line); [discriminate|].
  repeat case_match; intros; simplify_eq; assumption.
Qed.

(** Discharges [wf] of a concrete state from bounds in the context. *)
Ltac wf_tac :=
  split; cbn; unfold live, MAX_CHUNK_LEN_BUF_SIZE, INVALID_CHUNK, CHUNK_EOF in *; cbn; intros;
  repeat split; intros; try assumption; try lia; try (exfalso; lia).

Lemma mark_line_ok st e :
  zlen (m_achChunkLenBuf st) = 80 -> 0 <= m_iBufLen st <= 80 -> 0 <= e < m_iBufLen st ->
  exists u b,
    mark_line st e = Cis (m_iChunkLen st) (m_iRemain st) b u (m_iTrailerLen st) (m_achChunkLenBuf st) /\
    0 <= u /\ u <= b <= 80 /\ (u = b -> u = 0) /\ (e < u \/ u = b) /\ b - u < m_iBufLen st /\
    slice u b (m_achChunkLenBuf st) = slice (e + 1) (m_iBufLen st) (m_achChunkLenBuf st).
Proof.
  intros. unfold mark_line. cbn. destruct (e + 1 >=? m_iBufLen st) eqn:E.
  - exists 0, 0. rewrite !slice_nil by lia. repeat split; lia || auto.
  - exists (e + 1), (m_iBufLen st). repeat split; lia || auto.
Qed.

Lemma last_chunk_ok cl rm b u mem k :
  zlen mem = 80 -> 0 <= u -> u <= b <= 80 -> (u = b -> u = 0) ->
  let st' := last_chunk (Cis cl rm b u 0 mem) in
  wf st' /\ zlen (unread st') <= b - u /\ (live st' -> m_iRemain st' <> 0) /\
  run (MTrail (-2) 0) (slice u b mem ++ k) = run (mode_of st') (unread st' ++ k).
Proof.
  intros Hm Hu Hb Hub. unfold last_chunk. cbn.
  destruct ((b - u =? 2) && (znth mem u =? 13) && (znth mem (u + 1) =? 10)) eqn:E.
  - assert (b = u + 2 /\ znth mem u = 13 /\ znth mem (u + 1) = 10) as (-> & E1 & E2) by lia.
    replace (u + 2 >=? u + 2) with true by lia. unfold unread. cbn.
    rewrite (slice_nil (u + 2) 0) by lia.
    rewrite (slice_cons u (u + 2)), (slice_cons (u + 1) (u + 2)), E1, E2 by lia.
    rewrite slice_nil by lia. split; [wf_tac|].
    split; [rewrite zlen_nil; lia|]. split; [unfold live, INVALID_CHUNK, CHUNK_EOF; cbn; lia|].
    cbn [app]. rewrite (run_cons (MTrail (-2) 0)) by reflexivity.
    change (step (MTrail (-2) 0) 13) with (MTrail (-1) 1, @nil Z). cbn [fst snd].
    rewrite emit_nil, run_cons by reflexivity.
    change (step (MTrail (-1) 1) 10) with (MEof, @nil Z). apply emit_nil.
  - unfold unread. cbn. rewrite zlen_slice by lia. split; [wf_tac|].
    split; [lia|]. split; [lia|]. reflexivity.
Qed.

(** [parseChunkLenAt] on a buffer whose first line feed is at [e]. *)
Lemma parseAt_ok st e r st' k :
  zlen (m_achChunkLenBuf st) = 80 -> m_iBufUsed st = 0 -> 0 <= m_iBufLen st <= 80 ->
  live st -> m_iTrailerLen st = 0 ->
  memchr LF (ztake (m_iBufLen st) (m_achChunkLenBuf st)) = Some e ->
  parseChunkLenAt st e = (r, st') ->
  (r = 1 /\ wf st' /\ zlen (unread st') < m_iBufLen st /\ (live st' -> m_iRemain st' <> 0) /\
   run (MLine []) (ztake (m_iBufLen st) (m_achChunkLenBuf st) ++ k) =
   run (mode_of st') (unread st' ++ k)) \/
  (r = -1 /\ m_iRemain st' = m_iRemain st /\
   exists x, run (MLine []) (ztake (m_iBufLen st) (m_achChunkLenBuf st) ++ k) = ([], MErr, x)).
Proof.
  intros Hm Hu Hb Hlv Ht Hc.
  destruct (memchr_Some _ _ _ Hc) as (He & Hl & Hn). rewrite zlen_ztake in He by lia.
  rewrite ztake_ztake in Hl, Hn by lia.
  destruct (mark_line_ok st e Hm Hb ltac:(lia)) as (u & b & Hmk & Hu0 & Hub & Hub0 & Heu & Hlt & Hsl).
  unfold parseChunkLenAt. rewrite Hmk. clear Hmk.
  destruct st as [cl rm bl bu tl mem]. unfold live in *. cbn in *. subst bu tl.
  assert (Hrest : zdrop (e + 1) (ztake bl mem) = slice u b mem).
  { rewrite Hsl. unfold slice. rewrite (ztake_split (e + 1) bl mem) by lia.
    apply zdrop_app_len. rewrite zlen_ztake; lia. }
  assert (Hlen : zlen (ztake e mem) = e) by (rewrite zlen_ztake by lia; lia).
  rewrite Hl, Hrest, <- app_assoc. cbn [app].
  rewrite run_full_line by (rewrite ?Hlen; unfold MAX_CHUNK_LEN_BUF_SIZE; auto; lia).
  clear Hl Hrest Hsl Hc. unfold line_mode. rewrite Hlen.
  assert (Hnth : 0 < e -> znth (ztake e mem) (e - 1) = znth mem (e - 1)).
  { intros. rewrite <- (ztake_zdrop e mem) at 2. unfold znth, zlen in *. rewrite app_nth1; lia || reflexivity. }
  destruct (e =? 0) eqn:E0; cbn [orb negb].
  { intros [= <- <-]. right. rewrite run_stop by reflexivity. cbn. eauto. }
  rewrite Hnth, ztake_ztake by lia. destruct (znth mem (e - 1) =? 13) eqn:ECR; cbn [negb].
  2:{ intros [= <- <-]. right. rewrite run_stop by reflexivity. cbn. eauto. }
  pose proof (parse_line_bound (ztake (e - 1) mem)) as Hbd.
  assert (Hmem : zlen (store mem (e - 1) [0]) = 80).
  { rewrite zlen_store; rewrite ?zlen_cons, ?zlen_nil; lia. }
  assert (Hsl : slice u b (store mem (e - 1) [0]) = slice u b mem).
  { destruct Heu as [Heu| ->]; [|rewrite !slice_nil by lia; reflexivity].
    apply slice_store_after; rewrite ?zlen_cons, ?zlen_nil; lia. }
  destruct (parse_line _) as [n|].
  2:{ intros [= <- <-]. right. rewrite run_stop by reflexivity. cbn. eauto. }
  specialize (Hbd n eq_refl). destruct (n =? 0) eqn:En; intros [= <- <-]; left; (split; [reflexivity|]).
  - destruct (last_chunk_ok cl rm b u (store mem (e - 1) [0]) k) as (A & B & C & D); try lia.
    rewrite Hsl in D. split; [exact A|]. split; [eapply Z.le_lt_trans; [exact B|lia]|].
    split; [exact C|exact D].
  - unfold unread, mode_of. cbn. rewrite Hsl, zlen_slice by lia.
    unfold CHUNK_EOF, INVALID_CHUNK. rewrite (proj2 (Z.eqb_neq n (-4))), (proj2 (Z.leb_gt n (-3))) by lia.
    rewrite (proj2 (Z.eqb_neq (n + 2) 0)) by lia. replace (n + 2 >? 2) with true by lia.
    replace (n + 2 - 2) with n by lia.
    split; [wf_tac|]. repeat split; lia.
Qed.

Section Refinement.
Context {S : Type} `{HS : InputStream S} {laws : InputStreamLaws S}.
Implicit Types (st : cis) (s : S).

(** Everything not consumed yet: what is buffered, then the stream. *)
Definition pend st s : list Z := unread st ++ is_rest s.

(** What every step of the decoder promises: on success, the automaton run on
    the pending input first emits the bytes stored, then continues from the
    new state on the new pending input; a positive return value consumes at
    least a byte; a negative one is a fault of the stream or of the input. *)
Definition post st s (r : Z) (d : list Z) st' s' : Prop :=
  if r <? 0 then
    is_failed s' = true \/ exists x, run (mode_of st) (pend st s) = (d, MErr, x)
  else
    wf st' /\
    run (mode_of st) (pend st s) = emit d (run (mode_of st') (pend st' s')) /\
    zlen (pend st' s') + (if r >? 0 then 1 else 0) <= zlen (pend st s).

Lemma post_trans st s r d st1 s1 r2 d2 st2 s2 :
  0 <= r -> post st s r d st1 s1 -> post st1 s1 r2 d2 st2 s2 -> post st s r2 (d ++ d2) st2 s2.
Proof.
  intros Hr. unfold post. rewrite (proj2 (Z.ltb_ge r 0)) by lia. intros (Hw & Hrun & Hp).
  destruct (r2 <? 0).
  - intros [Hf|[x Hx]]; [auto|]. right. rewrite Hrun, Hx. cbn. eauto.
  - intros (Hw2 & Hrun2 & Hp2). rewrite Hrun, Hrun2, emit_emit.
    split; [assumption|]. split; [reflexivity|]. destruct (r >? 0), (r2 >? 0); lia.
Qed.

Lemma post_intro st s r d st' s' :
  0 <= r -> wf st' ->
  run (mode_of st) (pend st s) = emit d (run (mode_of st') (pend st' s')) ->
  zlen (pend st' s') + (if r >? 0 then 1 else 0) <= zlen (pend st s) ->
  post st s r d st' s'.
Proof. intros. unfold post. rewrite (proj2 (Z.ltb_ge r 0)) by lia. auto. Qed.

(** The would-block outcome: nothing has changed. *)
Lemma post_same st s st' s' :
  wf st' -> mode_of st' = mode_of st -> pend st' s' = pend st s -> post st s 0 [] st' s'.
Proof.
  intros Hw Hm Hp. apply post_intro; [lia|assumption| |]; rewrite ?Hm, Hp, ?emit_nil; [reflexivity|].
  cbn. lia.
Qed.

Lemma post_neg st s r d st' s' :
  r < 0 -> is_failed s' = true \/ (exists x, run (mode_of st) (pend st s) = (d, MErr, x)) ->
  post st s r d st' s'.
Proof. intros. unfold post. rewrite (proj2 (Z.ltb_lt r 0)) by lia. assumption. Qed.

Lemma post_left st s st1 s1 r d st' s' :
  mode_of st = mode_of st1 -> pend st s = pend st1 s1 -> post st1 s1 r d st' s' -> post st s r d st' s'.
Proof. unfold post. intros -> ->. auto. Qed.

(** *** [nextChunk] *)

Lemma nextChunk_loop_ok fuel : forall st s r st' s',
  zlen (m_achChunkLenBuf st) = 80 -> m_iBufUsed st = 0 -> 0 <= m_iBufLen st <= 80 -> live st ->
  m_iTrailerLen st = 0 -> m_iRemain st = 0 ->
  LF ∉ ztake (m_iBufLen st) (m_achChunkLenBuf st) ->
  80 - m_iBufLen st < Z.of_nat fuel ->
  nextChunk_loop fuel st s = (r, st', s') ->
  post st s r [] st' s' /\ (r <= 0 -> m_iRemain st' = 0) /\ (r > 0 -> live st' -> m_iRemain st' <> 0).
Proof.
  induction fuel as [|fuel IH]; intros st s r st' s' Hm Hu Hb Hlv Ht Hr0 Hn Hf; [lia|].
  cbn [nextChunk_loop]. unfold MAX_CHUNK_LEN_BUF_SIZE.
  assert (Hmode : mode_of st = MLine []) by (rewrite mode_live by assumption; rewrite Hr0; reflexivity).
  assert (Hun : unread st = ztake (m_iBufLen st) (m_achChunkLenBuf st))
    by (unfold unread; rewrite Hu; apply slice_0).
  destruct (m_iBufLen st <? 80) eqn:E80.
  2:{ intros [= <- <- <-]. split; [|lia]. apply post_neg; [lia|]. right. unfold pend.
      rewrite Hmode, Hun. apply run_long_line; [assumption|].
      rewrite zlen_ztake by lia. unfold MAX_CHUNK_LEN_BUF_SIZE. lia. }
  set (n := if m_iBufLen st =? 0 then 16 else 80 - m_iBufLen st).
  assert (Hn0 : 0 <= n /\ m_iBufLen st + n <= 80) by (unfold n; destruct (m_iBufLen st =? 0) eqn:?; lia).
  pose proof (is_read_ok s n ltac:(lia)) as Hok.
  destruct (is_read s n) as [[len d] s1]. cbn in Hok.
  destruct (len =? 0) eqn:E0.
  { intros [= <- <- <-]. split; [|lia].
    assert (d = [] /\ is_rest s = is_rest s1) as [-> Hrest].
    { destruct Hok as [(_ & _ & Hd & ->)|]; [|lia].
      destruct d; [auto|]. rewrite zlen_cons in Hd. pose proof (zlen_nonneg d). lia. }
    apply post_same; [|reflexivity|unfold pend; congruence].
    wf_tac. }
  destruct (len <? 0) eqn:Eneg.
  { intros [= <- <- <-]. split; [|lia]. apply post_neg; [lia|]. left.
    destruct Hok as [|(_ & _ & ? & _)]; [lia|assumption]. }
  destruct Hok as [(_ & Hlen & -> & Hrest)|]; [|lia].
  set (st1 := set_buf _ _ _).
  assert (Hm1 : zlen (m_achChunkLenBuf st1) = 80) by (cbn; rewrite zlen_store; lia).
  assert (Hpre : ztake (m_iBufLen st1) (m_achChunkLenBuf st1) =
                 ztake (m_iBufLen st) (m_achChunkLenBuf st) ++ d).
  { cbn. rewrite (ztake_split (m_iBufLen st)) by lia. rewrite ztake_store by lia.
    f_equal. apply slice_store; lia. }
  assert (Hpend : pend st s = ztake (m_iBufLen st1) (m_achChunkLenBuf st1) ++ is_rest s1).
  { unfold pend. rewrite Hun, Hpre, Hrest, app_assoc. reflexivity. }
  destruct (memchr 10 _) as [e|] eqn:Ec.
  - destruct (parseChunkLenAt st1 e) as [r1 st2] eqn:Ep. intros [= <- <- <-].
    destruct (parseAt_ok st1 e r1 st2 (is_rest s1)) as [(-> & Hw & Hpr & Hrem & Hrun)|(-> & Hrem & Hx)];
      try assumption; try (cbn; lia).
    + split; [|split; [lia|auto]]. apply post_intro; [lia|assumption| |].
      * rewrite emit_nil, Hmode, Hpend, Hrun. reflexivity.
      * rewrite Hpend. unfold pend. rewrite !zlen_app, zlen_ztake by (cbn; lia). cbn in *. lia.
    + split; [|split; [cbn in Hrem; lia|lia]]. apply post_neg; [lia|]. right.
      rewrite Hmode, Hpend. assumption.
  - intros Hloop. apply memchr_None in Ec.
    destruct (IH st1 s1 r st' s') as [Hpost Hrem]; try assumption; try (cbn; lia).
    split; [|assumption]. apply (post_left st s st1 s1); [reflexivity| |assumption].
    rewrite Hpend. unfold pend, unread. replace (m_iBufUsed st1) with 0 by (symmetry; exact Hu).
    rewrite slice_0. reflexivity.
Qed.

Lemma nextChunk_ok st s r st' s' :
  wf st -> live st -> m_iRemain st = 0 -> nextChunk st s = (r, st', s') ->
  post st s r [] st' s' /\ (r <= 0 -> m_iRemain st' = 0) /\ (r > 0 -> live st' -> m_iRemain st' <> 0).
Proof.
  intros [Hm Hp Hl Hdd] Hlv Hr. destruct (Hl Hlv) as (Hb & _ & Ht & Ht0 & _ & Hz).
  destruct (Hz Hr) as (Hu & Hlt & Hn). unfold MAX_CHUNK_LEN_BUF_SIZE in *.
  apply nextChunk_loop_ok; try assumption; lia.
Qed.

(** *** [readTrailingCRLF] *)

(** Moving the unread bytes to the front of the buffer. *)
Lemma compact_ok u b (mem : list Z) :
  zlen mem = 80 -> 0 <= u <= b -> b <= 80 ->
  zlen (store mem 0 (slice u b mem)) = 80 /\
  ztake (b - u) (store mem 0 (slice u b mem)) = slice u b mem.
Proof.
  intros. assert (zlen (slice u b mem) = b - u) by (apply zlen_slice; lia).
  split; [apply eq_trans with (zlen mem); [apply zlen_store|]; lia|].
  rewrite <- (slice_0 (b - u)). apply slice_store; lia.
Qed.

Lemma run_step m b l m' :
  stopped m = false -> step m b = (m', []) -> run m (b :: l) = run m' l.
Proof. intros Hs He. rewrite run_cons, He by assumption. apply emit_nil. Qed.

Lemma run_bad m b l :
  stopped m = false -> step m b = (MErr, []) -> exists x, run m (b :: l) = ([], MErr, x).
Proof. intros Hs He. rewrite (run_step m b l MErr), run_stop by auto. eauto. Qed.

(** The state after the line feed: what remains becomes the line buffer. *)
Lemma after_lf_ok cl u b mem k r st' :
  INVALID_CHUNK < cl -> zlen mem = 80 -> 0 <= u <= b -> b <= 80 -> b - u < 80 ->
  (let st := Cis cl 0 (b - u) 0 0 (store mem 0 (slice u b mem)) in
   if negb (b - u =? 0) then parseChunkLen st else (1, st)) = (r, st') ->
  (0 < r /\ wf st' /\ run (MLine []) (slice u b mem ++ k) = run (mode_of st') (unread st' ++ k) /\
   zlen (unread st') <= b - u) \/
  (r = -1 /\ 0 <= m_iRemain st' /\ exists x, run (MLine []) (slice u b mem ++ k) = ([], MErr, x)).
Proof.
  intros Hcl Hm Hu Hb Hlt. destruct (compact_ok u b mem Hm Hu Hb) as [Hm2 Htk].
  cbn zeta. set (st := Cis cl 0 (b - u) 0 0 _).
  assert (Hun : unread st = slice u b mem) by (unfold unread; cbn; rewrite slice_0; exact Htk).
  assert (Hmode : mode_of st = MLine []) by (rewrite mode_live by exact Hcl; reflexivity).
  assert (Hwf : LF ∉ slice u b mem -> wf st).
  { intros Hn. rewrite <- Htk in Hn. unfold st. wf_tac. }
  assert (Hl : zlen (slice u b mem) = b - u) by (apply zlen_slice; lia).
  destruct (negb (b - u =? 0)) eqn:E.
  2:{ intros [= <- <-]. left. rewrite Hun, Hmode. split_and!; [lia| |reflexivity|lia].
      apply Hwf. rewrite slice_nil by lia. apply not_elem_of_nil. }
  unfold parseChunkLen. cbn [m_iBufLen m_achChunkLenBuf st]. rewrite Htk.
  destruct (memchr 10 (slice u b mem)) as [e|] eqn:Ec.
  - intros Hp. destruct (parseAt_ok st e r st' k) as [(-> & Hw & Hl' & _ & Hrun)|(-> & Hr & x & Hx)];
      try assumption; try reflexivity; try (cbn; lia); try (cbn; rewrite Htk; assumption).
    + left. cbn in Hl', Hrun. rewrite Htk in Hrun. split_and!; auto; lia.
    + right. cbn in Hr, Hx. rewrite Htk in Hx. split_and!; eauto; lia.
  - apply memchr_None in Ec. unfold MAX_CHUNK_LEN_BUF_SIZE. replace (b - u <? 80) with true by lia.
    intros [= <- <-]. left. rewrite Hun, Hmode. split_and!; auto; lia.
Qed.

Lemma crlf_loop_ok fuel : forall st ret k r st',
  zlen (m_achChunkLenBuf st) = 80 -> 0 <= m_iBufUsed st < m_iBufLen st -> m_iBufLen st <= 80 ->
  live st -> m_iTrailerLen st = 0 -> m_iRemain st = 1 \/ m_iRemain st = 2 -> 0 < ret ->
  m_iBufLen st - m_iBufUsed st <= Z.of_nat fuel ->
  crlf_loop fuel ret st = (r, st') ->
  (0 < r /\ wf st' /\ run (mode_of st) (unread st ++ k) = run (mode_of st') (unread st' ++ k) /\
   zlen (unread st') < zlen (unread st)) \/
  (r = -1 /\ 0 <= m_iRemain st' /\ exists x, run (mode_of st) (unread st ++ k) = ([], MErr, x)).
Proof.
  induction fuel as [|fuel IH]; intros st ret k r st' Hm Hu Hb Hlv Ht Hr Hret Hf; [lia|].
  cbn [crlf_loop]. replace (m_iBufLen st >? m_iBufUsed st) with true by lia. cbn zeta.
  destruct st as [cl rm bl bu tl mem]. unfold live in *. cbn in * |-. subst tl.
  assert (Hun : unread (Cis cl rm bl bu 0 mem) = znth mem bu :: slice (bu + 1) bl mem)
    by (unfold unread; cbn; apply slice_cons; lia).
  rewrite Hun. cbn [app set_buf set_remain set_mem m_iBufUsed m_iBufLen m_achChunkLenBuf m_iRemain].
  rewrite zlen_cons, zlen_slice by lia.
  rewrite mode_live by exact Hlv. cbn [m_iRemain].
  destruct ((znth mem bu =? 10) && (rm =? 1)) eqn:E1.
  - assert (rm = 1 /\ znth mem bu = 10) as [-> Ech] by lia. rewrite Ech. cbn [Z.eqb Z.gtb Z.compare Pos.compare Pos.compare_cont Pos.eqb].
    rewrite (run_step MLF 10 _ (MLine [])) by reflexivity.
    replace (negb (bu + 1 =? 0)) with true by lia. cbv beta iota.
    intros Hp. destruct (after_lf_ok cl (bu + 1) bl mem k r st') as [(?&?&?&?)|(?&?&?)];
      try assumption; try lia; [left|right]; split_and!; auto; lia.
  - destruct ((znth mem bu =? 13) && (rm =? 2)) eqn:E2.
    + assert (rm = 2 /\ znth mem bu = 13) as [-> Ech] by lia. rewrite Ech.
      cbn [Z.eqb Z.gtb Z.compare Pos.compare Pos.compare_cont Pos.eqb].
      rewrite (run_step MCR 13 _ MLF) by reflexivity. change (2 - 1) with 1.
      destruct (decide (bu + 1 < bl)) as [Hlt|Hge].
      * intros Hp. apply (IH _ _ k) in Hp; cbn; try assumption; try lia.
        match type of Hp with context [mode_of ?x] =>
          change (unread x) with (slice (bu + 1) bl mem) in Hp;
          change (mode_of x) with (mode_of (Cis cl 1 bl (bu + 1) 0 mem)) in Hp end.
        rewrite zlen_slice, mode_live in Hp by (assumption || lia). cbn in Hp.
        destruct Hp as [(?&?&?&?)|(?&?&?)]; [left|right]; split_and!; auto; lia.
      * assert (Hloop : forall n st0, m_iBufUsed st0 = m_iBufLen st0 -> crlf_loop n ret st0 = (ret, st0)).
        { intros [|n] st0 H0; [reflexivity|]. cbn. replace (m_iBufLen st0 >? m_iBufUsed st0) with false by lia.
          reflexivity. }
        rewrite Hloop by (cbn; lia). intros [= <- <-]. left.
        unfold unread, mode_of. cbn. rewrite slice_nil by lia. split; [lia|]. split; [wf_tac|].
        unfold INVALID_CHUNK, CHUNK_EOF in *. rewrite (proj2 (Z.eqb_neq cl (-4))), (proj2 (Z.leb_gt cl (-3))) by lia.
        split; [reflexivity|]. rewrite zlen_nil. lia.
    + intros [= <- <-]. right. cbn. split_and!; [reflexivity|lia|]. destruct Hr as [-> | ->]; apply run_bad; try reflexivity; cbn.
      * rewrite (proj2 (Z.eqb_neq _ 10)) by lia. reflexivity.
      * rewrite (proj2 (Z.eqb_neq _ 13)) by lia. reflexivity.
Qed.

(** What a read of at most [n] bytes did, in the shape the proofs use. *)
Lemma read_cases s n ret d s1 :
  read_ok s n (ret, d, s1) ->
  (0 < ret <= n /\ ret = zlen d /\ is_rest s = d ++ is_rest s1) \/
  (ret = 0 /\ d = [] /\ is_rest s = is_rest s1) \/
  (ret < 0 /\ d = [] /\ is_failed s1 = true /\ is_rest s = is_rest s1).
Proof.
  cbn. intros [(H0 & H1 & H2 & H3)|(H0 & H1 & H2 & H3)]; [|right; right; auto].
  destruct (Z.eq_dec ret 0) as [->|]; [|left; split_and!; auto; lia].
  right; left. destruct d; [auto|]. rewrite zlen_cons in H2. pose proof (zlen_nonneg d). lia.
Qed.

Lemma fill_ok st d :
  zlen (m_achChunkLenBuf st) = 80 -> zlen d <= 80 ->
  zlen (store (m_achChunkLenBuf st) 0 d) = 80 /\
  slice 0 (zlen d) (store (m_achChunkLenBuf st) 0 d) = d.
Proof.
  intros. pose proof (zlen_nonneg d). split; [rewrite zlen_store; lia|]. apply slice_store; lia.
Qed.

Lemma readTrailingCRLF_ok st s r st' s' :
  wf st -> live st -> m_iRemain st = 1 \/ m_iRemain st = 2 ->
  readTrailingCRLF st s = (r, st', s') ->
  post st s r [] st' s' /\ (r <= 0 -> 0 <= m_iRemain st').
Proof.
  intros [Hm Hp Hl Hdd] Hlv Hr. destruct (Hl Hlv) as (Hb & _ & _ & Ht0 & _).
  unfold readTrailingCRLF, MAX_CHUNK_LEN_BUF_SIZE in *.
  destruct (m_iBufLen st =? m_iBufUsed st) eqn:E.
  - assert (Hun : unread st = []) by (unfold unread; apply slice_nil; lia).
    pose proof (is_read_ok s (8 + m_iRemain st) ltac:(lia)) as Hok.
    cbn [set_buf m_iRemain]. destruct (is_read s _) as [[ret d] s1].
    apply read_cases in Hok as [(Hret & -> & Hrest)|[(-> & -> & Hrest)|(Hret & -> & Hf & Hrest)]].
    + replace (zlen d <=? 0) with false by lia.
      destruct (fill_ok st d) as [Hm1 Hsl]; [assumption|lia|].
      set (st1 := set_buf _ 0 (zlen d)).
      destruct (crlf_loop _ _ st1) as [r1 st2] eqn:Ec. intros [= <- <- <-].
      assert (Hun1 : unread st1 = d) by (unfold unread; cbn; exact Hsl).
      assert (Hp1 : pend st s = pend st1 s1) by (unfold pend; rewrite Hun, Hun1; exact Hrest).
      apply (crlf_loop_ok _ _ _ (is_rest s1)) in Ec; try assumption; try (cbn; lia).
      assert (Hmd : mode_of st = mode_of st1) by reflexivity.
      destruct Ec as [(Hr1 & Hw & Hrun & Hlen)|(-> & Hr2 & Hx)]; (split; [|lia]).
      * apply post_intro; [lia|assumption| |].
        -- rewrite emit_nil, Hp1, Hmd. exact Hrun.
        -- rewrite Hp1. unfold pend. rewrite !zlen_app. destruct (r1 >? 0); lia.
      * apply post_neg; [lia|]. right. rewrite Hp1, Hmd. exact Hx.
    + intros [= <- <- <-]. cbn. split; [|lia].
      apply post_same; [|reflexivity|unfold pend; rewrite Hun, Hrest; reflexivity].
      wf_tac.
    + replace (ret <=? 0) with true by lia. intros [= <- <- <-]. cbn. split; [|lia].
      apply post_neg; [lia|auto].
  - destruct (crlf_loop _ _ st) as [r1 st2] eqn:Ec. intros [= <- <- <-].
    apply (crlf_loop_ok _ _ _ (is_rest s)) in Ec; try assumption; try lia.
    destruct Ec as [(Hr1 & Hw & Hrun & Hlen)|(-> & Hr2 & Hx)]; (split; [|lia]).
    + apply post_intro; [lia|assumption|rewrite emit_nil; exact Hrun|].
      unfold pend. rewrite !zlen_app. destruct (r1 >? 0); lia.
    + apply post_neg; [lia|auto].
Qed.

(** *** [skipTrailer] *)

Definition in_trailer st : Prop := -4 <= m_iRemain st < 0.

Lemma trailer_mode st : live st -> in_trailer st -> mode_of st = MTrail (m_iRemain st) (m_iTrailerLen st).
Proof.
  unfold in_trailer. intros Hl Hr. rewrite mode_live by assumption.
  rewrite (proj2 (Z.eqb_neq _ 0)), (proj2 (Z.eqb_neq _ 2)), (proj2 (Z.eqb_neq _ 1)) by lia.
  replace (m_iRemain st >? 2) with false by lia. reflexivity.
Qed.

(** The outcome of the inner loop started in mode [m] on the bytes [p]. *)
Definition trailer_post (m : mode) (p k : list Z) (o : option Z) st' : Prop :=
  match o with
  | None => wf st' /\ live st' /\ in_trailer st' /\ m_iBufUsed st' = m_iBufLen st' /\
            run m (p ++ k) = run (mode_of st') k
  | Some r =>
      (r = 1 /\ wf st' /\ mode_of st' = MEof /\ zlen (unread st') < zlen p /\
       run m (p ++ k) = run (mode_of st') (unread st' ++ k)) \/
      (r = -1 /\ exists x, run m (p ++ k) = ([], MErr, x))
  end.

Lemma trailer_post_step m m' b p k o st' :
  stopped m = false -> step m b = (m', []) ->
  trailer_post m' p k o st' -> trailer_post m (b :: p) k o st'.
Proof.
  intros Hs He. unfold trailer_post. cbn [app]. rewrite zlen_cons, (run_step m b _ m') by assumption.
  destruct o as [r|]; [|auto]. intros [(?&?&?&?&?)|?]; [left; split_and!; auto; lia|auto].
Qed.

Lemma trailer_post_bad m b p k st' :
  stopped m = false -> step m b = (MErr, []) -> trailer_post m (b :: p) k (Some (-1)) st'.
Proof. intros Hs He. right. split; [reflexivity|]. apply run_bad; assumption. Qed.

Lemma trailer_post_done st k :
  wf st -> live st -> in_trailer st -> m_iBufUsed st = m_iBufLen st ->
  trailer_post (mode_of st) (unread st) k None st.
Proof.
  intros. cbn. split_and!; auto. unfold unread. rewrite slice_nil by lia. reflexivity.
Qed.

Lemma trailer_post_eof st mem k r t :
  zlen (m_achChunkLenBuf st) = 80 -> 0 <= m_iBufUsed st <= m_iBufLen st -> m_iBufLen st <= 80 ->
  mem = m_achChunkLenBuf st -> step (MTrail r t) LF = (MEof, []) ->
  let st1 := set_chunk st CHUNK_EOF 0 in
  trailer_post (MTrail r t) (LF :: slice (m_iBufUsed st) (m_iBufLen st) mem) k (Some 1)
    (if m_iBufUsed st =? m_iBufLen st then set_buf st1 0 0
     else set_buf (set_mem st1 (store mem 0 (unread st1))) 0 (m_iBufLen st - m_iBufUsed st)).
Proof.
  intros Hm Hu Hb -> Hs st1. pose proof (compact_ok _ _ _ Hm Hu Hb) as [Hc1 Hc2].
  left. cbn [app]. rewrite (run_step (MTrail r t) LF _ MEof) by (reflexivity || assumption).
  rewrite zlen_cons, zlen_slice by lia.
  destruct (m_iBufUsed st =? m_iBufLen st) eqn:E; unfold unread, mode_of; cbn.
  - rewrite !slice_nil by lia. split_and!; try reflexivity; [wf_tac|rewrite zlen_nil; lia].
  - rewrite slice_0. change (unread st1) with (slice (m_iBufUsed st) (m_iBufLen st) (m_achChunkLenBuf st)).
    rewrite Hc2, zlen_slice by lia. split_and!; try reflexivity; [|lia]. unfold unread. cbn. wf_tac.
Qed.

Lemma trailer_loop_ok fuel : forall st k o st',
  zlen (m_achChunkLenBuf st) = 80 -> 0 <= m_iBufUsed st <= m_iBufLen st -> m_iBufLen st <= 80 ->
  live st -> 0 <= m_iTrailerLen st -> in_trailer st ->
  m_iBufLen st - m_iBufUsed st <= Z.of_nat fuel ->
  trailer_loop fuel st = (o, st') ->
  trailer_post (mode_of st) (unread st) k o st'.
Proof.
  induction fuel as [|fuel IH]; intros st k o st' Hm Hu Hb Hlv Ht Hr Hf.
  { cbn. intros [= <- <-]. apply trailer_post_done; auto; try lia. unfold in_trailer in Hr. wf_tac. }
  cbn [trailer_loop]. destruct (m_iBufUsed st <? m_iBufLen st) eqn:E.
  2:{ intros [= <- <-]. apply trailer_post_done; auto; try lia. unfold in_trailer in Hr. wf_tac. }
  rewrite (trailer_mode st) by assumption.
  assert (Hun : unread st = znth (m_achChunkLenBuf st) (m_iBufUsed st) ::
                  slice (m_iBufUsed st + 1) (m_iBufLen st) (m_achChunkLenBuf st))
    by (apply slice_cons; lia).
  rewrite Hun. set (ch := znth _ _). set (st1 := inc_trailer _).
  assert (Hnext : forall r', trail_mode (m_iRemain st) (m_iTrailerLen st) ch = MTrail r' (1 + m_iTrailerLen st) ->
            -4 <= r' < 0 -> trailer_loop fuel (set_remain st1 r') = (o, st') ->
            trailer_post (MTrail (m_iRemain st) (m_iTrailerLen st))
              (ch :: slice (m_iBufUsed st + 1) (m_iBufLen st) (m_achChunkLenBuf st)) k o st').
  { intros r' Hs Hr' Hloop. eapply trailer_post_step; [reflexivity|cbn; rewrite Hs; reflexivity|].
    apply (IH _ k) in Hloop; try assumption; try (unfold in_trailer; cbn; lia).
    rewrite trailer_mode in Hloop by assumption. exact Hloop. }
  assert (Hbad : trail_mode (m_iRemain st) (m_iTrailerLen st) ch = MErr -> forall s0 : cis,
            trailer_post (MTrail (m_iRemain st) (m_iTrailerLen st))
              (ch :: slice (m_iBufUsed st + 1) (m_iBufLen st) (m_achChunkLenBuf st)) k (Some (-1)) s0).
  { intros Hs s0. apply trailer_post_bad; [reflexivity|cbn; rewrite Hs; reflexivity]. }
  assert (Hst1 : set_remain st1 (m_iRemain st) = st1) by reflexivity.
  unfold trail_mode in Hnext, Hbad. destruct (m_iTrailerLen st >=? MAX_CHUNK_TRAILER_SIZE) eqn:Emax;
    [intros [= <- <-]; apply Hbad; reflexivity|].
  change (m_iRemain st1) with (m_iRemain st).
  destruct (m_iRemain st =? -3) eqn:E3.
  { assert (Er : m_iRemain st = -3) by lia.
    destruct (ch =? 13); [apply Hnext; [reflexivity|lia]|].
    destruct (ch =? 10); [intros [= <- <-]; apply Hbad; reflexivity|].
    rewrite <- Hst1. apply Hnext; [rewrite Er; reflexivity|lia]. }
  destruct (m_iRemain st =? -2) eqn:E2.
  { destruct (ch =? 13); [apply Hnext; [reflexivity|lia]|].
    destruct (ch =? 10); [intros [= <- <-]; apply Hbad; reflexivity|].
    apply Hnext; [reflexivity|lia]. }
  destruct (m_iRemain st =? -1) eqn:E1.
  { destruct (ch =? 10) eqn:Ech; [|intros [= <- <-]; apply Hbad; reflexivity].
    assert (Ech' : ch = 10) by lia. rewrite Ech'. intros Hp.
    pose proof (trailer_post_eof st1 (m_achChunkLenBuf st) k (m_iRemain st) (m_iTrailerLen st) Hm
                  ltac:(cbn; lia) ltac:(cbn; lia) eq_refl) as Hd.
    cbn zeta in Hd. change (m_iBufUsed (set_chunk st1 CHUNK_EOF 0)) with (m_iBufUsed st1) in Hp.
    change (m_iBufLen (set_chunk st1 CHUNK_EOF 0)) with (m_iBufLen st1) in Hp.
    destruct (m_iBufUsed st1 =? m_iBufLen st1); injection Hp as <- <-; apply Hd;
      cbn; unfold trail_mode; rewrite Emax, E3, E2, E1; reflexivity. }
  destruct (m_iRemain st =? -4) eqn:E4.
  { destruct (ch =? 10); [apply Hnext; [reflexivity|lia]|intros [= <- <-]; apply Hbad; reflexivity]. }
  intros [= <- <-]; apply Hbad; reflexivity.
Qed.

Lemma skipTrailer_ok fuel : forall st s,
  wf st -> live st -> in_trailer st ->
  zlen (is_rest s) + (if m_iBufUsed st =? m_iBufLen st then 1 else 2) <= Z.of_nat fuel ->
  exists r st' s', skipTrailer fuel st s = Some (r, st', s') /\ post st s r [] st' s'.
Proof.
  induction fuel as [|fuel IH]; intros st s Hw Hlv Hr Hf.
  { pose proof (zlen_nonneg (is_rest s)). destruct (_ =? _); lia. }
  destruct Hw as [Hm Hp Hl Hdd]. destruct (Hl Hlv) as (Hb & _ & Ht & _).
  unfold MAX_CHUNK_LEN_BUF_SIZE in Hm, Hp.
  assert (Hinner : forall st1 s1,
     zlen (m_achChunkLenBuf st1) = 80 -> 0 <= m_iBufUsed st1 <= m_iBufLen st1 -> m_iBufLen st1 <= 80 ->
     live st1 -> 0 <= m_iTrailerLen st1 -> in_trailer st1 -> zlen (is_rest s1) + 1 <= Z.of_nat fuel ->
     exists r st' s', match trailer_loop (Z.to_nat (m_iBufLen st1 - m_iBufUsed st1)) st1 with
       | (Some r, st) => Some (r, st, s1)
       | (None, st) => skipTrailer fuel st s1
       end = Some (r, st', s') /\ post st1 s1 r [] st' s').
  { intros st1 s1 Hm1 Hu1 Hb1 Hlv1 Ht1 Hr1 Hf1.
    destruct (trailer_loop _ st1) as [o st2] eqn:El.
    apply (trailer_loop_ok _ _ (is_rest s1)) in El; try assumption; try lia.
    destruct o as [r|].
    - exists r, st2, s1. split; [reflexivity|]. destruct El as [(-> & Hw2 & _ & Hlen & Hrun)|(-> & Hx)].
      + apply post_intro; [lia|assumption|rewrite emit_nil; exact Hrun|].
        unfold pend. rewrite !zlen_app. cbn. lia.
      + apply post_neg; [lia|auto].
    - destruct El as (Hw2 & Hlv2 & Hr2 & Hub2 & Hrun).
      destruct (IH st2 s1) as (r & st' & s' & Heq & Hpost); try assumption.
      { rewrite (proj2 (Z.eqb_eq _ _)) by assumption. lia. }
      exists r, st', s'. split; [assumption|].
      apply (post_trans st1 s1 0 [] st2 s1 r [] st' s'); [lia| |assumption].
      assert (Hp2 : pend st2 s1 = is_rest s1) by (unfold pend, unread; rewrite slice_nil by lia; reflexivity).
      apply post_intro; [lia|assumption|rewrite emit_nil, Hp2; exact Hrun|].
      rewrite Hp2. unfold pend. rewrite zlen_app. pose proof (zlen_nonneg (unread st1)). cbn. lia. }
  cbn [skipTrailer]. destruct (m_iBufUsed st =? m_iBufLen st) eqn:E.
  2:{ apply Hinner; try assumption; lia. }
  assert (Hun : unread st = []) by (unfold unread; apply slice_nil; lia).
  pose proof (is_read_ok s 80 ltac:(lia)) as Hok. unfold MAX_CHUNK_LEN_BUF_SIZE.
  destruct (is_read s 80) as [[ret d] s1].
  apply read_cases in Hok as [(Hret & -> & Hrest)|[(-> & -> & Hrest)|(Hret & -> & Hfl & Hrest)]].
  - replace (zlen d <=? 0) with false by lia.
    destruct (fill_ok st d) as [Hm1 Hsl]; [assumption|lia|].
    set (st1 := set_buf _ 0 (zlen d)).
    destruct (Hinner st1 s1) as (r & st' & s' & Heq & Hpost); try assumption; try (cbn; lia).
    { rewrite Hrest, zlen_app in Hf. lia. }
    exists r, st', s'. split; [exact Heq|]. apply (post_left st s st1 s1); [reflexivity| |assumption].
    unfold pend. rewrite Hun, Hrest. change (unread st1) with (slice 0 (zlen d) (store (m_achChunkLenBuf st) 0 d)).
    rewrite Hsl. reflexivity.
  - eexists _, _, _. split; [reflexivity|]. unfold in_trailer in Hr.
    apply post_same; [wf_tac|reflexivity|]. unfold pend. rewrite Hun, Hrest. reflexivity.
  - replace (ret <=? 0) with true by lia. eexists _, _, _. split; [reflexivity|].
    apply post_neg; [lia|auto].
Qed.

(** *** [bufRead] and [readChunkContent] *)

(** The state of the line buffer while chunk data is being read. *)
Definition buf_ok st : Prop :=
  zlen (m_achChunkLenBuf st) = 80 /\ 0 <= m_iBufUsed st <= m_iBufLen st /\ m_iBufLen st <= 80 /\
  (m_iBufUsed st = m_iBufLen st -> m_iBufUsed st = 0).

Definition same_chunk st st' : Prop :=
  m_iChunkLen st' = m_iChunkLen st /\ m_iRemain st' = m_iRemain st /\ m_iTrailerLen st' = m_iTrailerLen st.

Definition moved st s (len r : Z) (d : list Z) st' s' : Prop :=
  buf_ok st' /\ same_chunk st st' /\ zlen d <= len /\
  ((0 < r /\ r = zlen d /\ pend st s = d ++ pend st' s') \/
   (r = 0 /\ d = [] /\ pend st s = pend st' s') \/
   (r < 0 /\ d = [] /\ is_failed s' = true /\ pend st s = pend st' s')).

(** The part of [bufRead] after the buffered bytes are used up. *)
Lemma bufRead_stream_ok st s len pf r d st' s' :
  buf_ok st -> unread st = [] -> 0 <= len ->
  bufRead_stream st s len pf = (r, d, st', s') ->
  (pf = true -> 0 < len) -> moved st s len r d st' s'.
Proof.
  intros (Hm & Hu & Hb & Hz) Hun Hlen Heq Hpf. unfold bufRead_stream in Heq. unfold moved, pend. rewrite Hun. cbn [app].
  assert (Hu0 : m_iBufUsed st = m_iBufLen st).
  { destruct (Z.lt_trichotomy (m_iBufUsed st) (m_iBufLen st)) as [Hlt|[?|?]]; [|assumption|lia].
    assert (zlen (unread st) = m_iBufLen st - m_iBufUsed st) as Hx by (apply zlen_slice; lia).
    rewrite Hun in Hx. change (zlen (@nil Z)) with 0 in Hx. lia. }
  pose proof (Hz Hu0) as Hu1.
  destruct pf.
  - pose proof (is_readv_ok s len 8 Hlen ltac:(lia)) as Hok. specialize (Hpf eq_refl).
    destruct (is_readv s len 8) as [[ret d1] s1].
    apply read_cases in Hok as [(Hret & -> & Hrest)|[(-> & -> & Hrest)|(Hret & -> & Hfl & Hrest)]].
    + destruct (zlen d1 - len >? 0) eqn:E; injection Heq as <- <- <- <-.
      * assert (Hd : zlen (zdrop len d1) = zlen d1 - len) by (rewrite zlen_zdrop; lia).
        destruct (fill_ok st (zdrop len d1)) as [Hm1 Hsl]; [assumption|lia|].
        split; [unfold buf_ok; cbn; rewrite Hm1; lia|]. split; [split_and!; reflexivity|].
        rewrite zlen_ztake by lia. split; [lia|]. left. split; [lia|]. split; [lia|].
        unfold unread. cbn. rewrite Hu1. rewrite <- Hd, Hsl, app_assoc, ztake_zdrop. exact Hrest.
      * split; [unfold buf_ok; auto|]. split; [split_and!; reflexivity|]. split; [lia|].
        left. rewrite Hun. auto with lia.
    + replace (0 - len >? 0) with false in Heq by lia. injection Heq as <- <- <- <-.
      split; [unfold buf_ok; auto|]. split; [split_and!; reflexivity|]. split; [assumption|].
      right; left. rewrite Hun. auto.
    + replace (ret - len >? 0) with false in Heq by lia. injection Heq as <- <- <- <-.
      split; [unfold buf_ok; auto|]. split; [split_and!; reflexivity|]. split; [assumption|].
      right; right. rewrite Hun. auto with lia.
  - pose proof (is_read_ok s len Hlen) as Hok. destruct (is_read s len) as [[ret d1] s1].
    injection Heq as <- <- <- <-.
    split; [unfold buf_ok; auto|]. split; [split_and!; reflexivity|].
    apply read_cases in Hok as [(Hret & -> & Hrest)|[(-> & -> & Hrest)|(Hret & -> & Hfl & Hrest)]].
    + split; [lia|]. left. rewrite Hun. auto with lia.
    + split; [assumption|]. right; left. rewrite Hun. auto.
    + split; [assumption|]. right; right. rewrite Hun. auto.
Qed.

Lemma bufRead_ok st s len pf r d st' s' :
  buf_ok st -> 0 <= len -> (pf = true -> 0 < len) ->
  bufRead st s len pf = (r, d, st', s') -> moved st s len r d st' s'.
Proof.
  intros Hbo Hlen Hpf. pose proof Hbo as (Hm & Hu & Hb & Hz). unfold bufRead. cbv zeta.
  set (left0 := m_iBufLen st - m_iBufUsed st).
  destruct (left0 >? 0) eqn:E0; cbn [andb].
  2:{ assert (Hun : unread st = []) by (unfold unread; apply slice_nil; lia).
      assert (Hl0 : left0 = 0) by lia. rewrite Hl0.
      destruct (bufRead_stream st s len pf) as [[[ret d1] st1] s1] eqn:Es.
      apply bufRead_stream_ok in Es; try assumption.
      destruct Es as (Hb1 & Hs1 & Hd1 & Hc). cbn [app Z.eqb negb]. rewrite Z.add_0_r.
      destruct (ret >? 0); intros [= <- <- <- <-]; split_and!; auto; apply Hs1. }
  set (left := Z.min left0 len).
  set (d0 := ztake left (zdrop (m_iBufUsed st) (m_achChunkLenBuf st))).
  set (st0 := if m_iBufUsed st + left =? m_iBufLen st then _ else _).
  assert (Hd0 : zlen d0 = left) by (unfold d0; rewrite zlen_ztake, zlen_zdrop; lia).
  assert (Hb0 : buf_ok st0).
  { unfold buf_ok, st0. destruct (_ =? _) eqn:?; cbn; rewrite Hm; lia. }
  assert (Hs0 : same_chunk st st0) by (unfold st0; destruct (_ =? _); split_and!; reflexivity).
  assert (Hun0 : unread st = d0 ++ unread st0).
  { unfold unread at 1. rewrite (slice_split _ (m_iBufUsed st + left)) by lia. f_equal.
    - unfold slice, d0. f_equal. lia.
    - unfold st0, unread. destruct (_ =? _) eqn:?; cbn; [rewrite !slice_nil by lia|]; reflexivity. }
  assert (Hpend : forall s1, unread st ++ is_rest s1 = d0 ++ pend st0 s1)
    by (intros; rewrite Hun0, <- app_assoc; reflexivity).
  destruct (left =? len) eqn:El.
  { intros [= <- <- <- <-]. split; [assumption|]. split; [assumption|]. split; [lia|].
    destruct (Z.eq_dec left 0) as [Hz0|]; [right; left|left].
    - destruct d0 eqn:Ed0; [|rewrite zlen_cons in Hd0; pose proof (zlen_nonneg l); lia].
      split_and!; auto. unfold pend at 1. rewrite Hpend. reflexivity.
    - split_and!; [lia|lia|apply Hpend]. }
  assert (Hun1 : unread st0 = []).
  { unfold st0. replace (m_iBufUsed st + left =? m_iBufLen st) with true by lia.
    unfold unread. cbn. apply slice_nil. lia. }
  destruct (bufRead_stream st0 s (len - left) pf) as [[[ret d1] st1] s1] eqn:Es.
  apply bufRead_stream_ok in Es; try assumption; try lia.
  destruct Es as (Hb1 & (Hs1 & Hs2 & Hs3) & Hd1 & Hc). destruct Hs0 as (Ha & Hb' & Hc').
  assert (Hs : same_chunk st st1) by (split_and!; congruence).
  assert (Hps : pend st s = d0 ++ pend st0 s) by (unfold pend at 1; apply Hpend).
  replace (negb (left =? 0)) with true by lia.
  destruct Hc as [(Hr & -> & Hp)|[(-> & -> & Hp)|(Hr & -> & _ & Hp)]].
  - replace (zlen d1 >? 0) with true by lia. intros [= <- <- <- <-]. split_and!; try assumption.
    + rewrite zlen_app. lia.
    + left. rewrite zlen_app, Hps, Hp, app_assoc. auto with lia.
  - intros [= <- <- <- <-]. rewrite app_nil_r. split_and!; try assumption; [lia|].
    left. rewrite Hps, Hp. auto with lia.
  - replace (ret >? 0) with false by lia. intros [= <- <- <- <-]. rewrite app_nil_r.
    split_and!; try assumption; [lia|].
    left. rewrite Hps, Hp. auto with lia.
Qed.

Lemma readChunkContent_ok st s size r d st' s' :
  wf st -> live st -> 2 < m_iRemain st -> 0 <= size ->
  readChunkContent st s size = (r, d, st', s') ->
  post st s r d st' s' /\ zlen d <= size /\ (r <= 0 -> m_iRemain st' = m_iRemain st /\ d = []).
Proof.
  intros [Hm Hp Hl Hdd] Hlv Hr Hsz. destruct (Hl Hlv) as (Hb & _ & _ & Ht0 & Hz & _).
  unfold MAX_CHUNK_LEN_BUF_SIZE in *. unfold readChunkContent.
  set (len := if m_iRemain st - 2 >? size then size else m_iRemain st - 2).
  assert (Hlen : 0 <= len <= size /\ len <= m_iRemain st - 2) by (unfold len; destruct (_ >? _) eqn:?; lia).
  assert (Hcall : exists pf : bool, (pf = true -> 0 < len) /\
    (if m_iRemain st - 2 >? size then bufRead st s size false
     else bufRead st s (m_iRemain st - 2) true) = bufRead st s len pf).
  { unfold len. destruct (_ >? _) eqn:?; [exists false|exists true]; split; auto; lia. }
  destruct Hcall as (pf & Hpf & ->). destruct (bufRead st s len pf) as [[[ret d1] st1] s1] eqn:Eb.
  apply bufRead_ok in Eb; [|unfold buf_ok; split_and!; auto; lia|lia|assumption].
  destruct Eb as (Hb1 & (Hc1 & Hc2 & Hc3) & Hd1 & Hcase). destruct Hb1 as (Hbm & Hbu & Hbb & Hbz).
  assert (Hmode : forall n, 0 < n <= m_iRemain st - 2 ->
     mode_of (set_remain st1 (m_iRemain st1 - n)) =
       if n =? m_iRemain st - 2 then MCR else MData (m_iRemain st - 2 - n)).
  { intros n Hn. rewrite mode_live by (unfold live; cbn; rewrite Hc1; exact Hlv). cbn. rewrite Hc2.
    rewrite (proj2 (Z.eqb_neq (m_iRemain st - n) 0)) by lia.
    destruct (n =? m_iRemain st - 2) eqn:En.
    - replace (m_iRemain st - n) with 2 by lia. reflexivity.
    - replace (m_iRemain st - n >? 2) with true by lia. f_equal. lia. }
  assert (Hmode0 : mode_of st = MData (m_iRemain st - 2)).
  { rewrite mode_live by assumption. rewrite (proj2 (Z.eqb_neq _ 0)) by lia.
    replace (m_iRemain st >? 2) with true by lia. reflexivity. }
  assert (Hlv1 : live st1) by (unfold live; rewrite Hc1; exact Hlv).
  destruct Hcase as [(Hr0 & -> & Hpd)|[(-> & -> & Hpd)|(Hr0 & -> & Hf & Hpd)]].
  - replace (zlen d1 >? 0) with true by lia. intros [= <- <- <- <-]. split; [|split; [lia|lia]].
    apply post_intro; [lia| | |].
    + unfold live in Hlv. wf_tac.
    + rewrite Hmode, Hmode0, Hpd by lia. change (pend (set_remain st1 _) s1) with (pend st1 s1).
      destruct (zlen d1 =? m_iRemain st - 2) eqn:En.
      * rewrite <- (proj1 (Z.eqb_eq _ _) En). apply run_data_all. lia.
      * apply run_data. lia.
    + change (pend (set_remain st1 _) s1) with (pend st1 s1). rewrite Hpd, zlen_app. destruct (_ >? 0); lia.
  - intros [= <- <- <- <-]. change (zlen (@nil Z)) with 0. split; [|auto].
    apply post_same; [unfold live in Hlv; wf_tac| |congruence].
    rewrite !mode_live by assumption. rewrite Hc2, Hc3. reflexivity.
  - replace (ret >? 0) with false by lia. intros [= <- <- <- <-]. change (zlen (@nil Z)) with 0.
    split; [|auto]. apply post_neg; auto.
Qed.

(** *** [read] *)

Lemma post_wf st s r d st' s' : 0 <= r -> post st s r d st' s' -> wf st'.
Proof. unfold post. intros Hr. rewrite (proj2 (Z.ltb_ge r 0)) by lia. tauto. Qed.

Lemma post_len st s r d st' s' :
  0 <= r -> post st s r d st' s' ->
  zlen (pend st' s') + (if r >? 0 then 1 else 0) <= zlen (pend st s).
Proof. unfold post. intros Hr. rewrite (proj2 (Z.ltb_ge r 0)) by lia. tauto. Qed.

(** The last two branches of a turn, from a state with [m_iRemain <= 2]. *)
Definition turn_tail (fuel : nat) (ret : Z) (d : list Z) st s : option (Z * list Z * cis * S) :=
  let '(ret, st, s) :=
    if (m_iRemain st <=? 2) && (m_iRemain st >? 0) then readTrailingCRLF st s
    else (ret, st, s) in
  if m_iRemain st <? 0 then
    match skipTrailer fuel st s with
    | None => None
    | Some (ret, st, s) => Some (ret, d, st, s)
    end
  else Some (ret, d, st, s).

Lemma trailer_tail_ok fuel st s ret d st0 s0 :
  (ret <= 0 -> 0 <= m_iRemain st) -> post st0 s0 ret d st s ->
  (0 <= ret -> zlen (pend st s) + 2 <= Z.of_nat fuel) ->
  exists r st' s', (if m_iRemain st <? 0 then
      match skipTrailer fuel st s with
      | None => None
      | Some (ret, st, s) => Some (ret, d, st, s)
      end
    else Some (ret, d, st, s)) = Some (r, d, st', s') /\ post st0 s0 r d st' s'.
Proof.
  intros Hneg Hpost Hf. destruct (m_iRemain st <? 0) eqn:E.
  2:{ exists ret, st, s. auto. }
  assert (Hr : 0 < ret) by lia. specialize (Hf ltac:(lia)).
  pose proof (post_wf _ _ _ _ _ _ (Z.lt_le_incl _ _ Hr) Hpost) as Hw.
  destruct (decide (INVALID_CHUNK < m_iChunkLen st)) as [Hlv|Hd];
    [|pose proof (wf_dead _ Hw Hd); lia].
  destruct (wf_live _ Hw Hlv) as (Hb & Hr4 & _).
  destruct (skipTrailer_ok fuel st s) as (r & st' & s' & -> & Hp2); try assumption.
  - unfold in_trailer. lia.
  - unfold pend in Hf. rewrite zlen_app in Hf. pose proof (zlen_nonneg (unread st)).
    destruct (_ =? _); lia.
  - exists r, st', s'. split; [reflexivity|]. rewrite <- (app_nil_r d).
    eapply post_trans; [|exact Hpost|exact Hp2]. lia.
Qed.

Lemma wf_nonzero_live st : wf st -> m_iRemain st <> 0 -> live st /\ -4 <= m_iRemain st.
Proof.
  intros Hw Hr. destruct (decide (INVALID_CHUNK < m_iChunkLen st)) as [Hlv|Hd].
  - destruct (wf_live _ Hw Hlv) as (_ & ? & _). auto.
  - pose proof (wf_dead _ Hw Hd). lia.
Qed.

Lemma post_weaken st s r d st' s' : 0 <= r -> post st s r d st' s' -> post st s 0 d st' s'.
Proof.
  intros Hr. unfold post. rewrite (proj2 (Z.ltb_ge r 0)) by lia. cbn. intros (?&?&?).
  split_and!; auto. destruct (r >? 0); lia.
Qed.

Lemma turn_tail_ok fuel st s ret d st0 s0 :
  m_iRemain st <> 0 -> m_iRemain st <= 2 -> post st0 s0 0 d st s ->
  zlen (pend st s) + 2 <= Z.of_nat fuel ->
  exists r st' s', turn_tail fuel ret d st s = Some (r, d, st', s') /\ post st0 s0 r d st' s'.
Proof.
  intros Hnz Hle Hpost Hf.
  pose proof (post_wf _ _ _ _ _ _ (Z.le_refl 0) Hpost) as Hw.
  destruct (wf_nonzero_live _ Hw Hnz) as [Hlv H4]. unfold turn_tail.
  destruct ((m_iRemain st <=? 2) && (m_iRemain st >? 0)) eqn:E.
  - destruct (readTrailingCRLF st s) as [[r1 st1] s1] eqn:Ec.
    destruct (readTrailingCRLF_ok _ _ _ _ _ Hw Hlv ltac:(lia) Ec) as [Hp1 Hr1].
    apply trailer_tail_ok; [assumption| |].
    + rewrite <- (app_nil_r d). eapply post_trans; [|exact Hpost|exact Hp1]. lia.
    + intros Hr0. pose proof (post_len _ _ _ _ _ _ Hr0 Hp1). destruct (r1 >? 0); lia.
  - replace (m_iRemain st <? 0) with true by lia.
    destruct (skipTrailer_ok fuel st s) as (r & st' & s' & -> & Hp2); try assumption.
    + unfold in_trailer. lia.
    + unfold pend in Hf. rewrite zlen_app in Hf. pose proof (zlen_nonneg (unread st)).
      destruct (_ =? _); lia.
    + exists r, st', s'. split; [reflexivity|]. rewrite <- (app_nil_r d).
      eapply post_trans; [|exact Hpost|exact Hp2]. lia.
Qed.

Definition content_tail (fuel : nat) (ret : Z) st s (size : Z) : option (Z * list Z * cis * S) :=
  let '(ret, d, st, s) :=
    if m_iRemain st >? 2 then readChunkContent st s size else (ret, [], st, s) in
  turn_tail fuel ret d st s.

Lemma content_tail_ok fuel ret st s size st0 s0 :
  m_iRemain st <> 0 -> post st0 s0 0 [] st s -> 0 <= size ->
  zlen (pend st s) + 2 <= Z.of_nat fuel ->
  exists r d st' s', content_tail fuel ret st s size = Some (r, d, st', s') /\
    post st0 s0 r d st' s' /\ zlen d <= size.
Proof.
  intros Hnz Hpost Hsz Hf.
  pose proof (post_wf _ _ _ _ _ _ (Z.le_refl 0) Hpost) as Hw.
  destruct (wf_nonzero_live _ Hw Hnz) as [Hlv H4]. unfold content_tail.
  destruct (m_iRemain st >? 2) eqn:E.
  2:{ destruct (turn_tail_ok fuel st s ret [] st0 s0) as (r & st' & s' & -> & Hp); try assumption; try lia.
      exists r, [], st', s'. split_and!; auto. }
  destruct (readChunkContent st s size) as [[[r1 d1] st1] s1] eqn:Ec.
  destruct (readChunkContent_ok _ _ _ _ _ _ _ Hw Hlv ltac:(lia) Hsz Ec) as (Hp1 & Hd1 & Hneg).
  pose proof (post_trans _ _ _ _ _ _ _ _ _ _ (Z.le_refl 0) Hpost Hp1) as Hp2. cbn [app] in Hp2.
  assert (Hskip : 2 < m_iRemain st1 -> turn_tail fuel r1 d1 st1 s1 = Some (r1, d1, st1, s1)).
  { intros. unfold turn_tail. replace (m_iRemain st1 <=? 2) with false by lia. cbn [andb].
    replace (m_iRemain st1 <? 0) with false by lia. reflexivity. }
  destruct (decide (2 < m_iRemain st1)) as [Hgt|Hngt].
  - rewrite Hskip by assumption. exists r1, d1, st1, s1. auto.
  - assert (Hr1 : 0 < r1) by (destruct (decide (0 < r1)); [assumption|]; destruct Hneg; lia).
    assert (Hnz1 : m_iRemain st1 <> 0).
    { revert Ec. unfold readChunkContent. destruct (_ >? size) eqn:Eg;
        (destruct (bufRead _ _ _ _) as [[[r2 d2] st2] s2] eqn:Eb;
         apply bufRead_ok in Eb; [|destruct (wf_live _ Hw Hlv) as (?&?&?&?&?&?); destruct (wf_pos _ Hw);
           pose proof (wf_mem _ Hw); unfold buf_ok, MAX_CHUNK_LEN_BUF_SIZE in *; split_and!; auto; lia|lia|auto with lia];
         destruct Eb as (_ & (_ & Hc2 & _) & Hlen & Hcs);
         destruct (r2 >? 0) eqn:E2; intros [= <- <- <- <-]; [cbn; lia|lia]). }
    pose proof (post_len _ _ _ _ _ _ (Z.lt_le_incl _ _ Hr1) Hp1).
    destruct (turn_tail_ok fuel st1 s1 r1 d1 st0 s0) as (r & st' & s' & -> & Hp); try assumption; try lia.
    + eapply post_weaken; [|exact Hp2]. lia.
    + destruct (r1 >? 0); lia.
    + exists r, d1, st', s'. auto.
Qed.

Lemma read_turn_ok fuel st s size :
  wf st -> live st -> 0 <= size -> zlen (pend st s) + 2 <= Z.of_nat fuel ->
  exists r d st' s', read_turn fuel st s size = Some (r, d, st', s') /\
    post st s r d st' s' /\ zlen d <= size.
Proof.
  intros Hw Hlv Hsz Hf.
  destruct (decide (m_iRemain st = 0)) as [Hz|Hnz].
  - destruct (nextChunk st s) as [[r1 st1] s1] eqn:En.
    destruct (nextChunk_ok _ _ _ _ _ Hw Hlv Hz En) as (Hp1 & Hr1 & Hnz1).
    assert (Heq : read_turn fuel st s size = content_tail fuel r1 st1 s1 size).
    { unfold read_turn, content_tail, turn_tail. rewrite (proj2 (Z.eqb_eq _ _) Hz), En. reflexivity. }
    rewrite Heq. destruct (decide (m_iRemain st1 = 0)) as [Hz1|Hnz2].
    + exists r1, [], st1, s1. split; [|split; [assumption|rewrite zlen_nil; lia]].
      unfold content_tail, turn_tail. rewrite Hz1. change (0 >? 2) with false. cbn iota beta.
      rewrite Hz1. change ((0 <=? 2) && (0 >? 0)) with false. cbn iota beta.
      rewrite Hz1. reflexivity.
    + assert (0 < r1) by (destruct (decide (0 < r1)); [assumption|]; exfalso; apply Hnz2, Hr1; lia).
      pose proof (post_len _ _ _ _ _ _ (Z.lt_le_incl _ _ H) Hp1).
      apply content_tail_ok; try assumption.
      * eapply post_weaken; [|exact Hp1]. lia.
      * destruct (r1 >? 0); lia.
  - assert (Heq : read_turn fuel st s size = content_tail fuel (-1) st s size).
    { unfold read_turn, content_tail, turn_tail. rewrite (proj2 (Z.eqb_neq _ _) Hnz). reflexivity. }
    rewrite Heq. apply content_tail_ok; try assumption. apply post_same; auto.
Qed.

(** What [read] promises: [post] without the byte count, the state being
    [INVALID] after a failure. *)
Definition read_post st s (out : list Z) st' s' : Prop :=
  (wf st' /\ run (mode_of st) (pend st s) = emit out (run (mode_of st') (pend st' s')) /\
   zlen (pend st' s') <= zlen (pend st s)) \/
  (m_iChunkLen st' = INVALID_CHUNK /\
   (is_failed s' = true \/ exists x, run (mode_of st) (pend st s) = (out, MErr, x))).

Lemma post_read_post st s r d st' s' : 0 <= r -> post st s r d st' s' -> read_post st s d st' s'.
Proof.
  intros Hr Hp. pose proof (post_len _ _ _ _ _ _ Hr Hp). left. unfold post in Hp.
  replace (r <? 0) with false in Hp by lia. destruct Hp as (?&?&_). split_and!; auto.
  destruct (r >? 0); lia.
Qed.

Lemma read_end_ok st s ret out st0 s0 :
  post st0 s0 ret out st s ->
  exists r st', read_end ret out st s = (r, out, st', s) /\ read_post st0 s0 out st' s /\
    (r = zlen out \/ (out = [] /\ r <= 0)).
Proof.
  intros Hpost. unfold read_end.
  assert (Hnil : (zlen out =? 0) = true -> out = []).
  { destruct out; [auto|]. rewrite zlen_cons. pose proof (zlen_nonneg out). lia. }
  destruct (ret <=? 0) eqn:E.
  - eexists _, _. split; [reflexivity|]. split.
    + destruct (ret =? 0) eqn:E0.
      * apply (post_read_post _ _ ret); [lia|assumption].
      * right. unfold post in Hpost. replace (ret <? 0) with true in Hpost by lia. auto.
    + destruct (zlen out =? 0) eqn:Ez; [right; split; [auto|lia]|auto].
  - exists (zlen out), st. split; [reflexivity|]. split; [|auto].
    apply (post_read_post _ _ ret); [lia|assumption].
Qed.

Lemma read_loop_ok fuel : forall st s size out st0 s0,
  wf st -> 0 <= size -> zlen (pend st s) + 2 < Z.of_nat fuel ->
  post st0 s0 0 out st s ->
  exists r d st' s', read_loop fuel st s size out = Some (r, out ++ d, st', s') /\
    zlen d <= size /\ read_post st0 s0 (out ++ d) st' s' /\
    (r = zlen (out ++ d) \/ (out ++ d = [] /\ r <= 0)).
Proof.
  induction fuel as [|fuel IH]; intros st s size out st0 s0 Hw Hsz Hf Hpost.
  { pose proof (zlen_nonneg (pend st s)). lia. }
  cbn [read_loop]. destruct (m_iChunkLen st =? CHUNK_EOF) eqn:Ee.
  { exists (zlen out), [], st, s. rewrite app_nil_r. split_and!; auto.
    apply (post_read_post _ _ 0); [lia|assumption]. }
  assert (Hlv : live st).
  { destruct (decide (INVALID_CHUNK < m_iChunkLen st)) as [|Hd]; [assumption|].
    destruct (wf_dead _ Hw Hd). lia. }
  replace (m_iChunkLen st <=? INVALID_CHUNK) with false by (unfold live in Hlv; lia).
  destruct (read_turn_ok (Datatypes.S fuel) st s size Hw Hlv Hsz ltac:(lia))
    as (ret & d & st1 & s1 & -> & Hp1 & Hd1).
  pose proof (post_trans _ _ _ _ _ _ _ _ _ _ (Z.le_refl 0) Hpost Hp1) as Hp2.
  destruct ((ret >? 0) && (size - zlen d >? 0)) eqn:Eg.
  - assert (Hr : 0 <= ret) by lia.
    pose proof (post_len _ _ _ _ _ _ Hr Hp1) as Hlen. replace (ret >? 0) with true in Hlen by lia.
    destruct (IH st1 s1 (size - zlen d) (out ++ d) st0 s0) as (r & d2 & st2 & s2 & -> & Hd2 & Hrp & Hr2).
    + eapply post_wf; [|exact Hp1]. exact Hr.
    + lia.
    + lia.
    + eapply post_weaken; [|exact Hp2]. exact Hr.
    + rewrite <- app_assoc in *. exists r, (d ++ d2), st2, s2. split_and!; auto.
      rewrite zlen_app. lia.
  - destruct (read_end_ok _ _ _ _ _ _ Hp2) as (r & st2 & -> & Hrp & Hr).
    exists r, d, st2, s1. auto.
Qed.

(** *** Sessions: several calls to [read] on the same stream *)

Fixpoint read_seq (fuel : nat) (st : cis) (s : S) (sizes : list Z) : option (list Z * cis * S) :=
  match sizes with
  | [] => Some ([], st, s)
  | size :: sizes =>
      match read fuel st s size with
      | None => None
      | Some (_, d, st, s) =>
          match read_seq fuel st s sizes with
          | None => None
          | Some (d2, st, s) => Some (d ++ d2, st, s)
          end
      end
  end.

Lemma read_seq_ok fuel sizes : forall st s out st0 s0,
  read_post st0 s0 out st s -> Forall (Z.le 0) sizes -> zlen (pend st0 s0) + 2 < Z.of_nat fuel ->
  exists d st' s', read_seq fuel st s sizes = Some (d, st', s') /\ read_post st0 s0 (out ++ d) st' s'.
Proof.
  induction sizes as [|n sizes IH]; intros st s out st0 s0 Hrp Hsz Hf.
  { exists [], st, s. rewrite app_nil_r. auto. }
  apply Forall_cons in Hsz as [Hn Hsz]. cbn [read_seq].
  assert (Hone : exists r d st1 s1, read fuel st s n = Some (r, d, st1, s1) /\
                   read_post st0 s0 (out ++ d) st1 s1).
  { destruct Hrp as [(Hw & Hrun & Hlen)|(Hinv & Hbad)].
    - destruct (read_loop_ok fuel st s n [] st s) as (r & d & st1 & s1 & Hread & Hd & Hp & _);
        try assumption; try lia; [apply post_same; auto|].
      exists r, d, st1, s1. split; [exact Hread|]. cbn [app] in Hp.
      destruct Hp as [(Hw1 & Hrun1 & Hl1)|(Hi & Hb)].
      + left. rewrite Hrun, Hrun1, emit_emit. split_and!; auto; lia.
      + right. split; [assumption|]. destruct Hb as [?|[x Hx]]; [auto|].
        right. rewrite Hrun, Hx. cbn. eauto.
    - destruct fuel as [|fuel]; [pose proof (zlen_nonneg (pend st0 s0)); lia|].
      unfold read. cbn [read_loop]. rewrite Hinv. cbn. eexists _, _, _, _. split; [reflexivity|].
      right. rewrite app_nil_r. split; [reflexivity|assumption]. }
  destruct Hone as (r & d & st1 & s1 & -> & Hp1).
  destruct (IH _ _ _ _ _ Hp1 Hsz Hf) as (d2 & st2 & s2 & -> & Hp2).
  exists (d ++ d2), st2, s2. rewrite app_assoc. auto.
Qed.

Lemma open_wf st : zlen (m_achChunkLenBuf st) = MAX_CHUNK_LEN_BUF_SIZE -> wf (open st).
Proof. intros Hm. unfold MAX_CHUNK_LEN_BUF_SIZE in *. wf_tac; rewrite ?ztake_0 in *; set_solver. Qed.

(** C1: the chunked decoder refines the byte-at-a-time automaton.  From any
    well-formed state, a call to [read] with enough fuel (the bytes pending,
    plus three) returns; the bytes stored, at most [size] of them, are what
    the automaton emits next, and decoding continues from the new state with
    the same result, however the underlying stream cuts the input and mixes in
    would-block events; the call fails only when the stream does or when the
    automaton rejects the input; and the return value is the number of bytes
    stored, or 0 or negative when none is. *)
Theorem read_refines_automaton fuel st s size :
  wf st -> 0 <= size -> zlen (pend st s) + 2 < Z.of_nat fuel ->
  exists r d st' s', read fuel st s size = Some (r, d, st', s') /\
    zlen d <= size /\ read_post st s d st' s' /\ (r = zlen d \/ (d = [] /\ r <= 0)).
Proof.
  intros Hw Hsz Hf. apply (read_loop_ok fuel st s size [] st s); try assumption. apply post_same; auto.
Qed.

(** A whole session, from [open] to the end of the stream. *)
Lemma session_decodes_aux fuel st0 s0 sizes :
  zlen (m_achChunkLenBuf st0) = MAX_CHUNK_LEN_BUF_SIZE -> Forall (Z.le 0) sizes ->
  zlen (is_rest s0) + 2 < Z.of_nat fuel ->
  exists d st s, read_seq fuel (open st0) s0 sizes = Some (d, st, s) /\
    (eos st = true -> run (MLine []) (is_rest s0) = (d, MEof, pend st s)) /\
    (fail st = true -> is_failed s = false ->
       exists x, run (MLine []) (is_rest s0) = (d, MErr, x)).
Proof.
  intros Hm Hsz Hf.
  destruct (read_seq_ok fuel sizes (open st0) s0 [] (open st0) s0) as (d & st & s & Heq & Hp); try assumption.
  { left. split_and!; [apply open_wf, Hm|rewrite emit_nil; reflexivity|lia]. }
  cbn [app] in Hp. exists d, st, s. split; [exact Heq|].
  change (is_rest s0) with (pend (open st0) s0).
  unfold eos, fail, CHUNK_EOF, INVALID_CHUNK in *.
  destruct Hp as [(Hw & Hrun & _)|(Hi & Hbad)].
  - split.
    + intros He. rewrite (hd_mode st), (run_stop MEof) in Hrun by (reflexivity || (unfold CHUNK_EOF; lia)).
      cbn [emit] in Hrun. rewrite app_nil_r in Hrun. exact Hrun.
    + intros Hi _. exfalso. destruct (wf_dead _ Hw); unfold live, INVALID_CHUNK, CHUNK_EOF in *; lia.
  - unfold INVALID_CHUNK in Hi. rewrite Hi. split; [discriminate|].
    intros _ Hnf. destruct Hbad as [?|Hx]; [congruence|exact Hx].
Qed.

(** C18: a whole session.  Starting from [open], any sequence of calls to [read]
    that reaches end of stream has returned exactly the bytes the automaton
    decodes from the stream, and what is left buffered or unread is exactly
    what follows the message; a session that fails on a stream that did not
    fail has met an input that the automaton rejects. *)
Theorem session_decodes fuel st0 s0 sizes :
  zlen (m_achChunkLenBuf st0) = MAX_CHUNK_LEN_BUF_SIZE -> Forall (Z.le 0) sizes ->
  zlen (is_rest s0) + 2 < Z.of_nat fuel ->
  exists d st s, read_seq fuel (open st0) s0 sizes = Some (d, st, s) /\
    (eos st = true -> run (MLine []) (is_rest s0) = (d, MEof, pend st s)) /\
    (fail st = true -> is_failed s = false ->
       exists x, run (MLine []) (is_rest s0) = (d, MErr, x)).
Proof. apply session_decodes_aux. Qed.

End Refinement.

(** ** The chunk-size line *)

Definition hex_val (ds : list Z) : Z := fold_left (fun a c => a * 16 + xdigit_val c) ds 0.

Lemma hex_fold_mono ds : forall a b,
  forallb isxdigit ds = true -> 0 <= a <= b ->
  a <= fold_left (fun a c => a * 16 + xdigit_val c) ds b.
Proof.
  induction ds as [|c ds IH]; intros a b Hd Hab; cbn in *; [lia|].
  apply andb_true_iff in Hd as [Hc Hd]. pose proof (xdigit_val_range c Hc). apply IH; [assumption|lia].
Qed.

(** The digit loop reads the longest run of digits and checks its value. *)
Lemma parse_hex_iff p : forall a n q, 0 <= a <= INT_MAX - 2 ->
  (parse_hex a p = Some (n, q) <->
   exists ds, p = ds ++ q /\ forallb isxdigit ds = true /\
     n = fold_left (fun a c => a * 16 + xdigit_val c) ds a /\ n <= INT_MAX - 2 /\
     match q with [] => True | c :: _ => isxdigit c = false end).
Proof.
  induction p as [|c p IH]; intros a n q Ha; cbn [parse_hex].
  { split.
    - intros [= <- <-]. exists []. cbn. split_and!; auto. lia.
    - intros (ds & Hp & _ & Hn & _). symmetry in Hp. apply app_eq_nil in Hp as [-> ->]. cbn in Hn. congruence. }
  destruct (isxdigit c) eqn:Ec.
  2:{ split.
    - intros [= <- <-]. exists []. cbn. split_and!; auto. lia.
    - intros ([|c' ds] & Hp & Hd & Hn & _); cbn in *; [congruence|].
      injection Hp as -> _. rewrite Ec in Hd. discriminate. }
  pose proof (xdigit_val_range c Ec) as Hx.
  pose proof (Z.div_le_lower_bound (INT_MAX - 2 - xdigit_val c) 16 a ltac:(lia)) as Hdiv.
  pose proof (Z.mul_div_le (INT_MAX - 2 - xdigit_val c) 16 ltac:(lia)) as Hdiv2.
  destruct (a >? (INT_MAX - 2 - xdigit_val c) / 16) eqn:Eo.
  - split; [discriminate|]. intros ([|c' ds] & Hp & Hd & Hn & Hb & Hq); cbn in Hp.
    + subst q. congruence.
    + injection Hp as -> ->. cbn in Hd, Hn. apply andb_true_iff in Hd as [_ Hd].
      pose proof (hex_fold_mono ds (a * 16 + xdigit_val c') (a * 16 + xdigit_val c') Hd). lia.
  - rewrite IH by lia. split.
    + intros (ds & -> & Hd & Hn & Hb & Hq). exists (c :: ds). cbn. rewrite Ec, Hd. auto.
    + intros ([|c' ds] & Hp & Hd & Hn & Hb & Hq); cbn in Hp; [subst q; congruence|].
      injection Hp as -> ->. cbn in Hd, Hn. apply andb_true_iff in Hd as [_ Hd]. exists ds. auto.
Qed.

Lemma skip_blank_spec p :
  exists ws, p = ws ++ skip_blank p /\ forallb is_blank ws = true /\
    match skip_blank p with [] => True | c :: _ => is_blank c = false end.
Proof.
  induction p as [|c p (ws & Hp & Hw & Hs)]; cbn [skip_blank]; [exists []; auto|].
  destruct (is_blank c) eqn:E.
  - exists (c :: ws). cbn. rewrite E, Hw. rewrite Hp at 1. auto.
  - exists []. auto.
Qed.

Lemma skip_blank_app ws p :
  forallb is_blank ws = true -> match p with [] => True | c :: _ => is_blank c = false end ->
  skip_blank (ws ++ p) = p.
Proof.
  induction ws as [|c ws IH]; cbn; intros Hw Hp.
  - destruct p as [|c p]; [reflexivity|]. cbn. rewrite Hp. reflexivity.
  - apply andb_true_iff in Hw as [-> Hw]. auto.
Qed.

(** A line that is only digits. *)
Lemma parse_line_digits ds :
  ds <> [] -> forallb isxdigit ds = true -> hex_val ds + 2 <= INT_MAX ->
  parse_line ds = Some (hex_val ds).
Proof.
  intros Hne Hd Hv. unfold parse_line.
  assert (Hh : parse_hex 0 ds = Some (hex_val ds, [])).
  { apply parse_hex_iff; [unfold INT_MAX; lia|]. exists ds. rewrite app_nil_r. split_and!; auto; lia. }
  rewrite Hh. destruct ds as [|c ds]; [congruence|]. rewrite zlen_cons. pose proof (zlen_nonneg ds).
  change (zlen (@nil Z)) with 0. replace (0 =? 1 + zlen ds) with false by lia. reflexivity.
Qed.

(** The chunk-size line.  A line (without CRLF) is accepted with size [n]
    exactly when it is a non-empty run of hexadecimal digits of value [n], with
    [n + 2] representable as a C [int], followed by nothing, or by optional
    blanks and an extension introduced by a semicolon that holds no control
    character; everything else is rejected. *)
Theorem parse_line_language line n :
  parse_line line = Some n <->
  exists ds ws ext, line = ds ++ ws ++ ext /\ ds <> [] /\
    forallb isxdigit ds = true /\ forallb is_blank ws = true /\
    n = hex_val ds /\ n + 2 <= INT_MAX /\
    ((ws = [] /\ ext = []) \/ (exists e, ext = 59 :: e /\ existsb bad_ext_char e = false)).
Proof.
  unfold parse_line. split.
  - destruct (parse_hex 0 line) as [[v p]|] eqn:Eh; [|discriminate].
    apply parse_hex_iff in Eh as (ds & -> & Hd & Hv & Hb & Hq); [|unfold INT_MAX; lia].
    destruct (zlen p =? zlen (ds ++ p)) eqn:El; [discriminate|].
    assert (Hne : ds <> []) by (intros ->; cbn [app] in El; lia).
    destruct (skip_blank_spec p) as (ws & Hp & Hws & Hs).
    set (bl := match p with c :: _ => is_blank c | [] => false end).
    set (p2 := if bl then skip_blank p else p).
    assert (Hp2 : exists ws2, p = ws2 ++ p2 /\ forallb is_blank ws2 = true /\ (bl = false -> ws2 = [])).
    { unfold p2. destruct bl; [exists ws; auto; split_and!; auto; discriminate|exists []; auto]. }
    clearbody p2 bl. clear ws Hp Hws Hs. destruct Hp2 as (ws2 & -> & Hw2 & Hnb).
    destruct (bl && (zlen p2 =? 0)) eqn:Eb; [discriminate|].
    intros Hres. exists ds, ws2, p2. split_and!; auto.
    + unfold hex_val. rewrite <- Hv. destruct p2 as [|c ext]; [congruence|].
      destruct (c =? 59), (existsb bad_ext_char ext); congruence.
    + assert (n = v) as ->; [|lia]. destruct p2 as [|c ext]; [congruence|].
      destruct (c =? 59), (existsb bad_ext_char ext); congruence.
    + destruct p2 as [|c ext].
      * left. destruct bl; [discriminate|]. auto.
      * right. destruct (c =? 59) eqn:Ec; [|discriminate]. apply Z.eqb_eq in Ec as ->.
        destruct (existsb bad_ext_char ext) eqn:Ex; [discriminate|]. eauto.
  - intros (ds & ws & ext & -> & Hne & Hd & Hw & Hn & Hb & Hext).
    assert (Hnx : match ws ++ ext with [] => True | c :: _ => isxdigit c = false end).
    { destruct ws as [|c ws]; cbn.
      - destruct Hext as [[_ ->]|(e & -> & _)]; [exact I|reflexivity].
      - cbn in Hw. apply andb_true_iff in Hw as [Hc _]. unfold is_blank in Hc. unfold isxdigit. lia. }
    assert (Hh : parse_hex 0 (ds ++ ws ++ ext) = Some (n, ws ++ ext)).
    { apply parse_hex_iff; [unfold INT_MAX; lia|]. exists ds. split_and!; auto; lia. }
    rewrite Hh, !zlen_app. destruct ds as [|c ds]; [congruence|].
    rewrite (zlen_cons c ds). pose proof (zlen_nonneg ds).
    replace (zlen ws + zlen ext =? 1 + zlen ds + (zlen ws + zlen ext)) with false by lia.
    destruct Hext as [[-> ->]|(e & -> & He)]; [reflexivity|].
    destruct ws as [|w ws]; [cbn; rewrite He; reflexivity|].
    assert (Hbw : is_blank w = true) by (cbn in Hw; apply andb_true_iff in Hw; tauto).
    cbn [app]. rewrite Hbw. change (w :: ws ++ 59 :: e) with ((w :: ws) ++ 59 :: e).
    rewrite skip_blank_app by (assumption || reflexivity).
    rewrite zlen_cons. pose proof (zlen_nonneg e). replace (1 + zlen e =? 0) with false by lia.
    cbn. rewrite He. reflexivity.
Qed.

(** ** Examples and witnesses *)

Definition crlf : list Z := [13; 10].

(** "Wiki" and "pedia" in two chunks, cut across segments, then a trailer and
    the first bytes of the next request. *)
Definition sample_stream : script :=
  {| sc_events := [Seg (bs "4" ++ [13]); Block; Seg ([10] ++ bs "Wi"); Seg (bs "ki" ++ crlf ++ bs "5;x=y" ++ crlf ++ bs "pe");
                   Block; Seg (bs "dia" ++ crlf ++ bs "0" ++ crlf ++ bs "T: v" ++ crlf ++ crlf ++ bs "GET")];
     sc_failed := false |}.

Definition sample_state : cis := Cis 0 0 0 0 0 (repeat 0 80).

Lemma read_refines_automaton_witness :
  wf (open sample_state) /\
  exists r d st' s', read 100 (open sample_state) sample_stream 10 = Some (r, d, st', s') /\
    zlen d <= 10 /\ read_post (open sample_state) sample_stream d st' s' /\ (r = zlen d \/ (d = [] /\ r <= 0)).
Proof.
  assert (Hw : wf (open sample_state)) by (apply open_wf; reflexivity).
  split; [exact Hw|]. apply (read_refines_automaton 100); [exact Hw|lia|vm_compute; reflexivity].
Defined.

Lemma session_decodes_witness :
  exists d st s, read_seq 100 (open sample_state) sample_stream [3; 10; 10; 10] = Some (d, st, s) /\
    (eos st = true -> run (MLine []) (is_rest sample_stream) = (d, MEof, pend st s)) /\
    (fail st = true -> is_failed s = false ->
       exists x, run (MLine []) (is_rest sample_stream) = (d, MErr, x)).
Proof.
  apply (session_decodes 100 sample_state sample_stream [3; 10; 10; 10]);
    [reflexivity|repeat constructor; discriminate|vm_compute; reflexivity].
Defined.

Example session_example :
  match read_seq 100 (open sample_state) sample_stream [3; 10; 10; 10] with
  | Some (d, st, s) => (d, eos st, pend st s) = (bs "Wikipedia", true, bs "GET")
  | None => False
  end.
Proof. vm_compute. reflexivity. Qed.
