(* ===== verification/ChunkOut.v ===== *)
(** * ChunkOutputStream: the chunked transfer-coding encoder

    src/src/http/chunkoutputstream.{h,cpp}, the vector of buffers it fills
    (src/src/util/iovec.{h,cpp}) and [HttpSession::chunkSendfile]
    (src/src/http/httpsession.cpp), which drives it for files.

    The vector holds pointers, not bytes: into the object's own header and
    chunk buffers, into literals, and into the memory of the caller, which may
    submit the same data again at another address.  The model keeps them as
    [ptr]; the caller's memory is the argument [mem], read when the vector is
    written.  The specification is the decoder's automaton of ChunkIn.v: the
    bytes written, with those still pending, decode to the bytes accepted. *)

From S2P Require Import Prelude ChunkIn.

(** ** IOVec *)

Inductive ptr :=
| PHeader (off : Z)          (** into [m_headerBuf] *)
| PBuf (off : Z)             (** into [m_bufChunk] *)
| PLit (s : list Z)          (** a literal, from some position on *)
| PUser (addr : Z).          (** the caller's memory *)

Record iovec := Iovec { iov_base : ptr; iov_len : Z }.

Definition ptr_add (p : ptr) (n : Z) : ptr :=
  match p with
  | PHeader o => PHeader (o + n)
  | PBuf o => PBuf (o + n)
  | PLit s => PLit (zdrop n s)
  | PUser a => PUser (a + n)
  end.

Definition iov_append (v : list iovec) (p : ptr) (n : Z) : list iovec := v ++ [Iovec p n].

(** [finish] drops the first [n] bytes of the vector. *)
Fixpoint iov_finish (v : list iovec) (n : Z) : list iovec :=
  match v with
  | [] => []
  | s :: v' =>
      if iov_len s >? n then Iovec (ptr_add (iov_base s) n) (iov_len s - n) :: v'
      else iov_finish v' (n - iov_len s)
  end.

(** [adjust] moves the pointers into [[pOld, pOld + len)] over to [pNew]. *)
Definition iov_adjust (v : list iovec) (pOld pNew len : Z) : list iovec :=
  map (fun s =>
         match iov_base s with
         | PUser a =>
             if (a >=? pOld) && (a <? pOld + len) then Iovec (PUser (a + (pNew - pOld))) (iov_len s)
             else s
         | _ => s
         end) v.

(** ** The state *)

Definition CHUNK_HEADER_SIZE : Z := 20.
Definition CHUNK_TAIL_SIZE : Z := 2.
Definition CHUNK_BUFSIZE : Z := 1450 - CHUNK_HEADER_SIZE - CHUNK_TAIL_SIZE.
Definition MAX_CHUNK_SIZE : Z := 8192.
Definition LS_FAIL : Z := -1.

Record cos := Cos {
  m_iov : list iovec;
  m_iCurSize : Z;
  m_iBuffering : bool;
  m_iSendFileLeft : Z;
  m_iTotalPending : Z;
  m_iLastBufLen : Z;
  m_pLastBufBegin : option Z;
  m_headerBuf : list Z;
  m_bufChunk : list Z
}.

Definition set_iov (st : cos) (v : list iovec) : cos :=
  Cos v (m_iCurSize st) (m_iBuffering st) (m_iSendFileLeft st) (m_iTotalPending st)
      (m_iLastBufLen st) (m_pLastBufBegin st) (m_headerBuf st) (m_bufChunk st).
Definition set_cur (st : cos) (n : Z) : cos :=
  Cos (m_iov st) n (m_iBuffering st) (m_iSendFileLeft st) (m_iTotalPending st)
      (m_iLastBufLen st) (m_pLastBufBegin st) (m_headerBuf st) (m_bufChunk st).
Definition set_left (st : cos) (n : Z) : cos :=
  Cos (m_iov st) (m_iCurSize st) (m_iBuffering st) n (m_iTotalPending st)
      (m_iLastBufLen st) (m_pLastBufBegin st) (m_headerBuf st) (m_bufChunk st).
Definition set_pending (st : cos) (n : Z) : cos :=
  Cos (m_iov st) (m_iCurSize st) (m_iBuffering st) (m_iSendFileLeft st) n
      (m_iLastBufLen st) (m_pLastBufBegin st) (m_headerBuf st) (m_bufChunk st).
Definition set_last (st : cos) (p : option Z) (n : Z) : cos :=
  Cos (m_iov st) (m_iCurSize st) (m_iBuffering st) (m_iSendFileLeft st) (m_iTotalPending st)
      n p (m_headerBuf st) (m_bufChunk st).
Definition set_header (st : cos) (h : list Z) : cos :=
  Cos (m_iov st) (m_iCurSize st) (m_iBuffering st) (m_iSendFileLeft st) (m_iTotalPending st)
      (m_iLastBufLen st) (m_pLastBufBegin st) h (m_bufChunk st).
Definition set_chunkbuf (st : cos) (b : list Z) : cos :=
  Cos (m_iov st) (m_iCurSize st) (m_iBuffering st) (m_iSendFileLeft st) (m_iTotalPending st)
      (m_iLastBufLen st) (m_pLastBufBegin st) (m_headerBuf st) b.

Definition append (st : cos) (p : ptr) (n : Z) : cos := set_iov st (iov_append (m_iov st) p n).

(** The bytes at [[a, a + n)] of the caller's memory, and those a vector names. *)
Definition mread (mem : Z -> Z) (a n : Z) : list Z := map mem (seqZ a n).

Definition seg_bytes (mem : Z -> Z) (h b : list Z) (s : iovec) : list Z :=
  match iov_base s with
  | PHeader o => slice o (o + iov_len s) h
  | PBuf o => slice o (o + iov_len s) b
  | PLit l => ztake (iov_len s) l
  | PUser a => mread mem a (iov_len s)
  end.

Definition vec_bytes (mem : Z -> Z) (h b : list Z) (v : list iovec) : list Z :=
  concat (map (seg_bytes mem h b) v).

Definition iov_bytes (mem : Z -> Z) (st : cos) : list Z :=
  vec_bytes mem (m_headerBuf st) (m_bufChunk st) (m_iov st).

#[global] Arguments vec_bytes : simpl never.

(** ** The stream below *)

(** [os_writev w data total] is [m_pOS->writev(iov, total)], [data] being what
    the vector names; [os_sendfile w data] is [getStream()->sendfile], [data]
    being the bytes asked for. *)
Class OutputStream (W : Type) := {
  os_writev : W -> list Z -> Z -> Z * W;
  os_sendfile : W -> list Z -> Z * W;
  os_sent : W -> list Z
}.

Definition write_ok {W} `{OutputStream W} (w : W) (data : list Z) (res : Z * W) : Prop :=
  let '(r, w') := res in
  (0 <= r <= zlen data /\ os_sent w' = os_sent w ++ ztake r data) \/
  (r < 0 /\ os_sent w' = os_sent w).

Class OutputStreamLaws (W : Type) `{OutputStream W} := {
  os_writev_ok : forall w data, write_ok w data (os_writev w data (zlen data));
  os_sendfile_ok : forall w data, write_ok w data (os_sendfile w data)
}.

(** A concrete stream: the room each call finds; [-1] is an error. *)
Record sink := { sk_room : list Z; sk_sent : list Z }.

Definition sink_write (w : sink) (data : list Z) : Z * sink :=
  match sk_room w with
  | [] => (zlen data, {| sk_room := []; sk_sent := sk_sent w ++ data |})
  | n :: l =>
      if n <? 0 then (-1, {| sk_room := l; sk_sent := sk_sent w |})
      else (Z.min n (zlen data), {| sk_room := l; sk_sent := sk_sent w ++ ztake n data |})
  end.

#[export] Instance sink_stream : OutputStream sink := {
  os_writev := fun w d _ => sink_write w d;
  os_sendfile := sink_write;
  os_sent := sk_sent
}.

Lemma sink_write_ok w data : write_ok w data (sink_write w data).
Proof.
  destruct w as [[|n l] s]; unfold sink_write; cbn.
  - left. rewrite ztake_all by lia. pose proof (zlen_nonneg data). split; [lia|reflexivity].
  - destruct (n <? 0) eqn:E; cbn; [right; split; [lia|reflexivity]|].
    left. pose proof (zlen_nonneg data). split; [lia|]. f_equal.
    destruct (Z.min_spec n (zlen data)) as [[? ->]|[? ->]]; [reflexivity|].
    rewrite !ztake_all by lia. reflexivity.
Qed.

#[export] Instance sink_laws : OutputStreamLaws sink.
Proof. split; intros; apply sink_write_ok. Qed.

(** ** Building chunks *)

Definition hex_digit (d : Z) : Z := if d <? 10 then 48 + d else 87 + d.

(** The digits [%x] prints, least significant first, then the string. *)
Fixpoint hex_rev (fuel : nat) (n : Z) : list Z :=
  match fuel with
  | O => []
  | S fuel => if n <? 16 then [hex_digit n] else hex_digit (n mod 16) :: hex_rev fuel (n / 16)
  end.

Definition hex (n : Z) : list Z := rev (hex_rev 8 n).
#[global] Arguments hex : simpl never.

Definition buildChunkHeader (st : cos) (size : Z) : Z * cos :=
  let text := hex (wrapu 32 size) ++ [CR; LF] in
  let st := set_header st (store (m_headerBuf st) 0 text) in
  (zlen text, append st (PHeader 0) (zlen text)).

(** [pBuf] is [None] for [NULL]. *)
Definition buildIovec (st : cos) (pBuf : option Z) (size : Z) : Z * cos :=
  let '(total, st) := buildChunkHeader st (size + m_iCurSize st) in
  let '(total, st) :=
    if negb (m_iCurSize st =? 0) then
      (total + m_iCurSize st, set_cur (append st (PBuf 0) (m_iCurSize st)) 0)
    else (total, st) in
  let '(total, st) :=
    match pBuf with
    | Some p => (total + size, append st (PUser p) size)
    | None => (total, st)
    end in
  match pBuf with
  | None => if size =? 0 then (total + 2, append st (PLit [CR; LF]) 2) else (total, st)
  | Some _ => (total + 2, append st (PLit [CR; LF]) 2)
  end.

Definition appendCRLF (st : cos) : cos :=
  set_pending (append st (PLit [CR; LF]) 2) (m_iTotalPending st + 2).

Definition fillChunkBuf (mem : Z -> Z) (st : cos) (pBuf size : Z) : cos :=
  set_cur (set_chunkbuf st (store (m_bufChunk st) (m_iCurSize st) (mread mem pBuf size)))
          (m_iCurSize st + size).

(** [m_iSendFileLeft] is a [short]. *)
Definition buildSendFileChunk (st : cos) (size : Z) : cos :=
  let size := if size >? MAX_CHUNK_SIZE then MAX_CHUNK_SIZE else size in
  let '(n, st') :=
    if m_iCurSize st >? 0 then buildIovec st None size else buildChunkHeader st size in
  set_left (set_pending st' (m_iTotalPending st + n)) (wraps 16 size).

Definition reset (st : cos) : cos :=
  Cos [] 0 false 0 0 0 None (m_headerBuf st) (m_bufChunk st).

Definition open (st : cos) : cos := reset st.

Definition setBuffering (st : cos) (n : bool) : cos :=
  Cos (m_iov st) (m_iCurSize st) n (m_iSendFileLeft st) (m_iTotalPending st)
      (m_iLastBufLen st) (m_pLastBufBegin st) (m_headerBuf st) (m_bufChunk st).

Section Operations.
Context {W : Type} `{OutputStream W}.
Variable mem : Z -> Z.

(** 0: all flushed, 1: more to flush, -1: failure. *)
Definition flush2 (st : cos) (w : W) : Z * cos * W :=
  let '(ret, w) := os_writev w (iov_bytes mem st) (m_iTotalPending st) in
  if ret >=? m_iTotalPending st then (0, set_pending (set_cur (set_iov st []) 0) 0, w)
  else if ret >=? 0 then
    (1, if negb (ret =? 0)
        then set_iov (set_pending st (m_iTotalPending st - ret)) (iov_finish (m_iov st) ret)
        else st, w)
  else (LS_FAIL, st, w).

Definition chunkedWrite (st : cos) (w : W) (pBuf size : Z) : Z * cos * W :=
  let '(total, st) := buildIovec st (Some pBuf) size in
  let '(ret, st, w) := flush2 (set_pending st total) w in
  if ret =? 0 then (size, set_last st (m_pLastBufBegin st) 0, w)
  else if ret =? 1 then (0, set_last st (Some pBuf) size, w)
  else (ret, st, w).

(** The [do ... while] loop of [write]; [size] is what it returns when all of
    the data is taken.  Each turn that goes round again consumes data. *)
Fixpoint write_loop (fuel : nat) (st : cos) (w : W) (pBuf left size : Z) : option (Z * cos * W) :=
  match fuel with
  | O => None
  | S fuel =>
      let chunkSize :=
        if left + m_iCurSize st >? MAX_CHUNK_SIZE then MAX_CHUNK_SIZE - m_iCurSize st else left in
      if m_iBuffering st && (chunkSize + m_iCurSize st <? CHUNK_BUFSIZE) then
        Some (size, fillChunkBuf mem st pBuf chunkSize, w)
      else
        let '(ret, st, w) := chunkedWrite st w pBuf chunkSize in
        if ret >? 0 then
          if left - ret <=? 0 then Some (size, st, w)
          else write_loop fuel st w (pBuf + ret) (left - ret) size
        else if ret =? 0 then Some (size - left, st, w)
        else Some (ret, st, w)
  end.

(** A buffer submitted again: the pending vector is moved to its new address,
    or the size is raised to what is pending. *)
Definition write_pending (st : cos) (pBuf size : Z) : cos * Z :=
  match m_pLastBufBegin st with
  | Some last =>
      if negb (pBuf =? last) then
        (set_last (set_iov st (iov_adjust (m_iov st) last pBuf (m_iLastBufLen st)))
           (Some pBuf) (m_iLastBufLen st), size)
      else (st, if size <? m_iLastBufLen st then m_iLastBufLen st else size)
  | None => (st, size)
  end.

(** After the pending data is out: skip what it held of the buffer. *)
Definition write_rest (fuel : nat) (st : cos) (w : W) (pBuf size : Z) : option (Z * cos * W) :=
  match m_pLastBufBegin st with
  | Some _ =>
      let left := size - m_iLastBufLen st in
      let pBuf := pBuf + m_iLastBufLen st in
      let st := set_last st None 0 in
      if left <=? 0 then Some (size, st, w) else write_loop fuel st w pBuf left size
  | None => write_loop fuel st w pBuf size size
  end.

Definition write (fuel : nat) (st : cos) (w : W) (pBuf : option Z) (size : Z)
    : option (Z * cos * W) :=
  match pBuf with
  | None => Some (0, st, w)
  | Some pBuf =>
      if size <=? 0 then Some (0, st, w)
      else if negb (m_iTotalPending st =? 0) then
        let '(st, size) := write_pending st pBuf size in
        let '(ret, st, w) := flush2 st w in
        if ret =? 0 then write_rest fuel st w pBuf size
        else if ret =? 1 then Some (0, st, w)
        else Some (ret, st, w)
      else write_rest fuel st w pBuf size
  end.

Definition flush (st : cos) (w : W) : Z * cos * W :=
  let st :=
    if m_iCurSize st >? 0 then
      let '(n, st') := buildIovec st None 0 in
      set_cur (set_pending st' (m_iTotalPending st + n)) 0
    else st in
  if negb (m_iTotalPending st =? 0) then flush2 st w else (0, st, w).

Definition CHUNK_END : list Z := [48; CR; LF; CR; LF].

Definition close (st : cos) (w : W) : Z * cos * W :=
  let st :=
    if m_iCurSize st >? 0 then
      let '(n, st') := buildIovec st None 0 in set_pending st' (m_iTotalPending st + n)
    else st in
  flush2 (append (set_pending st (m_iTotalPending st + 5)) (PLit CHUNK_END) 5) w.

(** [HttpSession::chunkSendfile]; [file off n] are the [n] bytes of the file
    from [off] on.  Returns the bytes sent, or an error.  What is left is an [off_t] that
    is passed as an [int], and what was sent is returned as one. *)
Fixpoint chunkSendfile_loop (fuel : nat) (file : Z -> Z -> list Z) (st : cos) (w : W)
    (begin off last : Z) : option (Z * cos * W) :=
  match fuel with
  | O => None
  | S fuel =>
      if off <? last then
        let st := if m_iSendFileLeft st =? 0 then buildSendFileChunk st (wraps 32 (last - off)) else st in
        let '(written, st, w) := flush st w in
        if written <? 0 then Some (written, st, w)
        else if written >? 0 then Some (wraps 32 (off - begin), st, w)
        else
          let '(written, w) := os_sendfile w (file off (wrapu 64 (m_iSendFileLeft st))) in
          if written >? 0 then
            let st := set_left st (wraps 16 (m_iSendFileLeft st - written)) in
            let st := if m_iSendFileLeft st =? 0 then appendCRLF st else st in
            chunkSendfile_loop fuel file st w begin (off + written) last
          else if written <? 0 then Some (written, st, w)
          else Some (wraps 32 (off - begin), st, w)
      else Some (wraps 32 (off - begin), st, w)
  end.

Definition chunkSendfile (fuel : nat) (file : Z -> Z -> list Z) (st : cos) (w : W)
    (off size : Z) : option (Z * cos * W) :=
  chunkSendfile_loop fuel file st w off off (wraps 64 (off + size)).

End Operations.

(** ** The vector *)

(** A segment in range: of the header, the chunk buffer, or of the part of the
    caller's memory given by [rng] (start and length). *)
Definition seg_ok (h b : list Z) (rng : option (Z * Z)) (s : iovec) : Prop :=
  0 < iov_len s /\
  match iov_base s with
  | PHeader o => 0 <= o /\ o + iov_len s <= zlen h
  | PBuf o => 0 <= o /\ o + iov_len s <= zlen b
  | PLit l => zlen l = iov_len s
  | PUser a => exists p n, rng = Some (p, n) /\ p <= a /\ a + iov_len s <= p + n
  end.

Definition agree (rng : option (Z * Z)) (mem mem' : Z -> Z) : Prop :=
  forall p n a, rng = Some (p, n) -> p <= a < p + n -> mem a = mem' a.

Lemma zlen_mread mem a n : 0 <= n -> zlen (mread mem a n) = n.
Proof. intros. unfold mread, zlen. rewrite length_map, length_seqZ. lia. Qed.

Lemma mread_ext mem mem' a a' n :
  (forall i, 0 <= i < n -> mem (a + i) = mem' (a' + i)) -> mread mem a n = mread mem' a' n.
Proof.
  intros He. unfold mread, seqZ. rewrite !map_map. apply map_ext_in.
  intros i Hi%list_elem_of_In%elem_of_seq. rewrite !(Z.add_comm (Z.of_nat i)). apply He. lia.
Qed.

Lemma zdrop_mread mem a n k : 0 <= k <= n -> zdrop k (mread mem a n) = mread mem (a + k) (n - k).
Proof.
  intros. unfold mread, zdrop, seqZ. rewrite !map_map, skipn_map, drop_seq.
  replace (Z.to_nat n - Z.to_nat k)%nat with (Z.to_nat (n - k)) by lia.
  rewrite (Nat.add_comm 0), <- fmap_add_seq.
  change (map (λ x : nat, mem (Z.of_nat x + a)) (map (Nat.add (Z.to_nat k)) (seq 0 (Z.to_nat (n - k)))) =
          map (λ x : nat, mem (Z.of_nat x + (a + k))) (seq 0 (Z.to_nat (n - k)))). rewrite map_map. apply map_ext. intros i. f_equal. lia.
Qed.

Lemma seg_zlen mem h b rng s : seg_ok h b rng s -> zlen (seg_bytes mem h b s) = iov_len s.
Proof.
  intros [Hl Hb]. unfold seg_bytes. destruct s as [[o|o|l|a] n]; cbn in *.
  - rewrite zlen_slice; lia.
  - rewrite zlen_slice; lia.
  - rewrite zlen_ztake; lia.
  - apply zlen_mread. lia.
Qed.

Lemma seg_advance mem h b rng s k :
  seg_ok h b rng s -> 0 <= k < iov_len s ->
  seg_ok h b rng (Iovec (ptr_add (iov_base s) k) (iov_len s - k)) /\
  seg_bytes mem h b (Iovec (ptr_add (iov_base s) k) (iov_len s - k)) = zdrop k (seg_bytes mem h b s).
Proof.
  intros [Hl Hb] Hk. unfold seg_ok, seg_bytes. destruct s as [[o|o|l|a] n]; cbn in *.
  - split; [lia|]. rewrite zdrop_slice by lia. f_equal. lia.
  - split; [lia|]. rewrite zdrop_slice by lia. f_equal. lia.
  - rewrite zlen_zdrop by lia. split; [lia|]. rewrite !ztake_all; rewrite ?zlen_zdrop; lia || reflexivity.
  - destruct Hb as (p & m & -> & ? & ?). split; [split; [lia|]; exists p, m; split_and!; lia || reflexivity|].
    rewrite zdrop_mread by lia. reflexivity.
Qed.

Lemma finish_ok mem h b rng v : forall k,
  Forall (seg_ok h b rng) v -> 0 <= k <= zlen (vec_bytes mem h b v) ->
  Forall (seg_ok h b rng) (iov_finish v k) /\
  vec_bytes mem h b (iov_finish v k) = zdrop k (vec_bytes mem h b v).
Proof.
  induction v as [|s v IH]; intros k Hv Hk; cbn [iov_finish].
  { split; [constructor|]. rewrite zdrop_all; [reflexivity|]. unfold vec_bytes; cbn. change (zlen (@nil Z)) with 0. lia. }
  inversion Hv as [|? ? Hs Hv']; subst. pose proof (seg_zlen mem _ _ _ _ Hs) as Hz.
  unfold vec_bytes in *. cbn [map concat] in *. rewrite zlen_app in Hk.
  destruct (iov_len s >? k) eqn:E.
  - destruct (seg_advance mem h b rng s k Hs ltac:(lia)) as [Hok Hb].
    split; [constructor; assumption|]. cbn [map concat]. rewrite Hb. unfold zdrop, zlen in *.
    rewrite drop_app_le by lia. reflexivity.
  - destruct (IH (k - iov_len s) Hv' ltac:(lia)) as [Hok Hb]. split; [assumption|]. rewrite Hb.
    unfold zdrop, zlen in *. rewrite drop_app_ge by lia. f_equal. lia.
Qed.

Lemma adjust_ok mem mem' h b p n p' v :
  Forall (seg_ok h b (Some (p, n))) v ->
  (forall i, 0 <= i < n -> mem' (p' + i) = mem (p + i)) ->
  Forall (seg_ok h b (Some (p', n))) (iov_adjust v p p' n) /\
  vec_bytes mem' h b (iov_adjust v p p' n) = vec_bytes mem h b v.
Proof.
  intros Hv Hm. induction Hv as [|s v [Hl Hs] Hv [IHok IHb]]; [split; constructor|].
  unfold vec_bytes in *. cbn [iov_adjust map concat] in *. fold (iov_adjust v p p' n).
  destruct s as [[o|o|l|a] k]; cbn in *; try (rewrite IHb; split; [constructor; [split|]|]; auto; fail).
  destruct Hs as (q & m & [= <- <-] & ? & ?).
  replace ((a >=? p) && (a <? p + n)) with true by lia. rewrite IHb. split.
  - constructor; [|exact IHok]. split; [cbn; lia|]. cbn. exists p', n. split_and!; lia || reflexivity.
  - f_equal. cbn. apply mread_ext. intros i Hi.
    replace (a + (p' - p) + i) with (p' + (a - p + i)) by lia. rewrite Hm by lia. f_equal. lia.
Qed.

Lemma vec_ext mem mem' h b rng v :
  Forall (seg_ok h b rng) v -> agree rng mem mem' -> vec_bytes mem h b v = vec_bytes mem' h b v.
Proof.
  intros Hv Ha. unfold vec_bytes. f_equal. apply map_ext_in.
  intros s Hin. apply (proj1 (List.Forall_forall _ _) Hv) in Hin as [_ Hs]. unfold seg_bytes.
  destruct (iov_base s); auto. destruct Hs as (p & n & -> & ? & ?).
  apply mread_ext. intros i Hi. apply (Ha p n); [reflexivity|lia].
Qed.

Lemma vec_app mem h b v w : vec_bytes mem h b (v ++ w) = vec_bytes mem h b v ++ vec_bytes mem h b w.
Proof. unfold vec_bytes. rewrite map_app, concat_app. reflexivity. Qed.

(** ** The chunk header *)

Lemma hex_digit_ok d : 0 <= d < 16 -> isxdigit (hex_digit d) = true /\ xdigit_val (hex_digit d) = d.
Proof.
  intros Hd. assert (H : isxdigit (hex_digit d) && (xdigit_val (hex_digit d) =? d) = true).
  { by_range 0 16 (fun d => isxdigit (hex_digit d) && (xdigit_val (hex_digit d) =? d)). }
  apply andb_true_iff in H. lia.
Qed.

Lemma hex_val_snoc ds c : hex_val (ds ++ [c]) = hex_val ds * 16 + xdigit_val c.
Proof. unfold hex_val. rewrite fold_left_app. reflexivity. Qed.

Lemma hex_rev_ok k : forall n, 0 <= n < 16 ^ Z.of_nat (S k) ->
  let ds := rev (hex_rev (S k) n) in
  ds <> [] /\ forallb isxdigit ds = true /\ hex_val ds = n /\ zlen ds <= Z.of_nat (S k).
Proof.
  induction k as [|k IH]; intros n Hn ds; subst ds.
  - cbn [hex_rev]. replace (n <? 16) with true by lia. destruct (hex_digit_ok n) as [Hx Hv]; [lia|].
    cbn. rewrite Hx. split_and!; try discriminate; auto.
  - remember (S k) as j. cbn [hex_rev]. destruct (n <? 16) eqn:E.
    + destruct (hex_digit_ok n) as [Hx Hv]; [lia|]. cbn. rewrite Hx. split_and!; try discriminate; auto.
      unfold zlen. cbn. lia.
    + destruct (hex_digit_ok (n mod 16)) as [Hx Hv]; [apply Z.mod_pos_bound; lia|].
      destruct (IH (n / 16)) as (Hne & Hd & Hval & Hlen).
      { replace (Z.of_nat (S j)) with (1 + Z.of_nat j) in Hn by lia.
        rewrite Z.pow_add_r in Hn by lia. split; [apply Z.div_pos; lia|]. apply Z.div_lt_upper_bound; lia. }
      cbn [rev]. rewrite hex_val_snoc, forallb_app, Hd, Hval, Hv, zlen_app. cbn. rewrite Hx. split_and!.
      * intros Happ. apply app_eq_nil in Happ as [_ ?]. discriminate.
      * reflexivity.
      * pose proof (Z.div_mod n 16). lia.
      * change (zlen [hex_digit (n mod 16)]) with 1. lia.
Qed.

Lemma hex_ok n : 0 <= n < 2 ^ 32 ->
  hex n <> [] /\ forallb isxdigit (hex n) = true /\ hex_val (hex n) = n /\ zlen (hex n) <= 8.
Proof. apply (hex_rev_ok 7). Qed.

Lemma digits_no_lf ds : forallb isxdigit ds = true -> LF ∉ ds.
Proof.
  intros Hd Hin. eapply forallb_forall in Hd; [|apply list_elem_of_In, Hin]. discriminate.
Qed.

(** A chunk header, with its CRLF, announces its size to the decoder. *)
Lemma run_header n : 0 < n -> n + 2 <= INT_MAX ->
  run (MLine []) (hex n ++ [CR; LF]) = ([], MData n, []).
Proof.
  intros Hn Hm. unfold INT_MAX in *. destruct (hex_ok n) as (Hne & Hd & Hv & Hl); [lia|].
  assert (E : hex n ++ [CR; LF] = (hex n ++ [CR]) ++ LF :: []) by (rewrite <- app_assoc; reflexivity).
  rewrite E, run_full_line.
  - unfold line_mode. rewrite zlen_app. change (zlen [CR]) with 1. pose proof (zlen_nonneg (hex n)).
    replace (zlen (hex n) + 1 =? 0) with false by lia.
    replace (zlen (hex n) + 1 - 1) with (zlen (hex n)) by lia. rewrite ztake_app_exact.
    assert (Hn1 : znth (hex n ++ [CR]) (zlen (hex n)) = CR).
    { unfold znth, zlen. rewrite Nat2Z.id, nth_middle. reflexivity. }
    rewrite Hn1, parse_line_digits, Hv by (auto; unfold INT_MAX; lia).
    cbn. replace (n =? 0) with false by lia. reflexivity.
  - rewrite not_elem_of_app. split; [apply digits_no_lf, Hd|]. set_solver.
  - rewrite zlen_app. change (zlen [CR]) with 1. unfold MAX_CHUNK_LEN_BUF_SIZE. lia.
Qed.

(** A whole chunk decodes to its data. *)
Lemma run_chunk d : 0 < zlen d -> zlen d + 2 <= INT_MAX ->
  run (MLine []) ((hex (zlen d) ++ [CR; LF]) ++ d ++ [CR; LF]) = (d, MLine [], []).
Proof.
  intros H0 Hm. erewrite run_app by (apply run_header; assumption).
  rewrite emit_nil, run_data_all by assumption. cbn. rewrite app_nil_r. reflexivity.
Qed.

Lemma run_end : run (MLine []) CHUNK_END = ([], MEof, []).
Proof. reflexivity. Qed.

(** ** Building a chunk *)

Definition tmem (st : cos) : list Z := ztake (m_iCurSize st) (m_bufChunk st).

(** The memory of the object is in order. *)
Record shape (st : cos) : Prop := {
  sh_header : zlen (m_headerBuf st) = CHUNK_HEADER_SIZE;
  sh_buf : zlen (m_bufChunk st) = CHUNK_BUFSIZE;
  sh_cur : 0 <= m_iCurSize st < CHUNK_BUFSIZE
}.

(** A vector no segment of which is in the header buffer. *)
Definition no_header (v : list iovec) : bool :=
  forallb (fun s => match iov_base s with PHeader _ => false | _ => true end) v.

Lemma seg_header h h' b rng v :
  no_header v = true -> Forall (seg_ok h b rng) v ->
  Forall (seg_ok h' b rng) v /\ forall mem, vec_bytes mem h' b v = vec_bytes mem h b v.
Proof.
  unfold no_header. intros Hn Hv. induction Hv as [|s v [Hl Hs] Hv IH]; [split; constructor|].
  cbn in Hn. apply andb_true_iff in Hn as [Hb Hn]. destruct (IH Hn) as [Hok Hbytes]. split.
  - constructor; [|assumption]. split; [assumption|]. destruct (iov_base s); auto. discriminate.
  - intros mem. unfold vec_bytes in *. cbn. rewrite Hbytes. f_equal. unfold seg_bytes.
    destruct (iov_base s); auto. discriminate.
Qed.

Lemma header_ok mem st size rng :
  shape st -> 0 <= size < 2 ^ 32 -> no_header (m_iov st) = true ->
  Forall (seg_ok (m_headerBuf st) (m_bufChunk st) rng) (m_iov st) ->
  let '(n, st') := buildChunkHeader st size in
  n = zlen (hex size ++ [CR; LF]) /\ shape st' /\
  Forall (seg_ok (m_headerBuf st') (m_bufChunk st') rng) (m_iov st') /\
  iov_bytes mem st' = iov_bytes mem st ++ hex size ++ [CR; LF].
Proof.
  intros [Hh Hb Hc] Hs Hn Hv. destruct (hex_ok size Hs) as (_ & _ & _ & Hl).
  unfold buildChunkHeader. rewrite (wrapu_small 32 size) by assumption. unfold CHUNK_HEADER_SIZE in *. pose proof (zlen_nonneg (hex size)).
  assert (Ht : zlen (hex size ++ [CR; LF]) = zlen (hex size) + 2) by apply zlen_app.
  split; [reflexivity|]. split; [split; cbn; auto; unfold CHUNK_HEADER_SIZE; rewrite zlen_store; lia|].
  destruct (seg_header _ (store (m_headerBuf st) 0 (hex size ++ [CR; LF])) _ _ _ Hn Hv) as [Hok Hbytes].
  cbn. split.
  - unfold iov_append. apply Forall_app. split; [exact Hok|]. repeat constructor; cbn; try lia.
    rewrite zlen_store; lia.
  - unfold iov_bytes. cbn. unfold iov_append. rewrite vec_app, Hbytes. f_equal.
    unfold vec_bytes. cbn. rewrite app_nil_r. apply slice_store; lia.
Qed.

(** The fields building a vector leaves alone. *)
Definition frame (st st' : cos) : Prop :=
  m_iBuffering st' = m_iBuffering st /\ m_iSendFileLeft st' = m_iSendFileLeft st /\
  m_iTotalPending st' = m_iTotalPending st /\ m_iLastBufLen st' = m_iLastBufLen st /\
  m_pLastBufBegin st' = m_pLastBufBegin st.

(** What [buildIovec] adds. *)
Definition chunk_bytes (mem : Z -> Z) (st : cos) (pBuf : option Z) (size : Z) : list Z :=
  (hex (size + m_iCurSize st) ++ [CR; LF]) ++ tmem st ++
  match pBuf with
  | Some p => mread mem p size ++ [CR; LF]
  | None => if size =? 0 then [CR; LF] else []
  end.

Definition segs_ok (rng : option (Z * Z)) (st : cos) : Prop :=
  Forall (seg_ok (m_headerBuf st) (m_bufChunk st) rng) (m_iov st).

Lemma append_ok mem rng st p n :
  shape st -> segs_ok rng st -> seg_ok (m_headerBuf st) (m_bufChunk st) rng (Iovec p n) ->
  let st' := append st p n in
  shape st' /\ segs_ok rng st' /\ frame st st' /\
  iov_bytes mem st' = iov_bytes mem st ++ seg_bytes mem (m_headerBuf st) (m_bufChunk st) (Iovec p n).
Proof.
  intros [] Hs Hp st'. unfold frame, segs_ok. split_and!; try reflexivity; [split; assumption| |].
  - cbn. unfold iov_append. apply Forall_app. auto.
  - unfold iov_bytes. cbn. unfold iov_append. rewrite vec_app. f_equal. unfold vec_bytes. cbn. apply app_nil_r.
Qed.

Lemma crlf_seg h b rng : seg_ok h b rng (Iovec (PLit [CR; LF]) 2).
Proof. split; cbn; [lia|reflexivity]. Qed.

Lemma buildIovec_ok mem st pBuf size rng :
  shape st -> 0 <= size < 2 ^ 31 -> no_header (m_iov st) = true -> segs_ok rng st ->
  (forall p, pBuf = Some p -> 0 < size /\ rng = Some (p, size)) ->
  let '(n, st') := buildIovec st pBuf size in
  n = zlen (chunk_bytes mem st pBuf size) /\ shape st' /\ segs_ok rng st' /\ frame st st' /\
  m_iCurSize st' = 0 /\ iov_bytes mem st' = iov_bytes mem st ++ chunk_bytes mem st pBuf size.
Proof.
  intros Hsh Hsz Hnh Hs Hp. pose proof (sh_cur _ Hsh) as Hc. pose proof (sh_buf _ Hsh) as Hb.
  unfold CHUNK_BUFSIZE, CHUNK_HEADER_SIZE, CHUNK_TAIL_SIZE in Hb, Hc.
  pose proof (header_ok mem st (size + m_iCurSize st) rng Hsh ltac:(lia) Hnh Hs) as Hhd.
  assert (Hfr : frame st (snd (buildChunkHeader st (size + m_iCurSize st)))) by (unfold frame; auto).
  assert (Hcb : m_bufChunk (snd (buildChunkHeader st (size + m_iCurSize st))) = m_bufChunk st) by reflexivity.
  assert (Hcc : m_iCurSize (snd (buildChunkHeader st (size + m_iCurSize st))) = m_iCurSize st) by reflexivity.
  unfold buildIovec. destruct (buildChunkHeader st (size + m_iCurSize st)) as [n1 st1].
  cbn [fst snd] in Hfr, Hcb, Hcc. destruct Hhd as (Hn1 & Hsh1 & Hs1 & Hb1). fold (segs_ok rng st1) in Hs1.
  set (res2 := if negb (m_iCurSize st1 =? 0) then _ else _).
  assert (H2 : fst res2 = n1 + zlen (tmem st) /\ shape (snd res2) /\ segs_ok rng (snd res2) /\
    frame st (snd res2) /\ m_iCurSize (snd res2) = 0 /\
    iov_bytes mem (snd res2) = iov_bytes mem st1 ++ tmem st).
  { assert (Ht : zlen (tmem st) = m_iCurSize st) by (unfold tmem; rewrite zlen_ztake; lia).
    unfold res2. destruct (m_iCurSize st1 =? 0) eqn:E; cbn [negb fst snd].
    - assert (tmem st = []) as ->. { unfold tmem. rewrite <- Hcc. replace (m_iCurSize st1) with 0 by lia. reflexivity. }
      rewrite app_nil_r. change (zlen (@nil Z)) with 0. split_and!; auto; lia.
    - destruct (append_ok mem rng st1 (PBuf 0) (m_iCurSize st1) Hsh1 Hs1) as (A & B & C & D).
      { split; cbn; rewrite ?Hcb; lia. }
      split_and!; try assumption; try lia; try reflexivity.
      + destruct Hsh1 as [? ? _]. split; [assumption|assumption|]. cbn. split; [lia|reflexivity].
      + change (iov_bytes mem (append st1 (PBuf 0) (m_iCurSize st1)) = iov_bytes mem st1 ++ tmem st). rewrite D.
        f_equal. unfold seg_bytes, tmem. cbn [iov_base iov_len]. rewrite slice_0, Hcb, Hcc. reflexivity. }
  clearbody res2. destruct res2 as [n2 st2]. cbn [fst snd] in H2. destruct H2 as (Hn2 & Hsh2 & Hs2 & Hf2 & Hc2 & Hb2).
  unfold chunk_bytes. destruct pBuf as [p|].
  - destruct (Hp p eq_refl) as [Hp0 ->].
    destruct (append_ok mem (Some (p, size)) st2 (PUser p) size Hsh2 Hs2) as (A & B & C & D).
    { split; [exact Hp0|]. exists p, size. cbn. split_and!; lia || reflexivity. }
    destruct (append_ok mem (Some (p, size)) _ (PLit [CR; LF]) 2 A B (crlf_seg _ _ _)) as (A' & B' & C' & D').
    split_and!; try assumption.
    + subst. rewrite !zlen_app, zlen_mread by lia. change (zlen [CR; LF]) with 2. lia.
    + rewrite D', D, Hb2, Hb1. unfold seg_bytes; cbn [iov_base iov_len]. rewrite <- !app_assoc. reflexivity.
  - destruct (size =? 0) eqn:E.
    + destruct (append_ok mem rng st2 (PLit [CR; LF]) 2 Hsh2 Hs2 (crlf_seg _ _ _)) as (A & B & C & D).
      split_and!; try assumption.
      * subst. rewrite !zlen_app. change (zlen [CR; LF]) with 2. lia.
      * rewrite D, Hb2, Hb1. unfold seg_bytes; cbn [iov_base iov_len]. rewrite <- !app_assoc. reflexivity.
    + rewrite app_nil_r. split_and!; try assumption.
      * subst. rewrite !zlen_app. lia.
      * rewrite Hb2, Hb1, <- !app_assoc. reflexivity.
Qed.

(** ** Flushing *)

Section Correctness.
Context {W : Type} `{OutputStreamLaws W}.

(** [flush2]: either everything pending is written and the vector is empty,
    or a prefix is and the rest is pending, or nothing is and it fails. *)
Lemma flush2_ok mem bm rng st (w : W) :
  shape st -> segs_ok rng st -> agree rng mem bm -> m_iTotalPending st = zlen (iov_bytes bm st) ->
  let '(r, st', w') := flush2 mem st w in
  (r = 0 /\ st' = set_pending (set_cur (set_iov st []) 0) 0 /\ os_sent w' = os_sent w ++ iov_bytes bm st) \/
  (r = 1 /\ (exists v k, st' = set_iov (set_pending st k) v) /\ shape st' /\ segs_ok rng st' /\
     m_iTotalPending st' = zlen (iov_bytes bm st') /\
     os_sent w' ++ iov_bytes bm st' = os_sent w ++ iov_bytes bm st) \/
  (r < 0 /\ st' = st /\ os_sent w' = os_sent w).
Proof.
  intros Hsh Hs Ha Hp. unfold flush2. assert (Hm : iov_bytes mem st = iov_bytes bm st).
  { unfold iov_bytes. eapply vec_ext; [exact Hs|exact Ha]. }
  rewrite Hm, Hp. pose proof (os_writev_ok w (iov_bytes bm st)) as Hw. unfold write_ok in Hw.
  destruct (os_writev w (iov_bytes bm st) (zlen (iov_bytes bm st))) as [ret w'].
  destruct Hw as [[Hr Hw]|[Hr Hw]].
  - destruct (ret >=? zlen (iov_bytes bm st)) eqn:E.
    { left. rewrite Hw, ztake_all by lia. auto. }
    replace (ret >=? 0) with true by lia. right; left. split; [reflexivity|].
    destruct (ret =? 0) eqn:E0; cbn [negb].
    + rewrite Hw. replace ret with 0 by lia. rewrite ztake_0, app_nil_r. split_and!; auto.
      exists (m_iov st), (m_iTotalPending st). destruct st; reflexivity.
    + destruct (finish_ok bm _ _ rng (m_iov st) ret Hs ltac:(unfold iov_bytes in Hr; lia)) as [Hok Hb].
      change (iov_bytes bm (set_iov (set_pending st (zlen (iov_bytes bm st) - ret)) (iov_finish (m_iov st) ret)))
        with (vec_bytes bm (m_headerBuf st) (m_bufChunk st) (iov_finish (m_iov st) ret)).
      rewrite Hb. split_and!.
      * eauto.
      * destruct Hsh. split; assumption.
      * exact Hok.
      * cbn. unfold iov_bytes in *. rewrite zlen_zdrop by lia. lia.
      * rewrite Hw, <- app_assoc. f_equal. apply ztake_zdrop.
  - pose proof (zlen_nonneg (iov_bytes bm st)).
    replace (ret >=? zlen (iov_bytes bm st)) with false by lia. replace (ret >=? 0) with false by lia.
    right; right. split_and!; auto. unfold LS_FAIL. lia.
Qed.

(** *** The invariant

    [B] is the body the caller wants to send, [acc] how much of it was
    accepted.  When a buffer was taken but not written out, it is the part of
    [B] from [acc] on, and will be accepted once it is submitted again. *)
Variable B : list Z.

Definition rng_of (st : cos) : option (Z * Z) :=
  match m_pLastBufBegin st with Some p => Some (p, m_iLastBufLen st) | None => None end.
Definition taken (st : cos) : Z :=
  match m_pLastBufBegin st with Some _ => m_iLastBufLen st | None => 0 end.
Definition body_mem (acc : Z) (st : cos) (a : Z) : Z :=
  match m_pLastBufBegin st with Some p => znth B (acc + (a - p)) | None => 0 end.
Definition data_mode (left : Z) : mode := if left =? 0 then MLine [] else MData left.

Record ok (acc : Z) (st : cos) (w : W) : Prop := {
  ok_shape : shape st;
  ok_segs : segs_ok (rng_of st) st;
  ok_pend : m_iTotalPending st = zlen (iov_bytes (body_mem acc st) st);
  ok_acc : 0 <= acc /\ acc + taken st <= zlen B;
  ok_cur : 0 < m_iCurSize st -> m_iov st = [] /\ m_iSendFileLeft st = 0 /\ m_pLastBufBegin st = None;
  ok_last : forall p, m_pLastBufBegin st = Some p -> 0 < m_iLastBufLen st /\ m_iSendFileLeft st = 0;
  ok_left : 0 <= m_iSendFileLeft st <= MAX_CHUNK_SIZE;
  ok_run : exists out,
    run (MLine []) (os_sent w ++ iov_bytes (body_mem acc st) st) = (out, data_mode (m_iSendFileLeft st), []) /\
    out ++ tmem st = ztake (acc + taken st) B
}.

(** What was written decodes to a prefix of the body, whatever happens. *)
Definition safe (w : W) : Prop :=
  exists out m, run (MLine []) (os_sent w) = (out, m, []) /\ exists rest, B = out ++ rest.

Lemma data_mode_live n : stopped (data_mode n) = false.
Proof. unfold data_mode. destruct (n =? 0); reflexivity. Qed.

Lemma ok_safe acc st w : ok acc st w -> safe w.
Proof.
  intros Hok. destruct (ok_run _ _ _ Hok) as (out & Hr & Ho).
  destruct (run_prefix _ _ _ _ _ Hr (data_mode_live _)) as (o1 & o2 & m1 & Hr1 & ->).
  exists o1, m1. split; [assumption|].
  exists (o2 ++ tmem st ++ zdrop (acc + taken st) B).
  rewrite <- (ztake_zdrop (acc + taken st) B) at 1. rewrite <- Ho, <- !app_assoc. reflexivity.
Qed.

Lemma body_read mem p acc n :
  0 <= acc -> 0 <= n -> acc + n <= zlen B -> (forall i, 0 <= i < n -> mem (p + i) = znth B (acc + i)) ->
  ztake acc B ++ mread mem p n = ztake (acc + n) B.
Proof.
  intros Ha Hn Hl Hm. rewrite <- !slice_0, (slice_split 0 acc (acc + n)) by lia. f_equal.
  unfold mread, slice, seqZ. rewrite map_map.
  apply nth_ext with (d := 0) (d' := 0).
  - rewrite length_map, length_seq. unfold ztake, zdrop, zlen in *. rewrite length_take, length_drop. lia.
  - rewrite length_map, length_seq. intros k Hk.
    rewrite nth_indep with (d' := mem (Z.of_nat 0 + p)) by (rewrite length_map, length_seq; lia).
    rewrite (map_nth (fun x : nat => mem (Z.of_nat x + p))), seq_nth by lia. cbn [Nat.add].
    rewrite Z.add_comm, Hm by lia. unfold znth, ztake, zdrop.
    rewrite nth_firstn. replace (k <? Z.to_nat (acc + n - acc))%nat with true
      by (symmetry; apply Nat.ltb_lt; lia).
    rewrite nth_skipn. f_equal. lia.
Qed.

Lemma tmem_0 st : m_iCurSize st = 0 -> tmem st = [].
Proof. unfold tmem. intros ->. reflexivity. Qed.

Lemma vec_nil mem st : m_iov st = [] -> iov_bytes mem st = [].
Proof. unfold iov_bytes. intros ->. reflexivity. Qed.

(** Everything out, nothing taken: what [ok] comes down to. *)
Lemma ok_clean acc st w :
  shape st -> m_iov st = [] -> m_iTotalPending st = 0 -> 0 <= acc <= zlen B ->
  (0 < m_iCurSize st -> m_iSendFileLeft st = 0) -> m_pLastBufBegin st = None ->
  0 <= m_iSendFileLeft st <= MAX_CHUNK_SIZE ->
  (exists out, run (MLine []) (os_sent w) = (out, data_mode (m_iSendFileLeft st), []) /\
     out ++ tmem st = ztake acc B) ->
  ok acc st w.
Proof.
  intros Hsh Hv Hp Ha Hc Hl Hle (out & Hr & Ho). unfold taken.
  split; unfold taken; rewrite ?Hl, ?Z.add_0_r; auto; try congruence.
  - unfold segs_ok. rewrite Hv. constructor.
  - rewrite vec_nil by assumption. assumption.
  - exists out. rewrite vec_nil, app_nil_r by assumption. auto.
Qed.

(** Nothing is in the chunk buffer of the state at the end of the goal. *)
Ltac drop_tmem :=
  match goal with
  | |- (_ ++ tmem ?x) = _ => rewrite (tmem_0 x), app_nil_r by first [reflexivity|assumption]
  end.

Lemma chunkedWrite_ok mem acc st w p size :
  ok acc st w -> m_iov st = [] -> m_pLastBufBegin st = None -> m_iSendFileLeft st = 0 ->
  0 < size -> size + m_iCurSize st <= MAX_CHUNK_SIZE -> acc + size <= zlen B ->
  (forall i, 0 <= i < size -> mem (p + i) = znth B (acc + i)) ->
  let '(r, st', w') := chunkedWrite mem st w p size in
  (r = size /\ ok (acc + size) st' w' /\ m_iov st' = [] /\ m_pLastBufBegin st' = None /\
     m_iSendFileLeft st' = 0 /\ m_iCurSize st' = 0) \/
  (r = 0 /\ ok acc st' w' /\ m_iSendFileLeft st' = 0) \/
  (r < 0 /\ safe w').
Proof.
  intros Hok Hv Hl Hsf Hs0 Hsm Hb Hm. pose proof (ok_safe _ _ _ Hok) as Hsafe.
  destruct Hok as [Hsh Hsg Hp Ha Hcu Hla Hle (out & Hr & Ho)].
  unfold taken in Ha, Ho. rewrite Hl, Z.add_0_r in Ha, Ho. rewrite Hsf in Hr. rewrite vec_nil, app_nil_r in Hr by assumption.
  pose proof (sh_cur _ Hsh) as Hc. unfold MAX_CHUNK_SIZE in *.
  set (bm := fun a => znth B (acc + (a - p))).
  assert (Hmr : mread bm p size = mread mem p size).
  { apply mread_ext. intros i Hi. unfold bm. rewrite Hm by lia. f_equal. lia. }
  pose proof (buildIovec_ok bm st (Some p) size (Some (p, size)) Hsh ltac:(lia)
    ltac:(rewrite Hv; reflexivity) ltac:(unfold segs_ok; rewrite Hv; constructor)
    ltac:(intros q [= <-]; split; [lia|reflexivity])) as Hbi.
  unfold chunkedWrite. destruct (buildIovec st (Some p) size) as [n st1].
  destruct Hbi as (Hn & Hsh1 & Hsg1 & (Hfb & Hfs & _ & _ & Hfl) & Hc1 & Hb1).
  rewrite (vec_nil bm st Hv) in Hb1. cbn [app] in Hb1.
  assert (Hdat : run (MLine []) (iov_bytes bm st1) = (tmem st ++ mread mem p size, MLine [], [])).
  { rewrite Hb1. unfold chunk_bytes. rewrite Hmr.
    assert (Hz : zlen (tmem st ++ mread mem p size) = size + m_iCurSize st).
    { rewrite zlen_app, zlen_mread by lia. unfold tmem. rewrite zlen_ztake by lia. rewrite (sh_buf _ Hsh). lia. }
    rewrite <- Hz, (app_assoc (tmem st)). apply run_chunk; rewrite Hz; unfold INT_MAX; lia. }
  pose proof (flush2_ok mem bm (Some (p, size)) (set_pending st1 n) w) as Hf.
  destruct (flush2 mem (set_pending st1 n) w) as [[r st2] w2].
  assert (Hag : agree (Some (p, size)) mem bm).
  { intros q m a [= <- <-] Hi. unfold bm. replace a with (p + (a - p)) at 1 by lia. apply Hm. lia. }
  specialize (Hf ltac:(destruct Hsh1; split; assumption) Hsg1 Hag ltac:(change (n = zlen (iov_bytes bm st1)); rewrite Hb1; exact Hn)).
  destruct Hf as [(-> & -> & Hw)|[(-> & (v & k & ->) & Hsh2 & Hsg2 & Hp2 & Hw)|(Hr2 & -> & Hw)]].
  - cbn [Z.eqb Pos.eqb]. left. split; [reflexivity|]. split; [|cbn; rewrite Hfl, Hfs; auto].
    change (iov_bytes bm (set_pending st1 n)) with (iov_bytes bm st1) in Hw.
    apply ok_clean; cbn; rewrite ?Hfs, ?Hfl; auto; try lia; try (unfold MAX_CHUNK_SIZE; lia).
    { destruct Hsh1 as [? ? _]. split; [assumption|assumption|]. cbn. split; [lia|reflexivity]. }
    exists (out ++ (tmem st ++ mread mem p size)). rewrite Hsf, Hw. erewrite run_app by exact Hr.
    unfold data_mode at 1. cbn [Z.eqb]. rewrite Hdat. split; [reflexivity|].
    drop_tmem. rewrite app_assoc, Ho. apply body_read; lia || assumption.
  - cbn [Z.eqb Pos.eqb]. right; left. split; [reflexivity|]. split; [|cbn; congruence].
    split; unfold rng_of, taken, body_mem; cbn; rewrite ?Hfs, ?Hsf; auto; try lia.
    + destruct Hsh2. split; assumption.
    + unfold MAX_CHUNK_SIZE. lia.
    + exists (out ++ (tmem st ++ mread mem p size)). split.
      * change (run (MLine []) (os_sent w2 ++ iov_bytes bm (set_iov (set_pending (set_pending st1 n) k) v)) =
          (out ++ (tmem st ++ mread mem p size), data_mode 0, [])).
        rewrite Hw. erewrite run_app by exact Hr. unfold data_mode at 1. cbn [Z.eqb].
        change (iov_bytes bm (set_pending st1 n)) with (iov_bytes bm st1). rewrite Hdat. reflexivity.
      * drop_tmem. rewrite app_assoc, Ho. apply body_read; lia || assumption.
  - replace (r =? 0) with false by lia. replace (r =? 1) with false by lia.
    right; right. split; [assumption|]. unfold safe. rewrite Hw. exact Hsafe.
Qed.

(** The caller's memory holds the rest of the body at [p]. *)
Definition holds (mem : Z -> Z) (acc p : Z) : Prop :=
  forall i, 0 <= i -> acc + i < zlen B -> mem (p + i) = znth B (acc + i).

Lemma holds_shift mem acc p n : holds mem acc p -> 0 <= n -> holds mem (acc + n) (p + n).
Proof.
  intros Hh Hn i Hi Hl. replace (p + n + i) with (p + (n + i)) by lia. rewrite Hh by lia. f_equal. lia.
Qed.

Lemma fillChunkBuf_ok mem acc st w p size :
  ok acc st w -> m_iov st = [] -> m_pLastBufBegin st = None -> m_iSendFileLeft st = 0 ->
  0 < size -> size + m_iCurSize st < CHUNK_BUFSIZE -> acc + size <= zlen B -> holds mem acc p ->
  ok (acc + size) (fillChunkBuf mem st p size) w.
Proof.
  intros [Hsh Hsg Hp Ha Hcu Hla Hle (out & Hr & Ho)] Hv Hl Hsf Hs0 Hsm Hb Hm.
  unfold taken in Ha, Ho. rewrite Hl, Z.add_0_r in Ha, Ho. rewrite vec_nil in Hp, Hr by assumption.
  change (zlen (@nil Z)) with 0 in Hp. rewrite app_nil_r in Hr.
  destruct Hsh as [Hh Hbf Hc].
  assert (Hst : zlen (store (m_bufChunk st) (m_iCurSize st) (mread mem p size)) = CHUNK_BUFSIZE)
    by (rewrite zlen_store; rewrite ?zlen_mread; lia).
  apply ok_clean; cbn; auto; try lia.
  - split; cbn; auto. lia.
  - exists out. split; [assumption|]. unfold tmem. cbn.
    rewrite (ztake_split (m_iCurSize st)) by lia. rewrite ztake_store by lia.
    replace (m_iCurSize st + size - m_iCurSize st) with size by lia.
    pose proof (slice_store (m_bufChunk st) (m_iCurSize st) (mread mem p size) (m_iCurSize st + size)) as Hsl.
    rewrite zlen_mread in Hsl by lia. specialize (Hsl ltac:(lia) ltac:(lia) eq_refl).
    unfold slice in Hsl. replace (m_iCurSize st + size - m_iCurSize st) with size in Hsl by lia. rewrite Hsl.
    fold (tmem st). rewrite app_assoc, Ho. apply body_read; try lia. intros i Hi. apply Hm; lia.
Qed.

(** What [write] promises: [r] more bytes are accepted and the invariant is
    kept, or the stream failed and nothing wrong was sent. *)
Definition wrote (acc : Z) (r : Z) (st : cos) (w : W) : Prop :=
  (0 <= r /\ ok (acc + r) st w /\ m_iSendFileLeft st = 0) \/ (r < 0 /\ safe w).

Lemma write_loop_ok mem fuel : forall acc0 acc st w p left size,
  ok acc st w -> m_iov st = [] -> m_pLastBufBegin st = None -> m_iSendFileLeft st = 0 ->
  0 < left <= Z.of_nat fuel -> acc + left <= zlen B -> holds mem acc p ->
  0 <= acc0 -> acc0 <= acc -> size - left = acc - acc0 ->
  exists r st' w', write_loop mem fuel st w p left size = Some (r, st', w') /\
    r <= size /\ wrote acc0 r st' w'.
Proof.
  induction fuel as [|fuel IH]; intros acc0 acc st w p left size Hok Hv Hl Hsf Hle Hb Hm Ha0 Ha1 Hac; [lia|].
  cbn [write_loop]. set (cs := if left + m_iCurSize st >? MAX_CHUNK_SIZE then _ else _).
  pose proof (sh_cur _ (ok_shape _ _ _ Hok)) as Hc. unfold CHUNK_BUFSIZE, CHUNK_HEADER_SIZE, CHUNK_TAIL_SIZE in Hc.
  assert (Hcs : 0 < cs <= left /\ cs + m_iCurSize st <= MAX_CHUNK_SIZE /\
                (cs = left \/ cs + m_iCurSize st = MAX_CHUNK_SIZE)).
  { unfold cs, MAX_CHUNK_SIZE in *. destruct (left + m_iCurSize st >? 8192) eqn:E; lia. }
  clearbody cs. destruct (m_iBuffering st && (cs + m_iCurSize st <? CHUNK_BUFSIZE)) eqn:Eb.
  - apply andb_true_iff in Eb as [_ Eb]. apply Z.ltb_lt in Eb.
    assert (cs = left) as -> by (unfold MAX_CHUNK_SIZE, CHUNK_BUFSIZE, CHUNK_HEADER_SIZE, CHUNK_TAIL_SIZE in *; lia).
    eexists _, _, _. split; [reflexivity|]. split; [lia|]. left. split; [lia|]. split; [|exact Hsf].
    replace (acc0 + size) with (acc + left) by lia. apply fillChunkBuf_ok; auto; lia.
  - pose proof (chunkedWrite_ok mem acc st w p cs Hok Hv Hl Hsf ltac:(lia) ltac:(lia) ltac:(lia)
      ltac:(intros; apply Hm; lia)) as Hcw.
    destruct (chunkedWrite mem st w p cs) as [[r st'] w'].
    destruct Hcw as [(-> & Hok' & Hv' & Hl' & Hsf' & Hc')|[(-> & Hok' & Hsf')|(Hr & Hsafe)]].
    + replace (cs >? 0) with true by lia. destruct (left - cs <=? 0) eqn:E.
      * eexists _, _, _. split; [reflexivity|]. split; [lia|]. left. split; [lia|]. split; [|assumption].
        replace (acc0 + size) with (acc + cs) by lia. assumption.
      * apply (IH acc0 (acc + cs)); auto; try lia. apply holds_shift; [assumption|lia].
    + cbn. eexists _, _, _. split; [reflexivity|]. split; [lia|]. left. split; [lia|]. split; [|assumption].
      replace (acc0 + (size - left)) with acc by lia. assumption.
    + replace (r >? 0) with false by lia. replace (r =? 0) with false by lia.
      eexists _, _, _. split; [reflexivity|]. split; [lia|]. right. auto.
Qed.

(** Flushing in the state [ok] describes. *)
Lemma flush2_step mem acc st w :
  ok acc st w -> (m_iTotalPending st <> 0 -> forall p, m_pLastBufBegin st = Some p ->
    forall i, 0 <= i < m_iLastBufLen st -> mem (p + i) = znth B (acc + i)) ->
  m_iTotalPending st <> 0 ->
  let '(r, st', w') := flush2 mem st w in
  (r = 0 /\ ok acc st' w' /\ m_iov st' = [] /\ m_iTotalPending st' = 0 /\ m_iCurSize st' = 0) \/
  (r = 1 /\ ok acc st' w') \/ (r < 0 /\ safe w').
Proof.
  intros Hok Hm Hp0. pose proof (ok_safe _ _ _ Hok) as Hsafe.
  destruct Hok as [Hsh Hsg Hp Ha Hcu Hla Hle (out & Hr & Ho)].
  assert (Hag : agree (rng_of st) mem (body_mem acc st)).
  { unfold rng_of, body_mem. intros p n a Hrg Hi. destruct (m_pLastBufBegin st) as [q|] eqn:E; [|discriminate].
    injection Hrg as -> <-. replace a with (p + (a - p)) at 1 by lia. apply (Hm Hp0 p eq_refl). lia. }
  assert (Hc0 : m_iCurSize st = 0).
  { destruct (Z.eq_dec (m_iCurSize st) 0); [assumption|]. destruct Hcu as [Hv _]; [pose proof (sh_cur _ Hsh); lia|].
    rewrite vec_nil in Hp by assumption. change (zlen (@nil Z)) with 0 in Hp. lia. }
  pose proof (flush2_ok mem (body_mem acc st) (rng_of st) st w Hsh Hsg Hag Hp) as Hf.
  destruct (flush2 mem st w) as [[r st'] w'].
  destruct Hf as [(-> & -> & Hw)|[(-> & (v & k & ->) & Hsh2 & Hsg2 & Hp2 & Hw)|(Hr2 & -> & Hw)]].
  - left. split; [reflexivity|]. split; [|cbn; auto].
    split; unfold rng_of, taken, body_mem, segs_ok; cbn; auto; try lia.
    + destruct Hsh as [? ? _]. split; [assumption|assumption|]. cbn. split; [lia|reflexivity].
    + exists out. rewrite Hw. unfold iov_bytes at 2. cbn. rewrite app_nil_r. split; [exact Hr|].
      rewrite tmem_0 in Ho by assumption. exact Ho.
  - right; left. split; [reflexivity|].
    split; unfold rng_of, taken, body_mem; cbn; auto; try lia.
    + exists out. split; [|exact Ho]. rewrite <- Hr, <- Hw. reflexivity.
  - right; right. split; [assumption|]. unfold safe. rewrite Hw. exact Hsafe.
Qed.

(** ** The operations keep the invariant *)

Lemma segs_nil mem rng st : segs_ok rng st -> zlen (iov_bytes mem st) = 0 -> m_iov st = [].
Proof.
  unfold segs_ok, iov_bytes. destruct (m_iov st) as [|s v]; [reflexivity|]. intros Hv Hz.
  inversion Hv as [|? ? Hs _]; subst. unfold vec_bytes in Hz. cbn [map concat] in Hz.
  rewrite zlen_app, (seg_zlen _ _ _ _ _ Hs) in Hz. destruct Hs as [Hs _].
  pose proof (zlen_nonneg (concat (map (seg_bytes mem (m_headerBuf st) (m_bufChunk st)) v))). lia.
Qed.

Lemma ok_idle acc st w : ok acc st w -> m_iTotalPending st = 0 -> m_iov st = [].
Proof. intros [_ Hsg Hp _ _ _ _ _] Hz. eapply segs_nil; [exact Hsg|]. rewrite <- Hp. exact Hz. Qed.

Lemma write_rest_ok mem fuel acc st w p size :
  ok acc st w -> m_iov st = [] -> m_iTotalPending st = 0 -> m_iSendFileLeft st = 0 ->
  0 < size <= Z.of_nat fuel -> taken st <= size -> acc + size <= zlen B -> holds mem acc p ->
  exists r st' w', write_rest mem fuel st w p size = Some (r, st', w') /\ r <= size /\ wrote acc r st' w'.
Proof.
  intros Hok Hv Hp0 Hsf Hsz Ht Hb Hm. pose proof (ok_acc _ _ _ Hok) as [Ha0 _].
  unfold write_rest. destruct (m_pLastBufBegin st) as [q|] eqn:El.
  - assert (Htk : taken st = m_iLastBufLen st) by (unfold taken; rewrite El; reflexivity). rewrite Htk in Ht.
    destruct (ok_last _ _ _ Hok q El) as [Hll _].
    assert (Hok' : ok (acc + m_iLastBufLen st) (set_last st None 0) w).
    { destruct Hok as [Hsh Hsg Hp Ha Hcu Hla Hle (out & Hr & Ho)]. rewrite Htk in *.
      apply ok_clean; cbn; auto; try lia.
      - destruct Hsh; split; assumption.
      - exists out. rewrite vec_nil, app_nil_r in Hr by assumption. auto. }
    cbn zeta. destruct (size - m_iLastBufLen st <=? 0) eqn:E.
    + eexists _, _, _. split; [reflexivity|]. split; [lia|]. left. split; [lia|]. split; [|exact Hsf].
      replace size with (m_iLastBufLen st) by lia. exact Hok'.
    + apply (write_loop_ok mem fuel acc (acc + m_iLastBufLen st)); auto; try lia.
      apply holds_shift; [assumption|lia].
  - apply (write_loop_ok mem fuel acc acc); auto; lia.
Qed.

(** What the caller must respect: the buffer holds the rest of the body, and
    a buffer that was taken is submitted again whole, or at the same address
    while it is pending. *)
Record can_write (mem : Z -> Z) (acc : Z) (st : cos) (p n : Z) : Prop := {
  cw_size : 0 < n;
  cw_body : acc + n <= zlen B;
  cw_holds : holds mem acc p;
  cw_left : m_iSendFileLeft st = 0;
  cw_again : forall q, m_pLastBufBegin st = Some q ->
    (m_iTotalPending st <> 0 /\ p = q) \/ m_iLastBufLen st <= n
}.

Lemma write_pending_ok mem acc st w p n :
  ok acc st w -> can_write mem acc st p n -> m_iTotalPending st <> 0 ->
  let '(st', size) := write_pending st p n in
  ok acc st' w /\ n <= size /\ taken st' <= size /\ acc + size <= zlen B /\
  m_iSendFileLeft st' = 0 /\ m_iTotalPending st' <> 0 /\
  (forall q, m_pLastBufBegin st' = Some q -> q = p).
Proof.
  intros Hok [Hn Hb Hm Hsf Hag] Hp0. unfold write_pending. pose proof (ok_acc _ _ _ Hok) as [Ha0 Ha1].
  unfold taken in *. destruct (m_pLastBufBegin st) as [q|] eqn:El; [|rewrite El; split_and!; auto; lia || discriminate].
  specialize (Hag q eq_refl). destruct (p =? q) eqn:E; cbn [negb].
  - assert (p = q) as -> by lia. cbn. rewrite El. destruct (n <? m_iLastBufLen st) eqn:E2; split_and!; auto; try lia; congruence.
  - assert (Hll : m_iLastBufLen st <= n) by lia. cbn. split_and!; auto; try lia; [|congruence].
    destruct Hok as [Hsh Hsg Hp Ha Hcu Hla Hle (out & Hr & Ho)].
    unfold rng_of, taken, segs_ok in *. rewrite El in *.
    set (bm := body_mem acc st) in *.
    destruct (adjust_ok bm (fun a => znth B (acc + (a - p))) _ _ q (m_iLastBufLen st) p (m_iov st) Hsg) as [Hok' Hbytes].
    { intros i Hi. unfold bm, body_mem. rewrite El. f_equal. lia. }
    assert (Hbb : iov_bytes (body_mem acc
       (set_last (set_iov st (iov_adjust (m_iov st) q p (m_iLastBufLen st))) (Some p) (m_iLastBufLen st)))
       (set_last (set_iov st (iov_adjust (m_iov st) q p (m_iLastBufLen st))) (Some p) (m_iLastBufLen st))
       = iov_bytes bm st) by exact Hbytes.
    split; unfold rng_of, taken, segs_ok; rewrite ?Hbb; cbn; auto.
    + destruct Hsh; split; assumption.
    + intros Hc. destruct (Hcu Hc) as (_ & _ & ?). discriminate.
    + intros q' [= <-]. apply (Hla q eq_refl).
    + exists out. auto.
Qed.

Lemma write_ok_inv mem fuel acc st w p n :
  ok acc st w -> can_write mem acc st p n -> zlen B <= Z.of_nat fuel ->
  exists r st' w', write mem fuel st w (Some p) n = Some (r, st', w') /\
    acc + r <= zlen B /\ wrote acc r st' w'.
Proof.
  intros Hok Hcw Hf. pose proof Hcw as [Hn Hb Hm Hsf Hag]. pose proof (ok_acc _ _ _ Hok) as [Ha0 _].
  unfold write. replace (n <=? 0) with false by lia.
  destruct (m_iTotalPending st =? 0) eqn:Ep; cbn [negb].
  - apply Z.eqb_eq in Ep. pose proof (ok_idle _ _ _ Hok Ep) as Hv.
    destruct (write_rest_ok mem fuel acc st w p n) as (r & st' & w' & -> & Hr & Hw); auto; try lia.
    + unfold taken. destruct (m_pLastBufBegin st) as [q|] eqn:El; [|lia]. specialize (Hag q eq_refl). lia.
    + eexists _, _, _. split; [reflexivity|]. split; [lia|assumption].
  - pose proof (write_pending_ok mem acc st w p n Hok Hcw ltac:(lia)) as Hwp.
    destruct (write_pending st p n) as [st1 size].
    destruct Hwp as (Hok1 & Hns & Htk & Hbs & Hsf1 & Hp1 & Hq).
    assert (Hm1 : m_iTotalPending st1 <> 0 -> forall q, m_pLastBufBegin st1 = Some q ->
      forall i, 0 <= i < m_iLastBufLen st1 -> mem (q + i) = znth B (acc + i)).
    { intros _ q Hl i Hi. rewrite (Hq q Hl). apply Hm; [lia|].
      pose proof (ok_acc _ _ _ Hok1) as [_ Ha1]. unfold taken in Ha1. rewrite Hl in Ha1. lia. }
    pose proof (flush2_step mem acc st1 w Hok1 Hm1 Hp1) as Hfl.
    unfold flush2 in Hfl |- *.
    destruct (os_writev w (iov_bytes mem st1) (m_iTotalPending st1)) as [ret w2].
    set (res := if ret >=? m_iTotalPending st1 then _ else _) in *.
    assert (Hsfr : m_iSendFileLeft (snd (fst res)) = 0 /\ taken (snd (fst res)) = taken st1).
    { unfold res. destruct (ret >=? _), (ret >=? 0), (ret =? 0); cbn; auto. }
    clearbody res. destruct res as [[r st2] w3]. cbn [fst snd] in Hsfr. destruct Hsfr as [Hsf2 Htk2].
    destruct Hfl as [(-> & Hok2 & Hv2 & Hp2 & Hc2)|[(-> & Hok2)|(Hr & Hs)]].
    + destruct (write_rest_ok mem fuel acc st2 w3 p size) as (r & st' & w' & Hwr & Hr & Hw); auto; try lia.
      cbn. rewrite Hwr. eexists _, _, _. split; [reflexivity|]. split; [lia|assumption].
    + cbn. eexists _, _, _. split; [reflexivity|]. split; [lia|]. left. rewrite Z.add_0_r. split_and!; auto; lia.
    + replace (r =? 0) with false by lia. replace (r =? 1) with false by lia.
      eexists _, _, _. split; [reflexivity|]. split; [lia|]. right. auto.
Qed.

Lemma set_cur_0 st : m_iCurSize st = 0 -> set_cur st 0 = st.
Proof. destruct st. cbn. intros ->. reflexivity. Qed.

Lemma set_left_0 st : m_iSendFileLeft st = 0 -> set_left st 0 = st.
Proof. destruct st. cbn. intros ->. reflexivity. Qed.

(** Turning the chunk buffer into a chunk: complete ([size = 0]), or the start
    of a chunk whose last [size] bytes will come from a file. *)
Lemma build_ok acc st w size :
  ok acc st w -> 0 < m_iCurSize st -> 0 <= size <= MAX_CHUNK_SIZE ->
  let '(n, st') := buildIovec st None size in
  ok acc (set_left (set_pending st' (m_iTotalPending st + n)) size) w /\
  m_iCurSize st' = 0 /\ m_pLastBufBegin st' = None /\ m_iSendFileLeft st' = 0 /\ 0 < n /\
  m_iTotalPending st = 0.
Proof.
  intros [Hsh Hsg Hp Ha Hcu Hla Hle (out & Hr & Ho)] Hc Hs. destruct (Hcu Hc) as (Hv & Hsf & Hl).
  unfold MAX_CHUNK_SIZE in *. pose proof (sh_cur _ Hsh) as Hc2.
  unfold CHUNK_BUFSIZE, CHUNK_HEADER_SIZE, CHUNK_TAIL_SIZE in Hc2.
  unfold taken in *. rewrite Hl in *. rewrite vec_nil in Hp, Hr by assumption. rewrite app_nil_r, Hsf in Hr.
  pose proof (buildIovec_ok (body_mem acc st) st None size None Hsh ltac:(lia)
    ltac:(rewrite Hv; reflexivity) ltac:(unfold segs_ok; rewrite Hv; constructor) ltac:(discriminate)) as Hbi.
  destruct (buildIovec st None size) as [n st'].
  destruct Hbi as (Hn & Hsh1 & Hsg1 & (_ & Hfs & _ & _ & Hfl) & Hc1 & Hb1).
  rewrite (vec_nil _ st Hv) in Hb1. cbn [app] in Hb1. change (zlen (@nil Z)) with 0 in Hp.
  assert (Hz : zlen (tmem st) = m_iCurSize st).
  { unfold tmem. rewrite zlen_ztake by lia. pose proof (sh_buf _ Hsh) as Hbf.
    unfold CHUNK_BUFSIZE, CHUNK_HEADER_SIZE, CHUNK_TAIL_SIZE in Hbf. lia. }
  split; [|split_and!; try congruence; subst n; unfold chunk_bytes; rewrite !zlen_app; change (zlen [CR; LF]) with 2;
    pose proof (zlen_nonneg (hex (size + m_iCurSize st))); pose proof (zlen_nonneg (if size =? 0 then [CR; LF] else [])); lia].
  assert (Hbm : forall x, iov_bytes (body_mem acc (set_left (set_pending st' x) size)) (set_left (set_pending st' x) size)
                          = chunk_bytes (body_mem acc st) st None size).
  { intros x. rewrite <- Hb1. unfold iov_bytes. cbn. apply vec_ext with (rng := None); [exact Hsg1|]. intros ? ? ? [=]. }
  split; unfold rng_of, taken, segs_ok; rewrite ?Hbm; cbn; rewrite ?Hfl, ?Hl, ?Hc1; auto; try lia; try discriminate.
  - destruct Hsh1; split; assumption.
  - exists (out ++ tmem st). split; [|rewrite (tmem_0 (set_left _ _)), app_nil_r by exact Hc1; exact Ho].
    erewrite run_app by exact Hr. change (data_mode 0) with (MLine []). unfold chunk_bytes, data_mode.
    destruct (size =? 0) eqn:E.
    + replace (size + m_iCurSize st) with (zlen (tmem st)) by lia. rewrite run_chunk by (unfold INT_MAX; lia). reflexivity.
    + rewrite app_nil_r. erewrite run_app by (apply run_header; unfold INT_MAX; lia).
      rewrite emit_nil, <- (app_nil_r (tmem st)), run_data by lia. rewrite app_nil_r.
      replace (size + m_iCurSize st - zlen (tmem st)) with size by lia. cbn. rewrite app_nil_r. reflexivity.
Qed.

(** The caller's memory still holds what is pending of it. *)
Definition can_flush (mem : Z -> Z) (acc : Z) (st : cos) : Prop :=
  m_iTotalPending st <> 0 -> forall p, m_pLastBufBegin st = Some p ->
    forall i, 0 <= i < m_iLastBufLen st -> mem (p + i) = znth B (acc + i).

Lemma flush_ok mem acc st w :
  ok acc st w -> can_flush mem acc st ->
  let '(r, st', w') := flush mem st w in
  (r = 0 /\ ok acc st' w' /\ m_iov st' = [] /\ m_iTotalPending st' = 0 /\ m_iCurSize st' = 0) \/
  (r = 1 /\ ok acc st' w') \/ (r < 0 /\ safe w').
Proof.
  intros Hok Hm. unfold flush. destruct (m_iCurSize st >? 0) eqn:Ec.
  - assert (Hc : 0 < m_iCurSize st) by lia.
    pose proof (build_ok acc st w 0 Hok Hc ltac:(unfold MAX_CHUNK_SIZE; lia)) as Hb.
    destruct (buildIovec st None 0) as [n st1]. destruct Hb as (Hok1 & Hc1 & Hl1 & Hsf1 & Hn & Hp0).
    rewrite set_left_0 in Hok1 by assumption. rewrite set_cur_0 by assumption. cbn [m_iTotalPending set_left set_pending] in *.
    replace (m_iTotalPending st + n =? 0) with false by lia. cbn [negb].
    apply flush2_step; [exact Hok1| |cbn; lia]. cbn. rewrite Hl1. discriminate.
  - destruct (m_iTotalPending st =? 0) eqn:Ep; cbn [negb].
    + left. split; [reflexivity|]. split; [assumption|]. apply Z.eqb_eq in Ep. split_and!; auto.
      * eapply ok_idle; eauto.
      * pose proof (sh_cur _ (ok_shape _ _ _ Hok)). lia.
    + apply flush2_step; auto. lia.
Qed.

(** Adding a literal to the vector: the mode moves on by what it holds. *)
Lemma append_lit_ok acc st w lit n m' rng :
  ok acc st w -> segs_ok rng st -> 0 < n -> zlen lit = n -> m_iCurSize st = 0 -> m_iSendFileLeft st = 0 ->
  run (MLine []) lit = ([], m', []) ->
  let st' := append (set_pending st (m_iTotalPending st + n)) (PLit lit) n in
  shape st' /\ segs_ok rng st' /\ m_iTotalPending st' = zlen (iov_bytes (body_mem acc st) st') /\
  run (MLine []) (os_sent w ++ iov_bytes (body_mem acc st) st') = (ztake (acc + taken st) B, m', []).
Proof.
  intros [Hsh _ Hp Ha Hcu Hla Hle (out & Hr & Ho)] Hsg Hn Hz Hc Hsf Hrun st'.
  assert (Hsh' : shape (set_pending st (m_iTotalPending st + n))) by (destruct Hsh; split; assumption).
  destruct (append_ok (body_mem acc st) rng (set_pending st (m_iTotalPending st + n)) (PLit lit) n Hsh' Hsg)
    as (A & C & _ & D); [split; cbn; lia|].
  assert (Hb : iov_bytes (body_mem acc st) st' = iov_bytes (body_mem acc st) st ++ lit).
  { unfold st'. rewrite D. unfold seg_bytes. cbn. rewrite ztake_all by lia. reflexivity. }
  split_and!; auto.
  - rewrite Hb, zlen_app, <- Hp, Hz. reflexivity.
  - rewrite Hb, app_assoc. erewrite run_app by exact Hr. rewrite Hsf. change (data_mode 0) with (MLine []).
    rewrite Hrun. cbn. rewrite app_nil_r. rewrite tmem_0, app_nil_r in Ho by assumption. rewrite Ho. reflexivity.
Qed.

(** The state with the chunk buffer turned into a chunk, before the end. *)
Lemma close_prep mem acc st w :
  ok acc st w -> can_flush mem acc st -> m_iSendFileLeft st = 0 ->
  let st1 := if m_iCurSize st >? 0 then
      let '(n, st') := buildIovec st None 0 in set_pending st' (m_iTotalPending st + n) else st in
  ok acc st1 w /\ m_iCurSize st1 = 0 /\ m_iSendFileLeft st1 = 0 /\ taken st1 = taken st /\
  exists rng, segs_ok rng st1 /\ agree rng mem (body_mem acc st1).
Proof.
  intros Hok Hm Hsf. pose proof (sh_cur _ (ok_shape _ _ _ Hok)). destruct (m_iCurSize st >? 0) eqn:Ec.
  - destruct (ok_cur _ _ _ Hok ltac:(lia)) as (_ & _ & Hl0).
    pose proof (build_ok acc st w 0 Hok ltac:(lia) ltac:(unfold MAX_CHUNK_SIZE; lia)) as Hb.
    destruct (buildIovec st None 0) as [n st2]. destruct Hb as (Hok1 & Hc1 & Hl1 & Hsf1 & Hn & Hp0).
    rewrite set_left_0 in Hok1 by assumption. split; [exact Hok1|]. unfold taken. cbn. rewrite Hl0, Hl1. split_and!; auto.
    exists None. split; [|intros ? ? ? [=]]. pose proof (ok_segs _ _ _ Hok1) as Hs. unfold rng_of in Hs.
    cbn in Hs. rewrite Hl1 in Hs. exact Hs.
  - split_and!; auto; [lia|]. destruct (Z.eq_dec (m_iTotalPending st) 0) as [Hz|Hz].
    + exists None. split; [unfold segs_ok; rewrite (ok_idle _ _ _ Hok Hz); constructor|intros ? ? ? [=]].
    + exists (rng_of st). split; [apply (ok_segs _ _ _ Hok)|]. unfold rng_of, body_mem. intros p k a Hk Hi.
      destruct (m_pLastBufBegin st) as [q|] eqn:El; [|discriminate]. injection Hk as -> <-.
      replace a with (p + (a - p)) at 1 by lia. apply (Hm Hz p El). lia.
Qed.

(** Closing: when it reports that all is out, the message is complete and
    decodes to the bytes taken; otherwise what is out and what is pending make
    that message, or the stream failed. *)
Lemma close_ok mem acc st w :
  ok acc st w -> can_flush mem acc st -> m_iSendFileLeft st = 0 ->
  let '(r, st', w') := close mem st w in
  (r = 0 /\ run (MLine []) (os_sent w') = (ztake (acc + taken st) B, MEof, [])) \/
  (r = 1 /\ exists bm, run (MLine []) (os_sent w' ++ iov_bytes bm st') = (ztake (acc + taken st) B, MEof, [])) \/
  (r < 0 /\ safe w').
Proof.
  intros Hok Hm Hsf. pose proof (ok_safe _ _ _ Hok) as Hsafe. pose proof (close_prep mem acc st w Hok Hm Hsf) as Hpr.
  unfold close. set (st1 := if m_iCurSize st >? 0 then _ else st) in *. cbv zeta in Hpr. clearbody st1.
  destruct Hpr as (Hok1 & Hc1 & Hsf1 & Htk & rng & Hsg & Hag).
  destruct (append_lit_ok acc st1 w CHUNK_END 5 MEof rng Hok1 Hsg ltac:(lia) eq_refl Hc1 Hsf1 run_end)
    as (A & C & D & E). rewrite Htk in E.
  set (st2 := append _ _ _) in *.
  pose proof (flush2_ok mem (body_mem acc st1) rng st2 w A C Hag D) as Hf.
  destruct (flush2 mem st2 w) as [[r st'] w'].
  destruct Hf as [(-> & -> & Hw)|[(-> & _ & _ & _ & _ & Hw)|(Hr2 & -> & Hw)]].
  - left. rewrite Hw, E. auto.
  - right; left. split; [reflexivity|]. exists (body_mem acc st1). rewrite Hw. exact E.
  - right; right. split; [assumption|]. unfold safe. rewrite Hw. exact Hsafe.
Qed.

(** ** Sending a file *)

Lemma flush2_frame mem st w :
  m_iSendFileLeft (snd (fst (flush2 mem st w))) = m_iSendFileLeft st /\
  m_pLastBufBegin (snd (fst (flush2 mem st w))) = m_pLastBufBegin st.
Proof.
  unfold flush2. destruct (os_writev _ _ _) as [ret w'].
  destruct (ret >=? m_iTotalPending st), (ret >=? 0), (ret =? 0); auto.
Qed.

Lemma buildIovec_frame st pBuf size :
  m_iSendFileLeft (snd (buildIovec st pBuf size)) = m_iSendFileLeft st /\
  m_pLastBufBegin (snd (buildIovec st pBuf size)) = m_pLastBufBegin st.
Proof.
  unfold buildIovec, buildChunkHeader. cbn [m_iCurSize append set_iov set_header].
  destruct (m_iCurSize st =? 0), pBuf, (size =? 0); auto.
Qed.

Lemma flush_frame mem st w :
  m_iSendFileLeft (snd (fst (flush mem st w))) = m_iSendFileLeft st /\
  m_pLastBufBegin (snd (fst (flush mem st w))) = m_pLastBufBegin st.
Proof.
  unfold flush. pose proof (buildIovec_frame st None 0) as Hb.
  destruct (m_iCurSize st >? 0), (buildIovec st None 0) as [n st1]; cbn [snd] in Hb.
  - match goal with |- context [flush2 mem ?x w] => pose proof (flush2_frame mem x w) as [Hf1 Hf2] end.
    cbn in Hf1, Hf2. destruct Hb. destruct (negb _); cbn; split; congruence.
  - destruct (negb _); [apply flush2_frame|auto].
Qed.

Lemma wraps_short z : - 2 ^ 15 <= z < 2 ^ 15 -> wraps 16 z = z.
Proof. intros. unfold wraps. change (16 - 1) with 15. rewrite Z.mod_small; lia. Qed.

Lemma sendchunk_ok acc st w size :
  ok acc st w -> m_iSendFileLeft st = 0 -> m_pLastBufBegin st = None -> no_header (m_iov st) = true ->
  0 < size ->
  let st' := buildSendFileChunk st size in
  ok acc st' w /\ m_pLastBufBegin st' = None /\ m_iSendFileLeft st' = Z.min size MAX_CHUNK_SIZE.
Proof.
  intros Hok Hsf Hl Hnh Hs. unfold buildSendFileChunk.
  set (sz := if size >? MAX_CHUNK_SIZE then MAX_CHUNK_SIZE else size).
  assert (Hsz : sz = Z.min size MAX_CHUNK_SIZE) by (unfold sz; destruct (size >? MAX_CHUNK_SIZE) eqn:E; lia).
  clearbody sz. assert (Hr : 0 < sz <= 8192) by (unfold MAX_CHUNK_SIZE in Hsz; lia). rewrite <- Hsz, (wraps_short sz) by lia.
  destruct (m_iCurSize st >? 0) eqn:Ec.
  - pose proof (build_ok acc st w sz Hok ltac:(lia) ltac:(unfold MAX_CHUNK_SIZE; lia)) as Hb.
    destruct (buildIovec st None sz) as [n st']. destruct Hb as (Hok' & _ & Hl' & _).
    exact (conj Hok' (conj Hl' eq_refl)).
  - destruct Hok as [Hsh Hsg Hp Ha Hcu Hla Hle (out & Hrn & Ho)].
    assert (Hc : m_iCurSize st = 0) by (pose proof (sh_cur _ Hsh); lia).
    pose proof (header_ok (body_mem acc st) st sz _ Hsh ltac:(lia) Hnh Hsg) as Hh.
    set (res := buildChunkHeader st sz) in *.
    assert (Hf : m_pLastBufBegin (snd res) = m_pLastBufBegin st /\ m_iCurSize (snd res) = m_iCurSize st) by auto.
    clearbody res. destruct res as [n st']. cbn [snd] in Hf. destruct Hf as [Hfl Hfc].
    destruct Hh as (Hn & Hsh1 & Hsg1 & Hb1). cbn. rewrite Hfl, Hl. split_and!; auto.
    assert (Hbm : forall a, body_mem acc st a = 0) by (intros; unfold body_mem; rewrite Hl; reflexivity).
    assert (Hbb : iov_bytes (body_mem acc (set_left (set_pending st' (m_iTotalPending st + n)) sz))
        (set_left (set_pending st' (m_iTotalPending st + n)) sz) = iov_bytes (body_mem acc st) st ++ hex sz ++ [CR; LF]).
    { rewrite <- Hb1. unfold iov_bytes. cbn. apply vec_ext with (rng := rng_of st); [exact Hsg1|].
      unfold rng_of. rewrite Hl. intros ? ? ? [=]. }
    unfold taken, rng_of in *. rewrite Hl in *.
    split; unfold rng_of, taken, segs_ok; rewrite ?Hbb; cbn; rewrite ?Hfl, ?Hl, ?Hfc; auto; try lia; try discriminate.
    + destruct Hsh1; split; assumption.
    + rewrite zlen_app. congruence.
    + exists out. unfold tmem. cbn. rewrite Hfc, Hc, ztake_0, app_nil_r. rewrite tmem_0, app_nil_r in Ho by assumption.
      split; [|exact Ho]. rewrite app_assoc. erewrite run_app by exact Hrn. rewrite Hsf. change (data_mode 0) with (MLine []).
      rewrite run_header by (unfold INT_MAX; lia). unfold data_mode. replace (sz =? 0) with false by lia.
      cbn. rewrite app_nil_r. reflexivity.
Qed.

(** After [r] bytes of the file went out. *)
Lemma sent_ok acc st w w' r :
  ok acc st w -> m_iov st = [] -> m_iCurSize st = 0 -> m_pLastBufBegin st = None ->
  acc + m_iSendFileLeft st <= zlen B -> 0 < r <= m_iSendFileLeft st ->
  os_sent w' = os_sent w ++ ztake r (slice acc (acc + m_iSendFileLeft st) B) ->
  let st1 := set_left st (m_iSendFileLeft st - r) in
  let st2 := if m_iSendFileLeft st1 =? 0 then appendCRLF st1 else st1 in
  ok (acc + r) st2 w' /\ m_pLastBufBegin st2 = None /\ no_header (m_iov st2) = true.
Proof.
  intros [Hsh Hsg Hp Ha Hcu Hla Hle (out & Hrn & Ho)] Hv Hc Hl Hb Hr Hw st1 st2.
  unfold taken in *. rewrite Hl, Z.add_0_r in *. rewrite vec_nil in Hp, Hrn by assumption. rewrite app_nil_r in Hrn.
  rewrite tmem_0, app_nil_r in Ho by assumption. subst out. change (zlen (@nil Z)) with 0 in Hp.
  set (d := slice acc (acc + r) B).
  assert (Hd : os_sent w' = os_sent w ++ d).
  { rewrite Hw. f_equal. unfold d, slice. rewrite ztake_ztake by lia. f_equal. lia. }
  assert (Hdl : zlen d = r) by (unfold d; rewrite zlen_slice; lia).
  assert (Hdo : ztake acc B ++ d = ztake (acc + r) B).
  { unfold d. rewrite <- !slice_0, <- slice_split by lia. reflexivity. }
  assert (Hlf : data_mode (m_iSendFileLeft st) = MData (m_iSendFileLeft st)).
  { unfold data_mode. replace (m_iSendFileLeft st =? 0) with false by lia. reflexivity. }
  rewrite Hlf in Hrn. destruct Hsh as [Hh Hbf Hcs].
  assert (Hend : r = m_iSendFileLeft st -> run (MLine []) (os_sent w') = (ztake (acc + r) B, MCR, [])).
  { intros Heq. rewrite Hd. erewrite run_app by exact Hrn. 
    pose proof (run_data_all d [] ltac:(lia)) as Hx. rewrite app_nil_r, Hdl, Heq in Hx. rewrite Hx.
    cbn. rewrite app_nil_r, Hdo. reflexivity. }
  unfold st2, st1. cbn [m_iSendFileLeft set_left]. destruct (m_iSendFileLeft st - r =? 0) eqn:E.
  - assert (Hv2 : iov_bytes (body_mem (acc + r) (appendCRLF (set_left st (m_iSendFileLeft st - r))))
                    (appendCRLF (set_left st (m_iSendFileLeft st - r))) = [CR; LF]).
    { unfold iov_bytes. cbn. rewrite Hv. reflexivity. }
    split; [|split; [exact Hl|cbn; rewrite Hv; reflexivity]].
    split; unfold rng_of, taken, segs_ok; rewrite ?Hv2; cbn; rewrite ?Hl, ?Z.add_0_r; auto; try lia; try discriminate.
    + split; assumption.
    + rewrite Hv. repeat constructor; cbn; lia.
    + rewrite Hp. reflexivity.
    + exists (ztake (acc + r) B). replace (m_iSendFileLeft st - r) with 0 by lia. split.
      * erewrite run_app by (apply Hend; lia). cbn. rewrite app_nil_r. reflexivity.
      * rewrite (tmem_0 (appendCRLF _)), app_nil_r by exact Hc. reflexivity.
  - split; [|split; [exact Hl|cbn; rewrite Hv; reflexivity]].
    apply ok_clean; cbn; auto; try lia; try (unfold MAX_CHUNK_SIZE in *; lia); [split; assumption|].
    exists (ztake (acc + r) B). split; [|rewrite (tmem_0 (set_left _ _)), app_nil_r by exact Hc; reflexivity].
    rewrite Hd. erewrite run_app by exact Hrn. rewrite <- (app_nil_r d), run_data by lia. unfold data_mode. rewrite E, Hdl.
    cbn. rewrite app_nil_r, Hdo. reflexivity.
Qed.

(** The file holds the rest of the body at [off]. *)
Definition fholds (file : Z -> Z -> list Z) (acc off : Z) : Prop :=
  forall k n, 0 <= k -> 0 <= n -> acc + k + n <= zlen B ->
    file (off + k) n = slice (acc + k) (acc + k + n) B.

Lemma fholds_shift file acc off k : fholds file acc off -> 0 <= k -> fholds file (acc + k) (off + k).
Proof.
  intros Hf Hk j n Hj Hn Hl. replace (off + k + j) with (off + (k + j)) by lia.
  rewrite Hf by lia. f_equal; lia.
Qed.

Lemma chunkSendfile_loop_ok mem file begin last fuel : forall acc st w off,
  ok acc st w -> m_pLastBufBegin st = None -> (m_iSendFileLeft st = 0 -> no_header (m_iov st) = true) ->
  Z.max 0 (last - off) < Z.of_nat fuel -> acc + (last - off) <= zlen B -> acc + m_iSendFileLeft st <= zlen B ->
  fholds file acc off -> begin <= off -> off < Z.max begin last + MAX_CHUNK_SIZE -> last - begin + MAX_CHUNK_SIZE < 2 ^ 31 ->
  exists r st' w', chunkSendfile_loop mem fuel file st w begin off last = Some (r, st', w') /\
    ((0 <= r /\ ok (acc - (off - begin) + r) st' w') \/ (r < 0 /\ safe w')).
Proof.
  induction fuel as [|fuel IH]; intros acc st w off Hok Hl Hnh Hf Hb1 Hb2 Hfh Hbo Hlast Hint.
  { lia. }
  unfold MAX_CHUNK_SIZE in Hlast, Hint.
  cbn [chunkSendfile_loop]. rewrite (wraps_small (off - begin)) by lia. destruct (off <? last) eqn:Eo.
  1: rewrite (wraps_small (last - off)) by lia.
  2:{ eexists _, _, _. split; [reflexivity|]. left. split; [lia|].
      replace (acc - (off - begin) + (off - begin)) with acc by lia. assumption. }
  set (st1 := if m_iSendFileLeft st =? 0 then _ else st).
  assert (H1 : ok acc st1 w /\ m_pLastBufBegin st1 = None /\ 0 < m_iSendFileLeft st1 /\
               acc + m_iSendFileLeft st1 <= zlen B).
  { unfold st1. pose proof (ok_left _ _ _ Hok). destruct (m_iSendFileLeft st =? 0) eqn:E; [|split_and!; auto; lia].
    destruct (sendchunk_ok acc st w (last - off) Hok) as (A & C & D); auto; try lia. rewrite D.
    unfold MAX_CHUNK_SIZE. split_and!; auto; lia. }
  clearbody st1. destruct H1 as (Hok1 & Hl1 & Hp1 & Hb3).
  assert (Hcf : can_flush mem acc st1) by (intros _ p Hp; congruence).
  pose proof (flush_ok mem acc st1 w Hok1 Hcf) as Hfl. pose proof (flush_frame mem st1 w) as [Hfr1 Hfr2].
  destruct (flush mem st1 w) as [[r st2] w2]. cbn [fst snd] in Hfr1, Hfr2.
  destruct Hfl as [(-> & Hok2 & Hv2 & Hpd2 & Hc2)|[(-> & Hok2)|(Hr & Hs)]].
  - cbn -[wraps wrapu]. pose proof (ok_left _ _ _ Hok2) as Hle2. unfold MAX_CHUNK_SIZE in Hle2. rewrite (wrapu_small 64) by lia. assert (Hfile : file off (m_iSendFileLeft st2) = slice acc (acc + m_iSendFileLeft st2) B).
    { pose proof (Hfh 0 (m_iSendFileLeft st2) ltac:(lia) ltac:(lia) ltac:(lia)) as Hx.
      rewrite !Z.add_0_r in Hx. exact Hx. }
    pose proof (os_sendfile_ok w2 (file off (m_iSendFileLeft st2))) as Hsf. unfold write_ok in Hsf.
    destruct (os_sendfile w2 (file off (m_iSendFileLeft st2))) as [r w3]. rewrite Hfile in Hsf.
    pose proof (ok_acc _ _ _ Hok) as [Ha0 _].
    rewrite zlen_slice in Hsf by lia. destruct Hsf as [[Hr Hw]|[Hr Hw]].
    + destruct (r >? 0) eqn:Er.
      * destruct (sent_ok acc st2 w2 w3 r Hok2 Hv2 Hc2) as (A & C & D); try lia; try congruence.
        cbn [m_iSendFileLeft set_left] in A, C, D. rewrite (wraps_short (_ - r)) by lia.
        match goal with |- context [chunkSendfile_loop mem fuel file ?x w3 _ _ _] => set (st3 := x) in * end.
        destruct (IH (acc + r) st3 w3 (off + r)) as (r' & st' & w' & Heq & Hpost); auto; try (unfold MAX_CHUNK_SIZE; lia).
        -- unfold st3. destruct (m_iSendFileLeft st2 - r =? 0); cbn; lia.
        -- apply fholds_shift; [assumption|lia].
        -- rewrite Heq. eexists _, _, _. split; [reflexivity|].
           replace (acc + r - (off + r - begin)) with (acc - (off - begin)) in Hpost by lia. exact Hpost.
      * assert (r = 0) as -> by lia. cbn. eexists _, _, _. split; [reflexivity|]. left. split; [lia|].
        replace (acc - (off - begin) + (off - begin)) with acc by lia.
        rewrite ztake_0, app_nil_r in Hw. destruct Hok2. split; auto. rewrite Hw. assumption.
    + replace (r >? 0) with false by lia. replace (r <? 0) with true by lia.
      eexists _, _, _. split; [reflexivity|]. right. split; [assumption|]. unfold safe. rewrite Hw.
      apply (ok_safe _ _ _ Hok2).
  - cbn. eexists _, _, _. split; [reflexivity|]. left. split; [lia|].
    replace (acc - (off - begin) + (off - begin)) with acc by lia. assumption.
  - replace (r <? 0) with true by lia. eexists _, _, _. split; [reflexivity|]. right. auto.
Qed.

(** ** Sessions *)

(** The calls of a caller: write a buffer, flush, send a part of a file. *)
Inductive op :=
| OWrite (mem : Z -> Z) (p n : Z)
| OFlush (mem : Z -> Z)
| OFile (mem : Z -> Z) (file : Z -> Z -> list Z) (off size : Z).

Definition do_op (fuel : nat) (st : cos) (w : W) (o : op) : option (Z * cos * W) :=
  match o with
  | OWrite mem p n => write mem fuel st w (Some p) n
  | OFlush mem => Some (flush mem st w)
  | OFile mem file off size => chunkSendfile mem fuel file st w off size
  end.

(** What the call's result adds to what was accepted. *)
Definition accepted (o : op) (r : Z) : Z := match o with OFlush _ => 0 | _ => r end.

(** A session stops at the first failure. *)
Fixpoint session (fuel : nat) (acc : Z) (st : cos) (w : W) (ops : list op)
    : option (Z * cos * W * bool) :=
  match ops with
  | [] => Some (acc, st, w, false)
  | o :: ops =>
      match do_op fuel st w o with
      | None => None
      | Some (r, st, w) =>
          if r <? 0 then Some (acc, st, w, true) else session fuel (acc + accepted o r) st w ops
      end
  end.

(** What a call needs: sizes that an [int] holds, and see [can_write]; a file is sent
    between writes, or goes on where a chunk for it was begun. *)
Definition op_ok (acc : Z) (st : cos) (o : op) : Prop :=
  match o with
  | OWrite mem p n => n + CHUNK_BUFSIZE <= INT_MAX /\ can_write mem acc st p n
  | OFlush mem => can_flush mem acc st
  | OFile mem file off size =>
      0 <= size /\ size + MAX_CHUNK_SIZE < 2 ^ 31 /\ 0 <= off /\ off + size < 2 ^ 63 /\ acc + size <= zlen B /\ acc + m_iSendFileLeft st <= zlen B /\ fholds file acc off /\
      m_pLastBufBegin st = None /\ (m_iSendFileLeft st = 0 -> no_header (m_iov st) = true)
  end.

Fixpoint session_ok (fuel : nat) (acc : Z) (st : cos) (w : W) (ops : list op) : Prop :=
  match ops with
  | [] => True
  | o :: ops =>
      op_ok acc st o /\
      match do_op fuel st w o with
      | Some (r, st, w) => 0 <= r -> session_ok fuel (acc + accepted o r) st w ops
      | None => True
      end
  end.

Lemma do_op_ok fuel acc st w o :
  ok acc st w -> op_ok acc st o -> zlen B < Z.of_nat fuel ->
  exists r st' w', do_op fuel st w o = Some (r, st', w') /\
    ((0 <= r /\ ok (acc + accepted o r) st' w') \/ (r < 0 /\ safe w')).
Proof.
  intros Hok Ho Hf. destruct o as [mem p n|mem|mem file off size]; cbn [do_op op_ok accepted] in *.
  - destruct Ho as [_ Ho]. destruct (write_ok_inv mem fuel acc st w p n Hok Ho ltac:(lia)) as (r & st' & w' & Heq & _ & Hw).
    eexists _, _, _. split; [exact Heq|]. destruct Hw as [(? & ? & _)|?]; auto.
  - pose proof (flush_ok mem acc st w Hok Ho) as Hfl. destruct (flush mem st w) as [[r st'] w'].
    eexists _, _, _. split; [reflexivity|]. rewrite Z.add_0_r.
    destruct Hfl as [(-> & ? & _)|[(-> & ?)|?]]; auto; left; split; auto; lia.
  - destruct Ho as (Hs & Hs31 & Ho0 & Ho63 & Hb & Hb2 & Hfh & Hl & Hnh). pose proof (ok_acc _ _ _ Hok) as [Ha _]. unfold chunkSendfile.
    replace (wraps 64 (off + size)) with (off + size) by (unfold wraps; change (64 - 1) with 63; rewrite Z.mod_small; lia). unfold MAX_CHUNK_SIZE in Hs31.
    destruct (chunkSendfile_loop_ok mem file off (off + size) fuel acc st w off) as (r & st' & w' & Heq & Hp); auto; try (unfold MAX_CHUNK_SIZE; lia).
    eexists _, _, _. split; [exact Heq|]. replace (acc - (off - off) + r) with (acc + r) in Hp by lia. exact Hp.
Qed.

Lemma session_inv fuel ops : forall acc st w,
  ok acc st w -> session_ok fuel acc st w ops -> zlen B < Z.of_nat fuel ->
  exists acc' st' w' failed, session fuel acc st w ops = Some (acc', st', w', failed) /\
    safe w' /\ (failed = false -> ok acc' st' w').
Proof.
  induction ops as [|o ops IH]; intros acc st w Hok Hs Hf; cbn [session session_ok] in *.
  - exists acc, st, w, false. split; [reflexivity|]. split; [apply (ok_safe _ _ _ Hok)|auto].
  - destruct Hs as [Ho Hs]. destruct (do_op_ok fuel acc st w o Hok Ho Hf) as (r & st' & w' & Heq & Hp).
    rewrite Heq in Hs |- *. destruct Hp as [[Hr Hok']|[Hr Hsafe]].
    + replace (r <? 0) with false by lia. auto.
    + replace (r <? 0) with true by lia. exists acc, st', w', true. split; [reflexivity|]. split; [assumption|discriminate].
Qed.

Lemma open_ok st0 w buf :
  zlen (m_headerBuf st0) = CHUNK_HEADER_SIZE -> zlen (m_bufChunk st0) = CHUNK_BUFSIZE -> os_sent w = [] ->
  ok 0 (setBuffering (open st0) buf) w.
Proof.
  intros Hh Hb Hw. pose proof (zlen_nonneg B). apply ok_clean; cbn; auto; try lia; try (unfold MAX_CHUNK_SIZE; lia).
  - split; cbn; auto. split; [lia|reflexivity].
  - exists []. rewrite Hw. auto.
Qed.

Lemma session_encodes_aux fuel st0 w0 buf ops :
  zlen (m_headerBuf st0) = CHUNK_HEADER_SIZE -> zlen (m_bufChunk st0) = CHUNK_BUFSIZE -> os_sent w0 = [] ->
  zlen B < Z.of_nat fuel -> session_ok fuel 0 (setBuffering (open st0) buf) w0 ops ->
  exists acc st w failed,
    session fuel 0 (setBuffering (open st0) buf) w0 ops = Some (acc, st, w, failed) /\ safe w /\
    forall mem, failed = false -> m_iSendFileLeft st = 0 -> can_flush mem acc st ->
      let '(r, st', w') := close mem st w in
      (r = 0 -> run (MLine []) (os_sent w') = (ztake (acc + taken st) B, MEof, [])) /\
      (r = 1 -> exists bm, run (MLine []) (os_sent w' ++ iov_bytes bm st') = (ztake (acc + taken st) B, MEof, [])).
Proof.
  intros Hh Hb Hw Hf Hs.
  destruct (session_inv fuel ops _ _ _ (open_ok st0 w0 buf Hh Hb Hw) Hs Hf) as (acc & st & w & fl & Heq & Hsafe & Hok).
  exists acc, st, w, fl. split; [exact Heq|]. split; [exact Hsafe|]. intros mem Hfl Hl Hcf.
  pose proof (close_ok mem acc st w (Hok Hfl) Hcf Hl) as Hc.
  destruct (close mem st w) as [[r st'] w'].
  destruct Hc as [(-> & Hr)|[(-> & Hr)|(Hr & _)]]; split; intros; auto; lia.
Qed.

End Correctness.

(** ** The theorems *)



(** A buffer that was taken, flushed by [flush] and then submitted again
    with a smaller size is under-reported: the whole of it is on the wire, but
    [write] answers with the smaller size, so the caller will submit the
    difference again and the receiver gets it twice. *)
Theorem short_resubmission_underreports {W} `{OutputStreamLaws W} B mem fuel acc st (w : W) q p n :
  ok B acc st w -> m_iTotalPending st = 0 -> m_pLastBufBegin st = Some q -> 0 < n < m_iLastBufLen st ->
  exists st', write mem fuel st w (Some p) n = Some (n, st', w) /\ m_pLastBufBegin st' = None /\
    run (MLine []) (os_sent w) = (ztake (acc + m_iLastBufLen st) B, MLine [], []).
Proof.
  intros Hok Hp Hl Hn. pose proof (ok_idle B acc st w Hok Hp) as Hv.
  unfold write, write_rest. replace (n <=? 0) with false by lia. rewrite Hp, Hl. cbn [negb Z.eqb].
  cbn zeta. replace (n - m_iLastBufLen st <=? 0) with true by lia. eexists. split; [reflexivity|]. split; [reflexivity|].
  destruct (ok_last _ _ _ _ Hok q Hl) as [_ Hsf]. destruct (ok_run _ _ _ _ Hok) as (out & Hr & Ho).
  unfold taken in Ho. rewrite Hl in Ho. rewrite vec_nil, app_nil_r, Hsf in Hr by assumption.
  assert (Hc : m_iCurSize st = 0).
  { pose proof (sh_cur _ (ok_shape _ _ _ _ Hok)). destruct (Z.eq_dec (m_iCurSize st) 0); [assumption|].
    destruct (ok_cur _ _ _ _ Hok ltac:(lia)) as (_ & _ & ?). congruence. }
  rewrite tmem_0, app_nil_r in Ho by assumption. rewrite Hr, Ho. reflexivity.
Qed.

(** ** Examples and witnesses *)

Definition sample_body : list Z := bs "Hello, chunked world".
Definition at_addr (p : Z) (a : Z) : Z := znth sample_body (a - p).
Definition fresh : cos := Cos [] 0 false 0 0 0 None (repeat 0 20) (repeat 0 1428).

(** The first write finds room for three bytes; the buffer comes back at
    another address; then the end. *)
Definition sample_ops : list op := [OWrite (at_addr 1000) 1000 20; OWrite (at_addr 5000) 5000 20].
Definition sample_sink : sink := {| sk_room := [3]; sk_sent := [] |}.

Definition sample_wire : list Z :=
  bs "14" ++ crlf ++ sample_body ++ crlf ++ bs "0" ++ crlf ++ crlf.

Example session_wire :
  match session 100 0 (setBuffering (open fresh) false) sample_sink sample_ops with
  | Some (acc, st, w, false) =>
      let '(r, _, w) := close (at_addr 5000) st w in (acc, r, sk_sent w) = (20, 0, sample_wire)
  | _ => False
  end.
Proof. vm_compute. reflexivity. Qed.

(** The buffer of the chunk stream, then a file, in one message. *)
Example buffered_then_file :
  match session 100 0 (setBuffering (open fresh) true) {| sk_room := [2; 1; 4; 4; 5]; sk_sent := [] |}
          [OWrite (at_addr 1000) 1000 7; OFile (at_addr 0) (fun o n => slice o (o + n) sample_body) 7 13;
           OFile (at_addr 0) (fun o n => slice o (o + n) sample_body) 7 13; OFlush (at_addr 0);
           OFile (at_addr 0) (fun o n => slice o (o + n) sample_body) 7 13] with
  | Some (acc, st, w, false) =>
      let '(r, _, w) := close (at_addr 0) st w in
      (acc, r, run (MLine []) (sk_sent w)) = (20, 0, (sample_body, MEof, []))
  | _ => False
  end.
Proof. vm_compute. reflexivity. Qed.

(** A file of 2^32 bytes: what is left is 0 as an [int], and the chunk that is begun is the
    last one, which ends the body. *)
Example large_file_ends_body :
  match chunkSendfile (fun _ => 0) 5 (fun _ n => repeat 0 (Z.to_nat n)) fresh {| sk_room := []; sk_sent := [] |} 0 (2 ^ 32) with
  | Some (r, _, w) => r = 0 /\ sk_sent w = bs "0" ++ crlf
  | None => False
  end.
Proof. vm_compute. split; reflexivity. Qed.

Lemma sample_session_ok : session_ok sample_body 100 0 (setBuffering (open fresh) false) sample_sink sample_ops.
Proof.
  unfold sample_ops. cbn [session_ok]. split.
  { split; [vm_compute; discriminate|]. split; try reflexivity; try discriminate.
    intros i _ _. unfold at_addr. f_equal. lia. }
  let x := eval vm_compute in (do_op 100 (setBuffering (open fresh) false) sample_sink (OWrite (at_addr 1000) 1000 20)) in
  change (do_op 100 (setBuffering (open fresh) false) sample_sink (OWrite (at_addr 1000) 1000 20)) with x.
  intros _. cbn [accepted]. split.
  { split; [vm_compute; discriminate|]. split; try reflexivity; try discriminate.
    - intros i _ _. unfold at_addr. f_equal. lia.
    - intros q [= <-]. right. cbn. lia. }
  destruct (do_op _ _ _ _) as [[[r st] w]|]; auto.
Qed.


Definition sample_cuts : script :=
  {| sc_events := [Seg (ztake 1 sample_wire); Block; Seg (zdrop 1 sample_wire)]; sc_failed := false |}.


(** A buffer of 20 bytes, written in part and then flushed. *)
Definition flushed_ops : list op := [OWrite (at_addr 1000) 1000 20; OFlush (at_addr 1000)].
Definition flushed_state : cos :=
  Cos [] 0 false 0 0 20 (Some 1000) (bs "14" ++ [CR; LF] ++ repeat 0 16) (repeat 0 1428).
Definition flushed_sink : sink := {| sk_room := []; sk_sent := ztake 26 sample_wire |}.

Lemma flushed_ok : ok sample_body 0 flushed_state flushed_sink.
Proof.
  destruct (session_inv sample_body 100 flushed_ops 0 (setBuffering (open fresh) false) sample_sink)
    as (acc & st & w & fl & Heq & _ & Hok).
  - apply open_ok; reflexivity.
  - unfold flushed_ops. cbn [session_ok]. split.
    { split; [vm_compute; discriminate|]. split; try reflexivity; try discriminate. intros i _ _. unfold at_addr. f_equal. lia. }
    let x := eval vm_compute in (do_op 100 (setBuffering (open fresh) false) sample_sink (OWrite (at_addr 1000) 1000 20)) in
    change (do_op 100 (setBuffering (open fresh) false) sample_sink (OWrite (at_addr 1000) 1000 20)) with x.
    intros _. split.
    { intros _ q [= <-] i Hi. unfold at_addr. f_equal. cbn. lia. }
    destruct (do_op _ _ _ _) as [[[r st] w]|]; auto.
  - reflexivity.
  - vm_compute in Heq. injection Heq as <- <- <- <-. exact (Hok eq_refl).
Qed.

Lemma short_resubmission_underreports_witness :
  exists st', write (at_addr 1000) 100 flushed_state flushed_sink (Some 1000) 10 = Some (10, st', flushed_sink) /\
    m_pLastBufBegin st' = None /\
    run (MLine []) (os_sent flushed_sink) = (ztake (0 + 20) sample_body, MLine [], []).
Proof.
  apply (short_resubmission_underreports sample_body (at_addr 1000) 100 0 flushed_state flushed_sink 1000 1000 10);
    [exact flushed_ok|reflexivity|reflexivity|cbn; lia].
Defined.
