(* ===== verification/LoopBuf.v ===== *)
(** * LoopBuf: the ring buffer under every stream (src/src/lsr/ls_loopbuf.c,
    src/src/util/loopbuf.h, src/src/util/loopbuf.cpp)

    A ring keeps a block of [sizemax] bytes and the offsets of its first used
    and first free byte; one byte always stays free, so that equal offsets mean
    an empty ring.  The operations are written on the offsets as the C code
    moves its pointers.  [data] is the queue a ring represents; the lemmas show
    each operation to be the queue operation of its name, and the class
    [ByteQueue] is the contract the protocol code relies on. *)

From S2P Require Import Prelude.

Definition LOOPBUFUNIT : Z := 64.

(** [ls_loopbuf_t]: the block [pbuf], and [phead] and [pend] as offsets in it. *)
Record loopbuf := Ring { pbuf : list Z; phead : Z; pend : Z }.

Definition sizemax (l : loopbuf) : Z := zlen (pbuf l).

Definition size (l : loopbuf) : Z :=
  let ret := pend l - phead l in
  if ret >=? 0 then ret else ret + sizemax l.

Definition available (l : loopbuf) : Z :=
  let ret := phead l - pend l - 1 in
  if ret >=? 0 then ret else ret + sizemax l.

Definition blockSize (l : loopbuf) : Z :=
  if phead l >? pend l then sizemax l - phead l else pend l - phead l.

Definition contiguous (l : loopbuf) : Z :=
  if phead l >? pend l then phead l - pend l - 1
  else if phead l =? 0 then sizemax l - pend l - 1 else sizemax l - pend l.

Definition empty (l : loopbuf) : bool := phead l =? pend l.

Definition clear (l : loopbuf) : loopbuf := Ring (pbuf l) 0 0.

Definition used (n : Z) (l : loopbuf) : loopbuf :=
  let n := if n >? available l then available l else n in
  let e := pend l + n in
  Ring (pbuf l) (phead l) (if e >=? sizemax l then e - sizemax l else e).

Definition popfront (n : Z) (l : loopbuf) : Z * loopbuf :=
  if n <? 0 then (-1, l)
  else if n =? 0 then (n, l)
  else if n >=? size l then (size l, clear l)
  else let h := phead l + n in
       (n, Ring (pbuf l) (if h >=? sizemax l then h - sizemax l else h) (pend l)).

Definition popback (n : Z) (l : loopbuf) : Z * loopbuf :=
  if n <? 0 then (-1, l)
  else if n =? 0 then (n, l)
  else if n >=? size l then (size l, clear l)
  else let e := pend l - n in
       (n, Ring (pbuf l) (phead l) (if e <? 0 then e + sizemax l else e)).

(** The bytes copied out, and the ring without them ([size >= 0]). *)
Definition moveto (n : Z) (l : loopbuf) : list Z * loopbuf :=
  let len := if size l >? n then n else size l in
  if len >? 0 then
    let n1 := if sizemax l - phead l >? len then len else sizemax l - phead l in
    let n2 := len - n1 in
    (slice (phead l) (phead l + n1) (pbuf l) ++ ztake n2 (pbuf l), snd (popfront len l))
  else ([], l).

Section Alloc.

(** [ls_palloc]: a new block of the given size, or NULL. *)
Variable palloc : Z -> option (list Z).

(** [ls_loopbuf_allocate]; [None] is LS_FAIL. *)
Definition reserve (n : Z) (l : loopbuf) : option loopbuf :=
  if (n =? 0) && negb (sizemax l =? n) then Some (Ring [] 0 0)
  else
    let n := (n + LOOPBUFUNIT) / LOOPBUFUNIT * LOOPBUFUNIT in
    if n >? sizemax l then
      match palloc n with
      | None => None
      | Some b =>
          let '(d, _) := moveto (n - 1) l in
          Some (Ring (store b 0 d) 0 (zlen d))
      end
    else Some l.

Definition guarantee (n : Z) (l : loopbuf) : option loopbuf :=
  if n <=? available l then Some l else reserve (n + size l + 1) l.

(** [memmove] of [d] at [end()], the part that does not fit the contiguous
    space at the beginning of the block. *)
Definition append (d : list Z) (l : loopbuf) : option loopbuf :=
  if zlen d >? 0 then
    match guarantee (zlen d) l with
    | None => None
    | Some l =>
        let len := if contiguous l >? zlen d then zlen d else contiguous l in
        let b := store (pbuf l) (pend l) (ztake len d) in
        let b := if negb (zlen d - len =? 0) then store b 0 (zdrop len d) else b in
        Some (used (zlen d) (Ring b (phead l) (pend l)))
    end
  else Some l.

(** [ls_loopbuf_xstraight]; a failed allocation leaves a temporary without a
    block. *)
Definition straight (l : loopbuf) : option loopbuf :=
  match guarantee (size l) (Ring [] 0 0) with
  | None => None
  | Some t =>
      let t := used (size l) t in
      let '(d, _) := moveto (size l) l in
      Some (Ring (store (pbuf t) (phead t) d) (phead t) (pend t))
  end.

End Alloc.

(** Direct input: [d] written at [end()] (at most [contiguous()] bytes), then
    [used]. *)
Definition fill (d : list Z) (l : loopbuf) : loopbuf :=
  used (zlen d) (Ring (store (pbuf l) (pend l) d) (phead l) (pend l)).

Definition getptr (l : loopbuf) (off : Z) : Z := (phead l + off) mod sizemax l.

(** [ls_loopbuf_update] writes byte by byte from [getptr offset]. *)
Fixpoint update_loop (d : list Z) (p : Z) (b : list Z) : list Z :=
  match d with
  | [] => b
  | c :: d =>
      let b := store b p [c] in
      update_loop d (if p + 1 =? zlen b then 0 else p + 1) b
  end.

Definition update (off : Z) (d : list Z) (l : loopbuf) : loopbuf :=
  Ring (update_loop d (getptr l off) (pbuf l)) (phead l) (pend l).

(** [iovAppend]: the one or two blocks of the data. *)
Definition iovAppend (l : loopbuf) : list (list Z) :=
  if size l >? 0 then
    let len := sizemax l - phead l in
    if size l >? len then [zdrop (phead l) (pbuf l); ztake (size l - len) (pbuf l)]
    else [slice (phead l) (phead l + size l) (pbuf l)]
  else [].

(** [LoopBuf(n)]: an empty ring. *)
Definition new_loopbuf (palloc : Z -> option (list Z)) (n : Z) : option loopbuf :=
  reserve palloc (if n =? 0 then LOOPBUFUNIT else n) (Ring [] 0 0).

(** ** The queue a ring represents *)

Definition data (l : loopbuf) : list Z :=
  if phead l <=? pend l then slice (phead l) (pend l) (pbuf l)
  else zdrop (phead l) (pbuf l) ++ ztake (pend l) (pbuf l).

Definition ring_ok (l : loopbuf) : Prop :=
  (sizemax l = 0 /\ phead l = 0 /\ pend l = 0) \/
  (0 <= phead l < sizemax l /\ 0 <= pend l < sizemax l).

(** Case analysis on the comparisons of offsets. *)
Ltac ring_cases :=
  cbv zeta; repeat match goal with
  | |- context [if ?a >=? ?b then _ else _] => destruct (Z.geb_spec a b)
  | |- context [if ?a >? ?b then _ else _] => destruct (Z.gtb_spec a b)
  | |- context [if ?a <=? ?b then _ else _] => destruct (Z.leb_spec a b)
  | |- context [if ?a <? ?b then _ else _] => destruct (Z.ltb_spec a b)
  | |- context [if ?a =? ?b then _ else _] => destruct (Z.eqb_spec a b)
  | |- context [if negb (?a =? ?b) then _ else _] => destruct (Z.eqb_spec a b); cbn [negb]
  end.

Lemma size_bounds l : ring_ok l -> 0 <= size l /\ (size l < sizemax l \/ sizemax l = 0 /\ size l = 0).
Proof. intros [(? & ? & ?)|(? & ?)]; unfold size; ring_cases; lia. Qed.

Lemma size_data l : ring_ok l -> zlen (data l) = size l.
Proof.
  intros [(Hs & Hh & Hp)|(Hh & Hp)]; unfold data, size, sizemax in *.
  - rewrite Hh, Hp. reflexivity.
  - ring_cases; try lia.
    + rewrite zlen_slice; lia.
    + rewrite zlen_app, zlen_ztake, zlen_zdrop; lia.
Qed.

Lemma available_size l : ring_ok l -> available l = sizemax l - 1 - size l.
Proof. intros [(? & ? & ?)|(? & ?)]; unfold available, size; ring_cases; lia. Qed.

Lemma empty_data l : ring_ok l -> empty l = true <-> data l = [].
Proof.
  intros Hok. pose proof (size_data l Hok) as Hd. unfold empty. rewrite Z.eqb_eq. split.
  - intros He. unfold data. rewrite He, Z.leb_refl. apply slice_nil. lia.
  - intros He. rewrite He in Hd. change (zlen (@nil Z)) with 0 in Hd.
    unfold size in Hd. destruct Hok as [(? & ? & ?)|(? & ?)]; destruct (_ >=? 0) eqn:E in Hd; lia.
Qed.

Lemma clear_ok l : ring_ok l -> ring_ok (clear l) /\ data (clear l) = [].
Proof. intros H. split; [unfold ring_ok, clear, sizemax in *; cbn; lia|reflexivity]. Qed.

(** The first block is the contiguous beginning of the data. *)
Lemma blockSize_ok l : ring_ok l ->
  0 <= blockSize l <= size l /\ (data l <> [] -> 0 < blockSize l) /\
  ztake (blockSize l) (data l) = slice (phead l) (phead l + blockSize l) (pbuf l).
Proof.
  intros Hok. pose proof (size_data l Hok) as Hd.
  assert (Hne : data l <> [] -> phead l <> pend l).
  { intros Hn He. apply Hn, empty_data; [assumption|]. unfold empty. lia. }
  assert (Hb : 0 <= phead l /\ 0 <= pend l /\ phead l <= sizemax l /\ pend l <= sizemax l) by
    (destruct Hok as [(? & ? & ?)|(? & ?)]; lia).
  unfold blockSize, data, size, sizemax in *. destruct (Z.gtb_spec (phead l) (pend l)).
  - replace (phead l <=? pend l) with false in * by lia.
    replace (pend l - phead l >=? 0) with false by lia.
    assert (phead l < zlen (pbuf l)) by (destruct Hok as [(? & ? & ?)|(? & ?)]; unfold sizemax in *; lia).
    split_and!; try (intros; lia).
    rewrite ztake_app_len by (rewrite zlen_zdrop; lia).
    replace (phead l + (zlen (pbuf l) - phead l)) with (zlen (pbuf l)) by lia.
    unfold slice. rewrite ztake_all; [reflexivity|rewrite zlen_zdrop; lia].
  - replace (phead l <=? pend l) with true in * by lia.
    replace (pend l - phead l >=? 0) with true by lia.
    split_and!; try (intros; lia); [intros Hn; pose proof (Hne Hn); lia|].
    rewrite ztake_all by (rewrite zlen_slice; lia). f_equal. lia.
Qed.

Lemma contiguous_bounds l : ring_ok l ->
  contiguous l <= available l /\ (0 < available l -> 0 < contiguous l).
Proof. intros [(? & ? & ?)|(? & ?)]; unfold contiguous, available; ring_cases; lia. Qed.

Definition wrap (n i : Z) : Z := if i >=? n then i - n else i.

Lemma data_nth l k : ring_ok l -> 0 <= k < size l ->
  znth (data l) k = znth (pbuf l) (wrap (sizemax l) (phead l + k)).
Proof.
  intros Hok Hk. pose proof (size_bounds l Hok) as Hb. unfold data, size, wrap in *.
  destruct Hok as [(? & ? & ?)|(? & ?)]; [lia|]. unfold sizemax in *.
  destruct (Z.leb_spec (phead l) (pend l)).
  - replace (pend l - phead l >=? 0) with true in * by lia.
    rewrite znth_slice by lia. ring_cases; [lia|reflexivity].
  - replace (pend l - phead l >=? 0) with false in * by lia.
    rewrite znth_app, zlen_zdrop by lia. ring_cases; try lia.
    + rewrite znth_ztake by lia. f_equal. lia.
    + rewrite znth_zdrop by lia. reflexivity.
Qed.

(** A ring represents a list when its bytes are the list's. *)
Lemma data_ext l d :
  ring_ok l -> zlen d = size l ->
  (forall k, 0 <= k < size l -> znth (pbuf l) (wrap (sizemax l) (phead l + k)) = znth d k) ->
  data l = d.
Proof.
  intros Hok Hz Hk. apply znth_ext; rewrite size_data by assumption; [auto|].
  intros i Hi. rewrite data_nth by assumption. auto.
Qed.

Lemma popfront_ok n l : ring_ok l -> 0 <= n ->
  ring_ok (snd (popfront n l)) /\ data (snd (popfront n l)) = zdrop n (data l) /\
  fst (popfront n l) = Z.min n (size l) /\ sizemax (snd (popfront n l)) = sizemax l.
Proof.
  intros Hok Hn. pose proof (size_data l Hok) as Hd. pose proof (size_bounds l Hok) as Hs.
  unfold popfront. replace (n <? 0) with false by lia.
  destruct (Z.eqb_spec n 0) as [->|Hn0]; [cbn; split_and!; auto; lia|].
  destruct (Z.geb_spec n (size l)).
  - destruct (clear_ok l Hok). cbn [fst snd]. split_and!; auto; [|lia].
    rewrite zdrop_all by lia. assumption.
  - cbn [fst snd]. destruct (proj1 (or_comm _ _) Hok) as [(? & ?)|(? & ? & ?)]; [|lia].
    set (l' := Ring _ _ _).
    assert (Hok' : ring_ok l') by (unfold ring_ok, l', sizemax in *; cbn; ring_cases; lia).
    assert (Hs' : size l' = size l - n) by (unfold size, l', sizemax in *; cbn; ring_cases; lia).
    split_and!; auto; [|lia]. apply data_ext; [assumption|rewrite zlen_zdrop; lia|].
    intros k Hk. rewrite znth_zdrop, data_nth by (auto; lia).
    subst l'. unfold wrap, sizemax in *. cbn [phead pbuf]. f_equal. ring_cases; lia.
Qed.

Lemma popback_ok n l : ring_ok l -> 0 <= n ->
  ring_ok (snd (popback n l)) /\ data (snd (popback n l)) = ztake (size l - n) (data l) /\
  fst (popback n l) = Z.min n (size l).
Proof.
  intros Hok Hn. pose proof (size_data l Hok) as Hd. pose proof (size_bounds l Hok) as Hs.
  unfold popback. replace (n <? 0) with false by lia.
  destruct (Z.eqb_spec n 0) as [->|Hn0].
  { cbn. rewrite ztake_all by lia. split_and!; auto; lia. }
  destruct (Z.geb_spec n (size l)).
  - destruct (clear_ok l Hok) as [? Hc]. cbn [fst snd]. split_and!; auto; [|lia]. rewrite Hc.
    unfold ztake. replace (Z.to_nat (size l - n)) with 0%nat by lia. reflexivity.
  - cbn [fst snd]. destruct (proj1 (or_comm _ _) Hok) as [(? & ?)|(? & ? & ?)]; [|lia].
    set (l' := Ring _ _ _).
    assert (Hok' : ring_ok l') by (unfold ring_ok, l', sizemax in *; cbn; ring_cases; lia).
    assert (Hs' : size l' = size l - n) by (unfold size, l', sizemax in *; cbn; ring_cases; lia).
    split_and!; auto; [|lia]. apply data_ext; [assumption|rewrite zlen_ztake; lia|].
    intros k Hk. rewrite znth_ztake, data_nth by (auto; lia). reflexivity.
Qed.

Lemma moveto_ok n l : ring_ok l -> 0 <= n ->
  fst (moveto n l) = ztake n (data l) /\ ring_ok (snd (moveto n l)) /\
  data (snd (moveto n l)) = zdrop n (data l) /\ sizemax (snd (moveto n l)) = sizemax l.
Proof.
  intros Hok Hn. pose proof (size_data l Hok) as Hd. pose proof (size_bounds l Hok) as Hs.
  unfold moveto. set (len := if size l >? n then n else size l).
  assert (Hlen : len = Z.min n (size l)) by (subst len; ring_cases; lia). clearbody len. cbv zeta.
  destruct (Z.gtb_spec len 0); cbn [fst snd].
  - destruct (popfront_ok len l Hok ltac:(lia)) as (Hp & Hpd & _ & Hps). split_and!; auto.
    + destruct (proj1 (or_comm _ _) Hok) as [(? & ?)|(? & ? & ?)]; [|lia].
      set (n1 := if sizemax l - phead l >? len then len else sizemax l - phead l).
      assert (Hn1 : n1 = Z.min len (sizemax l - phead l)) by (subst n1; ring_cases; lia). clearbody n1.
      apply znth_ext; unfold sizemax in *.
      * rewrite zlen_app, zlen_slice, !zlen_ztake by lia. lia.
      * rewrite zlen_app, zlen_slice, zlen_ztake by lia. intros i Hi.
        rewrite znth_app, zlen_slice, (znth_ztake (data l)), data_nth by (auto; lia).
        unfold wrap, sizemax. ring_cases; try lia;
          [rewrite znth_ztake by lia|rewrite znth_slice by lia]; f_equal; lia.
    + rewrite Hpd. destruct (Z.ltb_spec n (size l)); [f_equal; lia|]. rewrite !zdrop_all by lia. reflexivity.
  - assert (n = 0 \/ data l = []) as [->|E].
    { destruct (Z.eq_dec n 0); [auto|right]. apply length_zero_iff_nil. unfold zlen in Hd. lia. }
    + rewrite zdrop_0, ztake_0. auto.
    + rewrite E. unfold ztake, zdrop. rewrite take_nil, drop_nil. auto.
Qed.

Section AllocFacts.

Context (palloc : Z -> option (list Z)).
(** [ls_palloc] returns blocks of the size asked for. *)
Hypothesis palloc_size : forall n b, palloc n = Some b -> zlen b = n.

Lemma round_up n : 0 <= n ->
  n < (n + LOOPBUFUNIT) / LOOPBUFUNIT * LOOPBUFUNIT <= n + LOOPBUFUNIT.
Proof. intros. unfold LOOPBUFUNIT. pose proof (Z.div_mod (n + 64) 64). pose proof (Z.mod_pos_bound (n + 64) 64). lia. Qed.

(** Growing keeps the data and gives room for more than [n] bytes in all. *)
Lemma reserve_ok n l l' : ring_ok l -> size l <= n -> 0 < n -> reserve palloc n l = Some l' ->
  ring_ok l' /\ data l' = data l /\ n < sizemax l'.
Proof.
  intros Hok Hn Hn0. pose proof (round_up n ltac:(lia)) as Hr. unfold reserve.
  replace (n =? 0) with false by lia. cbn [andb].
  set (m := (n + LOOPBUFUNIT) / LOOPBUFUNIT * LOOPBUFUNIT) in *. clearbody m.
  destruct (Z.gtb_spec m (sizemax l)); [|intros [= <-]; split_and!; auto; lia].
  destruct (palloc m) as [b|] eqn:Eb; [|discriminate]. apply palloc_size in Eb.
  pose proof (size_data l Hok) as Hd.
  destruct (moveto_ok (m - 1) l Hok ltac:(lia)) as (Hm & _). destruct (moveto (m - 1) l) as [d l1]. cbn [fst] in Hm.
  rewrite ztake_all in Hm by lia. subst d. intros [= <-].
  assert (Hok' : ring_ok (Ring (store b 0 (data l)) 0 (zlen (data l)))).
  { right. unfold sizemax. cbn. pose proof (zlen_nonneg (data l)). rewrite zlen_store by lia. lia. }
  split_and!; [exact Hok'| |unfold sizemax; cbn; rewrite zlen_store; lia].
  pose proof (zlen_nonneg (data l)). apply data_ext; [exact Hok'|unfold size; cbn; ring_cases; lia|].
  unfold size, sizemax, wrap. cbn [phead pend pbuf]. rewrite zlen_store by lia. intros k Hk.
  assert (0 <= k < zlen (data l)) by (revert Hk; pose proof (zlen_nonneg (data l)); ring_cases; lia).
  ring_cases; [lia|]. rewrite znth_store by lia.
  replace ((0 <=? 0 + k) && (0 + k <? 0 + zlen (data l))) with true by lia. f_equal. lia.
Qed.

Lemma guarantee_ok n l l' : ring_ok l -> 0 <= n -> guarantee palloc n l = Some l' ->
  ring_ok l' /\ data l' = data l /\ n <= available l'.
Proof.
  intros Hok Hn. unfold guarantee. pose proof (size_bounds l Hok).
  destruct (Z.leb_spec n (available l)); [intros [= <-]; auto|]. intros Hr.
  destruct (reserve_ok (n + size l + 1) l l' Hok ltac:(lia) ltac:(lia) Hr) as (Ho & Hd & Hs). split_and!; auto.
  rewrite (available_size _ Ho), <- (size_data _ Ho), Hd, (size_data _ Hok). lia.
Qed.

(** Writing [d] after the data, in one or two pieces, and [used]. *)
Lemma write_end d l b : ring_ok l -> zlen d <= available l -> zlen b = sizemax l ->
  (forall k, 0 <= k < size l ->
    znth b (wrap (sizemax l) (phead l + k)) = znth (pbuf l) (wrap (sizemax l) (phead l + k))) ->
  (forall k, 0 <= k < zlen d -> znth b (wrap (sizemax l) (pend l + k)) = znth d k) ->
  let l' := used (zlen d) (Ring b (phead l) (pend l)) in
  ring_ok l' /\ data l' = data l ++ d.
Proof.
  intros Hok Ha Hb Hold Hnew. cbv zeta. pose proof (zlen_nonneg d) as Hd0.
  pose proof (available_size l Hok) as Has. pose proof (size_bounds l Hok) as Hsb.
  unfold used. replace (available (Ring b (phead l) (pend l))) with (available l)
    by (unfold available, sizemax in *; cbn; rewrite Hb; reflexivity).
  replace (zlen d >? available l) with false by lia. cbn [pbuf phead pend].
  assert (Hl : 0 <= phead l < sizemax l /\ 0 <= pend l < sizemax l).
  { destruct Hok as [(? & ? & ?)|?]; [|assumption]. lia. }
  set (l' := Ring b _ _).
  assert (Hok' : ring_ok l') by (right; unfold l', sizemax in *; cbn; rewrite Hb; ring_cases; lia).
  assert (Hsz : size l' = size l + zlen d).
  { revert Has Hsb. unfold size, available, l', sizemax in *. cbn. rewrite Hb. ring_cases; intros; lia. }
  split; [exact Hok'|]. apply data_ext; [exact Hok'|rewrite zlen_app, size_data; auto; lia|].
  assert (Hs' : sizemax l' = sizemax l) by exact Hb.
  rewrite Hsz, Hs'. change (phead l') with (phead l). change (pbuf l') with b. intros k Hk.
  rewrite znth_app, size_data by (auto; lia). destruct (Z.ltb_spec k (size l)).
  - rewrite Hold, data_nth by (auto; lia). reflexivity.
  - rewrite <- Hnew by lia. f_equal. unfold wrap, size in *. revert H Hk Hsb Has Ha. unfold size, available. ring_cases; intros; lia.
Qed.

Lemma ring_append_ok d l l' : ring_ok l -> append palloc d l = Some l' -> ring_ok l' /\ data l' = data l ++ d.
Proof.
  intros Hok. pose proof (zlen_nonneg d) as Hd0. unfold append.
  destruct (Z.gtb_spec (zlen d) 0); cycle 1.
  { intros [= <-]. rewrite (proj1 (length_zero_iff_nil d)), app_nil_r; [auto|]. unfold zlen in *. lia. }
  destruct (guarantee palloc (zlen d) l) as [g|] eqn:Eg; [|discriminate].
  destruct (guarantee_ok (zlen d) l g Hok ltac:(lia) Eg) as (Hg & Hgd & Hga). rewrite <- Hgd. clear Eg Hgd Hok l.
  intros [= <-]. pose proof (available_size g Hg) as Has. pose proof (size_bounds g Hg) as Hsb.
  destruct (contiguous_bounds g Hg) as [Hc1 Hc2].
  assert (Hl : 0 <= phead g < sizemax g /\ 0 <= pend g < sizemax g) by
    (destruct Hg as [(? & ? & ?)|?]; [lia|assumption]).
  set (len := if contiguous g >? zlen d then zlen d else contiguous g).
  assert (Hlen : 0 < len <= zlen d /\ len <= contiguous g /\ (len < zlen d -> len = contiguous g))
    by (subst len; ring_cases; lia). clearbody len.
  assert (Hcs : contiguous g <= sizemax g - pend g) by (unfold contiguous; ring_cases; lia).
  assert (Hw : len < zlen d -> contiguous g = sizemax g - pend g /\ 0 < phead g <= pend g).
  { revert Has Hga Hlen. unfold contiguous, available, size in *. ring_cases; intros; lia. }
  cbv zeta.
  set (b1 := store (pbuf g) (pend g) (ztake len d)).
  assert (Hb1 : zlen b1 = sizemax g) by (subst b1; rewrite zlen_store; rewrite ?zlen_ztake; unfold sizemax in *; lia).
  set (b := if negb (zlen d - len =? 0) then store b1 0 (zdrop len d) else b1).
  assert (Hb : zlen b = sizemax g).
  { subst b. ring_cases; [assumption|]. rewrite zlen_store; rewrite ?zlen_zdrop; lia. }
  assert (Hnth : forall i, 0 <= i < sizemax g ->
    znth b i = if (pend g <=? i) && (i <? pend g + len) then znth d (i - pend g)
               else if i <? zlen d - len then znth d (len + i) else znth (pbuf g) i).
  { intros i Hi. assert (Hn1 : znth b1 i = if (pend g <=? i) && (i <? pend g + len) then znth d (i - pend g) else znth (pbuf g) i).
    { subst b1. rewrite znth_store, zlen_ztake, Z.min_l by (unfold sizemax in *; lia).
      destruct ((pend g <=? i) && (i <? pend g + len)) eqn:E; [|reflexivity]. apply znth_ztake. lia. }
    subst b. destruct (Z.eqb_spec (zlen d - len) 0); cbn [negb].
    - rewrite Hn1. replace (i <? zlen d - len) with false by lia. reflexivity.
    - rewrite znth_store, zlen_zdrop by lia. rewrite Hn1. replace (0 <=? i) with true by lia.
      destruct (Z.ltb_spec i (zlen d - len)); cbn [andb].
      + replace (i <? 0 + Z.max 0 (zlen d - len)) with true by lia.
        replace (pend g <=? i) with false by lia. cbn [andb]. rewrite znth_zdrop by lia. f_equal. lia.
      + replace (i <? 0 + Z.max 0 (zlen d - len)) with false by lia. reflexivity. }
  clearbody b. apply write_end; auto.
  - intros k Hk. assert (Hk' : 0 <= wrap (sizemax g) (phead g + k) < sizemax g) by (unfold wrap; ring_cases; lia).
    rewrite Hnth by assumption.
    assert (Hf : (pend g <=? wrap (sizemax g) (phead g + k)) && (wrap (sizemax g) (phead g + k) <? pend g + len) = false /\
      (wrap (sizemax g) (phead g + k) <? zlen d - len) = false).
    { revert Hk Has Hga Hlen Hw. unfold wrap, size, available, contiguous. ring_cases; intros; lia. }
    destruct Hf as [-> ->]. reflexivity.
  - intros k Hk. unfold wrap. destruct (Z.geb_spec (pend g + k) (sizemax g)).
    + rewrite Hnth by lia. replace (pend g <=? pend g + k - sizemax g) with false by lia.
      cbn [andb]. replace (pend g + k - sizemax g <? zlen d - len) with true by lia. f_equal. lia.
    + rewrite Hnth by lia. destruct (Z.ltb_spec k len).
      * replace ((pend g <=? pend g + k) && (pend g + k <? pend g + len)) with true by lia. f_equal. lia.
      * exfalso. lia.
Qed.

Lemma guarantee_fresh n t :
  0 <= n -> guarantee palloc n (Ring [] 0 0) = Some t -> phead t = 0 /\ pend t = 0.
Proof.
  intros Hn. unfold guarantee, reserve. change (available (Ring [] 0 0)) with (-1).
  change (size (Ring [] 0 0)) with 0. replace (n <=? -1) with false by lia.
  replace (n + 0 + 1 =? 0) with false by lia. cbn [andb].
  pose proof (round_up (n + 0 + 1) ltac:(lia)) as Hr.
  set (m := (n + 0 + 1 + LOOPBUFUNIT) / LOOPBUFUNIT * LOOPBUFUNIT) in *. clearbody m.
  destruct (m >? _); [|intros [= <-]; auto]. destruct (palloc m); [|discriminate].
  unfold moveto. change (size (Ring [] 0 0)) with 0.
  replace (0 >? m - 1) with false by lia. cbn. intros [= <-]. auto.
Qed.

Lemma straight_ok l l' : ring_ok l -> straight palloc l = Some l' ->
  ring_ok l' /\ data l' = data l /\ phead l' <= pend l'.
Proof.
  intros Hok. pose proof (size_bounds l Hok) as Hsb. pose proof (size_data l Hok) as Hd. unfold straight.
  destruct (guarantee palloc (size l) (Ring [] 0 0)) as [t|] eqn:Eg; [|discriminate].
  assert (He : ring_ok (Ring [] 0 0)) by (left; auto).
  destruct (guarantee_ok (size l) _ t He ltac:(lia) Eg) as (Ht & Htd & Hta).
  pose proof (guarantee_fresh (size l) t ltac:(lia) Eg) as Ht0.
  destruct Ht0 as [Hh Hp]. destruct (moveto_ok (size l) l Hok ltac:(lia)) as (Hm & _).
  destruct (moveto (size l) l) as [d l1]. cbn [fst] in Hm. rewrite ztake_all in Hm by lia. subst d.
  pose proof (available_size t Ht) as Has. assert (Hts : size t = 0) by (unfold size; rewrite Hh, Hp; reflexivity).
  unfold used. replace (size l >? available t) with false by lia. cbn [pbuf phead pend]. rewrite Hh, Hp.
  replace (0 + size l >=? sizemax t) with false by lia. intros [= <-]. cbn [pbuf phead pend].
  assert (Hzs : zlen (store (pbuf t) 0 (data l)) = sizemax t) by (rewrite zlen_store; unfold sizemax in *; lia).
  assert (Hok' : ring_ok (Ring (store (pbuf t) 0 (data l)) 0 (0 + size l))).
  { right. unfold sizemax in *. cbn. rewrite Hzs. lia. }
  split_and!; [exact Hok'| |lia]. unfold data at 1. cbn [phead pend pbuf].
  replace (0 <=? 0 + size l) with true by lia. apply slice_store; unfold sizemax in *; lia.
Qed.

End AllocFacts.

Lemma ring_fill_ok d l : ring_ok l -> zlen d <= contiguous l -> ring_ok (fill d l) /\ data (fill d l) = data l ++ d.
Proof.
  intros Hok Hc. pose proof (zlen_nonneg d) as Hd0. destruct (contiguous_bounds l Hok) as [Hc1 _].
  destruct (Z.eq_dec (zlen d) 0) as [E|E].
  - assert (d = []) as -> by (apply length_zero_iff_nil; unfold zlen in E; lia). rewrite app_nil_r.
    assert (He : fill [] l = l \/ available l < 0).
    { destruct (Z.ltb_spec (available l) 0); [auto|left]. destruct l as [b h e]. unfold fill, used, sizemax. cbn [pbuf phead pend].
      change (zlen (@nil Z)) with 0. unfold store. change (zlen (@nil Z)) with 0. rewrite Z.add_0_r. cbn [app].
      rewrite ztake_zdrop. replace (0 >? available _) with false by lia. rewrite Z.add_0_r.
      destruct Hok as [(? & ? & ?)|(? & ?)]; unfold available, sizemax in *; cbn in *; ring_cases; f_equal; try lia. }
    destruct He as [->|He]; [auto|]. exfalso. change (zlen (@nil Z)) with 0 in Hc. lia.
  - pose proof (available_size l Hok). pose proof (size_bounds l Hok).
    assert (Hl : 0 <= phead l < sizemax l /\ 0 <= pend l < sizemax l) by
      (destruct Hok as [(? & ? & ?)|?]; [lia|assumption]).
    assert (Hcs : contiguous l <= sizemax l - pend l) by (unfold contiguous; ring_cases; lia).
    apply write_end; auto; try lia; unfold sizemax in *.
    + rewrite zlen_store; lia.
    + intros k Hk. assert (0 <= wrap (zlen (pbuf l)) (phead l + k)) by (unfold wrap; ring_cases; lia).
      rewrite znth_store by lia.
      assert (Hf : (pend l <=? wrap (zlen (pbuf l)) (phead l + k)) && (wrap (zlen (pbuf l)) (phead l + k) <? pend l + zlen d) = false).
      { revert Hk Hc. unfold wrap, size, contiguous, sizemax. ring_cases; intros; lia. }
      rewrite Hf. reflexivity.
    + intros k Hk. unfold wrap. destruct (Z.geb_spec (pend l + k) (zlen (pbuf l))); [lia|].
      rewrite znth_store by lia. replace ((pend l <=? pend l + k) && (pend l + k <? pend l + zlen d)) with true by lia.
      f_equal. lia.
Qed.

Lemma update_loop_nth d : forall p b, 0 <= p < zlen b -> zlen d <= zlen b ->
  zlen (update_loop d p b) = zlen b /\
  forall k, 0 <= k < zlen b ->
    znth (update_loop d p b) (wrap (zlen b) (p + k)) =
    if k <? zlen d then znth d k else znth b (wrap (zlen b) (p + k)).
Proof.
  induction d as [|c d IH]; intros p b Hp Hd; cbn [update_loop].
  { change (zlen (@nil Z)) with 0. split; [reflexivity|]. intros k Hk. replace (k <? 0) with false by lia. reflexivity. }
  rewrite zlen_cons in *. pose proof (zlen_nonneg d).
  assert (Hz : zlen (store b p [c]) = zlen b) by (rewrite zlen_store; change (zlen [c]) with 1; lia).
  set (p1 := if p + 1 =? zlen (store b p [c]) then 0 else p + 1).
  assert (Hp1 : 0 <= p1 < zlen b /\ (p1 = p + 1 \/ p1 = p + 1 - zlen b)) by (subst p1; rewrite Hz; ring_cases; lia). clearbody p1.
  destruct (IH p1 (store b p [c])) as [Hl Hn]; [lia|lia|]. rewrite Hz in *. split; [exact Hl|].
  assert (Hs : forall i, 0 <= i < zlen b -> znth (store b p [c]) i = if i =? p then c else znth b i).
  { intros i Hi. rewrite znth_store by lia. change (zlen [c]) with 1.
    destruct (Z.eqb_spec i p) as [->|].
    - replace ((p <=? p) && (p <? p + 1)) with true by lia. rewrite Z.sub_diag. reflexivity.
    - replace ((p <=? i) && (i <? p + 1)) with false by lia. reflexivity. }
  intros k Hk. destruct (Z.eq_dec k 0) as [->|Hk0].
  - replace (0 <? 1 + zlen d) with true by lia. unfold wrap. replace (p + 0 >=? zlen b) with false by lia.
    replace (p + 0) with (if p1 + (zlen b - 1) >=? zlen b then p1 + (zlen b - 1) - zlen b else p1 + (zlen b - 1)) by (ring_cases; lia).
    fold (wrap (zlen b) (p1 + (zlen b - 1))). rewrite Hn by lia.
    destruct (Z.ltb_spec (zlen b - 1) (zlen d)); [lia|].
    rewrite Hs by (unfold wrap; ring_cases; lia). unfold wrap.
    replace ((if p1 + (zlen b - 1) >=? zlen b then p1 + (zlen b - 1) - zlen b else p1 + (zlen b - 1)) =? p) with true by (ring_cases; lia).
    reflexivity.
  - replace (wrap (zlen b) (p + k)) with (wrap (zlen b) (p1 + (k - 1))) by (unfold wrap; ring_cases; lia).
    rewrite Hn by lia. destruct (Z.ltb_spec (k - 1) (zlen d)).
    + replace (k <? 1 + zlen d) with true by lia. unfold znth. replace (Z.to_nat k) with (S (Z.to_nat (k - 1))) by lia. reflexivity.
    + replace (k <? 1 + zlen d) with false by lia. rewrite Hs by (unfold wrap; ring_cases; lia).
      replace (wrap (zlen b) (p1 + (k - 1)) =? p) with false by (unfold wrap; ring_cases; lia). reflexivity.
Qed.

(** [update] inside the data overwrites it in place. *)
Lemma update_ok off d l : ring_ok l -> 0 <= off -> off + zlen d <= size l -> 0 < sizemax l ->
  ring_ok (update off d l) /\ data (update off d l) = store (data l) off d.
Proof.
  intros Hok Ho Hs Hm. pose proof (size_bounds l Hok) as Hsb. pose proof (size_data l Hok) as Hd. pose proof (zlen_nonneg d).
  assert (Hl : 0 <= phead l < sizemax l /\ 0 <= pend l < sizemax l) by
    (destruct Hok as [(? & ? & ?)|?]; [lia|assumption]).
  assert (Hg : getptr l off = wrap (sizemax l) (phead l + off)).
  { unfold getptr, wrap. ring_cases; [|apply Z.mod_small; lia].
    rewrite <- (Z.mod_small (phead l + off - sizemax l) (sizemax l)) by lia.
    rewrite <- (Z.mod_add (phead l + off - sizemax l) 1) by lia. f_equal. lia. }
  assert (Hg0 : 0 <= getptr l off < zlen (pbuf l)) by (rewrite Hg; unfold wrap, sizemax in *; ring_cases; lia).
  destruct (update_loop_nth d (getptr l off) (pbuf l) Hg0) as [Hz Hn]; [unfold sizemax in *; lia|].
  assert (Hok' : ring_ok (update off d l)) by (right; unfold update, sizemax in *; cbn; rewrite Hz; lia).
  assert (Hsz : size (update off d l) = size l) by (unfold size, update, sizemax; cbn; rewrite Hz; reflexivity).
  split; [exact Hok'|]. apply data_ext; [exact Hok'|rewrite zlen_store; lia|].
  rewrite Hsz. unfold update, sizemax in *. cbn [pbuf phead]. rewrite Hz. intros k Hk. rewrite znth_store by lia.
  set (j := if k <? off then k - off + zlen (pbuf l) else k - off).
  assert (Hj : wrap (zlen (pbuf l)) (phead l + k) = wrap (zlen (pbuf l)) (getptr l off + j)).
  { rewrite Hg. subst j. unfold wrap. ring_cases; lia. }
  rewrite Hj, Hn by (subst j; ring_cases; lia). subst j.
  destruct (Z.ltb_spec k off).
  - replace (off <=? k) with false by lia. cbn [andb]. replace (k - off + zlen (pbuf l) <? zlen d) with false by lia.
    rewrite <- Hj, data_nth by (auto; lia). reflexivity.
  - replace (off <=? k) with true by lia. cbn [andb].
    replace (k <? off + zlen d) with (k - off <? zlen d) by lia. destruct (_ <? _); [reflexivity|].
    rewrite <- Hj, data_nth by (auto; lia). reflexivity.
Qed.

Lemma iovAppend_ok l : ring_ok l -> concat (iovAppend l) = data l.
Proof.
  intros Hok. pose proof (size_bounds l Hok) as Hsb. pose proof (size_data l Hok) as Hd. unfold iovAppend.
  destruct (Z.gtb_spec (size l) 0); cycle 1.
  { cbn. symmetry. apply length_zero_iff_nil. unfold zlen in Hd. lia. }
  assert (Hl : 0 <= phead l < sizemax l /\ 0 <= pend l < sizemax l) by
    (destruct Hok as [(? & ? & ?)|?]; [lia|assumption]).
  unfold data, size in *. unfold sizemax in *. destruct (Z.leb_spec (phead l) (pend l)).
  - replace (pend l - phead l >=? 0) with true in * by lia. ring_cases; [lia|]. cbn. rewrite app_nil_r. f_equal. lia.
  - replace (pend l - phead l >=? 0) with false in * by lia. ring_cases; cbn; rewrite app_nil_r.
    + do 2 f_equal. lia.
    + assert (pend l = 0) as -> by lia. rewrite ztake_0, app_nil_r. unfold slice.
      apply ztake_all. rewrite zlen_zdrop by lia. lia.
Qed.

(** Taking back with a negative [used] what a [used] that wrapped around had
    claimed leaves [pend] before the block. *)
Lemma used_back_underflow n l :
  ring_ok l -> 0 < n <= available l -> sizemax l <= pend l + n ->
  pend (used (- n) (used n l)) = pend l - sizemax l /\ pend (used (- n) (used n l)) < 0.
Proof.
  intros Hok Hn Hw. pose proof (available_size l Hok). pose proof (size_bounds l Hok).
  assert (Hl : 0 <= phead l < sizemax l /\ 0 <= pend l < sizemax l) by
    (destruct Hok as [(? & ? & ?)|?]; [lia|assumption]).
  unfold used at 1 3. unfold used. replace (n >? available l) with false by lia. cbn [pbuf phead pend].
  replace (pend l + n >=? sizemax l) with true by lia.
  unfold sizemax in *. cbn [pbuf phead pend].
  replace (- n >? _) with false by (unfold available, sizemax in *; cbn; ring_cases; lia). ring_cases; lia.
Qed.

(** ** The contract with the protocol code *)

(** What a byte queue promises: [bq_data] is what it holds, [bq_block] how much
    of it lies in one piece at the front, [bq_room] how much may be written
    directly behind it and [bq_avail] how much fits in all. *)
Class ByteQueue (Q : Type) := {
  bq_ok : Q -> Prop;
  bq_data : Q -> list Z;
  bq_block : Q -> Z;
  bq_room : Q -> Z;
  bq_avail : Q -> Z;
  bq_pop : Z -> Q -> Q;
  bq_clear : Q -> Q;
  bq_append : list Z -> Q -> Q;
  bq_fill : list Z -> Q -> Q;
  bq_guarantee : Z -> Q -> Q;
  bq_new : Q;
  bq_new_ok : bq_ok bq_new;
  bq_new_data : bq_data bq_new = [];
  bq_block_ok q : bq_ok q -> 0 <= bq_block q <= zlen (bq_data q) /\ (bq_data q <> [] -> 0 < bq_block q);
  bq_pop_ok n q : bq_ok q -> 0 <= n -> bq_ok (bq_pop n q) /\ bq_data (bq_pop n q) = zdrop n (bq_data q);
  bq_clear_ok q : bq_ok q -> bq_ok (bq_clear q) /\ bq_data (bq_clear q) = [];
  bq_append_ok d q : bq_ok q -> bq_ok (bq_append d q) /\ bq_data (bq_append d q) = bq_data q ++ d;
  bq_fill_ok d q : bq_ok q -> zlen d <= bq_room q ->
    bq_ok (bq_fill d q) /\ bq_data (bq_fill d q) = bq_data q ++ d;
  bq_guarantee_ok n q : bq_ok q -> 0 < n ->
    bq_ok (bq_guarantee n q) /\ bq_data (bq_guarantee n q) = bq_data q /\ 0 < bq_room (bq_guarantee n q)
}.

(** The operations of a ring used through its public methods.  A write of more
    than [contiguous()] bytes at [end()], an [update] outside the data and a
    failed allocation have no result. *)
Inductive op :=
  | Append (d : list Z) | Fill (d : list Z) | PopFront (n : Z) | PopBack (n : Z) | MoveTo (n : Z)
  | Guarantee (n : Z) | Clear | Straight | Update (off : Z) (d : list Z).

Definition step_ring (palloc : Z -> option (list Z)) (o : op) (l : loopbuf) : option (Z * list Z * loopbuf) :=
  match o with
  | Append d => option_map (fun l' => (zlen d, [], l')) (append palloc d l)
  | Fill d => if zlen d <=? contiguous l then Some (0, [], fill d l) else None
  | PopFront n => let '(r, l') := popfront n l in Some (r, [], l')
  | PopBack n => let '(r, l') := popback n l in Some (r, [], l')
  | MoveTo n => if n <? 0 then Some (-1, [], l) else let '(d, l') := moveto n l in Some (zlen d, d, l')
  | Guarantee n => option_map (fun l' => (0, [], l')) (guarantee palloc n l)
  | Clear => Some (0, [], clear l)
  | Straight => option_map (fun l' => (0, [], l')) (straight palloc l)
  | Update off d =>
      if (0 <=? off) && (off + zlen d <=? size l) && (0 <? sizemax l) then Some (0, [], update off d l) else None
  end.

(** The same operations on a queue of bytes. *)
Definition step_queue (o : op) (q : list Z) : Z * list Z * list Z :=
  match o with
  | Append d => (zlen d, [], q ++ d)
  | Fill d => (0, [], q ++ d)
  | PopFront n => if n <? 0 then (-1, [], q) else (Z.min n (zlen q), [], zdrop n q)
  | PopBack n => if n <? 0 then (-1, [], q) else (Z.min n (zlen q), [], ztake (zlen q - n) q)
  | MoveTo n => if n <? 0 then (-1, [], q) else (Z.min n (zlen q), ztake n q, zdrop n q)
  | Guarantee _ => (0, [], q)
  | Clear => (0, [], [])
  | Straight => (0, [], q)
  | Update off d => (0, [], store q off d)
  end.

Fixpoint run_ring (palloc : Z -> option (list Z)) (os : list op) (l : loopbuf) : option (list (Z * list Z) * loopbuf) :=
  match os with
  | [] => Some ([], l)
  | o :: os =>
      match step_ring palloc o l with
      | None => None
      | Some (r, d, l) =>
          match run_ring palloc os l with
          | None => None
          | Some (outs, l) => Some ((r, d) :: outs, l)
          end
      end
  end.

Fixpoint run_queue (os : list op) (q : list Z) : list (Z * list Z) * list Z :=
  match os with
  | [] => ([], q)
  | o :: os => let '(r, d, q) := step_queue o q in
               let '(outs, q) := run_queue os q in ((r, d) :: outs, q)
  end.

Section Refinement.

Context (palloc : Z -> option (list Z)) (palloc_size : forall n b, palloc n = Some b -> zlen b = n).

Lemma guarantee_ok_any n l l' : ring_ok l -> guarantee palloc n l = Some l' -> ring_ok l' /\ data l' = data l.
Proof.
  intros Hok Hg. destruct (Z.leb_spec 0 n).
  - destruct (guarantee_ok palloc palloc_size n l l' Hok H Hg) as (? & ? & ?). auto.
  - revert Hg. unfold guarantee, reserve. destruct (Z.leb_spec n (available l)); [intros [= <-]; auto|].
    pose proof (available_size l Hok). pose proof (size_bounds l Hok).
    assert (sizemax l = 0 /\ n + size l + 1 <= 0) as [Hs Hn] by lia.
    assert (E : forall d, data (Ring d 0 0) = data l).
    { intros d. destruct Hok as [(? & Hh & Hp)|?]; [|lia]. unfold data. rewrite Hh, Hp. reflexivity. }
    rewrite Hs. destruct ((n + size l + 1 =? 0) && negb (0 =? n + size l + 1)) eqn:E0; [lia|].
    assert (Hm : (n + size l + 1 + LOOPBUFUNIT) / LOOPBUFUNIT * LOOPBUFUNIT <= 64).
    { unfold LOOPBUFUNIT. pose proof (Z.div_mod (n + size l + 1 + 64) 64). pose proof (Z.mod_pos_bound (n + size l + 1 + 64) 64). lia. }
    set (m := (n + size l + 1 + LOOPBUFUNIT) / LOOPBUFUNIT * LOOPBUFUNIT) in *. clearbody m.
    destruct (Z.gtb_spec m 0); [|intros [= <-]; auto].
    destruct (palloc m) as [b|] eqn:Eb; [|discriminate]. apply palloc_size in Eb.
    unfold moveto. assert (Hz : size l = 0) by lia. rewrite Hz. replace (0 >? m - 1) with false by lia. cbn. intros [= <-].
    unfold store. change (zlen (@nil Z)) with 0. cbn [app]. rewrite Z.add_0_l, ztake_0, zdrop_0. cbn [app].
    split; [right; unfold sizemax; cbn; lia|apply E].
Qed.

Lemma step_refines o l r d l' : ring_ok l -> step_ring palloc o l = Some (r, d, l') ->
  ring_ok l' /\ step_queue o (data l) = (r, d, data l').
Proof.
  intros Hok. pose proof (size_data l Hok) as Hd. unfold step_queue. destruct o; cbn [step_ring].
  - destruct (append palloc d0 l) as [l1|] eqn:E; [|discriminate]. intros [= <- <- <-].
    destruct (ring_append_ok palloc palloc_size d0 l l1 Hok E) as [? ->]. auto.
  - destruct (Z.leb_spec (zlen d0) (contiguous l)); [|discriminate]. intros [= <- <- <-].
    destruct (ring_fill_ok d0 l Hok H) as [? ->]. auto.
  - destruct (Z.ltb_spec n 0); [unfold popfront; replace (n <? 0) with true by lia; intros [= <- <- <-]; auto|].
    destruct (popfront_ok n l Hok H) as (H1 & H2 & H3 & _). destruct (popfront n l) as [k l1]. cbn [fst snd] in *.
    intros [= <- <- <-]. rewrite Hd, H2, H3. auto.
  - destruct (Z.ltb_spec n 0); [unfold popback; replace (n <? 0) with true by lia; intros [= <- <- <-]; auto|].
    destruct (popback_ok n l Hok H) as (H1 & H2 & H3). destruct (popback n l) as [k l1]. cbn [fst snd] in *.
    intros [= <- <- <-]. rewrite Hd, H2, H3. auto.
  - destruct (Z.ltb_spec n 0); [intros [= <- <- <-]; auto|].
    destruct (moveto_ok n l Hok H) as (H1 & H2 & H3 & _). destruct (moveto n l) as [k l1]. cbn [fst snd] in *.
    intros [= <- <- <-]. rewrite H1, H3, zlen_ztake by lia. auto.
  - destruct (guarantee palloc n l) as [l1|] eqn:E; [|discriminate]. intros [= <- <- <-].
    destruct (guarantee_ok_any n l l1 Hok E) as [? ->]. auto.
  - intros [= <- <- <-]. destruct (clear_ok l Hok) as [? ->]. auto.
  - destruct (straight palloc l) as [l1|] eqn:E; [|discriminate]. intros [= <- <- <-].
    destruct (straight_ok palloc palloc_size l l1 Hok E) as (? & -> & _). auto.
  - destruct ((0 <=? off) && (off + zlen d0 <=? size l) && (0 <? sizemax l)) eqn:E; [|discriminate]. intros [= <- <- <-].
    destruct (update_ok off d0 l Hok) as [? ->]; [lia..|]. auto.
Qed.

End Refinement.

(** C24: the ring buffer is a queue.  Whatever sequence of appends, direct
    writes, removals from either end, reservations, straightenings and in-place
    updates is run on an intact ring, wherever the data lies in its block and
    however often the block is reallocated, each call returns the value and
    the bytes the same call returns on a plain queue, and the data left is the
    queue's. *)
Theorem ring_refines_queue palloc os l outs l' :
  (forall n b, palloc n = Some b -> zlen b = n) ->
  ring_ok l -> run_ring palloc os l = Some (outs, l') ->
  ring_ok l' /\ run_queue os (data l) = (outs, data l').
Proof.
  intros Hp. revert l outs. induction os as [|o os IH]; intros l outs Hok; cbn [run_ring run_queue].
  { intros [= <- <-]. auto. }
  destruct (step_ring palloc o l) as [[[r d] l1]|] eqn:E; [|discriminate].
  destruct (step_refines palloc Hp o l r d l1 Hok E) as [Hok1 ->].
  destruct (run_ring palloc os l1) as [[outs1 l2]|] eqn:E1; [|discriminate]. intros [= <- <-].
  destruct (IH l1 outs1 Hok1 E1) as [? ->]. auto.
Qed.

Lemma guarantee_total palloc n l :
  (forall n, 0 < n -> palloc n <> None) -> exists l', guarantee palloc n l = Some l'.
Proof.
  intros Hp. pose proof (zlen_nonneg (pbuf l)). unfold guarantee, reserve.
  destruct (_ <=? _); [eauto|]. destruct (_ && _); [eauto|].
  set (m := (n + size l + 1 + LOOPBUFUNIT) / LOOPBUFUNIT * LOOPBUFUNIT). clearbody m.
  destruct (Z.gtb_spec m (sizemax l)) as [Hm|]; [|eauto]. unfold sizemax in Hm.
  destruct (palloc m) eqn:E; [destruct (moveto _ l); eauto|]. destruct (Hp m); [lia|assumption].
Qed.

Lemma append_some palloc d l :
  (forall n b, palloc n = Some b -> zlen b = n) -> (forall n, 0 < n -> palloc n <> None) -> ring_ok l ->
  exists l', append palloc d l = Some l' /\ ring_ok l' /\ data l' = data l ++ d /\ size l' = size l + zlen d.
Proof.
  intros Hsz Hp Hok.
  assert (Hs : exists l', append palloc d l = Some l').
  { unfold append. destruct (_ >? 0); [|eauto]. destruct (guarantee_total palloc (zlen d) l Hp) as [l1 ->]. eauto. }
  destruct Hs as [l' E]. exists l'. destruct (ring_append_ok palloc Hsz d l l' Hok E) as [Hok' Hd].
  split_and!; auto. rewrite <- !size_data, Hd, zlen_app by assumption. lia.
Qed.

(** An append never fails for want of room.  As long as memory is
    available, appending any number of bytes to an intact ring succeeds, and
    leaves the old data followed by the new bytes. *)
Theorem append_total palloc d l :
  (forall n b, palloc n = Some b -> zlen b = n) -> (forall n, 0 < n -> palloc n <> None) -> ring_ok l ->
  exists l', append palloc d l = Some l' /\ ring_ok l' /\ data l' = data l ++ d /\ size l' = size l + zlen d.
Proof. apply append_some. Qed.

(** Zeroed blocks, for the instance and the examples. *)
Definition calloc (n : Z) : option (list Z) := if n <? 0 then None else Some (repeat 0 (Z.to_nat n)).

Lemma calloc_size n b : calloc n = Some b -> zlen b = n.
Proof.
  unfold calloc. destruct (Z.ltb_spec n 0); [discriminate|]. intros [= <-].
  unfold zlen. rewrite repeat_length. lia.
Qed.

Lemma calloc_total n : 0 < n -> calloc n <> None.
Proof. intros. unfold calloc. replace (n <? 0) with false by lia. discriminate. Qed.

(** The ring meets the contract. *)
#[export, refine] Instance loopbuf_queue : ByteQueue loopbuf := {|
  bq_ok := ring_ok; bq_data := data; bq_block := blockSize; bq_room := contiguous; bq_avail := available;
  bq_pop n l := snd (popfront n l); bq_clear := clear;
  bq_append d l := default l (append calloc d l); bq_fill := fill;
  bq_guarantee n l := default l (guarantee calloc n l); bq_new := Ring [] 0 0 |}.
Proof.
  - left. auto.
  - reflexivity.
  - intros q Hq. rewrite size_data by assumption. destruct (blockSize_ok q Hq) as (? & ? & _). auto.
  - intros n q Hq Hn. destruct (popfront_ok n q Hq Hn) as (? & ? & _). auto.
  - intros q Hq. apply clear_ok. assumption.
  - intros d q Hq. destruct (append_some calloc d q calloc_size calloc_total Hq) as (q' & -> & ? & ? & _). auto.
  - intros d q Hq Hd. apply ring_fill_ok; assumption.
  - intros n q Hq Hn. destruct (guarantee_total calloc n q calloc_total) as [q' E]. rewrite E.
    destruct (guarantee_ok _ calloc_size n q q' Hq ltac:(lia) E) as (H1 & H2 & H3).
    split_and!; [exact H1|exact H2|]. exact (proj2 (contiguous_bounds q' H1) ltac:(lia)).
Defined.

(** ** Examples *)

(** A block of eight bytes filled, drained and refilled around its end, then
    straightened and grown. *)
Definition ex_ring : loopbuf := Ring [0; 0; 0; 0; 0; 0; 0; 0] 0 0.
Definition ex_ops : list op :=
  [Append [1; 2; 3; 4; 5]; PopFront 4; Fill [6; 7; 8]; Append [9]; MoveTo 2; PopBack 1; Update 1 [0]; Straight;
   Append (repeat 3 70); PopFront 100; PopBack (-1)].

Lemma ring_refines_queue_witness :
  exists outs l', run_ring calloc ex_ops ex_ring = Some (outs, l') /\
    ring_ok l' /\ run_queue ex_ops (data ex_ring) = (outs, data l').
Proof.
  destruct (run_ring calloc ex_ops ex_ring) as [[outs l']|] eqn:E; [|vm_compute in E; discriminate].
  exists outs, l'. split; [reflexivity|]. apply (ring_refines_queue calloc ex_ops ex_ring outs l'); [exact calloc_size| |exact E].
  right. change (sizemax ex_ring) with 8. cbn. lia.
Defined.

Lemma append_total_witness :
  exists l', append calloc [7; 7; 7] (Ring [0; 1; 2; 3] 3 1) = Some l' /\ ring_ok l' /\
    data l' = data (Ring [0; 1; 2; 3] 3 1) ++ [7; 7; 7] /\ size l' = size (Ring [0; 1; 2; 3] 3 1) + zlen [7; 7; 7].
Proof.
  apply (append_total calloc [7; 7; 7] (Ring [0; 1; 2; 3] 3 1)); [exact calloc_size|exact calloc_total|].
  right. change (sizemax (Ring [0; 1; 2; 3] 3 1)) with 4. cbn. lia.
Defined.
