(* ===== verification/AccessControl.v ===== *)
(** * AccessControl: allow and deny lists of addresses and subnets

    src/src/util/accesscontrol.{h,cpp}.  An address is the [Z] of its bytes in
    network order (32 or 128 bits); the code only compares addresses and takes
    bitwise conjunctions, so the host's byte order does not matter.  The hash
    tables of single addresses are [gmap]s; the subnet rules are the trees
    [node].  [inet_pton] is a parameter of the text-level operations.

    For IPv4 the tree is proved to answer with the longest matching prefix
    ([insert_then_lookup]); for IPv6 the insertion is shown not to. *)

From S2P Require Import Prelude.

(** ** The subnet tree *)

Inductive node := Node {
  m_id : Z;
  m_mask : Z;
  m_iAllowed : Z;
  m_children : list node
}.

Definition set_access (n : node) (a : Z) : node := Node (m_id n) (m_mask n) a (m_children n).
Definition set_children (n : node) (cs : list node) : node :=
  Node (m_id n) (m_mask n) (m_iAllowed n) cs.

(** [TPointerList::erase]: the last element takes the place of the erased one,
    which is the head of [rest] here, the iterator being on it. *)
Definition erase_here {A} (rest : list A) : list A :=
  match rest with
  | [] => []
  | _ :: r => match last r with
              | Some l => l :: removelast r
              | None => []
              end
  end.

(** [matchNode]: the first child whose network holds the address. *)
Fixpoint matchNode (cs : list node) (ip : Z) : option node :=
  match cs with
  | [] => None
  | c :: cs => if Z.land ip (m_mask c) =? m_id c then Some c else matchNode cs ip
  end.

(** The loop of [SubNetNode::insertChild(SubNetNode)].  [kept] is the part of the
    child list before the iterator, [rest] the part from it on; [k] bounds the
    loop (one child is passed or moved per turn); [rec] is the recursive call. *)
Fixpoint insert_loop (rec : node -> node -> option node) (k : nat) (kept rest : list node) (p : node)
  : option (list node) :=
  match k, rest with
  | S k, x :: r =>
      if Z.land (m_id x) (m_mask p) =? m_id p then
        if m_mask x =? m_mask p then
          Some (kept ++ set_access x (m_iAllowed p) :: r)
        else if Z.land (m_mask x) (m_mask p) =? m_mask p then
          insert_loop rec k kept (erase_here rest) (set_children p (m_children p ++ [x]))
        else option_map (fun x' => kept ++ x' :: r) (rec x p)
      else if Z.land (m_id p) (m_mask x) =? m_id x then
        option_map (fun x' => kept ++ x' :: r) (rec x p)
      else insert_loop rec k (kept ++ [x]) r p
  | _, _ => Some (kept ++ [p])
  end.

(** [insertChild(SubNetNode)]; [fuel] bounds the depth of the recursion. *)
Fixpoint insertChild (fuel : nat) (cur p : node) : option node :=
  match fuel with
  | O => None
  | S fuel =>
      option_map (set_children cur)
        (insert_loop (insertChild fuel) (length (m_children cur)) [] (m_children cur) p)
  end.

(** [insertChild(in_addr_t, in_addr_t, int)]. *)
Definition insertNet (fuel : nat) (cur : node) (ip mask allowed : Z) : option node :=
  insertChild fuel cur (Node (Z.land ip mask) mask allowed []).

(** [SubNet6Node::insertChild(SubNet6Node)]: there is no test that the child is
    inside the new network before it is moved under it. *)
Fixpoint insert_loop6 (rec : node -> node -> option node) (k : nat) (kept rest : list node) (p : node)
  : option (list node) :=
  match k, rest with
  | S k, x :: r =>
      if Z.land (m_id x) (m_mask p) =? m_id p then
        if m_mask x =? m_mask p then
          Some (kept ++ set_access x (m_iAllowed p) :: r)
        else insert_loop6 rec k kept (erase_here rest) (set_children p (m_children p ++ [x]))
      else if Z.land (m_id p) (m_mask x) =? m_id x then
        option_map (fun x' => kept ++ x' :: r) (rec x p)
      else insert_loop6 rec k (kept ++ [x]) r p
  | _, _ => Some (kept ++ [p])
  end.

Fixpoint insertChild6 (fuel : nat) (cur p : node) : option node :=
  match fuel with
  | O => None
  | S fuel =>
      option_map (set_children cur)
        (insert_loop6 (insertChild6 fuel) (length (m_children cur)) [] (m_children cur) p)
  end.

Definition insertNet6 (fuel : nat) (cur : node) (ip mask allowed : Z) : option node :=
  insertChild6 fuel cur (Node (Z.land ip mask) mask allowed []).

(** The depth of a tree: enough fuel for the loops that walk down it. *)
Fixpoint depth (n : node) : nat :=
  S (fold_right (fun c d => Nat.max (depth c) d) O (m_children n)).

(** The descent at the end of [hasAccess]. *)
Fixpoint walk (fuel : nat) (n : node) (ip : Z) : Z :=
  match fuel with
  | O => m_iAllowed n
  | S fuel => match matchNode (m_children n) ip with
              | Some c => walk fuel c ip
              | None => m_iAllowed n
              end
  end.

(** [AccessControl::insSubNetControl(in6_addr)]: the descent that updates a node
    with the same mask or finds where to insert; the result also says which of
    the two values 1 (conflict) or 0 is returned. *)
Fixpoint insSubNet6 (fuel : nat) (cur : node) (subNet mask allowed : Z) : option (Z * node) :=
  match fuel with
  | O => None
  | S fuel =>
      let down :=
        fix down (kept cs : list node) : option (Z * list node) :=
          match cs with
          | [] => None
          | c :: cs =>
              if Z.land subNet (m_mask c) =? m_id c then
                if m_mask c =? mask then Some (1, kept ++ set_access c allowed :: cs)
                else option_map (fun '(r, c') => (r, kept ++ c' :: cs))
                       (insSubNet6 fuel c subNet mask allowed)
              else down (kept ++ [c]) cs
          end in
      match matchNode (m_children cur) subNet with
      | Some _ => option_map (fun '(r, cs) => (r, set_children cur cs)) (down [] (m_children cur))
      | None => option_map (fun n => (0, n)) (insertNet6 fuel cur subNet mask allowed)
      end
  end.

(** ** The access control object *)

Definition AC_DENY : Z := 0.
Definition AC_ALLOW : Z := 1.
Definition AC_TRUST : Z := 2.

Record access_control := AC {
  m_pRoot : node;
  m_ipCtrl : gmap Z Z;
  m_pRoot6 : node;
  m_pIp6Ctrl : option (gmap Z Z)
}.

Definition new_access_control : access_control :=
  AC (Node 0 0 1 []) ∅ (Node 0 0 1 []) None.

Definition set_root (ac : access_control) (n : node) : access_control :=
  AC n (m_ipCtrl ac) (m_pRoot6 ac) (m_pIp6Ctrl ac).
Definition set_root6 (ac : access_control) (n : node) : access_control :=
  AC (m_pRoot ac) (m_ipCtrl ac) n (m_pIp6Ctrl ac).
Definition set_ips (ac : access_control) (m : gmap Z Z) : access_control :=
  AC (m_pRoot ac) m (m_pRoot6 ac) (m_pIp6Ctrl ac).
Definition set_ips6 (ac : access_control) (m : option (gmap Z Z)) : access_control :=
  AC (m_pRoot ac) (m_ipCtrl ac) (m_pRoot6 ac) m.

Inductive sockaddr := AInet (ip : Z) | AInet6 (ip : Z) | AUnix | AOther.

Definition hasAccess4 (ac : access_control) (ip : Z) : Z :=
  match m_ipCtrl ac !! ip with
  | Some a => a
  | None => walk (depth (m_pRoot ac)) (m_pRoot ac) ip
  end.

Definition hasAccess6 (ac : access_control) (ip : Z) : Z :=
  match m_pIp6Ctrl ac ≫= (.!! ip) with
  | Some a => a
  | None => walk (depth (m_pRoot6 ac)) (m_pRoot6 ac) ip
  end.

(** [hasAccess(const sockaddr )] for the families the code answers for. *)
Definition hasAccessAddr (ac : access_control) (a : sockaddr) : Z :=
  match a with
  | AInet ip => hasAccess4 ac ip
  | AInet6 ip => hasAccess6 ac ip
  | _ => 0
  end.

Definition addIP4 (ac : access_control) (ip allowed : Z) : Z * access_control :=
  (0, set_ips ac (<[ip := allowed]> (m_ipCtrl ac))).
Definition removeIP4 (ac : access_control) (ip : Z) : access_control :=
  set_ips ac (delete ip (m_ipCtrl ac)).

Definition is_v4mapped (ip : Z) : bool := ip / 2 ^ 32 =? 65535.
Definition low_word (ip : Z) : Z := ip mod 2 ^ 32.

Definition addIP6 (ac : access_control) (ip allowed : Z) : Z * access_control :=
  if is_v4mapped ip then addIP4 ac (low_word ip) allowed
  else if ip =? 0 then (0, set_root6 ac (set_access (m_pRoot6 ac) allowed))
  else (0, set_ips6 ac (Some (<[ip := allowed]> (default ∅ (m_pIp6Ctrl ac))))).

Definition addSubNet4 (ac : access_control) (subNet mask allowed : Z) : Z * access_control :=
  if mask =? 2 ^ 32 - 1 then addIP4 ac subNet allowed
  else if mask =? 0 then (0, set_root ac (set_access (m_pRoot ac) allowed))
  else match insertNet (depth (m_pRoot ac)) (m_pRoot ac) subNet mask allowed with
       | Some r => (0, set_root ac r)
       | None => (LS_FAIL, ac)
       end.

Definition addSubNet6 (ac : access_control) (subNet mask allowed : Z) : Z * access_control :=
  if is_v4mapped subNet then
    if negb (low_word mask =? 0) then addSubNet4 ac (low_word subNet) (low_word mask) allowed
    else (LS_FAIL, ac)
  else if mask =? 2 ^ 128 - 1 then addIP6 ac subNet allowed
  else if mask =? 0 then (0, set_root6 ac (set_access (m_pRoot6 ac) allowed))
  else match insSubNet6 (S (depth (m_pRoot6 ac))) (m_pRoot6 ac) subNet mask allowed with
       | Some (r, n) => (r, set_root6 ac n)
       | None => (LS_FAIL, ac)
       end.

(** [clear]: the table of single IPv6 addresses is not touched. *)
Definition clear (ac : access_control) : access_control :=
  AC (set_children (m_pRoot ac) []) ∅ (set_children (m_pRoot6 ac) []) (m_pIp6Ctrl ac).

(** ** The textual interface *)

Definition isIPv6 (s : list Z) : bool :=
  match s with
  | 91 :: _ => true
  | _ => existsb (Z.eqb 58) s
  end.

(** The copy into [char achTemp[128]]. *)
Definition temp128 (s : list Z) : list Z := ztake 127 s.

(** [checkTrust]; on the empty string the code reads the byte before the
    buffer, taken here not to be a "t". *)
Definition checkTrust (ip_mask : list Z) (allowed : Z) : list Z * Z :=
  match last ip_mask with
  | Some ch =>
      if (ch =? 116) || (ch =? 84) then
        (removelast ip_mask, if negb (allowed =? 0) then AC_TRUST else allowed)
      else (ip_mask, allowed)
  | None => (ip_mask, allowed)
  end.

Definition s_maskbits : list Z := [0; 128; 192; 224; 240; 248; 252; 254].

(** The three writes of [parseNetmask] into a mask of [maxbits] bits. *)
Definition mask_bytes (bits maxbits : Z) : list Z :=
  repeat 255 (Z.to_nat (bits / 8)) ++
  (if negb (bits mod 8 =? 0) then [znth s_maskbits (bits mod 8)] else []) ++
  repeat 0 (Z.to_nat ((maxbits - bits) / 8)).

Section Text.
(** [inet_pton(AF_INET, ...)] and [inet_pton(AF_INET6, ...)]. *)
Variable inet_pton4 inet_pton6 : list Z -> option Z.

Definition strToIPv6 (ip : list Z) : option Z :=
  match ip with
  | 91 :: ip' =>
      match last ip' with
      | Some 93 => inet_pton6 (removelast ip')
      | _ => None
      end
  | _ => inet_pton6 ip
  end.

Definition hasAccessStr (ac : access_control) (pchIP : list Z) : Z :=
  if negb (isIPv6 pchIP) then
    match inet_pton4 pchIP with
    | Some ip => hasAccess4 ac ip
    | None => 0
    end
  else match strToIPv6 (temp128 pchIP) with
       | Some ip => hasAccess6 ac ip
       | None => 0
       end.

(** [addIPControl(const char )]: a malformed IPv6 address returns 0, the value
    of success. *)
Definition addIPControl (ac : access_control) (pchIP : list Z) (allowed : Z) : Z * access_control :=
  let '(achTemp, allowed) := checkTrust (temp128 pchIP) allowed in
  if negb (isIPv6 achTemp) then
    match inet_pton4 achTemp with
    | Some ip => addIP4 ac ip allowed
    | None => (LS_FAIL, ac)
    end
  else match strToIPv6 achTemp with
       | Some ip => addIP6 ac ip allowed
       | None => (0, ac)
       end.

Definition removeIPControl (ac : access_control) (pchIP : list Z) : access_control :=
  if negb (isIPv6 pchIP) then
    match inet_pton4 pchIP with
    | Some ip => removeIP4 ac ip
    | None => ac
    end
  else match strToIPv6 (temp128 pchIP) with
       | None => ac
       | Some ip =>
           if is_v4mapped ip then removeIP4 ac (low_word ip)
           else set_ips6 ac (delete ip <$> m_pIp6Ctrl ac)
       end.

(** [parseNetmask]: [None] when it does not return 0. *)
Definition parseNetmask (netMask : list Z) (maxbits : Z) : option Z :=
  if negb (match netMask with c :: _ => isdigit c | [] => false end) then None
  else
    let '(v, rest) := strtol10 netMask in
    let bits := wraps 32 v in
    if (zlen rest =? 0) && (bits >=? 0) && (bits <? maxbits) then
      Some (be_val (mask_bytes bits maxbits))
    else if negb (maxbits =? 32) then None else inet_pton4 netMask.

Definition addSubNetMask (ac : access_control) (ip netMask : list Z) (allowed : Z) : Z * access_control :=
  if negb (isIPv6 ip) then
    match inet_pton4 ip with
    | None => (LS_FAIL, ac)
    | Some subNet =>
        match parseNetmask netMask 32 with
        | None => (LS_FAIL, ac)
        | Some mask => addSubNet4 ac subNet mask allowed
        end
    end
  else
    match strToIPv6 (temp128 ip) with
    | None => (LS_FAIL, ac)
    | Some addr =>
        match parseNetmask netMask 128 with
        | None => (LS_FAIL, ac)
        | Some mask => addSubNet6 ac addr mask allowed
        end
    end.

(** [addIPv4]: the address with an optional ["*"] tail or missing components. *)
Definition addIPv4 (ac : access_control) (ip_mask : list Z) (allowed : Z) : Z * access_control :=
  let star := memchr 42 ip_mask in
  match star with
  | Some 0 => (0, ac)
  | _ =>
      let ip := match star with Some k => ztake (k - 1) ip_mask | None => ip_mask end in
      let scanned := match star with Some k => ztake k ip_mask | None => ip_mask end in
      let dots := zlen (filter (fun ch => ch = 46) scanned) in
      let c := match star with Some _ => dots | None => dots + 1 end in
      if c =? 4 then addIPControl ac ip allowed
      else
        let mask := fold_left (fun m i => lstrncat m (if i =? 0 then bs "255" else bs ".255") 256)
                      (seqZ 0 c) [] in
        let pad := fun s => fold_left (fun m _ => lstrncat m (bs ".0") 256) (seqZ 0 (4 - c)) s in
        match inet_pton4 (pad ip) with
        | None => (LS_FAIL, ac)
        | Some subNet =>
            match inet_pton4 (pad mask) with
            | None => (LS_FAIL, ac)
            | Some netmask => addSubNet4 ac subNet netmask allowed
            end
        end
  end.

Definition addSubNetControl (ac : access_control) (ip_mask : list Z) (allowed : Z) : Z * access_control :=
  let '(achTemp, allowed) := checkTrust (temp128 ip_mask) allowed in
  match memchr 47 achTemp with
  | Some k => addSubNetMask ac (ztake k achTemp) (lstrncpy (zdrop (k + 1) achTemp) 256) allowed
  | None =>
      if bytes_eqb achTemp (bs "*") || strcaseeq achTemp (bs "ALL") then
        (0, set_root6 (set_root ac (set_access (m_pRoot ac) allowed))
              (set_access (m_pRoot6 ac) allowed))
      else if negb (isIPv6 achTemp) then addIPv4 ac achTemp allowed
      else addIPControl ac achTemp allowed
  end.

(** [StringTool::strTrim] on a range. *)
Definition strTrim (l : list Z) : list Z :=
  let l := snd (span isspace l) in rev (snd (span isspace (rev l))).

(** One item of [addList]. *)
Definition add_item (ac : access_control) (item : list Z) (allow : Z) : Z * access_control :=
  let item := strTrim item in
  if (zlen item >? 0) && (zlen item <? 128) then
    let buf := match last item with Some 46 => removelast item | _ => item end in
    let '(r, ac) := addSubNetControl ac buf allow in
    ((if r =? 0 then 1 else 0), ac)
  else (0, ac).

(** [addList]; each turn drops a separator, so the length of the list bounds
    the number of turns. *)
Fixpoint addList_loop (fuel : nat) (ac : access_control) (pList : list Z) (allow added : Z)
  : Z * access_control :=
  match fuel with
  | O => (added, ac)
  | S fuel =>
      match strpbrk [44; 32; 13; 10] pList with
      | Some k =>
          let '(n, ac) := add_item ac (ztake k pList) allow in
          addList_loop fuel ac (zdrop (k + 1) pList) allow (added + n)
      | None => let '(n, ac) := add_item ac pList allow in (added + n, ac)
      end
  end.

Definition addList (ac : access_control) (pList : list Z) (allow : Z) : Z * access_control :=
  addList_loop (S (length pList)) ac pList allow 0.

End Text.

(** ** Networks as sets of addresses *)

(** The mask that keeps all but the [s] low bits of a 32-bit address. *)
Definition pmask (s : Z) : Z := 2 ^ 32 - 2 ^ s.

Definition valid (ip : Z) : Prop := 0 <= ip < 2 ^ 32.
Definition hit (n : node) (ip : Z) : Prop := Z.land ip (m_mask n) = m_id n.

(** A node that stands for a CIDR block. *)
Definition net (n : node) : Prop :=
  exists s, 0 <= s <= 32 /\ m_mask n = pmask s /\ valid (m_id n) /\ hit n (m_id n).

Definition sub (a b : node) : Prop :=
  m_mask b < m_mask a /\ forall ip, valid ip -> hit a ip -> hit b ip.
Definition disj (a b : node) : Prop := forall ip, valid ip -> hit a ip -> hit b ip -> False.

Inductive wf : node -> Prop :=
| wf_intro n :
    net n -> Forall (fun c => sub c n /\ wf c) (m_children n) ->
    ForallOrdPairs disj (m_children n) -> wf n.

(** The mask and access of the node where the descent of [hasAccess] stops. *)
Fixpoint look (fuel : nat) (n : node) (ip : Z) : Z * Z :=
  match fuel with
  | O => (m_mask n, m_iAllowed n)
  | S fuel => match matchNode (m_children n) ip with
              | Some c => look fuel c ip
              | None => (m_mask n, m_iAllowed n)
              end
  end.

Definition lk (n : node) (ip : Z) : Z * Z := look (depth n) n ip.

Lemma walk_look fuel n ip : walk fuel n ip = snd (look fuel n ip).
Proof.
  revert n. induction fuel as [|fuel IH]; intros n; cbn; [reflexivity|].
  destruct (matchNode _ _); auto.
Qed.

(** *** Masks *)

Lemma pmask_shiftl s : 0 <= s <= 32 -> pmask s = Z.shiftl (Z.ones (32 - s)) s.
Proof.
  intros. unfold pmask. rewrite Z.shiftl_mul_pow2, Z.ones_equiv by lia.
  replace (2 ^ 32) with (2 ^ (32 - s) * 2 ^ s) by (rewrite <- Z.pow_add_r by lia; f_equal; lia). lia.
Qed.

Lemma land_pmask x s : valid x -> 0 <= s <= 32 -> Z.land x (pmask s) = Z.shiftl (Z.shiftr x s) s.
Proof.
  intros Hx Hs. rewrite pmask_shiftl by lia. apply Z.bits_inj'. intros i Hi.
  rewrite Z.land_spec, !Z.shiftl_spec by lia.
  destruct (Z.lt_ge_cases i s) as [Hlt|Hge].
  - rewrite !(Z.testbit_neg_r _ (i - s)) by lia. apply andb_false_r.
  - rewrite Z.shiftr_spec, Z.sub_add by lia. destruct (Z.lt_ge_cases i 32) as [H32|H32].
    + rewrite Z.ones_spec_low by lia. apply andb_true_r.
    + rewrite Z.ones_spec_high by lia. unfold valid in Hx.
      rewrite Z.bits_above_log2 with (n := i); [reflexivity|lia|].
      destruct (Z.eq_dec x 0) as [->|]; [cbn; lia|]. apply Z.log2_lt_pow2; [lia|].
      eapply Z.lt_le_trans; [apply Hx|]. apply Z.pow_le_mono_r; lia.
Qed.

Lemma pmask_valid s : 0 <= s <= 32 -> valid (pmask s).
Proof.
  intros. unfold valid, pmask. pose proof (Z.pow_pos_nonneg 2 s ltac:(lia) ltac:(lia)).
  pose proof (Z.pow_le_mono_r 2 s 32 ltac:(lia) ltac:(lia)). lia.
Qed.

Lemma pmask_mono a b : 0 <= a -> a < b -> b <= 32 -> pmask b < pmask a.
Proof. intros. unfold pmask. pose proof (Z.pow_lt_mono_r 2 a b ltac:(lia) ltac:(lia) ltac:(lia)). lia. Qed.

Lemma pmask_le_iff a b : 0 <= a <= 32 -> 0 <= b <= 32 -> (pmask b <= pmask a <-> a <= b).
Proof.
  intros. destruct (Z.lt_trichotomy a b) as [Hl|[->|Hl]]; [|lia|].
  - pose proof (pmask_mono a b). lia.
  - pose proof (pmask_mono b a). lia.
Qed.

Lemma pmask_land a b : 0 <= a <= 32 -> 0 <= b <= 32 -> Z.land (pmask a) (pmask b) = pmask (Z.max a b).
Proof.
  intros. rewrite land_pmask by (try apply pmask_valid; lia). rewrite !pmask_shiftl by lia.
  apply Z.bits_inj'. intros i Hi. rewrite !Z.shiftl_spec by lia.
  destruct (Z.lt_ge_cases i (Z.max a b)) as [Hlt|Hge].
  - rewrite (Z.testbit_neg_r _ (i - Z.max a b)) by lia.
    destruct (Z.lt_ge_cases i b); [apply Z.testbit_neg_r; lia|].
    rewrite Z.shiftr_spec, Z.sub_add, Z.shiftl_spec by lia. apply Z.testbit_neg_r. lia.
  - rewrite Z.shiftr_spec, Z.sub_add, Z.shiftl_spec by lia.
    destruct (Z.lt_ge_cases i 32).
    + rewrite !Z.ones_spec_low by lia. reflexivity.
    + rewrite !Z.ones_spec_high by lia. reflexivity.
Qed.

(** *** The laminar structure of CIDR blocks *)

Lemma hit_shift n s ip :
  0 <= s <= 32 -> m_mask n = pmask s -> valid (m_id n) -> hit n (m_id n) -> valid ip ->
  (hit n ip <-> Z.shiftr ip s = Z.shiftr (m_id n) s).
Proof.
  unfold hit. intros Hs -> Hv Hh Hip. rewrite land_pmask in * by assumption.
  split; [|congruence]. intros H. rewrite <- H.
  rewrite Z.shiftr_shiftl_l, Z.sub_diag by lia. reflexivity.
Qed.

Lemma shiftr_coarser x y a b : 0 <= a <= b -> Z.shiftr x a = Z.shiftr y a -> Z.shiftr x b = Z.shiftr y b.
Proof.
  intros Hab H. replace b with (a + (b - a)) by lia. rewrite <- !Z.shiftr_shiftr by lia. congruence.
Qed.

Lemma net_sub_l a b ip :
  net a -> net b -> hit b (m_id a) -> m_mask b <= m_mask a -> valid ip -> hit a ip -> hit b ip.
Proof.
  intros (sa & Hsa & Hma & Hva & Hha) (sb & Hsb & Hmb & Hvb & Hhb) Hh Hle Hip Ha.
  rewrite Hma, Hmb in Hle. apply (proj1 (pmask_le_iff sa sb Hsa Hsb)) in Hle.
  apply (hit_shift a sa) in Ha; try assumption.
  apply (hit_shift b sb) in Hh; try assumption. apply (hit_shift b sb); try assumption.
  rewrite <- Hh. apply (shiftr_coarser _ _ sa); [lia|assumption].
Qed.

Lemma net_sub_r a b ip :
  net a -> net b -> hit b (m_id a) -> m_mask a <= m_mask b -> valid ip -> hit b ip -> hit a ip.
Proof.
  intros (sa & Hsa & Hma & Hva & Hha) (sb & Hsb & Hmb & Hvb & Hhb) Hh Hle Hip Hb.
  rewrite Hma, Hmb in Hle. apply (proj1 (pmask_le_iff sb sa Hsb Hsa)) in Hle.
  apply (hit_shift b sb) in Hb; try assumption.
  apply (hit_shift b sb) in Hh; try assumption. apply (hit_shift a sa); try assumption.
  apply (shiftr_coarser _ _ sb); [lia|congruence].
Qed.

Lemma net_disj a b : net a -> net b -> ~ hit b (m_id a) -> ~ hit a (m_id b) -> disj a b.
Proof.
  intros Ha Hb Hn1 Hn2 ip Hip Hha Hhb.
  pose proof Ha as (sa & Hsa & Hma & Hva & Hia). pose proof Hb as (sb & Hsb & Hmb & Hvb & Hib).
  apply (hit_shift a sa) in Hha; try assumption. apply (hit_shift b sb) in Hhb; try assumption.
  destruct (Z.le_ge_cases sa sb).
  - apply Hn1. apply (hit_shift b sb); try assumption.
    rewrite <- Hhb. symmetry. apply (shiftr_coarser _ _ sa); [lia|assumption].
  - apply Hn2. apply (hit_shift a sa); try assumption.
    rewrite <- Hha. symmetry. apply (shiftr_coarser _ _ sb); [lia|assumption].
Qed.

Lemma net_same a b : net a -> net b -> hit b (m_id a) -> m_mask a = m_mask b -> m_id a = m_id b.
Proof. intros (sa & _ & _ & _ & Ha) _ Hb Hm. unfold hit in *. congruence. Qed.

Lemma mask_land_le a b :
  net a -> net b -> ((Z.land (m_mask a) (m_mask b) =? m_mask b) = true <-> m_mask b <= m_mask a).
Proof.
  intros (sa & Hsa & -> & _) (sb & Hsb & -> & _). rewrite pmask_land, pmask_le_iff, Z.eqb_eq by assumption.
  split; [|intros; f_equal; lia]. intros H.
  destruct (Z.lt_ge_cases sb sa); [|lia]. rewrite Z.max_l in H by lia. pose proof (pmask_mono sb sa). lia.
Qed.

(** *** Children *)

Lemma matchNode_Some cs ip c : matchNode cs ip = Some c -> c ∈ cs /\ hit c ip.
Proof.
  induction cs as [|x cs IH]; cbn; [discriminate|]. unfold hit.
  destruct (_ =? _) eqn:E.
  - intros [= <-]. split; [left|lia].
  - intros H. destruct (IH H). split; [right|]; assumption.
Qed.

Lemma matchNode_None cs ip c : matchNode cs ip = None -> c ∈ cs -> ~ hit c ip.
Proof.
  induction cs as [|x cs IH]; cbn; [intros _ H; inversion H|]. unfold hit.
  destruct (_ =? _) eqn:E; [discriminate|]. intros H Hin.
  apply elem_of_cons in Hin as [->|Hin]; [lia|auto].
Qed.

Lemma disj_sym a b : disj a b -> disj b a.
Proof. unfold disj. eauto. Qed.

Lemma FOP_In cs a b : ForallOrdPairs disj cs -> a ∈ cs -> b ∈ cs -> a = b \/ disj a b.
Proof.
  intros Hf Ha Hb. apply list_elem_of_In in Ha, Hb.
  destruct (ForallOrdPairs_In Hf _ _ Ha Hb) as [?|[?|?]]; auto using disj_sym.
Qed.

Lemma FOP_perm cs cs' : Permutation cs cs' -> ForallOrdPairs disj cs -> ForallOrdPairs disj cs'.
Proof.
  induction 1; intros Hf; auto.
  - inversion Hf; subst. constructor; [|auto].
    eapply Permutation_Forall; eassumption.
  - inversion Hf as [|? ? H1 H2]; subst. inversion H2; subst. inversion H1; subst.
    repeat constructor; auto using disj_sym.
Qed.

Lemma matchNode_hit cs ip c :
  ForallOrdPairs disj cs -> valid ip -> c ∈ cs -> hit c ip -> matchNode cs ip = Some c.
Proof.
  intros Hf Hv Hc Hh. destruct (matchNode cs ip) as [d|] eqn:E.
  - apply matchNode_Some in E as [Hd Hhd]. destruct (FOP_In _ _ _ Hf Hc Hd) as [->|Hdis]; [reflexivity|].
    destruct (Hdis ip Hv Hh Hhd).
  - destruct (matchNode_None _ _ _ E Hc Hh).
Qed.

Lemma matchNode_miss cs ip : (forall c, c ∈ cs -> ~ hit c ip) -> matchNode cs ip = None.
Proof.
  intros H. destruct (matchNode cs ip) as [d|] eqn:E; [|reflexivity].
  apply matchNode_Some in E as [Hd Hhd]. destruct (H _ Hd Hhd).
Qed.

Lemma depth_child n c : c ∈ m_children n -> (depth c < depth n)%nat.
Proof.
  destruct n as [i m a cs]. cbn. induction cs as [|x cs IH]; intros H; [inversion H|].
  cbn. apply elem_of_cons in H as [->|H]; [lia|]. specialize (IH H). lia.
Qed.

Lemma look_fuel fuel : forall n ip, (depth n <= fuel)%nat -> look fuel n ip = lk n ip.
Proof.
  assert (Hind : forall k f1 f2 n ip, (depth n <= k)%nat -> (depth n <= f1)%nat -> (depth n <= f2)%nat ->
            look f1 n ip = look f2 n ip).
  { induction k as [|k IH]; intros f1 f2 n ip Hk H1 H2; [destruct n; cbn in Hk; lia|].
    destruct f1 as [|f1]; [destruct n; cbn in H1; lia|]. destruct f2 as [|f2]; [destruct n; cbn in H2; lia|].
    cbn [look]. destruct (matchNode _ _) as [c|] eqn:E; [|reflexivity].
    apply matchNode_Some in E as [Hc _]. apply depth_child in Hc. apply IH; lia. }
  intros. apply (Hind (depth n)); lia.
Qed.

Lemma lk_eq n ip :
  lk n ip = match matchNode (m_children n) ip with
            | Some c => lk c ip
            | None => (m_mask n, m_iAllowed n)
            end.
Proof.
  unfold lk at 1. assert (H : exists k, depth n = S k) by (destruct n; eexists; reflexivity).
  destruct H as [k Hk]. rewrite Hk. cbn [look].
  destruct (matchNode _ _) as [c|] eqn:E; [|reflexivity].
  apply matchNode_Some in E as [Hc _]. apply depth_child in Hc. apply look_fuel. lia.
Qed.

Lemma wf_inv n :
  wf n -> net n /\ (forall c, c ∈ m_children n -> sub c n /\ wf c) /\ ForallOrdPairs disj (m_children n).
Proof.
  inversion 1; subst. split_and!; auto. intros c Hc.
  eapply Forall_forall in H1; [exact H1|exact Hc].
Qed.

Lemma lk_mask n ip : wf n -> m_mask n <= fst (lk n ip).
Proof.
  assert (Hind : forall k n, (depth n <= k)%nat -> wf n -> m_mask n <= fst (lk n ip)).
  { induction k as [|k IH]; intros m Hk Hw; [destruct m; cbn in Hk; lia|].
    destruct (wf_inv _ Hw) as (_ & Hc & _). rewrite lk_eq.
    destruct (matchNode _ _) as [c|] eqn:E; [|cbn; lia].
    apply matchNode_Some in E as [Hin _]. pose proof (depth_child _ _ Hin).
    destruct (Hc _ Hin) as [[Hm _] Hwc]. specialize (IH c ltac:(lia) Hwc). lia. }
  eauto.
Qed.

(** A lookup in a child list, order apart. *)
Definition lks (cs : list node) (ip : Z) (d : Z * Z) : Z * Z :=
  match matchNode cs ip with Some c => lk c ip | None => d end.

Lemma lks_in cs ip d c :
  ForallOrdPairs disj cs -> valid ip -> c ∈ cs -> hit c ip -> lks cs ip d = lk c ip.
Proof. intros. unfold lks. erewrite matchNode_hit by eassumption. reflexivity. Qed.

Lemma lks_out cs ip d : (forall c, c ∈ cs -> ~ hit c ip) -> lks cs ip d = d.
Proof. intros. unfold lks. rewrite matchNode_miss by assumption. reflexivity. Qed.

(** *** The insertion *)

(** The longest-prefix-match update: a rule replaces the answer for the
    addresses it covers unless a strictly longer prefix answers them. *)
Definition lpm_update (old : Z * Z) (covered : bool) (mask allowed : Z) : Z * Z :=
  if covered && (fst old <=? mask) then (mask, allowed) else old.

Definition hitb (n : node) (ip : Z) : bool := Z.land ip (m_mask n) =? m_id n.

Lemma hitb_spec n ip : hitb n ip = true <-> hit n ip.
Proof. unfold hitb, hit. apply Z.eqb_eq. Qed.

Lemma erase_here_perm {A} (x : A) r : Permutation (erase_here (x :: r)) r.
Proof.
  cbn. destruct (last r) as [l|] eqn:E.
  - apply last_Some in E as [r' ->]. rewrite removelast_last.
    apply Permutation_cons_append.
  - apply last_None in E as ->. reflexivity.
Qed.

Lemma lks_perm cs cs' ip d :
  ForallOrdPairs disj cs -> valid ip -> Permutation cs cs' -> lks cs ip d = lks cs' ip d.
Proof.
  intros Hf Hv Hp. unfold lks at 2. destruct (matchNode cs' ip) as [c|] eqn:E.
  - apply matchNode_Some in E as [Hin Hh]. apply lks_in; auto. rewrite Hp. exact Hin.
  - apply lks_out. intros c Hc. rewrite Hp in Hc. eapply matchNode_None; eassumption.
Qed.

(** Replacing a child by another one for the same network. *)
Lemma replace_ok a r x x' :
  ForallOrdPairs disj (a ++ x :: r) -> m_id x' = m_id x -> m_mask x' = m_mask x ->
  ForallOrdPairs disj (a ++ x' :: r) /\
  forall ip d, valid ip ->
    (hit x ip -> lks (a ++ x' :: r) ip d = lk x' ip) /\
    (~ hit x ip -> lks (a ++ x' :: r) ip d = lks (a ++ x :: r) ip d).
Proof.
  intros Hf Hi Hm.
  assert (Hh : forall ip, hit x' ip <-> hit x ip) by (intros; unfold hit; rewrite Hi, Hm; reflexivity).
  assert (Hf' : ForallOrdPairs disj (a ++ x' :: r)).
  { apply (FOP_perm (x' :: a ++ r)); [apply Permutation_middle|].
    apply (FOP_perm _ (x :: a ++ r)) in Hf; [|symmetry; apply Permutation_middle].
    inversion Hf as [|? ? H1 H2]; subst. constructor; [|assumption].
    eapply Forall_impl; [exact H1|]. intros c Hc ip Hv Hx. apply Hc; [assumption|]. apply Hh, Hx. }
  split; [assumption|]. intros ip d Hv. split; intros Hx.
  - apply lks_in; auto; [set_solver|apply Hh, Hx].
  - unfold lks. replace (matchNode (a ++ x' :: r) ip) with (matchNode (a ++ x :: r) ip); [reflexivity|].
    clear Hf Hf'. induction a as [|c a IH]; cbn; [|rewrite IH; reflexivity].
    assert (E : forall y, m_id y = m_id x -> m_mask y = m_mask x -> (Z.land ip (m_mask y) =? m_id y) = false).
    { intros y E1 E2. apply Z.eqb_neq. rewrite E1, E2. exact Hx. }
    rewrite !E by auto. reflexivity.
Qed.

Section InsertLoop.
Variable rec : node -> node -> option node.
(** The network being inserted, and the children of the node it goes under. *)
Variables (leaf : node) (orig : list node).
Hypothesis leaf_net : net leaf.
Hypothesis leaf_nil : m_children leaf = [].
Hypothesis orig_wf : forall c, c ∈ orig -> wf c.
Hypothesis orig_disj : ForallOrdPairs disj orig.

(** What the recursive call guarantees. *)
Definition inserted (x x' : node) : Prop :=
  wf x' /\ m_id x' = m_id x /\ m_mask x' = m_mask x /\
  forall ip, valid ip -> hit x ip ->
    lk x' ip = lpm_update (lk x ip) (hitb leaf ip) (m_mask leaf) (m_iAllowed leaf).

Hypothesis rec_ok : forall x, x ∈ orig -> sub leaf x -> exists x', rec x leaf = Some x' /\ inserted x x'.

(** Loop invariant: [moved] is what has been moved under the new network. *)
Record loop_inv (kept rest moved : list node) : Prop := {
  li_perm : Permutation orig (kept ++ rest ++ moved);
  li_kept : Forall (disj leaf) kept;
  li_moved : Forall (fun c => sub c leaf) moved
}.

(** What the loop leaves: the new children and their lookups. *)
Definition loop_post (cs : list node) : Prop :=
  ForallOrdPairs disj cs /\
  (forall c, c ∈ cs -> wf c /\ exists o, (o = leaf \/ o ∈ orig) /\ m_id c = m_id o /\ m_mask c = m_mask o) /\
  forall ip d, valid ip -> fst d < m_mask leaf ->
    lks cs ip d = lpm_update (lks orig ip d) (hitb leaf ip) (m_mask leaf) (m_iAllowed leaf).

Lemma sub_self_hit a b : net a -> sub a b -> hit b (m_id a).
Proof. intros (s & _ & _ & Hv & Hh) [_ H]. auto. Qed.

(** Nothing can have been moved when a child holds the new network. *)
Lemma no_moved kept x r moved :
  loop_inv kept (x :: r) moved -> (forall ip, valid ip -> hit leaf ip -> hit x ip) -> moved = [].
Proof.
  intros [Hp Hk Hm] Hsub. destruct moved as [|c moved]; [reflexivity|exfalso].
  apply Forall_cons in Hm as [Hc _].
  assert (Hci : c ∈ orig) by (rewrite Hp; set_solver).
  pose proof (orig_wf c Hci) as Hw. destruct (wf_inv _ Hw) as ((s & Hs & Hms & Hvc & Hhc) & _).
  pose proof (proj2 Hc _ Hvc Hhc) as Hl.
  assert (Hd : disj x c).
  { apply (FOP_perm _ (x :: c :: kept ++ r ++ moved)) in orig_disj as Hf.
    - inversion Hf as [|? ? H1 H2]; subst. apply Forall_cons in H1. tauto.
    - rewrite Hp. solve_Permutation. }
  exact (Hd _ Hvc (Hsub _ Hvc Hl) Hhc).
Qed.

Lemma loop_end kept moved : loop_inv kept [] moved -> loop_post (kept ++ [set_children leaf moved]).
Proof.
  intros [Hp Hk Hm]. cbn in Hp. set (p := set_children leaf moved).
  assert (Hhp : forall ip, hit p ip <-> hit leaf ip) by reflexivity.
  pose proof (FOP_perm _ _ Hp orig_disj) as Hf.
  assert (Hkm : ForallOrdPairs disj kept /\ ForallOrdPairs disj moved).
  { clear -Hf. induction kept as [|c kept IH]; cbn in Hf; [split; [constructor|assumption]|].
    inversion Hf as [|? ? H1 H2]; subst. destruct (IH H2). split; [constructor|]; auto.
    apply Forall_app in H1. tauto. }
  destruct Hkm as [Hfk Hfm].
  assert (Hfp : ForallOrdPairs disj (kept ++ [p])).
  { apply (FOP_perm (p :: kept)); [apply Permutation_cons_append|]. constructor; assumption. }
  split_and!; [assumption| |].
  - intros c Hc. apply elem_of_app in Hc as [Hc|Hc].
    + assert (Hco : c ∈ orig) by (rewrite Hp; set_solver). split; [auto|]. exists c. auto.
    + apply list_elem_of_singleton in Hc as ->. split; [|exists leaf; auto].
      constructor; [exact leaf_net| |assumption]. cbn. apply Forall_forall. intros c Hc.
      split; [|apply orig_wf; rewrite Hp; set_solver].
      eapply Forall_forall in Hm; [|exact Hc]. exact Hm.
  - intros ip d Hv Hd. rewrite (lks_perm _ _ ip d orig_disj Hv Hp). unfold lpm_update.
    destruct (hitb leaf ip) eqn:Eh; cbn [andb].
    + apply hitb_spec in Eh. rewrite (lks_in (kept ++ [p]) ip d p); auto; [|set_solver].
      rewrite lk_eq. cbn [p set_children m_children m_mask m_iAllowed].
      change (match matchNode moved ip with Some c => lk c ip | None => (m_mask leaf, m_iAllowed leaf) end)
        with (lks moved ip (m_mask leaf, m_iAllowed leaf)).
      destruct (matchNode moved ip) as [c|] eqn:Em.
      * apply matchNode_Some in Em as [Hin Hh].
        rewrite (lks_in moved _ _ c), (lks_in (kept ++ moved) _ _ c) by (auto; set_solver).
        assert (Hw : wf c) by (apply orig_wf; rewrite Hp; set_solver).
        pose proof (lk_mask c ip Hw). eapply Forall_forall in Hm as [Hlt _]; [|exact Hin].
        replace (fst (lk c ip) <=? m_mask leaf) with false by lia. reflexivity.
      * rewrite (lks_out moved) by (intros; eapply matchNode_None; eassumption).
        rewrite (lks_out (kept ++ moved)).
        -- replace (fst d <=? m_mask leaf) with true by lia. reflexivity.
        -- intros c Hc. apply elem_of_app in Hc as [Hc|Hc]; [|eapply matchNode_None; eassumption].
           intros Hh. eapply Forall_forall in Hk; [|exact Hc]. exact (Hk _ Hv Eh Hh).
    + assert (Hnl : ~ hit leaf ip) by (rewrite <- hitb_spec; congruence).
      unfold lks at 1. destruct (matchNode (kept ++ [p]) ip) as [c|] eqn:Em.
      * apply matchNode_Some in Em as [Hc Hh]. apply elem_of_app in Hc as [Hc|Hc].
        -- symmetry. apply lks_in; auto. set_solver.
        -- apply list_elem_of_singleton in Hc as ->. tauto.
      * symmetry. apply lks_out. intros c Hc Hh. apply elem_of_app in Hc as [Hc|Hc].
        -- eapply matchNode_None; [exact Em| |exact Hh]. set_solver.
        -- eapply Forall_forall in Hm; [|exact Hc]. apply Hnl, Hm; assumption.
Qed.

(** The two cases that end the loop early: the child [x] becomes [x']. *)
Lemma loop_replace kept x r moved x' :
  loop_inv kept (x :: r) moved -> (forall ip, valid ip -> hit leaf ip -> hit x ip) ->
  inserted x x' -> loop_post (kept ++ x' :: r).
Proof.
  intros Hinv Hsub (Hw & Hi & Hm & Hlk). pose proof (no_moved _ _ _ _ Hinv Hsub) as ->.
  destruct Hinv as [Hp _ _]. rewrite app_nil_r in Hp. pose proof (FOP_perm _ _ Hp orig_disj) as Hf.
  destruct (replace_ok _ _ _ x' Hf Hi Hm) as [Hf' Hr]. split_and!; [assumption| |].
  - intros c Hc. assert (c = x' \/ c ∈ kept ++ x :: r) as [->|Hin] by set_solver.
    + split; [assumption|]. exists x. split_and!; auto. right. rewrite Hp. set_solver.
    + rewrite <- Hp in Hin. split; [auto|]. exists c. auto.
  - intros ip d Hv Hd. destruct (Hr ip d Hv) as [Hr1 Hr2]. rewrite (lks_perm _ _ ip d orig_disj Hv Hp).
    destruct (hitb x ip) eqn:Ex.
    + apply hitb_spec in Ex. rewrite Hr1, Hlk by assumption. f_equal. symmetry.
      apply lks_in; auto. set_solver.
    + assert (Hnx : ~ hit x ip) by (rewrite <- hitb_spec; congruence). rewrite Hr2 by assumption.
      unfold lpm_update. destruct (hitb leaf ip) eqn:El; [|reflexivity].
      apply hitb_spec in El. destruct (Hnx (Hsub ip Hv El)).
Qed.

Lemma set_access_inserted x :
  wf x -> m_id x = m_id leaf -> m_mask x = m_mask leaf -> inserted x (set_access x (m_iAllowed leaf)).
Proof.
  intros Hw Hi Hm. destruct (wf_inv _ Hw) as (Hn & Hc & Hf). split_and!; auto.
  - constructor; [exact Hn| |exact Hf]. cbn. apply Forall_forall. intros c Hin.
    destruct (Hc c Hin). split; auto.
  - intros ip Hv Hh. rewrite !lk_eq. cbn [set_access m_children m_mask m_iAllowed].
    assert (Hhl : hitb leaf ip = true) by (apply hitb_spec; unfold hit in *; congruence).
    rewrite Hhl. unfold lpm_update. cbn [andb]. destruct (matchNode (m_children x) ip) as [c|] eqn:E.
    + apply matchNode_Some in E as [Hin _]. destruct (Hc c Hin) as [[Hlt _] Hwc].
      pose proof (lk_mask c ip Hwc). replace (fst (lk c ip) <=? m_mask leaf) with false by lia. reflexivity.
    + cbn. replace (m_mask x <=? m_mask leaf) with true by lia. congruence.
Qed.

Lemma insert_loop_ok k : forall kept rest moved,
  length rest = k -> loop_inv kept rest moved ->
  exists cs, insert_loop rec k kept rest (set_children leaf moved) = Some cs /\ loop_post cs.
Proof.
  induction k as [|k IH]; intros kept rest moved Hk Hinv; destruct rest as [|x r]; try discriminate Hk.
  { eexists. split; [reflexivity|]. apply loop_end, Hinv. }
  cbn [insert_loop set_children m_id m_mask m_iAllowed m_children].
  assert (Hxo : x ∈ orig) by (rewrite (li_perm _ _ _ Hinv); set_solver).
  pose proof (orig_wf x Hxo) as Hwx. destruct (wf_inv _ Hwx) as (Hnx & _).
  assert (Hdown : (forall ip, valid ip -> hit leaf ip -> hit x ip) -> m_mask x < m_mask leaf ->
     exists cs, option_map (fun x' => kept ++ x' :: r) (rec x (set_children leaf moved)) = Some cs /\ loop_post cs).
  { intros Hs Hlt. rewrite (no_moved _ _ _ _ Hinv Hs).
    replace (set_children leaf []) with leaf by (destruct leaf; cbn in *; subst; reflexivity).
    destruct (rec_ok x Hxo (conj Hlt Hs)) as (x' & -> & Hins). eexists. split; [reflexivity|].
    eapply loop_replace; eassumption. }
  destruct (Z.land (m_id x) (m_mask leaf) =? m_id leaf) eqn:E1.
  - assert (Hh : hit leaf (m_id x)) by (unfold hit; lia).
    destruct (m_mask x =? m_mask leaf) eqn:E2.
    + eexists. split; [reflexivity|]. apply (loop_replace kept x r moved); [assumption| |].
      * intros ip Hv. apply net_sub_r; auto; lia.
      * apply set_access_inserted; [assumption| |lia]. apply net_same; auto; lia.
    + destruct (Z.land (m_mask x) (m_mask leaf) =? m_mask leaf) eqn:E3.
      * apply (mask_land_le _ _ Hnx leaf_net) in E3.
        apply IH; [rewrite (Permutation_length (erase_here_perm x r)); cbn in Hk; lia|].
        destruct Hinv as [Hp Hkd Hm]. constructor; [|assumption|].
        -- rewrite Hp, (erase_here_perm x r). solve_Permutation.
        -- apply Forall_app; split; [assumption|]. constructor; [|constructor].
           split; [lia|]. intros ip. apply net_sub_l; auto; lia.
      * apply Hdown.
        -- intros ip Hv. apply net_sub_r; auto. pose proof (mask_land_le _ _ Hnx leaf_net).
           destruct (Z.le_gt_cases (m_mask leaf) (m_mask x)); [|lia]. intuition congruence.
        -- pose proof (mask_land_le _ _ Hnx leaf_net).
           destruct (Z.le_gt_cases (m_mask leaf) (m_mask x)); [|lia]. intuition congruence.
  - assert (Hnh : ~ hit leaf (m_id x)) by (unfold hit; lia).
    destruct (Z.land (m_id leaf) (m_mask x) =? m_id x) eqn:E2.
    + assert (Hh : hit x (m_id leaf)) by (unfold hit; lia).
      assert (Hlt : m_mask x < m_mask leaf).
      { destruct (Z.lt_ge_cases (m_mask x) (m_mask leaf)) as [|Hge]; [assumption|]. exfalso. apply Hnh.
        destruct Hnx as (s & Hs1 & Hs2 & Hvx & Hhx).
        apply (net_sub_r leaf x (m_id x)); auto. exists s. auto. }
      apply Hdown; [|assumption]. intros ip. apply net_sub_l; auto; lia.
    + apply IH; [cbn in Hk; lia|]. destruct Hinv as [Hp Hkd Hm]. constructor; [|  |assumption].
      * rewrite Hp. rewrite <- app_assoc. reflexivity.
      * apply Forall_app; split; [assumption|]. constructor; [|constructor].
        apply disj_sym, net_disj; auto. unfold hit. lia.
Qed.
End InsertLoop.

Lemma insertChild_ok fuel : forall n leaf,
  (depth n <= fuel)%nat -> wf n -> net leaf -> m_children leaf = [] -> sub leaf n ->
  exists n', insertChild fuel n leaf = Some n' /\ inserted leaf n n' /\ m_iAllowed n' = m_iAllowed n.
Proof.
  induction fuel as [|fuel IH]; intros n leaf Hd Hw Hl Hnil Hsub; [destruct n; cbn in Hd; lia|].
  destruct (wf_inv _ Hw) as (Hn & Hc & Hf). cbn [insertChild].
  assert (Hinv : loop_inv leaf (m_children n) [] (m_children n) []).
  { constructor; [rewrite app_nil_r; reflexivity|constructor|constructor]. }
  destruct (insert_loop_ok (insertChild fuel) leaf (m_children n) Hl Hnil) with
    (k := length (m_children n)) (kept := @nil node) (rest := m_children n) (moved := @nil node)
    as (cs & Hcs & Hfd & Hwf & Hlk); try assumption; try reflexivity.
  { intros c Hin. apply (Hc c Hin). }
  { intros x Hx Hs. destruct (Hc x Hx) as [_ Hwx]. pose proof (depth_child _ _ Hx).
    destruct (IH x leaf) as (x' & Hx' & Hins & _); auto; [lia|]. eauto. }
  replace (set_children leaf []) with leaf in Hcs by (destruct leaf; cbn in *; subst; reflexivity).
  rewrite Hcs. cbn. eexists. split; [reflexivity|]. split; [|reflexivity]. split_and!; auto.
  - constructor; [exact Hn| |exact Hfd]. cbn. apply Forall_forall. intros c Hin.
    destruct (Hwf c Hin) as (Hwc & o & Ho & Hi & Hm). split; [|exact Hwc].
    assert (Hso : sub o n) by (destruct Ho as [->|Ho]; [exact Hsub|apply (Hc o Ho)]).
    destruct Hso as [Hlt Hs]. split; [cbn; lia|]. intros ip Hv Hh. apply Hs; [assumption|].
    unfold hit in *. congruence.
  - intros ip Hv Hh. rewrite !lk_eq. cbn [set_children m_children m_mask m_iAllowed].
    apply Hlk; [assumption|]. cbn. apply Hsub.
Qed.

(** ** The IPv4 rules of an access control object *)

Definition ac_ok (ac : access_control) : Prop :=
  wf (m_pRoot ac) /\ m_mask (m_pRoot ac) = 0 /\ m_id (m_pRoot ac) = 0.

(** The mask and access of the rule that answers for an address. *)
Definition answer (ac : access_control) (ip : Z) : Z * Z :=
  match m_ipCtrl ac !! ip with
  | Some a => (2 ^ 32 - 1, a)
  | None => lk (m_pRoot ac) ip
  end.

Lemma hasAccess4_answer ac ip : hasAccess4 ac ip = snd (answer ac ip).
Proof. unfold hasAccess4, answer. destruct (_ !! _); [reflexivity|apply walk_look]. Qed.

Lemma new_ac_ok : ac_ok new_access_control.
Proof.
  split_and!; try reflexivity. constructor; cbn; try constructor.
  exists 32. split_and!; try reflexivity; unfold valid; cbn; lia.
Qed.

Lemma lk_max n ip : wf n -> fst (lk n ip) <= 2 ^ 32 - 1.
Proof.
  assert (Hind : forall k n, (depth n <= k)%nat -> wf n -> fst (lk n ip) <= 2 ^ 32 - 1).
  { induction k as [|k IH]; intros m Hk Hw; [destruct m; cbn in Hk; lia|].
    destruct (wf_inv _ Hw) as ((s & Hs & Hm & _) & Hc & _). rewrite lk_eq.
    destruct (matchNode _ _) as [c|] eqn:E.
    - apply matchNode_Some in E as [Hin _]. pose proof (depth_child _ _ Hin).
      apply IH; [lia|]. apply (Hc c Hin).
    - cbn [fst]. rewrite Hm. pose proof (pmask_valid s Hs) as Hv. unfold valid in Hv. lia. }
  eauto.
Qed.

Lemma set_access_root n a ip :
  wf n -> m_mask n = 0 -> lk (set_access n a) ip = lpm_update (lk n ip) true 0 a.
Proof.
  intros Hw Hm. destruct (wf_inv _ Hw) as (_ & Hc & _). rewrite !lk_eq.
  cbn [set_access m_children m_mask m_iAllowed]. unfold lpm_update. cbn [andb].
  destruct (matchNode _ _) as [c|] eqn:E.
  - apply matchNode_Some in E as [Hin _]. destruct (Hc c Hin) as [[Hlt _] Hwc].
    pose proof (lk_mask c ip Hwc). replace (fst (lk c ip) <=? 0) with false by lia. reflexivity.
  - cbn. rewrite Hm. reflexivity.
Qed.

Lemma set_access_wf n a : wf n -> wf (set_access n a).
Proof.
  intros Hw. destruct (wf_inv _ Hw) as (Hn & Hc & Hf). constructor; [exact Hn| |exact Hf].
  apply Forall_forall. intros c Hin. destruct (Hc c Hin). auto.
Qed.

(** Adding an IPv4 subnet rule is the longest-prefix-match update.  On a
    well-formed object, [addSubNetControl] with a CIDR mask of any length
    (single addresses and the whole space included) succeeds, keeps the object
    well-formed, and changes the answer for exactly the addresses the rule
    covers that no strictly longer prefix answers, whatever the rules added
    before and in whatever order they came. *)
Lemma addSubNet4_lpm ac subNet s allowed :
  ac_ok ac -> 0 <= s <= 32 -> valid subNet ->
  exists ac', addSubNet4 ac subNet (pmask s) allowed = (0, ac') /\ ac_ok ac' /\
    forall ip, valid ip ->
      answer ac' ip = lpm_update (answer ac ip)
        (Z.land ip (pmask s) =? Z.land subNet (pmask s)) (pmask s) allowed.
Proof.
  intros (Hw & Hm & Hi) Hs Hv. unfold addSubNet4.
  destruct (pmask s =? 2 ^ 32 - 1) eqn:E1.
  { assert (s = 0) as ->.
    { destruct (Z.eq_dec s 0); [assumption|]. pose proof (pmask_mono 0 s). unfold pmask in *. lia. }
    eexists. split; [reflexivity|]. split; [unfold ac_ok; split_and!; assumption|]. intros ip Hip.
    rewrite !land_pmask, !Z.shiftl_0_r, !Z.shiftr_0_r by (assumption || lia).
    unfold answer, lpm_update. cbn [addIP4 snd set_ips m_ipCtrl m_pRoot]. change (pmask 0) with (2 ^ 32 - 1).
    destruct (ip =? subNet) eqn:E.
    - assert (ip = subNet) as -> by lia. rewrite lookup_insert_eq. cbn [andb].
      replace (fst match m_ipCtrl ac !! subNet with Some a => (2 ^ 32 - 1, a) | None => lk (m_pRoot ac) subNet end
                 <=? 2 ^ 32 - 1) with true; [reflexivity|].
      symmetry. apply Z.leb_le. destruct (_ !! _); [reflexivity|]. apply lk_max, Hw.
    - rewrite lookup_insert_ne by lia. reflexivity. }
  destruct (pmask s =? 0) eqn:E2.
  { assert (s = 32) as ->.
    { destruct (Z.eq_dec s 32); [assumption|]. pose proof (pmask_mono s 32). unfold pmask in *. lia. }
    eexists. split; [reflexivity|]. split; [unfold ac_ok; split_and!; cbn; auto using set_access_wf|]. intros ip Hip.
    change (pmask 32) with 0. rewrite !Z.land_0_r. unfold answer. cbn [set_root m_ipCtrl m_pRoot].
    destruct (m_ipCtrl ac !! ip); [reflexivity|]. rewrite set_access_root by assumption. reflexivity. }
  assert (Hlm : 0 < pmask s) by (pose proof (pmask_valid s Hs) as Hpv; unfold valid in Hpv; lia).
  set (leaf := Node (Z.land subNet (pmask s)) (pmask s) allowed []).
  assert (Hnet : net leaf).
  { exists s. unfold hit. cbn. rewrite <- Z.land_assoc, Z.land_diag. split_and!; auto; try lia.
    rewrite land_pmask by assumption. unfold valid in *.
    rewrite Z.shiftl_mul_pow2, Z.shiftr_div_pow2 by lia.
    pose proof (Z.mul_div_le subNet (2 ^ s) ltac:(apply Z.pow_pos_nonneg; lia)).
    pose proof (Z.div_pos subNet (2 ^ s) ltac:(lia) ltac:(apply Z.pow_pos_nonneg; lia)). nia. }
  destruct (insertChild_ok (depth (m_pRoot ac)) (m_pRoot ac) leaf) as (n' & Hn' & (Hw' & Hi' & Hm' & Hlk) & _);
    auto.
  { split; [cbn; lia|]. intros ip Hip _. unfold hit. rewrite Hm, Hi. apply Z.land_0_r. }
  unfold insertNet. fold leaf. rewrite Hn'. eexists. split; [reflexivity|].
  split; [unfold ac_ok; split_and!; cbn; first [assumption|congruence]|]. intros ip Hip.
  unfold answer. cbn [set_root m_ipCtrl m_pRoot]. destruct (m_ipCtrl ac !! ip) as [a|] eqn:El.
  - unfold lpm_update. cbn [fst]. replace (2 ^ 32 - 1 <=? pmask s) with false; [rewrite andb_false_r; reflexivity|].
    symmetry. apply Z.leb_gt. pose proof (pmask_valid s Hs) as Hpv. unfold valid in Hpv. lia.
  - rewrite Hlk; [reflexivity|assumption|]. unfold hit. rewrite Hm, Hi. apply Z.land_0_r.
Qed.

(** A configuration: subnet address, host bits and access, in order. *)
Definition rule : Type := Z * Z * Z.
Definition rule_ok (r : rule) : Prop := let '(sn, s, _) := r in valid sn /\ 0 <= s <= 32.

Definition add_rules (ac : access_control) (rules : list rule) : access_control :=
  fold_left (fun ac '(sn, s, a) => snd (addSubNet4 ac sn (pmask s) a)) rules ac.

(** The reference: scan all the rules, keep the longest prefix, last one first. *)
Definition lpm_ref (rules : list rule) (ip dflt : Z) : Z :=
  snd (fold_left (fun best '(sn, s, a) =>
         lpm_update best (Z.land ip (pmask s) =? Z.land sn (pmask s)) (pmask s) a) rules (0, dflt)).

(** C16: a whole IPv4 configuration answers as the linear scan that keeps the
    longest matching prefix (the last rule winning between equal prefixes),
    with access allowed by default: the tree is an implementation of it. *)
Theorem insert_then_lookup rules ip :
  Forall rule_ok rules -> valid ip ->
  hasAccess4 (add_rules new_access_control rules) ip = lpm_ref rules ip 1.
Proof.
  intros Hr Hv. rewrite hasAccess4_answer. unfold lpm_ref, add_rules. f_equal.
  change (0, 1) with (answer new_access_control ip). generalize new_ac_ok.
  generalize new_access_control. induction Hr as [|[[sn s] a] rules [Hsn Hs] Hr IH]; intros ac Hac; [reflexivity|].
  cbn [fold_left]. destruct (addSubNet4_lpm ac sn s a Hac Hs Hsn) as (ac' & Heq & Hac' & Hans).
  rewrite Heq. cbn [snd]. rewrite IH by assumption. f_equal. apply Hans, Hv.
Qed.

(** ** IPv6 *)

(** IPv6 insertion is not longest prefix match.  With one rule for the
    prefix [base]/long present, adding the shorter prefix [base]/short (for the
    same base address) puts the new rule under the old one: every address that
    the long prefix does not cover keeps the default answer, although the new
    rule covers it, and the addresses of the long prefix get the new answer. *)
Theorem ipv6_shorter_prefix_lost base long short a1 a2 dflt ip :
  Z.land base long = base -> Z.land base short = base -> long <> short ->
  long <> 0 -> long <> 2 ^ 128 - 1 -> short <> 0 -> short <> 2 ^ 128 - 1 ->
  is_v4mapped base = false ->
  exists r ac, addSubNet6 (AC (Node 0 0 1 []) ∅ (Node 0 0 dflt [Node base long a1 []]) None) base short a2 = (r, ac) /\
    r = 0 /\
    (Z.land ip long <> base -> hasAccess6 ac ip = dflt) /\
    (Z.land ip long = base -> Z.land ip short = base -> hasAccess6 ac ip = a2).
Proof.
  intros Hl Hs Hne Hl0 Hl1 Hs0 Hs1 Hv. unfold addSubNet6. rewrite Hv.
  rewrite (proj2 (Z.eqb_neq short (2 ^ 128 - 1)) Hs1), (proj2 (Z.eqb_neq short 0) Hs0).
  cbn -[Z.land Z.eqb Z.pow Z.sub]. rewrite Hl, Z.eqb_refl, (proj2 (Z.eqb_neq long short) Hne).
  cbn -[Z.land Z.eqb Z.pow Z.sub]. eexists _, _. split; [reflexivity|]. split; [reflexivity|].
  unfold hasAccess6. cbn -[Z.land Z.eqb Z.pow Z.sub]. rewrite Hs.
  split; intros Hi.
  - rewrite (proj2 (Z.eqb_neq _ _) Hi). reflexivity.
  - intros Hj. rewrite Hi, Z.eqb_refl. cbn -[Z.land Z.eqb Z.pow Z.sub]. rewrite Hj, Z.eqb_refl. reflexivity.
Qed.

(** [clear] forgets subnets and IPv4 addresses but not single IPv6
    addresses: a rule for one still answers after it. *)
Theorem clear_keeps_ipv6 ac ip a :
  is_v4mapped ip = false -> ip <> 0 ->
  hasAccess6 (clear (snd (addIP6 ac ip a))) ip = a /\
  (forall ip4, hasAccess4 (clear (snd (addIP6 ac ip a))) ip4 = m_iAllowed (m_pRoot ac)).
Proof.
  intros Hv H0. unfold addIP6. rewrite Hv, (proj2 (Z.eqb_neq ip 0) H0). split.
  - unfold hasAccess6. cbn. rewrite lookup_insert_eq. reflexivity.
  - intros ip4. unfold hasAccess4. cbn. rewrite lookup_empty. reflexivity.
Qed.

(** ** Netmasks *)

Lemma span_all p l : forallb p l = true -> span p l = (l, []).
Proof.
  induction l as [|c l IH]; cbn; [reflexivity|]. intros H. apply andb_true_iff in H as [-> H].
  rewrite IH by assumption. reflexivity.
Qed.

Lemma dec_val_nonneg ds : forallb isdigit ds = true -> 0 <= dec_val ds.
Proof.
  unfold dec_val. assert (H : forall a, 0 <= a -> forallb isdigit ds = true ->
    0 <= fold_left (fun a c => a * 10 + (c - 48)) ds a); [|apply H; lia].
  induction ds as [|c ds IH]; cbn; [lia|]. intros a Ha Hd. apply andb_true_iff in Hd as [Hc Hd].
  apply IH; [unfold isdigit in Hc; lia|assumption].
Qed.

Lemma mask_bytes_val bits maxbits :
  (maxbits = 32 \/ maxbits = 128) -> 0 <= bits < maxbits ->
  be_val (mask_bytes bits maxbits) = 2 ^ maxbits - 2 ^ (maxbits - bits).
Proof.
  intros [-> | ->] Hb; apply Z.eqb_eq.
  - apply (range_forall (fun b => be_val (mask_bytes b 32) =? 2 ^ 32 - 2 ^ (32 - b)) 0 32); [vm_compute; reflexivity|lia].
  - apply (range_forall (fun b => be_val (mask_bytes b 128) =? 2 ^ 128 - 2 ^ (128 - b)) 0 128); [vm_compute; reflexivity|lia].
Qed.

(** A prefix length written in decimal and smaller than the width gives
    the mask with that many leading ones; the full width ("/32", "/128") is
    refused unless [inet_pton] reads it as an address. *)
Theorem parseNetmask_prefix inet_pton4 ds maxbits :
  ds <> [] -> forallb isdigit ds = true -> maxbits = 32 \/ maxbits = 128 ->
  (dec_val ds < maxbits ->
     parseNetmask inet_pton4 ds maxbits = Some (2 ^ maxbits - 2 ^ (maxbits - dec_val ds))) /\
  (dec_val ds = maxbits ->
     parseNetmask inet_pton4 ds maxbits = if maxbits =? 32 then inet_pton4 ds else None).
Proof.
  intros Hne Hd Hm. destruct ds as [|c ds]; [congruence|].
  assert (Hc : isdigit c = true) by (cbn in Hd; apply andb_true_iff in Hd; tauto).
  pose proof (dec_val_nonneg _ Hd) as Hv. unfold parseNetmask. rewrite Hc. cbn [negb].
  unfold strtol10. rewrite (span_all _ _ Hd). change (zlen (@nil Z) =? 0) with true. cbn [andb].
  split; intros Hlt.
  - assert (Hw : wraps 32 (Z.min (dec_val (c :: ds)) INT64_MAX) = dec_val (c :: ds)).
    { unfold INT64_MAX. rewrite Z.min_l by lia. apply wraps_small; lia. }
    rewrite Hw. replace (dec_val (c :: ds) >=? 0) with true by lia.
    replace (dec_val (c :: ds) <? maxbits) with true by lia. cbn [andb].
    rewrite mask_bytes_val by (auto; lia). reflexivity.
  - rewrite Hlt. destruct Hm as [-> | ->]; reflexivity.
Qed.

(** ** Witnesses *)

(** 10.0.0.0/8 denied, 10.1.0.0/16 trusted, 10.1.2.3 denied, in that order. *)
Definition sample_rules : list rule :=
  [(167772160, 24, 0); (167837696, 16, 2); (167838211, 0, 0)].

Lemma insert_then_lookup_witness :
  (Forall rule_ok sample_rules /\ valid 167838212) /\
  hasAccess4 (add_rules new_access_control sample_rules) 167838212 = lpm_ref sample_rules 167838212 1.
Proof.
  assert (Forall rule_ok sample_rules) by (repeat constructor; unfold valid; lia).
  assert (valid 167838212) by (unfold valid; lia).
  split; [split; assumption|]. apply (insert_then_lookup sample_rules); assumption.
Defined.

Lemma ipv6_shorter_prefix_lost_witness :
  let base := 2 ^ 125 in let long := 2 ^ 128 - 2 ^ 64 in let short := 2 ^ 128 - 2 ^ 96 in
  exists r ac, addSubNet6 (AC (Node 0 0 1 []) ∅ (Node 0 0 1 [Node base long 2 []]) None) base short 0 = (r, ac) /\
    r = 0 /\
    (Z.land (base + 2 ^ 80) long <> base -> hasAccess6 ac (base + 2 ^ 80) = 1) /\
    (Z.land (base + 2 ^ 80) long = base -> Z.land (base + 2 ^ 80) short = base -> hasAccess6 ac (base + 2 ^ 80) = 0).
Proof.
  apply (ipv6_shorter_prefix_lost (2 ^ 125) (2 ^ 128 - 2 ^ 64) (2 ^ 128 - 2 ^ 96) 2 0 1 (2 ^ 125 + 2 ^ 80));
    vm_compute; congruence.
Defined.

Lemma clear_keeps_ipv6_witness :
  let ac := new_access_control in
  hasAccess6 (clear (snd (addIP6 ac (2 ^ 125 + 1) 0))) (2 ^ 125 + 1) = 0 /\
  (forall ip4, hasAccess4 (clear (snd (addIP6 ac (2 ^ 125 + 1) 0))) ip4 = 1).
Proof.
  apply (clear_keeps_ipv6 new_access_control (2 ^ 125 + 1) 0); vm_compute; congruence.
Defined.

Lemma parseNetmask_prefix_witness :
  (dec_val (bs "24") < 32 ->
     parseNetmask (fun _ => None) (bs "24") 32 = Some (2 ^ 32 - 2 ^ (32 - dec_val (bs "24")))) /\
  (dec_val (bs "24") = 32 ->
     parseNetmask (fun _ => None) (bs "24") 32 = if 32 =? 32 then None else None).
Proof.
  apply (parseNetmask_prefix (fun _ => None) (bs "24") 32); [discriminate|reflexivity|left; reflexivity].
Defined.
