(* ===== verification/Range.v ===== *)
(** * HttpRange: the Range request header and multipart/byteranges bodies

    src/src/http/httprange.{h,cpp} and the part of
    src/src/http/staticfilehandler.cpp that sends several ranges
    ([sendMultipart]).  [off_t] is a 64-bit integer kept as [Z], with
    saturation written out where the code saturates.  [log10] of the C library
    is a parameter; the session that takes the bytes is the class [Session]. *)

From S2P Require Import Prelude.

(** ** Byte ranges *)

Record ByteRange := BR { m_lBegin : Z; m_lEnd : Z }.

Definition LS_FAIL : Z := -1.

Definition appendRangeDigit (value digit : Z) : Z :=
  if value >? (INT64_MAX - digit) / 10 then INT64_MAX else value * 10 + digit.

Definition check (r : ByteRange) (entityLen : Z) : Z * ByteRange :=
  if entityLen >? 0 then
    let r :=
      if m_lBegin r =? -1 then
        let b := entityLen - m_lEnd r in
        BR (if b <? 0 then 0 else b) (entityLen - 1)
      else r in
    let r :=
      if (m_lEnd r =? -1) || (m_lEnd r >=? entityLen) then BR (m_lBegin r) (entityLen - 1) else r in
    if m_lEnd r <? m_lBegin r then (LS_FAIL, r) else (0, r)
  else (0, r).

Definition getLen (r : ByteRange) : Z := m_lEnd r - m_lBegin r + 1.

Definition MAX_PART_HEADER_LEN : Z := 384.

Record HttpRange := HR {
  m_array : list ByteRange;
  m_lEntityLen : Z;
  m_iCurRange : Z;
  m_boundary : list Z;
  m_partHeader : list Z;      (** [m_partHeaderBuf] up to [m_pPartHeaderEnd] *)
  m_pCurHeaderPos : Z         (** an offset into it *)
}.

Definition new_HttpRange (entityLen : Z) : HttpRange := HR [] entityLen 0 [] [] 0.

Definition set_array (h : HttpRange) (a : list ByteRange) : HttpRange :=
  HR a (m_lEntityLen h) (m_iCurRange h) (m_boundary h) (m_partHeader h) (m_pCurHeaderPos h).

Definition count (h : HttpRange) : Z := zlen (m_array h).

(** [checkAndInsert]: the value returned, the range as [check] leaves it, and
    the array. *)
Definition checkAndInsert (L : Z) (a : list ByteRange) (r : ByteRange) : Z * ByteRange * list ByteRange :=
  if (m_lBegin r =? -1) && (m_lEnd r =? -1) then (LS_FAIL, r, a)
  else if L >? 0 then
    if m_lBegin r >=? L then (0, r, a)
    else
      let '(ret, r) := check r L in
      if negb (ret =? 0) then (LS_FAIL, r, a) else (0, r, a ++ [r])
  else (0, r, a ++ [r]).

(** ** Parsing the header *)

Inductive code := SC_0 | SC_200 | SC_400 | SC_416.

Record pstate := PS {
  state : Z;
  range : ByteRange;
  lValue : Z;
  total : Z;
  ranges : list ByteRange
}.

Definition set_state (p : pstate) (s : Z) : pstate := PS s (range p) (lValue p) (total p) (ranges p).
Definition take_begin (p : pstate) (s : Z) : pstate :=
  PS s (BR (lValue p) (m_lEnd (range p))) 0 (total p) (ranges p).
Definition take_end (p : pstate) (s : Z) : pstate :=
  PS s (BR (m_lBegin (range p)) (lValue p)) 0 (total p) (ranges p).

(** The end of a range unit, in states 2, 3 and 5; the code returns at once
    when the ranges overlap too much. *)
Definition unit_end (L : Z) (p : pstate) : pstate + code * list ByteRange :=
  let '(ret, r, a) := checkAndInsert L (ranges p) (range p) in
  if ret =? -1 then inl (PS 6 r (lValue p) (total p) a)
  else
    let rangeLen := getLen r in
    let grown := (L >=? 0) && (zlen a >? zlen (ranges p)) in
    if grown && ((rangeLen <? 0) || (total p >? L - rangeLen)) then inr (SC_200, a)
    else inl (PS 0 (BR (-1) (-1)) (lValue p) (if grown then total p + rangeLen else total p) a).

(** One character ([ch] is 0 at the end of the string or line). *)
Definition parse_char (L ch : Z) (p : pstate) : pstate + code * list ByteRange :=
  let s := state p in
  if (ch =? 32) || (ch =? 9) then
    if s =? 1 then inl (take_begin p 4)
    else if s =? 3 then inl (take_end p 5)
    else inl p
  else if isdigit ch then
    if (s =? 0) || (s =? 2) then inl (PS (s + 1) (range p) (ch - 48) (total p) (ranges p))
    else if (s =? 1) || (s =? 3) then
      inl (PS s (range p) (appendRangeDigit (lValue p) (ch - 48)) (total p) (ranges p))
    else inl (set_state p 6)
  else if ch =? 45 then
    if s =? 1 then inl (take_begin p 2)
    else if (s =? 0) || (s =? 4) then inl (set_state p 2)
    else inl (set_state p 6)
  else if (ch =? 44) || (ch =? 0) then
    if s =? 3 then unit_end L (take_end p 3)
    else if (s =? 2) || (s =? 5) then unit_end L p
    else if (s =? 1) || (s =? 4) then inl (set_state p 6)
    else if negb (ch =? 0) then inl (set_state p 6)
    else inl p
  else inl (set_state p 6).

Definition is_eol (ch : Z) : bool := (ch =? 13) || (ch =? 10) || (ch =? 0).

(** The [while (state != 6)] loop; the text ends with its NUL, read as [[]]. *)
Fixpoint parse_loop (L : Z) (l : list Z) (p : pstate) : pstate + code * list ByteRange :=
  if state p =? 6 then inl p
  else match l with
       | [] => parse_char L 0 p
       | ch :: l' =>
           if is_eol ch then parse_char L 0 p
           else match parse_char L ch p with
                | inl p' => parse_loop L l' p'
                | inr c => inr c
                end
       end.

Definition parse_result (r : pstate + code * list ByteRange) : code * list ByteRange :=
  match r with
  | inr ca => ca
  | inl p => if state p =? 6 then (SC_400, [])
             else if zlen (ranges p) =? 0 then (SC_416, []) else (SC_0, ranges p)
  end.

(** [parse]; on [SC_200] the array is left as it is, and the caller frees the
    object on every result but 0. *)
Definition parse (h : HttpRange) (pRange : list Z) : code * HttpRange :=
  if negb (strcaseeq (ztake 6 pRange) (bs "bytes=")) then (SC_400, set_array h [])
  else
    let rest := snd (span isspace (zdrop 6 pRange)) in
    match rest with
    | [] => (SC_400, set_array h [])
    | ch :: _ =>
        if ch =? 0 then (SC_400, set_array h [])
        else
          let '(c, a) :=
            parse_result (parse_loop (m_lEntityLen h) rest (PS 0 (BR (-1) (-1)) 0 0 [])) in
          (c, set_array h a)
    end.

(** ** The reference reading of the header *)

(** A byte-range-spec: two runs of digits, either of which may be empty, with
    blanks before, between and after. *)
Record unit_text := UT {
  u_first : list Z; u_last : list Z;
  u_ws1 : list Z; u_ws2 : list Z; u_ws3 : list Z; u_ws4 : list Z
}.

Definition is_blank (c : Z) : bool := (c =? 32) || (c =? 9).

Definition unit_ok (u : unit_text) : Prop :=
  forallb isdigit (u_first u) = true /\ forallb isdigit (u_last u) = true /\
  forallb is_blank (u_ws1 u) = true /\ forallb is_blank (u_ws2 u) = true /\
  forallb is_blank (u_ws3 u) = true /\ forallb is_blank (u_ws4 u) = true.

Definition render_unit (u : unit_text) : list Z :=
  u_ws1 u ++ u_first u ++ u_ws2 u ++ [45] ++ u_ws3 u ++ u_last u ++ u_ws4 u.

(** The units, comma separated, then the end of the string or line. *)
Fixpoint render (us : list unit_text) (tail : list Z) : list Z :=
  match us with
  | [] => []
  | [u] => render_unit u ++ tail
  | u :: us => render_unit u ++ [44] ++ render us tail
  end.

(** A number saturates at the largest offset; no digits is -1. *)
Definition num_val (ds : list Z) : Z :=
  match ds with [] => -1 | _ => Z.min (dec_val ds) INT64_MAX end.

Inductive resolved := Bad | Skip | Keep (first last : Z).

(** What a spec selects of an entity of [L > 0] bytes. *)
Definition resolve (L a b : Z) : resolved :=
  if (a =? -1) && (b =? -1) then Bad
  else if a >=? L then Skip
  else
    let first := if a =? -1 then Z.max 0 (L - b) else a in
    let last := if (a =? -1) || (b =? -1) then L - 1 else Z.min b (L - 1) in
    if last <? first then Bad else Keep first last.

Fixpoint ref_parse (L : Z) (us : list unit_text) (tot : Z) (acc : list ByteRange) : code * list ByteRange :=
  match us with
  | [] => if zlen acc =? 0 then (SC_416, []) else (SC_0, acc)
  | u :: us =>
      match resolve L (num_val (u_first u)) (num_val (u_last u)) with
      | Bad => (SC_400, [])
      | Skip => ref_parse L us tot acc
      | Keep f l =>
          if tot + (l - f + 1) >? L then (SC_200, acc ++ [BR f l])
          else ref_parse L us (tot + (l - f + 1)) (acc ++ [BR f l])
      end
  end.

(** ** Numbers *)

Lemma append_min v d : 0 <= v -> 0 <= d <= 9 ->
  appendRangeDigit (Z.min v INT64_MAX) d = Z.min (v * 10 + d) INT64_MAX.
Proof.
  intros Hv Hd. unfold appendRangeDigit, INT64_MAX.
  pose proof (Z.div_mod (9223372036854775807 - d) 10 ltac:(lia)).
  pose proof (Z.mod_pos_bound (9223372036854775807 - d) 10 ltac:(lia)).
  destruct (Z.min v 9223372036854775807 >? (9223372036854775807 - d) / 10) eqn:E; lia.
Qed.

Lemma dec_fold_nonneg ds : forall a, forallb isdigit ds = true -> 0 <= a ->
  0 <= fold_left (fun a c => a * 10 + (c - 48)) ds a.
Proof.
  induction ds as [|c ds IH]; cbn; intros a Hd Ha; [assumption|].
  apply andb_true_iff in Hd as [Hc Hd]. unfold isdigit in Hc. apply IH; [assumption|lia].
Qed.

Lemma append_fold ds : forall a, forallb isdigit ds = true -> 0 <= a ->
  fold_left (fun v c => appendRangeDigit v (c - 48)) ds (Z.min a INT64_MAX) =
  Z.min (fold_left (fun a c => a * 10 + (c - 48)) ds a) INT64_MAX.
Proof.
  induction ds as [|c ds IH]; cbn; intros a Hd Ha; [reflexivity|].
  apply andb_true_iff in Hd as [Hc Hd]. unfold isdigit in Hc.
  rewrite append_min by lia. apply IH; [assumption|lia].
Qed.

(** ** The parser on the parts of a unit *)

Definition num_state (s : Z) : Prop := s = 0 \/ s = 2.

Lemma parse_char_digit L c p : isdigit c = true ->
  parse_char L c p =
    if (state p =? 0) || (state p =? 2) then inl (PS (state p + 1) (range p) (c - 48) (total p) (ranges p))
    else if (state p =? 1) || (state p =? 3) then
      inl (PS (state p) (range p) (appendRangeDigit (lValue p) (c - 48)) (total p) (ranges p))
    else inl (set_state p 6).
Proof.
  intros Hc. unfold parse_char. rewrite Hc. unfold isdigit in Hc.
  replace ((c =? 32) || (c =? 9)) with false by lia. reflexivity.
Qed.

Lemma parse_loop_step L c l p :
  state p <> 6 -> is_eol c = false ->
  parse_loop L (c :: l) p =
    match parse_char L c p with inl p' => parse_loop L l p' | inr c => inr c end.
Proof. intros Hs He. cbn [parse_loop]. replace (state p =? 6) with false by lia. rewrite He. reflexivity. Qed.

Lemma digit_not_eol c : isdigit c = true -> is_eol c = false.
Proof. unfold isdigit, is_eol. lia. Qed.

Lemma loop_more_digits L ds l : forall p, forallb isdigit ds = true -> state p = 1 \/ state p = 3 ->
  parse_loop L (ds ++ l) p =
  parse_loop L l (PS (state p) (range p) (fold_left (fun v c => appendRangeDigit v (c - 48)) ds (lValue p))
                     (total p) (ranges p)).
Proof.
  induction ds as [|c ds IH]; intros p Hd Hs; [destruct p; reflexivity|].
  cbn in Hd. apply andb_true_iff in Hd as [Hc Hd]. cbn [app].
  rewrite parse_loop_step by (try apply digit_not_eol; auto; lia).
  rewrite parse_char_digit by assumption.
  replace ((state p =? 0) || (state p =? 2)) with false by lia.
  replace ((state p =? 1) || (state p =? 3)) with true by lia.
  rewrite IH by auto. reflexivity.
Qed.

Lemma loop_digits L ds l p : ds <> [] -> forallb isdigit ds = true -> num_state (state p) ->
  parse_loop L (ds ++ l) p =
  parse_loop L l (PS (state p + 1) (range p) (num_val ds) (total p) (ranges p)).
Proof.
  intros Hne Hd Hs. destruct ds as [|c ds]; [congruence|]. unfold num_state in Hs.
  cbn in Hd. apply andb_true_iff in Hd as [Hc Hd]. cbn [app].
  rewrite parse_loop_step by (try apply digit_not_eol; auto; lia).
  rewrite parse_char_digit by assumption. replace ((state p =? 0) || (state p =? 2)) with true by lia.
  rewrite loop_more_digits by (cbn; auto; lia). cbn [state range lValue total ranges].
  unfold num_val, dec_val. cbn [fold_left]. unfold isdigit in Hc.
  rewrite <- append_fold by (assumption || lia). do 3 f_equal. unfold INT64_MAX. lia.
Qed.

Lemma parse_char_blank L c p : is_blank c = true ->
  parse_char L c p = if state p =? 1 then inl (take_begin p 4)
                     else if state p =? 3 then inl (take_end p 5) else inl p.
Proof. unfold is_blank. intros Hc. unfold parse_char. rewrite Hc. reflexivity. Qed.

Lemma blank_not_eol c : is_blank c = true -> is_eol c = false.
Proof. unfold is_blank, is_eol. lia. Qed.

Lemma loop_blanks L ws l p : forallb is_blank ws = true ->
  state p = 0 \/ state p = 2 \/ state p = 4 \/ state p = 5 ->
  parse_loop L (ws ++ l) p = parse_loop L l p.
Proof.
  intros Hw Hs. induction ws as [|c ws IH]; [reflexivity|].
  cbn in Hw. apply andb_true_iff in Hw as [Hc Hw]. cbn [app].
  rewrite parse_loop_step by (try apply blank_not_eol; auto; lia). rewrite parse_char_blank by assumption.
  replace (state p =? 1) with false by lia. replace (state p =? 3) with false by lia. auto.
Qed.

(** After a number: blanks store it, and so does what may follow. *)
Lemma loop_blanks_num L ws l p : forallb is_blank ws = true -> ws <> [] -> state p = 1 \/ state p = 3 ->
  parse_loop L (ws ++ l) p =
  parse_loop L l (if state p =? 1 then take_begin p 4 else take_end p 5).
Proof.
  intros Hw Hne Hs. destruct ws as [|c ws]; [congruence|].
  cbn in Hw. apply andb_true_iff in Hw as [Hc Hw]. cbn [app].
  rewrite parse_loop_step by (try apply blank_not_eol; auto; lia). rewrite parse_char_blank by assumption.
  destruct Hs as [Hs|Hs]; rewrite Hs; cbn [Z.eqb Pos.eqb]; apply loop_blanks; auto.
Qed.

Lemma loop_first L a ws1 ws2 l lv t rs :
  forallb isdigit a = true -> forallb is_blank ws1 = true -> forallb is_blank ws2 = true ->
  exists lv', parse_loop L (ws1 ++ a ++ ws2 ++ 45 :: l) (PS 0 (BR (-1) (-1)) lv t rs) =
              parse_loop L l (PS 2 (BR (num_val a) (-1)) lv' t rs).
Proof.
  intros Ha Hw1 Hw2. rewrite loop_blanks by auto. destruct a as [|c a].
  - exists lv. cbn [app num_val]. rewrite loop_blanks by auto.
    rewrite parse_loop_step by (reflexivity || discriminate). reflexivity.
  - rewrite loop_digits by (auto; try discriminate; left; reflexivity). cbn [state range total ranges].
    exists 0. destruct ws2 as [|w ws2].
    + cbn [app]. rewrite parse_loop_step by (reflexivity || discriminate). reflexivity.
    + rewrite loop_blanks_num by (auto; try discriminate; left; reflexivity). cbn [state Z.eqb Pos.eqb].
      rewrite parse_loop_step by (reflexivity || discriminate). reflexivity.
Qed.

(** What follows a unit: a comma and more units, or the end. *)
Definition sep_ok (l : list Z) : Prop :=
  match l with [] => True | c :: _ => c = 44 \/ is_eol c = true end.

Definition after_unit (L : Z) (l : list Z) (r : pstate + code * list ByteRange) : pstate + code * list ByteRange :=
  match r with
  | inl p => match l with c :: l' => if c =? 44 then parse_loop L l' p else inl p | [] => inl p end
  | inr c => inr c
  end.

Lemma loop_sep L l s r lv t rs : sep_ok l -> s = 2 \/ s = 3 \/ s = 5 ->
  parse_loop L l (PS s r lv t rs) =
  after_unit L l (unit_end L (if s =? 3 then PS 3 (BR (m_lBegin r) lv) 0 t rs else PS s r lv t rs)).
Proof.
  intros Hl Hs.
  assert (Hc : forall ch, ch = 44 \/ ch = 0 -> parse_char L ch (PS s r lv t rs) =
    unit_end L (if s =? 3 then PS 3 (BR (m_lBegin r) lv) 0 t rs else PS s r lv t rs)).
  { intros ch Hch. unfold parse_char. cbn [state]. destruct Hch as [-> | ->], Hs as [-> | [-> | ->]]; reflexivity. }
  destruct l as [|c l]; cbn [parse_loop state].
  - replace (s =? 6) with false by lia. rewrite Hc by auto. unfold after_unit. destruct (unit_end _ _); reflexivity.
  - replace (s =? 6) with false by lia. cbn in Hl. unfold after_unit.
    destruct (is_eol c) eqn:E.
    + rewrite Hc by auto. replace (c =? 44) with false by (unfold is_eol in E; lia).
      destruct (unit_end _ _); reflexivity.
    + destruct Hl as [-> |Hl]; [|congruence]. rewrite Hc by auto. reflexivity.
Qed.

Lemma loop_last L b ws3 ws4 l va lv t rs :
  forallb isdigit b = true -> forallb is_blank ws3 = true -> forallb is_blank ws4 = true -> sep_ok l ->
  exists s lv', parse_loop L (ws3 ++ b ++ ws4 ++ l) (PS 2 (BR va (-1)) lv t rs) =
                after_unit L l (unit_end L (PS s (BR va (num_val b)) lv' t rs)).
Proof.
  intros Hb Hw3 Hw4 Hl. rewrite loop_blanks by auto. destruct b as [|c b].
  - exists 2, lv. cbn [app num_val]. rewrite loop_blanks by auto. rewrite loop_sep by auto. reflexivity.
  - rewrite loop_digits by (auto; try discriminate; right; reflexivity). cbn [state range total ranges].
    destruct ws4 as [|w ws4].
    + exists 3, 0. cbn [app]. rewrite loop_sep by auto. reflexivity.
    + exists 5, 0. rewrite loop_blanks_num by (auto; try discriminate; right; reflexivity).
      change (2 + 1) with 3. cbn [state]. change (3 =? 1) with false. cbv iota. unfold take_end.
      cbn [range m_lBegin lValue total ranges]. rewrite loop_sep by auto. reflexivity.
Qed.

Lemma unit_loop L u l lv t rs : unit_ok u -> sep_ok l ->
  exists s lv', parse_loop L (render_unit u ++ l) (PS 0 (BR (-1) (-1)) lv t rs) =
    after_unit L l (unit_end L (PS s (BR (num_val (u_first u)) (num_val (u_last u))) lv' t rs)).
Proof.
  intros (Ha & Hb & H1 & H2 & H3 & H4) Hl. unfold render_unit. rewrite <- !app_assoc. cbn [app].
  destruct (loop_first L (u_first u) (u_ws1 u) (u_ws2 u) (u_ws3 u ++ u_last u ++ u_ws4 u ++ l) lv t rs Ha H1 H2)
    as [lv1 ->].
  apply loop_last; assumption.
Qed.

(** ** Valid ranges *)

Definition valid (L : Z) (r : ByteRange) : Prop := 0 <= m_lBegin r /\ m_lBegin r <= m_lEnd r /\ m_lEnd r < L.
Definition total_len (a : list ByteRange) : Z := fold_right (fun r n => getLen r + n) 0 a.

#[global] Arguments total_len : simpl never.

Lemma total_len_app a b : total_len (a ++ b) = total_len a + total_len b.
Proof. unfold total_len. induction a as [|r a IH]; cbn [app fold_right]; lia. Qed.

Lemma num_val_range ds : forallb isdigit ds = true -> -1 <= num_val ds <= INT64_MAX.
Proof.
  intros Hd. destruct ds as [|c ds]; [cbn; unfold INT64_MAX; lia|]. unfold num_val, dec_val.
  pose proof (dec_fold_nonneg (c :: ds) 0 Hd ltac:(lia)). unfold INT64_MAX. lia.
Qed.

(** [checkAndInsert] is [resolve]. *)
Lemma checkAndInsert_resolve L rs a b : 0 < L -> -1 <= a -> -1 <= b ->
  match resolve L a b with
  | Bad => exists r, checkAndInsert L rs (BR a b) = (-1, r, rs)
  | Skip => exists r, checkAndInsert L rs (BR a b) = (0, r, rs)
  | Keep f l => checkAndInsert L rs (BR a b) = (0, BR f l, rs ++ [BR f l]) /\ valid L (BR f l)
  end.
Proof.
  intros HL Ha Hb. unfold resolve, checkAndInsert, check, valid, LS_FAIL. cbn [m_lBegin m_lEnd].
  destruct ((a =? -1) && (b =? -1)) eqn:E0; [eauto|].
  replace (L >? 0) with true by lia. destruct (a >=? L) eqn:E1; [eauto|].
  destruct (a =? -1) eqn:E2; cbn [orb m_lBegin m_lEnd].
  - replace (L - 1 =? -1) with false by lia. replace (L - 1 >=? L) with false by lia. cbn [orb].
    replace (if L - b <? 0 then 0 else L - b) with (Z.max 0 (L - b)) by (destruct (L - b <? 0) eqn:?; lia).
    destruct (L - 1 <? Z.max 0 (L - b)) eqn:E3; cbn [m_lBegin m_lEnd]; rewrite E3; cbn; [eauto|].
    split; [reflexivity|]. lia.
  - destruct (b =? -1) eqn:E3; cbn [orb m_lBegin m_lEnd].
    + destruct (L - 1 <? a) eqn:E4; cbn; [eauto|]. split; [reflexivity|lia].
    + destruct (b >=? L) eqn:E4; cbn [m_lBegin m_lEnd].
      * replace (Z.min b (L - 1)) with (L - 1) by lia. destruct (L - 1 <? a) eqn:E5; cbn; [eauto|].
        split; [reflexivity|lia].
      * replace (Z.min b (L - 1)) with b by lia. destruct (b <? a) eqn:E5; cbn; [eauto|].
        split; [reflexivity|lia].
Qed.

Lemma unit_end_resolve L s lv t rs a b : 0 < L -> -1 <= a -> -1 <= b ->
  match resolve L a b with
  | Bad => exists p, unit_end L (PS s (BR a b) lv t rs) = inl p /\ state p = 6
  | Skip => unit_end L (PS s (BR a b) lv t rs) = inl (PS 0 (BR (-1) (-1)) lv t rs)
  | Keep f l =>
      valid L (BR f l) /\
      unit_end L (PS s (BR a b) lv t rs) =
        if t + (l - f + 1) >? L then inr (SC_200, rs ++ [BR f l])
        else inl (PS 0 (BR (-1) (-1)) lv (t + (l - f + 1)) (rs ++ [BR f l]))
  end.
Proof.
  intros HL Ha Hb. pose proof (checkAndInsert_resolve L rs a b HL Ha Hb) as Hci. unfold unit_end.
  cbn [ranges range lValue total]. destruct (resolve L a b) as [| |f l].
  - destruct Hci as [r ->]. cbn. eauto.
  - destruct Hci as [r ->]. cbn [Z.eqb]. replace (zlen rs >? zlen rs) with false by lia.
    rewrite andb_false_r. reflexivity.
  - destruct Hci as [-> Hv]. split; [exact Hv|]. unfold getLen. cbn [Z.eqb m_lBegin m_lEnd].
    rewrite zlen_app. change (zlen [BR f l]) with 1. destruct Hv as (? & ? & ?). cbn in *.
    replace (L >=? 0) with true by lia. replace (zlen rs + 1 >? zlen rs) with true by lia. cbn [andb].
    replace (l - f + 1 <? 0) with false by lia. cbn [orb].
    destruct (t >? L - (l - f + 1)) eqn:E.
    + replace (t + (l - f + 1) >? L) with true by lia. reflexivity.
    + replace (t + (l - f + 1) >? L) with false by lia. reflexivity.
Qed.

Lemma parse_stop L l p : state p = 6 -> parse_loop L l p = inl p.
Proof. intros Hs. destruct l; cbn; rewrite Hs; reflexivity. Qed.

Lemma render_cons u us tail : us <> [] -> render (u :: us) tail = render_unit u ++ 44 :: render us tail.
Proof. destruct us; [congruence|reflexivity]. Qed.

(** The end of the text: the string, or its line, is over. *)
Definition tail_ok (tail : list Z) : Prop := match tail with [] => True | c :: _ => is_eol c = true end.

Lemma parse_units L tail us : forall t rs lv,
  0 < L -> us <> [] -> Forall unit_ok us -> tail_ok tail ->
  parse_result (parse_loop L (render us tail) (PS 0 (BR (-1) (-1)) lv t rs)) = ref_parse L us t rs.
Proof.
  induction us as [|u us IH]; intros t rs lv HL Hne Hu Ht; [congruence|].
  inversion Hu as [|? ? Hu1 Hus]; subst. cbn [ref_parse].
  assert (Hva : -1 <= num_val (u_first u)) by (apply num_val_range, Hu1).
  assert (Hvb : -1 <= num_val (u_last u)) by (apply num_val_range, Hu1).
  destruct us as [|u2 us].
  - cbn [render]. destruct (unit_loop L u tail lv t rs Hu1) as (s & lv' & ->).
    { destruct tail as [|c tail]; [exact I|right; exact Ht]. }
    assert (Hau : forall r, after_unit L tail r = r).
    { intros [p|c]; [|reflexivity]. unfold after_unit. destruct tail as [|c tail]; [reflexivity|].
      cbn in Ht. replace (c =? 44) with false by (unfold is_eol in Ht; lia). reflexivity. }
    rewrite Hau. pose proof (unit_end_resolve L s lv' t rs _ _ HL Hva Hvb) as Hue.
    destruct (resolve L _ _) as [| |f l].
    + destruct Hue as (p & -> & Hp). cbn. rewrite Hp. reflexivity.
    + rewrite Hue. reflexivity.
    + destruct Hue as [_ ->]. destruct (t + (l - f + 1) >? L); reflexivity.
  - rewrite render_cons by discriminate.
    destruct (unit_loop L u (44 :: render (u2 :: us) tail) lv t rs Hu1) as (s & lv' & ->); [left; reflexivity|].
    pose proof (unit_end_resolve L s lv' t rs _ _ HL Hva Hvb) as Hue.
    destruct (resolve L _ _) as [| |f l].
    + destruct Hue as (p & -> & Hp). cbn [after_unit Z.eqb Pos.eqb]. rewrite parse_stop by assumption.
      cbn. rewrite Hp. reflexivity.
    + rewrite Hue. cbn [after_unit Z.eqb Pos.eqb]. apply IH; auto; discriminate.
    + destruct Hue as [_ ->]. destruct (t + (l - f + 1) >? L); [reflexivity|].
      cbn [after_unit Z.eqb Pos.eqb]. apply IH; auto; discriminate.
Qed.

(** Leading white space is skipped by [parse] itself. *)
Lemma span_blanks ws l : forallb is_blank ws = true ->
  match l with c :: _ => isspace c = false | [] => True end -> snd (span isspace (ws ++ l)) = l.
Proof.
  intros Hw Hl. induction ws as [|c ws IH]; cbn [app span].
  - destruct l as [|c l]; [reflexivity|]. cbn. rewrite Hl. reflexivity.
  - cbn in Hw. apply andb_true_iff in Hw as [Hc Hw].
    replace (isspace c) with true by (unfold isspace, is_blank in *; lia).
    rewrite (surjective_pairing (span isspace (ws ++ l))). apply IH, Hw.
Qed.

(** The text of the first unit, without the blanks before it. *)
Lemma render_first u us tail : unit_ok u ->
  exists ws c l, render (u :: us) tail = ws ++ c :: l /\ forallb is_blank ws = true /\
    isspace c = false /\ c <> 0.
Proof.
  intros (Ha & _ & H1 & H2 & _). unfold isspace.
  assert (Hx : exists k, render (u :: us) tail = u_ws1 u ++ u_first u ++ u_ws2 u ++ 45 :: k).
  { destruct us; cbn [render]; unfold render_unit; rewrite <- !app_assoc; eexists; reflexivity. }
  destruct Hx as [k ->]. destruct (u_first u) as [|c a].
  - exists (u_ws1 u ++ u_ws2 u), 45, k. rewrite forallb_app, H1, H2, <- app_assoc. split_and!; auto.
  - cbn in Ha. apply andb_true_iff in Ha as [Hc _]. unfold isdigit in Hc.
    exists (u_ws1 u), c, (a ++ u_ws2 u ++ 45 :: k). split_and!; auto; lia.
Qed.

(** C22: the Range header.  For an entity of [L > 0] bytes, any list of
    byte-range-specs written with any digits (numbers too large for an offset
    saturate), blanks around the numbers, the unit name in any case, ended by
    the end of the string or of the line, gives the result of the reference:
    specs that start past the end are skipped, a spec whose last byte precedes
    its first makes the header malformed, ranges that together exceed the
    entity give the whole entity, and none left is unsatisfiable. *)
Theorem parse_reference L pre us tail :
  0 < L -> us <> [] -> Forall unit_ok us -> tail_ok tail ->
  strcaseeq pre (bs "bytes=") = true -> zlen pre = 6 ->
  fst (parse (new_HttpRange L) (pre ++ render us tail)) = fst (ref_parse L us 0 []) /\
  m_array (snd (parse (new_HttpRange L) (pre ++ render us tail))) = snd (ref_parse L us 0 []).
Proof.
  intros HL Hne Hu Ht Hp Hz. unfold parse. rewrite ztake_app_len, zdrop_app_len, Hp by assumption. cbn [negb].
  destruct us as [|u us]; [congruence|]. inversion Hu as [|? ? Hu1 _]; subst.
  destruct (render_first u us tail Hu1) as (ws & c & l & Hr & Hw & Hc & Hc0).
  pose proof (parse_units L tail (u :: us) 0 [] 0 HL Hne Hu Ht) as Hpu.
  rewrite Hr in *. rewrite span_blanks by (try exact Hc; assumption). rewrite loop_blanks in Hpu by auto.
  replace (c =? 0) with false by lia. cbn [m_lEntityLen new_HttpRange].
  rewrite Hpu. destruct (ref_parse L (u :: us) 0 []). auto.
Qed.

(** ** Every input: what is accepted is inside the entity *)

Record pinv (L : Z) (p : pstate) : Prop := {
  pi_begin : -1 <= m_lBegin (range p);
  pi_end : -1 <= m_lEnd (range p);
  pi_value : 0 <= lValue p;
  pi_total : total p = total_len (ranges p) /\ total p <= L;
  pi_valid : Forall (valid L) (ranges p)
}.

Lemma appendRangeDigit_nonneg v d : 0 <= v -> 0 <= d -> 0 <= appendRangeDigit v d.
Proof. intros. unfold appendRangeDigit, INT64_MAX. destruct (_ >? _); lia. Qed.

Lemma unit_end_inv L p : 0 < L -> pinv L p ->
  match unit_end L p with inl p' => state p' = 6 \/ pinv L p' | inr (c, _) => c = SC_200 end.
Proof.
  intros HL [Hb He Hv [Ht Htl] Hr]. destruct p as [s [a b] lv t rs]. cbn in *.
  pose proof (unit_end_resolve L s lv t rs a b HL Hb He) as Hue.
  destruct (resolve L a b) as [| |f l].
  - destruct Hue as (p & -> & Hp). auto.
  - rewrite Hue. right. split; cbn; auto; lia.
  - destruct Hue as [Hval ->]. destruct (t + (l - f + 1) >? L) eqn:E; [reflexivity|]. right.
    split; cbn; auto; try lia.
    + rewrite total_len_app. change (total_len [BR f l]) with (l - f + 1 + 0). lia.
    + apply Forall_app. auto.
Qed.

Ltac pinv_tac := right; split; cbn -[Z.le Z.opp]; solve [assumption | lia].

Lemma parse_char_inv L ch p : 0 < L -> pinv L p ->
  match parse_char L ch p with inl p' => state p' = 6 \/ pinv L p' | inr (c, _) => c = SC_200 end.
Proof.
  intros HL Hp. pose proof Hp as [Hb He Hv Ht Hr]. unfold parse_char.
  destruct ((ch =? 32) || (ch =? 9)).
  { destruct (state p =? 1); [pinv_tac|].
    destruct (state p =? 3); [pinv_tac|auto]. }
  destruct (isdigit ch) eqn:Ed.
  { unfold isdigit in Ed. destruct ((state p =? 0) || (state p =? 2)); [pinv_tac|].
    destruct ((state p =? 1) || (state p =? 3)); [|left; reflexivity].
    right; split; cbn; auto; try lia. apply appendRangeDigit_nonneg; lia. }
  destruct (ch =? 45).
  { destruct (state p =? 1); [pinv_tac|].
    destruct ((state p =? 0) || (state p =? 4)); [right; split; auto|left; reflexivity]. }
  destruct ((ch =? 44) || (ch =? 0)); [|left; reflexivity].
  destruct (state p =? 3); [apply unit_end_inv; [assumption|]; split; cbn; auto; lia|].
  destruct ((state p =? 2) || (state p =? 5)); [apply unit_end_inv; assumption|].
  destruct ((state p =? 1) || (state p =? 4)); [left; reflexivity|].
  destruct (negb (ch =? 0)); [left; reflexivity|auto].
Qed.

Lemma parse_loop_inv L l : 0 < L -> forall p, state p = 6 \/ pinv L p ->
  match parse_loop L l p with inl p' => state p' = 6 \/ pinv L p' | inr (c, _) => c = SC_200 end.
Proof.
  intros HL. induction l as [|ch l IH]; intros p Hp; cbn [parse_loop].
  - destruct (state p =? 6) eqn:E; [exact Hp|]. destruct Hp as [Hp|Hp]; [lia|]. apply parse_char_inv; assumption.
  - destruct (state p =? 6) eqn:E; [exact Hp|]. destruct Hp as [Hp|Hp]; [lia|]. destruct (is_eol ch); [apply parse_char_inv; assumption|].
    pose proof (parse_char_inv L ch p HL Hp) as Hc. destruct (parse_char L ch p) as [p'|[c a]]; [apply IH; exact Hc|exact Hc].
Qed.

(** An accepted header: valid ranges, and the rest of the object untouched. *)
Lemma parse_valid_aux L s h :
  0 < L -> parse (new_HttpRange L) s = (SC_0, h) ->
  m_array h <> [] /\ Forall (valid L) (m_array h) /\ total_len (m_array h) <= L /\ m_lEntityLen h = L /\
  m_partHeader h = [] /\ m_pCurHeaderPos h = 0.
Proof.
  intros HL. unfold parse. destruct (negb _); [discriminate|].
  destruct (snd (span isspace (zdrop 6 s))) as [|ch rest]; [discriminate|].
  destruct (ch =? 0); [discriminate|]. cbn [m_lEntityLen new_HttpRange].
  pose proof (parse_loop_inv L (ch :: rest) HL (PS 0 (BR (-1) (-1)) 0 0 [])) as Hi.
  destruct (parse_loop L (ch :: rest) (PS 0 (BR (-1) (-1)) 0 0 [])) as [p|[c a]]; cbn [parse_result].
  - destruct (state p =? 6) eqn:E; [discriminate|]. destruct (zlen (ranges p) =? 0) eqn:E2; [discriminate|].
    intros [= <-]. cbn. destruct Hi as [Hi|[_ _ _ [Ht Htl] Hv]]; [|lia|].
    + right. split; cbn; try lia; auto. split; [reflexivity|lia].
    + split_and!; auto; [|lia]. intros Hn. rewrite Hn in E2. discriminate.
  - assert (c = SC_200) as ->; [|discriminate]. apply Hi. right. split; cbn; try lia; auto.
    split; [reflexivity|lia].
Qed.

(** Whatever the header says, an accepted header leaves at least one range,
    every range lies inside the entity, and together they are no longer than
    it: a response built from them never reads past the file and never sends
    more body bytes than the file has. *)
Theorem parse_ranges_valid L s h :
  0 < L -> parse (new_HttpRange L) s = (SC_0, h) ->
  m_array h <> [] /\ Forall (valid L) (m_array h) /\ total_len (m_array h) <= L /\ m_lEntityLen h = L.
Proof. intros HL Hp. apply (parse_valid_aux L s h) in Hp; [tauto|exact HL]. Qed.

(** A number in the header is its decimal value, or the largest offset when
    it does not fit, and never overflows on the way. *)
Lemma digits_saturate ds v :
  forallb isdigit ds = true -> 0 <= v <= INT64_MAX ->
  let r := fold_left (fun v c => appendRangeDigit v (c - 48)) ds v in
  r = Z.min (fold_left (fun a c => a * 10 + (c - 48)) ds v) INT64_MAX /\ 0 <= r <= INT64_MAX.
Proof.
  intros Hd Hv. cbv zeta. pose proof (append_fold ds v Hd ltac:(lia)) as Ha.
  rewrite Z.min_l in Ha by lia. rewrite Ha. pose proof (dec_fold_nonneg ds v Hd ltac:(lia)).
  split; [reflexivity|]. unfold INT64_MAX. lia.
Qed.

(** ** Part headers *)

(** What a routine that fills a buffer does: text, an error value, or writing
    outside the buffer. *)
Inductive filled := Text (s : list Z) | Fail | Overrun.

(** [ls_offset2string(pBuf, len, val)] into a buffer with [room] bytes: the
    digits are built backwards from [pBuf + len - 2]. *)
Definition offset2string (len room val : Z) : option (list Z) :=
  let text := if val <? 0 then 45 :: dec (- val) else dec val in
  if (zlen text <=? len - 1) && (zlen text + 1 <=? room) then Some text else None.

Definition CONTENT_RANGE : list Z := bs "Content-Range: bytes ".

Definition getContentRangeString (h : HttpRange) (n len : Z) : filled :=
  let len := len - Z.min (zlen CONTENT_RANGE) len in
  if len <=? 0 then Fail
  else
    match offset2string 30 30 (m_lEntityLen h) with
    | None => Overrun
    | Some achLen =>
        match (if n <? 0 then None else m_array h !! Z.to_nat n) with
        | None =>
            if m_lEntityLen h =? -1 then Fail
            else
              let text := [42; 47] ++ achLen ++ [CR; LF] in
              if len - Z.min (zlen text) len >? 0 then Text (CONTENT_RANGE ++ text) else Fail
        | Some r =>
            match offset2string len len (m_lBegin r) with
            | None => Overrun
            | Some b =>
                let len := len - zlen b in
                match offset2string len (len - 1) (m_lEnd r) with
                | None => Overrun
                | Some e =>
                    let len := len - zlen e - 2 in
                    let text := CONTENT_RANGE ++ b ++ [45] ++ e ++ [47] in
                    if len <=? 0 then Fail
                    else if m_lEntityLen h >=? 0 then
                      let t := achLen ++ [CR; LF] in
                      if len - Z.min (zlen t) len >? 0 then Text (text ++ t) else Fail
                    else if len >? 4 then Text (text ++ [42; CR; LF]) else Fail
                end
            end
        end
    end.

(** [getContentOffset]: the half-open interval to send, and the range as
    [check] leaves it in the array. *)
Definition getContentOffset (h : HttpRange) (n : Z) : option (Z * Z) * HttpRange :=
  match (if n <? 0 then None else m_array h !! Z.to_nat n) with
  | None => (None, h)
  | Some r =>
      let '(ret, r) := check r (m_lEntityLen h) in
      let h := set_array h (<[Z.to_nat n := r]> (m_array h)) in
      (if ret =? 0 then Some (m_lBegin r, m_lEnd r + 1) else None, h)
  end.

(** [%08x] of a 32-bit value. *)
Definition hex8 (n : Z) : list Z :=
  map (fun i => let d := Z.land (Z.shiftr n (4 * i)) 15 in if d <? 10 then 48 + d else 87 + d)
      [7; 6; 5; 4; 3; 2; 1; 0].

(** [makeBoundaryString], the clock and the process id being arguments. *)
Definition makeBoundaryString (tv_sec tv_usec pid : Z) : list Z :=
  hex8 (wrapu 32 (Z.lxor (wraps 32 tv_usec) pid)) ++ hex8 (wrapu 32 (Z.lxor tv_usec tv_sec)).

Definition beginMultipart (h : HttpRange) (tv_sec tv_usec pid : Z) : HttpRange :=
  HR (m_array h) (m_lEntityLen h) (-1) (makeBoundaryString tv_sec tv_usec pid)
     (m_partHeader h) (m_pCurHeaderPos h).

Definition part_start (boundary mime : list Z) : list Z :=
  [CR; LF] ++ bs "--" ++ boundary ++ [CR; LF] ++ bs "Content-type: " ++ mime ++ [CR; LF].
Definition trailer (boundary : list Z) : list Z :=
  [CR; LF] ++ bs "--" ++ boundary ++ bs "--" ++ [CR; LF].

Definition getPartHeader (h : HttpRange) (n : Z) (pMimeType : list Z) (size : Z) : filled :=
  if n <? zlen (m_array h) then
    let start := part_start (m_boundary h) pMimeType in
    if zlen start >=? size then Fail
    else match getContentRangeString h n (size - zlen start) with
         | Overrun => Overrun
         | Fail => Fail
         | Text t =>
             if zlen t >? size - zlen start - 2 then Fail
             else if zlen start + zlen t + 2 =? size then Fail
             else Text (start ++ t ++ [CR; LF])
         end
  else
    let t := trailer (m_boundary h) in
    if zlen t =? size then Fail else if zlen t >? size then Overrun else Text t.

Definition more (h : HttpRange) : bool := m_iCurRange h <? zlen (m_array h).
Definition next (h : HttpRange) : HttpRange :=
  HR (m_array h) (m_lEntityLen h) (m_iCurRange h + 1) (m_boundary h) (m_partHeader h) (m_pCurHeaderPos h).

Definition set_header (h : HttpRange) (buf : list Z) (pos : Z) : HttpRange :=
  HR (m_array h) (m_lEntityLen h) (m_iCurRange h) (m_boundary h) buf pos.

Definition getPartHeaderLen (h : HttpRange) : Z := zlen (m_partHeader h) - m_pCurHeaderPos h.
Definition partHeader (h : HttpRange) : list Z := zdrop (m_pCurHeaderPos h) (m_partHeader h).

Definition partHeaderSent (h : HttpRange) (len : Z) : Z * HttpRange :=
  if len >? getPartHeaderLen h then
    (len - getPartHeaderLen h, set_header h (m_partHeader h) (zlen (m_partHeader h)))
  else (0, set_header h (m_partHeader h) (m_pCurHeaderPos h + len)).

(** [buildPartHeader]: [None] when the buffer would be overrun. *)
Definition buildPartHeader (h : HttpRange) (pMimeType : list Z) : option (Z * HttpRange) :=
  match getPartHeader h (m_iCurRange h) pMimeType MAX_PART_HEADER_LEN with
  | Overrun => None
  | Fail => Some (LS_FAIL, set_header h [] 0)
  | Text t => Some (zlen t, set_header h t 0)
  end.

(** ** Lengths *)

Section Lengths.
(** [(off_t)log10((double)n)]. *)
Variable flog10 : Z -> Z.

Definition getDigits (n : Z) : Z := if n <? 10 then 1 else flog10 n + 1.

Definition getPartLen (h : HttpRange) (r : ByteRange) (iMimeTypeLen : Z) : Z :=
  let len := 4 + 16 + 2 + 14 + iMimeTypeLen + 2
             + 21 + getDigits (m_lBegin r) + 1 + getDigits (m_lEnd r) + 1 + 2 + 2 + getLen r in
  if m_lEntityLen h =? -1 then len + 1 else len + getDigits (m_lEntityLen h).

Definition getMultipartBodyLen (h : HttpRange) (typeLen : Z) : Z :=
  if m_lEntityLen h =? -1 then LS_FAIL
  else fold_left (fun total r => total + getPartLen h r typeLen) (m_array h) 0 + 24.

End Lengths.

(** ** Sending the parts *)

(** The session that takes the body: [bs_write] is [writeRespBody];
    [bs_flush s cur end] is [HttpSession::flush] with that part of the file
    left to send, and also gives the new position. *)
Class BodySession (S : Type) := {
  bs_write : S -> list Z -> Z * S;
  bs_flush : S -> Z -> Z -> Z * Z * S;
  bs_sent : S -> list Z
}.

Class BodySessionLaws (S : Type) (F : list Z) `{BodySession S} := {
  bs_write_ok : forall s d, let '(r, s') := bs_write s d in
    (0 <= r <= zlen d /\ bs_sent s' = bs_sent s ++ ztake r d) \/ (r = -1 /\ bs_sent s' = bs_sent s);
  bs_flush_ok : forall s cur en, 0 <= cur -> cur <= en -> en <= zlen F ->
    let '(r, cur', s') := bs_flush s cur en in
    cur <= cur' /\ cur' <= en /\ bs_sent s' = bs_sent s ++ slice cur cur' F /\ (r = 0 -> cur' = en)
}.

Section SendMultipart.
Context {S : Type} `{BodySession S}.
Variable mime : list Z.

(** The object and the bounds of the file part being sent (SendFileInfo). *)
Record sending := Sending { sd_range : HttpRange; sd_cur : Z; sd_end : Z }.

(** A turn of the loop of [sendMultipart], in three steps. *)
Definition next_header (d : sending) : option (Z * sending) :=
  let h := sd_range d in
  if (sd_end d - sd_cur d =? 0) && (getPartHeaderLen h =? 0) && more h then
    option_map (fun '(r, h) => (r, Sending h (sd_cur d) (sd_end d))) (buildPartHeader (next h) mime)
  else Some (0, d).

(** [Some ret]: the function returns [ret]. *)
Definition write_header (d : sending) (s : S) : option Z * sending * S :=
  let h := sd_range d in
  let headerLen := getPartHeaderLen h in
  if negb (headerLen =? 0) then
    let '(ret, s) := bs_write s (partHeader h) in
    if ret >? 0 then
      let d := Sending (snd (partHeaderSent h ret)) (sd_cur d) (sd_end d) in
      if ret <? headerLen then (Some 1, d, s) else (None, d, s)
    else if ret =? -1 then (Some (-1), d, s)
    else if ret =? 0 then (Some 1, d, s)
    else (None, d, s)
  else (None, d, s).

Definition start_part (d : sending) (s : S) : option (Z * sending * S) :=
  let '(off, h) := getContentOffset (sd_range d) (m_iCurRange (sd_range d)) in
  match off with
  | None => None
  | Some (b, e) =>
      let '(ret, cur, s) := bs_flush s b e in Some (ret, Sending h cur e, s)
  end.

(** The last component says that [endResponse] was called; [None] stands for
    what has no defined behaviour (a buffer overrun, an uninitialised offset). *)
Fixpoint sendMultipart (fuel : nat) (d : sending) (s : S) : option (Z * sending * S * bool) :=
  match fuel with
  | O => None
  | Datatypes.S fuel =>
      match next_header d with
      | None => None
      | Some (r, d) =>
          if r <? 0 then Some (LS_FAIL, d, s, false)
          else
            let '(ret, d, s) := write_header d s in
            match ret with
            | Some r => Some (r, d, s, false)
            | None =>
                if more (sd_range d) then
                  match start_part d s with
                  | None => None
                  | Some (ret, d, s) =>
                      if negb (ret =? 0) then Some (ret, d, s, false) else sendMultipart fuel d s
                  end
                else Some (0, d, s, true)
            end
      end
  end.

(** A write event ([HttpSession::doWrite], then [StaticFileHandler::onWrite]):
    the handler runs once the file part is out. *)
Definition onWriteEvent (fuel : nat) (d : sending) (s : S) : option (Z * sending * S * bool) :=
  let '(ret, cur, s) := bs_flush s (sd_cur d) (sd_end d) in
  let d := Sending (sd_range d) cur (sd_end d) in
  if negb (ret =? 0) then Some (ret, d, s, false) else sendMultipart fuel d s.

(** A response: the first call, then write events until it ends or fails. *)
Fixpoint events (fuel n : nat) (res : option (Z * sending * S * bool)) : option (Z * sending * S * bool) :=
  match n, res with
  | Datatypes.S n, Some (r, d, s, false) =>
      if r <? 0 then res else events fuel n (onWriteEvent fuel d s)
  | _, _ => res
  end.

Definition respond (fuel n : nat) (h : HttpRange) (s : S) : option (Z * sending * S * bool) :=
  events fuel n (sendMultipart fuel (Sending h 0 0) s).

End SendMultipart.

(** ** The body as a whole *)

Definition range_text (h : HttpRange) (r : ByteRange) : list Z :=
  CONTENT_RANGE ++ dec (m_lBegin r) ++ [45] ++ dec (m_lEnd r) ++ [47] ++ dec (m_lEntityLen h) ++ [CR; LF].

Definition part_text (h : HttpRange) (mime : list Z) (r : ByteRange) : list Z :=
  part_start (m_boundary h) mime ++ range_text h r ++ [CR; LF].

Definition content (F : list Z) (r : ByteRange) : list Z := slice (m_lBegin r) (m_lEnd r + 1) F.

Definition body_parts (h : HttpRange) (mime F : list Z) : list (list Z * list Z) :=
  map (fun r => (part_text h mime r, content F r)) (m_array h) ++ [(trailer (m_boundary h), [])].

Definition flat (ps : list (list Z * list Z)) : list Z := concat (map (fun p => fst p ++ snd p) ps).

Definition multipart_body (h : HttpRange) (mime F : list Z) : list Z := flat (body_parts h mime F).

(** An object as [parse] leaves it and [beginMultipart] completes it. *)
Record ready (h : HttpRange) (mime F : list Z) : Prop := {
  rd_entity : 0 < m_lEntityLen h < 10 ^ 19 /\ zlen F = m_lEntityLen h;
  rd_valid : Forall (valid (m_lEntityLen h)) (m_array h);
  rd_boundary : zlen (m_boundary h) = 16;
  rd_mime : zlen mime <= 256
}.

Lemma makeBoundary_len a b c : zlen (makeBoundaryString a b c) = 16.
Proof. reflexivity. Qed.

Lemma off_dec n len room : 0 <= n < 10 ^ 19 -> 21 <= len -> 21 <= room -> offset2string len room n = Some (dec n).
Proof.
  intros Hn Hl Hr. unfold offset2string. replace (n <? 0) with false by lia.
  destruct (dec_ok n ltac:(lia)) as (_ & _ & _ & Hz). pose proof (ndigits_bounds 19 n ltac:(lia)).
  replace ((zlen (dec n) <=? len - 1) && (zlen (dec n) + 1 <=? room)) with true by lia. reflexivity.
Qed.

Lemma dec_len n : 0 <= n < 10 ^ 19 -> 1 <= zlen (dec n) <= 20.
Proof.
  intros Hn. destruct (dec_ok n ltac:(lia)) as (_ & _ & _ & ->). pose proof (ndigits_bounds 19 n ltac:(lia)). lia.
Qed.

Lemma zlen_CR : zlen CONTENT_RANGE = 21.
Proof. reflexivity. Qed.

Lemma contentRange_text h n r len :
  0 < m_lEntityLen h < 10 ^ 19 -> valid (m_lEntityLen h) r -> m_array h !! Z.to_nat n = Some r -> 0 <= n ->
  90 <= len -> getContentRangeString h n len = Text (range_text h r).
Proof.
  intros HL (Hb & Hbe & He) Hr Hn Hl. unfold getContentRangeString, range_text. rewrite zlen_CR.
  rewrite Z.min_l by lia. replace (len - 21 <=? 0) with false by lia. rewrite off_dec by lia.
  replace (n <? 0) with false by lia. rewrite Hr.
  pose proof (dec_len (m_lBegin r) ltac:(lia)). pose proof (dec_len (m_lEnd r) ltac:(lia)).
  pose proof (dec_len (m_lEntityLen h) ltac:(lia)).
  rewrite !off_dec by lia. cbv zeta.
  replace (len - 21 - zlen (dec (m_lBegin r)) - zlen (dec (m_lEnd r)) - 2 <=? 0) with false by lia.
  replace (m_lEntityLen h >=? 0) with true by lia.
  rewrite zlen_app. change (zlen [CR; LF]) with 2.
  rewrite Z.min_l by lia.
  match goal with |- context [if ?c then _ else _] => replace c with true by lia end.
  rewrite <- !app_assoc. reflexivity.
Qed.

Lemma zlen_part_start b mime : zlen b = 16 -> zlen (part_start b mime) = 38 + zlen mime.
Proof. intros Hb. unfold part_start. rewrite !zlen_app, Hb. change (zlen [CR; LF]) with 2. change (zlen (bs "--")) with 2.
  change (zlen (bs "Content-type: ")) with 14. lia. Qed.

Lemma zlen_range_text h r :
  zlen (range_text h r) =
    21 + zlen (dec (m_lBegin r)) + 1 + zlen (dec (m_lEnd r)) + 1 + zlen (dec (m_lEntityLen h)) + 2.
Proof.
  unfold range_text. rewrite !zlen_app, zlen_CR. change (zlen [45]) with 1. change (zlen [47]) with 1.
  change (zlen [CR; LF]) with 2. lia.
Qed.

(** Header [k] is built as the specification says: a part, or the trailer. *)
Lemma getPartHeader_text h mime F k p :
  ready h mime F -> 0 <= k -> body_parts h mime F !! Z.to_nat k = Some p ->
  getPartHeader h k mime MAX_PART_HEADER_LEN = Text (fst p).
Proof.
  intros [HL Hv Hb Hm] Hk Hp. unfold getPartHeader, body_parts in *. unfold MAX_PART_HEADER_LEN.
  destruct (k <? zlen (m_array h)) eqn:E.
  - rewrite lookup_app_l in Hp by (rewrite length_map; unfold zlen in E; lia).
    assert (Hr : exists r, m_array h !! Z.to_nat k = Some r /\ p = (part_text h mime r, content F r)).
    { revert Hp. rewrite (list_lookup_fmap (fun r => (part_text h mime r, content F r))).
      destruct (m_array h !! Z.to_nat k) as [r|]; [|discriminate]. intros [= <-]. eauto. }
    destruct Hr as (r & Hr & ->). assert (Hvr : valid (m_lEntityLen h) r).
    { eapply Forall_lookup_1; [exact Hv|exact Hr]. }
    rewrite (zlen_part_start _ _ Hb). replace (38 + zlen mime >=? 384) with false by lia.
    rewrite (contentRange_text h k r) by (auto; lia). rewrite zlen_range_text. destruct Hvr as (? & ? & ?).
    pose proof (dec_len (m_lBegin r) ltac:(lia)). pose proof (dec_len (m_lEnd r) ltac:(lia)).
    pose proof (dec_len (m_lEntityLen h) ltac:(lia)).
    do 2 match goal with |- context [if ?c then _ else _] => replace c with false by lia end. reflexivity.
  - rewrite lookup_app_r in Hp by (rewrite length_map; unfold zlen in E; lia). rewrite length_map in Hp.
    apply list_lookup_singleton_Some in Hp as [_ <-]. cbn [fst].
    unfold trailer. rewrite !zlen_app, Hb. change (zlen [CR; LF]) with 2. change (zlen (bs "--")) with 2. reflexivity.
Qed.

(** ** The length announced *)

Lemma zlen_flat_app a b : flat (a ++ b) = flat a ++ flat b.
Proof. unfold flat. rewrite map_app, concat_app. reflexivity. Qed.

Lemma part_len flog10 h mime F r :
  ready h mime F -> valid (m_lEntityLen h) r ->
  (forall n, 10 <= n <= m_lEntityLen h -> flog10 n + 1 = ndigits 20 n) ->
  zlen (part_text h mime r ++ content F r) = getPartLen flog10 h r (zlen mime).
Proof.
  intros [[HL HF] Hv Hb Hm] (H1 & H2 & H3) Hlog. unfold part_text, content, getPartLen, getLen.
  rewrite !zlen_app, (zlen_part_start _ _ Hb), zlen_range_text, zlen_slice by lia.
  change (zlen [CR; LF]) with 2. replace (m_lEntityLen h =? -1) with false by lia.
  assert (Hd : forall n, 0 <= n <= m_lEntityLen h -> zlen (dec n) = getDigits flog10 n).
  { intros n Hn. destruct (dec_ok n ltac:(lia)) as (_ & _ & _ & ->). unfold getDigits.
    destruct (n <? 10) eqn:E; [unfold ndigits; rewrite E; reflexivity|]. symmetry. apply Hlog. lia. }
  rewrite !Hd by lia. lia.
Qed.

(** The length of the body's text is the value [getMultipartBodyLen] announces. *)
Lemma multipart_body_len flog10 h mime F :
  ready h mime F -> (forall n, 10 <= n <= m_lEntityLen h -> flog10 n + 1 = ndigits 20 n) ->
  zlen (multipart_body h mime F) = getMultipartBodyLen flog10 h (zlen mime).
Proof.
  intros Hr Hlog. pose proof Hr as [[HL _] Hv Hb _]. unfold getMultipartBodyLen.
  replace (m_lEntityLen h =? -1) with false by lia.
  unfold multipart_body, body_parts. rewrite zlen_flat_app, zlen_app.
  assert (Ht : zlen (flat [(trailer (m_boundary h), [])]) = 24).
  { unfold flat. cbn [map concat fst snd]. rewrite !app_nil_r. unfold trailer. rewrite !zlen_app, Hb. reflexivity. }
  rewrite Ht. f_equal.
  assert (Hfold : forall a t, Forall (valid (m_lEntityLen h)) a ->
    fold_left (fun total r => total + getPartLen flog10 h r (zlen mime)) a t =
    t + zlen (flat (map (fun r => (part_text h mime r, content F r)) a))).
  { induction a as [|r a IH]; intros t Ha; cbn [fold_left map].
    - unfold flat. cbn. change (zlen (@nil Z)) with 0. lia.
    - inversion Ha as [|? ? Hr1 Ha']; subst. rewrite IH by assumption. unfold flat. cbn [map concat fst snd].
      rewrite (zlen_app (part_text h mime r ++ content F r)), (part_len flog10 h mime F r Hr Hr1 Hlog). lia. }
  rewrite Hfold by assumption. lia.
Qed.

(** ** The bytes sent *)

Section Sent.
Context {S : Type}.
Variable F mime : list Z.
Context `{BodySessionLaws S F}.
Variable h0 : HttpRange.
Hypothesis Hready : ready h0 mime F.

(** Between turns: the parts are those of [h0]; the header buffer is empty, or
    holds the header of the current part, whose content is yet to come. *)
Record between (d : sending) : Prop := {
  bt_array : m_array (sd_range d) = m_array h0;
  bt_entity : m_lEntityLen (sd_range d) = m_lEntityLen h0;
  bt_boundary : m_boundary (sd_range d) = m_boundary h0;
  bt_cur : -1 <= m_iCurRange (sd_range d) <= zlen (m_array h0);
  bt_pos : 0 <= m_pCurHeaderPos (sd_range d) <= zlen (m_partHeader (sd_range d));
  bt_file : 0 <= sd_cur d <= sd_end d /\ sd_end d <= zlen F;
  bt_header : 0 < getPartHeaderLen (sd_range d) -> sd_cur d = sd_end d /\ 0 <= m_iCurRange (sd_range d)
}.

Definition parts_from (k : Z) : list Z := flat (zdrop k (body_parts h0 mime F)).
Definition content_of (k : Z) : list Z :=
  match body_parts h0 mime F !! Z.to_nat k with Some p => snd p | None => [] end.

(** What is still to be sent. *)
Definition remaining (d : sending) : list Z :=
  partHeader (sd_range d) ++
  (if getPartHeaderLen (sd_range d) =? 0 then slice (sd_cur d) (sd_end d) F
   else content_of (m_iCurRange (sd_range d))) ++
  parts_from (m_iCurRange (sd_range d) + 1).

Lemma parts_len : length (body_parts h0 mime F) = Datatypes.S (length (m_array h0)).
Proof. unfold body_parts. rewrite length_app, length_map. cbn. lia. Qed.

Lemma parts_step k p : 0 <= k -> body_parts h0 mime F !! Z.to_nat k = Some p ->
  parts_from k = fst p ++ snd p ++ parts_from (k + 1).
Proof.
  intros Hk Hp. unfold parts_from, zdrop. replace (Z.to_nat (k + 1)) with (Datatypes.S (Z.to_nat k)) by lia.
  rewrite (drop_S _ _ _ Hp). unfold flat. cbn [map concat]. rewrite <- app_assoc. reflexivity.
Qed.

Lemma parts_end k : zlen (m_array h0) < k -> parts_from k = [].
Proof.
  intros Hk. unfold parts_from. rewrite zdrop_all; [reflexivity|]. unfold zlen in *. rewrite parts_len. lia.
Qed.

Lemma part_at k : 0 <= k < zlen (m_array h0) ->
  exists r, m_array h0 !! Z.to_nat k = Some r /\ valid (m_lEntityLen h0) r /\
    body_parts h0 mime F !! Z.to_nat k = Some (part_text h0 mime r, content F r).
Proof.
  intros Hk. unfold zlen in Hk. destruct (m_array h0 !! Z.to_nat k) as [r|] eqn:E.
  - exists r. split; [reflexivity|]. split; [eapply Forall_lookup_1; [apply Hready|exact E]|].
    unfold body_parts. rewrite lookup_app_l by (rewrite length_map; lia).
    rewrite (list_lookup_fmap (fun r => (part_text h0 mime r, content F r))), E. reflexivity.
  - apply lookup_ge_None in E. lia.
Qed.

Lemma part_exists k : 0 <= k <= zlen (m_array h0) -> exists p, body_parts h0 mime F !! Z.to_nat k = Some p.
Proof.
  intros Hk. destruct (body_parts h0 mime F !! Z.to_nat k) as [p|] eqn:E; [eauto|].
  apply lookup_ge_None in E. rewrite parts_len in E. unfold zlen in Hk. lia.
Qed.

Lemma header_nonempty k p : 0 <= k -> body_parts h0 mime F !! Z.to_nat k = Some p -> 0 < zlen (fst p).
Proof.
  intros Hk Hp. unfold body_parts in Hp. apply lookup_app_Some in Hp as [Hp|[_ Hp]].
  - rewrite (list_lookup_fmap (fun r => (part_text h0 mime r, content F r))) in Hp.
    destruct (m_array h0 !! Z.to_nat k) as [r|]; [|discriminate]. injection Hp as <-. cbn [fst].
    unfold part_text. rewrite zlen_app, (zlen_part_start _ _ (rd_boundary _ _ _ Hready)).
    pose proof (zlen_nonneg mime). pose proof (zlen_nonneg (range_text h0 r ++ [CR; LF])). lia.
  - apply list_lookup_singleton_Some in Hp as [_ <-]. cbn [fst]. unfold trailer.
    rewrite !zlen_app, (rd_boundary _ _ _ Hready). reflexivity.
Qed.

Lemma partHeader_len d : between d -> zlen (partHeader (sd_range d)) = getPartHeaderLen (sd_range d).
Proof. intros [_ _ _ _ Hp _ _]. unfold partHeader, getPartHeaderLen. rewrite zlen_zdrop by lia. lia. Qed.

(** [getPartHeader] and [getContentOffset] depend only on what [between] fixes. *)
Lemma getPartHeader_same h k size :
  m_array h = m_array h0 -> m_lEntityLen h = m_lEntityLen h0 -> m_boundary h = m_boundary h0 ->
  getPartHeader h k mime size = getPartHeader h0 k mime size.
Proof. intros Ha He Hb. unfold getPartHeader, getContentRangeString. rewrite Ha, He, Hb. reflexivity. Qed.

Definition weight (d : sending) : Z :=
  zlen (m_array h0) - m_iCurRange (sd_range d) + (if getPartHeaderLen (sd_range d) =? 0 then 0 else 1).

Lemma next_header_ok d : between d ->
  exists n d', next_header mime d = Some (n, d') /\ 0 <= n /\ between d' /\ remaining d' = remaining d /\
    (getPartHeaderLen (sd_range d') = 0 -> sd_cur d' = sd_end d' -> more (sd_range d') = false) /\
    sd_cur d' = sd_cur d /\ sd_end d' = sd_end d /\ weight d' = weight d.
Proof.
  intros Hb. pose proof (partHeader_len d Hb) as Hpl. pose proof Hb as [Ha He Hbd Hc Hp Hf Hh].
  unfold next_header. destruct (sd_end d - sd_cur d =? 0) eqn:E1; cbn [andb].
  2:{ exists 0, d. split_and!; auto; try lia. }
  destruct (getPartHeaderLen (sd_range d) =? 0) eqn:E2; cbn [andb].
  2:{ exists 0, d. split_and!; auto; try lia. }
  destruct (more (sd_range d)) eqn:E3; cbn [andb].
  2:{ exists 0, d. split_and!; auto; try lia. }
  set (k := m_iCurRange (sd_range d) + 1).
  assert (Hk : 0 <= k <= zlen (m_array h0)) by (unfold more in E3; rewrite Ha in E3; lia).
  destruct (part_exists k Hk) as [p Hpk].
  unfold buildPartHeader. change (m_iCurRange (next (sd_range d))) with k.
  rewrite (getPartHeader_same (next (sd_range d))) by assumption.
  rewrite (getPartHeader_text h0 mime F k p Hready) by (assumption || lia). cbn [option_map].
  pose proof (header_nonempty k p ltac:(lia) Hpk) as Hne.
  eexists _, _. split; [reflexivity|]. split; [lia|].
  assert (Hlen : getPartHeaderLen (set_header (next (sd_range d)) (fst p) 0) = zlen (fst p)).
  { unfold getPartHeaderLen. cbn. lia. }
  split_and!.
  - split; cbn; auto; try lia; fold k; lia.
  - unfold remaining. cbn [sd_range sd_cur sd_end]. rewrite Hlen, E2.
    replace (zlen (fst p) =? 0) with false by lia. cbn [m_iCurRange set_header next].
    fold k. unfold partHeader. cbn [m_pCurHeaderPos m_partHeader set_header]. rewrite zdrop_0.
    assert (Hph : zdrop (m_pCurHeaderPos (sd_range d)) (m_partHeader (sd_range d)) = []).
    { apply zdrop_all. unfold getPartHeaderLen in E2. lia. }
    rewrite Hph, slice_nil by lia. cbn [app]. rewrite (parts_step k p) by (assumption || lia).
    unfold content_of. rewrite Hpk. reflexivity.
  - cbn [sd_range]. rewrite Hlen. lia.
  - reflexivity.
  - reflexivity.
  - unfold weight. cbn [sd_range]. rewrite Hlen, E2. replace (zlen (fst p) =? 0) with false by lia.
    change (m_iCurRange (set_header (next (sd_range d)) (fst p) 0)) with k. unfold k. lia.
Qed.

Lemma write_header_ok d s : between d -> sd_cur d = sd_end d ->
  let '(ret, d', s') := write_header d s in
  m_iCurRange (sd_range d') = m_iCurRange (sd_range d) /\ between d' /\ sd_cur d' = sd_end d' /\
  match ret with
  | Some r => r <> 0 /\ bs_sent s' ++ remaining d' = bs_sent s ++ remaining d
  | None => getPartHeaderLen (sd_range d') = 0 /\
      bs_sent s' ++ (if getPartHeaderLen (sd_range d) =? 0 then []
                     else content_of (m_iCurRange (sd_range d))) ++ parts_from (m_iCurRange (sd_range d) + 1)
      = bs_sent s ++ remaining d
  end.
Proof.
  intros Hb Hce. pose proof (partHeader_len d Hb) as Hpl. pose proof Hb as [Ha He Hbd Hc Hp Hf Hh].
  unfold write_header. destruct (getPartHeaderLen (sd_range d) =? 0) eqn:E; cbn [negb].
  { split_and!; auto; try lia. unfold remaining. rewrite E, slice_nil by lia.
    assert (Hph : partHeader (sd_range d) = []).
    { unfold partHeader. apply zdrop_all. unfold getPartHeaderLen in E. lia. }
    rewrite Hph. reflexivity. }
  pose proof (bs_write_ok s (partHeader (sd_range d))) as Hw.
  destruct (bs_write s (partHeader (sd_range d))) as [ret s'].
  assert (Hpos : 0 < getPartHeaderLen (sd_range d)) by (unfold getPartHeaderLen in *; lia).
  destruct Hw as [[Hr Hw]|[-> Hw]].
  2:{ cbn. split_and!; auto; try lia. rewrite Hw. reflexivity. }
  rewrite Hpl in Hr. destruct (ret >? 0) eqn:Er.
  2:{ assert (ret = 0) as -> by lia. cbn. split_and!; auto; try lia. rewrite Hw, ztake_0, app_nil_r. reflexivity. }
  unfold partHeaderSent. replace (ret >? getPartHeaderLen (sd_range d)) with false by lia. cbn [snd].
  set (h' := set_header (sd_range d) (m_partHeader (sd_range d)) (m_pCurHeaderPos (sd_range d) + ret)).
  assert (Hlen : getPartHeaderLen h' = getPartHeaderLen (sd_range d) - ret) by (unfold getPartHeaderLen; cbn; lia).
  assert (Hbt : between (Sending h' (sd_cur d) (sd_end d))).
  { unfold getPartHeaderLen in *. split; cbn; auto; try lia. }
  assert (Hsplit : partHeader (sd_range d) = ztake ret (partHeader (sd_range d)) ++ partHeader h').
  { unfold partHeader at 3. cbn [m_pCurHeaderPos m_partHeader set_header h'].
    rewrite <- zdrop_zdrop by lia. symmetry. apply ztake_zdrop. }
  destruct (ret <? getPartHeaderLen (sd_range d)) eqn:El.
  - split_and!; auto; try lia. unfold remaining. cbn [sd_range sd_cur sd_end]. rewrite Hw, Hlen, E.
    replace (getPartHeaderLen (sd_range d) - ret =? 0) with false by lia.
    change (m_iCurRange h') with (m_iCurRange (sd_range d)). rewrite Hsplit at 2. rewrite <- !app_assoc. reflexivity.
  - split_and!; auto; try (cbn [sd_range]; lia). unfold remaining. rewrite Hw, E, ztake_all by lia.
    rewrite <- app_assoc. reflexivity.
Qed.

Lemma check_valid L r : 0 < L -> valid L r -> check r L = (0, r).
Proof.
  intros HL (H1 & H2 & H3). destruct r as [b e]. unfold check. cbn in *.
  replace (L >? 0) with true by lia. replace (b =? -1) with false by lia. cbn [m_lEnd m_lBegin].
  replace ((e =? -1) || (e >=? L)) with false by lia. cbn. replace (e <? b) with false by lia. reflexivity.
Qed.

Lemma start_part_ok d s : between d -> getPartHeaderLen (sd_range d) = 0 -> more (sd_range d) = true ->
  0 <= m_iCurRange (sd_range d) ->
  exists ret d' s', start_part d s = Some (ret, d', s') /\ between d' /\
    getPartHeaderLen (sd_range d') = 0 /\ m_iCurRange (sd_range d') = m_iCurRange (sd_range d) /\
    bs_sent s' ++ remaining d' =
      bs_sent s ++ content_of (m_iCurRange (sd_range d)) ++ parts_from (m_iCurRange (sd_range d) + 1) /\
    (ret = 0 -> sd_cur d' = sd_end d').
Proof.
  intros Hb Hh Hm Hk. pose proof Hb as [Ha He Hbd Hc Hp Hf _]. unfold more in Hm. rewrite Ha in Hm.
  set (k := m_iCurRange (sd_range d)) in *.
  destruct (part_at k ltac:(lia)) as (r & Hr & Hv & Hpk). pose proof Hv as (Hv1 & Hv2 & Hv3).
  destruct (rd_entity _ _ _ Hready) as [HL HF].
  unfold start_part, getContentOffset. fold k. replace (k <? 0) with false by lia. rewrite Ha, Hr, He.
  rewrite check_valid by (assumption || lia). rewrite list_insert_id by assumption. cbn [Z.eqb].
  pose proof (bs_flush_ok (F := F) s (m_lBegin r) (m_lEnd r + 1) ltac:(lia) ltac:(lia) ltac:(lia)) as Hfl.
  destruct (bs_flush s (m_lBegin r) (m_lEnd r + 1)) as [[ret cur'] s'].
  destruct Hfl as (Hc1 & Hc2 & Hsent & Hz).
  eexists _, _, _. split; [reflexivity|].
  assert (Hsa : set_array (sd_range d) (m_array h0) = sd_range d).
  { destruct (sd_range d). cbn in *. subst. reflexivity. }
  rewrite Hsa. split_and!; auto.
  - split; cbn; auto; try lia.
  - unfold remaining. cbn [sd_range sd_cur sd_end]. rewrite Hh. cbn [Z.eqb]. fold k. rewrite Hsent.
    assert (Hph : partHeader (sd_range d) = []).
    { unfold partHeader. apply zdrop_all. unfold getPartHeaderLen in Hh. lia. }
    rewrite Hph. cbn [app]. unfold content_of. rewrite Hpk. cbn [snd]. unfold content.
    rewrite (slice_split (m_lBegin r) cur' (m_lEnd r + 1)) by lia. rewrite <- !app_assoc. reflexivity.
Qed.


Lemma sendMultipart_ok fuel : forall d s,
  between d -> sd_cur d = sd_end d -> weight d < Z.of_nat fuel ->
  exists ret d' s' ended, sendMultipart mime fuel d s = Some (ret, d', s', ended) /\ between d' /\
    bs_sent s' ++ remaining d' = bs_sent s ++ remaining d /\
    (if ended : bool then remaining d' = [] else ret <> 0).
Proof.
  induction fuel as [|fuel IH]; intros d s Hb Hce Hw.
  { unfold weight in Hw. pose proof (bt_cur _ Hb). destruct (_ =? 0); lia. }
  cbn [sendMultipart]. destruct (next_header_ok d Hb) as (n & d1 & -> & Hn & Hb1 & Hr1 & Hm1 & Hc1 & He1 & Hw1).
  replace (n <? 0) with false by lia. assert (Hce1 : sd_cur d1 = sd_end d1) by congruence.
  pose proof (write_header_ok d1 s Hb1 Hce1) as Hwh.
  destruct (write_header d1 s) as [[ret d2] s2]. destruct Hwh as (Hk2 & Hb2 & Hce2 & Hpost).
  destruct ret as [r|].
  { destruct Hpost as [Hr Hs]. exists r, d2, s2, false. split_and!; auto. congruence. }
  destruct Hpost as [Hl2 Hs2]. pose proof (bt_cur _ Hb2) as Hcur2.
  destruct (more (sd_range d2)) eqn:Em.
  - assert (Hl1 : getPartHeaderLen (sd_range d1) <> 0).
    { intros Hz. specialize (Hm1 Hz Hce1). unfold more in *.
      rewrite Hk2, (bt_array _ Hb2), <- (bt_array _ Hb1) in Em. congruence. }
    assert (Hk1 : 0 <= m_iCurRange (sd_range d1)).
    { apply (bt_header _ Hb1). pose proof (bt_pos _ Hb1). unfold getPartHeaderLen in *. lia. }
    replace (getPartHeaderLen (sd_range d1) =? 0) with false in Hs2 by lia.
    destruct (start_part_ok d2 s2 Hb2 Hl2 Em ltac:(lia)) as (ret & d3 & s3 & -> & Hb3 & Hl3 & Hk3 & Hs3 & Hce3).
    rewrite Hk2 in Hs3. destruct (ret =? 0) eqn:Er; cbn [negb].
    + destruct (IH d3 s3 Hb3 (Hce3 ltac:(lia))) as (r' & d' & s' & en & Heq & Hb' & Hs' & He').
      { unfold weight in *. rewrite Hl3, Hk3, Hk2. cbn [Z.eqb].
        replace (getPartHeaderLen (sd_range d1) =? 0) with false in Hw1 by lia. lia. }
      exists r', d', s', en. split; [exact Heq|]. split_and!; auto. congruence.
    + exists ret, d3, s3, false. split_and!; auto; [congruence|lia].
  - assert (Hkn : m_iCurRange (sd_range d2) = zlen (m_array h0)).
    { unfold more in Em. rewrite (bt_array _ Hb2) in Em. lia. }
    assert (Hrem : remaining d2 = []).
    { unfold remaining. rewrite Hl2. cbn [Z.eqb]. rewrite slice_nil by lia. rewrite parts_end by lia.
      unfold partHeader. rewrite zdrop_all by (unfold getPartHeaderLen in Hl2; lia). reflexivity. }
    exists 0, d2, s2, true. split_and!; auto. rewrite Hrem, app_nil_r, <- Hr1, <- Hs2.
    rewrite Hk2 in Hkn. rewrite Hkn, parts_end by lia. rewrite app_nil_r.
    assert (Hct : content_of (zlen (m_array h0)) = []).
    { unfold content_of, body_parts, zlen. rewrite Nat2Z.id, lookup_app_r by (rewrite length_map; lia).
      rewrite length_map, Nat.sub_diag. reflexivity. }
    rewrite Hct. destruct (_ =? 0); rewrite app_nil_r; reflexivity.
Qed.

Lemma onWriteEvent_ok fuel d s :
  between d -> weight d < Z.of_nat fuel -> getPartHeaderLen (sd_range d) = 0 \/ sd_cur d = sd_end d ->
  exists ret d' s' ended, onWriteEvent mime fuel d s = Some (ret, d', s', ended) /\ between d' /\
    bs_sent s' ++ remaining d' = bs_sent s ++ remaining d /\
    (if ended : bool then remaining d' = [] else ret <> 0).
Proof.
  intros Hb Hw Hor. pose proof Hb as [Ha He Hbd Hc Hp [Hf1 Hf2] Hh]. unfold onWriteEvent.
  pose proof (bs_flush_ok (F := F) s (sd_cur d) (sd_end d) ltac:(lia) ltac:(lia) Hf2) as Hfl.
  destruct (bs_flush s (sd_cur d) (sd_end d)) as [[ret cur'] s'].
  destruct Hfl as (Hc1 & Hc2 & Hsent & Hz).
  set (d1 := Sending (sd_range d) cur' (sd_end d)).
  assert (Hb1 : between d1) by (split; cbn; auto; try lia; intros Hx; specialize (Hh Hx); lia).
  assert (Hs1 : bs_sent s' ++ remaining d1 = bs_sent s ++ remaining d).
  { unfold remaining. cbn [d1 sd_range sd_cur sd_end]. rewrite Hsent. destruct (getPartHeaderLen (sd_range d) =? 0) eqn:E.
    - assert (Hph : partHeader (sd_range d) = []).
      { unfold partHeader. apply zdrop_all. unfold getPartHeaderLen in E. lia. }
      rewrite Hph. cbn [app]. rewrite (slice_split (sd_cur d) cur' (sd_end d)) by lia.
      rewrite <- !app_assoc. reflexivity.
    - rewrite slice_nil by lia. rewrite app_nil_r. reflexivity. }
  destruct (ret =? 0) eqn:Er; cbn [negb].
  - destruct (sendMultipart_ok fuel d1 s' Hb1 (Hz ltac:(lia)) Hw) as (r & d' & s'' & en & Heq & Hb' & Hs' & He').
    exists r, d', s'', en. split_and!; auto. congruence.
  - exists ret, d1, s', false. split_and!; auto. lia.
Qed.

End Sent.

Section Respond.
Context {S : Type}.
Variable F mime : list Z.
Context `{BodySessionLaws S F}.

Lemma events_ok h0 fuel n : ready h0 mime F -> zlen (m_array h0) + 2 < Z.of_nat fuel ->
  forall ret d s ended, between F h0 d -> (if ended : bool then remaining F mime h0 d = [] else True) ->
  exists ret' d' s' ended', events mime fuel n (Some (ret, d, s, ended)) = Some (ret', d', s', ended') /\
    bs_sent s' ++ remaining F mime h0 d' = bs_sent s ++ remaining F mime h0 d /\
    (if ended' : bool then remaining F mime h0 d' = [] else True).
Proof.
  intros Hr Hf. induction n as [|n IH]; intros ret d s ended Hb He; cbn [events].
  - exists ret, d, s, ended. auto.
  - destruct ended; [exists ret, d, s, true; auto|].
    destruct (ret <? 0); [exists ret, d, s, false; auto|].
    destruct (onWriteEvent_ok F mime h0 Hr fuel d s Hb) as (r & d1 & s1 & en & -> & Hb1 & Hs1 & He1).
    + unfold weight. pose proof (bt_cur _ _ _ Hb). destruct (_ =? 0); lia.
    + destruct (Z.eq_dec (getPartHeaderLen (sd_range d)) 0); [auto|right].
      apply (bt_header _ _ _ Hb). pose proof (bt_pos _ _ _ Hb). unfold getPartHeaderLen in *. lia.
    + destruct (IH r d1 s1 en Hb1) as (r' & d' & s' & en' & Heq & Hs' & He'); [destruct en; auto|].
      exists r', d', s', en'. split_and!; auto. congruence.
Qed.

(** Answering a Range request.  When the header is accepted for a file [F]
    and the answer is sent part by part, then after any number of write
    events, whatever the socket accepts at each, the bytes on the wire are a
    prefix of the multipart body, and when the response ends they are all of
    it: for each range its header and exactly its bytes of the file, in order,
    then the closing boundary. *)
Theorem range_response hdr h sec usec pid fuel n s :
  parse (new_HttpRange (zlen F)) hdr = (SC_0, h) -> 0 < zlen F < 10 ^ 19 -> zlen mime <= 256 ->
  zlen (m_array h) + 2 < Z.of_nat fuel ->
  let h0 := beginMultipart h sec usec pid in
  exists ret d s' ended, respond mime fuel n h0 s = Some (ret, d, s', ended) /\
    exists rest, bs_sent s' ++ rest = bs_sent s ++ multipart_body h0 mime F /\ (ended = true -> rest = []).
Proof.
  intros Hp HL Hm Hf h0. destruct (parse_valid_aux (zlen F) hdr h ltac:(lia) Hp) as (_ & Hv & _ & He & Hph & Hpos).
  assert (Hr : ready h0 mime F).
  { split; cbn [h0 beginMultipart m_lEntityLen m_array m_boundary]; rewrite ?He; auto. }
  pose (d0 := Sending h0 0 0).
  assert (Hb0 : between F h0 d0).
  { split; cbn [d0 sd_range sd_cur sd_end]; auto; try lia.
    - cbn. pose proof (zlen_nonneg (m_array h)). lia.
    - cbn. rewrite Hph, Hpos. change (zlen (@nil Z)) with 0. lia.
    - unfold getPartHeaderLen. cbn. rewrite Hph, Hpos. change (zlen (@nil Z)) with 0. lia. }
  assert (Hrem : remaining F mime h0 d0 = multipart_body h0 mime F).
  { unfold remaining, partHeader, getPartHeaderLen. cbn [d0 sd_range sd_cur sd_end h0 beginMultipart m_partHeader m_pCurHeaderPos m_iCurRange].
    rewrite Hph, Hpos. reflexivity. }
  destruct (sendMultipart_ok F mime h0 Hr fuel d0 s Hb0 eq_refl) as (r & d1 & s1 & en & Heq & Hb1 & Hs1 & He1).
  { unfold weight. destruct (_ =? 0); cbn; lia. }
  destruct (events_ok h0 fuel n Hr ltac:(exact Hf) r d1 s1 en Hb1) as (r' & d' & s' & en' & Heq' & Hs' & He').
  { destruct en; auto. }
  exists r', d', s', en'. split; [unfold respond; fold d0; rewrite Heq; exact Heq'|].
  exists (remaining F mime h0 d'). split; [congruence|]. intros ->. exact He'.
Qed.

(** C23: the Content-Length of a multipart response is exact.  When a Range header is
    accepted for a file and the answer is sent part by part ([sendMultipart], and then the
    write events), whatever the socket takes at each call: never more bytes are sent than
    [getMultipartBodyLen] has announced, and when the response ends they are just as many,
    part headers and the trailer included, provided the floating-point log10 counts the
    digits of the numbers up to the file's size right.  (It does not for every size: the
    digits of 999999999999999 are counted as 16.) *)
Theorem multipart_length_exact flog10 hdr h sec usec pid fuel n s :
  parse (new_HttpRange (zlen F)) hdr = (SC_0, h) -> 0 < zlen F < 10 ^ 19 -> zlen mime <= 256 ->
  zlen (m_array h) + 2 < Z.of_nat fuel ->
  (forall k, 10 <= k <= zlen F -> flog10 k + 1 = ndigits 20 k) ->
  let h0 := beginMultipart h sec usec pid in
  let announced := getMultipartBodyLen flog10 h0 (zlen mime) in
  exists ret d s' ended, respond mime fuel n h0 s = Some (ret, d, s', ended) /\
    zlen (bs_sent s') <= zlen (bs_sent s) + announced /\
    (ended = true -> zlen (bs_sent s') = zlen (bs_sent s) + announced).
Proof.
  intros Hp HL Hm Hf Hlog h0 announced.
  destruct (range_response hdr h sec usec pid fuel n s Hp HL Hm Hf) as (ret & d & s' & ended & E & rest & Hs & He).
  exists ret, d, s', ended. split; [exact E|]. apply (f_equal zlen) in Hs. rewrite !zlen_app in Hs.
  destruct (parse_valid_aux (zlen F) hdr h ltac:(lia) Hp) as (_ & Hv & _ & Hen & _).
  rewrite (multipart_body_len flog10) in Hs.
  - pose proof (zlen_nonneg rest). split; [unfold announced, h0; lia|]. intros Hend. rewrite (He Hend) in Hs. change (zlen (@nil Z)) with 0 in Hs. unfold announced, h0. lia.
  - split; cbn [beginMultipart m_lEntityLen m_array m_boundary]; rewrite ?Hen; auto.
  - cbn [beginMultipart m_lEntityLen]. rewrite Hen. exact Hlog.
Qed.

End Respond.

(** ** Examples and witnesses *)

Definition sample_file : list Z := bs "0123456789abcdefghij".

(** A session over a socket that has room for so many bytes at each call. *)
Record wire := Wire { wr_room : list Z; wr_sent : list Z }.

Definition wire_take (w : wire) (d : list Z) : Z * wire :=
  match wr_room w with
  | [] => (zlen d, Wire [] (wr_sent w ++ d))
  | n :: l =>
      if n <? 0 then (-1, Wire l (wr_sent w))
      else (Z.min n (zlen d), Wire l (wr_sent w ++ ztake (Z.min n (zlen d)) d))
  end.

Definition wire_flush (w : wire) (cur en : Z) : Z * Z * wire :=
  let '(r, w) := wire_take w (slice cur en sample_file) in
  if r <? 0 then (-1, cur, w) else (if r =? en - cur then 0 else 1, cur + r, w).

#[export] Instance wire_session : BodySession wire :=
  { bs_write := wire_take; bs_flush := wire_flush; bs_sent := wr_sent }.

Lemma wire_take_ok w d : let '(r, w') := wire_take w d in
  (0 <= r <= zlen d /\ wr_sent w' = wr_sent w ++ ztake r d) \/ (r = -1 /\ wr_sent w' = wr_sent w).
Proof.
  pose proof (zlen_nonneg d). unfold wire_take. destruct (wr_room w) as [|n l].
  - left. rewrite ztake_all by lia. cbn. split; [lia|reflexivity].
  - destruct (n <? 0) eqn:E; cbn; [right; auto|left; split; [lia|reflexivity]].
Qed.

#[export] Instance wire_laws : BodySessionLaws wire sample_file.
Proof.
  split.
  - intros s d. apply wire_take_ok.
  - intros s cur en H0 H1 H2. cbn [bs_flush wire_session]. unfold wire_flush.
    pose proof (wire_take_ok s (slice cur en sample_file)) as Hw.
    destruct (wire_take s (slice cur en sample_file)) as [r w]. rewrite zlen_slice in Hw by lia.
    destruct Hw as [[Hr Hw]|[-> Hw]].
    + replace (r <? 0) with false by lia. cbn [bs_sent wire_session]. rewrite Hw.
      split_and!; try lia; [|destruct (r =? en - cur) eqn:E; lia].
      f_equal. unfold slice. rewrite ztake_ztake by lia. f_equal. lia.
    + cbn. rewrite Hw, slice_nil, app_nil_r by lia. split_and!; auto; lia.
Qed.

Definition sample_units : list unit_text :=
  [UT (bs "0") (bs "4") [] [] [] []; UT (bs "7") (bs "8") (bs " ") [] [] (bs " ");
   UT [] (bs "3") [] [] [] []; UT (bs "90") [] [] [] [] []].

Example sample_text : render sample_units [] = bs "0-4, 7-8 ,-3,90-".
Proof. reflexivity. Qed.

Lemma parse_reference_witness :
  fst (parse (new_HttpRange 20) (bs "Bytes=" ++ render sample_units [CR])) = fst (ref_parse 20 sample_units 0 []) /\
  m_array (snd (parse (new_HttpRange 20) (bs "Bytes=" ++ render sample_units [CR]))) = snd (ref_parse 20 sample_units 0 []).
Proof.
  apply (parse_reference 20 (bs "Bytes=") sample_units [CR]); try reflexivity; try discriminate.
  repeat constructor.
Defined.

Example sample_ranges :
  ref_parse 20 sample_units 0 [] = (SC_0, [BR 0 4; BR 7 8; BR 17 19]).
Proof. reflexivity. Qed.

Definition sample_range : HttpRange := snd (parse (new_HttpRange 20) (bs "bytes=0-4,7-8,-3")).

Lemma parse_ranges_valid_witness :
  m_array sample_range <> [] /\ Forall (valid 20) (m_array sample_range) /\
  total_len (m_array sample_range) <= 20 /\ m_lEntityLen sample_range = 20.
Proof. apply (parse_ranges_valid 20 (bs "bytes=0-4,7-8,-3")); vm_compute; reflexivity. Defined.

Lemma multipart_length_exact_witness :
  let h0 := beginMultipart sample_range 1700000000 12345 99 in
  let announced := getMultipartBodyLen (fun n => ndigits 20 n - 1) h0 (zlen (bs "text/plain")) in
  exists ret d s' ended,
    respond (bs "text/plain") 10 8 h0 (Wire [5; 200; 2; 3; 100; 1] []) = Some (ret, d, s', ended) /\
    zlen (bs_sent s') <= zlen (bs_sent (Wire [5; 200; 2; 3; 100; 1] [])) + announced /\
    (ended = true -> zlen (bs_sent s') = zlen (bs_sent (Wire [5; 200; 2; 3; 100; 1] [])) + announced).
Proof.
  apply (multipart_length_exact sample_file (bs "text/plain") (fun n => ndigits 20 n - 1) (bs "bytes=0-4,7-8,-3") sample_range 1700000000 12345 99 10 8
           (Wire [5; 200; 2; 3; 100; 1] [])); try (vm_compute; try (split; reflexivity); reflexivity || discriminate). intros; lia.
Defined.

Lemma range_response_witness :
  exists ret d s' ended,
    respond (bs "text/plain") 10 8 (beginMultipart sample_range 1700000000 12345 99) (Wire [5; 200; 2; 3; 100; 1] []) =
      Some (ret, d, s', ended) /\
    exists rest, bs_sent s' ++ rest =
      bs_sent (Wire [5; 200; 2; 3; 100; 1] []) ++ multipart_body (beginMultipart sample_range 1700000000 12345 99) (bs "text/plain") sample_file /\
      (ended = true -> rest = []).
Proof.
  apply (range_response sample_file (bs "text/plain") (bs "bytes=0-4,7-8,-3") sample_range 1700000000 12345 99 10 8
           (Wire [5; 200; 2; 3; 100; 1] [])); vm_compute; try (split; reflexivity); reflexivity || discriminate.
Defined.

(** The response of that session does end. *)
Example sample_response_ends :
  match respond (bs "text/plain") 10 8 (beginMultipart sample_range 1700000000 12345 99) (Wire [5; 200; 2; 3; 100; 1] []) with
  | Some (_, _, s, ended) => ended = true /\
      zlen (wr_sent s) = getMultipartBodyLen (fun n => ndigits 20 n - 1) (beginMultipart sample_range 1 2 3) 10
  | None => False
  end.
Proof. vm_compute. auto. Qed.
