(* ===== verification/H2Frame.v ===== *)
(** * H2Frame: the HTTP/2 frame layer (src/src/h2/h2protocol.h,
    src/src/h2/h2protocol.cpp, frame building of src/src/h2/h2connbase.cpp)

    The nine-byte frame header with its bit fields, the fixed-size control
    frames the server sends, and the splitting of a header block into a HEADERS
    frame and CONTINUATION frames, which writes each frame's header over the
    nine bytes before its payload in place.  [frames_of] is the reference
    reading of a byte stream as frames. *)

From S2P Require Import Prelude.

(** ** Constants of h2protocol.h *)

Definition H2_FRAME_DATA : Z := 0.
Definition H2_FRAME_HEADERS : Z := 1.
Definition H2_FRAME_PRIORITY : Z := 2.
Definition H2_FRAME_RST_STREAM : Z := 3.
Definition H2_FRAME_SETTINGS : Z := 4.
Definition H2_FRAME_PUSH_PROMISE : Z := 5.
Definition H2_FRAME_PING : Z := 6.
Definition H2_FRAME_GOAWAY : Z := 7.
Definition H2_FRAME_WINDOW_UPDATE : Z := 8.
Definition H2_FRAME_CONTINUATION : Z := 9.
Definition H2_FRAME_MAX_TYPE : Z := 10.

Definition H2_CTRL_FLAG_FIN : Z := 1.
Definition H2_FLAG_ACK : Z := 1.
Definition H2_FLAG_END_STREAM : Z := 1.
Definition H2_FLAG_END_HEADERS : Z := 4.
Definition H2_FLAG_PADDED : Z := 8.
Definition H2_FLAG_PRIORITY : Z := 32.

Definition H2_SETTINGS_HEADER_TABLE_SIZE : Z := 1.
Definition H2_SETTINGS_ENABLE_PUSH : Z := 2.
Definition H2_SETTINGS_MAX_CONCURRENT_STREAMS : Z := 3.
Definition H2_SETTINGS_INITIAL_WINDOW_SIZE : Z := 4.
Definition H2_SETTINGS_MAX_FRAME_SIZE : Z := 5.
Definition H2_SETTINGS_MAX_HEADER_LIST_SIZE : Z := 6.

Definition H2_ERROR_NO_ERROR : Z := 0.
Definition H2_ERROR_PROTOCOL_ERROR : Z := 1.
Definition H2_ERROR_INTERNAL_ERROR : Z := 2.
Definition H2_ERROR_FLOW_CONTROL_ERROR : Z := 3.
Definition H2_ERROR_STREAM_CLOSED : Z := 5.
Definition H2_ERROR_FRAME_SIZE_ERROR : Z := 6.
Definition H2_ERROR_CANCEL : Z := 8.
Definition H2_ERROR_COMPRESSION_ERROR : Z := 9.
Definition H2_ERROR_ENHANCE_YOUR_CALM : Z := 11.
Definition H2_ERROR_CODE_COUNT : Z := 14.

Definition H2_CLIENT_PREFACE : list Z :=
  bs "PRI * HTTP/2.0" ++ [CR; LF; CR; LF] ++ bs "SM" ++ [CR; LF; CR; LF].
Definition H2_CLIENT_PREFACE_LEN : Z := 24.
Definition H2_FRAME_HEADER_SIZE : Z := 9.
Definition H2_PING_FRAME_PAYLOAD_SIZE : Z := 8.
Definition H2_MAX_DATAFRAM_SIZE : Z := 16777215.
Definition H2_DEFAULT_DATAFRAME_SIZE : Z := 16384.
Definition H2_FCW_INIT_SIZE : Z := 65535.
Definition H2_FCW_64K : Z := 65536.
Definition H2_FCW_MAX_SIZE : Z := 2147483647.
Definition MAX_HTTP2_HEADERS_SIZE : Z := 65536.
Definition MAX_HEADER_TABLE_SIZE : Z := 512 * 1024.

(** Does a flag byte have a flag (a power of two)? *)
Definition has (flags f : Z) : bool := negb (Z.land flags f =? 0).

(** ** The frame header *)

Record H2FrameHeader := FrameHeader {
  m_bLength : Z * Z * Z; m_bType : Z; m_bFlags : Z; m_iStreamId : Z * Z * Z * Z }.

Definition setLength (l : Z) : Z * Z * Z :=
  (Z.land (Z.shiftr l 16) 255, Z.land (Z.shiftr l 8) 255, Z.land l 255).

Definition setStreamId (id : Z) : Z * Z * Z * Z :=
  (Z.land (Z.shiftr id 24) 255, Z.land (Z.shiftr id 16) 255, Z.land (Z.shiftr id 8) 255, Z.land id 255).

Definition new_header (len type flags id : Z) : H2FrameHeader :=
  FrameHeader (setLength len) type flags (setStreamId id).

Definition getType := m_bType.
Definition getFlags := m_bFlags.

Definition getLength (h : H2FrameHeader) : Z :=
  let '(a, b, c) := m_bLength h in Z.lor (Z.lor (Z.shiftl a 16) (Z.shiftl b 8)) c.

Definition getStreamId (h : H2FrameHeader) : Z :=
  let '(a, b, c, d) := m_iStreamId h in
  Z.lor (Z.lor (Z.lor (Z.shiftl (Z.land a 127) 24) (Z.shiftl b 16)) (Z.shiftl c 8)) d.

(** The header as it lies in memory, and nine bytes read into it. *)
Definition header_bytes (h : H2FrameHeader) : list Z :=
  let '(a, b, c) := m_bLength h in
  let '(i, j, k, l) := m_iStreamId h in
  [a; b; c; m_bType h; m_bFlags h; i; j; k; l].

Definition read_header (s : list Z) : H2FrameHeader :=
  let n := znth s in
  FrameHeader (n 0, n 1, n 2) (n 3) (n 4) (n 5, n 6, n 7, n 8).

(** ** Numbers on the wire *)

Definition appendNbo4Bytes (v : Z) : list Z :=
  [wrapu 8 (Z.shiftr v 24); Z.land (Z.shiftr v 16) 255; Z.land (Z.shiftr v 8) 255; Z.land v 255].

Definition beReadUint32 (p : list Z) : Z :=
  let v := znth p 0 in
  let v := Z.lor (wrapu 32 (Z.shiftl v 8)) (znth p 1) in
  let v := Z.lor (wrapu 32 (Z.shiftl v 8)) (znth p 2) in
  Z.lor (wrapu 32 (Z.shiftl v 8)) (znth p 3).

(** ** The control frames sent *)

Definition frame8Bytes (type id v1 v2 : Z) : list Z :=
  header_bytes (new_header 8 type 0 id) ++ appendNbo4Bytes v1 ++ appendNbo4Bytes v2.

Definition frame4Bytes (type id v : Z) : list Z :=
  header_bytes (new_header 4 type 0 id) ++ appendNbo4Bytes v.

Definition frame0Bytes (type flags id : Z) : list Z := header_bytes (new_header 0 type flags id).

Definition pingFrame (flags : Z) (payload : list Z) : list Z :=
  header_bytes (new_header 8 H2_FRAME_PING flags 0) ++ ztake H2_PING_FRAME_PAYLOAD_SIZE payload.

(** [sendSettingsFrame]: our settings, followed by the WINDOW_UPDATE that
    enlarges the connection's receive window. *)
Definition window_delta : Z := H2_FCW_64K * 16 * 16.

Definition settingsFrames (streamInInitWindowSize : Z) : list Z :=
  header_bytes (new_header 18 H2_FRAME_SETTINGS 0 0) ++
  [0; H2_SETTINGS_MAX_CONCURRENT_STREAMS; 0; 0; 0; 100] ++
  [0; H2_SETTINGS_INITIAL_WINDOW_SIZE] ++ appendNbo4Bytes streamInInitWindowSize ++
  [0; H2_SETTINGS_MAX_FRAME_SIZE; 0; 0; 64; 0] ++
  header_bytes (new_header 4 H2_FRAME_WINDOW_UPDATE 0 0) ++ appendNbo4Bytes window_delta.

(** [getH2FrameName] *)
Definition s_sH2FrameName : list string :=
  ["DATA"; "HEADERS"; "PRIORITY"; "RST_STREAM"; "SETTINGS"; "PUSH_PROMISE"; "PING"; "GOAWAY";
   "WINDOW_UPDATE"; "CONTINUATION"]%string.

Definition getH2FrameName (type : Z) : string :=
  if type <? H2_FRAME_MAX_TYPE then nth (Z.to_nat type) s_sH2FrameName ""%string
  else if Z.land type 11 =? 11 then "GREASE"%string else "UNKNOWN"%string.

(** ** Splitting a header block

    [mem] is the buffer the block was encoded into, [p] the offset of the part
    not sent yet and [size] its length.  Each round stores a frame header in
    the nine bytes before [p] and hands the frame to the output. *)
Fixpoint sendHeaderCont_loop (fuel : nat) (maxFrame id : Z) (mem : list Z) (p size type flag : Z) : list (list Z) :=
  match fuel with
  | O => []
  | S fuel =>
      if size >? 0 then
        let '(frameSize, size, flag) :=
          if size >? maxFrame then (maxFrame, size - maxFrame, flag)
          else (size, 0, Z.lor flag H2_FLAG_END_HEADERS) in
        let header := new_header frameSize type flag id in
        let mem := store mem (p - 9) (header_bytes header) in
        let frame := slice (p - 9) (p + frameSize) mem in
        frame ::
        (if size >? 0 then sendHeaderCont_loop fuel maxFrame id mem (p + frameSize) size H2_FRAME_CONTINUATION 0
         else sendHeaderCont_loop fuel maxFrame id mem p size type flag)
      else []
  end.

(** [achHdrBuf]: sixteen bytes before the encoded block. *)
Definition sendHeaderContFrame (maxFrame id flag type : Z) (room block : list Z) : list (list Z) :=
  sendHeaderCont_loop (S (length block)) maxFrame id (room ++ block) (zlen room) (zlen block) type flag.

(** ** Reading a stream of frames *)

(** The frames a byte sequence consists of, and what is left when the last one
    is incomplete. *)
Fixpoint frames_fuel (fuel : nat) (s : list Z) : list (H2FrameHeader * list Z) * list Z :=
  match fuel with
  | O => ([], s)
  | S fuel =>
      if zlen s <? H2_FRAME_HEADER_SIZE then ([], s)
      else
        let h := read_header s in
        let rest := zdrop H2_FRAME_HEADER_SIZE s in
        if zlen rest <? getLength h then ([], s)
        else let '(fs, rem) := frames_fuel fuel (zdrop (getLength h) rest) in
             ((h, ztake (getLength h) rest) :: fs, rem)
  end.

Definition frames_of (s : list Z) : list (H2FrameHeader * list Z) * list Z := frames_fuel (S (length s)) s.

(** ** Header facts *)

Lemma zlen_header_bytes h : zlen (header_bytes h) = 9.
Proof. destruct h as [[[a b] c] t f [[[i j] k] l]]. reflexivity. Qed.

Lemma zlen_nbo4 v : zlen (appendNbo4Bytes v) = 4.
Proof. reflexivity. Qed.

Lemma getLength_val h a b c : m_bLength h = (a, b, c) -> is_byte a -> is_byte b -> is_byte c ->
  getLength h = a * 65536 + b * 256 + c.
Proof.
  unfold is_byte. intros E Ha Hb Hc. unfold getLength. rewrite E.
  rewrite (lor_shiftl_add a (Z.shiftl b 8)) by (rewrite ?Z.shiftl_mul_pow2; lia).
  rewrite Z.shiftl_mul_pow2 by lia.
  replace (a * 2 ^ 16 + b * 2 ^ 8) with (Z.shiftl (a * 256 + b) 8) by (rewrite Z.shiftl_mul_pow2; lia).
  rewrite lor_shiftl_add by lia. lia.
Qed.

Lemma getStreamId_val h a b c d : m_iStreamId h = (a, b, c, d) -> is_byte a -> is_byte b -> is_byte c -> is_byte d ->
  getStreamId h = (a mod 128) * 16777216 + b * 65536 + c * 256 + d.
Proof.
  unfold is_byte. intros E Ha Hb Hc Hd. unfold getStreamId. rewrite E.
  change 127 with (Z.ones 7). rewrite Z.land_ones by lia. change (2 ^ 7) with 128.
  set (a' := a mod 128). assert (0 <= a' < 128) by (apply Z.mod_pos_bound; lia). clearbody a'.
  rewrite (lor_shiftl_add a' (Z.shiftl b 16)) by (rewrite ?Z.shiftl_mul_pow2; lia).
  rewrite (Z.shiftl_mul_pow2 b) by lia.
  replace (a' * 2 ^ 24 + b * 2 ^ 16) with (Z.shiftl (a' * 256 + b) 16) by (rewrite Z.shiftl_mul_pow2; lia).
  rewrite (lor_shiftl_add (a' * 256 + b) (Z.shiftl c 8)) by (rewrite ?Z.shiftl_mul_pow2; lia).
  rewrite (Z.shiftl_mul_pow2 c) by lia.
  replace ((a' * 256 + b) * 2 ^ 16 + c * 2 ^ 8) with (Z.shiftl ((a' * 256 + b) * 256 + c) 8) by (rewrite Z.shiftl_mul_pow2; lia).
  rewrite lor_shiftl_add by lia. lia.
Qed.

(** The digits of a number below 2^32 in base 256. *)
Lemma digits4 v : 0 <= v < 2 ^ 32 ->
  v = (v / 2 ^ 24) mod 256 * 16777216 + (v / 2 ^ 16) mod 256 * 65536 + (v / 2 ^ 8) mod 256 * 256 + v mod 256.
Proof.
  intros Hv. change (2 ^ 8) with 256. replace (2 ^ 16) with (256 * 256) by reflexivity.
  replace (2 ^ 24) with (256 * 256 * 256) by reflexivity. rewrite <- !Z.div_div by lia.
  set (a := v / 256). set (b := a / 256). set (c := b / 256).
  pose proof (Z.div_mod v 256). pose proof (Z.div_mod a 256). pose proof (Z.div_mod b 256).
  assert (c mod 256 = c) by (apply Z.mod_small; subst a b c; split; [repeat apply Z.div_pos; lia|];
    repeat (apply Z.div_lt_upper_bound; [lia|]); lia). lia.
Qed.

Lemma byte_mod v : is_byte (v mod 256).
Proof. apply Z.mod_pos_bound. lia. Qed.

Lemma new_header_fields len type flags id : 0 <= len < 2 ^ 24 -> 0 <= id < 2 ^ 31 ->
  let h := new_header len type flags id in
  getLength h = len /\ getType h = type /\ getFlags h = flags /\ getStreamId h = id.
Proof.
  intros Hl Hi h. split_and!; try reflexivity.
  - rewrite (getLength_val h _ _ _ eq_refl); rewrite ?land_255, ?shiftr_div by lia; try apply byte_mod.
    rewrite (digits4 len) at 4 by lia.
    assert ((len / 2 ^ 24) mod 256 = 0) as -> by (rewrite (Z.div_small len) by lia; reflexivity). lia.
  - rewrite (getStreamId_val h _ _ _ _ eq_refl); rewrite ?land_255, ?shiftr_div by lia; try apply byte_mod.
    rewrite (digits4 id) at 5 by lia. do 3 f_equal. f_equal.
    assert (0 <= id / 2 ^ 24 < 128).
    { split; [apply Z.div_pos; lia|apply Z.div_lt_upper_bound; lia]. }
    rewrite (Z.mod_small (id / 2 ^ 24) 256), Z.mod_small by lia. reflexivity.
Qed.

Lemma read_header_bytes h rest : read_header (header_bytes h ++ rest) = h.
Proof. destruct h as [[[a b] c] t f [[[i j] k] l]]. reflexivity. Qed.

Lemma beRead_bytes a b c d rest : is_byte a -> is_byte b -> is_byte c -> is_byte d ->
  beReadUint32 (a :: b :: c :: d :: rest) = a * 16777216 + b * 65536 + c * 256 + d.
Proof.
  unfold is_byte. intros Ha Hb Hc Hd. unfold beReadUint32, wrapu. set (l := a :: b :: c :: d :: rest).
  change (znth l 0) with a. change (znth l 1) with b. change (znth l 2) with c. change (znth l 3) with d. clear l.
  rewrite (Z.mod_small (Z.shiftl a 8)) by (rewrite Z.shiftl_mul_pow2; lia). rewrite (lor_shiftl_add a b) by lia.
  rewrite (Z.mod_small (Z.shiftl (a * 2 ^ 8 + b) 8)) by (rewrite Z.shiftl_mul_pow2; lia).
  rewrite (lor_shiftl_add (a * 2 ^ 8 + b) c) by lia.
  rewrite (Z.mod_small (Z.shiftl ((a * 2 ^ 8 + b) * 2 ^ 8 + c) 8)) by (rewrite Z.shiftl_mul_pow2; lia).
  rewrite lor_shiftl_add by lia. lia.
Qed.

Lemma beRead_nbo4 v rest : 0 <= v < 2 ^ 32 -> beReadUint32 (appendNbo4Bytes v ++ rest) = v.
Proof.
  intros Hv. unfold appendNbo4Bytes, wrapu. rewrite !land_255, !shiftr_div by lia. cbn [app].
  rewrite beRead_bytes by apply byte_mod. symmetry. apply digits4. assumption.
Qed.

(** ** Frames one after the other *)

Definition frame_bytes (f : H2FrameHeader * list Z) : list Z := header_bytes (fst f) ++ snd f.

Lemma frames_fuel_concat fs : forall fuel rem,
  Forall (fun f => getLength (fst f) = zlen (snd f)) fs ->
  zlen rem < H2_FRAME_HEADER_SIZE ->
  (length (concat (map frame_bytes fs) ++ rem) < fuel)%nat ->
  frames_fuel fuel (concat (map frame_bytes fs) ++ rem) = (fs, rem).
Proof.
  induction fs as [|[h p] fs IH]; intros fuel rem Hl Hr Hf; (destruct fuel as [|fuel]; [lia|]).
  - cbn [map concat app frames_fuel]. replace (zlen rem <? H2_FRAME_HEADER_SIZE) with true by lia. reflexivity.
  - inversion Hl as [|? ? Hh Hl']; subst. cbn [fst snd] in Hh. cbn [map concat frames_fuel].
    change (frame_bytes (h, p)) with (header_bytes h ++ p). rewrite <- !app_assoc.
    pose proof (zlen_header_bytes h) as H9. pose proof (zlen_nonneg p).
    pose proof (zlen_nonneg (concat (map frame_bytes fs) ++ rem)).
    rewrite zlen_app, H9, zlen_app. unfold H2_FRAME_HEADER_SIZE in *.
    match goal with |- context [?a <? 9] => replace (a <? 9) with false by lia end.
    rewrite read_header_bytes, zdrop_app_len by assumption. rewrite Hh, zlen_app.
    match goal with |- context [?a <? zlen p] => replace (a <? zlen p) with false by lia end.
    rewrite zdrop_app_exact, ztake_app_exact, IH; auto.
    cbn [map concat] in Hf. change (frame_bytes (h, p)) with (header_bytes h ++ p) in Hf.
    unfold zlen in H9. rewrite <- !app_assoc, !length_app in Hf. rewrite length_app. lia.
Qed.

Lemma frames_of_concat fs rem :
  Forall (fun f => getLength (fst f) = zlen (snd f)) fs -> zlen rem < H2_FRAME_HEADER_SIZE ->
  frames_of (concat (map frame_bytes fs) ++ rem) = (fs, rem).
Proof. intros. apply frames_fuel_concat; auto. Qed.

(** The frames a header block is sent as: full ones without END_HEADERS, then
    one with it; only the first has the given type and flags. *)
Inductive header_chain (maxFrame id : Z) : Z -> Z -> list (H2FrameHeader * list Z) -> Prop :=
  | chain_last type flag p :
      0 < zlen p <= maxFrame ->
      header_chain maxFrame id type flag [(new_header (zlen p) type (Z.lor flag H2_FLAG_END_HEADERS) id, p)]
  | chain_more type flag p fs :
      zlen p = maxFrame -> header_chain maxFrame id H2_FRAME_CONTINUATION 0 fs ->
      header_chain maxFrame id type flag ((new_header maxFrame type flag id, p) :: fs).

Lemma chain_lengths maxFrame id type flag fs :
  0 < maxFrame < 2 ^ 24 -> header_chain maxFrame id type flag fs -> 0 <= id < 2 ^ 31 ->
  Forall (fun f => getLength (fst f) = zlen (snd f)) fs.
Proof.
  intros Hm Hc Hid. induction Hc as [type flag p Hp|type flag p fs Hp Hc IH]; constructor; auto; cbn [fst snd].
  - exact (proj1 (new_header_fields (zlen p) type (Z.lor flag H2_FLAG_END_HEADERS) id ltac:(lia) Hid)).
  - rewrite Hp. exact (proj1 (new_header_fields maxFrame type flag id ltac:(lia) Hid)).
Qed.

Lemma slice_exact {A} (a b c : list A) : slice (zlen a) (zlen a + zlen b) (a ++ b ++ c) = b.
Proof.
  unfold slice. rewrite zdrop_app_exact. replace (zlen a + zlen b - zlen a) with (zlen b) by lia.
  apply ztake_app_exact.
Qed.

(** One round's frame: the stored header followed by its payload. *)
Lemma stored_frame mem p n h : 9 <= p -> 0 <= n -> p + n <= zlen mem ->
  let mem' := store mem (p - 9) (header_bytes h) in
  slice (p - 9) (p + n) mem' = header_bytes h ++ slice p (p + n) mem /\
  zlen mem' = zlen mem /\ forall j, slice p j mem' = slice p j mem.
Proof.
  intros Hp Hn Hm mem'. pose proof (zlen_header_bytes h) as H9. subst mem'.
  assert (Ha : forall j, slice p j (store mem (p - 9) (header_bytes h)) = slice p j mem).
  { intros j. apply slice_store_after; lia. }
  split_and!; [|rewrite zlen_store; lia|exact Ha].
  rewrite (slice_split (p - 9) p) by lia. rewrite (slice_store mem (p - 9)) by lia. rewrite Ha. reflexivity.
Qed.

Lemma slice_tail (mem : list Z) p n : 0 <= n -> 0 <= p -> zdrop n (zdrop p mem) = zdrop (p + n) mem.
Proof. intros. apply zdrop_zdrop; lia. Qed.

Lemma sendHeaderCont_chain maxFrame id : 0 < maxFrame -> forall fuel mem p type flag,
  9 <= p -> 0 < zlen mem - p < Z.of_nat fuel ->
  exists fs, sendHeaderCont_loop fuel maxFrame id mem p (zlen mem - p) type flag = map frame_bytes fs /\
    header_chain maxFrame id type flag fs /\ concat (map snd fs) = zdrop p mem.
Proof.
  intros Hmax. induction fuel as [|fuel IH]; intros mem p type flag Hp Hs; [lia|]. cbn [sendHeaderCont_loop].
  replace (zlen mem - p >? 0) with true by lia. destruct (Z.gtb_spec (zlen mem - p) maxFrame) as [Hg|Hg].
  - replace (zlen mem - p - maxFrame >? 0) with true by lia.
    set (h := new_header maxFrame type flag id).
    destruct (stored_frame mem p maxFrame h ltac:(lia) ltac:(lia) ltac:(lia)) as (Hf & Hz & Ha).
    set (mem' := store mem (p - 9) (header_bytes h)) in *. rewrite Hf.
    replace (zlen mem - p - maxFrame) with (zlen mem' - (p + maxFrame)) by lia.
    destruct (IH mem' (p + maxFrame) H2_FRAME_CONTINUATION 0) as (fs & -> & Hc & Hcat); [lia|lia|].
    exists ((h, slice p (p + maxFrame) mem) :: fs). split_and!; [reflexivity| |].
    + apply chain_more; [rewrite zlen_slice; lia|assumption].
    + cbn [map concat snd]. rewrite Hcat. specialize (Ha (zlen mem')).
      assert (Hall : forall m : list Z, zlen m = zlen mem -> slice p (zlen mem') m = zdrop p m).
      { intros m Hm. unfold slice. apply ztake_all. rewrite zlen_zdrop by lia. lia. }
      rewrite <- slice_tail by lia. rewrite <- (Hall mem'), Ha, Hall by lia.
      unfold slice. replace (p + maxFrame - p) with maxFrame by lia. apply ztake_zdrop.
  - cbn [Z.gtb Z.compare]. set (h := new_header (zlen mem - p) type (Z.lor flag H2_FLAG_END_HEADERS) id).
    destruct (stored_frame mem p (zlen mem - p) h ltac:(lia) ltac:(lia) ltac:(lia)) as (Hf & Hz & Ha).
    rewrite Hf. exists [(h, slice p (p + (zlen mem - p)) mem)].
    assert (Hsl : slice p (p + (zlen mem - p)) mem = zdrop p mem).
    { unfold slice. apply ztake_all. rewrite zlen_zdrop by lia. lia. }
    rewrite Hsl. split_and!.
    + cbn [map]. f_equal. destruct fuel; reflexivity.
    + subst h. replace (zlen mem - p) with (zlen (zdrop p mem)) by (rewrite zlen_zdrop; lia).
      apply chain_last. rewrite zlen_zdrop by lia. lia.
    + cbn. apply app_nil_r.
Qed.

(** C25: splitting a header block.  A block of any length encoded into the
    buffer goes out as frames of the stream whose payloads, put together, are
    the block although every header is written over the bytes before its
    payload; all frames but the last are exactly as long as the peer allows,
    the first has the type and flags asked for, the others are CONTINUATION
    frames, and END_HEADERS is on the last one alone.  Reading the bytes sent
    as frames gives these frames back. *)
Theorem header_block_split maxFrame id flag type room block :
  0 < maxFrame < 2 ^ 24 -> 0 <= id < 2 ^ 31 -> 9 <= zlen room -> block <> [] ->
  exists fs, frames_of (concat (sendHeaderContFrame maxFrame id flag type room block)) = (fs, []) /\
    header_chain maxFrame id type flag fs /\ concat (map snd fs) = block.
Proof.
  intros Hm Hid Hr Hb. unfold sendHeaderContFrame.
  assert (0 < zlen block) by (destruct block; [congruence|rewrite zlen_cons; pose proof (zlen_nonneg block); lia]).
  destruct (sendHeaderCont_chain maxFrame id ltac:(lia) (S (length block)) (room ++ block) (zlen room) type flag)
    as (fs & Hs & Hc & Hcat); [lia|rewrite zlen_app; unfold zlen in *; lia|].
  rewrite zlen_app in Hs. replace (zlen room + zlen block - zlen room) with (zlen block) in Hs by lia.
  rewrite Hs. exists fs. rewrite zdrop_app_exact in Hcat. split_and!; auto.
  rewrite <- (app_nil_r (concat _)). apply frames_of_concat; [eapply chain_lengths; eauto|reflexivity].
Qed.

(** The frame header.  Length, type, flags and stream id written into a
    header come back unchanged from the nine bytes on the wire, with the
    reserved bit of the stream id dropped. *)
Theorem header_roundtrip len type flags id rest :
  0 <= len < 2 ^ 24 -> is_byte type -> is_byte flags -> 0 <= id < 2 ^ 32 ->
  let s := header_bytes (new_header len type flags id) in
  zlen s = H2_FRAME_HEADER_SIZE /\ bytes_ok s /\
  let h := read_header (s ++ rest) in
  getLength h = len /\ getType h = type /\ getFlags h = flags /\ getStreamId h = id mod 2 ^ 31.
Proof.
  intros Hl Ht Hf Hi s. split; [apply zlen_header_bytes|]. split.
  - unfold s, header_bytes, new_header, setLength, setStreamId. cbn.
    rewrite !land_255. repeat (constructor; [apply byte_mod || assumption|]). constructor.
  - subst s. rewrite read_header_bytes.
    destruct (new_header_fields len type flags (id mod 2 ^ 31)) as (H1 & H2 & H3 & H4); [lia|apply Z.mod_pos_bound; lia|].
    split_and!; auto.
    rewrite (getStreamId_val (new_header len type flags id) _ _ _ _ eq_refl); rewrite ?land_255, ?shiftr_div by lia; try apply byte_mod.
    pose proof (digits4 id Hi) as Hdig. rewrite (Z.mod_eq id (2 ^ 31)) by lia.
    assert (Hd : id / 2 ^ 31 = (id / 2 ^ 24) mod 256 / 128).
    { assert (0 <= id / 2 ^ 24 < 256) by (split; [apply Z.div_pos; lia|apply Z.div_lt_upper_bound; lia]).
      rewrite (Z.mod_small (id / 2 ^ 24)) by lia. rewrite Z.div_div by lia. reflexivity. }
    rewrite Hd. pose proof (Z.div_mod ((id / 2 ^ 24) mod 256) 128). lia.
Qed.

(** ** Examples *)

Lemma header_block_split_witness :
  exists fs, frames_of (concat (sendHeaderContFrame 5 7 1 H2_FRAME_HEADERS (repeat 0 16) (bs "twelve bytes"))) = (fs, []) /\
    header_chain 5 7 H2_FRAME_HEADERS 1 fs /\ concat (map snd fs) = bs "twelve bytes".
Proof. apply (header_block_split 5 7 1); try lia; [|discriminate]. vm_compute. discriminate. Defined.

Lemma header_roundtrip_witness :
  getStreamId (read_header (header_bytes (new_header 16384 H2_FRAME_DATA 1 (2 ^ 31 + 5)))) = 5.
Proof.
  destruct (header_roundtrip 16384 H2_FRAME_DATA 1 (2 ^ 31 + 5) []) as (_ & _ & Hr); [lia|unfold is_byte, H2_FRAME_DATA; lia..|].
  cbv zeta in Hr. rewrite app_nil_r in Hr. apply Hr.
Defined.
