(* ===== verification/H2State.v ===== *)
(** * H2State: the state of an HTTP/2 connection (the classes of
    src/src/h2/h2connbase.h, src/src/h2/h2streambase.h,
    src/src/h2/h2protocol.h, src/src/edio/streamstat.h, src/src/edio/bufferedos.h)

    A connection is grouped into its input side, its output side, its flow
    control, its counters, its flags, its priority queues and its stream table.
    Buffers are any byte queue with the contract of LoopBuf; flags are boolean
    functions on the names of their bits.

    The stream below the connection answers each write with the number of bytes
    it takes; [sock] lists these answers, and [wire] is everything it took.
    Segments of the peer's bytes that have arrived wait in [netIn].  [trace]
    is what the code's log reports of the input.

    Not kept: activity times and idle timers, the connection's client record,
    the pending DATA frame of [getDirectOutBuf] (which no handler uses). *)

From S2P Require Import Prelude LoopBuf H2Frame.
From stdpp Require Import fin_maps functions.
#[local] Open Scope Z_scope.

(** ** States and flags *)

Definition HIOS_DISCONNECTED : Z := 0.
Definition HIOS_CONNECTED : Z := 3.
Definition HIOS_SHUTDOWN : Z := 5.
Definition HIOS_RESET : Z := 6.

(** The bits of [stream_flag] the HTTP/2 code uses. *)
Inductive sflag :=
  | PEER_SHUTDOWN | LOCAL_SHUTDOWN | WANT_READ | WANT_WRITE | ABORT | PEER_RESET | PAUSE_WRITE
  | EVENT_PROCESSING | HANDLER_RELEASE | INIT_SESS | PRI_SET | RESP_HEADER_SENT | READ_EOS | STREAM_DROP.

#[export] Instance sflag_dec : EqDecision sflag.
Proof. solve_decision. Defined.

(** The bits of [h2flag]. *)
Inductive h2flag :=
  | GOAWAY | PREFACE | SETTING_RCVD | SETTING_SENT | CONFIRMED | HEADERS_START | WAIT_PROCESS
  | WANT_FLUSH | IN_EVENT | PAUSE_READ | DIRECT_BUF | PENDING_STREAM | DROP.

#[export] Instance h2flag_dec : EqDecision h2flag.
Proof. solve_decision. Defined.

(** [m_inputState] *)
Inductive input_state := ST_CONTROL_FRAME | ST_DATA_PAYLOAD | ST_SKIP_REMAIN.

#[export] Instance input_state_dec : EqDecision input_state.
Proof. solve_decision. Defined.

Record Priority_st := Priority { m_dependStreamId : Z; m_weight : Z; m_exclusive : Z }.

Definition HIO_PRIORITY_HIGHEST : Z := 0.
Definition HIO_PRIORITY_LOWEST : Z := 7.
Definition HIO_PRIORITY_HTML : Z := 2.
Definition HIO_EOR : Z := 1.
Definition H2_STREAM_PRIORITYS : Z := 8.
Definition MAX_CONTROL_FRAMES_RATE : Z := 1000.

(** ** The state *)

Section State.

Context {Q : Type}.

(** [H2StreamBase] with the parts of [StreamStat] it uses; [s_handler] tells
    whether a handler is attached, [s_inMap] whether the connection's hash table
    still has the stream: an object outlives its entry until it is recycled. *)
Record stream := Stream {
  s_state : Z; s_flag : sflag -> bool; s_priority : Z; m_bufRcvd : Q;
  m_iWindowToUpdate : Z; m_iWindowOut : Z; m_iWindowIn : Z;
  s_bytesRecv : Z; s_bytesSent : Z; s_handler : bool; s_inMap : bool }.

(** What the log reports of the input: a control frame handed to
    [processFrame] with its payload, DATA bytes handed to a stream, a stream
    told that the peer is done, a complete header block handed to the
    decoder. *)
Inductive event :=
  | EvFrame (h : H2FrameHeader) (payload : list Z)
  | EvData (id : Z) (d : list Z)
  | EvFin (id : Z)
  | EvHeaders (id : Z) (block : list Z) (flags : Z).

(** The input side: [m_bufInput], [m_bufInflate], the frame being read, and the
    segments of the peer's bytes that have arrived but were not read. *)
Record input := Input {
  m_bufInput : Q; m_bufInflate : list Z; m_iCurrentFrameRemain : Z; m_curH2Header : H2FrameHeader;
  m_inputState : input_state; m_padLen : Z; m_current : option Z; netIn : list (list Z); trace : list event }.

(** The output side: [m_buf] of BufferedOS and the stream below it. *)
Record output := Output {
  m_buf : Q; wire : list Z; sock : list Z; os_wantWrite : bool; os_pauseWrite : bool; os_wantRead : bool;
  os_closing : bool; os_release : bool }.

(** Flow control and limits. *)
Record flow := Flow {
  m_iCurDataOutWindow : Z; m_iDataInWindow : Z; m_iCurDataInWindow : Z; m_iInBytesToUpdate : Z;
  m_iStreamInInitWindowSize : Z; m_iStreamOutInitWindowSize : Z; m_iPeerMaxFrameSize : Z }.

(** Counters. *)
Record counts := Counts {
  m_uiLastStreamId : Z; m_uiStreams : Z; m_uiRstStreams : Z; m_uiShutdownStreams : Z; m_iControlFrames : Z;
  m_pingSent : bool; m_http2Disabled : bool }.

Record conn := Conn {
  c_in : input; c_out : output; c_flow : flow; c_cnt : counts; m_h2flag : h2flag -> bool;
  m_priority : Priority_st; m_priQue : Z -> list Z; m_mapStream : gmap Z stream }.

End State.

Arguments stream : clear implicits.
Arguments input : clear implicits.
Arguments output : clear implicits.
Arguments conn : clear implicits.

(** ** Field updates *)

Section Updates.

Context {Q : Type}.

Definition set_s_state (v : Z) (s : stream Q) : stream Q :=
  Stream v (s_flag s) (s_priority s) (m_bufRcvd s) (m_iWindowToUpdate s) (m_iWindowOut s) (m_iWindowIn s) (s_bytesRecv s) (s_bytesSent s) (s_handler s) (s_inMap s).
Definition set_s_flag (v : sflag -> bool) (s : stream Q) : stream Q :=
  Stream (s_state s) v (s_priority s) (m_bufRcvd s) (m_iWindowToUpdate s) (m_iWindowOut s) (m_iWindowIn s) (s_bytesRecv s) (s_bytesSent s) (s_handler s) (s_inMap s).
Definition set_s_priority (v : Z) (s : stream Q) : stream Q :=
  Stream (s_state s) (s_flag s) v (m_bufRcvd s) (m_iWindowToUpdate s) (m_iWindowOut s) (m_iWindowIn s) (s_bytesRecv s) (s_bytesSent s) (s_handler s) (s_inMap s).
Definition set_bufRcvd (v : Q) (s : stream Q) : stream Q :=
  Stream (s_state s) (s_flag s) (s_priority s) v (m_iWindowToUpdate s) (m_iWindowOut s) (m_iWindowIn s) (s_bytesRecv s) (s_bytesSent s) (s_handler s) (s_inMap s).
Definition set_iWindowToUpdate (v : Z) (s : stream Q) : stream Q :=
  Stream (s_state s) (s_flag s) (s_priority s) (m_bufRcvd s) v (m_iWindowOut s) (m_iWindowIn s) (s_bytesRecv s) (s_bytesSent s) (s_handler s) (s_inMap s).
Definition set_iWindowOut (v : Z) (s : stream Q) : stream Q :=
  Stream (s_state s) (s_flag s) (s_priority s) (m_bufRcvd s) (m_iWindowToUpdate s) v (m_iWindowIn s) (s_bytesRecv s) (s_bytesSent s) (s_handler s) (s_inMap s).
Definition set_iWindowIn (v : Z) (s : stream Q) : stream Q :=
  Stream (s_state s) (s_flag s) (s_priority s) (m_bufRcvd s) (m_iWindowToUpdate s) (m_iWindowOut s) v (s_bytesRecv s) (s_bytesSent s) (s_handler s) (s_inMap s).
Definition set_s_bytesRecv (v : Z) (s : stream Q) : stream Q :=
  Stream (s_state s) (s_flag s) (s_priority s) (m_bufRcvd s) (m_iWindowToUpdate s) (m_iWindowOut s) (m_iWindowIn s) v (s_bytesSent s) (s_handler s) (s_inMap s).
Definition set_s_bytesSent (v : Z) (s : stream Q) : stream Q :=
  Stream (s_state s) (s_flag s) (s_priority s) (m_bufRcvd s) (m_iWindowToUpdate s) (m_iWindowOut s) (m_iWindowIn s) (s_bytesRecv s) v (s_handler s) (s_inMap s).
Definition set_s_handler (v : bool) (s : stream Q) : stream Q :=
  Stream (s_state s) (s_flag s) (s_priority s) (m_bufRcvd s) (m_iWindowToUpdate s) (m_iWindowOut s) (m_iWindowIn s) (s_bytesRecv s) (s_bytesSent s) v (s_inMap s).
Definition set_s_inMap (v : bool) (s : stream Q) : stream Q :=
  Stream (s_state s) (s_flag s) (s_priority s) (m_bufRcvd s) (m_iWindowToUpdate s) (m_iWindowOut s) (m_iWindowIn s) (s_bytesRecv s) (s_bytesSent s) (s_handler s) v.

Definition set_c_in (v : input Q) (c : conn Q) : conn Q :=
  Conn v (c_out c) (c_flow c) (c_cnt c) (m_h2flag c) (m_priority c) (m_priQue c) (m_mapStream c).
Definition set_c_out (v : output Q) (c : conn Q) : conn Q :=
  Conn (c_in c) v (c_flow c) (c_cnt c) (m_h2flag c) (m_priority c) (m_priQue c) (m_mapStream c).
Definition set_c_flow (v : flow) (c : conn Q) : conn Q :=
  Conn (c_in c) (c_out c) v (c_cnt c) (m_h2flag c) (m_priority c) (m_priQue c) (m_mapStream c).
Definition set_c_cnt (v : counts) (c : conn Q) : conn Q :=
  Conn (c_in c) (c_out c) (c_flow c) v (m_h2flag c) (m_priority c) (m_priQue c) (m_mapStream c).
Definition set_h2flag (v : h2flag -> bool) (c : conn Q) : conn Q :=
  Conn (c_in c) (c_out c) (c_flow c) (c_cnt c) v (m_priority c) (m_priQue c) (m_mapStream c).
Definition set_priority (v : Priority_st) (c : conn Q) : conn Q :=
  Conn (c_in c) (c_out c) (c_flow c) (c_cnt c) (m_h2flag c) v (m_priQue c) (m_mapStream c).
Definition set_priQue (v : Z -> list Z) (c : conn Q) : conn Q :=
  Conn (c_in c) (c_out c) (c_flow c) (c_cnt c) (m_h2flag c) (m_priority c) v (m_mapStream c).
Definition set_mapStream (v : gmap Z (stream Q)) (c : conn Q) : conn Q :=
  Conn (c_in c) (c_out c) (c_flow c) (c_cnt c) (m_h2flag c) (m_priority c) (m_priQue c) v.
Definition set_bufInput (v : Q) (c : conn Q) : conn Q :=
  let x := c_in c in set_c_in (Input v (m_bufInflate x) (m_iCurrentFrameRemain x) (m_curH2Header x) (m_inputState x) (m_padLen x) (m_current x) (netIn x) (trace x)) c.
Definition set_bufInflate (v : list Z) (c : conn Q) : conn Q :=
  let x := c_in c in set_c_in (Input (m_bufInput x) v (m_iCurrentFrameRemain x) (m_curH2Header x) (m_inputState x) (m_padLen x) (m_current x) (netIn x) (trace x)) c.
Definition set_iCurrentFrameRemain (v : Z) (c : conn Q) : conn Q :=
  let x := c_in c in set_c_in (Input (m_bufInput x) (m_bufInflate x) v (m_curH2Header x) (m_inputState x) (m_padLen x) (m_current x) (netIn x) (trace x)) c.
Definition set_curH2Header (v : H2FrameHeader) (c : conn Q) : conn Q :=
  let x := c_in c in set_c_in (Input (m_bufInput x) (m_bufInflate x) (m_iCurrentFrameRemain x) v (m_inputState x) (m_padLen x) (m_current x) (netIn x) (trace x)) c.
Definition set_inputState (v : input_state) (c : conn Q) : conn Q :=
  let x := c_in c in set_c_in (Input (m_bufInput x) (m_bufInflate x) (m_iCurrentFrameRemain x) (m_curH2Header x) v (m_padLen x) (m_current x) (netIn x) (trace x)) c.
Definition set_padLen (v : Z) (c : conn Q) : conn Q :=
  let x := c_in c in set_c_in (Input (m_bufInput x) (m_bufInflate x) (m_iCurrentFrameRemain x) (m_curH2Header x) (m_inputState x) v (m_current x) (netIn x) (trace x)) c.
Definition set_current (v : option Z) (c : conn Q) : conn Q :=
  let x := c_in c in set_c_in (Input (m_bufInput x) (m_bufInflate x) (m_iCurrentFrameRemain x) (m_curH2Header x) (m_inputState x) (m_padLen x) v (netIn x) (trace x)) c.
Definition set_netIn (v : list (list Z)) (c : conn Q) : conn Q :=
  let x := c_in c in set_c_in (Input (m_bufInput x) (m_bufInflate x) (m_iCurrentFrameRemain x) (m_curH2Header x) (m_inputState x) (m_padLen x) (m_current x) v (trace x)) c.
Definition set_trace (v : list event) (c : conn Q) : conn Q :=
  let x := c_in c in set_c_in (Input (m_bufInput x) (m_bufInflate x) (m_iCurrentFrameRemain x) (m_curH2Header x) (m_inputState x) (m_padLen x) (m_current x) (netIn x) v) c.

Definition set_buf (v : Q) (c : conn Q) : conn Q :=
  let x := c_out c in set_c_out (Output v (wire x) (sock x) (os_wantWrite x) (os_pauseWrite x) (os_wantRead x) (os_closing x) (os_release x)) c.
Definition set_wire (v : list Z) (c : conn Q) : conn Q :=
  let x := c_out c in set_c_out (Output (m_buf x) v (sock x) (os_wantWrite x) (os_pauseWrite x) (os_wantRead x) (os_closing x) (os_release x)) c.
Definition set_sock (v : list Z) (c : conn Q) : conn Q :=
  let x := c_out c in set_c_out (Output (m_buf x) (wire x) v (os_wantWrite x) (os_pauseWrite x) (os_wantRead x) (os_closing x) (os_release x)) c.
Definition set_os_wantWrite (v : bool) (c : conn Q) : conn Q :=
  let x := c_out c in set_c_out (Output (m_buf x) (wire x) (sock x) v (os_pauseWrite x) (os_wantRead x) (os_closing x) (os_release x)) c.
Definition set_os_pauseWrite (v : bool) (c : conn Q) : conn Q :=
  let x := c_out c in set_c_out (Output (m_buf x) (wire x) (sock x) (os_wantWrite x) v (os_wantRead x) (os_closing x) (os_release x)) c.
Definition set_os_wantRead (v : bool) (c : conn Q) : conn Q :=
  let x := c_out c in set_c_out (Output (m_buf x) (wire x) (sock x) (os_wantWrite x) (os_pauseWrite x) v (os_closing x) (os_release x)) c.
Definition set_os_closing (v : bool) (c : conn Q) : conn Q :=
  let x := c_out c in set_c_out (Output (m_buf x) (wire x) (sock x) (os_wantWrite x) (os_pauseWrite x) (os_wantRead x) v (os_release x)) c.
Definition set_os_release (v : bool) (c : conn Q) : conn Q :=
  let x := c_out c in set_c_out (Output (m_buf x) (wire x) (sock x) (os_wantWrite x) (os_pauseWrite x) (os_wantRead x) (os_closing x) v) c.

Definition set_iCurDataOutWindow (v : Z) (c : conn Q) : conn Q :=
  let x := c_flow c in set_c_flow (Flow v (m_iDataInWindow x) (m_iCurDataInWindow x) (m_iInBytesToUpdate x) (m_iStreamInInitWindowSize x) (m_iStreamOutInitWindowSize x) (m_iPeerMaxFrameSize x)) c.
Definition set_iDataInWindow (v : Z) (c : conn Q) : conn Q :=
  let x := c_flow c in set_c_flow (Flow (m_iCurDataOutWindow x) v (m_iCurDataInWindow x) (m_iInBytesToUpdate x) (m_iStreamInInitWindowSize x) (m_iStreamOutInitWindowSize x) (m_iPeerMaxFrameSize x)) c.
Definition set_iCurDataInWindow (v : Z) (c : conn Q) : conn Q :=
  let x := c_flow c in set_c_flow (Flow (m_iCurDataOutWindow x) (m_iDataInWindow x) v (m_iInBytesToUpdate x) (m_iStreamInInitWindowSize x) (m_iStreamOutInitWindowSize x) (m_iPeerMaxFrameSize x)) c.
Definition set_iInBytesToUpdate (v : Z) (c : conn Q) : conn Q :=
  let x := c_flow c in set_c_flow (Flow (m_iCurDataOutWindow x) (m_iDataInWindow x) (m_iCurDataInWindow x) v (m_iStreamInInitWindowSize x) (m_iStreamOutInitWindowSize x) (m_iPeerMaxFrameSize x)) c.
Definition set_iStreamInInitWindowSize (v : Z) (c : conn Q) : conn Q :=
  let x := c_flow c in set_c_flow (Flow (m_iCurDataOutWindow x) (m_iDataInWindow x) (m_iCurDataInWindow x) (m_iInBytesToUpdate x) v (m_iStreamOutInitWindowSize x) (m_iPeerMaxFrameSize x)) c.
Definition set_iStreamOutInitWindowSize (v : Z) (c : conn Q) : conn Q :=
  let x := c_flow c in set_c_flow (Flow (m_iCurDataOutWindow x) (m_iDataInWindow x) (m_iCurDataInWindow x) (m_iInBytesToUpdate x) (m_iStreamInInitWindowSize x) v (m_iPeerMaxFrameSize x)) c.
Definition set_iPeerMaxFrameSize (v : Z) (c : conn Q) : conn Q :=
  let x := c_flow c in set_c_flow (Flow (m_iCurDataOutWindow x) (m_iDataInWindow x) (m_iCurDataInWindow x) (m_iInBytesToUpdate x) (m_iStreamInInitWindowSize x) (m_iStreamOutInitWindowSize x) v) c.

Definition set_uiLastStreamId (v : Z) (c : conn Q) : conn Q :=
  let x := c_cnt c in set_c_cnt (Counts v (m_uiStreams x) (m_uiRstStreams x) (m_uiShutdownStreams x) (m_iControlFrames x) (m_pingSent x) (m_http2Disabled x)) c.
Definition set_uiStreams (v : Z) (c : conn Q) : conn Q :=
  let x := c_cnt c in set_c_cnt (Counts (m_uiLastStreamId x) v (m_uiRstStreams x) (m_uiShutdownStreams x) (m_iControlFrames x) (m_pingSent x) (m_http2Disabled x)) c.
Definition set_uiRstStreams (v : Z) (c : conn Q) : conn Q :=
  let x := c_cnt c in set_c_cnt (Counts (m_uiLastStreamId x) (m_uiStreams x) v (m_uiShutdownStreams x) (m_iControlFrames x) (m_pingSent x) (m_http2Disabled x)) c.
Definition set_uiShutdownStreams (v : Z) (c : conn Q) : conn Q :=
  let x := c_cnt c in set_c_cnt (Counts (m_uiLastStreamId x) (m_uiStreams x) (m_uiRstStreams x) v (m_iControlFrames x) (m_pingSent x) (m_http2Disabled x)) c.
Definition set_iControlFrames (v : Z) (c : conn Q) : conn Q :=
  let x := c_cnt c in set_c_cnt (Counts (m_uiLastStreamId x) (m_uiStreams x) (m_uiRstStreams x) (m_uiShutdownStreams x) v (m_pingSent x) (m_http2Disabled x)) c.
Definition set_pingSent (v : bool) (c : conn Q) : conn Q :=
  let x := c_cnt c in set_c_cnt (Counts (m_uiLastStreamId x) (m_uiStreams x) (m_uiRstStreams x) (m_uiShutdownStreams x) (m_iControlFrames x) v (m_http2Disabled x)) c.
Definition set_http2Disabled (v : bool) (c : conn Q) : conn Q :=
  let x := c_cnt c in set_c_cnt (Counts (m_uiLastStreamId x) (m_uiStreams x) (m_uiRstStreams x) (m_uiShutdownStreams x) (m_iControlFrames x) (m_pingSent x) v) c.


End Updates.
