(* ===== verification/H2Conn.v ===== *)
(** * H2Conn: output and flow control of an HTTP/2 connection
    (src/src/h2/h2connbase.{h,cpp}, src/src/h2/h2streambase.cpp,
    src/src/h2/h2connection.{h,cpp}, src/src/edio/bufferedos.cpp)

    The buffered output, the priority queues, and the two sides of flow
    control: the DATA frames a stream's [write] sends within the peer's
    windows, and the windows granted to the peer with the WINDOW_UPDATE frames
    that renew them.  [bufferedWrite] of the stream below is HioStream's, which
    takes nothing; memory allocation succeeds.  A call on a stream that has
    left the table has no effect. *)

From S2P Require Import Prelude LoopBuf H2Frame H2State.
From stdpp Require Import fin_maps functions.
#[local] Open Scope Z_scope.

Section Conn.

Context {Q : Type} {BQ : ByteQueue Q}.

Implicit Types (c : conn Q) (s : stream Q).

(** ** Flags, streams, queues *)

Definition flag c (f : h2flag) : bool := m_h2flag c f.
Definition set_flag (f : h2flag) c : conn Q := set_h2flag (<[f := true]> (m_h2flag c)) c.
Definition clr_flag (f : h2flag) c : conn Q := set_h2flag (<[f := false]> (m_h2flag c)) c.

Definition sset (f : sflag) (b : bool) s : stream Q := set_s_flag (<[f := b]> (s_flag s)) s.

(** The stream object behind a pointer, and the entry of the hash table. *)
Definition deref (id : Z) c : option (stream Q) := m_mapStream c !! id.
Definition findStream (id : Z) c : option (stream Q) :=
  match deref id c with Some s => if s_inMap s then Some s else None | None => None end.
Definition upd (id : Z) (f : stream Q -> stream Q) c : conn Q := set_mapStream (alter f id (m_mapStream c)) c.

(** [stream->next() != NULL]: the stream is linked into a priority queue. *)
Definition linked (id : Z) c : bool :=
  existsb (fun q => bool_decide (id ∈ m_priQue c q)) (seqZ 0 H2_STREAM_PRIORITYS).

Definition queue_remove (q id : Z) c : conn Q :=
  set_priQue (<[q := filter (fun i => i <> id) (m_priQue c q)]> (m_priQue c)) c.
Definition queue_append (q id : Z) c : conn Q := set_priQue (<[q := m_priQue c q ++ [id]]> (m_priQue c)) c.
Definition queue_push (q id : Z) c : conn Q := set_priQue (<[q := id :: m_priQue c q]> (m_priQue c)) c.

(** ** The stream below and the output buffer *)

Definition outBuf c : Q := m_buf (c_out c).
Definition bufSize c : Z := zlen (bq_data (outBuf c)).
Definition isEmpty c : bool := bufSize c =? 0.

(** A write to the stream below: it takes a prefix, or fails. *)
Definition os_write (d : list Z) c : Z * conn Q :=
  match sock (c_out c) with
  | [] => (0, c)
  | n :: r =>
      if n <? 0 then (-1, set_sock r c)
      else let k := Z.min n (zlen d) in (k, set_wire (wire (c_out c) ++ ztake k d) (set_sock r c))
  end.

(** Its [flush]: done, again, or failed. *)
Definition os_flush c : Z * conn Q :=
  match sock (c_out c) with
  | [] => (0, c)
  | n :: r => (if n <? 0 then -1 else if n =? 0 then 1 else 0, set_sock r c)
  end.

(** [H2Connection::continueWrite] *)
Definition conn_continueWrite c : conn Q :=
  if negb (os_wantWrite (c_out c)) then set_os_wantWrite true c else c.

(** [BufferedOS::flush] *)
Definition buffered_flush c : Z * conn Q :=
  if negb (isEmpty c) then
    let '(ret, c) := os_write (bq_data (outBuf c)) c in
    if ret >=? 0 then
      let c := if bufSize c <=? ret then set_buf (bq_clear (outBuf c)) c
               else set_buf (bq_pop ret (outBuf c)) c in
      (bufSize c, c)
    else (ret, c)
  else (0, c).

(** [H2Connection::flush] *)
Definition flush c : Z * conn Q :=
  let '(_, c) := buffered_flush c in
  let c := if negb (isEmpty c) then set_os_pauseWrite true (set_os_wantWrite true c)
           else clr_flag WANT_FLUSH c in
  os_flush c.

Definition wantFlush c : conn Q :=
  if flag c IN_EVENT then set_flag WANT_FLUSH c else conn_continueWrite c.

Definition wantFlush2 c : conn Q :=
  if flag c IN_EVENT then set_flag WANT_FLUSH c
  else if isEmpty c then conn_continueWrite c else c.

Definition needWriteEvent c : conn Q :=
  if negb (flag c IN_EVENT) then (if isEmpty c then conn_continueWrite c else c)
  else set_flag WAIT_PROCESS c.

Definition SSL_REC_MAX_PAYLOAD : Z := 16384.

(** [bufferOutput]: blocks that fill the buffer to a TLS record, each record
    flushed when complete. *)
Fixpoint bufferOutput_loop (fuel : nat) (d : list Z) c : conn Q :=
  match fuel with
  | O => c
  | S fuel =>
      if zlen d >? 0 then
        let blockSize := SSL_REC_MAX_PAYLOAD - bufSize c in
        let blockSize := if (blockSize <=? 0) || (blockSize >? zlen d) then zlen d else blockSize in
        let c := set_buf (bq_append (ztake blockSize d) (outBuf c)) c in
        let c := if bufSize c =? SSL_REC_MAX_PAYLOAD then snd (buffered_flush c) else c in
        bufferOutput_loop fuel (zdrop blockSize d) c
      else c
  end.

Definition bufferOutput (d : list Z) c : Z * conn Q := (zlen d, bufferOutput_loop (S (length d)) d c).

(** [H2Connection::directBuffer] is [HioStream::bufferedWrite]. *)
Definition directBuffer (d : list Z) : Z := 0.

Definition appendOutput (d : list Z) c : Z * conn Q :=
  let ret := if (bufSize c =? 0) && flag c DIRECT_BUF then directBuffer d else 0 in
  if ((bufSize c =? 0) && flag c DIRECT_BUF) && (ret >=? zlen d) then (zlen d, c)
  else
    let rest := if ret >? 0 then zdrop ret d else d in
    let '(n, c) := bufferOutput rest c in
    (zlen d - (zlen rest - n), c).

Definition guaranteeOutput (d : list Z) c : conn Q :=
  let '(ret, c) := appendOutput d c in
  if ret >? 0 then wantFlush c else c.

(** ** The frames sent *)

Definition sendFrame8Bytes (type id v1 v2 : Z) c : conn Q := guaranteeOutput (frame8Bytes type id v1 v2) c.

Definition sendFrame4Bytes (type id v : Z) (immed_flush : bool) c : conn Q :=
  if immed_flush then snd (flush (snd (appendOutput (frame4Bytes type id v) c)))
  else guaranteeOutput (frame4Bytes type id v) c.

Definition sendFrame0Bytes (type flags id : Z) c : conn Q := guaranteeOutput (frame0Bytes type flags id) c.

Definition sendPingFrame (flags : Z) (payload : list Z) c : conn Q :=
  snd (flush (snd (appendOutput (pingFrame flags payload) c))).

Definition sendGoAwayFrame (status : Z) c : conn Q :=
  snd (flush (sendFrame8Bytes H2_FRAME_GOAWAY 0 (m_uiLastStreamId (c_cnt c)) status c)).

Definition sendRstFrame (id code : Z) c : conn Q := sendFrame4Bytes H2_FRAME_RST_STREAM id code false c.
Definition sendFinFrame (id : Z) c : conn Q := sendFrame0Bytes H2_FRAME_DATA H2_FLAG_END_STREAM id c.

Definition sendSettingsFrame c : conn Q :=
  if flag c SETTING_SENT then c
  else
    let frames := settingsFrames (m_iStreamInInitWindowSize (c_flow c)) in
    let c := set_flag SETTING_SENT c in
    let c := set_iDataInWindow (m_iDataInWindow (c_flow c) + window_delta) c in
    let c := set_iCurDataInWindow (m_iCurDataInWindow (c_flow c) + window_delta) c in
    guaranteeOutput frames c.

Definition sendDataFrame (id fl : Z) (d : list Z) c : Z * conn Q :=
  let c := wantFlush2 c in
  let '(_, c) := appendOutput (header_bytes (new_header (zlen d) H2_FRAME_DATA fl id)) c in
  let '(ret, c) := appendOutput d c in
  if negb (ret =? -1) then (ret, set_iCurDataOutWindow (m_iCurDataOutWindow (c_flow c) - ret) c)
  else (ret, c).

(** ** Windows granted to the peer *)

Definition updateWindow c : conn Q :=
  let n := m_iInBytesToUpdate (c_flow c) in
  if n <=? 0 then c
  else
    let c := set_iCurDataInWindow (m_iCurDataInWindow (c_flow c) + n) c in
    let c := sendFrame4Bytes H2_FRAME_WINDOW_UPDATE 0 n true c in
    set_iInBytesToUpdate 0 c.

Definition addWindowInToUpdate (bytes : Z) c : conn Q :=
  if bytes <=? 0 then c
  else
    let c := set_iInBytesToUpdate (m_iInBytesToUpdate (c_flow c) + bytes) c in
    if m_iDataInWindow (c_flow c) / 2 <? m_iInBytesToUpdate (c_flow c) then updateWindow c else c.

(** [None] is LS_FAIL. *)
Definition consumeWindowIn (bytes : Z) c : option (conn Q) :=
  if bytes <=? 0 then Some c
  else if bytes >? m_iCurDataInWindow (c_flow c) then None
  else Some (set_iCurDataInWindow (m_iCurDataInWindow (c_flow c) - bytes) c).

Definition sendStreamWindowUpdateFrame (id delta : Z) c : conn Q :=
  let c := sendFrame4Bytes H2_FRAME_WINDOW_UPDATE id delta false c in
  if m_iInBytesToUpdate (c_flow c) >=? m_iDataInWindow (c_flow c) / 2 then updateWindow c else c.

(** [H2StreamBase::windowUpdate] *)
Definition windowUpdate (id : Z) c : conn Q :=
  match deref id c with
  | None => c
  | Some s =>
      if m_iWindowToUpdate s >=? m_iStreamInInitWindowSize (c_flow c) / 2 then
        let c := sendStreamWindowUpdateFrame id (m_iWindowToUpdate s) c in
        upd id (fun s => set_iWindowToUpdate 0 (set_iWindowIn (m_iWindowIn s + m_iWindowToUpdate s) s)) c
      else c
  end.

Definition adjWindowToUpdate (id n : Z) c : conn Q :=
  match deref id c with
  | None => c
  | Some _ => addWindowInToUpdate n (upd id (fun s => set_iWindowToUpdate (m_iWindowToUpdate s + n) s) c)
  end.

Definition stream_consumeWindowIn (id n : Z) c : option (conn Q) :=
  match deref id c with
  | None => Some c
  | Some s =>
      if n <=? 0 then Some c
      else if n >? m_iWindowIn s then None
      else Some (upd id (set_iWindowIn (m_iWindowIn s - n)) c)
  end.

(** [H2StreamBase::read]: the bytes handed to the application, or [None] at
    the end of the stream. *)
Definition read (id len : Z) c : option (list Z) * conn Q :=
  match deref id c with
  | None => (None, c)
  | Some s =>
      if s_state s =? HIOS_DISCONNECTED then (None, c)
      else
        let d := ztake len (bq_data (m_bufRcvd s)) in
        let c := upd id (set_bufRcvd (bq_pop (zlen d) (m_bufRcvd s))) c in
        let c := if zlen d >? 0 then windowUpdate id (adjWindowToUpdate id (zlen d) c) else c in
        if s_flag s PEER_SHUTDOWN && ((zlen d =? 0) || (zlen (bq_data (m_bufRcvd s)) <=? zlen d)) then
          let c := upd id (sset READ_EOS true) c in
          (if zlen d =? 0 then None else Some d, c)
        else (Some d, c)
  end.

(** ** Priority queues *)

Definition removePriQue (id : Z) c : conn Q :=
  match deref id c with None => c | Some s => queue_remove (s_priority s) id c end.

Definition add2PriorityQue (id : Z) c : conn Q :=
  match deref id c with
  | None => c
  | Some s =>
      let c := if linked id c then removePriQue id c else c in
      let c := queue_append (s_priority s) id c in
      let c := set_flag WAIT_PROCESS c in
      if negb (flag c IN_EVENT) && (m_iCurDataOutWindow (c_flow c) >? 0) then conn_continueWrite c else c
  end.

(** The bounds [apply_priority] keeps a priority in. *)
Definition clamp_priority (pri : Z) : Z :=
  if pri >? HIO_PRIORITY_LOWEST then HIO_PRIORITY_LOWEST
  else if pri <? HIO_PRIORITY_HIGHEST then HIO_PRIORITY_HIGHEST else pri.

Definition setPriority (pri : Z) s : stream Q := set_s_priority pri s.

(** The priority of [apply_priority]: from the weight, or the default. *)
Definition weight_priority (p : option Priority_st) : Z :=
  match p with
  | None => HIO_PRIORITY_HTML
  | Some p =>
      let pri := if m_weight p <=? 32 then Z.shiftr (32 - m_weight p) 2 else Z.shiftr (256 - m_weight p) 5 in
      clamp_priority pri
  end.

Definition apply_priority (p : option Priority_st) (id : Z) c : conn Q :=
  match deref id c with
  | None => c
  | Some s =>
      let pri := weight_priority p in
      if negb (pri =? s_priority s) then
        if linked id c then add2PriorityQue id (upd id (setPriority pri) (removePriQue id c))
        else upd id (setPriority pri) c
      else c
  end.

(** 16 when a more urgent queue has streams, otherwise the length of the
    stream's own queue and one. *)
Fixpoint urgent_waiting (n : nat) c : bool :=
  match n with
  | O => false
  | S k => (0 <? zlen (m_priQue c (Z.of_nat k))) || urgent_waiting k c
  end.

Definition getWeightedPriority (id : Z) c : Z :=
  match deref id c with
  | None => 1
  | Some s =>
      if urgent_waiting (Z.to_nat (s_priority s)) c then 16
      else let ret := zlen (m_priQue c (s_priority s)) + 1 in if ret >? 16 then 16 else ret
  end.

(** ** Writing a response body *)

Definition isOutBufFull c : bool := (m_iCurDataOutWindow (c_flow c) <=? 0) || (bufSize c >=? 32768).

Definition getAllowedDataSize (wanted : Z) c : Z :=
  let wanted := if wanted >? m_iCurDataOutWindow (c_flow c) then m_iCurDataOutWindow (c_flow c) else wanted in
  let wanted := if wanted >? m_iPeerMaxFrameSize (c_flow c) then m_iPeerMaxFrameSize (c_flow c) else wanted in
  if flag c DIRECT_BUF then if bufSize c >? 0 then 0 else wanted
  else if (bufSize c >? 32768) && (wanted >? 4096) then 4096 else wanted.

(** [H2StreamBase::continueWrite] *)
Definition stream_continueWrite (id : Z) c : conn Q :=
  match deref id c with
  | None => c
  | Some _ =>
      let c := upd id (sset WANT_WRITE true) c in
      let c := if negb (linked id c) then add2PriorityQue id c else c in
      needWriteEvent c
  end.

Definition getDataFrameSize (id wanted : Z) c : Z * conn Q :=
  match deref id c with
  | None => (0, c)
  | Some s =>
      if isOutBufFull c || (0 >=? m_iWindowOut s) then
        let c := upd id (fun s => sset WANT_WRITE true (sset PAUSE_WRITE true s)) c in
        let c := if negb (linked id c) then add2PriorityQue id c else c in
        (0, needWriteEvent c)
      else
        let wanted := if wanted >? m_iWindowOut s then m_iWindowOut s else wanted in
        (getAllowedDataSize wanted c, c)
  end.

Definition H2STREAM_MAX_BATCH_SIZE : Z := 256 * 1024.
Definition H2STREAM_MAX_PKT_SIZE : Z := 16384 - 9.
Definition H2STREAM_MAX_PKT_SIZE2 : Z := 16384.

Definition readyToShutdown s : bool := s_flag s LOCAL_SHUTDOWN && s_flag s PEER_SHUTDOWN.

Definition markShutdown (id : Z) c : conn Q :=
  let c := upd id (set_s_state HIOS_SHUTDOWN) c in
  let c := set_uiShutdownStreams (wrapu 32 (m_uiShutdownStreams (c_cnt c) + 1)) c in
  if negb (linked id c) then add2PriorityQue id (upd id (setPriority 0) c) else c.

Definition dataSent (id ret : Z) c : Z * conn Q :=
  if ret =? -1 then (-1, upd id (sset ABORT true) c)
  else
    let c := upd id (fun s => set_iWindowOut (m_iWindowOut s - ret) (set_s_bytesSent (s_bytesSent s + ret) s)) c in
    match deref id c with
    | None => (ret, c)
    | Some s => (ret, if m_iWindowOut s <=? 0 then upd id (sset PAUSE_WRITE true) c else c)
    end.

(** The size of the next frame of a batch that has [sent] bytes out, and
    whether the batch ends with it. *)
Definition limit_batch (sent pkt_size weight : Z) : Z * bool :=
  if sent + pkt_size >=? H2STREAM_MAX_BATCH_SIZE / weight then
    (if pkt_size >? H2STREAM_MAX_PKT_SIZE2 then
       let n := H2STREAM_MAX_BATCH_SIZE / weight - sent in
       if n <? H2STREAM_MAX_PKT_SIZE2 then H2STREAM_MAX_PKT_SIZE2 else n
     else pkt_size, true)
  else (pkt_size, false).

(** The end of the body is in this frame: FIN, and the stream is done when the
    peer's side is. *)
Definition write_fin (id : Z) c : conn Q :=
  let c := upd id (sset LOCAL_SHUTDOWN true) c in
  match deref id c with
  | None => c
  | Some s => if readyToShutdown s then markShutdown id c else c
  end.

Fixpoint write_loop (fuel : nat) (id : Z) (buf : list Z) (fl weight p fin ret : Z) c : Z * Z * conn Q :=
  match fuel with
  | O => (p, ret, c)
  | S fuel =>
      match deref id c with
      | None => (p, ret, c)
      | Some s =>
          if negb (s_flag s PAUSE_WRITE) && (zlen buf - p >? 0) then
            let '(pkt_size, c) := getDataFrameSize id (zlen buf - p) c in
            if pkt_size <=? 0 then (p, ret, c)
            else
              let '(pkt_size, last) := limit_batch p pkt_size weight in
              let c := if last && (zlen buf - p - pkt_size >? 0) then upd id (sset PAUSE_WRITE true) c else c in
              let eos := (pkt_size >=? zlen buf - p) && has fl HIO_EOR in
              let fin := if eos then H2_FLAG_END_STREAM else fin in
              let c := if eos then write_fin id c else c in
              let '(ret, c) := sendDataFrame id fin (slice p (p + pkt_size) buf) c in
              let c := if negb (fin =? 0) then wantFlush c else c in
              let '(ret, c) := dataSent id ret c in
              if ret <=? 0 then (p, ret, c)
              else write_loop fuel id buf fl weight (p + ret) fin ret c
          else (p, ret, c)
      end
  end.

Definition write (id : Z) (buf : list Z) (fl : Z) c : Z * conn Q :=
  match deref id c with
  | None => (-1, c)
  | Some s =>
      if s_state s =? HIOS_DISCONNECTED then (-1, c)
      else
        let weight := getWeightedPriority id c in
        let early := (s_bytesSent s =? 0) && (zlen buf >? H2STREAM_MAX_PKT_SIZE) && (bufSize c >? 0) in
        let '(r, c) := if early then flush c else (0, c) in
        if negb (r =? 0) then (if r =? -1 then -1 else 0, c)
        else
          let '(p, ret, c) := write_loop (S (length buf)) id buf fl weight 0 0 0 c in
          (if p >? 0 then p else ret, c)
  end.

(** [H2StreamBase::adjWindowOut]: LS_FAIL when the window is negative. *)
Definition adjWindowOut (id n : Z) c : Z * conn Q :=
  match deref id c with
  | None => (0, c)
  | Some s =>
      let w := wraps 32 (m_iWindowOut s + n) in
      let c := upd id (set_iWindowOut w) c in
      if w <? 0 then (-1, c)
      else
        let c := upd id (sset PAUSE_WRITE false) c in
        (0, if s_flag s WANT_WRITE then stream_continueWrite id c else c)
  end.

(** [H2StreamBase::shutdownWrite] *)
Definition shutdownWrite (id : Z) c : conn Q :=
  match deref id c with
  | None => c
  | Some s =>
      if negb (s_flag s LOCAL_SHUTDOWN) then
        let c := sendFinFrame id c in
        wantFlush (upd id (fun s => sset WANT_WRITE false (sset LOCAL_SHUTDOWN true s)) c)
      else c
  end.

(** ** What an operation does to the output

    [out_stream] is everything ever output, sent or still buffered. *)

Definition out_ok c : Prop := bq_ok (outBuf c).
Definition out_stream c : list Z := wire (c_out c) ++ bq_data (outBuf c).

(** [c'] is [c] after the bytes [d] were output: nothing but the output side
    and the connection's flags differs. *)
Record outputs (d : list Z) (c c' : conn Q) : Prop := {
  o_ok : out_ok c -> out_ok c' /\ out_stream c' = out_stream c ++ d;
  o_in : c_in c' = c_in c;
  o_flow : c_flow c' = c_flow c;
  o_cnt : c_cnt c' = c_cnt c;
  o_que : m_priQue c' = m_priQue c;
  o_map : m_mapStream c' = m_mapStream c;
  o_start : flag c' HEADERS_START = flag c HEADERS_START }.

Lemma outputs_refl c : outputs [] c c.
Proof. split; auto. rewrite app_nil_r. auto. Qed.

Lemma outputs_trans d1 d2 a b c : outputs d1 a b -> outputs d2 b c -> outputs (d1 ++ d2) a c.
Proof.
  intros [Ho1 Hi1 Hf1 Hc1 Hq1 Hm1 Hh1] [Ho2 Hi2 Hf2 Hc2 Hq2 Hm2 Hh2]. split; try congruence.
  intros Hok. destruct (Ho1 Hok) as [Hok1 E1]. destruct (Ho2 Hok1) as [Hok2 E2].
  split; [assumption|]. rewrite E2, E1, app_assoc. reflexivity.
Qed.

Lemma outputs_nil_r d a b c : outputs d a b -> outputs [] b c -> outputs d a c.
Proof. intros H1 H2. rewrite <- (app_nil_r d). eapply outputs_trans; eauto. Qed.

Lemma outputs_nil_l d a b c : outputs [] a b -> outputs d b c -> outputs d a c.
Proof. intros H1 H2. rewrite <- (app_nil_l d). eapply outputs_trans; eauto. Qed.

Ltac trivial_output := split; auto; intros Hok; cbn; rewrite app_nil_r; auto.

Lemma set_flag_outputs f c : f <> HEADERS_START -> outputs [] c (set_flag f c).
Proof. intros Hf. split; auto; [intros Hok; cbn; rewrite app_nil_r; auto|apply (fn_lookup_insert_ne (m_h2flag c)); exact Hf]. Qed.
Lemma clr_flag_outputs f c : f <> HEADERS_START -> outputs [] c (clr_flag f c).
Proof. intros Hf. split; auto; [intros Hok; cbn; rewrite app_nil_r; auto|apply (fn_lookup_insert_ne (m_h2flag c)); exact Hf]. Qed.
Lemma continueWrite_outputs c : outputs [] c (conn_continueWrite c).
Proof. unfold conn_continueWrite. destruct (negb _); [|apply outputs_refl]. trivial_output. Qed.

Lemma os_write_spec d c : exists k r,
  os_write d c = (r, set_wire (wire (c_out c) ++ ztake k d) (set_sock (sock (c_out (snd (os_write d c)))) c)) /\
  0 <= k <= zlen d /\ (r = k \/ r = -1 /\ k = 0).
Proof.
  pose proof (zlen_nonneg d). unfold os_write. destruct (sock (c_out c)) as [|n r] eqn:E.
  - exists 0, 0. split; [|split; [lia|auto]]. rewrite ztake_0, app_nil_r. cbn.
    destruct c as [i [b w k h1 h2 h3 h4 h5] f ct fl p q m]. cbn in *. subst k. reflexivity.
  - destruct (Z.ltb_spec n 0).
    + exists 0, (-1). split; [|split; [lia|auto]]. rewrite ztake_0, app_nil_r. reflexivity.
    + exists (Z.min n (zlen d)), (Z.min n (zlen d)). split; [reflexivity|split; [lia|auto]].
Qed.

Lemma buffered_flush_outputs c : outputs [] c (snd (buffered_flush c)).
Proof.
  unfold buffered_flush. destruct (negb (isEmpty c)) eqn:E; [|apply outputs_refl].
  destruct (os_write_spec (bq_data (outBuf c)) c) as (k & r & -> & Hk & Hr).
  set (l := sock _). clearbody l.
  destruct (Z.geb_spec r 0); [|destruct Hr as [->|[-> ->]]; [lia|]; rewrite ztake_0, app_nil_r; trivial_output].
  destruct Hr as [->|[-> _]]; [|lia]. cbn [snd].
  split; auto; try (destruct (_ <=? k); reflexivity).
  intros Hok. unfold out_ok, outBuf in *. rewrite app_nil_r.
  destruct (bq_pop_ok k _ Hok ltac:(lia)) as [Hp Hpd]. destruct (bq_clear_ok _ Hok) as [Hc Hcd].
  unfold out_stream, bufSize, outBuf. cbn.
  destruct (Z.leb_spec (zlen (bq_data (m_buf (c_out c)))) k); cbn.
  - split; [assumption|]. rewrite Hcd, app_nil_r, ztake_all by lia. reflexivity.
  - split; [assumption|]. rewrite Hpd, <- app_assoc, ztake_zdrop. reflexivity.
Qed.

Lemma os_flush_outputs c : outputs [] c (snd (os_flush c)).
Proof. unfold os_flush. destruct (sock (c_out c)); [apply outputs_refl|]. trivial_output. Qed.

Lemma flush_outputs c : outputs [] c (snd (flush c)).
Proof.
  unfold flush. pose proof (buffered_flush_outputs c) as Hb. destruct (buffered_flush c) as [r c1]. cbn [snd] in Hb.
  eapply outputs_nil_l; [exact Hb|]. destruct (negb (isEmpty c1)); (eapply outputs_nil_l; [|apply os_flush_outputs]).
  - trivial_output.
  - apply clr_flag_outputs. discriminate.
Qed.

Lemma wantFlush_outputs c : outputs [] c (wantFlush c).
Proof. unfold wantFlush. destruct (flag c IN_EVENT); [apply set_flag_outputs; discriminate|apply continueWrite_outputs]. Qed.

Lemma wantFlush2_outputs c : outputs [] c (wantFlush2 c).
Proof.
  unfold wantFlush2. destruct (flag c IN_EVENT); [apply set_flag_outputs; discriminate|].
  destruct (isEmpty c); [apply continueWrite_outputs|apply outputs_refl].
Qed.

Lemma needWriteEvent_outputs c : outputs [] c (needWriteEvent c).
Proof.
  unfold needWriteEvent. destruct (negb _); [|apply set_flag_outputs; discriminate].
  destruct (isEmpty c); [apply continueWrite_outputs|apply outputs_refl].
Qed.

Lemma bufferOutput_outputs fuel : forall d c, (length d < fuel)%nat -> outputs d c (bufferOutput_loop fuel d c).
Proof.
  induction fuel as [|fuel IH]; intros d c Hf; [lia|]. cbn [bufferOutput_loop]. pose proof (zlen_nonneg d).
  destruct (Z.gtb_spec (zlen d) 0) as [Hd|]; cycle 1.
  { assert (d = []) as -> by (apply length_zero_iff_nil; unfold zlen in *; lia). apply outputs_refl. }
  set (b0 := if (SSL_REC_MAX_PAYLOAD - bufSize c <=? 0) || (SSL_REC_MAX_PAYLOAD - bufSize c >? zlen d) then zlen d
              else SSL_REC_MAX_PAYLOAD - bufSize c).
  assert (Hb : 0 < b0 <= zlen d).
  { subst b0. destruct ((SSL_REC_MAX_PAYLOAD - bufSize c <=? 0) || (SSL_REC_MAX_PAYLOAD - bufSize c >? zlen d)) eqn:E; lia. }
  clearbody b0. set (c1 := set_buf _ c).
  assert (H1 : outputs (ztake b0 d) c c1).
  { split; auto. intros Hok. destruct (bq_append_ok (ztake b0 d) (outBuf c) Hok) as [Ha Had].
    subst c1. unfold out_ok, out_stream, outBuf in *. cbn. split; [assumption|]. rewrite Had, app_assoc. reflexivity. }
  clearbody c1. set (c2 := if bufSize c1 =? SSL_REC_MAX_PAYLOAD then snd (buffered_flush c1) else c1).
  assert (H2 : outputs [] c1 c2).
  { subst c2. destruct (_ =? _); [apply buffered_flush_outputs|apply outputs_refl]. }
  clearbody c2. rewrite <- (ztake_zdrop b0 d) at 1. eapply outputs_trans; [eapply outputs_nil_r; eauto|].
  apply IH. unfold zdrop. rewrite length_drop. unfold zlen in *. lia.
Qed.

Lemma appendOutput_outputs d c : exists c', appendOutput d c = (zlen d, c') /\ outputs d c c'.
Proof.
  unfold appendOutput, directBuffer. pose proof (zlen_nonneg d).
  replace (if (bufSize c =? 0) && flag c DIRECT_BUF then 0 else 0) with 0 by (destruct (_ && _); reflexivity).
  cbn [Z.gtb Z.compare]. unfold bufferOutput.
  destruct (((bufSize c =? 0) && flag c DIRECT_BUF) && (0 >=? zlen d)) eqn:E.
  - assert (d = []) as -> by (apply length_zero_iff_nil; unfold zlen in *; lia).
    exists c. split; [reflexivity|apply outputs_refl].
  - eexists. rewrite Z.sub_diag, Z.sub_0_r. split; [reflexivity|]. apply bufferOutput_outputs. lia.
Qed.

Lemma guaranteeOutput_outputs d c : outputs d c (guaranteeOutput d c).
Proof.
  unfold guaranteeOutput. destruct (appendOutput_outputs d c) as (c1 & -> & Ho).
  destruct (_ >? 0); [|assumption]. eapply outputs_nil_r; [exact Ho|apply wantFlush_outputs].
Qed.

Lemma sendFrame4Bytes_outputs type id v b c : outputs (frame4Bytes type id v) c (sendFrame4Bytes type id v b c).
Proof.
  unfold sendFrame4Bytes. destruct b; [|apply guaranteeOutput_outputs].
  destruct (appendOutput_outputs (frame4Bytes type id v) c) as (c1 & -> & Ho). cbn [snd].
  eapply outputs_nil_r; [exact Ho|apply flush_outputs].
Qed.

Lemma sendPingFrame_outputs fl p c : outputs (pingFrame fl p) c (sendPingFrame fl p c).
Proof.
  unfold sendPingFrame. destruct (appendOutput_outputs (pingFrame fl p) c) as (c1 & -> & Ho). cbn [snd].
  eapply outputs_nil_r; [exact Ho|apply flush_outputs].
Qed.

Lemma sendGoAwayFrame_outputs st c :
  outputs (frame8Bytes H2_FRAME_GOAWAY 0 (m_uiLastStreamId (c_cnt c)) st) c (sendGoAwayFrame st c).
Proof. unfold sendGoAwayFrame. eapply outputs_nil_r; [apply guaranteeOutput_outputs|apply flush_outputs]. Qed.

(** ** Sending a body *)

(** [c'] is [c] after stream [id] sent [n] body bytes with the output [d]: both
    windows shrank by [n], the input side, the other streams and the rest of
    the flow control are as before. *)
Record sent (id n : Z) (d : list Z) (c c' : conn Q) : Prop := {
  st_out : out_ok c -> out_ok c' /\ out_stream c' = out_stream c ++ d;
  st_in : c_in c' = c_in c;
  st_flow : c_flow c' = c_flow (set_iCurDataOutWindow (m_iCurDataOutWindow (c_flow c) - n) c);
  st_stream : forall s, deref id c = Some s -> exists s', deref id c' = Some s' /\
    m_iWindowOut s' = m_iWindowOut s - n /\ s_bytesSent s' = s_bytesSent s + n /\
    m_iWindowIn s' = m_iWindowIn s /\ m_iWindowToUpdate s' = m_iWindowToUpdate s /\ m_bufRcvd s' = m_bufRcvd s;
  st_other : forall j, j <> id -> deref j c' = deref j c }.

Lemma flow_sub0 c : c_flow c = c_flow (set_iCurDataOutWindow (m_iCurDataOutWindow (c_flow c) - 0) c).
Proof. rewrite Z.sub_0_r. cbn. destruct (c_flow c); reflexivity. Qed.

Lemma sent_trans id n1 n2 d1 d2 a b c : sent id n1 d1 a b -> sent id n2 d2 b c -> sent id (n1 + n2) (d1 ++ d2) a c.
Proof.
  intros [Ho1 Hi1 Hf1 Hs1 Hj1] [Ho2 Hi2 Hf2 Hs2 Hj2]. split.
  - intros Hok. destruct (Ho1 Hok) as [Hok1 E1]. destruct (Ho2 Hok1) as [Hok2 E2].
    split; [assumption|]. rewrite E2, E1, app_assoc. reflexivity.
  - congruence.
  - rewrite Hf2. cbn. rewrite Hf1. cbn. f_equal. lia.
  - intros s Hs. destruct (Hs1 s Hs) as (s1 & Hs1' & ? & ? & ? & ? & ?).
    destruct (Hs2 s1 Hs1') as (s2 & ? & ? & ? & ? & ? & ?). exists s2. split_and!; [assumption|lia|lia|congruence..].
  - intros j Hj. rewrite Hj2, Hj1 by assumption. reflexivity.
Qed.

Lemma sent_nil_l id n d a b c : sent id 0 [] a b -> sent id n d b c -> sent id n d a c.
Proof. intros H1 H2. apply (sent_trans id 0 n [] d a b c H1 H2). Qed.

Lemma sent_nil_r id n d a b c : sent id n d a b -> sent id 0 [] b c -> sent id n d a c.
Proof. intros H1 H2. rewrite <- (Z.add_0_r n), <- (app_nil_r d). eapply sent_trans; eauto. Qed.

Lemma sent_outputs id d c c' : outputs d c c' -> sent id 0 d c c'.
Proof.
  intros [Ho Hi Hf Hc Hq Hm _]. split; auto.
  - rewrite Hf. exact (flow_sub0 _).
  - intros s Hs. exists s. unfold deref in *. rewrite Hm. split_and!; auto; lia.
  - intros j _. unfold deref. rewrite Hm. reflexivity.
Qed.

Lemma sent_refl id c : sent id 0 [] c c.
Proof. apply sent_outputs, outputs_refl. Qed.

(** Changes of a stream that leave windows, counters and buffer alone. *)
Definition keeps_windows (f : stream Q -> stream Q) : Prop := forall s,
  m_iWindowOut (f s) = m_iWindowOut s /\ s_bytesSent (f s) = s_bytesSent s /\ m_iWindowIn (f s) = m_iWindowIn s /\
  m_iWindowToUpdate (f s) = m_iWindowToUpdate s /\ m_bufRcvd (f s) = m_bufRcvd s.

Lemma deref_upd id f c : deref id (upd id f c) = f <$> deref id c.
Proof. unfold deref, upd. cbn. apply lookup_alter_eq. Qed.

Lemma deref_upd_ne j id f c : j <> id -> deref j (upd id f c) = deref j c.
Proof. intros. unfold deref, upd. cbn. apply lookup_alter_ne. congruence. Qed.

Lemma sent_upd id f c : keeps_windows f -> sent id 0 [] c (upd id f c).
Proof.
  intros Hf. split; auto.
  - intros Hok. cbn. rewrite app_nil_r. auto.
  - exact (flow_sub0 c).
  - intros s Hs. exists (f s). rewrite deref_upd, Hs. destruct (Hf s) as (-> & -> & -> & -> & ->). split_and!; auto; lia.
  - intros j Hj. apply deref_upd_ne. assumption.
Qed.

Lemma sent_queue id p c : sent id 0 [] c (set_priQue p c).
Proof.
  split; auto; [intros Hok; cbn; rewrite app_nil_r; auto|exact (flow_sub0 c)|].
  intros s Hs. exists s. split_and!; auto; lia.
Qed.

Lemma sent_add2PriorityQue id c : sent id 0 [] c (add2PriorityQue id c).
Proof.
  unfold add2PriorityQue. destruct (deref id c) as [s|] eqn:Es; [|apply sent_refl].
  set (c1 := if linked id c then removePriQue id c else c).
  assert (H1 : sent id 0 [] c c1).
  { subst c1. destruct (linked id c); [|apply sent_refl]. unfold removePriQue. rewrite Es.
    apply sent_queue. }
  clearbody c1. eapply sent_nil_l; [exact H1|].
  eapply sent_nil_l; [apply (sent_queue id _ c1 : sent id 0 [] c1 (queue_append (s_priority s) id c1))|].
  eapply sent_nil_l; [apply sent_outputs, (set_flag_outputs WAIT_PROCESS); discriminate|].
  destruct (_ && _); [apply sent_outputs, continueWrite_outputs|apply sent_refl].
Qed.

Lemma sent_link id c : sent id 0 [] c (if negb (linked id c) then add2PriorityQue id c else c).
Proof. destruct (negb _); [apply sent_add2PriorityQue|apply sent_refl]. Qed.

Lemma sent_markShutdown id c : sent id 0 [] c (markShutdown id c).
Proof.
  unfold markShutdown. eapply sent_nil_l; [apply (sent_upd id (set_s_state HIOS_SHUTDOWN)); easy|].
  set (c1 := upd id _ c). clearbody c1.
  set (c2 := set_uiShutdownStreams _ c1).
  assert (H2 : sent id 0 [] c1 c2).
  { subst c2. split; auto; [intros Hok; cbn; rewrite app_nil_r; auto|exact (flow_sub0 c1)|].
    intros s Hs. exists s. split_and!; auto; lia. }
  clearbody c2. eapply sent_nil_l; [exact H2|]. destruct (negb (linked id c2)); [|apply sent_refl].
  eapply sent_nil_l; [apply (sent_upd id (setPriority 0)); easy|]. apply sent_add2PriorityQue.
Qed.

Lemma sent_write_fin id c : sent id 0 [] c (write_fin id c).
Proof.
  unfold write_fin. eapply sent_nil_l; [apply (sent_upd id (sset LOCAL_SHUTDOWN true)); easy|].
  destruct (deref id _) as [s|]; [|apply sent_refl].
  destruct (readyToShutdown s); [apply sent_markShutdown|apply sent_refl].
Qed.

(** One DATA frame: its bytes, and the windows once [dataSent] has run. *)
Lemma sent_data_frame id fin d c :
  deref id c <> None ->
  exists c1 c2, sendDataFrame id fin d c = (zlen d, c1) /\
    dataSent id (zlen d) (if negb (fin =? 0) then wantFlush c1 else c1) = (zlen d, c2) /\
    sent id (zlen d) (frame_bytes (new_header (zlen d) H2_FRAME_DATA fin id, d)) c c2.
Proof.
  intros Hs. pose proof (zlen_nonneg d). unfold sendDataFrame.
  pose proof (wantFlush2_outputs c) as H0. set (c0 := wantFlush2 c) in *. clearbody c0.
  destruct (appendOutput_outputs (header_bytes (new_header (zlen d) H2_FRAME_DATA fin id)) c0) as (ca & -> & Ha).
  destruct (appendOutput_outputs d ca) as (cb & -> & Hb). replace (zlen d =? -1) with false by lia. cbn [negb].
  assert (Hcb : outputs (frame_bytes (new_header (zlen d) H2_FRAME_DATA fin id, d)) c cb).
  { eapply outputs_nil_l; [exact H0|]. unfold frame_bytes. eapply outputs_trans; eauto. }
  set (c1 := set_iCurDataOutWindow _ cb). exists c1.
  set (c1' := if negb (fin =? 0) then wantFlush c1 else c1).
  assert (Hc1' : outputs [] c1 c1').
  { subst c1'. destruct (negb _); [apply wantFlush_outputs|apply outputs_refl]. }
  clearbody c1'. unfold dataSent. replace (zlen d =? -1) with false by lia.
  set (c2 := upd id _ c1').
  assert (H2 : sent id (zlen d) (frame_bytes (new_header (zlen d) H2_FRAME_DATA fin id, d)) c c2).
  { destruct Hcb as [Ho Hi Hf Hct Hq Hm], Hc1' as [Ho' Hi' Hf' Hct' Hq' Hm']. split.
    - intros Hok. destruct (Ho Hok) as [Hok1 E1]. destruct (Ho' Hok1) as [Hok2 E2]. split; [exact Hok2|].
      rewrite app_nil_r in E2. change (out_stream c2) with (out_stream c1'). rewrite E2. exact E1.
    - change (c_in c2) with (c_in c1'). rewrite Hi'. exact Hi.
    - change (c_flow c2) with (c_flow c1'). rewrite Hf'. subst c1. cbn. rewrite Hf. reflexivity.
    - intros s Es. subst c2. rewrite deref_upd. unfold deref in *. rewrite Hm'. subst c1. cbn. rewrite Hm, Es. cbn.
      eexists. split; [reflexivity|]. cbn. split_and!; reflexivity.
    - intros j Hj. subst c2. rewrite deref_upd_ne by assumption. unfold deref. rewrite Hm'. subst c1. cbn. rewrite Hm. reflexivity. }
  destruct (deref id c) as [s|] eqn:Es; [|congruence].
  destruct (st_stream _ _ _ _ _ H2 s Es) as (s' & Es' & _). rewrite Es'.
  exists (if m_iWindowOut s' <=? 0 then upd id (sset PAUSE_WRITE true) c2 else c2). split_and!; auto.
  destruct (_ <=? 0); [|assumption]. eapply sent_nil_r; [exact H2|]. apply (sent_upd id (sset PAUSE_WRITE true)). easy.
Qed.

(** Nothing holds the stream back. *)
Definition can_send s c : bool :=
  negb (s_flag s PAUSE_WRITE) && negb (isOutBufFull c) && (0 <? m_iWindowOut s) &&
  (negb (flag c DIRECT_BUF) || (bufSize c =? 0)) && (0 <? m_iPeerMaxFrameSize (c_flow c)).

Lemma getDataFrameSize_spec id wanted c s : deref id c = Some s -> 0 <= wanted ->
  exists n c', getDataFrameSize id wanted c = (n, c') /\ sent id 0 [] c c' /\
    (0 < n -> c' = c) /\ n <= wanted /\ n <= Z.max 0 (m_iWindowOut s) /\
    n <= Z.max 0 (m_iCurDataOutWindow (c_flow c)) /\ n <= Z.max 0 (m_iPeerMaxFrameSize (c_flow c)) /\
    (can_send s c = true -> 0 < wanted -> 0 < n).
Proof.
  intros Es Hw. unfold getDataFrameSize. rewrite Es. destruct (isOutBufFull c || (0 >=? m_iWindowOut s)) eqn:E.
  - eexists 0, _. split; [reflexivity|]. split_and!; try lia; cycle 1.
    { unfold can_send. intros Hcs. exfalso. destruct (isOutBufFull c); [|lia].
      rewrite andb_false_r in Hcs. discriminate. }
    eapply sent_nil_l; [apply (sent_upd id (fun s => sset WANT_WRITE true (sset PAUSE_WRITE true s))); easy|].
    eapply sent_nil_l; [apply sent_link|]. apply sent_outputs, needWriteEvent_outputs.
  - eexists _, c. split; [reflexivity|]. split; [apply sent_refl|]. split; [reflexivity|].
    assert (Hmin : forall a b, (if a >? b then b else a) = Z.min a b) by (intros a b; destruct (Z.gtb_spec a b); lia).
    unfold getAllowedDataSize. rewrite !Hmin. set (w := Z.min (Z.min _ _) _).
    assert (w <= wanted /\ w <= m_iWindowOut s /\ w <= m_iCurDataOutWindow (c_flow c) /\ w <= m_iPeerMaxFrameSize (c_flow c)) by lia.
    assert (Hcs : can_send s c = true -> 0 < wanted -> 0 < w /\ (flag c DIRECT_BUF && (bufSize c >? 0) = false)).
    { unfold can_send, isOutBufFull. pose proof (zlen_nonneg (bq_data (outBuf c))). fold (bufSize c) in *.
      destruct (flag c DIRECT_BUF), (s_flag s PAUSE_WRITE); cbn [negb andb orb]; intros; split; lia. }
    clearbody w. split_and!; [..|intros Hcan Hwa; destruct (Hcs Hcan Hwa) as [? Hdir]; revert Hdir];
    destruct (flag c DIRECT_BUF), (bufSize c >? 0), (bufSize c >? 32768), (Z.gtb_spec w 4096); cbn [andb]; lia.
Qed.

Lemma limit_batch_le sent pkt w n last : limit_batch sent pkt w = (n, last) -> 0 < pkt -> 0 < n <= pkt.
Proof.
  unfold limit_batch, H2STREAM_MAX_PKT_SIZE2. intros E Hp.
  destruct (Z.geb_spec (sent + pkt) (H2STREAM_MAX_BATCH_SIZE / w)); [|injection E as <- <-; lia].
  destruct (Z.gtb_spec pkt 16384); [|injection E as <- <-; lia].
  destruct (Z.ltb_spec (H2STREAM_MAX_BATCH_SIZE / w - sent) 16384); injection E as <- <-; lia.
Qed.

(** The DATA frames of a piece of a body: full payloads in order, FIN on the
    last one when the piece ends the body. *)
Inductive body_frames (id maxFrame : Z) : bool -> list Z -> list (H2FrameHeader * list Z) -> Prop :=
  | body_none : body_frames id maxFrame false [] []
  | body_last d : 0 < zlen d <= maxFrame ->
      body_frames id maxFrame true d [(new_header (zlen d) H2_FRAME_DATA H2_FLAG_END_STREAM id, d)]
  | body_more eos d rest fs : 0 < zlen d <= maxFrame -> body_frames id maxFrame eos rest fs ->
      body_frames id maxFrame eos (d ++ rest) ((new_header (zlen d) H2_FRAME_DATA 0 id, d) :: fs).

Lemma slice_ztake (l : list Z) p n : 0 <= p -> 0 <= n -> slice p (p + n) l = ztake n (zdrop p l).
Proof. intros. unfold slice. f_equal. lia. Qed.

(** What [write_loop] sends from offset [p] on: the frames of the next [n]
    bytes, within the windows. *)
Lemma write_loop_spec id buf fl weight : forall fuel p ret c s,
  deref id c = Some s -> 0 <= p <= zlen buf -> zlen buf - p < Z.of_nat fuel ->
  exists n ret' c' fs, write_loop fuel id buf fl weight p 0 ret c = (p + n, ret', c') /\
    0 <= n <= zlen buf - p /\ n <= Z.max 0 (m_iWindowOut s) /\ n <= Z.max 0 (m_iCurDataOutWindow (c_flow c)) /\
    (n = 0 -> ret' = ret) /\ (can_send s c = true -> p < zlen buf -> 0 < n) /\
    sent id n (concat (map frame_bytes fs)) c c' /\
    body_frames id (m_iPeerMaxFrameSize (c_flow c)) (has fl HIO_EOR && (0 <? n) && (n =? zlen buf - p))
      (ztake n (zdrop p buf)) fs.
Proof.
  induction fuel as [|fuel IH]; intros p ret c s Es Hp Hf; [lia|]. cbn [write_loop]. rewrite Es.
  assert (Hstop : forall c', (can_send s c = true -> p < zlen buf -> False) -> sent id 0 [] c c' -> exists n ret' c'' fs, (p, ret, c') = (p + n, ret', c'') /\
    0 <= n <= zlen buf - p /\ n <= Z.max 0 (m_iWindowOut s) /\ n <= Z.max 0 (m_iCurDataOutWindow (c_flow c)) /\
    (n = 0 -> ret' = ret) /\ (can_send s c = true -> p < zlen buf -> 0 < n) /\ sent id n (concat (map frame_bytes fs)) c c'' /\
    body_frames id (m_iPeerMaxFrameSize (c_flow c)) (has fl HIO_EOR && (0 <? n) && (n =? zlen buf - p))
      (ztake n (zdrop p buf)) fs).
  { intros c' Hno H'. exists 0, ret, c', []. rewrite Z.add_0_r, ztake_0, andb_false_r.
    split_and!; auto; try lia; try (intros Hx Hy; destruct (Hno Hx Hy)); constructor. }
  destruct (negb (s_flag s PAUSE_WRITE) && (zlen buf - p >? 0)) eqn:E; [|apply Hstop; [|apply sent_refl]]; cycle 1.
  { unfold can_send. intros. destruct (s_flag s PAUSE_WRITE); [discriminate|]. cbn [negb andb] in E. lia. }
  destruct (getDataFrameSize_spec id (zlen buf - p) c s Es ltac:(lia)) as (pk & c1 & -> & H1 & Heq & Hw & Hs & Hc & Hm & Hgo).
  destruct (Z.leb_spec pk 0); [apply Hstop; [intros Hx Hy; specialize (Hgo Hx); lia|exact H1]|]. rewrite (Heq ltac:(lia)). clear Heq H1 c1.
  destruct (limit_batch p pk weight) as [pkt last] eqn:El. pose proof (limit_batch_le _ _ _ _ _ El ltac:(lia)) as Hpkt.
  set (c1 := if last && (zlen buf - p - pkt >? 0) then upd id (sset PAUSE_WRITE true) c else c).
  assert (H1 : sent id 0 [] c c1).
  { subst c1. destruct (last && (zlen buf - p - pkt >? 0)); [apply (sent_upd id (sset PAUSE_WRITE true)); easy|apply sent_refl]. }
  clearbody c1. set (eos := (pkt >=? zlen buf - p) && has fl HIO_EOR).
  set (c2 := if eos then write_fin id c1 else c1).
  assert (H2 : sent id 0 [] c c2).
  { eapply sent_nil_l; [exact H1|]. subst c2. destruct eos; [apply sent_write_fin|apply sent_refl]. }
  clearbody c2. destruct (st_stream _ _ _ _ _ H2 s Es) as (s2 & Es2 & Hw2 & _).
  set (d := slice p (p + pkt) buf). assert (Hd : zlen d = pkt) by (subst d; rewrite zlen_slice; lia).
  set (fin := if eos then H2_FLAG_END_STREAM else 0).
  destruct (sent_data_frame id fin d c2 ltac:(congruence)) as (c3 & c4 & -> & -> & H4).
  rewrite Hd in *. replace (pkt <=? 0) with false by lia.
  pose proof (sent_nil_l _ _ _ _ _ _ H2 H4) as H5. destruct (st_stream _ _ _ _ _ H5 s Es) as (s5 & Es5 & Hw5 & _).
  assert (Hdd : d = ztake pkt (zdrop p buf)) by (apply slice_ztake; lia).
  destruct eos eqn:Eeos; subst eos fin.
  - (* the last frame: nothing is left *)
    assert (Hpk : pkt = zlen buf - p) by lia. assert (He : has fl HIO_EOR = true) by (destruct (has fl HIO_EOR); [auto|lia]).
    exists pkt, pkt, c4, [(new_header pkt H2_FRAME_DATA H2_FLAG_END_STREAM id, d)].
    assert (Hl : write_loop fuel id buf fl weight (p + pkt) H2_FLAG_END_STREAM pkt c4 = (p + pkt, pkt, c4)).
    { destruct fuel; [reflexivity|]. cbn [write_loop]. rewrite Es5. replace (zlen buf - (p + pkt) >? 0) with false by lia.
      rewrite andb_false_r. reflexivity. }
    rewrite Hl. split_and!; auto; try lia.
    + cbn [map concat]. rewrite app_nil_r. exact H5.
    + rewrite He, <- Hdd. replace (0 <? pkt) with true by lia. replace (pkt =? zlen buf - p) with true by lia. cbn [andb].
      rewrite <- Hd at 1. apply body_last. lia.
  - destruct (IH (p + pkt) pkt c4 s5 Es5) as (n & ret' & c' & fs & -> & Hn & Hnw & Hnc & _ & _ & Hsent & Hbody); [lia|lia|].
    rewrite (st_flow _ _ _ _ _ H5) in Hnc, Hbody. cbn [c_flow set_iCurDataOutWindow m_iCurDataOutWindow m_iPeerMaxFrameSize set_c_flow] in Hnc, Hbody.
    exists (pkt + n), ret', c', ((new_header pkt H2_FRAME_DATA 0 id, d) :: fs).
    split_and!; try lia.
    + f_equal. f_equal. lia.
    + cbn [map concat]. eapply sent_trans; eauto.
    + rewrite (ztake_split pkt (pkt + n)), zdrop_zdrop, <- Hdd by lia.
      assert (Hnh : new_header pkt H2_FRAME_DATA 0 id = new_header (zlen d) H2_FRAME_DATA 0 id) by (rewrite Hd; reflexivity).
      replace (pkt + n - pkt) with n by lia.
      assert (Hfl : has fl HIO_EOR && (0 <? pkt + n) && (pkt + n =? zlen buf - p) =
                    has fl HIO_EOR && (0 <? n) && (n =? zlen buf - (p + pkt))).
      { revert Eeos. destruct (has fl HIO_EOR); [|reflexivity]. cbn [andb]. rewrite andb_true_r. intros. lia. }
      rewrite Hfl, Hnh. apply body_more; [lia|assumption].
Qed.

Lemma body_lengths id maxFrame eos d fs : 0 <= id < 2 ^ 31 -> 0 < maxFrame < 2 ^ 24 ->
  body_frames id maxFrame eos d fs ->
  Forall (fun f => getLength (fst f) = zlen (snd f)) fs /\ concat (map snd fs) = d.
Proof.
  intros Hid Hm Hb. induction Hb as [|d Hd|eos d rest fs Hd Hb [IH1 IH2]]; cbn [map concat snd].
  - auto.
  - rewrite app_nil_r. split; [|reflexivity]. constructor; [|constructor]. cbn [fst snd].
    exact (proj1 (new_header_fields (zlen d) H2_FRAME_DATA H2_FLAG_END_STREAM id ltac:(lia) Hid)).
  - split; [|congruence]. constructor; [|assumption]. cbn [fst snd].
    exact (proj1 (new_header_fields (zlen d) H2_FRAME_DATA 0 id ltac:(lia) Hid)).
Qed.

Lemma write_spec id buf fl c s r c' :
  deref id c = Some s -> s_state s <> HIOS_DISCONNECTED -> write id buf fl c = (r, c') ->
  exists n fs, 0 <= n <= zlen buf /\ n <= Z.max 0 (m_iWindowOut s) /\ n <= Z.max 0 (m_iCurDataOutWindow (c_flow c)) /\
    (r = n \/ n = 0 /\ r = -1) /\ sent id n (concat (map frame_bytes fs)) c c' /\
    body_frames id (m_iPeerMaxFrameSize (c_flow c)) (has fl HIO_EOR && (0 <? n) && (n =? zlen buf)) (ztake n buf) fs /\
    (bufSize c = 0 -> can_send s c = true -> buf <> [] -> 0 < n).
Proof.
  intros Es Hst. unfold write. rewrite Es. replace (s_state s =? HIOS_DISCONNECTED) with false by lia.
  pose proof (zlen_nonneg buf) as Hb.
  set (early := (s_bytesSent s =? 0) && (zlen buf >? H2STREAM_MAX_PKT_SIZE) && (bufSize c >? 0)).
  set (w := getWeightedPriority id c). clearbody w.
  destruct (if early then flush c else (0, c)) as [r0 c0] eqn:E0.
  assert (H0 : sent id 0 [] c c0 /\ (bufSize c = 0 -> r0 = 0 /\ c0 = c)).
  { destruct early eqn:Ee; [|injection E0 as <- <-; split; [apply sent_refl|auto]].
    split; [|subst early; lia]. change c0 with (snd (r0, c0)). rewrite <- E0. apply sent_outputs, flush_outputs. }
  destruct H0 as [H0 Hb0]. destruct (Z.eqb_spec r0 0) as [->|Hr0]; cbn [negb]; cycle 1.
  { intros [= <- <-]. exists 0, []. rewrite ztake_0, andb_false_r.
    split_and!; auto; try lia; [|constructor]. destruct (_ =? -1); auto. }
  destruct (st_stream _ _ _ _ _ H0 s Es) as (s0 & Es0 & Hw0 & _).
  destruct (write_loop_spec id buf fl w (S (length buf)) 0 0 c0 s0 Es0) as (n & ret' & c1 & fs & -> & Hn & Hnw & Hnc & Hr & Hgo & Hs & Hbody);
    [lia|unfold zlen; lia|].
  rewrite (st_flow _ _ _ _ _ H0) in Hnc, Hbody. cbn [c_flow set_iCurDataOutWindow m_iCurDataOutWindow m_iPeerMaxFrameSize set_c_flow] in Hnc, Hbody.
  intros [= Er <-]. exists n, fs. rewrite zdrop_0, Z.sub_0_r in *. split_and!; try lia.
  - destruct (Z.gtb_spec (0 + n) 0); [lia|]. rewrite Hr in Er by lia. lia.
  - eapply sent_nil_l; eauto.
  - exact Hbody.
  - intros Hbs Hcan Hne. destruct (Hb0 Hbs) as [_ ->]. assert (s0 = s) as -> by congruence. apply Hgo; [assumption|].
    destruct buf; [congruence|]. rewrite zlen_cons. pose proof (zlen_nonneg buf). lia.
Qed.

(** C14: writing a response body.  Whatever the stream's write is given, it
    takes a prefix of it: the value returned counts the bytes taken (or reports
    that nothing was, with the connection lost), and what goes to the output,
    after everything output before, is that prefix cut into DATA frames of the
    stream, none longer than the peer's maximum, the last one ending the stream
    when the whole body was taken with the end-of-response flag.  The prefix is
    no longer than the peer's windows, both windows shrink by exactly its
    length, and no other stream changes. *)
Theorem write_within_windows id buf fl c s r c' :
  deref id c = Some s -> s_state s <> HIOS_DISCONNECTED -> out_ok c ->
  0 <= id < 2 ^ 31 -> 0 < m_iPeerMaxFrameSize (c_flow c) < 2 ^ 24 ->
  write id buf fl c = (r, c') ->
  exists n fs s', (r = n \/ n = 0 /\ r = -1) /\ 0 <= n <= zlen buf /\
    n <= Z.max 0 (m_iWindowOut s) /\ n <= Z.max 0 (m_iCurDataOutWindow (c_flow c)) /\
    out_stream c' = out_stream c ++ concat (map frame_bytes fs) /\
    frames_of (concat (map frame_bytes fs)) = (fs, []) /\
    body_frames id (m_iPeerMaxFrameSize (c_flow c)) (has fl HIO_EOR && (0 <? n) && (n =? zlen buf)) (ztake n buf) fs /\
    m_iCurDataOutWindow (c_flow c') = m_iCurDataOutWindow (c_flow c) - n /\
    deref id c' = Some s' /\ m_iWindowOut s' = m_iWindowOut s - n /\
    (forall j, j <> id -> deref j c' = deref j c).
Proof.
  intros Es Hst Hok Hid Hm Hw. destruct (write_spec id buf fl c s r c' Es Hst Hw) as (n & fs & Hn & Hnw & Hnc & Hr & Hs & Hb & _).
  destruct (st_stream _ _ _ _ _ Hs s Es) as (s' & Es' & Hws & _). exists n, fs, s'.
  destruct (st_out _ _ _ _ _ Hs Hok) as [_ Ho]. destruct (body_lengths _ _ _ _ _ Hid Hm Hb) as [Hl _].
  split; [assumption|]. split; [assumption|]. split_and!; auto.
  - rewrite <- (app_nil_r (concat _)). apply frames_of_concat; [assumption|reflexivity].
  - rewrite (st_flow _ _ _ _ _ Hs). reflexivity.
  - apply (st_other _ _ _ _ _ Hs).
Qed.

(** C26: a stream that may send does.  When the stream is connected and not paused, both
    windows are open, the connection's output buffer is empty, the peer's frame size is
    positive and there is something to write, write takes at least one byte of it. *)
Theorem write_progress id buf fl c s :
  deref id c = Some s -> s_state s <> HIOS_DISCONNECTED -> bufSize c = 0 -> s_flag s PAUSE_WRITE = false ->
  0 < m_iWindowOut s -> 0 < m_iCurDataOutWindow (c_flow c) -> 0 < m_iPeerMaxFrameSize (c_flow c) -> buf <> [] ->
  0 < fst (write id buf fl c).
Proof.
  intros Es Hst Hb Hp Hw Hc Hm Hne. destruct (write id buf fl c) as [r c'] eqn:E.
  destruct (write_spec id buf fl c s r c' Es Hst E) as (n & fs & _ & _ & _ & Hr & _ & _ & Hgo). cbn [fst].
  enough (0 < n) by lia. apply Hgo; auto. unfold can_send, isOutBufFull. rewrite Hp, Hb, orb_true_r.
  cbn [negb andb]. lia.
Qed.

(** ** Operations that leave the input side alone *)

Lemma shutdownWrite_in id c : c_in (shutdownWrite id c) = c_in c.
Proof.
  unfold shutdownWrite. destruct (deref id c); [|reflexivity]. destruct (negb _); [|reflexivity].
  rewrite (o_in _ _ _ (wantFlush_outputs _)). exact (o_in _ _ _ (guaranteeOutput_outputs _ _)).
Qed.

Lemma add2PriorityQue_in id c : c_in (add2PriorityQue id c) = c_in c.
Proof. exact (st_in _ _ _ _ _ (sent_add2PriorityQue id c)). Qed.

Lemma removePriQue_in id c : c_in (removePriQue id c) = c_in c.
Proof. unfold removePriQue. destruct (deref id c); reflexivity. Qed.

Lemma stream_continueWrite_in id c : c_in (stream_continueWrite id c) = c_in c.
Proof.
  unfold stream_continueWrite. destruct (deref id c); [|reflexivity].
  rewrite (o_in _ _ _ (needWriteEvent_outputs _)). destruct (negb _); [rewrite add2PriorityQue_in|]; reflexivity.
Qed.

Lemma apply_priority_in p id c : c_in (apply_priority p id c) = c_in c.
Proof.
  unfold apply_priority. destruct (deref id c); [|reflexivity]. destruct (negb _); [|reflexivity].
  destruct (linked id c); [|reflexivity]. rewrite add2PriorityQue_in. cbn. apply removePriQue_in.
Qed.

Lemma adjWindowOut_in id n c : c_in (adjWindowOut id n c).2 = c_in c.
Proof.
  unfold adjWindowOut. destruct (deref id c); [|reflexivity]. destruct (_ <? 0); [reflexivity|].
  cbn [snd]. destruct (s_flag _ _); [rewrite stream_continueWrite_in|]; reflexivity.
Qed.

Lemma updateWindow_in c : c_in (updateWindow c) = c_in c.
Proof.
  unfold updateWindow. destruct (_ <=? 0); [reflexivity|].
  exact (o_in _ _ _ (sendFrame4Bytes_outputs _ _ _ _ _)).
Qed.

Lemma addWindowInToUpdate_in n c : c_in (addWindowInToUpdate n c) = c_in c.
Proof.
  unfold addWindowInToUpdate. destruct (_ <=? 0); [reflexivity|]. cbv zeta.
  destruct (_ <? _); [rewrite updateWindow_in|]; reflexivity.
Qed.

Lemma windowUpdate_in id c : c_in (windowUpdate id c) = c_in c.
Proof.
  unfold windowUpdate. destruct (deref id c); [|reflexivity]. destruct (_ >=? _); [|reflexivity].
  cbn. unfold sendStreamWindowUpdateFrame. destruct (_ >=? _); rewrite ?updateWindow_in;
    exact (o_in _ _ _ (sendFrame4Bytes_outputs _ _ _ _ _)).
Qed.

Lemma adjWindowToUpdate_in id n c : c_in (adjWindowToUpdate id n c) = c_in c.
Proof. unfold adjWindowToUpdate. destruct (deref id c); [rewrite addWindowInToUpdate_in|]; reflexivity. Qed.

Lemma sendSettingsFrame_in c : c_in (sendSettingsFrame c) = c_in c.
Proof.
  unfold sendSettingsFrame. destruct (flag c SETTING_SENT); [reflexivity|].
  exact (o_in _ _ _ (guaranteeOutput_outputs _ _)).
Qed.

Lemma guaranteeOutput_in d c : c_in (guaranteeOutput d c) = c_in c.
Proof. exact (o_in _ _ _ (guaranteeOutput_outputs _ _)). Qed.

Lemma sendFrame4Bytes_in t id v b c : c_in (sendFrame4Bytes t id v b c) = c_in c.
Proof. exact (o_in _ _ _ (sendFrame4Bytes_outputs _ _ _ _ _)). Qed.

Lemma sendPingFrame_in f p c : c_in (sendPingFrame f p c) = c_in c.
Proof. exact (o_in _ _ _ (sendPingFrame_outputs _ _ _)). Qed.

Lemma sendGoAwayFrame_in st c : c_in (sendGoAwayFrame st c) = c_in c.
Proof. exact (o_in _ _ _ (sendGoAwayFrame_outputs _ _)). Qed.

Lemma flush_in c : c_in (flush c).2 = c_in c.
Proof. exact (o_in _ _ _ (flush_outputs _)). Qed.

Lemma needWriteEvent_in c : c_in (needWriteEvent c) = c_in c.
Proof. exact (o_in _ _ _ (needWriteEvent_outputs _)). Qed.

End Conn.

(** ** Examples: twelve bytes for a stream whose window has room for ten, to a
    peer that takes four bytes a frame. *)

Definition ex_stream : stream loopbuf :=
  Stream HIOS_CONNECTED (fun _ => false) 0 bq_new 0 10 100 0 0 true true.

Definition ex_conn : conn loopbuf :=
  Conn (Input bq_new [] (-9) (read_header (repeat 0 9)) ST_CONTROL_FRAME 0 None [] [])
    (Output bq_new [] [] true false true false false)
    (Flow 65535 65535 65535 0 100 10 4) (Counts 1 1 0 0 0 false false)
    (fun _ => false) (Priority 0 0 0) (fun _ => []) (<[1 := ex_stream]> ∅).

Lemma ex_deref : deref 1 ex_conn = Some ex_stream.
Proof. reflexivity. Qed.

Definition ex_write : Z * conn loopbuf := write 1 (bs "twelve bytes") HIO_EOR ex_conn.

Lemma ex_write_eq : write 1 (bs "twelve bytes") HIO_EOR ex_conn = (fst ex_write, snd ex_write).
Proof. apply surjective_pairing. Qed.

Lemma write_within_windows_witness :
  exists n fs s', (fst ex_write = n \/ n = 0 /\ fst ex_write = -1) /\ 0 <= n <= zlen (bs "twelve bytes") /\
    n <= Z.max 0 (m_iWindowOut ex_stream) /\ n <= Z.max 0 (m_iCurDataOutWindow (c_flow ex_conn)) /\
    out_stream (snd ex_write) = out_stream ex_conn ++ concat (map frame_bytes fs) /\
    frames_of (concat (map frame_bytes fs)) = (fs, []) /\
    body_frames 1 (m_iPeerMaxFrameSize (c_flow ex_conn)) (has HIO_EOR HIO_EOR && (0 <? n) && (n =? zlen (bs "twelve bytes")))
      (ztake n (bs "twelve bytes")) fs /\
    m_iCurDataOutWindow (c_flow (snd ex_write)) = m_iCurDataOutWindow (c_flow ex_conn) - n /\
    deref 1 (snd ex_write) = Some s' /\ m_iWindowOut s' = m_iWindowOut ex_stream - n /\
    (forall j, j <> 1 -> deref j (snd ex_write) = deref j ex_conn).
Proof.
  apply (write_within_windows 1 (bs "twelve bytes") HIO_EOR ex_conn ex_stream).
  - exact ex_deref.
  - discriminate.
  - exact bq_new_ok.
  - lia.
  - split; reflexivity.
  - exact ex_write_eq.
Defined.

Lemma write_progress_witness : 0 < fst (write 1 (bs "twelve bytes") HIO_EOR ex_conn).
Proof.
  apply (write_progress 1 (bs "twelve bytes") HIO_EOR ex_conn ex_stream); try reflexivity; discriminate.
Defined.

Example ex_write_takes_ten : fst ex_write = 10.
Proof. vm_compute. reflexivity. Qed.
