(* ===== verification/H2Input.v ===== *)
(** * H2Input: the input side of an HTTP/2 connection
    (src/src/h2/h2connbase.cpp, src/src/h2/h2connection.cpp,
    src/src/h2/h2stream.cpp, src/src/http/hiostream.h)

    The frame parser, every frame handler, the life of a stream from its
    HEADERS frame to its recycling, the read loop that takes DATA payloads
    straight into stream buffers, and the loop that lets the streams of the
    priority queues write.

    HttpSession and every other handler of a stream is a parameter, the class
    [App]: [app_call] is what a virtual call of HioHandler does to the
    connection and to the application's own state.  So is the HPACK decoder with
    the construction of the request header from a block ([app_decode]), which
    is the lshpack library's. *)

From S2P Require Import Prelude LoopBuf H2Frame H2State H2Conn.
From stdpp Require Import fin_maps functions.
#[local] Open Scope Z_scope.

(** The virtual calls a connection makes on the handler of a stream. *)
Inductive upcall :=
  | OnInitConnected | OnReadEx | OnWriteEx | OnCloseEx | RecycleHandler
  | DetectContentLenMismatch (buffered : Z).

Class App (Q A : Type) := {
  app_call : upcall -> Z -> conn Q * A -> Z * (conn Q * A);
  app_handler : A -> bool;
  app_decode : list Z -> A -> bool * A;
  app_capacity : Z -> A -> A }.

Section Input.

Context {Q A : Type} {BQ : ByteQueue Q} {AP : App Q A}.

Abbreviation W := (conn Q * A)%type.
Implicit Types (c : conn Q) (w : W).

Definition on (f : conn Q -> conn Q) w : W := (f w.1, w.2).

Definition LS_OK : Z := 0.
Definition LS_FAIL : Z := -1.

(** ** The input buffer and the stream below *)

Definition inData c : list Z := bq_data (m_bufInput (c_in c)).
Definition inSize c : Z := zlen (inData c).
Definition pop_front (n : Z) c : conn Q := set_bufInput (bq_pop n (m_bufInput (c_in c))) c.
Definition moveTo (n : Z) c : list Z * conn Q := (ztake n (inData c), pop_front (Z.min n (inSize c)) c).
Definition remain c : Z := m_iCurrentFrameRemain (c_in c).
Definition log (e : event) c : conn Q := set_trace (trace (c_in c) ++ [e]) c.

(** [getInStream()->read(buf, n)]: the next bytes that have arrived, at most
    [n] of them; none yet is 0, and an empty segment stands for a connection
    the peer has closed, -1. *)
Definition in_read (n : Z) c : option (list Z) * conn Q :=
  match netIn (c_in c) with
  | [] => (Some [], c)
  | [] :: _ => (None, c)
  | seg :: rest =>
      if zlen seg <=? n then (Some seg, set_netIn rest c)
      else (Some (ztake n seg), set_netIn (zdrop n seg :: rest) c)
  end.

(** ** Streams and their handlers *)

Definition s_call (u : upcall) (id : Z) w : Z * W :=
  match deref id w.1 with
  | Some s => if s_handler s then app_call u id w else (0, w)
  | None => (0, w)
  end.

Definition onRead (id : Z) w : W := (s_call OnReadEx id w).2.

(** [H2Stream::onClose] *)
Definition onClose (id : Z) w : W :=
  match deref id w.1 with
  | Some s => if s_handler s && negb (s_flag s HANDLER_RELEASE) then (app_call OnCloseEx id w).2 else w
  | None => w
  end.

(** [H2StreamBase::closeEx] *)
Definition closeEx (id : Z) w : W :=
  match deref id w.1 with
  | None => w
  | Some s =>
      if s_state s =? HIOS_DISCONNECTED then w
      else
        let w := onClose id w in
        match deref id w.1 with
        | None => w
        | Some s =>
            on (fun c =>
              let c := if s_state s <? HIOS_SHUTDOWN then shutdownWrite id c else c in
              let c := if s_state s =? HIOS_SHUTDOWN
                       then set_uiShutdownStreams (wrapu 32 (m_uiShutdownStreams (c_cnt c) - 1)) c else c in
              upd id (fun s => sset WANT_WRITE false (set_s_state HIOS_DISCONNECTED s)) c) w
        end
  end.

(** [H2Connection::recycleStream] *)
Definition recycleStream (id : Z) w : W :=
  let w := on (fun c => if bool_decide (m_current (c_in c) = Some id) then set_current None c else c) w in
  let w := on (upd id (set_s_inMap false)) w in
  let w := closeEx id w in
  let w := on (removePriQue id) w in
  let w := (s_call RecycleHandler id w).2 in
  match deref id w.1 with
  | None => w
  | Some s =>
      let w := if s_flag s STREAM_DROP then on (set_flag DROP) w else w in
      on (fun c => set_mapStream (delete id (m_mapStream c)) c) w
  end.

(** [releaseAllStream], in the order of the table's keys. *)
Definition releaseAllStream w : W :=
  fold_left (fun w id => recycleStream id w)
    (map fst (filter (fun e => s_inMap e.2 = true) (map_to_list (m_mapStream w.1)))) w.

Definition doGoAway (status : Z) w : W :=
  let w := releaseAllStream w in
  let w := on (sendGoAwayFrame status) w in
  let w := on (fun c => set_os_closing true (set_os_release true c)) w in
  on (fun c => if negb (flag c IN_EVENT) then set_os_wantWrite true c else c) w.

(** [H2Connection::onCloseEx] *)
Definition conn_onCloseEx w : W :=
  if os_release (c_out w.1) then w
  else
    let w := on (set_os_closing true) w in
    let w := releaseAllStream w in
    on (set_os_release true) w.

Definition suspendRead c : conn Q := set_os_wantRead false c.

(** [resetStream(id, pStream, code)]; [ptr] tells whether the caller passes
    the stream. *)
Definition resetStream (ptr : bool) (id code : Z) w : Z * W :=
  let ex := ptr || bool_decide (is_Some (findStream id w.1)) in
  let hit := ex || ((id >? 0) && (bufSize w.1 <? 16384)) in
  let w := if hit then on (fun c => set_uiRstStreams (wrapu 32 (m_uiRstStreams (c_cnt c) + 1)) c) w else w in
  let n := m_uiRstStreams (c_cnt w.1) in
  if hit && (n >? 500) && (n >? m_uiStreams (c_cnt w.1) / 2) then (LS_FAIL, on (set_http2Disabled true) w)
  else
    let w := if hit then on (sendRstFrame id code) w else w in
    if ex then (0, recycleStream id (on (upd id (set_s_state HIOS_RESET)) w)) else (0, w).

(** [H2Stream::onInitConnected] *)
Definition onInitConnected (id : Z) w : W :=
  match deref id w.1 with
  | None => w
  | Some s =>
      let w := if s_flag s INIT_SESS
               then (s_call OnInitConnected id (on (upd id (sset INIT_SESS false)) w)).2 else w in
      let w := match deref id w.1 with
               | Some s => if s_flag s WANT_READ && (zlen (bq_data (m_bufRcvd s)) >? 0) then onRead id w else w
               | None => w
               end in
      match deref id w.1 with
      | Some s => if s_flag s WANT_WRITE && negb (linked id w.1) then on (add2PriorityQue id) w else w
      | None => w
      end
  end.

Definition assignStreamHandler (id : Z) w : Z * W :=
  if app_handler w.2 then (0, onInitConnected id (on (upd id (set_s_handler true)) w))
  else (LS_FAIL, (resetStream true id H2_ERROR_INTERNAL_ERROR w).2).

(** [H2Stream::onPeerShutdown] *)
Definition onPeerShutdown (id : Z) w : Z * W :=
  let w := on (log (EvFin id)) (on (upd id (sset PEER_SHUTDOWN true)) w) in
  let '(ret, w) :=
    match deref id w.1 with
    | Some s => if s_flag s INIT_SESS then assignStreamHandler id w else (0, w)
    | None => (0, w)
    end in
  if ret =? LS_FAIL then (LS_FAIL, w)
  else
    match deref id w.1 with
    | Some s =>
        let '(mismatch, w) := s_call (DetectContentLenMismatch (zlen (bq_data (m_bufRcvd s)))) id w in
        if negb (mismatch =? 0) then (LS_FAIL, w) else (LS_OK, w)
    | None => (LS_OK, w)
    end.

(** [HioStream::onPeerClose] with [handlerOnClose] and [H2StreamBase::close] *)
Definition onPeerClose (id : Z) w : W :=
  let w := on (upd id (sset PEER_SHUTDOWN true)) w in
  let w :=
    match deref id w.1 with
    | Some s =>
        if s_handler s then
          let w := if negb (s_flag s HANDLER_RELEASE) then (app_call OnCloseEx id w).2 else w in
          match deref id w.1 with
          | Some s =>
              if s_handler s && s_flag s HANDLER_RELEASE
              then on (upd id (set_s_handler false)) (s_call RecycleHandler id w).2 else w
          | None => w
          end
        else w
    | None => w
    end in
  match deref id w.1 with
  | Some s => if s_state s =? HIOS_DISCONNECTED then w else recycleStream id (onClose id w)
  | None => w
  end.

(** ** Letting streams write *)

(** [H2Stream::onWrite] *)
Definition onWrite (id : Z) w : W :=
  match deref id w.1 with
  | None => w
  | Some s =>
      if m_iWindowOut s <=? 0 then w
      else
        let w := on (upd id (sset PAUSE_WRITE false)) w in
        if s_flag s WANT_WRITE then
          if negb (s_handler s) then on (upd id (sset WANT_WRITE false)) w
          else
            let w := (app_call OnWriteEx id w).2 in
            match deref id w.1 with
            | Some s => if s_flag s WANT_WRITE then on needWriteEvent w else w
            | None => w
            end
        else w
  end.

Definition wants_write (id : Z) c : bool :=
  match deref id c with Some s => s_flag s WANT_WRITE && (m_iWindowOut s >? 0) | None => false end.

Definition append_unlinked (id : Z) c : conn Q :=
  match deref id c with
  | Some s => if negb (linked id c) then queue_append (s_priority s) id c else c
  | None => c
  end.

Definition recycle_unconnected (id : Z) w : W :=
  match deref id w.1 with
  | Some s => if negb (s_state s =? HIOS_CONNECTED) then recycleStream id w else w
  | None => w
  end.

(** The streams of one queue; the result tells whether the loop was left
    because the connection is dropped. *)
Fixpoint queue_loop (count : nat) (q wantWrite : Z) w : Z * bool * W :=
  match count with
  | O => (wantWrite, false, w)
  | S count =>
      if (m_iCurDataOutWindow (c_flow w.1) >? 0) && negb (os_pauseWrite (c_out w.1)) then
        match m_priQue w.1 q with
        | [] => (wantWrite, false, w)
        | id :: rest =>
            let w := on (set_priQue (<[q := rest]> (m_priQue w.1))) w in
            match deref id w.1 with
            | None => queue_loop count q wantWrite w
            | Some s =>
                if negb (s_state s =? HIOS_CONNECTED) then queue_loop count q wantWrite (recycleStream id w)
                else
                  let '(ret, w) := if s_flag s INIT_SESS then assignStreamHandler id w
                                   else if s_flag s WANT_WRITE then
                                     (0, if negb (os_pauseWrite (c_out w.1)) then onWrite id w
                                         else on (queue_push (s_priority s) id) w)
                                   else (0, w) in
                  if ret =? LS_FAIL then queue_loop count q wantWrite w
                  else
                    let more := wants_write id w.1 in
                    let wantWrite := if more then wantWrite + 1 else wantWrite in
                    let w := if more then on (append_unlinked id) w else w in
                    let w := recycle_unconnected id w in
                    if flag w.1 DROP then (0, true, w)
                    else if isOutBufFull w.1 then (wantWrite + 1, false, w)
                    else queue_loop count q wantWrite w
            end
        end
      else (wantWrite, false, w)
  end.

Fixpoint queues_loop (qs : list Z) (wantWrite : Z) w : Z * bool * W :=
  match qs with
  | [] => (wantWrite, false, w)
  | q :: qs =>
      if m_iCurDataOutWindow (c_flow w.1) >? 0 then
        let '(wantWrite, drop, w) := queue_loop (length (m_priQue w.1 q)) q wantWrite w in
        if drop || (wantWrite >? 0) then (wantWrite, drop, w) else queues_loop qs wantWrite w
      else (wantWrite, false, w)
  end.

Definition processQueue w : Z * W :=
  let '(wantWrite, drop, w) := queues_loop (seqZ 0 H2_STREAM_PRIORITYS) 0 w in
  if drop then (0, w)
  else (wantWrite, if flag w.1 WANT_FLUSH then on (fun c => (flush c).2) w else w).

(** [processPendingStreams]: streams whose request is complete but have no
    handler yet. *)
Fixpoint pending_loop (count : nat) (q wantWrite : Z) w : Z * bool * W :=
  match count with
  | O => (wantWrite, false, w)
  | S count =>
      if m_iCurDataOutWindow (c_flow w.1) >? 0 then
        match m_priQue w.1 q with
        | [] => (wantWrite, false, w)
        | id :: rest =>
            let w := on (set_priQue (<[q := rest]> (m_priQue w.1))) w in
            match deref id w.1 with
            | None => pending_loop count q wantWrite w
            | Some s =>
                if negb (s_state s =? HIOS_CONNECTED) then pending_loop count q wantWrite (recycleStream id w)
                else
                  let '(ret, w) :=
                    if s_flag s INIT_SESS then
                      let '(ret, w) := assignStreamHandler id w in
                      (ret, if negb (ret =? LS_FAIL) && wants_write id w.1 then on (append_unlinked id) w else w)
                    else (0, on (queue_push (s_priority s) id) w) in
                  if ret =? LS_FAIL then pending_loop count q wantWrite w
                  else
                    let w := recycle_unconnected id w in
                    if isOutBufFull w.1 then (wantWrite + 1, false, w)
                    else if flag w.1 DROP then (0, true, w)
                    else pending_loop count q wantWrite w
            end
        end
      else (wantWrite, false, w)
  end.

Fixpoint pendings_loop (qs : list Z) (wantWrite : Z) w : Z * bool * W :=
  match qs with
  | [] => (wantWrite, false, w)
  | q :: qs =>
      if m_iCurDataOutWindow (c_flow w.1) >? 0 then
        let '(wantWrite, drop, w) := pending_loop (length (m_priQue w.1 q)) q wantWrite w in
        if drop || (wantWrite >? 0) then (wantWrite, drop, w) else pendings_loop qs wantWrite w
      else (wantWrite, false, w)
  end.

Definition processPendingStreams w : Z * W :=
  let '(wantWrite, drop, w) := pendings_loop (seqZ 0 H2_STREAM_PRIORITYS) 0 w in
  if drop then (0, w)
  else (wantWrite, if flag w.1 WANT_FLUSH then on (fun c => (flush c).2) w else w).

Definition onWriteEx2 w : Z * W :=
  let buffered := bufSize w.1 in
  let w := if buffered >? 0 then
             if buffered >=? 1369 then on (fun c => (flush c).2) w else on (set_flag WANT_FLUSH) w
           else w in
  if (buffered >=? 1369) && negb (isEmpty w.1) then (1, w)
  else
    let resume w : W := on (fun c => if negb (os_wantWrite (c_out c)) && (m_iCurDataOutWindow (c_flow c) >? 0)
                                     then set_os_wantWrite true c else c) w in
    if os_pauseWrite (c_out w.1) then (1, resume w)
    else
      let '(wantWrite, w) := processQueue w in
      (wantWrite, if negb (wantWrite =? 0) then resume w else w).

Definition onWriteEx w : W :=
  let w := on (set_flag IN_EVENT) w in
  let '(wantWrite, w) := onWriteEx2 w in
  let w := on (clr_flag IN_EVENT) w in
  let w := if flag w.1 DROP then doGoAway H2_ERROR_ENHANCE_YOUR_CALM w else w in
  if ((wantWrite =? 0) || (m_iCurDataOutWindow (c_flow w.1) <=? 0)) && isEmpty w.1 then
    let w := on (set_os_wantWrite false) w in
    if flag w.1 PAUSE_READ then on (fun c => set_os_wantRead true (clr_flag PAUSE_READ c)) w else w
  else w.

(** ** Control frames *)

(** [++m_iControlFrames > MAX_CONTROL_FRAMES_RATE] *)
Definition countControlFrame w : bool * W :=
  let w := on (fun c => set_iControlFrames (m_iControlFrames (c_cnt c) + 1) c) w in
  (m_iControlFrames (c_cnt w.1) >? MAX_CONTROL_FRAMES_RATE, w).

Definition set_remain (n : Z) w : W := on (set_iCurrentFrameRemain n) w.

(** [processPriority] *)
Definition processPriority (id : Z) w : Z * W :=
  let '(buf, c) := moveTo 5 w.1 in
  let c := set_iCurrentFrameRemain (remain c - 5) c in
  let p := Priority (Z.land (beReadUint32 buf) 2147483647) (m_weight (m_priority c)) (Z.shiftr (znth buf 0) 7) in
  let c := set_priority p c in
  if m_dependStreamId p =? id then (H2_ERROR_PROTOCOL_ERROR, (c, w.2))
  else
    let p := Priority (m_dependStreamId p) (znth buf 4 + 1) (m_exclusive p) in
    let w := (set_priority p c, w.2) in
    match findStream id w.1 with
    | None => (0, w)
    | Some s =>
        if s_flag s PRI_SET then
          let '(abuse, w) := countControlFrame w in
          if abuse then (LS_FAIL, w) else (0, on (apply_priority (Some p) id) w)
        else (0, on (apply_priority (Some p) id) (on (upd id (sset PRI_SET true)) w))
    end.

Definition processPriorityFrame (h : H2FrameHeader) w : Z * W :=
  if getStreamId h =? 0 then (LS_FAIL, w)
  else let '(r, w) := processPriority (getStreamId h) w in
       if negb (r =? 0) then (H2_ERROR_PROTOCOL_ERROR, w) else (0, w).

Definition processPushPromiseFrame (h : H2FrameHeader) w : Z * W := (0, doGoAway H2_ERROR_PROTOCOL_ERROR w).

(** One entry of a SETTINGS frame; [inl] leaves the handler. *)
Definition setting (id v diff : Z) w : (Z * W) + (Z * W) :=
  if id =? H2_SETTINGS_HEADER_TABLE_SIZE then
    if v >? MAX_HEADER_TABLE_SIZE then inl (LS_FAIL, w) else inr (diff, (w.1, app_capacity v w.2))
  else if id =? H2_SETTINGS_MAX_FRAME_SIZE then
    if (v <? H2_DEFAULT_DATAFRAME_SIZE) || (v >? H2_MAX_DATAFRAM_SIZE) then inl (LS_FAIL, w)
    else inr (diff, on (set_iPeerMaxFrameSize v) w)
  else if id =? H2_SETTINGS_INITIAL_WINDOW_SIZE then
    if v >? H2_FCW_MAX_SIZE then inl (0, doGoAway H2_ERROR_FLOW_CONTROL_ERROR w)
    else inr (v - m_iStreamOutInitWindowSize (c_flow w.1), on (set_iStreamOutInitWindowSize v) w)
  else if id =? H2_SETTINGS_ENABLE_PUSH then
    if v >? 1 then inl (LS_FAIL, w) else inr (diff, w)
  else inr (diff, w).

Fixpoint settings_loop (n : nat) (diff : Z) w : (Z * W) + (Z * W) :=
  match n with
  | O => inr (diff, w)
  | S n =>
      let '(p, c) := moveTo 6 w.1 in
      let id := Z.lor (Z.shiftl (znth p 0) 8) (znth p 1) in
      match setting id (beReadUint32 (zdrop 2 p)) diff (c, w.2) with
      | inl r => inl r
      | inr (diff, w) => settings_loop n diff w
      end
  end.

(** The open streams, in the order of the table's keys. *)
Definition open_ids c : list Z := map fst (filter (fun e => s_inMap e.2 = true) (map_to_list (m_mapStream c))).

Definition processSettingFrame (h : H2FrameHeader) w : Z * W :=
  if negb (getStreamId h =? 0) then (0, doGoAway H2_ERROR_PROTOCOL_ERROR w)
  else
    let iEntries := remain w.1 / 6 in
    if negb (remain w.1 mod 6 =? 0) then (0, doGoAway H2_ERROR_FRAME_SIZE_ERROR w)
    else if has (getFlags h) H2_FLAG_ACK then
      if negb (iEntries =? 0) then (LS_FAIL, w)
      else if flag w.1 SETTING_SENT then (0, on (set_flag CONFIRMED) w) else (LS_FAIL, w)
    else
      match settings_loop (Z.to_nat iEntries) 0 w with
      | inl r => r
      | inr (diff, w) =>
          let w := on (set_flag SETTING_RCVD) (set_remain 0 w) in
          let '(abuse, w) := countControlFrame w in
          if abuse then (LS_FAIL, w)
          else
            let w := on (fun c => sendFrame0Bytes H2_FRAME_SETTINGS H2_FLAG_ACK 0 (sendSettingsFrame c)) w in
            if negb (diff =? 0) then
              (0, on (fun c => fold_left (fun c id => (adjWindowOut id diff c).2) (open_ids c) c) w)
            else (0, w)
      end.

Definition processWindowUpdateFrame (h : H2FrameHeader) w : Z * W :=
  let '(sTemp, c) := moveTo 4 w.1 in
  let w := (set_iCurrentFrameRemain (remain c - 4) c, w.2) in
  let id := getStreamId h in
  let delta := Z.land (beReadUint32 sTemp) 2147483647 in
  if delta =? 0 then
    (0, if negb (id =? 0) then (resetStream false id H2_ERROR_PROTOCOL_ERROR w).2
        else doGoAway H2_ERROR_PROTOCOL_ERROR w)
  else
    let '(abuse, w) := if delta <? 10 then countControlFrame w else (false, w) in
    if abuse then (LS_FAIL, w)
    else if id =? 0 then
      let tmpVal := wrapu 32 (m_iCurDataOutWindow (c_flow w.1) + delta) in
      if tmpVal >? 2147483647 then (0, doGoAway H2_ERROR_FLOW_CONTROL_ERROR w)
      else
        let blocked := (m_iCurDataOutWindow (c_flow w.1) <=? 0) && (tmpVal >? 0) in
        let w := on (set_iCurDataOutWindow tmpVal) w in
        let w := if blocked then (onWriteEx2 w).2 else w in
        (0, set_remain 0 w)
    else
      match findStream id w.1 with
      | Some s =>
          let '(ret, c) := adjWindowOut id delta w.1 in
          let w := (c, w.2) in
          if ret <? 0 then (0, set_remain 0 (resetStream true id H2_ERROR_FLOW_CONTROL_ERROR w).2)
          else
            match deref id w.1 with
            | Some s => (0, set_remain 0 (if m_iWindowOut s <=? delta then on (stream_continueWrite id) w else w))
            | None => (0, set_remain 0 w)
            end
      | None =>
          if Z.land id 1 =? 1 then
            if id >? m_uiLastStreamId (c_cnt w.1) then (LS_FAIL, w) else (0, set_remain 0 w)
          else (LS_FAIL, w)
      end.

Definition processRstFrame (h : H2FrameHeader) w : Z * W :=
  let id := getStreamId h in
  if id =? 0 then (LS_FAIL, w)
  else if negb (Z.land id 1 =? 0) && (id >? m_uiLastStreamId (c_cnt w.1)) then (LS_FAIL, w)
  else if Z.land id 1 =? 0 then (LS_FAIL, w)
  else
    match findStream id w.1 with
    | None => (0, w)
    | Some _ =>
        let w := on (fun c => set_uiRstStreams (wrapu 32 (m_uiRstStreams (c_cnt c) + 1)) c) w in
        let n := m_uiRstStreams (c_cnt w.1) in
        if (n >? 500) && (n >? m_uiStreams (c_cnt w.1) / 2) then (LS_FAIL, on (set_http2Disabled true) w)
        else
          let '(_, c) := moveTo 4 w.1 in
          let w := (set_iCurrentFrameRemain (remain c - 4) c, w.2) in
          (0, onPeerClose id (on (upd id (sset PEER_RESET true)) w))
    end.

Definition processPingFrame (h : H2FrameHeader) w : Z * W :=
  if negb (getStreamId h =? 0) then (LS_FAIL, w)
  else if negb (has (getFlags h) H2_FLAG_ACK) || negb (m_pingSent (c_cnt w.1)) then
    let '(payload, c) := moveTo H2_PING_FRAME_PAYLOAD_SIZE w.1 in
    let w := (set_iCurrentFrameRemain (remain c - H2_PING_FRAME_PAYLOAD_SIZE) c, w.2) in
    if has (getFlags h) H2_FLAG_ACK then (0, w)
    else
      let '(abuse, w) := countControlFrame w in
      if abuse then (LS_FAIL, w) else (0, on (sendPingFrame H2_FLAG_ACK payload) w)
  else (0, on (set_pingSent false) w).

Definition processGoAwayFrame (h : H2FrameHeader) w : Z * W :=
  if getLength h <? 8 then (H2_ERROR_FRAME_SIZE_ERROR, w)
  else
    let w := if negb (flag w.1 GOAWAY)
             then doGoAway (if negb (getStreamId h =? 0) then H2_ERROR_PROTOCOL_ERROR else H2_ERROR_NO_ERROR) w
             else w in
    (LS_OK, conn_onCloseEx (on (set_flag GOAWAY) w)).

(** ** Headers and new streams *)

Definition m_iServerMaxStreams : Z := 100.

Definition open_count c : Z := zlen (open_ids c).

(** [H2Connection::getNewStream]: [None] when the peer has too many streams. *)
Definition getNewStream (flags : Z) c : option (conn Q) :=
  if open_count c - m_uiShutdownStreams (c_cnt c) >=? m_iServerMaxStreams then None
  else
    let id := m_uiLastStreamId (c_cnt c) in
    let c := set_uiStreams (wrapu 32 (m_uiStreams (c_cnt c) + 1)) c in
    let fin := has flags H2_CTRL_FLAG_FIN in
    let s := Stream HIOS_CONNECTED
               (fun f => match f with PEER_SHUTDOWN | READ_EOS => fin | _ => false end) 0 bq_new 0
               (m_iStreamOutInitWindowSize (c_flow c)) (m_iStreamInInitWindowSize (c_flow c)) 0 0 false true in
    let c := set_mapStream (<[id := s]> (m_mapStream c)) c in
    Some (apply_priority (Some (m_priority c)) id c).

(** [H2Connection::decodeHeaders] *)
Definition decodeHeaders (id : Z) (block : list Z) (flags : Z) w : Z * W :=
  let w := on (log (EvHeaders id block flags)) w in
  match getNewStream flags w.1 with
  | None => (0, on (sendRstFrame (m_uiLastStreamId (c_cnt w.1)) H2_ERROR_PROTOCOL_ERROR) w)
  | Some c =>
      let sid := m_uiLastStreamId (c_cnt w.1) in
      let '(ok, a) := app_decode block w.2 in
      let w := (c, a) in
      if negb ok then (LS_FAIL, doGoAway H2_ERROR_COMPRESSION_ERROR w)
      else
        let w := on (upd sid (sset INIT_SESS true)) w in
        match deref sid w.1 with
        | None => (0, w)
        | Some s =>
            if s_flag s PEER_SHUTDOWN then (0, on (fun c => set_flag PENDING_STREAM (add2PriorityQue sid c)) w)
            else
              let '(_, w) := assignStreamHandler sid w in
              let w := if wants_write sid w.1 then on (append_unlinked sid) w else w in
              (0, recycle_unconnected sid w)
        end
  end.

(** [H2Connection::verifyStreamId] *)
Definition verifyStreamId (id : Z) w : Z * W :=
  if id =? 0 then (LS_FAIL, w)
  else if Z.land id 1 =? 0 then (LS_FAIL, w)
  else if id <=? m_uiLastStreamId (c_cnt w.1) then
    match findStream id w.1 with
    | Some s =>
        (LS_FAIL, (resetStream true id
          (if s_flag s PEER_SHUTDOWN then H2_ERROR_STREAM_CLOSED else H2_ERROR_PROTOCOL_ERROR) w).2)
    | None => (LS_FAIL, w)
    end
  else (LS_OK, on (set_uiLastStreamId id) w).

Definition processHeaderIn (id flags : Z) w : Z * W :=
  let avail := remain w.1 - m_padLen (c_in w.1) in
  let iDatalen := if inSize w.1 <? avail then inSize w.1 else avail in
  if iDatalen <=? 0 then
    if negb (has flags H2_FLAG_END_HEADERS) then
      let '(abuse, w) := countControlFrame w in if abuse then (LS_FAIL, w) else (0, w)
    else (0, w)
  else
    let bufPart1Len := bq_block (m_bufInput (c_in w.1)) in
    let needToMove := negb (has flags H2_FLAG_END_HEADERS) || (iDatalen >? bufPart1Len)
                      || (zlen (m_bufInflate (c_in w.1)) >? 0) in
    if needToMove then
      let w := on (fun c => let '(d, c) := moveTo iDatalen c in
                            set_bufInflate (m_bufInflate (c_in c) ++ d) c) w in
      if zlen (m_bufInflate (c_in w.1)) >? MAX_HTTP2_HEADERS_SIZE then (LS_FAIL, w)
      else
        let w := set_remain (remain w.1 - iDatalen) w in
        if negb (has flags H2_FLAG_END_HEADERS) then (0, w)
        else
          let block := m_bufInflate (c_in w.1) in
          decodeHeaders id block flags (on (set_bufInflate []) w)
    else decodeHeaders id (ztake iDatalen (inData w.1)) flags w.

Definition processContinuationFrame (h : H2FrameHeader) w : Z * W :=
  if flag w.1 GOAWAY then (0, w)
  else
    let id := getStreamId h in
    if negb (id =? m_uiLastStreamId (c_cnt w.1)) || negb (flag w.1 HEADERS_START) then (LS_FAIL, w)
    else
      let w := if has (getFlags h) H2_FLAG_END_HEADERS then on (clr_flag HEADERS_START) w else w in
      processHeaderIn id (getFlags h) w.

(** The part of [processHeadersFrame] after the pad length. *)
Definition headers_payload (id flags : Z) w : Z * W :=
  if has flags H2_FLAG_PRIORITY && (remain w.1 <? 5 + m_padLen (c_in w.1)) then (H2_ERROR_FRAME_SIZE_ERROR, w)
  else
    let '(r, w) := if has flags H2_FLAG_PRIORITY then processPriority id w
                   else (0, on (set_priority (Priority 0 0 0)) w) in
    if negb (r =? 0) then (H2_ERROR_PROTOCOL_ERROR, w)
    else
      let w := if negb (has flags H2_FLAG_END_HEADERS) then on (set_flag HEADERS_START) w else w in
      processHeaderIn id flags (on (set_bufInflate []) w).

Definition processHeadersFrame (h : H2FrameHeader) w : Z * W :=
  let id := getStreamId h in
  if flag w.1 GOAWAY then (0, w)
  else
    let '(r, w) := verifyStreamId id w in
    if r =? LS_FAIL then (LS_FAIL, w)
    else
      let flags := getFlags h in
      if has flags H2_FLAG_PADDED then
        let pad := znth (inData w.1) 0 in
        let w := on (set_padLen pad) w in
        if remain w.1 <=? 1 + pad then (H2_ERROR_PROTOCOL_ERROR, w)
        else headers_payload id flags (on (fun c => set_iCurrentFrameRemain (remain c - 1) (pop_front 1 c)) w)
      else headers_payload id flags (on (set_padLen 0) w).

(** [processFrame] *)
Definition requiredLength (type : Z) : Z :=
  nth (Z.to_nat type) [0; 0; 5; 4; 0; 0; 8; 0; 4; 0; 0] 0.

Definition processFrame (h : H2FrameHeader) w : Z * W :=
  let w := on (log (EvFrame h (ztake (remain w.1) (inData w.1)))) w in
  let type := getType h in
  if (type <? H2_FRAME_MAX_TYPE) && negb (requiredLength type =? 0) && negb (requiredLength type =? getLength h)
  then (H2_ERROR_FRAME_SIZE_ERROR, w)
  else if type =? H2_FRAME_HEADERS then processHeadersFrame h w
  else if type =? H2_FRAME_PRIORITY then processPriorityFrame h w
  else if type =? H2_FRAME_RST_STREAM then processRstFrame h w
  else if type =? H2_FRAME_SETTINGS then processSettingFrame h w
  else if type =? H2_FRAME_PUSH_PROMISE then processPushPromiseFrame h w
  else if type =? H2_FRAME_GOAWAY then processGoAwayFrame h w
  else if type =? H2_FRAME_WINDOW_UPDATE then processWindowUpdateFrame h w
  else if type =? H2_FRAME_CONTINUATION then processContinuationFrame h w
  else if type =? H2_FRAME_PING then processPingFrame h w
  else (0, w).

(** ** DATA frames *)

Definition skipRemainData w : W :=
  on (fun c =>
    let len := inSize c in
    let len := if len >? remain c then remain c else len in
    let c := pop_front len c in
    let c := set_iCurrentFrameRemain (remain c - len) c in
    if remain c >? 0 then set_inputState ST_SKIP_REMAIN c else c) w.

(** [H2StreamBase::processRcvdData] *)
Definition processRcvdData (id : Z) (d : list Z) w : Z * W :=
  if zlen d >? 0 then
    (zlen d, on (log (EvData id d)) (on (upd id (fun s => set_bufRcvd (bq_append d (m_bufRcvd s)) s)) w))
  else (zlen d, w).

Definition bytesRecv (id n : Z) c : conn Q := upd id (fun s => set_s_bytesRecv (s_bytesRecv s + n) s) c.

(** The loop over the buffered blocks of the payload; the result tells whether
    the function returned from it. *)
Fixpoint data_loop (fuel : nat) (id : Z) w : bool * W :=
  match fuel with
  | O => (true, w)
  | S fuel =>
      let c := w.1 in
      let padLen := m_padLen (c_in c) in
      if remain c >? 0 then
        let len := bq_block (m_bufInput (c_in c)) in
        if len =? 0 then (true, w)
        else
          let len := if len >=? remain c then remain c else len in
          if decide (m_inputState (c_in c) = ST_DATA_PAYLOAD) then
            let '(data_len, w) :=
              if len >=? remain c - padLen then (remain c - padLen, on (set_inputState ST_SKIP_REMAIN) w)
              else (len, w) in
            let w := set_remain (remain w.1 - len) w in
            let w := on (bytesRecv id data_len) w in
            let '(ret, w) := processRcvdData id (ztake data_len (inData w.1)) w in
            if ret =? LS_FAIL then (true, (resetStream true id H2_ERROR_PROTOCOL_ERROR w).2)
            else data_loop fuel id (on (pop_front len) w)
          else data_loop fuel id (on (pop_front len) (set_remain (remain c - len) w))
      else (false, w)
  end.

Definition data_done (h : H2FrameHeader) (id : Z) w : Z * W :=
  if has (getFlags h) H2_CTRL_FLAG_FIN then
    let '(ret, w) := onPeerShutdown id w in
    if ret =? LS_FAIL then (0, (resetStream true id H2_ERROR_PROTOCOL_ERROR w).2) else (1, w)
  else (1, on (windowUpdate id) w).

(** [if (m_current && m_current->isWantRead()) m_current->onRead();] *)
Definition current_onRead w : W :=
  match m_current (c_in w.1) with
  | Some id =>
      match deref id w.1 with
      | Some s => if s_flag s WANT_READ then onRead id w else w
      | None => w
      end
  | None => w
  end.

Definition processDataFrame (h : H2FrameHeader) w : Z * W :=
  let id := getStreamId h in
  let framePayloadLen := remain w.1 in
  if (id =? 0) || (id >? m_uiLastStreamId (c_cnt w.1)) then (LS_FAIL, w)
  else
    let padded := has (getFlags h) H2_FLAG_PADDED in
    let w := on (set_padLen (if padded then znth (inData w.1) 0 else 0)) w in
    if padded && (remain w.1 <=? m_padLen (c_in w.1)) then (LS_FAIL, w)
    else
      match consumeWindowIn framePayloadLen w.1 with
      | None => (H2_ERROR_FLOW_CONTROL_ERROR, w)
      | Some c =>
          let w := (c, w.2) in
          let st := findStream id w.1 in
          let w := on (set_current (match st with Some _ => Some id | None => None end)) w in
          if (match st with Some s => s_flag s PEER_SHUTDOWN | None => true end) then
            (0, (resetStream (bool_decide (is_Some st)) id H2_ERROR_STREAM_CLOSED (skipRemainData w)).2)
          else
            match stream_consumeWindowIn id framePayloadLen w.1 with
            | None => (0, (resetStream true id H2_ERROR_FLOW_CONTROL_ERROR (skipRemainData w)).2)
            | Some c =>
                let w := (c, w.2) in
                let w := if padded then
                           on (adjWindowToUpdate id (1 + m_padLen (c_in w.1)))
                             (on (fun c => set_iCurrentFrameRemain (remain c - 1) (pop_front 1 c)) w)
                         else w in
                let '(abuse, w) :=
                  if (remain w.1 =? m_padLen (c_in w.1)) && negb (has (getFlags h) H2_CTRL_FLAG_FIN)
                  then countControlFrame w else (false, w) in
                if abuse then (LS_FAIL, w)
                else
                  let w := on (set_inputState (if remain w.1 >? m_padLen (c_in w.1) then ST_DATA_PAYLOAD
                                               else ST_SKIP_REMAIN)) w in
                  let '(returned, w) := data_loop (S (length (inData w.1))) id w in
                  if returned then (0, w)
                  else
                    let '(more, w) := data_done h id w in
                    if more =? 0 then (0, w) else (0, current_onRead w)
            end
      end.

(** ** Parsing *)

Definition verifyClientPreface w : Z * W :=
  let '(s, c) := moveTo H2_CLIENT_PREFACE_LEN w.1 in
  if bytes_eqb s H2_CLIENT_PREFACE then (0, on (set_flag PREFACE) (c, w.2)) else (LS_FAIL, (c, w.2)).

(** One round of [parseFrame]: [inl] leaves the loop. *)
Definition parse_header w : (Z * W) + W :=
  if remain w.1 <? 0 then
    if inSize w.1 <? H2_FRAME_HEADER_SIZE then inl (0, w)
    else
      let '(s, c) := moveTo H2_FRAME_HEADER_SIZE w.1 in
      let h := read_header s in
      let w := (set_iCurrentFrameRemain (getLength h) (set_curH2Header h c), w.2) in
      if getLength h >? H2_DEFAULT_DATAFRAME_SIZE then inl (H2_ERROR_FRAME_SIZE_ERROR, w) else inr w
  else inr w.

Definition parse_body w : (Z * W) + W :=
  let h := m_curH2Header (c_in w.1) in
  if negb (flag w.1 SETTING_RCVD) && negb (getType h =? H2_FRAME_SETTINGS) then inl (LS_FAIL, w)
  else if flag w.1 HEADERS_START && negb (getType h =? H2_FRAME_CONTINUATION) then inl (LS_FAIL, w)
  else if negb (getType h =? H2_FRAME_DATA) then
    if remain w.1 >? inSize w.1 then inl (0, w)
    else
      let '(ret, w) := processFrame h w in
      if negb (ret =? LS_OK) then inl (ret, w)
      else
        let w := if remain w.1 >? 0 then on (fun c => pop_front (Z.min (remain c) (inSize c)) c) w else w in
        inr (set_remain (- H2_FRAME_HEADER_SIZE) w)
  else if has (getFlags h) H2_FLAG_PADDED && (inSize w.1 <? 1) then inl (0, w)
  else
    let '(ret, w) := processDataFrame h w in
    if negb (ret =? LS_OK) then inl (ret, w)
    else if remain w.1 =? 0 then inr (set_remain (- H2_FRAME_HEADER_SIZE) (on (set_inputState ST_CONTROL_FRAME) w))
    else inr w.

Fixpoint parse_loop (fuel : nat) w : Z * W :=
  match fuel with
  | O => (0, w)
  | S fuel =>
      if inSize w.1 =? 0 then (0, w)
      else
        match parse_header w with
        | inl r => r
        | inr w =>
            match parse_body w with
            | inl r => r
            | inr w => parse_loop fuel w
            end
        end
  end.

(** Every round but the first takes at least a frame header from the buffer. *)
Definition parseFrame w : Z * W := parse_loop (S (S (length (inData w.1)))) w.

Definition processInput w : Z * W :=
  let go w : Z * W :=
    let '(ret, w) := parseFrame w in
    if negb (ret =? LS_OK) then
      let err := if (ret <? 0) || (ret >=? H2_ERROR_CODE_COUNT) then H2_ERROR_PROTOCOL_ERROR else ret in
      (LS_FAIL, doGoAway err w)
    else (0, w) in
  if negb (flag w.1 PREFACE) then
    if inSize w.1 <? H2_CLIENT_PREFACE_LEN then (0, w)
    else
      let '(r, w) := verifyClientPreface w in
      if r =? LS_FAIL then (LS_FAIL, conn_onCloseEx (on suspendRead w)) else go w
  else go w.

(** ** Reading DATA payloads straight into the streams *)

(** [tryReadFrameHeader]; a negative result is a lost connection. *)
Definition tryReadFrameHeader w : Z * W :=
  let w := set_remain (- H2_FRAME_HEADER_SIZE) w in
  let '(r, c) := in_read H2_FRAME_HEADER_SIZE w.1 in
  match r with
  | None => (LS_FAIL, (c, w.2))
  | Some s =>
  let ret := zlen s in
  let old := header_bytes (m_curH2Header (c_in c)) in
  let h := read_header (s ++ zdrop ret old) in
  let w := (set_curH2Header h c, w.2) in
  let control w : Z * W := (ret, on (set_inputState ST_CONTROL_FRAME) w) in
  if ret >=? H2_FRAME_HEADER_SIZE then
    let w := set_remain (getLength h) w in
    if remain w.1 >? H2_DEFAULT_DATAFRAME_SIZE then (LS_FAIL, doGoAway H2_ERROR_FRAME_SIZE_ERROR w)
    else if (getType h =? H2_FRAME_DATA) && negb (has (getFlags h) H2_FLAG_PADDED) then
      let id := getStreamId h in
      if (id =? 0) || (id >? m_uiLastStreamId (c_cnt w.1)) then (LS_FAIL, doGoAway H2_ERROR_PROTOCOL_ERROR w)
      else
        match consumeWindowIn (remain w.1) w.1 with
        | None => (LS_FAIL, doGoAway H2_ERROR_FLOW_CONTROL_ERROR w)
        | Some c =>
            let w := (c, w.2) in
            let w := on (fun c => if bool_decide (m_current (c_in c) = Some id) then c
                                  else set_current (match findStream id c with Some _ => Some id | None => None end) c) w in
            let st := match m_current (c_in w.1) with Some j => deref j w.1 | None => None end in
            let skip code w : Z * W :=
              let w := (resetStream (bool_decide (is_Some st)) id code w).2 in
              (H2_FRAME_HEADER_SIZE, on (fun c => set_inputState ST_SKIP_REMAIN (set_current None c)) w) in
            match st with
            | Some s =>
                if s_flag s PEER_SHUTDOWN then skip H2_ERROR_STREAM_CLOSED w
                else
                  match stream_consumeWindowIn id (remain w.1) w.1 with
                  | None => skip H2_ERROR_FLOW_CONTROL_ERROR w
                  | Some c =>
                      let w := (c, w.2) in
                      if (remain w.1 =? 0) && has (getFlags h) H2_CTRL_FLAG_FIN then
                        let w := on (set_inputState ST_CONTROL_FRAME) (set_remain (- H2_FRAME_HEADER_SIZE) w) in
                        let '(r, w) := onPeerShutdown id w in
                        let w := if r =? LS_FAIL then (resetStream true id H2_ERROR_PROTOCOL_ERROR w).2 else w in
                        (0, on (set_current None) w)
                      else (H2_FRAME_HEADER_SIZE, on (set_inputState ST_DATA_PAYLOAD) w)
                  end
            | None => skip H2_ERROR_STREAM_CLOSED w
            end
        end
    else control w
  else if ret >? 0 then control (on (fun c => set_bufInput (bq_append s (m_bufInput (c_in c))) c) w)
  else control w
  end.

(** [getDirectInBuf], the read into it and [directInBufUsed]; the payload left
    to read is computed as a [size_t]. *)
Fixpoint direct_loop (fuel : nat) (id total : Z) w : (Z * W) + (Z * W) :=
  match fuel with
  | O => inl (total, w)
  | S fuel =>
      let n := wrapu 64 (remain w.1 - m_padLen (c_in w.1)) in
      if n >? 0 then
        let '(r, c) := in_read (Z.min n 16384) w.1 in
        match r with
        | None => inl (LS_FAIL, (c, w.2))
        | Some s =>
        if zlen s >? 0 then
          let c := upd id (fun st => set_bufRcvd (bq_append s (m_bufRcvd st)) st) c in
          let c := log (EvData id s) (bytesRecv id (zlen s) c) in
          direct_loop fuel id (total + zlen s) (set_iCurrentFrameRemain (remain c - zlen s) c, w.2)
        else inl (total, (c, w.2))
        end
      else inr (total, w)
  end.

Definition processDataFrameDirectBuffer (fuel : nat) (h : H2FrameHeader) (id : Z) w : Z * W :=
  match direct_loop fuel id 0 w with
  | inl r => r
  | inr (total, w) =>
      let '(more, w) := data_done h id w in
      if more =? 0 then (0, w)
      else
        let w := current_onRead w in
        if m_padLen (c_in w.1) >? 0 then (total, on (set_inputState ST_SKIP_REMAIN) w)
        else
          let '(ret, w) := tryReadFrameHeader w in
          if ret <? 0 then (ret, w) else (total + ret, w)
  end.

Fixpoint skip_loop (fuel : nat) w : (Z * W) + W :=
  match fuel with
  | O => inl (0, w)
  | S fuel =>
      if remain w.1 >? 0 then
        let '(r, c) := in_read (remain w.1) w.1 in
        match r with
        | None => inl (LS_FAIL, (c, w.2))
        | Some s =>
            if zlen s >? 0 then skip_loop fuel (set_iCurrentFrameRemain (remain c - zlen s) c, w.2)
            else inl (0, (c, w.2))
        end
      else inr w
  end.

Definition processDataFrameSkipRemain (fuel : nat) w : Z * W :=
  match skip_loop fuel w with
  | inl r => r
  | inr w => tryReadFrameHeader w
  end.

Definition MAX_INPUT_BATCH_SIZE : Z := 256 * 1024.
Definition MAX_OUT_BUF_SIZE : Z := 65536.

(** [onReadEx2]: read until the stream below has nothing more or a batch is
    complete. *)
Fixpoint read_loop (fuel : nat) (total : Z) w : Z * W :=
  match fuel with
  | O => (total, w)
  | S fuel =>
      let lost w : Z * W := (LS_FAIL, conn_onCloseEx (on suspendRead w)) in
      let next total w : Z * W :=
        if total >? MAX_INPUT_BATCH_SIZE then
          (0, if bufSize w.1 >=? MAX_OUT_BUF_SIZE then on (fun c => suspendRead (set_flag PAUSE_READ c)) w else w)
        else read_loop fuel total w in
      if decide (m_inputState (c_in w.1) = ST_CONTROL_FRAME) then
        let h := m_curH2Header (c_in w.1) in
        let w := on (fun c =>
          if (remain c >=? 0) && negb (getType h =? H2_FRAME_DATA) && (bq_avail (m_bufInput (c_in c)) <? remain c)
          then set_bufInput (bq_guarantee (remain c + 9) (m_bufInput (c_in c))) c else c) w in
        match in_read (bq_room (m_bufInput (c_in w.1))) w.1 with
        | (None, c) => lost (c, w.2)
        | (Some s, c) =>
            if zlen s =? 0 then (total, (c, w.2))
            else
              let w := (set_bufInput (bq_fill s (m_bufInput (c_in c))) c, w.2) in
              let '(r, w) := processInput w in
              if r =? LS_FAIL then (LS_FAIL, w) else next (total + zlen s) w
        end
      else
        let w := on (fun c => match m_current (c_in c) with None => set_inputState ST_SKIP_REMAIN c | Some _ => c end) w in
        let h := m_curH2Header (c_in w.1) in
        let '(ret, w) :=
          match m_inputState (c_in w.1), m_current (c_in w.1) with
          | ST_DATA_PAYLOAD, Some id => processDataFrameDirectBuffer fuel h id w
          | _, _ => processDataFrameSkipRemain fuel w
          end in
        if ret >? 0 then next (total + ret) w
        else if ret =? 0 then (total, w)
        else lost w
  end.

(** [H2Connection::onReadEx] *)
Definition onReadEx (fuel : nat) w : Z * W :=
  let w := on (fun c => set_flag IN_EVENT (clr_flag PENDING_STREAM (clr_flag WAIT_PROCESS c))) w in
  let '(ret, w) := read_loop fuel 0 w in
  let w := if os_pauseWrite (c_out w.1) && flag w.1 PENDING_STREAM then (processPendingStreams w).2 else w in
  let w := if flag w.1 WAIT_PROCESS && negb (flag w.1 DROP) then (onWriteEx2 w).2 else w in
  let w := on (clr_flag IN_EVENT) w in
  let w := if flag w.1 DROP then doGoAway H2_ERROR_ENHANCE_YOUR_CALM w else w in
  (ret, if flag w.1 WANT_FLUSH then on (fun c => (flush c).2) w else w).

(** A new connection ([H2ConnBase::H2ConnBase], [init]) whose client has sent
    nothing yet. *)
Definition new_conn (inWindow : Z) : conn Q :=
  Conn (Input (bq_guarantee 1024 bq_new) [] (- H2_FRAME_HEADER_SIZE) (read_header (repeat 0 9)) ST_CONTROL_FRAME 0 None [] [])
    (Output bq_new [] [] false false true false false)
    (Flow H2_FCW_INIT_SIZE H2_FCW_INIT_SIZE H2_FCW_INIT_SIZE 0 inWindow H2_FCW_INIT_SIZE H2_DEFAULT_DATAFRAME_SIZE)
    (Counts 0 0 0 0 0 false false) (fun _ => false) (Priority 0 0 0) (fun _ => []) ∅.

End Input.
