(* ===== verification/H2Table.v ===== *)
(** * H2Table: the stream table and the priority queues of an HTTP/2 connection
    (src/src/h2/h2connbase.h, src/src/h2/h2connbase.cpp, src/src/h2/h2connection.cpp)

    The invariant of the table: a queued stream is alive, in the queue of its
    own priority and in it once; priorities index the array of queues; no stream
    is younger than the last one the peer opened, and while a header block is
    being received there is no stream yet.  Every event of the connection keeps
    it, whatever the handlers do through the operations they are given. *)

From S2P Require Import Prelude LoopBuf H2Frame H2State H2Conn H2Input.
From stdpp Require Import fin_maps functions.
#[local] Open Scope Z_scope.

Section Table.

Context {Q : Type} {BQ : ByteQueue Q}.
Implicit Types (c : conn Q) (s : stream Q).

Definition last c : Z := m_uiLastStreamId (c_cnt c).

(** No stream has the last identifier yet. *)
Definition fresh c : Prop := 0 < last c /\ deref (last c) c = None.

Record table_ok c : Prop := {
  t_queued : forall q id, id ∈ m_priQue c q -> exists s, deref id c = Some s /\ s_priority s = q;
  t_once : forall q, NoDup (m_priQue c q);
  t_range : forall id s, deref id c = Some s -> 0 <= s_priority s < H2_STREAM_PRIORITYS /\ 0 < id <= last c;
  t_last : 0 <= last c;
  t_start : flag c HEADERS_START = true -> fresh c }.

(** Everything the invariant is about is the same. *)
Record same_table c c' : Prop := {
  se_que : m_priQue c' = m_priQue c;
  se_str : forall id, s_priority <$> deref id c' = s_priority <$> deref id c;
  se_last : last c' = last c;
  se_start : flag c' HEADERS_START = flag c HEADERS_START }.

#[export] Instance same_preorder : PreOrder same_table.
Proof. split; [split; auto|]. intros a b c [] []. split; intros; congruence. Qed.

Lemma se_none c c' id : same_table c c' -> deref id c' = None <-> deref id c = None.
Proof. intros [_ H _ _]. specialize (H id). destruct (deref id c'), (deref id c); cbn in H; split; congruence. Qed.

#[export] Instance table_ok_same : Proper (same_table ==> impl) table_ok.
Proof.
  intros c c' E [H1 H2 H3 H5 H4]. pose proof E as [E1 E2 E3 E4]. split.
  - intros q id Hq. rewrite E1 in Hq. destruct (H1 q id Hq) as (s & Hs & Hp). specialize (E2 id). rewrite Hs in E2.
    destruct (deref id c') as [s'|]; [|discriminate]. exists s'. injection E2 as E5. split; congruence.
  - intros q. rewrite E1. apply H2.
  - intros id s Hs. specialize (E2 id). rewrite Hs in E2. destruct (deref id c) as [s0|] eqn:E0; [|discriminate].
    injection E2 as ->. rewrite E3. apply (H3 id s0 E0).
  - rewrite E3. exact H5.
  - unfold fresh. rewrite E3, E4. intros Hh. destruct (H4 Hh) as [Hp Hn]. split; [exact Hp|]. apply (se_none c c' _ E). exact Hn.
Qed.

Lemma fresh_same c c' : fresh c -> same_table c c' -> fresh c'.
Proof. intros [Hp Hn] E. unfold fresh. rewrite (se_last _ _ E). split; [exact Hp|]. apply (se_none c c' _ E). exact Hn. Qed.

Lemma table_same c c' : table_ok c -> same_table c c' -> table_ok c'.
Proof. intros H E. rewrite <- E. exact H. Qed.

Lemma same_frame c c' : m_priQue c' = m_priQue c -> m_mapStream c' = m_mapStream c ->
  last c' = last c -> flag c' HEADERS_START = flag c HEADERS_START -> same_table c c'.
Proof. intros E1 E2 E3 E4. split; auto. intros id. unfold deref. rewrite E2. reflexivity. Qed.

Lemma same_outputs d c c' : outputs d c c' -> same_table c c'.
Proof. intros [_ _ _ Hc Hq Hm Hh]. apply same_frame; auto. unfold last. rewrite Hc. reflexivity. Qed.

Lemma same_upd id f c : (forall s, s_priority (f s) = s_priority s) -> same_table c (upd id f c).
Proof.
  intros Hf. split; auto. intros j. destruct (Z.eq_dec j id) as [->|Hj]; [|rewrite deref_upd_ne by exact Hj; reflexivity].
  rewrite deref_upd. destruct (deref id c); [cbn; rewrite Hf|]; reflexivity.
Qed.

Lemma same_set_flag f c : f <> HEADERS_START -> same_table c (set_flag f c).
Proof. intros Hf. eapply same_outputs, set_flag_outputs, Hf. Qed.

Lemma same_clr_flag f c : f <> HEADERS_START -> same_table c (clr_flag f c).
Proof. intros Hf. eapply same_outputs, clr_flag_outputs, Hf. Qed.

(** ** Being in a queue *)

Definition unqueued id c : Prop := forall q, id ∉ m_priQue c q.

Lemma linked_false id c : table_ok c -> linked id c = false <-> unqueued id c.
Proof.
  intros H. unfold linked. rewrite <- not_true_iff_false, existsb_exists. split.
  - intros Hn q Hq. apply Hn. destruct (t_queued c H q id Hq) as (s & Hs & <-). destruct (t_range c H id s Hs) as [Hr _].
    exists (s_priority s). rewrite bool_decide_true by exact Hq. split; [|reflexivity]. apply list_elem_of_In, elem_of_seqZ. lia.
  - intros Hu (q & _ & Hq). apply bool_decide_eq_true_1 in Hq. exact (Hu q Hq).
Qed.

Lemma unqueued_none id c : table_ok c -> deref id c = None -> unqueued id c.
Proof. intros H Hn q Hq. destruct (t_queued c H q id Hq) as (s & Hs & _). congruence. Qed.

Lemma unqueued_same id c c' : same_table c c' -> unqueued id c -> unqueued id c'.
Proof. intros [E _ _ _] Hu q. rewrite E. apply Hu. Qed.

Lemma priQue_at q c v p : m_priQue (set_priQue (<[q := v]> (m_priQue c)) c) p = if decide (p = q) then v else m_priQue c p.
Proof.
  destruct (decide (p = q)) as [->|Hp]; [apply (fn_lookup_insert (m_priQue c))|].
  apply (fn_lookup_insert_ne (m_priQue c)). congruence.
Qed.

(** Changing one queue. *)
Lemma set_queue_ok q v c : table_ok c -> NoDup v ->
  (forall id, id ∈ v -> exists s, deref id c = Some s /\ s_priority s = q) -> table_ok (set_priQue (<[q := v]> (m_priQue c)) c).
Proof.
  intros [H1 H2 H3 H5 H4] Hn Hv. split; auto.
  - intros p id. rewrite priQue_at. case_decide as Hp; [subst p; apply Hv|apply H1].
  - intros p. rewrite priQue_at. case_decide; auto.
Qed.

Lemma queue_append_ok id s c : table_ok c -> deref id c = Some s -> unqueued id c -> table_ok (queue_append (s_priority s) id c).
Proof.
  intros H Hs Hu. apply set_queue_ok; [exact H| |].
  - apply list.NoDup_app. split; [apply (t_once c H)|]. split; [|apply NoDup_singleton].
    intros x Hx Hy. apply list_elem_of_singleton in Hy. subst x. exact (Hu _ Hx).
  - intros i Hi. apply elem_of_app in Hi as [Hi|Hi]; [apply (t_queued c H _ i Hi)|].
    apply list_elem_of_singleton in Hi. subst i. eauto.
Qed.

Lemma queue_push_ok id s c : table_ok c -> deref id c = Some s -> unqueued id c -> table_ok (queue_push (s_priority s) id c).
Proof.
  intros H Hs Hu. apply set_queue_ok; [exact H| |].
  - apply list.NoDup_cons. split; [apply Hu|apply (t_once c H)].
  - intros i Hi. apply elem_of_cons in Hi as [->|Hi]; [eauto|apply (t_queued c H _ i Hi)].
Qed.

Lemma removePriQue_ok id c : table_ok c -> table_ok (removePriQue id c) /\ unqueued id (removePriQue id c).
Proof.
  intros H. unfold removePriQue. destruct (deref id c) as [s|] eqn:Es; [|auto using unqueued_none]. unfold queue_remove. split.
  - apply set_queue_ok; [exact H|apply list.NoDup_filter, (t_once c H)|]. intros i Hi. apply list_elem_of_filter in Hi as [_ Hi]. exact (t_queued c H _ i Hi).
  - intros q. rewrite priQue_at. case_decide as Hq; [subst q; intros Hi; apply list_elem_of_filter in Hi as [Hi _]; congruence|].
    intros Hi. destruct (t_queued c H q id Hi) as (s' & Hs' & Hp). congruence.
Qed.

Lemma queue_pop_ok q id rest c : table_ok c -> m_priQue c q = id :: rest ->
  let c' := set_priQue (<[q := rest]> (m_priQue c)) c in
  table_ok c' /\ unqueued id c' /\ exists s, deref id c' = Some s /\ s_priority s = q.
Proof.
  intros H Hq c'. pose proof (t_once c H q) as Hn. rewrite Hq in Hn. apply list.NoDup_cons in Hn as [Hni Hn].
  destruct (t_queued c H q id) as (s & Hs & Hp); [rewrite Hq; constructor|]. split_and!; [| |eauto].
  - apply set_queue_ok; [exact H|exact Hn|]. intros i Hi. apply (t_queued c H q i). rewrite Hq. constructor. exact Hi.
  - intros p. unfold c'. rewrite priQue_at. case_decide as Hd; [exact Hni|]. intros Hi.
    destruct (t_queued c H p id Hi) as (s' & Hs' & Hp'). congruence.
Qed.

Lemma add2PriorityQue_ok id c : table_ok c -> table_ok (add2PriorityQue id c).
Proof.
  intros H. unfold add2PriorityQue. destruct (deref id c) as [s|] eqn:Es; [|exact H]. cbv zeta.
  set (c1 := if linked id c then _ else c).
  assert (H1 : table_ok c1 /\ unqueued id c1 /\ deref id c1 = Some s).
  { subst c1. destruct (linked id c) eqn:El; [|split_and!; [exact H|apply linked_false; auto|exact Es]].
    destruct (removePriQue_ok id c H) as [Hr Hu]. split_and!; auto. unfold removePriQue. rewrite Es. exact Es. }
  clearbody c1. destruct H1 as (H1 & Hu & Es1). pose proof (queue_append_ok id s c1 H1 Es1 Hu) as H2.
  set (c2 := set_flag _ _). assert (H3 : table_ok c2) by (eapply table_same; [exact H2|apply same_set_flag; discriminate]).
  clearbody c2. destruct (_ && _); [|exact H3]. eapply table_same; [exact H3|eapply same_outputs, continueWrite_outputs].
Qed.

(** Giving an unqueued stream another priority, and removing it. *)
Lemma setPriority_ok id n c : table_ok c -> unqueued id c -> 0 <= n < H2_STREAM_PRIORITYS ->
  table_ok (upd id (setPriority n) c) /\ unqueued id (upd id (setPriority n) c).
Proof.
  intros [H1 H2 H3 H5 H4] Hu Hn. split; [|exact Hu]. split; auto.
  - intros q i Hi. assert (i <> id) by (intros ->; exact (Hu q Hi)). rewrite deref_upd_ne by assumption. exact (H1 q i Hi).
  - intros i s. destruct (Z.eq_dec i id) as [->|Hi]; [|rewrite deref_upd_ne by exact Hi; apply H3].
    rewrite deref_upd. destruct (deref id c) as [s0|] eqn:E0; [|discriminate]. intros [= <-]. split; [exact Hn|].
    apply (H3 id s0 E0).
  - intros Hh. specialize (H4 Hh) as [Hlp H4]. split; [exact Hlp|]. destruct (Z.eq_dec (last c) id) as [E|E].
    + change (deref (last c) (upd id (setPriority n) c) = None). rewrite E in *. rewrite deref_upd, H4. reflexivity.
    + etransitivity; [apply deref_upd_ne; exact E|exact H4].
Qed.

Lemma delete_ok id c : table_ok c -> unqueued id c -> table_ok (set_mapStream (delete id (m_mapStream c)) c).
Proof.
  intros [H1 H2 H3 H5 H4] Hu. split; auto.
  - intros q i Hi. assert (i <> id) by (intros ->; exact (Hu q Hi)). unfold deref. cbn. rewrite lookup_delete_ne by congruence. exact (H1 q i Hi).
  - intros i s Hi. apply (H3 i s). unfold deref in Hi. cbn in Hi. apply lookup_delete_Some in Hi. apply Hi.
  - intros Hh. destruct (H4 Hh) as [Hp Hn]. split; [exact Hp|]. unfold deref. cbn. apply lookup_delete_None. right. exact Hn.
Qed.

Lemma weight_priority_range p : 0 <= weight_priority p < H2_STREAM_PRIORITYS.
Proof.
  unfold weight_priority, clamp_priority, HIO_PRIORITY_LOWEST, HIO_PRIORITY_HIGHEST, HIO_PRIORITY_HTML, H2_STREAM_PRIORITYS.
  destruct p as [p|]; [|lia]. destruct (m_weight p <=? 32);
    match goal with |- context [if ?a >? ?b then _ else _] => destruct (Z.gtb_spec a b) end; try lia;
    match goal with |- context [if ?a <? ?b then _ else _] => destruct (Z.ltb_spec a b) end; lia.
Qed.

Lemma apply_priority_ok p id c : table_ok c -> table_ok (apply_priority p id c).
Proof.
  intros H. unfold apply_priority. destruct (deref id c); [|exact H]. cbv zeta. destruct (negb _); [|exact H].
  pose proof (weight_priority_range p) as Hp. destruct (linked id c) eqn:El.
  - destruct (removePriQue_ok id c H) as [Hr Hu]. apply add2PriorityQue_ok, setPriority_ok; assumption.
  - apply setPriority_ok; auto. apply linked_false; assumption.
Qed.

(** Opening a stream. *)
Lemma insert_ok s c : table_ok c -> fresh c -> 0 <= s_priority s < H2_STREAM_PRIORITYS ->
  flag c HEADERS_START = false -> table_ok (set_mapStream (<[last c := s]> (m_mapStream c)) c).
Proof.
  intros H [Hl Hn] Hp Hh. pose proof (unqueued_none _ c H Hn) as Hu. destruct H as [H1 H2 H3 H5 H4]. split; auto.
  - intros q i Hi. destruct (H1 q i Hi) as (s' & Hs' & Hp'). exists s'. split; [|exact Hp'].
    unfold deref in *. cbn. rewrite lookup_insert_ne; [exact Hs'|]. intros E. rewrite <- E in Hi. exact (Hu q Hi).
  - intros i s' Hi. change (last (set_mapStream _ c)) with (last c). unfold deref in Hi. cbn in Hi. apply lookup_insert_Some in Hi as [[<- <-]|[_ Hi]]; [split; [exact Hp|lia]|].
    apply (H3 i s' Hi).
  - intros Hh'. change (flag c HEADERS_START = true) in Hh'. congruence.
Qed.

End Table.

(** ** What the streams' methods do to the table

    [tbl] takes a goal [table_ok (f c)] apart along the code of [f]: branches,
    pairs, updates that leave the table alone, and the lemmas of the database
    for the operations already done. *)

Ltac tbl_shape :=
  lazymatch goal with
  | |- table_ok (fst (on ?f ?w)) => change (table_ok (f w.1)); cbv beta
  | |- table_ok (fst (?a, ?b)) => change (table_ok a)
  | |- table_ok (snd (?a, ?b)) => change (table_ok b)
  | |- table_ok (fst (snd (?a, ?b))) => change (table_ok b.1)
  | |- table_ok (fst (set_remain ?n ?w)) => change (table_ok (set_iCurrentFrameRemain n w.1))
  | |- table_ok (upd _ _ ?c) => apply (table_same c); [|apply same_upd; intros; reflexivity]
  | |- table_ok (set_flag _ ?c) => apply (table_same c); [|apply same_set_flag; discriminate]
  | |- table_ok (clr_flag _ ?c) => apply (table_same c); [|apply same_clr_flag; discriminate]
  | |- table_ok (if ?b then _ else _) => destruct b
  | |- table_ok (fst (if ?b then _ else _)) => destruct b
  | |- table_ok (snd (if ?b then _ else _)) => destruct b
  | |- table_ok (fst (snd (if ?b then _ else _))) => destruct b
  | |- table_ok (match ?e with Some _ => _ | None => _ end) => destruct e eqn:?
  | |- table_ok (fst (match ?e with Some _ => _ | None => _ end)) => destruct e eqn:?
  | |- table_ok (snd (match ?e with Some _ => _ | None => _ end)) => destruct e eqn:?
  | |- table_ok (fst (snd (match ?e with Some _ => _ | None => _ end))) => destruct e eqn:?
  | |- table_ok (?f ?c) => apply (table_same c); [|apply same_frame; reflexivity]
  end.

Create HintDb table.
#[local] Hint Extern 2 (table_ok _) => tbl_shape : table.
#[local] Hint Resolve add2PriorityQue_ok apply_priority_ok : table.

Ltac tbl := eauto 100 with table nocore.

(** The result of a call bound by a pattern. *)
Ltac tbl_pair :=
  match goal with
  | |- context [match ?e with (_, _) => _ end] =>
      let x := fresh "x" in
      set (x := e);
      first [assert (table_ok (fst (snd x))) by (subst x; tbl) | assert (table_ok (snd x)) by (subst x; tbl)];
      clearbody x; destruct x; cbn [snd] in *
  end.

Section Methods.

Context {Q : Type} {BQ : ByteQueue Q}.
Implicit Types (c : conn Q) (s : stream Q).

Lemma table_outputs d c c' : outputs d c c' -> table_ok c -> table_ok c'.
Proof. intros Ho H. eapply table_same; [exact H|eapply same_outputs, Ho]. Qed.

Lemma continueWrite_table c : table_ok c -> table_ok (conn_continueWrite c).
Proof. eapply table_outputs, continueWrite_outputs. Qed.
Lemma flush_table c : table_ok c -> table_ok (flush c).2.
Proof. eapply table_outputs, flush_outputs. Qed.
Lemma wantFlush_table c : table_ok c -> table_ok (wantFlush c).
Proof. eapply table_outputs, wantFlush_outputs. Qed.
Lemma wantFlush2_table c : table_ok c -> table_ok (wantFlush2 c).
Proof. eapply table_outputs, wantFlush2_outputs. Qed.
Lemma needWriteEvent_table c : table_ok c -> table_ok (needWriteEvent c).
Proof. eapply table_outputs, needWriteEvent_outputs. Qed.
Lemma appendOutput_table d c : table_ok c -> table_ok (appendOutput d c).2.
Proof. destruct (appendOutput_outputs d c) as (c1 & -> & Ho). eapply table_outputs, Ho. Qed.
Lemma guaranteeOutput_table d c : table_ok c -> table_ok (guaranteeOutput d c).
Proof. eapply table_outputs, guaranteeOutput_outputs. Qed.
Lemma sendFrame4Bytes_table t i v b c : table_ok c -> table_ok (sendFrame4Bytes t i v b c).
Proof. eapply table_outputs, sendFrame4Bytes_outputs. Qed.
Lemma sendPingFrame_table f p c : table_ok c -> table_ok (sendPingFrame f p c).
Proof. eapply table_outputs, sendPingFrame_outputs. Qed.
Lemma sendGoAwayFrame_table e c : table_ok c -> table_ok (sendGoAwayFrame e c).
Proof. eapply table_outputs, sendGoAwayFrame_outputs. Qed.

#[local] Hint Resolve continueWrite_table flush_table wantFlush_table wantFlush2_table needWriteEvent_table appendOutput_table
  guaranteeOutput_table sendFrame4Bytes_table sendPingFrame_table sendGoAwayFrame_table : table.

Lemma sendFrame0Bytes_table t f i c : table_ok c -> table_ok (sendFrame0Bytes t f i c).
Proof. intros. unfold sendFrame0Bytes. tbl. Qed.
Lemma sendRstFrame_table i e c : table_ok c -> table_ok (sendRstFrame i e c).
Proof. intros. unfold sendRstFrame. tbl. Qed.
#[local] Hint Resolve sendFrame0Bytes_table sendRstFrame_table : table.

Lemma sendSettingsFrame_table c : table_ok c -> table_ok (sendSettingsFrame c).
Proof. intros. unfold sendSettingsFrame. tbl. Qed.
Lemma sendFinFrame_table i c : table_ok c -> table_ok (sendFinFrame i c).
Proof. intros. unfold sendFinFrame. tbl. Qed.
Lemma sendDataFrame_table i f d c : table_ok c -> table_ok (sendDataFrame i f d c).2.
Proof. intros. unfold sendDataFrame. cbv zeta. repeat tbl_pair. tbl. Qed.
Lemma updateWindow_table c : table_ok c -> table_ok (updateWindow c).
Proof. intros. unfold updateWindow. tbl. Qed.
#[local] Hint Resolve sendSettingsFrame_table sendFinFrame_table sendDataFrame_table updateWindow_table : table.

Lemma addWindowInToUpdate_table n c : table_ok c -> table_ok (addWindowInToUpdate n c).
Proof. intros. unfold addWindowInToUpdate. tbl. Qed.
Lemma consumeWindowIn_table n c c' : table_ok c -> consumeWindowIn n c = Some c' -> table_ok c'.
Proof. intros. unfold consumeWindowIn in *. destruct (_ <=? 0); [|destruct (_ >? _); [discriminate|]]; simplify_eq; tbl. Qed.
Lemma sendStreamWindowUpdateFrame_table i n c : table_ok c -> table_ok (sendStreamWindowUpdateFrame i n c).
Proof. intros. unfold sendStreamWindowUpdateFrame. cbv zeta. tbl. Qed.
Lemma stream_consumeWindowIn_table i n c c' : table_ok c -> stream_consumeWindowIn i n c = Some c' -> table_ok c'.
Proof.
  intros. unfold stream_consumeWindowIn in *. destruct (deref i c); [|simplify_eq; tbl].
  destruct (_ <=? 0); [|destruct (_ >? _); [discriminate|]]; simplify_eq; tbl.
Qed.
#[local] Hint Resolve addWindowInToUpdate_table sendStreamWindowUpdateFrame_table : table.

Lemma windowUpdate_table i c : table_ok c -> table_ok (windowUpdate i c).
Proof. intros. unfold windowUpdate. cbv zeta. tbl. Qed.
Lemma adjWindowToUpdate_table i n c : table_ok c -> table_ok (adjWindowToUpdate i n c).
Proof. intros. unfold adjWindowToUpdate. tbl. Qed.
#[local] Hint Resolve windowUpdate_table adjWindowToUpdate_table : table.

Lemma read_table i n c : table_ok c -> table_ok (read i n c).2.
Proof. intros. unfold read. cbv zeta. tbl. Qed.
Lemma stream_continueWrite_table i c : table_ok c -> table_ok (stream_continueWrite i c).
Proof. intros. unfold stream_continueWrite. cbv zeta. tbl. Qed.
#[local] Hint Resolve read_table stream_continueWrite_table : table.
Lemma getDataFrameSize_table i n c : table_ok c -> table_ok (getDataFrameSize i n c).2.
Proof. intros. unfold getDataFrameSize. cbv zeta. tbl. Qed.
Lemma dataSent_table i n c : table_ok c -> table_ok (dataSent i n c).2.
Proof. intros. unfold dataSent. cbv zeta. tbl. Qed.
Lemma adjWindowOut_table i n c : table_ok c -> table_ok (adjWindowOut i n c).2.
Proof. intros. unfold adjWindowOut. cbv zeta. tbl. Qed.
#[local] Hint Resolve getDataFrameSize_table dataSent_table adjWindowOut_table : table.

(** A stream whose two sides are done gets the highest priority, unless it is
    queued. *)
Lemma markShutdown_table i c : table_ok c -> table_ok (markShutdown i c).
Proof.
  intros H. unfold markShutdown. cbv zeta. set (c1 := set_uiShutdownStreams _ _).
  assert (H1 : table_ok c1) by (subst c1; tbl). clearbody c1. destruct (linked i c1) eqn:El; [exact H1|]. cbn [negb].
  apply add2PriorityQue_ok, setPriority_ok; [exact H1|apply linked_false; assumption|]. unfold H2_STREAM_PRIORITYS. lia.
Qed.
#[local] Hint Resolve markShutdown_table : table.

Lemma shutdownWrite_table i c : table_ok c -> table_ok (shutdownWrite i c).
Proof. intros. unfold shutdownWrite. cbv zeta. tbl. Qed.
Lemma write_fin_table i c : table_ok c -> table_ok (write_fin i c).
Proof. intros. unfold write_fin. cbv zeta. tbl. Qed.
#[local] Hint Resolve shutdownWrite_table write_fin_table : table.

Lemma write_loop_table n : forall i buf fl wt p fin ret c, table_ok c -> table_ok (write_loop n i buf fl wt p fin ret c).2.
Proof.
  induction n as [|n IH]; intros i buf fl wt p fin ret c H; cbn [write_loop]; [exact H|].
  destruct (deref i c) as [s|]; [|exact H]. destruct (_ && _); [|exact H]. tbl_pair. destruct (_ <=? 0); [assumption|].
  destruct (limit_batch p z wt) as [pkt last]. cbv zeta. do 2 tbl_pair. destruct (_ <=? 0); [assumption|]. apply IH. assumption.
Qed.

Lemma write_table i buf fl c : table_ok c -> table_ok (write i buf fl c).2.
Proof.
  intros H. unfold write. destruct (deref i c) as [s|]; [|exact H]. destruct (_ =? _); [exact H|]. cbv zeta. tbl_pair.
  destruct (negb _); [assumption|].
  pose proof (write_loop_table (S (length buf)) i buf fl (getWeightedPriority i c) 0 0 0 c0 H0) as Hl.
  destruct (write_loop _ _ _ _ _ _ _ _ _) as [[p ret] c1]. exact Hl.
Qed.

End Methods.

#[local] Hint Resolve continueWrite_table flush_table wantFlush_table wantFlush2_table needWriteEvent_table appendOutput_table
  guaranteeOutput_table sendFrame4Bytes_table sendPingFrame_table sendGoAwayFrame_table sendFrame0Bytes_table sendRstFrame_table
  sendSettingsFrame_table sendFinFrame_table sendDataFrame_table updateWindow_table addWindowInToUpdate_table
  sendStreamWindowUpdateFrame_table windowUpdate_table adjWindowToUpdate_table read_table stream_continueWrite_table
  getDataFrameSize_table dataSent_table adjWindowOut_table markShutdown_table shutdownWrite_table write_fin_table write_table : table.

(** The contract of the handlers: they change the table through the operations
    above only, and a handler that is recycled does not queue its stream. *)
Class AppKeeps {Q A : Type} {BQ : ByteQueue Q} (AP : App Q A) : Prop := {
  app_table : forall u id (w : conn Q * A), table_ok w.1 -> table_ok (app_call u id w).2.1;
  app_recycled : forall id (w : conn Q * A), table_ok w.1 -> unqueued id w.1 -> unqueued id (app_call RecycleHandler id w).2.1 }.

Section Events.

Context {Q A : Type} {BQ : ByteQueue Q} {AP : App Q A} {AK : AppKeeps AP}.
Abbreviation W := (conn Q * A)%type.
Implicit Types (c : conn Q) (w : W).

#[local] Hint Resolve app_table : table.

(** ** Closing and recycling streams *)

Lemma s_call_table u id w : table_ok w.1 -> table_ok (s_call u id w).2.1.
Proof. intros. unfold s_call. tbl. Qed.
#[local] Hint Resolve s_call_table : table.

Lemma onRead_table id w : table_ok w.1 -> table_ok (onRead id w).1.
Proof. intros. unfold onRead. tbl. Qed.
Lemma onClose_table id w : table_ok w.1 -> table_ok (onClose id w).1.
Proof. intros. unfold onClose. tbl. Qed.
#[local] Hint Resolve onRead_table onClose_table : table.

Lemma closeEx_table id w : table_ok w.1 -> table_ok (closeEx id w).1.
Proof.
  intros H. unfold closeEx. destruct (deref id w.1) as [s|]; [|exact H]. destruct (_ =? _); [exact H|]. cbv zeta.
  pose proof (onClose_table id w H) as H1. set (w1 := onClose id w) in *. clearbody w1. tbl.
Qed.
#[local] Hint Resolve closeEx_table : table.

Lemma s_call_recycled id w : table_ok w.1 -> unqueued id w.1 -> unqueued id (s_call RecycleHandler id w).2.1.
Proof. intros H Hu. unfold s_call. destruct (deref id w.1) as [s|]; [|exact Hu]. destruct (s_handler s); [apply app_recycled; assumption|exact Hu]. Qed.

Lemma recycleStream_table id w : table_ok w.1 -> table_ok (recycleStream id w).1.
Proof.
  intros H. unfold recycleStream. cbv zeta. set (w1 := on _ w). assert (H1 : table_ok w1.1) by (subst w1; tbl). clearbody w1.
  set (w2 := closeEx id _). assert (H2 : table_ok w2.1) by (subst w2; tbl). clearbody w2.
  destruct (removePriQue_ok id w2.1 H2) as [H3 Hu]. set (w3 := on _ w2). change (removePriQue id w2.1) with w3.1 in *. clearbody w3.
  pose proof (s_call_table RecycleHandler id w3 H3) as H4. pose proof (s_call_recycled id w3 H3 Hu) as Hu4.
  set (w4 := (s_call _ _ _).2) in *. clearbody w4. destruct (deref id w4.1) as [s|]; [|exact H4].
  set (w5 := if s_flag s STREAM_DROP then _ else w4).
  assert (H5 : table_ok w5.1 /\ unqueued id w5.1).
  { subst w5. destruct (s_flag s STREAM_DROP); [|split; assumption]. split; [tbl|].
    eapply unqueued_same; [|exact Hu4]. apply same_set_flag. discriminate. }
  destruct H5 as [H5 Hu5]. clearbody w5. apply delete_ok; assumption.
Qed.
#[local] Hint Resolve recycleStream_table : table.

Lemma fold_recycle_table ids : forall w, table_ok w.1 -> table_ok (fold_left (fun w id => recycleStream id w) ids w).1.
Proof. induction ids as [|id ids IH]; intros w H; cbn; [exact H|]. apply IH. tbl. Qed.

Lemma releaseAllStream_table w : table_ok w.1 -> table_ok (releaseAllStream w).1.
Proof. apply fold_recycle_table. Qed.
#[local] Hint Resolve releaseAllStream_table : table.

Lemma doGoAway_table st w : table_ok w.1 -> table_ok (doGoAway st w).1.
Proof. intros. unfold doGoAway. cbv zeta. tbl. Qed.
Lemma conn_onCloseEx_table w : table_ok w.1 -> table_ok (conn_onCloseEx w).1.
Proof. intros. unfold conn_onCloseEx. cbv zeta. tbl. Qed.
Lemma resetStream_table p id e w : table_ok w.1 -> table_ok (resetStream p id e w).2.1.
Proof. intros. unfold resetStream. cbv zeta. tbl. Qed.
Lemma onInitConnected_table id w : table_ok w.1 -> table_ok (onInitConnected id w).1.
Proof. intros. unfold onInitConnected. cbv zeta. tbl. Qed.
#[local] Hint Resolve doGoAway_table conn_onCloseEx_table resetStream_table onInitConnected_table : table.

Lemma assignStreamHandler_table id w : table_ok w.1 -> table_ok (assignStreamHandler id w).2.1.
Proof. intros. unfold assignStreamHandler. tbl. Qed.
#[local] Hint Resolve assignStreamHandler_table : table.

Lemma onPeerShutdown_table id w : table_ok w.1 -> table_ok (onPeerShutdown id w).2.1.
Proof.
  intros H. unfold onPeerShutdown. cbv zeta. tbl_pair. destruct (_ =? _); [assumption|].
  destruct (deref id _); [|assumption]. tbl_pair. tbl.
Qed.

Lemma onPeerClose_table id w : table_ok w.1 -> table_ok (onPeerClose id w).1.
Proof. intros. unfold onPeerClose. cbv zeta. tbl. Qed.
Lemma onWrite_table id w : table_ok w.1 -> table_ok (onWrite id w).1.
Proof. intros. unfold onWrite. cbv zeta. tbl. Qed.
#[local] Hint Resolve onPeerShutdown_table onPeerClose_table onWrite_table : table.

(** ** The loops over the queues *)

Lemma append_unlinked_table id c : table_ok c -> table_ok (append_unlinked id c).
Proof.
  intros H. unfold append_unlinked. destruct (deref id c) as [s|] eqn:Es; [|exact H]. destruct (linked id c) eqn:El; [exact H|].
  apply queue_append_ok; [exact H|exact Es|apply linked_false; assumption].
Qed.
Lemma recycle_unconnected_table id w : table_ok w.1 -> table_ok (recycle_unconnected id w).1.
Proof. intros. unfold recycle_unconnected. tbl. Qed.
#[local] Hint Resolve append_unlinked_table recycle_unconnected_table : table.

Lemma queue_loop_table n : forall q ww w, table_ok w.1 -> table_ok (queue_loop n q ww w).2.1.
Proof.
  induction n as [|n IH]; intros q ww w H; cbn [queue_loop]; [exact H|]. destruct (_ && _); [|exact H].
  destruct (m_priQue w.1 q) as [|id rest] eqn:Eq; [exact H|]. cbv zeta.
  destruct (queue_pop_ok q id rest w.1 H Eq) as (H1 & Hu & s & Es & Ep). set (w1 := on _ w).
  change (set_priQue (<[q := rest]> (m_priQue w.1)) w.1) with w1.1 in *. clearbody w1. rewrite Es.
  destruct (negb _); [apply IH; tbl|].
  assert (Hpush : table_ok (queue_push (s_priority s) id w1.1)) by (apply queue_push_ok; assumption).
  tbl_pair. destruct (_ =? _); [apply IH; assumption|].
  set (w4 := recycle_unconnected id _). assert (H4 : table_ok w4.1) by (subst w4; tbl). clearbody w4.
  destruct (flag w4.1 DROP); [exact H4|]. destruct (isOutBufFull w4.1); [exact H4|]. apply IH. exact H4.
Qed.

Lemma pending_loop_table n : forall q ww w, table_ok w.1 -> table_ok (pending_loop n q ww w).2.1.
Proof.
  induction n as [|n IH]; intros q ww w H; cbn [pending_loop]; [exact H|]. destruct (_ >? _); [|exact H].
  destruct (m_priQue w.1 q) as [|id rest] eqn:Eq; [exact H|]. cbv zeta.
  destruct (queue_pop_ok q id rest w.1 H Eq) as (H1 & Hu & s & Es & Ep). set (w1 := on _ w).
  change (set_priQue (<[q := rest]> (m_priQue w.1)) w.1) with w1.1 in *. clearbody w1. rewrite Es.
  destruct (negb _); [apply IH; tbl|].
  assert (Hpush : table_ok (queue_push (s_priority s) id w1.1)) by (apply queue_push_ok; assumption).
  pose proof (assignStreamHandler_table id w1 H1) as Ha. destruct (assignStreamHandler id w1) as [r w2]. cbn [snd] in Ha.
  tbl_pair. destruct (_ =? _); [apply IH; assumption|].
  set (w4 := recycle_unconnected id _). assert (H4 : table_ok w4.1) by (subst w4; tbl). clearbody w4.
  destruct (isOutBufFull w4.1); [exact H4|]. destruct (flag w4.1 DROP); [exact H4|]. apply IH. exact H4.
Qed.

Lemma queues_loop_table qs : forall ww w, table_ok w.1 -> table_ok (queues_loop qs ww w).2.1.
Proof.
  induction qs as [|q qs IH]; intros ww w H; cbn [queues_loop]; [exact H|]. destruct (_ >? _); [|exact H].
  pose proof (queue_loop_table (length (m_priQue w.1 q)) q ww w H) as Hl. destruct (queue_loop _ _ _ _) as [[n d] w1].
  destruct (_ || _); [exact Hl|apply IH; exact Hl].
Qed.

Lemma pendings_loop_table qs : forall ww w, table_ok w.1 -> table_ok (pendings_loop qs ww w).2.1.
Proof.
  induction qs as [|q qs IH]; intros ww w H; cbn [pendings_loop]; [exact H|]. destruct (_ >? _); [|exact H].
  pose proof (pending_loop_table (length (m_priQue w.1 q)) q ww w H) as Hl. destruct (pending_loop _ _ _ _) as [[n d] w1].
  destruct (_ || _); [exact Hl|apply IH; exact Hl].
Qed.

Lemma processQueue_table w : table_ok w.1 -> table_ok (processQueue w).2.1.
Proof.
  intros H. unfold processQueue. pose proof (queues_loop_table (seqZ 0 H2_STREAM_PRIORITYS) 0 w H) as Hl.
  destruct (queues_loop _ _ _) as [[n d] w1]. cbn [snd] in Hl. tbl.
Qed.
Lemma processPendingStreams_table w : table_ok w.1 -> table_ok (processPendingStreams w).2.1.
Proof.
  intros H. unfold processPendingStreams. pose proof (pendings_loop_table (seqZ 0 H2_STREAM_PRIORITYS) 0 w H) as Hl.
  destruct (pendings_loop _ _ _) as [[n d] w1]. cbn [snd] in Hl. tbl.
Qed.
#[local] Hint Resolve processQueue_table processPendingStreams_table : table.

Lemma onWriteEx2_table w : table_ok w.1 -> table_ok (onWriteEx2 w).2.1.
Proof.
  intros H. unfold onWriteEx2. cbv zeta. set (w1 := if _ >? 0 then _ else w). assert (H1 : table_ok w1.1) by (subst w1; tbl).
  clearbody w1. destruct (_ && _); [exact H1|]. destruct (os_pauseWrite _); [tbl|]. tbl_pair. tbl.
Qed.
#[local] Hint Resolve onWriteEx2_table : table.

Lemma onWriteEx_table w : table_ok w.1 -> table_ok (onWriteEx w).1.
Proof. intros H. unfold onWriteEx. cbv zeta. tbl_pair. tbl. Qed.

(** ** Frames *)

Lemma pop_front_table n c : table_ok c -> table_ok (pop_front n c).
Proof. intros. unfold pop_front. tbl. Qed.
Lemma moveTo_table n c : table_ok c -> table_ok (moveTo n c).2.
Proof. intros. unfold moveTo. cbn [snd]. apply pop_front_table. assumption. Qed.
Lemma countControlFrame_table w : table_ok w.1 -> table_ok (countControlFrame w).2.1.
Proof. intros. unfold countControlFrame. tbl. Qed.
#[local] Hint Resolve pop_front_table moveTo_table countControlFrame_table : table.

Lemma processPriority_table id w : table_ok w.1 -> table_ok (processPriority id w).2.1.
Proof.
  intros H. unfold processPriority. tbl_pair. cbv zeta. destruct (_ =? _); [tbl|]. set (c1 := set_priority _ _).
  assert (H1 : table_ok c1) by (subst c1; tbl). clearbody c1. destruct (findStream id _) as [s|]; [|exact H1].
  destruct (s_flag s PRI_SET); [|tbl]. tbl_pair. tbl.
Qed.
#[local] Hint Resolve processPriority_table : table.

Lemma processPriorityFrame_table h w : table_ok w.1 -> table_ok (processPriorityFrame h w).2.1.
Proof. intros H. unfold processPriorityFrame. destruct (_ =? 0); [exact H|]. tbl_pair. tbl. Qed.

Lemma setting_table id v d w : table_ok w.1 -> match setting id v d w with inl r => table_ok r.2.1 | inr r => table_ok r.2.1 end.
Proof.
  intros H. unfold setting. repeat match goal with |- context [if ?b then _ else _] => destruct b end; tbl.
Qed.

Lemma settings_loop_table n : forall d w, table_ok w.1 -> match settings_loop n d w with inl r => table_ok r.2.1 | inr r => table_ok r.2.1 end.
Proof.
  induction n as [|n IH]; intros d w H; cbn [settings_loop]; [exact H|]. tbl_pair. cbv zeta.
  match goal with |- context [setting ?i ?v ?d ?w] => pose proof (setting_table i v d w) as Hs; destruct (setting i v d w) as [r|[d1 w1]] end;
    [apply Hs; assumption|]. apply IH, Hs. assumption.
Qed.

Lemma fold_adjWindow_table d ids : forall c, table_ok c -> table_ok (fold_left (fun c id => (adjWindowOut id d c).2) ids c).
Proof. induction ids as [|id ids IH]; intros c H; cbn; [exact H|]. apply IH. tbl. Qed.
#[local] Hint Resolve fold_adjWindow_table : table.

Lemma processSettingFrame_table h w : table_ok w.1 -> table_ok (processSettingFrame h w).2.1.
Proof.
  intros H. unfold processSettingFrame. destruct (negb _); [tbl|]. cbv zeta. destruct (negb _); [tbl|].
  destruct (has _ _); [tbl|]. pose proof (settings_loop_table (Z.to_nat (remain w.1 / 6)) 0 w H) as Hl.
  destruct (settings_loop _ _ _) as [r|[d w1]]; [exact Hl|]. cbn [snd] in Hl. tbl_pair. tbl.
Qed.

Lemma processWindowUpdateFrame_table h w : table_ok w.1 -> table_ok (processWindowUpdateFrame h w).2.1.
Proof.
  intros H. unfold processWindowUpdateFrame. tbl_pair. cbv zeta. set (w1 := (_, w.2)). assert (H1 : table_ok w1.1) by (subst w1; tbl).
  clearbody w1. destruct (_ =? 0); [tbl|]. tbl_pair. destruct b; [assumption|]. destruct (getStreamId h =? 0); [tbl|].
  destruct (findStream _ _); [|tbl]. tbl_pair. tbl.
Qed.

Lemma processRstFrame_table h w : table_ok w.1 -> table_ok (processRstFrame h w).2.1.
Proof.
  intros H. unfold processRstFrame. cbv zeta. destruct (_ =? 0); [exact H|]. destruct (negb _ && _); [exact H|]. destruct (_ =? 0); [exact H|].
  destruct (findStream _ _); [|exact H]. destruct (_ && _); [tbl|]. tbl_pair. tbl.
Qed.

Lemma processPingFrame_table h w : table_ok w.1 -> table_ok (processPingFrame h w).2.1.
Proof.
  intros H. unfold processPingFrame. destruct (negb _); [exact H|]. destruct (_ || _); [|tbl]. tbl_pair. cbv zeta.
  destruct (has _ _); [tbl|]. tbl_pair. tbl.
Qed.

Lemma processGoAwayFrame_table h w : table_ok w.1 -> table_ok (processGoAwayFrame h w).2.1.
Proof. intros. unfold processGoAwayFrame. cbv zeta. tbl. Qed.
#[local] Hint Resolve processPriorityFrame_table processSettingFrame_table processWindowUpdateFrame_table processRstFrame_table
  processPingFrame_table processGoAwayFrame_table : table.

(** ** Headers *)

Lemma getNewStream_table fl c c' : table_ok c -> fresh c -> flag c HEADERS_START = false -> getNewStream fl c = Some c' -> table_ok c'.
Proof.
  intros H Hf Hh. unfold getNewStream. destruct (_ >=? _); [discriminate|]. cbv zeta. intros [= <-]. apply apply_priority_ok.
  set (c1 := set_uiStreams _ c). assert (E : same_table c c1) by (apply same_frame; reflexivity).
  apply (insert_ok _ c1); [exact (table_same _ _ H E)|exact (fresh_same _ _ Hf E)|unfold H2_STREAM_PRIORITYS; cbn; lia|].
  rewrite (se_start _ _ E). exact Hh.
Qed.

Lemma decodeHeaders_table id b fl w : table_ok w.1 -> fresh w.1 -> flag w.1 HEADERS_START = false -> table_ok (decodeHeaders id b fl w).2.1.
Proof.
  intros H Hf Hh. unfold decodeHeaders. cbv zeta. set (w1 := on _ w). assert (E : same_table w.1 w1.1) by (apply same_frame; reflexivity).
  pose proof (table_same _ _ H E) as H1. apply (fun H => fresh_same _ _ H E) in Hf. rewrite <- (se_start _ _ E) in Hh. clearbody w1.
  destruct (getNewStream fl w1.1) as [c|] eqn:En; [|tbl]. apply getNewStream_table in En; [|assumption..].
  destruct (app_decode b w1.2) as [ok a]. destruct ok; cbn [negb]; [|tbl]. set (w2 := on _ _). assert (H2 : table_ok w2.1) by (subst w2; tbl).
  clearbody w2. destruct (deref _ w2.1) as [s|]; [|exact H2]. destruct (s_flag s PEER_SHUTDOWN); [tbl|]. tbl_pair. tbl.
Qed.

Lemma verifyStreamId_table id w : table_ok w.1 -> let r := verifyStreamId id w in
  table_ok r.2.1 /\ (r.1 <> LS_FAIL -> fresh r.2.1 /\ last r.2.1 = id /\ flag r.2.1 HEADERS_START = flag w.1 HEADERS_START).
Proof.
  intros H. unfold verifyStreamId. cbv zeta. do 2 (destruct (_ =? _); [split; [exact H|intros []; reflexivity]|]).
  destruct (Z.leb_spec id (m_uiLastStreamId (c_cnt w.1))) as [|Hl].
  - destruct (findStream id w.1); [|split; [exact H|intros []; reflexivity]]. split; [tbl|intros []; reflexivity].
  - change (last w.1 < id) in Hl. pose proof H as [H1 H2 H3 H4 H5].
    assert (Hn : deref id w.1 = None). { destruct (deref id w.1) as [s|] eqn:Es; [|reflexivity]. destruct (H3 id s Es). lia. }
    set (w1 := on _ w). assert (Hf : fresh w1.1); [split; [exact (Z.le_lt_trans _ _ _ H4 Hl)|exact Hn]|].
    split; [|intros _; split_and!; [exact Hf|reflexivity|reflexivity]]. split; [exact H1|exact H2| |exact (Z.lt_le_incl _ _ (Z.le_lt_trans _ _ _ H4 Hl))|intros _; exact Hf].
    intros i s Hi. change (last w1.1) with id. destruct (H3 i s Hi) as [Hr [Hi1 Hi2]]. split; [exact Hr|split; [exact Hi1|exact (Z.lt_le_incl _ _ (Z.le_lt_trans _ _ _ Hi2 Hl))]].
Qed.

Lemma processHeaderIn_table id fl w : table_ok w.1 -> fresh w.1 -> (has fl H2_FLAG_END_HEADERS = true -> flag w.1 HEADERS_START = false) ->
  table_ok (processHeaderIn id fl w).2.1.
Proof.
  intros H Hf Hh. unfold processHeaderIn. cbv zeta.
  assert (Hd : forall b w1, has fl H2_FLAG_END_HEADERS = true -> same_table w.1 w1.1 -> table_ok (decodeHeaders id b fl w1).2.1).
  { intros b w1 He E. apply decodeHeaders_table; [exact (table_same _ _ H E)|exact (fresh_same _ _ Hf E)|].
    rewrite (se_start _ _ E). exact (Hh He). }
  destruct (_ <=? 0).
  { destruct (negb _); [|exact H]. tbl_pair. tbl. }
  match goal with |- context [on ?f w] => set (w1 := on f w) end.
  assert (E : same_table w.1 w1.1) by (apply same_frame; reflexivity). clearbody w1. pose proof (table_same _ _ H E) as H1.
  destruct (negb (has fl H2_FLAG_END_HEADERS)) eqn:Ee; cbn [orb].
  - destruct (_ >? _); tbl.
  - apply negb_false_iff in Ee. destruct (_ || _); [|apply Hd; [exact Ee|reflexivity]].
    destruct (_ >? _); [tbl|]. apply Hd; [exact Ee|]. etransitivity; [exact E|]. apply same_frame; reflexivity.
Qed.

Lemma processContinuationFrame_table h w : table_ok w.1 -> table_ok (processContinuationFrame h w).2.1.
Proof.
  intros H. unfold processContinuationFrame. destruct (flag w.1 GOAWAY); [exact H|]. cbv zeta.
  destruct (negb (getStreamId h =? _)); [exact H|]. cbn [orb]. destruct (flag w.1 HEADERS_START) eqn:Es; [|exact H]. cbn [negb].
  pose proof (t_start w.1 H Es) as Hf. destruct (has _ _) eqn:Ee.
  - apply processHeaderIn_table; [|exact Hf|intros _; apply (fn_lookup_insert (m_h2flag w.1))].
    destruct H as [H1 H2 H3 H4 H5]. split; auto.
  - apply processHeaderIn_table; [exact H|exact Hf|congruence].
Qed.

Lemma processPriority_fresh id w : deref id w.1 = None -> same_table w.1 (processPriority id w).2.1.
Proof.
  intros Hn. unfold processPriority, moveTo. cbv zeta. destruct (_ =? id); [apply same_frame; reflexivity|].
  match goal with |- context [findStream id ?c] => assert (findStream id c = None) as ->; [|apply same_frame; reflexivity] end.
  unfold findStream. cbn [fst]. match goal with |- context [deref id ?c] => change (deref id c) with (deref id w.1) end. rewrite Hn. reflexivity.
Qed.

Lemma headers_payload_table id fl w : table_ok w.1 -> fresh w.1 -> last w.1 = id -> flag w.1 HEADERS_START = false ->
  table_ok (headers_payload id fl w).2.1.
Proof.
  intros H Hf Hl Hh. unfold headers_payload. destruct (_ && _); [exact H|].
  match goal with |- context [let '(_, _) := ?e in _] => assert (E : same_table w.1 e.2.1); [|destruct e as [r w1]] end.
  { destruct (has fl H2_FLAG_PRIORITY); [|apply same_frame; reflexivity]. apply processPriority_fresh. rewrite <- Hl. apply Hf. }
  cbn [snd] in E. pose proof (table_same _ _ H E) as H1. apply (fun H => fresh_same _ _ H E) in Hf. rewrite <- (se_start _ _ E) in Hh.
  destruct (negb (r =? 0)); [exact H1|]. cbv zeta. destruct (has fl H2_FLAG_END_HEADERS) eqn:Ee; cbn [negb].
  - apply processHeaderIn_table; [tbl|exact Hf|intros _; exact Hh].
  - apply processHeaderIn_table; [|exact Hf|congruence]. destruct H1 as [P1 P2 P3 P4 P5]. split; auto.
Qed.

Lemma processHeadersFrame_table h w : table_ok w.1 -> flag w.1 HEADERS_START = false -> table_ok (processHeadersFrame h w).2.1.
Proof.
  intros H Hh. unfold processHeadersFrame. destruct (flag w.1 GOAWAY); [exact H|]. cbv zeta.
  destruct (verifyStreamId_table (getStreamId h) w H) as [H1 Hr]. destruct (verifyStreamId _ w) as [r w1]. cbn [fst snd] in *.
  destruct (Z.eqb_spec r LS_FAIL) as [|Hne]; [exact H1|]. destruct (Hr Hne) as (Hf & Hl & Hs). rewrite Hh in Hs.
  destruct (has _ H2_FLAG_PADDED); [destruct (_ <=? _); [tbl|]|]; (apply headers_payload_table; [tbl|exact Hf|exact Hl|exact Hs]).
Qed.

Lemma processFrame_table h w : table_ok w.1 -> (flag w.1 HEADERS_START = true -> getType h = H2_FRAME_CONTINUATION) ->
  table_ok (processFrame h w).2.1.
Proof.
  intros H Hc. unfold processFrame. cbv zeta. set (w1 := on _ w). assert (H1 : table_ok w1.1) by (subst w1; tbl).
  change (flag w.1 HEADERS_START) with (flag w1.1 HEADERS_START) in Hc. clearbody w1.
  destruct (_ && _ && _); [exact H1|]. destruct (Z.eqb_spec (getType h) H2_FRAME_HEADERS) as [E|_].
  { apply processHeadersFrame_table; [exact H1|]. destruct (flag w1.1 HEADERS_START); [|reflexivity].
    specialize (Hc eq_refl). rewrite E in Hc. discriminate. }
  repeat (match goal with |- context [if getType h =? ?t then _ else _] => destruct (getType h =? t) end;
    [first [apply processContinuationFrame_table; exact H1 | unfold processPushPromiseFrame; tbl]|]). exact H1.
Qed.

(** ** DATA frames and reading *)

Lemma processRcvdData_table id d w : table_ok w.1 -> table_ok (processRcvdData id d w).2.1.
Proof. intros. unfold processRcvdData. tbl. Qed.
Lemma skipRemainData_table w : table_ok w.1 -> table_ok (skipRemainData w).1.
Proof. intros. unfold skipRemainData. cbn [on fst]. cbv zeta. set (c1 := set_iCurrentFrameRemain _ _). assert (table_ok c1) by (subst c1; tbl). clearbody c1. tbl. Qed.
Lemma bytesRecv_table id n c : table_ok c -> table_ok (bytesRecv id n c).
Proof. intros. unfold bytesRecv. tbl. Qed.
Lemma log_table e c : table_ok c -> table_ok (log e c).
Proof. intros. unfold log. tbl. Qed.
#[local] Hint Resolve processRcvdData_table skipRemainData_table bytesRecv_table log_table : table.

Lemma data_loop_table n : forall id w, table_ok w.1 -> table_ok (data_loop n id w).2.1.
Proof.
  induction n as [|n IH]; intros id w H; cbn [data_loop]; [exact H|]. cbv zeta. destruct (_ >? 0); [|exact H].
  destruct (_ =? 0); [exact H|]. destruct (decide _); [|apply IH; tbl]. do 2 tbl_pair. destruct (_ =? _); [tbl|]. apply IH. tbl.
Qed.

Lemma data_done_table h id w : table_ok w.1 -> table_ok (data_done h id w).2.1.
Proof. intros H. unfold data_done. destruct (has _ _); [|tbl]. tbl_pair. tbl. Qed.
Lemma current_onRead_table w : table_ok w.1 -> table_ok (current_onRead w).1.
Proof. intros H. unfold current_onRead. tbl. Qed.
#[local] Hint Resolve data_loop_table data_done_table current_onRead_table : table.

Lemma processDataFrame_table h w : table_ok w.1 -> table_ok (processDataFrame h w).2.1.
Proof.
  intros H. unfold processDataFrame. cbv zeta. destruct (_ || _); [exact H|]. set (w1 := on _ w). assert (H1 : table_ok w1.1) by (subst w1; tbl).
  clearbody w1. destruct (_ && _); [exact H1|]. destruct (consumeWindowIn _ w1.1) as [c|] eqn:Ec; [|exact H1].
  apply consumeWindowIn_table in Ec; [|exact H1]. set (st := findStream _ _). clearbody st. set (w2 := on _ (c, w1.2)).
  assert (H2 : table_ok w2.1) by (subst w2; tbl). clearbody w2. destruct (match st with Some _ => _ | None => _ end); [tbl|].
  destruct (stream_consumeWindowIn _ _ w2.1) as [c2|] eqn:Ec2; [|tbl]. apply stream_consumeWindowIn_table in Ec2; [|exact H2].
  tbl_pair. destruct b; [assumption|]. tbl_pair. destruct b; [assumption|]. tbl_pair. tbl.
Qed.
#[local] Hint Resolve processDataFrame_table : table.

Lemma parse_header_table w : table_ok w.1 -> match parse_header w with inl r => table_ok r.2.1 | inr w' => table_ok w'.1 end.
Proof. intros H. unfold parse_header. destruct (_ <? 0); [|exact H]. destruct (_ <? _); [exact H|]. tbl_pair. cbv zeta. destruct (_ >? _); tbl. Qed.

Lemma parse_body_table w : table_ok w.1 -> match parse_body w with inl r => table_ok r.2.1 | inr w' => table_ok w'.1 end.
Proof.
  intros H. unfold parse_body. cbv zeta. set (h := m_curH2Header _). destruct (_ && _); [exact H|].
  destruct (flag w.1 HEADERS_START && _) eqn:Eh; [exact H|].
  destruct (negb (getType h =? H2_FRAME_DATA)).
  - destruct (_ >? _); [exact H|]. assert (Hp : table_ok (processFrame h w).2.1).
    { apply processFrame_table; [exact H|]. intros Es. rewrite Es in Eh. apply negb_false_iff, Z.eqb_eq in Eh. exact Eh. }
    destruct (processFrame h w) as [r w1]. cbn [snd] in Hp. destruct (negb (r =? LS_OK)); tbl.
  - clear Eh. destruct (_ && _); [exact H|]. tbl_pair. destruct (negb _); [assumption|]. destruct (_ =? 0); tbl.
Qed.

Lemma parse_loop_table n : forall w, table_ok w.1 -> table_ok (parse_loop n w).2.1.
Proof.
  induction n as [|n IH]; intros w H; cbn [parse_loop]; [exact H|]. destruct (_ =? 0); [exact H|].
  pose proof (parse_header_table w H) as Hh. destruct (parse_header w) as [r|w1]; [exact Hh|].
  pose proof (parse_body_table w1 Hh) as Hb. destruct (parse_body w1) as [r|w2]; [exact Hb|]. apply IH, Hb.
Qed.

Lemma processInput_table w : table_ok w.1 -> table_ok (processInput w).2.1.
Proof.
  intros H. assert (Hp : forall w, table_ok w.1 -> table_ok (parseFrame w).2.1) by (intros; apply parse_loop_table; assumption).
  unfold processInput. cbv zeta. destruct (negb _).
  - destruct (_ <? _); [exact H|]. unfold verifyClientPreface. tbl_pair. unfold LS_FAIL. destruct (bytes_eqb _ _); cbn [Z.eqb Pos.eqb].
    + match goal with |- context [parseFrame ?x] => assert (Hx : table_ok x.1) by tbl; pose proof (Hp x Hx) as H2; destruct (parseFrame x) end.
      cbn [snd] in H2. tbl.
    + tbl.
  - pose proof (Hp w H) as H2. destruct (parseFrame w). cbn [snd] in H2. tbl.
Qed.
#[local] Hint Resolve processInput_table : table.

Lemma in_read_table n c : table_ok c -> table_ok (in_read n c).2.
Proof. intros H. unfold in_read. destruct (netIn (c_in c)) as [|[|b seg] rest]; [exact H|exact H|]. destruct (_ <=? _); tbl. Qed.
#[local] Hint Resolve in_read_table : table.

Lemma tryReadFrameHeader_table w : table_ok w.1 -> table_ok (tryReadFrameHeader w).2.1.
Proof.
  intros H. unfold tryReadFrameHeader. cbv zeta. set (w0 := set_remain _ w). assert (H0 : table_ok w0.1) by (subst w0; tbl). clearbody w0.
  tbl_pair. destruct o as [d|]; [|assumption]. set (w1 := (set_curH2Header _ c, w0.2)). assert (Hw1 : table_ok w1.1) by (subst w1; tbl).
  clearbody w1. destruct (_ >=? _); [|tbl]. set (w2 := set_remain _ w1). assert (H2 : table_ok w2.1) by (subst w2; tbl). clearbody w2.
  destruct (_ >? _); [tbl|]. destruct (_ && _); [|tbl]. destruct (_ || _); [tbl|].
  destruct (consumeWindowIn _ w2.1) as [c2|] eqn:Ec; [|tbl]. apply consumeWindowIn_table in Ec; [|exact H2].
  match goal with |- context [on ?f (c2, w2.2)] => set (w3 := on f (c2, w2.2)) end.
  assert (H3 : table_ok w3.1) by (subst w3; tbl). clearbody w3.
  match goal with |- context [match ?e with Some s => if s_flag s PEER_SHUTDOWN then _ else _ | None => _ end] => generalize e; intros [s|]; [|tbl] end.
  destruct (s_flag s PEER_SHUTDOWN); [tbl|]. destruct (stream_consumeWindowIn _ _ _) as [c4|] eqn:Ec4; [|tbl].
  apply stream_consumeWindowIn_table in Ec4; [|exact H3]. destruct (_ && _); [|tbl]. tbl_pair. tbl.
Qed.

Lemma direct_loop_table n : forall id total w, table_ok w.1 ->
  match direct_loop n id total w with inl r => table_ok r.2.1 | inr r => table_ok r.2.1 end.
Proof.
  induction n as [|n IH]; intros id total w H; cbn [direct_loop]; [exact H|]. cbv zeta. destruct (_ >? 0); [|exact H].
  tbl_pair. destruct o as [d|]; [|assumption]. destruct (_ >? 0); [|assumption]. apply IH. tbl.
Qed.

Lemma skip_loop_table n : forall w, table_ok w.1 -> match skip_loop n w with inl r => table_ok r.2.1 | inr r => table_ok r.1 end.
Proof.
  induction n as [|n IH]; intros w H; cbn [skip_loop]; [exact H|]. destruct (_ >? 0); [|exact H].
  tbl_pair. destruct o as [d|]; [|assumption]. destruct (_ >? 0); [|assumption]. apply IH. tbl.
Qed.
#[local] Hint Resolve tryReadFrameHeader_table : table.

Lemma processDataFrameDirectBuffer_table n h id w : table_ok w.1 -> table_ok (processDataFrameDirectBuffer n h id w).2.1.
Proof.
  intros H. unfold processDataFrameDirectBuffer. pose proof (direct_loop_table n id 0 w H) as Hl.
  destruct (direct_loop n id 0 w) as [r|[total w1]]; [exact Hl|]. cbn [snd] in Hl. tbl_pair. destruct (_ =? 0); [assumption|]. cbv zeta.
  destruct (_ >? 0); [tbl|]. tbl_pair. tbl.
Qed.

Lemma processDataFrameSkipRemain_table n w : table_ok w.1 -> table_ok (processDataFrameSkipRemain n w).2.1.
Proof.
  intros H. unfold processDataFrameSkipRemain. pose proof (skip_loop_table n w H) as Hl. destruct (skip_loop n w) as [r|w1]; [exact Hl|]. tbl.
Qed.
#[local] Hint Resolve processDataFrameDirectBuffer_table processDataFrameSkipRemain_table : table.

Lemma read_loop_table n : forall total w, table_ok w.1 -> table_ok (read_loop n total w).2.1.
Proof.
  induction n as [|n IH]; intros total w H; cbn [read_loop]; [exact H|]. cbv zeta.
  assert (Hnext : forall t w, table_ok w.1 -> table_ok (if t >? MAX_INPUT_BATCH_SIZE then
      (0, if bufSize w.1 >=? MAX_OUT_BUF_SIZE then on (fun c => suspendRead (set_flag PAUSE_READ c)) w else w)
      else read_loop n t w).2.1).
  { intros t w1 H1. destruct (t >? _); [|apply IH; exact H1]. unfold suspendRead. tbl. }
  assert (Hlost : forall w, table_ok w.1 -> table_ok (conn_onCloseEx (on suspendRead w)).1) by (intros; unfold suspendRead; tbl).
  destruct (decide _).
  - set (w1 := on _ w). assert (H1 : table_ok w1.1) by (subst w1; tbl). clearbody w1.
    pose proof (in_read_table (bq_room (m_bufInput (c_in w1.1))) w1.1 H1) as Hr. destruct (in_read _ w1.1) as [[d|] c]; [|apply Hlost; exact Hr].
    cbn [snd] in Hr. destruct (_ =? 0); [exact Hr|]. tbl_pair. destruct (_ =? _); [assumption|]. apply Hnext. assumption.
  - set (w1 := on _ w). assert (H1 : table_ok w1.1).
    { subst w1. cbn [on fst]. destruct (m_current (c_in w.1)); [exact H|]. tbl. }
    clearbody w1. match goal with |- context [let '(_, _) := ?e in _] => assert (H2 : table_ok e.2.1); [|destruct e as [ret w2]] end.
    { destruct (m_inputState (c_in w1.1)), (m_current (c_in w1.1)); tbl. }
    cbn [snd] in H2. destruct (_ >? 0); [apply Hnext; exact H2|]. destruct (_ =? 0); [exact H2|]. apply Hlost. exact H2.
Qed.

Lemma onReadEx_table n w : table_ok w.1 -> table_ok (onReadEx n w).2.1.
Proof.
  intros H. unfold onReadEx. set (w0 := on _ w). assert (H0 : table_ok w0.1) by (subst w0; tbl). clearbody w0. cbv zeta.
  pose proof (read_loop_table n 0 w0 H0) as Hr. destruct (read_loop n 0 w0) as [ret w1]. cbn [snd] in Hr.
  set (w2 := if os_pauseWrite _ && _ then _ else w1). assert (H2 : table_ok w2.1) by (subst w2; tbl). clearbody w2.
  set (w3 := if flag w2.1 WAIT_PROCESS && _ then _ else w2). assert (H3 : table_ok w3.1) by (subst w3; tbl). clearbody w3. tbl.
Qed.

(** ** The connection as a state machine *)

(** What can happen to a connection: bytes arrive, the stream below will take
    bytes, the event loop finds the connection readable or writable, a handler
    runs. *)
Inductive happens : W -> W -> Prop :=
  | h_arrive segs w : happens w (on (set_netIn segs) w)
  | h_socket ks w : happens w (on (set_sock ks) w)
  | h_readable fuel w : happens w (onReadEx fuel w).2
  | h_writable w : happens w (onWriteEx w)
  | h_handler u id w : happens w (app_call u id w).2.

Lemma happens_table w w' : happens w w' -> table_ok w.1 -> table_ok w'.1.
Proof. intros [segs v|ks v|n v|v|u id v] H; [tbl|tbl|apply onReadEx_table; exact H|apply onWriteEx_table; exact H|tbl]. Qed.

Lemma new_conn_table n : table_ok (new_conn n).
Proof.
  split; try discriminate.
  - intros q id Hq. inversion Hq.
  - intros q. constructor.
Qed.

(** C30: the stream table of a connection is well formed after any events.
    Whatever arrives, whatever the stream below takes and whatever the handlers
    do with their streams, the priority of every stream indexes the array of
    queues, no stream is younger than the last the peer opened, every queued
    stream is alive and in the queue of its priority, so in no other one, and
    in it once. *)
Theorem table_well_formed n a w : rtc happens (new_conn n, a) w ->
  (forall id s, deref id w.1 = Some s -> 0 <= s_priority s < H2_STREAM_PRIORITYS /\ 0 < id <= m_uiLastStreamId (c_cnt w.1)) /\
  (forall q id, id ∈ m_priQue w.1 q -> exists s, deref id w.1 = Some s /\ s_priority s = q) /\
  (forall q1 q2 id, id ∈ m_priQue w.1 q1 -> id ∈ m_priQue w.1 q2 -> q1 = q2) /\
  (forall q, NoDup (m_priQue w.1 q)).
Proof.
  intros Hr. assert (H : table_ok w.1).
  { assert (H0 : table_ok (new_conn n, a).1) by apply new_conn_table. revert H0.
    induction Hr as [w|w w1 w2 Hs _ IH]; [auto|]. intros H0. apply IH, (happens_table w); assumption. }
  split_and!; [apply (t_range _ H)|apply (t_queued _ H)| |apply (t_once _ H)].
  intros q1 q2 id H1 H2. destruct (t_queued _ H q1 id H1) as (s1 & E1 & <-). destruct (t_queued _ H q2 id H2) as (s2 & E2 & <-). congruence.
Qed.

End Events.

(** ** Example: handlers that answer at once *)

Definition answer (id : Z) (w : conn loopbuf * unit) : conn loopbuf * unit :=
  on (shutdownWrite id) (on (fun c => (write id (bs "hello") 0 c).2) w).

#[local] Instance answer_app : App loopbuf unit :=
  {| app_call := fun u id w => match u with OnInitConnected | OnWriteEx => (0, answer id w) | _ => (0, w) end;
     app_handler := fun _ => true; app_decode := fun _ a => (true, a); app_capacity := fun _ a => a |}.

#[local] Instance answer_keeps : AppKeeps answer_app.
Proof.
  split.
  - intros u id w H. destruct u; cbn [app_call answer_app snd]; unfold answer; try exact H; tbl.
  - intros id w _ Hu. exact Hu.
Qed.

(** A server that gets a SETTINGS frame and a request, and can write 20 bytes. *)
Definition exchange : list Z :=
  H2_CLIENT_PREFACE ++ frame0Bytes H2_FRAME_SETTINGS 0 0 ++ header_bytes (new_header 2 H2_FRAME_HEADERS 5 1) ++ [130; 134].

Definition exchange_end : conn loopbuf * unit :=
  onWriteEx (onReadEx 100 (on (set_sock [20]) (on (set_netIn [exchange]) (new_conn 262144, tt)))).2.

Lemma table_well_formed_witness :
  let w := exchange_end in
  (forall id s, deref id w.1 = Some s -> 0 <= s_priority s < H2_STREAM_PRIORITYS /\ 0 < id <= m_uiLastStreamId (c_cnt w.1)) /\
  (forall q id, id ∈ m_priQue w.1 q -> exists s, deref id w.1 = Some s /\ s_priority s = q) /\
  (forall q1 q2 id, id ∈ m_priQue w.1 q1 -> id ∈ m_priQue w.1 q2 -> q1 = q2) /\
  (forall q, NoDup (m_priQue w.1 q)).
Proof.
  intros w. apply (table_well_formed 262144 tt w). unfold w, exchange_end. clear w.
  eapply rtc_l; [apply (h_arrive [exchange])|]. generalize (on (set_netIn [exchange]) (new_conn (Q := loopbuf) 262144, tt)). intros w.
  eapply rtc_l; [apply (h_socket [20])|]. generalize (on (set_sock [20]) w). clear w. intros w.
  eapply rtc_l; [apply (h_readable 100)|]. generalize (onReadEx 100 w).2. clear w. intros w. apply rtc_once, h_writable.
Defined.

Example exchange_answered : s_priority <$> deref 1 exchange_end.1 = Some 7 /\ 0 < zlen (bq_data (outBuf exchange_end.1)).
Proof. vm_compute. auto. Qed.
