(* ===== verification/H2Framing.v ===== *)
(** * H2Framing: what the input side of an HTTP/2 connection dispatches
    (the frame parser of src/src/h2/h2connbase.cpp)

    The handlers of frames and streams keep to the payload of the frame they
    are given, so the parser dispatches exactly the frames the peer's bytes
    consist of, whatever the handlers of the streams do. *)

From S2P Require Import Prelude LoopBuf H2Frame H2State H2Conn H2Input.
From stdpp Require Import fin_maps functions.
#[local] Open Scope Z_scope.

Section Inside.

Context {Q A : Type} {BQ : ByteQueue Q}.
Implicit Types (c : conn Q) (w : conn Q * A).

(** ** The input side and the handlers

    [inside] is what the parser works on.  A handler has no access to it: the
    methods of a stream it can call do not touch it. *)

Definition inside c :=
  let i := c_in c in
  (m_bufInput i, m_bufInflate i, m_iCurrentFrameRemain i, m_curH2Header i, m_inputState i, m_padLen i, netIn i, trace i).

Lemma inside_in c c' : c_in c' = c_in c -> inside c' = inside c.
Proof. unfold inside. intros ->. reflexivity. Qed.

Lemma on_inside f w : (forall c, inside (f c) = inside c) -> inside (on f w).1 = inside w.1.
Proof. intros Hf. apply Hf. Qed.

End Inside.

(** The documented limits of a handler: it leaves the input side alone. *)
Class AppLaws {Q A : Type} {BQ : ByteQueue Q} (AP : App Q A) : Prop := {
  app_inside : forall u id (w : conn Q * A), inside (app_call u id w).2.1 = inside w.1 }.

Section Framing.

Context {Q A : Type} {BQ : ByteQueue Q} {AP : App Q A} {AL : AppLaws AP}.
Abbreviation W := (conn Q * A)%type.
Implicit Types (c : conn Q) (w : W).

Ltac inner := first [reflexivity | apply inside_in; cbn [on fst snd]; unfold sendRstFrame, sendFinFrame, sendFrame0Bytes, sendFrame8Bytes;
  rewrite ?shutdownWrite_in, ?add2PriorityQue_in, ?removePriQue_in, ?stream_continueWrite_in, ?apply_priority_in,
    ?adjWindowOut_in, ?updateWindow_in, ?addWindowInToUpdate_in, ?windowUpdate_in, ?adjWindowToUpdate_in,
    ?sendSettingsFrame_in, ?guaranteeOutput_in, ?sendFrame4Bytes_in, ?sendPingFrame_in, ?sendGoAwayFrame_in,
    ?flush_in, ?needWriteEvent_in; reflexivity].

Lemma s_call_inside u id w : inside (s_call u id w).2.1 = inside w.1.
Proof. unfold s_call. destruct (deref id w.1); [|reflexivity]. destruct (s_handler s); [apply app_inside|reflexivity]. Qed.

Lemma onClose_inside id w : inside (onClose id w).1 = inside w.1.
Proof. unfold onClose. destruct (deref id w.1); [|reflexivity]. destruct (_ && _); [apply app_inside|reflexivity]. Qed.

Lemma closeEx_inside id w : inside (closeEx id w).1 = inside w.1.
Proof.
  unfold closeEx. destruct (deref id w.1); [|reflexivity]. destruct (_ =? HIOS_DISCONNECTED); [reflexivity|].
  rewrite <- (onClose_inside id w). generalize (onClose id w). intros w1.
  destruct (deref id w1.1); [|reflexivity]. apply inside_in. cbn.
  destruct (_ =? HIOS_SHUTDOWN), (_ <? HIOS_SHUTDOWN); cbn; rewrite ?shutdownWrite_in; reflexivity.
Qed.

Lemma recycleStream_inside id w : inside (recycleStream id w).1 = inside w.1.
Proof.
  unfold recycleStream. cbv zeta.
  set (w1 := on _ w). assert (H1 : inside w1.1 = inside w.1) by (subst w1; cbn; destruct (bool_decide _); reflexivity).
  clearbody w1. set (w2 := on _ w1). assert (H2 : inside w2.1 = inside w1.1) by reflexivity. clearbody w2.
  set (w3 := closeEx id w2). assert (H3 : inside w3.1 = inside w2.1) by apply closeEx_inside. clearbody w3.
  set (w4 := on _ w3). assert (H4 : inside w4.1 = inside w3.1) by (subst w4; cbn; inner). clearbody w4.
  set (w5 := (s_call RecycleHandler id w4).2). assert (H5 : inside w5.1 = inside w4.1) by apply s_call_inside. clearbody w5.
  destruct (deref id w5.1); [|congruence]. transitivity (inside w5.1); [destruct (s_flag s STREAM_DROP); reflexivity|congruence].
Qed.

Lemma fold_recycle_inside ids : forall w, inside (fold_left (fun w id => recycleStream id w) ids w).1 = inside w.1.
Proof. induction ids as [|id ids IH]; intros w; cbn; [reflexivity|]. rewrite IH. apply recycleStream_inside. Qed.

Lemma releaseAllStream_inside w : inside (releaseAllStream w).1 = inside w.1.
Proof. apply fold_recycle_inside. Qed.

Lemma doGoAway_inside st w : inside (doGoAway st w).1 = inside w.1.
Proof.
  unfold doGoAway. rewrite <- (releaseAllStream_inside w). generalize (releaseAllStream w). intros w1. cbn.
  destruct (negb _); apply inside_in; cbn; apply sendGoAwayFrame_in.
Qed.

Lemma conn_onCloseEx_inside w : inside (conn_onCloseEx w).1 = inside w.1.
Proof.
  unfold conn_onCloseEx. destruct (os_release _); [reflexivity|]. cbn.
  change (inside (releaseAllStream (on (set_os_closing true) w)).1 = inside w.1). rewrite releaseAllStream_inside. reflexivity.
Qed.

Lemma resetStream_inside p id code w : inside (resetStream p id code w).2.1 = inside w.1.
Proof.
  unfold resetStream. cbv zeta. set (ex := p || _). set (hit := ex || _).
  set (w1 := if hit then on _ w else w). assert (H1 : inside w1.1 = inside w.1) by (subst w1; destruct hit; reflexivity). clearbody w1.
  destruct (hit && _ && _); [exact H1|].
  set (w2 := if hit then on _ w1 else w1). assert (H2 : inside w2.1 = inside w1.1) by (subst w2; destruct hit; [cbn; inner|reflexivity]). clearbody w2.
  destruct ex; cbn [snd]; [|congruence]. rewrite recycleStream_inside. transitivity (inside w2.1); [reflexivity|congruence].
Qed.

Lemma onInitConnected_inside id w : inside (onInitConnected id w).1 = inside w.1.
Proof.
  unfold onInitConnected. destruct (deref id w.1) as [s|]; [|reflexivity]. cbv zeta.
  set (w1 := if s_flag s INIT_SESS then _ else w).
  assert (H1 : inside w1.1 = inside w.1) by (subst w1; destruct (s_flag s INIT_SESS); [rewrite s_call_inside|]; reflexivity). clearbody w1.
  set (w2 := match deref id w1.1 with Some s => _ | None => w1 end).
  assert (H2 : inside w2.1 = inside w1.1).
  { subst w2. destruct (deref id w1.1); [|reflexivity]. destruct (_ && _); [apply s_call_inside|reflexivity]. } clearbody w2.
  destruct (deref id w2.1); [|congruence]. destruct (_ && _); [|congruence]. rewrite <- H1, <- H2. inner.
Qed.

Lemma assign_inside id w : inside (assignStreamHandler id w).2.1 = inside w.1.
Proof.
  unfold assignStreamHandler. destruct (app_handler w.2); cbn [snd].
  - rewrite onInitConnected_inside. reflexivity.
  - apply resetStream_inside.
Qed.

Lemma onWrite_inside id w : inside (onWrite id w).1 = inside w.1.
Proof.
  unfold onWrite. destruct (deref id w.1) as [s|]; [|reflexivity]. destruct (_ <=? 0); [reflexivity|]. cbv zeta.
  destruct (s_flag s WANT_WRITE); [|reflexivity]. destruct (negb (s_handler s)); [reflexivity|].
  set (w1 := (app_call OnWriteEx id _).2). assert (H1 : inside w1.1 = inside w.1) by (subst w1; rewrite app_inside; reflexivity).
  clearbody w1. destruct (deref id w1.1) as [s1|]; [|exact H1]. destruct (s_flag s1 WANT_WRITE); [|exact H1].
  cbn. rewrite <- H1. inner.
Qed.

Lemma recycle_unconnected_inside id w : inside (recycle_unconnected id w).1 = inside w.1.
Proof. unfold recycle_unconnected. destruct (deref id w.1); [|reflexivity]. destruct (negb _); [apply recycleStream_inside|reflexivity]. Qed.

Lemma append_unlinked_inside id c : inside (append_unlinked id c) = inside c.
Proof. unfold append_unlinked. destruct (deref id c); [|reflexivity]. destruct (negb _); reflexivity. Qed.

Lemma queue_loop_inside n : forall q ww w, inside (queue_loop n q ww w).2.1 = inside w.1.
Proof.
  induction n as [|n IH]; intros q ww w; cbn [queue_loop]; [reflexivity|].
  destruct (_ && _); [|reflexivity]. destruct (m_priQue w.1 q) as [|id rest]; [reflexivity|]. cbv zeta.
  set (w1 := on _ w). assert (H1 : inside w1.1 = inside w.1) by reflexivity. clearbody w1.
  destruct (deref id w1.1) as [s|]; [|rewrite IH; exact H1].
  destruct (negb _); [rewrite IH, recycleStream_inside; exact H1|].
  match goal with |- context [let '(ret, w) := ?e in _] => set (x := e) end.
  assert (Hx : inside x.2.1 = inside w1.1).
  { subst x. destruct (s_flag s INIT_SESS); [apply assign_inside|]. destruct (s_flag s WANT_WRITE); [|reflexivity].
    destruct (negb _); [apply onWrite_inside|reflexivity]. }
  destruct x as [ret w2]. cbn [snd] in Hx. destruct (ret =? LS_FAIL); [rewrite IH; congruence|].
  set (w3 := if wants_write id w2.1 then _ else w2).
  assert (H3 : inside w3.1 = inside w2.1) by (subst w3; destruct (wants_write _ _); [apply append_unlinked_inside|reflexivity]). clearbody w3.
  set (w4 := recycle_unconnected id w3). assert (H4 : inside w4.1 = inside w3.1) by apply recycle_unconnected_inside. clearbody w4.
  destruct (flag w4.1 DROP); [cbn; congruence|]. destruct (isOutBufFull w4.1); [cbn; congruence|]. rewrite IH. congruence.
Qed.

Lemma queues_loop_inside qs : forall ww w, inside (queues_loop qs ww w).2.1 = inside w.1.
Proof.
  induction qs as [|q qs IH]; intros ww w; cbn [queues_loop]; [reflexivity|]. destruct (_ >? 0); [|reflexivity].
  pose proof (queue_loop_inside (length (m_priQue w.1 q)) q ww w) as Hq.
  destruct (queue_loop _ _ _ _) as [[n d] w1]. cbn [snd] in Hq. destruct (_ || _); [exact Hq|]. rewrite IH. exact Hq.
Qed.

Lemma processQueue_inside w : inside (processQueue w).2.1 = inside w.1.
Proof.
  unfold processQueue. pose proof (queues_loop_inside (seqZ 0 H2_STREAM_PRIORITYS) 0 w) as Hq.
  destruct (queues_loop _ _ _) as [[n d] w1]. cbn [snd] in Hq. destruct d; [exact Hq|]. cbn [snd].
  destruct (flag w1.1 WANT_FLUSH); [|exact Hq]. rewrite <- Hq. inner.
Qed.

Lemma onWriteEx2_inside w : inside (onWriteEx2 w).2.1 = inside w.1.
Proof.
  unfold onWriteEx2. cbv zeta. set (w1 := if bufSize w.1 >? 0 then _ else w).
  assert (H1 : inside w1.1 = inside w.1).
  { subst w1. destruct (_ >? 0); [|reflexivity]. destruct (_ >=? _); inner. } clearbody w1.
  destruct (_ && _); [exact H1|].
  assert (Hres : forall w, inside (on (fun c => if negb (os_wantWrite (c_out c)) && (m_iCurDataOutWindow (c_flow c) >? 0)
    then set_os_wantWrite true c else c) w).1 = inside w.1).
  { intros x. apply on_inside. intros c. destruct (_ && _); reflexivity. }
  destruct (os_pauseWrite _); [cbn [snd]; rewrite Hres; exact H1|].
  pose proof (processQueue_inside w1) as Hq. destruct (processQueue w1) as [n w2]. cbn [snd] in *.
  destruct (negb (n =? 0)); [rewrite Hres|]; congruence.
Qed.

Lemma onPeerClose_inside id w : inside (onPeerClose id w).1 = inside w.1.
Proof.
  unfold onPeerClose. cbv zeta. set (w1 := on _ w). assert (H1 : inside w1.1 = inside w.1) by reflexivity. clearbody w1.
  match goal with |- context [match deref id ?x.1 with Some s => if s_state s =? _ then _ else _ | None => _ end] => set (w2 := x) end.
  assert (H2 : inside w2.1 = inside w1.1).
  { subst w2. destruct (deref id w1.1) as [s|]; [|reflexivity]. destruct (s_handler s); [|reflexivity].
    set (w3 := if negb _ then _ else w1).
    assert (H3 : inside w3.1 = inside w1.1) by (subst w3; destruct (negb _); [apply app_inside|reflexivity]). clearbody w3.
    destruct (deref id w3.1); [|exact H3]. destruct (_ && _); [|exact H3]. cbn [on fst].
    transitivity (inside (s_call RecycleHandler id w3).2.1); [reflexivity|]. rewrite s_call_inside. exact H3. }
  clearbody w2. destruct (deref id w2.1); [|congruence]. destruct (_ =? _); [congruence|].
  rewrite recycleStream_inside, onClose_inside. congruence.
Qed.

(** ** What a handler of a control frame does to the input *)

(** Events the dispatching of frames is not read off. *)
Definition aux_event (e : event) : Prop := match e with EvFrame _ _ | EvData _ _ => False | _ => True end.

Definition in_ok w : Prop := bq_ok (m_bufInput (c_in w.1)).

(** The payload of the current frame is in the buffer. *)
Definition good w : Prop :=
  in_ok w /\ 0 <= remain w.1 <= inSize w.1 /\ bytes_ok (inData w.1) /\ 0 <= m_padLen (c_in w.1).

(** [w'] is [w] after part of the current frame's payload was taken. *)
Record consumes (w w' : W) : Prop := {
  cs_buf : good w -> good w' /\
    exists k, 0 <= k <= remain w.1 /\ inData w'.1 = zdrop k (inData w.1) /\ remain w'.1 = remain w.1 - k;
  cs_state : m_inputState (c_in w'.1) = m_inputState (c_in w.1);
  cs_head : m_curH2Header (c_in w'.1) = m_curH2Header (c_in w.1);
  cs_net : netIn (c_in w'.1) = netIn (c_in w.1);
  cs_trace : exists extra, trace (c_in w'.1) = trace (c_in w.1) ++ extra /\ Forall aux_event extra }.

Lemma consumes_inside w w' : inside w'.1 = inside w.1 -> consumes w w'.
Proof.
  unfold inside. intros [= E1 E2 E3 E4 E5 E6 E7 E8]. split; auto.
  - unfold good, in_ok, inSize, inData, remain in *. rewrite E1, E3, E6. intros Hg. split; [exact Hg|].
    exists 0. rewrite zdrop_0. split_and!; auto; lia.
  - exists []. rewrite app_nil_r. auto.
Qed.

Lemma consumes_refl w : consumes w w.
Proof. apply consumes_inside. reflexivity. Qed.

Lemma consumes_trans w1 w2 w3 : consumes w1 w2 -> consumes w2 w3 -> consumes w1 w3.
Proof.
  intros [Hb1 Hs1 Hh1 Hn1 (e1 & Ht1 & He1)] [Hb2 Hs2 Hh2 Hn2 (e2 & Ht2 & He2)]. split; try congruence.
  - intros Hg. destruct (Hb1 Hg) as (Hg1 & k1 & Hk1 & Hd1 & Hr1).
    destruct (Hb2 Hg1) as (Hg2 & k2 & Hk2 & Hd2 & Hr2).
    split; [assumption|]. exists (k1 + k2). rewrite Hd2, Hd1, zdrop_zdrop by lia. split_and!; auto; lia.
  - exists (e1 ++ e2). rewrite Ht2, Ht1, app_assoc. split; [reflexivity|]. apply Forall_app. auto.
Qed.

(** Taking [n] bytes of the payload. *)
Definition take_payload (n : Z) w : W := on (fun c => set_iCurrentFrameRemain (remain c - n) (pop_front (Z.min n (inSize c)) c)) w.

Lemma bytes_ok_zdrop n l : bytes_ok l -> bytes_ok (zdrop n l).
Proof. apply Forall_drop. Qed.

Lemma consumes_take n w : 0 <= n <= remain w.1 -> consumes w (take_payload n w).
Proof.
  intros Hn. split; auto; [|exists []; rewrite app_nil_r; auto].
  unfold good, take_payload, pop_front, in_ok, inSize, inData, remain in *. cbn. intros (Hok & Hr & Hb & Hp).
  fold (inData w.1) in *. unfold inSize. fold (inData w.1).
  destruct (bq_pop_ok (Z.min n (zlen (inData w.1))) _ Hok) as [Hq Hqd]; [pose proof (zlen_nonneg (inData w.1)); lia|].
  fold (inData w.1) in Hqd. rewrite Hqd, Z.min_l by lia. rewrite Z.min_l in Hq by lia.
  split; [|exists n; split_and!; auto; lia]. split; [exact Hq|]. rewrite zlen_zdrop by lia.
  split; [lia|]. split; [apply bytes_ok_zdrop; exact Hb|exact Hp].
Qed.

Lemma consumes_log e w : aux_event e -> consumes w (on (log e) w).
Proof.
  intros He. split; auto.
  - intros Hg. split; [exact Hg|]. exists 0. rewrite zdrop_0, Z.sub_0_r. destruct Hg as (_ & ? & _).
    split; [lia|]. split; reflexivity.
  - exists [e]. split; [reflexivity|]. repeat constructor. exact He.
Qed.

(** The pad length and the header fragment are no part of the payload. *)
Lemma consumes_pad n w : 0 <= n -> consumes w (on (set_padLen n) w).
Proof.
  intros Hn. split; auto.
  - intros (H1 & H2 & H3 & _). split; [exact (conj H1 (conj H2 (conj H3 Hn)))|].
    exists 0. rewrite zdrop_0, Z.sub_0_r. split; [lia|]. split; reflexivity.
  - exists []. rewrite app_nil_r. auto.
Qed.

Lemma consumes_inflate l w : consumes w (on (set_bufInflate l) w).
Proof.
  split; auto.
  - intros Hg. split; [exact Hg|]. exists 0. rewrite zdrop_0, Z.sub_0_r. destruct Hg as (_ & ? & _).
    split; [lia|]. split; reflexivity.
  - exists []. rewrite app_nil_r. auto.
Qed.

Lemma count_inside w : inside (countControlFrame w).2.1 = inside w.1.
Proof. reflexivity. Qed.

Lemma processPriority_consumes id w : 5 <= remain w.1 -> consumes w (processPriority id w).2.
Proof.
  intros Hr. eapply consumes_trans; [apply (consumes_take 5); lia|]. apply consumes_inside.
  unfold processPriority. cbn [moveTo]. set (c := set_iCurrentFrameRemain _ _).
  change (take_payload 5 w).1 with c. set (p := Priority _ _ _). destruct (_ =? id); [reflexivity|]. cbv zeta.
  set (w1 := (set_priority _ _, w.2)). assert (H1 : inside w1.1 = inside c) by reflexivity. clearbody w1.
  destruct (findStream id w1.1) as [s|]; [|exact H1]. destruct (s_flag s PRI_SET).
  - pose proof (count_inside w1) as Hc. destruct (countControlFrame w1) as [b w2]. cbn [snd] in Hc.
    destruct b; cbn [snd]; [congruence|]. rewrite <- H1, <- Hc. inner.
  - cbn [snd]. rewrite <- H1. cbn [on fst]. rewrite (inside_in (upd id (sset PRI_SET true) w1.1)); [reflexivity|]. apply apply_priority_in.
Qed.

Lemma decodeHeaders_consumes id b fl w : consumes w (decodeHeaders id b fl w).2.
Proof.
  eapply consumes_trans; [apply (consumes_log (EvHeaders id b fl) w); exact I|]. apply consumes_inside.
  unfold decodeHeaders. set (w1 := on (log _) w). clearbody w1. cbv zeta.
  destruct (getNewStream fl w1.1) as [c|] eqn:E; [|cbn [snd]; inner].
  assert (Hc : inside c = inside w1.1).
  { revert E. unfold getNewStream. destruct (_ >=? _); [discriminate|]. intros [= <-]. inner. }
  destruct (app_decode b w1.2) as [ok a]. destruct (negb ok); [cbn [snd]; rewrite doGoAway_inside; exact Hc|].
  set (w2 := on _ (c, a)). assert (H2 : inside w2.1 = inside c) by reflexivity. clearbody w2.
  set (sid := m_uiLastStreamId _). clearbody sid.
  destruct (deref sid w2.1) as [s|]; [|cbn; congruence]. destruct (s_flag s PEER_SHUTDOWN).
  - cbn [snd]. rewrite <- Hc, <- H2. cbn [on fst]. transitivity (inside (add2PriorityQue sid w2.1)); [reflexivity|]. inner.
  - pose proof (assign_inside sid w2) as Ha. destruct (assignStreamHandler sid w2) as [r w3]. cbn [snd] in *.
    rewrite recycle_unconnected_inside. destruct (wants_write sid w3.1); [cbn [on fst]; rewrite append_unlinked_inside|]; congruence.
Qed.

(** ** Every control frame's handler keeps to the frame's payload *)

Lemma processHeaderIn_consumes id fl w w' : good w -> processHeaderIn id fl w = (0, w') -> consumes w w'.
Proof.
  intros Hg. pose proof Hg as (_ & Hr & _ & Hp). unfold processHeaderIn. cbv zeta.
  set (n := if inSize w.1 <? remain w.1 - m_padLen (c_in w.1) then inSize w.1 else remain w.1 - m_padLen (c_in w.1)).
  assert (Hn : n <= remain w.1).
  { subst n. destruct (_ <? _) eqn:E; lia. } clearbody n.
  destruct (Z.leb_spec n 0).
  { destruct (negb _); [|intros [= <-]; apply consumes_refl].
    pose proof (count_inside w) as Hc. destruct (countControlFrame w) as [b w1]. cbn [snd] in Hc.
    destruct b; intros [= <-]. apply consumes_inside. exact Hc. }
  destruct (_ || _ || _).
  - set (w1 := on _ w). destruct (_ >? MAX_HTTP2_HEADERS_SIZE); [discriminate|].
    assert (E : exists l, set_remain (remain w1.1 - n) w1 = on (set_bufInflate l) (take_payload n w)) by (eexists; reflexivity).
    destruct E as [l ->]. set (w2 := on (set_bufInflate l) _).
    assert (H2 : consumes w w2).
    { eapply consumes_trans; [apply (consumes_take n); lia|apply consumes_inflate]. } clearbody w2.
    destruct (negb _); [intros [= <-]; exact H2|]. intros Hd.
    eapply consumes_trans; [exact H2|]. eapply consumes_trans; [apply consumes_inflate|].
    change w' with (0, w').2. rewrite <- Hd. apply decodeHeaders_consumes.
  - intros Hd. change w' with (0, w').2. rewrite <- Hd. apply decodeHeaders_consumes.
Qed.

Lemma processContinuation_consumes h w w' : good w -> processContinuationFrame h w = (0, w') -> consumes w w'.
Proof.
  intros Hg. unfold processContinuationFrame. destruct (flag w.1 GOAWAY); [intros [= <-]; apply consumes_refl|]. cbv zeta.
  destruct (_ || _); [discriminate|]. set (w1 := if has _ _ then _ else w).
  assert (H1 : inside w1.1 = inside w.1) by (subst w1; destruct (has _ _); reflexivity).
  pose proof (consumes_inside w w1 H1) as Hc. intros Hd. eapply consumes_trans; [exact Hc|].
  eapply processHeaderIn_consumes; [|exact Hd]. apply (cs_buf _ _ Hc). exact Hg.
Qed.

Lemma headers_payload_consumes id fl w w' : good w -> headers_payload id fl w = (0, w') -> consumes w w'.
Proof.
  intros Hg. pose proof Hg as (_ & Hr & _ & Hp). unfold headers_payload.
  destruct (has fl H2_FLAG_PRIORITY && (remain w.1 <? 5 + m_padLen (c_in w.1))) eqn:E; [discriminate|].
  set (x := if has fl H2_FLAG_PRIORITY then processPriority id w else _).
  assert (Hx : consumes w x.2).
  { subst x. destruct (has fl H2_FLAG_PRIORITY); [apply processPriority_consumes; lia|]. apply consumes_inside. reflexivity. }
  destruct x as [r w1]. cbn [snd] in Hx. destruct (negb (r =? 0)); [discriminate|]. cbv zeta.
  set (w2 := if negb _ then _ else w1).
  assert (H2 : consumes w1 w2) by (apply consumes_inside; subst w2; destruct (negb _); reflexivity). clearbody w2.
  intros Hd. pose proof (consumes_trans _ _ _ (consumes_trans _ _ _ Hx H2) (consumes_inflate [] w2)) as H3.
  eapply consumes_trans; [exact H3|]. eapply processHeaderIn_consumes; [|exact Hd]. apply (cs_buf _ _ H3 Hg).
Qed.

Lemma znth_byte {l i} : bytes_ok l -> 0 <= znth l i.
Proof.
  intros Hb. unfold znth. revert Hb. generalize (Z.to_nat i) as n. induction l as [|b l IH]; intros [|n] Hb; cbn; try lia;
    apply Forall_cons_1 in Hb as [Hb Hl]; [unfold is_byte in Hb; lia|apply IH; exact Hl].
Qed.

Lemma verifyStreamId_inside id w r w' : verifyStreamId id w = (r, w') -> r = LS_FAIL \/ inside w'.1 = inside w.1.
Proof.
  unfold verifyStreamId. repeat (destruct (_ =? _); [intros [= <- <-]; auto|]).
  destruct (_ <=? _); [destruct (findStream _ _); intros [= <- <-]; auto|intros [= <- <-]; auto].
Qed.

Lemma processHeaders_consumes h w w' : good w -> processHeadersFrame h w = (0, w') -> consumes w w'.
Proof.
  intros Hg. unfold processHeadersFrame. cbv zeta. destruct (flag w.1 GOAWAY); [intros [= <-]; apply consumes_refl|].
  destruct (verifyStreamId (getStreamId h) w) as [r w1] eqn:Ev. apply verifyStreamId_inside in Ev.
  destruct (Z.eqb_spec r LS_FAIL); [discriminate|]. destruct Ev as [?|H1]; [congruence|].
  apply consumes_inside in H1. pose proof (proj1 (cs_buf _ _ H1 Hg)) as Hg1.
  pose proof Hg1 as (Hok & Hr & Hb & Hp). destruct (has (getFlags h) H2_FLAG_PADDED).
  - set (pad := znth (inData w1.1) 0). pose proof (znth_byte Hb : 0 <= pad) as Hpad. clearbody pad.
    change (remain (on (set_padLen pad) w1).1) with (remain w1.1).
    destruct (Z.leb_spec (remain w1.1) (1 + pad)); [discriminate|]. set (w2 := on _ (on (set_padLen pad) w1)).
    assert (H2 : consumes w1 w2).
    { eapply consumes_trans; [apply (consumes_pad pad w1 Hpad)|].
      replace w2 with (take_payload 1 (on (set_padLen pad) w1)).
      - apply consumes_take. change (remain (on (set_padLen pad) w1).1) with (remain w1.1). lia.
      - subst w2. unfold take_payload, on. f_equal. cbn [fst].
        change (inSize (set_padLen pad w1.1)) with (inSize w1.1). rewrite Z.min_l by lia. reflexivity. }
    clearbody w2. intros Hd. eapply consumes_trans; [exact H1|]. eapply consumes_trans; [exact H2|].
    eapply headers_payload_consumes; [|exact Hd]. apply (cs_buf _ _ H2 Hg1).
  - intros Hd. pose proof (consumes_pad 0 w1 ltac:(lia)) as H2. eapply consumes_trans; [exact H1|]. eapply consumes_trans; [exact H2|].
    eapply headers_payload_consumes; [|exact Hd]. apply (cs_buf _ _ H2 Hg1).
Qed.

(** The entries of a SETTINGS payload ask for legal initial windows. *)
Fixpoint settings_valid (n : nat) (p : list Z) : bool :=
  match n with
  | O => true
  | S n =>
      (negb (Z.lor (Z.shiftl (znth p 0) 8) (znth p 1) =? H2_SETTINGS_INITIAL_WINDOW_SIZE)
       || (beReadUint32 (zdrop 2 (ztake 6 p)) <=? H2_FCW_MAX_SIZE))
      && settings_valid n (zdrop 6 p)
  end.

Lemma setting_inside id v d w r : setting id v d w = inr r -> inside r.2.1 = inside w.1.
Proof.
  unfold setting. repeat (destruct (_ =? _); [destruct (_ || _) || destruct (_ >? _); [discriminate|intros [= <-]; reflexivity]|]).
  intros [= <-]. reflexivity.
Qed.

Lemma setting_exit id v d w r w' : setting id v d w = inl (r, w') ->
  r <> 0 \/ id = H2_SETTINGS_INITIAL_WINDOW_SIZE /\ v > H2_FCW_MAX_SIZE.
Proof.
  unfold setting. destruct (Z.eqb_spec id H2_SETTINGS_HEADER_TABLE_SIZE).
  { destruct (_ >? _); [intros [= <- <-]; left; discriminate|discriminate]. }
  destruct (Z.eqb_spec id H2_SETTINGS_MAX_FRAME_SIZE).
  { destruct (_ || _); [intros [= <- <-]; left; discriminate|discriminate]. }
  destruct (Z.eqb_spec id H2_SETTINGS_INITIAL_WINDOW_SIZE).
  { destruct (Z.gtb_spec v H2_FCW_MAX_SIZE); [intros [= <- <-]; right; split; [assumption|lia]|discriminate]. }
  destruct (_ =? _); [|discriminate]. destruct (_ >? _); [intros [= <- <-]; left; discriminate|discriminate].
Qed.

Lemma inside_fields c c' : inside c' = inside c ->
  m_bufInput (c_in c') = m_bufInput (c_in c) /\ m_bufInflate (c_in c') = m_bufInflate (c_in c) /\ remain c' = remain c /\
  m_curH2Header (c_in c') = m_curH2Header (c_in c) /\ m_inputState (c_in c') = m_inputState (c_in c) /\
  m_padLen (c_in c') = m_padLen (c_in c) /\ netIn (c_in c') = netIn (c_in c) /\ trace (c_in c') = trace (c_in c).
Proof. unfold inside. intros E. injection E as E1 E2 E3 E4 E5 E6 E7 E8. repeat split; assumption. Qed.

Lemma inside_set_buf q c c' : inside c' = inside c -> inside (set_bufInput q c') = inside (set_bufInput q c).
Proof. intros E. apply inside_fields in E as (_ & E2 & E3 & E4 & E5 & E6 & E7 & E8). unfold inside, remain in *. cbn. congruence. Qed.

Lemma settings_loop_spec n : forall d w, in_ok w -> 6 * Z.of_nat n <= inSize w.1 -> settings_valid n (inData w.1) = true ->
  match settings_loop n d w with
  | inl (r, _) => r <> 0
  | inr (_, w') => exists q, bq_ok q /\ bq_data q = zdrop (6 * Z.of_nat n) (inData w.1) /\
                     inside w'.1 = inside (set_bufInput q w.1)
  end.
Proof.
  induction n as [|n IH]; intros d w Hok Hs Hv; cbn [settings_loop].
  - exists (m_bufInput (c_in w.1)). rewrite zdrop_0. split_and!; auto.
  - cbn [settings_valid] in Hv. apply andb_true_iff in Hv as [Hv1 Hv2]. unfold moveTo. rewrite Z.min_l by lia.
    set (p := ztake 6 (inData w.1)) in *.
    assert (Hp : znth p 0 = znth (inData w.1) 0 /\ znth p 1 = znth (inData w.1) 1) by (split; apply znth_ztake; lia).
    destruct Hp as [-> ->]. set (w1 := (pop_front 6 w.1, w.2)).
    destruct (bq_pop_ok 6 _ Hok ltac:(lia)) as [Hq Hqd].
    destruct (setting _ _ d w1) as [[r w2]|[d2 w2]] eqn:Es.
    + apply setting_exit in Es as [?|[Hid Hbig]]; [assumption|]. exfalso. lia.
    + apply setting_inside in Es. cbn [snd] in Es. pose proof Es as Es'. unfold inside in Es'. injection Es' as E1 _ _ _ _ _ _ _.
      assert (Hi2 : inData w2.1 = zdrop 6 (inData w.1)) by (unfold inData; rewrite E1; exact Hqd).
      assert (Hok2 : in_ok w2) by (unfold in_ok; rewrite E1; exact Hq).
      specialize (IH d2 w2 Hok2). unfold inSize in *. rewrite Hi2, zlen_zdrop in IH by lia.
      specialize (IH ltac:(lia) Hv2). destruct (settings_loop n d2 w2) as [[r w3]|[d3 w3]]; [exact IH|].
      destruct IH as (q & Hqo & Hqd' & Hin). exists q. split_and!; [exact Hqo| |].
      * rewrite Hqd', zdrop_zdrop by lia. f_equal. lia.
      * rewrite Hin. apply (inside_set_buf q) in Es. rewrite Es. reflexivity.
Qed.

Lemma consumes_buf k q w : 0 <= k <= remain w.1 -> bq_ok q -> bq_data q = zdrop k (inData w.1) ->
  consumes w (set_remain (remain w.1 - k) (on (set_bufInput q) w)).
Proof.
  intros Hk Hq Hd. split; auto; [|exists []; rewrite app_nil_r; auto].
  intros (Hok & Hr & Hb & Hp). unfold good, in_ok, inSize, inData at 1 2 3, remain at 1 2 4. cbn. rewrite Hd.
  split; [|exists k; split_and!; auto; lia]. split; [exact Hq|]. rewrite zlen_zdrop by lia. unfold inSize in Hr.
  split; [lia|]. split; [apply bytes_ok_zdrop; exact Hb|exact Hp].
Qed.

Lemma fold_adjWindow_in d ids : forall c, c_in (fold_left (fun c id => (adjWindowOut id d c).2) ids c) = c_in c.
Proof. induction ids as [|id ids IH]; intros c; cbn; [reflexivity|]. rewrite IH. apply adjWindowOut_in. Qed.

Lemma processSetting_consumes h w w' :
  good w -> settings_valid (Z.to_nat (remain w.1 / 6)) (inData w.1) = true ->
  processSettingFrame h w = (0, w') -> consumes w w'.
Proof.
  intros Hg Hv. pose proof Hg as (Hok & Hr & _). unfold processSettingFrame.
  destruct (negb _); [intros [= <-]; apply consumes_inside, doGoAway_inside|]. cbv zeta.
  destruct (Z.eqb_spec (remain w.1 mod 6) 0) as [Hm|]; cbn [negb]; [|intros [= <-]; apply consumes_inside, doGoAway_inside].
  destruct (has _ _).
  { destruct (negb _); [discriminate|]. destruct (flag _ _); [intros [= <-]; apply consumes_inside; reflexivity|discriminate]. }
  pose proof (Z.div_mod (remain w.1) 6 ltac:(lia)) as Hdm. pose proof (Z.div_pos (remain w.1) 6 ltac:(lia) ltac:(lia)).
  pose proof (settings_loop_spec (Z.to_nat (remain w.1 / 6)) 0 w Hok ltac:(lia) Hv) as Hl.
  destruct (settings_loop _ 0 w) as [[r w1]|[d w1]]; [intros [= -> <-]; congruence|].
  destruct Hl as (q & Hq & Hqd & Hin). replace (6 * Z.of_nat (Z.to_nat (remain w.1 / 6))) with (remain w.1) in Hqd by lia.
  pose proof (consumes_buf (remain w.1) q w ltac:(lia) Hq Hqd) as Hc. rewrite Z.sub_diag in Hc.
  set (w2 := on (set_flag SETTING_RCVD) (set_remain 0 w1)).
  assert (H2 : consumes w w2).
  { eapply consumes_trans; [exact Hc|]. apply consumes_inside. subst w2. apply inside_fields in Hin as (F1 & F2 & _ & F4 & F5 & F6 & F7 & F8).
    unfold inside. cbn in *. congruence. }
  clearbody w2. pose proof (count_inside w2) as H3. destruct (countControlFrame w2) as [b w3]. cbn [snd] in H3.
  destruct b; [discriminate|]. set (w4 := on _ w3).
  assert (H4 : inside w4.1 = inside w3.1).
  { subst w4. apply inside_in. cbn [on fst]. unfold sendFrame0Bytes. rewrite guaranteeOutput_in. apply sendSettingsFrame_in. }
  clearbody w4. intros Hd. eapply consumes_trans; [exact H2|]. apply consumes_inside. rewrite <- H3, <- H4.
  destruct (negb _); injection Hd as <-; [|reflexivity]. apply inside_in, fold_adjWindow_in.
Qed.

Lemma take4 w : 4 <= inSize w.1 -> (set_iCurrentFrameRemain (remain (pop_front 4 w.1) - 4) (pop_front 4 w.1), w.2) = take_payload 4 w.
Proof. intros. unfold take_payload, on. rewrite Z.min_l by lia. reflexivity. Qed.

Lemma consumes_remain0 w w1 : consumes w w1 -> good w -> remain w1.1 = 0 -> consumes w (set_remain 0 w1).
Proof.
  intros Hc Hg Hr. eapply consumes_trans; [exact Hc|]. apply consumes_inside. unfold inside, set_remain, remain in *. cbn. rewrite Hr. reflexivity.
Qed.

Lemma remain_inside c c' : inside c' = inside c -> remain c' = remain c.
Proof. intros E. apply inside_fields in E. tauto. Qed.

Lemma processWindowUpdate_consumes h w w' :
  good w -> remain w.1 = 4 -> processWindowUpdateFrame h w = (0, w') -> consumes w w'.
Proof.
  intros Hg Hr4. pose proof Hg as (_ & Hr & _). unfold processWindowUpdateFrame, moveTo.
  rewrite Z.min_l by lia. rewrite take4 by lia. pose proof (consumes_take 4 w ltac:(lia)) as H1.
  assert (Hr1 : remain (take_payload 4 w).1 = 0) by (unfold take_payload, remain in *; cbn; lia).
  set (w1 := take_payload 4 w) in *. clearbody w1. set (delta := Z.land _ _). set (id := getStreamId h).
  assert (Hfin : forall w2, inside w2.1 = inside w1.1 -> consumes w w2 /\ consumes w (set_remain 0 w2)).
  { intros w2 H2. assert (Hc : consumes w w2) by (eapply consumes_trans; [exact H1|apply consumes_inside; exact H2]).
    split; [exact Hc|]. apply consumes_remain0; auto. rewrite (remain_inside _ _ H2). exact Hr1. }
  destruct (delta =? 0).
  { intros [= <-]. apply Hfin. destruct (negb _); [apply resetStream_inside|apply doGoAway_inside]. }
  destruct (if delta <? 10 then countControlFrame w1 else (false, w1)) as [b w2] eqn:E2.
  assert (H2 : inside w2.1 = inside w1.1).
  { destruct (delta <? 10); [|injection E2 as <- <-; reflexivity]. injection E2 as _ <-. reflexivity. }
  destruct b; [discriminate|]. destruct (id =? 0).
  - destruct (_ >? 2147483647); intros [= <-]; apply Hfin; [rewrite doGoAway_inside; exact H2|].
    destruct (_ && _); [rewrite onWriteEx2_inside|]; exact H2.
  - destruct (findStream id w2.1) as [s|].
    + pose proof (inside_in _ _ (adjWindowOut_in id delta w2.1)) as Ha. destruct (adjWindowOut id delta w2.1) as [r c]. cbn [snd] in Ha.
      destruct (r <? 0); [intros [= <-]; apply Hfin; rewrite resetStream_inside; cbn [fst]; congruence|].
      destruct (deref id (c, w2.2).1) as [s1|]; intros [= <-]; apply Hfin; [|cbn [fst]; congruence].
      destruct (_ <=? delta); [|cbn [fst]; congruence]. rewrite <- H2, <- Ha. apply inside_in. apply stream_continueWrite_in.
    + destruct (_ =? 1); [|discriminate]. destruct (_ >? _); [discriminate|]. intros [= <-]. apply Hfin. exact H2.
Qed.

Lemma processRst_consumes h w w' : good w -> remain w.1 = 4 -> processRstFrame h w = (0, w') -> consumes w w'.
Proof.
  intros Hg Hr4. pose proof Hg as (_ & Hr & _). unfold processRstFrame. cbv zeta.
  destruct (_ =? 0); [discriminate|]. destruct (_ && _); [discriminate|]. destruct (_ =? 0); [discriminate|].
  destruct (findStream _ _); [|intros [= <-]; apply consumes_refl].
  set (w1 := on _ w). assert (H1 : inside w1.1 = inside w.1) by reflexivity.
  assert (Hs1 : inSize w1.1 = inSize w.1) by reflexivity. assert (Hr1 : remain w1.1 = remain w.1) by reflexivity.
  clearbody w1. destruct (_ && _); [discriminate|]. unfold moveTo. rewrite Z.min_l by lia. rewrite take4 by lia.
  intros [= <-]. eapply consumes_trans; [apply (consumes_inside _ _ H1)|].
  eapply consumes_trans; [apply (consumes_take 4); lia|]. apply consumes_inside. rewrite onPeerClose_inside. reflexivity.
Qed.

Lemma processPing_consumes h w w' : good w -> remain w.1 = 8 -> processPingFrame h w = (0, w') -> consumes w w'.
Proof.
  intros Hg Hr8. pose proof Hg as (_ & Hr & _). unfold processPingFrame, moveTo.
  destruct (negb _); [discriminate|]. destruct (_ || _); [|intros [= <-]; apply consumes_inside; reflexivity].
  change H2_PING_FRAME_PAYLOAD_SIZE with 8. rewrite Z.min_l by lia.
  assert (E : (set_iCurrentFrameRemain (remain (pop_front 8 w.1) - 8) (pop_front 8 w.1), w.2) = take_payload 8 w)
    by (unfold take_payload, on; rewrite Z.min_l by lia; reflexivity).
  cbv zeta. rewrite E. pose proof (consumes_take 8 w ltac:(lia)) as H1. set (w1 := take_payload 8 w) in *. clearbody w1.
  destruct (has _ _); [intros [= <-]; exact H1|]. pose proof (count_inside w1) as Hc.
  destruct (countControlFrame w1) as [b w2]. cbn [snd] in Hc. destruct b; [discriminate|]. intros [= <-].
  eapply consumes_trans; [exact H1|]. apply consumes_inside. rewrite <- Hc. apply inside_in. apply sendPingFrame_in.
Qed.

Lemma processGoAway_consumes h w w' : processGoAwayFrame h w = (0, w') -> consumes w w'.
Proof.
  unfold processGoAwayFrame. destruct (_ <? 8); [discriminate|]. cbv zeta. intros [= <-]. apply consumes_inside.
  rewrite conn_onCloseEx_inside. transitivity (inside (if negb (flag w.1 GOAWAY) then
    doGoAway (if negb (getStreamId h =? 0) then H2_ERROR_PROTOCOL_ERROR else H2_ERROR_NO_ERROR) w else w).1); [reflexivity|].
  destruct (negb _); [apply doGoAway_inside|reflexivity].
Qed.

Lemma processPriorityFrame_consumes h w w' : 5 <= remain w.1 -> processPriorityFrame h w = (0, w') -> consumes w w'.
Proof.
  intros Hr. unfold processPriorityFrame. destruct (_ =? 0); [discriminate|].
  pose proof (processPriority_consumes (getStreamId h) w Hr) as Hc. destruct (processPriority _ w) as [r w1]. cbn [snd] in Hc.
  destruct (negb _); [discriminate|]. intros [= <-]. exact Hc.
Qed.

(** A control frame whose payload is in the buffer is handed
    to its handler once, and the handler takes at most the payload. *)
Lemma processFrame_consumes h w w' :
  good w -> getLength h = remain w.1 -> 0 <= getType h ->
  (getType h = H2_FRAME_SETTINGS -> settings_valid (Z.to_nat (remain w.1 / 6)) (inData w.1) = true) ->
  processFrame h w = (0, w') ->
  consumes (on (log (EvFrame h (ztake (remain w.1) (inData w.1)))) w) w'.
Proof.
  intros Hg Hl Ht0 Hset. unfold processFrame. cbv zeta. set (w1 := on _ w).
  assert (Hg1 : good w1) by exact Hg. assert (Hr1 : remain w1.1 = remain w.1) by reflexivity.
  assert (Hd1 : inData w1.1 = inData w.1) by reflexivity. clearbody w1. rewrite <- Hr1, <- Hd1 in *. clear Hr1 Hd1 Hg w.
  destruct (_ && _ && _) eqn:Ereq; [discriminate|].
  assert (Hreq : forall t n, getType h = t -> requiredLength t = n -> 0 <= t < 10 -> n <> 0 -> remain w1.1 = n).
  { intros t n Et En Htr Hn. rewrite <- Hl. rewrite <- Et in *. unfold H2_FRAME_MAX_TYPE in Ereq. rewrite En in Ereq. lia. }
  destruct (Z.eqb_spec (getType h) H2_FRAME_HEADERS); [apply processHeaders_consumes; assumption|].
  destruct (Z.eqb_spec (getType h) H2_FRAME_PRIORITY).
  { apply processPriorityFrame_consumes. rewrite (Hreq 2 5); auto; lia. }
  destruct (Z.eqb_spec (getType h) H2_FRAME_RST_STREAM).
  { apply processRst_consumes; [assumption|]. apply (Hreq 3); auto; lia. }
  destruct (Z.eqb_spec (getType h) H2_FRAME_SETTINGS); [apply processSetting_consumes; auto|].
  destruct (Z.eqb_spec (getType h) H2_FRAME_PUSH_PROMISE).
  { intros [= <-]. apply consumes_inside, doGoAway_inside. }
  destruct (Z.eqb_spec (getType h) H2_FRAME_GOAWAY); [apply processGoAway_consumes|].
  destruct (Z.eqb_spec (getType h) H2_FRAME_WINDOW_UPDATE).
  { apply processWindowUpdate_consumes; [assumption|]. apply (Hreq 8); auto; lia. }
  destruct (Z.eqb_spec (getType h) H2_FRAME_CONTINUATION); [apply processContinuation_consumes; assumption|].
  destruct (Z.eqb_spec (getType h) H2_FRAME_PING).
  { apply processPing_consumes; [assumption|]. apply (Hreq 6); auto; lia. }
  intros [= <-]. apply consumes_refl.
Qed.

(** ** DATA payloads *)

(** [w'] is [w] after [k] bytes of a DATA payload were taken from the buffer,
    of which stream [id] got the pieces [ds]. *)
Record data_taken (id k : Z) (ds : list (list Z)) (w w' : W) : Prop := {
  dt_ok : in_ok w -> in_ok w' /\ inData w'.1 = zdrop k (inData w.1);
  dt_remain : remain w'.1 = remain w.1 - k;
  dt_pad : m_padLen (c_in w'.1) = m_padLen (c_in w.1);
  dt_head : m_curH2Header (c_in w'.1) = m_curH2Header (c_in w.1);
  dt_net : netIn (c_in w'.1) = netIn (c_in w.1);
  dt_current : m_current (c_in w'.1) = m_current (c_in w.1);
  dt_trace : trace (c_in w'.1) = trace (c_in w.1) ++ map (EvData id) ds;
  dt_rest : c_flow w'.1 = c_flow w.1 /\ c_out w'.1 = c_out w.1 /\ c_cnt w'.1 = c_cnt w.1 /\ m_h2flag w'.1 = m_h2flag w.1 /\ w'.2 = w.2;
  dt_other : forall j, j <> id -> deref j w'.1 = deref j w.1;
  dt_stream : forall s, deref id w.1 = Some s -> bq_ok (m_bufRcvd s) -> exists q n,
    deref id w'.1 = Some (set_bufRcvd q (set_s_bytesRecv n s)) /\ bq_ok q /\
    bq_data q = bq_data (m_bufRcvd s) ++ concat ds /\ n = s_bytesRecv s + zlen (concat ds) }.

Lemma data_taken_0 id w : data_taken id 0 [] w w.
Proof.
  split; auto.
  - lia.
  - rewrite app_nil_r. reflexivity.
  - intros s Hs Hq. exists (m_bufRcvd s), (s_bytesRecv s). rewrite app_nil_r. change (zlen (concat [])) with 0.
    split_and!; auto; [|lia]. rewrite Hs. destruct s; reflexivity.
Qed.

Lemma data_taken_trans id k1 k2 d1 d2 w1 w2 w3 : 0 <= k1 -> 0 <= k2 ->
  data_taken id k1 d1 w1 w2 -> data_taken id k2 d2 w2 w3 -> data_taken id (k1 + k2) (d1 ++ d2) w1 w3.
Proof.
  intros Hk1 Hk2 [O1 R1 P1 H1 N1 C1 T1 E1 J1 S1] [O2 R2 P2 H2 N2 C2 T2 E2 J2 S2]. split; try congruence.
  - intros Hok. destruct (O1 Hok) as [Hok1 D1]. destruct (O2 Hok1) as [Hok2 D2]. split; [exact Hok2|].
    rewrite D2, D1. apply zdrop_zdrop; lia.
  - lia.
  - rewrite T2, T1, map_app, app_assoc. reflexivity.
  - intuition congruence.
  - intros j Hj. rewrite J2, J1 by exact Hj. reflexivity.
  - intros s Hs Hq. destruct (S1 s Hs Hq) as (q1 & n1 & Hs1 & Hq1 & Hd1 & ->).
    destruct (S2 _ Hs1 Hq1) as (q2 & n2 & Hs2 & Hq2 & Hd2 & ->). cbn in Hd2, Hs2 |- *.
    exists q2, (s_bytesRecv s + zlen (concat (d1 ++ d2))). rewrite concat_app, zlen_app.
    split_and!; auto; [|rewrite Hd2, Hd1, app_assoc; reflexivity].
    rewrite Hs2, Z.add_assoc. reflexivity.
Qed.

(** Skipping bytes of the payload. *)
Lemma data_skip id k w : 0 <= k -> data_taken id k [] w (on (pop_front k) (set_remain (remain w.1 - k) w)).
Proof.
  intros Hk. destruct (data_taken_0 id w) as [O R P H N C T E J S]. split; try assumption; [|reflexivity].
  intros Hok. destruct (bq_pop_ok k _ Hok Hk) as [Hq Hd]. split; [exact Hq|exact Hd].
Qed.

Lemma processRcvdData_ret id d w : processRcvdData id d w = (zlen d, (processRcvdData id d w).2).
Proof. unfold processRcvdData. destruct (_ >? 0); reflexivity. Qed.

Lemma processRcvdData_state id d w : m_inputState (c_in (processRcvdData id d w).2.1) = m_inputState (c_in w.1).
Proof. unfold processRcvdData. destruct (_ >? 0); reflexivity. Qed.

Definition set_c_in_deliver (len n : Z) (e : event) (x : input Q) : input Q :=
  Input (bq_pop len (m_bufInput x)) (m_bufInflate x) n (m_curH2Header x) (m_inputState x) (m_padLen x) (m_current x)
    (netIn x) (trace x ++ [e]).

(** Handing a piece of the payload to the stream and taking it. *)
Lemma data_deliver id len d w w0 : 0 <= len -> 0 < zlen d -> c_in w0.1 = c_in (set_inputState (m_inputState (c_in w0.1)) w.1) ->
  w0.2 = w.2 -> (c_out w0.1, c_flow w0.1, c_cnt w0.1, m_h2flag w0.1, m_mapStream w0.1) =
    (c_out w.1, c_flow w.1, c_cnt w.1, m_h2flag w.1, m_mapStream w.1) ->
  data_taken id len [d] w
    (on (pop_front len) (processRcvdData id d (on (bytesRecv id (zlen d)) (set_remain (remain w.1 - len) w0))).2).
Proof.
  intros Hl Hd Hin Ha [= E1 E2 E3 E4 E5]. unfold processRcvdData. replace (zlen d >? 0) with true by lia. cbn [snd].
  set (w1 := on (pop_front len) _).
  assert (I : c_in w1.1 = set_c_in_deliver len (remain w.1 - len) (EvData id d) (c_in w0.1)) by reflexivity.
  assert (M : m_mapStream w1.1 = alter (fun s => set_bufRcvd (bq_append d (m_bufRcvd s)) s) id
    (alter (fun s => set_s_bytesRecv (s_bytesRecv s + zlen d) s) id (m_mapStream w.1))) by (rewrite <- E5; reflexivity).
  assert (R : c_flow w1.1 = c_flow w.1 /\ c_out w1.1 = c_out w.1 /\ c_cnt w1.1 = c_cnt w.1 /\ m_h2flag w1.1 = m_h2flag w.1 /\ w1.2 = w.2)
    by (rewrite <- E1, <- E2, <- E3, <- E4, <- Ha; auto).
  clearbody w1. rewrite Hin in I. clear Hin E1 E2 E3 E4 E5. split.
  - intros Hok. destruct (bq_pop_ok len _ Hok Hl) as [Hq Hqd]. unfold in_ok, inData. rewrite I. split; [exact Hq|exact Hqd].
  - unfold remain. rewrite I. reflexivity.
  - rewrite I. reflexivity.
  - rewrite I. reflexivity.
  - rewrite I. reflexivity.
  - rewrite I. reflexivity.
  - rewrite I. reflexivity.
  - exact R.
  - intros j Hj. unfold deref. rewrite M, !lookup_alter_ne by congruence. reflexivity.
  - intros s Hs Hq. destruct (bq_append_ok d _ Hq) as [Hqa Hqd].
    exists (bq_append d (m_bufRcvd s)), (s_bytesRecv s + zlen d). rewrite Hqd. cbn [concat]. rewrite app_nil_r. split_and!; auto.
    unfold deref in *. rewrite M, !lookup_alter_eq, Hs. reflexivity.
Qed.

Definition payload_room (w : W) : Z :=
  if decide (m_inputState (c_in w.1) = ST_DATA_PAYLOAD) then remain w.1 - m_padLen (c_in w.1) else 0.

(** The loop takes what the buffer has of the payload; the stream gets all of
    it but the padding, as long as it is in the payload. *)
Lemma data_loop_spec id : forall fuel w, in_ok w -> 0 <= remain w.1 -> 0 <= m_padLen (c_in w.1) ->
  (m_inputState (c_in w.1) = ST_DATA_PAYLOAD -> m_padLen (c_in w.1) < remain w.1) ->
  (length (inData w.1) < fuel)%nat ->
  exists w' ds, data_loop fuel id w = (inSize w.1 <? remain w.1, w') /\
    data_taken id (Z.min (remain w.1) (inSize w.1)) ds w w' /\
    concat ds = ztake (Z.min (inSize w.1) (payload_room w)) (inData w.1) /\ Forall (fun d => d <> []) ds.
Proof.
  induction fuel as [|fuel IH]; intros w Hok Hr Hp Hst Hf; [lia|]. cbn [data_loop].
  pose proof (zlen_nonneg (inData w.1)) as Hz. fold (inSize w.1) in Hz.
  destruct (bq_block_ok _ Hok) as [Hb Hb0]. fold (inData w.1) in Hb, Hb0. fold (inSize w.1) in Hb.
  assert (Hstop : forall b, b = (inSize w.1 <? remain w.1) -> Z.min (remain w.1) (inSize w.1) = 0 ->
    exists w' ds, (b, w) = (inSize w.1 <? remain w.1, w') /\
      data_taken id (Z.min (remain w.1) (inSize w.1)) ds w w' /\
      concat ds = ztake (Z.min (inSize w.1) (payload_room w)) (inData w.1) /\ Forall (fun d => d <> []) ds).
  { intros b -> Hk. exists w, []. rewrite Hk. split_and!; auto; [apply data_taken_0|].
    symmetry. unfold payload_room, ztake. case_decide as Hd; [specialize (Hst Hd)|];
      replace (Z.to_nat _) with 0%nat by lia; reflexivity. }
  destruct (Z.gtb_spec (remain w.1) 0) as [Hr0|]; [|apply Hstop; lia].
  destruct (Z.eqb_spec (bq_block (m_bufInput (c_in w.1))) 0) as [Hbz|Hbz].
  { assert (He : inSize w.1 = 0) by (unfold inSize; destruct (inData w.1); [reflexivity|specialize (Hb0 ltac:(discriminate)); lia]).
    apply Hstop; lia. }
  set (len := if bq_block (m_bufInput (c_in w.1)) >=? remain w.1 then remain w.1 else bq_block (m_bufInput (c_in w.1))).
  assert (Hlen : 0 < len <= remain w.1 /\ len <= inSize w.1) by (subst len; destruct (_ >=? _) eqn:E; lia).
  clearbody len. clear Hb Hb0 Hbz Hstop.
  set (room := payload_room w) in *.
  assert (Hstep : forall w1 d, data_taken id len d w w1 -> concat d = ztake (Z.min len room) (inData w.1) ->
    Forall (fun d => d <> []) d ->
    (0 < room -> len < room -> payload_room w1 = room - len) -> (room <= len -> payload_room w1 <= 0) ->
    (m_inputState (c_in w1.1) = ST_DATA_PAYLOAD -> m_padLen (c_in w1.1) < remain w1.1) ->
    exists w' ds, data_loop fuel id w1 = (inSize w.1 <? remain w.1, w') /\
      data_taken id (Z.min (remain w.1) (inSize w.1)) ds w w' /\
      concat ds = ztake (Z.min (inSize w.1) room) (inData w.1) /\ Forall (fun d => d <> []) ds).
  { intros w1 d H1 Hd Hne Hroom1 Hroom2 Hst1. destruct (dt_ok _ _ _ _ _ H1 Hok) as [Hok1 Hd1].
    pose proof (dt_remain _ _ _ _ _ H1) as Hr1. pose proof (dt_pad _ _ _ _ _ H1) as Hp1.
    assert (Hs1 : inSize w1.1 = inSize w.1 - len) by (unfold inSize in *; rewrite Hd1, zlen_zdrop; lia).
    destruct (IH w1 Hok1) as (w' & ds & E & Hdt & Hcat & Hne2); [lia|lia|exact Hst1| |].
    { unfold inSize, zlen in *. lia. }
    exists w', (d ++ ds). rewrite E. split_and!.
    - f_equal. lia.
    - replace (Z.min (remain w.1) (inSize w.1)) with (len + Z.min (remain w1.1) (inSize w1.1)) by lia.
      eapply data_taken_trans; eauto; lia.
    - rewrite concat_app, Hd, Hcat, Hd1. destruct (Z.leb_spec room len) as [Hc|Hc].
      + rewrite (ztake_neg (Z.min (inSize w1.1) _)), app_nil_r by lia. f_equal. lia.
      + rewrite Hroom1, Z.min_l, (ztake_split len (Z.min (inSize w.1) room)) by lia. do 2 f_equal. lia.
    - apply Forall_app. auto. }
  destruct (decide (m_inputState (c_in w.1) = ST_DATA_PAYLOAD)) as [Hpay|Hpay].
  - assert (Hroom : room = remain w.1 - m_padLen (c_in w.1)) by (subst room; unfold payload_room; rewrite decide_True by exact Hpay; reflexivity).
    specialize (Hst Hpay). assert (Hn : forall n, 0 < n <= len -> zlen (ztake n (inData w.1)) = n).
    { intros n Hn. unfold inSize in Hlen. rewrite zlen_ztake; lia. }
    destruct (Z.geb_spec len (remain w.1 - m_padLen (c_in w.1))) as [Hge|Hlt]; rewrite processRcvdData_ret.
    + rewrite Hn by lia. unfold LS_FAIL. replace (_ =? -1) with false by lia.
      pose proof (data_deliver id len (ztake (remain w.1 - m_padLen (c_in w.1)) (inData w.1)) w (on (set_inputState ST_SKIP_REMAIN) w)
        ltac:(lia) ltac:(rewrite Hn; lia) eq_refl eq_refl eq_refl) as Hdv. rewrite Hn in Hdv by lia.
      apply (Hstep _ _ Hdv).
      * cbn [concat]. rewrite app_nil_r. f_equal. lia.
      * repeat constructor. intros He. specialize (Hn (remain w.1 - m_padLen (c_in w.1)) ltac:(lia)). rewrite He in Hn. change (zlen []) with 0 in Hn. lia.
      * lia.
      * intros _. unfold payload_room. rewrite decide_False; [lia|]. cbn [on fst].
        match goal with |- m_inputState (c_in (pop_front len ?x)) <> _ => change (m_inputState (c_in x) <> ST_DATA_PAYLOAD) end.
        rewrite processRcvdData_state. discriminate.
      * cbn [on fst]. match goal with |- m_inputState (c_in (pop_front len ?x)) = _ -> _ => change (m_inputState (c_in x) = ST_DATA_PAYLOAD -> m_padLen (c_in x) < remain x) end.
        rewrite processRcvdData_state. discriminate.
    + rewrite Hn by lia. unfold LS_FAIL. replace (_ =? -1) with false by lia.
      pose proof (data_deliver id len (ztake len (inData w.1)) w w
        ltac:(lia) ltac:(rewrite Hn; lia) ltac:(destruct w as [[[] ? ? ? ? ? ? ?] ?]; reflexivity) eq_refl eq_refl) as Hdv. rewrite Hn in Hdv by lia.
      apply (Hstep _ _ Hdv).
      * cbn [concat]. rewrite app_nil_r. f_equal. lia.
      * repeat constructor. intros He. specialize (Hn len ltac:(lia)). rewrite He in Hn. change (zlen []) with 0 in Hn. lia.
      * intros _ _. unfold payload_room. rewrite (dt_pad _ _ _ _ _ Hdv), (dt_remain _ _ _ _ _ Hdv), decide_True; [lia|].
        cbn [on fst]. match goal with |- m_inputState (c_in (pop_front len ?x)) = _ => change (m_inputState (c_in x) = ST_DATA_PAYLOAD) end.
        rewrite processRcvdData_state. exact Hpay.
      * lia.
      * intros _. rewrite (dt_pad _ _ _ _ _ Hdv), (dt_remain _ _ _ _ _ Hdv). lia.
  - assert (Hroom : room = 0) by (subst room; unfold payload_room; rewrite decide_False by exact Hpay; reflexivity).
    apply (Hstep _ []); [apply data_skip; lia| |constructor|lia| |intros He; destruct (Hpay He)].
    + rewrite (ztake_neg (Z.min len room)) by lia. reflexivity.
    + intros _. unfold payload_room. rewrite decide_False by exact Hpay. lia.
Qed.

(** [w'] is [w] but for events in the log the dispatching is not read off. *)
Definition logs (w w' : W) : Prop :=
  exists extra, Forall aux_event extra /\ inside w'.1 = inside (set_trace (trace (c_in w.1) ++ extra) w.1).

Lemma logs_inside w w' : inside w'.1 = inside w.1 -> logs w w'.
Proof. intros E. exists []. rewrite app_nil_r. auto. Qed.

Lemma logs_log e w : aux_event e -> logs w (on (log e) w).
Proof. intros He. exists [e]. auto. Qed.

Lemma inside_set_trace l c c' : inside c' = inside c -> inside (set_trace l c') = inside (set_trace l c).
Proof. intros E. apply inside_fields in E as (E1 & E2 & E3 & E4 & E5 & E6 & E7 & _). unfold inside, remain in *. cbn. congruence. Qed.

Lemma logs_trans w1 w2 w3 : logs w1 w2 -> logs w2 w3 -> logs w1 w3.
Proof.
  intros (e1 & F1 & E1) (e2 & F2 & E2). exists (e1 ++ e2). split; [apply Forall_app; auto|].
  rewrite E2. apply (inside_set_trace (trace (c_in w2.1) ++ e2)) in E1 as E1'. rewrite E1'.
  apply inside_fields in E1 as (_ & _ & _ & _ & _ & _ & _ & ->). cbn [set_trace c_in trace set_c_in]. rewrite app_assoc. reflexivity.
Qed.

Lemma onPeerShutdown_logs id w : logs w (onPeerShutdown id w).2.
Proof.
  unfold onPeerShutdown. cbv zeta. set (w1 := on (log (EvFin id)) _).
  eapply (logs_trans w w1).
  { exists [EvFin id]. split; [repeat constructor; exact I|reflexivity]. }
  apply logs_inside. clearbody w1.
  set (x := match deref id w1.1 with Some s => _ | None => (0, w1) end).
  assert (Hx : inside x.2.1 = inside w1.1).
  { subst x. destruct (deref id w1.1) as [s|]; [|reflexivity]. destruct (s_flag s INIT_SESS); [apply assign_inside|reflexivity]. }
  destruct x as [r w2]. cbn [snd] in Hx. destruct (r =? LS_FAIL); [exact Hx|].
  destruct (deref id w2.1) as [s|]; [|exact Hx].
  pose proof (s_call_inside (DetectContentLenMismatch (zlen (bq_data (m_bufRcvd s)))) id w2) as Hc.
  destruct (s_call _ id w2) as [m w3]. cbn [snd] in Hc. destruct (negb _); cbn [snd]; congruence.
Qed.

Lemma data_done_logs h id w : logs w (data_done h id w).2.
Proof.
  unfold data_done. destruct (has _ _).
  - pose proof (onPeerShutdown_logs id w) as Hl. destruct (onPeerShutdown id w) as [r w1]. cbn [snd] in Hl.
    destruct (r =? LS_FAIL); [|exact Hl]. eapply logs_trans; [exact Hl|]. apply logs_inside, resetStream_inside.
  - apply logs_inside. apply on_inside. intros c. inner.
Qed.

Lemma current_onRead_inside w : inside (current_onRead w).1 = inside w.1.
Proof.
  unfold current_onRead. destruct (m_current _) as [id|]; [|reflexivity]. destruct (deref id w.1) as [s|]; [|reflexivity].
  destruct (s_flag s WANT_READ); [apply s_call_inside|reflexivity].
Qed.

(** The payload of a DATA frame without its padding. *)
Definition unpad (h : H2FrameHeader) (p : list Z) : list Z :=
  if has (getFlags h) H2_FLAG_PADDED then ztake (zlen p - 1 - znth p 0) (zdrop 1 p) else p.

(** A DATA frame's payload, of which the buffer may have only a part. *)
Definition good_data (w : W) : Prop :=
  in_ok w /\ 0 <= remain w.1 /\ bytes_ok (inData w.1) /\ 0 <= m_padLen (c_in w.1).

(** A DATA frame with [n] bytes of payload is for a stream that is open for the peer and
    whose window has room for it. *)
Definition accepts (id n : Z) (c : conn Q) : bool :=
  match findStream id c with
  | Some s => negb (s_flag s PEER_SHUTDOWN) && ((n <=? 0) || (n <=? m_iWindowIn s))
  | None => false
  end.

(** What handling a DATA frame does to the input: the payload the buffer has is
    taken; when that is all of it, the stream got the payload without its padding if
    the frame is accepted, and else nothing. *)
Record data_handled (acc : bool) (h : H2FrameHeader) (w w' : W) : Prop := {
  dh_ok : in_ok w';
  dh_data : inData w'.1 = zdrop (Z.min (remain w.1) (inSize w.1)) (inData w.1);
  dh_remain : remain w'.1 = remain w.1 - Z.min (remain w.1) (inSize w.1);
  dh_pad : 0 <= m_padLen (c_in w'.1);
  dh_trace : exists ds extra, trace (c_in w'.1) = trace (c_in w.1) ++ map (EvData (getStreamId h)) ds ++ extra /\
    Forall aux_event extra /\
    (remain w.1 <= inSize w.1 -> concat ds = if acc then unpad h (ztake (remain w.1) (inData w.1)) else []) }.

Lemma consumeWindowIn_in n c c' : consumeWindowIn n c = Some c' -> c_in c' = c_in c.
Proof. unfold consumeWindowIn. destruct (_ <=? 0); [intros [= <-]; reflexivity|]. destruct (_ >? _); [discriminate|]. intros [= <-]. reflexivity. Qed.

Lemma stream_consumeWindowIn_in id n c c' : stream_consumeWindowIn id n c = Some c' -> c_in c' = c_in c.
Proof.
  unfold stream_consumeWindowIn. destruct (deref id c); [|intros [= <-]; reflexivity].
  destruct (_ <=? 0); [intros [= <-]; reflexivity|]. destruct (_ >? _); [discriminate|]. intros [= <-]. reflexivity.
Qed.

Lemma data_handled_from (acc : bool) h w0 w w' :
  m_bufInput (c_in w.1) = m_bufInput (c_in w0.1) -> remain w.1 = remain w0.1 -> trace (c_in w.1) = trace (c_in w0.1) ->
  data_handled acc h w w' -> data_handled acc h w0 w'.
Proof. intros E1 E3 E8 [H1 H2 H3 H4 H5]. unfold inSize, inData in *. rewrite E1, E3, E8 in *. split; assumption. Qed.

(** The payload was taken by the loop after [j] bytes of it. *)
Lemma taken_handled (acc : bool) h j ds w w1 w' : in_ok w -> 0 <= j <= inSize w.1 -> j <= remain w.1 ->
  in_ok w1 -> inData w1.1 = zdrop j (inData w.1) -> remain w1.1 = remain w.1 - j ->
  trace (c_in w1.1) = trace (c_in w.1) -> 0 <= m_padLen (c_in w1.1) ->
  data_taken (getStreamId h) (Z.min (remain w1.1) (inSize w1.1)) ds w1 w' ->
  (remain w.1 <= inSize w.1 -> concat ds = if acc then unpad h (ztake (remain w.1) (inData w.1)) else []) ->
  data_handled acc h w w'.
Proof.
  intros Hok Hj Hjr Hok1 Hd1 Hr1 Ht1 Hp1 Hdt Hds. destruct (dt_ok _ _ _ _ _ Hdt Hok1) as [Hok' Hd'].
  assert (Hs1 : inSize w1.1 = inSize w.1 - j) by (unfold inSize in *; rewrite Hd1, zlen_zdrop; lia). split.
  - exact Hok'.
  - rewrite Hd', Hd1, zdrop_zdrop by lia. f_equal. lia.
  - rewrite (dt_remain _ _ _ _ _ Hdt). lia.
  - rewrite (dt_pad _ _ _ _ _ Hdt). exact Hp1.
  - exists ds, []. rewrite app_nil_r, (dt_trace _ _ _ _ _ Hdt), Ht1. auto.
Qed.

Lemma data_handled_logs (acc : bool) h w w1 w' : data_handled acc h w w1 -> logs w1 w' -> data_handled acc h w w'.
Proof.
  intros [H1 H2 H3 H4 (ds & e & Ht & He & Hd)] (e2 & He2 & E).
  apply inside_fields in E as (E1 & _ & E3 & _ & _ & E6 & _ & E8). cbn in E1, E6, E8.
  split; [unfold in_ok; rewrite E1; exact H1|unfold inData; rewrite E1; exact H2|rewrite E3; exact H3|rewrite E6; exact H4|].
  exists ds, (e ++ e2). rewrite E8, Ht, <- !app_assoc. split_and!; [reflexivity|apply Forall_app; auto|exact Hd].
Qed.

(** A payload that is dropped. *)
Lemma skipRemainData_handled h w : good_data w -> data_handled false h w (skipRemainData w).
Proof.
  intros (Hok & Hr & Hb & Hp). pose proof (zlen_nonneg (inData w.1)) as Hz. fold (inSize w.1) in Hz.
  unfold skipRemainData, on. cbv beta zeta. set (len := if inSize w.1 >? remain w.1 then remain w.1 else inSize w.1).
  assert (Hlen : len = Z.min (remain w.1) (inSize w.1)) by (subst len; destruct (_ >? _) eqn:E; lia).
  clearbody len. subst len. set (k := Z.min (remain w.1) (inSize w.1)) in *.
  destruct (bq_pop_ok k _ Hok ltac:(lia)) as [Hq Hd].
  set (c1 := set_iCurrentFrameRemain (remain (pop_front k w.1) - k) (pop_front k w.1)).
  assert (H : forall c', inside c' = inside c1 \/ inside c' = inside (set_inputState ST_SKIP_REMAIN c1) -> data_handled false h w (c', w.2)).
  { intros c' Hc. assert (F : m_bufInput (c_in c') = bq_pop k (m_bufInput (c_in w.1)) /\ remain c' = remain w.1 - k /\
      m_padLen (c_in c') = m_padLen (c_in w.1) /\ trace (c_in c') = trace (c_in w.1)).
    { destruct Hc as [Hc|Hc]; apply inside_fields in Hc as (-> & _ & -> & _ & _ & -> & _ & ->); auto. }
    destruct F as (F1 & F2 & F3 & F4). split.
    - unfold in_ok. cbn [fst]. rewrite F1. exact Hq.
    - unfold inData. cbn [fst]. rewrite F1. exact Hd.
    - exact F2.
    - cbn [fst]. rewrite F3. exact Hp.
    - exists [], []. cbn [fst map]. rewrite F4, !app_nil_r. auto. }
  apply H. destruct (remain c1 >? 0); auto.
Qed.

(** From the point where the padding has been announced. *)
Definition data_payload (h : H2FrameHeader) (id : Z) w : Z * W :=
  let '(abuse, w) :=
    if (remain w.1 =? m_padLen (c_in w.1)) && negb (has (getFlags h) H2_CTRL_FLAG_FIN)
    then countControlFrame w else (false, w) in
  if abuse then (LS_FAIL, w)
  else
    let w := on (set_inputState (if remain w.1 >? m_padLen (c_in w.1) then ST_DATA_PAYLOAD else ST_SKIP_REMAIN)) w in
    let '(returned, w) := data_loop (S (length (inData w.1))) id w in
    if returned then (0, w)
    else
      let '(more, w) := data_done h id w in
      if more =? 0 then (0, w) else (0, current_onRead w).

Lemma data_payload_handled h j w0 w w' :
  in_ok w0 -> 0 <= j <= inSize w0.1 -> j <= remain w0.1 -> bytes_ok (inData w0.1) ->
  in_ok w -> inData w.1 = zdrop j (inData w0.1) -> remain w.1 = remain w0.1 - j ->
  trace (c_in w.1) = trace (c_in w0.1) -> 0 <= m_padLen (c_in w.1) <= remain w.1 ->
  (remain w0.1 <= inSize w0.1 -> ztake (remain w.1 - m_padLen (c_in w.1)) (inData w.1) = unpad h (ztake (remain w0.1) (inData w0.1))) ->
  data_payload h (getStreamId h) w = (0, w') -> data_handled true h w0 w'.
Proof.
  intros Hok0 Hj Hjr Hb Hok Hd Hr Ht Hp Hun. unfold data_payload.
  match goal with |- context [let '(_, _) := ?e in _] => destruct e as [abuse w1] eqn:Ea end.
  assert (H1 : inside w1.1 = inside w.1) by (destruct (_ && _) in Ea; injection Ea as _ <-; reflexivity). clear Ea.
  destruct abuse; [discriminate|]. cbv zeta. set (st := if _ >? _ then ST_DATA_PAYLOAD else ST_SKIP_REMAIN).
  set (w2 := on (set_inputState st) w1). apply inside_fields in H1 as (E1 & _ & E3 & _ & _ & E6 & _ & E8).
  assert (F : in_ok w2 /\ inData w2.1 = inData w.1 /\ remain w2.1 = remain w.1 /\ m_padLen (c_in w2.1) = m_padLen (c_in w.1) /\
    trace (c_in w2.1) = trace (c_in w.1) /\ m_inputState (c_in w2.1) = st).
  { unfold in_ok, inData. cbn [on fst w2]. change (m_bufInput (c_in (set_inputState st w1.1))) with (m_bufInput (c_in w1.1)).
    rewrite E1. split_and!; first [reflexivity | assumption]. }
  assert (Hst : st = if remain w.1 >? m_padLen (c_in w.1) then ST_DATA_PAYLOAD else ST_SKIP_REMAIN) by (subst st; rewrite E3, E6; reflexivity).
  clearbody w2 st. destruct F as (F1 & F2 & F3 & F4 & F5 & F6).
  destruct (data_loop_spec (getStreamId h) (S (length (inData w2.1))) w2 F1) as (w3 & ds & -> & Hdt & Hcat & _); [lia|lia| |lia|].
  { rewrite F6, Hst, F3, F4. destruct (Z.gtb_spec (remain w.1) (m_padLen (c_in w.1))); [lia|discriminate]. }
  assert (Hh : data_handled true h w0 w3).
  { apply (taken_handled true h j ds w0 w2 w3); try assumption; try congruence; try lia.
    intros Hfull. rewrite Hcat. rewrite <- Hun by exact Hfull. unfold payload_room. rewrite F2, F3, F4, F6, Hst.
    assert (Hs : inSize w2.1 = inSize w0.1 - j) by (unfold inSize in *; rewrite F2, Hd, zlen_zdrop; lia).
    destruct (Z.gtb_spec (remain w.1) (m_padLen (c_in w.1))).
    - rewrite decide_True by reflexivity. f_equal. lia.
    - rewrite decide_False by discriminate. rewrite !ztake_neg by lia. reflexivity. }
  destruct (inSize w2.1 <? remain w2.1); [intros [= <-]; exact Hh|].
  pose proof (data_done_logs h (getStreamId h) w3) as Hl. destruct (data_done h (getStreamId h) w3) as [more w4]. cbn [snd] in Hl.
  destruct (more =? 0); intros [= <-]; (eapply data_handled_logs; [exact Hh|]); [exact Hl|].
  eapply logs_trans; [exact Hl|]. apply logs_inside, current_onRead_inside.
Qed.

Lemma zdrop_ztake {B} n m (l : list B) : 0 <= n <= m -> zdrop n (ztake m l) = ztake (m - n) (zdrop n l).
Proof. intros. unfold zdrop, ztake. rewrite skipn_firstn_comm. f_equal. lia. Qed.

Lemma unpad_take h n l : 1 <= n <= zlen l -> has (getFlags h) H2_FLAG_PADDED = true -> 0 <= znth l 0 < n ->
  unpad h (ztake n l) = ztake (n - 1 - znth l 0) (zdrop 1 l).
Proof.
  intros Hn Hp Hz. unfold unpad. rewrite Hp, zlen_ztake, Z.min_l, znth_ztake, zdrop_ztake, ztake_ztake by lia. reflexivity.
Qed.

Lemma processDataFrame_handled h w w' :
  good_data w -> (has (getFlags h) H2_FLAG_PADDED = true -> 1 <= inSize w.1) ->
  processDataFrame h w = (0, w') -> data_handled (accepts (getStreamId h) (remain w.1) w.1) h w w'.
Proof.
  intros (Hok & Hr & Hb & _) Hpd. unfold processDataFrame. cbv zeta. destruct (_ || _); [discriminate|].
  set (padded := has (getFlags h) H2_FLAG_PADDED) in *.
  set (pad := if padded then znth (inData w.1) 0 else 0). set (w1 := on (set_padLen pad) w).
  assert (Hpad : 0 <= pad) by (subst pad; destruct padded; [apply znth_byte; exact Hb|lia]).
  destruct (padded && (remain w1.1 <=? m_padLen (c_in w1.1))) eqn:Epad; [discriminate|].
  assert (Hpr : padded = true -> pad < remain w.1) by (intros Hp; rewrite Hp in Epad; change (m_padLen (c_in w1.1)) with pad in Epad; change (remain w1.1) with (remain w.1) in Epad; lia).
  destruct (consumeWindowIn (remain w.1) w1.1) as [c|] eqn:Ec; [|discriminate].
  assert (Em : m_mapStream c = m_mapStream w.1) by (revert Ec; unfold consumeWindowIn; destruct (_ <=? 0); [intros [= <-]; reflexivity|]; destruct (_ >? _); [discriminate|]; intros [= <-]; reflexivity).
  apply consumeWindowIn_in in Ec. unfold accepts, findStream, deref. change (fst (c, w1.2)) with c. rewrite Em. fold (deref (getStreamId h) w.1). fold (findStream (getStreamId h) w.1).
  set (st := findStream (getStreamId h) w.1).
  set (w2 := on (set_current _) (c, w1.2)). assert (Em2 : m_mapStream w2.1 = m_mapStream w.1) by exact Em. clear Em.
  assert (F2 : m_bufInput (c_in w2.1) = m_bufInput (c_in w.1) /\ remain w2.1 = remain w.1 /\ trace (c_in w2.1) = trace (c_in w.1) /\
    m_padLen (c_in w2.1) = pad) by (unfold remain; cbn; rewrite Ec; auto).
  clearbody w2. clear w1 Epad c Ec. destruct F2 as (B2 & R2 & T2 & P2).
  assert (G2 : good_data w2) by (unfold good_data, in_ok, inData in *; rewrite B2, R2, P2; auto).
  assert (Hskip : forall f, (0, (resetStream f (getStreamId h) H2_ERROR_STREAM_CLOSED (skipRemainData w2)).2) = (0, w') \/
      (0, (resetStream f (getStreamId h) H2_ERROR_FLOW_CONTROL_ERROR (skipRemainData w2)).2) = (0, w') -> data_handled false h w w').
  { intros f Hf. apply (data_handled_from false h w w2 w' B2 R2 T2). apply (data_handled_logs false h w2 (skipRemainData w2) w'); [apply skipRemainData_handled; exact G2|].
    destruct Hf as [[= <-]|[= <-]]; apply logs_inside, resetStream_inside. }
  destruct st as [s|] eqn:Est; [|intros Hd; eapply Hskip; left; exact Hd].
  assert (Es2 : deref (getStreamId h) w2.1 = Some s).
  { unfold st, findStream in Est. unfold deref in *. rewrite Em2. destruct (m_mapStream w.1 !! getStreamId h) as [s1|]; [|discriminate]. destruct (s_inMap s1); congruence. }
  destruct (s_flag s PEER_SHUTDOWN); [intros Hd; eapply Hskip; left; exact Hd|]. cbn [negb andb].
  destruct (stream_consumeWindowIn (getStreamId h) (remain w.1) w2.1) as [c|] eqn:Ec.
  2:{ unfold stream_consumeWindowIn in Ec. rewrite Es2 in Ec. destruct (Z.leb_spec (remain w.1) 0); [discriminate|]. destruct (Z.gtb_spec (remain w.1) (m_iWindowIn s)); [|discriminate].
      replace (remain w.1 <=? m_iWindowIn s) with false by lia. intros Hd; eapply Hskip; right; exact Hd. }
  replace ((remain w.1 <=? 0) || (remain w.1 <=? m_iWindowIn s)) with true.
  2:{ unfold stream_consumeWindowIn in Ec. rewrite Es2 in Ec. destruct (Z.leb_spec (remain w.1) 0); [reflexivity|]. destruct (Z.gtb_spec (remain w.1) (m_iWindowIn s)); [discriminate|]. lia. }
  apply stream_consumeWindowIn_in in Ec. set (w3 := if padded then _ else (c, w2.2)).
  set (j := if padded then 1 else 0).
  assert (F3 : m_bufInput (c_in w3.1) = (if padded then bq_pop 1 (m_bufInput (c_in w.1)) else m_bufInput (c_in w.1)) /\
    remain w3.1 = remain w.1 - j /\ trace (c_in w3.1) = trace (c_in w.1) /\ m_padLen (c_in w3.1) = pad).
  { subst w3 j. unfold remain in *. destruct padded; cbn [on fst]; rewrite ?adjWindowToUpdate_in.
    - cbn. rewrite Ec, B2, R2, T2, P2. auto.
    - rewrite Ec, B2, R2, T2, P2, Z.sub_0_r. auto. }
  clearbody w3. destruct F3 as (B3 & R3 & T3 & P3). clear Hskip G2 B2 R2 T2 P2 Ec.
  assert (Hj : 0 <= j <= inSize w.1 /\ j <= remain w.1 /\ (padded = true -> j = 1) /\ (padded = false -> j = 0 /\ pad = 0)).
  { pose proof (zlen_nonneg (inData w.1)). subst j pad. destruct padded; unfold inSize in *; split_and!; try lia; try discriminate; auto. }
  assert (Hd3 : bq_ok (m_bufInput (c_in w3.1)) /\ inData w3.1 = zdrop j (inData w.1)).
  { unfold inData. rewrite B3. subst j. destruct padded; [apply bq_pop_ok; [exact Hok|lia]|]. rewrite zdrop_0. auto. }
  apply (data_payload_handled h j w w3 w'); try assumption; try lia; try apply Hj; try apply Hd3.
  intros Hfull. rewrite P3, R3, (proj2 Hd3). destruct padded eqn:Epd.
  - specialize (Hpr eq_refl). replace j with 1 by (symmetry; apply Hj; reflexivity).
    rewrite unpad_take; [reflexivity|unfold inSize in *; lia|exact Epd|].
    change (znth (inData w.1) 0) with pad. auto.
  - destruct Hj as (_ & _ & _ & Hj). destruct (Hj eq_refl) as [-> ->]. unfold unpad. fold padded. rewrite Epd.
    rewrite zdrop_0, !Z.sub_0_r. reflexivity.
Qed.

(** ** The frames dispatched *)

(** The events of one frame: a control frame is handed over whole; the bytes of
    a DATA frame reach its stream without the padding, or are dropped. *)
Inductive dispatched : H2FrameHeader * list Z -> list event -> Prop :=
  | dispatched_control h p extra :
      getType h <> H2_FRAME_DATA -> Forall aux_event extra -> dispatched (h, p) (EvFrame h p :: extra)
  | dispatched_data h p ds extra :
      getType h = H2_FRAME_DATA -> concat ds = [] \/ concat ds = unpad h p -> Forall aux_event extra ->
      dispatched (h, p) (map (EvData (getStreamId h)) ds ++ extra).

(** The bytes handed to streams. *)
Definition data_of (evs : list event) : list Z := concat (map (fun e => match e with EvData _ d => d | _ => [] end) evs).

(** The frame [f] is dispatched on the connection [c] as it ought to be: besides
    [dispatched], a DATA frame reaches its stream whenever the stream accepts it. *)
Definition handed (c : conn Q) (f : H2FrameHeader * list Z) (evs : list event) : Prop :=
  dispatched f evs /\
  (getType f.1 = H2_FRAME_DATA ->
   data_of evs = if accepts (getStreamId f.1) (zlen f.2) c then unpad f.1 f.2 else []).

Lemma data_of_data id ds extra : Forall aux_event extra -> data_of (map (EvData id) ds ++ extra) = concat ds.
Proof.
  intros Ha. unfold data_of. rewrite map_app, concat_app, map_map. rewrite map_id. rewrite <- (app_nil_r (concat ds)) at 2. f_equal.
  induction Ha as [|e l He Ha IH]; [reflexivity|]. cbn. rewrite IH. destruct e; try reflexivity; contradiction.
Qed.

(** A frame as it is on the wire, whose SETTINGS are legal and whose pad length
    is present. *)
Definition frame_wf (f : H2FrameHeader * list Z) : Prop :=
  getLength f.1 = zlen f.2 /\ bytes_ok (frame_bytes f) /\
  (getType f.1 = H2_FRAME_SETTINGS -> settings_valid (Z.to_nat (zlen f.2 / 6)) f.2 = true) /\
  (getType f.1 = H2_FRAME_DATA -> has (getFlags f.1) H2_FLAG_PADDED = true -> f.2 <> []).

(** Between two frames, or with the header of a control frame read. *)
Definition ready (w : W) : Prop :=
  in_ok w /\ bytes_ok (inData w.1) /\ 0 <= m_padLen (c_in w.1) /\
  (remain w.1 = - H2_FRAME_HEADER_SIZE \/
   0 < remain w.1 /\ remain w.1 = getLength (m_curH2Header (c_in w.1)) /\
   getType (m_curH2Header (c_in w.1)) <> H2_FRAME_DATA /\ bytes_ok (header_bytes (m_curH2Header (c_in w.1)))).

(** The bytes received that no frame was dispatched for. *)
Definition pending c : list Z :=
  if remain c <? 0 then inData c else header_bytes (m_curH2Header (c_in c)) ++ inData c.

Lemma settings_valid_app n : forall p r, 6 * Z.of_nat n <= zlen p -> settings_valid n (p ++ r) = settings_valid n p.
Proof.
  induction n as [|n IH]; intros p r Hn; [reflexivity|]. cbn [settings_valid].
  pose proof (zlen_nonneg r). rewrite !znth_app by lia.
  replace (0 <? zlen p) with true by lia. replace (1 <? zlen p) with true by lia.
  assert (E : forall m, 0 <= m <= zlen p -> ztake m (p ++ r) = ztake m p /\ zdrop m (p ++ r) = zdrop m p ++ r).
  { intros m Hm. unfold ztake, zdrop, zlen in *. rewrite take_app_le, drop_app_le by lia. auto. }
  destruct (E 6 ltac:(lia)) as [-> ->]. rewrite IH; [reflexivity|]. rewrite zlen_zdrop; lia.
Qed.

(** One frame whose header has been read and whose payload is there. *)
Lemma parse_body_step w h p rest :
  in_ok w -> bytes_ok (inData w.1) -> 0 <= m_padLen (c_in w.1) -> frame_wf (h, p) ->
  m_curH2Header (c_in w.1) = h -> remain w.1 = zlen p -> inData w.1 = p ++ rest ->
  (exists r w', parse_body w = inl (r, w') /\ r <> 0) \/
  (exists w' evs, parse_body w = inr w' /\ ready w' /\ remain w'.1 = -9 /\ inData w'.1 = rest /\
     trace (c_in w'.1) = trace (c_in w.1) ++ evs /\ handed w.1 (h, p) evs).
Proof.
  intros Hok Hb Hp (Hl & Hbf & Hset & Hpad) Hh Hr Hd. cbn [fst snd] in *.
  pose proof (zlen_nonneg p) as Hzp. pose proof (zlen_nonneg rest) as Hzr.
  assert (Hs : inSize w.1 = zlen p + zlen rest) by (unfold inSize; rewrite Hd; apply zlen_app).
  unfold parse_body. rewrite Hh. cbv zeta.
  destruct (_ && _); [left; eexists _, _; split; [reflexivity|discriminate]|].
  destruct (_ && _); [left; eexists _, _; split; [reflexivity|discriminate]|].
  assert (Hrest : bytes_ok rest) by (rewrite Hd in Hb; apply Forall_app in Hb; apply Hb).
  destruct (Z.eqb_spec (getType h) H2_FRAME_DATA) as [Ht|Ht]; cbn [negb].
  - replace (has (getFlags h) H2_FLAG_PADDED && (inSize w.1 <? 1)) with false; cycle 1.
    { destruct (has (getFlags h) H2_FLAG_PADDED); [|reflexivity]. specialize (Hpad Ht eq_refl).
      destruct p; [congruence|]. rewrite zlen_cons in *. pose proof (zlen_nonneg p). lia. }
    destruct (processDataFrame h w) as [ret w1] eqn:E. destruct (Z.eqb_spec ret LS_OK) as [->|]; cbn [negb]; cycle 1.
    { left. exists ret, w1. auto. }
    right. apply processDataFrame_handled in E; [|split_and!; auto; lia|]; cycle 1.
    { intros Hpd. specialize (Hpad Ht Hpd). destruct p; [congruence|]. rewrite zlen_cons in *. pose proof (zlen_nonneg p). lia. }
    destruct E as [O D R P (ds & extra & T & Ha & Hc)]. rewrite Hs, Hr, Z.min_l in * by lia.
    rewrite R, Z.sub_diag, Z.eqb_refl. eexists _, _. split; [reflexivity|]. rewrite Hd, zdrop_app_exact in D.
    split; [split; [exact O|split; [|split; [exact P|left; reflexivity]]]|].
    + change (inData _) with (inData w1.1). rewrite D. exact Hrest.
    + split; [reflexivity|]. split; [exact D|]. split; [exact T|].
      rewrite Hd, ztake_app_exact in Hc. specialize (Hc ltac:(lia)). split.
      * apply dispatched_data; auto. destruct (accepts _ _ _) in Hc; auto.
      * intros _. rewrite data_of_data by exact Ha. exact Hc.
  - replace (remain w.1 >? inSize w.1) with false by lia.
    destruct (processFrame h w) as [ret w1] eqn:E. destruct (Z.eqb_spec ret LS_OK) as [->|]; cbn [negb]; cycle 1.
    { left. exists ret, w1. auto. }
    right. apply processFrame_consumes in E; [|split_and!; auto; lia|congruence| |]; cycle 1.
    { apply Forall_app in Hbf as [Hbh _]. destruct h as [[[a b] c] t f [[[i j] k] l]]. cbn in Hbh |- *.
      do 3 (apply Forall_cons_1 in Hbh as [_ Hbh]). apply Forall_cons_1 in Hbh as [Hbt _]. apply Hbt. }
    { intros Hty. rewrite Hr, Hd, settings_valid_app; [apply Hset; exact Hty|].
      pose proof (Z.mul_div_le (zlen p) 6). pose proof (Z.div_pos (zlen p) 6). lia. }
    destruct E as [Hbuf _ _ _ (extra & T & Ha)]. destruct Hbuf as ((O & R & B & P) & k & Hk & Dk & Rk).
    { split_and!; auto; change (inSize (on _ w).1) with (inSize w.1); change (remain (on _ w).1) with (remain w.1); lia. }
    change (remain (on _ w).1) with (remain w.1) in *. change (inData (on _ w).1) with (inData w.1) in *.
    set (w2 := if remain w1.1 >? 0 then _ else w1).
    assert (F : in_ok w2 /\ inData w2.1 = rest /\ m_padLen (c_in w2.1) = m_padLen (c_in w1.1) /\ trace (c_in w2.1) = trace (c_in w1.1)).
    { subst w2. rewrite Hr in *. destruct (Z.gtb_spec (remain w1.1) 0).
      - destruct (bq_pop_ok (Z.min (remain w1.1) (inSize w1.1)) _ O ltac:(lia)) as [Oq Dq].
        split; [exact Oq|]. split; [|auto]. etransitivity; [exact Dq|]. fold (inData w1.1). rewrite Dk, Hd, zdrop_zdrop by lia.
        rewrite Z.min_l by lia. rewrite Rk. replace (k + (zlen p - k)) with (zlen p) by lia. apply zdrop_app_exact.
      - split_and!; auto. rewrite Dk, Hd. replace k with (zlen p) by lia. apply zdrop_app_exact. }
    clearbody w2. destruct F as (O2 & D2 & P2 & T2). eexists _, _. split; [reflexivity|].
    split; [split; [exact O2|split; [|split; [|left; reflexivity]]]|].
    + change (inData _) with (inData w2.1). rewrite D2. exact Hrest.
    + change (m_padLen _) with (m_padLen (c_in w2.1)). rewrite P2. exact P.
    + split; [reflexivity|]. split; [exact D2|]. split.
      * transitivity (trace (c_in w2.1)); [reflexivity|]. rewrite T2, T. cbn [on fst log set_trace c_in trace set_c_in].
        rewrite <- app_assoc. reflexivity.
      * rewrite Hr, Hd, ztake_app_exact. split; [apply dispatched_control; auto|]. intros Hdt. contradiction.
Qed.

(** One round of the loop of [parseFrame], on a buffer that is not empty. *)
Definition parse_round (w : W) : (Z * W) + W := match parse_header w with inl r => inl r | inr w => parse_body w end.

(** Reading the header of the next frame. *)
Lemma parse_header_step w h t : ready w -> remain w.1 = -9 -> inData w.1 = header_bytes h ++ t ->
  (exists r w', parse_header w = inl (r, w') /\ r <> 0) \/
  (exists w', parse_header w = inr w' /\ in_ok w' /\ m_padLen (c_in w'.1) = m_padLen (c_in w.1) /\
     m_curH2Header (c_in w'.1) = h /\ remain w'.1 = getLength h /\ inData w'.1 = t /\ trace (c_in w'.1) = trace (c_in w.1) /\ m_mapStream w'.1 = m_mapStream w.1).
Proof.
  intros (Hok & Hb & Hp & _) Hr Hd. pose proof (zlen_header_bytes h) as H9. pose proof (zlen_nonneg t).
  assert (Hs : inSize w.1 = 9 + zlen t) by (unfold inSize; rewrite Hd, zlen_app; lia).
  unfold parse_header, moveTo, H2_FRAME_HEADER_SIZE. rewrite Hr, Hs. replace (9 + zlen t <? 9) with false by lia.
  cbn [Z.ltb Z.compare]. rewrite Z.min_l by lia.
  replace (read_header (ztake 9 (inData w.1))) with h.
  2:{ rewrite Hd. rewrite <- H9, ztake_app_exact. rewrite <- (app_nil_r (header_bytes h)) at 1. symmetry. apply read_header_bytes. }
  destruct (_ >? _); [left; eexists _, _; split; [reflexivity|discriminate]|]. right. eexists. split; [reflexivity|].
  destruct (bq_pop_ok 9 _ Hok ltac:(lia)) as [Hq Hqd]. split; [exact Hq|]. split; [reflexivity|]. split; [reflexivity|].
  split; [reflexivity|]. split; [|split; reflexivity]. etransitivity; [exact Hqd|]. fold (inData w.1). rewrite Hd. apply zdrop_app_len. exact H9.
Qed.

Lemma header_bytes_inj h1 h2 t1 t2 : header_bytes h1 ++ t1 = header_bytes h2 ++ t2 -> h1 = h2 /\ t1 = t2.
Proof.
  intros E. assert (Eh : h1 = h2) by (rewrite <- (read_header_bytes h1 t1), E; apply read_header_bytes).
  subst h2. split; [reflexivity|]. apply app_inv_head in E. exact E.
Qed.

Lemma handed_map c c' f evs : m_mapStream c' = m_mapStream c -> handed c' f evs -> handed c f evs.
Proof. intros E. unfold handed, accepts, findStream, deref. rewrite E. exact id. Qed.

Lemma parse_round_step w h p rest : ready w -> pending w.1 = frame_bytes (h, p) ++ rest -> frame_wf (h, p) ->
  (exists r w', parse_round w = inl (r, w') /\ r <> 0) \/
  (exists w' evs, parse_round w = inr w' /\ ready w' /\ remain w'.1 = -9 /\ inData w'.1 = rest /\
     trace (c_in w'.1) = trace (c_in w.1) ++ evs /\ handed w.1 (h, p) evs).
Proof.
  intros Hrd Hpd Hwf. pose proof Hrd as (Hok & Hb & Hp & Hcase). unfold pending, frame_bytes in Hpd. cbn [fst snd] in Hpd.
  rewrite <- app_assoc in Hpd. pose proof (zlen_nonneg p). pose proof (zlen_nonneg rest). unfold parse_round.
  assert (Hbody : forall w1, in_ok w1 -> bytes_ok (inData w1.1) -> 0 <= m_padLen (c_in w1.1) -> m_curH2Header (c_in w1.1) = h ->
    remain w1.1 = zlen p -> inData w1.1 = p ++ rest -> trace (c_in w1.1) = trace (c_in w.1) -> m_mapStream w1.1 = m_mapStream w.1 ->
    (exists r w', parse_body w1 = inl (r, w') /\ r <> 0) \/
    (exists w' evs, parse_body w1 = inr w' /\
       ready w' /\ remain w'.1 = -9 /\ inData w'.1 = rest /\ trace (c_in w'.1) = trace (c_in w.1) ++ evs /\ handed w.1 (h, p) evs)).
  { intros w1 O1 B1 P1 H1 R1 D1 T1 M1.
    destruct (parse_body_step w1 h p rest O1 B1 P1 Hwf H1 R1 D1) as [(r & w' & -> & Hne)|(w' & evs & -> & Hrd' & Hr' & Hd' & Ht' & Hh')].
    - left. exists r, w'. auto.
    - right. exists w', evs. rewrite <- T1. split_and!; auto. exact (handed_map _ _ _ _ M1 Hh'). }
  destruct Hcase as [Hr|(Hr & Hrl & Hty & Hbh)].
  - replace (remain w.1 <? 0) with true in Hpd by (rewrite Hr; reflexivity).
    destruct (parse_header_step w h (p ++ rest) Hrd Hr Hpd) as [(r & w' & -> & Hne)|(w1 & -> & O1 & P1 & H1 & R1 & D1 & T1 & M1)].
    { left. exists r, w'. auto. }
    apply Hbody; auto; [|lia|].
    + rewrite D1. rewrite Hpd in Hb. apply Forall_app in Hb. apply Hb.
    + rewrite R1. apply Hwf.
  - replace (remain w.1 <? 0) with false in Hpd by lia. apply header_bytes_inj in Hpd as [Hh Hpd].
    assert (Hl : remain w.1 = zlen p) by (rewrite Hrl, Hh; apply Hwf).
    unfold parse_header. replace (remain w.1 <? 0) with false by lia. apply Hbody; auto.
Qed.

Lemma parse_step fuel w h p rest : ready w -> pending w.1 = frame_bytes (h, p) ++ rest -> frame_wf (h, p) ->
  (exists r w', parse_loop (S fuel) w = (r, w') /\ r <> 0) \/
  (exists w' evs, parse_loop (S fuel) w = parse_loop fuel w' /\ parse_round w = inr w' /\ ready w' /\ remain w'.1 = -9 /\ inData w'.1 = rest /\
     trace (c_in w'.1) = trace (c_in w.1) ++ evs /\ handed w.1 (h, p) evs).
Proof.
  intros Hrd Hpd Hwf. pose proof Hrd as (_ & _ & _ & Hcase).
  assert (Hs : 0 < inSize w.1).
  { unfold pending, frame_bytes in Hpd. cbn [fst snd] in Hpd. rewrite <- app_assoc in Hpd. pose proof (zlen_nonneg p). pose proof (zlen_nonneg rest).
    unfold inSize. destruct Hcase as [Hr|(Hr & Hrl & _)].
    - replace (remain w.1 <? 0) with true in Hpd by (rewrite Hr; reflexivity). rewrite Hpd, zlen_app, zlen_header_bytes, zlen_app. lia.
    - replace (remain w.1 <? 0) with false in Hpd by lia. apply header_bytes_inj in Hpd as [Hh Hpd]. rewrite Hpd, zlen_app.
      assert (remain w.1 = zlen p) by (rewrite Hrl, Hh; apply Hwf). lia. }
  assert (E : parse_loop (S fuel) w = match parse_round w with inl r => r | inr w' => parse_loop fuel w' end).
  { cbn [parse_loop]. replace (inSize w.1 =? 0) with false by lia. unfold parse_round. destruct (parse_header w); reflexivity. }
  rewrite E. destruct (parse_round_step w h p rest Hrd Hpd Hwf) as [(r & w' & -> & Hne)|(w' & evs & -> & Hx)].
  - left. exists r, w'. auto.
  - right. exists w', evs. auto.
Qed.

(** What is left when no frame is complete: less than a header, or the header
    of a control frame with part of its payload. *)
Definition incomplete (t : list Z) : Prop :=
  zlen t < H2_FRAME_HEADER_SIZE \/
  exists h p, t = header_bytes h ++ p /\ getType h <> H2_FRAME_DATA /\ zlen p < getLength h.

Lemma parse_end fuel w : ready w -> incomplete (pending w.1) ->
  (exists r w', parse_loop fuel w = (r, w') /\ r <> 0) \/
  (exists w', parse_loop fuel w = (0, w') /\ ready w' /\ pending w'.1 = pending w.1 /\ trace (c_in w'.1) = trace (c_in w.1)).
Proof.
  intros Hrd Hinc. assert (Hsame : exists w', (0, w) = (0, w') /\ ready w' /\ pending w'.1 = pending w.1 /\ trace (c_in w'.1) = trace (c_in w.1)) by eauto.
  pose proof Hrd as (Hok & Hb & Hp & Hcase). destruct fuel as [|fuel]; [right; exact Hsame|]. cbn [parse_loop].
  destruct (Z.eqb_spec (inSize w.1) 0) as [|Hs]; [right; exact Hsame|].
  assert (Hbody : forall w1 h p, m_curH2Header (c_in w1.1) = h -> remain w1.1 = getLength h -> inData w1.1 = p ->
     getType h <> H2_FRAME_DATA -> zlen p < getLength h -> pending w.1 = header_bytes h ++ p -> ready w1 -> trace (c_in w1.1) = trace (c_in w.1) ->
     (exists r w', (match parse_body w1 with inl r => r | inr w' => parse_loop fuel w' end) = (r, w') /\ r <> 0) \/
     (exists w', (match parse_body w1 with inl r => r | inr w' => parse_loop fuel w' end) = (0, w') /\ ready w' /\
        pending w'.1 = pending w.1 /\ trace (c_in w'.1) = trace (c_in w.1))).
  { intros w1 h p Hh Hr Hd Ht Hlt Hpe Hrd1 Ht1. unfold parse_body. rewrite Hh. cbv zeta.
    destruct (_ && _); [left; eexists _, _; split; [reflexivity|discriminate]|].
    destruct (_ && _); [left; eexists _, _; split; [reflexivity|discriminate]|].
    replace (getType h =? H2_FRAME_DATA) with false by (symmetry; apply Z.eqb_neq; exact Ht). cbn [negb].
    replace (remain w1.1 >? inSize w1.1) with true by (unfold inSize; rewrite Hr, Hd; lia).
    right. exists w1. split; [reflexivity|]. split; [exact Hrd1|]. split; [|exact Ht1].
    unfold pending. pose proof (zlen_nonneg p). replace (remain w1.1 <? 0) with false by lia. rewrite Hh, Hd. symmetry. exact Hpe. }
  destruct Hcase as [Hr|(Hr & Hrl & Hty & Hbh)].
  - assert (Hpe : pending w.1 = inData w.1) by (unfold pending; rewrite Hr; reflexivity). rewrite Hpe in *.
    destruct Hinc as [Hlt|(h & p & He & Ht & Hlt)].
    + unfold parse_header. replace (remain w.1 <? 0) with true by (rewrite Hr; reflexivity).
      replace (inSize w.1 <? H2_FRAME_HEADER_SIZE) with true by (unfold inSize; lia). right. exact Hsame.
    + destruct (parse_header_step w h p Hrd Hr He) as [(r & w' & -> & Hne)|(w1 & -> & O1 & P1 & H1 & R1 & D1 & T1 & _)].
      { left. exists r, w'. auto. }
      rewrite He in Hb. apply Forall_app in Hb as [Hb1 Hb2]. pose proof (zlen_nonneg p).
      apply (Hbody w1 h p); auto. split; [exact O1|]. rewrite P1, D1, H1, R1. split_and!; auto. right. split_and!; auto. lia.
  - unfold parse_header. replace (remain w.1 <? 0) with false by lia.
    assert (Hpe : pending w.1 = header_bytes (m_curH2Header (c_in w.1)) ++ inData w.1) by (unfold pending; replace (remain w.1 <? 0) with false by lia; reflexivity).
    destruct Hinc as [Hlt|(h & p & He & Ht & Hlt)].
    { rewrite Hpe, zlen_app, zlen_header_bytes in Hlt. unfold H2_FRAME_HEADER_SIZE in Hlt. pose proof (zlen_nonneg (inData w.1)). lia. }
    rewrite Hpe in He. apply header_bytes_inj in He as [Hh Hd]. apply (Hbody w h p); auto; [congruence|]. rewrite Hpe. congruence.
Qed.

(** Rounds of the parser, one for each frame, each frame dispatched on the connection as
    the round finds it. *)
Inductive rounds : W -> list (H2FrameHeader * list Z) -> list (list event) -> W -> Prop :=
  | rounds_nil w : rounds w [] [] w
  | rounds_cons w f evs w1 fs evss w2 :
      parse_round w = inr w1 -> handed w.1 f evs -> trace (c_in w1.1) = trace (c_in w.1) ++ evs -> rounds w1 fs evss w2 ->
      rounds w (f :: fs) (evs :: evss) w2.

Lemma rounds_dispatched w fs evss w' : rounds w fs evss w' ->
  Forall2 dispatched fs evss /\ trace (c_in w'.1) = trace (c_in w.1) ++ concat evss.
Proof.
  induction 1 as [w|w f evs w1 fs evss w2 _ [Hd _] Ht _ [IH1 IH2]]; [split; [constructor|rewrite app_nil_r; reflexivity]|].
  split; [constructor; assumption|]. cbn [concat]. rewrite IH2, Ht, app_assoc. reflexivity.
Qed.

Lemma parse_frames_spec fs : forall fuel w tail w',
  ready w -> pending w.1 = concat (map frame_bytes fs) ++ tail -> Forall frame_wf fs -> incomplete tail ->
  (length fs <= fuel)%nat -> parse_loop fuel w = (0, w') ->
  ready w' /\ pending w'.1 = tail /\
  exists evss w1, rounds w fs evss w1 /\ trace (c_in w'.1) = trace (c_in w1.1).
Proof.
  induction fs as [|[h p] fs IH]; intros fuel w tail w' Hrd Hpd Hwf Hinc Hf Hl.
  - cbn [map concat app] in Hpd. subst tail.
    destruct (parse_end fuel w Hrd Hinc) as [(r & w1 & E & Hne)|(w1 & E & Hrd1 & Hp1 & Ht1)]; rewrite Hl in E.
    { injection E as E1 E2. congruence. }
    injection E as ->. split_and!; auto. exists [], w. split; [constructor|exact Ht1].
  - destruct fuel as [|fuel]; [cbn in Hf; lia|]. inversion Hwf as [|? ? Hwf1 Hwf2]; subst. cbn [map concat] in Hpd. rewrite <- app_assoc in Hpd.
    destruct (parse_step fuel w h p _ Hrd Hpd Hwf1) as [(r & w1 & E & Hne)|(w1 & evs & E & Er & Hrd1 & Hr1 & Hd1 & Ht1 & Hdi)]; rewrite Hl in E.
    { injection E as E1 E2. congruence. }
    symmetry in E. destruct (IH fuel w1 tail w' Hrd1) as (Hrd' & Hp' & evss & w2 & Hrs & Ht'); auto.
    { unfold pending. rewrite Hr1. exact Hd1. }
    { cbn in Hf. lia. }
    split_and!; auto. exists (evs :: evss), w2. split; [|exact Ht']. exact (rounds_cons w (h, p) evs w1 fs evss w2 Er Hdi Ht1 Hrs).
Qed.

Lemma frames_count fs t : 9 * Z.of_nat (length fs) <= zlen (concat (map frame_bytes fs) ++ t).
Proof.
  induction fs as [|[h p] fs IH]; cbn [map concat length]; [pose proof (zlen_nonneg t); cbn; lia|].
  change (frame_bytes (h, p)) with (header_bytes h ++ p). rewrite <- !app_assoc, !zlen_app in *. rewrite zlen_header_bytes.
  pose proof (zlen_nonneg p). lia.
Qed.

Lemma parseFrame_spec fs w tail w' :
  ready w -> pending w.1 = concat (map frame_bytes fs) ++ tail -> Forall frame_wf fs -> incomplete tail ->
  parseFrame w = (0, w') ->
  ready w' /\ pending w'.1 = tail /\
  exists evss w1, rounds w fs evss w1 /\ trace (c_in w'.1) = trace (c_in w1.1).
Proof.
  intros Hrd Hpd Hwf Hinc Hl. apply (parse_frames_spec fs (S (S (length (inData w.1)))) w tail w'); auto.
  pose proof (frames_count fs tail) as Hc. rewrite <- Hpd in Hc.
  assert (zlen (pending w.1) <= 9 + inSize w.1).
  { unfold pending, inSize. destruct (_ <? 0); [|rewrite zlen_app, zlen_header_bytes]; lia. }
  unfold inSize, zlen in *. lia.
Qed.

(** C13: the parser dispatches the frames the peer sent.  When the bytes received
    and not yet dispatched are some complete frames, and then less than a header or a
    control frame of which something is missing, and the parser, which stands
    between two frames or has read the header of a control frame, reports no error (the
    SETTINGS entries being legal, and every padded DATA frame having its pad length), then it
    has made one round for each of these frames, in order: a control frame was handed over
    with its whole payload; a DATA frame's bytes without their padding went to the frame's
    stream if the stream was there and open for the peer and had room in its window (what
    its window counts is the whole payload), and to no stream otherwise.  The rest stays
    pending.  This holds whatever the handlers of the streams do.  (Of a DATA frame that
    has not arrived as a whole, what is there is delivered at once: [data_loop].) *)
Theorem parse_dispatches_frames fs w tail w' :
  ready w -> pending w.1 = concat (map frame_bytes fs) ++ tail -> Forall frame_wf fs -> incomplete tail ->
  parseFrame w = (0, w') ->
  pending w'.1 = tail /\
  exists evss w1, rounds w fs evss w1 /\ trace (c_in w'.1) = trace (c_in w1.1) /\
    Forall2 dispatched fs evss /\ trace (c_in w'.1) = trace (c_in w.1) ++ concat evss.
Proof.
  intros Hrd Hpd Hwf Hinc Hl. destruct (parseFrame_spec fs w tail w' Hrd Hpd Hwf Hinc Hl) as (_ & Hp & evss & w1 & Hr & Ht).
  split; [exact Hp|]. exists evss, w1. destruct (rounds_dispatched _ _ _ _ Hr) as [Hd Ht1]. rewrite Ht. auto.
Qed.

(** ** Segments *)

(** A segment read into the input buffer, as [onReadEx2] does. *)
Definition receive (seg : list Z) (w : W) : W := on (fun c => set_bufInput (bq_fill seg (m_bufInput (c_in c))) c) w.

(** The parser runs after each segment. *)
Inductive fed : W -> list (list Z) -> W -> Prop :=
  | fed_nil w : fed w [] w
  | fed_seg w seg w1 segs w2 :
      bytes_ok seg -> zlen seg <= bq_room (m_bufInput (c_in w.1)) -> parseFrame (receive seg w) = (0, w1) ->
      fed w1 segs w2 -> fed w (seg :: segs) w2.

Lemma receive_ready seg w : ready w -> bytes_ok seg -> zlen seg <= bq_room (m_bufInput (c_in w.1)) ->
  ready (receive seg w) /\ pending (receive seg w).1 = pending w.1 ++ seg /\ trace (c_in (receive seg w).1) = trace (c_in w.1).
Proof.
  intros (Hok & Hb & Hp & Hcase) Hs Hroom. destruct (bq_fill_ok seg _ Hok Hroom) as [Hq Hqd].
  assert (Hd : inData (receive seg w).1 = inData w.1 ++ seg) by exact Hqd. split_and!.
  - split; [exact Hq|]. rewrite Hd. split; [apply Forall_app; auto|]. split; [exact Hp|exact Hcase].
  - unfold pending. change (remain (receive seg w).1) with (remain w.1). rewrite Hd. destruct (remain w.1 <? 0); [reflexivity|apply app_assoc].
  - reflexivity.
Qed.

(** A prefix of a sequence of control frames is some of the frames and less
    than one more. *)
Lemma incomplete_prefix s k : incomplete (s ++ k) -> incomplete s.
Proof.
  intros [Hl|(h & p & E & Ht & Hl)]; pose proof (zlen_nonneg k).
  - left. rewrite zlen_app in Hl. lia.
  - apply app_eq_inv in E as [(x & -> & ->)|(x & Hx & _)].
    + right. exists h, x. rewrite zlen_app in Hl. split_and!; auto. lia.
    + pose proof (zlen_header_bytes h) as H9. rewrite Hx, zlen_app in H9. pose proof (zlen_nonneg x).
      destruct (Z.eq_dec (zlen x) 0) as [Hz|]; [|left; unfold H2_FRAME_HEADER_SIZE; lia].
      right. exists h, []. assert (x = []) as -> by (destruct x; [reflexivity|rewrite zlen_cons in Hz; pose proof (zlen_nonneg x); lia]).
      rewrite app_nil_r in *. pose proof (zlen_nonneg p).
      split_and!; [congruence|assumption|]. change (zlen (@nil Z)) with 0. lia.
Qed.

Lemma frames_prefix fs : forall s k tail,
  Forall (fun f => frame_wf f /\ getType f.1 <> H2_FRAME_DATA) fs -> incomplete tail ->
  s ++ k = concat (map frame_bytes fs) ++ tail ->
  exists fs1 fs2 t, fs = fs1 ++ fs2 /\ s = concat (map frame_bytes fs1) ++ t /\
    t ++ k = concat (map frame_bytes fs2) ++ tail /\ incomplete t.
Proof.
  induction fs as [|[h p] fs IH]; intros s k tail Hwf Hinc E.
  - cbn [map concat app] in E. subst tail. exists [], [], s. split_and!; auto. apply (incomplete_prefix s k Hinc).
  - inversion Hwf as [|? ? [Hwf1 Ht] Hwf2]; subst. cbn [fst] in Ht. cbn [map concat] in E. rewrite <- app_assoc in E.
    apply app_eq_inv in E as [(x & -> & E)|(x & Hx & ->)].
    + destruct (IH x k tail Hwf2 Hinc (eq_sym E)) as (fs1 & fs2 & t & -> & -> & Et & Hi).
      exists ((h, p) :: fs1), fs2, t. cbn [map concat]. rewrite <- !app_assoc. split_and!; auto.
    + destruct (Z.eq_dec (zlen x) 0) as [Hz|Hz].
      * assert (x = []) as -> by (destruct x; [reflexivity|rewrite zlen_cons in Hz; pose proof (zlen_nonneg x); lia]).
        rewrite app_nil_r in Hx. subst s. exists [(h, p)], fs, []. cbn [map concat app]. rewrite !app_nil_r. split_and!; auto.
        left. reflexivity.
      * exists [], ((h, p) :: fs), s. cbn [map concat app]. rewrite Hx, <- !app_assoc. split_and!; auto.
        pose proof (zlen_nonneg x). pose proof (zlen_header_bytes h) as H9. unfold frame_bytes in Hx. cbn [fst snd] in Hx.
        apply app_eq_inv in Hx as [(y & Hy & ->)|(y & -> & ->)].
        -- rewrite Hy, zlen_app in H9. destruct (Z.eq_dec (zlen y) 0) as [Hy0|].
           ++ assert (y = []) as -> by (destruct y; [reflexivity|rewrite zlen_cons in Hy0; pose proof (zlen_nonneg y); lia]).
              rewrite app_nil_r in Hy. right. exists h, []. rewrite app_nil_r. change (zlen (@nil Z)) with 0. split_and!; auto.
              destruct Hwf1 as (Hl & _). cbn [fst snd] in Hl. cbn [app] in *. lia.
           ++ left. unfold H2_FRAME_HEADER_SIZE. pose proof (zlen_nonneg y). lia.
        -- right. exists h, y. destruct Hwf1 as (Hl & _). cbn [fst snd] in Hl. rewrite Hl, zlen_app. split_and!; auto. lia.
Qed.

Lemma incomplete_none fs tail : Forall (fun f => frame_wf f /\ getType f.1 <> H2_FRAME_DATA) fs ->
  incomplete (concat (map frame_bytes fs) ++ tail) -> fs = [].
Proof.
  intros Hwf Hinc. destruct Hwf as [|[h p] fs [(Hl & _) Ht] Hwf]; [reflexivity|]. exfalso. cbn [map concat] in Hinc.
  rewrite <- app_assoc in Hinc. unfold frame_bytes in Hinc. cbn [fst snd] in *. rewrite <- app_assoc in Hinc.
  set (r := concat _ ++ tail) in Hinc. pose proof (zlen_nonneg r). pose proof (zlen_nonneg p).
  destruct Hinc as [Hlt|(h' & p' & E & _ & Hlt)].
  - rewrite zlen_app, zlen_header_bytes, zlen_app in Hlt. unfold H2_FRAME_HEADER_SIZE in Hlt. lia.
  - apply header_bytes_inj in E as [<- <-]. rewrite zlen_app in Hlt. lia.
Qed.


(** ** The parser ends *)

(** [w'] is [w] with part of the buffered input taken, whatever the frame. *)
Definition shrinks (w w' : W) : Prop :=
  in_ok w' /\ 0 <= m_padLen (c_in w'.1) /\ exists k, 0 <= k /\ inData w'.1 = zdrop k (inData w.1).

Lemma shrinks_trans w1 w2 w3 : shrinks w1 w2 -> shrinks w2 w3 -> shrinks w1 w3.
Proof.
  intros (_ & _ & k1 & Hk1 & E1) (O2 & P2 & k2 & Hk2 & E2). split; [exact O2|]. split; [exact P2|].
  exists (k1 + k2). split; [lia|]. rewrite E2, E1. apply zdrop_zdrop; lia.
Qed.

Lemma shrinks_inside w w' : in_ok w -> 0 <= m_padLen (c_in w.1) -> inside w'.1 = inside w.1 -> shrinks w w'.
Proof.
  intros Hok Hp E. apply inside_fields in E as (E1 & _ & _ & _ & _ & E6 & _). unfold shrinks, in_ok, inData. rewrite E1, E6.
  split; [exact Hok|]. split; [exact Hp|]. exists 0. rewrite zdrop_0. split; [lia|reflexivity].
Qed.

Lemma shrinks_pop n w : in_ok w -> 0 <= m_padLen (c_in w.1) -> 0 <= n -> shrinks w (on (pop_front n) w).
Proof.
  intros Hok Hp Hn. destruct (bq_pop_ok n _ Hok Hn) as [Hq Hd]. split; [exact Hq|]. split; [exact Hp|]. exists n. auto.
Qed.

Lemma shrinks_size w w' : shrinks w w' -> inSize w'.1 <= inSize w.1.
Proof. intros (_ & _ & k & Hk & E). unfold inSize. rewrite E, zlen_zdrop by lia. pose proof (zlen_nonneg (inData w.1)). lia. Qed.

Lemma shrinks_consumes w w' : good w -> consumes w w' -> shrinks w w'.
Proof. intros Hg Hc. destruct (cs_buf _ _ Hc Hg) as ((O & _ & _ & P) & k & Hk & E & _). split; [exact O|]. split; [exact P|]. exists k. split; [lia|exact E]. Qed.

Lemma setting_exit_inside id v d w r : setting id v d w = inl r -> inside r.2.1 = inside w.1.
Proof.
  unfold setting. repeat (destruct (_ =? _); [destruct (_ || _) || destruct (_ >? _); [intros [= <-]; first [reflexivity|apply doGoAway_inside]|discriminate]|]).
  discriminate.
Qed.

Lemma settings_loop_shrinks n : forall d w, in_ok w -> 0 <= m_padLen (c_in w.1) ->
  shrinks w (match settings_loop n d w with inl (_, w') => w' | inr (_, w') => w' end).
Proof.
  induction n as [|n IH]; intros d w Hok Hp; cbn [settings_loop]; [apply shrinks_inside; auto|]. unfold moveTo.
  assert (Hz : 0 <= Z.min 6 (inSize w.1)) by (pose proof (zlen_nonneg (inData w.1)); unfold inSize; lia).
  pose proof (shrinks_pop (Z.min 6 (inSize w.1)) w Hok Hp Hz) as H1. set (w1 := on _ w) in H1.
  change (pop_front (Z.min 6 (inSize w.1)) w.1, w.2) with w1. clearbody w1. pose proof H1 as (O1 & P1 & _).
  destruct (setting _ _ d w1) as [[r w2]|[d2 w2]] eqn:Es.
  - apply setting_exit_inside in Es. eapply shrinks_trans; [exact H1|]. apply shrinks_inside; auto.
  - apply setting_inside in Es. cbn [snd] in Es. pose proof (shrinks_inside w1 w2 O1 P1 Es) as H2. pose proof H2 as (O2 & P2 & _).
    specialize (IH d2 w2 O2 P2). destruct (settings_loop n d2 w2) as [[r w3]|[d3 w3]];
      (eapply shrinks_trans; [exact H1|]; eapply shrinks_trans; [exact H2|exact IH]).
Qed.

Lemma processSetting_shrinks h w w' : in_ok w -> 0 <= m_padLen (c_in w.1) -> processSettingFrame h w = (0, w') -> shrinks w w'.
Proof.
  intros Hok Hp. assert (Hin : forall w1, inside w1.1 = inside w.1 -> shrinks w w1) by (intros; apply shrinks_inside; auto).
  unfold processSettingFrame. destruct (negb _); [intros [= <-]; apply Hin, doGoAway_inside|]. cbv zeta.
  destruct (negb _); [intros [= <-]; apply Hin, doGoAway_inside|]. destruct (has _ _).
  { destruct (negb _); [discriminate|]. destruct (flag _ _); [intros [= <-]; apply Hin; reflexivity|discriminate]. }
  pose proof (settings_loop_shrinks (Z.to_nat (remain w.1 / 6)) 0 w Hok Hp) as Hl.
  destruct (settings_loop _ 0 w) as [[r w1]|[d w1]]; [intros [= _ <-]; exact Hl|]. set (w2 := on (set_flag SETTING_RCVD) (set_remain 0 w1)).
  assert (H2 : shrinks w w2) by exact Hl. clearbody w2. pose proof (count_inside w2) as H3. destruct (countControlFrame w2) as [b w3].
  cbn [snd] in H3. destruct b; [discriminate|]. set (w4 := on _ w3).
  assert (H4 : inside w4.1 = inside w3.1).
  { subst w4. apply inside_in. cbn [on fst]. unfold sendFrame0Bytes. rewrite guaranteeOutput_in. apply sendSettingsFrame_in. }
  clearbody w4. intros Hd. eapply shrinks_trans; [exact H2|]. pose proof H2 as (O2 & P2 & _). apply shrinks_inside; auto. rewrite <- H3, <- H4.
  destruct (negb _); injection Hd as <-; [|reflexivity]. apply inside_in, fold_adjWindow_in.
Qed.

(** A connection whose input buffer holds bytes, with the header of the frame
    it is reading when it is reading one. *)
Definition live (w : W) : Prop :=
  in_ok w /\ bytes_ok (inData w.1) /\ 0 <= m_padLen (c_in w.1) /\
  (0 <= remain w.1 -> let h := m_curH2Header (c_in w.1) in 0 <= getType h /\ (getType h = H2_FRAME_DATA \/ getLength h = remain w.1)).

Definition rounds_left (w : W) : Z := inSize w.1 + (if remain w.1 <? 0 then 0 else 1).

Lemma live_shrinks w w' : live w -> shrinks w w' -> remain w'.1 < 0 -> live w'.
Proof.
  intros (_ & Hb & _) (O & P & k & Hk & E) Hr. split; [exact O|]. rewrite E. split; [apply bytes_ok_zdrop; exact Hb|]. split; [exact P|]. lia.
Qed.

Lemma read_header_ok l : bytes_ok l -> 0 <= getLength (read_header l) /\ 0 <= getType (read_header l).
Proof.
  intros Hl. assert (Hn : forall i, 0 <= znth l i) by (intros i; apply znth_byte, Hl).
  split; [apply Z.lor_nonneg; split; [apply Z.lor_nonneg; split|]|]; try apply Z.shiftl_nonneg; apply Hn.
Qed.

Lemma parse_header_live w w' : live w -> parse_header w = inr w' ->
  live w' /\ 0 <= remain w'.1 /\ inSize w'.1 = inSize w.1 - (if remain w.1 <? 0 then 9 else 0).
Proof.
  intros (Hok & Hb & Hp & Hc). unfold parse_header, moveTo, H2_FRAME_HEADER_SIZE. destruct (Z.ltb_spec (remain w.1) 0) as [Hr|Hr].
  - destruct (Z.ltb_spec (inSize w.1) 9) as [|Hs]; [discriminate|]. rewrite Z.min_l by lia.
    destruct (read_header_ok (ztake 9 (inData w.1)) ltac:(apply Forall_take, Hb)) as [Hl Ht].
    destruct (_ >? _); [discriminate|]. intros [= <-]. destruct (bq_pop_ok 9 _ Hok ltac:(lia)) as [Hq Hqd].
    change (live (set_iCurrentFrameRemain (getLength (read_header (ztake 9 (inData w.1))))
      (set_curH2Header (read_header (ztake 9 (inData w.1))) (pop_front 9 w.1)), w.2) /\
      0 <= getLength (read_header (ztake 9 (inData w.1))) /\ zlen (bq_data (bq_pop 9 (m_bufInput (c_in w.1)))) = inSize w.1 - 9).
    split; [|split; [exact Hl|]].
    + split; [exact Hq|]. split; [|split; [exact Hp|intros _; split; [exact Ht|right; reflexivity]]].
      change (bytes_ok (bq_data (bq_pop 9 (m_bufInput (c_in w.1))))). rewrite Hqd. apply bytes_ok_zdrop. exact Hb.
    + rewrite Hqd, zlen_zdrop by lia. fold (inData w.1). fold (inSize w.1). lia.
  - intros [= <-]. split; [split_and!; auto|]. split; lia.
Qed.

(** A control frame, whatever it is. *)
Lemma processFrame_shrinks h w w' : live w -> 0 <= remain w.1 <= inSize w.1 -> 0 <= getType h -> getLength h = remain w.1 ->
  processFrame h w = (0, w') -> shrinks w w'.
Proof.
  intros (Hok & Hb & Hp & _) Hr Ht Hl. destruct (Z.eq_dec (getType h) H2_FRAME_SETTINGS) as [Es|Es].
  - unfold processFrame. cbv zeta. rewrite Es. destruct (_ && _ && _); [discriminate|]. apply processSetting_shrinks; assumption.
  - intros Hf. assert (Hg : good w) by (split_and!; auto; lia).
    apply processFrame_consumes in Hf; [|assumption..|congruence]. 
    set (w1 := on _ w) in Hf. apply (shrinks_consumes w1 w'); assumption.
Qed.

Lemma parse_body_live w w' : live w -> 0 <= remain w.1 -> parse_body w = inr w' ->
  inSize w'.1 = 0 \/ (live w' /\ remain w'.1 < 0 /\ inSize w'.1 <= inSize w.1).
Proof.
  intros Hlive Hr. pose proof Hlive as (Hok & Hb & Hp & Hc). destruct (Hc Hr) as [Ht Hlen]. unfold parse_body. cbv zeta.
  set (h := m_curH2Header (c_in w.1)) in *. destruct (_ && _); [discriminate|]. destruct (_ && _); [discriminate|].
  destruct (Z.eqb_spec (getType h) H2_FRAME_DATA) as [Ed|Ed]; cbn [negb].
  - destruct (_ && (inSize w.1 <? 1)) eqn:E1; [discriminate|].
    destruct (processDataFrame h w) as [r w1] eqn:Ep. unfold LS_OK. destruct (Z.eqb_spec r 0) as [->|]; [|discriminate]. cbn [negb].
    apply processDataFrame_handled in Ep; [|split_and!; auto|intros Hpad; rewrite Hpad in E1; lia].
    destruct Ep as [O1 D1 R1 P1 _]. pose proof (zlen_nonneg (inData w.1)).
    assert (Hs : inSize w1.1 = inSize w.1 - Z.min (remain w.1) (inSize w.1)).
    { unfold inSize in *. rewrite D1, zlen_zdrop; lia. }
    destruct (Z.eqb_spec (remain w1.1) 0) as [E0|E0]; intros [= <-].
    + right. split; [|split; [reflexivity|change (inSize w1.1 <= inSize w.1); unfold inSize in *; lia]].
      split; [exact O1|]. split; [change (bytes_ok (inData w1.1)); rewrite D1; apply bytes_ok_zdrop; exact Hb|].
      split; [exact P1|]. intros Hx. change (0 <= -9) in Hx. lia.
    + left. unfold inSize in *. lia.
  - destruct (Z.gtb_spec (remain w.1) (inSize w.1)); [discriminate|].
    destruct Hlen as [|Hlen]; [contradiction|]. assert (Hrs : 0 <= remain w.1 <= inSize w.1) by lia.
    destruct (processFrame h w) as [r w1] eqn:Ep. unfold LS_OK. destruct (Z.eqb_spec r 0) as [->|]; [|discriminate]. cbn [negb].
    apply processFrame_shrinks in Ep; [|assumption..]. intros [= <-]. right.
    assert (Hx : shrinks w (set_remain (- H2_FRAME_HEADER_SIZE)
      (if remain w1.1 >? 0 then on (fun c => pop_front (Z.min (remain c) (inSize c)) c) w1 else w1))).
    { destruct (Z.gtb_spec (remain w1.1) 0); [|exact Ep]. eapply shrinks_trans; [exact Ep|]. destruct Ep as (O1 & P1 & _).
      apply (shrinks_pop (Z.min (remain w1.1) (inSize w1.1)) w1 O1 P1). unfold inSize. pose proof (zlen_nonneg (inData w1.1)). lia. }
    split; [apply (live_shrinks w); [exact Hlive|exact Hx|reflexivity]|]. split; [reflexivity|apply (shrinks_size _ _ Hx)].
Qed.

Lemma parse_loop_fuel n : forall m w, live w -> rounds_left w < Z.of_nat n -> rounds_left w < Z.of_nat m ->
  parse_loop n w = parse_loop m w.
Proof.
  induction n as [|n IH]; intros m w Hlive Hn Hm.
  { exfalso. unfold rounds_left in Hn. pose proof (zlen_nonneg (inData w.1)). unfold inSize in Hn. destruct (_ <? 0); lia. }
  destruct m as [|m]; [exfalso; unfold rounds_left in Hm; pose proof (zlen_nonneg (inData w.1)); unfold inSize in Hm; destruct (_ <? 0); lia|].
  cbn [parse_loop]. destruct (inSize w.1 =? 0); [reflexivity|]. destruct (parse_header w) as [|w1] eqn:Eh; [reflexivity|].
  destruct (parse_header_live w w1 Hlive Eh) as (Hlive1 & Hr1 & Hs1).
  destruct (parse_body w1) as [|w2] eqn:Eb; [reflexivity|].
  destruct (parse_body_live w1 w2 Hlive1 Hr1 Eb) as [H0|(Hlive2 & Hr2 & Hs2)].
  - assert (H : forall k, parse_loop k w2 = (0, w2)) by (intros [|k]; cbn [parse_loop]; rewrite ?H0; reflexivity). rewrite !H. reflexivity.
  - apply IH; [exact Hlive2| |]; unfold rounds_left in *; replace (remain w2.1 <? 0) with true by lia; destruct (remain w.1 <? 0); lia.
Qed.

(** C28: the parser ends.  On a connection whose buffer holds bytes, the loop of
    [parseFrame] needs no more rounds than there are bytes in the buffer, plus
    one to finish a frame whose header was read before and one to find the
    buffer empty: whatever the frames are and whatever their handlers and the
    handlers of the streams do, more rounds change nothing. *)
Theorem parse_total n w : live w -> (S (length (inData w.1)) < n)%nat -> parse_loop n w = parseFrame w.
Proof.
  intros Hlive Hn. apply parse_loop_fuel; [exact Hlive| |]; unfold rounds_left, inSize, zlen; destruct (_ <? 0); lia.
Qed.

End Framing.

(** ** Examples

    A server whose handlers do nothing, whose header blocks all decode. *)

Definition idle_app : App loopbuf unit :=
  {| app_call := fun _ _ w => (0, w); app_handler := fun _ => true; app_decode := fun _ a => (true, a);
     app_capacity := fun _ a => a |}.

Lemma idle_laws : AppLaws idle_app.
Proof. constructor. reflexivity. Qed.

#[local] Existing Instance idle_app.
#[local] Existing Instance idle_laws.

Definition frame (type flags id : Z) (p : list Z) : H2FrameHeader * list Z := (new_header (zlen p) type flags id, p).

(** A connection past the client's preface with [data] in its buffer. *)
Definition started (data : list Z) : conn loopbuf * unit :=
  (set_bufInput (bq_append data (m_bufInput (c_in (new_conn 262144)))) (set_flag PREFACE (new_conn 262144)), tt).

Lemma parse_result {Q A} {BQ : ByteQueue Q} {AP : App Q A} (w : conn Q * A) r :
  (parseFrame w).1 = r -> parseFrame w = (r, (parseFrame w).2).
Proof. intros <-. apply surjective_pairing. Qed.

Ltac bytes := repeat (constructor; [split; vm_compute; first [reflexivity | discriminate]|]); constructor.

Definition sample_frames : list (H2FrameHeader * list Z) :=
  [frame H2_FRAME_SETTINGS 0 0 [0; 3; 0; 0; 0; 100]; frame H2_FRAME_PING 0 0 [1; 2; 3; 4; 5; 6; 7; 8];
   frame H2_FRAME_HEADERS H2_FLAG_END_HEADERS 1 [130; 134]; frame H2_FRAME_DATA H2_FLAG_PADDED 1 [2; 7; 8; 9; 0; 0]].

Definition sample_rest : list Z := header_bytes (new_header 4 H2_FRAME_WINDOW_UPDATE 0 0) ++ [0; 0].

Lemma new_conn_ok n : bq_ok (m_bufInput (c_in (new_conn (Q := loopbuf) n))).
Proof. apply (bq_guarantee_ok 1024 bq_new bq_new_ok). lia. Qed.

Lemma started_ready data : bytes_ok data -> ready (started data).
Proof.
  intros Hb. destruct (bq_append_ok data _ (new_conn_ok 262144)) as [Hq Hd]. split; [exact Hq|].
  assert (E : inData (started data).1 = data) by exact Hd. rewrite E. split; [exact Hb|]. split; [reflexivity|left; reflexivity].
Qed.

Lemma sample_wf : Forall frame_wf sample_frames.
Proof.
  repeat (constructor; [split; [vm_compute; reflexivity|split; [bytes|split; [intros _; vm_compute; reflexivity|intros _ _; discriminate]]]|]).
  constructor.
Qed.

Lemma sample_rest_incomplete : incomplete sample_rest.
Proof. right. exists (new_header 4 H2_FRAME_WINDOW_UPDATE 0 0), [0; 0]. split; [reflexivity|]. split; [discriminate|reflexivity]. Qed.

Lemma parse_dispatches_frames_witness :
  let w := started (concat (map frame_bytes sample_frames) ++ sample_rest) in
  pending (parseFrame w).2.1 = sample_rest /\
  exists evss w1, rounds w sample_frames evss w1 /\ trace (c_in (parseFrame w).2.1) = trace (c_in w1.1) /\
    Forall2 dispatched sample_frames evss /\ trace (c_in (parseFrame w).2.1) = trace (c_in w.1) ++ concat evss.
Proof.
  intros w. apply (parse_dispatches_frames sample_frames w sample_rest).
  - apply started_ready. bytes.
  - vm_compute. reflexivity.
  - exact sample_wf.
  - exact sample_rest_incomplete.
  - apply parse_result. vm_compute. reflexivity.
Defined.

Definition control_frames : list (H2FrameHeader * list Z) := take 3 sample_frames.

(** The same bytes in three segments, cut inside a header and inside a payload. *)
Definition sample_segs : list (list Z) :=
  let s := concat (map frame_bytes control_frames) ++ sample_rest in [ztake 12 s; slice 12 20 s; zdrop 20 s].

Definition fed_end : conn loopbuf * unit :=
  fold_left (fun w seg => (parseFrame (receive seg w)).2) sample_segs (started []).

Lemma sample_fed : fed (started []) sample_segs fed_end.
Proof.
  unfold fed_end, sample_segs. cbv zeta. cbn [fold_left].
  repeat (eapply fed_seg; [vm_compute; bytes|vm_compute; discriminate|apply parse_result; vm_compute; reflexivity|]). apply fed_nil.
Qed.


Lemma parse_total_witness :
  let w := started (concat (map frame_bytes sample_frames) ++ sample_rest) in parse_loop 1000 w = parseFrame w.
Proof.
  intros w. apply parse_total.
  - assert (Hr : ready w) by (apply started_ready; bytes). destruct Hr as (Hok & Hb & Hp & _). split_and!; [exact Hok|exact Hb|exact Hp|].
    intros Hr. vm_compute in Hr. contradiction Hr. reflexivity.
  - apply Nat.ltb_lt. vm_compute. reflexivity.
Defined.
