(* ===== verification/H2Flow.v ===== *)
(** * H2Flow: the receive side's flow control of HTTP/2
    (src/src/h2/h2connbase.cpp, src/src/h2/h2streambase.cpp)

    The bytes a stream may still be sent, those that wait to be granted again
    and those in its buffer make a constant: receiving DATA, reading it and
    sending WINDOW_UPDATE frames all keep it.  So a peer is never granted more
    than the server can hold, and gets its window back as its data is read. *)

From S2P Require Import Prelude LoopBuf H2Frame H2State H2Conn H2Input H2Framing.
From stdpp Require Import fin_maps functions.
#[local] Open Scope Z_scope.

Section Credit.

Context {Q : Type} {BQ : ByteQueue Q}.
Implicit Types (c : conn Q) (s : stream Q).

(** Received and not read. *)
Definition buffered s : Z := zlen (bq_data (m_bufRcvd s)).

Definition credit s : Z := m_iWindowIn s + m_iWindowToUpdate s + buffered s.
Definition conn_credit c : Z := m_iCurDataInWindow (c_flow c) + m_iInBytesToUpdate (c_flow c).

(** [c'] is [c] with stream [id] changed by [f] and [n] more credit for the
    connection. *)
Record credits (id n : Z) (f : stream Q -> stream Q) (c c' : conn Q) : Prop := {
  cr_conn : conn_credit c' = conn_credit c + n;
  cr_init : m_iStreamInInitWindowSize (c_flow c') = m_iStreamInInitWindowSize (c_flow c);
  cr_stream : deref id c' = f <$> deref id c;
  cr_other : forall j, j <> id -> deref j c' = deref j c }.

Lemma credits_trans id n1 n2 f1 f2 a b c :
  credits id n1 f1 a b -> credits id n2 f2 b c -> credits id (n1 + n2) (fun s => f2 (f1 s)) a c.
Proof.
  intros [C1 N1 S1 O1] [C2 N2 S2 O2]. split; try congruence; [lia| |].
  - rewrite S2, S1. destruct (deref id a); reflexivity.
  - intros j Hj. rewrite O2, O1 by exact Hj. reflexivity.
Qed.

Lemma credits_refl id c : credits id 0 (fun s => s) c c.
Proof. split; auto; [lia|]. destruct (deref id c); reflexivity. Qed.

Lemma credits_outputs id d c c' : outputs d c c' -> credits id 0 (fun s => s) c c'.
Proof.
  intros [_ Hi Hf _ _ Hm _]. split.
  - unfold conn_credit. rewrite Hf. lia.
  - rewrite Hf. reflexivity.
  - unfold deref. rewrite Hm. destruct (m_mapStream c !! id); reflexivity.
  - intros j _. unfold deref. rewrite Hm. reflexivity.
Qed.

Lemma credits_upd id f c : credits id 0 f c (upd id f c).
Proof.
  split; auto; [unfold conn_credit; cbn; lia|apply deref_upd|]. intros j Hj. apply deref_upd_ne. exact Hj.
Qed.

Lemma updateWindow_credits id c : credits id 0 (fun s => s) c (updateWindow c).
Proof.
  unfold updateWindow. destruct (Z.leb_spec (m_iInBytesToUpdate (c_flow c)) 0); [apply credits_refl|]. cbv zeta.
  set (n := m_iInBytesToUpdate (c_flow c)) in *. set (c1 := set_iCurDataInWindow _ c).
  pose proof (sendFrame4Bytes_outputs H2_FRAME_WINDOW_UPDATE 0 n true c1) as Ho.
  set (c2 := sendFrame4Bytes _ _ _ _ c1) in *. clearbody c2. destruct Ho as [_ Hi Hf _ _ Hm _].
  split; [|cbn; rewrite Hf; reflexivity| |].
  - unfold conn_credit. cbn. rewrite Hf. subst n. cbn. lia.
  - unfold deref. cbn. rewrite Hm. cbn. destruct (m_mapStream c !! id); reflexivity.
  - intros j _. unfold deref. cbn. rewrite Hm. reflexivity.
Qed.

Lemma addWindowInToUpdate_credits id n c : 0 <= n -> credits id n (fun s => s) c (addWindowInToUpdate n c).
Proof.
  intros Hn. unfold addWindowInToUpdate. destruct (Z.leb_spec n 0).
  - replace n with 0 by lia. apply credits_refl.
  - cbv zeta. set (c1 := set_iInBytesToUpdate _ c).
    assert (H1 : credits id n (fun s => s) c c1).
    { split; auto; [unfold conn_credit; cbn; lia|]. change (deref id c1) with (deref id c). destruct (deref id c); reflexivity. }
    clearbody c1. destruct (_ <? _); [|exact H1]. rewrite <- (Z.add_0_r n).
    apply (credits_trans id n 0 (fun s => s) (fun s => s) c c1); [exact H1|apply updateWindow_credits].
Qed.

(** The stream's credit moved to its window. *)
Definition granted s : stream Q := set_iWindowToUpdate 0 (set_iWindowIn (m_iWindowIn s + m_iWindowToUpdate s) s).

Lemma credit_granted s : credit (granted s) = credit s.
Proof. unfold credit, granted, buffered. cbn. lia. Qed.

Lemma windowUpdate_credits id c s : deref id c = Some s ->
  credits id 0 (fun s => if m_iWindowToUpdate s >=? m_iStreamInInitWindowSize (c_flow c) / 2 then granted s else s) c (windowUpdate id c).
Proof.
  intros Es. unfold windowUpdate. rewrite Es.
  destruct (m_iWindowToUpdate s >=? m_iStreamInInitWindowSize (c_flow c) / 2) eqn:E.
  - set (c1 := sendStreamWindowUpdateFrame _ _ c). assert (H1 : credits id 0 (fun s => s) c c1).
    { subst c1. unfold sendStreamWindowUpdateFrame.
      pose proof (credits_outputs id _ _ _ (sendFrame4Bytes_outputs H2_FRAME_WINDOW_UPDATE id (m_iWindowToUpdate s) false c)) as Ho.
      cbv zeta. set (c2 := sendFrame4Bytes _ _ _ _ c) in *. clearbody c2. match goal with |- credits _ _ _ _ (if ?b then _ else _) => destruct b end; [|exact Ho].
      apply (credits_trans id 0 0 (fun s => s) (fun s => s) c c2); [exact Ho|apply updateWindow_credits]. }
    clearbody c1. pose proof (credits_trans _ _ _ _ _ _ _ _ H1 (credits_upd id granted c1)) as [C N S O].
    split; auto. etransitivity; [exact S|]. rewrite Es. cbn. rewrite E. reflexivity.
  - destruct (credits_refl id c) as [C N S O]. split; auto. rewrite Es. cbn. rewrite E. reflexivity.
Qed.

Lemma adjWindowToUpdate_credits id n c : 0 <= n -> deref id c <> None ->
  credits id n (fun s => set_iWindowToUpdate (m_iWindowToUpdate s + n) s) c (adjWindowToUpdate id n c).
Proof.
  intros Hn Hs. unfold adjWindowToUpdate. destruct (deref id c); [|congruence]. rewrite <- (Z.add_0_l n) at 1.
  eapply (credits_trans id 0 n _ (fun s => s)); [apply credits_upd|]. apply addWindowInToUpdate_credits. exact Hn.
Qed.

(** Granting a stream's credit when enough of it waits. *)
Lemma granted_cases s m : let s' := if m_iWindowToUpdate s >=? m then granted s else s in
  credit s' = credit s /\ m_bufRcvd s' = m_bufRcvd s /\ s_bytesRecv s' = s_bytesRecv s /\ (0 < m -> m_iWindowToUpdate s' < m).
Proof.
  intros s'. subst s'. destruct (Z.geb_spec (m_iWindowToUpdate s) m); split_and!; auto using credit_granted; cbn; lia.
Qed.

Lemma credit_toUpdate n s : credit (set_iWindowToUpdate (m_iWindowToUpdate s + n) s) = credit s + n.
Proof. unfold credit, buffered. cbn. lia. Qed.

(** Taking [n] bytes of the buffer and giving their credit back. *)
Lemma take_credits id n c s : deref id c = Some s -> bq_ok (m_bufRcvd s) -> 0 < n <= buffered s ->
  2 <= m_iStreamInInitWindowSize (c_flow c) ->
  exists s' c', windowUpdate id (adjWindowToUpdate id n (upd id (set_bufRcvd (bq_pop n (m_bufRcvd s))) c)) = c' /\
    deref id c' = Some s' /\ bq_data (m_bufRcvd s') = zdrop n (bq_data (m_bufRcvd s)) /\ credit s' = credit s /\
    conn_credit c' = conn_credit c + n /\ m_iWindowToUpdate s' < m_iStreamInInitWindowSize (c_flow c) / 2 /\
    (forall j, j <> id -> deref j c' = deref j c).
Proof.
  intros Es Hq Hn Hi. set (c1 := upd id _ c). set (c2 := adjWindowToUpdate id n c1).
  destruct (bq_pop_ok n _ Hq ltac:(lia)) as [Hq1 Hd1].
  assert (Hne : deref id c1 <> None) by (subst c1; rewrite deref_upd, Es; discriminate).
  pose proof (credits_trans _ _ _ _ _ _ _ _ (credits_upd id (set_bufRcvd (bq_pop n (m_bufRcvd s))) c)
    (adjWindowToUpdate_credits id n c1 ltac:(lia) Hne)) as H12. fold c2 in H12.
  pose proof (cr_stream _ _ _ _ _ H12) as Es2. rewrite Es in Es2. cbn [fmap option_fmap option_map] in Es2.
  pose proof (credits_trans _ _ _ _ _ _ _ _ H12 (windowUpdate_credits id c2 _ Es2)) as [C N S O].
  rewrite Es in S. cbn [fmap option_fmap option_map] in S. rewrite (cr_init _ _ _ _ _ H12) in S.
  eexists _, _. split; [reflexivity|]. split; [exact S|].
  match type of S with _ = Some (if _ >=? ?m then _ else _) => pose proof (granted_cases
    (set_iWindowToUpdate (m_iWindowToUpdate (set_bufRcvd (bq_pop n (m_bufRcvd s)) s) + n) (set_bufRcvd (bq_pop n (m_bufRcvd s)) s)) m) as G end.
  cbv zeta in G. destruct G as (Gc & Gb & _ & Gu). split_and!.
  - rewrite Gb. exact Hd1.
  - rewrite Gc, credit_toUpdate. unfold credit, buffered in *. cbn. rewrite Hd1, zlen_zdrop; lia.
  - lia.
  - apply Gu. pose proof (Z.div_str_pos (m_iStreamInInitWindowSize (c_flow c)) 2). lia.
  - exact O.
Qed.

(** C29: reading a stream.  The bytes handed to the application are the oldest of
    the stream's buffer, at most as many as asked for, and leave it; the end of
    the stream is reported exactly when there is nothing to read and the peer is
    done.  What is read becomes credit: the stream's window, the credit waiting
    to be granted and the bytes still buffered keep their sum, the connection's
    credit grows by the bytes read, no other stream changes, and after a read
    less than half of the initial window waits to be granted. *)
Theorem read_returns_credit id len c s r c' :
  deref id c = Some s -> s_state s <> HIOS_DISCONNECTED -> bq_ok (m_bufRcvd s) -> 0 <= len ->
  2 <= m_iStreamInInitWindowSize (c_flow c) -> read id len c = (r, c') ->
  exists s', deref id c' = Some s' /\
    default [] r ++ bq_data (m_bufRcvd s') = bq_data (m_bufRcvd s) /\
    zlen (default [] r) = Z.min len (buffered s) /\
    (r = None <-> s_flag s PEER_SHUTDOWN = true /\ Z.min len (buffered s) = 0) /\
    credit s' = credit s /\ conn_credit c' = conn_credit c + zlen (default [] r) /\
    (default [] r <> [] -> m_iWindowToUpdate s' < m_iStreamInInitWindowSize (c_flow c) / 2) /\
    (forall j, j <> id -> deref j c' = deref j c).
Proof.
  intros Es Hst Hq Hlen Hi. unfold read. rewrite Es. replace (s_state s =? HIOS_DISCONNECTED) with false by lia. cbv zeta.
  set (data := bq_data (m_bufRcvd s)). set (d := ztake len data).
  assert (Hd : zlen d = Z.min len (buffered s)) by (subst d; rewrite zlen_ztake by lia; reflexivity).
  pose proof (zlen_nonneg data) as Hz. change (zlen data) with (buffered s) in Hz.
  assert (Hdd : d ++ zdrop (zlen d) data = data).
  { rewrite Hd. subst d. destruct (Z.leb_spec len (buffered s)).
    - rewrite Z.min_l by lia. apply ztake_zdrop.
    - rewrite Z.min_r by lia. change (buffered s) with (zlen data). rewrite ztake_all, zdrop_all by (change (zlen data) with (buffered s) in *; lia).
      apply app_nil_r. }
  set (c1 := upd id _ c). set (c2 := if zlen d >? 0 then _ else c1).
  assert (H2 : exists s2, deref id c2 = Some s2 /\ bq_data (m_bufRcvd s2) = zdrop (zlen d) data /\ credit s2 = credit s /\
    conn_credit c2 = conn_credit c + zlen d /\ (d <> [] -> m_iWindowToUpdate s2 < m_iStreamInInitWindowSize (c_flow c) / 2) /\
    (forall j, j <> id -> deref j c2 = deref j c)).
  { subst c2. destruct (Z.gtb_spec (zlen d) 0).
    - destruct (take_credits id (zlen d) c s Es Hq ltac:(lia) Hi) as (s2 & c3 & E & H1 & H2 & H3 & H4 & H5 & H6).
      fold c1 in E. rewrite E. exists s2. split_and!; auto.
    - assert (Hd0 : d = []) by (destruct d; [reflexivity|rewrite zlen_cons in *; pose proof (zlen_nonneg d); lia]).
      destruct (bq_pop_ok (zlen d) _ Hq ltac:(lia)) as [Hq1 Hd1]. subst c1. eexists. rewrite deref_upd, Es. split; [reflexivity|].
      split; [exact Hd1|]. rewrite Hd0 in *. split_and!; [|unfold conn_credit; cbn; lia|congruence|intros j Hj; apply deref_upd_ne; exact Hj].
      unfold credit, buffered. cbn. rewrite Hd1. reflexivity. }
  clearbody c2. destruct H2 as (s2 & Es2 & Hb2 & Hc2 & Hcc2 & Hu2 & Ho2).
  destruct (s_flag s PEER_SHUTDOWN && _) eqn:Ee.
  - intros [= <- <-]. exists (sset READ_EOS true s2). rewrite deref_upd, Es2.
    assert (Hdef : default [] (if zlen d =? 0 then None else Some d) = d).
    { destruct (Z.eqb_spec (zlen d) 0); [|reflexivity]. destruct d; [reflexivity|]. rewrite zlen_cons in *. pose proof (zlen_nonneg d). lia. }
    rewrite Hdef. split_and!; auto.
    + change (m_bufRcvd (sset READ_EOS true s2)) with (m_bufRcvd s2). rewrite Hb2. exact Hdd.
    + rewrite <- Hd. apply andb_true_iff in Ee as [Ee _]. destruct (Z.eqb_spec (zlen d) 0); split; auto; [discriminate|].
      intros [_ ?]. lia.
    + intros j Hj. rewrite deref_upd_ne by exact Hj. auto.
  - intros [= <- <-]. exists s2. change (default [] (Some d)) with d. split_and!; auto.
    + rewrite Hb2. exact Hdd.
    + rewrite <- Hd. split; [discriminate|]. intros [Ep Ez]. rewrite Ep, Ez in Ee. discriminate.
Qed.

Lemma credits_same id c c' : c_flow c' = c_flow c -> m_mapStream c' = m_mapStream c -> credits id 0 (fun s => s) c c'.
Proof.
  intros Hf Hm. split.
  - unfold conn_credit. rewrite Hf. lia.
  - rewrite Hf. reflexivity.
  - unfold deref. rewrite Hm. destruct (m_mapStream c !! id); reflexivity.
  - intros j _. unfold deref. rewrite Hm. reflexivity.
Qed.

Lemma credits_l id n f a b c : credits id 0 (fun s => s) a b -> credits id n f b c -> credits id n f a c.
Proof. intros H1 H2. exact (credits_trans id 0 n (fun s => s) f a b c H1 H2). Qed.

Lemma consumeWindowIn_credits id n c : 0 < n <= m_iCurDataInWindow (c_flow c) ->
  exists c', consumeWindowIn n c = Some c' /\ credits id (- n) (fun s => s) c c' /\ c_cnt c' = c_cnt c.
Proof.
  intros Hn. unfold consumeWindowIn. replace (n <=? 0) with false by lia. replace (n >? m_iCurDataInWindow (c_flow c)) with false by lia.
  eexists. split; [reflexivity|]. split; [|reflexivity]. split; [unfold conn_credit; cbn; lia|reflexivity| |reflexivity].
  change (deref id (set_iCurDataInWindow (m_iCurDataInWindow (c_flow c) - n) c)) with (deref id c). destruct (deref id c); reflexivity.
Qed.

Lemma stream_consumeWindowIn_credits id n c s : deref id c = Some s -> 0 < n <= m_iWindowIn s ->
  exists c', stream_consumeWindowIn id n c = Some c' /\ credits id 0 (set_iWindowIn (m_iWindowIn s - n)) c c'.
Proof.
  intros Es Hn. unfold stream_consumeWindowIn. rewrite Es. replace (n <=? 0) with false by lia.
  replace (n >? m_iWindowIn s) with false by lia. eexists. split; [reflexivity|]. apply credits_upd.
Qed.

Lemma sent_stream_continueWrite id c : sent id 0 [] c (stream_continueWrite id c).
Proof.
  unfold stream_continueWrite. destruct (deref id c); [|apply sent_refl]. cbv zeta. set (c1 := upd id _ c).
  assert (H1 : sent id 0 [] c c1) by (apply sent_upd; intros t; auto). clearbody c1. eapply sent_nil_l; [exact H1|].
  eapply sent_nil_r; [|apply sent_outputs, needWriteEvent_outputs].
  destruct (negb _); [apply sent_add2PriorityQue|apply sent_refl].
Qed.

Lemma wraps_cases z : - 2 ^ 31 <= z < 2 ^ 32 -> wraps 32 z = if z <? 2 ^ 31 then z else z - 2 ^ 32.
Proof.
  intros Hz. destruct (Z.ltb_spec z (2 ^ 31)); [apply wraps_small; lia|]. unfold wraps. change (32 - 1) with 31.
  replace (z + 2 ^ 31) with (z - 2 ^ 31 + 1 * 2 ^ 32) by lia. rewrite Z.mod_add, Z.mod_small by lia. lia.
Qed.

(** A stream's send window stays a 31-bit number.  When the peer grants [n]
    bytes, or takes some back with a new initial window, the call fails exactly
    when the sum is negative or does not fit; otherwise the window is the sum.
    Either way the stored window fits an [int32_t], nothing else of the stream's
    flow control changes, and no other stream does.  A window that is negative
    only because the initial window shrank is refused the same way. *)
Theorem adjWindowOut_bounds id n c s :
  deref id c = Some s -> - 2 ^ 31 <= m_iWindowOut s < 2 ^ 31 -> - 2 ^ 31 <= m_iWindowOut s + n -> n < 2 ^ 31 ->
  exists s', deref id (adjWindowOut id n c).2 = Some s' /\
    ((adjWindowOut id n c).1 = -1 <-> m_iWindowOut s + n < 0 \/ 2 ^ 31 <= m_iWindowOut s + n) /\
    ((adjWindowOut id n c).1 = 0 <-> 0 <= m_iWindowOut s + n < 2 ^ 31) /\
    - 2 ^ 31 <= m_iWindowOut s' < 2 ^ 31 /\ (0 <= m_iWindowOut s + n < 2 ^ 31 -> m_iWindowOut s' = m_iWindowOut s + n) /\
    credit s' = credit s /\ (forall j, j <> id -> deref j (adjWindowOut id n c).2 = deref j c).
Proof.
  intros Es Hw Hl Hn. unfold adjWindowOut. rewrite Es. rewrite wraps_cases by lia. cbv zeta.
  set (z := m_iWindowOut s + n) in *. set (v := if z <? 2 ^ 31 then z else z - 2 ^ 32).
  assert (Hv : (v < 0 <-> z < 0 \/ 2 ^ 31 <= z) /\ - 2 ^ 31 <= v < 2 ^ 31 /\ (0 <= z < 2 ^ 31 -> v = z)).
  { subst v. destruct (Z.ltb_spec z (2 ^ 31)); lia. }
  clearbody v. destruct Hv as (Hneg & Hr & Hin). set (c1 := upd id (set_iWindowOut v) c).
  assert (E1 : deref id c1 = Some (set_iWindowOut v s)) by (subst c1; rewrite deref_upd, Es; reflexivity).
  assert (O1 : forall j, j <> id -> deref j c1 = deref j c) by (intros; apply deref_upd_ne; assumption). clearbody c1.
  destruct (Z.ltb_spec v 0) as [Hv|Hv].
  - exists (set_iWindowOut v s). cbn [fst snd]. change (m_iWindowOut (set_iWindowOut v s)) with v.
    split_and!; auto; first [lia | reflexivity].
  - set (c2 := if s_flag s WANT_WRITE then _ else _). cbn [fst snd].
    assert (H2 : sent id 0 [] c1 c2).
    { eapply sent_nil_l; [apply (sent_upd id (sset PAUSE_WRITE false)); intros t; auto|]. subst c2.
      destruct (s_flag s WANT_WRITE); [apply sent_stream_continueWrite|apply sent_refl]. }
    destruct (st_stream _ _ _ _ _ H2 _ E1) as (s' & E2 & Hw2 & _ & Hi2 & Hu2 & Hb2). cbn in Hw2, Hi2, Hu2, Hb2.
    exists s'. split_and!; auto; try lia.
    + unfold credit, buffered. rewrite Hi2, Hu2, Hb2. reflexivity.
    + intros j Hj. rewrite (st_other _ _ _ _ _ H2 j Hj). auto.
Qed.

End Credit.

Section Delivery.

Context {Q A : Type} {BQ : ByteQueue Q} {AP : App Q A}.
Implicit Types (w : conn Q * A) (s : stream Q).

Lemma data_payload_delivers h id w s :
  in_ok w -> 0 <= m_padLen (c_in w.1) < remain w.1 -> remain w.1 <= inSize w.1 -> m_current (c_in w.1) = Some id ->
  deref id w.1 = Some s -> bq_ok (m_bufRcvd s) -> s_flag s WANT_READ = false -> has (getFlags h) H2_CTRL_FLAG_FIN = false ->
  let d := ztake (remain w.1 - m_padLen (c_in w.1)) (inData w.1) in
  exists w' s', data_payload h id w = (0, w') /\ inData w'.1 = zdrop (remain w.1) (inData w.1) /\ remain w'.1 = 0 /\
    deref id w'.1 = Some s' /\ bq_data (m_bufRcvd s') = bq_data (m_bufRcvd s) ++ d /\ credit s' = credit s + zlen d /\
    s_bytesRecv s' = s_bytesRecv s + zlen d /\ conn_credit w'.1 = conn_credit w.1 /\
    (forall j, j <> id -> deref j w'.1 = deref j w.1).
Proof.
  intros Hok Hp Hfull Hcur Es Hq Hwr Hfin d. unfold data_payload. replace (remain w.1 =? m_padLen (c_in w.1)) with false by lia.
  cbn [andb]. cbv zeta. replace (remain w.1 >? m_padLen (c_in w.1)) with true by lia.
  set (w2 := on (set_inputState ST_DATA_PAYLOAD) w).
  destruct (data_loop_spec id (S (length (inData w2.1))) w2 Hok) as (w3 & ds & -> & Hdt & Hcat & _);
    [change (remain w2.1) with (remain w.1); lia|change (m_padLen (c_in w2.1)) with (m_padLen (c_in w.1)); lia| |lia|].
  { intros _. change (m_padLen (c_in w.1) < remain w.1). lia. }
  change (inSize w2.1) with (inSize w.1) in *. change (remain w2.1) with (remain w.1) in *. change (inData w2.1) with (inData w.1) in *.
  rewrite Z.min_l in Hdt by lia. replace (inSize w.1 <? remain w.1) with false by lia.
  assert (Hd : concat ds = d).
  { rewrite Hcat. subst d. f_equal. unfold payload_room. rewrite decide_True by reflexivity.
    change (m_padLen (c_in w2.1)) with (m_padLen (c_in w.1)). change (remain w2.1) with (remain w.1). lia. }
  destruct (dt_stream _ _ _ _ _ Hdt s Es Hq) as (q & n & Es3 & Hq3 & Hd3 & ->). rewrite Hd in *.
  set (s3 := set_bufRcvd q _) in *. unfold data_done. rewrite Hfin. cbn [Z.eqb].
  pose proof (windowUpdate_credits id w3.1 s3 Es3) as [C N S O]. rewrite Es3 in S. cbn [fmap option_fmap option_map] in S.
  destruct (granted_cases s3 (m_iStreamInInitWindowSize (c_flow w3.1) / 2)) as (Gc & Gb & Gr & _).
  set (s4 := if _ >=? _ then granted s3 else s3) in *.
  assert (Hw4 : s_flag s4 WANT_READ = false) by (subst s4; destruct (_ >=? _); exact Hwr). clearbody s4.
  unfold current_onRead. cbn [on fst]. rewrite windowUpdate_in, (dt_current _ _ _ _ _ Hdt).
  change (m_current (c_in w2.1)) with (m_current (c_in w.1)). rewrite Hcur, S, Hw4.
  eexists _, s4. split; [reflexivity|]. cbn [on fst]. pose proof (inside_in _ _ (windowUpdate_in id w3.1)) as Hi.
  apply inside_fields in Hi as (F1 & _ & F3 & _). destruct (dt_ok _ _ _ _ _ Hdt Hok) as [_ Hd'].
  split; [unfold inData in *; rewrite F1; exact Hd'|]. split.
  { rewrite F3, (dt_remain _ _ _ _ _ Hdt). change (remain w2.1) with (remain w.1). lia. }
  split; [exact S|]. rewrite Gb, Gc, Gr. split; [exact Hd3|]. split.
  { unfold credit, buffered. cbn. rewrite Hd3, zlen_app. lia. }
  split; [reflexivity|]. split.
  - rewrite C. unfold conn_credit. destruct (dt_rest _ _ _ _ _ Hdt) as (-> & _). change (c_flow w2.1) with (c_flow w.1). lia.
  - intros j Hj. rewrite O, (dt_other _ _ _ _ _ Hdt) by exact Hj. reflexivity.
Qed.

(** Taking the pad length, and giving the padding back. *)
Lemma pad_given id c : deref id c <> None -> 0 <= m_padLen (c_in c) -> bq_ok (m_bufInput (c_in c)) ->
  let c1 := set_iCurrentFrameRemain (remain c - 1) (pop_front 1 c) in
  let n := 1 + m_padLen (c_in c) in
  let c2 := adjWindowToUpdate id (1 + m_padLen (c_in c1)) c1 in
  bq_ok (m_bufInput (c_in c2)) /\ inData c2 = zdrop 1 (inData c) /\ remain c2 = remain c - 1 /\
  m_padLen (c_in c2) = m_padLen (c_in c) /\ m_current (c_in c2) = m_current (c_in c) /\
  credits id n (fun s => set_iWindowToUpdate (m_iWindowToUpdate s + n) s) c c2.
Proof.
  intros Hs Hp Hok c1 n c2. destruct (bq_pop_ok 1 _ Hok ltac:(lia)) as [Hq Hd].
  pose proof (adjWindowToUpdate_in id (1 + m_padLen (c_in c1)) c1) as Hi. fold c2 in Hi.
  unfold inData, remain. rewrite Hi. split; [exact Hq|]. split; [exact Hd|]. split; [reflexivity|]. split; [reflexivity|]. split; [reflexivity|].
  apply (credits_l id n _ c c1); [apply credits_same; reflexivity|]. apply (adjWindowToUpdate_credits id n c1); [subst n; lia|exact Hs].
Qed.

(** Up to the payload: the frame is charged to both windows and its padding
    given back. *)
Definition charged (id j pad given : Z) s w w6 : Prop :=
  in_ok w6 /\ inData w6.1 = zdrop j (inData w.1) /\ remain w6.1 = remain w.1 - j /\ m_padLen (c_in w6.1) = pad /\
  m_current (c_in w6.1) = Some id /\
  credits id (- remain w.1 + 0 + given)
    (fun s0 => set_iWindowToUpdate (m_iWindowToUpdate s0 + given) (set_iWindowIn (m_iWindowIn s - remain w.1) s0)) w.1 w6.1.

Lemma data_charged h w s :
  let id := getStreamId h in
  let padded := has (getFlags h) H2_FLAG_PADDED in
  let pad := if padded then znth (inData w.1) 0 else 0 in
  in_ok w -> bytes_ok (inData w.1) -> 0 < remain w.1 -> 0 < id <= m_uiLastStreamId (c_cnt w.1) ->
  findStream id w.1 = Some s -> s_flag s PEER_SHUTDOWN = false -> (padded = true -> pad < remain w.1) ->
  remain w.1 <= m_iCurDataInWindow (c_flow w.1) -> remain w.1 <= m_iWindowIn s ->
  exists w6, processDataFrame h w = data_payload h id w6 /\
    charged id (if padded then 1 else 0) pad (if padded then 1 + pad else 0) s w w6.
Proof.
  intros id padded pad Hok Hb Hr0 Hid Hf Hps Hpad Hwc Hws.
  assert (Es : deref id w.1 = Some s) by (unfold findStream in Hf; destruct (deref id w.1) as [s1|]; [destruct (s_inMap s1)|]; congruence).
  assert (Hin : s_inMap s = true) by (unfold findStream in Hf; rewrite Es in Hf; destruct (s_inMap s); congruence).
  unfold processDataFrame. fold id. replace ((id =? 0) || (id >? m_uiLastStreamId (c_cnt w.1))) with false by lia. cbv zeta.
  fold padded. fold pad.
  set (w1 := on (set_padLen pad) w). change (remain w1.1) with (remain w.1). change (m_padLen (c_in w1.1)) with pad.
  assert (Hp : 0 <= pad) by (subst pad; destruct padded; [apply znth_byte; exact Hb|lia]).
  replace (padded && (remain w.1 <=? pad)) with false; cycle 1.
  { destruct padded; [specialize (Hpad eq_refl); lia|reflexivity]. }
  destruct (consumeWindowIn_credits id (remain w.1) w1.1) as (c2 & E2 & C2 & _); [change (c_flow w1.1) with (c_flow w.1); lia|].
  rewrite E2. apply consumeWindowIn_in in E2.
  assert (Es2 : deref id c2 = Some s) by (rewrite (cr_stream _ _ _ _ _ C2); change (deref id w1.1) with (deref id w.1); rewrite Es; reflexivity).
  assert (Hf2 : findStream id (c2, w1.2).1 = Some s) by (unfold findStream; cbn [fst]; rewrite Es2, Hin; reflexivity). rewrite Hf2, Hps.
  set (w3 := on (set_current (Some id)) (c2, w1.2)).
  assert (C3 : credits id (- remain w.1) (fun s => s) w.1 w3.1).
  { rewrite <- (Z.add_0_r (- remain w.1)). apply (credits_trans id _ 0 (fun s => s) (fun s => s) w.1 c2); [|apply credits_same; reflexivity].
    apply (credits_l id _ _ w.1 w1.1); [apply credits_same; reflexivity|exact C2]. }
  destruct (stream_consumeWindowIn_credits id (remain w.1) w3.1 s) as (c4 & E4 & C4); [exact Es2|lia|].
  rewrite E4. apply stream_consumeWindowIn_in in E4. pose proof (credits_trans _ _ _ _ _ _ _ _ C3 C4) as C5.
  assert (I5 : m_bufInput (c_in c4) = m_bufInput (c_in w.1) /\ remain c4 = remain w.1 /\ m_padLen (c_in c4) = pad /\ m_current (c_in c4) = Some id).
  { unfold remain. rewrite E4. cbn. rewrite E2. auto. }
  destruct I5 as (B5 & R5 & P5 & Q5). clearbody w3. clear E2 C2 Es2 Hf2 C3 C4 E4 w1.
  match goal with |- context [countControlFrame ?x] => set (w6 := x) end.
  pose proof (cr_stream _ _ _ _ _ C5) as Es5. rewrite Es in Es5. cbn [fmap option_fmap option_map] in Es5.
  exists w6. split; [reflexivity|]. unfold charged. subst w6. destruct padded.
  - destruct (pad_given id c4) as (G1 & G2 & G3 & G4 & G5 & G6); [rewrite Es5; discriminate|lia|rewrite B5; exact Hok|].
    split_and!; [exact G1| | | | |].
    + etransitivity; [exact G2|]. unfold inData. rewrite B5. reflexivity.
    + etransitivity; [exact G3|]. rewrite R5. reflexivity.
    + etransitivity; [exact G4|exact P5].
    + etransitivity; [exact G5|exact Q5].
    + rewrite P5 in G6. exact (credits_trans _ _ _ _ _ _ _ _ C5 G6).
  - unfold in_ok, inData. cbn [fst]. rewrite B5, R5, zdrop_0, Z.sub_0_r. split_and!; try assumption; try reflexivity.
      destruct C5 as [D1 D2 D3 D4]. split; [lia|exact D2| |exact D4]. rewrite D3. destruct (deref id w.1) as [s1|]; [|reflexivity].
      cbn. unfold set_iWindowToUpdate. rewrite Z.add_0_r. reflexivity.
Qed.

(** A DATA frame reaches its stream.  A complete DATA frame without FIN for
    an open stream, within both windows, is taken from the input with all its
    bytes; its payload without the padding is appended to the stream's buffer
    and counted; the stream's credit is unchanged, because the padding is given
    back at once and the payload is now buffered, and the connection's credit
    falls by the payload alone; no other stream changes. *)
Theorem data_frame_delivered h w s :
  let id := getStreamId h in
  let p := ztake (remain w.1) (inData w.1) in
  good_data w -> remain w.1 <= inSize w.1 -> 0 < id <= m_uiLastStreamId (c_cnt w.1) ->
  findStream id w.1 = Some s -> bq_ok (m_bufRcvd s) -> s_flag s PEER_SHUTDOWN = false -> s_flag s WANT_READ = false ->
  has (getFlags h) H2_CTRL_FLAG_FIN = false -> unpad h p <> [] ->
  (has (getFlags h) H2_FLAG_PADDED = true -> znth (inData w.1) 0 < remain w.1) ->
  remain w.1 <= m_iCurDataInWindow (c_flow w.1) -> remain w.1 <= m_iWindowIn s ->
  exists w' s', processDataFrame h w = (0, w') /\ inData w'.1 = zdrop (remain w.1) (inData w.1) /\ remain w'.1 = 0 /\
    deref id w'.1 = Some s' /\ bq_data (m_bufRcvd s') = bq_data (m_bufRcvd s) ++ unpad h p /\
    s_bytesRecv s' = s_bytesRecv s + zlen (unpad h p) /\ credit s' = credit s /\
    conn_credit w'.1 + zlen (unpad h p) = conn_credit w.1 /\ (forall j, j <> id -> deref j w'.1 = deref j w.1).
Proof.
  intros id p (Hok & Hr & Hb & _) Hfull Hid Hf Hq Hps Hwr Hfin Hun Hpad Hwc Hws.
  set (padded := has (getFlags h) H2_FLAG_PADDED) in *. set (pad := if padded then znth (inData w.1) 0 else 0).
  pose proof (zlen_nonneg (inData w.1)) as Hz. fold (inSize w.1) in Hz.
  assert (Es : deref id w.1 = Some s) by (unfold findStream in Hf; destruct (deref id w.1) as [s1|]; [destruct (s_inMap s1)|]; congruence).
  assert (Hr0 : 0 < remain w.1).
  { destruct (Z.eq_dec (remain w.1) 0) as [Hr0|]; [|lia]. exfalso. apply Hun. subst p. rewrite Hr0, ztake_0. unfold unpad.
    destruct (has (getFlags h) H2_FLAG_PADDED); reflexivity. }
  assert (Hp : 0 <= pad) by (subst pad; destruct padded; [apply znth_byte; exact Hb|lia]).
  destruct (data_charged h w s) as (w6 & -> & H6); auto.
  { fold padded. intros E. rewrite E. exact (Hpad E). }
  fold padded in H6. fold pad in H6. fold id in H6. set (j := if padded then 1 else 0) in *. set (given := if padded then 1 + pad else 0) in *.
  destruct H6 as (O6 & D6 & R6 & P6 & Q6 & [C6 N6 S6 J6]). rewrite Es in S6. cbn [fmap option_fmap option_map] in S6.
  assert (Hj : j = (if padded then 1 else 0) /\ given = (if padded then 1 + pad else 0) /\ pad = (if padded then pad else 0)) by (subst j given pad; destruct padded; auto).
  assert (Hs6 : inSize w6.1 = inSize w.1 - j) by (unfold inSize in *; rewrite D6, zlen_zdrop by (subst j; destruct padded; lia); destruct padded; lia).
  assert (Hd : ztake (remain w6.1 - m_padLen (c_in w6.1)) (inData w6.1) = unpad h p).
  { rewrite R6, P6, D6. subst p. destruct padded eqn:Epd.
    - rewrite unpad_take; [reflexivity|unfold inSize in *; lia|exact Epd|]. split; [apply znth_byte; exact Hb|exact (Hpad eq_refl)].
    - unfold unpad. fold padded. rewrite Epd. subst j pad. rewrite zdrop_0, !Z.sub_0_r. reflexivity. }
  rewrite <- Hd in Hun. assert (Hlt : m_padLen (c_in w6.1) < remain w6.1).
  { destruct (Z.ltb_spec (m_padLen (c_in w6.1)) (remain w6.1)); [assumption|]. exfalso. apply Hun. apply ztake_neg. lia. }
  set (s6 := set_iWindowToUpdate _ _) in S6.
  destruct (data_payload_delivers h id w6 s6) as (w' & s' & E & Hi' & Hr' & Es' & Hb' & Hc' & Hn' & Hcc & Ho'); auto; [lia|lia|].
  rewrite Hd in *. exists w', s'. split; [exact E|]. split.
  { rewrite Hi', D6, R6, zdrop_zdrop by (destruct Hj as [-> _]; destruct padded; lia). f_equal. lia. }
  split; [exact Hr'|]. split; [exact Es'|]. split; [exact Hb'|]. split; [exact Hn'|].
  assert (Hz6 : zlen (unpad h p) = remain w.1 - j - pad).
  { rewrite <- Hd, zlen_ztake by lia. fold (inSize w6.1). lia. }
  assert (Hg : given = j + pad) by (subst given j; destruct padded; [lia|subst pad; reflexivity]).
  split; [rewrite Hc'; unfold credit, buffered, s6; cbn; lia|]. split; [lia|].
  intros i Hne. rewrite Ho', J6 by exact Hne. reflexivity.
Qed.

End Delivery.

(** ** Examples *)

#[local] Existing Instance idle_app.

(** A connection with stream 1 open, its request headers handled, whose parser
    has read the header of a padded DATA frame. *)
Definition opened : conn loopbuf * unit :=
  (parseFrame (started (concat (map frame_bytes
    [frame H2_FRAME_SETTINGS 0 0 []; frame H2_FRAME_HEADERS H2_FLAG_END_HEADERS 1 [130; 134]])))).2.

Definition data_head : H2FrameHeader := new_header 6 H2_FRAME_DATA H2_FLAG_PADDED 1.
Definition data_here : conn loopbuf * unit :=
  set_remain 6 (receive [2; 7; 8; 9; 0; 0; 0; 0] opened).

Definition open_stream (c : conn loopbuf) : stream loopbuf :=
  match deref 1 c with Some s => s | None => ex_stream end.

Ltac ring_check :=
  first [left; vm_compute; split_and!; reflexivity | right; vm_compute; repeat split; first [discriminate | reflexivity]].


Lemma data_frame_delivered_witness :
  let s := open_stream data_here.1 in
  exists w' s', processDataFrame data_head data_here = (0, w') /\ inData w'.1 = [0; 0] /\ remain w'.1 = 0 /\
    deref 1 w'.1 = Some s' /\ bq_data (m_bufRcvd s') = bq_data (m_bufRcvd s) ++ [7; 8; 9] /\
    s_bytesRecv s' = s_bytesRecv s + 3 /\ credit s' = credit s /\
    conn_credit w'.1 + 3 = conn_credit data_here.1 /\ (forall j, j <> 1 -> deref j w'.1 = deref j data_here.1).
Proof.
  pose proof (data_frame_delivered data_head data_here (open_stream data_here.1)) as H. cbv zeta in H.
  replace (unpad data_head (ztake (remain data_here.1) (inData data_here.1))) with [7; 8; 9] in H by (vm_compute; reflexivity).
  replace (zdrop (remain data_here.1) (inData data_here.1)) with [0; 0] in H by (vm_compute; reflexivity).
  cbv zeta. apply H.
  - split; [|split; [|split]].
    + ring_check.
    + vm_compute. discriminate.
    + vm_compute. bytes.
    + vm_compute. discriminate.
  - vm_compute. discriminate.
  - vm_compute. split; [reflexivity|discriminate].
  - vm_compute. reflexivity.
  - ring_check.
  - vm_compute. reflexivity.
  - vm_compute. reflexivity.
  - vm_compute. reflexivity.
  - discriminate.
  - intros _. vm_compute. reflexivity.
  - vm_compute. discriminate.
  - vm_compute. discriminate.
Defined.

(** The stream with a request body of three bytes, of which two are read. *)
Definition with_body : conn loopbuf := (processDataFrame data_head data_here).2.1.

Lemma read_returns_credit_witness :
  let s := open_stream with_body in
  exists r c' s', read 1 2 with_body = (r, c') /\ deref 1 c' = Some s' /\
    default [] r ++ bq_data (m_bufRcvd s') = bq_data (m_bufRcvd s) /\
    zlen (default [] r) = Z.min 2 (buffered s) /\
    (r = None <-> s_flag s PEER_SHUTDOWN = true /\ Z.min 2 (buffered s) = 0) /\
    credit s' = credit s /\ conn_credit c' = conn_credit with_body + zlen (default [] r) /\
    (default [] r <> [] -> m_iWindowToUpdate s' < m_iStreamInInitWindowSize (c_flow with_body) / 2) /\
    (forall j, j <> 1 -> deref j c' = deref j with_body).
Proof.
  cbv zeta. destruct (read 1 2 with_body) as [r c'] eqn:E. exists r, c'.
  destruct (read_returns_credit 1 2 with_body (open_stream with_body) r c') as (s' & H).
  - vm_compute. reflexivity.
  - vm_compute. discriminate.
  - ring_check.
  - discriminate.
  - vm_compute. discriminate.
  - exact E.
  - exists s'. split; [reflexivity|exact H].
Defined.

(** A grant that makes the window of the stream of the examples too large. *)
Lemma adjWindowOut_bounds_witness :
  let c := data_here.1 in let s := open_stream c in let n := 2 ^ 31 - 1 in
  exists s', deref 1 (adjWindowOut 1 n c).2 = Some s' /\
    ((adjWindowOut 1 n c).1 = -1 <-> m_iWindowOut s + n < 0 \/ 2 ^ 31 <= m_iWindowOut s + n) /\
    ((adjWindowOut 1 n c).1 = 0 <-> 0 <= m_iWindowOut s + n < 2 ^ 31) /\
    - 2 ^ 31 <= m_iWindowOut s' < 2 ^ 31 /\ (0 <= m_iWindowOut s + n < 2 ^ 31 -> m_iWindowOut s' = m_iWindowOut s + n) /\
    credit s' = credit s /\ (forall j, j <> 1 -> deref j (adjWindowOut 1 n c).2 = deref j c).
Proof.
  cbv zeta. apply adjWindowOut_bounds.
  - vm_compute. reflexivity.
  - vm_compute. split; [discriminate|reflexivity].
  - vm_compute. discriminate.
  - reflexivity.
Defined.
