(* ===== verification/H2Scenarios.v ===== *)
(** * H2Scenarios: whole runs of an HTTP/2 connection
    (src/src/h2/h2connbase.cpp, src/src/h2/h2connection.cpp)

    Runs of [onReadEx] on what a client sends, from its preface on, in the
    segments in which it arrives, with handlers that do nothing.  Some frames
    of a request are legal in HTTP/2 and mean the same, and the same bytes mean
    the same however they are cut into segments; these runs show where the
    connection treats them differently. *)

From S2P Require Import Prelude LoopBuf H2Frame H2State H2Conn H2Input H2Framing.
From stdpp Require Import fin_maps functions.
#[local] Open Scope Z_scope.
#[local] Existing Instance idle_app.

(** ** Clients *)

Definition bytes_of (fs : list (H2FrameHeader * list Z)) : list Z := concat (map frame_bytes fs).

(** The client's preface, its SETTINGS and then [fs]. *)
Definition client (fs : list (H2FrameHeader * list Z)) : list Z :=
  H2_CLIENT_PREFACE ++ bytes_of (frame H2_FRAME_SETTINGS 0 0 [] :: fs).

(** A new connection to which [segs] arrive before it reads. *)
Definition served (segs : list (list Z)) : Z * (conn loopbuf * unit) :=
  onReadEx 100 (set_netIn segs (new_conn 262144), tt).

(** The same bytes in two segments. *)
Definition cut (n : Z) (l : list Z) : list (list Z) := [ztake n l; zdrop n l].

(** What a stream's handler can see of stream 1: whether the request is
    complete, and the body received. *)
Definition request (w : conn loopbuf * unit) : option (bool * list Z) :=
  match deref 1 w.1 with
  | Some s => Some (s_flag s PEER_SHUTDOWN, bq_data (m_bufRcvd s))
  | None => None
  end.

(** The header blocks handed to the HPACK decoder. *)
Definition blocks (w : conn loopbuf * unit) : list (list Z) :=
  flat_map (fun e => match e with EvHeaders _ b _ => [b] | _ => [] end) (trace (c_in w.1)).

(** The connection is up and has taken every byte. *)
Definition settled (w : conn loopbuf * unit) : bool :=
  (inSize w.1 =? 0) && bool_decide (netIn (c_in w.1) = []) && (remain w.1 =? - H2_FRAME_HEADER_SIZE) && negb (flag w.1 GOAWAY).

Definition HEADERS (flags : Z) (p : list Z) := frame H2_FRAME_HEADERS flags 1 p.
Definition CONTINUATION (flags : Z) (p : list Z) := frame H2_FRAME_CONTINUATION flags 1 p.
Definition DATA (flags : Z) (p : list Z) := frame H2_FRAME_DATA flags 1 p.

Definition END_HEADERS := H2_FLAG_END_HEADERS.
Definition END_STREAM := H2_FLAG_END_STREAM.
Definition PADDED := H2_FLAG_PADDED.

(** ** Header blocks in several frames *)

(** Header blocks that continue in a second frame.  A request without a body
    whose block is in one HEADERS frame is complete; with the same block in a HEADERS
    and a CONTINUATION frame, the decoder gets the same bytes but the request is not
    complete, because the flags that reach [getNewStream] are those of the
    CONTINUATION frame, which has no END_STREAM; when the last CONTINUATION frame is
    empty the block is not decoded at all and no stream is opened, without an error;
    and when the HEADERS frame is padded, [processHeaderIn] leaves out its pad length
    at the end of the CONTINUATION frame as well, which has no padding, so that the
    decoder never gets these bytes. *)
Theorem continued_header_block :
  let one := (served [client [HEADERS (Z.lor END_HEADERS END_STREAM) [130; 134; 132]]]).2 in
  let two := (served [client [HEADERS END_STREAM [130; 134]; CONTINUATION END_HEADERS [132]]]).2 in
  let last_empty := (served [client [HEADERS END_STREAM [130; 134; 132]; CONTINUATION END_HEADERS []]]).2 in
  let plain := (served [client [HEADERS 0 [130; 134]; CONTINUATION END_HEADERS [132; 135; 136]]]).2 in
  let padded := (served [client [HEADERS PADDED [2; 130; 134; 0; 0]; CONTINUATION END_HEADERS [132; 135; 136]]]).2 in
  (settled one && settled two && settled last_empty && settled plain && settled padded = true) /\
  blocks one = [[130; 134; 132]] /\ blocks two = [[130; 134; 132]] /\ blocks last_empty = [] /\
  request one = Some (true, []) /\ request two = Some (false, []) /\ request last_empty = None /\
  blocks plain = [[130; 134; 132; 135; 136]] /\ blocks padded = [[130; 134; 132]].
Proof. vm_compute. auto 20. Qed.

(** ** Padded bodies in several segments *)

(** Where the bytes of a padded body are cut decides what the application reads.
    A padded DATA frame whose payload arrives in two segments leaves its pad length
    behind for the next DATA frame, whose header [tryReadFrameHeader] reads: the last
    two bytes of this unpadded frame are dropped, and the body is reported complete,
    where the same bytes in one segment give the whole body.  And END_STREAM of a
    padded DATA frame is lost when its padding arrives later than its payload:
    [processDataFrame] returns before it looks at the flag, and
    [processDataFrameSkipRemain] never does, so that the body is there but is never
    reported complete. *)
Theorem padded_body_in_segments :
  let two_frames := client [HEADERS END_HEADERS [130; 134]; DATA PADDED [2; 7; 8; 9; 0; 0]; DATA END_STREAM [1; 2; 3; 4; 5; 6]] in
  let one_frame := client [HEADERS END_HEADERS [130; 134]; DATA (Z.lor PADDED END_STREAM) [2; 7; 8; 9; 0; 0]] in
  let run segs := (settled (served segs).2, request (served segs).2) in
  run [two_frames] = (true, Some (true, [7; 8; 9; 1; 2; 3; 4; 5; 6])) /\
  run (cut (zlen two_frames - 18) two_frames) = (true, Some (true, [7; 8; 9; 1; 2; 3; 4])) /\
  run [one_frame] = (true, Some (true, [7; 8; 9])) /\
  run (cut (zlen one_frame - 2) one_frame) = (true, Some (false, [7; 8; 9])).
Proof. vm_compute. auto. Qed.
