(* ===== verification/Uri.v ===== *)
(** * Uri: request targets and paths
    (src/src/util/gpath.cpp, src/src/http/httpreq.cpp, src/src/util/httputil.cpp)

    Decoding the path of a request target, removing its dot segments in place
    ([GPath::clean]), and the checks around them, against a reference that
    works on path segments. *)

From S2P Require Import Prelude.
#[local] Open Scope Z_scope.

(** [SC_400] of httpstatuscode.h. *)
Definition SC_400 : Z := 23.

(** [hexdigit] of ls_strtool.h. *)
Definition hexdigit (ch : Z) : Z := if ch <=? 57 then ch - 48 else Z.land ch 7 + 9.

(** ** GPath::clean *)

Module GPath.

(** The buffer, the offsets [p0] and [pEnd], and the state. *)
Record gpath := GP { path : list Z; p0 : Z; pEnd : Z; state : Z }.

(** [memmove(path + dst, path + src, n)]. *)
Definition memmove (b : list Z) (dst src n : Z) : list Z := store b dst (slice src (src + n) b).

(** The loop that moves [p1] down to a slash, or below the path. *)
Fixpoint find_slash (fuel : nat) (b : list Z) (p1 : Z) : Z :=
  match fuel with
  | O => p1
  | S fuel => if p1 <? 0 then p1 else if znth b p1 =? 47 then p1 else find_slash fuel b (p1 - 1)
  end.

(** The body of the loop on [ch], which [p0] has passed; [false] is LS_FAIL. *)
Definition clean_step (ch : Z) (s : gpath) : bool * gpath :=
  let '(GP b p0 pEnd state) := s in
  if state =? 0 then (true, GP b p0 pEnd (if ch =? 47 then 1 else 0))
  else if state =? 1 then
    if ch =? 46 then (true, GP b p0 pEnd 2)
    else if ch =? 47 then (true, GP (memmove b (p0 - 1) p0 (pEnd - p0)) (p0 - 1) (pEnd - 1) 1)
    else (true, GP b p0 pEnd 0)
  else if state =? 2 then
    if ch =? 46 then (true, GP b p0 pEnd 3)
    else if ch =? 47 then (true, GP (memmove b (p0 - 2) p0 (pEnd - p0)) (p0 - 2) (pEnd - 2) 1)
    else (true, GP b p0 pEnd 0)
  else
    if ch =? 47 then
      if p0 - 4 =? 0 then (false, s)
      else
        let p1 := find_slash (Z.to_nat p0) b (p0 - 5) in
        if p1 >=? -1 then (true, GP (memmove b (p1 + 1) p0 (pEnd - p0)) (p1 + 1) (pEnd - (p0 - (p1 + 1))) 1)
        else (true, GP b p0 pEnd 1)
    else (true, GP b p0 pEnd 0).

(** The loop over the characters. *)
Fixpoint clean_loop (fuel : nat) (s : gpath) : bool * gpath :=
  match fuel with
  | O => (true, s)
  | S fuel =>
      let ch := znth (path s) (p0 s) in
      let s := GP (path s) (p0 s + 1) (pEnd s) (state s) in
      if ch =? 0 then (true, s)
      else
        let '(ok, s) := clean_step ch s in
        if ok then clean_loop fuel s else (false, s)
  end.

(** [GPath::clean(path, len)] *)
Definition clean (b : list Z) (len : Z) : Z * list Z :=
  let st := if znth b 0 =? 47 then 0 else 1 in
  let '(ok, s) := clean_loop (Z.to_nat (len + 1)) (GP b 0 (len + 1) st) in
  let b := path s in
  if negb ok then (LS_FAIL, b)
  else
    let cleanedLen := p0 s - 1 in
    if state s =? 2 then (cleanedLen - 1, store b (cleanedLen - 1) [0])
    else if state s =? 3 then
      let parentEnd := cleanedLen - 3 in
      if (parentEnd <? 0) || ((parentEnd =? 0) && (znth b 0 =? 47)) then (LS_FAIL, b)
      else
        let parentSlash := find_slash (Z.to_nat cleanedLen) b (parentEnd - 1) in
        (parentSlash + 1, store b (parentSlash + 1) [0])
    else (cleanedLen, b).

End GPath.

Import GPath.

(** ** The reference: a path as a list of segments *)

Definition dot : list Z := [46].
Definition dotdot : list Z := [46; 46].

(** [/s1/s2/.../] for the stack [sn; ...; s1]. *)
Fixpoint dir (acc : list (list Z)) : list Z :=
  match acc with [] => [47] | s :: acc => dir acc ++ s ++ [47] end.

(** Closing a segment: empty and [.] segments vanish, [..] takes the segment
    before, and there is none above the root. *)
Definition close (acc : list (list Z)) (cur : list Z) : option (list (list Z)) :=
  if bytes_eqb cur [] || bytes_eqb cur dot then Some acc
  else if bytes_eqb cur dotdot then match acc with [] => None | _ :: acc => Some acc end
  else Some (cur :: acc).

(** The segments after a prefix of the path, and the one being read. *)
Fixpoint resolve (acc : list (list Z)) (cur q : list Z) : option (list (list Z) * list Z) :=
  match q with
  | [] => Some (acc, cur)
  | c :: q =>
      if c =? 47 then match close acc cur with Some acc => resolve acc [] q | None => None end
      else resolve acc (cur ++ [c]) q
  end.

(** An absolute path without its dot segments. *)
Definition normalize (p : list Z) : option (list Z) :=
  match p with
  | 47 :: q =>
      match resolve [] [] q with
      | Some (acc, cur) =>
          if bytes_eqb cur [] || bytes_eqb cur dot then Some (dir acc)
          else if bytes_eqb cur dotdot then match acc with [] => None | _ :: acc => Some (dir acc) end
          else Some (dir acc ++ cur)
      | None => None
      end
  | _ => None
  end.

(** A segment that names something. *)
Definition proper (s : list Z) : Prop := s <> [] /\ s <> dot /\ s <> dotdot /\ 47 ∉ s.

(** What a cleaned path looks like: segments that name something, and maybe a
    last one without a slash. *)
Definition dotless (p : list Z) : Prop :=
  exists acc cur, p = dir acc ++ cur /\ Forall proper acc /\ (cur = [] \/ proper cur).

Lemma close_proper acc cur acc' : Forall proper acc -> 47 ∉ cur -> close acc cur = Some acc' -> Forall proper acc'.
Proof.
  intros Ha Hc. unfold close. destruct (bytes_eqb cur [] || bytes_eqb cur dot) eqn:E1; [congruence|].
  apply orb_false_iff in E1 as [E1 E2]. destruct (bytes_eqb cur dotdot) eqn:E3.
  - destruct Ha; [discriminate|]. congruence.
  - intros [= <-]. constructor; [|exact Ha]. rewrite <- not_true_iff_false, bytes_eqb_eq in E1, E2, E3. split_and!; auto.
Qed.

Lemma resolve_proper q : forall acc cur acc' cur', Forall proper acc -> 47 ∉ cur -> resolve acc cur q = Some (acc', cur') ->
  Forall proper acc' /\ 47 ∉ cur'.
Proof.
  induction q as [|c q IH]; intros acc cur acc' cur' Ha Hc; cbn [resolve]; [intros [= <- <-]; auto|].
  destruct (Z.eqb_spec c 47) as [->|Hne].
  - destruct (close acc cur) as [acc1|] eqn:E; [|discriminate]. apply IH; [exact (close_proper _ _ _ Ha Hc E)|apply not_elem_of_nil].
  - apply IH; [exact Ha|]. intros Hi. apply elem_of_app in Hi as [Hi|Hi]; [exact (Hc Hi)|]. apply list_elem_of_singleton in Hi. congruence.
Qed.

Lemma normalize_dotless p r : normalize p = Some r -> dotless r.
Proof.
  unfold normalize. destruct p as [|c q]; [discriminate|]. destruct (decide (c = 47)) as [->|Hne].
  2:{ destruct c as [|c|c]; try discriminate. do 6 (destruct c as [c|c|]; try discriminate). congruence. }
  destruct (resolve [] [] q) as [[acc cur]|] eqn:E; [|discriminate].
  apply resolve_proper in E as [Ha Hc]; [|constructor|apply not_elem_of_nil].
  destruct (bytes_eqb cur [] || bytes_eqb cur dot) eqn:E1.
  { intros [= <-]. exists acc, []. rewrite app_nil_r. auto. }
  apply orb_false_iff in E1 as [E1 E2]. destruct (bytes_eqb cur dotdot) eqn:E3.
  - destruct Ha as [|s acc Hs Ha]; [discriminate|]. intros [= <-]. exists acc, []. rewrite app_nil_r. auto.
  - intros [= <-]. rewrite <- not_true_iff_false, bytes_eqb_eq in E1, E2, E3. exists acc, cur. split_and!; auto. right. split_and!; auto.
Qed.

Lemma dir_last acc : exists x, dir acc = x ++ [47].
Proof. destruct acc as [|s acc]; [exists []; reflexivity|]. exists (dir acc ++ s). cbn. rewrite app_assoc. reflexivity. Qed.

Lemma zlen_dir_pos acc : 0 < zlen (dir acc).
Proof. destruct (dir_last acc) as [x ->]. rewrite zlen_app. change (zlen [47]) with 1. pose proof (zlen_nonneg x). lia. Qed.

Lemma zlen_dir acc : Forall proper acc -> (zlen (dir acc) = 1 <-> acc = []).
Proof.
  intros [|s a Hs Ha]; [split; reflexivity|]. cbn [dir]. rewrite !zlen_app. change (zlen [47]) with 1.
  pose proof (zlen_dir_pos a). pose proof (zlen_nonneg s). split; [lia|discriminate].
Qed.

(** ** The loop computes the reference *)

Definition state_of (cur : list Z) : Z :=
  if bytes_eqb cur [] then 1 else if bytes_eqb cur dot then 2 else if bytes_eqb cur dotdot then 3 else 0.

(** The buffer is cleaned up to [p0] and unread up to the terminator. *)
Record at_char (acc : list (list Z)) (cur q : list Z) (s : gpath) : Prop := {
  ac_done : ztake (p0 s) (path s) = dir acc ++ cur;
  ac_rest : slice (p0 s) (pEnd s) (path s) = q ++ [0];
  ac_state : state s = state_of cur;
  ac_end : 0 <= p0 s <= pEnd s /\ pEnd s <= zlen (path s);
  ac_proper : Forall proper acc /\ 47 ∉ cur }.

Lemma find_slash_spec b x s : forall n fuel, ztake n b = x ++ [47] ++ s -> 0 <= n <= zlen b -> 47 ∉ s -> zlen s <= Z.of_nat fuel - 1 ->
  find_slash fuel b (n - 1) = zlen x.
Proof.
  induction s as [|c s IH] using rev_ind; intros n fuel Ht Hn Hs Hf.
  - assert (Hl : zlen (ztake n b) = zlen x + 1) by (rewrite Ht, !zlen_app; reflexivity). rewrite zlen_ztake in Hl by lia.
    pose proof (zlen_nonneg x). destruct fuel as [|fuel]; [cbn in Hf; change (zlen []) with 0 in Hf; lia|]. cbn [find_slash].
    replace (n - 1 <? 0) with false by lia. rewrite <- (znth_ztake b n (n - 1)) by lia. rewrite Ht, app_nil_r.
    rewrite znth_app by lia. replace (n - 1 <? zlen x) with false by lia. replace (n - 1 - zlen x) with 0 by lia. change (znth [47] 0 =? 47) with true. cbv iota. lia.
  - rewrite zlen_app in Hf. change (zlen [c]) with 1 in Hf. pose proof (zlen_nonneg s). pose proof (zlen_nonneg x).
    assert (Hl : zlen (ztake n b) = zlen x + 1 + zlen s + 1) by (rewrite Ht, !zlen_app; change (zlen [47]) with 1; change (zlen [c]) with 1; lia).
    rewrite zlen_ztake in Hl by lia. destruct fuel as [|fuel]; [lia|]. cbn [find_slash]. replace (n - 1 <? 0) with false by lia.
    assert (Hc : znth b (n - 1) = c).
    { rewrite <- (znth_ztake b n (n - 1)) by lia. rewrite Ht, !app_assoc, znth_app by lia. rewrite !zlen_app. change (zlen [47]) with 1.
      replace (n - 1 <? zlen x + 1 + zlen s) with false by lia. replace (n - 1 - (zlen x + 1 + zlen s)) with 0 by lia. reflexivity. }
    rewrite Hc. assert (c <> 47) by (intros ->; apply Hs; apply elem_of_app; right; constructor).
    replace (c =? 47) with false by lia. apply (IH (n - 1) fuel); [|lia| |lia].
    + rewrite <- (ztake_ztake (n - 1) n) by lia. rewrite Ht, !app_assoc, ztake_app_len by (rewrite !zlen_app; change (zlen [47]) with 1; lia).
      rewrite <- !app_assoc. reflexivity.
    + intros Hi. apply Hs. apply elem_of_app. auto.
Qed.

Lemma memmove_spec b dst src e : 0 <= dst <= src -> src <= e <= zlen b -> let b' := memmove b dst src (e - src) in
  ztake dst b' = ztake dst b /\ slice dst (e - (src - dst)) b' = slice src e b /\ zlen b' = zlen b.
Proof.
  intros Hd He b'. unfold b', memmove. replace (src + (e - src)) with e by lia.
  assert (Hl : zlen (slice src e b) = e - src) by (apply zlen_slice; lia).
  split_and!; [apply ztake_store; lia|apply slice_store; lia|apply zlen_store; lia].
Qed.

(** Dropping the end of the cleaned part, with the character just read. *)
Lemma drop_segment acc acc' cur q b p0 pEnd n :
  ztake p0 b = dir acc ++ cur -> slice p0 pEnd b = 47 :: q ++ [0] -> 0 <= p0 < pEnd -> pEnd <= zlen b ->
  0 <= n <= p0 -> ztake n (dir acc ++ cur) = dir acc' -> Forall proper acc' ->
  at_char acc' [] q (GP (memmove b n (p0 + 1) (pEnd - (p0 + 1))) n (pEnd - (p0 + 1 - n)) 1).
Proof.
  intros Ht Hs Hp He Hn Hd Ha. destruct (memmove_spec b n (p0 + 1) pEnd) as (M1 & M2 & M3); [lia|lia|].
  rewrite slice_cons in Hs by lia. injection Hs as _ Hs. split; cbn [GPath.path GPath.p0 GPath.pEnd GPath.state].
  - rewrite M1, app_nil_r, <- Hd, <- Ht. symmetry. apply ztake_ztake. lia.
  - rewrite <- Hs. exact M2.
  - reflexivity.
  - rewrite M3. lia.
  - split; [exact Ha|apply not_elem_of_nil].
Qed.

Lemma keep_char acc cur c q b p0 pEnd : ztake p0 b = dir acc ++ cur -> slice p0 pEnd b = c :: q ++ [0] -> 0 <= p0 < pEnd ->
  pEnd <= zlen b -> Forall proper acc -> 47 ∉ cur -> c <> 47 ->
  at_char acc (cur ++ [c]) q (GP b (p0 + 1) pEnd (state_of (cur ++ [c]))).
Proof.
  intros Ht Hs Hp He Ha Hc Hne. rewrite slice_cons in Hs by lia. injection Hs as Hz Hs. split; cbn [GPath.path GPath.p0 GPath.pEnd GPath.state].
  - rewrite (ztake_split p0 (p0 + 1)) by lia. rewrite Ht, <- app_assoc. do 2 f_equal. replace (p0 + 1 - p0) with 1 by lia.
    rewrite zdrop_nth by lia. rewrite Hz. reflexivity.
  - exact Hs.
  - reflexivity.
  - lia.
  - split; [exact Ha|]. intros Hi. apply elem_of_app in Hi as [Hi|Hi]; [exact (Hc Hi)|]. apply list_elem_of_singleton in Hi. congruence.
Qed.

Lemma state_of_cases cur :
  cur = [] /\ state_of cur = 1 \/ cur = dot /\ state_of cur = 2 \/ cur = dotdot /\ state_of cur = 3 \/
  (cur <> [] /\ cur <> dot /\ cur <> dotdot) /\ state_of cur = 0.
Proof.
  unfold state_of. destruct (bytes_eqb cur []) eqn:E1; [apply bytes_eqb_eq in E1; auto|].
  destruct (bytes_eqb cur dot) eqn:E2; [apply bytes_eqb_eq in E2; auto|].
  destruct (bytes_eqb cur dotdot) eqn:E3; [apply bytes_eqb_eq in E3; auto|].
  rewrite <- not_true_iff_false, bytes_eqb_eq in E1, E2, E3. auto 10.
Qed.

Lemma state_of_snoc cur c : state_of (cur ++ [c]) =
  if state_of cur =? 1 then (if c =? 46 then 2 else 0) else if state_of cur =? 2 then (if c =? 46 then 3 else 0) else 0.
Proof.
  destruct (state_of_cases cur) as [[-> ->]|[[-> ->]|[[-> ->]|[(H1 & H2 & H3) ->]]]]; cbn.
  - unfold state_of, dot, dotdot. cbn. destruct (Z.eqb_spec c 46) as [->|]; [reflexivity|]. cbn. reflexivity.
  - unfold state_of, dot, dotdot. cbn. destruct (Z.eqb_spec c 46) as [->|]; reflexivity.
  - reflexivity.
  - destruct cur as [|x [|y [|z cur]]]; try congruence; unfold state_of, dot, dotdot; cbn.
    + destruct (Z.eqb_spec x 46) as [->|]; [unfold dot in H2; congruence|reflexivity].
    + rewrite !andb_false_r. reflexivity.
    + rewrite !andb_false_r. reflexivity.
Qed.

Lemma close_step acc cur c q s : at_char acc cur (c :: q) s ->
  let '(ok, s') := clean_step c (GP (path s) (p0 s + 1) (pEnd s) (state s)) in
  if c =? 47 then match close acc cur with Some acc' => ok = true /\ at_char acc' [] q s' | None => ok = false end
  else ok = true /\ at_char acc (cur ++ [c]) q s'.
Proof.
  intros [Ht Hs Hst [Hp He] [Ha Hc]]. destruct s as [b p pe st]. cbn [GPath.path GPath.p0 GPath.pEnd GPath.state] in *. subst st.
  assert (Hlt : p < pe).
  { destruct (Z.ltb_spec p pe); [assumption|]. rewrite slice_nil in Hs by lia. discriminate. }
  pose proof (zlen_dir_pos acc) as Hdp. pose proof (zlen_nonneg cur).
  assert (Hpl : p = zlen (dir acc) + zlen cur) by (rewrite <- zlen_app, <- Ht, zlen_ztake by lia; lia).
  unfold clean_step. destruct (Z.eqb_spec c 47) as [->|Hne].
  2:{ match goal with |- let '(_, _) := ?e in _ => replace e with (true, GP b (p + 1) pe (state_of (cur ++ [c]))) end.
      { split; [reflexivity|]. apply (keep_char acc cur c q b p pe); auto. lia. }
      rewrite state_of_snoc. destruct (state_of_cases cur) as [[_ ->]|[[_ ->]|[[_ ->]|[_ ->]]]]; cbn; destruct (c =? 46); reflexivity. }
  assert (Hclose : forall acc' n, ztake n (dir acc ++ cur) = dir acc' -> 0 <= n <= p -> Forall proper acc' ->
    at_char acc' [] q (GP (memmove b n (p + 1) (pe - (p + 1))) n (pe - (p + 1 - n)) 1)).
  { intros acc' n Hd Hn Ha'. apply (drop_segment acc acc' cur q b p pe n); auto; lia. }
  unfold close. destruct (state_of_cases cur) as [[E ->]|[[E ->]|[[E ->]|[(N1 & N2 & N3) ->]]]]; cbn [Z.eqb Pos.eqb].
  - subst cur. cbn. split; [reflexivity|]. specialize (Hclose acc p). replace (p + 1 - 1) with p by lia. replace (pe - 1) with (pe - (p + 1 - p)) by lia.
    apply Hclose; [|lia|exact Ha]. change (zlen (@nil Z)) with 0 in Hpl. rewrite app_nil_r. apply ztake_all. lia.
  - subst cur. cbn. split; [reflexivity|]. change (zlen dot) with 1 in Hpl. specialize (Hclose acc (p - 1)).
    replace (p + 1 - 2) with (p - 1) by lia. replace (pe - 2) with (pe - (p + 1 - (p - 1))) by lia.
    apply Hclose; [|lia|exact Ha]. apply ztake_app_len. lia.
  - subst cur. change (zlen dotdot) with 2 in Hpl. change (bytes_eqb dotdot [] || bytes_eqb dotdot dot) with false.
    change (bytes_eqb dotdot dotdot) with true. cbv iota.
    destruct (Z.eqb_spec (p + 1 - 4) 0) as [H4|H4].
    { assert (acc = []) as -> by (apply (zlen_dir acc Ha); lia). reflexivity. }
    destruct Ha as [|sg a Hsg Ha]; [change (zlen (dir [])) with 1 in Hpl; lia|]. cbn [dir] in *. destruct (dir_last a) as [x Hx].
    rewrite !zlen_app in Hpl. change (zlen [47]) with 1 in Hpl. pose proof (zlen_nonneg sg).
    assert (Hxl : zlen (dir a) = zlen x + 1) by (rewrite Hx, zlen_app; reflexivity).
    assert (Hf : find_slash (Z.to_nat (p + 1)) b (p + 1 - 5) = zlen x).
    { replace (p + 1 - 5) with (p - 3 - 1) by lia. pose proof (zlen_nonneg x). apply (find_slash_spec b x sg); [|lia|apply Hsg|lia].
      rewrite <- (ztake_ztake (p - 3) p) by lia. rewrite Ht, Hx, <- !app_assoc.
      replace (x ++ [47] ++ sg ++ [47] ++ dotdot) with ((x ++ [47] ++ sg) ++ [47] ++ dotdot) by (rewrite <- !app_assoc; reflexivity).
      apply ztake_app_len. rewrite !zlen_app. change (zlen [47]) with 1. lia. }
    rewrite Hf. pose proof (zlen_nonneg x). replace (zlen x >=? -1) with true by lia. split; [reflexivity|].
    specialize (Hclose a (zlen x + 1)). apply Hclose; [|lia|exact Ha]. rewrite <- !app_assoc. apply ztake_app_len. lia.
  - replace (bytes_eqb cur [] || bytes_eqb cur dot) with false.
    2:{ symmetry. rewrite <- not_true_iff_false, orb_true_iff, !bytes_eqb_eq. tauto. }
    replace (bytes_eqb cur dotdot) with false by (symmetry; rewrite <- not_true_iff_false, bytes_eqb_eq; exact N3).
    split; [reflexivity|]. rewrite slice_cons in Hs by lia. injection Hs as Hz Hs. split; cbn [GPath.path GPath.p0 GPath.pEnd GPath.state].
    + rewrite (ztake_split p (p + 1)) by lia. rewrite Ht, app_nil_r. cbn [dir]. rewrite <- app_assoc. do 2 f_equal.
      replace (p + 1 - p) with 1 by lia. rewrite zdrop_nth by lia. rewrite Hz. reflexivity.
    + exact Hs.
    + reflexivity.
    + lia.
    + split; [|apply not_elem_of_nil]. constructor; [split_and!; assumption|exact Ha].
Qed.

(** The end of the path was reached with the segments of the reference. *)
Record at_end (acc : list (list Z)) (cur : list Z) (s : gpath) : Prop := {
  ae_done : ztake (p0 s - 1) (path s) = dir acc ++ cur;
  ae_len : p0 s - 1 = zlen (dir acc ++ cur);
  ae_zero : znth (path s) (p0 s - 1) = 0;
  ae_state : state s = state_of cur;
  ae_room : p0 s <= zlen (path s);
  ae_proper : Forall proper acc /\ 47 ∉ cur }.

Lemma clean_loop_spec q : forall acc cur s fuel, at_char acc cur q s -> 0 ∉ q -> (length q < fuel)%nat ->
  match resolve acc cur q with
  | Some (acc', cur') => exists s', clean_loop fuel s = (true, s') /\ at_end acc' cur' s'
  | None => (clean_loop fuel s).1 = false
  end.
Proof.
  induction q as [|c q IH]; intros acc cur s fuel Hc Hz Hf; (destruct fuel as [|fuel]; [cbn in Hf; lia|]); cbn [clean_loop resolve].
  - destruct Hc as [Ht Hs Hst [Hp He] Ha]. assert (Hlt : p0 s < pEnd s).
    { destruct (Z.ltb_spec (p0 s) (pEnd s)); [assumption|]. rewrite slice_nil in Hs by lia. discriminate. }
    rewrite slice_cons in Hs by lia. injection Hs as Hz0 _. rewrite Hz0. cbn [Z.eqb]. eexists. split; [reflexivity|].
    split; cbn [GPath.path GPath.p0 GPath.pEnd GPath.state]; replace (p0 s + 1 - 1) with (p0 s) by lia; auto; [|lia].
    rewrite <- Ht, zlen_ztake; lia.
  - assert (Hch : znth (path s) (p0 s) = c).
    { destruct Hc as [_ Hs _ [Hp He] _]. destruct (Z.ltb_spec (p0 s) (pEnd s)); [|rewrite slice_nil in Hs by lia; discriminate].
      rewrite slice_cons in Hs by lia. injection Hs as Hc _. exact Hc. }
    rewrite Hch. apply not_elem_of_cons in Hz as [Hz1 Hz2]. replace (c =? 0) with false by lia.
    pose proof (close_step acc cur c q s Hc) as Hstep. destruct (clean_step c _) as [ok s1]. cbn in Hf.
    destruct (c =? 47).
    + destruct (close acc cur) as [acc1|].
      * destruct Hstep as [-> Hs1]. apply IH; [exact Hs1|exact Hz2|lia].
      * rewrite Hstep. reflexivity.
    + destruct Hstep as [-> Hs1]. apply IH; [exact Hs1|exact Hz2|lia].
Qed.

Lemma store_end b n r : ztake n b = r -> 0 <= n < zlen b -> ztake (n + 1) (store b n [0]) = r ++ [0].
Proof.
  intros Ht Hn. rewrite (ztake_split n (n + 1)) by lia. rewrite ztake_store by lia. rewrite Ht. f_equal.
  change (slice n (n + 1) (store b n [0]) = [0]). apply slice_store; [lia|change (zlen [0]) with 1; lia|reflexivity].
Qed.

(** The last segment. *)
Lemma clean_last acc cur s : at_end acc cur s -> znth (path s) 0 = 47 ->
  let cleanedLen := p0 s - 1 in
  let r := if state s =? 2 then (cleanedLen - 1, store (path s) (cleanedLen - 1) [0])
    else if state s =? 3 then
      let parentEnd := cleanedLen - 3 in
      if (parentEnd <? 0) || ((parentEnd =? 0) && (znth (path s) 0 =? 47)) then (LS_FAIL, path s)
      else
        let parentSlash := find_slash (Z.to_nat cleanedLen) (path s) (parentEnd - 1) in
        (parentSlash + 1, store (path s) (parentSlash + 1) [0])
    else (cleanedLen, path s) in
  match (if bytes_eqb cur [] || bytes_eqb cur dot then Some (dir acc)
         else if bytes_eqb cur dotdot then match acc with [] => None | _ :: acc => Some (dir acc) end
         else Some (dir acc ++ cur)) with
  | Some p => r.1 = zlen p /\ ztake (zlen p + 1) r.2 = p ++ [0]
  | None => r.1 = LS_FAIL
  end.
Proof.
  intros [Ht Hl Hz Hst Hr [Ha Hc]] Hfirst. destruct s as [b p pe st]. cbn [GPath.path GPath.p0 GPath.state] in *. subst st.
  pose proof (zlen_dir_pos acc) as Hdp. rewrite zlen_app in Hl. cbv zeta. pose proof (zlen_nonneg cur).
  assert (Hzero : ztake (p - 1 + 1) b = ztake (p - 1) b ++ [0]).
  { rewrite (ztake_split (p - 1) (p - 1 + 1)) by lia. f_equal. replace (p - 1 + 1 - (p - 1)) with 1 by lia. rewrite zdrop_nth by lia. rewrite Hz. reflexivity. }
  destruct (state_of_cases cur) as [[E ->]|[[E ->]|[[E ->]|[(N1 & N2 & N3) ->]]]]; cbn [Z.eqb Pos.eqb].
  - subst cur. cbn. change (zlen (@nil Z)) with 0 in Hl. split; [lia|]. replace (zlen (dir acc) + 1) with (p - 1 + 1) by lia.
    rewrite Hzero, Ht, app_nil_r. reflexivity.
  - subst cur. cbn. change (zlen dot) with 1 in Hl. split; [lia|]. replace (zlen (dir acc)) with (p - 1 - 1) by lia.
    apply store_end; [|lia]. rewrite <- (ztake_ztake (p - 1 - 1) (p - 1)) by lia. rewrite Ht. apply ztake_app_len. lia.
  - subst cur. change (zlen dotdot) with 2 in Hl. change (bytes_eqb dotdot [] || bytes_eqb dotdot dot) with false.
    change (bytes_eqb dotdot dotdot) with true. cbv iota. rewrite Hfirst. cbn [Z.eqb Pos.eqb]. rewrite andb_true_r.
    destruct Ha as [|sg a Hsg Ha].
    { change (zlen (dir [])) with 1 in Hl. replace (p - 1 - 3 =? 0) with true by lia. rewrite orb_true_r. reflexivity. }
    cbn [dir] in *. destruct (dir_last a) as [x Hx]. rewrite !zlen_app in Hl, Hdp. change (zlen [47]) with 1 in *. pose proof (zlen_nonneg sg).
    assert (Hxl : zlen (dir a) = zlen x + 1) by (rewrite Hx, zlen_app; reflexivity). pose proof (zlen_nonneg x).
    assert (zlen sg <> 0) by (destruct sg; [destruct Hsg; congruence|rewrite zlen_cons; pose proof (zlen_nonneg sg); lia]).
    replace ((p - 1 - 3 <? 0) || (p - 1 - 3 =? 0)) with false by lia.
    assert (Htx : ztake (p - 1) b = x ++ [47] ++ sg ++ [47] ++ dotdot) by (rewrite Ht, Hx, <- !app_assoc; reflexivity).
    rewrite (find_slash_spec b x sg); [|rewrite <- (ztake_ztake (p - 1 - 3) (p - 1)) by lia; rewrite Htx|lia|apply Hsg|lia].
    2:{ replace (x ++ [47] ++ sg ++ [47] ++ dotdot) with ((x ++ [47] ++ sg) ++ [47] ++ dotdot) by (rewrite <- !app_assoc; reflexivity).
        apply ztake_app_len. rewrite !zlen_app. change (zlen [47]) with 1. lia. }
    cbn [fst snd]. split; [lia|]. rewrite Hxl. apply store_end; [|lia]. rewrite Hx. rewrite <- (ztake_ztake (zlen x + 1) (p - 1)) by lia. rewrite Htx, app_assoc.
    apply ztake_app_len. rewrite zlen_app. reflexivity.
  - replace (bytes_eqb cur [] || bytes_eqb cur dot) with false.
    2:{ symmetry. rewrite <- not_true_iff_false, orb_true_iff, !bytes_eqb_eq. tauto. }
    replace (bytes_eqb cur dotdot) with false by (symmetry; rewrite <- not_true_iff_false, bytes_eqb_eq; exact N3).
    cbn [fst snd]. split; [rewrite zlen_app; lia|]. replace (zlen (dir acc ++ cur) + 1) with (p - 1 + 1) by (rewrite zlen_app; lia). rewrite Hzero, Ht. reflexivity.
Qed.

Lemma dir_first acc : exists y, dir acc = 47 :: y.
Proof. induction acc as [|s acc [y IH]]; [exists []; reflexivity|]. cbn. rewrite IH. exists (y ++ s ++ [47]). reflexivity. Qed.

Lemma clean_spec q tail : 0 ∉ q -> let r := clean (47 :: q ++ 0 :: tail) (zlen q + 1) in
  match normalize (47 :: q) with
  | Some p => r.1 = zlen p /\ ztake (zlen p + 1) r.2 = p ++ [0]
  | None => r.1 = LS_FAIL
  end.
Proof.
  intros Hz. cbv zeta. unfold clean. change (znth (47 :: q ++ 0 :: tail) 0 =? 47) with true. cbv iota. set (b := 47 :: q ++ 0 :: tail).
  pose proof (zlen_nonneg q) as Hq. pose proof (zlen_nonneg tail).
  assert (Hb : zlen b = zlen q + 2 + zlen tail) by (subst b; rewrite zlen_cons, zlen_app, zlen_cons; lia).
  replace (Z.to_nat (zlen q + 1 + 1)) with (S (Z.to_nat (zlen q + 1))) by lia. cbn [clean_loop GPath.path GPath.p0 GPath.pEnd GPath.state].
  change (znth b 0) with 47. cbn [Z.eqb].
  change (clean_step 47 (GP b (0 + 1) (zlen q + 1 + 1) 0)) with (true, GP b (0 + 1) (zlen q + 1 + 1) 1). cbv iota beta.
  assert (H0 : at_char [] [] q (GP b (0 + 1) (zlen q + 1 + 1) 1)).
  { split; cbn [GPath.path GPath.p0 GPath.pEnd GPath.state]; [reflexivity| |reflexivity|lia|split; [constructor|apply not_elem_of_nil]].
    unfold b, slice. rewrite zdrop_cons by lia. replace (0 + 1 - 1) with 0 by lia. rewrite zdrop_0.
    replace (zlen q + 1 + 1 - (0 + 1)) with (zlen (q ++ [0])) by (rewrite zlen_app; change (zlen [0]) with 1; lia).
    change (0 :: tail) with ([0] ++ tail). rewrite app_assoc. apply ztake_app_exact. }
  pose proof (clean_loop_spec q [] [] _ (Z.to_nat (zlen q + 1)) H0 Hz ltac:(unfold zlen; lia)) as Hl. unfold normalize.
  destruct (resolve [] [] q) as [[acc cur]|]; cycle 1.
  { destruct (clean_loop _ _) as [ok s]. cbn in Hl. subst ok. reflexivity. }
  destruct Hl as (s & -> & Hs). cbn [negb]. apply (clean_last acc cur s Hs).
  destruct Hs as [Ht Hl _ _ Hr _]. pose proof (zlen_dir_pos acc). rewrite zlen_app in Hl. pose proof (zlen_nonneg cur).
  rewrite <- (znth_ztake (path s) (p0 s - 1) 0) by lia. rewrite Ht. destruct (dir_first acc) as [y ->]. reflexivity.
Qed.

(** C31: [GPath::clean] computes the reference in place.  On a buffer with an
    absolute path and its terminator, it returns the length of the path without
    its empty, [.] and [..] segments and leaves that path, terminated, at the
    start of the buffer; it fails exactly when a [..] segment would climb above
    the root.  The loop ends. *)
Theorem clean_normalizes q tail : 0 ∉ q ->
  let r := clean (47 :: q ++ 0 :: tail) (zlen q + 1) in
  match normalize (47 :: q) with
  | Some p => r.1 = zlen p /\ ztake (zlen p + 1) r.2 = p ++ [0] /\ dotless p
  | None => r.1 = LS_FAIL
  end.
Proof.
  intros Hz r. pose proof (clean_spec q tail Hz) as Hc. fold r in Hc. destruct (normalize (47 :: q)) as [p|] eqn:E; [|exact Hc].
  destruct Hc as [H1 H2]. split_and!; auto. exact (normalize_dotless _ _ E).
Qed.

Lemma clean_normalizes_witness :
  let r := clean (bs "/a/./b//../c/.." ++ [0; 7]) 15 in
  match normalize (bs "/a/./b//../c/..") with
  | Some p => r.1 = zlen p /\ ztake (zlen p + 1) r.2 = p ++ [0] /\ dotless p
  | None => r.1 = LS_FAIL
  end.
Proof. apply (clean_normalizes (bs "a/./b//../c/..") [7]). apply (bool_decide_unpack _). vm_compute. exact I. Defined.

Example normalized : normalize (bs "/a/./b//../c/..") = Some (bs "/a/") /\ normalize (bs "/a/../../etc/passwd") = None.
Proof. vm_compute. auto. Qed.

(** ** Request targets *)

Definition isReqTargetValid (value : list Z) : bool :=
  (fix go (query : bool) (p : list Z) : bool :=
     match p with
     | [] => true
     | c :: p =>
         if (c <? 32) || (c =? 127) then false
         else if c =? 63 then go true p
         else if (c =? 92) && negb query then false
         else go query p
     end) false value.

Definition path_char (c : Z) : bool := negb ((c <? 32) || (c =? 127) || (c =? 92)).
Definition isDecodedReqPathValid (value : list Z) : bool := forallb path_char value.

(** On the buffer, of which [len] bytes are the path. *)
Definition normalizeDecodedReqPath (b : list Z) (len : Z) : Z * list Z :=
  if (len <=? 0) || negb (znth b 0 =? 47) || negb (isDecodedReqPathValid (ztake len b)) then (LS_FAIL, b)
  else
    let '(n, b) := clean b len in
    (if n >? 0 then n else LS_FAIL, b).

(** The byte of an escape, as an unsigned char. *)
Definition unhex (x y : Z) : Z := Z.land (Z.shiftl (hexdigit x) 4 + hexdigit y) 255.

(** The loop of [decodeReqPath]; [prev] is the source byte before the next. *)
Fixpoint decode_loop (prev : option Z) (p : list Z) : option (list Z) :=
  match p with
  | [] => Some []
  | ch :: p =>
      if ch =? 37 then
        match p with
        | x :: y :: p =>
            if isxdigit x && isxdigit y then option_map (cons (unhex x y)) (decode_loop (Some y) p) else None
        | _ => None
        end
      else if (ch =? 47) && match p with c :: _ => c =? 47 | [] => false end
              && match prev with Some c => negb (c =? 58) | None => true end
      then decode_loop (Some ch) p
      else option_map (cons ch) (decode_loop (Some ch) p)
  end.

Definition decodeReqPath (src : list Z) : option (list Z) :=
  match memchr 37 src with
  | None => Some src
  | Some _ => decode_loop None src
  end.

(** [HttpReq::parseURI] with the block of the pool it decodes into: the status,
    and the URI that is set. *)
Definition parseURI (mem : list Z) (is_options : bool) (src : list Z) : Z * option (list Z) :=
  if (zlen src =? 1) && (znth src 0 =? 42) then if is_options then (0, Some [42]) else (SC_400, None)
  else
    match decodeReqPath src with
    | None => (SC_400, None)
    | Some d =>
        let p := store (store mem 0 d) (zlen d) [0] in
        let '(n, p) := normalizeDecodedReqPath p (zlen d) in
        if n =? LS_FAIL then (SC_400, None) else (0, Some (ztake n (store p n [0])))
    end.

Definition URL_INDEX_PAD : Z := 32.

(** Percent-decoding. *)
Fixpoint pct_decode (p : list Z) : option (list Z) :=
  match p with
  | [] => Some []
  | ch :: p =>
      if ch =? 37 then
        match p with
        | x :: y :: p => if isxdigit x && isxdigit y then option_map (cons (unhex x y)) (pct_decode p) else None
        | _ => None
        end
      else option_map (cons ch) (pct_decode p)
  end.

(** Two decoded paths that differ in repeated slashes only. *)
Definition same_path (a b : option (list Z)) : Prop :=
  match a, b with
  | Some a, Some b =>
      (forall acc cur, resolve acc cur a = resolve acc cur b) /\ hd_error a = hd_error b /\
      isDecodedReqPathValid a = isDecodedReqPathValid b /\ zlen a <= zlen b
  | None, None => True
  | _, _ => False
  end.

Lemma same_path_cons c a b : same_path a b -> same_path (option_map (cons c) a) (option_map (cons c) b).
Proof.
  unfold same_path, isDecodedReqPathValid. destruct a as [a|], b as [b|]; cbn [option_map]; auto. intros (Hr & _ & Hv & Hl).
  split_and!; [|reflexivity|cbn [forallb]; rewrite Hv; reflexivity|rewrite !zlen_cons; lia].
  intros acc cur. cbn [resolve]. destruct (c =? 47); [destruct (close acc cur); [apply Hr|reflexivity]|apply Hr].
Qed.

Lemma decode_squeeze n : forall src prev, (length src < n)%nat -> same_path (decode_loop prev src) (pct_decode src).
Proof.
  induction n as [|n IH]; intros src prev Hn; [lia|]. destruct src as [|c src]; [cbn; auto using Z.le_refl|].
  cbn [decode_loop pct_decode]. cbn in Hn. destruct (Z.eqb_spec c 37) as [->|Hc].
  { destruct src as [|x [|y src]]; [exact I|exact I|]. destruct (isxdigit x && isxdigit y); [|exact I]. apply same_path_cons, IH. cbn in Hn. lia. }
  destruct (Z.eqb_spec c 47) as [->|]; cbn [andb]; [|apply same_path_cons, IH; lia].
  destruct src as [|d src]; cbn [andb]; [apply same_path_cons, IH; cbn in *; lia|].
  destruct (Z.eqb_spec d 47) as [->|]; cbn [andb]; [|apply same_path_cons, IH; lia].
  destruct (match prev with Some c => negb (c =? 58) | None => true end); [|apply same_path_cons, IH; lia].
  assert (E : forall x, decode_loop (Some 47) (47 :: src) = x -> same_path x (pct_decode (47 :: src))) by (intros x <-; apply IH; lia).
  specialize (E _ eq_refl). change (47 =? 37) with false in *. cbv iota. revert E. generalize (decode_loop (Some 47) (47 :: src)).
  cbn [pct_decode Z.eqb Pos.eqb]. destruct (pct_decode src) as [b|]; cbn [option_map]; [|intros [a|]; auto].
  intros [a|]; [|intros []]. intros (Hr & Hh & Hv & Hl). split_and!.
  - intros acc cur. rewrite Hr. cbn. destruct (close acc cur) as [a1|]; [|reflexivity]. unfold close. cbn. reflexivity.
  - exact Hh.
  - rewrite Hv. reflexivity.
  - rewrite !zlen_cons in *. lia.
Qed.

Lemma decode_same src : same_path (decodeReqPath src) (pct_decode src).
Proof.
  unfold decodeReqPath. destruct (memchr 37 src) eqn:E; [eapply decode_squeeze; constructor|].
  apply memchr_None in E. replace (pct_decode src) with (Some src); [cbn; auto using Z.le_refl|]. symmetry.
  induction src as [|c src IH]; [reflexivity|]. apply not_elem_of_cons in E as [Hc Hs]. cbn [pct_decode].
  replace (c =? 37) with false by lia. rewrite IH by exact Hs. reflexivity.
Qed.

Lemma normalize_other p : hd_error p <> Some 47 -> normalize p = None.
Proof.
  destruct p as [|c q]; [reflexivity|]. cbn. intros Hc. unfold normalize. destruct c as [|c|c]; try reflexivity.
  do 6 (destruct c as [c|c|]; try reflexivity). congruence.
Qed.

Lemma normalize_same a b : same_path (Some a) (Some b) -> normalize a = normalize b.
Proof.
  intros (Hr & Hh & _ & _). destruct (decide (hd_error b = Some 47)) as [E|E]; [|rewrite !normalize_other by congruence; reflexivity].
  rewrite E in Hh. destruct a as [|x a]; [discriminate|]. destruct b as [|y b]; [discriminate|]. injection Hh as ->. injection E as ->.
  specialize (Hr [] []). cbn in Hr. unfold normalize. rewrite Hr. reflexivity.
Qed.

Lemma zlen_normalize p r : normalize p = Some r -> 0 < zlen r.
Proof.
  intros H. destruct (normalize_dotless _ _ H) as (acc & cur & -> & _). rewrite zlen_app. pose proof (zlen_dir_pos acc). pose proof (zlen_nonneg cur). lia.
Qed.

Lemma valid_no_nul p : isDecodedReqPathValid p = true -> 0 ∉ p.
Proof. intros Hv Hi. unfold isDecodedReqPathValid in Hv. rewrite forallb_forall in Hv. apply list_elem_of_In in Hi. specialize (Hv 0 Hi). discriminate. Qed.

(** Checking and cleaning a decoded path in its buffer. *)
Lemma normalizeDecodedReqPath_spec d tail : let r := normalizeDecodedReqPath (d ++ 0 :: tail) (zlen d) in
  match (if isDecodedReqPathValid d then normalize d else None) with
  | Some p => r.1 = zlen p /\ ztake (zlen p + 1) r.2 = p ++ [0]
  | None => r.1 = LS_FAIL
  end.
Proof.
  unfold normalizeDecodedReqPath. cbv zeta. rewrite ztake_app_exact. destruct d as [|c q].
  { cbn. reflexivity. }
  rewrite zlen_cons. pose proof (zlen_nonneg q). replace (1 + zlen q <=? 0) with false by lia. cbn [orb].
  change (znth ((c :: q) ++ 0 :: tail) 0) with c. destruct (isDecodedReqPathValid (c :: q)) eqn:Ev; [|rewrite orb_true_r; reflexivity].
  cbn [negb]. rewrite orb_false_r. destruct (Z.eqb_spec c 47) as [->|Hc]; cbn [negb]; [|rewrite normalize_other by (cbn; congruence); reflexivity].
  apply valid_no_nul, not_elem_of_cons in Ev as [_ Ev]. pose proof (clean_spec q tail Ev) as Hcl. cbv zeta in Hcl.
  rewrite Z.add_comm in Hcl. change ((47 :: q) ++ 0 :: tail) with (47 :: q ++ 0 :: tail).
  destruct (clean (47 :: q ++ 0 :: tail) (1 + zlen q)) as [n b]. cbn [fst snd] in Hcl. destruct (normalize (47 :: q)) as [p|] eqn:E.
  - destruct Hcl as [-> H2]. pose proof (zlen_normalize _ _ E). cbn [fst snd]. replace (zlen p >? 0) with true by lia. auto.
  - subst n. reflexivity.
Qed.

Lemma store_terminated mem d : zlen d < zlen mem -> exists tail, store (store mem 0 d) (zlen d) [0] = d ++ 0 :: tail.
Proof.
  intros Hl. pose proof (zlen_nonneg d). exists (zdrop (zlen d + 1) mem). unfold store at 1.
  replace (ztake (zlen d) (store mem 0 d)) with d; [|symmetry; rewrite <- slice_0; apply slice_store; lia].
  change (zlen [0]) with 1. rewrite zdrop_store by lia. reflexivity.
Qed.

Lemma pct_decode_len n : forall src d, (length src < n)%nat -> pct_decode src = Some d -> zlen d <= zlen src.
Proof.
  induction n as [|n IH]; intros src d Hn; [lia|]. destruct src as [|c src]; cbn [pct_decode]; [intros [= <-]; lia|]. cbn in Hn. rewrite zlen_cons.
  destruct (c =? 37).
  - destruct src as [|x [|y src]]; [discriminate|discriminate|]. destruct (isxdigit x && isxdigit y); [|discriminate]. rewrite !zlen_cons.
    destruct (pct_decode src) as [d1|] eqn:E; [|discriminate]. intros [= <-]. apply IH in E; [|cbn in Hn; lia]. rewrite zlen_cons. lia.
  - destruct (pct_decode src) as [d1|] eqn:E; [|discriminate]. intros [= <-]. apply IH in E; [|lia]. rewrite zlen_cons. lia.
Qed.

(** C32: the URI of a request.  [parseURI] accepts exactly the targets whose
    percent-decoding succeeds, starts with a slash, has no control character and
    no backslash, and does not climb above the root, and the URI is the decoded
    path without its empty, [.] and [..] segments (or [*] for OPTIONS); every
    other target is a bad request.  That repeated slashes are squeezed while
    decoding, but only in a path that has an escape and not after a colon, makes
    no difference. *)
Theorem parseURI_reference mem is_options src : zlen mem = zlen src + URL_INDEX_PAD ->
  parseURI mem is_options src =
    if bytes_eqb src [42] then if is_options then (0, Some [42]) else (SC_400, None)
    else
      match pct_decode src with
      | Some d =>
          match (if isDecodedReqPathValid d then normalize d else None) with
          | Some uri => (0, Some uri)
          | None => (SC_400, None)
          end
      | None => (SC_400, None)
      end.
Proof.
  intros Hm. unfold parseURI. replace ((zlen src =? 1) && (znth src 0 =? 42)) with (bytes_eqb src [42]).
  2:{ destruct src as [|c [|y src]]; [reflexivity| |].
      - cbn. rewrite andb_true_r. reflexivity.
      - cbn. rewrite andb_false_r. rewrite !zlen_cons. pose proof (zlen_nonneg src). replace (1 + (1 + zlen src) =? 1) with false by lia. reflexivity. }
  destruct (bytes_eqb src [42]); [reflexivity|]. pose proof (decode_same src) as Hs.
  destruct (decodeReqPath src) as [d|]; destruct (pct_decode src) as [d0|] eqn:Ed; try contradiction; [|reflexivity].
  rewrite <- (normalize_same d d0 Hs). destruct Hs as (_ & _ & Hv & Hl). rewrite <- Hv.
  apply (pct_decode_len (S (length src))) in Ed; [|lia]. unfold URL_INDEX_PAD in Hm.
  destruct (store_terminated mem d) as [tail ->]; [lia|].
  pose proof (normalizeDecodedReqPath_spec d tail) as Hn. cbv zeta in Hn. destruct (normalizeDecodedReqPath _ _) as [n b]. cbn [fst snd] in Hn.
  destruct (if isDecodedReqPathValid d then normalize d else None) as [p|] eqn:En; [|subst n; reflexivity].
  destruct Hn as [-> Hb]. assert (Hp : 0 < zlen p) by (destruct (isDecodedReqPathValid d); [apply (zlen_normalize _ _ En)|discriminate]).
  replace (zlen p =? LS_FAIL) with false by (unfold LS_FAIL; lia). do 2 f_equal.
  assert (Hlb : zlen p + 1 <= zlen b).
  { apply (f_equal zlen) in Hb. rewrite zlen_ztake, zlen_app in Hb by lia. change (zlen [0]) with 1 in Hb. lia. }
  rewrite ztake_store by lia. rewrite <- (ztake_ztake (zlen p) (zlen p + 1)) by lia. rewrite Hb. apply ztake_app_exact.
Qed.

Lemma parseURI_reference_witness :
  parseURI (repeat 7 60) false (bs "/a//b/%2e%2E/c%20d/.") =
    match pct_decode (bs "/a//b/%2e%2E/c%20d/.") with
    | Some d =>
        match (if isDecodedReqPathValid d then normalize d else None) with
        | Some uri => (0, Some uri)
        | None => (SC_400, None)
        end
    | None => (SC_400, None)
    end.
Proof. apply (parseURI_reference (repeat 7 52) false (bs "/a//b/%2e%2E/c%20d/.")). reflexivity. Defined.

Example uris :
  map (parseURI (repeat 0 60) false) [bs "/a//b/%2e%2E/c%20d/."; bs "/%2e./x"; bs "/a%5cb"; bs "x"; bs "*"] =
    [(0, Some (bs "/a/c d/")); (SC_400, None); (SC_400, None); (SC_400, None); (SC_400, None)].
Proof. vm_compute. reflexivity. Qed.

(** ** Internal redirects *)

(** The bytes of [unescapeInPlace] are kept with the last one first, as the
    code looks back from the end of its output. *)
Definition put (c : Z) (slash_next : bool) (rout : list Z) (check : Z) : option (list Z * Z) :=
  if c =? 46 then Some (46 :: rout, match rout with l :: _ => if l =? 47 then 1 else check | [] => check end)
  else if (c =? 47) && slash_next then Some (rout, check)
  else if check >? 0 then
    let l1 := nth 0 rout 0 in
    let l2 := nth 1 rout 0 in
    if (check =? 2) && (c =? 116) && (l1 =? 104) then None
    else if (check =? 3) && (((c =? 116) && (l1 =? 105) && (l2 =? 103)) || ((c =? 110) && (l1 =? 118) && (l2 =? 115))) then None
    else Some (c :: rout, if check + 1 >? 3 then 0 else check + 1)
  else Some (c :: rout, check).

Definition starts_slash (p : list Z) : bool := match p with c :: _ => c =? 47 | [] => false end.

(** The path, and what follows the question mark; [None] is -1. *)
Fixpoint unescape_loop (src rout : list Z) (check : Z) : option (list Z * option (list Z)) :=
  match src with
  | [] => Some (rev rout, None)
  | c :: src =>
      if c =? 37 then
        match src with
        | x :: y :: src =>
            if isxdigit x && isxdigit y then
              match put (unhex x y) (starts_slash src) rout check with
              | Some (rout, check) => unescape_loop src rout check
              | None => None
              end
            else None
        | _ => None
        end
      else if c =? 63 then Some (rev rout, Some src)
      else
        match put c (starts_slash src) rout check with
        | Some (rout, check) => unescape_loop src rout check
        | None => None
        end
  end.

Definition unescapeInPlace (src : list Z) : option (list Z * option (list Z)) := unescape_loop src [] 0.

(** [HttpReq::setCurrentURL]: the status, the URI and the query string that are
    set; the query string is kept when the target has none. *)
Definition setCurrentURL (mem pURL : list Z) (alloc : bool) : Z * option (list Z * option (list Z)) :=
  if (zlen pURL <=? 0) || negb (znth pURL 0 =? 47) || negb (isReqTargetValid pURL) then (SC_400, None)
  else
    match unescapeInPlace pURL with
    | None => (SC_400, None)
    | Some (d, args) =>
        let p := store (store mem 0 d) (zlen d) [0] in
        let '(n, p) := normalizeDecodedReqPath p (zlen d) in
        if n =? LS_FAIL then (SC_400, None)
        else
          let qs := match args with Some q => q | None => [] end in
          (0, Some (ztake n p, if alloc || (zlen qs >? 0) then Some qs else None))
    end.

(** [HttpReq::setRewriteURI]: the URI that is set, or a failure. *)
Definition MAX_URL_LEN : Z := 65536.
Definition setRewriteURI (mem pURL : list Z) : option (list Z) :=
  if (zlen pURL <=? 0) || negb (znth pURL 0 =? 47) then None
  else
    let pURL := ztake MAX_URL_LEN pURL in
    let p := store (store mem 0 pURL) (zlen pURL) [0] in
    let '(n, p) := normalizeDecodedReqPath p (zlen pURL) in
    if n =? LS_FAIL then None else Some (ztake n (store p n [0])).

(** The names that are refused after a slash. *)
Definition hidden_names : list (list Z) := [bs ".ht"; bs ".git"; bs ".svn"].
Definition hidden (s : list Z) : Prop := exists pat t, pat ∈ hidden_names /\ s = pat ++ t.

(** No hidden name in the output so far, and what [check] stands for. *)
Definition no_hidden (rout : list Z) : Prop := forall pat x y, pat ∈ hidden_names -> rout <> y ++ rev pat ++ 47 :: x.

Record checked (check : Z) (rout : list Z) : Prop := {
  ck_clean : no_hidden rout;
  ck_1 : forall x, rout = 46 :: 47 :: x -> check = 1;
  ck_2 : forall x c, rout = c :: 46 :: 47 :: x -> (c = 104 \/ c = 103 \/ c = 115) -> check = 2;
  ck_3 : forall x c d, rout = d :: c :: 46 :: 47 :: x -> (c = 103 /\ d = 105 \/ c = 115 /\ d = 118) -> check = 3 }.

Lemma no_hidden_cons c rout : no_hidden rout ->
  (c = 116 -> forall x, rout <> 104 :: 46 :: 47 :: x) ->
  (c = 116 -> forall x, rout <> 105 :: 103 :: 46 :: 47 :: x) ->
  (c = 110 -> forall x, rout <> 118 :: 115 :: 46 :: 47 :: x) -> no_hidden (c :: rout).
Proof.
  intros Hn H1 H2 H3 pat x y Hp E. destruct y as [|z y].
  - unfold hidden_names in Hp. cbn in E.
    apply elem_of_cons in Hp as [->|Hp]; [cbn in E; injection E as -> E; exact (H1 eq_refl x E)|].
    apply elem_of_cons in Hp as [->|Hp]; [cbn in E; injection E as -> E; exact (H2 eq_refl x E)|].
    apply elem_of_cons in Hp as [->|Hp]; [cbn in E; injection E as -> E; exact (H3 eq_refl x E)|inversion Hp].
  - injection E as _ E. exact (Hn pat x y Hp E).
Qed.

Lemma put_checked c sn rout check rout' check' : checked check rout -> put c sn rout check = Some (rout', check') -> checked check' rout'.
Proof.
  intros [H0 H1 H2 H3]. unfold put. destruct (Z.eqb_spec c 46) as [->|Hc].
  { intros [= <- <-]. split.
    - apply no_hidden_cons; auto; discriminate.
    - intros x [= ->]. reflexivity.
    - intros x d Hx Hd. injection Hx as Hx _. lia.
    - intros x d e Hx Hd. injection Hx as Hx _. lia. }
  destruct (_ && sn); [intros [= <- <-]; split; assumption|].
  destruct (Z.gtb_spec check 0) as [Hk|Hk].
  - destruct ((check =? 2) && _ && _) eqn:E2; [discriminate|]. destruct ((check =? 3) && _) eqn:E3; [discriminate|].
    intros [= <- <-]. split.
    + apply no_hidden_cons; auto.
      * intros -> x ->. specialize (H2 x 104 eq_refl ltac:(auto)). subst check. discriminate.
      * intros -> x ->. specialize (H3 x 103 105 eq_refl ltac:(auto)). subst check. discriminate.
      * intros -> x ->. specialize (H3 x 115 118 eq_refl ltac:(auto)). subst check. discriminate.
    + intros x [= -> _]. congruence.
    + intros x d [= -> Hr] Hd. rewrite (H1 x Hr). reflexivity.
    + intros x d e [= -> Hr] Hd. rewrite (H2 x d Hr); [reflexivity|lia].
  - intros [= <- <-]. split.
    + apply no_hidden_cons; auto.
      * intros -> x ->. specialize (H2 x 104 eq_refl ltac:(auto)). lia.
      * intros -> x ->. specialize (H3 x 103 105 eq_refl ltac:(auto)). lia.
      * intros -> x ->. specialize (H3 x 115 118 eq_refl ltac:(auto)). lia.
    + intros x [= -> _]. congruence.
    + intros x d [= -> Hr] Hd. specialize (H1 x Hr). lia.
    + intros x d e [= -> Hr] Hd. specialize (H2 x d Hr ltac:(lia)). lia.
Qed.

Lemma unescape_no_hidden n : forall src rout check d args, (length src < n)%nat -> checked check rout ->
  unescape_loop src rout check = Some (d, args) -> no_hidden (rev d).
Proof.
  induction n as [|n IH]; intros src rout check d args Hn Hc; [lia|]. destruct src as [|c src]; cbn [unescape_loop].
  { intros [= <- _]. rewrite rev_involutive. apply Hc. }
  cbn in Hn. destruct (c =? 37).
  - destruct src as [|x [|y src]]; [discriminate|discriminate|]. cbn in Hn. destruct (isxdigit x && isxdigit y); [|discriminate].
    destruct (put _ _ _ _) as [[r k]|] eqn:E; [|discriminate]. apply IH; [lia|]. exact (put_checked _ _ _ _ _ _ Hc E).
  - destruct (c =? 63); [intros [= <- _]; rewrite rev_involutive; apply Hc|].
    destruct (put _ _ _ _) as [[r k]|] eqn:E; [|discriminate]. apply IH; [lia|]. exact (put_checked _ _ _ _ _ _ Hc E).
Qed.

Lemma put_len c sn rout check rout' check' : put c sn rout check = Some (rout', check') -> zlen rout' <= zlen rout + 1.
Proof.
  unfold put. destruct (c =? 46); [intros [= <- _]; rewrite zlen_cons; lia|]. destruct (_ && sn); [intros [= <- _]; lia|].
  destruct (check >? 0); [|intros [= <- _]; rewrite zlen_cons; lia].
  destruct (_ && _ && _); [discriminate|]. destruct ((check =? 3) && _); [discriminate|]. intros [= <- _]. rewrite zlen_cons. lia.
Qed.

Lemma unescape_len n : forall src rout check d args, (length src < n)%nat -> unescape_loop src rout check = Some (d, args) ->
  zlen d <= zlen rout + zlen src.
Proof.
  induction n as [|n IH]; intros src rout check d args Hn; [lia|]. destruct src as [|c src]; cbn [unescape_loop].
  { intros [= <- _]. rewrite zlen_rev. change (zlen (@nil Z)) with 0. lia. }
  cbn in Hn. rewrite zlen_cons. pose proof (zlen_nonneg src). destruct (c =? 37).
  - destruct src as [|x [|y src]]; [discriminate|discriminate|]. cbn in Hn. destruct (isxdigit x && isxdigit y); [|discriminate].
    destruct (put _ _ _ _) as [[r k]|] eqn:E; [|discriminate]. intros Hu. apply IH in Hu; [|lia]. apply put_len in E. rewrite !zlen_cons. lia.
  - destruct (c =? 63); [intros [= <- _]; rewrite zlen_rev; lia|].
    destruct (put _ _ _ _) as [[r k]|] eqn:E; [|discriminate]. intros Hu. apply IH in Hu; [|lia]. apply put_len in E. lia.
Qed.

(** The segments of a normalized path are segments of the path. *)
Lemma resolve_prefix pat q : forall acc cur acc' cur', (forall s, s ∈ acc -> forall t, s <> pat ++ t) -> pat <> [] -> 47 ∉ pat ->
  (forall x y, 47 :: cur ++ q <> x ++ 47 :: pat ++ y) -> resolve acc cur q = Some (acc', cur') ->
  (forall s, s ∈ acc' -> forall t, s <> pat ++ t) /\ forall t, cur' <> pat ++ t.
Proof.
  induction q as [|c q IH]; intros acc cur acc' cur' Ha Hp0 Hp Hn; cbn [resolve].
  { intros [= <- <-]. split; [exact Ha|]. intros t ->. apply (Hn [] t). rewrite app_nil_r. reflexivity. }
  destruct (Z.eqb_spec c 47) as [->|Hc].
  - assert (Hcur : forall t, cur <> pat ++ t) by (intros t ->; apply (Hn [] (t ++ 47 :: q)); cbn; rewrite <- app_assoc; reflexivity).
    destruct (close acc cur) as [acc1|] eqn:E; [|discriminate]. apply IH; auto.
    + unfold close in E. destruct (_ || _); [injection E as <-; exact Ha|]. destruct (bytes_eqb cur dotdot).
      * destruct acc as [|s0 acc]; [discriminate|]. injection E as <-. intros s Hs. apply Ha. constructor. exact Hs.
      * injection E as <-. intros s Hs. apply elem_of_cons in Hs as [->|Hs]; [exact Hcur|exact (Ha s Hs)].
    + intros x y E1. apply (Hn (47 :: cur ++ x) y). cbn. rewrite <- app_assoc. f_equal. f_equal. exact E1.
  - apply IH; auto. intros x y E1. apply (Hn x y). rewrite <- app_assoc in E1. exact E1.
Qed.

Lemma normalize_hidden p r : normalize p = Some r -> no_hidden (rev p) -> dotless r ->
  exists acc cur, r = dir acc ++ cur /\ Forall proper acc /\ (cur = [] \/ proper cur) /\ forall s, s ∈ cur :: acc -> ~ hidden s.
Proof.
  intros Hn Hh _. unfold normalize in Hn. destruct p as [|c q]; [discriminate|]. destruct (decide (c = 47)) as [->|Hne].
  2:{ change (normalize (c :: q) = Some r) in Hn. rewrite normalize_other in Hn by (cbn; congruence). discriminate. }
  assert (Hpat : forall pat x y, pat ∈ hidden_names -> 47 :: q <> x ++ 47 :: pat ++ y).
  { intros pat x y Hp E. apply (Hh pat (rev x) (rev y) Hp). rewrite E, rev_app_distr. cbn. rewrite rev_app_distr, <- !app_assoc. reflexivity. }
  destruct (resolve [] [] q) as [[acc cur]|] eqn:E; [|discriminate].
  pose proof E as Ep. apply resolve_proper in Ep as [Ha Hc]; [|constructor|apply not_elem_of_nil].
  assert (Hhid : (forall s, s ∈ acc -> ~ hidden s) /\ ~ hidden cur).
  { assert (Hx : forall pat, pat ∈ hidden_names -> (forall s, s ∈ acc -> forall t, s <> pat ++ t) /\ forall t, cur <> pat ++ t).
    { intros pat Hp. apply (resolve_prefix pat q [] [] acc cur).
      - intros s Hs. inversion Hs.
      - unfold hidden_names in Hp. intros ->. do 3 (apply elem_of_cons in Hp as [Hp|Hp]; [discriminate|]). inversion Hp.
      - unfold hidden_names in Hp. apply (bool_decide_unpack _).
        do 3 (apply elem_of_cons in Hp as [->|Hp]; [vm_compute; exact I|]). inversion Hp.
      - intros x y. apply Hpat. exact Hp.
      - exact E. }
    split.
    - intros s Hs (pat & t & Hp & ->). exact (proj1 (Hx pat Hp) _ Hs t eq_refl).
    - intros (pat & t & Hp & Heq). exact (proj2 (Hx pat Hp) t Heq). }
  destruct Hhid as [Hacc Hcur]. assert (Hnil : ~ hidden []).
  { intros (pat & t & Hp & Heq). destruct pat; [|discriminate]. unfold hidden_names in Hp. do 3 (apply elem_of_cons in Hp as [Hp|Hp]; [discriminate|]). inversion Hp. }
  destruct (bytes_eqb cur [] || bytes_eqb cur dot) eqn:E1.
  { injection Hn as <-. exists acc, []. rewrite app_nil_r. split_and!; auto. intros s Hs. apply elem_of_cons in Hs as [->|Hs]; auto. }
  apply orb_false_iff in E1 as [E1 E2]. destruct (bytes_eqb cur dotdot) eqn:E3.
  - destruct Ha as [|s0 acc Hs0 Ha]; [discriminate|]. injection Hn as <-. exists acc, []. rewrite app_nil_r. split_and!; auto.
    intros s Hs. apply elem_of_cons in Hs as [->|Hs]; [exact Hnil|]. apply Hacc. constructor. exact Hs.
  - injection Hn as <-. rewrite <- not_true_iff_false, bytes_eqb_eq in E1, E2, E3. exists acc, cur. split_and!; auto.
    + right. split_and!; auto.
    + intros s Hs. apply elem_of_cons in Hs as [->|Hs]; auto.
Qed.

(** Cleaning adds no characters. *)
Lemma dir_valid acc : Forall (fun s => isDecodedReqPathValid s = true) acc -> isDecodedReqPathValid (dir acc) = true.
Proof.
  unfold isDecodedReqPathValid. induction 1 as [|s acc Hs Ha IH]; [reflexivity|]. cbn [dir]. rewrite !forallb_app, IH, Hs. reflexivity.
Qed.

Lemma resolve_valid q : forall acc cur acc' cur', Forall (fun s => isDecodedReqPathValid s = true) acc ->
  isDecodedReqPathValid (cur ++ q) = true -> resolve acc cur q = Some (acc', cur') ->
  Forall (fun s => isDecodedReqPathValid s = true) acc' /\ isDecodedReqPathValid cur' = true.
Proof.
  induction q as [|c q IH]; intros acc cur acc' cur' Ha Hv; cbn [resolve]; [rewrite app_nil_r in Hv; intros [= <- <-]; auto|].
  destruct (c =? 47); [|apply IH; [exact Ha|rewrite <- app_assoc; exact Hv]].
  unfold isDecodedReqPathValid in Hv. rewrite forallb_app in Hv. apply andb_true_iff in Hv as [Hc Hq]. cbn [forallb] in Hq. apply andb_true_iff in Hq as [_ Hq].
  destruct (close acc cur) as [acc1|] eqn:E; [|discriminate]. apply IH; [|exact Hq].
  unfold close in E. destruct (_ || _); [injection E as <-; exact Ha|]. destruct (bytes_eqb cur dotdot); [|injection E as <-; constructor; [exact Hc|exact Ha]].
  destruct Ha; [discriminate|]. injection E as <-. assumption.
Qed.

Lemma normalize_valid p r : normalize p = Some r -> isDecodedReqPathValid p = true -> isDecodedReqPathValid r = true.
Proof.
  intros Hn Hv. destruct p as [|c q]; [discriminate|]. destruct (decide (c = 47)) as [->|Hne]; [|rewrite normalize_other in Hn by (cbn; congruence); discriminate].
  cbn in Hn. destruct (resolve [] [] q) as [[acc cur]|] eqn:E; [|discriminate].
  apply resolve_valid in E as [Ha Hc]; [|constructor|exact Hv]. destruct (_ || _); [injection Hn as <-; apply dir_valid, Ha|].
  destruct (bytes_eqb cur dotdot); [destruct Ha; [discriminate|]; injection Hn as <-; apply dir_valid; assumption|].
  injection Hn as <-. unfold isDecodedReqPathValid in *. rewrite forallb_app, Hc. rewrite andb_true_r. apply (dir_valid _ Ha).
Qed.

(** C33: [HttpReq::setCurrentURL], through which a redirect to a URL passes
    ([internalRedirect] and sub-requests), keeps to the document tree and away from the
    server's own files.  When it accepts a target, the URI is an absolute path without
    empty, [.] and [..] segments, it has no control character and no backslash, and none
    of its segments starts with [.ht], [.git] or [.svn], however the target spells them.
    The targets of rewrite rules do not come this way: [setRewriteURI] does not look for
    those names ([rewrite_target_hidden]). *)
Theorem redirect_target_safe mem pURL alloc uri qs : zlen mem = zlen pURL + URL_INDEX_PAD ->
  setCurrentURL mem pURL alloc = (0, Some (uri, qs)) ->
  isDecodedReqPathValid uri = true /\
  exists acc cur, uri = dir acc ++ cur /\ Forall proper acc /\ (cur = [] \/ proper cur) /\ forall s, s ∈ cur :: acc -> ~ hidden s.
Proof.
  intros Hm. unfold setCurrentURL. destruct (_ || _ || _); [discriminate|]. destruct (unescapeInPlace pURL) as [[d args]|] eqn:Eu; [|discriminate].
  pose proof (unescape_len _ _ _ _ _ _ (Nat.lt_succ_diag_r _) Eu) as Hl. change (zlen (@nil Z)) with 0 in Hl.
  assert (Hh : no_hidden (rev d)).
  { eapply (unescape_no_hidden _ _ _ _ _ _ (Nat.lt_succ_diag_r _)); [|exact Eu].
    split; [|discriminate..]. intros pat x y _ E. destruct y as [|b y]; [|discriminate]. destruct (rev pat); discriminate. }
  unfold URL_INDEX_PAD in Hm. destruct (store_terminated mem d) as [tail ->]; [lia|].
  pose proof (normalizeDecodedReqPath_spec d tail) as Hn. cbv zeta in Hn. destruct (normalizeDecodedReqPath _ _) as [n b]. cbn [fst snd] in Hn.
  destruct (if isDecodedReqPathValid d then normalize d else None) as [p|] eqn:En; [|subst n; discriminate]. destruct Hn as [-> Hb].
  destruct (isDecodedReqPathValid d) eqn:Hv; [|discriminate]. pose proof (zlen_normalize _ _ En).
  replace (zlen p =? LS_FAIL) with false by (unfold LS_FAIL; lia). intros [= <- _].
  rewrite <- (ztake_ztake (zlen p) (zlen p + 1)) by lia. rewrite Hb, ztake_app_exact.
  split; [exact (normalize_valid _ _ En Hv)|]. apply (normalize_hidden d p En Hh). exact (normalize_dotless _ _ En).
Qed.

Lemma redirect_target_safe_witness : isDecodedReqPathValid (bs "/x/.hidden/y") = true /\
  exists acc cur, bs "/x/.hidden/y" = dir acc ++ cur /\ Forall proper acc /\ (cur = [] \/ proper cur) /\ forall s, s ∈ cur :: acc -> ~ hidden s.
Proof.
  apply (redirect_target_safe (repeat 0 55) (bs "/x//%2ehidden/./y?q=1%2") false (bs "/x/.hidden/y") (Some (bs "q=1%2"))); vm_compute; reflexivity.
Defined.

Example rewrite_target_hidden : setRewriteURI (repeat 0 60) (bs "/x/.htaccess") = Some (bs "/x/.htaccess").
Proof. vm_compute. reflexivity. Qed.

Example hidden_refused :
  map (fun u => fst (setCurrentURL (repeat 0 60) u false)) [bs "/x/%2e%68t/y"; bs "/a/../.git/config"; bs "/.svn"; bs "/.hu"] =
    [SC_400; SC_400; SC_400; 0].
Proof. vm_compute. reflexivity. Qed.
