(* ===== verification/Guard.v ===== *)
(** * Guard: the multipart body guard
    (src/src/http/multipartbodyguard.h, src/src/http/multipartbodyguard.cpp)

    The streaming inspection of request bodies for the PHP upload-progress NUL
    attack: the boundary of the content type, the automaton over lines and
    sections with its skip over value bytes, the KMP search for the field name,
    and the scan budget.  Then the reference reading of a body, a byte at a time
    and without chunks, and the parts that a reader of the body with the framing the
    class's comment describes finds. *)

From S2P Require Import Prelude.
#[local] Open Scope Z_scope.

Definition s_targetName : list Z := bs "PHP_SESSION_UPLOAD_PROGRESS".
Definition s_targetFailure : list Z :=
  [0; 0; 1; 0; 0; 0; 0; 0; 0; 0; 0; 0; 0; 1; 0; 0; 0; 0; 0; 1; 0; 0; 0; 0; 0; 0; 0].
Definition TARGET_NAME_LEN : Z := 27.
Definition PHP_MULTIPART_BOUNDARY_MAX : Z := 5120 - 4.
Definition PHP_MULTIPART_BUFFER_SIZE : Z := 5120.

Inductive section := SEC_SCAN | SEC_HEADER | SEC_VALUE | SEC_BLOCKED.

(** The fields of the class; a null [m_pDelim] is the empty list. *)
Record guard := Guard {
  m_pDelim : list Z; m_phpLineLimit : Z; m_lineBytes : Z; m_scanRemaining : Z;
  m_section : section; m_active : bool; m_invalidBoundary : bool; m_unlimitedScan : bool;
  m_armed : bool; m_valueFirstLine : bool; m_sawCR : bool;
  m_delimMatch : Z; m_lineDelimFull : bool; m_lineDelimBroken : bool; m_lineHasContent : bool;
  m_signatureMatch : Z }.
Definition m_delimLen (g : guard) : Z := zlen (m_pDelim g).

(** The assignments to the fields. *)
Definition set_pDelim x (g : guard) : guard :=
  Guard x (m_phpLineLimit g) (m_lineBytes g) (m_scanRemaining g) (m_section g) (m_active g) (m_invalidBoundary g)
    (m_unlimitedScan g) (m_armed g) (m_valueFirstLine g) (m_sawCR g) (m_delimMatch g) (m_lineDelimFull g)
    (m_lineDelimBroken g) (m_lineHasContent g) (m_signatureMatch g).
Definition set_phpLineLimit x (g : guard) : guard :=
  Guard (m_pDelim g) x (m_lineBytes g) (m_scanRemaining g) (m_section g) (m_active g) (m_invalidBoundary g)
    (m_unlimitedScan g) (m_armed g) (m_valueFirstLine g) (m_sawCR g) (m_delimMatch g) (m_lineDelimFull g)
    (m_lineDelimBroken g) (m_lineHasContent g) (m_signatureMatch g).
Definition set_lineBytes x (g : guard) : guard :=
  Guard (m_pDelim g) (m_phpLineLimit g) x (m_scanRemaining g) (m_section g) (m_active g) (m_invalidBoundary g)
    (m_unlimitedScan g) (m_armed g) (m_valueFirstLine g) (m_sawCR g) (m_delimMatch g) (m_lineDelimFull g)
    (m_lineDelimBroken g) (m_lineHasContent g) (m_signatureMatch g).
Definition set_scanRemaining x (g : guard) : guard :=
  Guard (m_pDelim g) (m_phpLineLimit g) (m_lineBytes g) x (m_section g) (m_active g) (m_invalidBoundary g)
    (m_unlimitedScan g) (m_armed g) (m_valueFirstLine g) (m_sawCR g) (m_delimMatch g) (m_lineDelimFull g)
    (m_lineDelimBroken g) (m_lineHasContent g) (m_signatureMatch g).
Definition set_section x (g : guard) : guard :=
  Guard (m_pDelim g) (m_phpLineLimit g) (m_lineBytes g) (m_scanRemaining g) x (m_active g) (m_invalidBoundary g)
    (m_unlimitedScan g) (m_armed g) (m_valueFirstLine g) (m_sawCR g) (m_delimMatch g) (m_lineDelimFull g)
    (m_lineDelimBroken g) (m_lineHasContent g) (m_signatureMatch g).
Definition set_active x (g : guard) : guard :=
  Guard (m_pDelim g) (m_phpLineLimit g) (m_lineBytes g) (m_scanRemaining g) (m_section g) x (m_invalidBoundary g)
    (m_unlimitedScan g) (m_armed g) (m_valueFirstLine g) (m_sawCR g) (m_delimMatch g) (m_lineDelimFull g)
    (m_lineDelimBroken g) (m_lineHasContent g) (m_signatureMatch g).
Definition set_invalidBoundary x (g : guard) : guard :=
  Guard (m_pDelim g) (m_phpLineLimit g) (m_lineBytes g) (m_scanRemaining g) (m_section g) (m_active g) x
    (m_unlimitedScan g) (m_armed g) (m_valueFirstLine g) (m_sawCR g) (m_delimMatch g) (m_lineDelimFull g)
    (m_lineDelimBroken g) (m_lineHasContent g) (m_signatureMatch g).
Definition set_unlimitedScan x (g : guard) : guard :=
  Guard (m_pDelim g) (m_phpLineLimit g) (m_lineBytes g) (m_scanRemaining g) (m_section g) (m_active g)
    (m_invalidBoundary g) x (m_armed g) (m_valueFirstLine g) (m_sawCR g) (m_delimMatch g) (m_lineDelimFull g)
    (m_lineDelimBroken g) (m_lineHasContent g) (m_signatureMatch g).
Definition set_armed x (g : guard) : guard :=
  Guard (m_pDelim g) (m_phpLineLimit g) (m_lineBytes g) (m_scanRemaining g) (m_section g) (m_active g)
    (m_invalidBoundary g) (m_unlimitedScan g) x (m_valueFirstLine g) (m_sawCR g) (m_delimMatch g) (m_lineDelimFull g)
    (m_lineDelimBroken g) (m_lineHasContent g) (m_signatureMatch g).
Definition set_valueFirstLine x (g : guard) : guard :=
  Guard (m_pDelim g) (m_phpLineLimit g) (m_lineBytes g) (m_scanRemaining g) (m_section g) (m_active g)
    (m_invalidBoundary g) (m_unlimitedScan g) (m_armed g) x (m_sawCR g) (m_delimMatch g) (m_lineDelimFull g)
    (m_lineDelimBroken g) (m_lineHasContent g) (m_signatureMatch g).
Definition set_sawCR x (g : guard) : guard :=
  Guard (m_pDelim g) (m_phpLineLimit g) (m_lineBytes g) (m_scanRemaining g) (m_section g) (m_active g)
    (m_invalidBoundary g) (m_unlimitedScan g) (m_armed g) (m_valueFirstLine g) x (m_delimMatch g) (m_lineDelimFull g)
    (m_lineDelimBroken g) (m_lineHasContent g) (m_signatureMatch g).
Definition set_delimMatch x (g : guard) : guard :=
  Guard (m_pDelim g) (m_phpLineLimit g) (m_lineBytes g) (m_scanRemaining g) (m_section g) (m_active g)
    (m_invalidBoundary g) (m_unlimitedScan g) (m_armed g) (m_valueFirstLine g) (m_sawCR g) x (m_lineDelimFull g)
    (m_lineDelimBroken g) (m_lineHasContent g) (m_signatureMatch g).
Definition set_lineDelimFull x (g : guard) : guard :=
  Guard (m_pDelim g) (m_phpLineLimit g) (m_lineBytes g) (m_scanRemaining g) (m_section g) (m_active g)
    (m_invalidBoundary g) (m_unlimitedScan g) (m_armed g) (m_valueFirstLine g) (m_sawCR g) (m_delimMatch g) x
    (m_lineDelimBroken g) (m_lineHasContent g) (m_signatureMatch g).
Definition set_lineDelimBroken x (g : guard) : guard :=
  Guard (m_pDelim g) (m_phpLineLimit g) (m_lineBytes g) (m_scanRemaining g) (m_section g) (m_active g)
    (m_invalidBoundary g) (m_unlimitedScan g) (m_armed g) (m_valueFirstLine g) (m_sawCR g) (m_delimMatch g)
    (m_lineDelimFull g) x (m_lineHasContent g) (m_signatureMatch g).
Definition set_lineHasContent x (g : guard) : guard :=
  Guard (m_pDelim g) (m_phpLineLimit g) (m_lineBytes g) (m_scanRemaining g) (m_section g) (m_active g)
    (m_invalidBoundary g) (m_unlimitedScan g) (m_armed g) (m_valueFirstLine g) (m_sawCR g) (m_delimMatch g)
    (m_lineDelimFull g) (m_lineDelimBroken g) x (m_signatureMatch g).
Definition set_signatureMatch x (g : guard) : guard :=
  Guard (m_pDelim g) (m_phpLineLimit g) (m_lineBytes g) (m_scanRemaining g) (m_section g) (m_active g)
    (m_invalidBoundary g) (m_unlimitedScan g) (m_armed g) (m_valueFirstLine g) (m_sawCR g) (m_delimMatch g)
    (m_lineDelimFull g) (m_lineDelimBroken g) (m_lineHasContent g) x.

(** The settings that all requests share. *)
Record settings := Settings { s_blockEnabled : bool; s_scanLimit : Z }.
Definition DEFAULT_SCAN_LIMIT : Z := 10 * 1024 * 1024.
Definition settings0 : settings := Settings true DEFAULT_SCAN_LIMIT.
Definition setBlockEnabled (enabled : Z) (s : settings) : settings := Settings (negb (enabled =? 0)) (s_scanLimit s).
Definition setScanLimit (limit : Z) (s : settings) : settings := Settings (s_blockEnabled s) limit.

Definition lowerAscii (c : Z) : Z := if (c >=? 65) && (c <=? 90) then c + 32 else c.

Definition clearBoundary (g : guard) : guard := set_pDelim [] g.

Definition disable (g : guard) : guard := set_invalidBoundary false (set_active false (clearBoundary g)).

Definition resetLine (g : guard) : guard :=
  set_lineBytes 0 (set_lineHasContent false (set_lineDelimBroken false (set_lineDelimFull false (set_delimMatch 0 g)))).

(** [reset] gives every field a value, as the constructor, which calls it, does. *)
Definition reset : guard :=
  Guard [] PHP_MULTIPART_BUFFER_SIZE 0 0 SEC_SCAN false true true false false false 0 false false false 0.

(** ** The boundary *)

(** The first place, from the front, where [f] holds of the rest of the text. *)
Fixpoint scan (f : list Z -> bool) (p : list Z) : option (list Z) :=
  if f p then Some p else match p with [] => None | _ :: p => scan f p end.

Definition is_boundary (p : list Z) : bool := bytes_eqb (ztake 8 p) (bs "boundary").
Definition is_boundary_ci (p : list Z) : bool := bytes_eqb (map lowerAscii (ztake 8 p)) (bs "boundary").

(** The bytes up to one of [stop], and the rest from it. *)
Definition upto (stop : list Z) (p : list Z) : list Z * list Z := span (fun c => negb (existsb (Z.eqb c) stop)) p.

Definition boundary_of (ct : list Z) : option (list Z) :=
  match match scan is_boundary ct with Some p => Some p | None => scan is_boundary_ci ct end with
  | None => None
  | Some p =>
      match (upto [61] (zdrop 8 p)).2 with
      | _ :: c :: p =>
          if c =? 34 then
            match upto [34] p with
            | (_, []) => None
            | (b, _) => Some b
            end
          else Some (upto [44; 59] (c :: p)).1
      | _ => None
      end
  end.

Definition init (ct : list Z) (maxScanBytes : Z) : guard :=
  let g := set_scanRemaining maxScanBytes (set_unlimitedScan (maxScanBytes =? 0) (set_active true reset)) in
  match boundary_of ct with
  | None => g
  | Some b =>
      if (zlen b <=? 0) || (zlen b >? PHP_MULTIPART_BOUNDARY_MAX) then g
      else
        let g := set_invalidBoundary false (set_pDelim ([45; 45] ++ b) g) in
        let limit := m_delimLen g + 4 in
        set_phpLineLimit (if limit <? PHP_MULTIPART_BUFFER_SIZE then PHP_MULTIPART_BUFFER_SIZE else limit) g
  end.

(** ** The automaton *)

(** The loop that falls back; a match is shorter than the name. *)
Fixpoint fall (fuel : nat) (c k : Z) : Z :=
  match fuel with
  | O => k
  | S fuel => if negb (k =? 0) && negb (c =? znth s_targetName k) then fall fuel c (znth s_targetFailure (k - 1)) else k
  end.

Definition signatureByte (c : Z) (g : guard) : guard :=
  let k := fall 27 c (m_signatureMatch g) in
  if c =? znth s_targetName k then
    if k + 1 =? TARGET_NAME_LEN then set_signatureMatch (znth s_targetFailure (TARGET_NAME_LEN - 1)) (set_armed true g)
    else set_signatureMatch (k + 1) g
  else set_signatureMatch k g.

Definition countLineByte (g : guard) : bool * guard :=
  let g := set_lineBytes (m_lineBytes g + 1) g in
  if m_lineBytes g <? m_phpLineLimit g then (false, g) else (true, set_section SEC_BLOCKED g).

Definition processLineByte (c : Z) (g : guard) : guard :=
  match m_section g with
  | SEC_HEADER =>
      if c =? 0 then set_section SEC_BLOCKED g else set_lineHasContent true (signatureByte c g)
  | SEC_SCAN =>
      let g := signatureByte c g in
      if m_armed g && (c =? 0) then set_section SEC_BLOCKED g
      else if negb (m_lineDelimBroken g) && negb (m_lineDelimFull g) then
        if c =? znth (m_pDelim g) (m_delimMatch g) then
          let g := set_delimMatch (m_delimMatch g + 1) g in
          if m_delimMatch g =? m_delimLen g then set_lineDelimFull true g else g
        else set_lineHasContent true (set_lineDelimBroken true g)
      else set_lineHasContent true (if m_lineDelimFull g then set_lineDelimBroken true g else g)
  | _ =>
      if m_valueFirstLine g || m_lineDelimBroken g then
        if m_armed g && (c =? 0) then set_section SEC_BLOCKED g
        else set_lineHasContent true (set_lineDelimBroken true g)
      else if c =? znth (m_pDelim g) (m_delimMatch g) then
        let g := set_delimMatch (m_delimMatch g + 1) g in
        if m_delimMatch g =? m_delimLen g then
          set_lineBytes (m_delimLen g) (set_signatureMatch 0 (set_armed false (set_section SEC_SCAN (set_lineDelimFull true g))))
        else g
      else
        let g := set_lineDelimBroken true g in
        if m_armed g && (c =? 0) then set_section SEC_BLOCKED g else set_lineHasContent true g
  end.

Definition finishLine (g : guard) : guard :=
  let g :=
    match m_section g with
    | SEC_HEADER =>
        if negb (m_lineHasContent g) then set_signatureMatch 0 (set_valueFirstLine true (set_section SEC_VALUE g)) else g
    | SEC_SCAN => if m_lineDelimFull g && negb (m_lineDelimBroken g) then set_section SEC_HEADER g else g
    | SEC_VALUE => set_valueFirstLine false g
    | SEC_BLOCKED => g
    end in
  resetLine (set_sawCR false g).

Definition is_blocked (g : guard) : bool := match m_section g with SEC_BLOCKED => true | _ => false end.
Definition is_value (g : guard) : bool := match m_section g with SEC_VALUE => true | _ => false end.

(** [m_section != SEC_VALUE && countLineByte()]. *)
Definition count_unless_value (g : guard) : bool * guard := if negb (is_value g) then countLineByte g else (false, g).

(** One byte outside of the skip: the body of the loop from [char c = *p++]. *)
Definition plain_byte (c : Z) (g : guard) : bool * guard :=
  if c =? 13 then
    let '(stop, g) := count_unless_value g in
    if stop then (true, g) else (false, set_sawCR true g)
  else if c =? 10 then (false, finishLine g)
  else
    let '(stop, g) := count_unless_value g in
    if stop then (true, g)
    else
      let g := processLineByte c g in
      (is_blocked g, g).

Definition one_byte (c : Z) (g : guard) : bool * guard :=
  if m_sawCR g then
    let g := set_sawCR false g in
    if c =? 10 then (false, finishLine g)
    else
      let g := processLineByte 13 g in
      if is_blocked g then (true, g) else plain_byte c g
  else plain_byte c g.

(** The loop; [true] is the return from inside it.  A turn consumes a byte. *)
Fixpoint inspect_loop (fuel : nat) (p : list Z) (g : guard) : bool * guard :=
  match fuel, p with
  | O, _ | _, [] => (false, g)
  | S fuel, c :: p' =>
      if is_value g && negb (m_sawCR g) && (m_valueFirstLine g || m_lineDelimBroken g) then
        let pLf := memchr 10 p in
        let pNul :=
          if m_armed g then memchr 0 (match pLf with Some i => ztake i p | None => p end) else None in
        match pNul with
        | Some _ => (true, set_section SEC_BLOCKED g)
        | None =>
            match pLf with
            | None => (false, set_lineHasContent true (set_lineDelimBroken true g))
            | Some i =>
                let g := if i >? 0 then set_lineHasContent true (set_lineDelimBroken true g) else g in
                inspect_loop fuel (zdrop (i + 1) p) (finishLine g)
            end
        end
      else
        let '(stop, g) := one_byte c g in
        if stop then (true, g) else inspect_loop fuel p' g
  end.

Definition spend (g : guard) : guard :=
  if negb (m_unlimitedScan g) && (m_scanRemaining g =? 0) then disable g else g.

Definition inspect (buf : list Z) (g : guard) : bool * guard :=
  if is_blocked g then (true, g)
  else if negb (m_active g) || (zlen buf =? 0) then (false, g)
  else
    let scanLen := if m_unlimitedScan g then zlen buf else Z.min (zlen buf) (m_scanRemaining g) in
    let g := if m_unlimitedScan g then g else set_scanRemaining (m_scanRemaining g - scanLen) g in
    let p := ztake scanLen buf in
    if m_invalidBoundary g then
      match memchr 0 p with
      | Some _ => (true, set_section SEC_BLOCKED g)
      | None => (false, spend g)
      end
    else
      let '(stop, g) := inspect_loop (length p) p g in
      if stop then (true, g) else (false, spend g).

(** ** The reference: a byte at a time *)

Definition feed_byte (g : guard) (c : Z) : guard := if is_blocked g then g else (one_byte c g).2.
Definition feed (g : guard) (p : list Z) : guard := fold_left feed_byte p g.

(** What [inspect] has answered once it has seen [body]: a NUL within the budget
    when the boundary is unusable, the automaton otherwise. *)
Definition scanned (limit : Z) (body : list Z) : list Z := if limit =? 0 then body else ztake limit body.
Definition verdict (ct : list Z) (limit : Z) (body : list Z) : bool :=
  let g := init ct limit in
  if m_invalidBoundary g then bool_decide (0 ∈ scanned limit body) else is_blocked (feed g (scanned limit body)).

(** The answers to a body that comes in [chunks]. *)
Fixpoint inspect_all (chunks : list (list Z)) (g : guard) : list bool :=
  match chunks with
  | [] => []
  | buf :: chunks => let '(r, g) := inspect buf g in r :: inspect_all chunks g
  end.

(** While value bytes are skipped, a pending CR and the flags of the line make no
    difference until the line ends, nor do they once the body is blocked; states
    that differ in them only are the same state for what follows. *)
Definition skipping (g : guard) : bool := is_value g && (m_valueFirstLine g || m_lineDelimBroken g).
Definition canon (g : guard) : guard :=
  if is_blocked g || skipping g then set_sawCR false (set_lineHasContent true (set_lineDelimBroken true g)) else g.

#[export] Instance guard_equiv : Equiv guard := fun g h => canon g = canon h.
#[export] Instance guard_equivalence : Equivalence (≡@{guard}).
Proof. split; unfold equiv, guard_equiv; [intros ?|intros ???|intros ?????]; congruence. Qed.

Lemma canon_equiv g : canon g ≡ g.
Proof.
  unfold equiv, guard_equiv. destruct g as [? ? ? ? s ? ? ? ? f ? ? ? b ? ?].
  unfold canon. destruct s, f, b; reflexivity.
Qed.

Lemma signature_not_position c g : signatureByte c g =
  set_signatureMatch (m_signatureMatch (signatureByte c g)) (set_armed (m_armed (signatureByte c g)) g).
Proof.
  unfold signatureByte. generalize (fall 27 c (m_signatureMatch g)). intros k. destruct g.
  destruct (c =? _); [destruct (k + 1 =? _)|]; reflexivity.
Qed.

Lemma skip_byte g c : skipping g = true -> c <> 10 -> (m_armed g && (c =? 0)) = false -> feed_byte g c ≡ g.
Proof.
  destruct g as [? ? ? ? s ? ? ? a f cr ? ? b ? ?]. unfold skipping. cbn. intros Hs Hc Ha.
  destruct s; try discriminate. unfold feed_byte, one_byte, plain_byte, count_unless_value. cbn. apply Z.eqb_neq in Hc. rewrite Hc.
  unfold equiv, guard_equiv.
  destruct a; cbn in Ha; destruct (c =? 13) eqn:E13; destruct cr, f, b; try discriminate Hs;
    repeat (cbn; rewrite ?Hc, ?Ha, ?E13); reflexivity.
Qed.

Lemma skip_lf g : skipping g = true -> feed_byte g 10 = finishLine g.
Proof.
  destruct g as [? ? ? ? s ? ? ? a f cr ? ? b ? ?]. unfold skipping, feed_byte, one_byte, plain_byte, count_unless_value, finishLine. cbn.
  destruct s; try discriminate. destruct cr; reflexivity.
Qed.

Lemma skip_nul g : skipping g = true -> m_armed g = true -> feed_byte g 0 ≡ set_section SEC_BLOCKED g.
Proof.
  destruct g as [? ? ? ? s ? ? ? a f cr ? ? b ? ?]. unfold skipping, feed_byte, one_byte, plain_byte, count_unless_value. cbn.
  destruct s; try discriminate. intros Hs ->. destruct cr, f, b; try discriminate; reflexivity.
Qed.

Lemma canon_skipping g : skipping g = true -> canon g = set_sawCR false (set_lineHasContent true (set_lineDelimBroken true g)).
Proof. intros E. unfold canon. rewrite E, orb_true_r. reflexivity. Qed.

#[export] Instance feed_byte_proper : Proper ((≡) ==> (=) ==> (≡)) feed_byte.
Proof.
  assert (H : forall g c, feed_byte (canon g) c ≡ feed_byte g c).
  { intros g c. destruct (skipping g) eqn:E.
    - pose proof E as Hc. apply canon_skipping in Hc.
      assert (Ec : skipping (canon g) = true).
      { rewrite Hc. revert E. destruct g as [? ? ? ? s]. destruct s; try discriminate. intros _. apply orb_true_r. }
      assert (Ea : m_armed (canon g) = m_armed g) by (rewrite Hc; reflexivity).
      destruct (decide (c = 10)) as [->|H10].
      + rewrite !skip_lf by assumption. rewrite Hc. unfold finishLine. destruct g as [? ? ? ? s]. destruct s; try discriminate; reflexivity.
      + destruct (m_armed g && (c =? 0)) eqn:E0.
        * apply andb_true_iff in E0 as [E0 ->%Z.eqb_eq]. rewrite !skip_nul by (rewrite ?Ea; assumption).
          rewrite Hc. destruct g. reflexivity.
        * rewrite !skip_byte by (rewrite ?Ea; assumption). apply canon_equiv.
    - unfold canon. rewrite E, orb_false_r. destruct (is_blocked g) eqn:Eb; [|reflexivity].
      unfold feed_byte. rewrite Eb. destruct g as [? ? ? ? s]. destruct s; try discriminate; reflexivity. }
  intros g h E c _ <-. rewrite <- (H g), <- (H h). unfold equiv, guard_equiv in E. rewrite E. reflexivity.
Qed.

Lemma blocked_canon g : is_blocked (canon g) = is_blocked g.
Proof. unfold canon. destruct (_ || _); [|reflexivity]. destruct g. reflexivity. Qed.

#[export] Instance is_blocked_proper : Proper ((≡) ==> (=)) is_blocked.
Proof. intros g h E. rewrite <- (blocked_canon g), <- (blocked_canon h). unfold equiv, guard_equiv in E. congruence. Qed.

#[export] Instance feed_proper : Proper ((≡) ==> (=) ==> (≡)) feed.
Proof.
  intros g h E p _ <-. revert g h E. induction p as [|c p IH]; intros g h E; [exact E|].
  apply IH. rewrite E. reflexivity.
Qed.

Lemma feed_app g p q : feed g (p ++ q) = feed (feed g p) q.
Proof. apply fold_left_app. Qed.

Lemma feed_blocked p : forall g, is_blocked g = true -> feed g p = g.
Proof.
  induction p as [|c p IH]; intros g H; [reflexivity|]. cbn. unfold feed_byte at 2. rewrite H. apply IH, H.
Qed.

(** A return from inside the loop is a blocked state. *)
Lemma one_byte_stop c g : is_blocked g = false -> (one_byte c g).1 = is_blocked (one_byte c g).2.
Proof.
  intros Hb. assert (Hf : forall h, is_blocked h = false -> is_blocked (finishLine h) = false).
  { intros h. destruct h as [? ? ? ? s ? ? ? ? ? ? ? full broken content ?]. destruct s, full, broken, content; easy. }
  assert (Hc : forall h, is_blocked h = false -> (countLineByte h).1 = is_blocked (countLineByte h).2).
  { intros h. unfold countLineByte. destruct (_ <? _); destruct h as [? ? ? ? s]; destruct s; easy. }
  assert (Hs : forall v h, is_blocked (set_sawCR v h) = is_blocked h) by (intros ? []; reflexivity).
  assert (Hp : forall h, is_blocked h = false -> (plain_byte c h).1 = is_blocked (plain_byte c h).2).
  { intros h E. assert (Hk : (count_unless_value h).1 = is_blocked (count_unless_value h).2) by (unfold count_unless_value; destruct (negb _); auto).
    unfold plain_byte. destruct (count_unless_value h) as [stop k]. cbn [fst snd] in Hk.
    destruct (c =? 13); [destruct stop; [exact Hk|cbn; rewrite Hs; exact Hk]|].
    destruct (c =? 10); [symmetry; apply Hf, E|]. destruct stop; [exact Hk|reflexivity]. }
  unfold one_byte. destruct (m_sawCR g); [|auto]. destruct (c =? 10); [symmetry; apply Hf; rewrite Hs; exact Hb|].
  destruct (is_blocked (processLineByte 13 _)) eqn:E; [symmetry; exact E|apply Hp, E].
Qed.

Lemma feed_byte_live c g : is_blocked g = false -> feed_byte g c = (one_byte c g).2.
Proof. intros H. unfold feed_byte. rewrite H. reflexivity. Qed.

Lemma skip_text w : forall g, skipping g = true -> 10 ∉ w -> (m_armed g = true -> 0 ∉ w) -> feed g w ≡ g.
Proof.
  induction w as [|c w IH]; intros g Hs Hl Hn; [reflexivity|].
  apply not_elem_of_cons in Hl as [Hc Hl].
  assert (E : feed_byte g c ≡ g).
  { apply skip_byte; [assumption|congruence|]. destruct (m_armed g); [|reflexivity].
    specialize (Hn eq_refl). apply not_elem_of_cons in Hn as [? _]. apply Z.eqb_neq. congruence. }
  change (feed (feed_byte g c) w ≡ g). rewrite E. apply IH; [assumption..|].
  intros Ha. specialize (Hn Ha). apply not_elem_of_cons in Hn as [_ ?]. assumption.
Qed.

Lemma skip_to_nul g w : skipping g = true -> m_armed g = true -> 10 ∉ w -> 0 ∈ w -> feed g w ≡ set_section SEC_BLOCKED g.
Proof.
  intros Hs Ha Hl Hz. destruct (memchr 0 w) as [i|] eqn:E; [|apply memchr_None in E; contradiction].
  apply memchr_Some in E as (? & E & Hn). rewrite E in Hl. rewrite E, feed_app. apply not_elem_of_app in Hl as [Hl _].
  rewrite (skip_text (ztake i w) g) by auto. change (feed (feed_byte g 0) (zdrop (i + 1) w) ≡ set_section SEC_BLOCKED g).
  rewrite skip_nul by assumption. rewrite feed_blocked; [reflexivity|]. destruct g; reflexivity.
Qed.

(** The loop, with its skip, is the reference. *)
Lemma inspect_loop_feed n : forall p g, (length p <= n)%nat -> is_blocked g = false ->
  let r := inspect_loop n p g in r.1 = is_blocked r.2 /\ r.2 ≡ feed g p.
Proof.
  induction n as [|n IH]; intros p g Hn Hb; [destruct p; [|cbn in Hn; lia]; cbn; auto|].
  destruct p as [|c p]; [cbn; auto|]. cbn [inspect_loop]. cbn in Hn.
  destruct (is_value g && negb (m_sawCR g) && (m_valueFirstLine g || m_lineDelimBroken g)) eqn:Es.
  - assert (Hs : skipping g = true) by (unfold skipping; destruct (is_value g); [|discriminate]; destruct (m_sawCR g); [discriminate|exact Es]).
    assert (Hend : forall w, 10 ∉ w -> (m_armed g = true -> 0 ∉ w) -> feed g (w ++ [10]) ≡ finishLine g).
    { intros w H1 H2. rewrite feed_app, (skip_text w g) by assumption. cbn. rewrite skip_lf by assumption. reflexivity. }
    assert (Hf : is_blocked (finishLine g) = false).
    { unfold skipping, is_value in Hs. destruct g as [? ? ? ? s]. destruct s; try discriminate. reflexivity. }
    destruct (memchr 10 (c :: p)) as [i|] eqn:El.
    + apply memchr_Some in El as (Hi & Hw & Hl). 
      destruct (if m_armed g then memchr 0 (ztake i (c :: p)) else None) as [j|] eqn:En.
      * destruct (m_armed g) eqn:Ea; [|discriminate]. apply memchr_Some in En as (? & E0 & _).
        assert (Hz : 0 ∈ ztake i (c :: p)) by (rewrite E0; set_solver). clear E0.
        split; [destruct g; reflexivity|]. cbn [snd]. rewrite Hw, feed_app. rewrite (skip_to_nul g _) by assumption.
        rewrite feed_blocked; [reflexivity|]. destruct g; reflexivity.
      * assert (H0 : m_armed g = true -> 0 ∉ ztake i (c :: p)) by (intros Ha; rewrite Ha in En; apply memchr_None, En).
        assert (Eg : finishLine (if i >? 0 then set_lineHasContent true (set_lineDelimBroken true g) else g) = finishLine g).
        { destruct (i >? 0); [|reflexivity]. unfold skipping, is_value in Hs. destruct g as [? ? ? ? s]. destruct s; try discriminate. reflexivity. }
        rewrite Eg. cut (feed g (c :: p) = feed (feed g (ztake i (c :: p) ++ [10])) (zdrop (i + 1) (c :: p))).
        2: { rewrite <- feed_app, <- app_assoc. cbn [app]. rewrite <- Hw. reflexivity. }
        intros ->. rewrite Hend by assumption.
        apply IH; [|assumption]. unfold zdrop. rewrite length_drop. cbn. lia.
    + apply memchr_None in El. destruct (if m_armed g then memchr 0 (c :: p) else None) as [j|] eqn:En.
      * destruct (m_armed g) eqn:Ea; [|discriminate]. apply memchr_Some in En as (? & E0 & _).
        assert (Hz : 0 ∈ c :: p) by (rewrite E0; set_solver). clear E0.
        split; [destruct g; reflexivity|]. cbn [snd]. rewrite skip_to_nul by assumption. reflexivity.
      * assert (H0 : m_armed g = true -> 0 ∉ c :: p) by (intros Ha; rewrite Ha in En; apply memchr_None, En).
        cbn [fst snd]. rewrite skip_text by assumption.
        unfold skipping, is_value in Hs. destruct g as [? ? ? ? s]. destruct s; try discriminate. cbn in Hs.
        unfold is_value in Es. cbn in Es. destruct m_sawCR0; [discriminate|].
        split; [reflexivity|]. unfold equiv, guard_equiv, canon, skipping. cbn. rewrite Hs, orb_true_r. reflexivity.
  - change (feed g (c :: p)) with (feed (feed_byte g c) p). rewrite feed_byte_live by assumption.
    pose proof (one_byte_stop c g Hb) as Hst. destruct (one_byte c g) as [stop h]. cbn [fst snd] in Hst |- *. destruct stop.
    + cbn [fst snd]. rewrite feed_blocked by auto. auto.
    + apply IH; [lia|auto].
Qed.

(** ** The budget and the chunks *)

(** What the automaton never touches. *)
Definition config (g : guard) : list Z * Z * Z * (bool * bool * bool) :=
  (m_pDelim g, m_phpLineLimit g, m_scanRemaining g, (m_active g, m_invalidBoundary g, m_unlimitedScan g)).

#[export] Instance config_proper : Proper ((≡) ==> (=)) config.
Proof.
  assert (H : forall g, config (canon g) = config g) by (intros g; unfold canon; destruct (_ || _); [destruct g|]; reflexivity).
  intros g h E. unfold equiv, guard_equiv in E. rewrite <- (H g), <- (H h). congruence.
Qed.

Lemma processLineByte_config c g : config (processLineByte c g) = config g.
Proof.
  destruct g as [? ? ? ? s ? ? ? ? ? ? ? ? ? ? ?]. unfold processLineByte. cbn [m_section].
  destruct s; rewrite 1?signature_not_position; repeat (case_match; try reflexivity).
Qed.

Lemma finishLine_config g : config (finishLine g) = config g.
Proof. unfold finishLine. destruct g as [? ? ? ? s ? ? ? ? ? ? ? full broken content ?]. destruct s, full, broken, content; reflexivity. Qed.

Lemma feed_byte_config g c : config (feed_byte g c) = config g.
Proof.
  unfold feed_byte. destruct (is_blocked g); [reflexivity|]. unfold one_byte.
  assert (Hs : forall b h, config (set_sawCR b h) = config h) by (intros ? []; reflexivity).
  assert (Hc : forall h, config (countLineByte h).2 = config h).
  { intros h. unfold countLineByte. destruct (_ <? _); destruct h; reflexivity. }
  assert (Hp : forall h, config (plain_byte c h).2 = config h).
  { intros h. assert (Hk : config (count_unless_value h).2 = config h) by (unfold count_unless_value; destruct (negb _); auto).
    unfold plain_byte. destruct (count_unless_value h) as [stop k]. cbn [snd] in Hk.
    destruct (c =? 13); [destruct stop; [exact Hk|cbn [snd]; rewrite Hs; exact Hk]|].
    destruct (c =? 10); [apply finishLine_config|]. destruct stop; [exact Hk|]. cbn [snd]. rewrite processLineByte_config. exact Hk. }
  destruct (m_sawCR g); [|apply Hp]. destruct (c =? 10); [rewrite <- (Hs false g); apply finishLine_config|].
  rewrite <- (Hs false g), <- (processLineByte_config 13 (set_sawCR false g)). destruct (is_blocked (processLineByte 13 _)); [reflexivity|apply Hp].
Qed.

Lemma feed_config p : forall g, config (feed g p) = config g.
Proof. induction p as [|c p IH]; intros g; [reflexivity|]. etransitivity; [apply IH|apply feed_byte_config]. Qed.

Lemma inspect_loop_config n p g : (length p <= n)%nat -> is_blocked g = false -> config (inspect_loop n p g).2 = config g.
Proof. intros Hn Hb. destruct (inspect_loop_feed n p g Hn Hb) as [_ E]. rewrite E. apply feed_config. Qed.

(** The bytes left make no difference to the automaton. *)
Lemma processLineByte_budget x c g : processLineByte c (set_scanRemaining x g) = set_scanRemaining x (processLineByte c g).
Proof.
  destruct g as [? ? ? ? s ? ? ? ? ? ? ? ? ? ? k]. unfold processLineByte.
  assert (Hs : forall h, signatureByte c (set_scanRemaining x h) = set_scanRemaining x (signatureByte c h)).
  { intros h. unfold signatureByte. replace (m_signatureMatch (set_scanRemaining x h)) with (m_signatureMatch h) by (destruct h; reflexivity).
    generalize (fall 27 c (m_signatureMatch h)). intros j. destruct h, (c =? _); [destruct (j + 1 =? _)|]; reflexivity. }
  unfold m_delimLen. match goal with |- context [set_scanRemaining x ?g] => change (m_section (set_scanRemaining x g)) with s end.
  cbn [m_section]. destruct s;
    [match goal with |- context [signatureByte c (set_scanRemaining x ?h)] => rewrite (Hs h); generalize (signatureByte c h) end; intros []
    |destruct (c =? 0); [reflexivity|rewrite Hs; reflexivity]|..];
    cbn -[Z.eqb Z.add zlen znth]; repeat case_match; reflexivity.
Qed.

Lemma finishLine_budget x g : finishLine (set_scanRemaining x g) = set_scanRemaining x (finishLine g).
Proof. destruct g as [? ? ? ? s ? ? ? ? ? ? ? full broken content ?]. destruct s, full, broken, content; reflexivity. Qed.

Lemma countLineByte_budget x g :
  countLineByte (set_scanRemaining x g) = ((countLineByte g).1, set_scanRemaining x (countLineByte g).2).
Proof. unfold countLineByte. destruct g. cbn -[Z.add Z.ltb]. destruct (_ <? _); reflexivity. Qed.

Lemma one_byte_budget x c g : one_byte c (set_scanRemaining x g) = ((one_byte c g).1, set_scanRemaining x (one_byte c g).2).
Proof.
  unfold one_byte.
  assert (H1 : forall b h, set_sawCR b (set_scanRemaining x h) = set_scanRemaining x (set_sawCR b h)) by (intros ? []; reflexivity).
  assert (H2 : forall h, is_blocked (set_scanRemaining x h) = is_blocked h) by (intros []; reflexivity).
  assert (H3 : forall h, is_value (set_scanRemaining x h) = is_value h) by (intros []; reflexivity).
  assert (H4 : m_sawCR (set_scanRemaining x g) = m_sawCR g) by (destruct g; reflexivity).
  assert (Hp : forall h, plain_byte c (set_scanRemaining x h) = ((plain_byte c h).1, set_scanRemaining x (plain_byte c h).2)).
  { intros h. unfold plain_byte, count_unless_value. rewrite H3, finishLine_budget, countLineByte_budget.
    destruct (negb _); [destruct (countLineByte h) as [[] k]|]; cbn [fst snd];
      (destruct (c =? 13); [rewrite ?H1; reflexivity|]); (destruct (c =? 10); [reflexivity|]);
      rewrite ?processLineByte_budget, ?H2; reflexivity. }
  rewrite H1, H4, finishLine_budget, processLineByte_budget, H2, !Hp.
  destruct (m_sawCR g); [|reflexivity]. destruct (c =? 10); [reflexivity|]. destruct (is_blocked _); reflexivity.
Qed.

Lemma feed_byte_budget x g c : feed_byte (set_scanRemaining x g) c = set_scanRemaining x (feed_byte g c).
Proof.
  unfold feed_byte. rewrite one_byte_budget. replace (is_blocked (set_scanRemaining x g)) with (is_blocked g) by (destruct g; reflexivity).
  destruct (is_blocked g); reflexivity.
Qed.

Lemma feed_budget x p : forall g, feed (set_scanRemaining x g) p = set_scanRemaining x (feed g p).
Proof.
  induction p as [|c p IH]; intros g; [reflexivity|]. cbn. rewrite feed_byte_budget. apply IH.
Qed.

#[export] Instance set_budget_proper x : Proper ((≡) ==> (≡)) (set_scanRemaining x).
Proof.
  assert (H : forall g, canon (set_scanRemaining x g) = set_scanRemaining x (canon g)).
  { intros g. unfold canon, skipping. replace (is_blocked (set_scanRemaining x g)) with (is_blocked g) by (destruct g; reflexivity).
    destruct g as [? ? ? ? s ? ? ? ? [] ? ? ? [] ? ?], s; reflexivity. }
  intros g h E. unfold equiv, guard_equiv in *. rewrite !H, E. reflexivity.
Qed.

Lemma scanned_app limit body buf : 0 <= limit -> limit <> 0 -> limit <= zlen body -> scanned limit (body ++ buf) = scanned limit body.
Proof.
  intros H0 H1 H2. unfold scanned. destruct (Z.eqb_spec limit 0); [contradiction|].
  unfold ztake. rewrite take_app_le; [reflexivity|]. unfold zlen in H2. lia.
Qed.

Lemma scanned_split limit body buf : 0 <= limit -> (limit <> 0 -> zlen body <= limit) ->
  scanned limit (body ++ buf) = body ++ if limit =? 0 then buf else ztake (limit - zlen body) buf.
Proof.
  intros H0 H1. unfold scanned. destruct (Z.eqb_spec limit 0) as [|Hn]; [reflexivity|]. specialize (H1 Hn).
  unfold ztake. rewrite take_app, take_ge by (unfold zlen in H1; lia). f_equal. f_equal. unfold zlen. lia.
Qed.

Lemma verdict_app ct limit body buf : 0 <= limit -> verdict ct limit body = true -> verdict ct limit (body ++ buf) = true.
Proof.
  intros H0. unfold verdict. assert (E : exists tail, scanned limit (body ++ buf) = scanned limit body ++ tail).
  { unfold scanned. destruct (limit =? 0); [eauto|]. exists (take (Z.to_nat limit - length body) buf). unfold ztake. apply take_app. }
  destruct E as [tail ->]. destruct (m_invalidBoundary _).
  - intros H%bool_decide_eq_true_1. apply bool_decide_eq_true_2. set_solver.
  - rewrite feed_app. intros H. rewrite feed_blocked by exact H. exact H.
Qed.

(** The guard after [body] in whatever chunks it came: it has the verdict, and
    unless it has blocked it is out of budget or the reference's state. *)
Record seen (ct : list Z) (limit : Z) (g : guard) (body : list Z) : Prop := {
  seen_verdict : is_blocked g = verdict ct limit body;
  seen_state : is_blocked g = false ->
    (m_active g = false /\ limit <> 0 /\ limit <= zlen body) \/
    (m_active g = true /\ m_unlimitedScan g = (limit =? 0) /\ m_invalidBoundary g = m_invalidBoundary (init ct limit) /\
     (limit <> 0 -> m_scanRemaining g = limit - zlen body /\ zlen body < limit) /\
     (m_invalidBoundary g = false -> set_scanRemaining limit g ≡ feed (init ct limit) body)) }.

Lemma init_fields ct limit : let g := init ct limit in
  is_blocked g = false /\ m_active g = true /\ m_unlimitedScan g = (limit =? 0) /\ m_scanRemaining g = limit.
Proof. unfold init. destruct (boundary_of ct) as [b|]; [destruct (_ || _)|]; auto. Qed.

Lemma seen_init ct limit : 0 <= limit -> seen ct limit (init ct limit) [].
Proof.
  intros H0. destruct (init_fields ct limit) as (Hb & Ha & Hu & Hr).
  assert (Es : scanned limit [] = []) by (unfold scanned, ztake; destruct (limit =? 0); [|rewrite take_nil]; reflexivity).
  split.
  - unfold verdict. rewrite Es. destruct (m_invalidBoundary _); [|reflexivity]. rewrite Hb. symmetry. apply bool_decide_eq_false_2. set_solver.
  - intros _. right. split_and!; auto; [intros; change (zlen []) with 0; lia|]. intros _.
    replace (set_scanRemaining limit (init ct limit)) with (init ct limit); [reflexivity|].
    rewrite <- Hr at 2. destruct (init ct limit). reflexivity.
Qed.

Lemma spend_blocked g : is_blocked (spend g) = is_blocked g.
Proof. unfold spend. destruct (_ && _); [destruct g|]; reflexivity. Qed.

(** After the scan of what the budget allows: out of budget, or in step. *)
Lemma seen_spend ct limit g body buf : 0 <= limit -> 0 < zlen buf -> (limit <> 0 -> zlen body < limit) ->
  m_active g = true -> m_unlimitedScan g = (limit =? 0) -> m_invalidBoundary g = m_invalidBoundary (init ct limit) ->
  (limit <> 0 -> m_scanRemaining g = limit - zlen body - Z.min (zlen buf) (limit - zlen body)) ->
  (m_invalidBoundary g = false -> set_scanRemaining limit g ≡ feed (init ct limit) (scanned limit (body ++ buf))) ->
  is_blocked g = verdict ct limit (body ++ buf) -> seen ct limit (spend g) (body ++ buf).
Proof.
  intros H0 Hlen Hroom Ha Hu Hi Hr Hg Hv. split; [rewrite spend_blocked; exact Hv|]. intros _.
  unfold spend. rewrite Hu. rewrite zlen_app. destruct (Z.eqb_spec limit 0) as [->|Hn].
  - right. cbn [negb andb]. split_and!; auto; lia.
  - specialize (Hroom Hn). specialize (Hr Hn). cbn [negb andb].
    destruct (Z.eqb_spec (m_scanRemaining g) 0) as [E|E].
    + left. split; [destruct g; reflexivity|]. lia.
    + right. cbn [negb andb]. assert (limit - zlen body > zlen buf) by lia. split_and!; auto; [intros _; lia|].
      intros Hf. rewrite (Hg Hf). unfold scanned. rewrite (proj2 (Z.eqb_neq limit 0) Hn), ztake_all; [reflexivity|]. rewrite zlen_app. lia.
Qed.

Lemma inspect_step ct limit g body buf : 0 <= limit -> seen ct limit g body ->
  let r := inspect buf g in r.1 = verdict ct limit (body ++ buf) /\ seen ct limit r.2 (body ++ buf).
Proof.
  intros H0 [Hv Hst]. unfold inspect. destruct (is_blocked g) eqn:Eb.
  - symmetry in Hv. apply (verdict_app _ _ _ buf H0) in Hv. cbn. split; [auto|]. split; [congruence|]. rewrite Eb. discriminate.
  - destruct (Hst eq_refl) as [(Ha & Hn & Hl)|(Ha & Hu & Hi & Hr & Hg)].
    + rewrite Ha. cbn. rewrite <- (scanned_app limit body buf H0 Hn Hl) in Hv || idtac.
      assert (Hv' : false = verdict ct limit (body ++ buf)) by (rewrite Hv; unfold verdict; rewrite scanned_app by assumption; reflexivity).
      split; [exact Hv'|]. split; [congruence|]. intros _. left. rewrite zlen_app. pose proof (zlen_nonneg buf). split_and!; auto; lia.
    + rewrite Ha. cbn [negb orb]. destruct (Z.eqb_spec (zlen buf) 0) as [Ez|Ez].
      { destruct buf; [|rewrite zlen_cons in Ez; pose proof (zlen_nonneg buf); lia]. rewrite app_nil_r. cbn. split; [auto|]. split; [congruence|]. intros _. right. auto. }
      pose proof (zlen_nonneg buf) as Hnn. pose proof (zlen_nonneg body) as Hnb.
      set (n := if m_unlimitedScan g then zlen buf else Z.min (zlen buf) (m_scanRemaining g)).
      set (h := if m_unlimitedScan g then g else set_scanRemaining (m_scanRemaining g - n) g).
      assert (Hsplit : scanned limit (body ++ buf) = body ++ ztake n buf).
      { rewrite scanned_split by (try assumption; intros Hn; destruct (Hr Hn); lia). f_equal. unfold n. rewrite Hu.
        destruct (Z.eqb_spec limit 0) as [|Hn]; [rewrite ztake_all by lia; reflexivity|]. destruct (Hr Hn) as [-> ?].
        destruct (Z.le_gt_cases (zlen buf) (limit - zlen body)); [rewrite Z.min_l by lia; rewrite !ztake_all by lia; reflexivity|].
        rewrite Z.min_r by lia. reflexivity. }
      assert (Hh : is_blocked h = false /\ m_active h = true /\ m_unlimitedScan h = (limit =? 0) /\
        m_invalidBoundary h = m_invalidBoundary (init ct limit) /\
        (limit <> 0 -> m_scanRemaining h = limit - zlen body - Z.min (zlen buf) (limit - zlen body)) /\
        set_scanRemaining limit h = set_scanRemaining limit g).
      { unfold h. rewrite Hu. destruct (Z.eqb_spec limit 0) as [E|Hn]; [rewrite Eb; split_and!; auto; lia|].
        destruct (Hr Hn) as [Er ?]. unfold n. rewrite Hu, Er. destruct g. cbn in *. auto 10. }
      clearbody h. destruct Hh as (Hb' & Ha' & Hu' & Hi' & Hr' & Hs').
      assert (Hroom : limit <> 0 -> zlen body < limit) by (intros Hn; destruct (Hr Hn); assumption).
      assert (Hpos : 0 < zlen buf) by (clear - Ez Hnn; lia).
      destruct (m_invalidBoundary h) eqn:Einv.
      * destruct (memchr 0 (ztake n buf)) as [i|] eqn:Em.
        -- apply memchr_Some in Em as (_ & Em & _). cbn [fst snd].
           assert (Hv' : verdict ct limit (body ++ buf) = true).
           { unfold verdict. rewrite <- Hi', Hsplit. apply bool_decide_eq_true_2. rewrite Em. set_solver. }
           split; [auto|]. split; [rewrite Hv'; destruct h; reflexivity|]. destruct h; discriminate.
        -- apply memchr_None in Em. cbn [fst snd].
           assert (Hv' : verdict ct limit (body ++ buf) = false).
           { unfold verdict. rewrite <- Hi', Hsplit. apply bool_decide_eq_false_2. rewrite elem_of_app. intros [Hin|]; [|contradiction].
             revert Hv. unfold verdict. rewrite <- Hi'. intros Hv. symmetry in Hv. apply bool_decide_eq_false_1 in Hv. apply Hv.
             unfold scanned. destruct (Z.eqb_spec limit 0) as [|Hn]; [exact Hin|]. rewrite ztake_all by (specialize (Hroom Hn); lia). exact Hin. }
           split; [auto|]. apply seen_spend; auto; congruence.
      * assert (Hgb : set_scanRemaining limit h ≡ feed (init ct limit) body) by (rewrite Hs'; apply Hg; congruence).
        pose proof (inspect_loop_feed (length (ztake n buf)) (ztake n buf) h (Nat.le_refl _) Hb') as [E1 E2].
        pose proof (inspect_loop_config (length (ztake n buf)) (ztake n buf) h (Nat.le_refl _) Hb') as Ec.
        destruct (inspect_loop _ _ h) as [stop k]. cbn [fst snd] in E1, E2, Ec.
        unfold config in Ec. injection Ec as _ _ Ec1 Ec2 Ec3 Ec4.
        assert (Hk : set_scanRemaining limit k ≡ feed (init ct limit) (scanned limit (body ++ buf))).
        { rewrite Hsplit, feed_app, <- Hgb, feed_budget, E2. reflexivity. }
        assert (Hv' : is_blocked k = verdict ct limit (body ++ buf)).
        { unfold verdict. rewrite <- Hi', <- Hk. destruct k; reflexivity. }
        destruct stop; cbn [fst snd].
        -- split; [congruence|]. split; [exact Hv'|]. rewrite <- E1. discriminate.
        -- split; [congruence|]. apply seen_spend; try assumption; try congruence; auto. intros Hn. rewrite Ec1. auto.
Qed.

Lemma inspect_all_seen ct limit chunks : forall g body, 0 <= limit -> seen ct limit g body ->
  inspect_all chunks g = map (fun k => verdict ct limit (body ++ concat (take k chunks))) (seq 1 (length chunks)).
Proof.
  induction chunks as [|buf chunks IH]; intros g body H0 Hs; [reflexivity|].
  cbn [inspect_all]. destruct (inspect_step ct limit g body buf H0 Hs) as [E Hn].
  destruct (inspect buf g) as [r h]. cbn [fst snd] in E, Hn. cbn [length seq map take concat]. rewrite app_nil_r. f_equal; [exact E|].
  rewrite (IH h (body ++ buf) H0 Hn), <- (seq_shift _ 1), map_map. apply map_ext. intros k. cbn [take concat]. rewrite <- app_assoc. reflexivity.
Qed.

(** C34: chunk boundaries may fall anywhere.  Whatever the content type, the
    budget and the chunks of a body, [inspect] answers for each chunk what the
    reference says of the bytes seen so far: the automaton that takes one byte
    at a time, without the skip over value bytes, on the bytes within the
    budget, or, when there is no usable boundary, whether they have a NUL. *)
Theorem inspect_reference ct limit chunks : 0 <= limit ->
  inspect_all chunks (init ct limit) = map (fun k => verdict ct limit (concat (take k chunks))) (seq 1 (length chunks)).
Proof. intros H0. exact (inspect_all_seen ct limit chunks _ [] H0 (seen_init ct limit H0)). Qed.

Lemma inspect_reference_witness : 0 <= 100 /\
  let body := bs "--XX" ++ [13; 10] ++ bs "name=PHP_SESSION_UPLOAD_PROGRESS" ++ [13; 10; 13; 10; 65; 0] in
  inspect_all [ztake 20 body; []; zdrop 20 body; [66]] (init (bs "multipart/form-data; boundary=XX") 100) = [false; false; true; true].
Proof. split; [lia|]. cbv zeta. rewrite inspect_reference by lia. vm_compute. reflexivity. Defined.

(** ** The search for the field name *)

(** [k] bytes of the name end [w], and no longer beginning of the name does. *)
Definition matches (k : Z) (w : list Z) : Prop := exists x, w = x ++ ztake k s_targetName.
Definition longest (k : Z) (w : list Z) : Prop := 0 <= k < 27 /\ matches k w /\ forall j, 0 <= j < 27 -> matches j w -> j <= k.

(** One byte: the next length, and whether the name is complete. *)
Definition next (k c : Z) : Z * bool :=
  let k := fall 27 c k in
  if c =? znth s_targetName k then if k + 1 =? TARGET_NAME_LEN then (0, true) else (k + 1, false) else (k, false).

Lemma signatureByte_next c g : signatureByte c g =
  set_signatureMatch (next (m_signatureMatch g) c).1 (if (next (m_signatureMatch g) c).2 then set_armed true g else g).
Proof.
  unfold signatureByte, next. generalize (fall 27 c (m_signatureMatch g)). intros k.
  destruct (c =? _); [destruct (k + 1 =? _)|]; destruct g; reflexivity.
Qed.

(** The beginnings of the name that end [ztake k name ++ [c]]. *)
Definition ends (j k c : Z) : bool :=
  bytes_eqb (ztake j s_targetName) (zdrop (k + 1 - j) (ztake k s_targetName ++ [c])).
Definition next_ok (k c : Z) : bool :=
  let '(n, hit) := next k c in
  (0 <=? n) && (n <? 27) && (n <=? k + 1) && ends n k c && Bool.eqb hit ((k =? 26) && (c =? 83)) &&
  forallb (fun j => negb ((j <=? k + 1) && ends j k c) || (j <=? n)) (seqZ 0 27).

Lemma fall_other c k fuel : c ∉ s_targetName -> 0 <= k < 27 -> fall fuel c k = fall fuel (-1) k.
Proof.
  intros Hc. revert k. induction fuel as [|fuel IH]; intros k Hk; [reflexivity|]. cbn [fall].
  assert (H : forall d, d ∉ s_targetName -> (d =? znth s_targetName k) = false).
  { intros d Hd. apply Z.eqb_neq. intros ->. apply Hd. unfold znth. apply list_elem_of_In, nth_In. cbn. lia. }
  rewrite !H; [|intros Hd; repeat (apply elem_of_cons in Hd as [Hd|Hd]; [discriminate|]); apply elem_of_nil in Hd; exact Hd|assumption]. destruct (negb (k =? 0)) eqn:E; [|reflexivity]. cbn [andb negb].
  apply IH. assert (Ht : (fun i => (0 <=? znth s_targetFailure i) && (znth s_targetFailure i <? 27)) (k - 1) = true) by (by_range 0 27 (fun i => (0 <=? znth s_targetFailure i) && (znth s_targetFailure i <? 27))).
  cbv beta in Ht. lia.
Qed.

Lemma next_table k c : 0 <= k < 27 -> next_ok k (if bool_decide (c ∈ s_targetName) then c else -1) = true.
Proof.
  intros Hk. assert (H : forallb (next_ok k) (-1 :: s_targetName) = true)
    by (by_range 0 27 (fun k => forallb (next_ok k) (-1 :: s_targetName))).
  rewrite forallb_forall in H. apply H, list_elem_of_In. case_bool_decide; set_solver.
Qed.

Lemma zlen_name : zlen s_targetName = 27.
Proof. reflexivity. Qed.

(** A beginning of [j] bytes ends [u]. *)
Lemma matches_iff j u : 0 <= j <= 27 -> matches j u <-> j <= zlen u /\ zdrop (zlen u - j) u = ztake j s_targetName.
Proof.
  intros Hj. assert (Hl : zlen (ztake j s_targetName) = j) by (rewrite zlen_ztake, zlen_name; lia). split.
  - intros [x ->]. rewrite zlen_app, Hl. pose proof (zlen_nonneg x). split; [lia|]. apply zdrop_app_len. lia.
  - intros [H E]. exists (ztake (zlen u - j) u). rewrite <- E. symmetry. apply ztake_zdrop.
Qed.

Lemma ends_matches j k c w : 0 <= j <= k + 1 -> 0 <= k < 27 -> matches k w -> ends j k c = true <-> matches j (w ++ [c]).
Proof.
  intros Hj Hk [x ->]. unfold ends. rewrite bytes_eqb_eq, matches_iff by lia. rewrite <- app_assoc.
  assert (Hl : zlen (ztake k s_targetName ++ [c]) = k + 1) by (rewrite zlen_app, zlen_ztake, zlen_name; change (zlen [c]) with 1; lia).
  set (y := ztake k s_targetName ++ [c]) in *. rewrite zlen_app, Hl. pose proof (zlen_nonneg x).
  replace (zlen x + (k + 1) - j) with (zlen x + (k + 1 - j)) by lia. rewrite <- zdrop_zdrop, zdrop_app_exact by lia.
  split; [intros <-; split; [lia|reflexivity]|intros [_ ->]; reflexivity].
Qed.

(** A longer beginning at the end of [w ++ [c]] comes from one at the end of [w]. *)
Lemma matches_snoc j w c : 0 < j <= 27 -> matches j (w ++ [c]) -> matches (j - 1) w /\ c = znth s_targetName (j - 1).
Proof.
  intros Hj [x E]. replace j with (j - 1 + 1) in E by lia. rewrite ztake_snoc in E by (rewrite zlen_name; lia).
  rewrite app_assoc in E. apply app_inj_tail in E as [-> ->]. split; [exists x|]; reflexivity.
Qed.

Lemma longest_next k w c : longest k w -> longest (next k c).1 (w ++ [c]) /\ ((next k c).2 = true <-> matches 27 (w ++ [c])).
Proof.
  intros (Hk & Hm & Hmax). pose proof (next_table k c Hk) as Ht. unfold next_ok in Ht. case_bool_decide as Hc.
  - destruct (next k c) as [n hit]. cbn [fst snd]. rewrite !andb_true_iff, forallb_forall in Ht.
    destruct Ht as (((((H0 & H1) & H2) & He) & Hh) & Hn). apply Z.leb_le in H0, H2. apply Z.ltb_lt in H1.
    apply (ends_matches n k c w) in He; [|lia..|assumption]. split.
    + split; [lia|]. split; [exact He|]. intros j Hj Hmj. destruct (Z.eq_dec j 0) as [->|]; [lia|].
      destruct (matches_snoc j w c) as [Hp _]; [lia|exact Hmj|]. specialize (Hmax (j - 1) ltac:(lia) Hp).
      specialize (Hn j). rewrite <- list_elem_of_In, elem_of_seqZ in Hn. specialize (Hn ltac:(lia)).
      apply (ends_matches j k c w) in Hmj; [|lia..|assumption]. rewrite Hmj in Hn. lia.
    + apply eqb_prop in Hh as ->. rewrite andb_true_iff, !Z.eqb_eq. split.
      * intros [-> ->]. destruct Hm as [x ->]. exists x. rewrite <- app_assoc. reflexivity.
      * intros H. apply matches_snoc in H as [Hp ->]; [|lia]. specialize (Hmax 26 ltac:(lia) Hp). split; [lia|reflexivity].
  - assert (E : next k c = (0, false)).
    { unfold next. rewrite fall_other by assumption.
      assert (Hz : fall 27 (-1) k = 0) by (apply Z.eqb_eq; by_range 0 27 (fun k => fall 27 (-1) k =? 0)). rewrite Hz.
      destruct (c =? znth s_targetName 0) eqn:E; [|reflexivity]. contradict Hc. apply Z.eqb_eq in E as ->. apply list_elem_of_here. }
    rewrite E. cbn [fst snd].
    assert (Hno : forall j, 0 < j <= 27 -> ~ matches j (w ++ [c])).
    { intros j Hj H. apply matches_snoc in H as [_ ->]; [|lia]. apply Hc. unfold znth. apply list_elem_of_In, nth_In.
      change (length s_targetName) with 27%nat. lia. }
    split; [|split; [discriminate|intros H; destruct (Hno 27 ltac:(lia) H)]].
    split; [lia|]. split; [exists (w ++ [c]); rewrite app_nil_r; reflexivity|].
    intros j Hj Hm'. destruct (Z.eq_dec j 0); [lia|]. destruct (Hno j ltac:(lia) Hm').
Qed.

(** The name occurs in [w]. *)
Definition contains (w : list Z) : Prop := exists x y, w = x ++ s_targetName ++ y.

Lemma contains_snoc w c : contains (w ++ [c]) <-> contains w \/ matches 27 (w ++ [c]).
Proof.
  split.
  - intros (x & y & E). destruct y as [|d y _] using rev_ind.
    + right. exists x. rewrite E, app_nil_r. reflexivity.
    + left. rewrite !app_assoc in E. apply app_inj_tail in E as [-> _]. exists x, y. rewrite app_assoc. reflexivity.
  - intros [(x & y & ->)|[x ->]]; [exists x, (y ++ [c])|exists x, []]; rewrite <- ?app_assoc, ?app_nil_r; reflexivity.
Qed.

(** The search state after hearing [w]. *)
Definition heard (g : guard) (w : list Z) : Prop :=
  longest (m_signatureMatch g) w /\ (m_armed g = true <-> contains w).

Lemma heard_byte g w c : heard g w -> heard (signatureByte c g) (w ++ [c]).
Proof.
  intros [Hl Ha]. destruct (longest_next _ w c Hl) as [Hn Hh]. rewrite signatureByte_next. unfold heard.
  rewrite contains_snoc, <- Ha, <- Hh. destruct (next _ _) as [n hit]. cbn [fst snd] in *.
  match goal with |- context [set_signatureMatch n ?h] => change (m_signatureMatch (set_signatureMatch n h)) with n;
    change (m_armed (set_signatureMatch n h)) with (m_armed h) end.
  split; [exact Hn|]. destruct hit; [change (m_armed (set_armed true g)) with true|]; intuition congruence.
Qed.

Lemma heard_nothing g : m_signatureMatch g = 0 -> m_armed g = false -> heard g [].
Proof.
  intros E1 E2. unfold heard. rewrite E1, E2. split.
  - split; [lia|]. split; [exists []; reflexivity|]. intros j Hj Hm. apply matches_iff in Hm as [H _]; [exact H|lia].
  - split; [discriminate|]. intros (x & y & E). apply (f_equal zlen) in E. rewrite !zlen_app, zlen_name in E.
    pose proof (zlen_nonneg x). pose proof (zlen_nonneg y). change (zlen []) with 0 in E. lia.
Qed.

(** ** The framing of a body

    The framing the comment of the class describes: exact delimiter lines start headers,
    header parsing ignores lines that look like delimiters, a value ends at a line feed
    and the delimiter except on its first line, and a line that reaches the size of the
    reader's buffer may be split. *)

Definition CRLF : list Z := [13; 10].

(** The text of a line without its line end: a CR before the LF goes with it. *)
Definition strip_cr (l : list Z) : list Z :=
  match rev l with c :: r => if c =? 13 then rev r else l | [] => [] end.

(** What follows the value that starts at [p]: the text from the first delimiter
    [D] after a line feed, with the value before that line feed. *)
Fixpoint split_value (D p : list Z) : list Z * option (list Z) :=
  match p with
  | [] => ([], None)
  | c :: p' =>
      if (c =? 10) && bytes_eqb (ztake (zlen D) p') D then ([], Some p')
      else let '(v, r) := split_value D p' in (c :: v, r)
  end.

(** A line is read from the body: up to a line feed; or, of a line that has [limit] bytes
    or more, any piece with so many, of which the reader may make whatever it likes. *)
Inductive line_read (limit : Z) : list Z -> list Z -> list Z -> Prop :=
  | line_whole l rest : 10 ∉ l -> line_read limit (l ++ 10 :: rest) (strip_cr l) rest
  | line_split l text rest : 10 ∉ l -> limit <= zlen l -> line_read limit (l ++ rest) text rest.

(** A part of a body: the lines of its header and its value.  A part starts after a line
    that is the delimiter [D]; [hs] is the header read so far. *)
Inductive has_part (D : list Z) (limit : Z) : option (list (list Z)) -> list Z -> list (list Z) * list Z -> Prop :=
  | part_search body line rest part : line_read limit body line rest ->
      has_part D limit (if bytes_eqb line D then Some [] else None) rest part -> has_part D limit None body part
  | part_header hs body line rest part : line_read limit body line rest -> line <> [] ->
      has_part D limit (Some (hs ++ [line])) rest part -> has_part D limit (Some hs) body part
  | part_found hs body rest v next : line_read limit body [] rest -> split_value D rest = (v, next) ->
      has_part D limit (Some hs) body (hs, v)
  | part_later hs body rest v next part : line_read limit body [] rest -> split_value D rest = (v, Some next) ->
      has_part D limit None next part -> has_part D limit (Some hs) body part.

(** The parts that are found when no line is split. *)
Fixpoint parts (fuel : nat) (D : list Z) (hs : option (list (list Z))) (body : list Z) : list (list (list Z) * list Z) :=
  match fuel with
  | O => []
  | S fuel =>
      match memchr 10 body with
      | None => []
      | Some i =>
          let line := strip_cr (ztake i body) in
          let rest := zdrop (i + 1) body in
          match hs with
          | None => parts fuel D (if bytes_eqb line D then Some [] else None) rest
          | Some hs =>
              if bytes_eqb line [] then
                let '(v, next) := split_value D rest in
                (hs, v) :: match next with Some p => parts fuel D None p | None => [] end
              else parts fuel D (Some (hs ++ [line])) rest
          end
      end
  end.

Lemma parts_read fuel D limit : forall hs body part, part ∈ parts fuel D hs body -> has_part D limit hs body part.
Proof.
  induction fuel as [|fuel IH]; intros hs body part; cbn [parts]; [set_solver|].
  destruct (memchr 10 body) as [i|] eqn:E; [|set_solver].
  assert (L : line_read limit body (strip_cr (ztake i body)) (zdrop (i + 1) body)).
  { apply memchr_Some in E as (_ & E & Hn). rewrite E at 1. apply line_whole, Hn. }
  destruct hs as [hs|]; [|intros H; eapply part_search; [exact L|apply IH, H]].
  destruct (bytes_eqb (strip_cr (ztake i body)) []) eqn:Eq.
  - apply bytes_eqb_eq in Eq. rewrite Eq in L. destruct (split_value D (zdrop (i + 1) body)) as [v next] eqn:Ev.
    rewrite elem_of_cons. intros [->|H]; [eapply part_found; eassumption|]. destruct next as [p|]; [|set_solver].
    eapply part_later; [exact L|exact Ev|apply IH, H].
  - intros H. eapply part_header; [exact L| |apply IH, H]. intros Eq'. apply bytes_eqb_eq in Eq'. congruence.
Qed.

Section Framing.
Context (D : list Z).
Hypothesis D_ne : D <> [].
Hypothesis D_chars : 0 ∉ D /\ 10 ∉ D /\ 13 ∉ D.

(** The match of a line against the delimiter, [t] having been processed. *)
Definition tracks (g : guard) (t : list Z) : Prop :=
  match m_lineDelimBroken g, m_lineDelimFull g with
  | false, false => m_delimMatch g = zlen t /\ t = ztake (zlen t) D /\ zlen t < zlen D
  | false, true => t = D
  | true, _ => ~ t `prefix_of` D
  end.

(** The state of a line of which [t] has been processed.  [w] is what the search
    has heard before this line since it last started afresh, [j] the number of
    bytes at the start of the line that it has not heard. *)
Definition line_state (w : list Z) (j : Z) (g : guard) (t : list Z) : Prop :=
  m_pDelim g = D /\ 0 <= j <= zlen t /\
  match m_section g with
  | SEC_SCAN => tracks g t /\ heard g (w ++ zdrop j t)
  | SEC_HEADER => m_lineHasContent g = negb (bytes_eqb t []) /\ heard g (w ++ zdrop j t)
  | SEC_VALUE => m_lineDelimFull g = false /\ (m_valueFirstLine g = true \/ tracks g t) /\ (m_armed g = true <-> contains w)
  | SEC_BLOCKED => False
  end.

(** A line of which [l] has been read: a CR at its end is held back. *)
Definition in_line (w : list Z) (j : Z) (g : guard) (l : list Z) : Prop :=
  exists t, l = t ++ (if m_sawCR g then [13] else []) /\ (m_sawCR g = false -> strip_cr t = t) /\ line_state w j g t.

Lemma prefix_snoc t c : t = ztake (zlen t) D -> zlen t < zlen D -> t ++ [c] `prefix_of` D <-> c = znth D (zlen t).
Proof.
  intros E Hl. pose proof (zlen_nonneg t). split.
  - intros [r ->]. rewrite <- app_assoc. rewrite znth_app by lia. rewrite (proj2 (Z.ltb_ge _ _)) by lia. rewrite Z.sub_diag. reflexivity.
  - intros ->. exists (zdrop (zlen t + 1) D). rewrite E at 1. rewrite <- (ztake_zdrop (zlen t + 1) D) at 1. f_equal.
    rewrite ztake_snoc by lia. reflexivity.
Qed.

Lemma tracks_step g t c : tracks g t ->
  let m := c =? znth D (m_delimMatch g) in
  let d := if m then m_delimMatch g + 1 else m_delimMatch g in
  let g' := if negb (m_lineDelimBroken g) && negb (m_lineDelimFull g) then
              if m then (if d =? zlen D then set_lineDelimFull true else id) (set_delimMatch d g) else set_lineDelimBroken true g
            else set_lineDelimBroken true g in
  tracks g' (t ++ [c]).
Proof.
  intros Ht. cbv zeta. unfold tracks in Ht.
  assert (Hb : m_lineDelimBroken (set_lineDelimBroken true g) = true) by (destruct g; reflexivity).
  destruct (m_lineDelimBroken g) eqn:Eb; cbn [negb andb].
  { unfold tracks. rewrite Hb. intros [r E]. apply Ht. exists ([c] ++ r). rewrite app_assoc. exact E. }
  destruct (m_lineDelimFull g) eqn:Ef; cbn [negb andb].
  { subst t. unfold tracks. rewrite Hb. intros [r E]. apply (f_equal length) in E. rewrite !length_app in E. cbn in E. lia. }
  destruct Ht as (-> & E & Hl). pose proof (zlen_nonneg t) as Hnn. pose proof (prefix_snoc t c E Hl) as Hp.
  destruct (Z.eqb_spec c (znth D (zlen t))) as [Ec|Ec].
  - assert (Et : t ++ [c] = ztake (zlen t + 1) D) by (rewrite ztake_snoc, <- E by lia; congruence).
    destruct (Z.eqb_spec (zlen t + 1) (zlen D)) as [El|El]; unfold tracks.
    + replace (m_lineDelimBroken _) with false by (destruct g; exact (eq_sym Eb)). cbn [m_lineDelimFull set_lineDelimFull].
      rewrite Et, ztake_all by lia. reflexivity.
    + unfold id. replace (m_lineDelimBroken _) with false by (destruct g; exact (eq_sym Eb)).
      replace (m_lineDelimFull _) with false by (destruct g; exact (eq_sym Ef)).
      rewrite zlen_app. change (zlen [c]) with 1. split; [destruct g; reflexivity|]. split; [exact Et|lia].
  - unfold tracks. rewrite Hb. intros H. apply Ec, Hp, H.
Qed.

Lemma tracks_ext g h t : m_delimMatch h = m_delimMatch g -> m_lineDelimFull h = m_lineDelimFull g ->
  m_lineDelimBroken h = m_lineDelimBroken g -> tracks g t -> tracks h t.
Proof. unfold tracks. intros -> -> ->. auto. Qed.

Lemma heard_ext g h w : m_signatureMatch h = m_signatureMatch g -> m_armed h = m_armed g -> heard g w -> heard h w.
Proof. unfold heard. intros -> ->. auto. Qed.

(** One byte of a line; in a value, one after which the line is not a delimiter. *)
Lemma process_line w j g t c : line_state w j g t -> is_blocked (processLineByte c g) = false ->
  (m_section g = SEC_VALUE -> m_valueFirstLine g = true \/ t ++ [c] <> D) ->
  let g' := processLineByte c g in
  m_section g' = m_section g /\ m_sawCR g' = m_sawCR g /\ m_valueFirstLine g' = m_valueFirstLine g /\ line_state w j g' (t ++ [c]).
Proof.
  intros (Ed & Hj & Hs) Hb Hv. cbv zeta. assert (Hj' : 0 <= j <= zlen (t ++ [c])) by (rewrite zlen_app; change (zlen [c]) with 1; lia).
  assert (Ej : zdrop j (t ++ [c]) = zdrop j t ++ [c]).
  { unfold zdrop. rewrite drop_app_le; [reflexivity|]. unfold zlen in Hj. lia. }
  pose proof (tracks_step g t c) as Hn. pose proof (fun u => heard_byte g u c) as Hh. revert Hb.
  unfold line_state. rewrite Ej, app_assoc. clear Ej. unfold processLineByte. destruct (m_section g) eqn:Es; [| | |contradiction].
  - destruct Hs as [Ht Hw]. specialize (Hh _ Hw). specialize (Hn Ht). revert Hh. cbv zeta in Hn. rewrite signature_not_position.
    generalize (m_signatureMatch (signatureByte c g)) (m_armed (signatureByte c g)). intros k a Hh.
    unfold m_delimLen. destruct g as [d ? ? ? s ? ? ? ? ? ? dm full broken ? ?]. cbn in Es, Ed. subst s d.
    cbn -[Z.eqb zlen znth Z.add heard tracks] in *. destruct (a && (c =? 0)); [discriminate|]. intros _.
    destruct broken, full; cbn -[Z.eqb zlen znth Z.add heard tracks] in *;
      try (split_and!; solve [reflexivity|exact Hn|exact (heard_ext _ _ _ eq_refl eq_refl Hh)|lia]).
    destruct (c =? znth D dm); [destruct (dm + 1 =? zlen D)|]; cbn -[Z.eqb zlen znth Z.add heard tracks] in *;
      split_and!; solve [reflexivity|exact Hn|exact (heard_ext _ _ _ eq_refl eq_refl Hh)|lia].
  - destruct Hs as [_ Hw]. specialize (Hh _ Hw). revert Hh. rewrite signature_not_position.
    generalize (m_signatureMatch (signatureByte c g)) (m_armed (signatureByte c g)). intros k a Hh.
    destruct (c =? 0); [destruct g; discriminate|]. intros _. destruct g. cbn -[heard] in *. subst.
    split_and!; solve [reflexivity|destruct t; reflexivity|exact (heard_ext _ _ _ eq_refl eq_refl Hh)|lia].
  - clear Hh. destruct Hs as (Ef & Ht & Hw). specialize (Hv eq_refl). unfold m_delimLen.
    destruct g as [d ? ? ? s ? ? ? a f ? dm full broken ? ?]. cbn in Es, Ed, Ef. subst s d full.
    cbn -[Z.eqb zlen znth Z.add heard tracks] in *. destruct f; cbn -[Z.eqb zlen znth Z.add tracks].
    { destruct (a && (c =? 0)); [discriminate|]. intros _; cbn -[tracks zlen Z.add]; split_and!; first [reflexivity|lia|exact Hw|left; reflexivity|right; exact Hn]. }
    destruct Ht as [|Ht]; [discriminate|]. destruct Hv as [|Hd]; [discriminate|]. specialize (Hn Ht).
    destruct broken; cbn -[Z.eqb zlen znth Z.add tracks] in *.
    { destruct (a && (c =? 0)); [discriminate|]. intros _; cbn -[tracks zlen Z.add]; split_and!; first [reflexivity|lia|exact Hw|left; reflexivity|right; exact Hn]. }
    unfold tracks in Ht. cbn in Ht. destruct Ht as (-> & E & Hl).
    destruct (Z.eqb_spec c (znth D (zlen t))) as [Ec|Ec].
    + destruct (Z.eqb_spec (zlen t + 1) (zlen D)) as [El|El]; cbn -[Z.eqb zlen znth Z.add tracks] in *; [|intros _; cbn -[tracks zlen Z.add]; split_and!; first [reflexivity|lia|exact Hw|left; reflexivity|right; exact Hn]].
      contradict Hd. pose proof (zlen_nonneg t). rewrite E at 1. rewrite Ec, <- ztake_snoc by lia. apply ztake_all. lia.
    + destruct (a && (c =? 0)); [discriminate|]. cbn -[Z.eqb zlen znth Z.add tracks] in *. intros _; cbn -[tracks zlen Z.add]; split_and!; first [reflexivity|lia|exact Hw|left; reflexivity|right; exact Hn].
Qed.

Lemma line_state_ext w j g h t : m_pDelim h = m_pDelim g -> m_section h = m_section g -> m_delimMatch h = m_delimMatch g ->
  m_lineDelimFull h = m_lineDelimFull g -> m_lineDelimBroken h = m_lineDelimBroken g -> m_lineHasContent h = m_lineHasContent g ->
  m_valueFirstLine h = m_valueFirstLine g -> m_armed h = m_armed g -> m_signatureMatch h = m_signatureMatch g ->
  line_state w j g t -> line_state w j h t.
Proof. unfold line_state, tracks, heard. intros -> -> -> -> -> -> -> -> ->. auto. Qed.

Lemma line_state_live w j g t : line_state w j g t -> is_blocked g = false.
Proof. unfold line_state, is_blocked. destruct (m_section g); tauto. Qed.

Lemma count_same w j g t : line_state w j g t -> (count_unless_value g).1 = false ->
  let h := (count_unless_value g).2 in
  line_state w j h t /\ m_section h = m_section g /\ m_sawCR h = m_sawCR g /\ m_valueFirstLine h = m_valueFirstLine g.
Proof.
  unfold count_unless_value, countLineByte. intros H. destruct (negb (is_value g)); [|auto].
  destruct (_ <? _); [|discriminate]. intros _. cbv zeta. split; [|destruct g; auto].
  eapply line_state_ext; [..|exact H]; destruct g; reflexivity.
Qed.

(** The bytes of a line, one after the other. *)
Lemma plain_step w j g t c : c <> 10 -> m_sawCR g = false -> line_state w j g t -> is_blocked (plain_byte c g).2 = false ->
  (m_section g = SEC_VALUE -> m_valueFirstLine g = true \/ t ++ [c] <> D) ->
  let g' := (plain_byte c g).2 in
  m_section g' = m_section g /\ m_valueFirstLine g' = m_valueFirstLine g /\ in_line w j g' (t ++ [c]).
Proof.
  intros Hc Hr Ht Hb Hv. cbv zeta. revert Hb. unfold plain_byte. rewrite (proj2 (Z.eqb_neq c 10) Hc).
  destruct ((count_unless_value g).1) eqn:Ek.
  { destruct (count_unless_value g) as [stop h] eqn:E. cbn [fst] in Ek. subst stop.
    assert (Hh : is_blocked h = true).
    { revert E. unfold count_unless_value, countLineByte. destruct (negb _); [|discriminate]. destruct (_ <? _); [discriminate|].
      intros [= <-]. destruct g; reflexivity. }
    destruct (c =? 13); cbn [snd]; rewrite Hh; discriminate. }
  destruct (count_same w j g t Ht Ek) as (Ht' & Es & Er & Ef). destruct (count_unless_value g) as [stop h]. cbn [fst snd] in *. subst stop.
  destruct (Z.eqb_spec c 13) as [->|H13]; cbn [snd].
  - intros _. rewrite <- Es, <- Ef. split_and!; [destruct h; reflexivity..|]. exists t. split; [destruct h; reflexivity|]. split; [destruct h; discriminate|].
    eapply line_state_ext; [..|exact Ht']; destruct h; reflexivity.
  - intros Hb. destruct (process_line w j h t c Ht' Hb) as (E1 & E2 & E3 & E4); [rewrite Es, Ef; exact Hv|].
    rewrite E1, E3, <- Es, <- Ef. split_and!; [reflexivity..|]. exists (t ++ [c]). rewrite E2, Er, Hr, app_nil_r. split_and!; auto.
    intros _. unfold strip_cr. rewrite rev_unit, (proj2 (Z.eqb_neq c 13) H13). reflexivity.
Qed.

Lemma step_line w j g l c : c <> 10 -> in_line w j g l -> is_blocked (feed_byte g c) = false ->
  (m_section g = SEC_VALUE -> m_valueFirstLine g = true \/ ~ D `prefix_of` l ++ [c]) ->
  let g' := feed_byte g c in
  m_section g' = m_section g /\ m_valueFirstLine g' = m_valueFirstLine g /\ in_line w j g' (l ++ [c]).
Proof.
  intros Hc (t & -> & _ & Ht) Hb Hv. cbv zeta. pose proof (line_state_live _ _ _ _ Ht) as Hl. rewrite feed_byte_live in * by assumption.
  assert (H13 : forall u, u ++ [13] <> D) by (intros u E; destruct D_chars as (_ & _ & H); apply H; rewrite <- E; set_solver).
  revert Hb. unfold one_byte. destruct (m_sawCR g) eqn:Er.
  - rewrite (proj2 (Z.eqb_neq c 10) Hc). set (h := set_sawCR false g).
    assert (Hh : line_state w j h t) by (eapply line_state_ext; [..|exact Ht]; destruct g; reflexivity).
    destruct (is_blocked (processLineByte 13 h)) eqn:Eb; [cbn [snd]; congruence|].
    destruct (process_line w j h t 13 Hh Eb) as (E1 & E2 & E3 & E4); [auto|]. intros Hb.
    replace (m_section g) with (m_section (processLineByte 13 h)) by (rewrite E1; destruct g; reflexivity).
    replace (m_valueFirstLine g) with (m_valueFirstLine (processLineByte 13 h)) by (rewrite E3; destruct g; reflexivity).
    assert (Er' : m_sawCR (processLineByte 13 h) = false) by (rewrite E2; destruct g; reflexivity).
    apply plain_step; [assumption..|]. rewrite E1, E3. intros Es. replace (m_section h) with (m_section g) in Es by (destruct g; reflexivity).
    destruct (Hv Es) as [|Hp]; [left; destruct g; assumption|]. right. intros E. apply Hp. rewrite <- E. reflexivity.
  - rewrite app_nil_r in *. intros Hb. apply plain_step; auto. intros Es. destruct (Hv Es) as [|Hp]; [auto|]. right. intros <-. apply Hp. reflexivity.
Qed.

Lemma strip_cr_snoc t : strip_cr (t ++ [13]) = t.
Proof. unfold strip_cr. rewrite rev_unit. apply rev_involutive. Qed.

(** The section that the line feed after line [l] leads to. *)
Definition after_line (s : section) (line : list Z) : section :=
  match s with
  | SEC_SCAN => if bytes_eqb line D then SEC_HEADER else SEC_SCAN
  | SEC_HEADER => if bytes_eqb line [] then SEC_VALUE else SEC_HEADER
  | s => s
  end.

Lemma end_line w j g l : in_line w j g l ->
  let g' := feed_byte g 10 in
  m_section g' = after_line (m_section g) (strip_cr l) /\
  in_line (match m_section g with SEC_VALUE => w | _ => w ++ zdrop j (strip_cr l) end) 0 g' [] /\
  m_valueFirstLine g' = match m_section g with SEC_VALUE => false | SEC_HEADER => bytes_eqb (strip_cr l) [] || m_valueFirstLine g | _ => m_valueFirstLine g end.
Proof.
  intros (t & -> & Hs & Ht). cbv zeta. pose proof (line_state_live _ _ _ _ Ht) as Hl. rewrite feed_byte_live by assumption.
  assert (E : (one_byte 10 g).2 = finishLine g).
  { unfold one_byte, plain_byte. cbn [Z.eqb Pos.eqb]. destruct (m_sawCR g); [|reflexivity].
    unfold finishLine. destruct g as [? ? ? ? s]. destruct s, m_lineDelimFull0, m_lineDelimBroken0, m_lineHasContent0; reflexivity. }
  rewrite E. assert (Et : strip_cr (t ++ if m_sawCR g then [13] else []) = t).
  { destruct (m_sawCR g); [apply strip_cr_snoc|]. rewrite app_nil_r. auto. }
  rewrite Et. clear E Et Hs Hl.
  assert (Hf : forall h, m_delimMatch h = 0 -> m_lineDelimFull h = false -> m_lineDelimBroken h = false -> tracks h []).
  { intros h. unfold tracks. intros -> -> ->. change (zlen []) with 0. split_and!; [reflexivity|symmetry; apply ztake_0|].
    destruct D; [contradiction|]. rewrite zlen_cons. pose proof (zlen_nonneg l). lia. }
  destruct Ht as (Ed & _ & Ht). assert (H0 : 0 <= 0 <= zlen (@nil Z)) by (change (zlen (@nil Z)) with 0; lia). unfold in_line, line_state. destruct g as [d ? ? ? s ? ? ? a f ? dm full broken content k].
  cbn in Ed. subst d. unfold finishLine. destruct s; cbn in Ht; [| | |contradiction].
  - destruct Ht as [Htr Hh]. unfold tracks in Htr. cbn in Htr. cbn -[tracks heard].
    assert (Ex : bytes_eqb t D = full && negb broken).
    { destruct broken; [|destruct full]; cbn.
      - destruct full; cbn; apply not_true_iff_false; rewrite bytes_eqb_eq; intros ->; apply Htr; reflexivity.
      - subst t. apply bytes_eqb_eq. reflexivity.
      - apply not_true_iff_false. rewrite bytes_eqb_eq. intros ->. lia. }
    rewrite Ex. destruct (full && negb broken); cbn -[tracks heard]; (split; [reflexivity|]); (split; [|reflexivity]);
      exists []; (split; [reflexivity|]); (split; [reflexivity|]); (split; [reflexivity|]); (split; [exact H0|]); rewrite app_nil_r.
    + split; [reflexivity|]. exact (heard_ext _ _ _ eq_refl eq_refl Hh).
    + split; [apply Hf; reflexivity|]. exact (heard_ext _ _ _ eq_refl eq_refl Hh).
  - destruct Ht as [Hc Hh]. cbn in Hc. subst content. cbn -[tracks heard]. rewrite negb_involutive.
    destruct (bytes_eqb t []); cbn -[tracks heard]; (split; [reflexivity|]); (split; [|reflexivity]);
      exists []; (split; [reflexivity|]); (split; [reflexivity|]); (split; [reflexivity|]); (split; [exact H0|]).
    + split; [reflexivity|]. split; [left; reflexivity|]. exact (proj2 Hh).
    + rewrite app_nil_r. split; [reflexivity|]. exact (heard_ext _ _ _ eq_refl eq_refl Hh).
  - destruct Ht as (Ef & Htr & Hw). cbn -[tracks heard]. split; [reflexivity|]. split; [|reflexivity].
    exists []. do 3 (split; [reflexivity|]). split; [exact H0|]. split; [reflexivity|]. split; [right; apply Hf; reflexivity|exact Hw].
Qed.

Lemma feed_live g u v : is_blocked (feed g (u ++ v)) = false -> is_blocked (feed g u) = false.
Proof. rewrite feed_app. destruct (is_blocked (feed g u)) eqn:E; [|reflexivity]. rewrite feed_blocked by exact E. congruence. Qed.

Lemma feed_cons g c u : feed g (c :: u) = feed (feed_byte g c) u.
Proof. reflexivity. Qed.

Lemma feed_line w j u : forall g l, m_section g <> SEC_VALUE -> 10 ∉ u -> in_line w j g l -> is_blocked (feed g u) = false ->
  m_section (feed g u) = m_section g /\ m_valueFirstLine (feed g u) = m_valueFirstLine g /\ in_line w j (feed g u) (l ++ u).
Proof.
  induction u as [|c u IH]; intros g l Hs Hu Hl Hb; [rewrite app_nil_r; auto|].
  apply not_elem_of_cons in Hu as [Hc Hu]. rewrite feed_cons in *.
  destruct (step_line w j g l c) as (E1 & E2 & E3); [congruence|assumption|apply (feed_live _ [] u), Hb|tauto|].
  destruct (IH (feed_byte g c) (l ++ [c])) as (F1 & F2 & F3); [congruence|assumption..|].
  rewrite <- app_assoc in F3. split_and!; congruence || assumption.
Qed.

(** A stretch of a value without a delimiter. *)
Lemma value_run w u : forall j g l, m_section g = SEC_VALUE -> in_line w j g l -> is_blocked (feed g u) = false ->
  (m_valueFirstLine g = false -> ~ D `prefix_of` l ++ u) -> (forall a b, u = a ++ 10 :: b -> ~ D `prefix_of` b) ->
  m_section (feed g u) = SEC_VALUE /\ exists j l, in_line w j (feed g u) l.
Proof.
  induction u as [|c u IH]; intros j g l Hs Hl Hb H1 H2; [eauto|]. rewrite feed_cons in *.
  assert (H2' : forall a b, u = a ++ 10 :: b -> ~ D `prefix_of` b) by (intros a b ->; apply (H2 (c :: a)); reflexivity).
  destruct (Z.eq_dec c 10) as [->|Hc].
  - destruct (end_line w j g l Hl) as (E1 & E2 & E3). rewrite Hs in E1, E2, E3. cbn [after_line] in E1.
    apply (IH 0 _ [] E1 E2 Hb); [|exact H2']. intros _. apply (H2 []). reflexivity.
  - destruct (step_line w j g l c Hc Hl) as (E1 & E2 & E3); [apply (feed_live _ [] u), Hb| |].
    { intros _. destruct (m_valueFirstLine g); [auto|]. right. intros [r E]. apply H1; [reflexivity|].
      exists (r ++ u). rewrite app_assoc, <- E, <- app_assoc. reflexivity. }
    rewrite Hs in E1. apply (IH j _ (l ++ [c]) E1 E3 Hb); [|exact H2']. rewrite E2, <- app_assoc. exact H1.
Qed.

Lemma process_nul w j g t : line_state w j g t -> m_section g = SEC_VALUE -> m_armed g = true -> is_blocked (processLineByte 0 g) = true.
Proof.
  intros (Ed & _ & H) Hs Ha. unfold processLineByte. rewrite Hs in *. destruct H as (Ef & Ht & _). rewrite Ha. change (true && (0 =? 0)) with true.
  destruct (m_valueFirstLine g); [destruct g; reflexivity|]. destruct Ht as [|Ht]; [discriminate|]. unfold tracks in Ht. rewrite Ef in Ht.
  destruct (m_lineDelimBroken g); [destruct g; reflexivity|]. cbn [orb]. destruct Ht as (Em & Et & Hl). pose proof (zlen_nonneg t).
  rewrite Ed, Em. destruct (Z.eqb_spec 0 (znth D (zlen t))) as [E|E];
    [|change (m_armed (set_lineDelimBroken true g)) with (m_armed g); rewrite Ha; reflexivity].
  destruct D_chars as [H0 _]. contradict H0. rewrite E. unfold znth. apply list_elem_of_In, nth_In. unfold zlen in *. lia.
Qed.

Lemma value_nul w j g l : in_line w j g l -> m_section g = SEC_VALUE -> contains w -> is_blocked (feed_byte g 0) = true.
Proof.
  intros (t & _ & _ & Ht) Hs Hw. pose proof (line_state_live _ _ _ _ Ht) as Hl. rewrite feed_byte_live by assumption.
  assert (Hp : forall h u, line_state w j h u -> m_section h = SEC_VALUE -> is_blocked (plain_byte 0 h).2 = true).
  { intros h u Hh Es. unfold plain_byte, count_unless_value, is_value. rewrite Es. cbn.
    apply (process_nul w j h u Hh Es). destruct Hh as (_ & _ & Hh). rewrite Es in Hh. apply Hh, Hw. }
  unfold one_byte. destruct (m_sawCR g); [|eapply Hp; eassumption]. cbn [Z.eqb].
  destruct (is_blocked (processLineByte 13 (set_sawCR false g))) eqn:Eb; [exact Eb|].
  assert (Hh : line_state w j (set_sawCR false g) t) by (eapply line_state_ext; [..|exact Ht]; destruct g; reflexivity).
  destruct (process_line w j (set_sawCR false g) t 13 Hh Eb) as (E1 & _ & _ & E4).
  { intros _. right. intros E. apply D_chars. rewrite <- E. set_solver. }
  eapply Hp; [exact E4|]. rewrite E1. destruct g. exact Hs.
Qed.

(** The last byte of the delimiter ends the value. *)
Lemma delim_last h n c : m_section h = SEC_VALUE -> m_valueFirstLine h = false -> m_lineDelimBroken h = false -> m_pDelim h = D ->
  m_delimMatch h = n -> n + 1 = zlen D -> znth D n = c -> c <> 10 -> c <> 13 ->
  let g := (plain_byte c h).2 in
  m_section g = SEC_SCAN /\ m_sawCR g = m_sawCR h /\ m_pDelim g = D /\ m_lineBytes g = zlen D /\ m_lineDelimBroken g = false /\
  m_lineDelimFull g = true /\ m_signatureMatch g = 0 /\ m_armed g = false.
Proof.
  intros Hs Hf Hb Hd Hm Hn Hc N10 N13. unfold plain_byte, count_unless_value, is_value, processLineByte, m_delimLen.
  apply Z.eqb_neq in N10, N13. rewrite N10, N13. destruct h. cbn in Hs, Hf, Hb, Hd, Hm. subst.
  cbn -[Z.eqb Z.add znth zlen]. rewrite Z.eqb_refl. cbn -[Z.eqb Z.add znth zlen]. rewrite Hn, Z.eqb_refl. auto 10.
Qed.

(** The delimiter at the start of a line ends the value at once. *)
Lemma delim_run w g : m_section g = SEC_VALUE -> m_valueFirstLine g = false -> in_line w 0 g [] -> is_blocked (feed g D) = false ->
  m_section (feed g D) = SEC_SCAN /\ in_line [] (zlen D) (feed g D) D /\ m_lineBytes (feed g D) = zlen D.
Proof.
  intros Hs Hf Hl Hb. destruct (exists_last D_ne) as (p & c & ED). destruct D_chars as (_ & H10 & H13).
  assert (Hp : forall q r, p = q ++ r -> in_line w 0 (feed g q) q /\ m_section (feed g q) = SEC_VALUE /\ m_valueFirstLine (feed g q) = false).
  { induction q as [|d q IH] using rev_ind; intros r E; [auto|]. rewrite <- app_assoc in E. destruct (IH _ E) as (I1 & I2 & I3).
    rewrite feed_app. cbn [feed fold_left]. destruct (step_line w 0 (feed g q) q d) as (E1 & E2 & E3); try assumption.
    - intros ->. apply H10. rewrite ED, E. set_solver.
    - apply (feed_live _ [d] (r ++ [c])). rewrite <- feed_app. rewrite ED, E in Hb. rewrite <- !app_assoc in Hb. exact Hb.
    - intros _. right. intros [s Es]. rewrite ED, E in Es. apply (f_equal length) in Es. rewrite !length_app in Es. cbn in Es. lia.
    - rewrite E1, E2. auto. }
  destruct (Hp p [] (eq_sym (app_nil_r p))) as ((t & Et & _ & Ht) & Is & If). clear Hp.
  assert (Hnp : 13 ∉ p /\ c <> 10 /\ c <> 13) by (rewrite ED in H10, H13; set_solver).
  destruct (m_sawCR (feed g p)) eqn:Er; [exfalso; apply (proj1 Hnp); rewrite Et; set_solver|]. rewrite app_nil_r in Et. subst t.
  pose proof (line_state_live _ _ _ _ Ht) as Hlive. destruct Ht as (Ed & _ & Ht). rewrite Is, If in Ht. destruct Ht as (Ef & Ht & _).
  destruct Ht as [|Ht]; [discriminate|]. unfold tracks in Ht. rewrite Ef in Ht.
  assert (Hpre : p `prefix_of` D) by (exists [c]; exact ED).
  destruct (m_lineDelimBroken (feed g p)) eqn:Ebr; [contradiction|]. destruct Ht as (Em & _ & _).
  assert (Ec : znth D (zlen p) = c).
  { rewrite ED, znth_app by apply zlen_nonneg. rewrite Z.ltb_irrefl, Z.sub_diag. reflexivity. }
  assert (EL : zlen p + 1 = zlen D) by (rewrite ED, zlen_app; reflexivity).
  assert (Efeed : feed g D = (plain_byte c (feed g p)).2).
  { rewrite ED, feed_app. cbn [feed fold_left]. rewrite feed_byte_live by assumption. unfold one_byte. rewrite Er. reflexivity. }
  destruct Hnp as (_ & N10 & N13).
  destruct (delim_last (feed g p) (zlen p) c Is If Ebr Ed Em EL Ec N10 N13) as (S1 & S2 & S3 & S4 & S5 & S6 & S7 & S8).
  rewrite Efeed. split; [exact S1|]. split; [|exact S4]. exists D. rewrite S2, Er, app_nil_r. split; [reflexivity|].
  split; [intros _; rewrite ED; unfold strip_cr; rewrite rev_unit, (proj2 (Z.eqb_neq c 13) N13); reflexivity|].
  split; [exact S3|]. split; [split; [apply zlen_nonneg|apply Z.le_refl]|]. rewrite S1. split.
  - unfold tracks. rewrite S5, S6. reflexivity.
  - rewrite zdrop_all by apply Z.le_refl. apply heard_nothing; assumption.
Qed.

Lemma bytes_prefix (p : list Z) : bytes_eqb (ztake (zlen D) p) D = true <-> D `prefix_of` p.
Proof.
  rewrite bytes_eqb_eq. split.
  - intros E. exists (zdrop (zlen D) p). rewrite <- E at 1. symmetry. apply ztake_zdrop.
  - intros [r ->]. apply ztake_app_exact.
Qed.

Lemma split_value_spec p : forall v r, split_value D p = (v, r) ->
  p = v ++ match r with Some q => 10 :: q | None => [] end /\ (forall q, r = Some q -> D `prefix_of` q) /\
  (forall a b, p = a ++ 10 :: b -> zlen a < zlen v -> ~ D `prefix_of` b).
Proof.
  induction p as [|c p IH]; intros v r; cbn [split_value].
  { intros [= <- <-]. split; [reflexivity|]. split; [discriminate|]. intros a b _ H. pose proof (zlen_nonneg a). change (zlen []) with 0 in H. lia. }
  destruct ((c =? 10) && bytes_eqb (ztake (zlen D) p) D) eqn:E.
  { intros [= <- <-]. apply andb_true_iff in E as [->%Z.eqb_eq E]. apply bytes_prefix in E. split; [reflexivity|].
    split; [intros q [= <-]; exact E|]. intros a b _ H. pose proof (zlen_nonneg a). change (zlen []) with 0 in H. lia. }
  destruct (split_value D p) as [v' r'] eqn:Ep. intros [= <- <-]. destruct (IH _ _ eq_refl) as (E1 & E2 & E3).
  split; [rewrite E1 at 1; reflexivity|]. split; [exact E2|]. intros a b Hab Hl. destruct a as [|d a].
  - injection Hab as -> ->. cbn [Z.eqb Pos.eqb andb] in E. intros H%bytes_prefix. congruence.
  - injection Hab as -> ->. apply (E3 a b eq_refl). rewrite !zlen_cons in Hl. lia.
Qed.

(** A stretch of the value that [split_value] finds. *)
Lemma value_stretch w j g l p v r u s : split_value D p = (v, r) -> v = u ++ s ->
  m_section g = SEC_VALUE -> m_valueFirstLine g = true -> in_line w j g l -> is_blocked (feed g u) = false ->
  m_section (feed g u) = SEC_VALUE /\ exists j l, in_line w j (feed g u) l.
Proof.
  intros Ep Ev Hs Hf Hl Hb. apply (value_run w u j g l Hs Hl Hb); [congruence|]. intros a b ->.
  destruct (split_value_spec p v r Ep) as (E1 & _ & E3). intros Hpre.
  apply (E3 a (b ++ s ++ match r with Some q => 10 :: q | None => [] end)).
  - rewrite E1, Ev, <- !app_assoc. reflexivity.
  - rewrite Ev, !zlen_app, zlen_cons. pose proof (zlen_nonneg b). pose proof (zlen_nonneg s). lia.
  - apply prefix_app_r, Hpre.
Qed.

(** A part with the name in its header and a NUL in its value. *)
Definition attack (part : list (list Z) * list Z) : Prop := (exists line, line ∈ part.1 /\ contains line) /\ 0 ∈ part.2.

Lemma contains_app w u : contains w \/ contains u -> contains (w ++ u).
Proof. intros [(x & y & ->)|(x & y & ->)]; [exists x, (y ++ u)|exists (w ++ x), y]; rewrite <- !app_assoc; reflexivity. Qed.

(** The first line of [l ++ u] when there is no line end in [l]. *)
Lemma whole_line (l u l1 rest : list Z) : 10 ∉ l -> 10 ∉ l1 -> l1 ++ 10 :: rest = l ++ u ->
  exists u1, u = u1 ++ 10 :: rest /\ 10 ∉ u1 /\ l1 = l ++ u1.
Proof.
  intros Hl H1 E. apply app_eq_inv in E as [(k & -> & ->)|(k & -> & E)]; [exists k; rewrite not_elem_of_app in H1; tauto|].
  destruct k as [|c k]; cbn in E; [subst u; exists []; rewrite !app_nil_r; rewrite app_nil_r in Hl; auto using not_elem_of_nil|].
  injection E as <- ->. destruct Hl. apply elem_of_app. right. left.
Qed.

Lemma long_line (l u l1 rest : list Z) : zlen l < zlen l1 -> l1 ++ rest = l ++ u -> 10 ∉ l1 ->
  exists u1, u = u1 ++ rest /\ 10 ∉ u1 /\ zlen l1 = zlen l + zlen u1.
Proof.
  intros Hl E H1. apply app_eq_inv in E as [(k & -> & ->)|(k & -> & _)].
  - exists k. rewrite zlen_app. rewrite not_elem_of_app in H1. tauto.
  - rewrite zlen_app in Hl. pose proof (zlen_nonneg k). lia.
Qed.

(** Outside of a value the bytes of a line are counted, and there are not too many. *)
Definition outside (g : guard) : Prop := m_section g = SEC_SCAN \/ m_section g = SEC_HEADER.

Lemma outside_live g : outside g -> is_blocked g = false.
Proof. unfold outside, is_blocked. intros [-> | ->]; reflexivity. Qed.

Lemma process_counts c g : outside g -> let g' := processLineByte c g in
  m_lineBytes g' = m_lineBytes g /\ m_phpLineLimit g' = m_phpLineLimit g /\ (is_blocked g' = false -> outside g').
Proof.
  unfold outside. intros Hs. cbv zeta. unfold processLineByte.
  destruct Hs as [Hs|Hs]; rewrite Hs, signature_not_position;
    generalize (m_signatureMatch (signatureByte c g)) (m_armed (signatureByte c g)); intros k a; destruct g; cbn in Hs; subst;
    unfold m_delimLen; cbn -[Z.eqb zlen znth Z.add]; repeat (case_match; cbn -[Z.eqb zlen znth Z.add]); split_and!; first [reflexivity | discriminate | auto].
Qed.

Lemma byte_counts c g : outside g -> c <> 10 -> is_blocked (feed_byte g c) = false -> let g' := feed_byte g c in
  outside g' /\ m_lineBytes g' = m_lineBytes g + 1 /\ m_phpLineLimit g' = m_phpLineLimit g /\ m_lineBytes g' < m_phpLineLimit g'.
Proof.
  intros Ho H10. rewrite feed_byte_live by (apply outside_live, Ho). cbv zeta.
  assert (Hp : forall h, outside h -> let g' := (plain_byte c h).2 in is_blocked g' = false ->
     outside g' /\ m_lineBytes g' = m_lineBytes h + 1 /\ m_phpLineLimit g' = m_phpLineLimit h /\ m_lineBytes g' < m_phpLineLimit g').
  { intros h Hoh. cbv zeta. unfold plain_byte, count_unless_value, countLineByte. rewrite (proj2 (Z.eqb_neq _ _) H10).
    replace (is_value h) with false by (unfold is_value; destruct Hoh as [-> | ->]; reflexivity). cbn [negb].
    set (k := set_lineBytes (m_lineBytes h + 1) h).
    assert (Hk : outside k /\ m_lineBytes k = m_lineBytes h + 1 /\ m_phpLineLimit k = m_phpLineLimit h) by (split; [exact Hoh|split; reflexivity]).
    clearbody k. destruct Hk as (K1 & K2 & K3). destruct (Z.ltb_spec (m_lineBytes k) (m_phpLineLimit k)); [|destruct (c =? 13); discriminate].
    destruct (c =? 13); cbn [snd].
    - intros _. split; [exact K1|]. split; [exact K2|]. split; [exact K3|assumption].
    - destruct (process_counts c k K1) as (P1 & P2 & P3). intros Hb. rewrite P1, P2. auto. }
  unfold one_byte. destruct (m_sawCR g); [|apply Hp; assumption]. rewrite (proj2 (Z.eqb_neq _ _) H10).
  destruct (process_counts 13 (set_sawCR false g) Ho) as (P1 & P2 & P3).
  destruct (is_blocked (processLineByte 13 (set_sawCR false g))) eqn:Eb; [cbn [snd]; congruence|].
  change (m_lineBytes (set_sawCR false g)) with (m_lineBytes g) in P1. change (m_phpLineLimit (set_sawCR false g)) with (m_phpLineLimit g) in P2.
  rewrite <- P1, <- P2. apply Hp. auto.
Qed.

Lemma line_counts u : forall g, outside g -> 10 ∉ u -> is_blocked (feed g u) = false -> m_lineBytes g < m_phpLineLimit g -> let g' := feed g u in
  m_phpLineLimit g' = m_phpLineLimit g /\ m_lineBytes g + zlen u < m_phpLineLimit g.
Proof.
  induction u as [|c u IH]; intros g Ho H10 Hb Hl; [change (zlen []) with 0; rewrite Z.add_0_r; auto|].
  apply not_elem_of_cons in H10 as [? ?]. rewrite feed_cons in *.
  destruct (byte_counts c g Ho ltac:(congruence) (feed_live _ [] u Hb)) as (B1 & B2 & B3 & B4).
  destruct (IH (feed_byte g c)) as (I1 & I2); [auto..|]. rewrite zlen_cons. cbv zeta. split; [congruence|lia].
Qed.

(** The limit does not change, and a line end starts a new count. *)
Lemma config_limit g h : config g = config h -> m_phpLineLimit g = m_phpLineLimit h.
Proof. intros [= _ E _]. exact E. Qed.

Lemma feed_limit u g : m_phpLineLimit (feed g u) = m_phpLineLimit g.
Proof. apply config_limit, feed_config. Qed.

Lemma finish_counts g : m_lineBytes (finishLine g) = 0.
Proof. unfold finishLine, resetLine. destruct (m_section g); repeat case_match; destruct g; reflexivity. Qed.

Lemma end_counts g : is_blocked g = false -> m_lineBytes (feed_byte g 10) = 0.
Proof.
  intros Hl. rewrite feed_byte_live by exact Hl. unfold one_byte, plain_byte. cbn [Z.eqb Pos.eqb]. destruct (m_sawCR g); apply finish_counts.
Qed.

(** A line of a header or before one, read while the guard does not block: it is not
    split, and the guard is at its end. *)
Lemma line_followed limit body line rest : line_read limit body line rest ->
  forall g w j l u, body = l ++ u -> 10 ∉ l -> outside g -> in_line w j g l -> m_lineBytes g = zlen l -> zlen l < limit -> m_phpLineLimit g = limit ->
  is_blocked (feed g u) = false ->
  exists h, in_line (w ++ zdrop j line) 0 h [] /\ m_section h = after_line (m_section g) line /\
    m_valueFirstLine h = (match m_section g with SEC_HEADER => bytes_eqb line [] || m_valueFirstLine g | _ => m_valueFirstLine g end) /\
    m_lineBytes h = 0 /\ m_phpLineLimit h = limit /\ is_blocked (feed h rest) = false.
Proof.
  intros [l1 rest1 H1|l1 text rest1 H1 Hlong] g w j l u E Hl Ho Hg Hn Hlt Hlim Hb.
  - destruct (whole_line l u l1 rest1 Hl H1 E) as (u1 & -> & Hu1 & ->).
    change (10 :: rest1) with ([10] ++ rest1) in Hb. rewrite app_assoc, feed_app in Hb.
    pose proof (feed_live _ [] rest1 Hb) as Hb1. cbn [feed fold_left] in Hb1. fold (feed g (u1 ++ [10])) in Hb1.
    assert (Hv : m_section g <> SEC_VALUE) by (destruct Ho as [-> | ->]; discriminate).
    pose proof (feed_live _ _ [10] Hb1) as Hb0.
    destruct (feed_line w j u1 g l) as (F1 & F2 & F3); [assumption..|].
    destruct (end_line w j (feed g u1) (l ++ u1) F3) as (E1 & E2 & E3). rewrite F1 in *.
    rewrite feed_app in Hb. cbn [feed fold_left] in Hb. fold (feed g u1) in Hb. fold (feed (feed_byte (feed g u1) 10) rest1) in Hb.
    exists (feed_byte (feed g u1) 10). split; [destruct Ho as [Ho|Ho]; rewrite Ho in E2; exact E2|]. split; [exact E1|]. split.
    { rewrite E3, F2. destruct Ho as [Ho|Ho]; rewrite Ho; reflexivity. }
    split; [apply end_counts, Hb0|]. split; [|exact Hb].
    change (feed_byte (feed g u1) 10) with (feed (feed g u1) [10]). rewrite !feed_limit. exact Hlim.
  - exfalso. destruct (long_line l u l1 rest1 ltac:(lia) E H1) as (u1 & -> & Hu1 & Hz).
    pose proof (feed_live g u1 rest1 Hb) as Hb1. destruct (line_counts u1 g Ho Hu1 Hb1) as (_ & Hc); lia.
Qed.

Lemma attack_sim limit o body part : zlen D < limit -> has_part D limit o body part ->
  match o with
  | None => forall g w j l u, body = l ++ u -> 10 ∉ l -> m_section g = SEC_SCAN -> in_line w j g l -> m_lineBytes g = zlen l -> zlen l < limit ->
      m_phpLineLimit g = limit -> is_blocked (feed g u) = false -> ~ attack part
  | Some hs => forall g w, m_section g = SEC_HEADER -> in_line w 0 g [] -> m_lineBytes g = 0 -> m_phpLineLimit g = limit ->
      ((exists line, line ∈ hs /\ contains line) -> contains w) -> is_blocked (feed g body) = false -> ~ attack part
  end.
Proof.
  intros HD. assert (H0 : 0 < limit) by (pose proof (zlen_nonneg D); lia).
  assert (Hstart : forall hs g w line body rest, line_read limit body line rest -> m_section g = SEC_HEADER -> in_line w 0 g [] -> m_lineBytes g = 0 ->
    m_phpLineLimit g = limit -> ((exists line, line ∈ hs /\ contains line) -> contains w) -> is_blocked (feed g body) = false ->
    exists h, in_line (w ++ line) 0 h [] /\ m_section h = after_line SEC_HEADER line /\ m_valueFirstLine h = bytes_eqb line [] || m_valueFirstLine g /\
      m_lineBytes h = 0 /\ m_phpLineLimit h = limit /\ is_blocked (feed h rest) = false /\
      ((exists l, l ∈ hs ++ [line] /\ contains l) -> contains (w ++ line))).
  { intros hs g w line body0 rest L Hs Hg Hn Hlim Hw Hb.
    destruct (line_followed limit body0 line rest L g w 0 [] body0) as (h & A1 & A2 & A3 & A4 & A5 & A6); try assumption; try reflexivity; try apply not_elem_of_nil.
    - right. exact Hs.
    - exists h. rewrite Hs in A2, A3. rewrite zdrop_0 in A1. split_and!; auto.
      intros (l & Hin & Hc). apply contains_app. apply elem_of_app in Hin as [Hin|Hin%list_elem_of_singleton]; [left; eauto|right; congruence]. }
  induction 1 as [body line rest part L _ IH|hs body line rest part L Hne _ IH|hs body rest v next L Ev|hs body rest v next part L Ev _ IH].
  - intros g w j l u E Hl Hs Hg Hn Hlt Hlim Hb.
    destruct (line_followed limit body line rest L g w j l u E Hl (or_introl Hs) Hg Hn Hlt Hlim Hb) as (h & A1 & A2 & _ & A4 & A5 & A6).
    rewrite Hs in A2. cbn [after_line] in A2. destruct (bytes_eqb line D).
    + apply (IH h _ A2 A1 A4 A5); [set_solver|exact A6].
    + apply (IH h _ 0 [] rest eq_refl (not_elem_of_nil 10) A2 A1 A4 H0 A5 A6).
  - intros g w Hs Hg Hn Hlim Hw Hb. destruct (Hstart hs g w line body rest L Hs Hg Hn Hlim Hw Hb) as (h & A1 & A2 & _ & A4 & A5 & A6 & A7).
    apply (IH h (w ++ line)); auto. rewrite A2. cbn. destruct (bytes_eqb line []) eqn:Eq; [apply bytes_eqb_eq in Eq; contradiction|reflexivity].
  - intros g w Hs Hg Hn Hlim Hw Hb. destruct (Hstart hs g w [] body rest L Hs Hg Hn Hlim Hw Hb) as (h & A1 & A2 & A3 & _ & _ & A6 & A7). cbn in A2, A3.
    intros [Hline Hz]. cbn [fst snd] in *. assert (Hw' : contains (w ++ [])) by (apply A7; destruct Hline as (l & ? & ?); exists l; set_solver).
    destruct (split_value_spec _ _ _ Ev) as (Er & _ & _).
    destruct (memchr 0 v) as [k|] eqn:Ek; [|apply memchr_None in Ek; contradiction]. apply memchr_Some in Ek as (_ & Ek & _).
    rewrite Er, Ek, <- app_assoc, feed_app in A6. cbn [app] in A6. rewrite feed_cons in A6.
    pose proof (feed_live _ [] _ A6) as Hb2. cbn [feed fold_left] in Hb2.
    destruct (value_stretch (w ++ []) 0 h [] rest v next (ztake k v) (0 :: zdrop (k + 1) v) Ev Ek A2 A3 A1) as (S1 & j' & l' & S2).
    { apply (feed_live _ _ [0]). rewrite feed_app. exact Hb2. }
    rewrite (value_nul (w ++ []) j' _ l' S2 S1 Hw') in Hb2. discriminate.
  - intros g w Hs Hg Hn Hlim Hw Hb. destruct (Hstart hs g w [] body rest L Hs Hg Hn Hlim Hw Hb) as (h & A1 & A2 & A3 & _ & A5 & A6 & _). cbn in A2, A3.
    destruct (split_value_spec _ _ _ Ev) as (Er & Hp & _). destruct (Hp next eq_refl) as [r Hr]. rewrite Er, Hr, feed_app in A6. rewrite feed_cons, feed_app in A6.
    pose proof (feed_live _ [] _ A6) as Hb2. cbn [feed fold_left] in Hb2. fold (feed (feed_byte (feed h v) 10) D) in Hb2.
    pose proof (feed_live _ [] _ Hb2) as Hb3. cbn [feed fold_left] in Hb3.
    destruct (value_stretch (w ++ []) 0 h [] rest v _ v [] Ev (eq_sym (app_nil_r v)) A2 A3 A1) as (S1 & j' & l' & S2).
    { apply (feed_live _ _ [10]). rewrite feed_app. exact Hb3. }
    destruct (end_line (w ++ []) j' _ l' S2) as (T1 & T2 & T3). rewrite S1 in T1, T2, T3. cbn [after_line] in T1.
    destruct (delim_run (w ++ []) _ T1 T3 T2 Hb2) as (D1 & D2 & D3).
    apply (IH (feed (feed_byte (feed h v) 10) D) [] (zlen D) D r Hr (proj1 (proj2 D_chars)) D1 D2 D3 HD); [|exact A6].
    rewrite feed_limit. change (feed_byte (feed h v) 10) with (feed (feed h v) [10]). rewrite !feed_limit. exact A5.
Qed.

End Framing.

(** ** What the guard promises *)

Lemma scan_chars f p q x : scan f p = Some q -> x ∈ q -> x ∈ p.
Proof.
  revert q. induction p as [|c p IH]; intros q; cbn [scan]; (destruct (f _); [intros [= <-]; auto|]); [discriminate|].
  intros E H. apply elem_of_cons. right. exact (IH _ E H).
Qed.

Lemma span_chars f p x : x ∈ (span f p).1 \/ x ∈ (span f p).2 <-> x ∈ p.
Proof.
  induction p as [|c p IH]; cbn [span]; [set_solver|]. destruct (f c); [|set_solver].
  destruct (span f p) as [a b]. cbn [fst snd] in *. set_solver.
Qed.

Lemma zdrop_chars n (p : list Z) x : x ∈ zdrop n p -> x ∈ p.
Proof. intros H. rewrite <- (ztake_zdrop n p). apply elem_of_app. auto. Qed.

Lemma boundary_chars ct b x : boundary_of ct = Some b -> x ∈ b -> x ∈ ct.
Proof.
  unfold boundary_of, upto. intros E H.
  destruct (match scan is_boundary ct with Some p => Some p | None => scan is_boundary_ci ct end) as [p|] eqn:Ep; [|discriminate].
  assert (Hp : x ∈ p -> x ∈ ct) by (destruct (scan is_boundary ct) as [q|] eqn:E1; [injection Ep as ->|]; eapply scan_chars; eassumption).
  apply Hp, (zdrop_chars 8), (span_chars (fun c => negb (existsb (Z.eqb c) [61]))). right.
  destruct ((span _ (zdrop 8 p)).2) as [|d [|c q]]; [discriminate..|]. apply elem_of_cons. right.
  destruct (c =? 34).
  - apply elem_of_cons. right. apply (span_chars (fun c => negb (existsb (Z.eqb c) [34]))). left.
    destruct (span _ q) as [a [|e r]]; [discriminate|]. injection E as ->. exact H.
  - injection E as <-. eapply span_chars. left. exact H.
Qed.

Lemma init_delim ct limit : m_invalidBoundary (init ct limit) = false ->
  exists b, boundary_of ct = Some b /\ m_pDelim (init ct limit) = [45; 45] ++ b.
Proof.
  unfold init. destruct (boundary_of ct) as [b|]; [|discriminate]. destruct (_ || _); [discriminate|]. intros _. eauto.
Qed.

Lemma init_line ct limit : m_invalidBoundary (init ct limit) = false ->
  let D := m_pDelim (init ct limit) in m_section (init ct limit) = SEC_SCAN /\ in_line D [] 0 (init ct limit) [].
Proof.
  intros Hi. destruct (init_delim ct limit Hi) as (b & _ & ED). cbv zeta.
  assert (Hs : m_section (init ct limit) = SEC_SCAN /\ m_sawCR (init ct limit) = false /\ m_lineDelimBroken (init ct limit) = false /\
    m_lineDelimFull (init ct limit) = false /\ m_delimMatch (init ct limit) = 0 /\ m_signatureMatch (init ct limit) = 0 /\
    m_armed (init ct limit) = false).
  { unfold init. destruct (boundary_of ct); [destruct (_ || _)|]; cbn; auto 10. }
  destruct Hs as (Hs & Hr & Hb & Hf & Hm & Hk & Ha). split; [exact Hs|]. exists []. rewrite Hr, app_nil_r.
  split; [reflexivity|]. split; [reflexivity|]. split; [reflexivity|]. change (zlen (@nil Z)) with 0. split; [lia|]. rewrite Hs.
  split; [|rewrite zdrop_0; apply heard_nothing; assumption]. unfold tracks. rewrite Hb, Hf, Hm. change (zlen (@nil Z)) with 0.
  rewrite ztake_0. split_and!; [reflexivity..|]. rewrite ED, zlen_app. change (zlen [45; 45]) with 2. pose proof (zlen_nonneg b). lia.
Qed.

(** The answer to the last chunk is the verdict on the whole body. *)
Lemma last_answer ct limit chunks : 0 <= limit -> chunks <> [] ->
  last (inspect_all chunks (init ct limit)) = Some (verdict ct limit (concat chunks)).
Proof.
  intros H0 Hne. rewrite (inspect_all_seen ct limit chunks _ [] H0 (seen_init ct limit H0)).
  destruct (exists_last Hne) as (cs & c & ->). rewrite length_app, Nat.add_1_r, seq_S, map_app. cbn [map]. rewrite last_snoc. cbn [app Nat.add].
  rewrite take_ge by (rewrite length_app; cbn; lia). reflexivity.
Qed.

(** The reader's buffer: 5120 bytes, or the boundary and six bytes more. *)
Definition reader_limit (D : list Z) : Z := Z.max PHP_MULTIPART_BUFFER_SIZE (zlen D + 4).

Lemma init_limit ct limit : m_invalidBoundary (init ct limit) = false ->
  m_phpLineLimit (init ct limit) = reader_limit (m_pDelim (init ct limit)) /\ m_lineBytes (init ct limit) = 0.
Proof.
  unfold init. destruct (boundary_of ct) as [b|]; [|discriminate]. destruct (_ || _); [discriminate|]. intros _.
  unfold reader_limit, m_delimLen. cbn -[zlen Z.ltb app Z.max Z.add]. destruct (Z.ltb_spec (zlen ([45; 45] ++ b) + 4) PHP_MULTIPART_BUFFER_SIZE); split; try reflexivity; cbn -[zlen Z.max Z.add app]; lia.
Qed.

(** C35: the attack does not get through.  Take a content type with a usable boundary (a
    header value: no NUL, CR or LF), and a body that is inspected as a whole: there is no
    scan budget, or the body is not longer than it.  If a reader with the framing that the
    class mirrors, which may split a line once the line fills its buffer, can find a part
    in the body whose header has the name PHP_SESSION_UPLOAD_PROGRESS and whose value has
    a NUL, then [inspect] has asked for the request to be blocked by the end of the body,
    wherever the chunks were cut and whatever is in front of the part. *)
Theorem attack_blocked ct limit chunks part : 0 <= limit -> 0 ∉ ct /\ 10 ∉ ct /\ 13 ∉ ct ->
  m_invalidBoundary (init ct limit) = false -> limit = 0 \/ zlen (concat chunks) <= limit ->
  has_part (m_pDelim (init ct limit)) (reader_limit (m_pDelim (init ct limit))) None (concat chunks) part -> attack part ->
  last (inspect_all chunks (init ct limit)) = Some true.
Proof.
  intros H0 Hct Hi Hl Hin Hatt. set (D := m_pDelim (init ct limit)) in *. set (L := reader_limit D) in *.
  assert (HL : zlen D < L /\ 0 < L) by (unfold L, reader_limit, PHP_MULTIPART_BUFFER_SIZE; lia).
  assert (Hne : chunks <> []).
  { intros ->. cbn [concat] in Hin. inversion Hin as [? line rest ? Lr _ E1 E2 E3| | |]. inversion Lr as [l r _ E|l t r _ Hz E]; [by destruct l|].
    destruct l; [|discriminate]. change (zlen (@nil Z)) with 0 in Hz. lia. }
  rewrite last_answer by assumption. f_equal.
  unfold verdict. rewrite Hi. assert (Es : scanned limit (concat chunks) = concat chunks).
  { unfold scanned. destruct (Z.eqb_spec limit 0) as [|Hn]; [reflexivity|]. apply ztake_all. destruct Hl; [contradiction|assumption]. }
  rewrite Es. clear Es. destruct (init_delim ct limit Hi) as (b & Eb & ED). destruct (init_line ct limit Hi) as [Hs Hg]. destruct (init_limit ct limit Hi) as [Hlim Hn0]. fold D in ED, Hg, Hlim. fold L in Hlim.
  destruct (is_blocked (feed (init ct limit) (concat chunks))) eqn:E; [reflexivity|]. exfalso.
  assert (Hc : forall x, x ∈ D -> x = 45 \/ x ∈ ct).
  { intros x. rewrite ED, !elem_of_app, !elem_of_cons. pose proof (boundary_chars ct b x Eb). set_solver. }
  assert (Hd : 0 ∉ D /\ 10 ∉ D /\ 13 ∉ D).
  { split_and!; intros H%Hc; destruct H as [|H]; try discriminate; tauto. }
  assert (Hn : D <> []) by (rewrite ED; discriminate).
  exact (attack_sim D Hn Hd L None (concat chunks) part (proj1 HL) Hin _ [] 0 [] _ eq_refl (not_elem_of_nil 10) Hs Hg Hn0 (proj2 HL) Hlim E Hatt).
Qed.

Definition sample_type : list Z := bs "multipart/form-data; boundary=XX".
Definition sample_header : list Z := bs "Content-Disposition: form-data; name=PHP_SESSION_UPLOAD_PROGRESS".

Lemma attack_blocked_witness :
  let body := bs "preamble" ++ CRLF ++ bs "--XX" ++ CRLF ++ sample_header ++ CRLF ++ CRLF ++ [65; 0; 66] ++ CRLF ++ bs "--XX--" in
  last (inspect_all [ztake 30 body; zdrop 30 body] (init sample_type 4096)) = Some true.
Proof.
  apply (attack_blocked sample_type 4096 _ ([sample_header], [65; 0; 66; 13])); [..|apply (parts_read 200)|]; vm_compute.
  - discriminate.
  - split_and!; intros H; repeat (apply elem_of_cons in H as [H|H]; [discriminate|]); apply elem_of_nil in H; exact H.
  - reflexivity.
  - right. discriminate.
  - left.
  - split; [|right; left]. exists (sample_header). split; [left|]. exists (bs "Content-Disposition: form-data; name="), []. reflexivity.
Defined.

(** ** Uploads that do not name the field *)

(** The bytes of an upload: the delimiter, then for each part the header lines, a
    blank line, the value and the delimiter, and the end mark. *)
Definition header_text (hs : list (list Z)) : list Z := concat (map (fun h => h ++ CRLF) hs).
Fixpoint part_text (D : list Z) (ps : list (list (list Z) * list Z)) : list Z :=
  match ps with
  | [] => [45; 45] ++ CRLF
  | (hs, v) :: ps => CRLF ++ header_text hs ++ CRLF ++ v ++ CRLF ++ D ++ part_text D ps
  end.
Definition upload (D : list Z) (ps : list (list (list Z) * list Z)) : list Z := D ++ part_text D ps.

(** A part with short header lines that do not have the name, and any value in
    which no line after the first starts with the delimiter. *)
Record harmless (D : list Z) (part : list (list Z) * list Z) : Prop := {
  harmless_lines : Forall (fun h => h <> [] /\ 0 ∉ h /\ 10 ∉ h /\ 13 ∉ h /\ zlen h < 5119) part.1;
  harmless_name : ~ contains (D ++ concat part.1);
  harmless_value : forall a b, part.2 ++ [13] = a ++ 10 :: b -> ~ D `prefix_of` b }.

Section Innocent.
Context (D : list Z).
Hypothesis D_ne : D <> [].
Hypothesis D_chars : 0 ∉ D /\ 10 ∉ D /\ 13 ∉ D.

Lemma process_safe c g : outside g -> c <> 0 -> let g' := processLineByte c g in
  outside g' /\ m_lineBytes g' = m_lineBytes g /\ m_phpLineLimit g' = m_phpLineLimit g.
Proof.
  unfold outside. intros Hs Hc. apply Z.eqb_neq in Hc. cbv zeta. unfold processLineByte.
  destruct Hs as [Hs|Hs]; rewrite Hs, signature_not_position; rewrite ?Hc, ?andb_false_r;
    generalize (m_signatureMatch (signatureByte c g)) (m_armed (signatureByte c g)); intros k a; destruct g; cbn in Hs; subst;
    unfold m_delimLen; cbn -[Z.eqb zlen znth Z.add]; rewrite ?Hc, ?andb_false_r; repeat (case_match; cbn -[Z.eqb zlen znth Z.add]); auto.
Qed.

Lemma byte_safe c g : outside g -> c <> 10 -> c <> 0 -> m_lineBytes g + 1 < m_phpLineLimit g -> let g' := feed_byte g c in
  outside g' /\ m_lineBytes g' = m_lineBytes g + 1 /\ m_phpLineLimit g' = m_phpLineLimit g.
Proof.
  intros Ho H10 H0 Hl. cbv zeta. rewrite feed_byte_live by (apply outside_live, Ho).
  assert (Hp : forall h, outside h -> m_lineBytes h + 1 < m_phpLineLimit h -> let g' := (plain_byte c h).2 in
     outside g' /\ m_lineBytes g' = m_lineBytes h + 1 /\ m_phpLineLimit g' = m_phpLineLimit h).
  { intros h Hoh Hlh. cbv zeta. unfold plain_byte, count_unless_value, countLineByte. rewrite (proj2 (Z.eqb_neq _ _) H10).
    replace (is_value h) with false by (unfold is_value; destruct Hoh as [-> | ->]; reflexivity). cbn [negb].
    set (k := set_lineBytes (m_lineBytes h + 1) h).
    assert (Hk : outside k /\ m_lineBytes k = m_lineBytes h + 1 /\ m_phpLineLimit k = m_phpLineLimit h) by (split; [exact Hoh|split; reflexivity]).
    destruct Hk as (K1 & K2 & K3). rewrite K2, K3, (proj2 (Z.ltb_lt _ _) Hlh). destruct (c =? 13); cbn [snd].
    - split; [exact K1|]. split; [exact K2|exact K3].
    - rewrite <- K2, <- K3. exact (process_safe c k K1 H0). }
  unfold one_byte. destruct (m_sawCR g); [|apply Hp; assumption]. rewrite (proj2 (Z.eqb_neq _ _) H10).
  destruct (process_safe 13 (set_sawCR false g) Ho ltac:(discriminate)) as (P1 & P2 & P3). rewrite (outside_live _ P1).
  change (m_lineBytes (set_sawCR false g)) with (m_lineBytes g) in P2. change (m_phpLineLimit (set_sawCR false g)) with (m_phpLineLimit g) in P3.
  rewrite <- P2, <- P3. apply Hp; [exact P1|]. rewrite P2, P3. exact Hl.
Qed.

Lemma text_safe u : forall g, outside g -> 10 ∉ u -> 0 ∉ u -> m_lineBytes g + zlen u < m_phpLineLimit g -> let g' := feed g u in
  outside g' /\ m_lineBytes g' = m_lineBytes g + zlen u /\ m_phpLineLimit g' = m_phpLineLimit g.
Proof.
  induction u as [|c u IH]; intros g Ho H10 H0 Hl; [change (zlen []) with 0; rewrite Z.add_0_r; auto|].
  apply not_elem_of_cons in H10 as [? ?], H0 as [? ?]. rewrite zlen_cons in Hl. pose proof (zlen_nonneg u).
  destruct (byte_safe c g) as (B1 & B2 & B3); [auto..|lia|]. rewrite feed_cons, zlen_cons.
  destruct (IH (feed_byte g c)) as (I1 & I2 & I3); [auto..|rewrite B2, B3; lia|]. split; [exact I1|]. split; [rewrite I2, B2; lia|congruence].
Qed.

(** A line with its end, outside of a value. *)
Lemma line_safe w j g l u : outside g -> in_line D w j g l -> 10 ∉ u -> 0 ∉ u -> m_lineBytes g + zlen u + 1 < m_phpLineLimit g ->
  13 ∉ l ++ u -> let g' := feed g (u ++ CRLF) in
  m_section g' = after_line D (m_section g) (l ++ u) /\ in_line D (w ++ zdrop j (l ++ u)) 0 g' [] /\
  m_phpLineLimit g' = m_phpLineLimit g /\ m_lineBytes g' = 0 /\ m_valueFirstLine g' = (is_value g' || m_valueFirstLine g).
Proof.
  intros Ho Hg H10 H0 Hl H13. cbv zeta. change CRLF with ([13] ++ [10]). rewrite app_assoc, feed_app.
  destruct (text_safe (u ++ [13]) g Ho) as (T1 & T2 & T3); [set_solver..|rewrite zlen_app; change (zlen [13]) with 1; lia|].
  assert (Hv : m_section g <> SEC_VALUE) by (destruct Ho as [-> | ->]; discriminate).
  destruct (feed_line D D_ne D_chars w j (u ++ [13]) g l Hv) as (F1 & F2 & F3); [set_solver|exact Hg|apply outside_live, T1|].
  destruct (end_line D D_ne D_chars w j _ _ F3) as (E1 & E2 & E3). rewrite F1, app_assoc, strip_cr_snoc in *.
  set (h := feed g (u ++ [13])) in *. cbn [feed fold_left].
  assert (Ef : feed_byte h 10 = finishLine (set_sawCR false h) \/ feed_byte h 10 = finishLine h).
  { rewrite feed_byte_live by (apply outside_live, T1). unfold one_byte, plain_byte. destruct (m_sawCR h); auto. }
  assert (Ec : m_phpLineLimit (feed_byte h 10) = m_phpLineLimit h /\ m_lineBytes (feed_byte h 10) = 0).
  { assert (Hfin : forall k, m_phpLineLimit (finishLine k) = m_phpLineLimit k /\ m_lineBytes (finishLine k) = 0).
    { intros k. unfold finishLine. destruct k as [? ? ? ? s ? ? ? ? ? ? ? full broken content ?]. destruct s, full, broken, content; auto. }
    destruct Ef as [-> | ->]; rewrite !(proj1 (Hfin _)), !(proj2 (Hfin _)); auto. }
  split; [exact E1|]. split; [destruct Ho as [E|E]; rewrite E in E2; exact E2|]. split; [rewrite (proj1 Ec); exact T3|].
  split; [exact (proj2 Ec)|]. unfold is_value. rewrite E3, E1, F2. destruct Ho as [-> | ->]; cbn;
    [destruct (bytes_eqb (l ++ u) D)|destruct (bytes_eqb (l ++ u) [])]; reflexivity.
Qed.

(** A value byte is let through when the name has not been heard. *)
Lemma unarmed_byte w j g l c : in_line D w j g l -> m_section g = SEC_VALUE -> ~ contains w -> is_blocked (feed_byte g c) = false.
Proof.
  intros (t & _ & _ & Ht) Hs Hw.
  assert (Hp : forall d h, m_section h = SEC_VALUE -> m_armed h = false -> is_blocked (processLineByte d h) = false).
  { intros d h Es Ea. unfold processLineByte, m_delimLen. rewrite Es. destruct h. cbn in Es, Ea. subst. cbn -[Z.eqb zlen znth Z.add].
    repeat (case_match; cbn -[Z.eqb zlen znth Z.add]); auto. }
  assert (Hq : forall h, m_section h = SEC_VALUE -> m_armed h = false -> is_blocked (plain_byte c h).2 = false).
  { intros h Es Ea. unfold plain_byte, count_unless_value, is_value. rewrite Es. cbn [negb]. destruct (c =? 13); [destruct h; cbn in Es |- *; subst; reflexivity|].
    destruct (c =? 10); [destruct h; cbn in Es; subst; reflexivity|]. apply Hp; assumption. }
  assert (Ha : forall h u, line_state D w j h u -> m_section h = SEC_VALUE -> m_armed h = false).
  { intros h u (_ & _ & Hh) Es. rewrite Es in Hh. destruct Hh as (_ & _ & Hh). destruct (m_armed h); [|reflexivity]. destruct Hw. apply Hh. reflexivity. }
  rewrite feed_byte_live by (eapply line_state_live; eassumption). unfold one_byte. destruct (m_sawCR g); [|eauto].
  set (h := set_sawCR false g). assert (Hh : line_state D w j h t) by (eapply line_state_ext; try eassumption; reflexivity).
  destruct (c =? 10); [subst h; destruct g; cbn in Hs; subst; reflexivity|].
  assert (Hb : is_blocked (processLineByte 13 h) = false) by (apply Hp; [exact Hs|exact (Ha h t Hh Hs)]). rewrite Hb.
  destruct (process_line D D_ne D_chars w j h t 13 Hh Hb) as (E1 & _ & _ & E4).
  { intros _. right. intros E. apply D_chars. rewrite <- E. set_solver. }
  apply Hq; [rewrite E1; exact Hs|]. eapply Ha; [exact E4|rewrite E1; exact Hs].
Qed.

Lemma unarmed_run w j u : forall g l, m_section g = SEC_VALUE -> in_line D w j g l -> ~ contains w ->
  (m_valueFirstLine g = false -> ~ D `prefix_of` l ++ u) -> (forall a b, u = a ++ 10 :: b -> ~ D `prefix_of` b) ->
  is_blocked (feed g u) = false /\ m_section (feed g u) = SEC_VALUE /\ exists j l, in_line D w j (feed g u) l.
Proof.
  intros g l Hs Hl Hw. induction u as [|c u IH] using rev_ind; intros H1 H2.
  { split; [unfold is_blocked; cbn; rewrite Hs; reflexivity|eauto]. }
  destruct IH as (I1 & I2 & j' & l' & I3).
  - intros Hf [r E]. apply (H1 Hf). exists (r ++ [c]). rewrite app_assoc, E, <- app_assoc. reflexivity.
  - intros a b -> Hp. apply (H2 a (b ++ [c])); [rewrite <- app_assoc; reflexivity|]. apply prefix_app_r, Hp.
  - assert (Hb : is_blocked (feed g (u ++ [c])) = false) by (rewrite feed_app; exact (unarmed_byte w j' _ l' c I3 I2 Hw)).
    split; [exact Hb|]. exact (value_run D D_ne D_chars w (u ++ [c]) j g l Hs Hl Hb H1 H2).
Qed.

Lemma unarmed_delim w g : m_section g = SEC_VALUE -> m_valueFirstLine g = false -> in_line D w 0 g [] -> ~ contains w ->
  is_blocked (feed g D) = false.
Proof.
  intros Hs Hf Hl Hw. destruct (exists_last D_ne) as (p & c & ED).
  destruct (unarmed_run w 0 p g [] Hs Hl Hw) as (I1 & I2 & j & l & I3).
  - intros _ [r E]. rewrite ED in E. apply (f_equal length) in E. rewrite !length_app in E. cbn in E. lia.
  - intros a b -> _. destruct D_chars as (_ & H & _). apply H. rewrite ED. set_solver.
  - rewrite ED, feed_app. exact (unarmed_byte w j _ l c I3 I2 Hw).
Qed.

(** What the lines outside of values need, at the start of a line. *)
Definition ready (w : list Z) (g : guard) : Prop := in_line D w 0 g [] /\ m_lineBytes g = 0 /\ 5120 <= m_phpLineLimit g.

Lemma headers_safe hs : forall w g, m_section g = SEC_HEADER -> ready w g ->
  Forall (fun h => h <> [] /\ 0 ∉ h /\ 10 ∉ h /\ 13 ∉ h /\ zlen h < 5119) hs ->
  let g' := feed g (header_text hs) in m_section g' = SEC_HEADER /\ ready (w ++ concat hs) g'.
Proof.
  induction hs as [|h hs IH]; intros w g Hs (Hg & Hb & Hl) Hf; [cbn; rewrite app_nil_r; split; [|split]; auto|].
  apply Forall_cons in Hf as [(N1 & N2 & N3 & N4 & N5) Hf]. cbv zeta.
  change (header_text (h :: hs)) with ((h ++ CRLF) ++ header_text hs). rewrite feed_app.
  destruct (line_safe w 0 g [] h) as (L1 & L2 & L3 & L4 & _); [right; exact Hs|assumption..|lia|assumption|].
  rewrite Hs in L1. cbn [app after_line] in L1. rewrite zdrop_0 in L2. cbn [app] in L2.
  assert (E : bytes_eqb h [] = false) by (apply not_true_iff_false; rewrite bytes_eqb_eq; exact N1). rewrite E in L1.
  cbn [concat]. rewrite app_assoc. apply IH; [exact L1| |exact Hf]. split; [exact L2|]. rewrite L3, L4. auto.
Qed.

(** From the delimiter to the end of the upload; [j] is 0 for the first. *)
Lemma parts_safe ps : forall j g, 0 <= j -> m_section g = SEC_SCAN -> in_line D [] j g D -> m_lineBytes g = zlen D ->
  5120 <= m_phpLineLimit g -> zlen D + 4 <= m_phpLineLimit g -> Forall (harmless D) ps -> is_blocked (feed g (part_text D ps)) = false.
Proof.
  induction ps as [|[hs v] ps IH]; intros j g Hj Hs Hg Hb H5 H4 Hf.
  - cbn [part_text]. destruct (line_safe [] j g D [45; 45]) as (L1 & _).
    + left. exact Hs.
    + exact Hg.
    + set_solver.
    + set_solver.
    + rewrite Hb. change (zlen [45; 45]) with 2. lia.
    + destruct D_chars as (_ & _ & H). rewrite elem_of_app. set_solver.
    + unfold is_blocked. rewrite L1, Hs. cbn [after_line]. destruct (bytes_eqb _ _); reflexivity.
  - apply Forall_cons in Hf as [[N1 N2 N3] Hf]. cbn [fst snd] in *. cbn [part_text].
    rewrite (app_assoc v CRLF), feed_app, feed_app, feed_app. 
    destruct (line_safe [] j g D []) as (L1 & L2 & L3 & L4 & _).
    { left. exact Hs. } { exact Hg. } { set_solver. } { set_solver. } { rewrite Hb. change (zlen []) with 0. lia. }
    { rewrite app_nil_r. apply D_chars. }
    rewrite app_nil_r in L1, L2. cbn [app] in L1, L2, L3, L4. rewrite Hs in L1. cbn [after_line] in L1.
    rewrite (proj2 (bytes_eqb_eq D D) eq_refl) in L1. set (g1 := feed g CRLF) in *.
    destruct (headers_safe hs (zdrop j D) g1 L1) as (M1 & M2 & M3 & M4); [split; [exact L2|split; [exact L4|rewrite L3; exact H5]]|exact N1|].
    set (g2 := feed g1 (header_text hs)) in *. set (w := zdrop j D ++ concat hs) in *.
    destruct (line_safe w 0 g2 [] []) as (P1 & P2 & P3 & _ & P5).
    { right. exact M1. } { exact M2. } { set_solver. } { set_solver. } { rewrite M3. change (zlen []) with 0. lia. } { set_solver. }
    cbn [app] in P1, P2, P3, P5. rewrite zdrop_0, app_nil_r in P2. rewrite M1 in P1. cbn [after_line bytes_eqb] in P1. set (g3 := feed g2 CRLF) in *.
    unfold is_value in P5. rewrite P1 in P5. cbn [orb] in P5.
    assert (Hw : ~ contains w).
    { intros H. apply N2. rewrite <- (ztake_zdrop j D), <- app_assoc. apply contains_app. right. exact H. }
    rewrite feed_app. change CRLF with ([13] ++ [10]). rewrite app_assoc, feed_app.
    destruct (unarmed_run w 0 (v ++ [13]) g3 [] P1 P2 Hw) as (R1 & R2 & j' & l & R3); [congruence|exact N3|].
    set (g4 := feed g3 (v ++ [13])) in *. change (feed g4 [10]) with (feed_byte g4 10).
    destruct (end_line D D_ne D_chars w j' g4 l R3) as (E1 & E2 & E3). rewrite R2 in E1, E2, E3. cbn [after_line] in E1.
    set (g5 := feed_byte g4 10) in *. rewrite feed_app.
    destruct (delim_run D D_ne D_chars w g5 E1 E3 E2 (unarmed_delim w g5 E1 E3 E2 Hw)) as (D1 & D2 & D3).
    assert (Hlim : m_phpLineLimit (feed g5 D) = m_phpLineLimit g).
    { pose proof (feed_config D g5) as C1. pose proof (feed_byte_config g4 10) as C2. pose proof (feed_config (v ++ [13]) g3) as C3.
      pose proof (feed_config CRLF g2) as C4. pose proof (feed_config (header_text hs) g1) as C5. pose proof (feed_config CRLF g) as C6.
      unfold config in C1, C2, C3, C4, C5, C6. fold g1 g2 g3 g4 g5 in C1, C2, C3, C4, C5, C6. congruence. }
    apply (IH (zlen D) (feed g5 D)); rewrite ?Hlim; auto. apply zlen_nonneg.
Qed.
End Innocent.

(** Uploads that do not name the field get through.  A body in the form of an
    upload whose header lines are short and do not have the name, with binary
    values of any length and content, is never blocked, wherever the chunks are
    cut and whatever the budget. *)
Theorem innocent_accepted ct limit chunks ps : 0 <= limit -> 0 ∉ ct /\ 10 ∉ ct /\ 13 ∉ ct ->
  m_invalidBoundary (init ct limit) = false -> concat chunks = upload (m_pDelim (init ct limit)) ps ->
  Forall (harmless (m_pDelim (init ct limit))) ps -> Forall (eq false) (inspect_all chunks (init ct limit)).
Proof.
  intros H0 Hct Hi Hbody Hps. rewrite (inspect_all_seen ct limit chunks _ [] H0 (seen_init ct limit H0)). cbn [app].
  destruct (init_delim ct limit Hi) as (b & Eb & ED). destruct (init_line ct limit Hi) as [Hs Hg].
  assert (Hd : 0 ∉ m_pDelim (init ct limit) /\ 10 ∉ m_pDelim (init ct limit) /\ 13 ∉ m_pDelim (init ct limit)).
  { assert (Hc : forall x, x ∈ m_pDelim (init ct limit) -> x = 45 \/ x ∈ ct).
    { intros x. rewrite ED, !elem_of_app, !elem_of_cons. pose proof (boundary_chars ct b x Eb). set_solver. }
    split_and!; intros H%Hc; destruct H as [|H]; try discriminate; tauto. }
  assert (Hn : m_pDelim (init ct limit) <> []) by (rewrite ED; discriminate).
  assert (Hlim : 5120 <= m_phpLineLimit (init ct limit) /\ zlen (m_pDelim (init ct limit)) + 4 <= m_phpLineLimit (init ct limit) /\
    m_lineBytes (init ct limit) = 0).
  { revert Hi. unfold init. rewrite Eb. destruct (_ || _); [discriminate|]. intros _. unfold PHP_MULTIPART_BUFFER_SIZE, m_delimLen. cbn -[zlen Z.ltb app].
    destruct (Z.ltb_spec (zlen ([45; 45] ++ b) + 4) 5120); cbn -[zlen app]; lia. }
  set (g := init ct limit) in *. set (D := m_pDelim g) in *. destruct Hlim as (L1 & L2 & L3).
  assert (Hall : is_blocked (feed g (concat chunks)) = false).
  { rewrite Hbody. unfold upload. rewrite feed_app. destruct (text_safe D g) as (T1 & T2 & T3); [left; exact Hs|tauto..|lia|].
    destruct (feed_line D Hn Hd [] 0 D g []) as (F1 & _ & F3); [congruence|tauto|exact Hg|apply outside_live; assumption|].
    apply (parts_safe D Hn Hd ps 0); [lia|congruence|exact F3|rewrite T2; lia|lia..|exact Hps]. }
  apply Forall_forall. intros r (k & <- & _)%list_elem_of_In%in_map_iff. unfold verdict. fold g. rewrite Hi.
  set (body := scanned limit (concat (take k chunks))). assert (E : exists tail, concat chunks = body ++ tail).
  { assert (Ec : concat chunks = concat (take k chunks) ++ concat (drop k chunks)) by (rewrite <- concat_app, take_drop; reflexivity).
    rewrite Ec. unfold body, scanned. destruct (limit =? 0); [eauto|].
    exists (zdrop limit (concat (take k chunks)) ++ concat (drop k chunks)). rewrite app_assoc, ztake_zdrop. reflexivity. }
  destruct E as [tail E]. rewrite E in Hall. symmetry. exact (feed_live g body tail Hall).
Qed.

Lemma innocent_accepted_witness :
  let ps := [([bs "Content-Disposition: form-data; name=file"; bs "Content-Type: image/png"], [137; 80; 0; 13; 10; 0; 45; 45])] in
  Forall (eq false) (inspect_all [ztake 90 (upload (bs "--XX") ps); zdrop 90 (upload (bs "--XX") ps)] (init sample_type 4096)).
Proof.
  intros ps. apply (innocent_accepted sample_type 4096 _ ps).
  - discriminate.
  - vm_compute. split_and!; intros H; repeat (apply elem_of_cons in H as [H|H]; [discriminate|]); apply elem_of_nil in H; exact H.
  - vm_compute. reflexivity.
  - vm_compute. reflexivity.
  - apply Forall_singleton. split.
    + repeat apply Forall_cons_2; [..|apply Forall_nil_2]; vm_compute;
        (split; [discriminate|]); split_and!; try reflexivity;
        intros H; repeat (apply elem_of_cons in H as [H|H]; [discriminate|]); apply elem_of_nil in H; exact H.
    + intros (x & y & E). pose proof (list_elem_of_here 80 (zdrop 1 s_targetName)) as H. change (80 :: _) with s_targetName in H.
      assert (H' : 80 ∈ x ++ s_targetName ++ y) by (rewrite !elem_of_app; auto). rewrite <- E in H'. clear E H. vm_compute in H'.
      repeat (apply elem_of_cons in H' as [H'|H']; [discriminate|]). apply elem_of_nil in H'. exact H'.
    + intros a b E [r Er]. vm_compute in Er. cbn in E.
      do 9 (destruct a as [|? a]; cbn in E; [try discriminate E; injection E as <-; discriminate Er|injection E as _ E]).
      destruct a; discriminate E.
Defined.
