(* ===== verification/Headers.v ===== *)
(** * Headers: methods, header names, authorities and content lengths
    (src/src/http/httpmethod.cpp, src/src/http/httpheader.cpp, src/src/http/httpreq.cpp)

    The tables and the functions that HttpReq reads request lines and header
    lines with: which method a request line starts with, which header a name
    is, the host part of an authority, and the value of Content-Length.  A text
    is the list of its bytes from where the code's pointer stands. *)

From S2P Require Import Prelude Uri.
#[local] Open Scope Z_scope.

(** [strncasecmp(p, s, n) == 0] for a [s] of at least [n] bytes without a NUL. *)
Definition strncaseeq (p s : list Z) (n : Z) : bool := strcaseeq (ztake n p) (ztake n s).

(** ** HttpMethod *)

Module HttpMethod.

Definition HTTP_UNKNOWN : Z := 0.
Definition HTTP_OPTIONS : Z := 1.
Definition HTTP_GET : Z := 2.
Definition HTTP_HEAD : Z := 3.
Definition HTTP_POST : Z := 4.
Definition HTTP_PUT : Z := 5.
Definition HTTP_DELETE : Z := 6.
Definition HTTP_TRACE : Z := 7.
Definition HTTP_CONNECT : Z := 8.
Definition HTTP_MOVE : Z := 9.
Definition HTTP_PATCH : Z := 10.
Definition DAV_PROPFIND : Z := 11.
Definition DAV_PROPPATCH : Z := 12.
Definition DAV_MKCOL : Z := 13.
Definition DAV_COPY : Z := 14.
Definition DAV_LOCK : Z := 15.
Definition DAV_UNLOCK : Z := 16.
Definition DAV_VERSION_CONTROL : Z := 17.
Definition DAV_REPORT : Z := 18.
Definition DAV_CHECKIN : Z := 19.
Definition DAV_CHECKOUT : Z := 20.
Definition DAV_UNCHECKOUT : Z := 21.
Definition DAV_UPDATE : Z := 22.
Definition DAV_MKWORKSPACE : Z := 23.
Definition DAV_LABEL : Z := 24.
Definition DAV_MERGE : Z := 25.
Definition DAV_BASELINE_CONTROL : Z := 26.
Definition DAV_MKACTIVITY : Z := 27.
Definition DAV_BIND : Z := 28.
Definition DAV_SEARCH : Z := 29.
Definition HTTP_MKCALENDAR : Z := 30.
Definition HTTP_PURGE : Z := 31.
Definition HTTP_REFRESH : Z := 32.
Definition HTTP_METHOD_END : Z := 33.

Definition s_psMethod : list (list Z) := map bs [
   "UNKNOWN"; "OPTIONS"; "GET"; "HEAD"; "POST"; "PUT"; "DELETE"; "TRACE"; "CONNECT"; "MOVE"; "PATCH";
   "PROPFIND"; "PROPPATCH"; "MKCOL"; "COPY"; "LOCK"; "UNLOCK"; "VERSION-CONTROL"; "REPORT"; "CHECKIN";
   "CHECKOUT"; "UNCHECKOUT"; "UPDATE"; "MKWORKSPACE"; "LABEL"; "MERGE"; "BASELINE-CONTROL"; "MKACTIVITY";
   "BIND"; "SEARCH"; "MKCALENDAR"; "PURGE"; "REFRESH"].
Definition s_iMethodLen : list Z :=
  [7; 7; 3; 4; 4; 3; 6; 5; 7; 4; 5;
   8; 9; 5; 4; 4; 6; 15; 6; 7; 8; 10; 6; 11; 5; 5; 16; 10; 4; 6; 10; 5; 7].

Definition get (method : Z) : list Z := nth (Z.to_nat method) s_psMethod [].
Definition getLen (method : Z) : Z := znth s_iMethodLen method.

(** [p[i] & ~0x20]: the upper case of a letter. *)
Definition up (p : list Z) (i : Z) : Z := Z.land (znth p i) 223.

(** The switch of [parse2]; the letters are those of the comments. *)
Definition candidate (p : list Z) : Z :=
  match up p 0 with
  | 71 (* G *) => HTTP_GET
  | 72 (* H *) => HTTP_HEAD
  | 79 (* O *) => HTTP_OPTIONS
  | 80 (* P *) =>
      match up p 2 with
      | 84 (* T *) => match up p 1 with 65 (* A *) => HTTP_PATCH | _ => HTTP_PUT end
      | 82 (* R *) => HTTP_PURGE
      | 83 (* S *) => HTTP_POST
      | 79 (* O *) => if 70 (* F *) =? up p 4 then DAV_PROPFIND else DAV_PROPPATCH
      | _ => 0
      end
  | 68 (* D *) => HTTP_DELETE
  | 84 (* T *) => HTTP_TRACE
  | 67 (* C *) =>
      match up p 2 with
      | 80 (* P *) => DAV_COPY
      | 78 (* N *) => HTTP_CONNECT
      | 69 (* E *) => if up p 6 =? 79 (* O *) then DAV_CHECKOUT else DAV_CHECKIN
      | _ => 0
      end
  | 77 (* M *) =>
      match up p 2 with
      | 86 (* V *) => HTTP_MOVE
      | 67 (* C *) => if up p 3 =? 65 (* A *) then HTTP_MKCALENDAR else DAV_MKCOL
      | 87 (* W *) => DAV_MKWORKSPACE
      | 65 (* A *) => DAV_MKACTIVITY
      | 82 (* R *) => DAV_MERGE
      | _ => 0
      end
  | 76 (* L *) => if up p 2 =? 67 (* C *) then DAV_LOCK else DAV_LABEL
  | 82 (* R *) => if up p 2 =? 70 (* F *) then HTTP_REFRESH else DAV_REPORT
  | 83 (* S *) => DAV_SEARCH
  | 85 (* U *) =>
      match up p 2 with
      | 76 (* L *) => DAV_UNLOCK
      | 68 (* D *) => DAV_UPDATE
      | 67 (* C *) => DAV_UNCHECKOUT
      | _ => 0
      end
  | 86 (* V *) => DAV_VERSION_CONTROL
  | 66 (* B *) => if up p 2 =? 78 (* N *) then DAV_BIND else DAV_BASELINE_CONTROL
  | _ => 0
  end.

Definition parse2 (p : list Z) : Z :=
  let method := candidate p in
  if negb (method =? 0) && strncaseeq p (get method) (getLen method) then method else 0.

Definition parse (p : list Z) : Z :=
  let method := parse2 p in
  if negb (method =? 0) then
    let ch := znth p (getLen method) in
    if negb (ch =? 32) && negb (ch =? 9) then 0 else method
  else method.

End HttpMethod.

(** ** HttpHeader *)

Module HttpHeader.

Definition H_ACCEPT : Z := 0.
Definition H_ACC_CHARSET : Z := 1.
Definition H_ACC_ENCODING : Z := 2.
Definition H_ACC_LANG : Z := 3.
Definition H_AUTHORIZATION : Z := 4.
Definition H_CONNECTION : Z := 5.
Definition H_CONTENT_TYPE : Z := 6.
Definition H_CONTENT_LENGTH : Z := 7.
Definition H_COOKIE : Z := 8.
Definition H_COOKIE2 : Z := 9.
Definition H_HOST : Z := 10.
Definition H_PRAGMA : Z := 11.
Definition H_REFERER : Z := 12.
Definition H_USERAGENT : Z := 13.
Definition H_CACHE_CTRL : Z := 14.
Definition H_IF_MODIFIED_SINCE : Z := 15.
Definition H_IF_MATCH : Z := 16.
Definition H_IF_NO_MATCH : Z := 17.
Definition H_IF_RANGE : Z := 18.
Definition H_IF_UNMOD_SINCE : Z := 19.
Definition H_KEEP_ALIVE : Z := 20.
Definition H_RANGE : Z := 21.
Definition H_X_FORWARDED_FOR : Z := 22.
Definition H_VIA : Z := 23.
Definition H_TRANSFER_ENCODING : Z := 24.
Definition H_TE : Z := 25.
Definition H_EXPECT : Z := 26.
Definition H_MAX_FORWARDS : Z := 27.
Definition H_PROXY_AUTH : Z := 28.
Definition H_DATE : Z := 29.
Definition H_TRAILER : Z := 30.
Definition H_UPGRADE : Z := 31.
Definition H_WARNING : Z := 32.
Definition H_ALLOW : Z := 33.
Definition H_CONTENT_ENCODING : Z := 34.
Definition H_CONTENT_LANGUAGE : Z := 35.
Definition H_CONTENT_LOCATION : Z := 36.
Definition H_CONTENT_MD5 : Z := 37.
Definition H_CONTENT_RANGE : Z := 38.
Definition H_EXPIRES : Z := 39.
Definition H_LAST_MODIFIED : Z := 40.
Definition H_HEADER_END : Z := 41.

Definition s_iHeaderLen : list Z :=
  [6; 14; 15; 15; 13; 10; 12; 14; 6; 7; 4; 6; 7; 10;
   13; 17; 8; 13; 8; 19; 10; 5; 15; 3; 17; 2; 6; 12; 19; 4;
   7; 7; 7; 5; 16; 16; 16; 11; 13; 7; 13; 0].
Definition s_pHeaderNames : list (list Z) := map bs [
   "Accept"; "Accept-Charset"; "Accept-Encoding"; "Accept-Language"; "Authorization"; "Connection";
   "Content-Type"; "Content-Length"; "Cookie"; "Cookie2"; "Host"; "Pragma"; "Referer"; "User-Agent";
   "Cache-Control"; "If-Modified-Since"; "If-Match"; "If-None-Match"; "If-Range"; "If-Unmodified-Since";
   "Keep-Alive"; "Range"; "Transfer-Encoding"; "TE"; "Expect"; "Max-Forwards"; "Proxy-Authorization"; "Date";
   "Trailer"; "Upgrade"; "Via"; "Warning"; "Allow"; "Content-Encoding"; "Content-Language"; "Content-Location";
   "Content-MD5"; "Content-Range"; "Expires"; "Last-Modified"].

Definition getHeaderName (i : Z) : list Z := nth (Z.to_nat i) s_pHeaderNames [].
Definition getHeaderStringLen (i : Z) : Z := znth s_iHeaderLen i.

(** Whether the bytes after the first are [s], up to case. *)
Definition rest_is (p : list Z) (s : string) : bool := strncaseeq (zdrop 1 p) (bs s) (zlen (bs s)).

(** [getIndex]: [p] points at the name, of [len] bytes. *)
Definition getIndex (p : list Z) (len : Z) : Z :=
  if len <=? 0 then H_HEADER_END
  else
    match Z.lor (znth p 0) 32 with
    | 97 (* a *) =>
        match len with
        | 6 => if rest_is p "ccept" then H_ACCEPT else H_HEADER_END
        | 13 => if rest_is p "uthorization" then H_AUTHORIZATION else H_HEADER_END
        | 14 => if rest_is p "ccept-charset" then H_ACC_CHARSET else H_HEADER_END
        | 15 => if rest_is p "ccept-encoding" then H_ACC_ENCODING
                else if rest_is p "ccept-language" then H_ACC_LANG else H_HEADER_END
        | _ => H_HEADER_END
        end
    | 99 (* c *) =>
        match len with
        | 6 => if rest_is p "ookie" then H_COOKIE else H_HEADER_END
        | 7 => if rest_is p "ookie2" then H_COOKIE2 else H_HEADER_END
        | 10 => if rest_is p "onnection" then H_CONNECTION else H_HEADER_END
        | 12 => if rest_is p "ontent-type" then H_CONTENT_TYPE else H_HEADER_END
        | 13 => if rest_is p "ache-control" then H_CACHE_CTRL else H_HEADER_END
        | 14 => if rest_is p "ontent-length" then H_CONTENT_LENGTH else H_HEADER_END
        | _ => H_HEADER_END
        end
    | 104 (* h *) => if (len =? 4) && rest_is p "ost" then H_HOST else H_HEADER_END
    | 105 (* i *) =>
        match len with
        | 8 => if rest_is p "f-match" then H_IF_MATCH else if rest_is p "f-range" then H_IF_RANGE else H_HEADER_END
        | 13 => if rest_is p "f-none-match" then H_IF_NO_MATCH else H_HEADER_END
        | 17 => if rest_is p "f-modified-since" then H_IF_MODIFIED_SINCE else H_HEADER_END
        | 19 => if rest_is p "f-unmodified-since" then H_IF_UNMOD_SINCE else H_HEADER_END
        | _ => H_HEADER_END
        end
    | 107 (* k *) => if (len =? 10) && rest_is p "eep-alive" then H_KEEP_ALIVE else H_HEADER_END
    | 112 (* p *) => if (len =? 6) && rest_is p "ragma" then H_PRAGMA else H_HEADER_END
    | 114 (* r *) =>
        if (len =? 5) && rest_is p "ange" then H_RANGE
        else if (len =? 7) && rest_is p "eferer" then H_REFERER else H_HEADER_END
    | 116 (* t *) => if (len =? 17) && rest_is p "ransfer-encoding" then H_TRANSFER_ENCODING else H_HEADER_END
    | 117 (* u *) => if (len =? 10) && rest_is p "ser-agent" then H_USERAGENT else H_HEADER_END
    | 118 (* v *) => if (len =? 3) && rest_is p "ia" then H_VIA else H_HEADER_END
    | 120 (* x *) => if (len =? 15) && rest_is p "-forwarded-for" then H_X_FORWARDED_FOR else H_HEADER_END
    | _ => H_HEADER_END
    end.

End HttpHeader.

(** ** The checks of httpreq.cpp *)

Definition SC_413 : Z := 36.

(** [parseContentLength]: the status, and the length when it is 0. *)
Fixpoint parseContentLength_loop (p : list Z) (value : Z) : Z * Z :=
  match p with
  | [] => (0, value)
  | c :: p =>
      if negb (isdigit c) then (SC_400, value)
      else
        let digit := c - 48 in
        if value >? (INT64_MAX - digit) / 10 then (SC_413, value) else parseContentLength_loop p (value * 10 + digit)
  end.
Definition parseContentLength (p : list Z) : Z * Z := parseContentLength_loop p 0.

Definition isalpha (c : Z) : bool := ((65 <=? c) && (c <=? 90)) || ((97 <=? c) && (c <=? 122)).
Definition isalnum (c : Z) : bool := isdigit c || isalpha c.

Definition isReqSchemeValid (value : list Z) : bool :=
  match value with
  | [] => false
  | c :: rest =>
      isalpha c && forallb (fun c => isalnum c || (c =? 43) || (c =? 45) || (c =? 46)) rest
  end.

(** The loop over the host part, [first] at its first byte. *)
Fixpoint host_loop (bracketed first : bool) (p : list Z) : bool :=
  match p with
  | [] => true
  | c :: p =>
      if (c <=? 32) || (c >=? 127) then false
      else if existsb (Z.eqb c) (bs "/\?#@,") then false
      else if c =? 91 then if negb bracketed || negb first then false else host_loop bracketed false p
      else if c =? 93 then
        if negb bracketed || match p with [] => false | _ => true end then false else host_loop bracketed false p
      else if c =? 37 then
        match p with
        | x :: y :: p => if isxdigit x && isxdigit y then host_loop bracketed false p else false
        | _ => false
        end
      else host_loop bracketed false p
  end.

(** The loop over the port, an [unsigned]. *)
Fixpoint port_loop (p : list Z) (port : Z) : bool :=
  match p with
  | [] => true
  | c :: p =>
      if negb (isdigit c) then false
      else
        let port := port * 10 + (c - 48) in
        if port >? 65535 then false else port_loop p port
  end.

Definition getAuthorityHostLen (value : list Z) : Z :=
  match value with
  | [] => -1
  | c :: rest =>
      let bracketed := c =? 91 in
      let hostEnd :=
        if bracketed then
          match memchr 93 rest with
          | None => -1
          | Some i => if i =? 0 then -1 else i + 2
          end
        else
          let e := match memchr 58 value with None => zlen value | Some i => i end in
          if e =? 0 then -1 else e in
      if hostEnd =? -1 then -1
      else if negb (host_loop bracketed true (ztake hostEnd value)) then -1
      else if hostEnd <? zlen value then
        if negb (znth value hostEnd =? 58) || (hostEnd + 1 =? zlen value) then -1
        else if port_loop (zdrop (hostEnd + 1) value) 0 then hostEnd else -1
      else hostEnd
  end.

(** [isalnum] and [iscntrl] of a byte over 127 are false; [ch <= 0] holds. *)
Definition header_name_char (c : Z) : bool :=
  isalnum c || (c =? 45) ||
  (negb (existsb (Z.eqb c) (32 :: 9 :: 34 :: bs "()<>@,;:\/[]?={}")) && negb ((c <=? 0) || (c >=? 128) || (c <? 32) || (c =? 127))).
Definition validateHeaderName (name : list Z) : bool :=
  match name with [] => false | _ => forallb header_name_char name end.

(** Blanks as [skipSpace] and [skipSpaceBothSide] have them. *)
Definition is_blank (c : Z) : bool := (c =? 32) || (c =? 9) || (c =? 13).

(** [skipSpaceBothSide] on a text: how many bytes go from its front, and what
    is left.  The front is not looked at when one byte or none is left. *)
Definition skipSpaceBothSide (p : list Z) : Z * list Z :=
  let p := rev (span is_blank (rev p)).2 in
  if 1 >=? zlen p then (0, p) else (zlen (span is_blank p).1, (span is_blank p).2).

(** [skipSpace(pOrg, pDest)] backwards: the text before [pOrg] without the blanks
    at its end. *)
Definition skipSpace_back (p : list Z) : list Z := rev (span is_blank (rev p)).2.

(** ** The method of a request line *)

(** The text starts with the name of the method, in any case. *)
Definition named (method : Z) (p : list Z) : Prop :=
  strncaseeq p (HttpMethod.get method) (HttpMethod.getLen method) = true.

Lemma znth_map_tolower l i : znth (map tolower l) i = tolower (znth l i).
Proof. unfold znth. change 0 with (tolower 0) at 1. apply map_nth. Qed.

Lemma named_byte method p i : named method p -> 0 <= i < HttpMethod.getLen method ->
  tolower (znth p i) = tolower (znth (HttpMethod.get method) i).
Proof.
  unfold named, strncaseeq, strcaseeq. intros H Hi. apply bytes_eqb_eq in H.
  apply (f_equal (fun l => znth l i)) in H. rewrite !znth_map_tolower, !znth_ztake in H by lia. exact H.
Qed.

Lemma up_letter p i u : 65 <= u <= 90 -> tolower (znth p i) = tolower u -> HttpMethod.up p i = u.
Proof.
  intros Hu. unfold HttpMethod.up, tolower. replace ((65 <=? u) && (u <=? 90)) with true by lia.
  destruct ((65 <=? znth p i) && (znth p i <=? 90)) eqn:E; intros H.
  - replace (znth p i) with u by lia. apply Z.eqb_eq. by_range 65 26 (fun u => Z.land u 223 =? u).
  - rewrite H. apply Z.eqb_eq. by_range 65 26 (fun u => Z.land (u + 32) 223 =? u).
Qed.

Lemma named_up method p i : named method p -> 0 <= i < HttpMethod.getLen method -> 65 <= znth (HttpMethod.get method) i <= 90 ->
  HttpMethod.up p i = znth (HttpMethod.get method) i.
Proof. intros H Hi Hu. apply up_letter; [exact Hu|]. apply named_byte; assumption. Qed.

(** A letter of the name, where there is one. *)
Ltac named_letter H m i :=
  try (let E := fresh in
       assert (E := named_up m _ i H ltac:(vm_compute; split; [discriminate|reflexivity]) ltac:(vm_compute; split; discriminate));
       let v := eval vm_compute in (znth (HttpMethod.get m) i) in change (znth (HttpMethod.get m) i) with v in E; rewrite ?E).

Lemma named_candidate method p : 1 <= method < HttpMethod.HTTP_METHOD_END -> method <> HttpMethod.DAV_CHECKOUT ->
  named method p -> HttpMethod.candidate p = method.
Proof.
  intros Hm Hn H. unfold HttpMethod.HTTP_METHOD_END in Hm.
  assert (Hin : In method (seqZ 1 32)) by (apply list_elem_of_In, elem_of_seqZ; lia). vm_compute in Hin.
  repeat (destruct Hin as [<-|Hin]; [clear Hm; try (contradiction Hn; reflexivity);
    match type of H with named ?m _ => unfold HttpMethod.candidate; named_letter H m 0; named_letter H m 1; named_letter H m 2; named_letter H m 3; named_letter H m 4; named_letter H m 6 end;
    reflexivity|]). destruct Hin.
Qed.

(** The method of a request.  [parse2] answers the method whose name the text
    starts with, in upper or lower case, for every method of the table except
    CHECKOUT, which it never answers: the byte it tells CHECKOUT from CHECKIN by
    is not the one at which the two differ. *)
Theorem parse2_recognises p method : 1 <= method < HttpMethod.HTTP_METHOD_END ->
  HttpMethod.parse2 p = method <-> named method p /\ method <> HttpMethod.DAV_CHECKOUT.
Proof.
  intros Hm. unfold HttpMethod.parse2. split.
  - destruct (negb (HttpMethod.candidate p =? 0)); cbn [andb]; [|lia].
    destruct (strncaseeq p _ _) eqn:E; [|lia]. intros <-. split; [exact E|]. intros Ec. rewrite Ec in E.
    fold (named HttpMethod.DAV_CHECKOUT p) in E. revert Ec. unfold HttpMethod.candidate.
    named_letter E HttpMethod.DAV_CHECKOUT 0. named_letter E HttpMethod.DAV_CHECKOUT 2. named_letter E HttpMethod.DAV_CHECKOUT 6.
    discriminate.
  - intros [Hn Hc]. rewrite (named_candidate method p Hm Hc Hn). unfold named in Hn. rewrite Hn.
    destruct (Z.eqb_spec method 0); [lia|reflexivity].
Qed.

Lemma parse2_recognises_witness : HttpMethod.parse2 (bs "PropFind /x HTTP/1.1") = HttpMethod.DAV_PROPFIND.
Proof. apply parse2_recognises; [vm_compute; split; [discriminate|reflexivity]|]. vm_compute. split; [reflexivity|discriminate]. Defined.

(** ** The language of authorities *)

(** Text of a host: printable, without delimiters, and percent signs start an
    escape. *)
Definition host_char (c : Z) : bool := (32 <? c) && (c <? 127) && negb (existsb (Z.eqb c) (bs "/\?#@,[]")).
Fixpoint host_text (p : list Z) : bool :=
  match p with
  | [] => true
  | c :: p =>
      if c =? 37 then match p with x :: y :: p => isxdigit x && isxdigit y && host_text p | _ => false end
      else host_char c && host_text p
  end.

(** A name without a colon, or anything in brackets; then perhaps a port. *)
Definition host (h : list Z) : Prop :=
  (h <> [] /\ 58 ∉ h /\ host_text h = true) \/ (exists x, h = [91] ++ x ++ [93] /\ x <> [] /\ host_text x = true).
Definition port (p : list Z) : Prop :=
  p = [] \/ exists ds, p = 58 :: ds /\ ds <> [] /\ forallb isdigit ds = true /\ dec_val ds <= 65535.

Lemma host_char_loop c : c <> 37 ->
  host_char c = negb ((c <=? 32) || (c >=? 127)) && negb (existsb (Z.eqb c) (bs "/\?#@,")) && negb (c =? 91) && negb (c =? 93).
Proof.
  intros _. unfold host_char. change (bs "/\?#@,[]") with (bs "/\?#@," ++ [91; 93]). rewrite existsb_app. cbn [existsb].
  destruct (existsb _ _); lia.
Qed.

(** The loop of the code on a name, and on what follows the first bracket. *)
Lemma host_loop_name n : forall p first, (length p < n)%nat -> host_loop false first p = host_text p.
Proof.
  induction n as [|n IH]; intros p first Hn; [lia|]. destruct p as [|c p]; [reflexivity|]. cbn [host_loop host_text]. cbn in Hn.
  destruct (Z.eqb_spec c 37) as [->|Hc].
  - destruct p as [|x [|y p]]; [reflexivity..|]. cbn in Hn. cbn -[host_loop host_text isxdigit]. rewrite IH by lia.
    destruct (isxdigit x), (isxdigit y); reflexivity.
  - rewrite host_char_loop, IH by (assumption || lia). destruct ((c <=? 32) || (c >=? 127)); [reflexivity|].
    destruct (existsb _ _); [reflexivity|]. destruct (c =? 91); [reflexivity|]. destruct (c =? 93); reflexivity.
Qed.

Lemma host_loop_bracketed n : forall x, (length x < n)%nat -> 93 ∉ x -> host_loop true false (x ++ [93]) = host_text x.
Proof.
  induction n as [|n IH]; intros p Hn Hp; [lia|]. destruct p as [|c p]; [reflexivity|]. cbn [app host_loop host_text]. cbn in Hn.
  apply not_elem_of_cons in Hp as [Hc Hp]. destruct (Z.eqb_spec c 37) as [->|H37].
  - destruct p as [|x [|y p]]; [reflexivity|cbn -[isxdigit]; rewrite andb_false_r; reflexivity|]. cbn in Hn.
    cbn -[host_loop host_text isxdigit]. apply not_elem_of_cons in Hp as [_ Hp]. apply not_elem_of_cons in Hp as [_ Hp].
    rewrite IH by (assumption || lia). destruct (isxdigit x), (isxdigit y); reflexivity.
  - rewrite host_char_loop, IH by (assumption || lia). destruct ((c <=? 32) || (c >=? 127)); [reflexivity|].
    destruct (existsb _ _); [reflexivity|]. destruct (c =? 91); [reflexivity|]. destruct (Z.eqb_spec c 93); [congruence|reflexivity].
Qed.

Lemma host_text_no c p : host_text p = true -> host_char c = false -> isxdigit c = false -> c <> 37 -> c ∉ p.
Proof.
  intros H Hc Hx H37. assert (Hn : exists n, (length p < n)%nat) by eauto. destruct Hn as [n Hn]. revert p Hn H.
  induction n as [|n IH]; intros p Hn H; [lia|]. destruct p as [|d p]; [apply not_elem_of_nil|]. cbn in Hn, H.
  apply not_elem_of_cons. destruct (Z.eqb_spec d 37) as [->|Hd].
  - split; [congruence|]. destruct p as [|x [|y p]]; [discriminate..|]. cbn in Hn. rewrite !andb_true_iff in H. destruct H as [[H1 H2] H3].
    apply not_elem_of_cons. split; [congruence|]. apply not_elem_of_cons. split; [congruence|]. apply IH; [lia|exact H3].
  - rewrite andb_true_iff in H. destruct H as [H1 H2]. split; [congruence|]. apply IH; [lia|exact H2].
Qed.

Lemma port_loop_spec p : forall acc, 0 <= acc <= 65535 ->
  port_loop p acc = true <-> forallb isdigit p = true /\ fold_left (fun a c => a * 10 + (c - 48)) p acc <= 65535.
Proof.
  assert (Hge : forall p acc, forallb isdigit p = true -> 0 <= acc -> acc <= fold_left (fun a c => a * 10 + (c - 48)) p acc).
  { clear. induction p as [|c p IH]; intros acc Hd H0; [reflexivity|]. cbn in *. apply andb_true_iff in Hd as [Hc Hd].
    unfold isdigit in Hc. specialize (IH (acc * 10 + (c - 48)) Hd ltac:(lia)). lia. }
  induction p as [|c p IH]; intros acc Ha; cbn [port_loop forallb fold_left]; [split; [intros _; split; [reflexivity|lia]|reflexivity]|].
  destruct (isdigit c) eqn:Ec; cbn [negb andb]; [|split; [discriminate|intros [? _]; discriminate]].
  assert (Hc : 0 <= c - 48 <= 9) by (unfold isdigit in Ec; lia).
  destruct (Z.gtb_spec (acc * 10 + (c - 48)) 65535) as [Hgt|Hle].
  - split; [discriminate|]. intros [Hd Hv]. specialize (Hge p (acc * 10 + (c - 48)) Hd ltac:(lia)). lia.
  - apply IH. lia.
Qed.

(** The end of the host part that the code looks for. *)
Lemma host_end_spec value hostEnd : value <> [] ->
  (if znth value 0 =? 91 then match memchr 93 (zdrop 1 value) with None => -1 | Some i => if i =? 0 then -1 else i + 2 end
   else let e := match memchr 58 value with None => zlen value | Some i => i end in if e =? 0 then -1 else e) = hostEnd ->
  hostEnd <> -1 ->
  exists h p, value = h ++ p /\ zlen h = hostEnd /\
    ((exists x, h = [91] ++ x ++ [93] /\ x <> [] /\ 93 ∉ x) \/ (h <> [] /\ 58 ∉ h /\ znth h 0 <> 91 /\ (p = [] \/ exists q, p = 58 :: q))).
Proof.
  intros Hv Hh Hne. destruct value as [|c rest]; [contradiction|]. change (zdrop 1 (c :: rest)) with rest in Hh.
  change (znth (c :: rest) 0) with c in Hh. destruct (Z.eqb_spec c 91) as [->|Hc].
  - destruct (memchr 93 rest) as [i|] eqn:E; [|congruence]. destruct (Z.eqb_spec i 0) as [->|Hi]; [congruence|].
    apply memchr_Some in E as (Hr & E & Hn). exists ([91] ++ ztake i rest ++ [93]), (zdrop (i + 1) rest). split; [|split].
    + rewrite <- !app_assoc. cbn [app]. f_equal. exact E.
    + rewrite !zlen_app, zlen_ztake, Z.min_l by lia. change (zlen [91]) with 1. change (zlen [93]) with 1. lia.
    + left. exists (ztake i rest). split; [reflexivity|]. split; [|exact Hn]. intros Ez. apply (f_equal zlen) in Ez.
      rewrite zlen_ztake, Z.min_l in Ez by lia. change (zlen []) with 0 in Ez. lia.
  - cbv zeta in Hh. destruct (memchr 58 (c :: rest)) as [i|] eqn:E.
    + destruct (Z.eqb_spec i 0) as [->|Hi]; [congruence|]. apply memchr_Some in E as (Hr & E & Hn). subst i.
      exists (ztake hostEnd (c :: rest)), (58 :: zdrop (hostEnd + 1) (c :: rest)). split; [exact E|].
      assert (Hl : zlen (ztake hostEnd (c :: rest)) = hostEnd) by (rewrite zlen_ztake; lia). split; [exact Hl|]. right.
      split; [intros Ez; rewrite Ez in Hl; change (zlen []) with 0 in Hl; lia|]. split; [exact Hn|].
      split; [rewrite znth_ztake by lia; exact Hc|eauto].
    + apply memchr_None in E. destruct (zlen (c :: rest) =? 0); [congruence|]. exists (c :: rest), [].
      rewrite app_nil_r. split; [reflexivity|]. split; [exact Hh|]. right. split; [discriminate|]. auto.
Qed.

Lemma getAuthorityHostLen_cons value : value <> [] -> getAuthorityHostLen value =
  let hostEnd := if znth value 0 =? 91 then match memchr 93 (zdrop 1 value) with None => -1 | Some i => if i =? 0 then -1 else i + 2 end
   else let e := match memchr 58 value with None => zlen value | Some i => i end in if e =? 0 then -1 else e in
  if hostEnd =? -1 then -1 else if negb (host_loop (znth value 0 =? 91) true (ztake hostEnd value)) then -1
  else if hostEnd <? zlen value then
    if negb (znth value hostEnd =? 58) || (hostEnd + 1 =? zlen value) then -1
    else if port_loop (zdrop (hostEnd + 1) value) 0 then hostEnd else -1
  else hostEnd.
Proof. destruct value as [|c rest]; [contradiction|reflexivity]. Qed.

(** What is left after the host part is a port, or nothing. *)
Lemma port_part h p : (if zlen h <? zlen (h ++ p) then
    if negb (znth (h ++ p) (zlen h) =? 58) || (zlen h + 1 =? zlen (h ++ p)) then -1
    else if port_loop (zdrop (zlen h + 1) (h ++ p)) 0 then zlen h else -1
  else zlen h) = zlen h <-> port p.
Proof.
  pose proof (zlen_nonneg h) as Hh. rewrite zlen_app. destruct p as [|c ds].
  { change (zlen []) with 0. rewrite Z.add_0_r, Z.ltb_irrefl. split; [left; reflexivity|reflexivity]. }
  rewrite zlen_cons. pose proof (zlen_nonneg ds) as Hd. replace (zlen h <? zlen h + (1 + zlen ds)) with true by lia.
  rewrite znth_app, Z.ltb_irrefl, Z.sub_diag by lia. change (znth (c :: ds) 0) with c.
  rewrite <- zdrop_zdrop, zdrop_app_exact by lia. change (zdrop 1 (c :: ds)) with ds.
  pose proof (port_loop_spec ds 0 ltac:(lia)) as Hp. unfold port, dec_val.
  destruct (Z.eqb_spec c 58) as [->|Hc]; cbn [negb orb].
  2: { split; [lia|]. intros [?|(x & [= -> ->] & _)]; [discriminate|contradiction]. }
  destruct (Z.eqb_spec (zlen h + 1) (zlen h + (1 + zlen ds))) as [El|El].
  { split; [lia|]. intros [?|(x & [= <-] & Hne & _)]; [discriminate|]. destruct ds; [contradiction|]. rewrite zlen_cons in El. pose proof (zlen_nonneg ds). lia. }
  destruct (port_loop ds 0) eqn:E.
  - split; [|reflexivity]. intros _. right. exists ds. split; [reflexivity|]. split; [intros ->; change (zlen []) with 0 in El; lia|].
    apply Hp. reflexivity.
  - split; [lia|]. intros [?|(x & [= <-] & _ & Hx)]; [discriminate|]. apply Hp in Hx. discriminate.
Qed.

(** Which authorities are accepted, and what their host part is.
    [getAuthorityHostLen] answers [n] exactly when the text is a host of [n]
    bytes (a name without a colon, or anything in brackets, of printable
    characters other than the delimiters, with well-formed escapes) followed by
    nothing or by a colon and a decimal port of at most 65535. *)
Theorem authority_language value n : 0 <= n ->
  getAuthorityHostLen value = n <-> exists h p, value = h ++ p /\ zlen h = n /\ host h /\ port p.
Proof.
  intros Hn. destruct (decide (value = [])) as [->|Hv].
  { cbn. split; [lia|]. intros (h & p & E & _ & Hh & _). symmetry in E. apply app_eq_nil in E as [-> _].
    destruct Hh as [[? _]|(x & E & _)]; [contradiction|discriminate]. }
  rewrite getAuthorityHostLen_cons by exact Hv. cbv zeta. match goal with |- context [?e =? -1] => set (hostEnd := e) end.
  split.
  - destruct (Z.eqb_spec hostEnd (-1)) as [|He]; [lia|]. destruct (host_end_spec value hostEnd Hv eq_refl He) as (h & p & Ev & El & Hc).
    clearbody hostEnd. subst hostEnd. rewrite Ev at 1. rewrite Ev, ztake_app_exact. destruct (host_loop _ true h) eqn:Eh; cbn [negb]; [|lia].
    intros Hr. assert (En : zlen h = n) by (revert Hr; repeat case_match; lia). exists h, p. split; [reflexivity|]. split; [exact En|].
    rewrite <- En in Hr. apply port_part in Hr. split; [|exact Hr].
    destruct Hc as [(x & -> & Hx & H93)|(Hne & H58 & H91 & _)].
    + right. exists x. split; [reflexivity|]. split; [exact Hx|]. rewrite <- app_assoc in Eh. cbn in Eh.
      rewrite <- (host_loop_bracketed (S (length x)) x) by (auto || lia). exact Eh.
    + left. split; [exact Hne|]. split; [exact H58|]. destruct h as [|c h]; [contradiction|]. change (znth ((c :: h) ++ p) 0) with c in Eh.
      change (znth (c :: h) 0) with c in H91. rewrite (proj2 (Z.eqb_neq c 91) H91) in Eh.
      rewrite (host_loop_name (S (length (c :: h)))) in Eh by lia. exact Eh.
  - intros (h & p & Ev & El & Hh & Hp). 
    assert (Eh : hostEnd = zlen h /\ host_loop (znth value 0 =? 91) true h = true).
    { unfold hostEnd. rewrite Ev. destruct Hh as [(Hne & H58 & Ht)|(x & -> & Hx & Ht)].
      - assert (H91 : 91 ∉ h) by (apply (host_text_no 91 h Ht); vm_compute; reflexivity || discriminate).
        destruct h as [|c h]; [contradiction|]. change (znth ((c :: h) ++ p) 0) with c.
        assert (Hc : c <> 91) by (intros ->; apply H91; left). rewrite (proj2 (Z.eqb_neq c 91) Hc). pose proof (zlen_nonneg h) as Hz.
        split; [|rewrite (host_loop_name (S (length (c :: h)))) by lia; exact Ht].
        assert (Em : match memchr 58 ((c :: h) ++ p) with Some i => i | None => zlen ((c :: h) ++ p) end = zlen (c :: h)).
        { destruct Hp as [->|(ds & -> & _)]; [rewrite app_nil_r, memchr_notin by exact H58|rewrite memchr_app by exact H58]; reflexivity. }
        cbv zeta. rewrite Em, zlen_cons. replace (1 + zlen h =? 0) with false by lia. reflexivity.
      - assert (H93 : 93 ∉ x) by (apply (host_text_no 93 x Ht); vm_compute; reflexivity || discriminate).
        cbn [app]. change (znth (91 :: _) 0) with 91. cbn [Z.eqb Pos.eqb].
        change (zdrop 1 (91 :: (x ++ [93]) ++ p)) with ((x ++ [93]) ++ p). rewrite <- app_assoc. cbn [app]. rewrite memchr_app by exact H93.
        pose proof (zlen_nonneg x). destruct (Z.eqb_spec (zlen x) 0) as [Ez|Ez].
        + destruct x; [contradiction|]. rewrite zlen_cons in Ez. pose proof (zlen_nonneg x). lia.
        + rewrite zlen_cons, zlen_app. change (zlen [93]) with 1. split; [lia|]. cbn.
          rewrite (host_loop_bracketed (S (length x)) x) by (auto || lia). exact Ht. }
    destruct Eh as [Eh Hl]. rewrite Eh, Ev, ztake_app_exact. rewrite Ev in Hl. rewrite Hl. cbn [negb].
    pose proof (zlen_nonneg h). replace (zlen h =? -1) with false by lia. rewrite (proj2 (port_part h p) Hp). exact El.
Qed.

Lemma authority_language_witness : getAuthorityHostLen (bs "[::1]:8443") = 5.
Proof.
  apply authority_language; [discriminate|]. exists (bs "[::1]"), (bs ":8443"). split; [reflexivity|]. split; [reflexivity|]. split.
  - right. exists (bs "::1"). split; [reflexivity|]. split; [discriminate|reflexivity].
  - right. exists (bs "8443"). split; [reflexivity|]. split; [discriminate|]. split; [reflexivity|vm_compute; discriminate].
Defined.
