(* ===== verification/Request.v ===== *)
(** * Request: the parser of HTTP/1 request headers
    (src/src/http/httpreq.h, src/src/http/httpreq.cpp)

    HttpReq as far as its header buffer is parsed: the request line, the header
    lines with their folding, the common and the unknown headers and what each of
    them sets, and [processHeader], which the session calls after every read.
    The buffer is the list of its bytes, and the parser's pointers are offsets
    into it; the in-place changes that the parser makes are stores. *)

From S2P Require Import Prelude Uri Guard Headers.
Import HttpMethod HttpHeader.
#[local] Open Scope Z_scope.

Definition SC_414 : Z := 37.
Definition SC_500 : Z := 75.
Definition SC_501 : Z := 76.
Definition SC_505 : Z := 80.

Definition HEADER_BUF_PAD : Z := 4.
Definition MAX_BUF_SIZE : Z := 65536.
Definition LSI_BODY_SIZE_CHUNK : Z := -1.

Definition HTTP_1_1 : Z := 0.
Definition HTTP_1_0 : Z := 1.

(** The header status. *)
Definition HEADER_REQUEST_LINE : Z := 0.
Definition HEADER_HEADER : Z := 1.
Definition HEADER_OK : Z := 3.

Definition UPD_PROTO_NONE : Z := 0.
Definition UPD_PROTO_WEBSOCKET : Z := 1.
Definition UPD_PROTO_HTTP2 : Z := 2.

(** Flags of the request and of the context state. *)
Definition IS_KEEPALIVE : Z := 1.
Definition IS_FORWARDED_HTTPS : Z := 2.
Definition IS_BL_COOKIE : Z := 256.
Definition EXPECT_100 : Z := 8.
Definition NO_RESP_BODY : Z := 4096.

Definition GZIP_ENABLED : Z := 1.
Definition REQ_GZIP_ACCEPT : Z := 2.
Definition BR_ENABLED : Z := 1.
Definition REQ_BR_ACCEPT : Z := 2.
Definition ZSTD_ENABLED : Z := 1.
Definition REQ_ZSTD_ACCEPT : Z := 2.

Definition REQ_BODY_UNKNOWN : Z := 0.
Definition REQ_BODY_FORM : Z := 1.
Definition REQ_BODY_MULTIPART : Z := 2.

Record key_value_pair := KV { keyOff : Z; keyLen : Z; valOff : Z; valLen : Z }.

(** The members of the class that header parsing reads or writes; the query
    string is [None] when it is a null pointer. *)
Record HttpReq := Req {
  m_headerBuf : list Z; m_iReqHeaderBufFinished : Z; m_iReqHeaderBufRead : Z; m_curUrl_key : list Z;
  m_curUrl_val : option (list Z); m_unknHeaders : list key_value_pair; m_commonHeaderLen : list Z;
  m_commonHeaderOffset : list Z; m_reqLineOff : Z; m_reqLineLen : Z; m_reqURLOff : Z; m_reqURLLen : Z;
  m_otherHeaderLen : list Z; m_otherHeaderOffset : list Z; m_newHost : list Z; m_iHeaderStatus : Z; m_iHS1 : Z;
  m_iHS3 : Z; m_iLeadingWWW : Z; m_iHS2 : Z; m_method : Z; m_iUserAgentType : Z; m_iUrlType : Z;
  m_iCfRealIpHeader : Z; m_ver : Z; m_iReqFlag : Z; m_iAcceptGzip : Z; m_iAcceptBr : Z; m_iAcceptZstd : Z;
  m_lEntityLength : Z; m_iContextState : Z; m_iHttpHeaderEnd : Z; m_iHostOff : Z; m_iHostLen : Z;
  m_upgradeProto : Z; m_iBodyType : Z; m_multipartBodyGuard : guard }.

Definition set_headerBuf x (r : HttpReq) : HttpReq :=
  Req x (m_iReqHeaderBufFinished r) (m_iReqHeaderBufRead r) (m_curUrl_key r) (m_curUrl_val r) (m_unknHeaders r)
  (m_commonHeaderLen r) (m_commonHeaderOffset r) (m_reqLineOff r) (m_reqLineLen r) (m_reqURLOff r) (m_reqURLLen r)
  (m_otherHeaderLen r) (m_otherHeaderOffset r) (m_newHost r) (m_iHeaderStatus r) (m_iHS1 r) (m_iHS3 r)
  (m_iLeadingWWW r) (m_iHS2 r) (m_method r) (m_iUserAgentType r) (m_iUrlType r) (m_iCfRealIpHeader r) (m_ver r)
  (m_iReqFlag r) (m_iAcceptGzip r) (m_iAcceptBr r) (m_iAcceptZstd r) (m_lEntityLength r) (m_iContextState r)
  (m_iHttpHeaderEnd r) (m_iHostOff r) (m_iHostLen r) (m_upgradeProto r) (m_iBodyType r) (m_multipartBodyGuard r).
Definition set_iReqHeaderBufFinished x (r : HttpReq) : HttpReq :=
  Req (m_headerBuf r) x (m_iReqHeaderBufRead r) (m_curUrl_key r) (m_curUrl_val r) (m_unknHeaders r)
  (m_commonHeaderLen r) (m_commonHeaderOffset r) (m_reqLineOff r) (m_reqLineLen r) (m_reqURLOff r) (m_reqURLLen r)
  (m_otherHeaderLen r) (m_otherHeaderOffset r) (m_newHost r) (m_iHeaderStatus r) (m_iHS1 r) (m_iHS3 r)
  (m_iLeadingWWW r) (m_iHS2 r) (m_method r) (m_iUserAgentType r) (m_iUrlType r) (m_iCfRealIpHeader r) (m_ver r)
  (m_iReqFlag r) (m_iAcceptGzip r) (m_iAcceptBr r) (m_iAcceptZstd r) (m_lEntityLength r) (m_iContextState r)
  (m_iHttpHeaderEnd r) (m_iHostOff r) (m_iHostLen r) (m_upgradeProto r) (m_iBodyType r) (m_multipartBodyGuard r).
Definition set_iReqHeaderBufRead x (r : HttpReq) : HttpReq :=
  Req (m_headerBuf r) (m_iReqHeaderBufFinished r) x (m_curUrl_key r) (m_curUrl_val r) (m_unknHeaders r)
  (m_commonHeaderLen r) (m_commonHeaderOffset r) (m_reqLineOff r) (m_reqLineLen r) (m_reqURLOff r) (m_reqURLLen r)
  (m_otherHeaderLen r) (m_otherHeaderOffset r) (m_newHost r) (m_iHeaderStatus r) (m_iHS1 r) (m_iHS3 r)
  (m_iLeadingWWW r) (m_iHS2 r) (m_method r) (m_iUserAgentType r) (m_iUrlType r) (m_iCfRealIpHeader r) (m_ver r)
  (m_iReqFlag r) (m_iAcceptGzip r) (m_iAcceptBr r) (m_iAcceptZstd r) (m_lEntityLength r) (m_iContextState r)
  (m_iHttpHeaderEnd r) (m_iHostOff r) (m_iHostLen r) (m_upgradeProto r) (m_iBodyType r) (m_multipartBodyGuard r).
Definition set_curUrl_key x (r : HttpReq) : HttpReq :=
  Req (m_headerBuf r) (m_iReqHeaderBufFinished r) (m_iReqHeaderBufRead r) x (m_curUrl_val r) (m_unknHeaders r)
  (m_commonHeaderLen r) (m_commonHeaderOffset r) (m_reqLineOff r) (m_reqLineLen r) (m_reqURLOff r) (m_reqURLLen r)
  (m_otherHeaderLen r) (m_otherHeaderOffset r) (m_newHost r) (m_iHeaderStatus r) (m_iHS1 r) (m_iHS3 r)
  (m_iLeadingWWW r) (m_iHS2 r) (m_method r) (m_iUserAgentType r) (m_iUrlType r) (m_iCfRealIpHeader r) (m_ver r)
  (m_iReqFlag r) (m_iAcceptGzip r) (m_iAcceptBr r) (m_iAcceptZstd r) (m_lEntityLength r) (m_iContextState r)
  (m_iHttpHeaderEnd r) (m_iHostOff r) (m_iHostLen r) (m_upgradeProto r) (m_iBodyType r) (m_multipartBodyGuard r).
Definition set_curUrl_val x (r : HttpReq) : HttpReq :=
  Req (m_headerBuf r) (m_iReqHeaderBufFinished r) (m_iReqHeaderBufRead r) (m_curUrl_key r) x (m_unknHeaders r)
  (m_commonHeaderLen r) (m_commonHeaderOffset r) (m_reqLineOff r) (m_reqLineLen r) (m_reqURLOff r) (m_reqURLLen r)
  (m_otherHeaderLen r) (m_otherHeaderOffset r) (m_newHost r) (m_iHeaderStatus r) (m_iHS1 r) (m_iHS3 r)
  (m_iLeadingWWW r) (m_iHS2 r) (m_method r) (m_iUserAgentType r) (m_iUrlType r) (m_iCfRealIpHeader r) (m_ver r)
  (m_iReqFlag r) (m_iAcceptGzip r) (m_iAcceptBr r) (m_iAcceptZstd r) (m_lEntityLength r) (m_iContextState r)
  (m_iHttpHeaderEnd r) (m_iHostOff r) (m_iHostLen r) (m_upgradeProto r) (m_iBodyType r) (m_multipartBodyGuard r).
Definition set_unknHeaders x (r : HttpReq) : HttpReq :=
  Req (m_headerBuf r) (m_iReqHeaderBufFinished r) (m_iReqHeaderBufRead r) (m_curUrl_key r) (m_curUrl_val r) x
  (m_commonHeaderLen r) (m_commonHeaderOffset r) (m_reqLineOff r) (m_reqLineLen r) (m_reqURLOff r) (m_reqURLLen r)
  (m_otherHeaderLen r) (m_otherHeaderOffset r) (m_newHost r) (m_iHeaderStatus r) (m_iHS1 r) (m_iHS3 r)
  (m_iLeadingWWW r) (m_iHS2 r) (m_method r) (m_iUserAgentType r) (m_iUrlType r) (m_iCfRealIpHeader r) (m_ver r)
  (m_iReqFlag r) (m_iAcceptGzip r) (m_iAcceptBr r) (m_iAcceptZstd r) (m_lEntityLength r) (m_iContextState r)
  (m_iHttpHeaderEnd r) (m_iHostOff r) (m_iHostLen r) (m_upgradeProto r) (m_iBodyType r) (m_multipartBodyGuard r).
Definition set_commonHeaderLen x (r : HttpReq) : HttpReq :=
  Req (m_headerBuf r) (m_iReqHeaderBufFinished r) (m_iReqHeaderBufRead r) (m_curUrl_key r) (m_curUrl_val r)
  (m_unknHeaders r) x (m_commonHeaderOffset r) (m_reqLineOff r) (m_reqLineLen r) (m_reqURLOff r) (m_reqURLLen r)
  (m_otherHeaderLen r) (m_otherHeaderOffset r) (m_newHost r) (m_iHeaderStatus r) (m_iHS1 r) (m_iHS3 r)
  (m_iLeadingWWW r) (m_iHS2 r) (m_method r) (m_iUserAgentType r) (m_iUrlType r) (m_iCfRealIpHeader r) (m_ver r)
  (m_iReqFlag r) (m_iAcceptGzip r) (m_iAcceptBr r) (m_iAcceptZstd r) (m_lEntityLength r) (m_iContextState r)
  (m_iHttpHeaderEnd r) (m_iHostOff r) (m_iHostLen r) (m_upgradeProto r) (m_iBodyType r) (m_multipartBodyGuard r).
Definition set_commonHeaderOffset x (r : HttpReq) : HttpReq :=
  Req (m_headerBuf r) (m_iReqHeaderBufFinished r) (m_iReqHeaderBufRead r) (m_curUrl_key r) (m_curUrl_val r)
  (m_unknHeaders r) (m_commonHeaderLen r) x (m_reqLineOff r) (m_reqLineLen r) (m_reqURLOff r) (m_reqURLLen r)
  (m_otherHeaderLen r) (m_otherHeaderOffset r) (m_newHost r) (m_iHeaderStatus r) (m_iHS1 r) (m_iHS3 r)
  (m_iLeadingWWW r) (m_iHS2 r) (m_method r) (m_iUserAgentType r) (m_iUrlType r) (m_iCfRealIpHeader r) (m_ver r)
  (m_iReqFlag r) (m_iAcceptGzip r) (m_iAcceptBr r) (m_iAcceptZstd r) (m_lEntityLength r) (m_iContextState r)
  (m_iHttpHeaderEnd r) (m_iHostOff r) (m_iHostLen r) (m_upgradeProto r) (m_iBodyType r) (m_multipartBodyGuard r).
Definition set_reqLineOff x (r : HttpReq) : HttpReq :=
  Req (m_headerBuf r) (m_iReqHeaderBufFinished r) (m_iReqHeaderBufRead r) (m_curUrl_key r) (m_curUrl_val r)
  (m_unknHeaders r) (m_commonHeaderLen r) (m_commonHeaderOffset r) x (m_reqLineLen r) (m_reqURLOff r)
  (m_reqURLLen r) (m_otherHeaderLen r) (m_otherHeaderOffset r) (m_newHost r) (m_iHeaderStatus r) (m_iHS1 r)
  (m_iHS3 r) (m_iLeadingWWW r) (m_iHS2 r) (m_method r) (m_iUserAgentType r) (m_iUrlType r) (m_iCfRealIpHeader r)
  (m_ver r) (m_iReqFlag r) (m_iAcceptGzip r) (m_iAcceptBr r) (m_iAcceptZstd r) (m_lEntityLength r)
  (m_iContextState r) (m_iHttpHeaderEnd r) (m_iHostOff r) (m_iHostLen r) (m_upgradeProto r) (m_iBodyType r)
  (m_multipartBodyGuard r).
Definition set_reqLineLen x (r : HttpReq) : HttpReq :=
  Req (m_headerBuf r) (m_iReqHeaderBufFinished r) (m_iReqHeaderBufRead r) (m_curUrl_key r) (m_curUrl_val r)
  (m_unknHeaders r) (m_commonHeaderLen r) (m_commonHeaderOffset r) (m_reqLineOff r) x (m_reqURLOff r)
  (m_reqURLLen r) (m_otherHeaderLen r) (m_otherHeaderOffset r) (m_newHost r) (m_iHeaderStatus r) (m_iHS1 r)
  (m_iHS3 r) (m_iLeadingWWW r) (m_iHS2 r) (m_method r) (m_iUserAgentType r) (m_iUrlType r) (m_iCfRealIpHeader r)
  (m_ver r) (m_iReqFlag r) (m_iAcceptGzip r) (m_iAcceptBr r) (m_iAcceptZstd r) (m_lEntityLength r)
  (m_iContextState r) (m_iHttpHeaderEnd r) (m_iHostOff r) (m_iHostLen r) (m_upgradeProto r) (m_iBodyType r)
  (m_multipartBodyGuard r).
Definition set_reqURLOff x (r : HttpReq) : HttpReq :=
  Req (m_headerBuf r) (m_iReqHeaderBufFinished r) (m_iReqHeaderBufRead r) (m_curUrl_key r) (m_curUrl_val r)
  (m_unknHeaders r) (m_commonHeaderLen r) (m_commonHeaderOffset r) (m_reqLineOff r) (m_reqLineLen r) x
  (m_reqURLLen r) (m_otherHeaderLen r) (m_otherHeaderOffset r) (m_newHost r) (m_iHeaderStatus r) (m_iHS1 r)
  (m_iHS3 r) (m_iLeadingWWW r) (m_iHS2 r) (m_method r) (m_iUserAgentType r) (m_iUrlType r) (m_iCfRealIpHeader r)
  (m_ver r) (m_iReqFlag r) (m_iAcceptGzip r) (m_iAcceptBr r) (m_iAcceptZstd r) (m_lEntityLength r)
  (m_iContextState r) (m_iHttpHeaderEnd r) (m_iHostOff r) (m_iHostLen r) (m_upgradeProto r) (m_iBodyType r)
  (m_multipartBodyGuard r).
Definition set_reqURLLen x (r : HttpReq) : HttpReq :=
  Req (m_headerBuf r) (m_iReqHeaderBufFinished r) (m_iReqHeaderBufRead r) (m_curUrl_key r) (m_curUrl_val r)
  (m_unknHeaders r) (m_commonHeaderLen r) (m_commonHeaderOffset r) (m_reqLineOff r) (m_reqLineLen r)
  (m_reqURLOff r) x (m_otherHeaderLen r) (m_otherHeaderOffset r) (m_newHost r) (m_iHeaderStatus r) (m_iHS1 r)
  (m_iHS3 r) (m_iLeadingWWW r) (m_iHS2 r) (m_method r) (m_iUserAgentType r) (m_iUrlType r) (m_iCfRealIpHeader r)
  (m_ver r) (m_iReqFlag r) (m_iAcceptGzip r) (m_iAcceptBr r) (m_iAcceptZstd r) (m_lEntityLength r)
  (m_iContextState r) (m_iHttpHeaderEnd r) (m_iHostOff r) (m_iHostLen r) (m_upgradeProto r) (m_iBodyType r)
  (m_multipartBodyGuard r).
Definition set_otherHeaderLen x (r : HttpReq) : HttpReq :=
  Req (m_headerBuf r) (m_iReqHeaderBufFinished r) (m_iReqHeaderBufRead r) (m_curUrl_key r) (m_curUrl_val r)
  (m_unknHeaders r) (m_commonHeaderLen r) (m_commonHeaderOffset r) (m_reqLineOff r) (m_reqLineLen r)
  (m_reqURLOff r) (m_reqURLLen r) x (m_otherHeaderOffset r) (m_newHost r) (m_iHeaderStatus r) (m_iHS1 r) (m_iHS3 r)
  (m_iLeadingWWW r) (m_iHS2 r) (m_method r) (m_iUserAgentType r) (m_iUrlType r) (m_iCfRealIpHeader r) (m_ver r)
  (m_iReqFlag r) (m_iAcceptGzip r) (m_iAcceptBr r) (m_iAcceptZstd r) (m_lEntityLength r) (m_iContextState r)
  (m_iHttpHeaderEnd r) (m_iHostOff r) (m_iHostLen r) (m_upgradeProto r) (m_iBodyType r) (m_multipartBodyGuard r).
Definition set_otherHeaderOffset x (r : HttpReq) : HttpReq :=
  Req (m_headerBuf r) (m_iReqHeaderBufFinished r) (m_iReqHeaderBufRead r) (m_curUrl_key r) (m_curUrl_val r)
  (m_unknHeaders r) (m_commonHeaderLen r) (m_commonHeaderOffset r) (m_reqLineOff r) (m_reqLineLen r)
  (m_reqURLOff r) (m_reqURLLen r) (m_otherHeaderLen r) x (m_newHost r) (m_iHeaderStatus r) (m_iHS1 r) (m_iHS3 r)
  (m_iLeadingWWW r) (m_iHS2 r) (m_method r) (m_iUserAgentType r) (m_iUrlType r) (m_iCfRealIpHeader r) (m_ver r)
  (m_iReqFlag r) (m_iAcceptGzip r) (m_iAcceptBr r) (m_iAcceptZstd r) (m_lEntityLength r) (m_iContextState r)
  (m_iHttpHeaderEnd r) (m_iHostOff r) (m_iHostLen r) (m_upgradeProto r) (m_iBodyType r) (m_multipartBodyGuard r).
Definition set_newHost x (r : HttpReq) : HttpReq :=
  Req (m_headerBuf r) (m_iReqHeaderBufFinished r) (m_iReqHeaderBufRead r) (m_curUrl_key r) (m_curUrl_val r)
  (m_unknHeaders r) (m_commonHeaderLen r) (m_commonHeaderOffset r) (m_reqLineOff r) (m_reqLineLen r)
  (m_reqURLOff r) (m_reqURLLen r) (m_otherHeaderLen r) (m_otherHeaderOffset r) x (m_iHeaderStatus r) (m_iHS1 r)
  (m_iHS3 r) (m_iLeadingWWW r) (m_iHS2 r) (m_method r) (m_iUserAgentType r) (m_iUrlType r) (m_iCfRealIpHeader r)
  (m_ver r) (m_iReqFlag r) (m_iAcceptGzip r) (m_iAcceptBr r) (m_iAcceptZstd r) (m_lEntityLength r)
  (m_iContextState r) (m_iHttpHeaderEnd r) (m_iHostOff r) (m_iHostLen r) (m_upgradeProto r) (m_iBodyType r)
  (m_multipartBodyGuard r).
Definition set_iHeaderStatus x (r : HttpReq) : HttpReq :=
  Req (m_headerBuf r) (m_iReqHeaderBufFinished r) (m_iReqHeaderBufRead r) (m_curUrl_key r) (m_curUrl_val r)
  (m_unknHeaders r) (m_commonHeaderLen r) (m_commonHeaderOffset r) (m_reqLineOff r) (m_reqLineLen r)
  (m_reqURLOff r) (m_reqURLLen r) (m_otherHeaderLen r) (m_otherHeaderOffset r) (m_newHost r) x (m_iHS1 r)
  (m_iHS3 r) (m_iLeadingWWW r) (m_iHS2 r) (m_method r) (m_iUserAgentType r) (m_iUrlType r) (m_iCfRealIpHeader r)
  (m_ver r) (m_iReqFlag r) (m_iAcceptGzip r) (m_iAcceptBr r) (m_iAcceptZstd r) (m_lEntityLength r)
  (m_iContextState r) (m_iHttpHeaderEnd r) (m_iHostOff r) (m_iHostLen r) (m_upgradeProto r) (m_iBodyType r)
  (m_multipartBodyGuard r).
Definition set_iHS1 x (r : HttpReq) : HttpReq :=
  Req (m_headerBuf r) (m_iReqHeaderBufFinished r) (m_iReqHeaderBufRead r) (m_curUrl_key r) (m_curUrl_val r)
  (m_unknHeaders r) (m_commonHeaderLen r) (m_commonHeaderOffset r) (m_reqLineOff r) (m_reqLineLen r)
  (m_reqURLOff r) (m_reqURLLen r) (m_otherHeaderLen r) (m_otherHeaderOffset r) (m_newHost r) (m_iHeaderStatus r) x
  (m_iHS3 r) (m_iLeadingWWW r) (m_iHS2 r) (m_method r) (m_iUserAgentType r) (m_iUrlType r) (m_iCfRealIpHeader r)
  (m_ver r) (m_iReqFlag r) (m_iAcceptGzip r) (m_iAcceptBr r) (m_iAcceptZstd r) (m_lEntityLength r)
  (m_iContextState r) (m_iHttpHeaderEnd r) (m_iHostOff r) (m_iHostLen r) (m_upgradeProto r) (m_iBodyType r)
  (m_multipartBodyGuard r).
Definition set_iHS3 x (r : HttpReq) : HttpReq :=
  Req (m_headerBuf r) (m_iReqHeaderBufFinished r) (m_iReqHeaderBufRead r) (m_curUrl_key r) (m_curUrl_val r)
  (m_unknHeaders r) (m_commonHeaderLen r) (m_commonHeaderOffset r) (m_reqLineOff r) (m_reqLineLen r)
  (m_reqURLOff r) (m_reqURLLen r) (m_otherHeaderLen r) (m_otherHeaderOffset r) (m_newHost r) (m_iHeaderStatus r)
  (m_iHS1 r) x (m_iLeadingWWW r) (m_iHS2 r) (m_method r) (m_iUserAgentType r) (m_iUrlType r) (m_iCfRealIpHeader r)
  (m_ver r) (m_iReqFlag r) (m_iAcceptGzip r) (m_iAcceptBr r) (m_iAcceptZstd r) (m_lEntityLength r)
  (m_iContextState r) (m_iHttpHeaderEnd r) (m_iHostOff r) (m_iHostLen r) (m_upgradeProto r) (m_iBodyType r)
  (m_multipartBodyGuard r).
Definition set_iLeadingWWW x (r : HttpReq) : HttpReq :=
  Req (m_headerBuf r) (m_iReqHeaderBufFinished r) (m_iReqHeaderBufRead r) (m_curUrl_key r) (m_curUrl_val r)
  (m_unknHeaders r) (m_commonHeaderLen r) (m_commonHeaderOffset r) (m_reqLineOff r) (m_reqLineLen r)
  (m_reqURLOff r) (m_reqURLLen r) (m_otherHeaderLen r) (m_otherHeaderOffset r) (m_newHost r) (m_iHeaderStatus r)
  (m_iHS1 r) (m_iHS3 r) x (m_iHS2 r) (m_method r) (m_iUserAgentType r) (m_iUrlType r) (m_iCfRealIpHeader r)
  (m_ver r) (m_iReqFlag r) (m_iAcceptGzip r) (m_iAcceptBr r) (m_iAcceptZstd r) (m_lEntityLength r)
  (m_iContextState r) (m_iHttpHeaderEnd r) (m_iHostOff r) (m_iHostLen r) (m_upgradeProto r) (m_iBodyType r)
  (m_multipartBodyGuard r).
Definition set_iHS2 x (r : HttpReq) : HttpReq :=
  Req (m_headerBuf r) (m_iReqHeaderBufFinished r) (m_iReqHeaderBufRead r) (m_curUrl_key r) (m_curUrl_val r)
  (m_unknHeaders r) (m_commonHeaderLen r) (m_commonHeaderOffset r) (m_reqLineOff r) (m_reqLineLen r)
  (m_reqURLOff r) (m_reqURLLen r) (m_otherHeaderLen r) (m_otherHeaderOffset r) (m_newHost r) (m_iHeaderStatus r)
  (m_iHS1 r) (m_iHS3 r) (m_iLeadingWWW r) x (m_method r) (m_iUserAgentType r) (m_iUrlType r) (m_iCfRealIpHeader r)
  (m_ver r) (m_iReqFlag r) (m_iAcceptGzip r) (m_iAcceptBr r) (m_iAcceptZstd r) (m_lEntityLength r)
  (m_iContextState r) (m_iHttpHeaderEnd r) (m_iHostOff r) (m_iHostLen r) (m_upgradeProto r) (m_iBodyType r)
  (m_multipartBodyGuard r).
Definition set_method x (r : HttpReq) : HttpReq :=
  Req (m_headerBuf r) (m_iReqHeaderBufFinished r) (m_iReqHeaderBufRead r) (m_curUrl_key r) (m_curUrl_val r)
  (m_unknHeaders r) (m_commonHeaderLen r) (m_commonHeaderOffset r) (m_reqLineOff r) (m_reqLineLen r)
  (m_reqURLOff r) (m_reqURLLen r) (m_otherHeaderLen r) (m_otherHeaderOffset r) (m_newHost r) (m_iHeaderStatus r)
  (m_iHS1 r) (m_iHS3 r) (m_iLeadingWWW r) (m_iHS2 r) x (m_iUserAgentType r) (m_iUrlType r) (m_iCfRealIpHeader r)
  (m_ver r) (m_iReqFlag r) (m_iAcceptGzip r) (m_iAcceptBr r) (m_iAcceptZstd r) (m_lEntityLength r)
  (m_iContextState r) (m_iHttpHeaderEnd r) (m_iHostOff r) (m_iHostLen r) (m_upgradeProto r) (m_iBodyType r)
  (m_multipartBodyGuard r).
Definition set_iUserAgentType x (r : HttpReq) : HttpReq :=
  Req (m_headerBuf r) (m_iReqHeaderBufFinished r) (m_iReqHeaderBufRead r) (m_curUrl_key r) (m_curUrl_val r)
  (m_unknHeaders r) (m_commonHeaderLen r) (m_commonHeaderOffset r) (m_reqLineOff r) (m_reqLineLen r)
  (m_reqURLOff r) (m_reqURLLen r) (m_otherHeaderLen r) (m_otherHeaderOffset r) (m_newHost r) (m_iHeaderStatus r)
  (m_iHS1 r) (m_iHS3 r) (m_iLeadingWWW r) (m_iHS2 r) (m_method r) x (m_iUrlType r) (m_iCfRealIpHeader r) (m_ver r)
  (m_iReqFlag r) (m_iAcceptGzip r) (m_iAcceptBr r) (m_iAcceptZstd r) (m_lEntityLength r) (m_iContextState r)
  (m_iHttpHeaderEnd r) (m_iHostOff r) (m_iHostLen r) (m_upgradeProto r) (m_iBodyType r) (m_multipartBodyGuard r).
Definition set_iUrlType x (r : HttpReq) : HttpReq :=
  Req (m_headerBuf r) (m_iReqHeaderBufFinished r) (m_iReqHeaderBufRead r) (m_curUrl_key r) (m_curUrl_val r)
  (m_unknHeaders r) (m_commonHeaderLen r) (m_commonHeaderOffset r) (m_reqLineOff r) (m_reqLineLen r)
  (m_reqURLOff r) (m_reqURLLen r) (m_otherHeaderLen r) (m_otherHeaderOffset r) (m_newHost r) (m_iHeaderStatus r)
  (m_iHS1 r) (m_iHS3 r) (m_iLeadingWWW r) (m_iHS2 r) (m_method r) (m_iUserAgentType r) x (m_iCfRealIpHeader r)
  (m_ver r) (m_iReqFlag r) (m_iAcceptGzip r) (m_iAcceptBr r) (m_iAcceptZstd r) (m_lEntityLength r)
  (m_iContextState r) (m_iHttpHeaderEnd r) (m_iHostOff r) (m_iHostLen r) (m_upgradeProto r) (m_iBodyType r)
  (m_multipartBodyGuard r).
Definition set_iCfRealIpHeader x (r : HttpReq) : HttpReq :=
  Req (m_headerBuf r) (m_iReqHeaderBufFinished r) (m_iReqHeaderBufRead r) (m_curUrl_key r) (m_curUrl_val r)
  (m_unknHeaders r) (m_commonHeaderLen r) (m_commonHeaderOffset r) (m_reqLineOff r) (m_reqLineLen r)
  (m_reqURLOff r) (m_reqURLLen r) (m_otherHeaderLen r) (m_otherHeaderOffset r) (m_newHost r) (m_iHeaderStatus r)
  (m_iHS1 r) (m_iHS3 r) (m_iLeadingWWW r) (m_iHS2 r) (m_method r) (m_iUserAgentType r) (m_iUrlType r) x (m_ver r)
  (m_iReqFlag r) (m_iAcceptGzip r) (m_iAcceptBr r) (m_iAcceptZstd r) (m_lEntityLength r) (m_iContextState r)
  (m_iHttpHeaderEnd r) (m_iHostOff r) (m_iHostLen r) (m_upgradeProto r) (m_iBodyType r) (m_multipartBodyGuard r).
Definition set_ver x (r : HttpReq) : HttpReq :=
  Req (m_headerBuf r) (m_iReqHeaderBufFinished r) (m_iReqHeaderBufRead r) (m_curUrl_key r) (m_curUrl_val r)
  (m_unknHeaders r) (m_commonHeaderLen r) (m_commonHeaderOffset r) (m_reqLineOff r) (m_reqLineLen r)
  (m_reqURLOff r) (m_reqURLLen r) (m_otherHeaderLen r) (m_otherHeaderOffset r) (m_newHost r) (m_iHeaderStatus r)
  (m_iHS1 r) (m_iHS3 r) (m_iLeadingWWW r) (m_iHS2 r) (m_method r) (m_iUserAgentType r) (m_iUrlType r)
  (m_iCfRealIpHeader r) x (m_iReqFlag r) (m_iAcceptGzip r) (m_iAcceptBr r) (m_iAcceptZstd r) (m_lEntityLength r)
  (m_iContextState r) (m_iHttpHeaderEnd r) (m_iHostOff r) (m_iHostLen r) (m_upgradeProto r) (m_iBodyType r)
  (m_multipartBodyGuard r).
Definition set_iReqFlag x (r : HttpReq) : HttpReq :=
  Req (m_headerBuf r) (m_iReqHeaderBufFinished r) (m_iReqHeaderBufRead r) (m_curUrl_key r) (m_curUrl_val r)
  (m_unknHeaders r) (m_commonHeaderLen r) (m_commonHeaderOffset r) (m_reqLineOff r) (m_reqLineLen r)
  (m_reqURLOff r) (m_reqURLLen r) (m_otherHeaderLen r) (m_otherHeaderOffset r) (m_newHost r) (m_iHeaderStatus r)
  (m_iHS1 r) (m_iHS3 r) (m_iLeadingWWW r) (m_iHS2 r) (m_method r) (m_iUserAgentType r) (m_iUrlType r)
  (m_iCfRealIpHeader r) (m_ver r) x (m_iAcceptGzip r) (m_iAcceptBr r) (m_iAcceptZstd r) (m_lEntityLength r)
  (m_iContextState r) (m_iHttpHeaderEnd r) (m_iHostOff r) (m_iHostLen r) (m_upgradeProto r) (m_iBodyType r)
  (m_multipartBodyGuard r).
Definition set_iAcceptGzip x (r : HttpReq) : HttpReq :=
  Req (m_headerBuf r) (m_iReqHeaderBufFinished r) (m_iReqHeaderBufRead r) (m_curUrl_key r) (m_curUrl_val r)
  (m_unknHeaders r) (m_commonHeaderLen r) (m_commonHeaderOffset r) (m_reqLineOff r) (m_reqLineLen r)
  (m_reqURLOff r) (m_reqURLLen r) (m_otherHeaderLen r) (m_otherHeaderOffset r) (m_newHost r) (m_iHeaderStatus r)
  (m_iHS1 r) (m_iHS3 r) (m_iLeadingWWW r) (m_iHS2 r) (m_method r) (m_iUserAgentType r) (m_iUrlType r)
  (m_iCfRealIpHeader r) (m_ver r) (m_iReqFlag r) x (m_iAcceptBr r) (m_iAcceptZstd r) (m_lEntityLength r)
  (m_iContextState r) (m_iHttpHeaderEnd r) (m_iHostOff r) (m_iHostLen r) (m_upgradeProto r) (m_iBodyType r)
  (m_multipartBodyGuard r).
Definition set_iAcceptBr x (r : HttpReq) : HttpReq :=
  Req (m_headerBuf r) (m_iReqHeaderBufFinished r) (m_iReqHeaderBufRead r) (m_curUrl_key r) (m_curUrl_val r)
  (m_unknHeaders r) (m_commonHeaderLen r) (m_commonHeaderOffset r) (m_reqLineOff r) (m_reqLineLen r)
  (m_reqURLOff r) (m_reqURLLen r) (m_otherHeaderLen r) (m_otherHeaderOffset r) (m_newHost r) (m_iHeaderStatus r)
  (m_iHS1 r) (m_iHS3 r) (m_iLeadingWWW r) (m_iHS2 r) (m_method r) (m_iUserAgentType r) (m_iUrlType r)
  (m_iCfRealIpHeader r) (m_ver r) (m_iReqFlag r) (m_iAcceptGzip r) x (m_iAcceptZstd r) (m_lEntityLength r)
  (m_iContextState r) (m_iHttpHeaderEnd r) (m_iHostOff r) (m_iHostLen r) (m_upgradeProto r) (m_iBodyType r)
  (m_multipartBodyGuard r).
Definition set_iAcceptZstd x (r : HttpReq) : HttpReq :=
  Req (m_headerBuf r) (m_iReqHeaderBufFinished r) (m_iReqHeaderBufRead r) (m_curUrl_key r) (m_curUrl_val r)
  (m_unknHeaders r) (m_commonHeaderLen r) (m_commonHeaderOffset r) (m_reqLineOff r) (m_reqLineLen r)
  (m_reqURLOff r) (m_reqURLLen r) (m_otherHeaderLen r) (m_otherHeaderOffset r) (m_newHost r) (m_iHeaderStatus r)
  (m_iHS1 r) (m_iHS3 r) (m_iLeadingWWW r) (m_iHS2 r) (m_method r) (m_iUserAgentType r) (m_iUrlType r)
  (m_iCfRealIpHeader r) (m_ver r) (m_iReqFlag r) (m_iAcceptGzip r) (m_iAcceptBr r) x (m_lEntityLength r)
  (m_iContextState r) (m_iHttpHeaderEnd r) (m_iHostOff r) (m_iHostLen r) (m_upgradeProto r) (m_iBodyType r)
  (m_multipartBodyGuard r).
Definition set_lEntityLength x (r : HttpReq) : HttpReq :=
  Req (m_headerBuf r) (m_iReqHeaderBufFinished r) (m_iReqHeaderBufRead r) (m_curUrl_key r) (m_curUrl_val r)
  (m_unknHeaders r) (m_commonHeaderLen r) (m_commonHeaderOffset r) (m_reqLineOff r) (m_reqLineLen r)
  (m_reqURLOff r) (m_reqURLLen r) (m_otherHeaderLen r) (m_otherHeaderOffset r) (m_newHost r) (m_iHeaderStatus r)
  (m_iHS1 r) (m_iHS3 r) (m_iLeadingWWW r) (m_iHS2 r) (m_method r) (m_iUserAgentType r) (m_iUrlType r)
  (m_iCfRealIpHeader r) (m_ver r) (m_iReqFlag r) (m_iAcceptGzip r) (m_iAcceptBr r) (m_iAcceptZstd r) x
  (m_iContextState r) (m_iHttpHeaderEnd r) (m_iHostOff r) (m_iHostLen r) (m_upgradeProto r) (m_iBodyType r)
  (m_multipartBodyGuard r).
Definition set_iContextState x (r : HttpReq) : HttpReq :=
  Req (m_headerBuf r) (m_iReqHeaderBufFinished r) (m_iReqHeaderBufRead r) (m_curUrl_key r) (m_curUrl_val r)
  (m_unknHeaders r) (m_commonHeaderLen r) (m_commonHeaderOffset r) (m_reqLineOff r) (m_reqLineLen r)
  (m_reqURLOff r) (m_reqURLLen r) (m_otherHeaderLen r) (m_otherHeaderOffset r) (m_newHost r) (m_iHeaderStatus r)
  (m_iHS1 r) (m_iHS3 r) (m_iLeadingWWW r) (m_iHS2 r) (m_method r) (m_iUserAgentType r) (m_iUrlType r)
  (m_iCfRealIpHeader r) (m_ver r) (m_iReqFlag r) (m_iAcceptGzip r) (m_iAcceptBr r) (m_iAcceptZstd r)
  (m_lEntityLength r) x (m_iHttpHeaderEnd r) (m_iHostOff r) (m_iHostLen r) (m_upgradeProto r) (m_iBodyType r)
  (m_multipartBodyGuard r).
Definition set_iHttpHeaderEnd x (r : HttpReq) : HttpReq :=
  Req (m_headerBuf r) (m_iReqHeaderBufFinished r) (m_iReqHeaderBufRead r) (m_curUrl_key r) (m_curUrl_val r)
  (m_unknHeaders r) (m_commonHeaderLen r) (m_commonHeaderOffset r) (m_reqLineOff r) (m_reqLineLen r)
  (m_reqURLOff r) (m_reqURLLen r) (m_otherHeaderLen r) (m_otherHeaderOffset r) (m_newHost r) (m_iHeaderStatus r)
  (m_iHS1 r) (m_iHS3 r) (m_iLeadingWWW r) (m_iHS2 r) (m_method r) (m_iUserAgentType r) (m_iUrlType r)
  (m_iCfRealIpHeader r) (m_ver r) (m_iReqFlag r) (m_iAcceptGzip r) (m_iAcceptBr r) (m_iAcceptZstd r)
  (m_lEntityLength r) (m_iContextState r) x (m_iHostOff r) (m_iHostLen r) (m_upgradeProto r) (m_iBodyType r)
  (m_multipartBodyGuard r).
Definition set_iHostOff x (r : HttpReq) : HttpReq :=
  Req (m_headerBuf r) (m_iReqHeaderBufFinished r) (m_iReqHeaderBufRead r) (m_curUrl_key r) (m_curUrl_val r)
  (m_unknHeaders r) (m_commonHeaderLen r) (m_commonHeaderOffset r) (m_reqLineOff r) (m_reqLineLen r)
  (m_reqURLOff r) (m_reqURLLen r) (m_otherHeaderLen r) (m_otherHeaderOffset r) (m_newHost r) (m_iHeaderStatus r)
  (m_iHS1 r) (m_iHS3 r) (m_iLeadingWWW r) (m_iHS2 r) (m_method r) (m_iUserAgentType r) (m_iUrlType r)
  (m_iCfRealIpHeader r) (m_ver r) (m_iReqFlag r) (m_iAcceptGzip r) (m_iAcceptBr r) (m_iAcceptZstd r)
  (m_lEntityLength r) (m_iContextState r) (m_iHttpHeaderEnd r) x (m_iHostLen r) (m_upgradeProto r) (m_iBodyType r)
  (m_multipartBodyGuard r).
Definition set_iHostLen x (r : HttpReq) : HttpReq :=
  Req (m_headerBuf r) (m_iReqHeaderBufFinished r) (m_iReqHeaderBufRead r) (m_curUrl_key r) (m_curUrl_val r)
  (m_unknHeaders r) (m_commonHeaderLen r) (m_commonHeaderOffset r) (m_reqLineOff r) (m_reqLineLen r)
  (m_reqURLOff r) (m_reqURLLen r) (m_otherHeaderLen r) (m_otherHeaderOffset r) (m_newHost r) (m_iHeaderStatus r)
  (m_iHS1 r) (m_iHS3 r) (m_iLeadingWWW r) (m_iHS2 r) (m_method r) (m_iUserAgentType r) (m_iUrlType r)
  (m_iCfRealIpHeader r) (m_ver r) (m_iReqFlag r) (m_iAcceptGzip r) (m_iAcceptBr r) (m_iAcceptZstd r)
  (m_lEntityLength r) (m_iContextState r) (m_iHttpHeaderEnd r) (m_iHostOff r) x (m_upgradeProto r) (m_iBodyType r)
  (m_multipartBodyGuard r).
Definition set_upgradeProto x (r : HttpReq) : HttpReq :=
  Req (m_headerBuf r) (m_iReqHeaderBufFinished r) (m_iReqHeaderBufRead r) (m_curUrl_key r) (m_curUrl_val r)
  (m_unknHeaders r) (m_commonHeaderLen r) (m_commonHeaderOffset r) (m_reqLineOff r) (m_reqLineLen r)
  (m_reqURLOff r) (m_reqURLLen r) (m_otherHeaderLen r) (m_otherHeaderOffset r) (m_newHost r) (m_iHeaderStatus r)
  (m_iHS1 r) (m_iHS3 r) (m_iLeadingWWW r) (m_iHS2 r) (m_method r) (m_iUserAgentType r) (m_iUrlType r)
  (m_iCfRealIpHeader r) (m_ver r) (m_iReqFlag r) (m_iAcceptGzip r) (m_iAcceptBr r) (m_iAcceptZstd r)
  (m_lEntityLength r) (m_iContextState r) (m_iHttpHeaderEnd r) (m_iHostOff r) (m_iHostLen r) x (m_iBodyType r)
  (m_multipartBodyGuard r).
Definition set_iBodyType x (r : HttpReq) : HttpReq :=
  Req (m_headerBuf r) (m_iReqHeaderBufFinished r) (m_iReqHeaderBufRead r) (m_curUrl_key r) (m_curUrl_val r)
  (m_unknHeaders r) (m_commonHeaderLen r) (m_commonHeaderOffset r) (m_reqLineOff r) (m_reqLineLen r)
  (m_reqURLOff r) (m_reqURLLen r) (m_otherHeaderLen r) (m_otherHeaderOffset r) (m_newHost r) (m_iHeaderStatus r)
  (m_iHS1 r) (m_iHS3 r) (m_iLeadingWWW r) (m_iHS2 r) (m_method r) (m_iUserAgentType r) (m_iUrlType r)
  (m_iCfRealIpHeader r) (m_ver r) (m_iReqFlag r) (m_iAcceptGzip r) (m_iAcceptBr r) (m_iAcceptZstd r)
  (m_lEntityLength r) (m_iContextState r) (m_iHttpHeaderEnd r) (m_iHostOff r) (m_iHostLen r) (m_upgradeProto r) x
  (m_multipartBodyGuard r).
Definition set_multipartBodyGuard x (r : HttpReq) : HttpReq :=
  Req (m_headerBuf r) (m_iReqHeaderBufFinished r) (m_iReqHeaderBufRead r) (m_curUrl_key r) (m_curUrl_val r)
  (m_unknHeaders r) (m_commonHeaderLen r) (m_commonHeaderOffset r) (m_reqLineOff r) (m_reqLineLen r)
  (m_reqURLOff r) (m_reqURLLen r) (m_otherHeaderLen r) (m_otherHeaderOffset r) (m_newHost r) (m_iHeaderStatus r)
  (m_iHS1 r) (m_iHS3 r) (m_iLeadingWWW r) (m_iHS2 r) (m_method r) (m_iUserAgentType r) (m_iUrlType r)
  (m_iCfRealIpHeader r) (m_ver r) (m_iReqFlag r) (m_iAcceptGzip r) (m_iAcceptBr r) (m_iAcceptZstd r)
  (m_lEntityLength r) (m_iContextState r) (m_iHttpHeaderEnd r) (m_iHostOff r) (m_iHostLen r) (m_upgradeProto r)
  (m_iBodyType r) x.

(** What the parser reads of the server's configuration. *)
Record HttpServerConfig := Cfg {
  getMaxURLLen : Z; getGzipCompress : bool; getBrCompress : bool; getZstdCompress : bool;
  recaptchaDynUrl : list Z; guardSettings : settings }.

(** The constructor. *)
Definition new_HttpReq : HttpReq :=
  Req (repeat 0 4) HEADER_BUF_PAD HEADER_BUF_PAD [] None [] (repeat 0 25) (repeat 0 25) 0 0 0 0 (repeat 0 16) (repeat 0 16)
    [] HEADER_REQUEST_LINE 0 0 0 0 0 0 0 0 0 0 0 0 0 0 0 0 0 0 UPD_PROTO_NONE REQ_BODY_UNKNOWN Guard.reset.

(** ** Access to the buffer *)

Definition at_ (r : HttpReq) (p : Z) : Z := znth (m_headerBuf r) p.
Definition text (r : HttpReq) (p e : Z) : list Z := slice p e (m_headerBuf r).
Definition put_ (p : Z) (d : list Z) (r : HttpReq) : HttpReq := set_headerBuf (store (m_headerBuf r) p d) r.
Definition bend (r : HttpReq) : Z := zlen (m_headerBuf r).
Definition memset (p c n : Z) (r : HttpReq) : HttpReq := put_ p (repeat c (Z.to_nat n)) r.

(** [memchr(p, c, e - p)] as an offset. *)
Definition find (r : HttpReq) (c p e : Z) : option Z := option_map (Z.add p) (memchr c (text r p e)).

(** The first offset from [p] on, before [e], of one of the bytes of [stop]. *)
Definition scan_to (r : HttpReq) (stop : list Z) (p e : Z) : Z :=
  p + zlen (span (fun c => negb (existsb (Z.eqb c) stop)) (text r p e)).1.

(** [if ((result = e)) return result;]. *)
Notation "'check' r <- e 'andthen' k" := (let '(result, r) := e in if result =? 0 then k else (result, r))
  (at level 10, r name, e at level 100, k at level 200).

Definition keepAlive (on : bool) (r : HttpReq) : HttpReq :=
  set_iReqFlag (if on then Z.lor (m_iReqFlag r) IS_KEEPALIVE else Z.ldiff (m_iReqFlag r) IS_KEEPALIVE) r.
Definition orContextState (s : Z) (r : HttpReq) : HttpReq := set_iContextState (Z.lor (m_iContextState r) s) r.
Definition setNoRespBody : HttpReq -> HttpReq := orContextState NO_RESP_BODY.
Definition isHeaderSet (r : HttpReq) (index : Z) : bool := negb (znth (m_commonHeaderOffset r) index =? 0).
Definition setNewHost (h : list Z) (r : HttpReq) : HttpReq := set_newHost h r.

(** The text has [needle] in it. *)
Fixpoint memmem (hay needle : list Z) : bool :=
  bytes_eqb (ztake (zlen needle) hay) needle || match hay with [] => false | _ :: hay => memmem hay needle end.
Definition strcasestr (hay needle : list Z) : bool := memmem (map tolower hay) needle.

(** ** The request line *)

Definition parseMethod (pCur : Z) (r : HttpReq) : Z * HttpReq :=
  let method := parse2 (zdrop pCur (m_headerBuf r)) in
  let r := set_method method r in
  if method =? 0 then (SC_400, r)
  else
    let r := if method =? HTTP_HEAD then setNoRespBody r else r in
    if (method <? HTTP_OPTIONS) || (method >=? HTTP_METHOD_END) then (SC_505, r)
    else
      let ch := at_ r (pCur + getLen method) in
      if negb (ch =? 32) && negb (ch =? 9) then (SC_400, r) else (0, r).

(** [postProcessHost]: the authority in lower case, in place. *)
Definition postProcessHost (pCur pBEnd : Z) (r : HttpReq) : Z * HttpReq :=
  let hostLen := getAuthorityHostLen (text r pCur pBEnd) in
  if hostLen <? 0 then (SC_400, set_iHostLen 0 (set_iHostOff 0 r))
  else
    let r :=
      if pCur + 4 <? pBEnd then
        let r := put_ pCur (map tolower (text r pCur pBEnd)) r in
        if bytes_eqb (text r pCur (pCur + 4)) (bs "www.") then set_iLeadingWWW 1 r else r
      else r in
    (0, set_iHostLen hostLen r).

Definition parseHost (pCur pBEnd : Z) (r : HttpReq) : Z * HttpReq :=
  if existsb (Z.eqb (at_ r pCur)) (bs "/%*") then (0, r)
  else
    match find r 58 pCur pBEnd with
    | Some pHost =>
        if pHost + 2 <? pBEnd then
          if negb (isReqSchemeValid (text r pCur pHost)) || negb (at_ r (pHost + 1) =? 47) || negb (at_ r (pHost + 2) =? 47)
          then (SC_400, r)
          else
            let pHost := pHost + 3 in
            match find r 47 pHost pBEnd with
            | Some pHostEnd =>
                let r := set_iHostLen (pHost - pCur) r in
                check r <- postProcessHost pHost pHostEnd r andthen
                let r := setNewHost (text r pHost pHostEnd) (set_iHostOff pHost r) in
                (0, if m_iHostLen r =? 0 then set_iHostOff 0 r else r)
            | None => (1, set_iReqHeaderBufFinished (bend r) r)
            end
        else (1, set_iReqHeaderBufFinished pCur r)
    | None => (1, set_iReqHeaderBufFinished pCur r)
    end.

(** [classifyUrl]; the texts are those of the end or of the start of the path. *)
Definition URL_GENERIC : Z := 0.
Definition URL_FAVICON : Z := 1.
Definition URL_ROBOTS_TXT : Z := 2.
Definition URL_WELL_KNOWN : Z := 3.
Definition URL_ACME_CHALLENGE : Z := 4.
Definition URL_CAPTCHA_VERIFY : Z := 5.

Definition ends_with (url s : list Z) : bool := bytes_eqb (zdrop (zlen url - zlen s) url) s.
Definition has_at (url : list Z) (off : Z) (s : list Z) : bool := bytes_eqb (slice off (off + zlen s) url) s.

Definition classifyUrl (cfg : HttpServerConfig) (r : HttpReq) : HttpReq :=
  let url := m_curUrl_key r in
  if zlen url <? 11 then r
  else if ends_with url (bs "/robots.txt") then set_iUrlType URL_ROBOTS_TXT r
  else if (zlen url >=? 12) && ends_with url (bs "/favicon.ico") then set_iUrlType URL_FAVICON r
  else if (zlen url >=? 13) && has_at url 0 (bs "/.well-known/") then
    if (zlen url >=? 28) && has_at url 13 (bs "acme-challenge/") then set_iUrlType URL_ACME_CHALLENGE r
    else set_iUrlType URL_WELL_KNOWN r
  else if (zlen url >=? zlen (recaptchaDynUrl cfg)) && ends_with url (recaptchaDynUrl cfg) then set_iUrlType URL_CAPTCHA_VERIFY r
  else r.

Definition parseURL (cfg : HttpServerConfig) (pCur pBEnd : Z) (r : HttpReq) : Z * HttpReq :=
  let pMark := find r 63 pCur pBEnd in
  let r := set_curUrl_val (option_map (fun m => text r (m + 1) pBEnd) pMark) r in
  let target := text r pCur (match pMark with Some m => m | None => pBEnd end) in
  let '(result, uri) := parseURI (repeat 0 (length target + 32)) (m_method r =? HTTP_OPTIONS) target in
  let r := match uri with Some uri => set_curUrl_key uri r | None => r end in
  if result =? 0 then (0, classifyUrl cfg (set_reqURLLen (pBEnd - m_reqURLOff r) r)) else (result, r).

(** [parseProtocol], with where it leaves [pCur]. *)
Definition parseProtocol (pCur pBEnd : Z) (r : HttpReq) : Z * (Z * HttpReq) :=
  if pBEnd - pCur <? 8 then (SC_400, (pCur, r))
  else if negb (bytes_eqb (text r pCur (pCur + 7)) (bs "HTTP/1.")) then (SC_400, (pCur, r))
  else
    let pCur := pCur + 7 in
    if at_ r pCur =? 49 then (0, (pCur + 1, keepAlive true (set_ver HTTP_1_1 r)))
    else if at_ r pCur =? 48 then (0, (pCur + 1, put_ pCur [49] (set_ver HTTP_1_0 (keepAlive false r))))
    else (SC_505, (pCur, set_ver HTTP_1_1 r)).

(** The search for the first line that is not empty: bad, not there yet (with
    whether the line is too long), or found at an offset, with its line feed. *)
Inductive line_search :=
  | LineBad (r : HttpReq)
  | LineNone (r : HttpReq) (isLongLine : bool)
  | LineFound (r : HttpReq) (pCur pLineEnd : Z).

Fixpoint find_line (fuel : nat) (r : HttpReq) (pCur pBEnd : Z) (isLongLine : bool) : line_search :=
  match fuel, find r 10 pCur pBEnd with
  | O, _ | _, None => LineNone r isLongLine
  | S fuel, Some pLineEnd =>
      if (pLineEnd =? pCur) || negb (at_ r (pLineEnd - 1) =? 13) then LineBad r
      else if pLineEnd =? pCur + 1 then
        let pCur := pLineEnd + 1 in
        find_line fuel (set_iReqHeaderBufFinished pCur r) pCur pBEnd false
      else if isspace (at_ r pCur) then LineBad r
      else LineFound r pCur pLineEnd
  end.

(** ** What a header sets *)

(** [processUserAgent]. *)
Definition UA_UNKNOWN : Z := 0.
Definition UA_SAFARI : Z := 1.
Definition UA_LITEMAGE_CRAWLER : Z := 2.
Definition UA_BENCHMARK_TOOL : Z := 3.
Definition UA_GOOGLEBOT_POSSIBLE : Z := 4.
Definition UA_LITEMAGE_RUNNER : Z := 7.
Definition UA_LSCACHE_WALKER : Z := 8.
Definition UA_LSCACHE_RUNNER : Z := 9.
Definition UA_CURL : Z := 10.
Definition UA_WGET : Z := 11.

Definition processUserAgent (pUserAgent : list Z) : Z :=
  match pUserAgent with
  | [] => UA_UNKNOWN
  | c :: _ =>
      if negb (existsb (Z.eqb c) (bs "lLaAgGmMcCwW")) then 0
      else
        let achUA := map tolower (ztake 255 pUserAgent) in
        let len := zlen achUA in
        let starts off s := has_at achUA off (bs s) in
        match tolower c with
        | 108 (* l *) =>
            if starts 0 "litemage_" then
              if starts 9 "walker" then UA_LITEMAGE_CRAWLER else if starts 9 "runner" then UA_LITEMAGE_RUNNER else UA_UNKNOWN
            else if starts 0 "lscache_" then
              if starts 8 "walker" then UA_LSCACHE_WALKER else if starts 8 "runner" then UA_LSCACHE_RUNNER else UA_UNKNOWN
            else UA_UNKNOWN
        | 97 (* a *) => if starts 0 "apachebench/" then UA_BENCHMARK_TOOL else UA_UNKNOWN
        | 103 (* g *) =>
            if starts 0 "googlebot/" || ((len >? 35) && starts 25 "googlebot/") then UA_GOOGLEBOT_POSSIBLE else UA_UNKNOWN
        | 109 (* m *) =>
            if (len >? 40) && negb (memmem (zdrop (len - 40) achUA) (bs "chrome")) && memmem (zdrop (len - 16) achUA) (bs "safari")
            then UA_SAFARI else UA_UNKNOWN
        | 99 (* c *) => if starts 0 "curl/" then UA_CURL else UA_UNKNOWN
        | 119 (* w *) => if starts 0 "wget/" then UA_WGET else UA_UNKNOWN
        | _ => UA_UNKNOWN
        end
  end.

Definition updateBodyType (cfg : HttpServerConfig) (header : list Z) (r : HttpReq) : HttpReq :=
  if (zlen header >=? 33) && strncaseeq header (bs "application/x-www-form-urlencoded") 33 then set_iBodyType REQ_BODY_FORM r
  else if (zlen header >=? 19) && strncaseeq header (bs "multipart/form-data") 19 then
    let r := set_iBodyType REQ_BODY_MULTIPART r in
    if s_blockEnabled (guardSettings cfg) then set_multipartBodyGuard (Guard.init header (s_scanLimit (guardSettings cfg))) r else r
  else r.

(** [processHeader(index)] for a common header that has just been stored. The
    value has no NUL ([processHeaderLines] refuses one), so that the C string the
    code makes of Accept-Encoding, with a NUL at [pBEnd] until it is searched, is
    [value]. *)
Definition processHeader_index (cfg : HttpServerConfig) (index : Z) (r : HttpReq) : Z * HttpReq :=
  if (index >=? H_TE) || (index <? 0) then (0, r)
  else
    let pCur := znth (m_commonHeaderOffset r) index in
    let len := znth (m_commonHeaderLen r) index in
    let pBEnd := pCur + len in
    let value := text r pCur pBEnd in
    if index =? H_HOST then
      if m_iHostOff r =? 0 then postProcessHost pCur pBEnd (set_iHostOff pCur r)
      else if (zlen (m_newHost r) >? 0) && (negb (zlen (m_newHost r) =? len) || negb (strncaseeq (m_newHost r) value len)) then (SC_400, r)
      else (0, r)
    else if index =? H_CONTENT_LENGTH then
      if len =? 0 then (SC_400, r)
      else if negb (isdigit (at_ r pCur)) then (SC_400, r)
      else if m_lEntityLength r =? LSI_BODY_SIZE_CHUNK then (SC_400, r)
      else
        let '(ret, v) := parseContentLength value in
        if ret =? 0 then (0, set_lEntityLength v r) else (ret, r)
    else if index =? H_CONTENT_TYPE then (0, updateBodyType cfg value r)
    else if index =? H_TRANSFER_ENCODING then
      if at_ r pCur =? 44 then (SC_400, r)
      else if isHeaderSet r H_CONTENT_LENGTH then (SC_400, r)
      else if (len =? 7) && strncaseeq value (bs "chunked") 7 then
        if m_method r <=? HTTP_HEAD then (SC_400, r) else (0, set_lEntityLength LSI_BODY_SIZE_CHUNK r)
      else (SC_501, r)
    else if index =? H_USERAGENT then (0, set_iUserAgentType (processUserAgent value) r)
    else if index =? H_ACC_ENCODING then
      if len >=? 2 then
        let ch := at_ r pBEnd in
        let r := put_ pBEnd [0] r in
        let r := if (len >=? 4) && strcasestr value (bs "gzip")
          then set_iAcceptGzip (Z.lor REQ_GZIP_ACCEPT (if getGzipCompress cfg then GZIP_ENABLED else 0)) r else r in
        let r := if strcasestr value (bs "br")
          then set_iAcceptBr (Z.lor REQ_BR_ACCEPT (if getBrCompress cfg then BR_ENABLED else 0)) r else r in
        let r := if (len >=? 4) && strcasestr value (bs "zstd")
          then set_iAcceptZstd (Z.lor REQ_ZSTD_ACCEPT (if getZstdCompress cfg then ZSTD_ENABLED else 0)) r else r in
        (0, put_ pBEnd [ch] r)
      else (0, r)
    else if index =? H_CONNECTION then
      (0, if m_ver r =? HTTP_1_1 then keepAlive (negb ((len >=? 4) && strncaseeq value (bs "clos") 4)) r
          else keepAlive ((len >=? 4) && strncaseeq value (bs "keep") 4) r)
    else if index =? H_COOKIE then
      (0, if (len >? 15) && memmem value (bs "litespeed_role=") then set_iReqFlag (Z.lor (m_iReqFlag r) IS_BL_COOKIE) r else r)
    else (0, r).

(** [eraseHeader]: blanks from the line end before the name to the value's end. *)
Definition eraseHeader (h : key_value_pair) (r : HttpReq) : HttpReq :=
  let p := keyOff h in
  let p := if at_ r (p - 1) =? 10 then if at_ r (p - 2) =? 13 then p - 2 else p - 1 else p in
  memset p 32 (valOff h + valLen h - p) r.

(** The last of [m_unknHeaders], which the code has a pointer to. *)
Definition set_cur_keyLen (n : Z) (r : HttpReq) : HttpReq :=
  set_unknHeaders (match rev (m_unknHeaders r) with h :: hs => rev (KV (keyOff h) n (valOff h) (valLen h) :: hs) | [] => [] end) r.
Definition pop_unknown (r : HttpReq) : HttpReq := set_unknHeaders (removelast (m_unknHeaders r)) r.

(** [processUnknownHeader]; the header is the last of [m_unknHeaders]. *)
Definition processUnknownHeader (h : key_value_pair) (r : HttpReq) : Z * HttpReq :=
  let name := text r (keyOff h) (keyOff h + keyLen h) in
  let value := text r (valOff h) (valOff h + valLen h) in
  let name_is s := strcaseeq name (bs s) in
  let value_is s n := strncaseeq value (bs s) n in
  if name_is "Upgrade" then
    if (valLen h =? 9) && value_is "websocket" 9 then (0, set_upgradeProto UPD_PROTO_WEBSOCKET r)
    else if (valLen h >=? 3) && value_is "h2c" 3 then
      (0, memset (keyOff h - 2) 32 (7 + valLen h + 4) (set_upgradeProto UPD_PROTO_HTTP2 r))
    else (0, r)
  else if name_is "CF-Connecting-IP" || name_is "X-Real-IP" then (0, set_iCfRealIpHeader (zlen (m_unknHeaders r)) r)
  else if name_is "X-Forwarded-Proto" then
    (0, if (valLen h =? 5) && value_is "https" 5 then set_iReqFlag (Z.lor (m_iReqFlag r) IS_FORWARDED_HTTPS) r else r)
  else if name_is "X-Forwarded-scheme" then
    (0, if (valLen h =? 5) && value_is "https" 5
        then set_iReqFlag (Z.lor (m_iReqFlag r) IS_FORWARDED_HTTPS) (set_cur_keyLen 17 (put_ (keyOff h + 12) (bs "Proto: ") r)) else r)
  else if name_is "proxy" then (SC_400, r)
  else if name_is "EXPECT" then
    if (valLen h >=? 3) && bytes_eqb (ztake 3 value) (bs "100") then (0, pop_unknown (eraseHeader h (orContextState EXPECT_100 r))) else (0, r)
  else (0, r).

(** ** The header lines *)

(** The continuation lines of a folded header: not all there, or an error, with
    the status; or the line feed that ends it. *)
Inductive folded := FoldReturn (ret : Z) (r : HttpReq) | FoldEnd (r : HttpReq) (pLineEnd : Z).

Fixpoint unfold_line (fuel : nat) (pLineBegin : Z) (r : HttpReq) (pLineEnd : Z) : folded :=
  match fuel with
  | O => FoldReturn 1 r
  | S fuel =>
      if pLineEnd + 1 >=? bend r then FoldReturn 1 (set_iReqHeaderBufFinished pLineBegin r)
      else if (at_ r (pLineEnd + 1) =? 32) || (at_ r (pLineEnd + 1) =? 9) then
        let r := put_ pLineEnd [32] r in
        let r := if at_ r (pLineEnd - 1) =? 13 then put_ (pLineEnd - 1) [32] r else r in
        match find r 10 pLineEnd (bend r) with
        | None => FoldReturn 1 r
        | Some pLineEnd => if negb (at_ r (pLineEnd - 1) =? 13) then FoldReturn SC_400 r else unfold_line fuel pLineBegin r pLineEnd
        end
      else FoldEnd r pLineEnd
  end.

(** The carriage returns of [p, e) become blanks. *)
Definition blank_cr (p e : Z) (r : HttpReq) : HttpReq :=
  if p <? e then put_ p (map (fun c => if c =? 13 then 32 else c) (text r p e)) r else r.

(** What a header line leads to: a return, or the next line. *)
Inductive line_result := LineReturn (ret : Z) (r : HttpReq) | LineNext (r : HttpReq).

Definition store_common (index off len : Z) (r : HttpReq) : HttpReq :=
  set_commonHeaderOffset (<[Z.to_nat index := off]> (m_commonHeaderOffset r))
    (set_commonHeaderLen (<[Z.to_nat index := wrapu 16 len]> (m_commonHeaderLen r)) r).
Definition store_other (index off len : Z) (r : HttpReq) : HttpReq :=
  set_otherHeaderOffset (<[Z.to_nat (index - H_TE) := off]> (m_otherHeaderOffset r))
    (set_otherHeaderLen (<[Z.to_nat (index - H_TE) := wrapu 16 len]> (m_otherHeaderLen r)) r).

(** From [if (index == H_HEADER_END)] on, for a header that is kept by name. *)
Definition unknown_line (pLineBegin pColon pTemp pTemp1 : Z) (r : HttpReq) : line_result :=
  if negb (validateHeaderName (text r pLineBegin pColon)) then LineReturn SC_400 r
  else
    let h := KV pLineBegin (zlen (skipSpace_back (text r pLineBegin pColon))) pTemp (pTemp1 - pTemp) in
    let '(ret, r) := processUnknownHeader h (set_unknHeaders (m_unknHeaders r ++ [h]) r) in
    if ret =? 0 then LineNext r else LineReturn ret r.

(** A header line [pLineBegin, pLineEnd] with its first colon at [pColon]. *)
Definition header_line (cfg : HttpServerConfig) (pLineBegin pColon pLineEnd : Z) (r : HttpReq) : line_result :=
  let r := blank_cr (pColon + 1) (pLineEnd - 1) r in
  let '(skip, value) := skipSpaceBothSide (text r (pColon + 1) pLineEnd) in
  let pTemp := pColon + 1 + skip in
  let pTemp1 := pTemp + zlen value in
  if (pTemp1 - pTemp >=? 4) && bytes_eqb (ztake 4 value) (bs "() {") then LineReturn SC_400 r
  else match memchr 0 value with Some _ => LineReturn SC_400 r | None =>
  let index := getIndex (zdrop pLineBegin (m_headerBuf r)) (pColon - pLineBegin) in
  if index <? H_TE then
    if znth (m_commonHeaderOffset r) index =? 0 then
      let '(ret, r) := processHeader_index cfg index (store_common index pTemp (pTemp1 - pTemp) r) in
      if ret =? 0 then LineNext r else LineReturn ret r
    else if (index =? H_HOST) || (index =? H_CONTENT_LENGTH) || (index =? H_TRANSFER_ENCODING) || (index =? H_AUTHORIZATION)
    then LineReturn SC_400 r
    else unknown_line pLineBegin pColon pTemp pTemp1 r
  else if index <? H_HEADER_END then
    if znth (m_otherHeaderLen r) (index - H_TE) =? 0 then
      let valLen := pTemp1 - pTemp in
      let upgrade := index =? H_UPGRADE in
      let websocket := (valLen =? 9) && strncaseeq value (bs "websocket") 9 in
      let r := if upgrade && websocket then set_upgradeProto UPD_PROTO_WEBSOCKET r else r in
      if upgrade && negb websocket && (valLen >=? 3) && strncaseeq value (bs "h2c") 3
      then LineNext (put_ pLineBegin [120] (set_upgradeProto UPD_PROTO_HTTP2 r))
      else LineNext (store_other index pTemp valLen r)
    else unknown_line pLineBegin pColon pTemp pTemp1 r
  else unknown_line pLineBegin pColon pTemp pTemp1 r
  end.

(** After the loop. *)
Definition headers_done (headerfinished : bool) (pLineBegin : Z) (r : HttpReq) : Z * HttpReq :=
  let r := set_iReqHeaderBufFinished pLineBegin r in
  if headerfinished then
    if (m_ver r =? HTTP_1_1) && negb (isHeaderSet r H_HOST) then (SC_400, r)
    else (0, set_iHeaderStatus HEADER_OK (set_iReqHeaderBufRead (bend r) (set_iHttpHeaderEnd (m_iReqHeaderBufFinished r) r)))
  else (1, r).

(** The loop of [processHeaderLines]; a line has a byte at least. *)
Fixpoint header_lines (fuel : nat) (cfg : HttpServerConfig) (pLineBegin : Z) (r : HttpReq) : Z * HttpReq :=
  match fuel, find r 10 pLineBegin (bend r) with
  | O, _ | _, None => headers_done false pLineBegin r
  | S fuel, Some pLineEnd =>
      if (pLineEnd =? pLineBegin) || negb (at_ r (pLineEnd - 1) =? 13) then (SC_400, r)
      else
        match find r 58 pLineBegin pLineEnd with
        | Some pColon =>
            match unfold_line (S (length (m_headerBuf r))) pLineBegin r pLineEnd with
            | FoldReturn ret r => (ret, r)
            | FoldEnd r pLineEnd =>
                match header_line cfg pLineBegin pColon pLineEnd r with
                | LineReturn ret r => (ret, r)
                | LineNext r => header_lines fuel cfg (pLineEnd + 1) r
                end
            end
        | None =>
            let lineLen := pLineEnd - pLineBegin in
            if (lineLen =? 0) || ((lineLen =? 1) && (at_ r pLineBegin =? 13)) then headers_done true (pLineEnd + 1) r
            else (SC_400, r)
        end
  end.

Definition processHeaderLines (cfg : HttpServerConfig) (r : HttpReq) : Z * HttpReq :=
  header_lines (S (length (m_headerBuf r))) cfg (m_iReqHeaderBufFinished r) r.

(** ** The request line, and the entry *)

(** [processRequestLine] once the line is [pCur, pLineEnd]. *)
Definition request_line (cfg : HttpServerConfig) (pCur pLineEnd : Z) (r : HttpReq) : Z * HttpReq :=
  let r := set_reqLineLen 0 (set_reqLineOff pCur r) in
  let p := scan_to r [32; 9] pCur pLineEnd in
  check r <- parseMethod pCur r andthen
  if (p >=? pLineEnd) || negb (at_ r p =? 32) || (p + 1 >=? pLineEnd) || (at_ r (p + 1) =? 32) || (at_ r (p + 1) =? 9) then (SC_400, r)
  else
    let p := p + 1 in
    check r <- parseHost p pLineEnd r andthen
    let p := if m_iHostOff r =? 0 then p else m_iHostOff r + m_iHostLen r in
    if (at_ r p =? 42) && ((p + 1 >=? pLineEnd) || negb (at_ r (p + 1) =? 32)) then (SC_400, r)
    else
      match if at_ r p =? 42 then Some p else find r 47 p pLineEnd with
      | None => (SC_400, r)
      | Some pCur =>
          let p := scan_to r [32; 9; 13] p pLineEnd in
          if (p >=? pLineEnd) || (pCur >? p) then (SC_400, r)
          else
            let r := set_reqURLOff pCur r in
            if negb (isReqTargetValid (text r pCur p)) then (SC_400, r)
            else
              check r <- parseURL cfg pCur p r andthen
              if negb (at_ r p =? 32) || (p + 1 >=? pLineEnd) || (at_ r (p + 1) =? 32) || (at_ r (p + 1) =? 9) then (SC_400, r)
              else
                let '(result, (pCur, r)) := parseProtocol (p + 1) pLineEnd r in
                if negb (result =? 0) then (result, r)
                else if pCur <? pLineEnd - 1 then (SC_400, r)
                else
                  let r := set_reqLineLen (pLineEnd - m_reqLineOff r) r in
                  let r := if at_ r (pLineEnd - 1) =? 13 then set_reqLineLen (m_reqLineLen r - 1) r else r in
                  let r := set_iHS3 0 (set_iHS2 H_HEADER_END (set_iHS1 0 (set_iHeaderStatus HEADER_HEADER r))) in
                  processHeaderLines cfg (set_iReqHeaderBufFinished (pLineEnd + 1) r)
      end.

Definition processRequestLine (cfg : HttpServerConfig) (r : HttpReq) : Z * HttpReq :=
  let pCur := m_iReqHeaderBufFinished r in
  let iBufLen := bend r - pCur in
  if iBufLen <? 0 then (SC_500, r)
  else
    let isLongLine := bend r >? getMaxURLLen cfg in
    let pBEnd := if isLongLine then getMaxURLLen cfg else bend r in
    match find_line (S (length (m_headerBuf r))) r pCur pBEnd isLongLine with
    | LineBad r => (SC_400, r)
    | LineNone r isLongLine => if isLongLine then (SC_414, r) else if iBufLen <? MAX_BUF_SIZE + 20 then (1, r) else (SC_400, r)
    | LineFound r pCur pLineEnd => request_line cfg pCur pLineEnd r
    end.

(** [HttpReq::processHeader()], called after every read. *)
Definition processHeader (cfg : HttpServerConfig) (r : HttpReq) : Z * HttpReq :=
  if m_iHeaderStatus r =? HEADER_REQUEST_LINE then
    let '(ret, r) := processRequestLine cfg r in
    if negb (ret =? 0) && (m_iHeaderStatus r =? HEADER_REQUEST_LINE) && (m_iReqHeaderBufFinished r >=? getMaxURLLen cfg)
    then (SC_414, set_reqLineLen (m_iReqHeaderBufFinished r - m_reqLineOff r) r)
    else (ret, r)
  else processHeaderLines cfg r.

(** The bytes of a read, and the parser after it. *)
Definition receive (cfg : HttpServerConfig) (data : list Z) (r : HttpReq) : Z * HttpReq :=
  processHeader cfg (set_headerBuf (m_headerBuf r ++ data) r).

(** Reads until one of them is not answered with 1. *)
Fixpoint receive_all (cfg : HttpServerConfig) (reads : list (list Z)) (r : HttpReq) : Z * HttpReq :=
  match reads with
  | [] => (1, r)
  | data :: reads =>
      let '(ret, r) := receive cfg data r in
      if ret =? 1 then receive_all cfg reads r else (ret, r)
  end.

(** [getHeader(index)]. *)
Definition getHeader (r : HttpReq) (index : Z) : list Z :=
  let off := znth (m_commonHeaderOffset r) index in
  text r off (off + znth (m_commonHeaderLen r) index).
