(* ===== verification/ReqFraming.v ===== *)
(** * ReqFraming: how long the body of an HTTP/1 request is
    (src/src/http/httpreq.cpp)

    What the parser of Request takes for the length of the body, against the
    Content-Length and Transfer-Encoding headers of the request that it hands on:
    the two never come together, and the length is that of the header's text as it
    is in the buffer when the headers are complete.  The text is read when its line
    is, and later lines write into the buffer too; the proof is that they write
    behind the texts that are kept. *)

From S2P Require Import Prelude Uri Guard Headers Request.
Import HttpMethod HttpHeader.
#[local] Open Scope Z_scope.

(** ** What the headers say, and what the request has *)

Definition framed (r : HttpReq) : Prop :=
  match isHeaderSet r H_CONTENT_LENGTH, isHeaderSet r H_TRANSFER_ENCODING with
  | false, false => m_lEntityLength r = 0
  | true, false =>
      let v := getHeader r H_CONTENT_LENGTH in
      v <> [] /\ forallb isdigit v = true /\ m_lEntityLength r = dec_val v /\ dec_val v <= INT64_MAX
  | false, true => strcaseeq (getHeader r H_TRANSFER_ENCODING) (bs "chunked") = true /\ m_lEntityLength r = LSI_BODY_SIZE_CHUNK
  | true, true => False
  end.

(** A header's text is there, and ends before the line feed at [L - 1] and the
    carriage return before it. *)
Definition kept (L : Z) (r : HttpReq) (index : Z) : Prop :=
  isHeaderSet r index = true ->
  0 < znth (m_commonHeaderOffset r) index /\ 0 <= znth (m_commonHeaderLen r) index /\
  znth (m_commonHeaderOffset r) index + znth (m_commonHeaderLen r) index <= L - 2.

(** The texts of both headers are in lines that the parser is past. *)
Definition keptb (L : Z) (r : HttpReq) (index : Z) : bool :=
  negb (isHeaderSet r index) ||
  ((0 <? znth (m_commonHeaderOffset r) index) && (0 <=? znth (m_commonHeaderLen r) index) &&
   (znth (m_commonHeaderOffset r) index + znth (m_commonHeaderLen r) index <=? L - 2)).
Definition settled (r : HttpReq) : bool :=
  keptb (m_iReqHeaderBufFinished r) r H_CONTENT_LENGTH && keptb (m_iReqHeaderBufFinished r) r H_TRANSFER_ENCODING.

Lemma keptb_kept L r i : keptb L r i = true -> kept L r i.
Proof. unfold keptb, kept. intros H Hs. rewrite Hs in H. cbn [negb orb] in H. lia. Qed.

(** Where the name of a Transfer-Encoding header ends: a colon before its text with
    blanks between them, and the name before the colon. *)
Definition colon_before (r : HttpReq) (off : Z) : Prop :=
  exists c, 4 <= c - 17 /\ c < off /\ at_ r c = 58 /\ (forall q, c < q < off -> at_ r q <> 58).
Definition te_named (r : HttpReq) : Prop :=
  isHeaderSet r H_TRANSFER_ENCODING = true -> colon_before r (znth (m_commonHeaderOffset r) H_TRANSFER_ENCODING).

(** The headers are complete. *)
Definition complete (r : HttpReq) : Prop :=
  m_iReqHeaderBufFinished r = m_iHttpHeaderEnd r /\ m_iReqHeaderBufRead r = bend r /\ 4 < m_iHttpHeaderEnd r <= bend r.

(** Before any header. *)
Record blank (r : HttpReq) : Prop := Blank {
  blank_cl : isHeaderSet r H_CONTENT_LENGTH = false;
  blank_te : isHeaderSet r H_TRANSFER_ENCODING = false;
  blank_len : m_lEntityLength r = 0;
  blank_tables : length (m_commonHeaderOffset r) = 25%nat /\ length (m_commonHeaderLen r) = 25%nat;
  blank_fin : 4 <= m_iReqHeaderBufFinished r <= bend r }.

(** At the line that begins at [L], in a buffer of [N] bytes; the framing is kept
    track of if [T] holds. *)
Record parsed (N : Z) (T : Prop) (L : Z) (r : HttpReq) : Prop := Parsed {
  parsed_framed : T -> framed r;
  parsed_cl : T -> kept L r H_CONTENT_LENGTH;
  parsed_te : T -> kept L r H_TRANSFER_ENCODING;
  parsed_named : T -> te_named r;
  parsed_tables : length (m_commonHeaderOffset r) = 25%nat /\ length (m_commonHeaderLen r) = 25%nat;
  parsed_status : m_iHeaderStatus r <> HEADER_REQUEST_LINE;
  parsed_fin : 4 <= m_iReqHeaderBufFinished r <= bend r;
  parsed_pos : 4 <= L <= bend r;
  parsed_size : bend r = N }.

(** ** Steps that leave the framing alone *)

(** What [framed] and [parsed] look at is the same, and so is the buffer before
    the line that begins at [L], less its line end; the buffer is no longer, which it
    would be if a store went past its end. *)
Record quiet (L : Z) (r r' : HttpReq) : Prop := Quiet {
  quiet_offset : m_commonHeaderOffset r' = m_commonHeaderOffset r;
  quiet_lens : m_commonHeaderLen r' = m_commonHeaderLen r;
  quiet_length : m_lEntityLength r' = m_lEntityLength r;
  quiet_fin : m_iReqHeaderBufFinished r' = m_iReqHeaderBufFinished r;
  quiet_status : m_iHeaderStatus r' = m_iHeaderStatus r;
  quiet_prefix : ztake (L - 2) (m_headerBuf r') = ztake (L - 2) (m_headerBuf r);
  quiet_size : bend r' = bend r }.

#[export] Instance quiet_pre L : PreOrder (quiet L).
Proof.
  split; [intros r; split; reflexivity|].
  intros r r' r'' [] []. split; congruence.
Qed.

Lemma ztake_store_before {A} (m d : list A) n off : 0 <= n <= off -> n <= zlen m -> ztake n (store m off d) = ztake n m.
Proof.
  intros. unfold store.
  assert (E : zlen (ztake n m) = n) by (rewrite zlen_ztake by lia; lia).
  rewrite (ztake_split n off m), <- app_assoc by lia. apply ztake_app_len, E.
Qed.

Lemma bend_put p d r : 0 <= p -> p + zlen d <= bend r -> bend (put_ p d r) = bend r.
Proof. intros. unfold bend, put_. cbn [m_headerBuf set_headerBuf]. apply zlen_store; assumption. Qed.

Lemma quiet_put L p d r : 2 <= L -> L - 2 <= p -> p + zlen d <= bend r -> quiet L r (put_ p d r).
Proof.
  intros HL Hp He. pose proof (zlen_nonneg d). split; try reflexivity; [|apply bend_put; lia].
  unfold put_, bend in *. cbn [m_headerBuf set_headerBuf]. apply ztake_store_before; lia.
Qed.

Lemma quiet_then_put L p d r r' : 2 <= L -> L - 2 <= p -> p + zlen d <= bend r -> quiet L r r' -> quiet L r (put_ p d r').
Proof. intros HL Hp He Hq. rewrite Hq at 1. apply quiet_put; [assumption..|]. rewrite (quiet_size _ _ _ Hq). assumption. Qed.

Lemma quiet_then_memset L p c n r r' : 2 <= L -> L - 2 <= p -> p <= bend r -> p + n <= bend r -> quiet L r r' -> quiet L r (memset p c n r').
Proof.
  intros. unfold memset. apply quiet_then_put; try assumption. unfold zlen. rewrite repeat_length. lia.
Qed.

Lemma at_put r p d q : 0 <= p <= bend r -> 0 <= q -> at_ (put_ p d r) q = if (p <=? q) && (q <? p + zlen d) then znth d (q - p) else at_ r q.
Proof. intros. unfold at_, put_, bend in *. cbn [m_headerBuf set_headerBuf]. apply znth_store; assumption. Qed.

Lemma zlen_text r p e : 0 <= p <= bend r -> e <= bend r -> zlen (text r p e) = Z.max 0 (e - p).
Proof.
  intros. unfold text, bend in *. destruct (Z.le_gt_cases p e); [rewrite zlen_slice by lia; lia|].
  rewrite slice_nil by lia. unfold zlen. cbn. lia.
Qed.

Lemma zlen_map {A B} (f : A -> B) l : zlen (map f l) = zlen l.
Proof. unfold zlen. rewrite length_map. reflexivity. Qed.

(** Branches, other members, and stores that are far enough behind. *)
Ltac in_bounds := try solve [lia | unfold zlen; cbn [length bs]; lia].
Ltac quiet_set :=
  lazymatch goal with
  | |- quiet _ _ (put_ _ _ _) => apply quiet_then_put; [lia | in_bounds | in_bounds | ]
  | |- quiet _ _ (memset _ _ _ _) => apply quiet_then_memset; [lia | in_bounds | in_bounds | in_bounds | ]
  | |- quiet _ _ (if ?b then _ else _) => destruct b eqn:?
  | |- quiet _ _ (?f _ ?r') => is_const f; transitivity r'; [|split; reflexivity]
  | |- quiet _ _ (?f ?r') => is_const f; transitivity r'; [|split; reflexivity]
  end.
Ltac quiet_steps := repeat first [reflexivity | assumption | quiet_set].

Lemma quiet_blank_cr L p e r : 2 <= L -> L <= p -> p <= bend r -> e <= bend r -> quiet L r (blank_cr p e r).
Proof.
  intros. unfold blank_cr. destruct (Z.ltb_spec p e); [|reflexivity]. apply quiet_then_put; [lia..| |reflexivity].
  rewrite zlen_map, zlen_text by lia. lia.
Qed.

Lemma quiet_postProcessHost L p e r ret r' : 2 <= L -> L - 2 <= p -> p <= bend r -> e <= bend r ->
  postProcessHost p e r = (ret, r') -> quiet L r r' /\ (ret = 0 \/ ret = SC_400).
Proof.
  intros HL Hp Hpb He. unfold postProcessHost.
  destruct (_ <? 0); intros [= <- <-]; (split; [|auto]); cbv zeta; quiet_steps; rewrite zlen_map, zlen_text by lia; lia.
Qed.

Lemma quiet_eraseHeader L h r r' : 2 <= L -> L <= keyOff h <= bend r -> valOff h + valLen h <= bend r -> quiet L r r' -> quiet L r (eraseHeader h r').
Proof.
  intros HL Hp Hv Hq. unfold eraseHeader. cbv zeta. apply quiet_then_memset; try assumption; repeat case_match; lia.
Qed.

(** The header that [unknown_line] makes: its name and colon before its value. *)
Definition key_value_ok (L e : Z) (h : key_value_pair) : Prop :=
  L <= keyOff h /\ 0 <= keyLen h /\ keyOff h + keyLen h + 1 <= valOff h /\ 0 <= valLen h /\ valOff h + valLen h < e.

Lemma strcaseeq_zlen a b : strcaseeq a b = true -> zlen a = zlen b.
Proof. unfold strcaseeq. intros H. apply bytes_eqb_eq in H. apply (f_equal zlen) in H. rewrite !zlen_map in H. exact H. Qed.

Lemma quiet_processUnknownHeader L h r ret r' : 2 <= L -> key_value_ok L (bend r) h ->
  processUnknownHeader h r = (ret, r') -> quiet L r r' /\ (ret = 0 \/ ret = SC_400).
Proof.
  intros HL (Hk & Hkl & Hv & Hvl & He). unfold processUnknownHeader. cbv zeta.
  assert (Hname : zlen (text r (keyOff h) (keyOff h + keyLen h)) = keyLen h) by (rewrite zlen_text by lia; lia).
  destruct (strcaseeq _ (bs "Upgrade")) eqn:Eup.
  { apply strcaseeq_zlen in Eup. rewrite Hname in Eup. unfold zlen in Eup. cbn in Eup.
    destruct (_ && _); [|destruct (_ && _)]; intros [= <- <-]; (split; [|auto]); quiet_steps. }
  destruct (_ || _); [intros [= <- <-]; split; [|auto]; quiet_steps|].
  destruct (strcaseeq _ (bs "X-Forwarded-Proto")); [intros [= <- <-]; split; [|auto]; quiet_steps|].
  destruct (strcaseeq _ (bs "X-Forwarded-scheme")) eqn:Esc.
  { apply strcaseeq_zlen in Esc. rewrite Hname in Esc. unfold zlen in Esc. cbn in Esc.
    intros [= <- <-]. split; [|auto]. quiet_steps. }
  destruct (strcaseeq _ (bs "proxy")); [intros [= <- <-]; split; [|auto]; quiet_steps|].
  destruct (strcaseeq _ (bs "EXPECT")); [destruct (_ && _)|]; intros [= <- <-]; (split; [|auto]); quiet_steps.
  transitivity (eraseHeader h (orContextState EXPECT_100 r)); [|split; reflexivity].
  apply quiet_eraseHeader; [lia..|]. quiet_steps.
Qed.

(** ** A quiet step keeps what has been parsed *)

Lemma slice_of_ztake {A} i j n (l : list A) : 0 <= i -> j <= n -> slice i j (ztake n l) = slice i j l.
Proof.
  intros. unfold slice, ztake, zdrop. rewrite skipn_firstn_comm, take_take. f_equal. lia.
Qed.

Lemma quiet_set_same L r r' i : quiet L r r' -> isHeaderSet r' i = isHeaderSet r i.
Proof. intros []. unfold isHeaderSet. congruence. Qed.

Lemma quiet_getHeader L r r' i : quiet L r r' -> kept L r i -> isHeaderSet r i = true -> getHeader r' i = getHeader r i.
Proof.
  intros [Eo El _ _ _ Ep _] Hk Hs. destruct (Hk Hs) as (? & ? & ?). unfold getHeader, text. rewrite Eo, El.
  rewrite <- (slice_of_ztake _ _ (L - 2) (m_headerBuf r')), <- (slice_of_ztake _ _ (L - 2) (m_headerBuf r)), Ep by lia. reflexivity.
Qed.

Lemma quiet_kept L r r' i : quiet L r r' -> kept L r i -> kept L r' i.
Proof. intros Hq. unfold kept. rewrite (quiet_set_same L r r' i Hq). destruct Hq as [-> -> _ _ _ _ _]. exact id. Qed.

Section Parsed.
Context (N : Z) (T : Prop).

Lemma quiet_at L r r' q : quiet L r r' -> 0 <= q < L - 2 -> at_ r' q = at_ r q.
Proof.
  intros [_ _ _ _ _ Ep _] Hq. unfold at_. rewrite <- (znth_ztake (m_headerBuf r') (L - 2)), <- (znth_ztake (m_headerBuf r) (L - 2)), Ep by lia.
  reflexivity.
Qed.

Lemma colon_before_same L r r' off : off <= L - 2 -> (forall q, 0 <= q < L - 2 -> at_ r' q = at_ r q) -> colon_before r off -> colon_before r' off.
Proof.
  intros Ho Hat (c & H1 & H2 & H3 & H4). exists c. split; [exact H1|]. split; [exact H2|]. split; [rewrite Hat by lia; exact H3|].
  intros q Hq. rewrite Hat by lia. apply H4, Hq.
Qed.

Lemma quiet_named L r r' : quiet L r r' -> kept L r H_TRANSFER_ENCODING -> te_named r -> te_named r'.
Proof.
  intros Hq Hk Hn Hs. rewrite (quiet_set_same L r r' _ Hq) in Hs. destruct (Hk Hs) as (? & ? & ?). rewrite (quiet_offset _ _ _ Hq).
  apply (colon_before_same L r); [lia| |apply Hn, Hs]. intros q. apply quiet_at, Hq.
Qed.

Lemma parsed_quiet L r r' : quiet L r r' -> parsed N T L r -> parsed N T L r'.
Proof.
  intros Hq [Hf Hc Ht Hnm Htab Hst Hfin Hpos HN]. pose proof Hq as [Eo El Een Ef Est _ Hs].
  split; try (intros HT; first [eapply quiet_kept; [eassumption|auto] | eapply quiet_named; [eassumption|auto|auto]]); try (rewrite ?Eo, ?El, ?Ef, ?Est; (assumption || lia)).
  intros HT. specialize (Hf HT). specialize (Hc HT). specialize (Ht HT). revert Hf. unfold framed. rewrite !(quiet_set_same L r r' _ Hq), Een.
  destruct (isHeaderSet r H_CONTENT_LENGTH) eqn:E1, (isHeaderSet r H_TRANSFER_ENCODING) eqn:E2; auto;
    rewrite ?(quiet_getHeader L r r' _ Hq Hc E1), ?(quiet_getHeader L r r' _ Hq Ht E2); auto.
Qed.

Lemma parsed_mono L L' r : parsed N T L r -> L <= L' <= bend r -> parsed N T L' r.
Proof.
  intros [Hf Hc Ht Hnm Htab Hst Hfin Hpos HN] HL. split; auto; try lia.
  - intros HT Hs. specialize (Hc HT Hs). lia.
  - intros HT Hs. specialize (Ht HT Hs). lia.
Qed.

(** ** Finding bytes, and blanks *)

Lemma find_Some r c p e q : find r c p e = Some q -> 0 <= p -> e <= bend r -> p <= q < e /\ at_ r q = c.
Proof.
  unfold find, text, at_, bend. intros H Hp He. destruct (memchr c _) as [i|] eqn:Hm; [|discriminate]. injection H as <-.
  apply memchr_Some in Hm as (Hi & Hs & _).
  assert (Hpe : p <= e). { destruct (Z.le_gt_cases p e); [assumption|]. rewrite (slice_nil p e) in Hi by lia. unfold zlen in Hi. cbn in Hi. lia. }
  rewrite zlen_slice in Hi by lia. split; [lia|]. rewrite <- (znth_slice (m_headerBuf r) p e) by lia. rewrite Hs.
  rewrite znth_app by lia. rewrite zlen_ztake, zlen_slice by lia. rewrite Z.min_l by lia.
  rewrite Z.ltb_irrefl, Z.sub_diag. reflexivity.
Qed.

Lemma skipSpaceBothSide_bounds p n v : skipSpaceBothSide p = (n, v) -> 0 <= n /\ n + zlen v <= zlen p.
Proof.
  unfold skipSpaceBothSide. set (q := rev _). assert (Hq : zlen q <= zlen p).
  { subst q. rewrite zlen_rev. pose proof (zlen_span_snd is_blank (rev p)) as H. rewrite zlen_rev in H.
    pose proof (zlen_nonneg (span is_blank (rev p)).1). lia. }
  destruct (1 >=? zlen q); intros [= <- <-]; [lia|].
  pose proof (zlen_span_snd is_blank q). pose proof (zlen_nonneg (span is_blank q).1). lia.
Qed.

Lemma skipSpaceBothSide_snoc p c : is_blank c = true -> skipSpaceBothSide (p ++ [c]) = skipSpaceBothSide p.
Proof.
  intros Hc. unfold skipSpaceBothSide. rewrite rev_app_distr. cbn [rev app span]. rewrite Hc.
  destruct (span is_blank (rev p)). reflexivity.
Qed.

(** ** A folded header *)

(** The states that a return in the middle of a folded header leaves. *)
Definition fold_stop (L : Z) (r : HttpReq) (ret : Z) (r' : HttpReq) : Prop :=
  (ret = SC_400 \/ ret = 1) /\ exists r0, quiet L r r0 /\ (r' = r0 \/ r' = set_iReqHeaderBufFinished L r0).

Lemma unfold_line_ok fuel L : forall r pLineEnd, 2 <= L <= bend r -> L <= pLineEnd < bend r -> at_ r (pLineEnd - 1) = 13 ->
  match unfold_line fuel L r pLineEnd with
  | FoldReturn ret r' => fold_stop L r ret r'
  | FoldEnd r' e => quiet L r r' /\ pLineEnd <= e < bend r' /\ at_ r' (e - 1) = 13 /\ (forall p, 0 <= p < pLineEnd - 1 -> at_ r' p = at_ r p)
  end.
Proof.
  induction fuel as [|fuel IH]; intros r q HL Hq Hcr; cbn [unfold_line].
  - split; [auto|]. exists r. split; [reflexivity|auto].
  - destruct (_ >=? _) eqn:?; [split; [auto|]; exists r; split; [reflexivity|auto]|].
    destruct (_ || _); [|split; [reflexivity|split; [lia|split; [assumption|auto]]]].
    set (r1 := if at_ (put_ q [32] r) (q - 1) =? 13 then _ else _).
    assert (Q1 : quiet L r r1) by (subst r1; quiet_steps).
    assert (A1 : forall p, 0 <= p < q - 1 -> at_ r1 p = at_ r p).
    { intros p Hp. assert (A0 : at_ (put_ q [32] r) p = at_ r p).
      { rewrite at_put by lia. replace (q <=? p) with false by lia. reflexivity. }
      subst r1. destruct (_ =? 13); [|exact A0]. rewrite at_put by (rewrite ?bend_put; unfold zlen; cbn [length]; lia).
      replace (q - 1 <=? p) with false by lia. exact A0. }
    pose proof (quiet_size _ _ _ Q1). destruct (find r1 10 q (bend r1)) as [q'|] eqn:Hf.
    + apply find_Some in Hf as [Hq' _]; [|lia..].
      destruct (Z.eqb_spec (at_ r1 (q' - 1)) 13) as [E|]; cbn [negb]; [|split; [auto|]; exists r1; auto].
      specialize (IH r1 q' ltac:(lia) ltac:(lia) E). destruct (unfold_line fuel L r1 q') as [ret r'|r' e].
      * destruct IH as (? & r0 & Q0 & ?). split; [assumption|]. exists r0. split; [transitivity r1; assumption|assumption].
      * destruct IH as (Q0 & ? & ? & A0). split; [transitivity r1; assumption|]. split; [lia|]. split; [assumption|].
        intros p Hp. rewrite A0 by lia. apply A1, Hp.
    + split; [auto|]. exists r1. auto.
Qed.

(** ** A common header *)

Lemma znth_insert (l : list Z) i j x : 0 <= i < zlen l -> 0 <= j ->
  znth (<[Z.to_nat i := x]> l) j = if i =? j then x else znth l j.
Proof.
  intros Hi Hj. unfold znth, zlen in *. rewrite !nth_lookup. destruct (Z.eqb_spec i j) as [->|].
  - rewrite list_lookup_insert by lia. rewrite decide_True by (split; [reflexivity|lia]). reflexivity.
  - rewrite list_lookup_insert_ne by lia. reflexivity.
Qed.

Lemma getIndex_nonneg p len : 0 <= getIndex p len.
Proof.
  unfold getIndex.
  repeat match goal with |- context [match ?x with _ => _ end] => destruct x end; vm_compute; discriminate.
Qed.

(** What a store into the tables changes. *)
Lemma isHeaderSet_store index off len r i : length (m_commonHeaderOffset r) = 25%nat -> 0 <= index < 25 -> 0 <= i ->
  isHeaderSet (store_common index off len r) i = if index =? i then negb (off =? 0) else isHeaderSet r i.
Proof.
  intros Hl Hi Hj. unfold isHeaderSet, store_common. cbn [m_commonHeaderOffset set_commonHeaderOffset].
  cbn. rewrite znth_insert by (unfold zlen; lia). destruct (index =? i); reflexivity.
Qed.

Lemma getHeader_store_ne index off len r i : length (m_commonHeaderOffset r) = 25%nat -> length (m_commonHeaderLen r) = 25%nat ->
  0 <= index < 25 -> 0 <= i -> index <> i ->
  znth (m_commonHeaderOffset (store_common index off len r)) i = znth (m_commonHeaderOffset r) i /\
  znth (m_commonHeaderLen (store_common index off len r)) i = znth (m_commonHeaderLen r) i.
Proof.
  intros Hl Hl' Hi Hj Hne. unfold store_common. cbn.
  rewrite !znth_insert by (unfold zlen; lia). rewrite !(proj2 (Z.eqb_neq index i)) by assumption. auto.
Qed.

Lemma kept_store L index off len r i : length (m_commonHeaderOffset r) = 25%nat -> length (m_commonHeaderLen r) = 25%nat ->
  0 <= index < 25 -> 0 <= i -> index <> i -> kept L r i -> kept L (store_common index off len r) i.
Proof.
  intros Hl Hl' Hi Hj Hne Hk. destruct (getHeader_store_ne index off len r i) as [Eo El]; [assumption..|].
  unfold kept, isHeaderSet in *. rewrite Eo, El. exact Hk.
Qed.

(** A header that does not frame. *)
Lemma parsed_store_other L index off len r : parsed N T L r -> 0 <= index < 25 ->
  index <> H_CONTENT_LENGTH -> index <> H_TRANSFER_ENCODING -> parsed N T L (store_common index off len r).
Proof.
  intros [Hf Hc Ht Hnm [Hl Hl'] Hst Hfin Hpos HN] Hi Hn1 Hn2.
  split; try assumption; try (intros HT; apply kept_store; auto; vm_compute; discriminate).
  - destruct (getHeader_store_ne index off len r H_CONTENT_LENGTH) as [A1 A2]; [auto; vm_compute; discriminate..|].
    destruct (getHeader_store_ne index off len r H_TRANSFER_ENCODING) as [B1 B2]; [auto; vm_compute; discriminate..|].
    intros HT. specialize (Hf HT). revert Hf. unfold framed, isHeaderSet, getHeader. rewrite A1, A2, B1, B2. exact id.
  - destruct (getHeader_store_ne index off len r H_TRANSFER_ENCODING) as [B1 B2]; [auto; vm_compute; discriminate..|].
    intros HT. specialize (Hnm HT). revert Hnm. unfold te_named, isHeaderSet. rewrite B1. exact id.
  - cbn. rewrite !length_insert. auto.
Qed.

(** The return codes that end the request. *)
Definition fatal (ret : Z) : Prop := 2 <= ret.

Definition stopped (ret : Z) (r : HttpReq) : Prop := fatal ret /\ bend r = N.

Lemma fatal_ne ret : fatal ret -> (ret =? 0) = false.
Proof. unfold fatal. intros. apply Z.eqb_neq. lia. Qed.

Lemma parseContentLength_ok p v : parseContentLength p = (0, v) ->
  forallb isdigit p = true /\ v = dec_val p /\ 0 <= v <= INT64_MAX.
Proof.
  assert (H : forall p a, 0 <= a <= INT64_MAX -> parseContentLength_loop p a = (0, v) ->
    forallb isdigit p = true /\ v = fold_left (fun a c => a * 10 + (c - 48)) p a /\ 0 <= v <= INT64_MAX).
  { clear p. intros p. induction p as [|c p IH]; intros a Ha; cbn [parseContentLength_loop forallb fold_left].
    - intros [= <-]. auto.
    - destruct (isdigit c) eqn:Hd; cbn [negb andb]; [|intros [=]]. cbv zeta.
      destruct (Z.gtb_spec a ((INT64_MAX - (c - 48)) / 10)); [intros [=]|]. apply IH. unfold isdigit in Hd.
      assert (10 * ((INT64_MAX - (c - 48)) / 10) <= INT64_MAX - (c - 48)) by (apply Z.mul_div_le; lia). lia. }
  apply H. vm_compute. split; discriminate.
Qed.

Lemma parseContentLength_code p ret v : parseContentLength p = (ret, v) -> ret = 0 \/ fatal ret.
Proof.
  unfold parseContentLength, fatal. generalize 0 at 1. induction p as [|c p IH]; intros a; cbn [parseContentLength_loop].
  - intros [= <- _]. auto.
  - destruct (negb (isdigit c)); [intros [= <- _]; right; vm_compute; discriminate|]. cbv zeta.
    destruct (_ >? _); [intros [= <- _]; right; vm_compute; discriminate|]. apply IH.
Qed.

(** The others of [processHeader_index] are quiet. *)
Lemma processHeader_quiet L cfg index r ret r' : 2 <= L -> L <= znth (m_commonHeaderOffset r) index ->
  0 <= znth (m_commonHeaderLen r) index -> znth (m_commonHeaderOffset r) index + znth (m_commonHeaderLen r) index < bend r ->
  index <> H_CONTENT_LENGTH -> index <> H_TRANSFER_ENCODING ->
  processHeader_index cfg index r = (ret, r') -> quiet L r r' /\ (ret = 0 \/ fatal ret).
Proof.
  intros HL Hoff Hlen Hend Hn1 Hn2. unfold processHeader_index. cbv zeta.
  rewrite (proj2 (Z.eqb_neq index H_CONTENT_LENGTH)), (proj2 (Z.eqb_neq index H_TRANSFER_ENCODING)) by assumption.
  destruct (_ || _); [intros [= <- <-]; split; [reflexivity|auto]|].
  destruct (index =? H_HOST).
  { destruct (m_iHostOff r =? 0).
    - intros H. apply (quiet_postProcessHost L) in H as [Hq Hr]; [|change (bend (set_iHostOff (znth (m_commonHeaderOffset r) index) r)) with (bend r); lia..]. split.
      + rewrite <- Hq. split; reflexivity.
      + destruct Hr as [->| ->]; [auto|right; vm_compute; discriminate].
    - destruct (_ && _); intros [= <- <-]; (split; [reflexivity|]); [right; vm_compute; discriminate|auto]. }
  unfold updateBodyType, keepAlive. cbv zeta.
  repeat match goal with |- context [if ?b then _ else _] => destruct b end; intros [= <- <-]; (split; [|auto]); quiet_steps.
Qed.

Lemma store_common_at index off len r : length (m_commonHeaderOffset r) = 25%nat -> length (m_commonHeaderLen r) = 25%nat -> 0 <= index < 25 ->
  znth (m_commonHeaderOffset (store_common index off len r)) index = off /\
  znth (m_commonHeaderLen (store_common index off len r)) index = wrapu 16 len.
Proof.
  intros. unfold store_common. cbn. rewrite !znth_insert by (unfold zlen; lia). rewrite Z.eqb_refl. auto.
Qed.

Lemma wrapu16_le len : 0 <= len -> 0 <= wrapu 16 len <= len.
Proof. intros. unfold wrapu. pose proof (Z.mod_pos_bound len (2 ^ 16) ltac:(lia)). pose proof (Z.mod_le len (2 ^ 16) ltac:(lia) ltac:(lia)). lia. Qed.

(** The line of a framing header, from the line that begins at [L] to the one at
    [L']. *)
Section FramingHeader.
Context (L L' : Z) (cfg : HttpServerConfig) (r : HttpReq) (off len : Z).
Context (HP : parsed N T L r) (Hoff : L <= off) (Hlen : 0 <= len) (Hend : off + len + 2 <= L') (HL' : L' <= bend r).
Context (Hname : colon_before r off).

(** The new header is kept, whichever it is, and so is the other one. *)
Lemma kept_stored index : 0 <= index < 25 -> kept L' (store_common index off len r) index.
Proof using HP Hoff Hlen Hend.
  intros Hi _. destruct HP as [_ _ _ _ [Hl Hl'] _ _ _ _]. destruct (store_common_at index off len r Hl Hl' Hi) as [-> ->].
  pose proof (parsed_pos _ _ _ _ HP). pose proof (wrapu16_le len Hlen). lia.
Qed.

Lemma kept_other index i : 0 <= index < 25 -> 0 <= i -> index <> i -> kept L r i -> kept L' (store_common index off len r) i.
Proof using HP Hoff Hlen Hend.
  intros Hi Hj Hn Hk Hs. destruct HP as [_ _ _ _ [Hl Hl'] _ _ _ _]. assert (H := kept_store L index off len r i Hl Hl' Hi Hj Hn Hk Hs). lia.
Qed.

Lemma content_length_line ret r' : isHeaderSet r H_CONTENT_LENGTH = false ->
  processHeader_index cfg H_CONTENT_LENGTH (store_common H_CONTENT_LENGTH off len r) = (ret, r') ->
  (ret = 0 /\ parsed N T L' r') \/ stopped ret r'.
Proof.
  intros Hcl. pose proof HP as [Hf Hc Ht Hnm [Hl Hl'] Hst Hfin Hpos HN].
  destruct (store_common_at H_CONTENT_LENGTH off len r Hl Hl' ltac:(vm_compute; split; [discriminate|reflexivity])) as [Eo El].
  set (s := store_common H_CONTENT_LENGTH off len r) in *.
  assert (Ete : isHeaderSet s H_TRANSFER_ENCODING = isHeaderSet r H_TRANSFER_ENCODING).
  { unfold s. rewrite isHeaderSet_store by (try assumption; vm_compute; (split; [discriminate|reflexivity]) || discriminate). reflexivity. }
  assert (Hcs : isHeaderSet s H_CONTENT_LENGTH = true).
  { unfold isHeaderSet. rewrite Eo. rewrite (proj2 (Z.eqb_neq off 0)) by lia. reflexivity. }
  assert (Hfatal : stopped SC_400 s) by (split; [vm_compute; discriminate|exact HN]).
  unfold processHeader_index. cbv zeta. rewrite !Eo, !El.
  change ((H_CONTENT_LENGTH >=? H_TE) || (H_CONTENT_LENGTH <? 0)) with false.
  change (H_CONTENT_LENGTH =? H_HOST) with false. change (H_CONTENT_LENGTH =? H_CONTENT_LENGTH) with true. cbn match.
  destruct (Z.eqb_spec (wrapu 16 len) 0) as [|Hn]; [intros [= <- <-]; auto|].
  destruct (isdigit _); cbn [negb]; [|intros [= <- <-]; auto].
  change (m_lEntityLength s) with (m_lEntityLength r).
  destruct (Z.eqb_spec (m_lEntityLength r) LSI_BODY_SIZE_CHUNK) as [|Hnc]; [intros [= <- <-]; auto|].
  destruct (parseContentLength _) as [ret0 v] eqn:Hp. destruct (Z.eqb_spec ret0 0) as [->|Hr].
  2:{ intros [= <- <-]. right. split; [|exact HN]. destruct (parseContentLength_code _ _ _ Hp); [contradiction|assumption]. }
  intros [= <- <-]. left. split; [reflexivity|]. apply parseContentLength_ok in Hp as (Hd & Hv & Hb).
  pose proof (wrapu16_le len Hlen) as Hw.
  assert (Hne : text s off (off + wrapu 16 len) <> []).
  { intros E. apply (f_equal zlen) in E. unfold text in E. change (m_headerBuf s) with (m_headerBuf r) in E.
    fold (bend r) in *. rewrite zlen_slice in E by (unfold bend in *; lia). unfold zlen in E. cbn in E. lia. }
  split; try assumption.
  - intros HT. specialize (Hf HT). unfold framed. change (isHeaderSet (set_lEntityLength v s)) with (isHeaderSet s). rewrite Hcs, Ete.
    destruct (isHeaderSet r H_TRANSFER_ENCODING) eqn:Et.
    + unfold framed in Hf. rewrite Hcl, Et in Hf. apply Hnc, Hf.
    + cbv zeta. unfold getHeader. change (m_commonHeaderOffset (set_lEntityLength v s)) with (m_commonHeaderOffset s).
      change (m_commonHeaderLen (set_lEntityLength v s)) with (m_commonHeaderLen s). rewrite Eo, El.
      change (text (set_lEntityLength v s)) with (text s). change (m_lEntityLength (set_lEntityLength v s)) with v.
      split_and!; auto; lia.
  - intros HT. exact (kept_stored H_CONTENT_LENGTH ltac:(vm_compute; split; [discriminate|reflexivity])).
  - intros HT. exact (kept_other H_CONTENT_LENGTH H_TRANSFER_ENCODING ltac:(vm_compute; split; [discriminate|reflexivity])
      ltac:(vm_compute; discriminate) ltac:(vm_compute; discriminate) (Ht HT)).
  - intros HT Hs. change (isHeaderSet s H_TRANSFER_ENCODING = true) in Hs. rewrite Ete in Hs.
    change (colon_before r (znth (m_commonHeaderOffset s) H_TRANSFER_ENCODING)).
    destruct (getHeader_store_ne H_CONTENT_LENGTH off len r H_TRANSFER_ENCODING) as [B1 _]; [auto; vm_compute; (discriminate || (split; [discriminate|reflexivity]))..|].
    fold s in B1. rewrite B1. apply Hnm; assumption.
  - cbn. rewrite !length_insert. auto.
  - change (bend (set_lEntityLength v s)) with (bend r). lia.
Qed.

Lemma transfer_encoding_line ret r' : isHeaderSet r H_TRANSFER_ENCODING = false ->
  processHeader_index cfg H_TRANSFER_ENCODING (store_common H_TRANSFER_ENCODING off len r) = (ret, r') ->
  (ret = 0 /\ parsed N T L' r') \/ stopped ret r'.
Proof.
  intros Hte. pose proof HP as [Hf Hc Ht Hnm [Hl Hl'] Hst Hfin Hpos HN].
  destruct (store_common_at H_TRANSFER_ENCODING off len r Hl Hl' ltac:(vm_compute; split; [discriminate|reflexivity])) as [Eo El].
  set (s := store_common H_TRANSFER_ENCODING off len r) in *.
  assert (Ecl : isHeaderSet s H_CONTENT_LENGTH = isHeaderSet r H_CONTENT_LENGTH).
  { unfold s. rewrite isHeaderSet_store by (try assumption; vm_compute; (split; [discriminate|reflexivity]) || discriminate). reflexivity. }
  assert (Hts : isHeaderSet s H_TRANSFER_ENCODING = true).
  { unfold isHeaderSet. rewrite Eo. rewrite (proj2 (Z.eqb_neq off 0)) by lia. reflexivity. }
  assert (Hfatal : stopped SC_400 s) by (split; [vm_compute; discriminate|exact HN]).
  unfold processHeader_index. cbv zeta. rewrite !Eo, !El, Ecl.
  change ((H_TRANSFER_ENCODING >=? H_TE) || (H_TRANSFER_ENCODING <? 0)) with false.
  change (H_TRANSFER_ENCODING =? H_HOST) with false. change (H_TRANSFER_ENCODING =? H_CONTENT_LENGTH) with false.
  change (H_TRANSFER_ENCODING =? H_CONTENT_TYPE) with false. change (H_TRANSFER_ENCODING =? H_TRANSFER_ENCODING) with true. cbn match.
  destruct (_ =? 44); [intros [= <- <-]; auto|].
  destruct (isHeaderSet r H_CONTENT_LENGTH) eqn:Ec; [intros [= <- <-]; auto|].
  destruct (_ && _) eqn:Hch; [|intros [= <- <-]; right; split; [vm_compute; discriminate|exact HN]].
  destruct (m_method s <=? HTTP_HEAD); [intros [= <- <-]; auto|].
  intros [= <- <-]. left. split; [reflexivity|]. apply andb_true_iff in Hch as [H7 Hch]. apply Z.eqb_eq in H7.
  pose proof (wrapu16_le len Hlen) as Hw.
  split; try assumption.
  - intros HT. specialize (Hf HT). unfold framed. change (isHeaderSet (set_lEntityLength LSI_BODY_SIZE_CHUNK s)) with (isHeaderSet s). rewrite Hts, Ecl.
    unfold getHeader. change (m_commonHeaderOffset (set_lEntityLength LSI_BODY_SIZE_CHUNK s)) with (m_commonHeaderOffset s).
    change (m_commonHeaderLen (set_lEntityLength LSI_BODY_SIZE_CHUNK s)) with (m_commonHeaderLen s). rewrite Eo, El, H7 in *.
    split; [|reflexivity]. revert Hch. unfold strncaseeq.
    change (text (set_lEntityLength LSI_BODY_SIZE_CHUNK s)) with (text s). rewrite !ztake_all; [exact id| vm_compute; discriminate|].
    unfold text. change (m_headerBuf s) with (m_headerBuf r). rewrite zlen_slice by (unfold bend in *; lia). lia.
  - intros HT. exact (kept_other H_TRANSFER_ENCODING H_CONTENT_LENGTH ltac:(vm_compute; split; [discriminate|reflexivity])
      ltac:(vm_compute; discriminate) ltac:(vm_compute; discriminate) (Hc HT)).
  - intros HT. exact (kept_stored H_TRANSFER_ENCODING ltac:(vm_compute; split; [discriminate|reflexivity])).
  - intros HT _. change (colon_before r (znth (m_commonHeaderOffset s) H_TRANSFER_ENCODING)). rewrite Eo. exact Hname.
  - cbn. rewrite !length_insert. auto.
  - change (bend (set_lEntityLength LSI_BODY_SIZE_CHUNK s)) with (bend r). lia.
Qed.
End FramingHeader.

(** ** A header line *)

Lemma skipSpace_back_le p : zlen (skipSpace_back p) <= zlen p.
Proof.
  unfold skipSpace_back. rewrite zlen_rev. pose proof (zlen_span_snd is_blank (rev p)) as H. rewrite zlen_rev in H.
  pose proof (zlen_nonneg (span is_blank (rev p)).1). lia.
Qed.

Lemma unknown_line_ok L L' pColon pTemp pTemp1 r : parsed N T L r -> L <= L' <= bend r ->
  L <= pColon -> pColon + 1 <= pTemp -> pTemp <= pTemp1 < bend r ->
  match unknown_line L pColon pTemp pTemp1 r with LineNext r' => parsed N T L' r' | LineReturn ret r' => stopped ret r' end.
Proof.
  intros HP HL Hc Ht He. unfold unknown_line. destruct (negb _); [split; [vm_compute; discriminate|apply (parsed_size _ _ _ _ HP)]|]. cbv zeta.
  pose proof (parsed_pos _ _ _ _ HP) as Hpos.
  destruct (processUnknownHeader _ _) as [ret r'] eqn:Hu.
  apply (quiet_processUnknownHeader L) in Hu as [Hq Hr]; [|lia|].
  2:{ unfold key_value_ok. cbn [keyOff keyLen valOff valLen]. change (bend (set_unknHeaders _ r)) with (bend r).
      pose proof (skipSpace_back_le (text r L pColon)) as Hk. rewrite zlen_text in Hk by lia.
      pose proof (zlen_nonneg (skipSpace_back (text r L pColon))). lia. }
  assert (HP' : parsed N T L r'). { eapply parsed_quiet; [|exact HP]. rewrite <- Hq. split; reflexivity. }
  destruct Hr as [->| ->]; [|split; [vm_compute; discriminate|apply (parsed_size _ _ _ _ HP')]].
  apply (parsed_mono L); [exact HP'|]. pose proof (quiet_size _ _ _ Hq) as Hs. change (bend r' = bend r) in Hs. lia.
Qed.

(** A common header whose line ends before [L'], none of its name so far. *)
Lemma common_line_ok L L' cfg index off len r : parsed N T L r -> 0 <= index < 25 -> L <= off -> 0 <= len ->
  off + len + 2 <= L' -> L' <= bend r -> isHeaderSet r index = false ->
  (index = H_TRANSFER_ENCODING -> colon_before r off) ->
  forall ret r', processHeader_index cfg index (store_common index off len r) = (ret, r') ->
  (ret = 0 /\ parsed N T L' r') \/ stopped ret r'.
Proof.
  intros HP Hi Ho Hl He HL Hs Hname ret r' H.
  destruct (Z.eq_dec index H_CONTENT_LENGTH) as [->|]; [eapply content_length_line; eassumption|].
  destruct (Z.eq_dec index H_TRANSFER_ENCODING) as [->|]; [eapply transfer_encoding_line; try eassumption; apply Hname; reflexivity|].
  assert (HP1 : parsed N T L (store_common index off len r)) by (apply parsed_store_other; assumption).
  apply (processHeader_quiet L) in H as [Hq [->|Hf]]; auto.
  2:{ right. split; [assumption|]. rewrite (quiet_size _ _ _ Hq). apply (parsed_size _ _ _ _ HP). }
  - left. split; [reflexivity|]. apply (parsed_mono L); [eapply parsed_quiet; eassumption|].
    pose proof (quiet_size _ _ _ Hq) as Hsz. change (bend r' = bend r) in Hsz. lia.
  - pose proof (parsed_pos _ _ _ _ HP1). lia.
  - destruct HP as [_ _ _ _ [H1 H2] _ _ _ _]. rewrite (proj1 (store_common_at index off len r H1 H2 Hi)). lia.
  - destruct HP as [_ _ _ _ [H1 H2] _ _ _ _]. rewrite (proj2 (store_common_at index off len r H1 H2 Hi)). apply wrapu16_le, Hl.
  - destruct HP as [_ _ _ _ [H1 H2] _ _ _ _]. destruct (store_common_at index off len r H1 H2 Hi) as [-> ->].
    pose proof (wrapu16_le len Hl). change (bend (store_common index off len r)) with (bend r). lia.
Qed.

(** The value of a line that ends in a carriage return and a line feed. *)
Lemma line_value r pColon e skip v : 0 <= pColon < e - 1 -> e < bend r -> at_ r (e - 1) = 13 ->
  skipSpaceBothSide (text r (pColon + 1) e) = (skip, v) -> 0 <= skip /\ pColon + 1 + skip + zlen v <= e - 1.
Proof.
  intros Hc He Hcr Hs. unfold text, at_, bend in *. rewrite (slice_split _ (e - 1)) in Hs by lia.
  rewrite (slice_cons (e - 1) e), (slice_nil (e - 1 + 1) e), Hcr in Hs by lia. rewrite skipSpaceBothSide_snoc in Hs by reflexivity.
  apply skipSpaceBothSide_bounds in Hs. rewrite zlen_slice in Hs by lia. lia.
Qed.

Lemma at_blank_cr r p e q : 0 <= p -> e <= q -> e <= bend r -> at_ (blank_cr p e r) q = at_ r q.
Proof.
  intros Hp Hq He. unfold blank_cr. destruct (Z.ltb_spec p e); [|reflexivity].
  unfold at_, put_, text, bend in *. cbn [m_headerBuf set_headerBuf].
  assert (E : zlen (map (fun c => if c =? 13 then 32 else c) (slice p e (m_headerBuf r))) = e - p).
  { unfold zlen. rewrite length_map. fold (zlen (slice p e (m_headerBuf r))). apply zlen_slice; lia. }
  rewrite znth_store by lia. rewrite E. replace (q <? p + (e - p)) with false by lia. rewrite andb_false_r. reflexivity.
Qed.

Lemma bend_blank_cr L p e r : 2 <= L -> L <= p -> p <= bend r -> e <= bend r -> bend (blank_cr p e r) = bend r.
Proof. intros. apply (quiet_size L). apply quiet_blank_cr; assumption. Qed.

Lemma getIndex_te p len : getIndex p len = H_TRANSFER_ENCODING -> len = 17.
Proof.
  destruct (Z.eq_dec len 17) as [|Hn]; [auto|]. intros H. exfalso. revert H. unfold getIndex. destruct (len <=? 0); [discriminate|].
  rewrite (proj2 (Z.eqb_neq len 17) Hn). cbn [andb].
  repeat match goal with |- context [match ?x with _ => _ end] => destruct x end; intros E; vm_compute in E; discriminate.
Qed.

(** What is skipped in front of a value is blank. *)
Lemma skipped_blank p skip v i : skipSpaceBothSide p = (skip, v) -> 0 <= i < skip -> is_blank (znth p i) = true.
Proof.
  unfold skipSpaceBothSide. set (q := rev (span is_blank (rev p)).2).
  assert (Hp : p = q ++ rev (span is_blank (rev p)).1).
  { unfold q. rewrite <- rev_app_distr, span_app, rev_involutive. reflexivity. }
  destruct (1 >=? zlen q); intros [= <- <-] Hi; [lia|].
  pose proof (zlen_span_snd is_blank q). pose proof (zlen_nonneg (span is_blank q).2).
  rewrite Hp, znth_app by lia. replace (i <? zlen q) with true by lia.
  rewrite <- (span_app is_blank q), znth_app by lia. replace (i <? zlen (span is_blank q).1) with true by lia.
  pose proof (span_holds is_blank q) as Ha. rewrite forallb_forall in Ha. apply Ha. unfold znth, zlen in *. apply nth_In. lia.
Qed.

Lemma at_before_blank_cr r p e q : 0 <= q < p -> p <= bend r -> at_ (blank_cr p e r) q = at_ r q.
Proof.
  intros Hq Hp. unfold blank_cr. destruct (p <? e); [|reflexivity]. rewrite at_put by lia. replace (p <=? q) with false by lia. reflexivity.
Qed.

Lemma header_line_ok cfg L pColon e r : parsed N T L r -> L <= pColon < e - 1 -> e < bend r -> at_ r (e - 1) = 13 -> at_ r pColon = 58 ->
  match header_line cfg L pColon e r with LineNext r' => parsed N T (e + 1) r' | LineReturn ret r' => stopped ret r' end.
Proof.
  intros HP Hc He Hcr H58. unfold header_line. cbv zeta.
  pose proof (parsed_pos _ _ _ _ HP) as HL. set (r1 := blank_cr (pColon + 1) (e - 1) r).
  assert (HP1 : parsed N T L r1) by (eapply parsed_quiet; [apply quiet_blank_cr; lia|exact HP]).
  assert (Hcr1 : at_ r1 (e - 1) = 13) by (unfold r1; rewrite at_blank_cr by lia; exact Hcr).
  assert (H58' : at_ r1 pColon = 58) by (unfold r1; rewrite at_before_blank_cr by lia; exact H58).
  assert (He1 : e < bend r1) by (pose proof (bend_blank_cr L (pColon + 1) (e - 1) r); unfold r1; lia).
  clearbody r1. destruct (skipSpaceBothSide _) as [skip v] eqn:Hs.
  assert (Hblank : forall q, pColon < q < pColon + 1 + skip -> at_ r1 q <> 58).
  { intros q Hq E. pose proof (skipped_blank _ _ _ (q - (pColon + 1)) Hs ltac:(lia)) as Hb.
    apply line_value in Hs as [_ Hv]; [|lia..]. pose proof (zlen_nonneg v).
    unfold text, at_ in *. rewrite znth_slice in Hb by lia. replace (pColon + 1 + (q - (pColon + 1))) with q in Hb by lia. rewrite E in Hb. discriminate. }
  apply line_value in Hs as [Hsk Hv]; [|lia..]. pose proof (zlen_nonneg v).
  assert (F4 : stopped SC_400 r1) by (split; [vm_compute; discriminate|apply (parsed_size _ _ _ _ HP1)]).
  destruct (_ && _); [exact F4|]. destruct (memchr 0 v); [exact F4|].
  set (index := getIndex _ _). pose proof (getIndex_nonneg (zdrop L (m_headerBuf r1)) (pColon - L)) as Hi. fold index in Hi.
  destruct (Z.ltb_spec index H_TE) as [Hlt|Hge].
  - destruct (Z.eqb_spec (znth (m_commonHeaderOffset r1) index) 0) as [E|].
    + destruct (processHeader_index _ _ _) as [ret r'] eqn:Hp.
      change H_TE with 25 in Hlt. assert (Hun : isHeaderSet r1 index = false) by (unfold isHeaderSet; rewrite E; reflexivity).
      assert (Hname : index = H_TRANSFER_ENCODING -> colon_before r1 (pColon + 1 + skip)).
      { intros Hte. apply getIndex_te in Hte. exists pColon. pose proof (parsed_pos _ _ _ _ HP1). split_and!; auto; lia. }
      destruct (common_line_ok L (e + 1) cfg index (pColon + 1 + skip) (pColon + 1 + skip + zlen v - (pColon + 1 + skip)) r1 HP1 ltac:(lia) ltac:(lia) ltac:(lia) ltac:(lia) ltac:(lia) Hun Hname _ _ Hp) as [[-> ?]|Hf]; [assumption|].
      rewrite (fatal_ne _ (proj1 Hf)). exact Hf.
    + destruct (_ || _); [exact F4|]. apply unknown_line_ok; [assumption|lia..].
  - destruct (index <? H_HEADER_END); [|apply unknown_line_ok; [assumption|lia..]].
    destruct (_ =? 0); [|apply unknown_line_ok; [assumption|lia..]].
    assert (Hstore : forall r2, quiet L r1 r2 -> parsed N T (e + 1) r2).
    { intros r2 Hq. apply (parsed_mono L); [eapply parsed_quiet; eassumption|]. pose proof (quiet_size _ _ _ Hq). lia. }
    pose proof (parsed_pos _ _ _ _ HP1). destruct (_ && _ && (_ >=? 3) && _); apply Hstore; unfold store_other; quiet_steps.
Qed.

(** ** All the lines *)

(** Between two reads. *)
Record waiting (r : HttpReq) : Prop := Waiting {
  waiting_blank : m_iHeaderStatus r = HEADER_REQUEST_LINE -> blank r /\ m_iHostOff r = 0;
  waiting_framed : T -> framed r /\ te_named r;
  waiting_fin : 4 <= m_iReqHeaderBufFinished r <= bend r;
  waiting_tables : length (m_commonHeaderOffset r) = 25%nat /\ length (m_commonHeaderLen r) = 25%nat }.

(** What [processHeaderLines] leaves: done, failed, or waiting with what is
    parsed; the buffer has its size. *)
Definition lines_left (ret : Z) (r : HttpReq) : Prop :=
  bend r = N /\
  ((ret = 0 /\ (T -> framed r /\ te_named r /\ kept (m_iHttpHeaderEnd r) r H_TRANSFER_ENCODING) /\ complete r) \/ fatal ret \/ (ret = 1 /\ waiting r)).

Lemma stopped_left ret r : stopped ret r -> lines_left ret r.
Proof. intros [Hf Hs]. split; auto. Qed.

Lemma headers_done_ok b L r ret r' : parsed N T L r -> (b = true -> 4 < L) -> headers_done b L r = (ret, r') -> lines_left ret r'.
Proof.
  intros HP HL4. pose proof (parsed_size _ _ _ _ HP) as HN. unfold headers_done. cbv zeta. destruct b.
  - destruct (_ && _); intros [= <- <-]; (split; [exact HN|]); [right; left; vm_compute; discriminate|]. left. split; [reflexivity|].
    split; [intros HT; split; [apply (parsed_framed _ _ _ _ HP HT)|split; [apply (parsed_named _ _ _ _ HP HT)|apply (parsed_te _ _ _ _ HP HT)]]|].
    pose proof (parsed_pos _ _ _ _ HP). split; [reflexivity|]. split; [reflexivity|]. cbn. specialize (HL4 eq_refl). change (bend (set_iHeaderStatus _ _)) with (bend r). lia.
  - intros [= <- <-]. split; [exact HN|]. right. right. split; [reflexivity|]. destruct HP as [Hf _ _ Hnm Htab Hst _ Hp _]. split; auto; intros; contradiction.
Qed.

Lemma fold_stop_ok L r ret r' : parsed N T L r -> fold_stop L r ret r' -> lines_left ret r'.
Proof.
  intros HP [Hret (r0 & Hq & Hr)]. assert (HP0 : parsed N T L r0) by (eapply parsed_quiet; eassumption).
  pose proof (parsed_size _ _ _ _ HP0) as HN. split; [destruct Hr as [->| ->]; exact HN|].
  destruct Hret as [->| ->]; [right; left; vm_compute; discriminate|]. right. right.
  destruct HP0 as [Hf _ _ Hnm Htab Hst Hfin Hp _].
  split; [reflexivity|]. destruct Hr as [->| ->]; split; auto; intros; contradiction.
Qed.

Lemma header_lines_ok fuel cfg : forall L r ret r', parsed N T L r -> header_lines fuel cfg L r = (ret, r') -> lines_left ret r'.
Proof.
  induction fuel as [|fuel IH]; intros L r ret r' HP; cbn [header_lines]; [apply headers_done_ok; [exact HP|discriminate]|].
  pose proof (parsed_pos _ _ _ _ HP) as HL.
  assert (F4 : lines_left SC_400 r) by (apply stopped_left; split; [vm_compute; discriminate|apply (parsed_size _ _ _ _ HP)]).
  destruct (find r 10 L (bend r)) as [e|] eqn:He; [|apply headers_done_ok; [exact HP|discriminate]].
  apply find_Some in He as [He _]; [|lia..].
  destruct (Z.eqb_spec e L); cbn [orb]; [intros [= <- <-]; exact F4|].
  destruct (Z.eqb_spec (at_ r (e - 1)) 13) as [Hcr|]; cbn [negb]; [|intros [= <- <-]; exact F4].
  destruct (find r 58 L e) as [c|] eqn:Hc.
  - apply find_Some in Hc as [Hc H58]; [|lia..]. assert (c <> e - 1) by (intros ->; rewrite H58 in Hcr; discriminate).
    pose proof (unfold_line_ok (S (length (m_headerBuf r))) L r e ltac:(lia) ltac:(lia) Hcr) as Hu.
    destruct (unfold_line _ L r e) as [ret0 r0|r0 e0].
    { intros [= <- <-]. eapply fold_stop_ok; eassumption. }
    destruct Hu as (Hq & He0 & Hcr0 & Hat). assert (HP0 : parsed N T L r0) by (eapply parsed_quiet; eassumption).
    pose proof (header_line_ok cfg L c e0 r0 HP0 ltac:(lia) ltac:(lia) Hcr0 ltac:(rewrite Hat by lia; exact H58)) as Hh.
    destruct (header_line cfg L c e0 r0) as [ret1 r1|r1]; [intros [= <- <-]; apply stopped_left, Hh|apply IH, Hh].
  - destruct (_ || _); [|intros [= <- <-]; exact F4]. apply headers_done_ok; [apply (parsed_mono L); [assumption|lia]|lia].
Qed.

(** ** The request line *)

(** The request line leaves the headers and the length alone. *)
Record untouched (r r' : HttpReq) : Prop := Untouched {
  untouched_offset : m_commonHeaderOffset r' = m_commonHeaderOffset r;
  untouched_lens : m_commonHeaderLen r' = m_commonHeaderLen r;
  untouched_length : m_lEntityLength r' = m_lEntityLength r;
  untouched_fin : m_iReqHeaderBufFinished r' = m_iReqHeaderBufFinished r;
  untouched_size : bend r' = bend r }.

#[export] Instance untouched_pre : PreOrder untouched.
Proof. split; [intros r; split; reflexivity|]. intros r r' r'' [] []. split; congruence. Qed.

Lemma blank_untouched r r' : untouched r r' -> blank r -> blank r'.
Proof.
  intros [Eo El En Ef Hs] [Hc Ht Hn [? ?] Hf]. split; unfold isHeaderSet in *; rewrite ?Eo, ?El, ?En, ?Ef; auto. lia.
Qed.

Lemma blank_fin_set p r : blank r -> 4 <= p <= bend r -> blank (set_iReqHeaderBufFinished p r).
Proof. intros [] Hp. split; assumption. Qed.

Lemma blank_framed r : blank r -> framed r.
Proof. intros [Hc Ht Hn _ _]. unfold framed. rewrite Hc, Ht. exact Hn. Qed.

Lemma blank_named r : blank r -> te_named r.
Proof. intros [_ Ht _ _ _] Hs. congruence. Qed.

Lemma blank_parsed r : blank r -> m_iHeaderStatus r <> HEADER_REQUEST_LINE -> bend r = N -> parsed N T (m_iReqHeaderBufFinished r) r.
Proof.
  intros HB Hst HN. pose proof HB as [Hc Ht Hn Htab Hf].
  split; auto; [intros; apply blank_framed; assumption|..]; intros _ Hs; congruence.
Qed.

Lemma blank_left r : blank r -> m_iHostOff r = 0 -> bend r = N -> lines_left 1 r.
Proof.
  intros HB Hh HN. split; [exact HN|]. right. right. split; [reflexivity|].
  split; auto; [intros; split; [apply blank_framed, HB|apply blank_named, HB]|apply HB..].
Qed.

Lemma untouched_put p d r : 0 <= p -> p + zlen d <= bend r -> untouched r (put_ p d r).
Proof. intros. split; try reflexivity. apply bend_put; assumption. Qed.

Lemma untouched_then_put p d r r' : 0 <= p -> p + zlen d <= bend r -> untouched r r' -> untouched r (put_ p d r').
Proof. intros Hp He Hu. rewrite Hu at 1. apply untouched_put; [assumption|]. rewrite (untouched_size _ _ Hu). assumption. Qed.

Ltac untouched_steps :=
  repeat first [reflexivity | assumption
    | lazymatch goal with
      | |- untouched _ (put_ _ _ _) => apply untouched_then_put; [in_bounds|in_bounds|]
      | |- untouched _ (if ?b then _ else _) => destruct b eqn:?
      | |- untouched _ (?f _ ?r') => is_const f; transitivity r'; [|split; reflexivity]
      | |- untouched _ (?f ?r') => is_const f; transitivity r'; [|split; reflexivity]
      end].

Lemma parseMethod_ok p r ret r' : parseMethod p r = (ret, r') ->
  (untouched r r' /\ m_iHostOff r' = m_iHostOff r) /\ (ret = 0 \/ fatal ret).
Proof.
  unfold parseMethod. cbv zeta.
  destruct (_ =? 0); [intros [= <- <-]; split; [split; [untouched_steps|reflexivity]|right; vm_compute; discriminate]|].
  set (r0 := if _ =? HTTP_HEAD then _ else _). assert (U : untouched r r0) by (subst r0; untouched_steps).
  assert (Hh : m_iHostOff r0 = m_iHostOff r) by (subst r0; destruct (_ =? HTTP_HEAD); reflexivity). clearbody r0.
  destruct (_ || _); [intros [= <- <-]; split; [auto|right; vm_compute; discriminate]|].
  destruct (_ && _); intros [= <- <-]; (split; [auto|]); [right; vm_compute; discriminate|auto].
Qed.

Lemma postProcessHost_ok p e r ret r' : 0 <= p <= bend r -> e <= bend r -> postProcessHost p e r = (ret, r') ->
  untouched r r' /\ ((ret = 0 /\ 0 <= m_iHostLen r') \/ fatal ret).
Proof.
  intros Hp He. unfold postProcessHost. destruct (Z.ltb_spec (getAuthorityHostLen (text r p e)) 0);
    intros [= <- <-]; cbv zeta; (split; [untouched_steps|]).
  - right. vm_compute. discriminate.
  - rewrite zlen_map, zlen_text by lia. lia.
  - rewrite zlen_map, zlen_text by lia. lia.
  - left. split; [reflexivity|]. assumption.
Qed.

Lemma parseHost_ok p e r ret r' : blank r -> m_iHostOff r = 0 -> 4 <= p <= e -> e <= bend r -> parseHost p e r = (ret, r') ->
  (ret = 0 /\ untouched r r' /\ (m_iHostOff r' = 0 \/ 0 <= m_iHostOff r' + m_iHostLen r')) \/
  (fatal ret /\ untouched r r') \/ (ret = 1 /\ blank r' /\ m_iHostOff r' = 0 /\ bend r' = bend r).
Proof.
  intros HB Hho Hp He. unfold parseHost. destruct (existsb _ _); [intros [= <- <-]; left; split; [reflexivity|split; [reflexivity|auto]]|].
  destruct (find r 58 p e) as [q|] eqn:Hq.
  2:{ intros [= <- <-]. right. right. split; [reflexivity|]. split; [|split; [assumption|reflexivity]]. apply blank_fin_set; [assumption|lia]. }
  apply find_Some in Hq as [Hq _]; [|lia..]. destruct (_ <? e).
  2:{ intros [= <- <-]. right. right. split; [reflexivity|]. split; [|split; [assumption|reflexivity]]. apply blank_fin_set; [assumption|lia]. }
  destruct (_ || _ || _); [intros [= <- <-]; right; left; split; [vm_compute; discriminate|reflexivity]|]. cbv zeta.
  destruct (find r 47 (q + 3) e) as [h|] eqn:Hf47.
  2:{ intros [= <- <-]. right. right. split; [reflexivity|]. split; [|split; [assumption|reflexivity]]. apply blank_fin_set; [assumption|]. pose proof (blank_fin _ HB). lia. }
  apply find_Some in Hf47 as [H47 _]; [|lia..].
  destruct (postProcessHost _ _ _) as [ret0 r0] eqn:Hh.
  apply postProcessHost_ok in Hh as [Hu [[-> Hhl]|Hf]]; [| |change (bend (set_iHostLen (q + 3 - p) r)) with (bend r); lia..].
  - cbn [Z.eqb]. assert (untouched r r0) by (rewrite <- Hu; split; reflexivity). unfold setNewHost.
    intros [= <- <-]. left. split; [reflexivity|]. destruct (_ =? 0); (split; [untouched_steps|]).
    + left. reflexivity.
    + right. cbn. lia.
  - rewrite fatal_ne by assumption. intros [= <- <-]. right. left. split; [assumption|]. rewrite <- Hu. split; reflexivity.
Qed.

Lemma parseURI_code mem o t ret u : parseURI mem o t = (ret, u) -> ret = 0 \/ fatal ret.
Proof.
  unfold parseURI. repeat case_match; intros [= <- _]; first [left; reflexivity | right; vm_compute; discriminate].
Qed.

Lemma parseURL_ok cfg p e r ret r' : parseURL cfg p e r = (ret, r') -> untouched r r' /\ (ret = 0 \/ fatal ret).
Proof.
  unfold parseURL. cbv zeta. destruct (parseURI _ _ _) as [ret0 u] eqn:Hu. apply parseURI_code in Hu.
  destruct u as [u|]; destruct (_ =? 0); intros [= <- <-]; (split; [|auto]); unfold classifyUrl; cbv zeta; untouched_steps.
Qed.

Lemma parseProtocol_ok p e r ret q r' : 0 <= p -> e <= bend r -> parseProtocol p e r = (ret, (q, r')) ->
  untouched r r' /\ (ret = 0 \/ fatal ret).
Proof.
  intros Hp He. unfold parseProtocol. cbv zeta. destruct (Z.ltb_spec (e - p) 8); [intros [= <- _ <-]; split; [reflexivity|right; vm_compute; discriminate]|].
  repeat (match goal with |- context [if ?b then _ else _] => destruct b end);
    intros [= <- _ <-]; unfold keepAlive; (split; [untouched_steps|]); first [left; reflexivity | right; vm_compute; discriminate].
Qed.

Lemma find_line_ok fuel : forall r p e b, blank r -> m_iHostOff r = 0 -> 4 <= p <= bend r -> e <= bend r ->
  match find_line fuel r p e b with
  | LineBad r' => bend r' = bend r
  | LineNone r' _ => (blank r' /\ m_iHostOff r' = 0) /\ bend r' = bend r
  | LineFound r' q l => (blank r' /\ m_iHostOff r' = 0) /\ 4 <= q <= l /\ l < bend r' /\ bend r' = bend r
  end.
Proof.
  induction fuel as [|fuel IH]; intros r p e b HB Hh Hp He; cbn [find_line]; [auto|].
  destruct (find r 10 p e) as [l|] eqn:Hl; [|auto]. apply find_Some in Hl as [Hl _]; [|lia..].
  destruct (_ || _); [reflexivity|]. destruct (_ =? _).
  - apply (IH (set_iReqHeaderBufFinished (l + 1) r)); [apply blank_fin_set; [assumption|lia]|assumption|..]; change (bend (set_iReqHeaderBufFinished (l + 1) r)) with (bend r); lia.
  - destruct (isspace _); [reflexivity|]. split; [auto|lia].
Qed.

Lemma processHeaderLines_ok cfg r ret r' : parsed N T (m_iReqHeaderBufFinished r) r -> processHeaderLines cfg r = (ret, r') -> lines_left ret r'.
Proof. intros HP. apply header_lines_ok, HP. Qed.

(** A step that fails. *)

Lemma bad_request r : bend r = N -> lines_left SC_400 r.
Proof. intros HN. apply stopped_left. split; [vm_compute; discriminate|exact HN]. Qed.

Lemma untouched_stop ret r r' : untouched r r' -> bend r = N -> fatal ret -> lines_left ret r'.
Proof. intros Hu HN Hf. apply stopped_left. split; [exact Hf|]. rewrite (untouched_size _ _ Hu). exact HN. Qed.

Lemma scan_to_le r stop p e : 0 <= p <= e -> e <= bend r -> p <= scan_to r stop p e <= e.
Proof.
  intros Hp He. unfold scan_to, text, bend in *.
  pose proof (zlen_span_snd (fun c => negb (existsb (Z.eqb c) stop)) (slice p e (m_headerBuf r))) as H.
  rewrite zlen_slice in H by lia.
  pose proof (zlen_nonneg (span (fun c => negb (existsb (Z.eqb c) stop)) (slice p e (m_headerBuf r))).1).
  pose proof (zlen_nonneg (span (fun c => negb (existsb (Z.eqb c) stop)) (slice p e (m_headerBuf r))).2). lia.
Qed.

(** The steps of the request line. *)
Lemma request_line_ok cfg p l r ret r' : blank r -> m_iHostOff r = 0 -> 4 <= p <= l -> l < bend r -> bend r = N ->
  request_line cfg p l r = (ret, r') -> lines_left ret r'.
Proof.
  intros HB Hho Hp Hl HN. unfold request_line. cbv zeta.
  set (r0 := set_reqLineLen 0 (set_reqLineOff p r)). assert (U0 : untouched r r0) by (split; reflexivity).
  assert (Hs : p <= scan_to r0 [32; 9] p l <= l) by (apply scan_to_le; change (bend r0) with (bend r); lia).
  set (s := scan_to r0 [32; 9] p l) in *. clearbody s.
  destruct (parseMethod p r0) as [ret1 r1] eqn:H1. apply parseMethod_ok in H1 as [[U1 H1] [->|F1]];
    [|rewrite (fatal_ne _ F1); intros [= <- <-]; apply (untouched_stop _ r0); assumption]. cbn match.
  assert (U : untouched r r1) by (transitivity r0; assumption). change (m_iHostOff r0) with (m_iHostOff r) in H1. clear U0 U1. clearbody r0.
  destruct (_ || _ || _ || _ || _) eqn:Hb; [intros [= <- <-]; apply bad_request; rewrite (untouched_size _ _ U); exact HN|]. assert (s < l) by (clear - Hb; lia). clear Hb.
  pose proof (blank_untouched _ _ U HB) as HB1. pose proof (untouched_size _ _ U) as S1. rewrite HN in S1.
  destruct (parseHost _ _ _) as [ret2 r2] eqn:H2.
  apply parseHost_ok in H2 as [(-> & U2 & Hpos)|[[F2 U2]|(-> & B2 & B3 & B4)]];
    [|rewrite (fatal_ne _ F2); intros [= <- <-]; apply (untouched_stop _ r1); assumption| |assumption|congruence|lia|lia].
  2:{ intros [= <- <-]. apply blank_left; congruence. }
  cbn match. assert (U' : untouched r r2) by (transitivity r1; assumption).
  assert (S2 : bend r2 = N) by (rewrite (untouched_size _ _ U'); exact HN).
  set (t := if m_iHostOff r2 =? 0 then s + 1 else _).
  assert (Ht : 0 <= t). { subst t. destruct (Z.eqb_spec (m_iHostOff r2) 0); [lia|]. destruct Hpos; [contradiction|assumption]. }
  clearbody t. destruct (_ && _); [intros [= <- <-]; apply bad_request, S2|].
  destruct (if at_ r2 _ =? 42 then _ else _) as [q|]; [|intros [= <- <-]; apply bad_request, S2].
  assert (Hu : t <= scan_to r2 [32; 9; 13] t l) by (unfold scan_to; pose proof (zlen_nonneg (span (fun c => negb (existsb (Z.eqb c) [32; 9; 13])) (text r2 t l)).1); lia).
  set (u := scan_to r2 [32; 9; 13] t l) in *. clearbody u.
  destruct (_ || _); [intros [= <- <-]; apply bad_request, S2|].
  set (r3 := set_reqURLOff q r2). assert (U3 : untouched r r3) by (rewrite U'; split; reflexivity). clearbody r3.
  destruct (negb _); [intros [= <- <-]; apply bad_request; rewrite (untouched_size _ _ U3); exact HN|].
  destruct (parseURL _ _ _ _) as [ret4 r4] eqn:H4. apply parseURL_ok in H4 as [U4 [->|F4]];
    [|rewrite (fatal_ne _ F4); intros [= <- <-]; apply (untouched_stop _ r3); [assumption|rewrite (untouched_size _ _ U3); exact HN|assumption]]. cbn match.
  assert (S4 : bend r4 = N) by (rewrite (untouched_size _ _ U4), (untouched_size _ _ U3); exact HN).
  destruct (_ || _ || _ || _); [intros [= <- <-]; apply bad_request, S4|].
  destruct (parseProtocol _ _ _) as [ret5 [q5 r5]] eqn:H5. apply parseProtocol_ok in H5 as [U5 [->|F5]];
    [|rewrite (fatal_ne _ F5); intros [= <- <-]; apply (untouched_stop _ r4); assumption|lia|lia]. cbn [negb Z.eqb].
  destruct (_ <? _); [intros [= <- <-]; apply bad_request; rewrite (untouched_size _ _ U5); exact S4|].
  assert (U6 : untouched r r5) by (transitivity r4; [transitivity r3; assumption|assumption]). clear U U' U3 U4 U5.
  set (r7 := set_iHS3 _ _). assert (U7 : untouched r r7) by (rewrite U6; subst r7; untouched_steps).
  assert (S7 : m_iHeaderStatus r7 <> HEADER_REQUEST_LINE) by discriminate. clearbody r7.
  assert (N7 : bend r7 = N) by (rewrite (untouched_size _ _ U7); exact HN).
  apply processHeaderLines_ok. apply blank_parsed; [|exact S7|exact N7]. apply blank_fin_set.
  - eapply blank_untouched; eassumption.
  - lia.
Qed.

Lemma processRequestLine_ok cfg r ret r' : blank r -> m_iHostOff r = 0 -> bend r = N -> processRequestLine cfg r = (ret, r') -> lines_left ret r'.
Proof.
  intros HB Hho HN. pose proof (blank_fin _ HB) as Hf. unfold processRequestLine. cbv zeta.
  destruct (_ <? 0); [intros [= <- <-]; apply stopped_left; split; [vm_compute; discriminate|exact HN]|].
  pose proof (find_line_ok (S (length (m_headerBuf r))) r (m_iReqHeaderBufFinished r) 
    (if bend r >? getMaxURLLen cfg then getMaxURLLen cfg else bend r) (bend r >? getMaxURLLen cfg) HB Hho ltac:(lia)) as Hl.
  specialize (Hl ltac:(destruct (Z.gtb_spec (bend r) (getMaxURLLen cfg)); lia)).
  destruct (find_line _ _ _ _ _) as [r0|r0 long|r0 p l].
  - intros [= <- <-]. apply bad_request. congruence.
  - destruct Hl as [[HB0 Hh0] Hs]. destruct long; [intros [= <- <-]; apply stopped_left; split; [vm_compute; discriminate|congruence]|].
    destruct (_ <? _); intros [= <- <-]; [apply blank_left; congruence|apply bad_request; congruence].
  - destruct Hl as ([HB0 Hh0] & Hp & Hlt & Hs). apply request_line_ok; congruence.
Qed.

End Parsed.

(** ** Reads *)

Lemma waiting_new T : waiting T new_HttpReq.
Proof.
  assert (HB : blank new_HttpReq) by (split; vm_compute; (reflexivity || (split; (reflexivity || discriminate)))).
  split; [auto|intros; split; [apply blank_framed, HB|apply blank_named, HB]|apply HB..].
Qed.

(** New bytes at the end of the buffer. *)
Lemma framed_app d r : settled r = true -> framed r -> m_iReqHeaderBufFinished r <= bend r ->
  framed (set_headerBuf (m_headerBuf r ++ d) r).
Proof.
  intros Hs Hf Hfin. apply andb_true_iff in Hs as [Hc Ht]. apply keptb_kept in Hc, Ht.
  assert (G : forall i, isHeaderSet r i = true -> kept (m_iReqHeaderBufFinished r) r i ->
    getHeader (set_headerBuf (m_headerBuf r ++ d) r) i = getHeader r i).
  { intros i Hi Hk. destruct (Hk Hi) as (? & ? & ?). unfold getHeader, text, bend in *. cbn. apply slice_app_l; lia. }
  unfold framed in *. change (isHeaderSet (set_headerBuf (m_headerBuf r ++ d) r)) with (isHeaderSet r).
  change (m_lEntityLength (set_headerBuf (m_headerBuf r ++ d) r)) with (m_lEntityLength r).
  destruct (isHeaderSet r H_CONTENT_LENGTH) eqn:E1, (isHeaderSet r H_TRANSFER_ENCODING) eqn:E2; rewrite ?G; auto.
Qed.

Lemma named_app d r : settled r = true -> te_named r -> m_iReqHeaderBufFinished r <= bend r ->
  te_named (set_headerBuf (m_headerBuf r ++ d) r).
Proof.
  intros Hs Hn Hfin. apply andb_true_iff in Hs as [_ Ht]. apply keptb_kept in Ht. intros Hset. change (isHeaderSet r H_TRANSFER_ENCODING = true) in Hset.
  destruct (Ht Hset) as (? & ? & ?). apply (colon_before_same (bend r + 2) r); [cbn; lia| |apply Hn, Hset].
  intros q Hq. unfold at_, bend in *. cbn. rewrite znth_app by lia. replace (q <? zlen (m_headerBuf r)) with true by lia. reflexivity.
Qed.

(** One read, with the framing kept track of if it is settled. *)
Lemma receive_ok (T : Prop) cfg d r ret r' : (T -> settled r = true) -> waiting T r -> receive cfg d r = (ret, r') ->
  lines_left (bend r + zlen d) T ret r'.
Proof.
  intros Hs HW. pose proof HW as [Hb Hfr Hfin Htab].
  assert (Hf : T -> framed (set_headerBuf (m_headerBuf r ++ d) r)) by (intros HT; apply framed_app; [apply Hs, HT|apply Hfr, HT|lia]).
  assert (Hnm : T -> te_named (set_headerBuf (m_headerBuf r ++ d) r)) by (intros HT; apply named_app; [apply Hs, HT|apply Hfr, HT|lia]).
  unfold receive. set (r0 := set_headerBuf _ r) in *.
  assert (Hsz : bend r0 = bend r + zlen d) by (unfold bend; cbn; apply zlen_app).
  pose proof (zlen_nonneg d).
  unfold processHeader. destruct (Z.eqb_spec (m_iHeaderStatus r0) HEADER_REQUEST_LINE) as [E|E].
  - destruct (Hb E) as [[A B C D F] Hho]. assert (HB : blank r0).
    { split; try assumption. change (m_iReqHeaderBufFinished r0) with (m_iReqHeaderBufFinished r). lia. }
    destruct (processRequestLine cfg r0) as [ret1 r1] eqn:H1. apply (processRequestLine_ok (bend r + zlen d) T) in H1; [|assumption..].
    destruct (_ && _); intros [= <- <-]; [|assumption]. destruct H1 as [Hsz1 _]. split; [exact Hsz1|]. right. left. vm_compute. discriminate.
  - assert (Hk : T -> kept (m_iReqHeaderBufFinished r) r H_CONTENT_LENGTH /\ kept (m_iReqHeaderBufFinished r) r H_TRANSFER_ENCODING).
    { intros HT. specialize (Hs HT). apply andb_true_iff in Hs as [Hc Ht]. split; apply keptb_kept; assumption. }
    apply processHeaderLines_ok. split; try assumption; try (intros HT; apply (Hk HT));
      change (m_iReqHeaderBufFinished r0) with (m_iReqHeaderBufFinished r); lia.
Qed.

(** Between the reads, no header that frames is in a line yet to be parsed. *)
Fixpoint settled_run (cfg : HttpServerConfig) (reads : list (list Z)) (r : HttpReq) : bool :=
  settled r &&
  match reads with
  | [] => true
  | data :: reads => let '(ret, r) := receive cfg data r in if ret =? 1 then settled_run cfg reads r else true
  end.

(** The bytes of the reads that the parser has seen when it stops. *)
Fixpoint bytes_seen (cfg : HttpServerConfig) (reads : list (list Z)) (r : HttpReq) : Z :=
  match reads with
  | [] => 0
  | data :: reads => let '(ret, r) := receive cfg data r in zlen data + if ret =? 1 then bytes_seen cfg reads r else 0
  end.

Lemma receive_all_ok cfg reads (T : Prop) : forall r ret r', (T -> settled_run cfg reads r = true) -> waiting T r ->
  receive_all cfg reads r = (ret, r') ->
  bend r' = bend r + bytes_seen cfg reads r /\
  ((ret = 0 /\ (T -> framed r' /\ te_named r' /\ kept (m_iHttpHeaderEnd r') r' H_TRANSFER_ENCODING) /\ complete r') \/ fatal ret \/ ret = 1).
Proof.
  induction reads as [|d reads IH]; intros r ret r' Hs HW; cbn [receive_all bytes_seen].
  { intros [= <- <-]. split; [lia|auto]. }
  destruct (receive cfg d r) as [ret1 r1] eqn:Hr. cbn [settled_run] in Hs. rewrite Hr in Hs.
  assert (Hs1 : T -> settled r = true) by (intros HT; apply (andb_prop _ _ (Hs HT))).
  apply (receive_ok T) in Hr as [Hsz Hr]; [|assumption..]. destruct (Z.eqb_spec ret1 1) as [->|].
  - destruct Hr as [[[=] _]|[Hf|[_ HW1]]]; [unfold fatal in Hf; lia|]. intros H. apply IH in H; [|intros HT; apply (andb_prop _ _ (Hs HT))|assumption].
    destruct H as [H1 H2]. split; [lia|assumption].
  - intros [= <- <-]. split; [lia|]. destruct Hr as [?|[?|[? _]]]; auto.
Qed.

(** The request that the parser hands on. *)
Lemma receive_all_complete cfg reads r : receive_all cfg reads new_HttpReq = (0, r) -> complete r.
Proof.
  intros H. apply (receive_all_ok cfg reads False) in H as [_ [(_ & _ & Hc)|[Hf|[=]]]]; [exact Hc|unfold fatal in Hf; lia|contradiction|apply waiting_new].
Qed.

Lemma receive_all_te cfg reads r : settled_run cfg reads new_HttpReq = true -> receive_all cfg reads new_HttpReq = (0, r) ->
  framed r /\ te_named r /\ kept (m_iHttpHeaderEnd r) r H_TRANSFER_ENCODING.
Proof.
  intros Hs H. apply (receive_all_ok cfg reads True) in H as [_ [(_ & Hf & _)|[Hf|[=]]]]; [apply Hf, I|unfold fatal in Hf; lia|auto|apply waiting_new].
Qed.

(** ** The fuel of the loops is enough *)

Lemma unfold_line_fuel L : forall f g r q, 2 <= L <= bend r -> L <= q < bend r -> bend r - q <= Z.of_nat f -> bend r - q <= Z.of_nat g ->
  unfold_line f L r q = unfold_line g L r q.
Proof.
  induction f as [|f IH]; intros [|g] r q HL Hq Hf Hg; [reflexivity|lia..|]. cbn [unfold_line].
  destruct (_ >=? _) eqn:E1; [reflexivity|]. destruct (_ || _); [|reflexivity].
  set (r1 := if at_ (put_ q [32] r) (q - 1) =? 13 then _ else _).
  assert (Q1 : quiet L r r1) by (subst r1; quiet_steps). pose proof (quiet_size _ _ _ Q1) as S1.
  assert (H32 : at_ r1 q = 32).
  { assert (H0 : at_ (put_ q [32] r) q = 32).
    { rewrite at_put by lia. unfold zlen. cbn [length]. rewrite Z.leb_refl. replace (q <? q + Z.of_nat 1) with true by lia. rewrite Z.sub_diag. reflexivity. }
    subst r1. destruct (_ =? 13); [|exact H0]. rewrite at_put by (rewrite ?bend_put; unfold zlen; cbn [length]; lia).
    unfold zlen. cbn [length]. replace (q <? q - 1 + Z.of_nat 1) with false by lia. rewrite andb_false_r. exact H0. }
  clearbody r1. destruct (find r1 10 q (bend r1)) as [q'|] eqn:Hf'; [|reflexivity].
  apply find_Some in Hf' as [Hq' H10]; [|lia..]. destruct (negb _); [reflexivity|].
  assert (q' <> q) by (intros ->; congruence). apply IH; lia.
Qed.

(** The lines take no more than the bytes that are left. *)
Lemma header_lines_fuel N cfg : forall f g L r, parsed N False L r -> N - L < Z.of_nat f -> N - L < Z.of_nat g ->
  header_lines f cfg L r = header_lines g cfg L r.
Proof.
  induction f as [|f IH]; intros g L r HP Hf Hg; pose proof (parsed_pos _ _ _ _ HP); pose proof (parsed_size _ _ _ _ HP); [lia|].
  destruct g as [|g]; [lia|]. cbn [header_lines]. destruct (find r 10 L (bend r)) as [e|] eqn:He; [|reflexivity].
  apply find_Some in He as [He _]; [|lia..].
  destruct (Z.eqb_spec e L); cbn [orb]; [reflexivity|].
  destruct (Z.eqb_spec (at_ r (e - 1)) 13) as [Hcr|]; cbn [negb]; [|reflexivity].
  destruct (find r 58 L e) as [c|] eqn:Hc; [|reflexivity].
  apply find_Some in Hc as [Hc H58]; [|lia..]. assert (c <> e - 1) by (intros ->; rewrite H58 in Hcr; discriminate).
  pose proof (unfold_line_ok (S (length (m_headerBuf r))) L r e ltac:(lia) ltac:(lia) Hcr) as Hu.
  destruct (unfold_line _ L r e) as [ret0 r0|r0 e0]; [reflexivity|].
  destruct Hu as (Hq & He0 & Hcr0 & Hat). assert (HP0 : parsed N False L r0) by (eapply parsed_quiet; eassumption).
  pose proof (header_line_ok N False cfg L c e0 r0 HP0 ltac:(lia) ltac:(lia) Hcr0 ltac:(rewrite Hat by lia; exact H58)) as Hh.
  destruct (header_line cfg L c e0 r0) as [ret1 r1|r1]; [reflexivity|].
  apply IH; [assumption|lia..].
Qed.

(** ** The claims *)

(** C2: request framing.  When the headers of a request are complete, over however
    many reads they came in, its body's length is what its headers say as they
    stand in the buffer: a Content-Length of digits only and its value, or
    "chunked" and the mark of a chunked body, or neither and no body; never both.
    The reads may split the headers anywhere as long as no read ends within a
    folded header with a framing header before it in the lines that are read
    again. *)
Theorem body_framing cfg reads r : settled_run cfg reads new_HttpReq = true ->
  receive_all cfg reads new_HttpReq = (0, r) -> framed r.
Proof. intros Hs H. apply (receive_all_te cfg reads r Hs H). Qed.

(** C36: the parser's stores.  Whatever the bytes of the reads are and whatever the
    answer is, every store of the parser into the header buffer (blanks over folded
    line ends, the host in lower case, erased headers) is within the buffer, whose
    size stays that of the bytes read: a store past its end, or from before its
    start, would make it longer. *)
Theorem stores_in_bounds cfg reads : bend (receive_all cfg reads new_HttpReq).2 = HEADER_BUF_PAD + bytes_seen cfg reads new_HttpReq.
Proof.
  destruct (receive_all cfg reads new_HttpReq) as [ret r] eqn:H.
  apply (receive_all_ok cfg reads False) in H as [Hsz _]; [exact Hsz|contradiction|apply waiting_new].
Qed.

(** A configuration, and two requests in two reads each. *)
Definition sample_config : HttpServerConfig := Cfg 8192 true true true (bs "/.lsrecap") settings0.
Definition crlf (s : string) : list Z := bs s ++ [13; 10].
Definition sized_reads : list (list Z) :=
  [crlf "POST /x HTTP/1.1" ++ crlf "Content-Length: 5 " ++ bs "Exp"; crlf "ect: 100-continue" ++ crlf "Host: h.com" ++ crlf ""].
Definition chunked_reads : list (list Z) :=
  [crlf "PUT /x HTTP/1.1" ++ crlf "Host: h.com"; crlf "transfer-Encoding:" ++ crlf " Chunked" ++ crlf ""].

Lemma body_framing_witness :
  framed (receive_all sample_config sized_reads new_HttpReq).2 /\
  m_lEntityLength (receive_all sample_config sized_reads new_HttpReq).2 = 5 /\
  framed (receive_all sample_config chunked_reads new_HttpReq).2 /\
  m_lEntityLength (receive_all sample_config chunked_reads new_HttpReq).2 = LSI_BODY_SIZE_CHUNK.
Proof.
  split; [apply (body_framing sample_config sized_reads); vm_compute; reflexivity|].
  split; [vm_compute; reflexivity|].
  split; [apply (body_framing sample_config chunked_reads); vm_compute; reflexivity|].
  vm_compute. reflexivity.
Defined.

(** ** Where the reads end *)

(** The same bytes, other reads.  A request whose reads end inside a folded
    header is refused: what was parsed of it is parsed again with the next read, so
    its one Host header is a duplicate; in one read it is accepted.  And a request
    line with a second target is accepted when its headers come in another read,
    since the first target is dropped; in one read it is waited on. *)
Theorem reads_change_outcome :
  let host := crlf "GET / HTTP/1.1" ++ crlf "Host: h.com" ++ crlf "X-Foo: bar" ++ bs " ba" in
  let rest := bs "z" ++ crlf "" ++ crlf "" in
  let twice := crlf "GET GET /x HTTP/1.1" in
  let headers := crlf "Host: h.com" ++ crlf "" in
  (receive_all sample_config [host; rest] new_HttpReq).1 = SC_400 /\
  (receive_all sample_config [host ++ rest] new_HttpReq).1 = 0 /\
  (receive_all sample_config [twice; headers] new_HttpReq).1 = 0 /\
  (receive_all sample_config [twice ++ headers] new_HttpReq).1 = 1.
Proof. vm_compute. split_and!; reflexivity. Qed.
