(* ===== verification/Session.v ===== *)
(** * Session: a request's body, and the next request
    (src/src/http/httpsession.cpp, src/src/http/httpreq.cpp, src/src/http/subrequest.cpp)

    How an HTTP/1 session reads the body of a request whose headers are complete
    (Request): what came with the headers first, then the stream, through the
    chunked decoder (ChunkIn) or up to the Content-Length, with the multipart guard
    (Guard) looking on; and how the session goes on to the next request of the
    connection with what is left.  The stream is any [InputStream]; whether it is at
    its end is a parameter. *)

From S2P Require Import Prelude Guard ChunkIn Uri Headers Request.
Import HttpHeader.
#[local] Open Scope Z_scope.

Definition SC_403 : Z := 26.
Definition LSI_BODY_SIZE_UNKNOWN : Z := -2.

(** ** The header buffer as a source of the body *)

Definition pendingHeaderDataLen (r : HttpReq) : Z := m_iReqHeaderBufRead r - m_iReqHeaderBufFinished r.
Definition getCurPos (r : HttpReq) : Z := m_iReqHeaderBufFinished r.
Definition pendingDataProcessed (len : Z) (r : HttpReq) : HttpReq := set_iReqHeaderBufFinished (m_iReqHeaderBufFinished r + len) r.
Definition rewindPendingHeaderData (len : Z) (r : HttpReq) : HttpReq := set_iReqHeaderBufFinished (m_iReqHeaderBufFinished r - len) r.
Definition compactHeaderBuf (r : HttpReq) : HttpReq :=
  set_iReqHeaderBufRead (m_iHttpHeaderEnd r) (set_iReqHeaderBufFinished (m_iHttpHeaderEnd r)
    (set_headerBuf (ztake (m_iHttpHeaderEnd r) (m_headerBuf r)) r)).
Definition appendPendingHeaderData (d : list Z) (r : HttpReq) : HttpReq := set_headerBuf (m_headerBuf r ++ d) r.

(** The request, and two of its members that header parsing has nothing to do
    with: what of the body has been read, and the bytes put aside while a header is
    appended. *)
Record HttpReqBody := ReqBody { b_req : HttpReq; m_lEntityFinished : Z; m_headerLeftOver : list Z }.
Definition on_req (f : HttpReq -> HttpReq) (b : HttpReqBody) : HttpReqBody := ReqBody (f (b_req b)) (m_lEntityFinished b) (m_headerLeftOver b).

Definition setContentLength (len : Z) (b : HttpReqBody) : HttpReqBody := on_req (set_lEntityLength len) b.
Definition contentRead (len : Z) (b : HttpReqBody) : HttpReqBody := ReqBody (b_req b) (m_lEntityFinished b + len) (m_headerLeftOver b).
Definition getBodyRemain (b : HttpReqBody) : Z := m_lEntityLength (b_req b) - m_lEntityFinished b.
Definition isChunked (r : HttpReq) : bool := m_lEntityLength r =? LSI_BODY_SIZE_CHUNK.
Definition isBodySizeUnknown (r : HttpReq) : bool := m_lEntityLength r =? LSI_BODY_SIZE_UNKNOWN.

(** [inspectMultipartBody]: whether the body is blocked now. *)
Definition inspectMultipartBody (buf : list Z) (r : HttpReq) : bool * HttpReq :=
  if m_iBodyType r =? REQ_BODY_MULTIPART then
    let '(blocked, g) := Guard.inspect buf (m_multipartBodyGuard r) in (blocked, set_multipartBodyGuard g r)
  else (false, r).
Definition isMultipartBodyBlocked (r : HttpReq) : bool := is_blocked (m_multipartBodyGuard r).

(** ** Headers that are dropped, replaced and appended *)

Definition saveHeaderLeftOver (b : HttpReqBody) : HttpReqBody :=
  let r := b_req b in
  if m_iReqHeaderBufFinished r <? bend r
  then ReqBody r (m_lEntityFinished b) (zdrop (m_iReqHeaderBufFinished r) (m_headerBuf r)) else b.

Definition restoreHeaderLeftOver (b : HttpReqBody) : HttpReqBody :=
  if zlen (m_headerLeftOver b) >? 0 then
    let r := set_headerBuf (m_headerBuf (b_req b) ++ m_headerLeftOver b) (b_req b) in
    ReqBody (set_iReqHeaderBufRead (bend r) r) (m_lEntityFinished b) []
  else b.

Definition popHeaderEndCrlf (b : HttpReqBody) : HttpReqBody :=
  let b :=
    if m_iHttpHeaderEnd (b_req b) <? bend (b_req b) then
      on_req (fun r => set_iReqHeaderBufFinished (m_iHttpHeaderEnd r) (set_headerBuf (ztake (m_iHttpHeaderEnd r) (m_headerBuf r)) r))
        (saveHeaderLeftOver b)
    else b in
  let pop := if at_ (b_req b) (bend (b_req b) - 2) =? 13 then 2 else 1 in
  on_req (fun r => set_headerBuf (ztake (bend r - pop) (m_headerBuf r)) r) b.

Definition appendReqHeader (name value : list Z) (b : HttpReqBody) : HttpReqBody :=
  on_req (fun r =>
    let nameOff := bend r in
    let valOff := nameOff + zlen name + 2 in
    let r := set_headerBuf (m_headerBuf r ++ name ++ bs ": " ++ value ++ [13; 10; 13; 10]) r in
    let r := set_iReqHeaderBufFinished (bend r) (set_iHttpHeaderEnd (bend r) r) in
    if getIndex name (zlen name) =? H_HEADER_END
    then set_unknHeaders (m_unknHeaders r ++ [KV nameOff (zlen name) valOff (zlen value)]) r else r)
  (popHeaderEndCrlf b).

(** Back from [p] to the byte after the line feed before it. *)
Fixpoint line_start (fuel : nat) (r : HttpReq) (p : Z) : Z :=
  match fuel with O => p | S fuel => if at_ r (p - 1) =? 10 then p else line_start fuel r (p - 1) end.

Definition dropReqHeader (index : Z) (r : HttpReq) : HttpReq :=
  if znth (m_commonHeaderOffset r) index =? 0 then r
  else
    let p := znth (m_commonHeaderOffset r) index - getHeaderStringLen index - 1 in
    let p := if at_ r p =? 10 then p else line_start (Z.to_nat p) r p in
    let r := memset p 120 (getHeaderStringLen index) r in
    set_commonHeaderOffset (<[Z.to_nat index := 0]> (m_commonHeaderOffset r)) r.

(** [updateReqHeader] for a common header. *)
Definition updateReqHeader (index : Z) (value : list Z) (b : HttpReqBody) : HttpReqBody :=
  let r := b_req b in
  let pOld := znth (m_commonHeaderOffset r) index in
  let oldLen := znth (m_commonHeaderLen r) index in
  let diff := oldLen - zlen value in
  let set_len b := on_req (fun r => set_commonHeaderLen (<[Z.to_nat index := wrapu 16 (zlen value)]> (m_commonHeaderLen r)) r) b in
  if negb (at_ r pOld =? 0) && (diff >=? 0) then
    set_len (on_req (fun r => if diff >? 0 then memset (pOld + zlen value) 32 diff (put_ pOld value r) else put_ pOld value r) b)
  else
    let b := appendReqHeader (ztake (getHeaderStringLen index) (getHeaderName index)) value b in
    set_len (on_req (fun r => set_commonHeaderOffset (<[Z.to_nat index := bend r - 4 - zlen value]> (m_commonHeaderOffset r)) r) b).

Definition addContentLenHeader (len : Z) (b : HttpReqBody) : HttpReqBody := updateReqHeader H_CONTENT_LENGTH (dec len) b.

(** Back from [p] to a colon; how many bytes that is. *)
Fixpoint back_to_colon (fuel : nat) (r : HttpReq) (p : Z) : Z :=
  match fuel with O => 0 | S fuel => if at_ r p =? 58 then 0 else 1 + back_to_colon fuel r (p - 1) end.

Definition tranEncodeToContentLen (b : HttpReqBody) : HttpReqBody :=
  let off := znth (m_commonHeaderOffset (b_req b)) H_TRANSFER_ENCODING in
  if off =? 0 then b
  else
    let b := on_req (dropReqHeader H_CONTENT_LENGTH) b in
    let back := back_to_colon (Z.to_nat off) (b_req b) (off - 1) in
    let pBegin := off - 1 - back in
    if negb (Z.lor (at_ (b_req b) (pBegin - 1)) 32 =? 103) then b
    else
      let pBegin := pBegin - 17 in
      let oldLen := 8 + back + 17 in
      let achLength := bs "Content-length: " ++ dec (m_lEntityFinished b) in
      let n := zlen achLength in
      let b := setContentLength (m_lEntityFinished b) b in
      if n <=? oldLen then
        on_req (fun r =>
          let r := memset (pBegin + n) 32 (oldLen - n) (put_ pBegin achLength r) in
          set_commonHeaderOffset (<[Z.to_nat H_TRANSFER_ENCODING := 0]> (<[Z.to_nat H_CONTENT_LENGTH := pBegin + 16]> (m_commonHeaderOffset r)))
            (set_commonHeaderLen (<[Z.to_nat H_CONTENT_LENGTH := n - 16]> (m_commonHeaderLen r)) r)) b
      else addContentLenHeader (m_lEntityFinished b) (on_req (dropReqHeader H_TRANSFER_ENCODING) b).

(** ** The next request *)

(** [resetHeaderBuf]; [past] is what the buffer's block holds behind its end. *)
Definition resetHeaderBuf (discard : bool) (past : list Z) (b : HttpReqBody) : HttpReqBody :=
  let r := b_req b in
  if m_iReqHeaderBufFinished r =? HEADER_BUF_PAD then b
  else
    let n := pendingHeaderDataLen r in
    let r :=
      if negb discard && (n >? 0) then
        let r := set_headerBuf (ztake HEADER_BUF_PAD (m_headerBuf r) ++ slice (m_iReqHeaderBufFinished r) (m_iReqHeaderBufFinished r + n) (m_headerBuf r ++ past)) r in
        set_iReqHeaderBufFinished HEADER_BUF_PAD (set_iReqHeaderBufRead (bend r) r)
      else set_headerBuf (ztake HEADER_BUF_PAD (m_headerBuf r)) (set_iReqHeaderBufFinished HEADER_BUF_PAD (set_iReqHeaderBufRead HEADER_BUF_PAD r)) in
    let b := ReqBody r (m_lEntityFinished b) (m_headerLeftOver b) in
    if negb discard then restoreHeaderLeftOver b else b.

(** [HttpReq::reset]: every member that has to do with the request, then the
    buffer. *)
Definition reset (discard : bool) (past : list Z) (b : HttpReqBody) : HttpReqBody :=
  let r := b_req b in
  let clean := set_headerBuf (m_headerBuf r) (set_iReqHeaderBufRead (m_iReqHeaderBufRead r)
                 (set_iReqHeaderBufFinished (m_iReqHeaderBufFinished r) new_HttpReq)) in
  resetHeaderBuf discard past (ReqBody clean 0 (m_headerLeftOver b)).

(** ** The session *)

(** A session reads from the request's buffer before it reads the stream. *)
Section Session.
Context {S : Type} `{InputStream S} (isEos : S -> bool).

Definition session_read (c : HttpReq * S) (size : Z) : Z * list Z * (HttpReq * S) :=
  let '(r, s) := c in
  let len := pendingHeaderDataLen r in
  if len >? 0 then
    let len := if len >? size then size else len in
    let d := text r (getCurPos r) (getCurPos r + len) in
    let r := pendingDataProcessed len r in
    if size >? len then
      let '(ret, d', s) := is_read s (size - len) in
      if ret >? 0 then (len + ret, d ++ d', (r, s)) else (len, d, (r, s))
    else (len, d, (r, s))
  else let '(ret, d, s) := is_read s size in (ret, d, (r, s)).

(** [readv], on the sizes of the buffers. *)
Fixpoint readv_loop (vector : list Z) (total : Z) (d : list Z) (c : HttpReq * S) : Z * list Z * (HttpReq * S) :=
  match vector with
  | [] => (total, d, c)
  | iov_len :: vector =>
      if iov_len >? 0 then
        let '(ret, d', c) := session_read c iov_len in
        let total := if ret >? 0 then total + ret else total in
        let d := d ++ d' in
        if ret =? iov_len then readv_loop vector total d c
        else if negb (total =? 0) then (total, d, c) else (ret, d, c)
      else readv_loop vector total d c
  end.
Definition session_readv (c : HttpReq * S) (vector : list Z) : Z * list Z * (HttpReq * S) := readv_loop vector 0 [] c.

#[export] Instance session_stream : InputStream (HttpReq * S) := {
  is_read := session_read;
  is_readv := fun c n1 n2 => session_readv c [n1; n2];
  is_rest := fun c => slice (m_iReqHeaderBufFinished c.1) (m_iReqHeaderBufRead c.1) (m_headerBuf c.1) ++ is_rest c.2;
  is_failed := fun c => is_failed c.2
}.

(** The members that reading a body uses; [m_bodyBuf] is what is in the body
    buffer, [m_bodyDone] the flag HSF_REQ_BODY_DONE. *)
Record HttpSession := Sess {
  m_request : HttpReqBody; m_stream : S; m_pChunkIS : option cis; m_bodyBuf : list Z; m_bodyDone : bool }.

Definition on_request (f : HttpReqBody -> HttpReqBody) (x : HttpSession) : HttpSession :=
  Sess (f (m_request x)) (m_stream x) (m_pChunkIS x) (m_bodyBuf x) (m_bodyDone x).
Definition set_conn (c : HttpReq * S) (x : HttpSession) : HttpSession :=
  Sess (on_req (fun _ => c.1) (m_request x)) c.2 (m_pChunkIS x) (m_bodyBuf x) (m_bodyDone x).
Definition conn (x : HttpSession) : HttpReq * S := (b_req (m_request x), m_stream x).
Definition set_chunkIS (p : option cis) (x : HttpSession) : HttpSession := Sess (m_request x) (m_stream x) p (m_bodyBuf x) (m_bodyDone x).
Definition writeUsed (d : list Z) (x : HttpSession) : HttpSession := Sess (m_request x) (m_stream x) (m_pChunkIS x) (m_bodyBuf x ++ d) (m_bodyDone x).
Definition set_bodyDone (x : HttpSession) : HttpSession := Sess (m_request x) (m_stream x) (m_pChunkIS x) (m_bodyBuf x) true.

(** [setupChunkIS], with the memory of the decoder that is taken. *)
Definition setupChunkIS (mem : cis) (x : HttpSession) : HttpSession := set_chunkIS (Some (open mem)) x.

Definition endOfReqBody (x : HttpSession) : bool :=
  match m_pChunkIS x with
  | Some st => eos st
  | None =>
      if negb (isBodySizeUnknown (b_req (m_request x))) && (getBodyRemain (m_request x) <=? 0) then true else isEos (m_stream x)
  end.

(** [readReqBodyTermination]; [None] is the fuel of the decoder's loops. *)
Definition read_body (fuel : nat) (size : Z) (x : HttpSession) : option (Z * list Z * HttpSession) :=
  match m_pChunkIS x with
  | Some st =>
      match ChunkIn.read fuel st (conn x) size with
      | Some (len, d, st, c) => Some (len, d, set_chunkIS (Some st) (set_conn c x))
      | None => None
      end
  | None =>
      let remain := getBodyRemain (m_request x) in
      let toRead := if isBodySizeUnknown (b_req (m_request x)) || (remain >? size) then size else remain in
      if toRead >? 0 then let '(len, d, c) := session_read (conn x) toRead in Some (len, d, set_conn c x) else Some (0, [], x)
  end.

Definition readReqBodyTermination (fuel : nat) (size : Z) (x : HttpSession) : option (Z * list Z * HttpSession) :=
  match read_body fuel size x with
  | None => None
  | Some (len, d, x) =>
      if len >? 0 then
        let x := on_request (contentRead len) x in
        let '(blocked, r) := inspectMultipartBody d (b_req (m_request x)) in
        let x := on_request (on_req (fun _ => r)) x in
        Some (if blocked then -1 else len, d, x)
      else Some (len, d, x)
  end.

(** What [readReqBody] comes to: it waits, the body is there, or a status. *)
Inductive body_result := BodyWait | BodyDone | BodyStatus (code : Z).

(** The end of [readReqBody]: what the decoder has read ahead goes back. *)
Definition body_end (x : HttpSession) : HttpSession :=
  let x :=
    match m_pChunkIS x with
    | Some st =>
        let bufSize := m_iBufLen st in
        let x :=
          if bufSize >? 0 then
            if pendingHeaderDataLen (b_req (m_request x)) >? 0
            then on_request (on_req (rewindPendingHeaderData bufSize)) x
            else on_request (on_req (fun r => appendPendingHeaderData (ztake bufSize (m_achChunkLenBuf st)) (compactHeaderBuf r))) x
          else x in
        on_request tranEncodeToContentLen (set_chunkIS None x)
    | None =>
        if isBodySizeUnknown (b_req (m_request x)) then
          on_request (fun b => addContentLenHeader (m_lEntityFinished b) (setContentLength (m_lEntityFinished b) b)) x
        else x
    end in
  set_bodyDone x.

(** The loop of [readReqBody], with no module's hook on the body and no parser of
    it; [sizes] are those that the body buffer offers, none or 0 when it has none;
    [ret], [size], [count] and [hasBufferedData] as in the code, over HTTP/1. *)
Fixpoint readReqBody_loop (fuel : nat) (sizes : list Z) (ret size count : Z) (hasBufferedData : bool) (x : HttpSession)
  : option (body_result * HttpSession) :=
  let endBody := endOfReqBody x in
  if endBody && negb hasBufferedData then Some (BodyDone, body_end x)
  else
    if negb endBody && ((ret <? size) || (count + 1 =? 10)) then Some (BodyWait, x)
    else
      let count := if endBody then count else count + 1 in
      match sizes with
      | [] => Some (BodyStatus SC_400, x)
      | size :: sizes =>
          if size <=? 0 then Some (BodyStatus SC_400, x)
          else
            match readReqBodyTermination fuel size x with
            | None => None
            | Some (ret, d, x) =>
                if isMultipartBodyBlocked (b_req (m_request x)) then Some (BodyStatus SC_403, on_request (on_req (keepAlive false)) x)
                else if ret >? 0 then
                  let x := writeUsed d x in
                  if endOfReqBody x then Some (BodyDone, body_end x) else readReqBody_loop fuel sizes ret size count false x
                else if ret =? -1 then
                  if endOfReqBody x then Some (BodyDone, body_end x) else Some (BodyStatus SC_400, x)
                else readReqBody_loop fuel sizes ret size count false x
            end
      end.

Definition readReqBody (fuel : nat) (sizes : list Z) (x : HttpSession) : option (body_result * HttpSession) :=
  readReqBody_loop fuel sizes 0 0 0 true x.

(** [processNewReqBody], with the server's limit and a decoder's memory; the body
    buffer is had. *)
Definition processNewReqBody (maxReqBodyLen : Z) (mem : cis) (fuel : nat) (sizes : list Z) (x : HttpSession) : option (body_result * HttpSession) :=
  let l := m_lEntityLength (b_req (m_request x)) in
  if negb (l =? 0) then
    if l >? maxReqBodyLen then Some (BodyStatus SC_413, set_bodyDone x)
    else readReqBody fuel sizes (if isChunked (b_req (m_request x)) then setupChunkIS mem x else x)
  else Some (BodyDone, set_bodyDone x).

(** Calls of [readReqBody] when the stream is readable again, until the body is
    there or fails. *)
Fixpoint read_events (fuel : nat) (events : list (list Z)) (res : body_result * HttpSession) : option (body_result * HttpSession) :=
  match events, res with
  | sizes :: events, (BodyWait, x) =>
      match readReqBody fuel sizes x with Some res => read_events fuel events res | None => None end
  | _, _ => Some res
  end.

(** [nextRequest] on a connection that is kept: nothing unless the request allows
    it and its body has been read to the end. *)
Definition nextRequest (past : list Z) (x : HttpSession) : option HttpSession :=
  if negb (Z.testbit (m_iReqFlag (b_req (m_request x))) 0) || negb (endOfReqBody x) then None
  else Some (Sess (reset false past (m_request x)) (m_stream x) None [] false).

End Session.
