(* ===== verification/SessionBody.v ===== *)
(** * SessionBody: where a request's body ends and the next request begins
    (src/src/http/httpsession.cpp, src/src/http/httpreq.cpp)

    What the body reading of Session comes to, for a body with a Content-Length and
    for a chunked one: the body is the bytes after the headers that the message's
    framing says, however they came, and the next request of the connection begins
    with the byte after them; and two ways in which the code loses or repeats bytes
    between two requests. *)

From S2P Require Import Prelude Guard ChunkIn Uri Headers Request ReqFraming Session.
Import HttpHeader.
#[local] Open Scope Z_scope.

(** ** The decoder does not look into its stream

    A map between streams that commutes with their reads commutes with the decoder. *)
Section Natural.
Context {S1 S2 : Type} `{I1 : InputStream S1} `{I2 : InputStream S2} (f : S1 -> S2).
Context (Hread : forall s n, 0 <= n -> is_read (f s) n = let '(r, d, s') := is_read s n in (r, d, f s')).
Context (Hreadv : forall s n m, 0 <= n -> 0 <= m -> is_readv (f s) n m = let '(r, d, s') := is_readv s n m in (r, d, f s')).

Lemma bufRead_natural st s len pf : 0 <= len ->
  bufRead st (f s) len pf = let '(r, d, st', s') := bufRead st s len pf in (r, d, st', f s').
Proof.
  intros Hlen. unfold bufRead, bufRead_stream.
  set (left0 := m_iBufLen st - m_iBufUsed st).
  set (left := if left0 >? 0 then Z.min left0 len else left0).
  assert (Hl : 0 <= (if left0 >? 0 then len - left else len)) by (subst left; destruct (Z.gtb_spec left0 0); lia).
  destruct ((left0 >? 0) && (left =? len)); [reflexivity|].
  destruct pf.
  - rewrite Hreadv by lia. destruct (is_readv s _ 8) as [[r d] s'].
    destruct (r - _ >? 0); repeat (destruct (_ >? 0); try reflexivity); destruct (negb _); reflexivity.
  - rewrite Hread by lia. destruct (is_read s _) as [[r d] s']. destruct (r >? 0); [reflexivity|]. destruct (negb _); reflexivity.
Qed.

Lemma nextChunk_natural fuel : forall st s,
  nextChunk_loop fuel st (f s) = let '(r, st', s') := nextChunk_loop fuel st s in (r, st', f s').
Proof.
  induction fuel as [|fuel IH]; intros st s; cbn [nextChunk_loop]; [reflexivity|].
  destruct (Z.ltb_spec (m_iBufLen st) MAX_CHUNK_LEN_BUF_SIZE); [|reflexivity]. cbv zeta.
  rewrite Hread by (unfold MAX_CHUNK_LEN_BUF_SIZE in *; destruct (_ =? 0); lia). destruct (is_read s _) as [[r d] s'].
  destruct (r =? 0); [reflexivity|]. destruct (r <? 0); [reflexivity|].
  destruct (memchr _ _); [destruct (parseChunkLenAt _ _); reflexivity|apply IH].
Qed.

Lemma readTrailingCRLF_natural st s : 0 <= m_iRemain st ->
  readTrailingCRLF st (f s) = let '(r, st', s') := readTrailingCRLF st s in (r, st', f s').
Proof.
  intros Hr. unfold readTrailingCRLF. destruct (_ =? _).
  - cbv zeta. rewrite Hread by (cbn; lia). destruct (is_read s _) as [[r d] s']. destruct (r <=? 0); [reflexivity|].
    destruct (crlf_loop _ _ _). reflexivity.
  - destruct (crlf_loop _ _ _). reflexivity.
Qed.

Lemma skipTrailer_natural fuel : forall st s,
  skipTrailer fuel st (f s) = option_map (fun '(r, st', s') => (r, st', f s')) (skipTrailer fuel st s).
Proof.
  induction fuel as [|fuel IH]; intros st s; cbn [skipTrailer]; [reflexivity|]. cbv zeta.
  destruct (m_iBufUsed st =? m_iBufLen st).
  - rewrite Hread by (unfold MAX_CHUNK_LEN_BUF_SIZE; lia). destruct (is_read s _) as [[r d] s'].
    destruct (r <=? 0); [reflexivity|]. destruct (trailer_loop _ _) as [[?|] ?]; [reflexivity|apply IH].
  - destruct (trailer_loop _ _) as [[?|] ?]; [reflexivity|apply IH].
Qed.

Lemma read_turn_natural fuel st s size : 0 <= size ->
  read_turn fuel st (f s) size = option_map (fun '(r, d, st', s') => (r, d, st', f s')) (read_turn fuel st s size).
Proof.
  intros Hsz. unfold read_turn, nextChunk.
  set (a := if m_iRemain st =? 0 then nextChunk_loop 81 st s else (-1, st, s)).
  replace (if m_iRemain st =? 0 then nextChunk_loop 81 st (f s) else (-1, st, f s)) with (let '(r, st', s') := a in (r, st', f s'))
    by (subst a; destruct (_ =? 0); [rewrite nextChunk_natural|]; reflexivity).
  clearbody a. destruct a as [[r0 st0] s0]. cbv zeta.
  set (b := if m_iRemain st0 >? 2 then readChunkContent st0 s0 size else (r0, [], st0, s0)).
  replace (if m_iRemain st0 >? 2 then readChunkContent st0 (f s0) size else (r0, [], st0, f s0)) with (let '(r, d, st', s') := b in (r, d, st', f s')).
  2:{ subst b. destruct (Z.gtb_spec (m_iRemain st0) 2); [|reflexivity]. unfold readChunkContent. cbv zeta.
      destruct (_ >? size); rewrite bufRead_natural by lia; destruct (bufRead _ _ _ _) as [[[? ?] ?] ?]; destruct (_ >? 0); reflexivity. }
  clearbody b. destruct b as [[[r1 d1] st1] s1].
  set (c := if (m_iRemain st1 <=? 2) && (m_iRemain st1 >? 0) then readTrailingCRLF st1 s1 else (r1, st1, s1)).
  replace (if (m_iRemain st1 <=? 2) && (m_iRemain st1 >? 0) then readTrailingCRLF st1 (f s1) else (r1, st1, f s1)) with (let '(r, st', s') := c in (r, st', f s')).
  2:{ subst c. destruct (_ && _) eqn:E; [|reflexivity]. rewrite readTrailingCRLF_natural by lia. reflexivity. }
  clearbody c. destruct c as [[r2 st2] s2]. destruct (m_iRemain st2 <? 0); [|reflexivity].
  rewrite skipTrailer_natural. destruct (skipTrailer _ _ _) as [[[? ?] ?]|]; reflexivity.
Qed.

Lemma read_natural fuel st s size : 0 <= size ->
  ChunkIn.read fuel st (f s) size = option_map (fun '(r, d, st', s') => (r, d, st', f s')) (ChunkIn.read fuel st s size).
Proof.
  unfold read. generalize (@nil Z) as out. revert st s size.
  induction fuel as [|fuel IH]; intros st s size out Hsz; cbn [read_loop]; [reflexivity|].
  destruct (_ =? CHUNK_EOF); [reflexivity|]. destruct (_ <=? INVALID_CHUNK).
  { unfold read_end. reflexivity. }
  rewrite read_turn_natural by assumption. destruct (read_turn _ _ _ _) as [[[[r d] st1] s1]|]; [|reflexivity]. cbn [option_map].
  cbv zeta. destruct (_ && _) eqn:E; [apply IH; lia|]. unfold read_end. destruct (r <=? 0); reflexivity.
Qed.
End Natural.

(** ** What a read of the session does *)

Section Boundary.
Context {S : Type} `{HS : InputStream S} {laws : InputStreamLaws S}.
Implicit Types (r : HttpReq) (s : S) (c : HttpReq * S).

(** The positions of the buffer are in order. *)
Definition placed r : Prop := 0 <= m_iReqHeaderBufFinished r <= m_iReqHeaderBufRead r /\ m_iReqHeaderBufRead r <= bend r.

(** Reading moves on in the buffer, and goes to the stream only at its end. *)
Definition moved_on c c' : Prop :=
  exists pos, c'.1 = set_iReqHeaderBufFinished pos c.1 /\
    m_iReqHeaderBufFinished c.1 <= pos <= m_iReqHeaderBufRead c.1 /\ (pos < m_iReqHeaderBufRead c.1 -> c'.2 = c.2).

Lemma moved_on_refl c : placed c.1 -> moved_on c c.
Proof. intros [? ?]. exists (m_iReqHeaderBufFinished c.1). split; [destruct c as [[] ?]; reflexivity|]. split; [lia|auto]. Qed.

Lemma moved_on_trans c c' c'' : moved_on c c' -> moved_on c' c'' -> moved_on c c''.
Proof.
  intros (p & Ep & Hp & Hs) (q & Eq & Hq & Ht). rewrite Ep in *. cbn [m_iReqHeaderBufFinished set_iReqHeaderBufFinished m_iReqHeaderBufRead] in *.
  exists q. split; [exact Eq|]. split; [lia|]. intros H. rewrite Ht, Hs by lia. reflexivity.
Qed.

Lemma moved_on_placed c c' : placed c.1 -> moved_on c c' -> placed c'.1.
Proof. intros [? ?] (p & -> & ? & _). split; [cbn; lia|]. assumption. Qed.

(** What is pending, and what is left of a connection. *)
Definition pending r : list Z := slice (m_iReqHeaderBufFinished r) (m_iReqHeaderBufRead r) (m_headerBuf r).

Lemma zlen_pending r : placed r -> zlen (pending r) = pendingHeaderDataLen r.
Proof. intros [? ?]. unfold pending, pendingHeaderDataLen, bend in *. apply zlen_slice; lia. Qed.

Lemma pending_split r k : placed r -> 0 <= k <= pendingHeaderDataLen r ->
  pending r = text r (getCurPos r) (getCurPos r + k) ++ pending (pendingDataProcessed k r).
Proof.
  intros [? ?] Hk. unfold pending, text, getCurPos, pendingDataProcessed, pendingHeaderDataLen, bend in *.
  cbn [m_iReqHeaderBufFinished set_iReqHeaderBufFinished m_iReqHeaderBufRead m_headerBuf]. apply slice_split; lia.
Qed.

Lemma session_read_ok r s n : placed r -> 0 <= n ->
  read_ok (r, s) n (session_read (r, s) n) /\ moved_on (r, s) (session_read (r, s) n).2.
Proof.
  intros HP Hn. unfold session_read, read_ok. cbn [is_rest is_failed session_stream fst snd]. fold (pending r).
  pose proof HP as [Hp1 Hp2]. destruct (Z.gtb_spec (pendingHeaderDataLen r) 0) as [Hpos|Hz].
  - cbv zeta. set (len := if pendingHeaderDataLen r >? n then n else pendingHeaderDataLen r).
    assert (Hlen : 0 <= len <= pendingHeaderDataLen r /\ len <= n) by (subst len; destruct (Z.gtb_spec (pendingHeaderDataLen r) n); lia).
    assert (Hall : n > len -> len = pendingHeaderDataLen r) by (subst len; destruct (Z.gtb_spec (pendingHeaderDataLen r) n); lia).
    clearbody len. destruct Hlen as [Hlen Hln].
    pose proof (pending_split r len HP Hlen) as Hsp.
    assert (Hd : zlen (text r (getCurPos r) (getCurPos r + len)) = len).
    { unfold text, getCurPos, pendingHeaderDataLen, bend in *. rewrite zlen_slice; lia. }
    destruct (Z.gtb_spec n len) as [Hgt|Hle].
    + pose proof (is_read_ok s (n - len) ltac:(lia)) as Hok. destruct (is_read s (n - len)) as [[ret d'] s'].
      assert (Hmv : moved_on (r, s) (pendingDataProcessed len r, s')).
      { exists (m_iReqHeaderBufFinished r + len). split; [reflexivity|]. cbn [fst snd]. unfold pendingHeaderDataLen in *. split; [lia|]. intros. lia. }
      destruct (Z.gtb_spec ret 0); (split; [|exact Hmv]); left; cbn [fst snd]; fold (pending (pendingDataProcessed len r)).
      * unfold read_ok in Hok. destruct Hok as [(? & ? & -> & ->)|(? & _)]; [|lia]. rewrite zlen_app, Hd, Hsp, <- !app_assoc.
        split_and!; try lia. f_equal. rewrite !app_assoc. f_equal.
        unfold pending. rewrite slice_nil; [rewrite app_nil_r; reflexivity|]. cbn. unfold pendingHeaderDataLen in *. lia.
      * unfold read_ok in Hok. destruct Hok as [(? & ? & Hz & ->)|(? & _ & _ & ->)].
        -- assert (d' = []) as -> by (destruct d'; [reflexivity|rewrite zlen_cons in Hz; pose proof (zlen_nonneg d'); lia]).
           rewrite Hd, Hsp, <- app_assoc. split_and!; try lia. reflexivity.
        -- rewrite Hd, Hsp, <- app_assoc. split_and!; try lia. reflexivity.
    + split.
      * left. cbn [fst snd]. rewrite Hd, Hsp, <- app_assoc. split_and!; try lia. reflexivity.
      * exists (m_iReqHeaderBufFinished r + len). split; [reflexivity|]. cbn [fst snd]. unfold pendingHeaderDataLen in *. split; [lia|auto].
  - assert (E : pending r = []) by (unfold pending; apply slice_nil; unfold pendingHeaderDataLen in *; lia).
    pose proof (is_read_ok s n Hn) as Hok. destruct (is_read s n) as [[ret d] s']. cbn [fst snd]. fold (pending r). rewrite E. cbn [app].
    split; [exact Hok|]. exists (m_iReqHeaderBufFinished r). cbn [fst snd]. split; [destruct r; reflexivity|]. unfold pendingHeaderDataLen in *. lia.
Qed.

Lemma conn_read_ok c n : placed c.1 -> 0 <= n -> read_ok c n (session_read c n) /\ moved_on c (session_read c n).2.
Proof. destruct c. apply session_read_ok. Qed.

Lemma read_ok_nil c n ret d c' : read_ok c n (ret, d, c') -> ret <= 0 -> d = [] /\ is_rest c = is_rest c'.
Proof.
  intros [(? & ? & Hz & ->)|(? & -> & _ & ->)] Hr; [|auto].
  assert (d = []) as -> by (destruct d; [reflexivity|rewrite zlen_cons in Hz; pose proof (zlen_nonneg d); lia]). auto.
Qed.

Lemma readv_cons n v t d c :
  readv_loop (n :: v) t d c =
  if n >? 0 then
    let '(ret, d', c) := session_read c n in
    let total := if ret >? 0 then t + ret else t in
    let d := d ++ d' in
    if ret =? n then readv_loop v total d c else if negb (total =? 0) then (total, d, c) else (ret, d, c)
  else readv_loop v t d c.
Proof. reflexivity. Qed.

(** The last buffer, after [t] bytes. *)
Lemma readv_one n t d0 r s : placed r -> 0 <= n -> 0 <= t ->
  exists ret d c', readv_loop [n] t d0 (r, s) = (ret, d0 ++ d, c') /\ moved_on (r, s) c' /\
    ((t + zlen d = ret /\ is_rest (r, s) = d ++ is_rest c' /\ zlen d <= n) \/
     (ret < 0 /\ t = 0 /\ d = [] /\ is_failed c' = true /\ is_rest (r, s) = is_rest c')).
Proof.
  intros HP Hn Ht. rewrite readv_cons. cbn [readv_loop]. destruct (Z.gtb_spec n 0) as [Hg|Hg].
  2:{ exists t, [], (r, s). rewrite app_nil_r. split; [reflexivity|]. split; [apply moved_on_refl, HP|]. left.
      split_and!; [unfold zlen; cbn; lia|reflexivity|unfold zlen; cbn; lia]. }
  pose proof (session_read_ok r s n HP ltac:(lia)) as [Hok Hmv]. destruct (session_read (r, s) n) as [[ret d] c1]. cbn [snd] in Hmv. cbv zeta.
  destruct Hok as [(? & ? & Hz & Hrest)|(? & -> & Hfl & Hrest)].
  - exists (t + ret), d, c1. split; [|split; [exact Hmv|left; split_and!; [lia|exact Hrest|lia]]].
    destruct (Z.gtb_spec ret 0); [|assert (ret = 0) as -> by lia; rewrite Z.add_0_r].
    + destruct (ret =? n); [reflexivity|]. destruct (Z.eqb_spec (t + ret) 0); [lia|reflexivity].
    + destruct (0 =? n); [reflexivity|]. destruct (Z.eqb_spec t 0) as [->|]; reflexivity.
  - destruct (Z.gtb_spec ret 0); [lia|]. destruct (Z.eqb_spec ret n); [lia|].
    destruct (Z.eqb_spec t 0) as [->|]; cbn [negb].
    + exists ret, [], c1. split; [reflexivity|]. split; [exact Hmv|]. right. auto.
    + exists t, [], c1. split; [reflexivity|]. split; [exact Hmv|]. left. unfold zlen. cbn [length app]. split_and!; auto; lia.
Qed.

Lemma session_readv_ok c n1 n2 : placed c.1 -> 0 <= n1 -> 0 <= n2 ->
  read_ok c (n1 + n2) (session_readv c [n1; n2]) /\ moved_on c (session_readv c [n1; n2]).2.
Proof.
  destruct c as [r s]. intros HP H1 H2. unfold session_readv. rewrite readv_cons. destruct (Z.gtb_spec n1 0) as [Hg|Hg].
  - pose proof (session_read_ok r s n1 HP H1) as [Hok Hmv].
    destruct (session_read (r, s) n1) as [[ret1 d1] [r1 s1]]. cbn [snd] in Hmv. cbv zeta. cbn [app]. rewrite Z.add_0_l.
    destruct (Z.eqb_spec ret1 n1) as [->|Hne].
    + replace (n1 >? 0) with true by lia. destruct Hok as [(? & ? & Hz & Hrest)|(? & _)]; [|lia].
      destruct (readv_one n2 n1 d1 r1 s1 (moved_on_placed _ _ HP Hmv) H2 H1) as (ret & d & c' & -> & Hmv' & Hres).
      split; [|exact (moved_on_trans _ _ _ Hmv Hmv')]. destruct Hres as [(? & Hr2 & ?)|(? & ? & _)]; [|lia].
      left. rewrite zlen_app. pose proof (zlen_nonneg d). split_and!; try lia. rewrite Hrest, Hr2, app_assoc. reflexivity.
    + destruct Hok as [(? & ? & Hz & Hrest)|(? & -> & Hfl & Hrest)].
      * destruct (Z.gtb_spec ret1 0).
        -- rewrite (proj2 (Z.eqb_neq ret1 0)) by lia. split; [|exact Hmv]. left. split_and!; auto; lia.
        -- rewrite Z.eqb_refl. cbn [negb]. split; [|exact Hmv]. left. split_and!; auto; lia.
      * destruct (Z.gtb_spec ret1 0); [lia|]. rewrite Z.eqb_refl. cbn [negb]. split; [|exact Hmv]. right. auto.
  - destruct (readv_one n2 0 [] r s HP H2 ltac:(lia)) as (ret & d & c' & -> & Hmv & Hres). split; [|exact Hmv].
    cbn [app]. destruct Hres as [(? & ? & ?)|(? & _ & -> & ? & ?)].
    + left. pose proof (zlen_nonneg d). split_and!; auto; lia.
    + right. auto.
Qed.

(** ** The decoder on the session's connection *)

(** A connection with what is known of it since it was [c0]. *)
Record kept_conn (c0 : HttpReq * S) := Kept { kept_now : HttpReq * S; kept_placed : placed c0.1; kept_moved : moved_on c0 kept_now }.
Arguments Kept {c0}. Arguments kept_now {c0}. Arguments kept_placed {c0}. Arguments kept_moved {c0}.

Section Kept.
Context (c0 : HttpReq * S).
Implicit Types k : kept_conn c0.

Lemma kept_now_placed k : placed (kept_now k).1.
Proof. exact (moved_on_placed _ _ (kept_placed k) (kept_moved k)). Qed.

Definition kept_read k (n : Z) : Z * list Z * kept_conn c0 :=
  match Z_le_dec 0 n with
  | left Hn =>
      let res := session_read (kept_now k) n in
      (res.1.1, res.1.2, Kept res.2 (kept_placed k)
        (moved_on_trans _ _ _ (kept_moved k) (proj2 (conn_read_ok (kept_now k) n (kept_now_placed k) Hn))))
  | right _ => (0, [], k)
  end.

Definition kept_readv k (n m : Z) : Z * list Z * kept_conn c0 :=
  match Z_le_dec 0 n, Z_le_dec 0 m with
  | left Hn, left Hm =>
      let res := session_readv (kept_now k) [n; m] in
      (res.1.1, res.1.2, Kept res.2 (kept_placed k)
        (moved_on_trans _ _ _ (kept_moved k) (proj2 (session_readv_ok (kept_now k) n m (kept_now_placed k) Hn Hm))))
  | _, _ => (0, [], k)
  end.

#[local] Instance kept_stream : InputStream (kept_conn c0) := {
  is_read := kept_read; is_readv := kept_readv; is_rest := fun k => is_rest (kept_now k); is_failed := fun k => is_failed (kept_now k) }.

Lemma read_ok_kept k n res pf : read_ok (kept_now k) n res -> read_ok k n (res.1.1, res.1.2, Kept res.2 (kept_placed k) pf).
Proof. destruct res as [[ret d] c']. unfold read_ok. cbn [is_rest is_failed kept_stream kept_now fst snd]. exact id. Qed.

#[local] Instance kept_laws : InputStreamLaws (kept_conn c0).
Proof.
  split.
  - intros k n Hn. cbn [is_read kept_stream]. unfold kept_read. destruct (Z_le_dec 0 n); [|lia].
    apply read_ok_kept. apply conn_read_ok; [apply kept_now_placed|assumption].
  - intros k n m Hn Hm. cbn [is_readv kept_stream]. unfold kept_readv. destruct (Z_le_dec 0 n); [|lia]. destruct (Z_le_dec 0 m); [|lia].
    apply read_ok_kept. apply session_readv_ok; [apply kept_now_placed|assumption..].
Qed.

(** A read of the decoder, on the connection itself. *)
Lemma kept_natural fuel st k size : 0 <= size ->
  ChunkIn.read fuel st (kept_now k) size = option_map (fun '(r, d, st', k') => (r, d, st', kept_now k')) (ChunkIn.read fuel st k size).
Proof.
  apply read_natural.
  - intros k' n Hn. cbn [is_read kept_stream session_stream]. unfold kept_read. destruct (Z_le_dec 0 n); [|lia]. cbv zeta. cbn [kept_now].
    destruct (session_read (kept_now k') n) as [[? ?] ?]. reflexivity.
  - intros k' n m Hn Hm. cbn [is_readv kept_stream session_stream]. unfold kept_readv. destruct (Z_le_dec 0 n); [|lia]. destruct (Z_le_dec 0 m); [|lia].
    cbv zeta. cbn [kept_now]. destruct (session_readv (kept_now k') [n; m]) as [[? ?] ?]. reflexivity.
Qed.
End Kept.

(** What a call of the decoder on the session does: as on any stream
    ([read_refines_automaton]), and it moves on in the buffer. *)
Lemma session_decode fuel st c size : placed c.1 -> wf st -> 0 <= size -> zlen (pend st c) + 2 < Z.of_nat fuel ->
  exists ret d st' c', ChunkIn.read fuel st c size = Some (ret, d, st', c') /\ moved_on c c' /\
    zlen d <= size /\ read_post st c d st' c' /\ (ret = zlen d \/ (d = [] /\ ret <= 0)).
Proof.
  intros HP Hw Hsz Hf. set (k := Kept c HP (moved_on_refl c HP)).
  destruct (@read_loop_ok _ (kept_stream c) (kept_laws c) fuel st k size [] st k Hw Hsz Hf) as (ret & d & st' & k' & Hrd & Hd & Hp & Hr).
  { apply post_same; auto. }
  exists ret, d, st', (kept_now k'). split; [|split; [exact (kept_moved k')|split; [exact Hd|split; [exact Hp|exact Hr]]]].
  change c with (kept_now k). rewrite kept_natural by assumption. unfold read in *. rewrite Hrd. reflexivity.
Qed.

(** ** What reading the body keeps *)

Context (isEos : S -> bool).

(** The request and the stream as they were when the headers were complete, but for
    the position in the buffer and the guard. *)
Definition based r0 s0 r s : Prop :=
  exists pos g, r = set_multipartBodyGuard g (set_iReqHeaderBufFinished pos r0) /\
    m_iReqHeaderBufFinished r0 <= pos <= m_iReqHeaderBufRead r0 /\ (pos < m_iReqHeaderBufRead r0 -> s = s0).

Lemma based_refl r s : placed r -> based r s r s.
Proof. intros [? ?]. exists (m_iReqHeaderBufFinished r), (m_multipartBodyGuard r). split; [destruct r; reflexivity|]. split; [lia|auto]. Qed.

Lemma based_placed r0 s0 r s : placed r0 -> based r0 s0 r s -> placed r.
Proof. intros [? ?] (pos & g & -> & ? & _). split; [cbn; lia|assumption]. Qed.

Lemma based_move r0 s0 r s r' s' : based r0 s0 r s -> moved_on (r, s) (r', s') -> based r0 s0 r' s'.
Proof.
  intros (pos & g & -> & Hp & Hs) (q & Eq & Hq & Ht). cbn in Eq, Hq, Ht. exists q, g.
  split; [rewrite Eq; destruct r0; reflexivity|]. split; [lia|]. intros. rewrite Ht, Hs by lia. reflexivity.
Qed.

Lemma based_guard r0 s0 r s g : based r0 s0 r s -> based r0 s0 (set_multipartBodyGuard g r) s.
Proof. intros (pos & g' & -> & Hp & Hs). exists pos, g. split; [destruct r0; reflexivity|auto]. Qed.

Lemma inspect_based r0 s0 r s buf : based r0 s0 r s -> based r0 s0 (inspectMultipartBody buf r).2 s.
Proof.
  intros Hb. unfold inspectMultipartBody. destruct (_ =? _); [|exact Hb]. destruct (Guard.inspect _ _). apply based_guard, Hb.
Qed.

Lemma inspect_pending buf r : pending (inspectMultipartBody buf r).2 = pending r.
Proof. unfold inspectMultipartBody. destruct (_ =? _); [|reflexivity]. destruct (Guard.inspect _ _). reflexivity. Qed.

(** What is left on the connection. *)
Definition left_over (x : HttpSession (S := S)) : list Z := pending (b_req (m_request x)) ++ is_rest (m_stream x).

(** The loop of [readReqBody] keeps what one call of the reader keeps. *)
Section Loop.
Context (P : HttpSession (S := S) -> Prop) (fuel : nat).
Context (Hstep : forall x size, P x -> 0 < size -> exists ret d x1,
  readReqBodyTermination fuel size x = Some (ret, d, x1) /\
  (isMultipartBodyBlocked (b_req (m_request x1)) = false -> (0 < ret -> P (writeUsed d x1)) /\ (ret <= 0 -> P x1))).

Definition body_left (res : body_result * HttpSession (S := S)) : Prop :=
  match res with
  | (BodyDone, x) => exists x0, P x0 /\ endOfReqBody isEos x0 = true /\ x = body_end x0
  | (BodyWait, x) => P x
  | (BodyStatus _, _) => True
  end.

Lemma readReqBody_loop_ok : forall sizes ret size count hbd x, P x ->
  exists res, readReqBody_loop isEos fuel sizes ret size count hbd x = Some res /\ body_left res.
Proof.
  induction sizes as [|sz sizes IH]; intros ret size count hbd x HP; cbn [readReqBody_loop].
  all: destruct (endOfReqBody isEos x && negb hbd) eqn:E1;
    [eexists; split; [reflexivity|]; exists x; apply andb_true_iff in E1 as [? _]; auto|].
  all: destruct (negb (endOfReqBody isEos x) && _); [eexists; split; [reflexivity|exact HP]|].
  { eexists. split; [reflexivity|exact I]. }
  destruct (Z.leb_spec sz 0); [eexists; split; [reflexivity|exact I]|].
  destruct (Hstep x sz HP ltac:(lia)) as (ret1 & d & x1 & -> & Hs).
  destruct (isMultipartBodyBlocked _); [eexists; split; [reflexivity|exact I]|]. destruct (Hs eq_refl) as [Hpos Hneg].
  destruct (Z.gtb_spec ret1 0).
  - destruct (endOfReqBody isEos (writeUsed d x1)) eqn:E2; [|apply IH, Hpos; lia].
    eexists. split; [reflexivity|]. exists (writeUsed d x1). split; [apply Hpos; lia|auto].
  - destruct (Z.eqb_spec ret1 (-1)); [|apply IH, Hneg; lia].
    destruct (endOfReqBody isEos x1) eqn:E2; (eexists; split; [reflexivity|]); [|exact I].
    exists x1. split; [apply Hneg; lia|auto].
Qed.

Lemma read_events_ok events : forall res, body_left res ->
  exists res', read_events isEos fuel events res = Some res' /\ body_left res'.
Proof.
  induction events as [|sizes events IH]; intros [res x] Hres; cbn [read_events]; [eexists; split; [reflexivity|exact Hres]|].
  destruct res; try (eexists; split; [reflexivity|exact Hres]).
  destruct (readReqBody_loop_ok sizes 0 0 0 true x Hres) as (res1 & Hl & Hb). unfold readReqBody. rewrite Hl. apply IH, Hb.
Qed.
End Loop.

(** The guard says that it blocks. *)
Lemma inspect_blocked buf g : (Guard.inspect buf g).1 = true -> is_blocked (Guard.inspect buf g).2 = true.
Proof.
  unfold Guard.inspect. destruct (is_blocked g) eqn:Eb; [auto|]. destruct (_ || _); [discriminate|]. cbv zeta.
  set (g1 := if m_unlimitedScan g then g else _). assert (Eb1 : is_blocked g1 = false) by (subst g1; destruct (m_unlimitedScan g); [exact Eb|destruct g; exact Eb]).
  clearbody g1. destruct (m_invalidBoundary g1).
  - destruct (memchr 0 _); [intros _; destruct g1; reflexivity|discriminate].
  - destruct (inspect_loop_feed (length (ztake (if m_unlimitedScan g then zlen buf else Z.min (zlen buf) (m_scanRemaining g)) buf)) _ g1 ltac:(reflexivity) Eb1) as [E _].
    destruct (inspect_loop _ _ g1) as [stop g2]. cbn [fst snd] in E. subst stop. destruct (is_blocked g2) eqn:E2; [auto|discriminate].
Qed.

Lemma inspectMultipart_blocked buf r : (inspectMultipartBody buf r).1 = true -> isMultipartBodyBlocked (inspectMultipartBody buf r).2 = true.
Proof.
  unfold inspectMultipartBody, isMultipartBodyBlocked. destruct (_ =? _); [|discriminate].
  pose proof (inspect_blocked buf (m_multipartBodyGuard r)) as Hi. destruct (Guard.inspect _ _). exact Hi.
Qed.

(** What [readReqBodyTermination] makes of what the reader did. *)
Lemma termination_ok fuel size x len d x0 : read_body fuel size x = Some (len, d, x0) ->
  exists ret x1, readReqBodyTermination fuel size x = Some (ret, d, x1) /\
    m_stream x1 = m_stream x0 /\ m_pChunkIS x1 = m_pChunkIS x0 /\ m_bodyBuf x1 = m_bodyBuf x0 /\ m_bodyDone x1 = m_bodyDone x0 /\
    m_headerLeftOver (m_request x1) = m_headerLeftOver (m_request x0) /\
    (isMultipartBodyBlocked (b_req (m_request x1)) = false -> ret = len) /\
    (exists g, b_req (m_request x1) = set_multipartBodyGuard g (b_req (m_request x0))) /\
    m_lEntityFinished (m_request x1) = m_lEntityFinished (m_request x0) + Z.max 0 len.
Proof.
  intros Hr. unfold readReqBodyTermination. rewrite Hr. destruct (Z.gtb_spec len 0).
  - cbv zeta. pose proof (inspectMultipart_blocked d (b_req (m_request (on_request (contentRead len) x0)))) as Hb.
    assert (Hg : exists g, (inspectMultipartBody d (b_req (m_request (on_request (contentRead len) x0)))).2 = set_multipartBodyGuard g (b_req (m_request x0))).
    { unfold inspectMultipartBody. destruct (_ =? _).
      - destruct (Guard.inspect _ _) as [? g]. exists g. reflexivity.
      - exists (m_multipartBodyGuard (b_req (m_request x0))). cbn. destruct (b_req (m_request x0)). reflexivity. }
    destruct (inspectMultipartBody _ _) as [blocked r']. cbn [fst snd] in Hb, Hg.
    assert (isMultipartBodyBlocked r' = false -> (if blocked then -1 else len) = len).
    { intros Hn. destruct blocked; [rewrite Hb in Hn by reflexivity; discriminate|reflexivity]. }
    eexists _, _. split; [reflexivity|]. cbn. split_and!; auto; lia.
  - eexists _, x0. split; [reflexivity|].
    assert (exists g, b_req (m_request x0) = set_multipartBodyGuard g (b_req (m_request x0))).
    { exists (m_multipartBodyGuard (b_req (m_request x0))). destruct (b_req (m_request x0)). reflexivity. }
    split_and!; auto; lia.
Qed.

Lemma body_end_buf (x : HttpSession (S := S)) : m_bodyBuf (body_end x) = m_bodyBuf x.
Proof. unfold body_end. destruct (m_pChunkIS x); cbn; repeat destruct (_ >? 0); try destruct (isBodySizeUnknown _); reflexivity. Qed.

(** *** A body with a Content-Length *)

Record reading_sized r0 s0 (n : Z) (x : HttpSession (S := S)) : Prop := {
  rs_based : based r0 s0 (b_req (m_request x)) (m_stream x);
  rs_chunk : m_pChunkIS x = None;
  rs_bytes : m_bodyBuf x ++ left_over x = pending r0 ++ is_rest s0;
  rs_finished : m_lEntityFinished (m_request x) = zlen (m_bodyBuf x);
  rs_bound : zlen (m_bodyBuf x) <= n;
  rs_leftover : m_headerLeftOver (m_request x) = [] }.

Lemma based_length r0 s0 r s : based r0 s0 r s -> m_lEntityLength r = m_lEntityLength r0.
Proof. intros (? & ? & -> & _). reflexivity. Qed.

Lemma read_sized r0 s0 n fuel x size : placed r0 -> m_lEntityLength r0 = n -> 0 <= n -> reading_sized r0 s0 n x -> 0 < size ->
  exists ret d x1, readReqBodyTermination fuel size x = Some (ret, d, x1) /\
  (isMultipartBodyBlocked (b_req (m_request x1)) = false -> (0 < ret -> reading_sized r0 s0 n (writeUsed d x1)) /\ (ret <= 0 -> reading_sized r0 s0 n x1)).
Proof.
  intros HP Hn H0 HR Hsz. pose proof HR as [Hb Hc Hby Hfi Hbd Hlo]. pose proof (based_length _ _ _ _ Hb) as Hlen. rewrite Hn in Hlen.
  assert (Hrd : exists len d x0, read_body fuel size x = Some (len, d, x0) /\ len <= n - zlen (m_bodyBuf x) /\
    ((0 <= len /\ len = zlen d) \/ (len < 0 /\ d = [])) /\
    m_request x0 = on_req (fun _ => b_req (m_request x0)) (m_request x) /\ m_pChunkIS x0 = None /\ m_bodyBuf x0 = m_bodyBuf x /\
    based r0 s0 (b_req (m_request x0)) (m_stream x0) /\ left_over x = d ++ left_over x0).
  { unfold read_body. rewrite Hc. cbv zeta. unfold getBodyRemain, isBodySizeUnknown. rewrite Hlen, Hfi.
    replace (n =? LSI_BODY_SIZE_UNKNOWN) with false by (unfold LSI_BODY_SIZE_UNKNOWN; lia). cbn [orb].
    set (toRead := if n - zlen (m_bodyBuf x) >? size then size else n - zlen (m_bodyBuf x)).
    assert (Ht : 0 <= toRead <= n - zlen (m_bodyBuf x)) by (subst toRead; destruct (Z.gtb_spec (n - zlen (m_bodyBuf x)) size); lia).
    clearbody toRead. destruct (Z.gtb_spec toRead 0).
    - pose proof (conn_read_ok (conn x) toRead (based_placed _ _ _ _ HP Hb) ltac:(lia)) as [Hok Hmv].
      destruct (session_read (conn x) toRead) as [[len d] [r' s']]. cbn [snd] in Hmv.
      exists len, d, (set_conn (r', s') x). split; [reflexivity|]. split_and!; auto.
      + destruct Hok as [(? & ? & _)|(? & _)]; lia.
      + destruct Hok as [(? & ? & ? & _)|(? & ? & _)]; auto.
      + eapply based_move; [exact Hb|exact Hmv].
      + destruct Hok as [(_ & _ & _ & Hr)|(_ & -> & _ & Hr)]; exact Hr.
    - exists 0, [], x. split; [reflexivity|].
      assert (m_request x = on_req (fun _ => b_req (m_request x)) (m_request x)) by (destruct (m_request x); reflexivity).
      split_and!; auto; try lia. left. split; [lia|reflexivity]. }
  destruct Hrd as (len & d & x0 & Hrd & Hle & Hd & Hreq & Hc0 & Hbuf & Hb0 & Hlo0).
  destruct (termination_ok _ _ _ _ _ _ Hrd) as (ret & x1 & Ht & Es & Ec & Eb & _ & El & Eret & (g & Eg) & Ef).
  exists ret, d, x1. split; [exact Ht|]. intros Hnb. specialize (Eret Hnb). subst ret.
  assert (Hb1 : based r0 s0 (b_req (m_request x1)) (m_stream x1)) by (rewrite Eg, Es; apply based_guard, Hb0).
  assert (Hl1 : left_over x1 = left_over x0) by (unfold left_over; rewrite Eg, Es; reflexivity).
  rewrite Hreq in El, Ef. cbn in El, Ef.
  split; intros Hr; split; cbn [m_request m_stream m_pChunkIS m_bodyBuf writeUsed]; rewrite ?Eb, ?Hbuf, ?zlen_app; try congruence; try assumption.
  - change (left_over (writeUsed d x1)) with (left_over x1). rewrite Hl1, <- app_assoc, <- Hlo0. exact Hby.
  - lia.
  - lia.
  - rewrite Hl1. assert (d = []) as ->.
    { destruct Hd as [[? Hz]|[_ ?]]; [|assumption]. destruct d; [reflexivity|]. rewrite zlen_cons in Hz. pose proof (zlen_nonneg d). lia. }
    rewrite Hlo0 in Hby. exact Hby.
  - lia.
Qed.

(** *** A chunked body *)

Lemma read_post_ext st0 c0 out st c c' : is_rest c = is_rest c' -> is_failed c = is_failed c' -> read_post st0 c0 out st c -> read_post st0 c0 out st c'.
Proof. intros Er Ef. unfold read_post, pend. rewrite Er, Ef. exact id. Qed.

Lemma session_decode_more fuel st0 c0 out st c size : placed c.1 -> 0 <= size -> zlen (pend st0 c0) + 2 < Z.of_nat fuel ->
  read_post st0 c0 out st c ->
  exists ret d st' c', ChunkIn.read fuel st c size = Some (ret, d, st', c') /\ moved_on c c' /\
    read_post st0 c0 (out ++ d) st' c' /\ (ret = zlen d \/ (d = [] /\ ret <= 0)).
Proof.
  intros HP Hsz Hf [(Hw & Hrun & Hlen)|(Hinv & Hbad)].
  - destruct (session_decode fuel st c size HP Hw Hsz ltac:(lia)) as (ret & d & st' & c' & Hrd & Hmv & _ & Hp & Hr).
    exists ret, d, st', c'. split; [exact Hrd|]. split; [exact Hmv|]. split; [|exact Hr].
    destruct Hp as [(Hw1 & Hrun1 & Hl1)|(Hi & Hb)].
    + left. rewrite Hrun, Hrun1, emit_emit. split_and!; auto; lia.
    + right. split; [assumption|]. destruct Hb as [?|[y Hy]]; [auto|]. right. rewrite Hrun, Hy. cbn. eauto.
  - destruct fuel as [|fuel]; [pose proof (zlen_nonneg (pend st0 c0)); lia|].
    unfold read. cbn [read_loop]. rewrite Hinv. cbn. eexists _, [], _, c. split; [reflexivity|].
    split; [apply moved_on_refl, HP|]. rewrite app_nil_r. split; [right; split; [reflexivity|assumption]|]. right. split; [reflexivity|vm_compute; discriminate].
Qed.

Record reading_chunked r0 s0 (mem : cis) (x : HttpSession (S := S)) : Prop := {
  rc_based : based r0 s0 (b_req (m_request x)) (m_stream x);
  rc_chunk : exists st, m_pChunkIS x = Some st /\ read_post (open mem) (r0, s0) (m_bodyBuf x) st (conn x);
  rc_finished : m_lEntityFinished (m_request x) = zlen (m_bodyBuf x);
  rc_leftover : m_headerLeftOver (m_request x) = [] }.

Lemma read_chunked r0 s0 mem fuel x size : placed r0 -> zlen (pend (open mem) (r0, s0)) + 2 < Z.of_nat fuel -> reading_chunked r0 s0 mem x -> 0 < size ->
  exists ret d x1, readReqBodyTermination fuel size x = Some (ret, d, x1) /\
  (isMultipartBodyBlocked (b_req (m_request x1)) = false -> (0 < ret -> reading_chunked r0 s0 mem (writeUsed d x1)) /\ (ret <= 0 -> reading_chunked r0 s0 mem x1)).
Proof.
  intros HP Hf HR Hsz. pose proof HR as [Hb (st & Hc & Hpost) Hfi Hlo].
  destruct (session_decode_more fuel (open mem) (r0, s0) (m_bodyBuf x) st (conn x) size (based_placed _ _ _ _ HP Hb) ltac:(lia) Hf Hpost)
    as (len & d & st' & [r' s'] & Hrd & Hmv & Hpost' & Hd).
  assert (Hread : read_body fuel size x = Some (len, d, set_chunkIS (Some st') (set_conn (r', s') x))) by (unfold read_body; rewrite Hc, Hrd; reflexivity).
  destruct (termination_ok _ _ _ _ _ _ Hread) as (ret & x1 & Ht & Es & Ec & Eb & _ & El & Eret & (g & Eg) & Ef).
  cbn in Es, Ec, Eb, El, Eg, Ef.
  exists ret, d, x1. split; [exact Ht|]. intros Hnb. specialize (Eret Hnb). subst ret.
  assert (Hb1 : based r0 s0 (b_req (m_request x1)) (m_stream x1)) by (rewrite Eg, Es; apply based_guard; eapply based_move; [exact Hb|exact Hmv]).
  assert (Hpost1 : read_post (open mem) (r0, s0) (m_bodyBuf x ++ d) st' (conn x1)).
  { eapply read_post_ext; [| |exact Hpost']; unfold conn; cbn [is_rest is_failed session_stream fst snd]; rewrite Es, ?Eg; reflexivity. }
  split; intros Hr; split; cbn [m_request m_stream m_pChunkIS m_bodyBuf writeUsed]; rewrite ?Eb; try congruence; try assumption.
  - exists st'. split; [exact Ec|exact Hpost1].
  - rewrite zlen_app. destruct Hd as [?|[-> ?]]; [lia|unfold zlen; cbn; lia].
  - exists st'. split; [exact Ec|]. assert (d = []) as ->.
    { destruct Hd as [Hz|[? _]]; [|assumption]. destruct d; [reflexivity|]. rewrite zlen_cons in Hz. pose proof (zlen_nonneg d). lia. }
    rewrite app_nil_r in Hpost1. exact Hpost1.
  - destruct Hd as [?|[-> ?]]; [pose proof (zlen_nonneg d)|]; lia.
Qed.

(** A run stops with a rest of its input. *)
Lemma run_rest m l : exists p, l = p ++ (ChunkIn.run m l).2.
Proof.
  revert m. induction l as [|b l IH]; intros m; cbn [ChunkIn.run].
  - exists []. destruct (ChunkIn.stopped m); reflexivity.
  - destruct (ChunkIn.stopped m); [exists []; reflexivity|]. destruct (ChunkIn.step m b) as [m1 o1]. destruct (IH m1) as [p Hp].
    destruct (ChunkIn.run m1 l) as [[o m2] rr]. exists (b :: p). cbn in *. congruence.
Qed.

(** At the end of the chunks: the body, and what is left behind the look-ahead. *)
Lemma chunked_done r0 s0 mem x : zlen (m_achChunkLenBuf mem) = MAX_CHUNK_LEN_BUF_SIZE ->
  reading_chunked r0 s0 mem x -> endOfReqBody isEos x = true ->
  exists st, m_pChunkIS x = Some st /\ wf st /\
    ChunkIn.run (MLine []) (pending r0 ++ is_rest s0) = (m_bodyBuf x, MEof, unread st ++ left_over x) /\
    unread st = ztake (m_iBufLen st) (m_achChunkLenBuf st).
Proof.
  intros Hm [_ (st & Hc & Hpost) _ _] He. exists st. unfold endOfReqBody in He. rewrite Hc in He. split; [exact Hc|].
  unfold eos, CHUNK_EOF in He. apply Z.eqb_eq in He.
  destruct Hpost as [(Hw & Hrun & _)|(Hi & _)]; [|unfold INVALID_CHUNK in Hi; lia]. split; [exact Hw|]. split.
  - rewrite (hd_mode st), (run_stop MEof) in Hrun by (reflexivity || exact He).
    cbn [emit] in Hrun. rewrite app_nil_r in Hrun. exact Hrun.
  - unfold unread. destruct (wf_eof _ Hw He) as [->| ->]; [apply slice_0|]. rewrite slice_nil, ztake_neg by (pose proof (wf_pos _ Hw); lia). reflexivity.
Qed.

(** ** The next request *)

(** A new request with [p] in its buffer. *)
Definition next_request (pad p : list Z) : HttpReq :=
  set_iReqHeaderBufRead (zlen (pad ++ p)) (set_headerBuf (pad ++ p) new_HttpReq).

Lemma reset_ok past b : placed (b_req b) -> 4 < m_iReqHeaderBufFinished (b_req b) -> m_headerLeftOver b = [] ->
  reset false past b = ReqBody (next_request (ztake HEADER_BUF_PAD (m_headerBuf (b_req b))) (pending (b_req b))) 0 [].
Proof.
  destruct b as [r fin lo]. cbn [b_req m_headerLeftOver]. intros [H1 H2] Hfin ->. unfold bend in H2.
  assert (Hpad : zlen (ztake HEADER_BUF_PAD (m_headerBuf r)) = HEADER_BUF_PAD) by (unfold HEADER_BUF_PAD; rewrite zlen_ztake; lia).
  unfold reset, resetHeaderBuf, pendingHeaderDataLen, restoreHeaderLeftOver, pending, next_request. rewrite ?app_nil_r. cbv zeta.
  cbn [b_req m_headerLeftOver m_lEntityFinished m_iReqHeaderBufFinished m_iReqHeaderBufRead m_headerBuf
    set_headerBuf set_iReqHeaderBufRead set_iReqHeaderBufFinished negb andb].
  rewrite (proj2 (Z.eqb_neq _ HEADER_BUF_PAD)) by (unfold HEADER_BUF_PAD; lia).
  destruct (Z.gtb_spec (m_iReqHeaderBufRead r - m_iReqHeaderBufFinished r) 0).
  - replace (m_iReqHeaderBufFinished r + (m_iReqHeaderBufRead r - m_iReqHeaderBufFinished r)) with (m_iReqHeaderBufRead r) by lia.
    rewrite slice_app_l by lia. reflexivity.
  - rewrite slice_nil, app_nil_r by lia. rewrite Hpad. reflexivity.
Qed.

(** The request is as it was behind its headers. *)
Record same_behind (r r' : HttpReq) : Prop := SameBehind {
  sb_fin : m_iReqHeaderBufFinished r' = m_iReqHeaderBufFinished r;
  sb_read : m_iReqHeaderBufRead r' = m_iReqHeaderBufRead r;
  sb_flag : m_iReqFlag r' = m_iReqFlag r;
  sb_size : bend r' = bend r;
  sb_pad : ztake HEADER_BUF_PAD (m_headerBuf r') = ztake HEADER_BUF_PAD (m_headerBuf r);
  sb_end : zdrop (m_iHttpHeaderEnd r) (m_headerBuf r') = zdrop (m_iHttpHeaderEnd r) (m_headerBuf r) }.

Lemma same_behind_refl r : same_behind r r.
Proof. split; reflexivity. Qed.

Lemma pending_behind r r' : same_behind r r' -> 0 <= m_iHttpHeaderEnd r <= m_iReqHeaderBufFinished r -> pending r' = pending r.
Proof.
  intros [Ef Er _ _ _ Ee] Hpos. unfold pending, slice. rewrite Ef, Er.
  replace (m_iReqHeaderBufFinished r) with (m_iHttpHeaderEnd r + (m_iReqHeaderBufFinished r - m_iHttpHeaderEnd r)) at 2 4 by lia.
  rewrite <- !zdrop_zdrop, Ee by lia. reflexivity.
Qed.

Lemma store_behind p d r : 4 <= p -> p + zlen d <= m_iHttpHeaderEnd r <= bend r -> same_behind r (put_ p d r).
Proof.
  intros Hp He. pose proof (zlen_nonneg d). split; try reflexivity; [apply bend_put; lia|..]; unfold put_, bend, HEADER_BUF_PAD in *; cbn [m_headerBuf set_headerBuf].
  - apply ztake_store_before; lia.
  - apply zdrop_store; lia.
Qed.

Lemma same_behind_put p d r r' : 4 <= p -> p + zlen d <= m_iHttpHeaderEnd r <= bend r -> m_iHttpHeaderEnd r' = m_iHttpHeaderEnd r ->
  same_behind r r' -> same_behind r (put_ p d r').
Proof.
  intros Hp He Ee [A B C D E F]. destruct (store_behind p d r' Hp ltac:(rewrite Ee, D; lia)) as [A' B' C' D' E' F'].
  rewrite Ee in F'. split; congruence.
Qed.

(** The scan back to the colon finds it. *)
Lemma back_to_colon_ok r (c : Z) : at_ r c = 58 -> forall fuel p, c <= p -> p - c < Z.of_nat fuel -> (forall q, c < q <= p -> at_ r q <> 58) ->
  back_to_colon fuel r p = p - c.
Proof.
  intros Hc. induction fuel as [|fuel IH]; intros p Hp Hf Hn; [lia|]. cbn [back_to_colon].
  destruct (Z.eqb_spec (at_ r p) 58) as [E|].
  - destruct (Z.eq_dec p c) as [->|]; [lia|]. exfalso. apply (Hn p); [lia|exact E].
  - assert (p <> c) by congruence. rewrite IH; [lia|lia|lia|]. intros q Hq. apply Hn. lia.
Qed.

Lemma ndigits_small k : forall n, 0 <= n < 10 ^ Z.of_nat k -> 0 < Z.of_nat k -> forall j, (k <= j)%nat -> ndigits j n <= Z.of_nat k.
Proof.
  induction k as [|k IH]; intros n Hn Hk j Hj; [lia|]. destruct j as [|j]; [lia|]. cbn [ndigits].
  destruct (Z.ltb_spec n 10); [lia|]. destruct k as [|k].
  - change (10 ^ Z.of_nat 1) with 10 in Hn. lia.
  - specialize (IH (n / 10)). replace (Z.of_nat (Datatypes.S (Datatypes.S k))) with (1 + Z.of_nat (Datatypes.S k)) in * by lia.
    rewrite Z.pow_add_r in Hn by lia. assert (0 <= n / 10 < 10 ^ Z.of_nat (Datatypes.S k)).
    { split; [apply Z.div_pos; lia|]. apply Z.div_lt_upper_bound; lia. }
    specialize (IH ltac:(lia) ltac:(lia) j ltac:(lia)). lia.
Qed.

(** What a Transfer-Encoding header is like, once the headers are complete. *)
Definition te_ready r : Prop :=
  let off := znth (m_commonHeaderOffset r) H_TRANSFER_ENCODING in
  off <> 0 -> znth (m_commonHeaderOffset r) H_CONTENT_LENGTH = 0 /\ 0 < off <= m_iHttpHeaderEnd r - 9 /\ colon_before r off.

Lemma set_nonzero r i : isHeaderSet r i = negb (znth (m_commonHeaderOffset r) i =? 0).
Proof. reflexivity. Qed.

Lemma framed_te_ready r : framed r -> te_named r -> kept (m_iHttpHeaderEnd r) r H_TRANSFER_ENCODING -> m_iHttpHeaderEnd r <= bend r -> te_ready r.
Proof.
  intros Hfr Hnm Hk He Hoff. assert (Hset : isHeaderSet r H_TRANSFER_ENCODING = true) by (rewrite set_nonzero, (proj2 (Z.eqb_neq _ 0) Hoff); reflexivity).
  destruct (Hk Hset) as (Hpos & Hl0 & Hlen). specialize (Hnm Hset).
  unfold framed in Hfr. rewrite Hset in Hfr. destruct (isHeaderSet r H_CONTENT_LENGTH) eqn:Ecl; [contradiction|]. destruct Hfr as [Hch _].
  rewrite set_nonzero in Ecl. apply negb_false_iff, Z.eqb_eq in Ecl.
  apply strcaseeq_zlen in Hch. unfold getHeader in Hch. rewrite zlen_text in Hch by lia. unfold zlen in Hch. cbn in Hch.
  split; [exact Ecl|]. split; [lia|exact Hnm].
Qed.

(** It is so for any request with the same table and the same bytes of the headers. *)
Lemma te_ready_ext r r' : m_commonHeaderOffset r' = m_commonHeaderOffset r -> m_iHttpHeaderEnd r' = m_iHttpHeaderEnd r ->
  (forall q, 0 <= q < m_iHttpHeaderEnd r -> at_ r' q = at_ r q) -> te_ready r -> te_ready r'.
Proof.
  intros Eo Ee Ea Hr. unfold te_ready in *. rewrite Eo, Ee. intros Hne. destruct (Hr Hne) as (? & ? & c & ? & ? & Hc & Hq).
  split_and!; try assumption; try lia. exists c. rewrite Ea by lia. split_and!; try assumption. intros q ?. rewrite Ea by lia. apply Hq. lia.
Qed.

(** The Content-Length that replaces "Transfer-Encoding: chunked" fits over it. *)
Lemma tranEncode_ok b : te_ready (b_req b) -> m_iHttpHeaderEnd (b_req b) <= bend (b_req b) -> 0 <= m_lEntityFinished b < 10 ^ 9 ->
  let b' := tranEncodeToContentLen b in
  same_behind (b_req b) (b_req b') /\ m_headerLeftOver b' = m_headerLeftOver b /\ m_lEntityFinished b' = m_lEntityFinished b /\
  (m_lEntityLength (b_req b') = m_lEntityLength (b_req b) \/ m_lEntityLength (b_req b') = m_lEntityFinished b).
Proof.
  intros Hte Hend Hfin. cbv zeta. unfold tranEncodeToContentLen. cbv zeta.
  destruct (Z.eqb_spec (znth (m_commonHeaderOffset (b_req b)) H_TRANSFER_ENCODING) 0) as [|Hne]; [split_and!; auto using same_behind_refl|].
  destruct (Hte Hne) as (Ecl & Hoff & c & Hc4 & Hco & Hc58 & Hcn).
  set (off := znth (m_commonHeaderOffset (b_req b)) H_TRANSFER_ENCODING) in *. clearbody off.
  assert (Hb : on_req (dropReqHeader H_CONTENT_LENGTH) b = b) by (unfold on_req, dropReqHeader; rewrite Ecl; destruct b; reflexivity).
  rewrite Hb. rewrite (back_to_colon_ok (b_req b) c Hc58 (Z.to_nat off) (off - 1)) by (first [lia | intros q Hq; apply Hcn; lia]).
  destruct (negb _); [split_and!; auto using same_behind_refl|].
  pose proof (dec_ok (m_lEntityFinished b) ltac:(lia)) as (_ & _ & _ & Hd).
  pose proof (ndigits_small 9 (m_lEntityFinished b) ltac:(lia) ltac:(lia) 20 ltac:(lia)) as H9. change (Z.of_nat 9) with 9 in H9.
  assert (Hn : zlen (bs "Content-length: " ++ dec (m_lEntityFinished b)) <= 25) by (rewrite zlen_app, Hd; change (zlen (bs "Content-length: ")) with 16; lia).
  set (achLength := bs "Content-length: " ++ dec (m_lEntityFinished b)) in *. clearbody achLength. pose proof (zlen_nonneg achLength).
  replace (off - 1 - (off - 1 - c) - 17) with (c - 17) by lia. replace (8 + (off - 1 - c) + 17) with (24 + off - c) by lia.
  destruct (Z.leb_spec (zlen achLength) (24 + off - c)); [|lia].
  cbn [b_req on_req setContentLength]. set (r1 := set_lEntityLength _ (b_req b)).
  assert (S1 : same_behind (b_req b) r1) by (split; reflexivity).
  assert (S2 : same_behind (b_req b) (put_ (c - 17) achLength r1)) by (apply same_behind_put; [lia|lia|reflexivity|exact S1]).
  assert (S3 : same_behind (b_req b) (memset (c - 17 + zlen achLength) 32 (24 + off - c - zlen achLength) (put_ (c - 17) achLength r1))).
  { unfold memset. apply same_behind_put; [lia| |reflexivity|exact S2]. unfold zlen at 2. rewrite repeat_length. lia. }
  destruct S3 as [A B C D E F]. split_and!; try reflexivity; [split; assumption|]. right. reflexivity.
Qed.

(** ** The end of the body *)

(** The session at the end of the body, and what the next request begins with. *)
Record ended (r0 : HttpReq) (p rest : list Z) (x : HttpSession (S := S)) : Prop := {
  ended_placed : placed (b_req (m_request x));
  ended_pos : 4 < m_iReqHeaderBufFinished (b_req (m_request x));
  ended_pad : ztake HEADER_BUF_PAD (m_headerBuf (b_req (m_request x))) = ztake HEADER_BUF_PAD (m_headerBuf r0);
  ended_flag : m_iReqFlag (b_req (m_request x)) = m_iReqFlag r0;
  ended_leftover : m_headerLeftOver (m_request x) = [];
  ended_pending : pending (b_req (m_request x)) = p;
  ended_rest : is_rest (m_stream x) = rest;
  ended_eos : endOfReqBody isEos x = true }.

Lemma ended_next r0 p rest x past : ended r0 p rest x -> Z.testbit (m_iReqFlag r0) 0 = true ->
  exists y, nextRequest isEos past x = Some y /\
    m_request y = ReqBody (next_request (ztake HEADER_BUF_PAD (m_headerBuf r0)) p) 0 [] /\ is_rest (m_stream y) = rest.
Proof.
  intros [A B C D E F G H] Hk. unfold nextRequest. rewrite D, Hk, H. cbn [negb orb]. eexists. split; [reflexivity|].
  cbn [m_request m_stream]. rewrite reset_ok, C, F by assumption. auto.
Qed.

Lemma complete_placed r : complete r -> placed r.
Proof. intros (? & ? & ?). unfold placed. lia. Qed.

Lemma based_ended r0 s0 x : complete r0 -> based r0 s0 (b_req (m_request x)) (m_stream x) -> m_headerLeftOver (m_request x) = [] ->
  endOfReqBody isEos x = true -> ended r0 (pending (b_req (m_request x))) (is_rest (m_stream x)) x.
Proof.
  intros Hc Hb Hlo He. pose proof (based_placed _ _ _ _ (complete_placed _ Hc) Hb) as HP. destruct Hc as (Hf & Hr & Hend).
  destruct Hb as (pos & g & E & Hpos & _). split; auto; rewrite E; try reflexivity. cbn. lia.
Qed.

(** A body with a Content-Length: nothing is to be put back. *)
Lemma sized_end r0 s0 n x : complete r0 -> m_lEntityLength r0 = n -> 0 <= n -> reading_sized r0 s0 n x -> endOfReqBody isEos x = true ->
  (zlen (m_bodyBuf x) = n \/ isEos (m_stream x) = true) /\ body_end x = set_bodyDone x /\
  ended r0 (pending (b_req (m_request x))) (is_rest (m_stream x)) (set_bodyDone x).
Proof.
  intros Hc Hn H0 [Hb Hck Hby Hfi Hbd Hlo] He. pose proof (based_length _ _ _ _ Hb) as Hlen. rewrite Hn in Hlen.
  assert (Hun : isBodySizeUnknown (b_req (m_request x)) = false) by (unfold isBodySizeUnknown, LSI_BODY_SIZE_UNKNOWN; rewrite Hlen; lia).
  split_and!.
  - unfold endOfReqBody in He. rewrite Hck, Hun in He. cbn [negb andb] in He. unfold getBodyRemain in He. rewrite Hlen, Hfi in He.
    destruct (Z.leb_spec (n - zlen (m_bodyBuf x)) 0); [left; lia|right; exact He].
  - unfold body_end. rewrite Hck, Hun. reflexivity.
  - destruct (based_ended r0 s0 x Hc Hb Hlo He) as [? ? ? ? ? ? ? ?]. split; assumption.
Qed.

(** The headers are as they were, and reading is behind them. *)
Record behind (r0 r : HttpReq) : Prop := {
  bh_offsets : m_commonHeaderOffset r = m_commonHeaderOffset r0;
  bh_end : m_iHttpHeaderEnd r = m_iHttpHeaderEnd r0;
  bh_bytes : ztake (m_iHttpHeaderEnd r0) (m_headerBuf r) = ztake (m_iHttpHeaderEnd r0) (m_headerBuf r0);
  bh_flag : m_iReqFlag r = m_iReqFlag r0;
  bh_length : m_lEntityLength r = m_lEntityLength r0;
  bh_placed : placed r;
  bh_fin : m_iHttpHeaderEnd r0 <= m_iReqHeaderBufFinished r }.

Lemma based_behind r0 s0 r s : complete r0 -> based r0 s0 r s -> behind r0 r.
Proof.
  intros Hc Hb. pose proof (based_placed _ _ _ _ (complete_placed _ Hc) Hb) as HP. destruct Hc as (? & _ & _).
  destruct Hb as (pos & g & -> & ? & _). split; try reflexivity; [exact HP|cbn; lia].
Qed.

Lemma rewind_behind r0 r n : behind r0 r -> 0 <= n -> m_iHttpHeaderEnd r0 <= m_iReqHeaderBufFinished r - n -> 0 <= m_iHttpHeaderEnd r0 ->
  behind r0 (rewindPendingHeaderData n r).
Proof. intros [A B C D E [F1 F2] G] ? ? ?. split; auto. unfold placed, bend in *. cbn. split; [lia|assumption]. Qed.

Lemma append_behind r0 r d : complete r0 -> behind r0 r -> behind r0 (appendPendingHeaderData d (compactHeaderBuf r)) /\
  pending (appendPendingHeaderData d (compactHeaderBuf r)) = [].
Proof.
  intros (_ & _ & He) [A B C D E [F1 F2] G]. unfold bend in *. pose proof (zlen_nonneg d).
  assert (Hz : zlen (ztake (m_iHttpHeaderEnd r0) (m_headerBuf r)) = m_iHttpHeaderEnd r0) by (rewrite C, zlen_ztake by lia; lia).
  split; [split; auto|].
  - cbn. rewrite B, ztake_app_len by exact Hz. exact C.
  - unfold placed, bend. cbn. rewrite zlen_app, B, Hz. lia.
  - cbn. lia.
  - unfold pending. cbn. apply slice_nil. lia.
Qed.

Lemma behind_te r0 r : complete r0 -> te_ready r0 -> behind r0 r -> te_ready r.
Proof.
  intros (_ & _ & He) Ht [A B C _ _ _ _]. refine (te_ready_ext r0 r A B _ Ht). intros q Hq. unfold at_.
  rewrite <- (znth_ztake (m_headerBuf r) (m_iHttpHeaderEnd r0)), C by lia. apply znth_ztake. lia.
Qed.

Lemma tran_ended r0 x : complete r0 -> te_ready r0 -> m_lEntityLength r0 <> LSI_BODY_SIZE_UNKNOWN -> m_lEntityLength r0 <= 0 ->
  behind r0 (b_req (m_request x)) -> 0 <= m_lEntityFinished (m_request x) < 10 ^ 9 -> m_headerLeftOver (m_request x) = [] -> m_pChunkIS x = None ->
  ended r0 (pending (b_req (m_request x))) (is_rest (m_stream x)) (set_bodyDone (on_request tranEncodeToContentLen x)).
Proof.
  intros Hc Ht Hun Hle Hbh Hfin Hlo Hck. pose proof (behind_te _ _ Hc Ht Hbh) as Htr. destruct Hc as (_ & _ & He).
  pose proof Hbh as [A B C D E [F1 F2] G].
  destruct (tranEncode_ok (m_request x) Htr ltac:(lia) Hfin) as (Hsb & Hlo' & Hfi' & Hlen). cbv zeta in *.
  pose proof (pending_behind _ _ Hsb ltac:(lia)) as Hp. destruct Hsb as [Sf Sr Sg Ss Sp _].
  split; cbn [m_request m_stream set_bodyDone on_request].
  - unfold placed. rewrite Sf, Sr, Ss. auto.
  - lia.
  - rewrite Sp. unfold HEADER_BUF_PAD. rewrite <- (ztake_ztake 4 (m_iHttpHeaderEnd r0) (m_headerBuf (b_req (m_request x)))), C by lia. apply ztake_ztake. lia.
  - congruence.
  - congruence.
  - exact Hp.
  - reflexivity.
  - unfold endOfReqBody. cbn [m_pChunkIS m_request set_bodyDone on_request]. rewrite Hck. unfold isBodySizeUnknown, getBodyRemain, LSI_BODY_SIZE_UNKNOWN in *.
    rewrite (proj2 (Z.eqb_neq _ (-2))) by lia. destruct (Z.leb_spec (m_lEntityLength (b_req (tranEncodeToContentLen (m_request x))) - m_lEntityFinished (tranEncodeToContentLen (m_request x))) 0); [reflexivity|lia].
Qed.

(** Bytes that were read from the buffer are there to go back to. *)
Lemma rewind_pending r0 s0 r s pre d : placed r0 -> based r0 s0 r s -> pendingHeaderDataLen r > 0 ->
  pending r0 ++ is_rest s0 = pre ++ d ++ pending r ++ is_rest s ->
  m_iReqHeaderBufFinished r0 <= m_iReqHeaderBufFinished r - zlen d /\ pending (rewindPendingHeaderData (zlen d) r) = d ++ pending r.
Proof.
  intros [HP1 HP2] (pos & g & E & Hrg & Hs) Hpd Hpre. unfold pendingHeaderDataLen, bend in *. rewrite E in Hpd. cbn in Hpd.
  rewrite (Hs ltac:(lia)), !app_assoc in Hpre. apply app_inv_tail in Hpre.
  assert (Hp : pending r = slice pos (m_iReqHeaderBufRead r0) (m_headerBuf r0)) by (rewrite E; reflexivity).
  assert (Hsp : pending r0 = slice (m_iReqHeaderBufFinished r0) pos (m_headerBuf r0) ++ pending r) by (rewrite Hp; unfold pending; apply slice_split; lia).
  rewrite Hsp in Hpre. apply app_inv_tail in Hpre. pose proof (zlen_nonneg pre). pose proof (zlen_nonneg d).
  assert (Hz : pos - m_iReqHeaderBufFinished r0 = zlen pre + zlen d) by (rewrite <- zlen_app, <- Hpre, zlen_slice; lia).
  assert (Hback : m_iReqHeaderBufFinished r0 <= pos - zlen d) by lia.
  rewrite (slice_split (m_iReqHeaderBufFinished r0) (pos - zlen d) pos) in Hpre by lia.
  apply app_inj_2 in Hpre as [_ Hd]; [|apply Nat2Z.inj; change (zlen (slice (pos - zlen d) pos (m_headerBuf r0)) = zlen d); rewrite zlen_slice; lia].
  split; [rewrite E; cbn; lia|].
  transitivity (slice (pos - zlen d) (m_iReqHeaderBufRead r0) (m_headerBuf r0)); [rewrite E; reflexivity|].
  rewrite Hp, (slice_split (pos - zlen d) pos) by lia. f_equal. exact Hd.
Qed.

(** A chunked body: the look-ahead of the decoder goes back into the buffer if
    something is pending there, and is lost if not. *)
Lemma chunked_end r0 s0 mem x : complete r0 -> te_ready r0 -> m_lEntityLength r0 = LSI_BODY_SIZE_CHUNK -> zlen (m_achChunkLenBuf mem) = MAX_CHUNK_LEN_BUF_SIZE ->
  reading_chunked r0 s0 mem x -> endOfReqBody isEos x = true -> zlen (m_bodyBuf x) < 10 ^ 9 ->
  exists lost p, ChunkIn.run (MLine []) (pending r0 ++ is_rest s0) = (m_bodyBuf x, MEof, lost ++ p ++ is_rest (m_stream x)) /\
    (lost = [] \/ p = []) /\ zlen lost <= MAX_CHUNK_LEN_BUF_SIZE /\
    m_stream (body_end x) = m_stream x /\ ended r0 p (is_rest (m_stream x)) (body_end x).
Proof.
  intros Hc Ht Hch Hm HR He Hbig. destruct (chunked_done r0 s0 mem x Hm HR He) as (st & Hst & Hw & Hrun & Hun).
  destruct HR as [Hb _ Hfi Hlo]. pose proof (based_behind _ _ _ _ Hc Hb) as Hbh.
  assert (Hlen : zlen (unread st) = m_iBufLen st).
  { rewrite Hun. pose proof (wf_pos _ Hw). pose proof (wf_mem _ Hw). rewrite zlen_ztake by lia. lia. }
  assert (Hn0 : m_lEntityLength r0 <> LSI_BODY_SIZE_UNKNOWN /\ m_lEntityLength r0 <= 0) by (rewrite Hch; split; [discriminate|vm_compute; discriminate]).
  pose proof (zlen_nonneg (m_bodyBuf x)). pose proof (wf_pos _ Hw) as [_ Hbl].
  assert (Hgo : forall f, behind r0 (f (b_req (m_request x))) ->
    ended r0 (pending (f (b_req (m_request x)))) (is_rest (m_stream x)) (set_bodyDone (on_request tranEncodeToContentLen (set_chunkIS None (on_request (on_req f) x))))).
  { intros f Hf. apply (tran_ended r0 (set_chunkIS None (on_request (on_req f) x))); auto; try tauto. cbn. lia. }
  unfold body_end. rewrite Hst. cbv zeta. unfold left_over in Hrun. destruct (Z.gtb_spec (m_iBufLen st) 0) as [Hpos|Hz].
  - destruct (Z.gtb_spec (pendingHeaderDataLen (b_req (m_request x))) 0) as [Hpd|Hpd].
    + exists [], (unread st ++ pending (b_req (m_request x))). split; [cbn [app]; rewrite <- app_assoc; exact Hrun|].
      split_and!; auto; [unfold zlen; cbn; lia|].
      destruct (run_rest (MLine []) (pending r0 ++ is_rest s0)) as [pre Hpre]. rewrite Hrun in Hpre. cbn [snd] in Hpre.
      destruct (rewind_pending _ _ _ _ _ _ (complete_placed _ Hc) Hb ltac:(lia) Hpre) as [Hback Hpp]. rewrite Hlen in *.
      rewrite <- Hpp. apply (Hgo (rewindPendingHeaderData (m_iBufLen st))). destruct Hc as (? & ? & ?). apply rewind_behind; [assumption|lia..].
    + exists (unread st), []. destruct (append_behind r0 _ (ztake (m_iBufLen st) (m_achChunkLenBuf st)) Hc Hbh) as [Hbh1 Hnil].
      assert (Hp : pending (b_req (m_request x)) = []) by (unfold pending; apply slice_nil; unfold pendingHeaderDataLen in Hpd; lia).
      rewrite Hp in Hrun. split; [exact Hrun|]. split_and!; auto; [lia|].
      rewrite <- Hnil. apply (Hgo (fun r => appendPendingHeaderData _ (compactHeaderBuf r))). exact Hbh1.
  - exists [], (pending (b_req (m_request x))). assert (unread st = []) as Hu by (destruct (unread st) as [|? l]; [reflexivity|rewrite zlen_cons in Hlen; pose proof (zlen_nonneg l); lia]).
    rewrite Hu in Hrun. split; [exact Hrun|]. split_and!; auto; [unfold zlen; cbn; lia|].
    specialize (Hgo id Hbh). destruct x as [[? ? ?] ? ? ? ?]. exact Hgo.
Qed.

(** ** The body and the next request *)

(** The body of a request: the call after the headers, and those when the stream is
    readable again. *)
Definition receive_body (maxReqBodyLen : Z) (mem : cis) (fuel : nat) (sizes : list Z) (events : list (list Z)) (x : HttpSession (S := S))
  : option (body_result * HttpSession) :=
  match processNewReqBody isEos maxReqBodyLen mem fuel sizes x with
  | Some res => read_events isEos fuel events res
  | None => None
  end.

(** A session whose request's headers are complete, and the bytes behind them. *)
Definition after_headers r s : HttpSession := Sess (ReqBody r 0 []) s None [] false.
Definition behind_headers r s : list Z := pending r ++ is_rest s.

(** The connection goes on to [y], whose request begins with the bytes [l]. *)
Definition goes_on r (l : list Z) (y : HttpSession (S := S)) : Prop :=
  exists p, m_request y = ReqBody (next_request (ztake HEADER_BUF_PAD (m_headerBuf r)) p) 0 [] /\ l = p ++ is_rest (m_stream y).

Lemma receive_body_ok (P : HttpSession -> Prop) maxlen mem fuel sizes events x x1 :
  m_lEntityLength (b_req (m_request x)) <> 0 /\ m_lEntityLength (b_req (m_request x)) <= maxlen ->
  x1 = (if isChunked (b_req (m_request x)) then setupChunkIS mem x else x) -> P x1 ->
  (forall x size, P x -> 0 < size -> exists ret d x1, readReqBodyTermination fuel size x = Some (ret, d, x1) /\
    (isMultipartBodyBlocked (b_req (m_request x1)) = false -> (0 < ret -> P (writeUsed d x1)) /\ (ret <= 0 -> P x1))) ->
  exists res, receive_body maxlen mem fuel sizes events x = Some res /\ body_left P res.
Proof.
  intros [H0 Hmax] -> HP Hstep. unfold receive_body, processNewReqBody. cbv zeta.
  rewrite (proj2 (Z.eqb_neq _ 0)) by lia. cbn [negb]. destruct (Z.gtb_spec (m_lEntityLength (b_req (m_request x))) maxlen); [lia|].
  destruct (readReqBody_loop_ok P fuel Hstep sizes 0 0 0 true _ HP) as (res & Hl & Hb). unfold readReqBody. rewrite Hl.
  apply (read_events_ok P fuel Hstep), Hb.
Qed.

(** C3: the end of a body with a Content-Length.  Take a request whose headers are
    complete after any reads, with a Content-Length that is not more than the
    server's limit, and any stream.  The calls of the body reader return; when the
    body is done, it is the bytes behind the headers, no more of them than the
    Content-Length, and all of them unless the stream is at its end; and if the
    connection is kept, the next request begins, with nothing of this one's state,
    at the byte behind the body. *)
Theorem sized_body_boundary cfg reads r s maxlen mem fuel sizes events :
  receive_all cfg reads new_HttpReq = (0, r) -> 0 < m_lEntityLength r <= maxlen ->
  exists res x, receive_body maxlen mem fuel sizes events (after_headers r s) = Some (res, x) /\
  (res = BodyDone ->
   zlen (m_bodyBuf x) <= m_lEntityLength r /\ (zlen (m_bodyBuf x) = m_lEntityLength r \/ isEos (m_stream x) = true) /\
   m_bodyBuf x = ztake (zlen (m_bodyBuf x)) (behind_headers r s) /\
   (Z.testbit (m_iReqFlag r) 0 = true -> forall past,
    exists y, nextRequest isEos past x = Some y /\ goes_on r (zdrop (zlen (m_bodyBuf x)) (behind_headers r s)) y)).
Proof.
  intros Hrec [Hpos Hmax]. pose proof (receive_all_complete cfg reads r Hrec) as Hc. pose proof (complete_placed _ Hc) as HP.
  destruct (receive_body_ok (reading_sized r s (m_lEntityLength r)) maxlen mem fuel sizes events (after_headers r s) (after_headers r s)) as ([res x] & Hrun & Hleft).
  - cbn. lia.
  - unfold isChunked. cbn. unfold LSI_BODY_SIZE_CHUNK. destruct (Z.eqb_spec (m_lEntityLength r) (-1)); [lia|reflexivity].
  - split; try reflexivity; [apply based_refl, HP|cbn; unfold zlen; cbn; lia].
  - intros x size HR Hsz. apply (read_sized r s (m_lEntityLength r)); auto; lia.
  - exists res, x. split; [exact Hrun|]. intros ->. destruct Hleft as (x0 & HR & He & ->).
    destruct (sized_end r s _ x0 Hc eq_refl ltac:(lia) HR He) as (Hend & -> & Hed). cbn [m_bodyBuf set_bodyDone m_stream].
    destruct HR as [_ _ Hby _ Hbd _]. split; [exact Hbd|]. split; [exact Hend|]. unfold behind_headers. rewrite <- Hby.
    split; [symmetry; apply ztake_app_exact|]. intros Hk past. destruct (ended_next _ _ _ _ past Hed Hk) as (y & Hy & Hq & Hs).
    exists y. split; [exact Hy|]. exists (pending (b_req (m_request x0))). split; [exact Hq|].
    rewrite Hs, zdrop_app_exact. reflexivity.
Qed.

Lemma receive_all_te_ready cfg reads r : settled_run cfg reads new_HttpReq = true -> receive_all cfg reads new_HttpReq = (0, r) -> te_ready r.
Proof.
  intros Hs H. destruct (receive_all_te cfg reads r Hs H) as (Hfr & Hnm & Hk). pose proof (receive_all_complete cfg reads r H) as (_ & _ & _ & He).
  apply framed_te_ready; auto.
Qed.

End Boundary.

(** ** On concrete connections *)

Definition never (_ : script) : bool := false.
Definition arrives (l : list Z) : script := {| sc_events := [Seg l]; sc_failed := false |}.

Definition sized_head : list (list Z) := [crlf "POST /x HTTP/1.1" ++ crlf "Host: h.com" ++ crlf "Content-Length: 5" ++ crlf "" ++ bs "he"].
Definition chunked_head : list (list Z) := [crlf "PUT /x HTTP/1.1" ++ crlf "Host: h.com" ++ crlf "Transfer-Encoding: chunked" ++ crlf ""].
Definition chunked_bytes : list Z := crlf "5" ++ crlf "hello" ++ crlf "0" ++ crlf "".
Definition next_bytes : list Z := crlf "GET /next HTTP/1.1" ++ crlf "Host: h.com" ++ crlf "".
Definition request_of (reads : list (list Z)) : HttpReq := (receive_all sample_config reads new_HttpReq).2.

(** The body and the bytes with which the next request begins. *)
Definition exchange (reads : list (list Z)) (s : script) : option (list Z * list Z) :=
  match receive_body never 1000 sample_state 100 [64; 64] [[64; 64]] (after_headers (request_of reads) s) with
  | Some (BodyDone, x) =>
      match nextRequest never [] x with
      | Some y => Some (m_bodyBuf x, zdrop HEADER_BUF_PAD (m_headerBuf (b_req (m_request y))) ++ is_rest (m_stream y))
      | None => None
      end
  | _ => None
  end.

Lemma sized_body_boundary_witness :
  exchange sized_head (arrives (bs "llo" ++ next_bytes)) = Some (bs "hello", next_bytes) /\
  exists res x, receive_body never 1000 sample_state 100 [64; 64] [[64; 64]] (after_headers (request_of sized_head) (arrives (bs "llo" ++ next_bytes))) = Some (res, x) /\
  (res = BodyDone ->
   zlen (m_bodyBuf x) <= m_lEntityLength (request_of sized_head) /\
   (zlen (m_bodyBuf x) = m_lEntityLength (request_of sized_head) \/ never (m_stream x) = true) /\
   m_bodyBuf x = ztake (zlen (m_bodyBuf x)) (behind_headers (request_of sized_head) (arrives (bs "llo" ++ next_bytes))) /\
   (Z.testbit (m_iReqFlag (request_of sized_head)) 0 = true -> forall past, exists y, nextRequest never past x = Some y /\
     goes_on (request_of sized_head) (zdrop (zlen (m_bodyBuf x)) (behind_headers (request_of sized_head) (arrives (bs "llo" ++ next_bytes)))) y)).
Proof.
  split; [vm_compute; reflexivity|].
  apply (sized_body_boundary never sample_config sized_head (request_of sized_head)); [vm_compute; reflexivity|vm_compute; split; congruence].
Defined.


(** Bytes lost and bytes repeated between two requests.  A chunked body and the
    next request that arrive together after the headers: the decoder's look-ahead,
    here one byte, is put into the header buffer but not counted as read, and the
    next request begins with its second byte; had they arrived with the headers,
    nothing would be lost.  And a header that is appended to a request behind which
    the next one is pending (as a module or [updateReqHeader] does): the bytes
    pending are put aside, but are still counted as read, so that the next request
    begins with what the buffer's block holds behind its end, here a part of the
    next request, and then has it in full. *)
Theorem next_request_bytes :
  exchange chunked_head (arrives (chunked_bytes ++ next_bytes)) = Some (bs "hello", zdrop 1 next_bytes) /\
  exchange [hd [] chunked_head ++ chunked_bytes ++ next_bytes] (arrives []) = Some (bs "hello", next_bytes) /\
  (let r := request_of [crlf "GET /x HTTP/1.1" ++ crlf "Host: h.com" ++ crlf "" ++ next_bytes] in
   let b := updateReqHeader H_USERAGENT (bs "agent") (ReqBody r 0 []) in
   let past := zdrop (bend (b_req b)) (m_headerBuf r) in
   option_map (fun y => zdrop HEADER_BUF_PAD (m_headerBuf (b_req (m_request y)))) (nextRequest never past (Sess b (arrives []) None [] true)) =
   Some (past ++ next_bytes) /\ past <> [] /\ past = zdrop (zlen next_bytes - zlen past) next_bytes).
Proof. vm_compute. split_and!; try reflexivity. discriminate. Qed.
