(* ===== verification/Chains.v ===== *)
(** * Chains: the entries of one name in an array

    An array of entries that say a name and a value, or nothing: the first entry of a
    name, and the next one behind an entry.  The header tables of requests and
    responses link the entries of one name in this order. *)

From S2P Require Import Prelude.
#[local] Open Scope Z_scope.

Notation field := (list Z * list Z)%type (only parsing).

(** ** Finding by name *)

Definition named (n : list Z) (o : option field) : bool := match o with Some (m, _) => bytes_eqb m n | None => false end.

Fixpoint first_at (n : list Z) (F : list (option field)) : option nat :=
  match F with
  | [] => None
  | o :: F => if named n o then Some 0%nat else S <$> first_at n F
  end.

(** The next entry behind [i] with this name, as the chain counts. *)
Definition next_at (n : list Z) (i : nat) (F : list (option field)) : Z :=
  match first_at n (drop (S i) F) with Some j => Z.of_nat (S i + j) | None => -1 end.

Lemma named_iff n o : named n o = true <-> exists v, o = Some (n, v).
Proof.
  destruct o as [[m v]|]; cbn; [rewrite bytes_eqb_eq|]; [split; [intros ->; eauto|intros (? & [= -> _]); reflexivity]|split; [discriminate|intros (? & [=])]].
Qed.

Lemma first_at_Some n F i : first_at n F = Some i -> exists v, F !! i = Some (Some (n, v)).
Proof.
  revert i. induction F as [|o F IH]; intros i; [discriminate|]. cbn. destruct (named n o) eqn:E.
  - intros [= <-]. apply named_iff in E as [v ->]. exists v. reflexivity.
  - destruct (first_at n F) as [j|]; [|discriminate]. intros [= <-]. exact (IH j eq_refl).
Qed.

Lemma first_at_min n F i j v : first_at n F = Some i -> F !! j = Some (Some (n, v)) -> (i <= j)%nat.
Proof.
  revert i j. induction F as [|o F IH]; intros i j; [discriminate|]. cbn. destruct (named n o) eqn:E; [intros [= <-]; lia|].
  destruct (first_at n F) as [k|]; [|discriminate]. intros [= <-] Hj. destruct j as [|j]; [|specialize (IH k j eq_refl Hj); lia].
  cbn in Hj. injection Hj as ->. cbn in E. rewrite (proj2 (bytes_eqb_eq n n) eq_refl) in E. discriminate.
Qed.

Lemma first_at_None n F j v : first_at n F = None -> F !! j <> Some (Some (n, v)).
Proof.
  intros H Hj. revert j H Hj. induction F as [|o F IH]; intros j; [discriminate|]. cbn. destruct (named n o) eqn:E; [discriminate|].
  destruct (first_at n F); [discriminate|]. intros _ Hj. destruct j as [|j]; [|exact (IH j eq_refl Hj)].
  cbn in Hj. injection Hj as ->. cbn in E. rewrite (proj2 (bytes_eqb_eq n n) eq_refl) in E. discriminate.
Qed.

Lemma first_at_app n F G : first_at n (F ++ G) = match first_at n F with Some i => Some i | None => Nat.add (length F) <$> first_at n G end.
Proof.
  induction F as [|o F IH]; cbn; [destruct (first_at n G); reflexivity|]. destruct (named n o); [reflexivity|]. rewrite IH.
  destruct (first_at n F); [reflexivity|]. destruct (first_at n G); reflexivity.
Qed.

Lemma first_at_insert n F i o o' : F !! i = Some o -> named n o' = named n o -> first_at n (<[i := o']> F) = first_at n F.
Proof.
  revert i. induction F as [|x F IH]; intros [|i] Hi Hn; cbn in *; try discriminate.
  - injection Hi as ->. rewrite Hn. reflexivity.
  - rewrite IH by assumption. reflexivity.
Qed.

Lemma next_at_insert n k F i o o' : F !! i = Some o -> named n o' = named n o -> next_at n k (<[i := o']> F) = next_at n k F.
Proof.
  intros Hi Hn. unfold next_at. destruct (decide (i < S k)%nat).
  - rewrite drop_insert_lt by lia. reflexivity.
  - rewrite drop_insert_ge by lia. erewrite first_at_insert; [reflexivity| |exact Hn]. rewrite lookup_drop. rewrite <- Hi. f_equal. lia.
Qed.

Lemma next_at_app n k F o : (k < length F)%nat ->
  next_at n k (F ++ [o]) = if next_at n k F =? -1 then if named n o then Z.of_nat (length F) else -1 else next_at n k F.
Proof.
  intros Hk. unfold next_at. rewrite drop_app_le, first_at_app by lia. destruct (first_at n (drop (S k) F)) as [j|].
  - destruct (Z.eqb_spec (Z.of_nat (S k + j)) (-1)); [lia|reflexivity].
  - cbn. destruct (named n o); cbn; [|reflexivity]. rewrite length_drop. f_equal. lia.
Qed.

Lemma next_at_Some n k F j : next_at n k F = Z.of_nat j -> (k < j)%nat /\ exists v, F !! j = Some (Some (n, v)).
Proof.
  unfold next_at. destruct (first_at n (drop (S k) F)) as [i|] eqn:E; [|lia]. intros H. apply first_at_Some in E as [v Hv]. rewrite lookup_drop in Hv.
  replace j with (S k + i)%nat by lia. split; [lia|]. exists v. exact Hv.
Qed.

Lemma next_at_None n k F j v : next_at n k F = -1 -> (k < j)%nat -> F !! j <> Some (Some (n, v)).
Proof.
  unfold next_at. destruct (first_at n (drop (S k) F)) as [i|] eqn:E; [lia|]. intros _ Hk Hj. apply (first_at_None n _ (j - S k) v E).
  rewrite lookup_drop. rewrite <- Hj. f_equal. lia.
Qed.

Lemma next_at_end n k F : next_at n k F = -1 \/ exists j, next_at n k F = Z.of_nat j.
Proof. unfold next_at. destruct (first_at _ _); eauto. Qed.
