(* ===== verification/RespHeaders.v ===== *)
(** * RespHeaders: the header fields of a response
    (src/src/http/httprespheaders.cpp, src/src/http/httprespheaders.h)

    The fields are lines in one buffer and an array of entries that say where each
    line's name and value are; fields of one name are chained through the array, the
    well-known ones are found by an index.  Adding with the four methods, replacing in
    place, deleting, enumerating, and the text that goes on the wire.  The fields of an
    entry that only the HPACK and QPACK encoders use are left out, and so is the
    capacity of the buffers, which grow. *)

From S2P Require Import Prelude.
#[local] Open Scope Z_scope.

(** The methods of [add] (httpheader.h). *)
Definition LSI_HEADER_ADD : Z := 0.
Definition LSI_HEADER_SET : Z := 1.
Definition LSI_HEADER_APPEND : Z := 2.
Definition LSI_HEADER_MERGE : Z := 3.

(** Those of the interface for modules (ls.h). *)
Definition LSI_HEADEROP_SET : Z := 0.
Definition LSI_HEADEROP_APPEND : Z := 1.
Definition LSI_HEADEROP_MERGE : Z := 2.
Definition LSI_HEADEROP_ADD : Z := 3.

Module HttpRespHeaders.

Definition H_ACCEPT_RANGES : Z := 0.
Definition H_CONNECTION : Z := 1.
Definition H_CONTENT_TYPE : Z := 2.
Definition H_CONTENT_LENGTH : Z := 3.
Definition H_CONTENT_ENCODING : Z := 4.
Definition H_CONTENT_RANGE : Z := 5.
Definition H_CONTENT_DISPOSITION : Z := 6.
Definition H_CACHE_CTRL : Z := 7.
Definition H_DATE : Z := 8.
Definition H_ETAG : Z := 9.
Definition H_EXPIRES : Z := 10.
Definition H_KEEP_ALIVE : Z := 11.
Definition H_LAST_MODIFIED : Z := 12.
Definition H_LOCATION : Z := 13.
Definition H_LITESPEED_LOCATION : Z := 14.
Definition H_LITESPEED_CACHE_CONTROL : Z := 15.
Definition H_PRAGMA : Z := 16.
Definition H_PROXY_CONNECTION : Z := 17.
Definition H_SERVER : Z := 18.
Definition H_SET_COOKIE : Z := 19.
Definition H_CGI_STATUS : Z := 20.
Definition H_TRANSFER_ENCODING : Z := 21.
Definition H_VARY : Z := 22.
Definition H_WWW_AUTHENTICATE : Z := 23.
Definition H_X_LITESPEED_CACHE : Z := 24.
Definition H_X_LITESPEED_PURGE : Z := 25.
Definition H_X_LITESPEED_TAG : Z := 26.
Definition H_X_LITESPEED_VARY : Z := 27.
Definition H_LSC_COOKIE : Z := 28.
Definition H_X_POWERED_BY : Z := 29.
Definition H_LINK : Z := 30.
Definition H_HTTP_VERSION : Z := 31.
Definition H_ALT_SVC : Z := 32.
Definition H_X_LITESPEED_ALT_SVC : Z := 33.
Definition H_LSADC_BACKEND : Z := 34.
Definition H_UPGRADE : Z := 35.
Definition H_X_LITESPEED_PURGE2 : Z := 36.
Definition H_HEADER_END : Z := 37.

Definition HRH_F_HAS_HOLE : Z := 1.
Definition HRH_F_LC_NAME : Z := 4.
Definition HRH_IDX_NONE : Z := 65535.
Definition HRH_MAX_LEN : Z := 32767.
Definition HIGHEST_BIT_NUMBER : Z := 32768.
Definition BYPASS_HIGHEST_BIT_MASK : Z := 32767.

Definition s_sHeaders : list (list Z) := map bs [
  "Accept-Ranges"; "Connection"; "Content-Type"; "Content-Length"; "Content-Encoding"; "Content-Range";
  "Content-Disposition"; "Cache-Control"; "Date"; "Etag"; "Expires"; "Keep-Alive"; "Last-Modified"; "Location";
  "X-Litespeed-Location"; "X-Litespeed-Cache-Control"; "Pragma"; "Proxy-Connection"; "Server"; "Set-Cookie"; "Status";
  "Transfer-Encoding"; "Vary"; "Www-Authenticate"; "X-Litespeed-Cache"; "X-LiteSpeed-Purge"; "X-LiteSpeed-Tag";
  "X-LiteSpeed-Vary"; "Lsc-cookie"; "X-Powered-By"; "Link"; "Version"; "alt-svc"; "X-LiteSpeed-Alt-Svc";
  "X-LSADC-Backend"; "Upgrade"; "X-LiteSpeed-Purge2"].
Definition s_iHeaderLen : list Z := [
  13; 10; 12; 14; 16; 13; 19; 13; 4; 4; 7; 10; 13; 8; 20; 25; 6; 16; 6; 10; 6; 17; 4; 16; 17; 17; 15; 16; 10; 12;
  4; 7; 7; 19; 15; 7; 18; 0].

Definition header_name (i : Z) : list Z := nth (Z.to_nat i) s_sHeaders [].
Definition getNameLen (i : Z) : Z := znth s_iHeaderLen i.

(** Whether the bytes after the first are [s], up to case. *)
Definition rest_is (p : list Z) (s : string) : bool := strcaseeq (ztake (zlen (bs s)) (zdrop 1 p)) (bs s).

(** [getIndex] of a whole name. *)
Definition getIndex (p : list Z) : Z :=
  let len := zlen p in
  if len <=? 0 then H_HEADER_END
  else
    match Z.lor (znth p 0) 32 with
    | 97 (* a *) =>
        if (len =? 13) && rest_is p "ccept-ranges" then H_ACCEPT_RANGES
        else if (len =? 7) && rest_is p "lt-svc" then H_ALT_SVC
        else H_HEADER_END
    | 99 (* c *) =>
        match len with
        | 10 => if rest_is p "onnection" then H_CONNECTION else H_HEADER_END
        | 12 => if rest_is p "ontent-type" then H_CONTENT_TYPE else H_HEADER_END
        | 13 => if rest_is p "ontent-range" then H_CONTENT_RANGE else if rest_is p "ache-control" then H_CACHE_CTRL else H_HEADER_END
        | 14 => if rest_is p "ontent-length" then H_CONTENT_LENGTH else H_HEADER_END
        | 16 => if rest_is p "ontent-encoding" then H_CONTENT_ENCODING else H_HEADER_END
        | 19 => if rest_is p "ontent-disposition" then H_CONTENT_DISPOSITION else H_HEADER_END
        | _ => H_HEADER_END
        end
    | 100 (* d *) => if (len =? 4) && rest_is p "ate" then H_DATE else H_HEADER_END
    | 101 (* e *) =>
        if (len =? 4) && rest_is p "tag" then H_ETAG
        else if (len =? 7) && rest_is p "xpires" then H_EXPIRES
        else H_HEADER_END
    | 107 (* k *) => if (len =? 10) && rest_is p "eep-alive" then H_KEEP_ALIVE else H_HEADER_END
    | 108 (* l *) =>
        match len with
        | 4 => if rest_is p "ink" then H_LINK else H_HEADER_END
        | 8 => if rest_is p "ocation" then H_LOCATION else H_HEADER_END
        | 10 => if rest_is p "sc-cookie" then H_LSC_COOKIE else H_HEADER_END
        | 13 => if rest_is p "ast-modified" then H_LAST_MODIFIED else H_HEADER_END
        | _ => H_HEADER_END
        end
    | 112 (* p *) =>
        if (len =? 6) && rest_is p "ragma" then H_PRAGMA
        else if (len =? 16) && rest_is p "roxy-connection" then H_PROXY_CONNECTION
        else H_HEADER_END
    | 115 (* s *) =>
        match len with
        | 6 => if rest_is p "erver" then H_SERVER else if rest_is p "tatus" then H_CGI_STATUS else H_HEADER_END
        | 10 => if rest_is p "et-cookie" then H_SET_COOKIE else H_HEADER_END
        | _ => H_HEADER_END
        end
    | 116 (* t *) => if (len =? 17) && rest_is p "ransfer-encoding" then H_TRANSFER_ENCODING else H_HEADER_END
    | 117 (* u *) => if (len =? 7) && rest_is p "pgrade" then H_UPGRADE else H_HEADER_END
    | 118 (* v *) =>
        if (len =? 4) && rest_is p "ary" then H_VARY
        else if (len =? 7) && rest_is p "ersion" then H_HTTP_VERSION
        else H_HEADER_END
    | 119 (* w *) => if (len =? 16) && rest_is p "ww-authenticate" then H_WWW_AUTHENTICATE else H_HEADER_END
    | 120 (* x *) =>
        match len with
        | 12 => if rest_is p "-powered-by" then H_X_POWERED_BY else H_HEADER_END
        | 15 => if rest_is p "-lsadc-backend" then H_LSADC_BACKEND else if rest_is p "-litespeed-tag" then H_X_LITESPEED_TAG else H_HEADER_END
        | 16 => if rest_is p "-litespeed-vary" then H_X_LITESPEED_VARY else H_HEADER_END
        | 17 => if rest_is p "-litespeed-cache" then H_X_LITESPEED_CACHE else if rest_is p "-litespeed-purge" then H_X_LITESPEED_PURGE else H_HEADER_END
        | 18 => if rest_is p "-litespeed-purge2" then H_X_LITESPEED_PURGE2 else H_HEADER_END
        | 19 => if rest_is p "-litespeed-alt-svc" then H_X_LITESPEED_ALT_SVC else H_HEADER_END
        | 20 => if rest_is p "-litespeed-location" then H_LITESPEED_LOCATION else H_HEADER_END
        | 25 => if rest_is p "-litespeed-cache-control" then H_LITESPEED_CACHE_CONTROL else H_HEADER_END
        | _ => H_HEADER_END
        end
    | 58 (* : *) =>
        if (len =? 7) && rest_is p "status" then H_CGI_STATUS
        else if (len =? 8) && rest_is p "version" then H_HTTP_VERSION
        else H_HEADER_END
    | _ => H_HEADER_END
    end.

(** ** The fields *)

Record lsxpack_header := Hdr {
  hdr_buf : bool; name_offset : Z; name_len : Z; val_offset : Z; val_len : Z;
  chain_next_idx : Z; app_index : Z; hdr_app_idx : bool }.
Definition zero_hdr : lsxpack_header := Hdr false 0 0 0 0 0 0 false.

Record headers := Headers {
  m_buf : list Z; m_lsxpack : list lsxpack_header; m_KVPairindex : list Z; m_flags : Z; m_iHeaderBuilt : Z;
  m_iHeaderRemovedCount : Z; m_iHeaderUniqueCount : Z; m_hLastHeaderKVPairIndex : Z;
  m_iHttpVersion : Z; m_iKeepAlive : Z; m_iHttpCode : Z; m_iHeadersTotalLen : Z }.

Definition on_buf (f : list Z -> list Z) (h : headers) : headers :=
  Headers (f (m_buf h)) (m_lsxpack h) (m_KVPairindex h) (m_flags h) (m_iHeaderBuilt h) (m_iHeaderRemovedCount h)
    (m_iHeaderUniqueCount h) (m_hLastHeaderKVPairIndex h) (m_iHttpVersion h) (m_iKeepAlive h) (m_iHttpCode h) (m_iHeadersTotalLen h).
Definition on_lsxpack (f : list lsxpack_header -> list lsxpack_header) (h : headers) : headers :=
  Headers (m_buf h) (f (m_lsxpack h)) (m_KVPairindex h) (m_flags h) (m_iHeaderBuilt h) (m_iHeaderRemovedCount h)
    (m_iHeaderUniqueCount h) (m_hLastHeaderKVPairIndex h) (m_iHttpVersion h) (m_iKeepAlive h) (m_iHttpCode h) (m_iHeadersTotalLen h).
Definition set_index (index kv : Z) (h : headers) : headers :=
  Headers (m_buf h) (m_lsxpack h) (<[Z.to_nat index := kv]> (m_KVPairindex h)) (m_flags h) (m_iHeaderBuilt h) (m_iHeaderRemovedCount h)
    (m_iHeaderUniqueCount h) (m_hLastHeaderKVPairIndex h) (m_iHttpVersion h) (m_iKeepAlive h) (m_iHttpCode h) (m_iHeadersTotalLen h).
Definition has_hole (h : headers) : headers :=
  Headers (m_buf h) (m_lsxpack h) (m_KVPairindex h) (Z.lor (m_flags h) HRH_F_HAS_HOLE) (m_iHeaderBuilt h) (m_iHeaderRemovedCount h)
    (m_iHeaderUniqueCount h) (m_hLastHeaderKVPairIndex h) (m_iHttpVersion h) (m_iKeepAlive h) (m_iHttpCode h) (m_iHeadersTotalLen h).
Definition add_removed (n : Z) (h : headers) : headers :=
  Headers (m_buf h) (m_lsxpack h) (m_KVPairindex h) (m_flags h) (m_iHeaderBuilt h) (m_iHeaderRemovedCount h + n)
    (m_iHeaderUniqueCount h) (m_hLastHeaderKVPairIndex h) (m_iHttpVersion h) (m_iKeepAlive h) (m_iHttpCode h) (m_iHeadersTotalLen h).
Definition add_unique (n : Z) (h : headers) : headers :=
  Headers (m_buf h) (m_lsxpack h) (m_KVPairindex h) (m_flags h) (m_iHeaderBuilt h) (m_iHeaderRemovedCount h)
    (m_iHeaderUniqueCount h + n) (m_hLastHeaderKVPairIndex h) (m_iHttpVersion h) (m_iKeepAlive h) (m_iHttpCode h) (m_iHeadersTotalLen h).
Definition set_last (n : Z) (h : headers) : headers :=
  Headers (m_buf h) (m_lsxpack h) (m_KVPairindex h) (m_flags h) (m_iHeaderBuilt h) (m_iHeaderRemovedCount h)
    (m_iHeaderUniqueCount h) n (m_iHttpVersion h) (m_iKeepAlive h) (m_iHttpCode h) (m_iHeadersTotalLen h).
Definition addStatusLine (ver code iKeepAlive : Z) (h : headers) : headers :=
  Headers (m_buf h) (m_lsxpack h) (m_KVPairindex h) (m_flags h) (m_iHeaderBuilt h) (m_iHeaderRemovedCount h)
    (m_iHeaderUniqueCount h) (m_hLastHeaderKVPairIndex h) ver iKeepAlive code (m_iHeadersTotalLen h).
Definition set_built (total : Z) (h : headers) : headers :=
  Headers (m_buf h) (m_lsxpack h) (m_KVPairindex h) (m_flags h) 1 (m_iHeaderRemovedCount h)
    (m_iHeaderUniqueCount h) (m_hLastHeaderKVPairIndex h) (m_iHttpVersion h) (m_iKeepAlive h) (m_iHttpCode h) total.

Definition hdr_size (h : headers) : Z := zlen (m_lsxpack h).
Definition getKvPair (h : headers) (i : Z) : lsxpack_header := nth (Z.to_nat i) (m_lsxpack h) zero_hdr.
Definition upd_kv (i : Z) (f : lsxpack_header -> lsxpack_header) (h : headers) : headers :=
  on_lsxpack (fun l => <[Z.to_nat i := f (nth (Z.to_nat i) l zero_hdr)]> l) h.
Definition set_chain (n : Z) (kv : lsxpack_header) : lsxpack_header :=
  Hdr (hdr_buf kv) (name_offset kv) (name_len kv) (val_offset kv) (val_len kv) n (app_index kv) (hdr_app_idx kv).
Definition set_vlen (n : Z) (kv : lsxpack_header) : lsxpack_header :=
  Hdr (hdr_buf kv) (name_offset kv) (name_len kv) (val_offset kv) n (chain_next_idx kv) (app_index kv) (hdr_app_idx kv).

(** The next entry of the chain, -1 at its end. *)
Definition chain_next (kv : lsxpack_header) : Z := Z.land (chain_next_idx kv) BYPASS_HIGHEST_BIT_MASK - 1.

Definition getName (h : headers) (kv : lsxpack_header) : list Z := slice (name_offset kv) (name_offset kv + name_len kv) (m_buf h).
Definition getVal (h : headers) (kv : lsxpack_header) : list Z := slice (val_offset kv) (val_offset kv + val_len kv) (m_buf h).
Definition isHeaderSet (h : headers) (index : Z) : bool := negb (znth (m_KVPairindex h) index =? HRH_IDX_NONE).
Definition getCount (h : headers) : Z := hdr_size h - m_iHeaderRemovedCount h.

(** [SC_200] of httpstatuscode.h. *)
Definition SC_200 : Z := 5.
Definition reset (flag : Z) : headers :=
  Headers [] [zero_hdr] (repeat HRH_IDX_NONE 37) flag 0 1 0 (-1) 0 0 SC_200 0.

(** ** Adding *)

Definition replaceHeader (i : Z) (pVal : list Z) (h : headers) : headers :=
  let pKv := getKvPair h i in
  upd_kv i (set_vlen (zlen pVal))
    (on_buf (fun b => store b (val_offset pKv) (pVal ++ repeat 32 (Z.to_nat (val_len pKv - zlen pVal)))) h).

(** The room that a header needs; [None] when it would be too long. *)
Definition getAppendHeaderLen (pKv : lsxpack_header) (nameLen valLen method : Z) : option Z :=
  let need := nameLen + valLen + 4 in
  if need >? HRH_MAX_LEN then None
  else if negb (method =? LSI_HEADER_SET) && negb (method =? LSI_HEADER_ADD) && (val_len pKv >? 0) then
    let need := need + (val_len pKv + 1) in
    if need >? HRH_MAX_LEN then None else Some need
  else Some need.

(** Links entry [kv_idx] behind the last one of the chain of [exist]. *)
Fixpoint appendKvPairIdx (fuel : nat) (exist kv_idx : Z) (h : headers) : headers :=
  match fuel with
  | O => h
  | S fuel =>
      let next := chain_next (getKvPair h exist) in
      if next + 1 >? 0 then appendKvPairIdx fuel next kv_idx h
      else upd_kv exist (set_chain (Z.lor (kv_idx + 1) HIGHEST_BIT_NUMBER)) h
  end.
Definition appendKvPairIdx_all (exist kv_idx : Z) (h : headers) : headers := appendKvPairIdx (length (m_lsxpack h)) exist kv_idx h.

Definition newHdrEntry (h : headers) : headers := on_lsxpack (fun l => l ++ [zero_hdr]) h.

Definition appendHeader (i hdr_idx : Z) (pName pVal : list Z) (method : Z) (h : headers) : Z * headers :=
  let nameLen := zlen pName in
  match getAppendHeaderLen (getKvPair h i) nameLen (zlen pVal) method with
  | None => (-1, h)
  | Some _ =>
      let h := if method =? LSI_HEADER_SET then upd_kv i (fun _ => zero_hdr) h else h in
      let '(u, h) :=
        if (val_len (getKvPair h i) >? 0) && (method =? LSI_HEADER_ADD) then
          let new_id := hdr_size h in
          (new_id, upd_kv new_id (set_chain HIGHEST_BIT_NUMBER) (set_last new_id (appendKvPairIdx_all i new_id (newHdrEntry h))))
        else (i, h) in
      let kv := getKvPair h u in
      let off := zlen (m_buf h) in
      let old := if val_len kv >? 0 then getVal h kv ++ [44] else [] in
      let new := Hdr true off nameLen (off + nameLen + 2) (zlen old + zlen pVal) (chain_next_idx kv) hdr_idx
                   ((hdr_app_idx kv) || negb (hdr_idx =? H_HEADER_END)) in
      (0, upd_kv u (fun _ => new)
            (on_buf (fun b => b ++ map tolower pName ++ [58; 32] ++ old ++ pVal ++ [13; 10]) h))
  end.

(** Whether one of the comma-separated members of a value is [val]. *)
Fixpoint hasValue_loop (fuel : nat) (p val : list Z) : bool :=
  match fuel with
  | O => false
  | S fuel =>
      if (0 <? zlen p) && (zlen val <=? zlen p) then
        let p1 := snd (span isspace (zdrop (zlen val) p)) in
        if bytes_eqb (ztake (zlen val) p) val && ((zlen p1 =? 0) || (znth p1 0 =? 44)) then true
        else
          match memchr 44 p with
          | Some i => hasValue_loop fuel (snd (span isspace (zdrop (i + 1) p))) val
          | None => false
          end
      else false
  end.
Definition hasValue (existVal val : list Z) : bool := hasValue_loop (length existVal) existVal val.

(** [StringList::split] at commas: the members that are not empty, without the blanks
    around them. *)
Definition trim_end (l : list Z) : list Z := rev (snd (span isspace (rev l))).
Fixpoint split_comma (fuel : nat) (p : list Z) : list (list Z) :=
  match fuel with
  | O => []
  | S fuel =>
      match snd (span isspace p) with
      | [] => []
      | q =>
          match memchr 44 q with
          | None => [trim_end q]
          | Some i => (if 0 <? i then [trim_end (ztake i q)] else []) ++ split_comma fuel (zdrop (i + 1) q)
          end
      end
  end.

(** The members of [pVal] that the value does not have, joined again. *)
Fixpoint join_comma (l : list (list Z)) : list Z :=
  match l with
  | [] => []
  | [v] => v
  | v :: l => v ++ [44] ++ join_comma l
  end.
Definition new_members (existVal pVal : list Z) : list Z :=
  join_comma (filter (fun v => hasValue existVal v = false) (split_comma (S (length pVal)) pVal)).

(** The first entry with this name, up to case; -1 if there is none. *)
Fixpoint find_kv (l : list lsxpack_header) (buf pName : list Z) (i : Z) : Z :=
  match l with
  | [] => -1
  | kv :: l =>
      if (name_len kv =? zlen pName) && strcaseeq pName (slice (name_offset kv) (name_offset kv + name_len kv) buf) then i
      else find_kv l buf pName (i + 1)
  end.
Definition getHeaderKvOrder (h : headers) (pName : list Z) : Z := find_kv (m_lsxpack h) (m_buf h) pName 0.

(** From [m_hLastHeaderKVPairIndex = kvOrderNum] on. *)
Definition add_append (kvOrderNum headerIndex : Z) (pName pVal : list Z) (method : Z) (h : headers) : Z * headers :=
  let h := set_last kvOrderNum h in
  let h := if (val_len (getKvPair h kvOrderNum) >? 0) && negb (method =? LSI_HEADER_ADD) then has_hole h else h in
  appendHeader kvOrderNum headerIndex pName pVal method h.

(** The entry that [add] works on: a new one when there is none. *)
Definition add_entry (headerIndex : Z) (pName : list Z) (h : headers) : Z * headers :=
  let '(kvOrderNum, h) :=
    if headerIndex =? H_HEADER_END then
      let ret := getHeaderKvOrder h pName in ((if negb (ret =? -1) then ret else hdr_size h), h)
    else
      let h := if znth (m_KVPairindex h) headerIndex =? HRH_IDX_NONE then set_index headerIndex (hdr_size h) h else h in
      (znth (m_KVPairindex h) headerIndex, h) in
  (kvOrderNum, if kvOrderNum =? hdr_size h then add_unique 1 (newHdrEntry h) else h).

Definition add_at (headerIndex : Z) (pName pVal : list Z) (method : Z) (h : headers) : Z * headers :=
  if headerIndex >? H_HEADER_END then (-1, h)
  else if (headerIndex =? H_HEADER_END) && (zlen pName <=? 0) then (-1, h)
  else
    let '(kvOrderNum, h) := add_entry headerIndex pName h in
    let pKv := getKvPair h kvOrderNum in
    if (method =? LSI_HEADER_SET) && (name_len pKv =? zlen pName) && (val_len pKv >=? zlen pVal) then (0, replaceHeader kvOrderNum pVal h)
    else if ((method =? LSI_HEADER_MERGE) || (method =? LSI_HEADER_ADD)) && (val_len pKv >? 0)
         && ((negb (headerIndex =? H_SET_COOKIE) && negb (headerIndex =? H_LINK)) || negb (method =? LSI_HEADER_ADD)) then
      match memchr 44 pVal with
      | Some _ =>
          let new_val := new_members (getVal h pKv) pVal in
          if zlen new_val =? 0 then (0, h) else add_append kvOrderNum headerIndex pName new_val method h
      | None => if hasValue (getVal h pKv) pVal then (0, h) else add_append kvOrderNum headerIndex pName pVal method h
      end
    else add_append kvOrderNum headerIndex pName pVal method h.

(** [add] by index, and by name. *)
Definition add_index (headerIndex : Z) (pVal : list Z) (method : Z) (h : headers) : Z * headers :=
  if (headerIndex <? 0) || (headerIndex >=? H_HEADER_END) then (-1, h)
  else add_at headerIndex (header_name headerIndex) pVal method h.
Definition add (pName pVal : list Z) (method : Z) (h : headers) : Z * headers := add_at (getIndex pName) pName pVal method h.

Record http_header_t := HH { hh_index : Z; hh_name : list Z; hh_val : list Z }.
Fixpoint add_array (headerArray : list http_header_t) (method : Z) (h : headers) : Z * headers :=
  match headerArray with
  | [] => (0, h)
  | a :: headerArray =>
      let '(ret, h) := add_at (hh_index a) (hh_name a) (hh_val a) method h in
      if negb (ret =? 0) then (-1, h) else add_array headerArray method h
  end.

(** More text for the value of the header that was added last. *)
Definition appendLastVal (pVal : list Z) (h : headers) : Z * headers :=
  if (m_hLastHeaderKVPairIndex h =? -1) || (zlen pVal <=? 0) then (-1, h)
  else
    let pKv := getKvPair h (m_hLastHeaderKVPairIndex h) in
    if negb (zlen (m_buf h) =? val_offset pKv + val_len pKv + 2) then (-1, h)
    else if name_len pKv =? 0 then (-1, h)
    else if name_len pKv + val_len pKv + zlen pVal + 4 >? HRH_MAX_LEN then (-1, h)
    else (0, on_buf (fun b => ztake (zlen b - 2) b ++ pVal ++ [13; 10])
               (upd_kv (m_hLastHeaderKVPairIndex h) (set_vlen (val_len pKv + zlen pVal)) h)).

(** [parseAdd]: the lines of a text, as headers. *)
Fixpoint parseAdd_loop (fuel : nat) (p : list Z) (method : Z) (h : headers) : Z * headers :=
  match fuel with
  | O => (0, h)
  | S fuel =>
      match p with
      | [] => (0, h)
      | _ =>
          let line := match memchr 10 p with Some i => ztake i p | None => p end in
          let rest := match memchr 10 p with Some i => zdrop (i + 1) p | None => [] end in
          match memchr 58 line with
          | Some i =>
              let name := trim_end (ztake i line) in
              let val := snd (span isspace (trim_end (zdrop (i + 1) line))) in
              let '(ret, h) := add name val method h in
              if ret =? -1 then (-1, h) else parseAdd_loop fuel rest method h
          | None => parseAdd_loop fuel rest method h
          end
      end
  end.
Definition parseAdd (pStr : list Z) (method : Z) (h : headers) : Z * headers := parseAdd_loop (length pStr) pStr method h.

(** ** Deleting *)

Fixpoint del_chain (fuel : nat) (kvOrderNum : Z) (h : headers) : headers :=
  match fuel with
  | O => h
  | S fuel =>
      if kvOrderNum <=? -1 then h
      else
        let next := chain_next (getKvPair h kvOrderNum) in
        let h := if next + 1 >? 0 then del_chain fuel next h else h in
        add_removed 1 (has_hole (upd_kv kvOrderNum (fun _ => zero_hdr) h))
  end.
Definition del_ (kvOrderNum : Z) (h : headers) : headers := del_chain (length (m_lsxpack h)) kvOrderNum h.

Definition del_index (headerIndex : Z) (h : headers) : Z * headers :=
  if (headerIndex <? 0) || (headerIndex >=? H_HEADER_END) then (-1, h)
  else if negb (znth (m_KVPairindex h) headerIndex =? HRH_IDX_NONE) then
    (0, add_unique (-1) (set_index headerIndex HRH_IDX_NONE (del_ (znth (m_KVPairindex h) headerIndex) h)))
  else (0, h).
Definition del (pName : list Z) (h : headers) : Z * headers :=
  let idx := getIndex pName in
  if idx =? H_HEADER_END then (0, add_unique (-1) (del_ (getHeaderKvOrder h pName) h))
  else (0, snd (del_index idx h)).

Definition dropConnectionHeaders (h : headers) : headers :=
  fold_left (fun h i => snd (del_index i h)) [H_CONNECTION; H_KEEP_ALIVE; H_PROXY_CONNECTION; H_TRANSFER_ENCODING] h.
Definition dropCacheHeaders (h : headers) : headers :=
  fold_left (fun h i => snd (del_index i h)) [H_LITESPEED_CACHE_CONTROL; H_X_LITESPEED_TAG; H_X_LITESPEED_VARY] h.

(** ** Looking up and enumerating *)

(** The values of a chain, [maxIovCount] at most. *)
Fixpoint getHeader_chain (fuel : nat) (kvOrderNum maxIovCount : Z) (h : headers) : list (list Z) :=
  match fuel with
  | O => []
  | S fuel =>
      if (kvOrderNum >=? 0) && (0 <? maxIovCount) then
        let pKv := getKvPair h kvOrderNum in
        let next := chain_next pKv in
        if name_len pKv >? 0 then getVal h pKv :: getHeader_chain fuel next (maxIovCount - 1) h
        else getHeader_chain fuel next maxIovCount h
      else []
  end.
Definition getHeader_at (kvOrderNum maxIovCount : Z) (h : headers) : list (list Z) :=
  getHeader_chain (S (length (m_lsxpack h))) kvOrderNum maxIovCount h.
Definition getHeader_index (index maxIovCount : Z) (h : headers) : list (list Z) :=
  if index >=? H_HEADER_END then []
  else
    let kv := znth (m_KVPairindex h) index in
    getHeader_at (if negb (kv =? HRH_IDX_NONE) then kv else -1) maxIovCount h.
Definition getHeader (pName : list Z) (maxIovCount : Z) (h : headers) : list (list Z) :=
  let idx := getIndex pName in
  if negb (idx =? H_HEADER_END) then getHeader_index idx maxIovCount h
  else getHeader_at (getHeaderKvOrder h pName) maxIovCount h.

(** The position of the next header behind [pos], for enumerating them; -1 behind the last. *)
Fixpoint next_pos (fuel : nat) (i : Z) (h : headers) : Z :=
  match fuel with
  | O => -1
  | S fuel =>
      if i <? hdr_size h then
        let kv := getKvPair h i in
        if (name_len kv >? 0) && (Z.land (chain_next_idx kv) HIGHEST_BIT_NUMBER =? 0) then i else next_pos fuel (i + 1) h
      else -1
  end.
Definition nextHeaderPos (pos : Z) (h : headers) : Z := next_pos (S (length (m_lsxpack h))) (pos + 1) h.

(** Every header that the enumeration gives, by name and values. *)
Fixpoint enumerate (fuel : nat) (pos : Z) (h : headers) : list (list Z * list (list Z)) :=
  match fuel with
  | O => []
  | S fuel =>
      let pos := nextHeaderPos pos h in
      if pos =? -1 then [] else (getName h (getKvPair h pos), getHeader_at pos 100 h) :: enumerate fuel pos h
  end.
Definition HeaderBeginPos (h : headers) : Z := nextHeaderPos (-1) h.

(** [getAllHeaders]: the lines, each by name and value. *)
Definition getAllHeaders (maxIovCount : Z) (h : headers) : list (list Z * list Z) :=
  ztake maxIovCount (flat_map (fun kv => if name_len kv >? 0 then [(getName h kv, getVal h kv)] else []) (m_lsxpack h)).

(** ** The text on the wire *)

(** [mergeAll]: the lines that are there, in order, without the holes. *)
Fixpoint merge_lines (buf : list Z) (l : list lsxpack_header) (out : list Z) : list lsxpack_header * list Z :=
  match l with
  | [] => ([], out)
  | kv :: l =>
      if name_len kv >? 0 then
        let len := name_len kv + val_len kv + 2 in
        let kv' := Hdr (hdr_buf kv) (zlen out) (name_len kv) (val_offset kv + (zlen out - name_offset kv)) (val_len kv)
                     (chain_next_idx kv) (app_index kv) (hdr_app_idx kv) in
        let '(l, out) := merge_lines buf l (out ++ slice (name_offset kv) (name_offset kv + len) buf ++ [13; 10]) in
        (kv' :: l, out)
      else let '(l, out) := merge_lines buf l out in (kv :: l, out)
  end.
Definition mergeAll (h : headers) : headers :=
  let '(l, out) := merge_lines (m_buf h) (m_lsxpack h) [] in on_lsxpack (fun _ => l) (on_buf (fun _ => out) h).

(** [appendToIov]: the text of the headers. *)
Definition appendToIov (h : headers) : list Z * headers :=
  let h := if negb (Z.land (m_flags h) HRH_F_HAS_HOLE =? 0) then mergeAll h else h in (m_buf h, h).

(** [appendToIovExclude]: the lines but those with this name. *)
Definition appendToIovExclude (pName : list Z) (h : headers) : list Z :=
  flat_map (fun kv =>
    if (name_len kv >? 0) && (negb (name_len kv =? zlen pName) || negb (strcaseeq (getName h kv) pName))
    then slice (name_offset kv) (name_offset kv + (name_len kv + val_len kv + 4)) (m_buf h) else []) (m_lsxpack h).

Definition s_keepaliveHeader : list http_header_t :=
  [HH H_CONNECTION (bs "Connection") (bs "Keep-Alive"); HH H_KEEP_ALIVE (bs "Keep-Alive") (bs "timeout=5, max=100")].
Definition s_concloseHeader : list http_header_t := [HH H_CONNECTION (bs "Connection") (bs "close")].
Definition s_chunkedHeader : list http_header_t := [HH H_TRANSFER_ENCODING (bs "Transfer-Encoding") (bs "chunked")].
Definition s_gzipHeaders : list http_header_t := [HH H_CONTENT_ENCODING (bs "content-encoding") (bs "gzip"); HH H_VARY (bs "vary") (bs "Accept-Encoding")].
Definition s_brHeaders : list http_header_t := [HH H_CONTENT_ENCODING (bs "content-encoding") (bs "br"); HH H_VARY (bs "vary") (bs "Accept-Encoding")].
Definition s_zstdHeaders : list http_header_t := [HH H_CONTENT_ENCODING (bs "content-encoding") (bs "zstd"); HH H_VARY (bs "vary") (bs "Accept-Encoding")].

Definition appendChunked (h : headers) : headers := snd (add_array s_chunkedHeader LSI_HEADER_SET h).

(** [outputNonSpdyHeaders], with the status line; [SC_100] and [SC_103] of
    httpstatuscode.h. *)
Definition SC_100 : Z := 1.
Definition SC_103 : Z := 4.
Definition outputNonSpdyHeaders (statusLine : list Z) (h : headers) : list Z * headers :=
  if m_iHttpCode h =? SC_100 then
    (statusLine ++ [13; 10],
     Headers (m_buf h) (m_lsxpack h) (m_KVPairindex h) (m_flags h) (m_iHeaderBuilt h) (m_iHeaderRemovedCount h)
       (m_iHeaderUniqueCount h) (m_hLastHeaderKVPairIndex h) (m_iHttpVersion h) (m_iKeepAlive h) (m_iHttpCode h) (zlen statusLine + 2))
  else
    let h :=
      if negb (m_iHttpCode h =? SC_103) then
        if negb (m_iKeepAlive h =? 0) then snd (add_array s_keepaliveHeader LSI_HEADER_SET h)
        else snd (add_array s_concloseHeader LSI_HEADER_SET h)
      else h in
    let '(text, h) := appendToIov h in
    (statusLine ++ text ++ [13; 10], set_built (zlen statusLine + zlen text + 2) h).

(** [updateEtag]: two characters of a weak tag for the encoding of the body. *)
Inductive ETAG_ENCODING := ETAG_NO_ENCODE | ETAG_BROTLI | ETAG_GZIP | ETAG_ZSTD.
Definition etag_mark (type : ETAG_ENCODING) : list Z :=
  match type with ETAG_NO_ENCODE => bs ";;" | ETAG_BROTLI => bs "br" | ETAG_GZIP => bs "gz" | ETAG_ZSTD => bs "zs" end.
Definition updateEtag (type : ETAG_ENCODING) (h : headers) : headers :=
  if znth (m_KVPairindex h) H_ETAG =? HRH_IDX_NONE then h
  else
    let pKv := getKvPair h (znth (m_KVPairindex h) H_ETAG) in
    let pUpdate := val_offset pKv + val_len pKv - 1 in
    let pUpdate := (if znth (m_buf h) pUpdate =? 34 then pUpdate - 1 else pUpdate) - 1 in
    if znth (m_buf h) (pUpdate - 1) =? 59 then on_buf (fun b => store b pUpdate (etag_mark type)) h else h.
Definition addGzipEncodingHeader (h : headers) : headers := updateEtag ETAG_GZIP (snd (add_array s_gzipHeaders LSI_HEADER_MERGE h)).
Definition addBrEncodingHeader (h : headers) : headers := updateEtag ETAG_BROTLI (snd (add_array s_brHeaders LSI_HEADER_MERGE h)).
Definition addZstdEncodingHeader (h : headers) : headers := updateEtag ETAG_ZSTD (snd (add_array s_zstdHeaders LSI_HEADER_MERGE h)).

(** [convertLscCookie]: the cookies that the cache keeps become Set-Cookie lines, at
    the head of that chain. *)
Fixpoint convert_chain (fuel : nat) (kvOrderNum last : Z) (h : headers) : Z * headers :=
  match fuel with
  | O => (last, h)
  | S fuel =>
      if kvOrderNum >=? 0 then
        let pKv := getKvPair h kvOrderNum in
        let h := on_buf (fun b => store b (name_offset pKv) (bs "set")) h in
        let h := upd_kv kvOrderNum (fun kv => Hdr (hdr_buf kv) (name_offset kv) (name_len kv) (val_offset kv) (val_len kv)
                                                (chain_next_idx kv) H_SET_COOKIE (hdr_app_idx kv)) h in
        convert_chain fuel (chain_next pKv) kvOrderNum h
      else (last, h)
  end.
Definition convertLscCookie (h : headers) : headers :=
  let head := znth (m_KVPairindex h) H_LSC_COOKIE in
  if head =? HRH_IDX_NONE then h
  else
    let '(last, h) := convert_chain (S (length (m_lsxpack h))) head (-1) h in
    let sc := znth (m_KVPairindex h) H_SET_COOKIE in
    let h :=
      if negb (sc =? HRH_IDX_NONE) then
        let h := upd_kv last (fun kv => set_chain (Z.lor (sc + 1) (Z.land (chain_next_idx kv) HIGHEST_BIT_NUMBER)) kv) h in
        add_unique (-1) (upd_kv sc (fun kv => set_chain (Z.lor (chain_next_idx kv) HIGHEST_BIT_NUMBER) kv) h)
      else h in
    set_index H_LSC_COOKIE HRH_IDX_NONE (set_index H_SET_COOKIE head h).

(** [reset2]: a reset that keeps the cookies. *)
Definition reset2 (h : headers) : headers :=
  if znth (m_KVPairindex h) H_SET_COOKIE =? HRH_IDX_NONE then reset (Z.land (m_flags h) HRH_F_LC_NAME)
  else if m_iHeaderUniqueCount h =? 1 then h
  else fold_left (fun h' v => snd (add_at H_SET_COOKIE (bs "Set-Cookie") v LSI_HEADER_ADD h')) (getHeader_index H_SET_COOKIE 100 h)
         (reset (Z.land (m_flags h) HRH_F_LC_NAME)).

(** [copy]: the fields of another response, and the cookies of this one. *)
Definition copyEx (from : headers) (h : headers) : headers :=
  Headers (m_buf from) (m_lsxpack from) (m_KVPairindex from) (m_flags from) (m_iHeaderBuilt from) (m_iHeaderRemovedCount from)
    (m_iHeaderUniqueCount from) (m_hLastHeaderKVPairIndex from) (m_iHttpVersion from) (m_iKeepAlive from) (m_iHttpCode from) (m_iHeadersTotalLen from).
Definition copy (from : headers) (h : headers) : headers :=
  fold_left (fun h' v => snd (add_at H_SET_COOKIE (bs "Set-Cookie") v LSI_HEADER_ADD h')) (getHeader_index H_SET_COOKIE 100 h) (copyEx from h).

End HttpRespHeaders.
