(* ===== verification/RespValues.v ===== *)
(** * RespValues: the members of a header's value
    (src/src/http/httprespheaders.cpp)

    A value is a list of members between commas.  The scan of [hasValue] and the split
    that [add] makes, against that reading. *)

From S2P Require Import Prelude RespHeaders.
Import HttpRespHeaders.
#[local] Open Scope Z_scope.

(** ** Members *)

Fixpoint split_on (c : Z) (l : list Z) : list (list Z) :=
  match l with
  | [] => [[]]
  | x :: l => if x =? c then [] :: split_on c l else match split_on c l with m :: ms => (x :: m) :: ms | [] => [[x]] end
  end.
Definition trim_start (l : list Z) : list Z := snd (span isspace l).
Definition trim (l : list Z) : list Z := trim_end (trim_start l).
Definition members (l : list Z) : list (list Z) := map trim (split_on 44 l).

(** A text without blanks at its ends. *)
Definition clean (v : list Z) : bool :=
  match v with [] => false | c :: _ => negb (isspace c) && negb (isspace (List.last v 0)) end.

Lemma split_on_ne c l : split_on c l <> [].
Proof. destruct l as [|x l]; cbn; [discriminate|]. destruct (x =? c); [discriminate|]. destruct (split_on c l); discriminate. Qed.

Lemma split_on_notin c l : c ∉ l -> split_on c l = [l].
Proof.
  induction l as [|x l IH]; intros H; [reflexivity|]. apply not_elem_of_cons in H as [Hx H]. cbn.
  destruct (Z.eqb_spec x c); [congruence|]. rewrite (IH H). reflexivity.
Qed.

Lemma split_on_app c a b : c ∉ a -> split_on c (a ++ c :: b) = a :: split_on c b.
Proof.
  induction a as [|x a IH]; intros H; cbn; [rewrite Z.eqb_refl; reflexivity|]. apply not_elem_of_cons in H as [Hx H].
  destruct (Z.eqb_spec x c); [congruence|]. rewrite (IH H). reflexivity.
Qed.

(** *** Blanks *)

Definition spaces (l : list Z) : Prop := Forall (fun c => isspace c = true) l.

Lemma span_split p l : l = fst (span p l) ++ snd (span p l) /\ Forall (fun c => p c = true) (fst (span p l)).
Proof.
  induction l as [|x l [IH1 IH2]]; cbn; [split; constructor|]. destruct (p x) eqn:E; [|split; constructor].
  destruct (span p l); cbn in *. split; [congruence|constructor; assumption].
Qed.

Lemma span_all_app p a b : Forall (fun c => p c = true) a -> span p (a ++ b) = (a ++ fst (span p b), snd (span p b)).
Proof. induction 1 as [|x a Hx _ IH]; cbn; [destruct (span p b); reflexivity|]. rewrite Hx, IH. reflexivity. Qed.

Lemma trim_start_app a b : spaces a -> trim_start (a ++ b) = trim_start b.
Proof. intros H. unfold trim_start. rewrite (span_all_app _ _ _ H). reflexivity. Qed.

Lemma trim_start_idem c l : isspace c = false -> trim_start (c :: l) = c :: l.
Proof. intros H. unfold trim_start. cbn. rewrite H. reflexivity. Qed.

Lemma trim_start_head l : match trim_start l with [] => True | c :: _ => isspace c = false end.
Proof.
  unfold trim_start. induction l as [|x l IH]; cbn; [exact I|]. destruct (isspace x) eqn:E; [|exact E]. destruct (span isspace l); exact IH.
Qed.

Lemma trim_start_zlen l : zlen (trim_start l) <= zlen l.
Proof. unfold trim_start. pose proof (zlen_nonneg (fst (span isspace l))). rewrite (proj1 (span_split isspace l)) at 2. rewrite zlen_app. lia. Qed.

Lemma trim_end_app l s : spaces s -> trim_end (l ++ s) = trim_end l.
Proof.
  intros H. unfold trim_end. rewrite rev_app_distr. fold (trim_start (rev s ++ rev l)). rewrite trim_start_app; [reflexivity|].
  unfold spaces. apply Forall_rev in H. exact H.
Qed.

Lemma trim_end_last l c : isspace c = false -> trim_end (l ++ [c]) = l ++ [c].
Proof. intros H. unfold trim_end. rewrite rev_app_distr. cbn. rewrite H. cbn. rewrite rev_involutive. reflexivity. Qed.

Lemma trim_end_split l : exists s, l = trim_end l ++ s /\ spaces s.
Proof.
  destruct (span_split isspace (rev l)) as [H1 H2]. exists (rev (fst (span isspace (rev l)))). split.
  - unfold trim_end. rewrite <- rev_app_distr, <- H1. symmetry. apply rev_involutive.
  - apply Forall_rev in H2. exact H2.
Qed.

Lemma trim_end_head c l : isspace c = false -> exists l', trim_end (c :: l) = c :: l'.
Proof.
  intros Hc. destruct (trim_end_split (c :: l)) as (s & Hs & Hsp). destruct (trim_end (c :: l)) as [|d l']; [|injection Hs as <- _; eauto].
  cbn in Hs. rewrite <- Hs in Hsp. apply Forall_cons in Hsp as [H _]. congruence.
Qed.

Lemma trim_end_not_space l c : trim_end l = l -> List.last l 0 = c -> l <> [] -> isspace c = false.
Proof.
  intros H Hl Hne. destruct (rev l) as [|x r] eqn:E.
  - apply (f_equal (@rev Z)) in E. rewrite rev_involutive in E. cbn in E. congruence.
  - assert (El : l = rev r ++ [x]) by (rewrite <- (rev_involutive l), E; reflexivity). rewrite El, List.last_last in Hl. subst x.
    destruct (isspace c) eqn:Ec; [|reflexivity]. exfalso. rewrite El in H. rewrite trim_end_app in H by (repeat constructor; exact Ec).
    destruct (trim_end_split (rev r)) as (s & Hs & _). apply (f_equal (@length Z)) in H, Hs. rewrite !length_app in *. cbn in H. lia.
Qed.

Lemma clean_inv v : clean v = true -> (exists c l, v = c :: l /\ isspace c = false) /\ (exists c l, v = l ++ [c] /\ isspace c = false).
Proof.
  intros H. destruct v as [|c v]; [discriminate|]. unfold clean in H. apply andb_true_iff in H as [H1 H2]. apply negb_true_iff in H1, H2. split; [eauto|].
  exists (List.last (c :: v) 0), (removelast (c :: v)). split; [apply app_removelast_last; discriminate|exact H2].
Qed.

Lemma clean_trim_end v : clean v = true -> trim_end v = v.
Proof. intros H. apply clean_inv in H as [_ (c & l & -> & Hc)]. apply trim_end_last, Hc. Qed.

Lemma clean_trim v : clean v = true -> trim v = v.
Proof.
  intros H. pose proof (clean_trim_end v H) as He. apply clean_inv in H as [(c & l & -> & Hc) _]. unfold trim. rewrite trim_start_idem by exact Hc. exact He.
Qed.

Lemma clean_ne v : clean v = true -> v <> [].
Proof. intros H ->. discriminate. Qed.

Lemma clean_app v m w : clean v = true -> clean w = true -> clean (v ++ m ++ w) = true.
Proof.
  intros Hv Hw. apply clean_inv in Hv as [(c & l & -> & Hc) _]. apply clean_inv in Hw as [_ (d & k & -> & Hd)]. cbn [app clean].
  rewrite Hc. rewrite app_comm_cons, !app_assoc, List.last_last, Hd. reflexivity.
Qed.

(** A trimmed text is empty or clean. *)
Lemma trim_end_idem l : trim_end (trim_end l) = trim_end l.
Proof. destruct (trim_end_split l) as (s & Hs & Hsp). rewrite Hs at 2. rewrite trim_end_app by exact Hsp. reflexivity. Qed.

Lemma trim_clean l : trim l <> [] -> clean (trim l) = true.
Proof.
  intros Hne. pose proof (trim_end_idem (trim_start l)) as Hi. pose proof (trim_start_head l) as Hh. unfold trim in *. destruct (trim_start l) as [|c k]; [destruct (Hne eq_refl)|].
  destruct (trim_end_head c k Hh) as [l' Hl]. rewrite Hl in *. unfold clean. rewrite Hh. cbn [negb andb].
  rewrite (trim_end_not_space (c :: l') _ Hi eq_refl); [reflexivity|discriminate].
Qed.

Lemma trim_app_spaces a s : spaces s -> trim (a ++ s) = trim a.
Proof.
  intros Hs. unfold trim. destruct (span_split isspace a) as [Ha Hsp]. rewrite Ha at 1. rewrite <- app_assoc, trim_start_app by exact Hsp.
  fold (trim_start a). pose proof (trim_start_head a) as Hh. destruct (trim_start a) as [|c k] eqn:E.
  - cbn [app]. unfold trim_start at 1. pose proof (span_all_app isspace s [] Hs) as H. rewrite app_nil_r in H. rewrite H. reflexivity.
  - change ((c :: k) ++ s) with (c :: k ++ s). rewrite trim_start_idem by exact Hh. rewrite app_comm_cons. apply trim_end_app, Hs.
Qed.

Lemma members_trim_start l : members (trim_start l) = members l.
Proof.
  unfold members, trim_start. induction l as [|x l IH]; [reflexivity|]. cbn [span]. destruct (isspace x) eqn:E; [|reflexivity].
  destruct (span isspace l) as [a b] eqn:Es. cbn [snd] in *. rewrite IH. cbn [split_on]. assert (x <> 44) by (intros ->; discriminate).
  destruct (Z.eqb_spec x 44); [congruence|]. pose proof (split_on_ne 44 l). destruct (split_on 44 l) as [|m ms]; [congruence|]. cbn [map]. f_equal.
  unfold trim. change (x :: m) with ([x] ++ m). rewrite trim_start_app by (repeat constructor; exact E). reflexivity.
Qed.

(** The first member, and the rest of the text. *)
Lemma members_first p : match memchr 44 p with
  | Some i => 0 <= i < zlen p /\ p = ztake i p ++ 44 :: zdrop (i + 1) p /\ 44 ∉ ztake i p /\ members p = trim (ztake i p) :: members (zdrop (i + 1) p)
  | None => 44 ∉ p /\ members p = [trim p] end.
Proof.
  destruct (memchr 44 p) as [i|] eqn:E.
  - apply memchr_Some in E as (Hi & Hp & Hno). split_and!; auto; try lia. unfold members. rewrite Hp at 1. rewrite split_on_app by exact Hno. reflexivity.
  - apply memchr_None in E. split; [exact E|]. unfold members. rewrite split_on_notin by exact E. reflexivity.
Qed.

Lemma zdrop_len i (p : list Z) : 0 <= i < zlen p -> (length (zdrop (i + 1) p) < length p)%nat.
Proof. intros H. unfold zdrop. rewrite length_drop. unfold zlen in H. lia. Qed.

(** ** The scan of [hasValue] *)

(** The member at the head of [a ++ r], where the text begins without a blank, is the
    value when nothing but blanks follows it. *)
Lemma head_is a r v : clean v = true -> 44 ∉ v -> 44 ∉ a -> (r = [] \/ exists b, r = 44 :: b) -> trim_start (a ++ r) = a ++ r ->
  (let p := a ++ r in let p1 := trim_start (zdrop (zlen v) p) in
   bytes_eqb (ztake (zlen v) p) v && ((zlen p1 =? 0) || (znth p1 0 =? 44))) = bool_decide (trim a = v).
Proof.
  intros Hv Hnv Hna Hr Hp. cbv zeta. pose proof (clean_inv v Hv) as [(c & l & Hvc & Hc) _].
  assert (Ha : trim a = trim_end a).
  { unfold trim. f_equal. destruct a as [|x a]; [reflexivity|]. pose proof (trim_start_head ((x :: a) ++ r)) as H. rewrite Hp in H. apply trim_start_idem, H. }
  rewrite Ha. apply eq_bool_prop_intro. rewrite bool_decide_spec. split.
  - intros H. apply Is_true_eq_true, andb_true_iff in H as [H1 H2]. apply bytes_eqb_eq in H1.
    pose proof (ztake_zdrop (zlen v) (a ++ r)) as Hsplit. rewrite H1 in Hsplit. destruct (span_split isspace (zdrop (zlen v) (a ++ r))) as [Hz Hsp].
    fold (trim_start (zdrop (zlen v) (a ++ r))) in Hz. set (sp := fst (span isspace (zdrop (zlen v) (a ++ r)))) in *. set (p1 := trim_start (zdrop (zlen v) (a ++ r))) in *. clearbody sp p1. rewrite Hz in Hsplit.
    assert (Hnsp : 44 ∉ sp) by (intros H; pose proof (proj1 (Forall_forall _ _) Hsp 44 H); discriminate).
    assert (Heq : a = v ++ sp).
    { assert (Hmem : memchr 44 (a ++ r) = memchr 44 ((v ++ sp) ++ p1)) by (rewrite <- app_assoc, Hsplit; reflexivity).
      assert (Hn2 : 44 ∉ v ++ sp) by (intros H; apply elem_of_app in H as [H|H]; contradiction).
      apply orb_true_iff in H2 as [H2|H2].
      - assert (p1 = []) as E by (destruct p1; [reflexivity|rewrite zlen_cons in H2; pose proof (zlen_nonneg p1); lia]). rewrite E, app_nil_r in Hsplit.
        destruct Hr as [->|[b ->]]; [rewrite app_nil_r in Hsplit; congruence|]. exfalso. apply Hn2. rewrite Hsplit. apply elem_of_app. right. left.
      - destruct p1 as [|d p1]; [discriminate|]. apply Z.eqb_eq in H2. change (znth (d :: p1) 0) with d in H2. subst d. destruct Hr as [->|[b ->]].
        + exfalso. apply Hna. rewrite app_nil_r in Hsplit. rewrite <- Hsplit. apply elem_of_app. right. apply elem_of_app. right. left.
        + rewrite !memchr_app in Hmem by assumption. injection Hmem as Hmem.
          pose proof (ztake_app_len (zlen a) a (44 :: b) eq_refl) as E1. rewrite <- Hsplit, app_assoc in E1. rewrite (ztake_app_len (zlen a)) in E1 by congruence. congruence. }
    rewrite Heq, trim_end_app by exact Hsp. apply clean_trim_end, Hv.
  - intros E. destruct (trim_end_split a) as (s & Hs & Hsp). rewrite E in Hs. rewrite Hs, <- app_assoc, ztake_app_exact, zdrop_app_exact, trim_start_app by exact Hsp.
    rewrite (proj2 (bytes_eqb_eq v v) eq_refl). destruct Hr as [->|[b ->]]; [reflexivity|]. rewrite trim_start_idem by reflexivity. apply Is_true_true. rewrite orb_true_r. reflexivity.
Qed.

Lemma members_zlen l : forall m, m ∈ members l -> zlen m <= zlen l.
Proof.
  remember (length l) as n eqn:Hn. assert (Hle : (length l <= n)%nat) by lia. clear Hn. revert l Hle.
  assert (Ht : forall l, zlen (trim l) <= zlen l).
  { intros l. unfold trim. pose proof (trim_start_zlen l). destruct (trim_end_split (trim_start l)) as (s & Hs & _). apply (f_equal zlen) in Hs. rewrite zlen_app in Hs. pose proof (zlen_nonneg s). lia. }
  induction n as [|n IH]; intros l Hl m Hm; pose proof (members_first l) as H; destruct (memchr 44 l) as [i|].
  - destruct H as (Hi & _). unfold zlen in Hi. lia.
  - destruct H as [_ H]. rewrite H in Hm. apply list_elem_of_singleton in Hm. subst. apply Ht.
  - destruct H as (Hi & _ & _ & H). rewrite H in Hm. apply elem_of_cons in Hm as [->|Hm].
    + pose proof (Ht (ztake i l)). rewrite zlen_ztake in * by lia. lia.
    + pose proof (zdrop_len i l Hi). specialize (IH (zdrop (i + 1) l) ltac:(lia) m Hm). rewrite zlen_zdrop in IH by lia. lia.
  - destruct H as [_ H]. rewrite H in Hm. apply list_elem_of_singleton in Hm. subst. apply Ht.
Qed.

Lemma hasValue_loop_ok v : clean v = true -> 44 ∉ v -> forall fuel p, (length p <= fuel)%nat -> trim_start p = p ->
  hasValue_loop fuel p v = bool_decide (v ∈ members p).
Proof.
  intros Hv Hnv. pose proof (clean_inv v Hv) as [(c & l & Hvc & _) _].
  assert (Hv1 : 0 < zlen v) by (rewrite Hvc, zlen_cons; pose proof (zlen_nonneg l); lia).
  induction fuel as [|fuel IH]; intros p Hf Hp.
  - destruct p; [|cbn in Hf; lia]. cbn. symmetry. apply bool_decide_eq_false. intros H. apply list_elem_of_singleton in H. subst. discriminate.
  - cbn [hasValue_loop]. destruct ((0 <? zlen p) && (zlen v <=? zlen p)) eqn:E.
    2:{ symmetry. apply bool_decide_eq_false. intros H. apply members_zlen in H. lia. }
    pose proof (members_first p) as H. fold (trim_start (zdrop (zlen v) p)). destruct (memchr 44 p) as [i|].
    + destruct H as (Hi & Hsp & Hno & Hm). rewrite Hm.
      pose proof (head_is (ztake i p) (44 :: zdrop (i + 1) p) v Hv Hnv Hno ltac:(right; eauto)) as Hh. rewrite <- Hsp in Hh. specialize (Hh Hp). cbv zeta in Hh. rewrite Hh.
      fold (trim_start (zdrop (i + 1) p)). rewrite IH.
      * rewrite members_trim_start. repeat case_bool_decide; set_solver.
      * pose proof (zdrop_len i p Hi). pose proof (trim_start_zlen (zdrop (i + 1) p)). unfold zlen in *. lia.
      * pose proof (trim_start_head (zdrop (i + 1) p)) as Hd. destruct (trim_start (zdrop (i + 1) p)); [reflexivity|]. apply trim_start_idem, Hd.
    + destruct H as (Hno & Hm). rewrite Hm.
      pose proof (head_is p [] v Hv Hnv Hno ltac:(left; reflexivity)) as Hh. rewrite app_nil_r in Hh. specialize (Hh Hp). cbv zeta in Hh. rewrite Hh.
      repeat case_bool_decide; set_solver.
Qed.

(** ** The split that [add] makes *)

Lemma split_comma_ok : forall fuel p, (length p < fuel)%nat -> split_comma fuel p = filter (fun m => m <> []) (members p).
Proof.
  induction fuel as [|fuel IH]; intros p Hf; [lia|]. cbn [split_comma]. fold (trim_start p). rewrite <- members_trim_start.
  pose proof (trim_start_zlen p) as Hl. pose proof (trim_start_head p) as Hh. destruct (trim_start p) as [|c q] eqn:Eq; [reflexivity|].
  pose proof (members_first (c :: q)) as H. set (k := c :: q) in *. destruct (memchr 44 k) as [i|].
  - destruct H as (Hi & Hsp & Hno & Hm). rewrite Hm. rewrite IH by (pose proof (zdrop_len i k Hi); unfold zlen in *; lia). rewrite filter_cons. destruct (Z.ltb_spec 0 i) as [Hp|Hp].
    + assert (Et : ztake i k = c :: ztake (i - 1) q) by (apply ztake_cons; lia). destruct (trim_end_head c (ztake (i - 1) q) Hh) as [r Hr].
      assert (Etr : trim (ztake i k) = trim_end (ztake i k)) by (unfold trim; rewrite Et, trim_start_idem by exact Hh; reflexivity).
      rewrite decide_True; [rewrite Etr; reflexivity|]. rewrite Etr, Et, Hr. discriminate.
    + rewrite ztake_neg by lia. rewrite decide_False; [reflexivity|]. intros X. apply X. reflexivity.
  - destruct H as (Hno & Hm). rewrite Hm. destruct (trim_end_head c q Hh) as [r Hr].
    assert (Etr : trim k = trim_end k) by (unfold trim, k; rewrite trim_start_idem by exact Hh; reflexivity). rewrite filter_cons, decide_True; [rewrite Etr; reflexivity|].
    rewrite Etr. unfold k. rewrite Hr. discriminate.
Qed.

Lemma split_comma_members p : split_comma (S (length p)) p = filter (fun m => m <> []) (members p).
Proof. apply split_comma_ok. lia. Qed.

Lemma members_clean p m : m ∈ members p -> m <> [] -> clean m = true /\ 44 ∉ m.
Proof.
  intros Hm Hne. apply list_elem_of_In in Hm. unfold members in Hm. apply in_map_iff in Hm as (x & <- & Hx). split; [apply trim_clean, Hne|].
  assert (Hnx : 44 ∉ x).
  { clear -Hx. revert x Hx. induction p as [|c p IH]; intros x Hx; cbn in Hx; [destruct Hx as [<-|[]]; apply not_elem_of_nil|].
    destruct (Z.eqb_spec c 44) as [->|Hc]; [destruct Hx as [<-|Hx]; [apply not_elem_of_nil|exact (IH x Hx)]|].
    destruct (split_on 44 p) as [|m ms]; [destruct Hx as [<-|[]]; intros H; apply list_elem_of_singleton in H; congruence|].
    destruct Hx as [<-|Hx]; [|apply IH; right; exact Hx]. intros H. apply elem_of_cons in H as [H|H]; [congruence|]. apply (IH m); [left; reflexivity|exact H]. }
  intros H. apply Hnx. unfold trim in H. destruct (span_split isspace x) as [Hs _]. fold (trim_start x) in Hs. rewrite Hs. apply elem_of_app. right.
  destruct (trim_end_split (trim_start x)) as (s & Hs2 & _). rewrite Hs2. apply elem_of_app. left. exact H.
Qed.

(** ** What is merged *)

(** The members of [v] that [w] does not have yet. *)
Definition merged (w v : list Z) : list Z :=
  if bool_decide (44 ∈ v) then join_comma (filter (fun m => m <> [] /\ m ∉ members w) (members v))
  else if bool_decide (v ∈ members w) then [] else v.

(** A value that was stored begins without a blank. *)
Lemma hasValue_members w v : trim_start w = w -> clean v = true -> 44 ∉ v -> hasValue w v = bool_decide (v ∈ members w).
Proof. intros Hw Hv Hn. apply hasValue_loop_ok; auto. Qed.

Lemma clean_trim_start w : clean w = true -> trim_start w = w.
Proof. intros H. apply clean_inv in H as [(c & l & -> & Hc) _]. apply trim_start_idem, Hc. Qed.

Lemma new_members_ok w v : clean w = true -> new_members w v = join_comma (filter (fun m => m <> [] /\ m ∉ members w) (members v)).
Proof.
  intros Hw. unfold new_members. f_equal. rewrite split_comma_members.
  assert (H : forall m, m ∈ members v -> m <> [] -> hasValue w m = bool_decide (m ∈ members w)).
  { intros m Hm Hne. destruct (members_clean v m Hm Hne). apply hasValue_members; [apply clean_trim_start, Hw|assumption|assumption]. }
  induction (members v) as [|m l IH]; [reflexivity|]. rewrite !filter_cons. destruct (decide (m <> [])) as [Hne|He].
  - rewrite filter_cons. rewrite H by (auto; left). rewrite IH by (intros; apply H; [right|]; assumption).
    case_bool_decide; [rewrite decide_False by discriminate; rewrite decide_False by tauto; reflexivity|rewrite decide_True by reflexivity; rewrite decide_True by tauto; reflexivity].
  - rewrite IH by (intros; apply H; [right|]; assumption). rewrite decide_False by tauto. reflexivity.
Qed.

Lemma join_clean l : Forall (fun m => clean m = true) l -> l <> [] -> clean (join_comma l) = true.
Proof.
  induction 1 as [|m l Hm _ IH]; [congruence|]. intros _. destruct l as [|m' l]; [exact Hm|]. change (join_comma (m :: m' :: l)) with (m ++ [44] ++ join_comma (m' :: l)).
  apply clean_app; [exact Hm|apply IH; discriminate].
Qed.

Lemma merged_clean w v : clean v = true -> merged w v = [] \/ clean (merged w v) = true.
Proof.
  intros Hv. unfold merged. case_bool_decide; [|case_bool_decide; auto].
  destruct (filter _ (members v)) as [|m l] eqn:E; [left; reflexivity|]. right. rewrite <- E. apply join_clean; [|rewrite E; discriminate].
  apply Forall_forall. intros x Hx. apply list_elem_of_filter in Hx as ((Hx & _) & Hin). apply (members_clean v x Hin Hx).
Qed.

Lemma zlen_trim l : zlen (trim l) <= zlen l.
Proof.
  unfold trim. pose proof (trim_start_zlen l). destruct (trim_end_split (trim_start l)) as (s & Hs & _). apply (f_equal zlen) in Hs.
  rewrite zlen_app in Hs. pose proof (zlen_nonneg s). lia.
Qed.

Lemma zlen_join m l : zlen (join_comma (m :: l)) = zlen m + (if bool_decide (l = []) then 0 else 1 + zlen (join_comma l)).
Proof. destruct l as [|m' l]; cbn [join_comma]; [cbn; lia|]. rewrite bool_decide_eq_false_2 by discriminate. rewrite !zlen_app. change (zlen [44]) with 1. cbn [join_comma]. lia. Qed.

(** What is left of a value when members are dropped is not longer. *)
Lemma zlen_join_filter P `{!forall m, Decision (P m)} l : forall m, zlen (join_comma (filter P (m :: l))) <= zlen (join_comma (m :: l)).
Proof.
  induction l as [|m' l IH]; intros m; rewrite filter_cons.
  - destruct (decide (P m)); [reflexivity|]. apply zlen_nonneg.
  - specialize (IH m'). pose proof (zlen_nonneg m). rewrite (zlen_join m (m' :: l)), bool_decide_eq_false_2 by discriminate. destruct (decide (P m)); [|lia].
    rewrite zlen_join. case_bool_decide as E; [pose proof (zlen_nonneg (join_comma (m' :: l))); lia|]. lia.
Qed.

Lemma join_split p : join_comma (split_on 44 p) = p.
Proof.
  induction p as [|x p IH]; [reflexivity|]. cbn [split_on]. pose proof (split_on_ne 44 p) as Hne. destruct (split_on 44 p) as [|m ms]; [congruence|].
  destruct (Z.eqb_spec x 44) as [->|_].
  - change (join_comma ([] :: m :: ms)) with ([] ++ [44] ++ join_comma (m :: ms)). rewrite IH. reflexivity.
  - destruct ms; cbn in *; congruence.
Qed.

Lemma zlen_join_trim l : zlen (join_comma (map trim l)) <= zlen (join_comma l).
Proof.
  induction l as [|m l IH]; [reflexivity|]. cbn [map]. rewrite !zlen_join. pose proof (zlen_trim m). destruct l; [cbn in *; lia|].
  rewrite !bool_decide_eq_false_2 by discriminate. lia.
Qed.

Lemma zlen_members p : zlen (join_comma (members p)) <= zlen p.
Proof. unfold members. pose proof (zlen_join_trim (split_on 44 p)). rewrite join_split in H. exact H. Qed.

Lemma zlen_merged w v : zlen (merged w v) <= zlen v.
Proof.
  unfold merged. case_bool_decide; [|case_bool_decide; [apply zlen_nonneg|lia]]. pose proof (zlen_members v) as H1. pose proof (split_on_ne 44 v). unfold members in *.
  destruct (split_on 44 v) as [|m l]; [congruence|]. cbn [map] in *. etransitivity; [|exact H1]. apply (zlen_join_filter (fun x => x <> [] /\ x ∉ members w)).
Qed.
