(* ===== verification/RespFields.v ===== *)
(** * RespFields: a response's header fields are an ordered list of lines
    (src/src/http/httprespheaders.cpp)

    The buffer of RespHeaders against an abstract list of names and values: what the
    index and the chains find, what each method of [add] and deleting do to the list,
    and that the text on the wire is its lines in order.  And what the code does where
    it does not keep to that: values without text, replacing a header of several
    lines, the methods of the interface for modules. *)

From S2P Require Import Prelude Chains RespHeaders RespValues.
From Stdlib Require Import Sorting.Sorted.
Import HttpRespHeaders.
#[local] Open Scope Z_scope.

(** ** The index of well-known names *)

Lemma lor_tolower c : Z.lor (tolower c) 32 = Z.lor c 32.
Proof.
  unfold tolower. destruct ((65 <=? c) && (c <=? 90)) eqn:E; [|reflexivity].
  assert (H : 65 <= c <= 90) by lia. apply Z.eqb_eq.
  apply (range_forall (fun c => Z.lor (c + 32) 32 =? Z.lor c 32) 65 26); [vm_compute; reflexivity|lia].
Qed.

Lemma tolower_tolower c : tolower (tolower c) = tolower c.
Proof. unfold tolower. destruct ((65 <=? c) && (c <=? 90)) eqn:E; rewrite ?E; [|reflexivity]. rewrite (proj2 (andb_false_iff _ _)); [reflexivity|right; lia]. Qed.

Definition lower (n : list Z) : list Z := map tolower n.

Lemma lower_lower n : lower (lower n) = lower n.
Proof. unfold lower. rewrite map_map. apply map_ext, tolower_tolower. Qed.

Lemma zlen_lower n : zlen (lower n) = zlen n.
Proof. unfold zlen, lower. rewrite length_map. reflexivity. Qed.

Lemma rest_is_lower p s : rest_is (lower p) s = rest_is p s.
Proof.
  unfold rest_is, strcaseeq. f_equal. unfold ztake, zdrop, lower. rewrite skipn_map, firstn_map, map_map.
  apply map_ext, tolower_tolower.
Qed.

(** The index depends on the name up to case. *)
Lemma getIndex_lower p : getIndex (lower p) = getIndex p.
Proof.
  unfold getIndex. rewrite zlen_lower. destruct (zlen p <=? 0) eqn:E; [reflexivity|].
  replace (Z.lor (znth (lower p) 0) 32) with (Z.lor (znth p 0) 32).
  2:{ destruct p; [discriminate|]. symmetry. apply lor_tolower. }
  rewrite !rest_is_lower. reflexivity.
Qed.

(** A field's name: bytes, and not a pseudo header's (which begins with a colon, or
    with a byte that reads as one). *)
Definition name_ok (n : list Z) : bool :=
  (0 <? zlen n) && forallb (fun c => (0 <=? c) && (c <? 256)) n && negb (Z.lor (znth n 0) 32 =? 58).

Lemma lor_letter c : 0 <= c < 256 -> 97 <= Z.lor c 32 <= 122 -> tolower c = Z.lor c 32.
Proof.
  intros Hc Hl. apply Z.eqb_eq.
  pose proof (range_forall (fun c => negb ((97 <=? Z.lor c 32) && (Z.lor c 32 <=? 122)) || (tolower c =? Z.lor c 32)) 0 256 ltac:(vm_compute; reflexivity) c Hc) as H.
  cbv beta in H. lia.
Qed.

Lemma first_rest p l s : name_ok p = true -> Z.lor (znth p 0) 32 = l -> rest_is p s = true -> 97 <= l <= 122 -> zlen p = 1 + zlen (bs s) ->
  lower p = l :: lower (bs s).
Proof.
  unfold name_ok. intros Hn Hl H Hr Hz. unfold rest_is, strcaseeq in H. apply bytes_eqb_eq in H.
  destruct p as [|c p]; [discriminate|]. change (znth (c :: p) 0) with c in *. cbn [forallb] in Hn.
  change (zdrop 1 (c :: p)) with p in H. rewrite zlen_cons in Hz. rewrite ztake_all in H by lia.
  unfold lower. cbn [map]. rewrite H, lor_letter by lia. congruence.
Qed.

(** What a well-known index says of the name. *)
Lemma getIndex_name p : name_ok p = true -> getIndex p <> H_HEADER_END -> lower p = lower (header_name (getIndex p)).
Proof.
  intros Hn. unfold getIndex. destruct (zlen p <=? 0); [intros []; reflexivity|].
  destruct (Z.lor (znth p 0) 32) as [|l|l] eqn:El; try (intros []; reflexivity).
  repeat match goal with
  | |- context [match ?l with xI _ => _ | xO _ => _ | xH => _ end] => is_var l; destruct l; try (intros []; reflexivity)
  end.
  all: destruct (zlen p) as [|k|k] eqn:Ek; cbn [Z.eqb andb]; try (intros []; reflexivity).
  all: repeat match goal with
  | |- context [match ?l with xI _ => _ | xO _ => _ | xH => _ end] => is_var l; destruct l; try (intros []; reflexivity)
  end.
  all: repeat match goal with
  | |- context [rest_is ?q ?s] => destruct (rest_is q s) eqn:?; cbn [andb]
  | |- context [if ?b then _ else _] => destruct b eqn:?; cbn [andb]
  end; try (intros []; reflexivity).
  all: intros _; match goal with
  | H : (_ && false) = true |- _ => rewrite andb_false_r in H; discriminate H
  | H : rest_is ?q _ = true |- _ =>
      first [rewrite (first_rest q _ _ Hn El H); [vm_compute; reflexivity|lia|match goal with |- context [bs ?s] => change (zlen (bs s)) with (Z.of_nat (length (bs s))) end; cbn [bs length]; lia]
            |exfalso; revert Hn; unfold name_ok; rewrite El; lia]
  end.
Qed.

(** The names of the same header are the same up to case, and have one index. *)
Lemma getIndex_same n m : lower n = lower m -> getIndex n = getIndex m.
Proof. intros H. rewrite <- (getIndex_lower n), H. apply getIndex_lower. Qed.

Lemma getIndex_inj n m : name_ok n = true -> name_ok m = true -> getIndex n <> H_HEADER_END -> getIndex n = getIndex m -> lower n = lower m.
Proof. intros Hn Hm Hne E. rewrite (getIndex_name n Hn Hne), (getIndex_name m Hm) by congruence. rewrite E. reflexivity. Qed.

Lemma getIndex_range p : 0 <= getIndex p <= H_HEADER_END.
Proof.
  unfold getIndex. destruct (zlen p <=? 0); [vm_compute; intuition discriminate|].
  destruct (Z.lor (znth p 0) 32) as [|l|l]; try (vm_compute; intuition discriminate).
  repeat match goal with
  | |- context [match ?l with xI _ => _ | xO _ => _ | xH => _ end] => is_var l; destruct l; try (vm_compute; intuition discriminate)
  end.
  all: destruct (zlen p) as [|k|k]; cbn [Z.eqb andb]; try (vm_compute; intuition discriminate).
  all: repeat match goal with
  | |- context [match ?l with xI _ => _ | xO _ => _ | xH => _ end] => is_var l; destruct l; try (vm_compute; intuition discriminate)
  end.
  all: repeat case_match; vm_compute; intuition discriminate.
Qed.

(** ** The lines of the buffer *)

(** A line, with blanks where a longer value was; the buffer is lines that an entry
    owns, and holes. *)
Definition line (n v : list Z) (pad : nat) : list Z := n ++ [58; 32] ++ v ++ repeat 32 pad ++ [13; 10].

Inductive seg := Own (i : nat) (n v : list Z) (pad : nat) | Hole (t : list Z).
Definition seg_text (s : seg) : list Z := match s with Own _ n v pad => line n v pad | Hole t => t end.
Definition text (segs : list seg) : list Z := concat (map seg_text segs).
Definition owner (s : seg) : option nat := match s with Own i _ _ _ => Some i | Hole _ => None end.
Definition owners (segs : list seg) : list nat := omap owner segs.

Definition hole_flag (h : headers) : bool := negb (Z.land (m_flags h) HRH_F_HAS_HOLE =? 0).

(** The entry says where the line is. *)
Definition describes (kv : lsxpack_header) (off : Z) (n v : list Z) : Prop :=
  name_offset kv = off /\ name_len kv = zlen n /\ val_offset kv = off + zlen n + 2 /\ val_len kv = zlen v /\ 0 < zlen n.

Record laid (h : headers) (segs : list seg) : Prop := Laid {
  laid_buf : m_buf h = text segs;
  laid_nodup : NoDup (owners segs);
  laid_kv : forall s1 i n v pad s2, segs = s1 ++ Own i n v pad :: s2 ->
    exists kv, m_lsxpack h !! i = Some kv /\ describes kv (zlen (text s1)) n v;
  laid_free : forall i kv, m_lsxpack h !! i = Some kv -> i ∉ owners segs -> name_len kv = 0 /\ val_len kv = 0;
  laid_hole : forall t, Hole t ∈ segs -> hole_flag h = true;
  laid_order : hole_flag h = false -> StronglySorted lt (owners segs) }.

(** What the entries say: a name and a value, or nothing. *)
Definition field_of (h : headers) (kv : lsxpack_header) : option field :=
  if name_len kv >? 0 then Some (getName h kv, getVal h kv) else None.
Definition fields (h : headers) : list (option field) := map (field_of h) (m_lsxpack h).

Lemma text_app s1 s2 : text (s1 ++ s2) = text s1 ++ text s2.
Proof. unfold text. rewrite map_app, concat_app. reflexivity. Qed.

Lemma owners_app s1 s2 : owners (s1 ++ s2) = owners s1 ++ owners s2.
Proof. apply omap_app. Qed.

Lemma own_owner s1 i n v pad s2 : i ∈ owners (s1 ++ Own i n v pad :: s2).
Proof. rewrite owners_app. apply elem_of_app. right. cbn. left. Qed.

Lemma owner_own i segs : i ∈ owners segs -> exists s1 n v pad s2, segs = s1 ++ Own i n v pad :: s2.
Proof.
  intros H. apply list_elem_of_omap in H as (s & Hs & Ho). destruct s as [j n v pad|]; [|discriminate]. injection Ho as ->.
  apply list_elem_of_split in Hs as (s1 & s2 & ->). eauto 10.
Qed.

(** Two places in one list. *)
Lemma split_twice {A} (s1 s1' s2 s2' : list A) x y : s1 ++ x :: s2 = s1' ++ y :: s2' ->
  (s1 = s1' /\ x = y /\ s2 = s2') \/ (exists m, s1' = s1 ++ x :: m /\ s2 = m ++ y :: s2') \/ (exists m, s1 = s1' ++ y :: m /\ s2' = m ++ x :: s2).
Proof.
  revert s1'. induction s1 as [|a s1 IH]; intros [|b s1'] H; cbn in H; injection H.
  - intros -> ->. left. auto.
  - intros -> ->. right. left. exists s1'. auto.
  - intros <- <-. right. right. exists s1. auto.
  - intros H1 ->. destruct (IH s1' H1) as [(-> & -> & ->)|[(m & -> & ->)|(m & -> & ->)]]; [left; auto|right; left; eauto|right; right; eauto].
Qed.

Lemma zlen_line n v pad : zlen (line n v pad) = zlen n + zlen v + Z.of_nat pad + 4.
Proof. unfold line. rewrite !zlen_app. change (zlen [58; 32]) with 2. change (zlen [13; 10]) with 2. unfold zlen at 3. rewrite repeat_length. lia. Qed.

Lemma slice_shift {A} (p l : list A) i j : zlen p <= i -> slice i j (p ++ l) = slice (i - zlen p) (j - zlen p) l.
Proof.
  intros H. unfold slice. replace (j - zlen p - (i - zlen p)) with (j - i) by lia. f_equal.
  pose proof (zlen_nonneg p). replace i with (zlen p + (i - zlen p)) at 1 by lia. rewrite <- zdrop_zdrop, zdrop_app_exact by lia. reflexivity.
Qed.

Lemma slice_head {A} (l k : list A) j : j = zlen l -> slice 0 j (l ++ k) = l.
Proof. intros ->. rewrite slice_0. apply ztake_app_exact. Qed.

(** The name and the value of a line, where it is. *)
Lemma describes_field h s1 i n v pad s2 kv : m_buf h = text (s1 ++ Own i n v pad :: s2) -> describes kv (zlen (text s1)) n v ->
  field_of h kv = Some (n, v).
Proof.
  intros Hb (Ho & Hn & Hv & Hl & Hp). unfold field_of, getName, getVal. rewrite Ho, Hn, Hv, Hl, Hb, text_app.
  change (text (Own i n v pad :: s2)) with (line n v pad ++ text s2). unfold line. rewrite <- !app_assoc.
  destruct (Z.gtb_spec (zlen n) 0); [|lia]. pose proof (zlen_nonneg v). f_equal. f_equal.
  - rewrite slice_shift, Z.sub_diag by lia. apply slice_head. lia.
  - rewrite slice_shift by lia. rewrite slice_shift by lia.
    replace (zlen (text s1) + zlen n + 2 - zlen (text s1) - zlen n) with 2 by lia. 
    rewrite slice_shift by (change (zlen [58; 32]) with 2; lia). change (zlen [58; 32]) with 2. apply slice_head. lia.
Qed.

Lemma laid_field h segs s1 i n v pad s2 : laid h segs -> segs = s1 ++ Own i n v pad :: s2 -> fields h !! i = Some (Some (n, v)).
Proof.
  intros HL Hs. destruct (laid_kv _ _ HL _ _ _ _ _ _ Hs) as (kv & Hkv & Hd). unfold fields. rewrite list_lookup_fmap, Hkv. cbn.
  f_equal. apply (describes_field h s1 i n v pad s2); [|exact Hd]. rewrite (laid_buf _ _ HL), Hs. reflexivity.
Qed.

Lemma laid_none h segs i : laid h segs -> (i < length (m_lsxpack h))%nat -> i ∉ owners segs -> fields h !! i = Some None.
Proof.
  intros HL Hi Hno. destruct (lookup_lt_is_Some_2 _ _ Hi) as [kv Hkv]. unfold fields. rewrite list_lookup_fmap, Hkv. cbn. f_equal.
  destruct (laid_free _ _ HL i kv Hkv Hno) as [Hn _]. unfold field_of. rewrite Hn. reflexivity.
Qed.

Lemma laid_at h segs i n v : laid h segs -> fields h !! i = Some (Some (n, v)) -> exists s1 pad s2, segs = s1 ++ Own i n v pad :: s2.
Proof.
  intros HL Hf. destruct (decide (i ∈ owners segs)) as [Hin|Hno].
  - apply owner_own in Hin as (s1 & n' & v' & pad & s2 & Hs). pose proof (laid_field _ _ _ _ _ _ _ _ HL Hs) as Hf'. rewrite Hf in Hf'.
    injection Hf' as <- <-. eauto.
  - exfalso. assert (Hi : (i < length (m_lsxpack h))%nat) by (apply lookup_lt_Some in Hf; unfold fields in Hf; rewrite length_map in Hf; exact Hf).
    pose proof (eq_trans (eq_sym Hf) (laid_none h segs i HL Hi Hno)) as E. discriminate E.
Qed.

(** *** What changes it *)

Lemma upd_kv_lsxpack i f h : (i < length (m_lsxpack h))%nat ->
  exists kv, m_lsxpack h !! i = Some kv /\ getKvPair h (Z.of_nat i) = kv /\ m_lsxpack (upd_kv (Z.of_nat i) f h) = <[i := f kv]> (m_lsxpack h).
Proof.
  intros Hi. destruct (lookup_lt_is_Some_2 _ _ Hi) as [kv Hkv]. exists kv. split; [exact Hkv|].
  unfold getKvPair, upd_kv. cbn [m_lsxpack on_lsxpack]. rewrite !Nat2Z.id. rewrite (nth_lookup_Some _ _ zero_hdr _ Hkv). auto.
Qed.

(** Same positions, same lines. *)
Definition same_place (kv kv' : lsxpack_header) : Prop :=
  name_offset kv' = name_offset kv /\ name_len kv' = name_len kv /\ val_offset kv' = val_offset kv /\ val_len kv' = val_len kv.

Lemma laid_ext h h' segs : laid h segs -> m_buf h' = m_buf h -> hole_flag h' = hole_flag h ->
  Forall2 same_place (m_lsxpack h) (m_lsxpack h') -> laid h' segs.
Proof.
  intros [A B C D E F] Hb Hf Hl. split; rewrite ?Hf; auto.
  - congruence.
  - intros s1 i n v pad s2 Hs. destruct (C _ _ _ _ _ _ Hs) as (kv & Hkv & Hd). destruct (Forall2_lookup_l _ _ _ _ _ Hl Hkv) as (kv' & Hkv' & P).
    exists kv'. split; [exact Hkv'|]. unfold describes, same_place in *. intuition congruence.
  - intros i kv' Hkv' Hno. destruct (Forall2_lookup_r _ _ _ _ _ Hl Hkv') as (kv & Hkv & P). destruct (D i kv Hkv Hno). unfold same_place in P. intuition congruence.
Qed.

Lemma same_place_refl l : Forall2 same_place l l.
Proof. induction l; constructor; [repeat split|assumption]. Qed.

Lemma fields_ext h h' : m_buf h' = m_buf h -> Forall2 same_place (m_lsxpack h) (m_lsxpack h') -> fields h' = fields h.
Proof.
  intros Hb Hl. unfold fields. induction Hl as [|kv kv' l l' (A & B & C & D) _ IH]; [reflexivity|]. cbn. f_equal; [|exact IH].
  unfold field_of, getName, getVal. rewrite A, B, C, D, Hb. reflexivity.
Qed.

Lemma set_chain_place i c h : (i < length (m_lsxpack h))%nat -> Forall2 same_place (m_lsxpack h) (m_lsxpack (upd_kv (Z.of_nat i) (set_chain c) h)).
Proof.
  intros Hi. destruct (upd_kv_lsxpack i (set_chain c) h Hi) as (kv & Hkv & _ & ->). rewrite <- (list_insert_id (m_lsxpack h) i kv Hkv) at 1.
  apply Forall2_insert; [apply same_place_refl|]. repeat split.
Qed.

Lemma laid_new h segs : laid h segs -> laid (newHdrEntry h) segs.
Proof.
  intros [A B C D E F]. split; auto.
  - intros s1 i n v pad s2 Hs. destruct (C _ _ _ _ _ _ Hs) as (kv & Hkv & Hd). exists kv. split; [|exact Hd].
    cbn. apply lookup_app_l_Some, Hkv.
  - intros i kv Hkv Hno. cbn in Hkv. apply lookup_app_Some in Hkv as [Hkv|[_ Hkv]]; [eauto|].
    apply list_lookup_singleton_Some in Hkv as [_ <-]. auto.
Qed.

Lemma owners_lt h segs : laid h segs -> Forall (fun j => (j < length (m_lsxpack h))%nat) (owners segs).
Proof.
  intros HL. apply Forall_forall. intros j Hj. apply owner_own in Hj as (s1 & n & v & pad & s2 & Hs).
  destruct (laid_kv _ _ HL _ _ _ _ _ _ Hs) as (kv & Hkv & _). eapply lookup_lt_Some, Hkv.
Qed.

(** A line is added at the end, for an entry that has none. *)
Lemma laid_append h segs i n v new : laid h segs -> (i < length (m_lsxpack h))%nat -> i ∉ owners segs ->
  describes new (zlen (m_buf h)) n v -> (hole_flag h = false -> Forall (fun j => (j < i)%nat) (owners segs)) ->
  laid (upd_kv (Z.of_nat i) (fun _ => new) (on_buf (fun b => b ++ line n v 0) h)) (segs ++ [Own i n v 0]).
Proof.
  intros HL Hi Hno Hd Hord. pose proof HL as [A B C D E F].
  destruct (upd_kv_lsxpack i (fun _ => new) (on_buf (fun b => b ++ line n v 0) h) Hi) as (kv0 & _ & _ & Hl). cbn in Hl.
  split.
  - cbn. rewrite A, text_app. unfold text at 3. cbn. rewrite app_nil_r. reflexivity.
  - rewrite owners_app. apply NoDup_app. split_and!; [assumption| |cbn; apply NoDup_singleton].
    intros j Hj. cbn. rewrite list_elem_of_singleton. intros ->. contradiction.
  - intros s1 j n' v' pad s2 Hs. change (segs ++ [Own i n v 0]) with (segs ++ Own i n v 0 :: []) in Hs. unfold upd_kv, on_buf in Hl |- *. cbn in Hl |- *. rewrite Hl.
    apply split_twice in Hs as [(-> & [= -> -> -> <-] & <-)|[(m & -> & Hm)|(m & -> & ->)]].
    + exists new. split; [apply list_lookup_insert_eq, Hi|]. rewrite <- A. exact Hd.
    + destruct m; discriminate.
    + destruct (C _ _ _ _ _ _ eq_refl) as (kv & Hkv & Hdk). exists kv. split; [|exact Hdk]. rewrite list_lookup_insert_ne; [exact Hkv|].
      intros ->. apply Hno, own_owner.
  - intros j kv Hkv Hnj. rewrite owners_app in Hnj. unfold upd_kv, on_buf in Hl, Hkv. cbn in Hl, Hkv. rewrite Hl in Hkv.
    assert (j <> i) by (intros ->; apply Hnj, elem_of_app; right; cbn; left). rewrite list_lookup_insert_ne in Hkv by congruence.
    apply (D j kv Hkv). intros Hj. apply Hnj, elem_of_app. left. exact Hj.
  - intros t Ht. apply elem_of_app in Ht as [Ht|Ht]; [exact (E t Ht)|]. apply list_elem_of_singleton in Ht. discriminate.
  - intros Hf. rewrite owners_app. specialize (Hord Hf). specialize (F Hf). clear -Hord F. induction F as [|j l _ IH Hj]; cbn; [repeat constructor|].
    inversion Hord; subst. constructor; [apply IH; assumption|]. apply Forall_app. split; [exact Hj|repeat constructor; assumption].
Qed.

(** An entry gives up its line. *)
Lemma laid_kill h s1 i n v pad s2 : laid h (s1 ++ Own i n v pad :: s2) ->
  laid (has_hole (upd_kv (Z.of_nat i) (fun _ => zero_hdr) h)) (s1 ++ Hole (line n v pad) :: s2).
Proof.
  intros HL. pose proof HL as [A B C D E F].
  assert (Hi : (i < length (m_lsxpack h))%nat) by (destruct (C _ _ _ _ _ _ eq_refl) as (kv & Hkv & _); eapply lookup_lt_Some, Hkv).
  destruct (upd_kv_lsxpack i (fun _ => zero_hdr) h Hi) as (kv0 & _ & _ & Hl). 
  assert (Hsub : owners (s1 ++ Hole (line n v pad) :: s2) = owners s1 ++ owners s2) by (rewrite owners_app; reflexivity).
  rewrite owners_app in B. change (owners (Own i n v pad :: s2)) with (i :: owners s2) in B.
  assert (Hni : i ∉ owners s1 ++ owners s2) by (apply NoDup_app in B as (_ & B1 & B2); apply NoDup_cons in B2 as [B2 _]; intros H; apply elem_of_app in H as [H|H]; [apply (B1 i H); left|contradiction]).
  assert (Hfl : hole_flag (has_hole (upd_kv (Z.of_nat i) (fun _ => zero_hdr) h)) = true).
  { unfold hole_flag, has_hole. cbn [m_flags]. rewrite Z.land_lor_distr_l. change (Z.land HRH_F_HAS_HOLE HRH_F_HAS_HOLE) with 1.
    apply negb_true_iff, Z.eqb_neq. intros H. apply Z.lor_eq_0_iff in H as [_ H]. discriminate. }
  split.
  - cbn. rewrite A, !text_app. reflexivity.
  - rewrite Hsub. apply NoDup_app in B as (? & B1 & B2). apply NoDup_cons in B2 as [? ?]. apply NoDup_app. split_and!; auto.
    intros j Hj Hj2. apply (B1 j Hj). right. exact Hj2.
  - intros t1 j n' v' pad' t2 Hs. cbn [m_lsxpack has_hole]. rewrite Hl.
    assert (Hj : j <> i) by (intros ->; apply Hni; rewrite <- Hsub, Hs; apply own_owner). rewrite list_lookup_insert_ne by congruence.
    apply split_twice in Hs as [(_ & [=] & _)|[(m & -> & ->)|(m & -> & ->)]].
    + destruct (C (s1 ++ Own i n v pad :: m) j n' v' pad' t2) as (kv & Hkv & Hdk); [rewrite <- app_assoc; reflexivity|]. exists kv. split; [exact Hkv|].
      rewrite text_app in *. exact Hdk.
    + destruct (C t1 j n' v' pad' (m ++ Own i n v pad :: s2)) as (kv & Hkv & Hdk); [rewrite <- app_assoc; reflexivity|]. eauto.
  - intros j kv Hkv Hnj. cbn [m_lsxpack has_hole] in Hkv. rewrite Hl in Hkv. destruct (decide (j = i)) as [->|Hj].
    + rewrite list_lookup_insert_eq in Hkv by exact Hi. injection Hkv as <-. auto.
    + rewrite list_lookup_insert_ne in Hkv by congruence. apply (D j kv Hkv). rewrite Hsub in Hnj. rewrite owners_app. change (owners (Own i n v pad :: s2)) with (i :: owners s2).
      intros H. apply Hnj. apply elem_of_app. apply elem_of_app in H as [?|H]; [auto|]. apply elem_of_cons in H as [?|?]; [congruence|auto].
  - intros. exact Hfl.
  - rewrite Hfl. discriminate.
Qed.

Lemma line_shorter n (v v' : list Z) pad : zlen v' <= zlen v ->
  line n v' (pad + Z.to_nat (zlen v - zlen v')) = n ++ [58; 32] ++ (v' ++ repeat 32 (Z.to_nat (zlen v - zlen v'))) ++ repeat 32 pad ++ [13; 10].
Proof. intros. unfold line. rewrite Nat.add_comm, repeat_app, <- !app_assoc. reflexivity. Qed.

Lemma laid_replace h s1 i n v pad s2 v' : laid h (s1 ++ Own i n v pad :: s2) -> zlen (v' : list Z) <= zlen v ->
  laid (replaceHeader (Z.of_nat i) v' h) (s1 ++ Own i n v' (pad + Z.to_nat (zlen v - zlen v')) :: s2).
Proof.
  intros HL Hle. pose proof HL as [A B C D E F]. destruct (C _ _ _ _ _ _ eq_refl) as (kv & Hkv & Hd). pose proof (lookup_lt_Some _ _ _ Hkv) as Hi.
  destruct (upd_kv_lsxpack i (set_vlen (zlen v')) h Hi) as (kv0 & Hkv0 & Hget & Hl). rewrite Hkv in Hkv0. injection Hkv0 as <-.
  set (own' := Own i n v' (pad + Z.to_nat (zlen v - zlen v'))).
  assert (Hown : owners (s1 ++ own' :: s2) = owners (s1 ++ Own i n v pad :: s2)) by (rewrite !owners_app; reflexivity).
  destruct Hd as (Ho & Hn & Hvo & Hvl & Hp). pose proof (zlen_nonneg v'). pose proof (zlen_nonneg v).
  assert (Hbuf : m_buf (replaceHeader (Z.of_nat i) v' h) = text (s1 ++ own' :: s2)).
  { unfold replaceHeader. cbn [m_buf upd_kv on_lsxpack on_buf]. rewrite Hget, A, Hvo, Hvl, !text_app.
    change (text (own' :: s2)) with (line n v' (pad + Z.to_nat (zlen v - zlen v')) ++ text s2). rewrite line_shorter by exact Hle.
    change (text (Own i n v pad :: s2)) with (line n v pad ++ text s2). unfold line.
    replace (text s1 ++ (n ++ [58; 32] ++ v ++ repeat 32 pad ++ [13; 10]) ++ text s2) with ((text s1 ++ n ++ [58; 32]) ++ v ++ (repeat 32 pad ++ [13; 10]) ++ text s2) by (rewrite <- !app_assoc; reflexivity).
    replace (zlen (text s1) + zlen n + 2) with (zlen (text s1 ++ n ++ [58; 32])) by (rewrite !zlen_app; change (zlen [58; 32]) with 2; lia).
    rewrite store_mid; [rewrite <- !app_assoc; reflexivity|]. rewrite zlen_app. unfold zlen at 2. rewrite repeat_length. lia. }
  assert (Hlx : m_lsxpack (replaceHeader (Z.of_nat i) v' h) = <[i := set_vlen (zlen v') kv]> (m_lsxpack h)) by exact Hl.
  split; [exact Hbuf|rewrite Hown; exact B| | | |].
  - intros t1 j n' w pad' t2 Hs. rewrite Hlx. apply split_twice in Hs as [(-> & [= -> -> -> _] & _)|[(m & -> & ->)|(m & -> & ->)]].
    + exists (set_vlen (zlen w) kv). split; [apply list_lookup_insert_eq, Hi|]. unfold describes. cbn. auto.
    + destruct (C (s1 ++ Own i n v pad :: m) j n' w pad' t2) as (kvj & Hkvj & Hdk); [rewrite <- app_assoc; reflexivity|]. exists kvj. split.
      * rewrite list_lookup_insert_ne; [exact Hkvj|]. intros ->. clear -B. rewrite owners_app in B. apply NoDup_app in B as (_ & _ & B).
        cbn in B. apply NoDup_cons in B as [B _]. apply B. apply own_owner.
      * replace (zlen (text (s1 ++ own' :: m))) with (zlen (text (s1 ++ Own i n v pad :: m))); [exact Hdk|].
        rewrite !text_app. change (text (own' :: m)) with (line n v' (pad + Z.to_nat (zlen v - zlen v')) ++ text m).
        change (text (Own i n v pad :: m)) with (line n v pad ++ text m). rewrite !zlen_app, !zlen_line. lia.
    + destruct (C t1 j n' w pad' (m ++ Own i n v pad :: s2)) as (kvj & Hkvj & Hdk); [rewrite <- app_assoc; reflexivity|]. exists kvj. split; [|exact Hdk].
      rewrite list_lookup_insert_ne; [exact Hkvj|]. intros ->. clear -B. rewrite <- app_assoc, owners_app in B. apply NoDup_app in B as (_ & _ & B).
      cbn in B. apply NoDup_cons in B as [B _]. apply B. apply own_owner.
  - intros j kvj Hkvj Hno. rewrite Hown in Hno. rewrite Hlx in Hkvj. rewrite list_lookup_insert_ne in Hkvj; [exact (D j kvj Hkvj Hno)|].
    intros ->. apply Hno, own_owner.
  - intros t Ht. apply (E t). apply elem_of_app in Ht as [Ht|Ht]; apply elem_of_app; [auto|]. right. apply elem_of_cons in Ht as [Ht|Ht]; [discriminate|]. right. exact Ht.
  - intros Hf. rewrite Hown. exact (F Hf).
Qed.

(** What the entries say after each of these. *)
Lemma fields_length h : length (fields h) = length (m_lsxpack h).
Proof. apply length_map. Qed.

(** Two states whose lines are the same but for entry [i] say the same but for it. *)
Lemma fields_but h h' segs segs' i : laid h segs -> laid h' segs' -> length (m_lsxpack h') = length (m_lsxpack h) ->
  (forall j n v, j <> i -> (exists s1 pad s2, segs = s1 ++ Own j n v pad :: s2) -> exists s1 pad s2, segs' = s1 ++ Own j n v pad :: s2) ->
  (forall j, j <> i -> j ∈ owners segs' -> j ∈ owners segs) ->
  forall o, fields h' !! i = Some o -> fields h' = <[i := o]> (fields h).
Proof.
  intros HL HL' Hlen Hsub Hsup o Ho. apply list_eq. intros j. destruct (decide (j = i)) as [->|Hne].
  - rewrite Ho, list_lookup_insert_eq; [reflexivity|]. apply lookup_lt_Some in Ho. rewrite fields_length in *. lia.
  - rewrite list_lookup_insert_ne by congruence. destruct (fields h !! j) as [[[n v]|]|] eqn:Ej.
    + destruct (Hsub j n v Hne (laid_at _ _ _ _ _ HL Ej)) as (t1 & pad & t2 & Hs). exact (laid_field _ _ _ _ _ _ _ _ HL' Hs).
    + assert (Hj : j ∉ owners segs). { intros Hj. apply owner_own in Hj as (t1 & n & v & pad & t2 & Hs). pose proof (eq_trans (eq_sym Ej) (laid_field _ _ _ _ _ _ _ _ HL Hs)) as X. discriminate X. }
      apply (laid_none h' segs'); [exact HL'| |intros H; apply Hj, Hsup; assumption].
      apply lookup_lt_Some in Ej. rewrite fields_length in Ej. lia.
    + apply lookup_ge_None in Ej. rewrite fields_length in Ej. apply lookup_ge_None. rewrite fields_length. lia.
Qed.

Lemma append_fields h segs i n v new : laid h segs -> (i < length (m_lsxpack h))%nat -> i ∉ owners segs ->
  describes new (zlen (m_buf h)) n v -> (hole_flag h = false -> Forall (fun j => (j < i)%nat) (owners segs)) ->
  let h' := upd_kv (Z.of_nat i) (fun _ => new) (on_buf (fun b => b ++ line n v 0) h) in
  laid h' (segs ++ [Own i n v 0]) /\ fields h' = <[i := Some (n, v)]> (fields h).
Proof.
  intros HL Hi Hno Hd Hord h'. pose proof (laid_append _ _ _ _ _ _ HL Hi Hno Hd Hord) as HL'. fold h' in HL'. split; [exact HL'|].
  apply (fields_but h h' segs (segs ++ [Own i n v 0]) i HL HL').
  - subst h'. unfold upd_kv, on_buf. cbn. apply length_insert.
  - intros j m w _ (t1 & pad & t2 & ->). exists t1, pad, (t2 ++ [Own i n v 0]). rewrite <- app_assoc. reflexivity.
  - intros j Hj Hin. rewrite owners_app in Hin. apply elem_of_app in Hin as [?|Hin]; [assumption|]. cbn in Hin. apply list_elem_of_singleton in Hin. congruence.
  - exact (laid_field _ _ segs i n v 0%nat [] HL' eq_refl).
Qed.

Lemma owners_mid s1 x s2 j : owner x <> Some j -> j ∈ owners (s1 ++ x :: s2) -> j ∈ owners s1 ++ owners s2.
Proof.
  intros Hx. rewrite owners_app. intros H. apply elem_of_app. apply elem_of_app in H as [?|H]; [auto|]. unfold owners in H. cbn [omap list_omap] in H.
  destruct (owner x) as [k|]; [|auto]. apply elem_of_cons in H as [->|?]; [congruence|auto].
Qed.

Lemma kill_fields h s1 i n v pad s2 : laid h (s1 ++ Own i n v pad :: s2) ->
  let h' := has_hole (upd_kv (Z.of_nat i) (fun _ => zero_hdr) h) in
  laid h' (s1 ++ Hole (line n v pad) :: s2) /\ fields h' = <[i := None]> (fields h) /\ i ∉ owners (s1 ++ Hole (line n v pad) :: s2).
Proof.
  intros HL h'. pose proof (laid_kill _ _ _ _ _ _ _ HL) as HL'. fold h' in HL'.
  assert (Hno : i ∉ owners (s1 ++ Hole (line n v pad) :: s2)).
  { pose proof (laid_nodup _ _ HL) as B. rewrite owners_app in B. cbn in B. apply NoDup_app in B as (_ & B1 & B2). apply NoDup_cons in B2 as [B2 _].
    rewrite owners_app. intros H. apply elem_of_app in H as [H|H]; [apply (B1 i H); left|apply B2; exact H]. }
  assert (Hlen : length (m_lsxpack h') = length (m_lsxpack h)) by (subst h'; unfold upd_kv; cbn; apply length_insert).
  split; [exact HL'|]. split; [|exact Hno].
  apply (fields_but h h' _ _ i HL HL' Hlen).
  - intros j m w Hj (t1 & pd & t2 & Hs). apply split_twice in Hs as [(_ & [= -> _ _ _] & _)|[(k & -> & ->)|(k & -> & ->)]]; [congruence| |].
    + exists (s1 ++ Hole (line n v pad) :: k), pd, t2. rewrite <- app_assoc. reflexivity.
    + exists t1, pd, (k ++ Hole (line n v pad) :: s2). rewrite <- app_assoc. reflexivity.
  - intros j Hj Hin. apply owners_mid in Hin; [|discriminate]. rewrite owners_app. apply elem_of_app. apply elem_of_app in Hin as [?|?]; [auto|right; right; assumption].
  - apply (laid_none h' _ i HL'); [|exact Hno]. rewrite Hlen. destruct (laid_kv _ _ HL _ _ _ _ _ _ eq_refl) as (kv & Hkv & _). eapply lookup_lt_Some, Hkv.
Qed.

Lemma replace_fields h s1 i n v pad s2 v' : laid h (s1 ++ Own i n v pad :: s2) -> zlen (v' : list Z) <= zlen v ->
  let h' := replaceHeader (Z.of_nat i) v' h in
  laid h' (s1 ++ Own i n v' (pad + Z.to_nat (zlen v - zlen v')) :: s2) /\ fields h' = <[i := Some (n, v')]> (fields h).
Proof.
  intros HL Hle h'. pose proof (laid_replace _ _ _ _ _ _ _ _ HL Hle) as HL'. fold h' in HL'. split; [exact HL'|].
  apply (fields_but h h' _ _ i HL HL').
  - subst h'. unfold replaceHeader, upd_kv. cbn. apply length_insert.
  - intros j m w Hj (t1 & pd & t2 & Hs). apply split_twice in Hs as [(_ & [= -> _ _ _] & _)|[(k & -> & ->)|(k & -> & ->)]]; [congruence| |].
    + eexists (s1 ++ _ :: k), pd, t2. rewrite <- app_assoc. reflexivity.
    + eexists t1, pd, (k ++ _ :: s2). rewrite <- app_assoc. reflexivity.
  - intros j Hj Hin. apply owners_mid in Hin; [|cbn; congruence]. rewrite owners_app. apply elem_of_app. apply elem_of_app in Hin as [?|?]; [auto|right; right; assumption].
  - exact (laid_field _ _ s1 i n v' _ s2 HL' eq_refl).
Qed.

Lemma fields_new h : fields (newHdrEntry h) = fields h ++ [None].
Proof. unfold fields. cbn. rewrite map_app. reflexivity. Qed.

(** The line of an entry moves to the end. *)
Lemma move_fields h s1 i n v pad s2 new n' v' : laid h (s1 ++ Own i n v pad :: s2) -> describes new (zlen (m_buf h)) n' v' ->
  let h' := upd_kv (Z.of_nat i) (fun _ => new) (on_buf (fun b => b ++ line n' v' 0) (has_hole h)) in
  laid h' ((s1 ++ Hole (line n v pad) :: s2) ++ [Own i n' v' 0]) /\ fields h' = <[i := Some (n', v')]> (fields h).
Proof.
  intros HL Hd h'. destruct (kill_fields _ _ _ _ _ _ _ HL) as (HK & HF & Hno). set (hk := has_hole (upd_kv (Z.of_nat i) (fun _ => zero_hdr) h)) in *.
  assert (Hi : (i < length (m_lsxpack h))%nat) by (destruct (laid_kv _ _ HL _ _ _ _ _ _ eq_refl) as (kv & Hkv & _); eapply lookup_lt_Some, Hkv).
  assert (Hfl : hole_flag hk = true) by (apply (laid_hole _ _ HK (line n v pad)), elem_of_app; right; left).
  assert (E : h' = upd_kv (Z.of_nat i) (fun _ => new) (on_buf (fun b => b ++ line n' v' 0) hk)).
  { subst h' hk. unfold upd_kv, has_hole, on_buf, on_lsxpack. cbn. rewrite !Nat2Z.id, list_insert_insert_eq. reflexivity. }
  rewrite E. destruct (append_fields hk _ i n' v' new HK) as [H1 H2].
  - subst hk. unfold upd_kv. cbn. rewrite length_insert. exact Hi.
  - exact Hno.
  - exact Hd.
  - rewrite Hfl. discriminate.
  - split; [exact H1|]. rewrite H2, HF. apply list_insert_insert_eq.
Qed.

(** ** The state that the operations keep *)

Record good (h : headers) : Prop := Good {
  good_laid : exists segs, laid h segs;
  good_names : forall i n v, fields h !! i = Some (Some (n, v)) -> name_ok n = true /\ lower n = n /\ clean v = true;
  good_chain : forall i n v, fields h !! i = Some (Some (n, v)) -> chain_next (getKvPair h (Z.of_nat i)) = next_at n i (fields h);
  good_index : length (m_KVPairindex h) = 37%nat /\ forall idx, 0 <= idx < H_HEADER_END ->
    znth (m_KVPairindex h) idx = match first_at (lower (header_name idx)) (fields h) with Some j => Z.of_nat j | None => HRH_IDX_NONE end }.

Lemma good_reset flag : Z.land flag HRH_F_HAS_HOLE = 0 -> good (reset flag).
Proof.
  intros Hf. split.
  - exists []. split; try reflexivity; [constructor|intros [|]; discriminate| |intros t Ht; apply elem_of_nil in Ht; contradiction|repeat constructor].
    intros i kv Hkv _. cbn in Hkv. apply list_lookup_singleton_Some in Hkv as [_ <-]. auto.
  - intros i n v H. cbn in H. apply list_lookup_singleton_Some in H as [_ H]. discriminate.
  - intros i n v H. cbn in H. apply list_lookup_singleton_Some in H as [_ H]. discriminate.
  - split; [reflexivity|]. intros idx Hi. cbn [fields reset m_lsxpack map first_at named].
    change (named (lower (header_name idx)) (field_of (reset flag) zero_hdr)) with false. cbn.
    apply Z.eqb_eq. apply (range_forall (fun idx => znth (repeat HRH_IDX_NONE 37) idx =? HRH_IDX_NONE) 0 37); [vm_compute; reflexivity|]. unfold H_HEADER_END in Hi. lia.
Qed.

(** The search by name. *)
Lemma find_kv_ok h n : forall l i,
  Forall (fun kv => match field_of h kv with Some (m, _) => name_len kv = zlen m /\ lower m = m | None => name_len kv = 0 end) l -> 0 < zlen n ->
  find_kv l (m_buf h) n i = match first_at (lower n) (map (field_of h) l) with Some j => i + Z.of_nat j | None => -1 end.
Proof.
  induction l as [|kv l IH]; intros i Hl Hn; [reflexivity|]. apply Forall_cons in Hl as [Hkv Hl]. cbn [find_kv map first_at].
  specialize (IH (i + 1) Hl Hn). set (k := find_kv l (m_buf h) n (i + 1)) in *. clearbody k.
  assert (E : (name_len kv =? zlen n) && strcaseeq n (slice (name_offset kv) (name_offset kv + name_len kv) (m_buf h)) = named (lower n) (field_of h kv)).
  { unfold field_of in Hkv |- *. destruct (Z.gtb_spec (name_len kv) 0).
    - destruct Hkv as [Hz Hlow]. cbn [named]. unfold strcaseeq. change (slice (name_offset kv) (name_offset kv + name_len kv) (m_buf h)) with (getName h kv).
      fold (lower n). fold (lower (getName h kv)). rewrite Hlow.
      destruct (bytes_eqb (getName h kv) (lower n)) eqn:E1.
      + apply bytes_eqb_eq in E1. rewrite E1, (proj2 (bytes_eqb_eq _ _) eq_refl). rewrite Hz, E1, zlen_lower, Z.eqb_refl. reflexivity.
      + destruct (bytes_eqb (lower n) (getName h kv)) eqn:E2; [|apply andb_false_r]. apply bytes_eqb_eq in E2. rewrite E2, (proj2 (bytes_eqb_eq _ _) eq_refl) in E1. discriminate.
    - rewrite Hkv, (proj2 (Z.eqb_neq 0 (zlen n))) by lia. reflexivity. }
  rewrite E. destruct (named _ _); [lia|]. rewrite IH. destruct (first_at _ _); cbn; lia.
Qed.

Lemma good_fits h : good h ->
  Forall (fun kv => match field_of h kv with Some (m, _) => name_len kv = zlen m /\ lower m = m | None => name_len kv = 0 end) (m_lsxpack h).
Proof.
  intros [[segs HL] Hn _ _]. apply Forall_lookup. intros i kv Hkv.
  assert (Hf : fields h !! i = Some (field_of h kv)) by (unfold fields; rewrite list_lookup_fmap, Hkv; reflexivity).
  destruct (field_of h kv) as [[n v]|] eqn:E.
  - destruct (Hn i n v Hf) as (_ & Hlow & _). split; [|exact Hlow]. destruct (laid_at _ _ _ _ _ HL Hf) as (s1 & pad & s2 & Hs).
    destruct (laid_kv _ _ HL _ _ _ _ _ _ Hs) as (kv' & Hkv' & _ & Hz & _). congruence.
  - destruct (decide (i ∈ owners segs)) as [Hin|Hno]; [|exact (proj1 (laid_free _ _ HL i kv Hkv Hno))].
    apply owner_own in Hin as (s1 & n & v & pad & s2 & Hs). pose proof (eq_trans (eq_sym Hf) (laid_field _ _ _ _ _ _ _ _ HL Hs)) as X. discriminate X.
Qed.

Lemma getHeaderKvOrder_ok h n : good h -> 0 < zlen n ->
  getHeaderKvOrder h n = match first_at (lower n) (fields h) with Some j => Z.of_nat j | None => -1 end.
Proof.
  intros HG Hn. unfold getHeaderKvOrder. rewrite (find_kv_ok h n (m_lsxpack h) 0 (good_fits h HG) Hn). fold (fields h).
  destruct (first_at _ _); [lia|reflexivity].
Qed.

(** *** How the state goes on *)

Definition kv_next (h : headers) (j : nat) : Z := chain_next (getKvPair h (Z.of_nat j)).

Lemma good_update h h' i n v v' : good h -> fields h !! i = Some (Some (n, v)) -> fields h' = <[i := Some (n, v')]> (fields h) ->
  (exists segs, laid h' segs) -> clean v' = true -> (forall j, kv_next h' j = kv_next h j) -> m_KVPairindex h' = m_KVPairindex h -> good h'.
Proof.
  intros [_ Hn Hc [Hl Hi]] Hf HF HL Hv Hk HK.
  assert (Hnm : forall m, named m (Some (n, v')) = named m (Some (n, v))) by reflexivity.
  split; [exact HL| | |].
  - intros j m w Hj. rewrite HF in Hj. apply list_lookup_insert_Some in Hj as [(-> & [= -> ->] & _)|[_ Hj]]; [|exact (Hn j m w Hj)].
    destruct (Hn j m v Hf) as (? & ? & _). auto.
  - intros j m w Hj. rewrite HF. rewrite (next_at_insert m j _ i _ _ Hf (Hnm m)). change (kv_next h' j = next_at m j (fields h)). rewrite Hk.
    rewrite HF in Hj. apply list_lookup_insert_Some in Hj as [(-> & [= -> ->] & _)|[_ Hj]]; [exact (Hc j m v Hf)|exact (Hc j m w Hj)].
  - rewrite HK. split; [exact Hl|]. intros idx Hidx. rewrite HF, (first_at_insert _ _ _ _ _ Hf (Hnm _)). apply Hi, Hidx.
Qed.

Lemma good_append h h' n v : good h -> fields h' = fields h ++ [Some (n, v)] -> (exists segs, laid h' segs) ->
  name_ok n = true -> lower n = n -> clean v = true ->
  (forall j m w, fields h !! j = Some (Some (m, w)) ->
    kv_next h' j = if bytes_eqb m n && (kv_next h j =? -1) then Z.of_nat (length (fields h)) else kv_next h j) ->
  kv_next h' (length (fields h)) = -1 ->
  length (m_KVPairindex h') = 37%nat ->
  (forall idx, 0 <= idx < H_HEADER_END -> znth (m_KVPairindex h') idx =
    match first_at (lower (header_name idx)) (fields h), bytes_eqb n (lower (header_name idx)) with
    | None, true => Z.of_nat (length (fields h)) | _, _ => znth (m_KVPairindex h) idx end) ->
  good h'.
Proof.
  intros [_ Hn Hc [_ Hi]] HF HL Hok Hlow Hv Hk Hlast HK1 HK.
  assert (Hlk : forall j m w, fields h' !! j = Some (Some (m, w)) -> fields h !! j = Some (Some (m, w)) \/ (j = length (fields h) /\ m = n /\ w = v)).
  { intros j m w Hj. rewrite HF in Hj. apply lookup_app_Some in Hj as [Hj|[Hge Hj]]; [auto|]. apply list_lookup_singleton_Some in Hj as [Hz [= <- <-]]. right. split_and!; auto; lia. }
  split; [exact HL| | |].
  - intros j m w Hj. destruct (Hlk j m w Hj) as [Hj'|(_ & -> & ->)]; [exact (Hn j m w Hj')|auto].
  - intros j m w Hj. change (kv_next h' j = next_at m j (fields h')). rewrite HF. destruct (Hlk j m w Hj) as [Hj'|(-> & -> & ->)].
    + rewrite (Hk j m w Hj'), (Hc j m w Hj' : kv_next h j = _). rewrite next_at_app by (eapply lookup_lt_Some, Hj'). cbn [named].
      replace (bytes_eqb n m) with (bytes_eqb m n).
      2:{ destruct (bytes_eqb m n) eqn:E1, (bytes_eqb n m) eqn:E2; try reflexivity; [apply bytes_eqb_eq in E1|apply bytes_eqb_eq in E2]; subst; rewrite (proj2 (bytes_eqb_eq _ _) eq_refl) in *; discriminate. }
      destruct (bytes_eqb m n), (Z.eqb_spec (next_at m j (fields h)) (-1)); cbn [andb]; congruence.
    + rewrite Hlast. unfold next_at. rewrite drop_ge by (rewrite length_app; cbn; lia). reflexivity.
  - split; [exact HK1|]. intros idx Hidx. rewrite (HK idx Hidx), HF, first_at_app. rewrite Hi by exact Hidx. cbn [first_at named].
    destruct (first_at (lower (header_name idx)) (fields h)); [reflexivity|]. destruct (bytes_eqb n (lower (header_name idx))); cbn; [f_equal; lia|reflexivity].
Qed.

(** ** The abstract list of fields *)

Definition lines (h : headers) : list field := omap id (fields h).

Definition values (n : list Z) (L : list field) : list (list Z) := map snd (filter (fun f => f.1 = n) L).
Fixpoint set_first (n v : list Z) (L : list field) : list field :=
  match L with
  | [] => []
  | (m, w) :: L => if bytes_eqb m n then (n, v) :: L else (m, w) :: set_first n v L
  end.

Lemma values_first n F : head (values n (omap id F)) = match first_at n F with Some i => match F !! i with Some (Some (_, v)) => Some v | _ => None end | None => None end.
Proof.
  induction F as [|[[m w]|] F IH]; [reflexivity| |].
  - cbn [omap list_omap id first_at named]. unfold values in *. rewrite filter_cons. cbn [fst]. destruct (bytes_eqb m n) eqn:E.
    + apply bytes_eqb_eq in E. rewrite decide_True by exact E. subst. reflexivity.
    + rewrite decide_False by (intros ->; rewrite (proj2 (bytes_eqb_eq n n) eq_refl) in E; discriminate). rewrite IH. destruct (first_at n F); reflexivity.
  - cbn. unfold values in *. rewrite IH. destruct (first_at n F); reflexivity.
Qed.

Lemma set_first_omap n v F i w : first_at n F = Some i -> F !! i = Some (Some (n, w)) -> omap id (<[i := Some (n, v)]> F) = set_first n v (omap id F).
Proof.
  revert i. induction F as [|o F IH]; intros i; [discriminate|]. cbn [first_at]. destruct (named n o) eqn:E.
  - intros [= <-] Hw. cbn in Hw. injection Hw as ->. cbn. rewrite (proj2 (bytes_eqb_eq n n) eq_refl). reflexivity.
  - destruct (first_at n F) as [j|] eqn:Ej; [|discriminate]. intros [= <-] Hw. cbn in Hw. destruct o as [[m u]|]; cbn [list_insert insert omap list_omap id].
    + cbn [named] in E. cbn [set_first]. rewrite E. f_equal. exact (IH j eq_refl Hw).
    + exact (IH j eq_refl Hw).
Qed.

Lemma values_length n F i : first_at n F = Some i -> (length (values n (omap id F)) <= 1)%nat -> next_at n i F = -1.
Proof.
  unfold next_at. intros Hi Hlen. destruct (first_at n (drop (S i) F)) as [j|] eqn:Ej; [|reflexivity]. exfalso.
  apply first_at_Some in Hi as [v Hv]. apply first_at_Some in Ej as [w Hw]. rewrite lookup_drop in Hw.
  rewrite <- (take_drop_middle F i _ Hv), omap_app in Hlen. unfold values in Hlen. rewrite filter_app, map_app, length_app in Hlen.
  cbn [omap list_omap id] in Hlen. rewrite filter_cons, decide_True in Hlen by reflexivity. cbn [map length] in Hlen.
  assert (Hin : Some (n, w) ∈ drop (S i) F) by (apply list_elem_of_lookup; exists j; rewrite lookup_drop; exact Hw).
  assert (Hin2 : (n, w) ∈ filter (fun f : field => f.1 = n) (omap id (drop (S i) F))) by (apply list_elem_of_filter; split; [reflexivity|]; apply list_elem_of_omap; eauto).
  destruct (filter _ (omap id (drop (S i) F))); [apply elem_of_nil in Hin2; contradiction|]. cbn in Hlen. lia.
Qed.

(** ** Adding *)

Lemma header_index i : 0 <= i < H_HEADER_END -> getIndex (header_name i) = i.
Proof.
  intros Hi. apply Z.eqb_eq. apply (range_forall (fun i => getIndex (header_name i) =? i) 0 37); [vm_compute; reflexivity|]. unfold H_HEADER_END in Hi. lia.
Qed.

Lemma name_ok_pos n : name_ok n = true -> 0 < zlen n.
Proof. unfold name_ok. lia. Qed.

Lemma name_ok_lower n : name_ok n = true -> name_ok (lower n) = true.
Proof.
  unfold name_ok. rewrite zlen_lower. intros H. apply andb_true_iff in H as [H H3]. apply andb_true_iff in H as [H1 H2].
  rewrite H1. cbn [andb]. apply andb_true_iff. split.
  - apply forallb_forall. intros c Hc. apply in_map_iff in Hc as (d & <- & Hd). pose proof (proj1 (forallb_forall _ _) H2 d Hd) as H. cbv beta in H. unfold tolower. destruct ((65 <=? d) && (d <=? 90)) eqn:E; lia.
  - destruct n as [|c n]; [cbn in H1; discriminate|]. change (znth (lower (c :: n)) 0) with (tolower c). rewrite lor_tolower. exact H3.
Qed.

Lemma kv_next_lookup h j kv : m_lsxpack h !! j = Some kv -> kv_next h j = chain_next kv.
Proof. intros H. unfold kv_next, getKvPair. rewrite Nat2Z.id, (nth_lookup_Some _ _ zero_hdr _ H). reflexivity. Qed.

Lemma chain_link k : 0 <= k < 32767 -> chain_next (set_chain (Z.lor (k + 1) HIGHEST_BIT_NUMBER) zero_hdr) = k.
Proof.
  intros Hk. unfold chain_next. cbn [set_chain chain_next_idx]. rewrite Z.land_lor_distr_l. change (Z.land HIGHEST_BIT_NUMBER BYPASS_HIGHEST_BIT_MASK) with 0.
  rewrite Z.lor_0_r. change BYPASS_HIGHEST_BIT_MASK with (Z.ones 15). rewrite Z.land_ones, Z.mod_small by lia. lia.
Qed.

(** The last entry of the chain is found. *)
Lemma walk_ok h k : (forall j m w, fields h !! j = Some (Some (m, w)) -> kv_next h j = next_at m j (fields h)) ->
  forall fuel i n v, fields h !! i = Some (Some (n, v)) -> (length (fields h) - i <= fuel)%nat ->
  exists last w, fields h !! last = Some (Some (n, w)) /\ next_at n last (fields h) = -1 /\ (i <= last)%nat /\
    appendKvPairIdx fuel (Z.of_nat i) k h = upd_kv (Z.of_nat last) (set_chain (Z.lor (k + 1) HIGHEST_BIT_NUMBER)) h.
Proof.
  intros Hc. induction fuel as [|fuel IH]; intros i n v Hi Hf; pose proof (lookup_lt_Some _ _ _ Hi) as Hlt; [lia|].
  cbn [appendKvPairIdx]. change (chain_next (getKvPair h (Z.of_nat i))) with (kv_next h i). rewrite (Hc i n v Hi).
  destruct (next_at_end n i (fields h)) as [E|[j E]]; rewrite E.
  - exists i, v. cbn. auto.
  - destruct (Z.gtb_spec (Z.of_nat j + 1) 0); [|lia]. apply next_at_Some in E as (Hij & w & Hj).
    destruct (IH j n w Hj ltac:(lia)) as (last & u & ? & ? & ? & ?). exists last, u. split_and!; auto. lia.
Qed.

(** The entry that [add] takes. *)
Lemma add_entry_ok h pName : good h -> name_ok pName = true -> hdr_size h < 32767 ->
  match first_at (lower pName) (fields h) with
  | Some i => add_entry (getIndex pName) pName h = (Z.of_nat i, h)
  | None => exists ks, add_entry (getIndex pName) pName h = (hdr_size h, add_unique 1 (newHdrEntry (if getIndex pName =? H_HEADER_END then h else set_index (getIndex pName) (hdr_size h) h))) /\
      ks = m_KVPairindex (if getIndex pName =? H_HEADER_END then h else set_index (getIndex pName) (hdr_size h) h) /\
      length ks = 37%nat /\ forall idx, 0 <= idx < H_HEADER_END -> znth ks idx =
        match first_at (lower (header_name idx)) (fields h), bytes_eqb (lower pName) (lower (header_name idx)) with
        | None, true => hdr_size h | _, _ => znth (m_KVPairindex h) idx end
  end.
Proof.
  intros HG Hok Hsz. pose proof (getIndex_range pName) as Hr. unfold add_entry. pose proof HG as [_ _ _ [Hkl Hki]].
  assert (Hlt : forall i, first_at (lower pName) (fields h) = Some i -> Z.of_nat i < hdr_size h).
  { intros i Hi. apply first_at_Some in Hi as [v Hv]. apply lookup_lt_Some in Hv. rewrite fields_length in Hv. unfold hdr_size, zlen. lia. }
  destruct (Z.eqb_spec (getIndex pName) H_HEADER_END) as [Eend|Hne].
  - rewrite (getHeaderKvOrder_ok h pName HG (name_ok_pos _ Hok)). destruct (first_at (lower pName) (fields h)) as [i|] eqn:Ef.
    + specialize (Hlt i eq_refl). destruct (Z.eqb_spec (Z.of_nat i) (-1)); [lia|]. cbn [negb]. rewrite (proj2 (Z.eqb_neq _ _)) by lia. reflexivity.
    + exists (m_KVPairindex h). cbn [Z.eqb negb]. rewrite Z.eqb_refl. split; [reflexivity|]. split; [reflexivity|]. split; [exact Hkl|]. intros idx Hidx.
      destruct (first_at (lower (header_name idx)) (fields h)); [reflexivity|]. destruct (bytes_eqb (lower pName) (lower (header_name idx))) eqn:E; [|reflexivity].
      apply bytes_eqb_eq in E. apply getIndex_same in E. rewrite header_index in E by exact Hidx. lia.
  - pose proof (getIndex_name pName Hok Hne) as Hnm. assert (Hidx0 : 0 <= getIndex pName < H_HEADER_END) by lia. rewrite (Hki _ Hidx0), <- Hnm.
    destruct (first_at (lower pName) (fields h)) as [i|] eqn:Ef.
    + specialize (Hlt i eq_refl). rewrite (proj2 (Z.eqb_neq (Z.of_nat i) HRH_IDX_NONE)) by (unfold HRH_IDX_NONE; lia).
      rewrite (Hki _ Hidx0), <- Hnm, Ef. rewrite (proj2 (Z.eqb_neq _ _)) by lia. reflexivity.
    + rewrite Z.eqb_refl. exists (<[Z.to_nat (getIndex pName) := hdr_size h]> (m_KVPairindex h)).
      assert (Hat : znth (<[Z.to_nat (getIndex pName) := hdr_size h]> (m_KVPairindex h)) (getIndex pName) = hdr_size h).
      { unfold znth. erewrite nth_lookup_Some; [reflexivity|]. apply list_lookup_insert_eq. unfold H_HEADER_END in Hidx0. lia. }
      cbn [m_KVPairindex set_index]. rewrite Hat. change (hdr_size (set_index (getIndex pName) (hdr_size h) h)) with (hdr_size h). rewrite Z.eqb_refl.
      split; [reflexivity|]. split; [reflexivity|]. split; [rewrite length_insert; exact Hkl|]. intros idx Hidx. destruct (Z.eq_dec idx (getIndex pName)) as [->|Hni].
      * rewrite Hat, <- Hnm, Ef, (proj2 (bytes_eqb_eq _ _) eq_refl). reflexivity.
      * replace (znth (<[Z.to_nat (getIndex pName) := hdr_size h]> (m_KVPairindex h)) idx) with (znth (m_KVPairindex h) idx).
        2:{ unfold znth. rewrite !nth_lookup, list_lookup_insert_ne by lia. reflexivity. }
        destruct (first_at (lower (header_name idx)) (fields h)); [reflexivity|]. destruct (bytes_eqb (lower pName) (lower (header_name idx))) eqn:E; [|reflexivity].
        apply bytes_eqb_eq in E. apply getIndex_same in E. rewrite header_index in E by exact Hidx. congruence.
Qed.

Lemma on_buf_ext f g h : f (m_buf h) = g (m_buf h) -> on_buf f h = on_buf g h.
Proof. unfold on_buf. intros ->. reflexivity. Qed.

(** [appendHeader] for an entry that keeps its place in the array. *)
Lemma appendHeader_at h i idx pName v m h' :
  appendHeader i idx pName v m h = (0, h') -> (m <> LSI_HEADER_ADD \/ val_len (getKvPair h i) = 0) ->
  let h1 := if m =? LSI_HEADER_SET then upd_kv i (fun _ => zero_hdr) h else h in
  let kv := getKvPair h1 i in
  let w := (if val_len kv >? 0 then getVal h1 kv ++ [44] else []) ++ v in
  exists flag, h' = upd_kv i (fun _ => Hdr true (zlen (m_buf h)) (zlen pName) (zlen (m_buf h) + zlen pName + 2) (zlen w) (chain_next_idx kv) idx flag)
                  (on_buf (fun b => b ++ line (lower pName) w 0) h1).
Proof.
  intros Happ Hm h1 kv w. unfold appendHeader in Happ. destruct (getAppendHeaderLen _ _ _ _); [|discriminate]. fold h1 in Happ.
  assert (E : (val_len (getKvPair h1 i) >? 0) && (m =? LSI_HEADER_ADD) = false).
  { destruct (Z.eqb_spec m LSI_HEADER_ADD) as [->|]; [|apply andb_false_r]. destruct Hm as [Hm|Hm]; [congruence|].
    change h1 with h. rewrite Hm. reflexivity. }
  rewrite E in Happ. cbv zeta in Happ. injection Happ as <-. fold kv. eexists. unfold w. rewrite zlen_app.
  assert (Eb : zlen (m_buf h1) = zlen (m_buf h)) by (subst h1; destruct (m =? LSI_HEADER_SET); reflexivity). rewrite Eb. f_equal.
  apply on_buf_ext. f_equal. unfold line, lower. cbn [repeat app]. rewrite <- !app_assoc. reflexivity.
Qed.

(** A name that is not there: a new entry and a new line. *)
Lemma add_new h idx pName v m ks h' : good h -> name_ok pName = true -> clean v = true -> hdr_size h < 32767 ->
  first_at (lower pName) (fields h) = None -> length ks = 37%nat ->
  (forall i, 0 <= i < H_HEADER_END -> znth ks i =
    match first_at (lower (header_name i)) (fields h), bytes_eqb (lower pName) (lower (header_name i)) with
    | None, true => hdr_size h | _, _ => znth (m_KVPairindex h) i end) ->
  forall h1, m_buf h1 = m_buf h -> m_lsxpack h1 = m_lsxpack h ++ [zero_hdr] -> m_flags h1 = m_flags h -> m_KVPairindex h1 = ks ->
  add_append (hdr_size h) idx pName v m h1 = (0, h') ->
  good h' /\ fields h' = fields h ++ [Some (lower pName, v)] /\ hdr_size h' = hdr_size h + 1.
Proof.
  intros HG Hok Hv Hsz Hno Hks Hki h1 Hb Hl Hfl Hk Happ. pose proof HG as [[segs HL] _ _ _].
  set (N := length (m_lsxpack h)). assert (HN : hdr_size h = Z.of_nat N) by reflexivity.
  assert (Hat : m_lsxpack h1 !! N = Some zero_hdr) by (rewrite Hl; apply lookup_snoc_Some; right; auto).
  unfold add_append in Happ. set (h2 := set_last (hdr_size h) h1) in *.
  assert (Hget : getKvPair h2 (hdr_size h) = zero_hdr) by (unfold getKvPair; cbn [m_lsxpack set_last h2]; rewrite HN, Nat2Z.id; exact (nth_lookup_Some _ _ _ _ Hat)).
  rewrite Hget in Happ. cbn [val_len zero_hdr Z.gtb Z.compare andb] in Happ.
  apply appendHeader_at in Happ; [|right; rewrite Hget; reflexivity]. cbv zeta in Happ.
  set (h3 := if m =? LSI_HEADER_SET then upd_kv (hdr_size h) (fun _ => zero_hdr) h2 else h2) in *.
  assert (H3 : m_lsxpack h3 = m_lsxpack h ++ [zero_hdr] /\ m_buf h3 = m_buf h /\ m_flags h3 = m_flags h /\ m_KVPairindex h3 = ks).
  { subst h3. destruct (m =? LSI_HEADER_SET); [|subst h2; auto]. unfold upd_kv. cbn [m_lsxpack m_buf m_flags m_KVPairindex on_lsxpack set_last h2]. split_and!; auto.
    rewrite HN, Nat2Z.id, list_insert_id by exact Hat. exact Hl. }
  destruct H3 as (Hl3 & Hb3 & Hf3 & Hk3).
  assert (Hget3 : getKvPair h3 (hdr_size h) = zero_hdr).
  { unfold getKvPair. rewrite Hl3, HN, Nat2Z.id. apply nth_lookup_Some, lookup_snoc_Some. right. auto. }
  rewrite Hget3 in Happ. cbn [val_len zero_hdr Z.gtb Z.compare app chain_next_idx] in Happ. destruct Happ as [flag Happ].
  set (new := Hdr true _ _ _ _ _ _ _) in Happ. change (m_buf h2) with (m_buf h1) in *.
  assert (HL3 : laid h3 segs).
  { apply (laid_ext (newHdrEntry h)); [apply laid_new, HL|exact Hb3|unfold hole_flag; rewrite Hf3; reflexivity|rewrite Hl3; apply same_place_refl]. }
  assert (Hlt : Forall (fun j => (j < N)%nat) (owners segs)) by (apply (owners_lt _ _ HL)).
  destruct (append_fields h3 segs N (lower pName) v new HL3) as [HL' HF'].
  - rewrite Hl3, length_app. cbn. subst N. lia.
  - intros H. pose proof (proj1 (Forall_forall _ _) Hlt N H). cbn in *. lia.
  - unfold new, describes. cbn. rewrite Hb3, Hb, zlen_lower. pose proof (name_ok_pos _ Hok). auto.
  - intros _. exact Hlt.
  - rewrite <- HN in HL', HF'. rewrite <- Happ in HL', HF'.
    assert (HF3 : fields h3 = fields h ++ [None]).
    { rewrite <- fields_new. apply fields_ext; [exact Hb3|rewrite Hl3; apply same_place_refl]. }
    assert (HFN : fields h' = fields h ++ [Some (lower pName, v)]).
    { rewrite HF', HF3. rewrite insert_app_r_alt by (rewrite fields_length; reflexivity). rewrite fields_length, Nat.sub_diag. reflexivity. }
    assert (Hl' : m_lsxpack h' = m_lsxpack h ++ [new]).
    { rewrite Happ. unfold upd_kv. cbn [m_lsxpack on_lsxpack on_buf]. rewrite Hl3, HN, Nat2Z.id. rewrite insert_app_r_alt by (subst N; lia).
      subst N. rewrite Nat.sub_diag. reflexivity. }
    split; [|split; [exact HFN|unfold hdr_size; rewrite Hl', zlen_app; reflexivity]].
    apply (good_append h h' (lower pName) v HG HFN); [eexists; exact HL'|apply name_ok_lower, Hok|apply lower_lower|exact Hv| | | |].
    + intros j mm w Hj. pose proof (lookup_lt_Some _ _ _ Hj) as Hjl. rewrite fields_length in Hjl. destruct (lookup_lt_is_Some_2 _ _ Hjl) as [kv Hkv].
      rewrite (kv_next_lookup h' j kv) by (rewrite Hl'; apply lookup_app_l_Some, Hkv). rewrite (kv_next_lookup h j kv Hkv).
      destruct (bytes_eqb mm (lower pName)) eqn:E; [|reflexivity]. apply bytes_eqb_eq in E. subst mm. destruct (first_at_None _ _ _ _ Hno Hj).
    + rewrite (kv_next_lookup h' _ new); [reflexivity|]. rewrite Hl'. apply lookup_snoc_Some. right. rewrite fields_length. auto.
    + rewrite Happ. unfold upd_kv. cbn [m_KVPairindex on_lsxpack on_buf]. rewrite Hk3. exact Hks.
    + intros i Hi. rewrite Happ. unfold upd_kv. cbn [m_KVPairindex on_lsxpack on_buf]. rewrite Hk3, (Hki i Hi), fields_length. reflexivity.
Qed.
