(* ===== verification/RespOps.v ===== *)
(** * RespOps: the operations on a response's header fields
    (src/src/http/httprespheaders.cpp)

    Each method of [add] and deleting against the abstract list of names and values
    of RespFields; sequences of operations, the lookups and the text on the wire. *)

From S2P Require Import Prelude Chains RespHeaders RespValues RespFields.
From Stdlib Require Import Sorting.Sorted.
Import HttpRespHeaders.
#[local] Open Scope Z_scope.

(** ** An entry that is there *)

Lemma good_entry h i n v : good h -> fields h !! i = Some (Some (n, v)) -> exists s1 pad s2 kv,
  laid h (s1 ++ Own i n v pad :: s2) /\ m_lsxpack h !! i = Some kv /\ getKvPair h (Z.of_nat i) = kv /\ describes kv (zlen (text s1)) n v /\
  getVal h kv = v /\ clean v = true /\ lower n = n /\ name_ok n = true.
Proof.
  intros [[segs HL] Hn _ _] Hf. destruct (Hn _ _ _ Hf) as (Hok & Hlow & Hv). destruct (laid_at _ _ _ _ _ HL Hf) as (s1 & pad & s2 & ->).
  destruct (laid_kv _ _ HL _ _ _ _ _ _ eq_refl) as (kv & Hkv & Hd). exists s1, pad, s2, kv. split_and!; auto.
  - unfold getKvPair. rewrite Nat2Z.id. exact (nth_lookup_Some _ _ _ _ Hkv).
  - pose proof (describes_field h s1 i n v pad s2 kv (laid_buf _ _ HL) Hd) as Hfo. unfold field_of in Hfo. destruct (name_len kv >? 0); congruence.
Qed.

Lemma clean_pos v : clean v = true -> 0 < zlen v.
Proof. intros H. destruct v as [|c v]; [discriminate|]. rewrite zlen_cons. pose proof (zlen_nonneg v). lia. Qed.

Lemma getKvPair_upd h i f : (i < length (m_lsxpack h))%nat -> getKvPair (upd_kv (Z.of_nat i) f h) (Z.of_nat i) = f (getKvPair h (Z.of_nat i)).
Proof.
  intros Hi. unfold getKvPair, upd_kv. cbn [m_lsxpack on_lsxpack]. rewrite Nat2Z.id. apply nth_lookup_Some. apply list_lookup_insert_eq, Hi.
Qed.

(** A shorter value takes the place of the old one. *)
Lemma add_replaced h i n v v' : good h -> fields h !! i = Some (Some (n, v)) -> clean v' = true -> zlen v' <= zlen v ->
  let h' := replaceHeader (Z.of_nat i) v' h in good h' /\ fields h' = <[i := Some (n, v')]> (fields h) /\ hdr_size h' = hdr_size h.
Proof.
  intros HG Hf Hv Hle h'. destruct (good_entry h i n v HG Hf) as (s1 & pad & s2 & kv & HL & Hkv & Hget & _).
  destruct (replace_fields h s1 i n v pad s2 v' HL Hle) as [HL' HF]. fold h' in HL', HF.
  pose proof (lookup_lt_Some _ _ _ Hkv) as Hi.
  assert (Hl : m_lsxpack h' = <[i := set_vlen (zlen v') kv]> (m_lsxpack h)).
  { subst h'. unfold replaceHeader, upd_kv. cbn [m_lsxpack on_lsxpack on_buf]. rewrite Nat2Z.id, (nth_lookup_Some _ _ _ _ Hkv). reflexivity. }
  split; [|split; [exact HF|unfold hdr_size, zlen; rewrite Hl, length_insert; reflexivity]].
  apply (good_update h h' i n v v' HG Hf HF); [eexists; exact HL'|exact Hv| |reflexivity].
  intros j. destruct (decide (j = i)) as [->|Hne].
  - rewrite (kv_next_lookup h' i (set_vlen (zlen v') kv)) by (rewrite Hl; apply list_lookup_insert_eq, Hi). rewrite (kv_next_lookup h i kv Hkv). reflexivity.
  - unfold kv_next, getKvPair. rewrite Hl, !Nat2Z.id, !nth_lookup, list_lookup_insert_ne by congruence. reflexivity.
Qed.

(** A longer one moves the line to the end, where only SET forgets the chain. *)
Lemma add_moved h i n v idx pName v' m h' : good h -> fields h !! i = Some (Some (n, v)) -> lower pName = n -> clean v' = true ->
  m <> LSI_HEADER_ADD -> (m = LSI_HEADER_SET -> next_at n i (fields h) = -1) -> add_append (Z.of_nat i) idx pName v' m h = (0, h') ->
  let w := if m =? LSI_HEADER_SET then v' else v ++ [44] ++ v' in
  good h' /\ fields h' = <[i := Some (n, w)]> (fields h) /\ hdr_size h' = hdr_size h.
Proof.
  intros HG Hf Hn Hv Hm Hnext Happ w. destruct (good_entry h i n v HG Hf) as (s1 & pad & s2 & kv & HL & Hkv & Hget & Hd & Hval & Hcv & Hlow & Hok).
  pose proof (lookup_lt_Some _ _ _ Hkv) as Hi. pose proof Hd as (_ & Hnl & _ & Hvl & _). pose proof (clean_pos _ Hcv) as Hpos.
  unfold add_append in Happ. set (h1 := set_last (Z.of_nat i) h) in *. change (getKvPair h1 (Z.of_nat i)) with (getKvPair h (Z.of_nat i)) in Happ.
  rewrite Hget, Hvl, (proj2 (Z.gtb_lt _ _) Hpos), (proj2 (Z.eqb_neq _ _) Hm) in Happ. cbn [negb andb] in Happ.
  apply appendHeader_at in Happ; [|left; exact Hm]. cbv zeta in Happ.
  set (h2 := if m =? LSI_HEADER_SET then upd_kv (Z.of_nat i) (fun _ => zero_hdr) (has_hole h1) else has_hole h1) in *.
  assert (Hw : (if val_len (getKvPair h2 (Z.of_nat i)) >? 0 then getVal h2 (getKvPair h2 (Z.of_nat i)) ++ [44] else []) ++ v' = w /\
    chain_next (getKvPair h2 (Z.of_nat i)) = next_at n i (fields h) /\
    (forall new, upd_kv (Z.of_nat i) (fun _ => new) (on_buf (fun b => b ++ line n w 0) h2) = set_last (Z.of_nat i) (upd_kv (Z.of_nat i) (fun _ => new) (on_buf (fun b => b ++ line n w 0) (has_hole h))))).
  { subst h2 w. destruct (Z.eqb_spec m LSI_HEADER_SET) as [Es|Es].
    - rewrite getKvPair_upd by exact Hi. cbn [val_len zero_hdr Z.gtb Z.compare app].
      split; [reflexivity|]. split; [rewrite (Hnext Es); reflexivity|]. intros new. unfold upd_kv, on_buf, on_lsxpack, set_last, has_hole. cbn. rewrite Nat2Z.id, list_insert_insert_eq. reflexivity.
    - change (getKvPair (has_hole h1) (Z.of_nat i)) with (getKvPair h (Z.of_nat i)). rewrite Hget, Hvl, (proj2 (Z.gtb_lt _ _) Hpos).
      change (getVal (has_hole h1) kv) with (getVal h kv). rewrite Hval, <- app_assoc. split; [reflexivity|]. split; [|intros new; reflexivity].
      rewrite <- Hget. exact (good_chain _ HG _ _ _ Hf). }
  destruct Hw as (Hw & Hch & Hupd). rewrite Hw in Happ. destruct Happ as [flag Happ]. change (m_buf (has_hole h1)) with (m_buf h) in Happ. rewrite Hn, Hupd in Happ.
  set (new := Hdr true _ _ _ _ _ _ _) in Happ.
  destruct (move_fields h s1 i n v pad s2 new n w HL) as [HL' HF].
  { unfold new, describes. cbn. rewrite <- Hn, zlen_lower. pose proof (name_ok_pos _ Hok). rewrite <- Hn, zlen_lower in *. auto. }
  set (h3 := upd_kv (Z.of_nat i) (fun _ => new) (on_buf (fun b => b ++ line n w 0) (has_hole h))) in *.
  assert (Hl : m_lsxpack h' = <[i := new]> (m_lsxpack h)).
  { rewrite Happ. subst h3. unfold upd_kv. cbn [m_lsxpack set_last on_lsxpack on_buf has_hole]. rewrite Nat2Z.id. reflexivity. }
  assert (HF' : fields h' = <[i := Some (n, w)]> (fields h)) by (rewrite Happ, <- HF; reflexivity).
  split; [|split; [exact HF'|unfold hdr_size, zlen; rewrite Hl, length_insert; reflexivity]].
  apply (good_update h h' i n v w HG Hf HF').
  - eexists. apply (laid_ext h3 h' _ HL'); rewrite Happ; [reflexivity|reflexivity|apply same_place_refl].
  - subst w. destruct (m =? LSI_HEADER_SET); [exact Hv|]. apply clean_app; assumption.
  - intros j. destruct (decide (j = i)) as [->|Hne].
    + rewrite (kv_next_lookup h' i new) by (rewrite Hl; apply list_lookup_insert_eq, Hi). unfold new, chain_next at 1. cbn [chain_next_idx].
      fold (chain_next (getKvPair h2 (Z.of_nat i))). rewrite Hch. symmetry. exact (good_chain _ HG _ _ _ Hf).
    + unfold kv_next, getKvPair. rewrite Hl, !Nat2Z.id, !nth_lookup, list_lookup_insert_ne by congruence. reflexivity.
  - rewrite Happ. reflexivity.
Qed.

Lemma chain_link_any k kv : 0 <= k < 32767 -> chain_next (set_chain (Z.lor (k + 1) HIGHEST_BIT_NUMBER) kv) = k.
Proof. intros Hk. rewrite <- (chain_link k Hk) at 2. reflexivity. Qed.

(** The last entry of a name is the only one without a next. *)
Lemma next_at_last n F i j v w : F !! i = Some (Some (n, v)) -> F !! j = Some (Some (n, w)) -> next_at n i F = -1 -> next_at n j F = -1 -> i = j.
Proof.
  intros Hi Hj Ni Nj. destruct (Nat.lt_trichotomy i j) as [H|[H|H]]; [|exact H|].
  - destruct (next_at_None _ _ _ _ _ Ni H Hj).
  - destruct (next_at_None _ _ _ _ _ Nj H Hi).
Qed.

(** The chain gets a new last entry. *)
Lemma chain_extended h i n v : good h -> fields h !! i = Some (Some (n, v)) -> hdr_size h < 32767 ->
  exists last w kv, fields h !! last = Some (Some (n, w)) /\ next_at n last (fields h) = -1 /\ m_lsxpack h !! last = Some kv /\
    appendKvPairIdx_all (Z.of_nat i) (hdr_size h) (newHdrEntry h) = upd_kv (Z.of_nat last) (set_chain (Z.lor (hdr_size h + 1) HIGHEST_BIT_NUMBER)) (newHdrEntry h) /\
    m_lsxpack (upd_kv (Z.of_nat last) (set_chain (Z.lor (hdr_size h + 1) HIGHEST_BIT_NUMBER)) (newHdrEntry h)) =
      <[last := set_chain (Z.lor (hdr_size h + 1) HIGHEST_BIT_NUMBER) kv]> (m_lsxpack h) ++ [zero_hdr].
Proof.
  intros HG Hf Hsz.
  assert (Hlk : forall j m w, fields (newHdrEntry h) !! j = Some (Some (m, w)) -> fields h !! j = Some (Some (m, w))).
  { intros j m w Hj. rewrite fields_new in Hj. apply lookup_app_Some in Hj as [Hj|[_ Hj]]; [exact Hj|]. apply list_lookup_singleton_Some in Hj as [_ Hj]. discriminate. }
  assert (Hnx : forall j m w, fields h !! j = Some (Some (m, w)) -> next_at m j (fields (newHdrEntry h)) = next_at m j (fields h)).
  { intros j m w Hj. rewrite fields_new, next_at_app by (eapply lookup_lt_Some, Hj). cbn [named]. destruct (Z.eqb_spec (next_at m j (fields h)) (-1)); congruence. }
  destruct (walk_ok (newHdrEntry h) (hdr_size h)) with (fuel := length (m_lsxpack (newHdrEntry h))) (i := i) (n := n) (v := v) as (last & w & Hlast & Hend & _ & Happ).
  - intros j m w Hj. apply Hlk in Hj. rewrite (Hnx _ _ _ Hj). rewrite <- (good_chain _ HG _ _ _ Hj). pose proof (lookup_lt_Some _ _ _ Hj) as Hjl. rewrite fields_length in Hjl.
    unfold kv_next, getKvPair. cbn [m_lsxpack newHdrEntry on_lsxpack]. rewrite Nat2Z.id, app_nth1 by exact Hjl. reflexivity.
  - rewrite fields_new. apply lookup_app_l_Some, Hf.
  - rewrite fields_length. lia.
  - apply Hlk in Hlast. rewrite (Hnx _ _ _ Hlast) in Hend. pose proof (lookup_lt_Some _ _ _ Hlast) as Hl. rewrite fields_length in Hl.
    destruct (lookup_lt_is_Some_2 _ _ Hl) as [kv Hkv]. exists last, w, kv. split_and!; auto.
    unfold upd_kv. cbn [m_lsxpack newHdrEntry on_lsxpack]. rewrite Nat2Z.id, app_nth1 by exact Hl. rewrite (nth_lookup_Some _ _ _ _ Hkv), insert_app_l by exact Hl. reflexivity.
Qed.

Lemma good_set_last k h : good h -> good (set_last k h).
Proof. intros [[segs HL] Hn Hc Hi]. split; [exists segs; apply (laid_ext h); auto; apply same_place_refl|exact Hn|exact Hc|exact Hi]. Qed.

(** Another line of a name that is there. *)
Lemma appendHeader_another h i n v idx pName v' h' : good h -> fields h !! i = Some (Some (n, v)) -> lower pName = n -> clean v' = true -> hdr_size h < 32767 ->
  appendHeader (Z.of_nat i) idx pName v' LSI_HEADER_ADD h = (0, h') ->
  good h' /\ fields h' = fields h ++ [Some (n, v')] /\ hdr_size h' = hdr_size h + 1.
Proof.
  intros HG Hf Hn Hv Hsz Happ. destruct (good_entry h i n v HG Hf) as (s1 & pad & s2 & kvi & HLi & Hkvi & Hgeti & Hdi & _ & Hcv & Hlow & Hok).
  destruct (chain_extended h i n v HG Hf Hsz) as (last & w & kv & Hlast & Hend & Hkv & Hext & Hlx). set (N := length (m_lsxpack h)). assert (HN : hdr_size h = Z.of_nat N) by reflexivity.
  set (segs := s1 ++ Own i n v pad :: s2) in *. pose proof (lookup_lt_Some _ _ _ Hkv) as Hlt. unfold appendHeader in Happ.
  destruct (getAppendHeaderLen _ _ _ _); [|discriminate]. change (LSI_HEADER_ADD =? LSI_HEADER_SET) with false in Happ. change (LSI_HEADER_ADD =? LSI_HEADER_ADD) with true in Happ. cbv iota in Happ.
  assert (Hpos : val_len (getKvPair h (Z.of_nat i)) >? 0 = true).
  { rewrite Hgeti. destruct Hdi as (_ & _ & _ & -> & _). apply Z.gtb_lt, clean_pos, Hcv. }
  rewrite Hpos in Happ. cbv beta iota zeta delta [andb] in Happ. rewrite Hext in Happ.
  set (h2 := upd_kv (Z.of_nat last) _ _) in *. set (h3 := upd_kv (hdr_size h) (set_chain HIGHEST_BIT_NUMBER) (set_last (hdr_size h) h2)) in *.
  assert (Hl3 : m_lsxpack h3 = <[last := set_chain (Z.lor (hdr_size h + 1) HIGHEST_BIT_NUMBER) kv]> (m_lsxpack h) ++ [set_chain HIGHEST_BIT_NUMBER zero_hdr]).
  { subst h3. unfold upd_kv. cbn [m_lsxpack on_lsxpack set_last]. rewrite Hlx, HN, Nat2Z.id. rewrite insert_app_r_alt by (rewrite length_insert; subst N; lia).
    rewrite app_nth2 by (rewrite length_insert; subst N; lia). rewrite length_insert. subst N. rewrite Nat.sub_diag. reflexivity. }
  assert (Hget3 : getKvPair h3 (hdr_size h) = set_chain HIGHEST_BIT_NUMBER zero_hdr).
  { unfold getKvPair. rewrite Hl3, HN, Nat2Z.id. apply nth_lookup_Some, lookup_snoc_Some. right. rewrite length_insert. auto. }
  rewrite Hget3 in Happ. cbn [val_len set_chain zero_hdr Z.gtb Z.compare app chain_next_idx] in Happ. change (zlen (@nil Z) + zlen v') with (zlen v') in Happ. injection Happ as Happ.
  set (new := Hdr true _ _ _ _ _ _ _) in Happ.
  assert (HL2 : laid h3 segs).
  { apply (laid_ext (newHdrEntry h)); [apply laid_new, HLi|reflexivity|reflexivity|]. rewrite Hl3. cbn [m_lsxpack newHdrEntry on_lsxpack]. apply Forall2_app; [|repeat constructor].
    rewrite <- (list_insert_id (m_lsxpack h) last kv Hkv) at 1. apply Forall2_insert; [apply same_place_refl|repeat split]. }
  assert (Hbl : Forall (fun j => (j < N)%nat) (owners segs)) by (apply (owners_lt _ _ HLi)).
  assert (HF3 : fields h3 = fields h ++ [None]).
  { rewrite <- fields_new. apply fields_ext; [reflexivity|]. rewrite Hl3. cbn [m_lsxpack newHdrEntry on_lsxpack]. apply Forall2_app; [|repeat constructor].
    rewrite <- (list_insert_id (m_lsxpack h) last kv Hkv) at 1. apply Forall2_insert; [apply same_place_refl|repeat split]. }
  destruct (append_fields h3 segs N n v' new HL2) as [HL' HF'].
  - rewrite Hl3, length_app, length_insert. cbn. subst N. lia.
  - intros H. pose proof (proj1 (Forall_forall _ _) Hbl N H). cbn in *. lia.
  - unfold new, describes. cbn. rewrite <- Hn, zlen_lower in *. pose proof (name_ok_pos _ Hok). rewrite zlen_lower in *. auto.
  - intros _. exact Hbl.
  - assert (Eline : upd_kv (Z.of_nat N) (fun _ => new) (on_buf (fun b => b ++ line n v' 0) h3) = h').
    { rewrite <- Happ, HN. f_equal. apply on_buf_ext. f_equal. unfold line. rewrite <- Hn. reflexivity. }
    rewrite Eline in HL', HF'.
    assert (HFN : fields h' = fields h ++ [Some (n, v')]).
    { rewrite HF', HF3. rewrite insert_app_r_alt by (rewrite fields_length; subst N; lia). rewrite fields_length. subst N. rewrite Nat.sub_diag. reflexivity. }
    assert (Hl' : m_lsxpack h' = <[last := set_chain (Z.lor (hdr_size h + 1) HIGHEST_BIT_NUMBER) kv]> (m_lsxpack h) ++ [new]).
    { rewrite <- Eline. unfold upd_kv. cbn [m_lsxpack on_lsxpack on_buf]. rewrite Hl3, Nat2Z.id. rewrite insert_app_r_alt by (rewrite length_insert; subst N; lia).
      rewrite length_insert. subst N. rewrite Nat.sub_diag. reflexivity. }
    split; [|split; [exact HFN|unfold hdr_size; rewrite Hl', zlen_app; unfold zlen; rewrite length_insert; reflexivity]].
    apply (good_append h h' n v' HG HFN); [eexists; exact HL'|exact Hok|exact Hlow|exact Hv| | | |].
    + intros j mm u Hj. pose proof (lookup_lt_Some _ _ _ Hj) as Hjl. rewrite fields_length in Hjl. destruct (decide (j = last)) as [->|Hne].
      * rewrite Hlast in Hj. injection Hj as <- <-. rewrite (proj2 (bytes_eqb_eq _ _) eq_refl). rewrite (good_chain _ HG _ _ _ Hlast : kv_next h last = _), Hend. cbn [Z.eqb andb Pos.eqb].
        rewrite (kv_next_lookup h' last (set_chain (Z.lor (hdr_size h + 1) HIGHEST_BIT_NUMBER) kv)) by (rewrite Hl'; apply lookup_app_l_Some, list_lookup_insert_eq, Hlt).
        rewrite chain_link_any by (unfold hdr_size in *; pose proof (zlen_nonneg (m_lsxpack h)); lia). rewrite fields_length. reflexivity.
      * destruct (lookup_lt_is_Some_2 _ _ Hjl) as [kvj Hkvj].
        rewrite (kv_next_lookup h' j kvj) by (rewrite Hl'; apply lookup_app_l_Some; rewrite list_lookup_insert_ne by congruence; exact Hkvj). rewrite (kv_next_lookup h j kvj Hkvj).
        destruct (bytes_eqb mm n && (chain_next kvj =? -1)) eqn:E; [|reflexivity]. exfalso. apply andb_true_iff in E as [E1 E2]. apply bytes_eqb_eq in E1. subst mm.
        apply Hne, (next_at_last n (fields h) j last u w Hj Hlast); [|exact Hend]. rewrite <- (good_chain _ HG _ _ _ Hj : kv_next h j = _), (kv_next_lookup h j kvj Hkvj). lia.
    + rewrite (kv_next_lookup h' _ new); [reflexivity|]. rewrite Hl'. apply lookup_snoc_Some. right. rewrite fields_length, length_insert. auto.
    + rewrite <- Eline. exact (proj1 (good_index _ HG)).
    + intros idx' Hidx. rewrite <- Eline. change (m_KVPairindex (upd_kv _ _ _)) with (m_KVPairindex h).
      destruct (first_at (lower (header_name idx')) (fields h)) eqn:E; [reflexivity|]. destruct (bytes_eqb n (lower (header_name idx'))) eqn:E2; [|reflexivity].
      apply bytes_eqb_eq in E2. rewrite <- E2 in E. destruct (first_at_None _ _ _ _ E Hf).
Qed.

Lemma add_another h i n v idx pName v' h' : good h -> fields h !! i = Some (Some (n, v)) -> lower pName = n -> clean v' = true -> hdr_size h < 32767 ->
  add_append (Z.of_nat i) idx pName v' LSI_HEADER_ADD h = (0, h') ->
  good h' /\ fields h' = fields h ++ [Some (n, v')] /\ hdr_size h' = hdr_size h + 1.
Proof.
  intros HG Hf Hn Hv Hsz Happ. unfold add_append in Happ. rewrite andb_false_r in Happ.
  exact (appendHeader_another (set_last (Z.of_nat i) h) i n v idx pName v' h' (good_set_last _ _ HG) Hf Hn Hv Hsz Happ).
Qed.

(** ** The operations on the abstract list *)

(** The names whose values [add] keeps apart. *)
Definition separate (n : list Z) : bool := bytes_eqb n (bs "set-cookie") || bytes_eqb n (bs "link").

Definition spec_add (n v : list Z) (m : Z) (L : list field) : list field :=
  match head (values n L) with
  | None => L ++ [(n, v)]
  | Some w =>
      if m =? LSI_HEADER_SET then set_first n v L
      else if m =? LSI_HEADER_APPEND then set_first n (w ++ [44] ++ v) L
      else if (m =? LSI_HEADER_ADD) && separate n then L ++ [(n, v)]
      else match merged w v with
           | [] => L
           | u => if m =? LSI_HEADER_ADD then L ++ [(n, u)] else set_first n (w ++ [44] ++ u) L
           end
  end.

Definition spec_del (n : list Z) (L : list field) : list field := filter (fun f => f.1 <> n) L.

Lemma getIndex_is pName i : name_ok pName = true -> 0 <= i < H_HEADER_END ->
  (getIndex pName =? i) = bytes_eqb (lower pName) (lower (header_name i)).
Proof.
  intros Hok Hi. apply eq_bool_prop_intro. split; intros H; apply Is_true_true in H; apply Is_true_true.
  - apply Z.eqb_eq in H. apply bytes_eqb_eq. rewrite <- H. apply getIndex_name; [exact Hok|lia].
  - apply bytes_eqb_eq in H. apply Z.eqb_eq. rewrite (getIndex_same _ _ H). apply header_index, Hi.
Qed.

Lemma separate_index pName : name_ok pName = true ->
  negb (getIndex pName =? H_SET_COOKIE) && negb (getIndex pName =? H_LINK) = negb (separate (lower pName)).
Proof.
  intros Hok. unfold separate. rewrite (getIndex_is pName H_SET_COOKIE Hok), (getIndex_is pName H_LINK Hok) by (unfold H_SET_COOKIE, H_LINK, H_HEADER_END; lia).
  change (lower (header_name H_SET_COOKIE)) with (bs "set-cookie"). change (lower (header_name H_LINK)) with (bs "link"). rewrite negb_orb. reflexivity.
Qed.

Lemma lines_insert h h' i n w v : first_at n (fields h) = Some i -> fields h !! i = Some (Some (n, w)) -> fields h' = <[i := Some (n, v)]> (fields h) ->
  lines h' = set_first n v (lines h).
Proof. intros Hi Hw HF. unfold lines. rewrite HF. apply (set_first_omap n v _ i w Hi Hw). Qed.

Lemma lines_snoc h h' n v : fields h' = fields h ++ [Some (n, v)] -> lines h' = lines h ++ [(n, v)].
Proof. intros HF. unfold lines. rewrite HF, omap_app. reflexivity. Qed.

(** What [add] stores for MERGE, and for ADD but for the names kept apart. *)
Lemma merge_cases w v : clean w = true -> clean v = true ->
  match memchr 44 v with
  | Some _ => new_members w v = merged w v
  | None => hasValue w v = bool_decide (merged w v = []) /\ (merged w v <> [] -> merged w v = v)
  end.
Proof.
  intros Hw Hv. unfold merged. destruct (memchr 44 v) as [i|] eqn:E.
  - apply memchr_Some in E as (_ & Hs & _). rewrite bool_decide_eq_true_2; [apply new_members_ok, Hw|]. rewrite Hs. apply elem_of_app. right. left.
  - apply memchr_None in E. rewrite (bool_decide_eq_false_2 (44 ∈ v) E). rewrite (hasValue_members w v (clean_trim_start w Hw) Hv E).
    pose proof (clean_ne v Hv). case_bool_decide; split; try tauto; rewrite bool_decide_eq_false_2 by assumption; reflexivity.
Qed.

(** A new name. *)
Lemma add_fresh h pName v m h' : good h -> name_ok pName = true -> clean v = true -> hdr_size h < 32767 ->
  first_at (lower pName) (fields h) = None -> add pName v m h = (0, h') ->
  good h' /\ lines h' = lines h ++ [(lower pName, v)] /\ hdr_size h' = hdr_size h + 1.
Proof.
  intros HG Hok Hv Hsz Hno Hadd. pose proof (name_ok_pos _ Hok). pose proof (getIndex_range pName) as Hr.
  unfold add, add_at in Hadd. rewrite Z.gtb_ltb, (proj2 (Z.ltb_ge _ _)) in Hadd by lia.
  rewrite (proj2 (Z.leb_gt _ _)), andb_false_r in Hadd by lia.
  pose proof (add_entry_ok h pName HG Hok Hsz) as He. rewrite Hno in He. destruct He as (ks & He & Hks & Hkl & Hki). rewrite He in Hadd.
  set (h1 := add_unique 1 (newHdrEntry _)) in Hadd.
  assert (H1 : m_buf h1 = m_buf h /\ m_lsxpack h1 = m_lsxpack h ++ [zero_hdr] /\ m_flags h1 = m_flags h /\ m_KVPairindex h1 = ks).
  { subst h1 ks. destruct (getIndex pName =? H_HEADER_END); auto. }
  destruct H1 as (Hb & Hl & Hfl & Hk).
  assert (Hget : getKvPair h1 (hdr_size h) = zero_hdr).
  { unfold getKvPair. rewrite Hl. unfold hdr_size, zlen. rewrite Nat2Z.id. apply nth_lookup_Some, lookup_snoc_Some. right. auto. }
  rewrite Hget in Hadd. cbn [name_len val_len zero_hdr Z.gtb Z.compare] in Hadd.
  rewrite (proj2 (Z.eqb_neq 0 (zlen pName))), !andb_false_r in Hadd by lia. cbn [andb] in Hadd.
  destruct (add_new h (getIndex pName) pName v m ks h' HG Hok Hv Hsz Hno Hkl Hki h1 Hb Hl Hfl Hk Hadd) as (H1 & H2 & H3).
  split_and!; auto. apply lines_snoc, H2.
Qed.

(** A name that is there. *)
Lemma add_present h pName v m i w h' : good h -> name_ok pName = true -> clean v = true -> hdr_size h < 32767 -> 0 <= m <= 3 ->
  first_at (lower pName) (fields h) = Some i -> fields h !! i = Some (Some (lower pName, w)) ->
  (m = LSI_HEADER_SET -> next_at (lower pName) i (fields h) = -1) -> add pName v m h = (0, h') ->
  good h' /\ lines h' = spec_add (lower pName) v m (lines h) /\ hdr_size h' <= hdr_size h + 1.
Proof.
  intros HG Hok Hv Hsz Hm Hi Hw Hset Hadd. pose proof (name_ok_pos _ Hok) as Hnp. pose proof (getIndex_range pName) as Hr.
  assert (Hhead : head (values (lower pName) (lines h)) = Some w) by (unfold lines; rewrite values_first, Hi, Hw; reflexivity).
  unfold spec_add. rewrite Hhead.
  destruct (good_entry h i _ w HG Hw) as (s1 & pad & s2 & kv & HL & Hkv & Hget & (_ & Hnl & _ & Hvl & _) & Hval & Hcw & _ & _).
  assert (Hgrow : forall u, clean u = true -> m <> LSI_HEADER_ADD -> m <> LSI_HEADER_SET -> add_append (Z.of_nat i) (getIndex pName) pName u m h = (0, h') ->
    good h' /\ lines h' = set_first (lower pName) (w ++ [44] ++ u) (lines h) /\ hdr_size h' <= hdr_size h + 1).
  { intros u Hu Hna Hns Happ. destruct (add_moved h i _ w (getIndex pName) pName u m h' HG Hw eq_refl Hu Hna ltac:(intros; congruence) Happ) as (? & HF & ?).
    rewrite (proj2 (Z.eqb_neq _ _) Hns) in HF. split_and!; auto; [|lia]. exact (lines_insert h h' i _ w _ Hi Hw HF). }
  assert (Hline : forall u, clean u = true -> m = LSI_HEADER_ADD -> add_append (Z.of_nat i) (getIndex pName) pName u m h = (0, h') ->
    good h' /\ lines h' = lines h ++ [(lower pName, u)] /\ hdr_size h' <= hdr_size h + 1).
  { intros u Hu Ha Happ. rewrite Ha in Happ. destruct (add_another h i _ w (getIndex pName) pName u h' HG Hw eq_refl Hu Hsz Happ) as (? & HF & ?).
    split_and!; auto; [|lia]. exact (lines_snoc h h' _ _ HF). }
  unfold add, add_at in Hadd. rewrite Z.gtb_ltb, (proj2 (Z.ltb_ge _ _)) in Hadd by lia.
  rewrite (proj2 (Z.leb_gt _ _)), andb_false_r in Hadd by lia.
  pose proof (add_entry_ok h pName HG Hok Hsz) as He. rewrite Hi in He. rewrite He, Hget, Hnl, Hvl, Hval, zlen_lower, Z.eqb_refl, andb_true_r in Hadd.
  rewrite (proj2 (Z.gtb_lt (zlen w) 0) (clean_pos w Hcw)), separate_index, !andb_true_r in Hadd by exact Hok.
  pose proof (merge_cases w v Hcw Hv) as Hmc. pose proof (merged_clean w v Hv) as Hmcl.
  assert (Hall : m = 0 \/ m = 1 \/ m = 2 \/ m = 3) by lia.
  unfold LSI_HEADER_SET, LSI_HEADER_ADD, LSI_HEADER_MERGE, LSI_HEADER_APPEND in *.
  destruct Hall as [-> |[-> |[-> | ->]]]; cbn [Z.eqb Pos.eqb andb orb negb] in *.
  - (* ADD *) destruct (separate (lower pName)); cbn [negb orb] in Hadd; [apply Hline; auto|].
    destruct (memchr 44 v).
    + rewrite Hmc in Hadd. destruct (merged w v) as [|c u] eqn:Eu; [injection Hadd as <-; split_and!; auto; lia|].
      rewrite zlen_cons, (proj2 (Z.eqb_neq _ _)) in Hadd by (pose proof (zlen_nonneg u); lia). destruct Hmcl as [|Hmcl]; [discriminate|]. apply Hline; auto.
    + destruct Hmc as [Hh Heq]. rewrite Hh in Hadd. case_bool_decide as Em; [rewrite Em; injection Hadd as <-; split_and!; auto; lia|].
      specialize (Heq Em). rewrite Heq in *. destruct v; [congruence|]. apply Hline; auto.
  - (* SET *) specialize (Hset eq_refl). destruct (Z.geb_spec (zlen w) (zlen v)) as [Hle|Hgt].
    + injection Hadd as <-. destruct (add_replaced h i _ w v HG Hw Hv Hle) as (? & HF & ?). split_and!; auto; [|lia]. exact (lines_insert h _ i _ w _ Hi Hw HF).
    + destruct (add_moved h i _ w (getIndex pName) pName v 1 h' HG Hw eq_refl Hv ltac:(discriminate) ltac:(auto) Hadd) as (? & HF & ?).
      split_and!; auto; [|lia]. exact (lines_insert h h' i _ w _ Hi Hw HF).
  - (* APPEND *) apply Hgrow; auto; discriminate.
  - (* MERGE *) rewrite orb_true_r in Hadd. destruct (memchr 44 v).
    + rewrite Hmc in Hadd. destruct (merged w v) as [|c u] eqn:Eu; [injection Hadd as <-; split_and!; auto; lia|].
      rewrite zlen_cons, (proj2 (Z.eqb_neq _ _)) in Hadd by (pose proof (zlen_nonneg u); lia). destruct Hmcl as [|Hmcl]; [discriminate|]. apply Hgrow; auto; discriminate.
    + destruct Hmc as [Hh Heq]. rewrite Hh in Hadd. case_bool_decide as Em; [rewrite Em; injection Hadd as <-; split_and!; auto; lia|].
      specialize (Heq Em). rewrite Heq in *. destruct v; [congruence|]. apply Hgrow; auto; discriminate.
Qed.

(** [add] and the abstract list. *)
Lemma add_ok h pName v m h' : good h -> name_ok pName = true -> clean v = true -> hdr_size h < 32767 -> 0 <= m <= 3 ->
  (m = LSI_HEADER_SET -> (length (values (lower pName) (lines h)) <= 1)%nat) -> add pName v m h = (0, h') ->
  good h' /\ lines h' = spec_add (lower pName) v m (lines h) /\ hdr_size h' <= hdr_size h + 1.
Proof.
  intros HG Hok Hv Hsz Hm Hset Hadd. destruct (first_at (lower pName) (fields h)) as [i|] eqn:Ei.
  - destruct (first_at_Some _ _ _ Ei) as [w Hw]. apply (add_present h pName v m i w h'); auto. intros E. apply (values_length _ _ _ Ei), (Hset E).
  - destruct (add_fresh h pName v m h' HG Hok Hv Hsz Ei Hadd) as (? & HF & ?). split_and!; auto; [|lia].
    unfold spec_add. unfold lines at 2. rewrite values_first, Ei. exact HF.
Qed.

(** ** Deleting *)

Definition unname (n : list Z) (o : option field) : option field := if named n o then None else o.
Definition kill (n : list Z) (i : nat) (F : list (option field)) : list (option field) := take i F ++ map (unname n) (drop i F).

Lemma lookup_kill n i F k : kill n i F !! k = if decide (k < i)%nat then F !! k else unname n <$> F !! k.
Proof.
  unfold kill. case_decide.
  - destruct (decide (k < length F)%nat).
    + rewrite lookup_app_l by (rewrite length_take; lia). apply lookup_take_lt. assumption.
    + rewrite lookup_ge_None_2 by (rewrite length_app, length_map, length_take, length_drop; lia). symmetry. apply lookup_ge_None. lia.
  - destruct (decide (k < length F)%nat).
    + rewrite lookup_app_r by (rewrite length_take; lia). rewrite list_lookup_fmap, lookup_drop, length_take. do 2 f_equal. lia.
    + rewrite !lookup_ge_None_2; [reflexivity|lia|rewrite length_app, length_map, length_take, length_drop; lia].
Qed.

Lemma kill_last n i F v : F !! i = Some (Some (n, v)) -> next_at n i F = -1 -> kill n i F = <[i := None]> F.
Proof.
  intros Hi Hnx. apply list_eq. intros k. rewrite lookup_kill. case_decide as Hk; [rewrite list_lookup_insert_ne by lia; reflexivity|].
  destruct (decide (k = i)) as [->|Hne].
  - rewrite list_lookup_insert_eq by (eapply lookup_lt_Some, Hi). rewrite Hi. cbn. unfold unname. cbn [named]. rewrite (proj2 (bytes_eqb_eq n n) eq_refl). reflexivity.
  - rewrite list_lookup_insert_ne by congruence. destruct (F !! k) as [o|] eqn:E; [|reflexivity]. cbn. f_equal. unfold unname. destruct (named n o) eqn:En; [|reflexivity].
    apply named_iff in En as [u ->]. destruct (next_at_None n i F k u Hnx ltac:(lia) E).
Qed.

Lemma kill_next n i j F v : F !! i = Some (Some (n, v)) -> next_at n i F = Z.of_nat j -> kill n i F = <[i := None]> (kill n j F).
Proof.
  intros Hi Hnx. pose proof (next_at_Some _ _ _ _ Hnx) as [Hij _]. apply list_eq. intros k. rewrite lookup_kill. destruct (decide (k = i)) as [->|Hne].
  - rewrite list_lookup_insert_eq; [|unfold kill; rewrite length_app, length_map, length_take, length_drop; apply lookup_lt_Some in Hi; lia].
    rewrite decide_False by lia. rewrite Hi. cbn. unfold unname. cbn [named]. rewrite (proj2 (bytes_eqb_eq n n) eq_refl). reflexivity.
  - rewrite list_lookup_insert_ne, lookup_kill by congruence. repeat case_decide; try reflexivity; try lia.
    destruct (F !! k) as [o|] eqn:E; [|reflexivity]. cbn. f_equal. unfold unname. destruct (named n o) eqn:En; [|reflexivity]. apply named_iff in En as [u ->].
    unfold next_at in Hnx. destruct (first_at n (drop (S i) F)) as [x|] eqn:Ex; [|lia].
    pose proof (first_at_min n (drop (S i) F) x (k - S i) u Ex) as Hmin. rewrite lookup_drop in Hmin. replace (S i + (k - S i))%nat with k in Hmin by lia. specialize (Hmin E). lia.
Qed.

Lemma kill_first n i F : first_at n F = Some i -> kill n i F = map (unname n) F.
Proof.
  intros Hi. unfold kill. rewrite <- (take_drop i F) at 3. rewrite map_app. f_equal. symmetry.
  assert (H : forall o, o ∈ take i F -> named n o = false).
  { intros o Ho. apply list_elem_of_lookup in Ho as [k Hk]. apply lookup_take_Some in Hk as [Hk Hlt]. destruct (named n o) eqn:E; [|reflexivity].
    apply named_iff in E as [u ->]. pose proof (first_at_min _ _ _ _ _ Hi Hk). lia. }
  induction (take i F) as [|o l IH]; [reflexivity|]. cbn. rewrite IH by (intros; apply H; right; assumption). unfold unname. rewrite H by left. reflexivity.
Qed.

(** The whole chain from [i] on is given up. *)
Lemma del_chain_ok n : forall fuel i v h, (exists segs, laid h segs) ->
  (forall j w, fields h !! j = Some (Some (n, w)) -> kv_next h j = next_at n j (fields h)) ->
  fields h !! i = Some (Some (n, v)) -> (length (fields h) - i <= fuel)%nat ->
  let h' := del_chain fuel (Z.of_nat i) h in
  (exists segs, laid h' segs) /\ fields h' = kill n i (fields h) /\ m_KVPairindex h' = m_KVPairindex h /\
  forall j m w, m <> n -> fields h !! j = Some (Some (m, w)) -> m_lsxpack h' !! j = m_lsxpack h !! j.
Proof.
  induction fuel as [|fuel IH]; intros i v h HL Hc Hi Hf; pose proof (lookup_lt_Some _ _ _ Hi) as Hlt; [lia|]. cbn [del_chain].
  destruct (Z.leb_spec (Z.of_nat i) (-1)); [lia|]. change (chain_next (getKvPair h (Z.of_nat i))) with (kv_next h i). rewrite (Hc i v Hi).
  assert (Hstep : forall h1, (exists segs, laid h1 segs) -> fields h1 !! i = Some (Some (n, v)) ->
    let h' := add_removed 1 (has_hole (upd_kv (Z.of_nat i) (fun _ => zero_hdr) h1)) in
    (exists segs, laid h' segs) /\ fields h' = <[i := None]> (fields h1) /\ m_KVPairindex h' = m_KVPairindex h1 /\
    forall j, j <> i -> m_lsxpack h' !! j = m_lsxpack h1 !! j).
  { intros h1 [segs HL1] Hi1 h'. destruct (laid_at _ _ _ _ _ HL1 Hi1) as (s1 & pad & s2 & ->). destruct (kill_fields _ _ _ _ _ _ _ HL1) as (HK & HF & _).
    split; [eexists; apply (laid_ext _ h' _ HK); [reflexivity|reflexivity|apply same_place_refl]|]. split; [exact HF|]. split; [reflexivity|].
    intros j Hj. subst h'. unfold upd_kv. cbn [m_lsxpack add_removed has_hole on_lsxpack]. rewrite Nat2Z.id. apply list_lookup_insert_ne. congruence. }
  destruct (next_at_end n i (fields h)) as [E|[j E]]; rewrite E.
  - cbn [Z.add Z.gtb Z.compare Z.pos_sub]. destruct (Hstep h HL Hi) as (H1 & H2 & H3 & H4). cbn zeta. rewrite (kill_last _ _ _ _ Hi E). split_and!; auto.
    intros j m w Hm Hj. apply H4. intros ->. rewrite Hi in Hj. congruence.
  - destruct (Z.gtb_spec (Z.of_nat j + 1) 0); [|lia]. pose proof (next_at_Some _ _ _ _ E) as (Hij & u & Hj).
    destruct (IH j u h HL Hc Hj ltac:(lia)) as (H1 & H2 & H3 & H4).
    destruct (Hstep (del_chain fuel (Z.of_nat j) h) H1) as (G1 & G2 & G3 & G4); [rewrite H2, lookup_kill, decide_True by lia; exact Hi|].
    cbn zeta. rewrite (kill_next _ _ _ _ _ Hi E). rewrite G2, H2, G3, H3. split_and!; auto.
    intros k m w Hm Hk. rewrite G4 by (intros ->; rewrite Hi in Hk; congruence). exact (H4 k m w Hm Hk).
Qed.

Lemma first_at_unname n m F : m <> n -> first_at m (map (unname n) F) = first_at m F.
Proof.
  intros Hm. induction F as [|o F IH]; [reflexivity|]. cbn [map first_at]. rewrite IH.
  replace (named m (unname n o)) with (named m o); [reflexivity|]. unfold unname. destruct (named n o) eqn:E; [|reflexivity].
  apply named_iff in E as [v ->]. cbn. destruct (bytes_eqb n m) eqn:E2; [apply bytes_eqb_eq in E2; congruence|reflexivity].
Qed.

Lemma first_at_gone n F : first_at n (map (unname n) F) = None.
Proof. induction F as [|o F IH]; [reflexivity|]. cbn [map first_at]. rewrite IH. unfold unname. destruct (named n o) eqn:E; [reflexivity|]. rewrite E. reflexivity. Qed.

Lemma lines_unname n F : omap id (map (unname n) F) = spec_del n (omap id F).
Proof.
  unfold spec_del. induction F as [|[[m v]|] F IH]; [reflexivity| |exact IH]. cbn [map omap list_omap id].
  change (unname n (Some (m, v))) with (if bytes_eqb m n then None else Some (m, v)). rewrite filter_cons. cbn [fst].
  destruct (bytes_eqb m n) eqn:E.
  - apply bytes_eqb_eq in E. rewrite decide_False by tauto. exact IH.
  - rewrite decide_True; [cbn [id]; f_equal; exact IH|]. intros ->. rewrite (proj2 (bytes_eqb_eq n n) eq_refl) in E. discriminate.
Qed.

Lemma unname_absent n F : first_at n F = None -> map (unname n) F = F.
Proof.
  induction F as [|o F IH]; [reflexivity|]. cbn. destruct (named n o) eqn:E; [discriminate|]. destruct (first_at n F); [discriminate|]. intros _. rewrite IH by reflexivity.
  unfold unname. rewrite E. reflexivity.
Qed.

Lemma lookup_unname n F i m v : map (unname n) F !! i = Some (Some (m, v)) -> F !! i = Some (Some (m, v)) /\ m <> n.
Proof.
  rewrite list_lookup_fmap. destruct (F !! i) as [o|]; [|discriminate]. cbn. unfold unname. destruct (named n o) eqn:E; [discriminate|]. intros [= ->]. split; [reflexivity|].
  intros ->. cbn in E. rewrite (proj2 (bytes_eqb_eq n n) eq_refl) in E. discriminate.
Qed.

(** The state without the lines of one name. *)
Lemma good_without h h' n : good h -> (exists segs, laid h' segs) -> fields h' = map (unname n) (fields h) ->
  (forall j m w, m <> n -> fields h !! j = Some (Some (m, w)) -> m_lsxpack h' !! j = m_lsxpack h !! j) ->
  length (m_KVPairindex h') = 37%nat ->
  (forall idx, 0 <= idx < H_HEADER_END -> znth (m_KVPairindex h') idx = if bytes_eqb (lower (header_name idx)) n then HRH_IDX_NONE else znth (m_KVPairindex h) idx) ->
  good h'.
Proof.
  intros [_ Hn Hc [_ Hi]] HL HF Hlx HK1 HK. split; [exact HL| | |split; [exact HK1|]].
  - intros i m v Hm. rewrite HF in Hm. apply lookup_unname in Hm as [Hm _]. exact (Hn _ _ _ Hm).
  - intros i m v Hm. rewrite HF in Hm |- *. apply lookup_unname in Hm as [Hm Hne]. unfold next_at. rewrite <- fmap_drop. change (drop (S i) (fields h)) with (drop (S i) (fields h)).
    rewrite first_at_unname by exact Hne. fold (next_at m i (fields h)). rewrite <- (Hc _ _ _ Hm). f_equal. unfold getKvPair. rewrite Nat2Z.id, !nth_lookup, (Hlx i m v Hne Hm). reflexivity.
  - intros idx Hidx. rewrite (HK idx Hidx), HF. destruct (bytes_eqb (lower (header_name idx)) n) eqn:E.
    + apply bytes_eqb_eq in E. rewrite E, first_at_gone. reflexivity.
    + rewrite first_at_unname; [apply Hi, Hidx|]. intros H. rewrite H, (proj2 (bytes_eqb_eq n n) eq_refl) in E. discriminate.
Qed.

Lemma good_add_unique k h : good h -> good (add_unique k h).
Proof. intros [[segs HL] Hn Hc Hi]. split; [exists segs; apply (laid_ext h); auto; apply same_place_refl|exact Hn|exact Hc|exact Hi]. Qed.

(** Deleting from the first entry of the name on; [ks] is the index then. *)
Lemma del_first h n i ks h' : good h -> first_at n (fields h) = Some i -> length ks = 37%nat ->
  (forall idx, 0 <= idx < H_HEADER_END -> znth ks idx = if bytes_eqb (lower (header_name idx)) n then HRH_IDX_NONE else znth (m_KVPairindex h) idx) ->
  m_buf h' = m_buf (del_ (Z.of_nat i) h) -> m_lsxpack h' = m_lsxpack (del_ (Z.of_nat i) h) -> m_flags h' = m_flags (del_ (Z.of_nat i) h) -> m_KVPairindex h' = ks ->
  good h' /\ lines h' = spec_del n (lines h) /\ hdr_size h' = hdr_size h.
Proof.
  intros HG Hi Hkl Hki Hb Hl Hfl Hk. destruct (first_at_Some _ _ _ Hi) as [v Hv]. pose proof HG as [HL _ Hc _].
  destruct (del_chain_ok n (length (m_lsxpack h)) i v h HL (fun j w => Hc j n w) Hv) as ([segs HL'] & HF & _ & Hlx); [rewrite fields_length; lia|].
  fold (del_ (Z.of_nat i) h) in HL', HF, Hlx. rewrite (kill_first _ _ _ Hi) in HF.
  assert (Hsame : Forall2 same_place (m_lsxpack (del_ (Z.of_nat i) h)) (m_lsxpack h')) by (rewrite Hl; apply same_place_refl).
  assert (HF' : fields h' = map (unname n) (fields h)) by (rewrite <- HF; apply fields_ext; assumption).
  split; [|split; [unfold lines; rewrite HF'; apply lines_unname|]].
  - apply (good_without h h' n HG); [exists segs; apply (laid_ext _ _ _ HL'); [exact Hb|unfold hole_flag; rewrite Hfl; reflexivity|exact Hsame]|exact HF'| |congruence|rewrite Hk; exact Hki].
    intros j m w Hm Hj. rewrite Hl. exact (Hlx j m w Hm Hj).
  - unfold hdr_size, zlen. rewrite <- !fields_length, HF', length_map. reflexivity.
Qed.

(** [del] and the abstract list. *)
Lemma del_ok h pName : good h -> name_ok pName = true -> hdr_size h < 32767 ->
  let h' := snd (del pName h) in
  fst (del pName h) = 0 /\ good h' /\ lines h' = spec_del (lower pName) (lines h) /\ hdr_size h' = hdr_size h.
Proof.
  intros HG Hok Hsz. pose proof (getIndex_range pName) as Hr. pose proof HG as [_ _ _ [Hkl Hki]]. pose proof (name_ok_pos _ Hok) as Hnp. unfold del.
  assert (Habs : first_at (lower pName) (fields h) = None -> spec_del (lower pName) (lines h) = lines h).
  { intros E. unfold lines. rewrite <- lines_unname, unname_absent by exact E. reflexivity. }
  destruct (Z.eqb_spec (getIndex pName) H_HEADER_END) as [E|E]; cbn [fst snd].
  - split; [reflexivity|]. rewrite (getHeaderKvOrder_ok h pName HG Hnp). destruct (first_at (lower pName) (fields h)) as [i|] eqn:Ei.
    + apply (del_first h (lower pName) i (m_KVPairindex h) _ HG Ei Hkl); try reflexivity.
      * intros idx Hidx. destruct (bytes_eqb (lower (header_name idx)) (lower pName)) eqn:E2; [|reflexivity]. apply bytes_eqb_eq, getIndex_same in E2. rewrite header_index in E2 by exact Hidx. lia.
      * destruct (first_at_Some _ _ _ Ei) as [v Hv]. pose proof HG as [HL _ Hc _].
        destruct (del_chain_ok (lower pName) (length (m_lsxpack h)) i v h HL (fun j w => Hc j _ w) Hv) as (_ & _ & Hkk & _); [rewrite fields_length; lia|]. exact Hkk.
    + replace (del_ (-1) h) with h by (unfold del_; destruct (length (m_lsxpack h)); reflexivity). rewrite Habs by reflexivity. split; [apply good_add_unique, HG|]. split; reflexivity.
  - unfold del_index. rewrite (proj2 (Z.ltb_ge _ _)), (Z.geb_leb), (proj2 (Z.leb_gt _ _)) by lia. cbn [orb]. pose proof (getIndex_name pName Hok E) as Hnm.
    rewrite (Hki (getIndex pName)), <- Hnm by lia. destruct (first_at (lower pName) (fields h)) as [i|] eqn:Ei.
    + assert (Hlt : Z.of_nat i < hdr_size h) by (destruct (first_at_Some _ _ _ Ei) as [v Hv]; apply lookup_lt_Some in Hv; rewrite fields_length in Hv; unfold hdr_size, zlen; lia).
      rewrite (proj2 (Z.eqb_neq (Z.of_nat i) HRH_IDX_NONE)) by (unfold HRH_IDX_NONE; lia). cbn [negb fst snd]. split; [reflexivity|].
      assert (Hkk : m_KVPairindex (del_ (Z.of_nat i) h) = m_KVPairindex h).
      { destruct (first_at_Some _ _ _ Ei) as [v Hv]. pose proof HG as [HL _ Hc _].
        destruct (del_chain_ok (lower pName) (length (m_lsxpack h)) i v h HL (fun j w => Hc j _ w) Hv) as (_ & _ & Hkk & _); [rewrite fields_length; lia|]. exact Hkk. }
      apply (del_first h (lower pName) i (<[Z.to_nat (getIndex pName) := HRH_IDX_NONE]> (m_KVPairindex h)) _ HG Ei); try reflexivity; [rewrite length_insert; exact Hkl| |cbn [m_KVPairindex add_unique set_index]; rewrite Hkk; reflexivity].
      intros idx Hidx. pose proof (getIndex_is pName idx Hok Hidx) as Hgi. unfold znth. rewrite !nth_lookup. destruct (Z.eqb_spec (getIndex pName) idx) as [Eq|Hne].
      * symmetry in Hgi. apply bytes_eqb_eq in Hgi. rewrite <- Hgi, (proj2 (bytes_eqb_eq _ _) eq_refl), <- Eq. rewrite list_lookup_insert_eq; [reflexivity|]. unfold H_HEADER_END in *. lia.
      * rewrite list_lookup_insert_ne by lia. destruct (bytes_eqb (lower (header_name idx)) (lower pName)) eqn:E2; [|reflexivity].
        apply bytes_eqb_eq in E2. rewrite E2, (proj2 (bytes_eqb_eq _ _) eq_refl) in Hgi. discriminate.
    + cbn [negb Z.eqb fst snd]. rewrite Z.eqb_refl. cbn [negb fst snd]. rewrite Habs by reflexivity. auto.
Qed.

(** ** When [add] fails *)

Lemma appendHeader_ret i idx pName v m h : 0 <= val_len (getKvPair h i) -> zlen pName + zlen v + val_len (getKvPair h i) + 5 <= HRH_MAX_LEN ->
  fst (appendHeader i idx pName v m h) = 0.
Proof.
  intros Hk Hle. unfold appendHeader. assert (E : exists need, getAppendHeaderLen (getKvPair h i) (zlen pName) (zlen v) m = Some need).
  { unfold getAppendHeaderLen. rewrite Z.gtb_ltb, (proj2 (Z.ltb_ge _ _)) by lia. destruct (_ && _); [|eauto]. rewrite Z.gtb_ltb, (proj2 (Z.ltb_ge _ _)) by lia. eauto. }
  destruct E as [need ->]. destruct (_ && (m =? LSI_HEADER_ADD)); reflexivity.
Qed.

Lemma add_append_ret i idx pName v m h : 0 <= val_len (getKvPair h i) -> zlen pName + zlen v + val_len (getKvPair h i) + 5 <= HRH_MAX_LEN ->
  fst (add_append i idx pName v m h) = 0.
Proof. intros Hk Hle. unfold add_append. destruct (_ && _); apply appendHeader_ret; assumption. Qed.

(** [add] takes every header that is not too long together with the value it has. *)
Lemma add_returns h pName v m : good h -> name_ok pName = true -> clean v = true -> hdr_size h < 32767 ->
  zlen pName + zlen v + zlen (default [] (head (values (lower pName) (lines h)))) + 5 <= HRH_MAX_LEN -> fst (add pName v m h) = 0.
Proof.
  intros HG Hok Hv Hsz Hle. pose proof (name_ok_pos _ Hok) as Hnp. pose proof (getIndex_range pName) as Hr.
  unfold add, add_at. rewrite Z.gtb_ltb, (proj2 (Z.ltb_ge _ _)) by lia. rewrite (proj2 (Z.leb_gt (zlen pName) 0)), andb_false_r by lia.
  unfold lines in Hle. rewrite values_first in Hle. pose proof (add_entry_ok h pName HG Hok Hsz) as He. destruct (first_at (lower pName) (fields h)) as [i|] eqn:Ei.
  - destruct (first_at_Some _ _ _ Ei) as [w Hw]. rewrite Hw in Hle. cbn in Hle.
    destruct (good_entry h i _ w HG Hw) as (s1 & pad & s2 & kv & HL & Hkv & Hget & (_ & Hnl & _ & Hvl & _) & Hval & Hcw & _ & _).
    rewrite He. cbv zeta. rewrite Hget, Hval, Hvl. pose proof (merge_cases w v Hcw Hv) as Hmc. pose proof (zlen_merged w v) as Hmz. pose proof (zlen_nonneg w) as Hwz.
    assert (Hret : forall u, zlen u <= zlen v -> fst (add_append (Z.of_nat i) (getIndex pName) pName u m h) = 0).
    { intros u Hu. apply add_append_ret; rewrite Hget, Hvl; lia. }
    destruct (_ && (zlen w >=? zlen v)); [reflexivity|]. destruct (_ && (zlen w >? 0) && _); [|apply Hret; lia]. destruct (memchr 44 v).
    + rewrite Hmc. destruct (zlen (merged w v) =? 0); [reflexivity|apply Hret, Hmz].
    + destruct (hasValue w v); [reflexivity|apply Hret; lia].
  - destruct He as (ks & He & _). rewrite He. set (h1 := add_unique 1 (newHdrEntry _)).
    assert (Hl : m_lsxpack h1 = m_lsxpack h ++ [zero_hdr]) by (subst h1; destruct (getIndex pName =? H_HEADER_END); reflexivity).
    assert (Hget : getKvPair h1 (hdr_size h) = zero_hdr).
    { unfold getKvPair. rewrite Hl. unfold hdr_size, zlen. rewrite Nat2Z.id. apply nth_lookup_Some, lookup_snoc_Some. right. auto. }
    rewrite Hget. cbn [name_len val_len zero_hdr Z.gtb Z.compare]. rewrite (proj2 (Z.eqb_neq 0 (zlen pName))), !andb_false_r by lia. cbn [andb].
    apply add_append_ret; rewrite Hget; cbn [val_len zero_hdr]; cbn [default from_option] in Hle; change (zlen (@nil Z)) with 0 in Hle; lia.
Qed.

(** ** Looking up *)

Lemma first_at_drop n F j : first_at n F = Some j -> values n (omap id F) = values n (omap id (drop j F)).
Proof.
  revert j. induction F as [|o F IH]; intros j; [discriminate|]. cbn [first_at]. destruct (named n o) eqn:E; [intros [= <-]; reflexivity|].
  destruct (first_at n F) as [k|]; [|discriminate]. intros [= <-]. cbn [drop]. rewrite <- (IH k eq_refl). unfold values. destruct o as [[m v]|]; [|reflexivity].
  cbn [omap list_omap id]. rewrite filter_cons_False; [reflexivity|]. cbn. intros ->. cbn in E. rewrite (proj2 (bytes_eqb_eq n n) eq_refl) in E. discriminate.
Qed.

Lemma first_at_absent n F : first_at n F = None -> values n (omap id F) = [].
Proof. intros E. pose proof (values_first n F) as H. rewrite E in H. destruct (values n (omap id F)); [reflexivity|discriminate]. Qed.

(** A chain gives the values from its first entry on. *)
Lemma getHeader_chain_ok h n : good h -> forall fuel i max v, fields h !! i = Some (Some (n, v)) -> (length (fields h) - i < fuel)%nat ->
  getHeader_chain fuel (Z.of_nat i) max h = ztake max (values n (omap id (drop i (fields h)))).
Proof.
  intros HG. induction fuel as [|fuel IH]; intros i max v Hi Hf; [lia|]. cbn [getHeader_chain].
  destruct (Z.geb_spec (Z.of_nat i) 0); [|lia]. cbn [andb]. destruct (Z.ltb_spec 0 max) as [Hm|Hm]; [|rewrite ztake_neg by lia; reflexivity].
  destruct (good_entry h i n v HG Hi) as (s1 & pad & s2 & kv & _ & _ & Hget & (_ & Hnl & _ & _ & Hp) & Hval & _). rewrite <- (good_chain _ HG _ _ _ Hi : chain_next _ = _) || idtac.
  rewrite (good_chain _ HG _ _ _ Hi), Hget, Hnl, (proj2 (Z.gtb_lt _ _) Hp), Hval.
  assert (Hd : values n (omap id (drop i (fields h))) = v :: values n (omap id (drop (S i) (fields h)))).
  { rewrite (drop_S _ _ _ Hi). unfold values. cbn [omap list_omap id]. rewrite filter_cons_True by reflexivity. reflexivity. }
  rewrite Hd, ztake_cons by lia. f_equal. unfold next_at. destruct (first_at n (drop (S i) (fields h))) as [j|] eqn:E.
  - pose proof (first_at_drop _ _ _ E) as Hdd. rewrite Hdd, drop_drop. destruct (first_at_Some _ _ _ E) as [w Hw]. rewrite lookup_drop in Hw.
    rewrite (IH (S i + j)%nat (max - 1) w Hw); [reflexivity|]. pose proof (lookup_lt_Some _ _ _ Hi). lia.
  - rewrite (first_at_absent _ _ E). destruct fuel; unfold ztake; rewrite take_nil; reflexivity.
Qed.

Lemma getHeader_ok h pName max : good h -> name_ok pName = true -> hdr_size h < 65535 -> getHeader pName max h = ztake max (values (lower pName) (lines h)).
Proof.
  intros HG Hok Hsz. pose proof (getIndex_range pName) as Hr. pose proof HG as [_ _ _ [_ Hki]]. unfold getHeader.
  assert (Hat : getHeader_at (match first_at (lower pName) (fields h) with Some i => Z.of_nat i | None => -1 end) max h = ztake max (values (lower pName) (lines h))).
  { unfold getHeader_at, lines. destruct (first_at (lower pName) (fields h)) as [i|] eqn:E.
    - rewrite (first_at_drop _ _ _ E). destruct (first_at_Some _ _ _ E) as [v Hv]. apply (getHeader_chain_ok h _ HG _ _ _ v Hv). rewrite fields_length. lia.
    - rewrite (first_at_absent _ _ E). unfold ztake. rewrite take_nil. reflexivity. }
  destruct (Z.eqb_spec (getIndex pName) H_HEADER_END) as [E|E]; cbn [negb].
  - rewrite (getHeaderKvOrder_ok h pName HG (name_ok_pos _ Hok)). exact Hat.
  - unfold getHeader_index. rewrite Z.geb_leb, (proj2 (Z.leb_gt _ _)) by lia. rewrite (Hki (getIndex pName)), <- (getIndex_name pName Hok E) by lia. rewrite <- Hat. f_equal.
    destruct (first_at (lower pName) (fields h)) as [i|] eqn:Ei; [|reflexivity]. destruct (first_at_Some _ _ _ Ei) as [v Hv]. apply lookup_lt_Some in Hv. rewrite fields_length in Hv.
    rewrite (proj2 (Z.eqb_neq (Z.of_nat i) HRH_IDX_NONE)); [reflexivity|]. unfold HRH_IDX_NONE, hdr_size, zlen in *. lia.
Qed.

(** ** The text on the wire *)

(** What the owners say, in the order of the array, is what the lines say. *)
Lemma sorted_lines (F : list (option field)) : forall l k g, StronglySorted lt l ->
  (forall i, i ∈ l <-> (k <= i)%nat /\ exists f, F !! (i - k)%nat = Some (Some f)) ->
  (forall i, (k <= i)%nat -> g i = mjoin (F !! (i - k)%nat)) -> omap id F = omap g l.
Proof.
  induction F as [|o F IH]; intros l k g Hs Hl Hg.
  - destruct l as [|i l]; [reflexivity|]. destruct (proj1 (Hl i) ltac:(left)) as (_ & f & Hf). discriminate.
  - destruct o as [f|].
    + assert (Hk : k ∈ l) by (apply Hl; split; [lia|]; exists f; rewrite Nat.sub_diag; reflexivity).
      destruct l as [|i l]; [apply elem_of_nil in Hk; contradiction|]. apply StronglySorted_inv in Hs as [Hs Hlt].
      destruct (proj1 (Hl i) ltac:(left)) as [Hki _].
      assert (i = k) as -> by (apply elem_of_cons in Hk as [->|Hk]; [reflexivity|]; pose proof (proj1 (List.Forall_forall _ _) Hlt k ltac:(apply list_elem_of_In; exact Hk)); lia).
      cbn [omap list_omap id]. rewrite (Hg k) by lia. rewrite Nat.sub_diag. cbn. f_equal. apply (IH l (S k)); [exact Hs| |].
      * intros i. split.
        -- intros Hi. pose proof (proj1 (List.Forall_forall _ _) Hlt i ltac:(apply list_elem_of_In; exact Hi)). destruct (proj1 (Hl i) ltac:(right; exact Hi)) as (_ & f' & Hf').
           split; [lia|]. exists f'. replace (i - k)%nat with (S (i - S k)) in Hf' by lia. exact Hf'.
        -- intros [Hi (f' & Hf')]. assert (Hin : i ∈ k :: l) by (apply Hl; split; [lia|]; exists f'; replace (i - k)%nat with (S (i - S k)) by lia; exact Hf').
           apply elem_of_cons in Hin as [->|Hin]; [lia|exact Hin].
      * intros i Hi. rewrite Hg by lia. replace (i - k)%nat with (S (i - S k)) by lia. reflexivity.
    + cbn [omap list_omap id]. apply (IH l (S k)); [exact Hs| |].
      * intros i. rewrite Hl. split.
        -- intros [Hi (f' & Hf')]. destruct (decide (i = k)) as [->|]; [rewrite Nat.sub_diag in Hf'; discriminate|]. split; [lia|]. exists f'. replace (i - k)%nat with (S (i - S k)) in Hf' by lia. exact Hf'.
        -- intros [Hi (f' & Hf')]. split; [lia|]. exists f'. replace (i - k)%nat with (S (i - S k)) by lia. exact Hf'.
      * intros i Hi. rewrite Hg by lia. replace (i - k)%nat with (S (i - S k)) by lia. reflexivity.
Qed.

Definition said (s : seg) : option field := match s with Own _ n v _ => Some (n, v) | Hole _ => None end.
Definition pads (segs : list seg) : list nat := omap (fun s => match s with Own _ _ _ p => Some p | Hole _ => None end) segs.

Lemma laid_lines h segs : laid h segs -> hole_flag h = false -> lines h = omap said segs.
Proof.
  intros HL Hf. unfold lines. rewrite (sorted_lines (fields h) (owners segs) 0 (fun i => mjoin (fields h !! i)) (laid_order _ _ HL Hf)).
  - assert (H : forall s, s ∈ segs -> match owner s with Some i => mjoin (fields h !! i) = said s | None => said s = None end).
    { intros s Hs. apply list_elem_of_split in Hs as (s1 & s2 & Hs). destruct s as [i n v pad|t]; [|reflexivity]. cbn. rewrite (laid_field _ _ _ _ _ _ _ _ HL Hs). reflexivity. }
    unfold owners. clear HL Hf. induction segs as [|s segs IH]; [reflexivity|]. cbn [omap list_omap]. pose proof (H s ltac:(left)) as Hs. specialize (IH ltac:(intros; apply H; right; assumption)).
    destruct (owner s) as [i|]; [cbn [omap list_omap]; rewrite Hs; destruct (said s); f_equal; exact IH|rewrite Hs; exact IH].
  - intros i. rewrite Nat.sub_0_r. split.
    + intros Hi. split; [lia|]. apply owner_own in Hi as (s1 & n & v & pad & s2 & Hs). exists (n, v). exact (laid_field _ _ _ _ _ _ _ _ HL Hs).
    + intros [_ ([n v] & Hi)]. destruct (laid_at _ _ _ _ _ HL Hi) as (s1 & pad & s2 & ->). apply own_owner.
  - intros i _. rewrite Nat.sub_0_r. reflexivity.
Qed.

(** The lines as they are sent, each with its padding. *)
Definition sent (L : list field) (ps : list nat) : list Z := concat (zip_with (fun f p => line f.1 f.2 p) L ps).

Lemma text_sent segs : (forall t, Hole t ∉ segs) -> text segs = sent (omap said segs) (pads segs) /\ length (pads segs) = length (omap said segs).
Proof.
  unfold text, sent, pads. induction segs as [|s segs IH]; intros H; [split; reflexivity|]. destruct IH as [IH1 IH2]; [intros t Ht; apply (H t); right; exact Ht|].
  destruct s as [i n v pad|t]; [|destruct (H t ltac:(left))]. cbn in *. rewrite IH1, IH2. split; reflexivity.
Qed.

Lemma describes_line h s1 i n v pad s2 kv : m_buf h = text (s1 ++ Own i n v pad :: s2) -> describes kv (zlen (text s1)) n v ->
  slice (name_offset kv) (name_offset kv + (name_len kv + val_len kv + 2)) (m_buf h) = n ++ [58; 32] ++ v.
Proof.
  intros Hb (Ho & Hn & _ & Hl & _). rewrite Ho, Hn, Hl, Hb, text_app. change (text (Own i n v pad :: s2)) with (line n v pad ++ text s2).
  rewrite slice_shift by lia. rewrite Z.sub_diag. unfold line.
  replace ((n ++ [58; 32] ++ v ++ repeat 32 pad ++ [13; 10]) ++ text s2) with ((n ++ [58; 32] ++ v) ++ repeat 32 pad ++ [13; 10] ++ text s2) by (rewrite <- !app_assoc; reflexivity).
  apply slice_head. rewrite !zlen_app. change (zlen [58; 32]) with 2. lia.
Qed.

(** [mergeAll] leaves no padding and no hole. *)
Lemma mergeAll_buf h : good h -> m_buf (mergeAll h) = sent (lines h) (repeat 0%nat (length (lines h))).
Proof.
  intros [[segs HL] _ _ _]. unfold mergeAll.
  assert (H : forall l out, (forall kv, kv ∈ l -> kv ∈ m_lsxpack h) -> snd (merge_lines (m_buf h) l out) = out ++ sent (omap (field_of h) l) (repeat 0%nat (length (omap (field_of h) l)))).
  { induction l as [|kv l IH]; intros out Hin; [symmetry; apply app_nil_r|]. cbn [merge_lines]. specialize (IH).
    assert (Hkv : kv ∈ m_lsxpack h) by (apply Hin; left). apply list_elem_of_lookup in Hkv as [i Hkv].
    assert (Hfi : fields h !! i = Some (field_of h kv)) by (unfold fields; rewrite list_lookup_fmap, Hkv; reflexivity).
    cbn [omap list_omap]. destruct (field_of h kv) as [[n v]|] eqn:E.
    - assert (En : name_len kv >? 0 = true) by (unfold field_of in E; destruct (name_len kv >? 0); congruence). rewrite En.
      destruct (laid_at _ _ _ _ _ HL Hfi) as (s1 & pad & s2 & Hs). destruct (laid_kv _ _ HL _ _ _ _ _ _ Hs) as (kv' & Hkv' & Hd). rewrite Hkv in Hkv'. injection Hkv' as <-.
      rewrite (describes_line h s1 i n v pad s2 kv) by (try exact Hd; rewrite <- Hs; apply laid_buf, HL).
      destruct (merge_lines _ _ _) as [l' out'] eqn:Em. cbn [snd]. specialize (IH (out ++ (n ++ [58; 32] ++ v) ++ [13; 10]) ltac:(intros; apply Hin; right; assumption)). rewrite Em in IH. cbn [snd] in IH.
      rewrite IH. cbn [length repeat]. unfold sent. cbn [zip_with concat fst snd]. unfold line. cbn [repeat]. rewrite <- !app_assoc. reflexivity.
    - assert (En : name_len kv >? 0 = false) by (unfold field_of in E; destruct (name_len kv >? 0); congruence). rewrite En.
      specialize (IH out ltac:(intros; apply Hin; right; assumption)). destruct (merge_lines _ _ _) as [l' out']. exact IH. }
  specialize (H (m_lsxpack h) [] ltac:(auto)). destruct (merge_lines _ _ _) as [l out]. cbn in *. rewrite H.
  assert (E : omap (field_of h) (m_lsxpack h) = lines h) by (unfold lines, fields; clear; induction (m_lsxpack h) as [|kv l IH]; [reflexivity|]; cbn; destruct (field_of h kv); cbn; rewrite IH; reflexivity).
  rewrite E. reflexivity.
Qed.

Lemma appendToIov_ok h : good h -> exists ps, length ps = length (lines h) /\ fst (appendToIov h) = sent (lines h) ps /\
  (hole_flag h = true -> ps = repeat 0%nat (length (lines h))).
Proof.
  intros HG. pose proof HG as [[segs HL] _ _ _]. unfold appendToIov. fold (hole_flag h). destruct (hole_flag h) eqn:Ef.
  - exists (repeat 0%nat (length (lines h))). rewrite repeat_length. cbn. rewrite (mergeAll_buf h HG). auto.
  - assert (Hnh : forall t, Hole t ∉ segs) by (intros t Ht; pose proof (laid_hole _ _ HL t Ht); congruence).
    destruct (text_sent segs Hnh) as [H1 H2]. exists (pads segs). rewrite (laid_lines h segs HL Ef). cbn. rewrite (laid_buf _ _ HL). split_and!; auto. discriminate.
Qed.

(** ** Sequences of operations *)

Inductive op := Add (pName pVal : list Z) (method : Z) | Del (pName : list Z).

(** Every operation returns 0. *)
Definition run1 (o : op) (h : headers) : option headers :=
  match o with
  | Add n v m => let '(r, h') := add n v m h in if r =? 0 then Some h' else None
  | Del n => let '(r, h') := del n h in if r =? 0 then Some h' else None
  end.
Fixpoint run (ops : list op) (h : headers) : option headers :=
  match ops with [] => Some h | o :: ops => match run1 o h with Some h' => run ops h' | None => None end end.

Definition spec1 (o : op) (L : list field) : list field :=
  match o with Add n v m => spec_add (lower n) v m L | Del n => spec_del (lower n) L end.
Definition spec_run (ops : list op) (L : list field) : list field := fold_left (fun L o => spec1 o L) ops L.

(** A name, a value without blanks at its ends, room for it and for the value that is
    there, and SET only for a name with one line. *)
Definition op_ok (o : op) (L : list field) : bool :=
  match o with
  | Add n v m =>
      name_ok n && clean v && (0 <=? m) && (m <=? 3) &&
      (zlen n + zlen v + zlen (default [] (head (values (lower n) L))) + 5 <=? HRH_MAX_LEN) &&
      (negb (m =? LSI_HEADER_SET) || (zlen (values (lower n) L) <=? 1))
  | Del n => name_ok n
  end.
Fixpoint ops_ok (ops : list op) (L : list field) : bool :=
  match ops with [] => true | o :: ops => op_ok o L && ops_ok ops (spec1 o L) end.

Lemma run1_ok o h : good h -> op_ok o (lines h) = true -> hdr_size h < 32767 ->
  exists h', run1 o h = Some h' /\ good h' /\ lines h' = spec1 o (lines h) /\ hdr_size h' <= hdr_size h + 1.
Proof.
  intros HG Hok Hsz. destruct o as [n v m|n]; cbn [op_ok run1 spec1] in *.
  - do 5 (apply andb_true_iff in Hok as [Hok ?]). pose proof (add_returns h n v m HG ltac:(assumption) ltac:(assumption) Hsz ltac:(lia)) as Hr.
    destruct (add n v m h) as [r h'] eqn:E. cbn in Hr. subst r. exists h'. split; [reflexivity|].
    apply (add_ok h n v m h' HG ltac:(assumption) ltac:(assumption) Hsz ltac:(lia)); [|exact E]. intros ->.
    match goal with H : negb _ || _ = true |- _ => change (negb (LSI_HEADER_SET =? LSI_HEADER_SET)) with false in H; cbn [orb] in H; unfold zlen in H; lia end.
  - destruct (del_ok h n HG Hok Hsz) as (Hr & Hg & Hl & Hs). destruct (del n h) as [r h']. cbn [fst snd] in *. subst r. exists h'. split_and!; auto. lia.
Qed.

Lemma run_ok ops : forall h, good h -> ops_ok ops (lines h) = true -> hdr_size h + zlen ops <= 32767 ->
  exists h', run ops h = Some h' /\ good h' /\ lines h' = spec_run ops (lines h) /\ hdr_size h' <= hdr_size h + zlen ops.
Proof.
  induction ops as [|o ops IH]; intros h HG Hok Hsz; cbn [ops_ok run] in *.
  - exists h. split_and!; auto. rewrite zlen_nil. lia.
  - rewrite zlen_cons in *. pose proof (zlen_nonneg ops). apply andb_true_iff in Hok as [Ho Hok]. destruct (run1_ok o h HG Ho ltac:(lia)) as (h1 & -> & HG1 & HL1 & Hs1).
    rewrite <- HL1 in Hok. destruct (IH h1 HG1 Hok ltac:(lia)) as (h' & -> & HG' & HL' & Hs'). exists h'. split_and!; auto; [|lia].
    rewrite HL', HL1. reflexivity.
Qed.

(** ** Theorems *)

(** C5: A response's header fields refine an ordered list of names and values.  Take any
    sequence of additions, with the four methods, and deletions that starts from empty
    fields, of at most 32766 operations each of which is in order ([op_ok]): the name has
    bytes and does not begin as a pseudo header's, the value is not empty and has no blanks
    at its ends, the header fits together with the value it may be joined to, and SET is
    not used for a name that has several lines at the time.  Such a sequence succeeds;
    then looking a name up, up to case, gives the list's values for it in order (at most
    as many as asked for), and the text on the wire is the list's lines in order, with
    blanks behind values that were replaced in place, and none once a line has moved or
    gone.  ([header_quirks] shows what happens to empty values and to SET with several
    lines.) *)
Theorem fields_refine flag ops : Z.land flag HRH_F_HAS_HOLE = 0 -> ops_ok ops [] = true -> zlen ops <= 32766 ->
  exists h, run ops (reset flag) = Some h /\
  (forall n max, name_ok n = true -> getHeader n max h = ztake max (values (lower n) (spec_run ops []))) /\
  exists ps, length ps = length (spec_run ops []) /\ fst (appendToIov h) = sent (spec_run ops []) ps /\
    (hole_flag h = true -> ps = repeat 0%nat (length (spec_run ops []))).
Proof.
  intros Hf Hok Hlen. change [] with (lines (reset flag)) in Hok.
  destruct (run_ok ops (reset flag) (good_reset flag Hf) Hok) as (h & Hr & HG & HL & Hs); [change (hdr_size (reset flag)) with 1; lia|].
  change (lines (reset flag)) with (@nil field) in HL. change (hdr_size (reset flag)) with 1 in Hs.
  exists h. split; [exact Hr|]. rewrite <- HL. split; [|apply appendToIov_ok, HG]. intros n max Hn. apply getHeader_ok; [exact HG|exact Hn|lia].
Qed.

Definition sample_ops : list op :=
  [Add (bs "Content-Type") (bs "text/html") LSI_HEADER_SET; Add (bs "Set-Cookie") (bs "a=1") LSI_HEADER_ADD;
   Add (bs "VARY") (bs "Accept-Encoding") LSI_HEADER_MERGE; Add (bs "X-Tag") (bs "one") LSI_HEADER_ADD;
   Add (bs "Set-Cookie") (bs "b=2") LSI_HEADER_ADD; Add (bs "Vary") (bs "Cookie, Accept-Encoding") LSI_HEADER_MERGE;
   Add (bs "content-type") (bs "text/css") LSI_HEADER_SET; Add (bs "x-tag") (bs "two") LSI_HEADER_APPEND;
   Del (bs "X-Powered-By"); Add (bs "Link") (bs "</a>") LSI_HEADER_ADD; Del (bs "x-tag"); Add (bs "X-Tag") (bs "three") LSI_HEADER_ADD].

Lemma fields_refine_witness :
  spec_run sample_ops [] = [(bs "content-type", bs "text/css"); (bs "set-cookie", bs "a=1"); (bs "vary", bs "Accept-Encoding,Cookie");
                            (bs "set-cookie", bs "b=2"); (bs "link", bs "</a>"); (bs "x-tag", bs "three")] /\
  exists h, run sample_ops (reset 0) = Some h /\
  (forall n max, name_ok n = true -> getHeader n max h = ztake max (values (lower n) (spec_run sample_ops []))) /\
  exists ps, length ps = length (spec_run sample_ops []) /\ fst (appendToIov h) = sent (spec_run sample_ops []) ps /\
    (hole_flag h = true -> ps = repeat 0%nat (length (spec_run sample_ops []))).
Proof. split; [vm_compute; reflexivity|]. apply (fields_refine 0 sample_ops); vm_compute; [reflexivity|reflexivity|discriminate]. Defined.

(** What the operations do outside the bounds of the refinement. *)
Definition added (l : list (string * string * Z)) : headers := fold_left (fun h '(n, v, m) => snd (add (bs n) (bs v) m h)) l (reset 0).
Definition wire (h : headers) : list Z := fst (appendToIov h).
Definition crlf_lines (l : list string) : list Z := concat (map (fun s => bs s ++ [13; 10]) l).

(** Where response headers do not follow the list of lines: SET on a name with
    several lines replaces the first and leaves the others on the wire; an empty value
    leaves its line there when the name gets one; the enumeration of headers passes
    over a name with several lines, whose first entry is marked like the others;
    deleting a name that is not there counts the headers down; the methods of the
    interface for modules are numbered otherwise than those of [add], so that SET adds
    a line, APPEND replaces, and ADD joins the values; and a text that excludes a name
    loses the end of a line that was replaced in place. *)
Theorem header_quirks :
  wire (added [("X-A", "one", LSI_HEADER_ADD); ("X-A", "two", LSI_HEADER_ADD); ("X-A", "a longer", LSI_HEADER_SET)])%string =
    crlf_lines ["x-a: a longer"; "x-a: two"] /\
  wire (added [("X-A", "", LSI_HEADER_SET); ("X-A", "two", LSI_HEADER_SET)])%string = crlf_lines ["x-a: "; "x-a: two"] /\
  enumerate 10 (-1) (added [("X-A", "one", LSI_HEADER_ADD); ("X-A", "two", LSI_HEADER_ADD); ("X-B", "b", LSI_HEADER_ADD)])%string =
    [(bs "x-b", [bs "b"])] /\
  getCount (reset 0) = 0 /\ m_iHeaderUniqueCount (snd (del (bs "X-Z") (reset 0))) = -1 /\
  map (fun m => wire (added [("X-A", "one", LSI_HEADER_ADD); ("X-A", "two", m)]%string)) [LSI_HEADEROP_SET; LSI_HEADEROP_APPEND; LSI_HEADEROP_MERGE; LSI_HEADEROP_ADD] =
    [crlf_lines ["x-a: one"; "x-a: two"]; crlf_lines ["x-a: two"]; crlf_lines ["x-a: one,two"]; crlf_lines ["x-a: one,two"]] /\
  let h := added [("X-A", "longer", LSI_HEADER_ADD); ("X-A", "two", LSI_HEADER_SET); ("X-B", "b", LSI_HEADER_ADD); ("X-C", "c", LSI_HEADER_ADD)]%string in
  wire h = crlf_lines ["x-a: two   "; "x-b: b"; "x-c: c"] /\ appendToIovExclude (bs "x-b") h = bs "x-a: two  " ++ crlf_lines ["x-c: c"].
Proof. vm_compute. repeat split. Qed.
