(* ===== verification/Upkd.v ===== *)
(** * Upkd: the headers of an HTTP/2 request
    (src/src/h2/unpackedheaders.cpp, src/src/h2/unpackedheaders.h,
    src/src/h2/h2connection.cpp, src/src/util/autobuf.h, src/src/lsr/ls_buf.c)

    The decoder of the header compression writes each header as an HTTP/1 line behind
    the end of a buffer; the builder checks it and moves the pseudo headers in place
    into a request line and a Host line, in whatever order they come, so that the
    buffer ends up as the header block of an HTTP/1 request.  The decoder is a parameter:
    a list of what its calls give.  A store is recorded when it passes the end of the
    buffer.  The marks that only the encoders use are left out. *)

From S2P Require Import Prelude Headers Request RespHeaders.
Import HttpHeader HttpRespHeaders(lsxpack_header, Hdr, hdr_buf, name_offset, name_len, val_offset, val_len, chain_next_idx, app_index, hdr_app_idx).
#[local] Open Scope Z_scope.

(** Codes of [lsxpack_err_code], and of the headers that are not request headers. *)
Definition LSXPACK_OK : Z := 0.
Definition LSXPACK_ERR_DUPLICATE_PSDO_HDR : Z := 1.
Definition LSXPACK_ERR_INCOMPL_REQ_PSDO_HDR : Z := 2.
Definition LSXPACK_ERR_UNNEC_REQ_PSDO_HDR : Z := 3.
Definition LSXPACK_ERR_BAD_REQ_HEADER : Z := 4.
Definition LSXPACK_ERR_UPPERCASE_HEADER : Z := 8.
Definition LSXPACK_ERR_MISPLACED_PSDO_HDR : Z := 9.
Definition LSXPACK_ERR_HEADERS_TOO_LARGE : Z := 11.
Definition LSXPACK_ERR_NOMEM : Z := 12.

Definition UPK_HDR_METHOD : Z := 251.
Definition UPK_HDR_PATH : Z := 252.
Definition UPK_HDR_SCHEME : Z := 253.
Definition UPK_HDR_STATUS : Z := 254.
Definition UPK_HDR_UNKNOWN : Z := 255.
Definition UPK_PSDO_RESERVE : Z := 3.
Definition H_UNKNOWN : Z := H_HEADER_END.
Definition MAX_METHOD_LEN : Z := 16.
Definition UINT16_MAX : Z := 65535.

(** ** The tables *)

Definition hpack2appreq : list Z := [
  H_HOST; UPK_HDR_METHOD; UPK_HDR_METHOD; UPK_HDR_PATH; UPK_HDR_PATH; UPK_HDR_SCHEME; UPK_HDR_SCHEME; UPK_HDR_STATUS;
  UPK_HDR_STATUS; UPK_HDR_STATUS; UPK_HDR_STATUS; UPK_HDR_STATUS; UPK_HDR_STATUS; UPK_HDR_STATUS; H_ACC_CHARSET;
  H_ACC_ENCODING; H_ACC_LANG; H_UNKNOWN; H_ACCEPT; H_UNKNOWN; H_UNKNOWN; H_ALLOW; H_AUTHORIZATION; H_CACHE_CTRL;
  H_UNKNOWN; H_CONTENT_ENCODING; H_CONTENT_LANGUAGE; H_CONTENT_LENGTH; H_CONTENT_LOCATION; H_CONTENT_RANGE;
  H_CONTENT_TYPE; H_COOKIE; H_DATE; H_UNKNOWN; H_EXPECT; H_EXPIRES; H_UNKNOWN; H_HOST; H_IF_MATCH;
  H_IF_MODIFIED_SINCE; H_IF_NO_MATCH; H_IF_RANGE; H_IF_UNMOD_SINCE; H_LAST_MODIFIED; H_UNKNOWN; H_UNKNOWN;
  H_MAX_FORWARDS; H_UNKNOWN; H_PROXY_AUTH; H_RANGE; H_REFERER; H_UNKNOWN; H_UNKNOWN; H_UNKNOWN; H_UNKNOWN; H_UNKNOWN;
  H_TRANSFER_ENCODING; H_USERAGENT; H_UNKNOWN; H_VIA; H_UNKNOWN].
Definition qpack2appreq : list Z := [
  H_HOST; UPK_HDR_PATH; H_UNKNOWN; H_UNKNOWN; H_CONTENT_LENGTH; H_COOKIE; H_DATE; H_UNKNOWN; H_IF_MODIFIED_SINCE;
  H_IF_NO_MATCH; H_LAST_MODIFIED; H_UNKNOWN; H_UNKNOWN; H_REFERER; H_UNKNOWN; UPK_HDR_METHOD; UPK_HDR_METHOD;
  UPK_HDR_METHOD; UPK_HDR_METHOD; UPK_HDR_METHOD; UPK_HDR_METHOD; UPK_HDR_METHOD; UPK_HDR_SCHEME; UPK_HDR_SCHEME;
  UPK_HDR_STATUS; UPK_HDR_STATUS; UPK_HDR_STATUS; UPK_HDR_STATUS; UPK_HDR_STATUS; H_ACCEPT; H_ACCEPT; H_ACC_ENCODING;
  H_UNKNOWN; H_UNKNOWN; H_UNKNOWN; H_UNKNOWN; H_CACHE_CTRL; H_CACHE_CTRL; H_CACHE_CTRL; H_CACHE_CTRL; H_CACHE_CTRL;
  H_CACHE_CTRL; H_CONTENT_ENCODING; H_CONTENT_ENCODING; H_CONTENT_TYPE; H_CONTENT_TYPE; H_CONTENT_TYPE;
  H_CONTENT_TYPE; H_CONTENT_TYPE; H_CONTENT_TYPE; H_CONTENT_TYPE; H_CONTENT_TYPE; H_CONTENT_TYPE; H_CONTENT_TYPE;
  H_CONTENT_TYPE; H_RANGE; H_UNKNOWN; H_UNKNOWN; H_UNKNOWN; H_UNKNOWN; H_UNKNOWN; H_UNKNOWN; H_UNKNOWN;
  UPK_HDR_STATUS; UPK_HDR_STATUS; UPK_HDR_STATUS; UPK_HDR_STATUS; UPK_HDR_STATUS; UPK_HDR_STATUS; UPK_HDR_STATUS;
  UPK_HDR_STATUS; UPK_HDR_STATUS; H_ACC_LANG; H_UNKNOWN; H_UNKNOWN; H_UNKNOWN; H_UNKNOWN; H_UNKNOWN; H_UNKNOWN;
  H_UNKNOWN; H_UNKNOWN; H_UNKNOWN; H_UNKNOWN; H_UNKNOWN; H_AUTHORIZATION; H_UNKNOWN; H_UNKNOWN; H_UNKNOWN; H_UNKNOWN;
  H_IF_RANGE; H_UNKNOWN; H_UNKNOWN; H_UNKNOWN; H_UNKNOWN; H_UNKNOWN; H_USERAGENT; H_X_FORWARDED_FOR; H_UNKNOWN;
  H_UNKNOWN].
Definition s_appreq2hpack : list Z := [
  14; 7; 5; 3; 19; 15; 16; 17; 23; 0; 31; 28; 32; 0; 38; 0; 51; 58; 24; 40; 39; 41; 42; 43; 0; 50; 0; 60; 57; 0; 35;
  47; 49; 0; 33; 0; 0; 0; 22; 26; 27; 29; 0; 30; 36; 44].
Definition s_appreq2qpack : list Z := [
  71; 23; 1; 21; 30; -1; 31; 72; 84; -1; 54; 4; 5; -1; -1; -1; 13; 95; 41; 8; -1; 9; 89; -1; -1; 55; 96; -1; -1; -1;
  -1; -1; -1; -1; 6; -1; -1; -1; -1; 43; -1; -1; -1; -1; -1; 10].
Definition s_qpack2hpack : list Z := [
  1; 5; 21; 25; 28; 32; 33; 34; 40; 41; 44; 45; 46; 51; 55; 3; 3; 3; 3; 3; 3; 3; 7; 7; 14; 14; 14; 14; 14; 19; 19;
  16; 18; 0; 0; 20; 24; 24; 24; 24; 24; 24; 26; 26; 31; 31; 31; 31; 31; 31; 31; 31; 31; 31; 31; 50; 56; 56; 56; 59;
  59; 0; 0; 14; 14; 14; 14; 14; 14; 14; 14; 14; 17; 0; 0; 0; 0; 0; 0; 0; 0; 0; 0; 0; 23; 0; 0; 0; 0; 42; 0; 0; 54; 0;
  0; 58; 0; 0; 0].
Definition s_hpack2qpack : list Z := [
  0; 21; 21; 1; 1; 23; 23; 71; 71; 71; 71; 71; 71; 71; -1; 31; 72; 32; 30; 35; 2; -1; 84; 41; 3; 43; -1; 4; -1; -1;
  54; 5; 6; 7; -1; -1; -1; -1; -1; 8; 9; 89; -1; 10; 11; 12; -1; -1; -1; 55; 13; -1; -1; 92; 14; 58; -1; 95; 60; -1;
  -1].
(** The names that the tables are for, as the source writes them beside the entries. *)
Definition hpack_names : list (list Z) := map bs [
  ":authority"; ":method"; ":method"; ":path"; ":path"; ":scheme"; ":scheme"; ":status"; ":status"; ":status";
  ":status"; ":status"; ":status"; ":status"; "accept-charset"; "accept-encoding"; "accept-language";
  "accept-ranges"; "accept"; "access-control-allow-origin"; "age"; "allow"; "authorization"; "cache-control";
  "content-disposition"; "content-encoding"; "content-language"; "content-length"; "content-location";
  "content-range"; "content-type"; "cookie"; "date"; "etag"; "expect"; "expires"; "from"; "host"; "if-match";
  "if-modified-since"; "if-none-match"; "if-range"; "if-unmodified-since"; "last-modified"; "link"; "location";
  "max-forwards"; "proxy-authenticate"; "proxy-authorization"; "range"; "referer"; "refresh"; "retry-after";
  "server"; "set-cookie"; "strict-transport-security"; "transfer-encoding"; "user-agent"; "vary"; "via";
  "www-authenticate"].
Definition qpack_names : list (list Z) := map bs [
  ":authority"; ":path"; "age"; "content-disposition"; "content-length"; "cookie"; "date"; "etag";
  "if-modified-since"; "if-none-match"; "last-modified"; "link"; "location"; "referer"; "set-cookie"; ":method";
  ":method"; ":method"; ":method"; ":method"; ":method"; ":method"; ":scheme"; ":scheme"; ":status"; ":status";
  ":status"; ":status"; ":status"; "accept"; "accept"; "accept-encoding"; "accept-ranges";
  "access-control-allow-headers"; "access-control-allow-headers"; "access-control-allow-origin"; "cache-control";
  "cache-control"; "cache-control"; "cache-control"; "cache-control"; "cache-control"; "content-encoding";
  "content-encoding"; "content-type"; "content-type"; "content-type"; "content-type"; "content-type"; "content-type";
  "content-type"; "content-type"; "content-type"; "content-type"; "content-type"; "range";
  "strict-transport-security"; "strict-transport-security"; "strict-transport-security"; "vary"; "vary";
  "x-content-type-options"; "x-xss-protection"; ":status"; ":status"; ":status"; ":status"; ":status"; ":status";
  ":status"; ":status"; ":status"; "accept-language"; "access-control-allow-credentials";
  "access-control-allow-credentials"; "access-control-allow-headers"; "access-control-allow-methods";
  "access-control-allow-methods"; "access-control-allow-methods"; "access-control-expose-headers";
  "access-control-request-headers"; "access-control-request-method"; "access-control-request-method"; "alt-svc";
  "authorization"; "content-security-policy"; "early-data"; "expect-ct"; "forwarded"; "if-range"; "origin";
  "purpose"; "server"; "timing-allow-origin"; "upgrade-insecure-requests"; "user-agent"; "x-forwarded-for";
  "x-frame-options"; "x-frame-options"].
Definition s_reqHeaderCharErr : list Z := [
  68; 68; 68; 68; 68; 68; 68; 68; 68; 5; 68; 68; 68; 68; 68; 68; 68; 68; 68; 68; 68; 68; 68; 68; 68; 68; 68; 68; 68;
  68; 68; 68; 5; 0; 4; 0; 0; 0; 0; 0; 4; 4; 0; 0; 4; 0; 0; 4; 0; 0; 0; 0; 0; 0; 0; 0; 0; 0; 4; 4; 4; 4; 4; 4; 4; 8;
  8; 8; 8; 8; 8; 8; 8; 8; 8; 8; 8; 8; 8; 8; 8; 8; 8; 8; 8; 8; 8; 8; 8; 8; 8; 4; 6; 4; 0; 0; 0; 0; 0; 0; 0; 0; 0; 0;
  0; 0; 0; 0; 0; 0; 0; 0; 0; 0; 0; 0; 0; 0; 0; 0; 0; 0; 0; 4; 0; 4; 0; 68; 4; 4; 4; 4; 4; 4; 4; 4; 4; 4; 4; 4; 4; 4;
  4; 4; 4; 4; 4; 4; 4; 4; 4; 4; 4; 4; 4; 4; 4; 4; 4; 4; 4; 4; 4; 4; 4; 4; 4; 4; 4; 4; 4; 4; 4; 4; 4; 4; 4; 4; 4; 4;
  4; 4; 4; 4; 4; 4; 4; 4; 4; 4; 4; 4; 4; 4; 4; 4; 4; 4; 4; 4; 4; 4; 4; 4; 4; 4; 4; 4; 4; 4; 4; 4; 4; 4; 4; 4; 4; 4;
  4; 4; 4; 4; 4; 4; 4; 4; 4; 4; 4; 4; 4; 4; 4; 4; 4; 4; 4; 4; 4; 4; 4; 4; 4; 4; 4; 4; 4; 4; 4; 4; 4; 4; 4; 4; 4; 4].

Definition hpack2ReqIdx (hpack_index : Z) : Z :=
  if (hpack_index >? 0) && (hpack_index <=? 61) then znth hpack2appreq (hpack_index - 1) else UPK_HDR_UNKNOWN.
Definition qpack2ReqIdx (qpack_index : Z) : Z :=
  if (qpack_index >=? 0) && (qpack_index <? 99) then znth qpack2appreq qpack_index else UPK_HDR_UNKNOWN.
Definition lookup_appreq2hpack (idx : Z) : Z :=
  let idx := idx + 4 in if (idx >=? 0) && (idx <? 46) then znth s_appreq2hpack idx else 0.
Definition lookup_appreq2qpack (idx : Z) : Z :=
  let idx := idx + 4 in if (idx >=? 0) && (idx <? 46) then znth s_appreq2qpack idx else -1.
Definition qpack2hpack (idx : Z) : Z := if (idx >=? 0) && (idx <? 99) then znth s_qpack2hpack idx else 0.
Definition hpack2qpack (idx : Z) : Z :=
  let idx := idx - 1 in if (idx >=? 0) && (idx <? 61) then znth s_hpack2qpack idx else -1.

(** ** The buffer *)

(** What was written, also behind the end; the end; the capacity; whether a store
    passed the capacity. *)
Record AutoBuf := Buf { mem : list Z; bsize : Z; cap : Z; oob : bool }.

Definition available (b : AutoBuf) : Z := cap b - bsize b.
Definition bdata (b : AutoBuf) : list Z := ztake (bsize b) (mem b).
Definition get_bytes (off n : Z) (b : AutoBuf) : list Z := slice off (off + n) (mem b).
Definition used (n : Z) (b : AutoBuf) : AutoBuf := Buf (mem b) (bsize b + n) (cap b) (oob b).
(** [memmove] to [off] of bytes that were read. *)
Definition move_to (off : Z) (d : list Z) (b : AutoBuf) : AutoBuf :=
  Buf (store (mem b) off d) (bsize b) (cap b) (oob b || (off + zlen d >? cap b)).
Definition ls_buf_xreserve (n : Z) (b : AutoBuf) : AutoBuf := Buf (mem b) (Z.min (bsize b) n) n (oob b).
Definition ls_buf_xgrow (n : Z) (b : AutoBuf) : AutoBuf := ls_buf_xreserve (cap b + Z.shiftl (Z.shiftr (n + 511) 9) 9) b.
Definition guarantee (n : Z) (b : AutoBuf) : AutoBuf := if n <=? available b then b else ls_buf_xreserve (n + bsize b + 1) b.
Definition append_unsafe (d : list Z) (b : AutoBuf) : AutoBuf := used (zlen d) (move_to (bsize b) d b).
Definition append (d : list Z) (b : AutoBuf) : AutoBuf :=
  append_unsafe d (if zlen d >? available b then ls_buf_xgrow (zlen d - available b) b else b).

(** ** The headers *)

(** [m_url] and [m_host] are a text that is kept elsewhere, if there is one, and a length. *)
Record UnpackedHeaders := Upk {
  m_buf : AutoBuf; m_lsxpack : list lsxpack_header; m_url : option (list Z); m_url_len : Z; m_host : option (list Z); m_host_len : Z;
  m_commonHeaderPos : list Z; m_host_offset : Z; m_url_offset : Z; m_methodLen : Z; m_first_cookie_idx : Z }.

Definition on_buf (f : AutoBuf -> AutoBuf) (u : UnpackedHeaders) : UnpackedHeaders :=
  Upk (f (m_buf u)) (m_lsxpack u) (m_url u) (m_url_len u) (m_host u) (m_host_len u) (m_commonHeaderPos u) (m_host_offset u) (m_url_offset u) (m_methodLen u) (m_first_cookie_idx u).
Definition on_lsxpack (f : list lsxpack_header -> list lsxpack_header) (u : UnpackedHeaders) : UnpackedHeaders :=
  Upk (m_buf u) (f (m_lsxpack u)) (m_url u) (m_url_len u) (m_host u) (m_host_len u) (m_commonHeaderPos u) (m_host_offset u) (m_url_offset u) (m_methodLen u) (m_first_cookie_idx u).
Definition set_url (s : option (list Z)) (n : Z) (u : UnpackedHeaders) : UnpackedHeaders :=
  Upk (m_buf u) (m_lsxpack u) s n (m_host u) (m_host_len u) (m_commonHeaderPos u) (m_host_offset u) (m_url_offset u) (m_methodLen u) (m_first_cookie_idx u).
Definition set_host (s : option (list Z)) (n : Z) (u : UnpackedHeaders) : UnpackedHeaders :=
  Upk (m_buf u) (m_lsxpack u) (m_url u) (m_url_len u) s n (m_commonHeaderPos u) (m_host_offset u) (m_url_offset u) (m_methodLen u) (m_first_cookie_idx u).
Definition set_pos (index pos : Z) (u : UnpackedHeaders) : UnpackedHeaders :=
  Upk (m_buf u) (m_lsxpack u) (m_url u) (m_url_len u) (m_host u) (m_host_len u) (<[Z.to_nat index := pos]> (m_commonHeaderPos u)) (m_host_offset u) (m_url_offset u) (m_methodLen u) (m_first_cookie_idx u).
Definition set_host_offset (n : Z) (u : UnpackedHeaders) : UnpackedHeaders :=
  Upk (m_buf u) (m_lsxpack u) (m_url u) (m_url_len u) (m_host u) (m_host_len u) (m_commonHeaderPos u) (wrapu 16 n) (m_url_offset u) (m_methodLen u) (m_first_cookie_idx u).
Definition set_url_offset (n : Z) (u : UnpackedHeaders) : UnpackedHeaders :=
  Upk (m_buf u) (m_lsxpack u) (m_url u) (m_url_len u) (m_host u) (m_host_len u) (m_commonHeaderPos u) (m_host_offset u) (wrapu 16 n) (m_methodLen u) (m_first_cookie_idx u).
Definition set_methodLen (n : Z) (u : UnpackedHeaders) : UnpackedHeaders :=
  Upk (m_buf u) (m_lsxpack u) (m_url u) (m_url_len u) (m_host u) (m_host_len u) (m_commonHeaderPos u) (m_host_offset u) (m_url_offset u) n (m_first_cookie_idx u).
Definition set_first_cookie (n : Z) (u : UnpackedHeaders) : UnpackedHeaders :=
  Upk (m_buf u) (m_lsxpack u) (m_url u) (m_url_len u) (m_host u) (m_host_len u) (m_commonHeaderPos u) (m_host_offset u) (m_url_offset u) (m_methodLen u) n.

Definition zero_hdr : lsxpack_header := Hdr false 0 0 0 0 0 0 false.
Definition get_hdr (i : Z) (u : UnpackedHeaders) : lsxpack_header := nth (Z.to_nat i) (m_lsxpack u) zero_hdr.
Definition put_hdr (i : Z) (h : lsxpack_header) (u : UnpackedHeaders) : UnpackedHeaders := on_lsxpack (<[Z.to_nat i := h]>) u.
Definition pop_hdr (u : UnpackedHeaders) : UnpackedHeaders := on_lsxpack (fun l => removelast l) u.
Definition move_val (n : Z) (h : lsxpack_header) : lsxpack_header :=
  Hdr (hdr_buf h) (name_offset h) (name_len h) (val_offset h + n) (val_len h) (chain_next_idx h) (app_index h) (hdr_app_idx h).

(** The constructor, and [reset]. *)
Definition new_headers : UnpackedHeaders :=
  Upk (append (repeat 0 4) (Buf [] 0 1024 false)) (repeat zero_hdr 3) None 0 None 0 (repeat 0 25) 0 0 0 UINT16_MAX.
Definition reset (u : UnpackedHeaders) : UnpackedHeaders :=
  Upk (let b := m_buf u in Buf (mem b) HEADER_BUF_PAD (cap b) (oob b)) (repeat zero_hdr 3) None 0 None 0 (repeat 0 25) 0 0 0 (m_first_cookie_idx u).

Definition getHeaderCount (u : UnpackedHeaders) : Z := zlen (m_lsxpack u).
Definition isComplete (u : UnpackedHeaders) : bool := (match m_host u with None => true | Some _ => false end) && negb (m_host_len u =? 0).
Definition getMethod (u : UnpackedHeaders) : list Z := get_bytes HEADER_BUF_PAD (m_methodLen u) (m_buf u).
Definition getUrl (u : UnpackedHeaders) : list Z := get_bytes (m_url_offset u) (m_url_len u) (m_buf u).
Definition getHost (u : UnpackedHeaders) : list Z := get_bytes (m_host_offset u) (m_host_len u) (m_buf u).

(** *** Requests that are made here *)

Definition line (name val : list Z) : list Z := name ++ [58; 32] ++ val ++ [13; 10].
Definition s_http11 : list Z := bs " HTTP/1.1" ++ [13; 10].

(** Where a header of this index is recorded. *)
Definition note_pos (index pos : Z) (u : UnpackedHeaders) : UnpackedHeaders :=
  if (index >=? 0) && (index <? H_TE) && (znth (m_commonHeaderPos u) index =? 0) then set_pos index pos u else u.

(** [appendHeader] of text that is not in the buffer. *)
Definition appendHeader (index : Z) (name val : list Z) (u : UnpackedHeaders) : UnpackedHeaders :=
  let b := guarantee (zlen name + zlen val + 6) (m_buf u) in
  let entry := Hdr true (bsize b) (zlen name) (bsize b + zlen name + 2) (zlen val) 0 index (negb (index =? H_UNKNOWN) && negb (index =? UPK_HDR_UNKNOWN)) in
  let pos := getHeaderCount u in
  note_pos index pos (on_buf (fun _ => append_unsafe (line (map tolower name) val) b) (on_lsxpack (fun l => l ++ [entry]) u)).

Definition appendExistHeader (index name_off name_n val_off val_n : Z) (u : UnpackedHeaders) : Z * UnpackedHeaders :=
  let index := if index =? UPK_HDR_UNKNOWN then H_UNKNOWN else index in
  let entry := Hdr true name_off name_n val_off val_n 0 index (negb (index =? H_UNKNOWN)) in
  let pos := getHeaderCount u in
  (pos, note_pos index pos (on_lsxpack (fun l => l ++ [entry]) u)).

Definition appendReqLine (method url : list Z) (u : UnpackedHeaders) : UnpackedHeaders :=
  let b := append_unsafe (method ++ [32]) (guarantee (zlen method + zlen url + 17) (m_buf u)) in
  set_url_offset (bsize b) (set_url (m_url u) (zlen url) (set_methodLen (zlen method) (on_buf (fun _ => append_unsafe (url ++ s_http11) b) u))).

Definition setReqLine (method uri qs : list Z) (u : UnpackedHeaders) : UnpackedHeaders :=
  let b := guarantee (zlen method + zlen uri + zlen qs + 18) (m_buf u) in
  let b := if bsize b =? HEADER_BUF_PAD then append_unsafe (method ++ [32]) b else move_to HEADER_BUF_PAD method b in
  let target := uri ++ (if 0 <? zlen qs then [63] ++ qs else []) in
  set_url_offset (bsize b) (set_url (m_url u) (zlen target) (set_methodLen (zlen method) (on_buf (fun _ => append_unsafe (target ++ s_http11) b) u))).

Definition endHeader (u : UnpackedHeaders) : UnpackedHeaders := on_buf (append_unsafe [13; 10]) u.

Definition appendUrl (url : list Z) (u : UnpackedHeaders) : UnpackedHeaders :=
  let b := guarantee (zlen url + m_host_len u + 17) (m_buf u) in
  let u := set_url_offset (bsize b) (on_buf (fun _ => append s_http11 (append url b)) u) in
  match m_host u with
  | Some host => set_host None (m_host_len u) (appendHeader H_HOST (bs "host") host (set_host_offset (bsize (m_buf u) + 6) u))
  | None => u
  end.
Definition setMethod (method : list Z) (u : UnpackedHeaders) : Z * UnpackedHeaders :=
  if negb (bsize (m_buf u) =? HEADER_BUF_PAD) then (-1, u)
  else
    let u := set_methodLen (zlen method) (on_buf (fun b => append [32] (append method b)) u) in
    match m_url u with
    | Some url => (0, let u := appendUrl url u in set_url None (m_url_len u) u)
    | None => (0, u)
    end.
Definition setUrl (url : list Z) (u : UnpackedHeaders) : Z * UnpackedHeaders :=
  if negb (m_url_len u =? 0) then (-1, u)
  else
    let u := if negb (bsize (m_buf u) =? HEADER_BUF_PAD) then appendUrl url u else set_url (Some url) (m_url_len u) u in
    (0, set_url (m_url u) (zlen url) u).
Definition setHost (host : list Z) (u : UnpackedHeaders) : Z * UnpackedHeaders :=
  if negb (m_host_len u =? 0) then (-1, u)
  else
    let u :=
      if negb (m_url_len u =? 0) && match m_url u with None => true | Some _ => false end
      then appendHeader H_HOST (bs "host") host (set_host_offset (bsize (m_buf u) + 6) u)
      else set_host (Some host) (m_host_len u) u in
    (0, set_host (m_host u) (zlen host) u).
Definition updateHost (host : list Z) (u : UnpackedHeaders) : UnpackedHeaders :=
  let u := set_host_offset (bsize (m_buf u)) u in set_host (m_host u) (zlen host) (on_buf (append host) u).

(** [set]: a request from its parts. *)
Definition set (method url host : list Z) (headers : list (list Z * list Z)) (u : UnpackedHeaders) : UnpackedHeaders :=
  let u := appendReqLine method url u in
  let u := appendHeader H_HOST (bs "host") host (set_host_offset (bsize (m_buf u) + 6) u) in
  endHeader (fold_left (fun u '(n, v) =>
    let index := if bytes_eqb n (bs "accept-encoding") then H_ACC_ENCODING else if bytes_eqb n (bs "user-agent") then H_USERAGENT else UPK_HDR_UNKNOWN in
    appendHeader index n v u) headers u).

(** [appendHeaders]: the lines of a text. *)
Definition trim_end (l : list Z) : list Z := rev (snd (span isspace (rev l))).
Fixpoint appendHeaders_loop (fuel : nat) (p : list Z) (u : UnpackedHeaders) : UnpackedHeaders :=
  match fuel with
  | O => u
  | S fuel =>
      match p with
      | [] => u
      | _ =>
          let l := match memchr 10 p with Some i => ztake i p | None => p end in
          let rest := match memchr 10 p with Some i => zdrop (i + 1) p | None => [] end in
          match memchr 58 l with
          | Some i =>
              let name := trim_end (ztake i l) in
              let val := snd (span isspace (trim_end (zdrop (i + 1) l))) in
              appendHeaders_loop fuel rest (appendHeader (getIndex name (zlen name)) name val u)
          | None => appendHeaders_loop fuel rest u
          end
      end
  end.
Definition appendHeaders (p : list Z) (u : UnpackedHeaders) : UnpackedHeaders := appendHeaders_loop (length p) p u.

(** [dropHeader]: the entries with this index, or the one at this place. *)
Fixpoint drop_loop (l : list lsxpack_header) (index val_off : Z) : Z * list lsxpack_header :=
  match l with
  | [] => (0, [])
  | h :: l =>
      let gone := Hdr false (name_offset h) (name_len h) (val_offset h) (val_len h) (chain_next_idx h) (app_index h) (hdr_app_idx h) in
      if hdr_app_idx h && (app_index h =? index) then
        if val_off >? 0 then
          if val_offset h =? val_off then (1, gone :: l) else let '(n, l) := drop_loop l index val_off in (n, h :: l)
        else let '(n, l) := drop_loop l index val_off in (n + 1, gone :: l)
      else let '(n, l) := drop_loop l index val_off in (n, h :: l)
  end.
Definition dropHeader (index val_off : Z) (u : UnpackedHeaders) : Z * UnpackedHeaders :=
  let '(n, l) := drop_loop (zdrop UPK_PSDO_RESERVE (m_lsxpack u)) index val_off in
  (n, on_lsxpack (fun old => ztake UPK_PSDO_RESERVE old ++ l) u).

Definition copy (rhs : UnpackedHeaders) (u : UnpackedHeaders) : UnpackedHeaders :=
  Upk (append (bdata (m_buf rhs)) (let b := m_buf u in Buf (mem b) 0 (cap b) (oob b)))
    (ztake UPK_PSDO_RESERVE (m_lsxpack rhs) ++
     map (fun h => Hdr true (name_offset h) (name_len h) (val_offset h) (val_len h) (chain_next_idx h) (app_index h) (hdr_app_idx h)) (zdrop UPK_PSDO_RESERVE (m_lsxpack rhs)))
    None (m_url_len rhs) None (m_host_len rhs) (m_commonHeaderPos rhs) (m_host_offset rhs) (m_url_offset rhs) (m_methodLen rhs) (m_first_cookie_idx rhs).

(** *** Headers that are changed *)

Definition s_pHeaderNamesLowercase : list (list Z) := map bs [
  "accept"; "accept-charset"; "accept-encoding"; "accept-language"; "authorization"; "connection"; "content-type";
  "content-length"; "cookie"; "cookie2"; "host"; "pragma"; "referer"; "user-agent"; "cache-control";
  "if-modified-since"; "if-match"; "if-none-match"; "if-range"; "if-unmodified-since"; "keep-alive"; "range";
  "transfer-encoding"; "te"; "x-litespeed-purge"; "expect"; "max-forwards"; "proxy-authorization"; "date";
  "trailer"; "upgrade"; "via"; "warning"; "allow"; "content-encoding"; "content-language"; "content-location";
  "content-md5"; "content-range"; "expires"; "last-modified"].
Definition getHeaderNameLowercase (iIndex : Z) : list Z := nth (Z.to_nat iIndex) s_pHeaderNamesLowercase [].
Definition getHeaderPos (hdr_idx : Z) (u : UnpackedHeaders) : Z := znth (m_commonHeaderPos u) hdr_idx.
Definition setHeaderPos (hdr_idx pos : Z) (u : UnpackedHeaders) : UnpackedHeaders := set_pos hdr_idx pos u.
Definition getFirstCookieHdr (u : UnpackedHeaders) : option lsxpack_header :=
  if m_first_cookie_idx u =? UINT16_MAX then None else Some (get_hdr (m_first_cookie_idx u) u).
(** The name is the first [getHeaderStringLen] bytes of the table's. *)
Definition updateHeader (index : Z) (val : list Z) (u : UnpackedHeaders) : UnpackedHeaders :=
  let pos := if (index >=? 0) && (index <? H_TE) then getHeaderPos index u else 0 in
  if negb (pos =? 0) then
    let h := get_hdr pos u in
    if val_len h >=? zlen val then
      put_hdr pos (Hdr true (name_offset h) (name_len h) (val_offset h) (zlen val) (chain_next_idx h) (app_index h) (hdr_app_idx h)) (on_buf (move_to (val_offset h) val) u)
    else
      put_hdr pos (Hdr (hdr_buf h) (name_offset h) (name_len h) (bsize (m_buf u)) (zlen val) (chain_next_idx h) (app_index h) (hdr_app_idx h)) (on_buf (append val) u)
  else appendHeader index (ztake (getHeaderStringLen index) (getHeaderNameLowercase index)) val u.

(** *** Pseudo headers that were decoded behind the end *)

Definition setMethod2 (hdr : lsxpack_header) (u : UnpackedHeaders) : Z * UnpackedHeaders :=
  if negb (m_methodLen u =? 0) then (-1, u)
  else if (val_len hdr =? 0) || (val_len hdr >? MAX_METHOD_LEN) then (-1, u)
  else
    let method := get_bytes (val_offset hdr) (val_len hdr) (m_buf u) in
    let u :=
      if negb (bsize (m_buf u) =? HEADER_BUF_PAD) then
        let diff := val_len hdr - 6 in
        if negb (diff =? 0) then
          let b := m_buf u in
          let b :=
            if diff >? 0 then
              let b := guarantee diff b in
              let b := move_to (HEADER_BUF_PAD + val_len hdr) (get_bytes (HEADER_BUF_PAD + 6) (bsize b - HEADER_BUF_PAD - 6) b) b in
              move_to HEADER_BUF_PAD method b
            else
              let src := HEADER_BUF_PAD + 7 in
              let b := move_to (HEADER_BUF_PAD + val_len hdr + 1) (get_bytes src (bsize b - src) b) b in
              move_to HEADER_BUF_PAD (get_bytes (val_offset hdr) (val_len hdr) b) b in
          let u := on_buf (fun _ => used diff b) u in
          let u := if negb (m_url_offset u =? 0) then set_url_offset (m_url_offset u + diff) u else u in
          if negb (m_host_offset u =? 0) then put_hdr 3 (move_val diff (get_hdr 3 u)) (set_host_offset (m_host_offset u + diff) u) else u
        else on_buf (move_to HEADER_BUF_PAD method) u
      else on_buf (append method) u in
    (0, set_methodLen (val_len hdr) u).

(** [hdr] is the entry at [pos]. *)
Definition setHost2 (pos : Z) (hdr : lsxpack_header) (u : UnpackedHeaders) : Z * UnpackedHeaders :=
  if negb (m_host_len u =? 0) then (-1, u)
  else
    let '(val_off, u) :=
      if negb (m_url_len u =? 0) && match m_url u with None => true | Some _ => false end then
        let b := append_unsafe (bs "host: ") (m_buf u) in
        let b := used (val_len hdr + 2) (move_to (bsize b) (get_bytes (val_offset hdr) (val_len hdr + 2) b) b) in
        let val_off := val_offset hdr - 6 in
        (val_off, set_host_offset val_off (on_buf (fun _ => b) u))
      else (val_offset hdr, set_host (Some (get_bytes (val_offset hdr) (val_len hdr) (m_buf u))) (m_host_len u) u) in
    let u := put_hdr pos (Hdr (hdr_buf hdr) 0 4 val_off (val_len hdr) (chain_next_idx hdr) H_HOST true) u in
    let u := if znth (m_commonHeaderPos u) H_HOST =? 0 then set_pos H_HOST 3 u else u in
    (0, set_host (m_host u) (val_len hdr) u).

Definition setUrl2 (hdr : lsxpack_header) (u : UnpackedHeaders) : Z * UnpackedHeaders :=
  if negb (m_url_len u =? 0) then (-1, u)
  else
    let '(val_off, u) :=
      if negb (bsize (m_buf u) =? HEADER_BUF_PAD) then
        let b := append_unsafe [32] (m_buf u) in
        let b := used (val_len hdr) (move_to (bsize b) (get_bytes (bsize b + 6) (val_len hdr) b) b) in
        (val_offset hdr - 6, on_buf (fun _ => b) u)
      else
        let b := move_to (bsize (m_buf u)) (repeat 32 7) (m_buf u) in
        (val_offset hdr, on_buf (fun _ => used (name_len hdr + val_len hdr + 2) b) u) in
    let u := set_url (m_url u) (val_len hdr) (set_url_offset val_off (on_buf (append s_http11) u)) in
    match m_host u with
    | Some host =>
        let b := guarantee (m_host_len u + 8) (m_buf u) in
        let u := set_host_offset (bsize b + 6) u in
        let h := get_hdr 3 u in
        let u := put_hdr 3 (move_val (m_host_offset u - val_offset h) h) u in
        (0, set_host None (m_host_len u) (on_buf (fun _ => append_unsafe (bs "host: " ++ host ++ [13; 10]) b) u))
    | None => (0, u)
    end.

(** The cookies in one line; the chain of their entries gets its place. *)
Fixpoint cookie_chain (fuel : nat) (next name_off cookie_off : Z) (u : UnpackedHeaders) : UnpackedHeaders :=
  match fuel with
  | O => u
  | S fuel =>
      let h := get_hdr next u in
      let u := put_hdr next (Hdr true name_off 6 (val_offset h + cookie_off) (val_len h) (chain_next_idx h) (app_index h) (hdr_app_idx h)) u in
      if negb (chain_next_idx h =? 0) then cookie_chain fuel (chain_next_idx h) name_off cookie_off u else u
  end.
Definition finalizeCookieHeader (first_index : Z) (value : list Z) (u : UnpackedHeaders) : UnpackedHeaders :=
  let b := guarantee (zlen value + 12) (m_buf u) in
  let name_off := bsize b in
  let b := append_unsafe (bs "cookie: ") b in
  let cookie_off := bsize b in
  let b := append_unsafe [13; 10] (append_unsafe value b) in
  cookie_chain (length (m_lsxpack u)) first_index name_off cookie_off (set_first_cookie first_index (on_buf (fun _ => b) u)).

(** ** The builder *)

Definition UPK_VAL_BAD : Z := 64.
Definition UPK_DELIM_BAD : Z := 1.
Definition UPK_BSLASH_BAD : Z := 2.

Fixpoint validateReqValue (val : list Z) (mask : Z) : Z :=
  match val with
  | [] => LSXPACK_OK
  | c :: val => if negb (Z.land (znth s_reqHeaderCharErr c) mask =? 0) then LSXPACK_ERR_BAD_REQ_HEADER else validateReqValue val mask
  end.
Fixpoint path_loop (p : list Z) (mask : Z) : Z :=
  match p with
  | [] => LSXPACK_OK
  | c :: p =>
      if (c =? 35) || negb (Z.land (znth s_reqHeaderCharErr c) mask =? 0) then LSXPACK_ERR_BAD_REQ_HEADER
      else path_loop p (if c =? 63 then Z.lor UPK_VAL_BAD UPK_DELIM_BAD else mask)
  end.
Definition validateReqPath (val : list Z) : Z :=
  if (zlen val =? 1) && (znth val 0 =? 42) then LSXPACK_OK
  else if (zlen val <=? 0) || negb (znth val 0 =? 47) then LSXPACK_ERR_BAD_REQ_HEADER
  else path_loop val (Z.lor (Z.lor UPK_VAL_BAD UPK_DELIM_BAD) UPK_BSLASH_BAD).
Fixpoint scheme_loop (p : list Z) : Z :=
  match p with
  | [] => LSXPACK_OK
  | c :: p => if negb (isalnum c) && negb (c =? 43) && negb (c =? 45) && negb (c =? 46) then LSXPACK_ERR_BAD_REQ_HEADER else scheme_loop p
  end.
Definition validateReqScheme (val : list Z) : Z :=
  match val with
  | [] => LSXPACK_ERR_BAD_REQ_HEADER
  | c :: p => if negb (isalpha c) then LSXPACK_ERR_BAD_REQ_HEADER else scheme_loop p
  end.

(** The check of a name's characters; the first bad one decides. *)
Fixpoint name_error (name : list Z) : Z :=
  match name with
  | [] => 0
  | c :: name => let err := Z.land (znth s_reqHeaderCharErr c) 12 in if negb (err =? 0) then err else name_error name
  end.

Record UpkdHdrBuilder := Bld {
  headers : UnpackedHeaders; tmp_buf : list Z; tmp_max : Z; working : bool; cookie_count : Z; total_size : Z;
  first_cookie_idx : Z; last_cookie_idx : Z; regular_header : bool; scheme : bool; is_qpack : bool }.

Definition new_builder (qpack : bool) : UpkdHdrBuilder := Bld new_headers [] 2048 false 0 0 UINT16_MAX 0 false false qpack.

Definition on_headers (f : UnpackedHeaders -> UnpackedHeaders) (w : UpkdHdrBuilder) : UpkdHdrBuilder :=
  Bld (f (headers w)) (tmp_buf w) (tmp_max w) (working w) (cookie_count w) (total_size w) (first_cookie_idx w) (last_cookie_idx w) (regular_header w) (scheme w) (is_qpack w).
Definition set_working (b : bool) (w : UpkdHdrBuilder) : UpkdHdrBuilder :=
  Bld (headers w) (tmp_buf w) (tmp_max w) b (cookie_count w) (total_size w) (first_cookie_idx w) (last_cookie_idx w) (regular_header w) (scheme w) (is_qpack w).
Definition set_total (n : Z) (w : UpkdHdrBuilder) : UpkdHdrBuilder :=
  Bld (headers w) (tmp_buf w) (tmp_max w) (working w) (cookie_count w) n (first_cookie_idx w) (last_cookie_idx w) (regular_header w) (scheme w) (is_qpack w).
Definition set_regular (w : UpkdHdrBuilder) : UpkdHdrBuilder :=
  Bld (headers w) (tmp_buf w) (tmp_max w) (working w) (cookie_count w) (total_size w) (first_cookie_idx w) (last_cookie_idx w) true (scheme w) (is_qpack w).
Definition set_scheme (w : UpkdHdrBuilder) : UpkdHdrBuilder :=
  Bld (headers w) (tmp_buf w) (tmp_max w) (working w) (cookie_count w) (total_size w) (first_cookie_idx w) (last_cookie_idx w) (regular_header w) true (is_qpack w).
Definition set_cookies (buf : list Z) (max count first last : Z) (w : UpkdHdrBuilder) : UpkdHdrBuilder :=
  Bld (headers w) buf max (working w) count (total_size w) first last (regular_header w) (scheme w) (is_qpack w).

(** [guarantee]: room for [size] more bytes of cookies; [None] beyond 64K. *)
Fixpoint double_until (fuel : nat) (require need : Z) : Z :=
  match fuel with O => require | S fuel => if require <? need then double_until fuel (Z.shiftl require 1) need else require end.
Definition cookie_room (max tmp_used size : Z) : option Z :=
  if max - tmp_used >? size then Some max
  else
    let require := double_until 32 (Z.shiftl max 1) (tmp_used + size) in
    if require >=? 65536 then None else Some require.

Definition setMaxHeaderCount (cnt : Z) : Z := if (if cnt <? 32 then 32 else cnt) >? 2000 then 2000 else (if cnt <? 32 then 32 else cnt).

(** A header as the decoder gives it: its index in the static table of its format (0
    for none in HPACK, -1 in QPACK), its name and its value. *)
Record decoded := Dec { d_index : Z; d_name : list Z; d_val : list Z }.

Definition pseudo_index (idx : Z) (name : list Z) : option Z :=
  if idx =? UPK_HDR_UNKNOWN then
    match znth name 1 with
    | 97 (* a *) => Some (if bytes_eqb name (bs ":authority") then H_HOST else idx)
    | 109 (* m *) => Some (if bytes_eqb name (bs ":method") then UPK_HDR_METHOD else idx)
    | 112 (* p *) => Some (if bytes_eqb name (bs ":path") then UPK_HDR_PATH else idx)
    | 115 (* s *) => Some (if bytes_eqb name (bs ":scheme") then UPK_HDR_SCHEME else idx)
    | _ => None
    end
  else Some idx.

Definition done (w : UpkdHdrBuilder) : Z * UpkdHdrBuilder := (LSXPACK_OK, set_working false (on_headers pop_hdr w)).

Definition process_pseudo (idx : Z) (name val : list Z) (pos : Z) (hdr : lsxpack_header) (w : UpkdHdrBuilder) : Z * UpkdHdrBuilder :=
  if regular_header w then (LSXPACK_ERR_MISPLACED_PSDO_HDR, w)
  else if val_len hdr =? 0 then (LSXPACK_ERR_HEADERS_TOO_LARGE, w)
  else
    match pseudo_index idx name with
    | None => (LSXPACK_ERR_UNNEC_REQ_PSDO_HDR, w)
    | Some idx =>
        if idx =? H_HOST then
          let err := validateReqValue val UPK_VAL_BAD in
          if negb (err =? 0) then (err, w)
          else
            let '(ret, u) := setHost2 pos hdr (headers w) in
            if ret =? -1 then (LSXPACK_ERR_DUPLICATE_PSDO_HDR, on_headers (fun _ => u) w) else (LSXPACK_OK, set_working false (on_headers (fun _ => u) w))
        else if idx =? UPK_HDR_METHOD then
          if val_len hdr >? MAX_METHOD_LEN then (LSXPACK_ERR_BAD_REQ_HEADER, w)
          else
            let err := validateReqValue val (Z.lor UPK_VAL_BAD UPK_DELIM_BAD) in
            if negb (err =? 0) then (err, w)
            else
              let '(ret, u) := setMethod2 hdr (headers w) in
              if ret =? -1 then (LSXPACK_ERR_DUPLICATE_PSDO_HDR, on_headers (fun _ => u) w) else done (on_headers (fun _ => u) w)
        else if idx =? UPK_HDR_PATH then
          let err := validateReqPath val in
          if negb (err =? 0) then (err, w)
          else
            let '(ret, u) := setUrl2 hdr (headers w) in
            if ret =? -1 then (LSXPACK_ERR_DUPLICATE_PSDO_HDR, on_headers (fun _ => u) w) else done (on_headers (fun _ => u) w)
        else if idx =? UPK_HDR_SCHEME then
          if scheme w then (LSXPACK_ERR_DUPLICATE_PSDO_HDR, w)
          else
            let err := validateReqScheme val in
            if negb (err =? 0) then (err, w) else done (set_scheme w)
        else (LSXPACK_ERR_UNNEC_REQ_PSDO_HDR, w)
    end.

(** A cookie's value goes to a buffer of its own, behind the ones before it. *)
Definition process_cookie (val : list Z) (pos : Z) (hdr : lsxpack_header) (w : UpkdHdrBuilder) : Z * UpkdHdrBuilder :=
  match cookie_room (tmp_max w) (zlen (tmp_buf w)) (val_len hdr + 2) with
  | None => (LSXPACK_ERR_NOMEM, w)
  | Some max =>
      let buf := tmp_buf w ++ (if cookie_count w >? 0 then bs "; " else []) in
      let entry := Hdr false 0 0 (zlen buf) (val_len hdr) (chain_next_idx hdr) H_COOKIE true in
      let first := first_cookie_idx w =? UINT16_MAX in
      let link u :=
        if first then u
        else
          let prev := get_hdr (last_cookie_idx w) u in
          put_hdr (last_cookie_idx w) (Hdr (hdr_buf prev) (name_offset prev) (name_len prev) (val_offset prev) (val_len prev) pos (app_index prev) (hdr_app_idx prev)) u in
      (LSXPACK_OK, set_working false (set_cookies (buf ++ val) max (cookie_count w + 1) (if first then pos else first_cookie_idx w) pos
        (on_headers (fun u => link (put_hdr pos entry u)) w)))
  end.

Definition regular_index (idx : Z) (name : list Z) : Z + Z :=
  if idx =? UPK_HDR_UNKNOWN then
    if zlen name =? 0 then inl LSXPACK_ERR_BAD_REQ_HEADER
    else
      let err := name_error name in
      if negb (err =? 0) then inl err
      else if bytes_eqb name (bs "connection") then inl LSXPACK_ERR_BAD_REQ_HEADER
      else if bytes_eqb name (bs "cookie") then inr H_COOKIE
      else if bytes_eqb name (bs "transfer-encoding") then inr H_TRANSFER_ENCODING
      else inr idx
  else inr idx.

Definition process_regular (idx : Z) (name val : list Z) (pos : Z) (hdr : lsxpack_header) (w : UpkdHdrBuilder) : Z * UpkdHdrBuilder :=
  if negb (regular_header w) && negb (isComplete (headers w)) then (LSXPACK_ERR_INCOMPL_REQ_PSDO_HDR, w)
  else
    let w := set_regular w in
    match regular_index idx name with
    | inl err => (err, w)
    | inr idx =>
        let err := validateReqValue val UPK_VAL_BAD in
        if negb (err =? 0) then (err, w)
        else if idx =? H_COOKIE then process_cookie val pos hdr w
        else if (idx =? H_TRANSFER_ENCODING) && strcaseeq val (bs "chunked") then (LSXPACK_ERR_BAD_REQ_HEADER, w)
        else if negb (idx =? H_TRANSFER_ENCODING) && bytes_eqb name (bs "te") && negb (strcaseeq val (bs "trailers")) then (LSXPACK_ERR_BAD_REQ_HEADER, w)
        else
          let total := total_size w + (name_len hdr + val_len hdr + 4) in
          let w := set_total total w in
          if total >=? 65535 then (LSXPACK_ERR_HEADERS_TOO_LARGE, w)
          else
            let entry := Hdr (hdr_buf hdr) (name_offset hdr) (name_len hdr) (val_offset hdr) (val_len hdr) (chain_next_idx hdr) idx (hdr_app_idx hdr) in
            (LSXPACK_OK, set_working false (on_headers (fun u => on_buf (used (name_len hdr + val_len hdr + 4)) (put_hdr pos entry u)) w))
    end.

(** [process] of the header that was decoded into the last entry. *)
Definition process (s_max_header_count : Z) (d : decoded) (w : UpkdHdrBuilder) : Z * UpkdHdrBuilder :=
  if getHeaderCount (headers w) >? s_max_header_count then (LSXPACK_ERR_BAD_REQ_HEADER, w)
  else
    let pos := getHeaderCount (headers w) - 1 in
    let hdr := get_hdr pos (headers w) in
    let idx := if is_qpack w then qpack2ReqIdx (d_index d) else hpack2ReqIdx (d_index d) in
    let name := get_bytes (name_offset hdr) (name_len hdr) (m_buf (headers w)) in
    let val := get_bytes (val_offset hdr) (val_len hdr) (m_buf (headers w)) in
    if ((idx >=? UPK_HDR_METHOD) && (idx <=? UPK_HDR_STATUS)) || ((name_len hdr >? 2) && (znth name 0 =? 58))
    then process_pseudo idx name val pos hdr w
    else process_regular idx name val pos hdr w.

(** [end]. *)
Definition finish (w : UpkdHdrBuilder) : Z * UpkdHdrBuilder :=
  if negb (scheme w) || negb (isComplete (headers w)) then (LSXPACK_ERR_INCOMPL_REQ_PSDO_HDR, w)
  else if bytes_eqb (getUrl (headers w)) [42] && negb (bytes_eqb (getMethod (headers w)) (bs "OPTIONS")) then (LSXPACK_ERR_BAD_REQ_HEADER, w)
  else
    let w := if working w then set_working false (on_headers pop_hdr w) else w in
    if cookie_count w >? 0 then
      let total := total_size w + (zlen (tmp_buf w) + 6 + 4) in
      let w := set_total total w in
      if total >=? 65535 then (LSXPACK_ERR_HEADERS_TOO_LARGE, w)
      else (LSXPACK_OK, on_headers (fun u => endHeader (finalizeCookieHeader (first_cookie_idx w) (tmp_buf w) u)) w)
    else (LSXPACK_OK, on_headers endHeader w).

(** [prepareDecode]: an entry for the next header, with room for [mini_buf_size] bytes. *)
Definition prepareDecode (mini_buf_size : Z) (w : UpkdHdrBuilder) : option UpkdHdrBuilder :=
  let b := m_buf (headers w) in
  let room :=
    if available b <? mini_buf_size + 2 then
      let increase_to := Z.land (mini_buf_size + 2 + 255) (-256) in
      if increase_to + bsize b >=? MAX_BUF_SIZE then None else Some (guarantee increase_to b)
    else Some b in
  match room with
  | None => None
  | Some b =>
      let w := on_headers (on_buf (fun _ => b)) w in
      Some (if working w then w else set_working true (on_headers (on_lsxpack (fun l => l ++ [zero_hdr])) w))
  end.

(** What a call of the decoder gives: a header, written as a line behind the end of the
    buffer; that it needs so much room; or an error. *)
Inductive decode_result := Header (d : decoded) | More_buf (need : Z) | Bad_block.

Definition decode_into (d : decoded) (w : UpkdHdrBuilder) : UpkdHdrBuilder :=
  let pos := getHeaderCount (headers w) - 1 in
  on_headers (fun u =>
    let off := bsize (m_buf u) in
    put_hdr pos (Hdr true off (zlen (d_name d)) (off + zlen (d_name d) + 2) (zlen (d_val d)) 0 0 false)
      (on_buf (move_to off (line (d_name d) (d_val d))) u)) w.

(** [decodeReqHdrData]. *)
Fixpoint decodeReqHdrData (s_max_header_count : Z) (calls : list decode_result) (mini_space : Z) (w : UpkdHdrBuilder) : Z * UpkdHdrBuilder :=
  match calls with
  | [] => finish w
  | c :: calls =>
      match prepareDecode mini_space w with
      | None => (-1, if working w then set_working false (on_headers pop_hdr w) else w)
      | Some w =>
          match c with
          | Bad_block => (-1, w)
          | More_buf need => decodeReqHdrData s_max_header_count calls need w
          | Header d =>
              let '(rc, w) := process s_max_header_count d (decode_into d w) in
              if negb (rc =? LSXPACK_OK) then (rc, w) else decodeReqHdrData s_max_header_count calls mini_space w
          end
      end
  end.
