(* ===== verification/UpkdSpec.v ===== *)
(** * UpkdSpec: what an HTTP/2 request's headers become
    (src/src/h2/unpackedheaders.cpp)

    The rules for pseudo headers and fields as a machine over the parts of a request,
    the HTTP/1 text of such a request, and that the builder of Upkd follows the rules
    and leaves exactly that text in its buffer. *)

From S2P Require Import Prelude Chains Headers Request RespHeaders Upkd.
Import HttpHeader HttpRespHeaders(lsxpack_header, Hdr, hdr_buf, name_offset, name_len, val_offset, val_len, chain_next_idx, app_index, hdr_app_idx).
#[local] Open Scope Z_scope.

(** ** The rules *)

(** The bytes of a value: no control character but the tab; of a method: no blank
    either; of a target: no blank and no fragment; of a name: a token in lower case. *)
Definition value_char (c : Z) : bool := (c =? 9) || ((32 <=? c) && negb (c =? 127)).
Definition method_char (c : Z) : bool := (33 <=? c) && negb (c =? 127).
Definition target_char (c : Z) : bool := (33 <=? c) && negb (c =? 127) && negb (c =? 35).
Definition name_char (c : Z) : bool :=
  isdigit c || ((97 <=? c) && (c <=? 122)) || existsb (Z.eqb c) (bs "!#$%&'*+-.^_`|~").
Definition upper_char (c : Z) : bool := (65 <=? c) && (c <=? 90).
Definition scheme_char (c : Z) : bool := isalnum c || (c =? 43) || (c =? 45) || (c =? 46).

(** The target: an asterisk, or a path, which has no backslash, and a query. *)
Definition before_query (p : list Z) : list Z := match memchr 63 p with Some i => ztake i p | None => p end.
Definition path_ok (p : list Z) : bool :=
  bytes_eqb p [42] || (match p with c :: _ => c =? 47 | [] => false end && forallb target_char p && forallb (fun c => negb (c =? 92)) (before_query p)).
Definition scheme_ok (p : list Z) : bool := match p with c :: p => isalpha c && forallb scheme_char p | [] => false end.

Fixpoint bad_name (n : list Z) : option Z :=
  match n with [] => None | c :: n => if name_char c then bad_name n else Some (if upper_char c then LSXPACK_ERR_UPPERCASE_HEADER else LSXPACK_ERR_BAD_REQ_HEADER) end.

(** A request: its pseudo headers, its fields and cookies in order, and the sizes that
    are limited. *)
Inductive entry := Field (idx : Z) (n v : list Z) | Cookie (v : list Z).
Record request := Rq {
  q_method : option (list Z); q_path : option (list Z); q_host : option (list Z); q_scheme : bool; q_regular : bool;
  q_entries : list entry; q_total : Z; q_room : Z }.
Definition new_request : request := Rq None None None false false [] 0 2048.

Definition is_some {A} (o : option A) : bool := match o with Some _ => true | None => false end.
Definition cookies (l : list entry) : list (list Z) := omap (fun e => match e with Cookie v => Some v | Field _ _ _ => None end) l.
Fixpoint join_cookies (l : list (list Z)) : list Z :=
  match l with [] => [] | [v] => v | v :: l => v ++ bs "; " ++ join_cookies l end.

Inductive kind := Pseudo (idx : option Z) | Regular (idx : Z).
Definition kind_of (qpack : bool) (d : decoded) : kind :=
  let idx := if qpack then qpack2ReqIdx (d_index d) else hpack2ReqIdx (d_index d) in
  if ((idx >=? UPK_HDR_METHOD) && (idx <=? UPK_HDR_STATUS)) || ((zlen (d_name d) >? 2) && (znth (d_name d) 0 =? 58))
  then Pseudo (pseudo_index idx (d_name d)) else Regular idx.

Definition add_pseudo (idx : option Z) (v : list Z) (q : request) : Z + request :=
  if q_regular q then inl LSXPACK_ERR_MISPLACED_PSDO_HDR
  else if bytes_eqb v [] then inl LSXPACK_ERR_HEADERS_TOO_LARGE
  else
    match idx with
    | None => inl LSXPACK_ERR_UNNEC_REQ_PSDO_HDR
    | Some idx =>
        if idx =? H_HOST then
          if negb (forallb value_char v) then inl LSXPACK_ERR_BAD_REQ_HEADER
          else if is_some (q_host q) then inl LSXPACK_ERR_DUPLICATE_PSDO_HDR
          else inr (Rq (q_method q) (q_path q) (Some v) (q_scheme q) false (q_entries q) (q_total q) (q_room q))
        else if idx =? UPK_HDR_METHOD then
          if (zlen v >? MAX_METHOD_LEN) || negb (forallb method_char v) then inl LSXPACK_ERR_BAD_REQ_HEADER
          else if is_some (q_method q) then inl LSXPACK_ERR_DUPLICATE_PSDO_HDR
          else inr (Rq (Some v) (q_path q) (q_host q) (q_scheme q) false (q_entries q) (q_total q) (q_room q))
        else if idx =? UPK_HDR_PATH then
          if negb (path_ok v) then inl LSXPACK_ERR_BAD_REQ_HEADER
          else if is_some (q_path q) then inl LSXPACK_ERR_DUPLICATE_PSDO_HDR
          else inr (Rq (q_method q) (Some v) (q_host q) (q_scheme q) false (q_entries q) (q_total q) (q_room q))
        else if idx =? UPK_HDR_SCHEME then
          if q_scheme q then inl LSXPACK_ERR_DUPLICATE_PSDO_HDR
          else if negb (scheme_ok v) then inl LSXPACK_ERR_BAD_REQ_HEADER
          else inr (Rq (q_method q) (q_path q) (q_host q) true false (q_entries q) (q_total q) (q_room q))
        else inl LSXPACK_ERR_UNNEC_REQ_PSDO_HDR
    end.

(** What a field is, when its index does not say. *)
Definition field_index (idx : Z) (n : list Z) : Z + Z :=
  if negb (idx =? UPK_HDR_UNKNOWN) then inr idx
  else if bytes_eqb n [] then inl LSXPACK_ERR_BAD_REQ_HEADER
  else
    match bad_name n with
    | Some err => inl err
    | None =>
        if bytes_eqb n (bs "connection") then inl LSXPACK_ERR_BAD_REQ_HEADER
        else if bytes_eqb n (bs "cookie") then inr H_COOKIE
        else if bytes_eqb n (bs "transfer-encoding") then inr H_TRANSFER_ENCODING
        else inr idx
    end.

Definition add_field (idx : Z) (n v : list Z) (q : request) : Z + request :=
  if negb (is_some (q_path q) && is_some (q_host q)) then inl LSXPACK_ERR_INCOMPL_REQ_PSDO_HDR
  else
    match field_index idx n with
    | inl err => inl err
    | inr idx =>
        if negb (forallb value_char v) then inl LSXPACK_ERR_BAD_REQ_HEADER
        else if idx =? H_COOKIE then
          match cookie_room (q_room q) (zlen (join_cookies (cookies (q_entries q)))) (zlen v + 2) with
          | None => inl LSXPACK_ERR_NOMEM
          | Some room => inr (Rq (q_method q) (q_path q) (q_host q) (q_scheme q) true (q_entries q ++ [Cookie v]) (q_total q) room)
          end
        else if (idx =? H_TRANSFER_ENCODING) && strcaseeq v (bs "chunked") then inl LSXPACK_ERR_BAD_REQ_HEADER
        else if negb (idx =? H_TRANSFER_ENCODING) && bytes_eqb n (bs "te") && negb (strcaseeq v (bs "trailers")) then inl LSXPACK_ERR_BAD_REQ_HEADER
        else
          let total := q_total q + (zlen n + zlen v + 4) in
          if total >=? 65535 then inl LSXPACK_ERR_HEADERS_TOO_LARGE
          else inr (Rq (q_method q) (q_path q) (q_host q) (q_scheme q) true (q_entries q ++ [Field idx n v]) total (q_room q))
    end.

Definition count (q : request) : Z := UPK_PSDO_RESERVE + (if is_some (q_host q) then 1 else 0) + zlen (q_entries q).

Definition add_header (qpack : bool) (max : Z) (d : decoded) (q : request) : Z + request :=
  if count q + 1 >? max then inl LSXPACK_ERR_BAD_REQ_HEADER
  else match kind_of qpack d with Pseudo idx => add_pseudo idx (d_val d) q | Regular idx => add_field idx (d_name d) (d_val d) q end.

Definition end_request (q : request) : Z + request :=
  if negb (q_scheme q && is_some (q_path q) && is_some (q_host q)) then inl LSXPACK_ERR_INCOMPL_REQ_PSDO_HDR
  else if bytes_eqb (default [] (q_path q)) [42] && negb (bytes_eqb (default [] (q_method q)) (bs "OPTIONS")) then inl LSXPACK_ERR_BAD_REQ_HEADER
  else if (0 <? zlen (cookies (q_entries q))) && (q_total q + (zlen (join_cookies (cookies (q_entries q))) + 10) >=? 65535) then inl LSXPACK_ERR_HEADERS_TOO_LARGE
  else inr q.

(** What the decoder gave, one after the other; [-1] when it refuses the block. *)
Fixpoint build (qpack : bool) (max : Z) (calls : list decode_result) (q : request) : Z + request :=
  match calls with
  | [] => end_request q
  | Header d :: calls => match add_header qpack max d q with inl err => inl err | inr q => build qpack max calls q end
  | More_buf _ :: calls => build qpack max calls q
  | Bad_block :: _ => inl (-1)
  end.

(** ** The text *)

Definition req_line (m : option (list Z)) (p : list Z) : list Z :=
  match m with Some m => m ++ [32] | None => repeat 32 7 end ++ p ++ s_http11.
Definition head_text (m p h : option (list Z)) : list Z :=
  match p with
  | None => default [] m
  | Some p => req_line m p ++ match h with Some h => line (bs "host") h | None => [] end
  end.
Definition entry_text (e : entry) : list Z := match e with Field _ n v => line n v | Cookie _ => [] end.
Definition fields_text (l : list entry) : list Z := concat (map entry_text l).
Definition built (q : request) : list Z := repeat 0 4 ++ head_text (q_method q) (q_path q) (q_host q) ++ fields_text (q_entries q).
Definition cookie_text (q : request) : list Z :=
  match cookies (q_entries q) with [] => [] | l => line (bs "cookie") (join_cookies l) end.
(** The header block of the HTTP/1 request, behind four bytes of padding. *)
Definition request_text (q : request) : list Z := built q ++ cookie_text q ++ [13; 10].

(** ** Characters *)

Lemma char_table c : 0 <= c < 256 ->
  (Z.land (znth s_reqHeaderCharErr c) UPK_VAL_BAD =? 0) = value_char c /\
  (Z.land (znth s_reqHeaderCharErr c) (Z.lor UPK_VAL_BAD UPK_DELIM_BAD) =? 0) = method_char c /\
  (Z.land (znth s_reqHeaderCharErr c) (Z.lor (Z.lor UPK_VAL_BAD UPK_DELIM_BAD) UPK_BSLASH_BAD) =? 0) = method_char c && negb (c =? 92) /\
  Z.land (znth s_reqHeaderCharErr c) 12 = if name_char c then 0 else if upper_char c then LSXPACK_ERR_UPPERCASE_HEADER else LSXPACK_ERR_BAD_REQ_HEADER.
Proof.
  intros Hc.
  pose proof (range_forall (fun c =>
    Bool.eqb (Z.land (znth s_reqHeaderCharErr c) UPK_VAL_BAD =? 0) (value_char c) &&
    Bool.eqb (Z.land (znth s_reqHeaderCharErr c) (Z.lor UPK_VAL_BAD UPK_DELIM_BAD) =? 0) (method_char c) &&
    Bool.eqb (Z.land (znth s_reqHeaderCharErr c) (Z.lor (Z.lor UPK_VAL_BAD UPK_DELIM_BAD) UPK_BSLASH_BAD) =? 0) (method_char c && negb (c =? 92)) &&
    (Z.land (znth s_reqHeaderCharErr c) 12 =? (if name_char c then 0 else if upper_char c then LSXPACK_ERR_UPPERCASE_HEADER else LSXPACK_ERR_BAD_REQ_HEADER)))
    0 256 ltac:(vm_compute; reflexivity) c Hc) as H. cbv beta in H.
  apply andb_true_iff in H as [H H4]. apply andb_true_iff in H as [H H3]. apply andb_true_iff in H as [H1 H2].
  apply Bool.eqb_prop in H1, H2, H3. apply Z.eqb_eq in H4. auto.
Qed.

Lemma validateReqValue_ok v : bytes_ok v -> validateReqValue v UPK_VAL_BAD = if forallb value_char v then 0 else LSXPACK_ERR_BAD_REQ_HEADER.
Proof.
  induction 1 as [|c v Hc _ IH]; [reflexivity|]. cbn [validateReqValue forallb]. destruct (char_table c Hc) as (H & _). rewrite <- H.
  destruct (Z.land _ _ =? 0); [exact IH|reflexivity].
Qed.

Lemma validate_method_ok v : bytes_ok v -> validateReqValue v (Z.lor UPK_VAL_BAD UPK_DELIM_BAD) = if forallb method_char v then 0 else LSXPACK_ERR_BAD_REQ_HEADER.
Proof.
  induction 1 as [|c v Hc _ IH]; [reflexivity|]. cbn [validateReqValue forallb]. destruct (char_table c Hc) as (_ & H & _). rewrite <- H.
  destruct (Z.land _ _ =? 0); [exact IH|reflexivity].
Qed.

Lemma path_loop_query p : bytes_ok p -> path_loop p (Z.lor UPK_VAL_BAD UPK_DELIM_BAD) = if forallb target_char p then 0 else LSXPACK_ERR_BAD_REQ_HEADER.
Proof.
  induction 1 as [|c v Hc _ IH]; [reflexivity|]. cbn [path_loop forallb]. destruct (char_table c Hc) as (_ & H & _). unfold target_char at 1. fold (method_char c). rewrite <- H.
  destruct (c =? 35); [cbn; rewrite andb_false_r; reflexivity|]. cbn [orb negb]. rewrite andb_true_r.
  destruct (Z.land _ _ =? 0); cbn [negb andb]; [|reflexivity]. destruct (c =? 63); exact IH.
Qed.

Lemma path_loop_ok p : bytes_ok p -> path_loop p (Z.lor (Z.lor UPK_VAL_BAD UPK_DELIM_BAD) UPK_BSLASH_BAD) =
  if forallb target_char p && forallb (fun c => negb (c =? 92)) (before_query p) then 0 else LSXPACK_ERR_BAD_REQ_HEADER.
Proof.
  induction 1 as [|c v Hc Hv IH]; [reflexivity|]. cbn [path_loop forallb]. destruct (char_table c Hc) as (_ & _ & H & _).
  assert (Hb : before_query (c :: v) = if c =? 63 then [] else c :: before_query v).
  { unfold before_query. cbn [memchr]. destruct (c =? 63); [reflexivity|]. destruct (memchr 63 v) as [i|] eqn:E; [|reflexivity]. cbn [option_map].
    apply memchr_Some in E as (Hi & _). rewrite ztake_cons by lia. do 2 f_equal. lia. }
  rewrite Hb. unfold target_char at 1. fold (method_char c). rewrite (Z.lor_comm UPK_VAL_BAD) in *.
  destruct (c =? 35); [cbn; rewrite andb_false_r; reflexivity|]. cbn [orb negb]. rewrite andb_true_r.
  destruct (Z.land _ _ =? 0); cbn [negb].
  - symmetry in H. apply andb_true_iff in H as [-> H]. cbn [andb]. destruct (Z.eqb_spec c 63) as [->|Hne].
    + rewrite (Z.lor_comm UPK_DELIM_BAD). rewrite path_loop_query by exact Hv. rewrite andb_true_r. reflexivity.
    + cbn [forallb]. rewrite H. cbn [andb]. exact IH.
  - destruct (method_char c); [|reflexivity]. cbn [andb] in *. apply (f_equal negb) in H. cbn in H. rewrite negb_involutive in H. symmetry in H. apply Z.eqb_eq in H. subst c.
    cbn. rewrite andb_false_r. reflexivity.
Qed.

Lemma validateReqPath_ok p : bytes_ok p -> validateReqPath p = if path_ok p then 0 else LSXPACK_ERR_BAD_REQ_HEADER.
Proof.
  intros Hp. unfold validateReqPath, path_ok. destruct p as [|c p]; [reflexivity|].
  replace ((zlen (c :: p) =? 1) && (znth (c :: p) 0 =? 42)) with (bytes_eqb (c :: p) [42]).
  2:{ change (znth (c :: p) 0) with c. rewrite zlen_cons. destruct p as [|d p]; cbn [bytes_eqb]; [rewrite andb_true_r; reflexivity|].
      rewrite andb_false_r, zlen_cons. pose proof (zlen_nonneg p). rewrite (proj2 (Z.eqb_neq _ _)) by lia. reflexivity. }
  destruct (bytes_eqb (c :: p) [42]); [reflexivity|]. cbn [orb]. change (znth (c :: p) 0) with c.
  rewrite zlen_cons, (proj2 (Z.leb_gt _ _)) by (pose proof (zlen_nonneg p); lia). cbn [orb]. destruct (c =? 47); [|reflexivity]. apply path_loop_ok, Hp.
Qed.

Lemma scheme_loop_ok p : scheme_loop p = if forallb scheme_char p then 0 else LSXPACK_ERR_BAD_REQ_HEADER.
Proof.
  induction p as [|c p IH]; [reflexivity|]. cbn [scheme_loop forallb]. unfold scheme_char at 1. rewrite IH.
  destruct (isalnum c), (c =? 43), (c =? 45), (c =? 46); reflexivity.
Qed.

Lemma validateReqScheme_ok p : validateReqScheme p = if scheme_ok p then 0 else LSXPACK_ERR_BAD_REQ_HEADER.
Proof. destruct p as [|c p]; [reflexivity|]. cbn. rewrite scheme_loop_ok. destruct (isalpha c); reflexivity. Qed.

Lemma name_error_ok n : bytes_ok n -> name_error n = match bad_name n with Some e => e | None => 0 end.
Proof.
  induction 1 as [|c n Hc _ IH]; [reflexivity|]. cbn [name_error bad_name]. destruct (char_table c Hc) as (_ & _ & _ & ->).
  destruct (name_char c); [exact IH|]. destruct (upper_char c); reflexivity.
Qed.

Lemma bad_name_pos n e : bad_name n = Some e -> e <> 0.
Proof. induction n as [|c n IH]; [discriminate|]. cbn. destruct (name_char c); [exact IH|]. destruct (upper_char c); intros [= <-]; discriminate. Qed.

Lemma regular_index_ok idx n : bytes_ok n -> regular_index idx n = field_index idx n.
Proof.
  intros Hn. unfold regular_index, field_index. destruct (idx =? UPK_HDR_UNKNOWN); cbn [negb]; [|reflexivity]. rewrite (name_error_ok n Hn).
  destruct n as [|c n]; [reflexivity|]. rewrite zlen_cons, (proj2 (Z.eqb_neq _ _)) by (pose proof (zlen_nonneg n); lia). cbn [bytes_eqb].
  destruct (bad_name (c :: n)) as [e|] eqn:E; [|reflexivity]. rewrite (proj2 (Z.eqb_neq _ _) (bad_name_pos _ _ E)). reflexivity.
Qed.

(** ** The buffer's operations *)

Lemma get_bytes_mid b a d c off n : mem b = a ++ d ++ c -> off = zlen a -> n = zlen d -> get_bytes off n b = d.
Proof.
  intros Hm -> ->. unfold get_bytes, slice. rewrite Hm. replace (zlen a + zlen d - zlen a) with (zlen d) by lia.
  rewrite zdrop_app_exact. apply ztake_app_exact.
Qed.

Lemma move_to_mid b a d d' c off : mem b = a ++ d ++ c -> off = zlen a -> zlen d' = zlen d -> mem (move_to off d' b) = a ++ d' ++ c.
Proof. intros Hm -> Hd. cbn. rewrite Hm. apply store_mid, Hd. Qed.

Lemma move_to_end b a c d off : mem b = a ++ c -> off = zlen a -> mem (move_to off d b) = a ++ d ++ zdrop (zlen d) c.
Proof.
  intros Hm ->. cbn. rewrite Hm. unfold store. rewrite ztake_app_exact, <- zdrop_zdrop, zdrop_app_exact by apply zlen_nonneg. reflexivity.
Qed.

Lemma append_unsafe_end b a c d : mem b = a ++ c -> bsize b = zlen a -> mem (append_unsafe d b) = (a ++ d) ++ zdrop (zlen d) c /\ bsize (append_unsafe d b) = zlen (a ++ d).
Proof.
  intros Hm Hs. unfold append_unsafe, used. cbn [mem bsize]. rewrite (move_to_end b a c d _ Hm Hs). split; [apply app_assoc|]. cbn. rewrite Hs, zlen_app. reflexivity.
Qed.

Lemma grow_room n : 0 <= n -> n <= Z.shiftl (Z.shiftr (n + 511) 9) 9.
Proof. intros H. rewrite Z.shiftl_mul_pow2, Z.shiftr_div_pow2 by lia. change (2 ^ 9) with 512. pose proof (Z_div_mod_eq_full (n + 511) 512). pose proof (Z.mod_pos_bound (n + 511) 512). lia. Qed.

Lemma guarantee_mem n b : 0 <= n -> 0 <= bsize b -> mem (guarantee n b) = mem b /\ bsize (guarantee n b) = bsize b /\ oob (guarantee n b) = oob b /\ n <= available (guarantee n b).
Proof.
  intros Hn Hb. unfold guarantee. destruct (Z.leb_spec n (available b)); [auto|]. unfold ls_buf_xreserve, available. cbn. split_and!; auto; lia.
Qed.

Lemma append_end b a c d : mem b = a ++ c -> bsize b = zlen a -> mem (append d b) = (a ++ d) ++ zdrop (zlen d) c /\ bsize (append d b) = zlen (a ++ d).
Proof.
  intros Hm Hs. unfold append. destruct (Z.gtb_spec (zlen d) (available b)); [|apply append_unsafe_end; assumption].
  apply append_unsafe_end; [exact Hm|]. unfold ls_buf_xgrow, ls_buf_xreserve, available in *. cbn. pose proof (grow_room (zlen d - (cap b - bsize b))). pose proof (zlen_nonneg d). lia.
Qed.

(** ** What the state says *)

Definition url_at (m : option (list Z)) : Z := 4 + match m with Some m => zlen m + 1 | None => 7 end.
Definition host_at (m : option (list Z)) (p : list Z) : Z := 4 + zlen (req_line m p) + 6.

Definition mark (l : list entry) : list (option field) := map (fun e => match e with Cookie v => Some ([], v) | Field _ _ _ => None end) l.
Definition link (l : list entry) (k : nat) : Z := let j := next_at [] k (mark l) in if j =? -1 then 0 else 4 + j.
Definition cookie_at (l : list entry) : Z := match cookies l with [] => 0 | c => zlen (join_cookies c) + 2 end.
Definition entry_hdr (base : Z) (l : list entry) (k : nat) (e : entry) : lsxpack_header :=
  match e with
  | Field idx n v => let off := base + zlen (fields_text (take k l)) in Hdr true off (zlen n) (off + zlen n + 2) (zlen v) 0 idx false
  | Cookie v => Hdr false 0 0 (cookie_at (take k l)) (zlen v) (link l k) H_COOKIE true
  end.
Definition base (q : request) : Z := 4 + zlen (head_text (q_method q) (q_path q) (q_host q)).

(** The headers hold what [q] is, with [ahead] behind the end of the text and entries
    [extra] behind those of [q]. *)
Record Rep (u : UnpackedHeaders) (q : request) (ahead : list Z) (extra : list lsxpack_header) : Prop := MkRep {
  rep_mem : exists spare, mem (m_buf u) = built q ++ ahead ++ spare;
  rep_size : bsize (m_buf u) = zlen (built q);
  rep_url : m_url u = None /\ m_url_len u = zlen (default [] (q_path q));
  rep_host : m_host u = (if is_some (q_path q) then None else q_host q) /\ m_host_len u = zlen (default [] (q_host q));
  rep_method : m_methodLen u = zlen (default [] (q_method q));
  rep_url_offset : m_url_offset u = match q_path q with Some _ => url_at (q_method q) | None => 0 end;
  rep_host_offset : m_host_offset u = match q_path q, q_host q with Some p, Some _ => host_at (q_method q) p | _, _ => 0 end;
  rep_pos : length (m_commonHeaderPos u) = 25%nat;
  rep_entries : exists hs, m_lsxpack u = repeat zero_hdr 3 ++ hs ++ imap (entry_hdr (base q) (q_entries q)) (q_entries q) ++ extra /\
    match q_host q with
    | None => hs = []
    | Some h => exists off, hs = [Hdr true 0 4 off (zlen h) 0 H_HOST true] /\ match q_path q with Some p => off = host_at (q_method q) p | None => True end
    end }.

(** The parts of a request that the rules made. *)
Record wf (q : request) : Prop := Wf {
  wf_method : forall m, q_method q = Some m -> 0 < zlen m <= 16;
  wf_path : forall p, q_path q = Some p -> 0 < zlen p <= 65400;
  wf_host : forall h, q_host q = Some h -> 0 < zlen h;
  wf_entries : q_regular q = false -> q_entries q = [];
  wf_regular : q_regular q = true -> is_some (q_path q) && is_some (q_host q) = true }.

(** A header that was decoded, at the end of the text. *)
Definition at_end (q : request) (n v : list Z) : lsxpack_header :=
  let off := zlen (built q) in Hdr true off (zlen n) (off + zlen n + 2) (zlen v) 0 0 false.

Lemma zlen_pos {A} (l : list A) : l <> [] -> 0 < zlen l.
Proof. destruct l as [|x l]; [congruence|]. rewrite zlen_cons. pose proof (zlen_nonneg l). lia. Qed.

Lemma zlen_s_http11 : zlen s_http11 = 11.
Proof. reflexivity. Qed.

Lemma zlen_upk_line n v : zlen (line n v) = zlen n + zlen v + 4.
Proof. unfold line. rewrite !zlen_app. change (zlen [58; 32]) with 2. change (zlen [13; 10]) with 2. lia. Qed.

Lemma zlen_req_line m p : zlen (req_line m p) = url_at m - 4 + zlen p + 11.
Proof. unfold req_line, url_at. destruct m; rewrite !zlen_app, zlen_s_http11; [change (zlen [32]) with 1|change (zlen (repeat 32 7)) with 7]; lia. Qed.

Lemma built_early q : q_entries q = [] -> built q = repeat 0 4 ++ head_text (q_method q) (q_path q) (q_host q).
Proof. intros H. unfold built. rewrite H. cbn. rewrite app_nil_r. reflexivity. Qed.

(** The request line's place in 16 bits. *)
Lemma url_at_small q : wf q -> 0 < url_at (q_method q) <= 21.
Proof. intros W. unfold url_at. destruct (q_method q) as [m|] eqn:E; [pose proof (wf_method _ W m E); lia|lia]. Qed.

Lemma host_at_small q p : wf q -> 0 < zlen p <= 65400 -> 0 < host_at (q_method q) p < 65536.
Proof. intros W Hp. unfold host_at. rewrite zlen_req_line. pose proof (url_at_small q W). lia. Qed.

(** ** Pseudo headers *)

Definition set_q_method (v : list Z) (q : request) : request := Rq (Some v) (q_path q) (q_host q) (q_scheme q) false (q_entries q) (q_total q) (q_room q).
Definition set_q_path (v : list Z) (q : request) : request := Rq (q_method q) (Some v) (q_host q) (q_scheme q) false (q_entries q) (q_total q) (q_room q).
Definition set_q_host (v : list Z) (q : request) : request := Rq (q_method q) (q_path q) (Some v) (q_scheme q) false (q_entries q) (q_total q) (q_room q).

(** The seven blanks before a target give way to a method. *)
Lemma method_moved b m rest tail : mem b = repeat 0 4 ++ repeat 32 7 ++ rest ++ tail -> bsize b = 11 + zlen rest -> 0 < zlen (m : list Z) <= 16 -> 16 <= zlen rest \/ zlen m <= 6 + zlen rest ->
  let diff := zlen m - 6 in
  (0 < diff -> let b := guarantee diff b in
     exists x, mem (move_to 4 m (move_to (4 + zlen m) (get_bytes 10 (bsize b - 4 - 6) b) b)) = repeat 0 4 ++ m ++ [32] ++ rest ++ x /\ bsize b = 11 + zlen rest) /\
  (diff < 0 -> exists x, zlen x = - diff /\
     let b1 := move_to (4 + zlen m + 1) (get_bytes 11 (bsize b - 11) b) b in
     mem b1 = (repeat 0 4 ++ repeat 32 (Z.to_nat (zlen m + 1))) ++ rest ++ x ++ tail /\
     mem (move_to 4 m b1) = repeat 0 4 ++ m ++ [32] ++ rest ++ x ++ tail).
Proof.
  intros Hm Hs Hlen Hrest diff. split; intros Hd.
  - assert (0 <= bsize b) by (pose proof (zlen_nonneg rest); lia). destruct (guarantee_mem diff b ltac:(lia) H) as (Gm & Gs & _). cbv zeta. set (g := guarantee diff b) in *.
    set (R := [32] ++ rest). assert (HR : mem g = (repeat 0 4 ++ repeat 32 6) ++ R ++ tail) by (rewrite Gm, Hm; unfold R; change (repeat 32 7) with (repeat 32 6 ++ [32]); rewrite <- !app_assoc; reflexivity).
    assert (HzR : zlen R = 1 + zlen rest) by (unfold R; rewrite zlen_app; reflexivity).
    rewrite (get_bytes_mid g _ R tail _ _ HR); [|reflexivity|lia].
    set (M := repeat 32 6 ++ R ++ tail). assert (HM : mem g = (repeat 0 4 ++ ztake (zlen m) M) ++ zdrop (zlen m) M) by (rewrite <- app_assoc, ztake_zdrop; rewrite HR; unfold M; rewrite <- !app_assoc; reflexivity).
    assert (Hy : zlen (ztake (zlen m) M) = zlen m). { rewrite zlen_ztake by lia. unfold M. rewrite !zlen_app. change (zlen (repeat 32 6)) with 6. pose proof (zlen_nonneg tail). lia. }
    exists (zdrop (zlen R) (zdrop (zlen m) M)). split; [|lia].
    rewrite (move_to_mid (move_to (4 + zlen m) R g) (repeat 0 4) (ztake (zlen m) M) m (R ++ zdrop (zlen R) (zdrop (zlen m) M))); [unfold R; rewrite <- !app_assoc; reflexivity| |reflexivity|lia].
    rewrite (move_to_end g _ _ R _ HM); [rewrite <- !app_assoc; reflexivity|]. rewrite zlen_app. change (zlen (repeat 0 4)) with 4. lia.
  - set (k := Z.to_nat (zlen m + 1)). set (j := Z.to_nat (6 - zlen m)).
    assert (Hsp : repeat 32 7 = repeat 32 k ++ repeat 32 j) by (rewrite <- repeat_app; f_equal; subst k j; lia).
    assert (HA : mem b = (repeat 0 4 ++ repeat 32 k) ++ (repeat 32 j ++ rest ++ tail)) by (rewrite Hm, Hsp, <- !app_assoc; reflexivity).
    assert (Hk : zlen (repeat 32 k) = zlen m + 1) by (unfold zlen at 1; rewrite repeat_length; subst k; lia).
    assert (Hj : zlen (repeat 32 j) = 6 - zlen m) by (unfold zlen at 1; rewrite repeat_length; subst j; lia).
    rewrite (get_bytes_mid b (repeat 0 4 ++ repeat 32 7) rest tail); [|rewrite Hm, <- !app_assoc; reflexivity|reflexivity|lia].
    exists (zdrop (zlen rest) (repeat 32 j ++ rest)). pose proof (zlen_nonneg rest).
    assert (Hx : zlen (zdrop (zlen rest) (repeat 32 j ++ rest)) = - diff) by (rewrite zlen_zdrop, zlen_app by lia; subst diff; lia). split; [exact Hx|]. cbv zeta.
    assert (H1 : mem (move_to (4 + zlen m + 1) rest b) = (repeat 0 4 ++ repeat 32 k) ++ rest ++ zdrop (zlen rest) (repeat 32 j ++ rest) ++ tail).
    { rewrite (move_to_end b _ _ rest _ HA) by (rewrite zlen_app, Hk; change (zlen (repeat 0 4)) with 4; lia). do 2 f_equal. rewrite app_assoc.
      unfold zdrop. rewrite drop_app_le; [reflexivity|]. rewrite length_app. unfold zlen. lia. }
    split; [exact H1|].
    rewrite (move_to_mid _ (repeat 0 4) (repeat 32 (Z.to_nat (zlen m))) m ([32] ++ rest ++ zdrop (zlen rest) (repeat 32 j ++ rest) ++ tail)); [reflexivity| |reflexivity|unfold zlen at 2; rewrite repeat_length; lia].
    rewrite H1. replace k with (Z.to_nat (zlen m) + 1)%nat by (subst k; lia). rewrite repeat_app, <- !app_assoc. reflexivity.
Qed.

(** In the part before the fields there is at most the entry of the authority. *)
Lemma rep_early u q ahead extra : Rep u q ahead extra -> q_entries q = [] ->
  exists hs, m_lsxpack u = repeat zero_hdr 3 ++ hs ++ extra /\
    match q_host q with
    | None => hs = []
    | Some h => exists off, hs = [Hdr true 0 4 off (zlen h) 0 H_HOST true] /\ match q_path q with Some p => off = host_at (q_method q) p | None => True end
    end.
Proof. intros R He. destruct (rep_entries _ _ _ _ R) as (hs & Hl & Hh). rewrite He in Hl. exists hs. split; [exact Hl|exact Hh]. Qed.

Lemma setMethod2_ok u q n v : wf q -> Rep u q (line n v) [at_end q n v] -> q_regular q = false -> q_method q = None -> 0 < zlen v <= 16 ->
  exists u', setMethod2 (at_end q n v) u = (0, u') /\ Rep (pop_hdr u') (set_q_method v q) [] [].
Proof.
  intros W R Hreg Hm Hv. pose proof (wf_entries _ W Hreg) as He. destruct (rep_early _ _ _ _ R He) as (hs & Hl & Hh).
  destruct R as [(spare & Rm) Rs (Ru & Rul) (Rh & Rhl) Rmm Ruo Rho Rp _]. rewrite Hm in *.
  unfold setMethod2. rewrite Rmm. change (zlen (default [] None)) with 0. cbn [Z.eqb negb val_len at_end].
  rewrite (proj2 (Z.eqb_neq _ _)), Z.gtb_ltb, (proj2 (Z.ltb_ge _ _)) by (unfold MAX_METHOD_LEN; lia). cbn [orb].
  assert (Hget : get_bytes (zlen (built q) + zlen n + 2) (zlen v) (m_buf u) = v).
  { apply (get_bytes_mid _ (built q ++ n ++ [58; 32]) v ([13; 10] ++ spare)); [rewrite Rm; unfold line; rewrite <- !app_assoc; reflexivity|rewrite !zlen_app; change (zlen [58; 32]) with 2; lia|reflexivity]. }
  cbn [val_offset at_end]. rewrite Hget, Rs. rewrite (built_early q He) in *. rewrite Hm in *. cbn [head_text] in *.
  assert (Hpop : forall hs', removelast (repeat zero_hdr 3 ++ hs' ++ [at_end q n v]) = repeat zero_hdr 3 ++ hs') by (intros; rewrite app_assoc; apply removelast_last).
  destruct (q_path q) as [p|] eqn:Ep.
  - (* the target is there *)
    pose proof (wf_path _ W p Ep) as Hp. cbn [head_text] in Rm, Rs |- *. set (hl := match q_host q with Some h => line (bs "host") h | None => [] end) in *. unfold req_line in Rm, Rs |- *.
    set (rest := p ++ s_http11 ++ hl). assert (Hrest : 12 <= zlen rest) by (unfold rest; rewrite !zlen_app, zlen_s_http11; pose proof (zlen_nonneg hl); lia).
    assert (Hmem : mem (m_buf u) = repeat 0 4 ++ repeat 32 7 ++ rest ++ line n v ++ spare) by (rewrite Rm; unfold rest; rewrite <- !app_assoc; reflexivity).
    assert (Hsz : zlen (repeat 0 4 ++ (repeat 32 7 ++ p ++ s_http11) ++ hl) = 11 + zlen rest).
    { unfold rest. rewrite !zlen_app. change (zlen (repeat 0 4)) with 4. change (zlen (repeat 32 7)) with 7. lia. }
    rewrite Hsz in *. rewrite (proj2 (Z.eqb_neq _ HEADER_BUF_PAD)) by (unfold HEADER_BUF_PAD; lia). cbn [negb].
    assert (Hbuilt : built (set_q_method v q) = repeat 0 4 ++ v ++ [32] ++ rest).
    { rewrite built_early by exact He. cbn [set_q_method q_method q_path q_host]. rewrite Ep. cbn [head_text]. unfold req_line, rest. fold hl. rewrite <- !app_assoc. reflexivity. }
    destruct (method_moved (m_buf u) v rest (line n v ++ spare) Hmem Rs Hv ltac:(lia)) as [Hgt Hlt]. cbv zeta in Hgt, Hlt.
    assert (Hend : forall b' off, (exists x, mem b' = repeat 0 4 ++ v ++ [32] ++ rest ++ x) -> bsize b' = 5 + zlen v + zlen rest ->
      (match q_host q with Some _ => off = host_at (Some v) p | None => off = 0 end) ->
      Rep (pop_hdr (set_methodLen (zlen v) (Upk b' (repeat zero_hdr 3 ++ match q_host q with Some h => [Hdr true 0 4 off (zlen h) 0 H_HOST true] | None => [] end ++ [at_end q n v])
              (m_url u) (m_url_len u) (m_host u) (m_host_len u) (m_commonHeaderPos u) off (url_at (Some v)) (m_methodLen u) (m_first_cookie_idx u)))) (set_q_method v q) [] []).
    { intros b' off (x & Hx) Hbs Hoff. split; cbn [m_buf m_lsxpack m_url m_url_len m_host m_host_len m_commonHeaderPos m_host_offset m_url_offset m_methodLen pop_hdr on_lsxpack set_methodLen set_q_method q_method q_path q_host q_entries]; rewrite ?Ep.
      - exists x. rewrite Hbuilt, Hx, <- !app_assoc. reflexivity.
      - rewrite Hbuilt, Hbs, !zlen_app. change (zlen (repeat 0 4)) with 4. change (zlen [32]) with 1. lia.
      - auto.
      - auto.
      - reflexivity.
      - reflexivity.
      - destruct (q_host q); exact Hoff.
      - exact Rp.
      - rewrite Hpop, He. cbn [imap app]. eexists. rewrite app_nil_r. split; [reflexivity|]. destruct (q_host q); [exists off; auto|reflexivity]. }
    assert (Hu : 0 < url_at None /\ wrapu 16 (url_at None + (zlen v - 6)) = url_at (Some v)) by (unfold url_at; split; [lia|]; rewrite wrapu_small by lia; lia).
    assert (Hho : forall h, q_host q = Some h -> 0 < host_at None p /\ wrapu 16 (host_at None p + (zlen v - 6)) = host_at (Some v) p).
    { intros h _. unfold host_at. rewrite !zlen_req_line. unfold url_at. split; [lia|]. rewrite wrapu_small by lia. lia. }
    assert (Hlx : m_lsxpack u = repeat zero_hdr 3 ++ match q_host q with Some h => [Hdr true 0 4 (host_at None p) (zlen h) 0 H_HOST true] | None => [] end ++ [at_end q n v]).
    { rewrite Hl. destruct (q_host q); [destruct Hh as (off & -> & ->); reflexivity|rewrite Hh; reflexivity]. }
    clear Hl Hh.
    destruct u as [ub ul uu uul uh uhl ucp uho uuo uml ufc]. cbn [m_buf m_lsxpack m_url m_url_len m_host m_host_len m_commonHeaderPos m_host_offset m_url_offset m_methodLen m_first_cookie_idx] in *.
    destruct (Z.eqb_spec (zlen v - 6) 0) as [E0|E0]; cbn [negb].
    + eexists. split; [reflexivity|]. subst uuo uho ul. cbn [on_buf m_buf m_lsxpack m_url m_url_len m_host m_host_len m_commonHeaderPos m_host_offset m_url_offset m_methodLen m_first_cookie_idx].
      replace (url_at None) with (url_at (Some v)) by (unfold url_at; lia).
      replace (match q_host q with Some _ => host_at None p | None => 0 end) with (match q_host q with Some _ => host_at (Some v) p | None => 0 end) by (destruct (q_host q); [unfold host_at; rewrite !zlen_req_line; unfold url_at; lia|reflexivity]).
      replace (host_at None p) with (host_at (Some v) p) by (unfold host_at; rewrite !zlen_req_line; unfold url_at; lia).
      pose proof (Hend (move_to HEADER_BUF_PAD v ub) (match q_host q with Some _ => host_at (Some v) p | None => 0 end)) as H. destruct (q_host q); refine (H _ _ _); try reflexivity; cbn [bsize move_to]; try lia.
      * exists (line n v ++ spare). rewrite (move_to_mid ub (repeat 0 4) (repeat 32 6) v ([32] ++ rest ++ line n v ++ spare)); [reflexivity|rewrite Hmem; reflexivity|reflexivity|change (zlen (repeat 32 6)) with 6; lia].
      * exists (line n v ++ spare). rewrite (move_to_mid ub (repeat 0 4) (repeat 32 6) v ([32] ++ rest ++ line n v ++ spare)); [reflexivity|rewrite Hmem; reflexivity|reflexivity|change (zlen (repeat 32 6)) with 6; lia].
    + assert (Hbuf : exists b', (if zlen v - 6 >? 0 then
           let b := guarantee (zlen v - 6) ub in let b := move_to (HEADER_BUF_PAD + zlen v) (get_bytes (HEADER_BUF_PAD + 6) (bsize b - HEADER_BUF_PAD - 6) b) b in move_to HEADER_BUF_PAD v b
         else let src := HEADER_BUF_PAD + 7 in let b := move_to (HEADER_BUF_PAD + zlen v + 1) (get_bytes src (bsize ub - src) ub) ub in
              move_to HEADER_BUF_PAD (get_bytes (11 + zlen rest + zlen n + 2) (zlen v) b) b) = b' /\
         (exists x, mem b' = repeat 0 4 ++ v ++ [32] ++ rest ++ x) /\ bsize b' = 11 + zlen rest).
      { destruct (Z.gtb_spec (zlen v - 6) 0) as [Hd|Hd].
        - destruct (Hgt ltac:(lia)) as (x & Hx & Hs'). eexists. split; [reflexivity|]. split; [exists x; exact Hx|exact Hs'].
        - destruct (Hlt ltac:(lia)) as (x & Hxl & Hx1 & Hx2). cbv zeta. change HEADER_BUF_PAD with 4. change (4 + 7) with 11.
          set (b1 := move_to (4 + zlen v + 1) _ ub) in *.
          assert (Hg : get_bytes (11 + zlen rest + zlen n + 2) (zlen v) b1 = v).
          { apply (get_bytes_mid b1 ((repeat 0 4 ++ repeat 32 (Z.to_nat (zlen v + 1))) ++ rest ++ x ++ n ++ [58; 32]) v ([13; 10] ++ spare)); [|rewrite !zlen_app, Hxl|reflexivity].
            - rewrite Hx1. unfold line. rewrite <- !app_assoc. reflexivity.
            - change (zlen (repeat 0 4)) with 4. change (zlen [58; 32]) with 2. replace (zlen (repeat 32 (Z.to_nat (zlen v + 1)))) with (zlen v + 1) by (unfold zlen at 2; rewrite repeat_length; lia). lia. }
          rewrite Hg. eexists. split; [reflexivity|]. split; [exists (x ++ line n v ++ spare); exact Hx2|exact Rs]. }
      destruct Hbuf as (b' & Hb' & Hx & Hbs). cbv zeta in Hb'. rewrite Rs in Hb'. rewrite Hb'. subst uuo uho ul. eexists. split; [reflexivity|].
      unfold on_buf, set_url_offset, set_host_offset, put_hdr, get_hdr, on_lsxpack, move_val. cbn [m_buf m_lsxpack m_url m_url_len m_host m_host_len m_commonHeaderPos m_host_offset m_url_offset m_methodLen m_first_cookie_idx]. rewrite (proj2 (Z.eqb_neq (url_at None) 0)) by lia. cbn [negb m_buf m_lsxpack m_url m_url_len m_host m_host_len m_commonHeaderPos m_host_offset m_url_offset m_methodLen m_first_cookie_idx hdr_buf name_offset name_len val_offset val_len chain_next_idx app_index hdr_app_idx]. rewrite (proj2 Hu). destruct (q_host q) as [h|] eqn:Eh.
      * destruct (Hho h eq_refl) as [Hh1 Hh2]. rewrite (proj2 (Z.eqb_neq (host_at None p) 0)) by lia. cbn [negb m_buf m_lsxpack m_url m_url_len m_host m_host_len m_commonHeaderPos m_host_offset m_url_offset m_methodLen m_first_cookie_idx hdr_buf name_offset name_len val_offset val_len chain_next_idx app_index hdr_app_idx].
        rewrite Hh2. change (Z.to_nat 3) with 3%nat. cbn [app repeat nth list_insert insert m_buf m_lsxpack m_url m_url_len m_host m_host_len m_commonHeaderPos m_host_offset m_url_offset m_methodLen m_first_cookie_idx hdr_buf name_offset name_len val_offset val_len chain_next_idx app_index hdr_app_idx].
        replace (host_at None p + (zlen v - 6)) with (host_at (Some v) p) by (unfold host_at; rewrite !zlen_req_line; unfold url_at; lia).
        refine (Hend (used (zlen v - 6) b') (host_at (Some v) p) Hx _ _); [cbn [bsize used]; lia|reflexivity].
      * cbn [Z.eqb negb]. refine (Hend (used (zlen v - 6) b') 0 Hx _ _); [cbn [bsize used]; lia|reflexivity].
  - (* the method comes first *)
    cbn [default from_option id] in *. rewrite app_nil_r in *. change (zlen (repeat 0 4)) with 4 in *. cbn [Z.eqb Pos.eqb negb HEADER_BUF_PAD].
    destruct (append_end (m_buf u) (repeat 0 4) (line n v ++ spare) v Rm Rs) as [Am As].
    eexists. split; [reflexivity|]. split; cbn [m_buf m_lsxpack m_url m_url_len m_host m_host_len m_commonHeaderPos m_host_offset m_url_offset m_methodLen pop_hdr on_lsxpack on_buf set_methodLen set_q_method q_method q_path q_host q_entries]; rewrite ?Ep.
    + eexists. rewrite built_early by exact He. cbn [set_q_method q_method q_path q_host head_text]. rewrite Ep. cbn [head_text default from_option id app]. exact Am.
    + rewrite built_early by exact He. cbn [set_q_method q_method q_path q_host]. rewrite Ep. exact As.
    + auto.
    + auto.
    + reflexivity.
    + exact Ruo.
    + exact Rho.
    + exact Rp.
    + rewrite Hl, Hpop, He. cbn [imap app]. exists hs. rewrite app_nil_r. split; [reflexivity|]. destruct (q_host q); exact Hh.
Qed.

Lemma setUrl2_ok u q v : wf q -> Rep u q (line (bs ":path") v) [at_end q (bs ":path") v] -> q_regular q = false -> q_path q = None -> 0 < zlen v <= 65400 ->
  exists u', setUrl2 (at_end q (bs ":path") v) u = (0, u') /\ Rep (pop_hdr u') (set_q_path v q) [] [].
Proof.
  intros W R Hreg Hp Hv. pose proof (wf_entries _ W Hreg) as He. destruct (rep_early _ _ _ _ R He) as (hs & Hl & Hh).
  destruct R as [(spare & Rm) Rs (Ru & Rul) (Rh & Rhl) Rmm Ruo Rho Rpos _]. rewrite Hp in *. cbn [is_some] in Rh.
  rewrite (built_early q He) in Rm, Rs. rewrite Hp in Rm, Rs. cbn [head_text] in Rm, Rs.
  assert (Hpop : forall hs', removelast (repeat zero_hdr 3 ++ hs' ++ [at_end q (bs ":path") v]) = repeat zero_hdr 3 ++ hs') by (intros; rewrite app_assoc; apply removelast_last).
  assert (Hoff : val_offset (at_end q (bs ":path") v) = zlen (repeat 0 4 ++ default [] (q_method q)) + 7) by (cbn [at_end val_offset]; rewrite built_early, Hp by exact He; cbn [head_text]; change (zlen (bs ":path")) with 5; lia).
  unfold setUrl2. rewrite Rul. change (zlen (default [] None)) with 0. cbn [Z.eqb negb].
  (* the request line *)
  set (A := repeat 0 4 ++ req_line (q_method q) v).
  assert (Hline : exists b spare', (if negb (bsize (m_buf u) =? HEADER_BUF_PAD) then
        let b := append_unsafe [32] (m_buf u) in let b := used (val_len (at_end q (bs ":path") v)) (move_to (bsize b) (get_bytes (bsize b + 6) (val_len (at_end q (bs ":path") v)) b) b) in
        (val_offset (at_end q (bs ":path") v) - 6, on_buf (fun _ => b) u)
      else let b := move_to (bsize (m_buf u)) (repeat 32 7) (m_buf u) in
        (val_offset (at_end q (bs ":path") v), on_buf (fun _ => used (name_len (at_end q (bs ":path") v) + val_len (at_end q (bs ":path") v) + 2) b) u)) = (url_at (q_method q), on_buf (fun _ => b) u) /\
      mem (append s_http11 b) = A ++ spare' /\ bsize (append s_http11 b) = zlen A).
  { rewrite Hoff, Rs. cbn [val_len name_len at_end]. change (zlen (bs ":path")) with 5. unfold A, req_line, url_at. destruct (q_method q) as [m|] eqn:Em.
    - pose proof (wf_method _ W m Em) as Hm. cbn [default from_option id] in *. rewrite zlen_app in *. change (zlen (repeat 0 4)) with 4 in *.
      rewrite (proj2 (Z.eqb_neq _ HEADER_BUF_PAD)) by (unfold HEADER_BUF_PAD; lia). cbn [negb]. cbv zeta.
      destruct (append_unsafe_end (m_buf u) (repeat 0 4 ++ m) (line (bs ":path") v ++ spare) [32] Rm) as [Am As]; [rewrite Rs, zlen_app; reflexivity|].
      set (b1 := append_unsafe [32] (m_buf u)) in *. change (zdrop (zlen [32]) (line (bs ":path") v ++ spare)) with (bs "path: " ++ (v ++ [13; 10]) ++ spare) in Am.
      rewrite (get_bytes_mid b1 (((repeat 0 4 ++ m) ++ [32]) ++ bs "path: ") v ([13; 10] ++ spare)); [|rewrite Am, <- !app_assoc; reflexivity|rewrite As, (zlen_app (_ ++ [32])); reflexivity|reflexivity].
      pose proof (move_to_end b1 _ _ v _ Am As) as Mm. set (b2 := used (zlen v) (move_to (bsize b1) v b1)).
      destruct (append_end b2 (((repeat 0 4 ++ m) ++ [32]) ++ v) (zdrop (zlen v) (bs "path: " ++ (v ++ [13; 10]) ++ spare)) s_http11) as [Bm Bs].
      + cbn [b2 used mem]. rewrite Mm, <- !app_assoc. reflexivity.
      + cbn [b2 used bsize move_to]. rewrite As, (zlen_app _ v). reflexivity.
      + exists b2. eexists. split; [f_equal; lia|]. split; [rewrite Bm, <- !app_assoc; reflexivity|rewrite Bs, <- !app_assoc; reflexivity].
    - cbn [default from_option id] in *. rewrite app_nil_r in *. change (zlen (repeat 0 4)) with 4 in *. cbn [Z.eqb Pos.eqb negb HEADER_BUF_PAD]. cbv zeta.
      set (b2 := used (5 + zlen v + 2) (move_to 4 (repeat 32 7) (m_buf u))).
      destruct (append_end b2 ((repeat 0 4 ++ repeat 32 7) ++ v) ([13; 10] ++ spare) s_http11) as [Bm Bs].
      + cbn [b2 used mem]. rewrite (move_to_mid (m_buf u) (repeat 0 4) (bs ":path" ++ [58; 32]) (repeat 32 7) (v ++ [13; 10] ++ spare)); [rewrite <- !app_assoc; reflexivity| |reflexivity|reflexivity].
        rewrite Rm. unfold line. rewrite <- !app_assoc. reflexivity.
      + cbn [b2 used bsize move_to]. rewrite Rs, (zlen_app _ v). change (zlen (repeat 0 4 ++ repeat 32 7)) with 11. lia.
      + exists b2. eexists. split; [f_equal; lia|]. split; [rewrite Bm, <- !app_assoc; reflexivity|rewrite Bs, <- !app_assoc; reflexivity]. }
  destruct Hline as (b & spare' & Hline & Bm & Bs). cbv zeta in Hline. rewrite Hline. clear Hline. pose proof (url_at_small q W) as Hu.
  assert (Hbuilt : built (set_q_path v q) = A ++ match q_host q with Some h => line (bs "host") h | None => [] end).
  { rewrite built_early by exact He. cbn [set_q_path q_method q_path q_host head_text]. rewrite app_assoc. reflexivity. }
  pose proof (host_at_small q v W Hv) as Hh2. assert (HA : zlen A = host_at (q_method q) v - 6) by (unfold A, host_at; rewrite zlen_app; change (zlen (repeat 0 4)) with 4; lia).
  destruct u as [ub ul uu uul uh uhl ucp uho uuo uml ufc]. cbn [m_buf m_lsxpack m_url m_url_len m_host m_host_len m_commonHeaderPos m_host_offset m_url_offset m_methodLen m_first_cookie_idx] in *.
  match goal with |- context [set_url (m_url ?x) ?n ?y] => remember (set_url (m_url x) n y) as u1 eqn:Eu1 end.
  unfold on_buf, set_url, set_url_offset in Eu1. cbn [m_buf m_lsxpack m_url m_url_len m_host m_host_len m_commonHeaderPos m_host_offset m_url_offset m_methodLen m_first_cookie_idx] in Eu1. subst u1.
  unfold on_buf, set_host_offset, set_host, put_hdr, get_hdr, on_lsxpack, move_val. cbn [m_buf m_lsxpack m_url m_url_len m_host m_host_len m_commonHeaderPos m_host_offset m_url_offset m_methodLen m_first_cookie_idx].
  rewrite (wrapu_small 16 (url_at _)) by lia. rewrite Rh. destruct (q_host q) as [h|] eqn:Eh.
  - destruct Hh as (off & -> & _). rewrite Rhl. cbn [default from_option id] in *.
    destruct (guarantee_mem (zlen h + 8) (append s_http11 b)) as (Gm & Gs & _); [pose proof (zlen_nonneg h); lia|rewrite Bs; apply zlen_nonneg|].
    rewrite Gs, Bs, HA. replace (host_at (q_method q) v - 6 + 6) with (host_at (q_method q) v) by lia. rewrite wrapu_small by lia.
    destruct (append_unsafe_end (guarantee (zlen h + 8) (append s_http11 b)) A spare' (bs "host: " ++ h ++ [13; 10])) as [Hm Hs]; [rewrite Gm; exact Bm|rewrite Gs; exact Bs|].
    eexists. split; [reflexivity|]. split; cbn [m_buf m_lsxpack m_url m_url_len m_host m_host_len m_commonHeaderPos m_host_offset m_url_offset m_methodLen m_first_cookie_idx]; rewrite ?Hbuilt; cbn [set_q_path q_method q_path q_host q_entries is_some]; rewrite ?Eh.
    + eexists. exact Hm.
    + exact Hs.
    + auto.
    + auto.
    + exact Rmm.
    + reflexivity.
    + reflexivity.
    + exact Rpos.
    + rewrite Hl, He. cbn [imap app]. change (Z.to_nat 3) with 3%nat. cbn [app repeat nth list_insert insert removelast val_offset hdr_buf name_offset name_len val_len chain_next_idx app_index hdr_app_idx].
      eexists [_]. split; [reflexivity|]. exists (host_at (q_method q) v). split; [|reflexivity]. repeat f_equal. lia.
  - eexists. split; [reflexivity|]. split; cbn [m_buf m_lsxpack m_url m_url_len m_host m_host_len m_commonHeaderPos m_host_offset m_url_offset m_methodLen m_first_cookie_idx]; rewrite ?Hbuilt; cbn [set_q_path q_method q_path q_host q_entries is_some]; rewrite ?Eh, ?app_nil_r.
    + eexists. exact Bm.
    + exact Bs.
    + auto.
    + auto.
    + exact Rmm.
    + reflexivity.
    + exact Rho.
    + exact Rpos.
    + cbn [pop_hdr on_lsxpack m_lsxpack]. rewrite Hl, He, Hpop, Hh. exists []. cbn [imap app]. auto.
Qed.

Lemma setHost2_ok u q v : wf q -> Rep u q (line (bs ":authority") v) [at_end q (bs ":authority") v] -> q_regular q = false -> q_host q = None -> 0 < zlen v ->
  exists u', setHost2 3 (at_end q (bs ":authority") v) u = (0, u') /\ Rep u' (set_q_host v q) [] [].
Proof.
  intros W R Hreg Hq Hv. pose proof (wf_entries _ W Hreg) as He. destruct (rep_early _ _ _ _ R He) as (hs & Hl & Hh). rewrite Hq in Hh. subst hs.
  destruct R as [(spare & Rm) Rs (Ru & Rul) (Rh & Rhl) Rmm Ruo Rho Rpos _]. rewrite Hq in *.
  assert (Hget : get_bytes (zlen (built q) + zlen (bs ":authority") + 2) (zlen v) (m_buf u) = v).
  { apply (get_bytes_mid _ (built q ++ bs ":authority" ++ [58; 32]) v ([13; 10] ++ spare)); [rewrite Rm; unfold line; rewrite <- !app_assoc; reflexivity|rewrite !zlen_app; change (zlen [58; 32]) with 2; lia|reflexivity]. }
  unfold setHost2. rewrite Rhl. change (zlen (default [] None)) with 0. cbn [Z.eqb negb val_offset val_len at_end hdr_buf chain_next_idx]. rewrite Rul, Ru, andb_true_r.
  assert (Hput : forall h, <[3%nat := h]> (repeat zero_hdr 3 ++ [] ++ [at_end q (bs ":authority") v]) = repeat zero_hdr 3 ++ [h]) by reflexivity.
  destruct u as [ub ul uu uul uh uhl ucp uho uuo uml ufc]. cbn [m_buf m_lsxpack m_url m_url_len m_host m_host_len m_commonHeaderPos m_host_offset m_url_offset m_methodLen m_first_cookie_idx] in *.
  destruct (q_path q) as [p|] eqn:Ep.
  - pose proof (wf_path _ W p Ep) as Hp. pose proof (host_at_small q p W Hp) as Hh2. cbn [default from_option id is_some]. rewrite (proj2 (Z.eqb_neq (zlen p) 0)) by lia. cbn [negb].
    assert (HB : built q = repeat 0 4 ++ req_line (q_method q) p) by (rewrite built_early, Ep, Hq by exact He; cbn [head_text]; rewrite app_nil_r; reflexivity).
    assert (HzB : zlen (built q) = host_at (q_method q) p - 6) by (rewrite HB, zlen_app; unfold host_at; change (zlen (repeat 0 4)) with 4; lia).
    destruct (append_unsafe_end ub (built q) (line (bs ":authority") v ++ spare) (bs "host: ") Rm Rs) as [Am As]. set (b1 := append_unsafe (bs "host: ") ub) in *.
    change (zdrop (zlen (bs "host: ")) (line (bs ":authority") v ++ spare)) with (bs "rity: " ++ (v ++ [13; 10]) ++ spare) in Am.
    rewrite (get_bytes_mid b1 ((built q ++ bs "host: ") ++ bs "rity: ") (v ++ [13; 10]) spare); [|rewrite Am, <- !app_assoc; reflexivity|rewrite !zlen_app; change (zlen (bs "host: ")) with 6; change (zlen (bs "rity: ")) with 6; change (zlen (bs ":authority")) with 10; lia|rewrite zlen_app; reflexivity].
    pose proof (move_to_end b1 _ _ (v ++ [13; 10]) _ Am As) as Mm. rewrite HzB. change (zlen (bs ":authority")) with 10. replace (host_at (q_method q) p - 6 + 10 + 2 - 6) with (host_at (q_method q) p) by lia.
    unfold on_buf, set_host_offset, set_host, put_hdr, on_lsxpack, set_pos. cbn [m_buf m_lsxpack m_url m_url_len m_host m_host_len m_commonHeaderPos m_host_offset m_url_offset m_methodLen m_first_cookie_idx]. rewrite wrapu_small by lia.
    eexists. split; [reflexivity|].
    assert (HB2 : built (set_q_host v q) = (built q ++ bs "host: ") ++ v ++ [13; 10]).
    { rewrite HB, built_early by exact He. cbn [set_q_host q_method q_path q_host]. rewrite Ep. cbn [head_text]. unfold line. change (bs "host: ") with (bs "host" ++ [58; 32]). rewrite <- !app_assoc. reflexivity. }
    split; rewrite ?HB2; destruct (znth ucp H_HOST =? 0); cbn [m_buf m_lsxpack m_url m_url_len m_host m_host_len m_commonHeaderPos m_host_offset m_url_offset m_methodLen m_first_cookie_idx set_q_host q_method q_path q_host q_entries]; rewrite ?Ep, ?length_insert; auto.
    1, 2: eexists; cbn [used mem]; rewrite Mm, <- !app_assoc; reflexivity.
    1, 2: cbn [used bsize move_to]; rewrite As, !zlen_app; change (zlen [13; 10]) with 2; lia.
    1, 2: change (Z.to_nat 3) with 3%nat; rewrite Hl, He, Hput; eexists [_]; split; [cbn [imap app]; reflexivity|]; eexists; split; reflexivity.
  - cbn [default from_option id is_some]. change (zlen []) with 0. cbn [Z.eqb negb]. rewrite Hget.
    unfold on_buf, set_host_offset, set_host, put_hdr, on_lsxpack, set_pos. cbn [m_buf m_lsxpack m_url m_url_len m_host m_host_len m_commonHeaderPos m_host_offset m_url_offset m_methodLen m_first_cookie_idx].
    eexists. split; [reflexivity|].
    assert (HB2 : built (set_q_host v q) = built q) by (rewrite !built_early by exact He; cbn [set_q_host q_method q_path q_host]; rewrite Ep; reflexivity).
    split; rewrite ?HB2; destruct (znth ucp H_HOST =? 0); cbn [m_buf m_lsxpack m_url m_url_len m_host m_host_len m_commonHeaderPos m_host_offset m_url_offset m_methodLen m_first_cookie_idx set_q_host q_method q_path q_host q_entries]; rewrite ?Ep, ?length_insert; auto.
    1, 2: eexists; cbn [app]; exact Rm.
    1, 2: change (Z.to_nat 3) with 3%nat; rewrite Hl, He, Hput; eexists [_]; split; [cbn [imap app]; reflexivity|]; eexists; split; reflexivity.
Qed.
