(* ===== verification/UpkdRun.v ===== *)
(** * UpkdRun: the builder of an HTTP/2 request's headers follows its rules
    (src/src/h2/unpackedheaders.cpp, src/src/h2/h2connection.cpp)

    A run of [decodeReqHdrData] against [build] of UpkdSpec: the invariant between the
    builder and the request so far, one lemma per step, the end of the headers with the
    chain of the cookies, and the claims. *)

From S2P Require Import Prelude Chains Headers Request RespHeaders Upkd UpkdSpec.
Import HttpHeader HttpRespHeaders(lsxpack_header, Hdr, hdr_buf, name_offset, name_len, val_offset, val_len, chain_next_idx, app_index, hdr_app_idx).
#[local] Open Scope Z_scope.

Ltac upk_proj := cbn [m_buf m_lsxpack m_url m_url_len m_host m_host_len m_commonHeaderPos m_host_offset m_url_offset m_methodLen m_first_cookie_idx on_buf on_lsxpack put_hdr pop_hdr set_first_cookie].

(** ** The entries *)

Lemma insert_last {A} (l : list A) x y : <[length l := y]> (l ++ [x]) = l ++ [y].
Proof. rewrite <- (Nat.add_0_r (length l)), insert_app_r. reflexivity. Qed.

Lemma nth_last {A} (l : list A) x d : nth (length l) (l ++ [x]) d = x.
Proof. rewrite app_nth2, Nat.sub_diag by lia. reflexivity. Qed.

Lemma count_pos q : 3 <= count q.
Proof. unfold count, UPK_PSDO_RESERVE. pose proof (zlen_nonneg (q_entries q)). destruct (is_some _); lia. Qed.

(** The entries of a request, and what may stand behind them. *)
Lemma rep_extra u q ahead extra : Rep u q ahead extra -> exists pre, m_lsxpack u = pre ++ extra /\ zlen pre = count q /\
  (forall b ahead' extra', (exists spare, mem b = built q ++ ahead' ++ spare) -> bsize b = zlen (built q) ->
     Rep (on_lsxpack (fun _ => pre ++ extra') (on_buf (fun _ => b) u)) q ahead' extra').
Proof.
  intros [Rm Rs Ru Rh Rmm Ruo Rho Rp (hs & Hl & Hh)].
  exists (repeat zero_hdr 3 ++ hs ++ imap (entry_hdr (base q) (q_entries q)) (q_entries q)). split; [rewrite Hl, <- !app_assoc; reflexivity|]. split.
  - unfold count. rewrite !zlen_app. change (zlen (repeat zero_hdr 3)) with 3. unfold zlen at 2. rewrite length_imap. fold (zlen (q_entries q)).
    destruct (q_host q); [destruct Hh as (off & -> & _)|subst hs]; cbn [is_some]; unfold UPK_PSDO_RESERVE; rewrite ?zlen_cons, zlen_nil; lia.
  - intros b ahead' extra' Hb Hs. split; upk_proj; auto. exists hs. split; [rewrite <- !app_assoc; reflexivity|exact Hh].
Qed.

Lemma rep_grow u q ahead extra b : Rep u q ahead extra -> mem b = mem (m_buf u) -> bsize b = bsize (m_buf u) -> Rep (on_buf (fun _ => b) u) q ahead extra.
Proof. intros [Rm Rs Ru Rh Rmm Ruo Rho Rp Re] Hm Hs. split; upk_proj; rewrite ?Hm, ?Hs; auto. Qed.

(** What is ahead does not matter once a header was refused. *)
Lemma rep_spare u q ahead extra : Rep u q ahead extra -> Rep u q [] extra.
Proof. intros [(spare & Rm) Rs Ru Rh Rmm Ruo Rho Rp Re]. split; auto. exists (ahead ++ spare). exact Rm. Qed.

(** ** A header that is decoded *)

(** Behind the entries of the request there is one for the next header, or none. *)
Definition pending (w : UpkdHdrBuilder) (extra : list lsxpack_header) : Prop := if working w then exists h, extra = [h] else extra = [].

Definition aligned (mini : Z) : Z := Z.land (mini + 2 + 255) (-256).

Lemma prepareDecode_ok mini w q extra : Rep (headers w) q [] extra -> pending w extra -> 0 <= mini -> aligned mini + zlen (built q) < MAX_BUF_SIZE ->
  exists u h, prepareDecode mini w = Some (set_working true (on_headers (fun _ => u) w)) /\ Rep u q [] [h].
Proof.
  intros R P Hm Hroom. pose proof (rep_size _ _ _ _ R) as Rs. pose proof (zlen_nonneg (built q)) as Hz.
  assert (Hb : exists b, (if available (m_buf (headers w)) <? mini + 2 then
      let increase_to := Z.land (mini + 2 + 255) (-256) in
      if increase_to + bsize (m_buf (headers w)) >=? MAX_BUF_SIZE then None else Some (guarantee increase_to (m_buf (headers w)))
    else Some (m_buf (headers w))) = Some b /\ mem b = mem (m_buf (headers w)) /\ bsize b = bsize (m_buf (headers w))).
  { destruct (_ <? _); [|eauto]. cbv zeta. fold (aligned mini). rewrite Z.geb_leb, (proj2 (Z.leb_gt _ _)) by lia. eexists. split; [reflexivity|].
    destruct (guarantee_mem (aligned mini) (m_buf (headers w))) as (Gm & Gs & _); [unfold aligned; apply Z.land_nonneg; lia|lia|]. auto. }
  destruct Hb as (b & Hb & Bm & Bs). unfold prepareDecode. cbv zeta in Hb |- *. rewrite Hb. clear Hb.
  pose proof (rep_grow _ _ _ _ b R Bm Bs) as R'. unfold pending in P. destruct (working w) eqn:Ew.
  - destruct P as (h & ->). exists (on_buf (fun _ => b) (headers w)), h. split; [|exact R']. cbn [working on_headers]. rewrite Ew. destruct w. cbn in Ew. subst. reflexivity.
  - subst extra. destruct (rep_extra _ _ _ _ R') as (pre & Hl & _ & Hk).
    exists (on_lsxpack (fun l => l ++ [zero_hdr]) (on_buf (fun _ => b) (headers w))), zero_hdr. split; [cbn [working on_headers]; rewrite Ew; reflexivity|].
    specialize (Hk b [] [zero_hdr] ltac:(destruct (rep_mem _ _ _ _ R') as (sp & Hsp); exists sp; exact Hsp) (rep_size _ _ _ _ R')).
    unfold on_lsxpack in *. rewrite Hl, app_nil_r. exact Hk.
Qed.

Lemma decode_into_ok d w q h : Rep (headers w) q [] [h] ->
  exists u, decode_into d w = on_headers (fun _ => u) w /\ Rep u q (line (d_name d) (d_val d)) [at_end q (d_name d) (d_val d)].
Proof.
  intros R. destruct (rep_extra _ _ _ _ R) as (pre & Hl & Hc & Hk). pose proof (rep_size _ _ _ _ R) as Rs. destruct (rep_mem _ _ _ _ R) as (spare & Rm).
  unfold decode_into. eexists. split; [reflexivity|]. unfold getHeaderCount. rewrite Hl, zlen_app, Hc. change (zlen [h]) with 1.
  replace (count q + 1 - 1) with (count q) by lia.
  refine (eq_ind _ (fun u => Rep u q _ _) (Hk (move_to (bsize (m_buf (headers w))) (line (d_name d) (d_val d)) (m_buf (headers w))) _ _ _ Rs) _ _).
  - eexists. apply move_to_end; [exact Rm|exact Rs].
  - unfold put_hdr, on_lsxpack, on_buf. cbn [m_lsxpack m_buf m_url m_url_len m_host m_host_len m_commonHeaderPos m_host_offset m_url_offset m_methodLen m_first_cookie_idx].
    f_equal. rewrite Hl. replace (Z.to_nat (count q)) with (length pre) by (rewrite <- Hc; unfold zlen; lia). rewrite insert_last, Rs. reflexivity.
Qed.

(** ** The builder's own fields *)

(** The place of the last cookie. *)
Definition last_cookie (l : list entry) (k : nat) : Prop := (exists v, l !! k = Some (Cookie v)) /\ forall j v, (k < j)%nat -> l !! j <> Some (Cookie v).

Record Books (w : UpkdHdrBuilder) (q : request) : Prop := MkBooks {
  bk_tmp : tmp_buf w = join_cookies (cookies (q_entries q));
  bk_room : tmp_max w = q_room q;
  bk_count : cookie_count w = zlen (cookies (q_entries q));
  bk_total : total_size w = q_total q;
  bk_regular : regular_header w = q_regular q;
  bk_scheme : scheme w = q_scheme q;
  bk_chain : match cookies (q_entries q) with
             | [] => first_cookie_idx w = UINT16_MAX
             | _ => exists k0 k, first_cookie_idx w = 4 + Z.of_nat k0 /\ first_at [] (mark (q_entries q)) = Some k0 /\
                      last_cookie_idx w = 4 + Z.of_nat k /\ last_cookie (q_entries q) k
             end }.

Lemma books_keep (w : UpkdHdrBuilder) (q : request) f b : Books w q -> Books (set_working b (on_headers f w)) q.
Proof. intros [? ? ? ? ? ? ?]. split; assumption. Qed.

(** The builder and the request so far. *)
Definition Inv (w : UpkdHdrBuilder) (q : request) : Prop := wf q /\ Books w q /\ exists extra, Rep (headers w) q [] extra /\ pending w extra.

(** What a step has to show, against what the rules say. *)
Definition steps_to (r : Z * UpkdHdrBuilder) (s : Z + request) : Prop :=
  match s with inl e => fst r = e /\ e <> LSXPACK_OK | inr q => fst r = LSXPACK_OK /\ Inv (snd r) q end.

Lemma err_refused (c : bool) : ((if c then LSXPACK_OK else LSXPACK_ERR_BAD_REQ_HEADER) =? LSXPACK_OK) = c.
Proof. destruct c; reflexivity. Qed.

Lemma negb_zero (c : bool) (e : Z) : e <> 0 -> negb ((if c then 0 else e) =? 0) = negb c.
Proof. intros He. destruct c; [reflexivity|]. rewrite (proj2 (Z.eqb_neq e 0)) by assumption. reflexivity. Qed.

(** A pseudo header's step that succeeds: the entry for it goes, or stays as the authority's. *)
Lemma inv_done (w : UpkdHdrBuilder) (q' : request) (u : UnpackedHeaders) : wf q' -> Rep u q' [] [] -> Books w q' -> Inv (set_working false (on_headers (fun _ => u) w)) q'.
Proof. intros W R B. split; [exact W|]. split; [apply books_keep, B|]. exists []. split; [exact R|reflexivity]. Qed.

Lemma wf_pseudo q q' : wf q -> q_regular q = false -> q_regular q' = false -> q_entries q' = q_entries q ->
  (forall m, q_method q' = Some m -> 0 < zlen m <= 16) -> (forall p, q_path q' = Some p -> 0 < zlen p <= 65400) -> (forall h, q_host q' = Some h -> 0 < zlen h) -> wf q'.
Proof. intros W Hr Hr' He Hm Hp Hh. split; auto; [intros _; rewrite He; apply (wf_entries _ W Hr)|rewrite Hr'; discriminate]. Qed.

Lemma books_pseudo w q q' : Books w q -> q_regular q' = q_regular q -> q_scheme q' = q_scheme q -> q_entries q' = q_entries q -> q_total q' = q_total q -> q_room q' = q_room q -> Books w q'.
Proof. intros [? ? ? ? ? ? ?] Hr Hs He Ht Hm. split; rewrite ?Hr, ?Hs, ?He, ?Ht, ?Hm; assumption. Qed.

Lemma is_some_len (o : option (list Z)) : (forall v, o = Some v -> 0 < zlen v) -> negb (zlen (default [] o) =? 0) = is_some o.
Proof. destruct o as [v|]; [|reflexivity]. intros H. cbn. rewrite (proj2 (Z.eqb_neq _ _)) by (specialize (H v eq_refl); lia). reflexivity. Qed.

(** A pseudo header that comes twice. *)
Lemma setMethod2_dup u q ahead extra h : wf q -> Rep u q ahead extra -> is_some (q_method q) = true -> setMethod2 h u = (-1, u).
Proof.
  intros W R H. unfold setMethod2. rewrite (rep_method _ _ _ _ R), is_some_len by (intros v Hv; apply (wf_method _ W v Hv)). rewrite H. reflexivity.
Qed.

Lemma setUrl2_dup u q ahead extra h : wf q -> Rep u q ahead extra -> is_some (q_path q) = true -> setUrl2 h u = (-1, u).
Proof.
  intros W R H. unfold setUrl2. destruct (rep_url _ _ _ _ R) as [_ ->]. rewrite is_some_len by (intros v Hv; apply (wf_path _ W v Hv)). rewrite H. reflexivity.
Qed.

Lemma setHost2_dup u q ahead extra pos h : wf q -> Rep u q ahead extra -> is_some (q_host q) = true -> setHost2 pos h u = (-1, u).
Proof.
  intros W R H. unfold setHost2. destruct (rep_host _ _ _ _ R) as [_ ->]. rewrite is_some_len by (intros v Hv; apply (wf_host _ W v Hv)). rewrite H. reflexivity.
Qed.

(** The name that goes with an index that is known. *)
Definition named_by (idx : option Z) (n : list Z) : Prop :=
  match idx with Some i => (i = H_HOST -> n = bs ":authority") /\ (i = UPK_HDR_PATH -> n = bs ":path") | None => True end.

Lemma zlen_zero (v : list Z) : (zlen v =? 0) = bytes_eqb v [].
Proof. destruct v as [|c v]; [reflexivity|]. rewrite zlen_cons, (proj2 (Z.eqb_neq _ _)) by (pose proof (zlen_nonneg v); lia). reflexivity. Qed.

Lemma count_early q : q_entries q = [] -> q_host q = None -> count q = 3.
Proof. intros He Hh. unfold count. rewrite He, Hh. reflexivity. Qed.

(** A step that changes the headers only, and the request's pseudo headers. *)
Lemma done_ok w q q' u' : wf q -> Books w q -> q_regular q = false -> q_regular q' = false -> q_entries q' = q_entries q -> q_total q' = q_total q -> q_room q' = q_room q ->
  q_scheme q' = q_scheme q -> Rep u' q' [] [] ->
  (forall m, q_method q' = Some m -> 0 < zlen m <= 16) -> (forall p, q_path q' = Some p -> 0 < zlen p <= 65400) -> (forall h, q_host q' = Some h -> 0 < zlen h) ->
  Inv (set_working false (on_headers (fun _ => u') w)) q'.
Proof.
  intros W B Hr Hr' He Ht Hm Hs R H1 H2 H3. apply inv_done; [apply (wf_pseudo q); assumption|exact R|].
  apply (books_pseudo w q); try assumption. rewrite Hr, Hr'. reflexivity.
Qed.

Lemma process_pseudo_ok w q idx n v : wf q -> Books w q -> Rep (headers w) q (line n v) [at_end q n v] -> bytes_ok v -> zlen v <= 65400 -> named_by (pseudo_index idx n) n ->
  steps_to (process_pseudo idx n v (count q) (at_end q n v) w) (add_pseudo (pseudo_index idx n) v q).
Proof.
  intros W B R Hv Hlen Hn. unfold process_pseudo, add_pseudo. rewrite (bk_regular _ _ B). cbn [val_len at_end]. rewrite zlen_zero.
  destruct (q_regular q) eqn:Hreg; [split; [reflexivity|discriminate]|]. pose proof (wf_entries _ W Hreg) as He.
  destruct (bytes_eqb v []) eqn:Ev; [split; [reflexivity|discriminate]|].
  assert (Hpos : 0 < zlen v). { rewrite <- zlen_zero in Ev. apply Z.eqb_neq in Ev. pose proof (zlen_nonneg v). lia. }
  destruct (pseudo_index idx n) as [i|]; [|split; [reflexivity|discriminate]]. destruct Hn as [Nh Np].
  pose proof (wf_method _ W) as Wm. pose proof (wf_path _ W) as Wp. pose proof (wf_host _ W) as Wh.
  destruct (Z.eqb_spec i H_HOST) as [->|_].
  { rewrite (validateReqValue_ok v Hv), negb_zero by discriminate. destruct (forallb value_char v); cbn [negb]; [|split; [reflexivity|discriminate]].
    rewrite (Nh eq_refl) in *. destruct (is_some (q_host q)) eqn:Eh; [rewrite (setHost2_dup _ _ _ _ _ _ W R Eh); split; [reflexivity|discriminate]|].
    assert (Hh : q_host q = None) by (destruct (q_host q); [discriminate|reflexivity]). rewrite (count_early q He Hh).
    destruct (setHost2_ok _ q v W R Hreg Hh Hpos) as (u' & -> & R'). cbn [Z.eqb]. split; [reflexivity|]. cbn [snd].
    apply (done_ok w q (set_q_host v q) u'); auto. intros h [= <-]. exact Hpos. }
  destruct (Z.eqb_spec i UPK_HDR_METHOD) as [->|_].
  { destruct (Z.gtb_spec (zlen v) MAX_METHOD_LEN) as [|Hm]; cbn [orb]; [split; [reflexivity|discriminate]|].
    rewrite (validate_method_ok v Hv), negb_zero by discriminate. destruct (forallb method_char v); cbn [negb]; [|split; [reflexivity|discriminate]].
    destruct (is_some (q_method q)) eqn:Eh; [rewrite (setMethod2_dup _ _ _ _ _ W R Eh); split; [reflexivity|discriminate]|].
    assert (Hh : q_method q = None) by (destruct (q_method q); [discriminate|reflexivity]). unfold MAX_METHOD_LEN in Hm.
    destruct (setMethod2_ok _ q n v W R Hreg Hh ltac:(lia)) as (u' & -> & R'). cbn [Z.eqb]. split; [reflexivity|]. cbn [snd done].
    apply (done_ok w q (set_q_method v q) (pop_hdr u')); auto. intros h [= <-]. lia. }
  destruct (Z.eqb_spec i UPK_HDR_PATH) as [->|_].
  { rewrite (validateReqPath_ok v Hv), negb_zero by discriminate. destruct (path_ok v); cbn [negb]; [|split; [reflexivity|discriminate]].
    rewrite (Np eq_refl) in *. destruct (is_some (q_path q)) eqn:Eh; [rewrite (setUrl2_dup _ _ _ _ _ W R Eh); split; [reflexivity|discriminate]|].
    assert (Hh : q_path q = None) by (destruct (q_path q); [discriminate|reflexivity]).
    destruct (setUrl2_ok _ q v W R Hreg Hh ltac:(lia)) as (u' & -> & R'). cbn [Z.eqb]. split; [reflexivity|]. cbn [snd done].
    apply (done_ok w q (set_q_path v q) (pop_hdr u')); auto. intros h [= <-]. lia. }
  destruct (Z.eqb_spec i UPK_HDR_SCHEME) as [->|_]; [|split; [reflexivity|discriminate]].
  rewrite (bk_scheme _ _ B). destruct (q_scheme q) eqn:Es; [split; [reflexivity|discriminate]|].
  rewrite validateReqScheme_ok, negb_zero by discriminate. destruct (scheme_ok v); cbn [negb]; [|split; [reflexivity|discriminate]].
  split; [reflexivity|]. cbn [snd done]. set (q' := Rq _ _ _ true _ _ _ _). destruct (rep_extra _ _ _ _ R) as (pre & Hl & _ & Hk).
  apply (inv_done (set_scheme w) q' (pop_hdr (headers w))).
  - apply (wf_pseudo q); auto.
  - specialize (Hk (m_buf (headers w)) [] [] ltac:(destruct (rep_mem _ _ _ _ R) as (sp & Hsp); eexists; exact Hsp) (rep_size _ _ _ _ R)).
    destruct Hk as [? ? ? ? ? ? ? ? K]. split; auto. cbn [pop_hdr on_lsxpack m_lsxpack]. rewrite Hl, removelast_last. cbn [on_lsxpack m_lsxpack] in K. rewrite app_nil_r in K. exact K.
  - destruct B as [? ? ? ? B5 ? ?]. split; cbn; auto. rewrite B5. exact Hreg.
Qed.

(** ** Fields *)

Definition with_entry (q : request) (e : entry) (total room : Z) : request :=
  Rq (q_method q) (q_path q) (q_host q) (q_scheme q) true (q_entries q ++ [e]) total room.

Lemma cookies_app l k : cookies (l ++ k) = cookies l ++ cookies k.
Proof. apply omap_app. Qed.

Lemma fields_text_app l k : fields_text (l ++ k) = fields_text l ++ fields_text k.
Proof. unfold fields_text. rewrite map_app, concat_app. reflexivity. Qed.

Lemma join_cookies_snoc l v : join_cookies (l ++ [v]) = (join_cookies l ++ match l with [] => [] | _ => bs "; " end) ++ v.
Proof.
  induction l as [|x l IH]; [reflexivity|]. cbn [app join_cookies]. destruct l as [|y l]; [cbn [app join_cookies]; rewrite <- app_assoc; reflexivity|].
  cbn [app] in *. rewrite IH, <- !app_assoc. reflexivity.
Qed.

Lemma length_mark l : length (mark l) = length l.
Proof. apply length_map. Qed.

Lemma mark_app l k : mark (l ++ k) = mark l ++ mark k.
Proof. apply map_app. Qed.

Definition is_cookie (e : entry) : bool := match e with Cookie _ => true | Field _ _ _ => false end.

Lemma named_mark (e : entry) : Chains.named [] (match e with Cookie v => Some ([], v) | Field _ _ _ => None end) = is_cookie e.
Proof. destruct e; reflexivity. Qed.

Lemma link_app l e k : (k < length l)%nat ->
  link (l ++ [e]) k = if (next_at [] k (mark l) =? -1) && is_cookie e then 4 + zlen l else link l k.
Proof.
  intros Hk. unfold link. rewrite mark_app. cbn [mark map]. rewrite next_at_app by (rewrite length_mark; exact Hk). rewrite named_mark, length_mark.
  fold (zlen l). destruct (Z.eqb_spec (next_at [] k (mark l)) (-1)) as [E|E]; cbn [andb].
  - destruct (is_cookie e); [rewrite (proj2 (Z.eqb_neq _ _)) by (pose proof (zlen_nonneg l); lia); reflexivity|reflexivity].
  - rewrite (proj2 (Z.eqb_neq _ _)) by exact E. reflexivity.
Qed.

Lemma link_end l e : link (l ++ [e]) (length l) = 0.
Proof. unfold link, next_at. rewrite drop_ge; [reflexivity|]. rewrite length_mark, length_app. cbn. lia. Qed.

Lemma mark_cookie l k v : mark l !! k = Some (Some ([], v)) <-> l !! k = Some (Cookie v).
Proof. unfold mark. rewrite list_lookup_fmap. destruct (l !! k) as [[]|]; cbn; split; congruence. Qed.

(** The last cookie is the one that has no next. *)
Lemma next_last l k v : l !! k = Some (Cookie v) -> (next_at [] k (mark l) =? -1) = true <-> last_cookie l k.
Proof.
  intros Hk. rewrite Z.eqb_eq. split.
  - intros Hn. split; [eauto|]. intros j v' Hj Hv. apply mark_cookie in Hv. exact (next_at_None _ _ _ _ _ Hn Hj Hv).
  - intros [_ Hl]. destruct (next_at_end [] k (mark l)) as [E|(j & Hj)]; [exact E|]. destruct (next_at_Some _ _ _ _ Hj) as (Hkj & v' & Hv). apply mark_cookie in Hv. destruct (Hl j v' Hkj Hv).
Qed.

Lemma entry_hdr_app b l e k x : (k < length l)%nat ->
  entry_hdr b (l ++ [e]) k x = match x with
    | Field _ _ _ => entry_hdr b l k x
    | Cookie v => Hdr false 0 0 (cookie_at (take k l)) (zlen v) (if (next_at [] k (mark l) =? -1) && is_cookie e then 4 + zlen l else link l k) H_COOKIE true
    end.
Proof. intros Hk. unfold entry_hdr. rewrite take_app_le, link_app by lia. destruct x; reflexivity. Qed.

Lemma imap_field b l idx n v :
  imap (entry_hdr b (l ++ [Field idx n v])) (l ++ [Field idx n v]) =
  imap (entry_hdr b l) l ++ [let off := b + zlen (fields_text l) in Hdr true off (zlen n) (off + zlen n + 2) (zlen v) 0 idx false].
Proof.
  rewrite imap_app. cbn [imap]. f_equal.
  - apply imap_ext. intros k x Hk. rewrite entry_hdr_app by (eapply lookup_lt_Some, Hk). cbn [is_cookie]. rewrite andb_false_r. destruct x; reflexivity.
  - unfold compose. cbn. rewrite Nat.add_0_r, take_app_length. reflexivity.
Qed.

Lemma no_cookie l k v : cookies l = [] -> l !! k <> Some (Cookie v).
Proof.
  intros Hc Hk. apply list_elem_of_lookup_2 in Hk. assert (v ∈ cookies l) as H by (apply list_elem_of_omap; exists (Cookie v); auto). rewrite Hc in H. inversion H.
Qed.

Definition set_next (next : Z) (h : lsxpack_header) : lsxpack_header :=
  Hdr (hdr_buf h) (name_offset h) (name_len h) (val_offset h) (val_len h) next (app_index h) (hdr_app_idx h).
Definition cookie_hdr (l : list entry) (v : list Z) : lsxpack_header := Hdr false 0 0 (cookie_at l) (zlen v) 0 H_COOKIE true.

Lemma imap_cookie_split b l v :
  imap (entry_hdr b (l ++ [Cookie v])) (l ++ [Cookie v]) = imap (entry_hdr b (l ++ [Cookie v])) l ++ [cookie_hdr l v].
Proof. rewrite imap_app. cbn [imap]. f_equal. unfold compose. cbn [entry_hdr]. rewrite Nat.add_0_r, take_app_length, link_end. reflexivity. Qed.

Lemma imap_cookie_first b l v : cookies l = [] -> imap (entry_hdr b (l ++ [Cookie v])) l = imap (entry_hdr b l) l.
Proof.
  intros Hc. apply imap_ext. intros k x Hk. rewrite entry_hdr_app by (eapply lookup_lt_Some, Hk). destruct x; [reflexivity|]. destruct (no_cookie _ _ _ Hc Hk).
Qed.

Lemma imap_cookie_next b l v k : last_cookie l k -> let L := imap (entry_hdr b l) l in
  imap (entry_hdr b (l ++ [Cookie v])) l = <[k := set_next (4 + zlen l) (nth k L zero_hdr)]> L.
Proof.
  intros Hl L. destruct (Hl) as ((v0 & Hk) & Hafter). apply list_eq. intros i. destruct (decide (i < length l)%nat) as [Hi|Hi].
  2:{ rewrite !lookup_ge_None_2; [reflexivity| |]; rewrite ?length_insert; subst L; rewrite ?length_imap; lia. }
  destruct (lookup_lt_is_Some_2 l i Hi) as (x & Hx). rewrite list_lookup_imap, Hx. cbn [option_map fmap option_fmap]. rewrite entry_hdr_app by exact Hi. cbn [is_cookie]. rewrite andb_true_r.
  assert (HL : forall i x, l !! i = Some x -> L !! i = Some (entry_hdr b l i x)) by (intros j y Hy; unfold L; rewrite list_lookup_imap, Hy; reflexivity).
  destruct (decide (i = k)) as [->|Hne].
  - rewrite Hk in Hx. injection Hx as <-. rewrite list_lookup_insert_eq by (unfold L; rewrite length_imap; exact Hi).
    rewrite (proj2 (next_last l k v0 Hk)) by exact Hl. rewrite (nth_lookup_Some _ _ _ _ (HL _ _ Hk)). reflexivity.
  - rewrite list_lookup_insert_ne by congruence. rewrite (HL _ _ Hx). destruct x as [|v1]; [reflexivity|].
    destruct (next_at [] i (mark l) =? -1) eqn:E; [|reflexivity]. apply (next_last l i v1 Hx) in E as [_ E]. destruct (decide (k < i)%nat) as [H|H].
    + destruct (Hafter i v1 H Hx).
    + destruct (E k v0 ltac:(lia) Hk).
Qed.

(** A regular header needs the target and the authority. *)
Lemma entries_at u q ahead extra h : Rep u q ahead extra -> q_host q = Some h -> exists off, m_lsxpack u = (repeat zero_hdr 3 ++ [Hdr true 0 4 off (zlen h) 0 H_HOST true]) ++ imap (entry_hdr (base q) (q_entries q)) (q_entries q) ++ extra /\
  match q_path q with Some p => off = host_at (q_method q) p | None => True end.
Proof.
  intros R Hh. destruct (rep_entries _ _ _ _ R) as (hs & Hl & H). rewrite Hh in H. destruct H as (off & -> & Ho). exists off. split; [|exact Ho]. rewrite Hl, <- !app_assoc. reflexivity.
Qed.

Lemma count_host q h : q_host q = Some h -> count q = 4 + zlen (q_entries q).
Proof. intros H. unfold count. rewrite H. reflexivity. Qed.

Lemma built_entry q e total room : built (with_entry q e total room) = built q ++ entry_text e.
Proof. unfold built, with_entry. cbn [q_method q_path q_host q_entries]. rewrite fields_text_app, <- !app_assoc. cbn. rewrite app_nil_r. reflexivity. Qed.

Lemma zlen_built q : zlen (built q) = base q + zlen (fields_text (q_entries q)).
Proof. unfold built, base. rewrite !zlen_app. change (zlen (repeat 0 4)) with 4. lia. Qed.

(** The headers with one more entry. *)
Lemma rep_entry u q e total room h b ahead l : Rep u q ahead l -> q_host q = Some h -> (exists spare, mem b = built q ++ entry_text e ++ spare) -> bsize b = zlen (built q) + zlen (entry_text e) ->
  forall f, (forall pre, zlen pre = 4 -> f (pre ++ imap (entry_hdr (base q) (q_entries q)) (q_entries q) ++ l) = pre ++ imap (entry_hdr (base q) (q_entries q ++ [e])) (q_entries q ++ [e])) ->
  Rep (on_buf (fun _ => b) (on_lsxpack f u)) (with_entry q e total room) [] [].
Proof.
  intros R Hh (spare & Bm) Bs f Hf. destruct (entries_at _ _ _ _ _ R Hh) as (off & Hl & Ho). destruct R as [Rm Rs Ru Rho Rmm Ruo Rhoo Rp _].
  split; upk_proj; auto.
  - exists spare. rewrite built_entry, Bm, <- app_assoc. reflexivity.
  - rewrite built_entry, zlen_app. exact Bs.
  - exists [Hdr true 0 4 off (zlen h) 0 H_HOST true]. split.
    + rewrite Hl, Hf by reflexivity. rewrite app_nil_r. cbn [with_entry q_entries]. rewrite <- !app_assoc. reflexivity.
    + cbn [with_entry q_host q_path q_method]. rewrite Hh. eauto.
Qed.

Lemma insert_end (pre I : list lsxpack_header) i x y : zlen pre = 4 -> i = 4 + zlen I -> <[Z.to_nat i := y]> (pre ++ I ++ [x]) = pre ++ I ++ [y].
Proof. intros Hp ->. replace (Z.to_nat (4 + zlen I)) with (length pre + length I)%nat by (unfold zlen in *; lia). rewrite insert_app_r. f_equal. apply insert_last. Qed.

Lemma insert_at (pre I E : list lsxpack_header) k y : zlen pre = 4 -> (k < length I)%nat -> <[Z.to_nat (4 + Z.of_nat k) := y]> (pre ++ I ++ E) = pre ++ <[k := y]> I ++ E.
Proof. intros Hp Hk. replace (Z.to_nat (4 + Z.of_nat k)) with (length pre + k)%nat by (unfold zlen in *; lia). rewrite insert_app_r. f_equal. apply insert_app_l, Hk. Qed.

Lemma nth_at (pre I E : list lsxpack_header) k d : zlen pre = 4 -> (k < length I)%nat -> nth (Z.to_nat (4 + Z.of_nat k)) (pre ++ I ++ E) d = nth k I d.
Proof. intros Hp Hk. rewrite app_nth2 by (unfold zlen in *; lia). rewrite app_nth1 by (unfold zlen in *; lia). f_equal. unfold zlen in *; lia. Qed.

Lemma cookie_at_room l : zlen (join_cookies (cookies l) ++ (if zlen (cookies l) >? 0 then bs "; " else [])) = cookie_at l.
Proof. unfold cookie_at. destruct (cookies l) as [|v c]; [reflexivity|]. rewrite zlen_app, zlen_cons, Z.gtb_ltb, (proj2 (Z.ltb_lt _ _)) by (pose proof (zlen_nonneg c); lia). reflexivity. Qed.

Lemma first_cookie_lt l k : first_at [] (mark l) = Some k -> (k < length l)%nat.
Proof. intros H. destruct (first_at_Some _ _ _ H) as (v & Hv). rewrite <- length_mark. eapply lookup_lt_Some, Hv. Qed.

Lemma last_cookie_lt l k : last_cookie l k -> (k < length l)%nat.
Proof. intros ((v & Hv) & _). eapply lookup_lt_Some, Hv. Qed.

Lemma last_cookie_snoc l v : last_cookie (l ++ [Cookie v]) (length l).
Proof.
  split; [exists v; rewrite lookup_app_r, Nat.sub_diag by lia; reflexivity|]. intros j v' Hj H. apply lookup_lt_Some in H. rewrite length_app in H. cbn in H. lia.
Qed.

Lemma first_at_mark_none l : cookies l = [] -> first_at [] (mark l) = None.
Proof.
  intros Hc. destruct (first_at [] (mark l)) as [k|] eqn:E; [|reflexivity]. destruct (first_at_Some _ _ _ E) as (v & Hv). apply mark_cookie in Hv. destruct (no_cookie _ _ _ Hc Hv).
Qed.

Lemma wf_entry q e total room : wf q -> is_some (q_path q) && is_some (q_host q) = true -> wf (with_entry q e total room).
Proof. intros [? ? ? ? ?] H. split; cbn; auto. discriminate. Qed.

Lemma process_cookie_ok w q n v ahead : wf q -> Books w q -> Rep (headers w) q ahead [at_end q n v] -> is_some (q_path q) && is_some (q_host q) = true -> count q < 65535 ->
  steps_to (process_cookie v (count q) (at_end q n v) (set_regular w))
    (match cookie_room (q_room q) (zlen (join_cookies (cookies (q_entries q)))) (zlen v + 2) with
     | None => inl LSXPACK_ERR_NOMEM
     | Some room => inr (with_entry q (Cookie v) (q_total q) room) end).
Proof.
  intros W B R Hph Hcount. pose proof (wf_entry q (Cookie v) (q_total q)) as Wf. apply andb_true_iff in Hph as Hph2. destruct Hph2 as [_ Hh]. destruct (q_host q) as [h|] eqn:Eh; [|discriminate]. clear Hh.
  pose proof (count_host q h Eh) as Hc. unfold process_cookie. cbn [set_regular tmp_max tmp_buf cookie_count first_cookie_idx last_cookie_idx].
  rewrite (bk_room _ _ B), (bk_tmp _ _ B), (bk_count _ _ B). cbn [val_len chain_next_idx at_end]. destruct (cookie_room _ _ _) as [room|]; [|split; [reflexivity|discriminate]].
  rewrite cookie_at_room. split; [reflexivity|]. cbn [snd]. set (l := q_entries q) in *. set (q' := with_entry q (Cookie v) (q_total q) room).
  assert (Hbuf : exists spare, mem (m_buf (headers w)) = built q ++ entry_text (Cookie v) ++ spare) by (destruct (rep_mem _ _ _ _ R) as (sp & Hsp); exists (ahead ++ sp); exact Hsp).
  assert (Hsz : bsize (m_buf (headers w)) = zlen (built q) + zlen (entry_text (Cookie v))) by (rewrite (rep_size _ _ _ _ R); change (zlen (entry_text (Cookie v))) with 0; lia).
  pose proof (rep_entry _ q (Cookie v) (q_total q) room h (m_buf (headers w)) _ _ R Eh Hbuf Hsz) as Hrep. fold l in Hrep.
  assert (HI : zlen (imap (entry_hdr (base q) l) l) = zlen l) by (unfold zlen; rewrite length_imap; reflexivity).
  assert (Hpos : count q = 4 + zlen (imap (entry_hdr (base q) l) l)) by (rewrite HI; exact Hc).
  assert (Htmp : (join_cookies (cookies l) ++ (if zlen (cookies l) >? 0 then bs "; " else [])) ++ v = join_cookies (cookies l ++ [v])).
  { rewrite join_cookies_snoc. do 2 f_equal. destruct (cookies l) as [|c0 c]; [reflexivity|]. rewrite zlen_cons, Z.gtb_ltb, (proj2 (Z.ltb_lt _ _)) by (pose proof (zlen_nonneg c); lia). reflexivity. }
  assert (Hc' : cookies (q_entries q') = cookies l ++ [v]) by (unfold q', with_entry; cbn [q_entries]; apply cookies_app).
  assert (Hcount' : zlen (cookies l) + 1 = zlen (cookies (q_entries q'))) by (rewrite Hc', zlen_app; reflexivity).
  pose proof (bk_chain _ _ B) as Bc. fold l in Bc. destruct (cookies l) as [|c0 c] eqn:Ec.
  - rewrite Bc, Z.eqb_refl. split; [apply Wf; [exact W|exact Hph]|]. split.
    + apply MkBooks; [rewrite Hc'; exact Htmp|reflexivity|exact Hcount'|exact (bk_total _ _ B)|reflexivity|exact (bk_scheme _ _ B)|].
      { rewrite Hc'. cbn [app]. exists (length l), (length l). cbn [set_working set_cookies first_cookie_idx last_cookie_idx]. rewrite Hc. split; [reflexivity|]. split; [|split; [reflexivity|exact (last_cookie_snoc l v)]].
        change (q_entries q') with (l ++ [Cookie v]). rewrite mark_app, first_at_app, first_at_mark_none by exact Ec. cbn. rewrite length_mark, Nat.add_0_r. reflexivity. }
    + exists []. split; [|reflexivity]. refine (Hrep (fun l => <[Z.to_nat (count q) := Hdr false 0 0 (cookie_at (q_entries q)) (zlen v) 0 H_COOKIE true]> l) _).
      intros pre Hpre. rewrite imap_cookie_split, (imap_cookie_first _ _ _ Ec). apply insert_end; [exact Hpre|exact Hpos].
  - destruct Bc as (k0 & k & Bf & Hf & Bl & Hl). pose proof (first_cookie_lt _ _ Hf) as Hk0. pose proof (last_cookie_lt _ _ Hl) as Hk.
    rewrite Bf, Bl, (proj2 (Z.eqb_neq _ UINT16_MAX)) by (unfold UINT16_MAX, zlen in *; lia). split; [apply Wf; [exact W|exact Hph]|]. split.
    + apply MkBooks; [rewrite Hc'; exact Htmp|reflexivity|exact Hcount'|exact (bk_total _ _ B)|reflexivity|exact (bk_scheme _ _ B)|].
      { rewrite Hc'. cbn [app]. exists k0, (length l). cbn [set_working set_cookies first_cookie_idx last_cookie_idx]. rewrite Hc. split; [reflexivity|]. split; [|split; [reflexivity|exact (last_cookie_snoc l v)]]. change (q_entries q') with (l ++ [Cookie v]). rewrite mark_app, first_at_app, Hf. reflexivity. }
    + exists []. split; [|reflexivity].
      refine (Hrep (fun l => let l1 := <[Z.to_nat (count q) := Hdr false 0 0 (cookie_at (q_entries q)) (zlen v) 0 H_COOKIE true]> l in
                             <[Z.to_nat (4 + Z.of_nat k) := set_next (count q) (nth (Z.to_nat (4 + Z.of_nat k)) l1 zero_hdr)]> l1) _).
      intros pre Hpre. cbv zeta. rewrite (insert_end pre _ _ _ _ Hpre Hpos). rewrite nth_at by (rewrite ?length_imap; assumption). rewrite insert_at by (rewrite ?length_imap; assumption).
      rewrite imap_cookie_split, (imap_cookie_next _ _ _ k Hl), Hc. reflexivity.
Qed.

Lemma isComplete_ok u q ahead extra : wf q -> Rep u q ahead extra -> isComplete u = is_some (q_path q) && is_some (q_host q).
Proof.
  intros W R. unfold isComplete. destruct (rep_host _ _ _ _ R) as [-> ->]. rewrite is_some_len by (intros v Hv; apply (wf_host _ W v Hv)).
  destruct (q_path q), (q_host q); reflexivity.
Qed.

Lemma process_regular_ok w q idx n v : wf q -> Books w q -> Rep (headers w) q (line n v) [at_end q n v] -> bytes_ok n -> bytes_ok v -> count q < 65535 ->
  steps_to (process_regular idx n v (count q) (at_end q n v) w) (add_field idx n v q).
Proof.
  intros W B R Hn Hv Hcount. unfold process_regular, add_field. rewrite (isComplete_ok _ _ _ _ W R), (bk_regular _ _ B), regular_index_ok by exact Hn.
  pose proof (wf_regular _ W) as Wr. destruct (is_some (q_path q) && is_some (q_host q)) eqn:Hph; cbn [negb andb].
  2:{ destruct (q_regular q); [discriminate (Wr eq_refl)|]. split; [reflexivity|discriminate]. }
  rewrite andb_false_r. cbv zeta. assert (He : forall e, field_index idx n = inl e -> e <> LSXPACK_OK).
  { intros e. unfold field_index. destruct (negb _); [discriminate|]. destruct (bytes_eqb n []); [intros [= <-]; discriminate|]. destruct (bad_name n) as [e'|] eqn:E; [intros [= <-]; apply (bad_name_pos _ _ E)|].
    destruct (bytes_eqb n _); [intros [= <-]; discriminate|]. destruct (bytes_eqb n _); [discriminate|]. destruct (bytes_eqb n _); discriminate. }
  destruct (field_index idx n) as [e|i]; [split; [reflexivity|exact (He e eq_refl)]|]. clear He.
  rewrite (validateReqValue_ok v Hv), negb_zero by discriminate. destruct (forallb value_char v); cbn [negb]; [|split; [reflexivity|discriminate]].
  destruct (i =? H_COOKIE); [exact (process_cookie_ok w q n v _ W B R Hph Hcount)|].
  destruct ((i =? H_TRANSFER_ENCODING) && strcaseeq v (bs "chunked")); [split; [reflexivity|discriminate]|].
  destruct (negb (i =? H_TRANSFER_ENCODING) && bytes_eqb n (bs "te") && negb (strcaseeq v (bs "trailers"))); [split; [reflexivity|discriminate]|].
  cbn [set_regular total_size name_len val_len at_end hdr_buf name_offset val_offset chain_next_idx hdr_app_idx]. rewrite (bk_total _ _ B).
  destruct (_ >=? 65535); [split; [reflexivity|discriminate]|]. split; [reflexivity|]. cbn [snd].
  set (total := q_total q + (zlen n + zlen v + 4)). assert (exists h, q_host q = Some h) as (h & Eh) by (destruct (q_host q); [eauto|rewrite andb_false_r in Hph; discriminate]).
  split; [exact (wf_entry q (Field i n v) total (q_room q) W Hph)|]. split.
  - destruct B as [B1 B2 B3 B4 B5 B6 B7]. assert (Hc : cookies (q_entries q ++ [Field i n v]) = cookies (q_entries q)) by (rewrite cookies_app; apply app_nil_r).
    apply MkBooks; cbn [q_entries q_room q_total q_regular q_scheme]; rewrite ?Hc; auto. destruct (cookies (q_entries q)); [exact B7|]. destruct B7 as (k0 & k & ? & Hf & ? & (v0 & Hk) & Hl).
    exists k0, k. split_and!; auto; [rewrite mark_app, first_at_app, Hf; reflexivity|]. split; [exists v0; apply lookup_app_l_Some, Hk|].
    intros j v' Hj Hx. apply lookup_app_Some in Hx as [Hx|[_ Hx]]; [exact (Hl j v' Hj Hx)|]. destruct (j - _)%nat as [|[]]; discriminate.
  - exists []. split; [|reflexivity]. destruct (rep_mem _ _ _ _ R) as (sp & Hm).
    refine (rep_entry _ q (Field i n v) total (q_room q) h (used (zlen n + zlen v + 4) (m_buf (headers w))) _ _ R Eh _ _ (fun l => <[Z.to_nat (count q) := Hdr true (zlen (built q)) (zlen n) (zlen (built q) + zlen n + 2) (zlen v) 0 i false]> l) _).
    + exists sp. exact Hm.
    + cbn [used bsize entry_text]. rewrite (rep_size _ _ _ _ R), zlen_upk_line. lia.
    + intros pre Hpre. rewrite imap_field, zlen_built. apply insert_end; [exact Hpre|]. unfold zlen at 1. rewrite length_imap. exact (count_host q h Eh).
Qed.

(** ** One header *)

(** What the decoder of a format gives: bytes, and the name that its static table has
    for the index. *)
Definition static_name (qpack : bool) (i : Z) : option (list Z) :=
  if qpack then if (0 <=? i) && (i <? 99) then Some (nth (Z.to_nat i) qpack_names []) else None
  else if (1 <=? i) && (i <=? 61) then Some (nth (Z.to_nat (i - 1)) hpack_names []) else None.
Definition decoder_ok (qpack : bool) (d : decoded) : Prop :=
  bytes_ok (d_name d) /\ bytes_ok (d_val d) /\ match static_name qpack (d_index d) with Some n => d_name d = n | None => True end.

Definition req_index (qpack : bool) (d : decoded) : Z := if qpack then qpack2ReqIdx (d_index d) else hpack2ReqIdx (d_index d).
Definition pseudo_name (n : list Z) : bool := (zlen n >? 2) && (znth n 0 =? 58).

Lemma static_pseudo qpack d : decoder_ok qpack d -> let idx := req_index qpack d in
  (idx = H_HOST -> pseudo_name (d_name d) = true -> d_name d = bs ":authority") /\ (idx = UPK_HDR_PATH -> d_name d = bs ":path").
Proof.
  intros (_ & _ & Hs). unfold req_index. destruct qpack; cbn [static_name] in Hs.
  - unfold qpack2ReqIdx. rewrite Z.geb_leb. destruct ((0 <=? d_index d) && (d_index d <? 99)) eqn:E; [|split; discriminate]. apply andb_true_iff in E as [E1 E2].
    pose proof (range_forall (fun i => (negb (znth qpack2appreq i =? H_HOST) || negb (pseudo_name (nth (Z.to_nat i) qpack_names [])) || bytes_eqb (nth (Z.to_nat i) qpack_names []) (bs ":authority")) &&
      (negb (znth qpack2appreq i =? UPK_HDR_PATH) || bytes_eqb (nth (Z.to_nat i) qpack_names []) (bs ":path"))) 0 99 ltac:(vm_compute; reflexivity) (d_index d) ltac:(lia)) as H. cbv beta in H.
    rewrite Hs. apply andb_true_iff in H as [H1 H2]. cbv zeta. split; [intros Hi Hp; rewrite Hi, Hp in H1; apply bytes_eqb_eq, H1|intros Hi; rewrite Hi in H2; apply bytes_eqb_eq, H2].
  - unfold hpack2ReqIdx. rewrite Z.gtb_ltb. destruct ((0 <? d_index d) && (d_index d <=? 61)) eqn:E; [|split; discriminate]. apply andb_true_iff in E as [E1 E2].
    replace (1 <=? d_index d) with true in Hs by lia. rewrite E2 in Hs. cbn [andb] in Hs.
    pose proof (range_forall (fun i => (negb (znth hpack2appreq i =? H_HOST) || negb (pseudo_name (nth (Z.to_nat i) hpack_names [])) || bytes_eqb (nth (Z.to_nat i) hpack_names []) (bs ":authority")) &&
      (negb (znth hpack2appreq i =? UPK_HDR_PATH) || bytes_eqb (nth (Z.to_nat i) hpack_names []) (bs ":path"))) 0 61 ltac:(vm_compute; reflexivity) (d_index d - 1) ltac:(lia)) as H. cbv beta in H.
    rewrite Hs. apply andb_true_iff in H as [H1 H2]. cbv zeta. split; [intros Hi Hp; rewrite Hi, Hp in H1; apply bytes_eqb_eq, H1|intros Hi; rewrite Hi in H2; apply bytes_eqb_eq, H2].
Qed.

Lemma kind_of_eq qpack d : kind_of qpack d = let idx := req_index qpack d in
  if ((idx >=? UPK_HDR_METHOD) && (idx <=? UPK_HDR_STATUS)) || pseudo_name (d_name d) then Pseudo (pseudo_index idx (d_name d)) else Regular idx.
Proof. reflexivity. Qed.

Lemma pseudo_named qpack d idx : decoder_ok qpack d -> kind_of qpack d = Pseudo idx -> named_by idx (d_name d).
Proof.
  intros Hd. rewrite kind_of_eq. destruct (static_pseudo qpack d Hd) as [Hh Hp]. cbv zeta in *. set (i := req_index qpack d) in *.
  destruct (_ || _) eqn:Ek; [|discriminate]. intros [= <-]. unfold pseudo_index. destruct (Z.eqb_spec i UPK_HDR_UNKNOWN) as [Hi|Hne].
  - destruct (znth (d_name d) 1) as [|c|]; [exact I| |exact I].
    repeat (destruct c as [c|c|]; try exact I);
      (destruct (bytes_eqb (d_name d) _) eqn:E; [apply bytes_eqb_eq in E|rewrite Hi]; cbn [named_by]; split; intros Hx; first [discriminate Hx|exact E]).
  - cbn [named_by]. split; [|exact Hp]. intros Hi. apply Hh; [exact Hi|]. rewrite Hi in Ek. exact Ek.
Qed.

Lemma process_ok max w q qpack d : wf q -> Books w q -> is_qpack w = qpack -> Rep (headers w) q (line (d_name d) (d_val d)) [at_end q (d_name d) (d_val d)] -> decoder_ok qpack d -> max < 65535 -> zlen (d_val d) <= 65400 ->
  steps_to (process max d w) (add_header qpack max d q).
Proof.
  intros W B Hq R Hd Hmax Hlen. destruct (rep_extra _ _ _ _ R) as (pre & Hl & Hc & _). destruct (rep_mem _ _ _ _ R) as (sp & Hm).
  assert (Hn : getHeaderCount (headers w) = count q + 1) by (unfold getHeaderCount; rewrite Hl, zlen_app, Hc; reflexivity).
  unfold process, add_header. rewrite Hn. destruct (Z.gtb_spec (count q + 1) max) as [|Hcount]; [split; [reflexivity|discriminate]|].
  replace (count q + 1 - 1) with (count q) by lia. assert (Hg : get_hdr (count q) (headers w) = at_end q (d_name d) (d_val d)).
  { unfold get_hdr. rewrite Hl. replace (Z.to_nat (count q)) with (length pre) by (rewrite <- Hc; unfold zlen; lia). apply nth_last. }
  rewrite Hg. cbn [name_offset name_len val_offset val_len at_end]. rewrite Hq.
  rewrite (get_bytes_mid _ (built q) (d_name d) ([58; 32] ++ d_val d ++ [13; 10] ++ sp)); [|rewrite Hm; unfold line; rewrite <- !app_assoc; reflexivity|reflexivity|reflexivity].
  rewrite (get_bytes_mid _ (built q ++ d_name d ++ [58; 32]) (d_val d) ([13; 10] ++ sp)); [|rewrite Hm; unfold line; rewrite <- !app_assoc; reflexivity|rewrite !zlen_app; change (zlen [58; 32]) with 2; lia|reflexivity].
  destruct (Hd) as (Hbn & Hbv & _). pose proof (pseudo_named qpack d) as Hp. rewrite kind_of_eq in *. fold (req_index qpack d) in *. fold (pseudo_name (d_name d)). cbv zeta in *.
  destruct (_ || _).
  - apply process_pseudo_ok; auto.
  - apply process_regular_ok; auto. lia.
Qed.

(** ** The end of the headers *)

(** The entries when the chain of the cookies has its place from the entry [k] on. *)
Definition final_hdr (b name_off cookie_off : Z) (l : list entry) (k : nat) (i : nat) (e : entry) : lsxpack_header :=
  match e with
  | Cookie v => if (i <? k)%nat then Hdr true name_off 6 (cookie_off + cookie_at (take i l)) (zlen v) (link l i) H_COOKIE true else entry_hdr b l i e
  | Field _ _ _ => entry_hdr b l i e
  end.

Lemma final_step b no co l k v : l !! k = Some (Cookie v) ->
  <[k := final_hdr b no co l (S k) k (Cookie v)]> (imap (final_hdr b no co l k) l) = imap (final_hdr b no co l (S k)) l.
Proof.
  intros Hk. apply list_eq. intros i. destruct (decide (i = k)) as [->|Hne].
  - rewrite list_lookup_insert_eq by (rewrite length_imap; eapply lookup_lt_Some, Hk). rewrite list_lookup_imap, Hk. reflexivity.
  - rewrite list_lookup_insert_ne by congruence. rewrite !list_lookup_imap. destruct (l !! i) as [[|v']|]; [reflexivity| |reflexivity]. cbn [fmap option_fmap option_map final_hdr]. f_equal.
    destruct (Nat.ltb_spec i k), (Nat.ltb_spec i (S k)); try reflexivity; lia.
Qed.

(** No cookie between two places: the entries are the same. *)
Lemma final_skip b no co l k k' : (k <= k')%nat -> (forall i v, (k <= i < k')%nat -> l !! i <> Some (Cookie v)) ->
  imap (final_hdr b no co l k) l = imap (final_hdr b no co l k') l.
Proof.
  intros Hk Hno. apply imap_ext. intros i x Hi. destruct x as [|v]; [reflexivity|]. cbn [final_hdr]. destruct (Nat.ltb_spec i k), (Nat.ltb_spec i k'); try reflexivity; try lia.
  destruct (Hno i v ltac:(lia) Hi).
Qed.

Lemma next_between l k j i v : next_at [] k (mark l) = Z.of_nat j -> (k < i < j)%nat -> l !! i <> Some (Cookie v).
Proof.
  unfold next_at. destruct (first_at [] (drop (S k) (mark l))) as [m|] eqn:E; [|lia]. intros Hj Hi Hv. apply mark_cookie in Hv.
  assert (m <= i - S k)%nat; [|lia]. apply (first_at_min [] _ m (i - S k)%nat v E). rewrite lookup_drop. rewrite <- Hv. f_equal. lia.
Qed.

Lemma cookie_chain_ok b no co l pre : zlen pre = 4 -> forall fuel k v u, l !! k = Some (Cookie v) -> m_lsxpack u = pre ++ imap (final_hdr b no co l k) l -> (length l - k < fuel)%nat ->
  cookie_chain fuel (4 + Z.of_nat k) no co u = on_lsxpack (fun _ => pre ++ imap (final_hdr b no co l (length l)) l) u.
Proof.
  intros Hpre. induction fuel as [|fuel IH]; intros k v u Hk Hu Hf; [lia|]. cbn [cookie_chain]. pose proof (lookup_lt_Some _ _ _ Hk) as Hlt.
  assert (Hg : get_hdr (4 + Z.of_nat k) u = entry_hdr b l k (Cookie v)).
  { unfold get_hdr. rewrite Hu, <- (app_nil_r (imap _ _)), nth_at by (rewrite ?length_imap; assumption). apply nth_lookup_Some. rewrite list_lookup_imap, Hk. cbn [fmap option_fmap option_map final_hdr].
    rewrite (proj2 (Nat.ltb_ge k k)) by lia. reflexivity. }
  rewrite Hg. cbn [entry_hdr val_offset val_len chain_next_idx app_index hdr_app_idx].
  match goal with |- context [put_hdr (4 + Z.of_nat k) ?h u] => set (h0 := h) end.
  assert (Hu' : m_lsxpack (put_hdr (4 + Z.of_nat k) h0 u) = pre ++ imap (final_hdr b no co l (S k)) l).
  { unfold put_hdr, on_lsxpack. cbn [m_lsxpack]. rewrite Hu, <- (app_nil_r (imap (final_hdr b no co l k) l)), insert_at by (rewrite ?length_imap; assumption). rewrite app_nil_r. f_equal.
    rewrite <- (final_step _ _ _ _ _ _ Hk). f_equal. unfold h0. cbn [final_hdr]. rewrite (proj2 (Nat.ltb_lt k (S k))) by lia. f_equal. lia. }
  unfold link. destruct (next_at_end [] k (mark l)) as [E|(j & E)]; rewrite E.
  - cbn [Z.eqb Z.opp negb]. rewrite (final_skip b no co l (S k) (length l)) in Hu'; [|lia|].
    + unfold put_hdr, on_lsxpack in *. cbn [m_lsxpack m_buf m_url m_url_len m_host m_host_len m_commonHeaderPos m_host_offset m_url_offset m_methodLen m_first_cookie_idx] in *. rewrite Hu'. reflexivity.
    + intros i v' Hi Hv. apply mark_cookie in Hv. apply (next_at_None [] k _ i v' E); [lia|exact Hv].
  - rewrite (proj2 (Z.eqb_neq (Z.of_nat j) (-1))) by lia. rewrite (proj2 (Z.eqb_neq _ 0)) by lia. cbn [negb].
    destruct (next_at_Some _ _ _ _ E) as (Hkj & v' & Hv'). apply mark_cookie in Hv'. rewrite (IH j v'); [reflexivity|exact Hv'| |lia].
    rewrite Hu'. f_equal. apply final_skip; [lia|]. intros i v0 Hi. apply (next_between l k j); [exact E|lia].
Qed.

(** *** Reading the text *)

Lemma built_path q p : q_path q = Some p -> built q = repeat 0 4 ++ (match q_method q with Some m => m ++ [32] | None => repeat 32 7 end) ++ p ++ s_http11 ++
  (match q_host q with Some h => line (bs "host") h | None => [] end) ++ fields_text (q_entries q).
Proof. intros Hp. unfold built. rewrite Hp. cbn [head_text]. unfold req_line. rewrite <- !app_assoc. reflexivity. Qed.

Lemma read_method q p b x : mem b = built q ++ x -> q_path q = Some p -> get_bytes HEADER_BUF_PAD (zlen (default [] (q_method q))) b = default [] (q_method q).
Proof.
  intros Hm Hp. rewrite (built_path q p Hp) in Hm. destruct (q_method q) as [m|]; cbn [default from_option id].
  - eapply (get_bytes_mid b (repeat 0 4) m); [rewrite Hm, <- !app_assoc; reflexivity|reflexivity|reflexivity].
  - apply (get_bytes_mid b (repeat 0 4) [] (zdrop 4 (mem b))); [rewrite Hm; reflexivity|reflexivity|reflexivity].
Qed.

Lemma read_url q p b x : mem b = built q ++ x -> q_path q = Some p -> get_bytes (url_at (q_method q)) (zlen p) b = p.
Proof.
  intros Hm Hp. rewrite (built_path q p Hp) in Hm. eapply (get_bytes_mid b (repeat 0 4 ++ (match q_method q with Some m => m ++ [32] | None => repeat 32 7 end)) p); [rewrite Hm, <- !app_assoc; reflexivity| |reflexivity].
  unfold url_at. rewrite zlen_app. destruct (q_method q); [rewrite zlen_app|]; reflexivity.
Qed.

Lemma read_host q p h b x : mem b = built q ++ x -> q_path q = Some p -> q_host q = Some h -> get_bytes (host_at (q_method q) p) (zlen h) b = h.
Proof.
  intros Hm Hp Hh. rewrite (built_path q p Hp), Hh in Hm. eapply (get_bytes_mid b (repeat 0 4 ++ req_line (q_method q) p ++ bs "host: ") h); [rewrite Hm; unfold req_line, line; rewrite <- !app_assoc; reflexivity| |reflexivity].
  unfold host_at. rewrite !zlen_app. change (zlen (repeat 0 4)) with 4. change (zlen (bs "host: ")) with 6. lia.
Qed.

Lemma read_field q k i n v b x : mem b = built q ++ x -> q_entries q !! k = Some (Field i n v) ->
  let off := base q + zlen (fields_text (take k (q_entries q))) in get_bytes off (zlen n) b = n /\ get_bytes (off + zlen n + 2) (zlen v) b = v.
Proof.
  intros Hm Hk. cbv zeta.
  assert (Hb : built q = (repeat 0 4 ++ head_text (q_method q) (q_path q) (q_host q) ++ fields_text (take k (q_entries q))) ++ line n v ++ fields_text (drop (S k) (q_entries q))).
  { unfold built. rewrite <- (take_drop_middle _ _ _ Hk) at 1. rewrite fields_text_app. cbn [fields_text map concat entry_text]. rewrite <- !app_assoc. reflexivity. }
  assert (Ho : base q + zlen (fields_text (take k (q_entries q))) = zlen (repeat 0 4 ++ head_text (q_method q) (q_path q) (q_host q) ++ fields_text (take k (q_entries q)))).
  { unfold base. rewrite !zlen_app. change (zlen (repeat 0 4)) with 4. lia. }
  rewrite Hb in Hm. set (P := repeat 0 4 ++ _) in *. rewrite Ho. split.
  - eapply (get_bytes_mid b P n); [rewrite Hm; unfold line; rewrite <- !app_assoc; reflexivity|reflexivity|reflexivity].
  - eapply (get_bytes_mid b (P ++ n ++ [58; 32]) v); [rewrite Hm; unfold line; rewrite <- !app_assoc; reflexivity|rewrite !zlen_app; change (zlen [58; 32]) with 2; lia|reflexivity].
Qed.

Lemma join_cookies_app a c : c <> [] -> join_cookies (a ++ c) = join_cookies a ++ match a with [] => [] | _ => bs "; " end ++ join_cookies c.
Proof.
  intros Hc. induction a as [|x a IH]; [reflexivity|]. cbn [app join_cookies]. destruct a as [|y a]; [destruct c; [congruence|reflexivity]|]. cbn [app] in *. rewrite IH, <- !app_assoc. reflexivity.
Qed.

Lemma join_cookies_cons v c : exists y, join_cookies (v :: c) = v ++ y.
Proof. cbn. destruct c; [exists []; rewrite app_nil_r; reflexivity|eauto]. Qed.

Lemma read_cookie l k v b P x : mem b = P ++ join_cookies (cookies l) ++ x -> l !! k = Some (Cookie v) -> get_bytes (zlen P + cookie_at (take k l)) (zlen v) b = v.
Proof.
  intros Hm Hk. rewrite <- (take_drop_middle _ _ _ Hk), cookies_app in Hm. change (cookies (Cookie v :: drop (S k) l)) with (v :: cookies (drop (S k) l)) in Hm.
  rewrite join_cookies_app in Hm by discriminate. destruct (join_cookies_cons v (cookies (drop (S k) l))) as (y & Hy). rewrite Hy in Hm.
  set (a := cookies (take k l)) in *. apply (get_bytes_mid b (P ++ join_cookies a ++ match a with [] => [] | _ => bs "; " end) v (y ++ x)); [rewrite Hm, <- !app_assoc; reflexivity| |reflexivity].
  unfold cookie_at. fold a. rewrite !zlen_app. destruct a; [reflexivity|]. change (zlen (bs "; ")) with 2. lia.
Qed.

(** *** The headers that are done *)

(** What an entry says: a name, a value, an index, and the entry of the next cookie. *)
Definition entry_of (u : UnpackedHeaders) (h : lsxpack_header) : list Z * list Z * Z * Z :=
  (get_bytes (name_offset h) (name_len h) (m_buf u), get_bytes (val_offset h) (val_len h) (m_buf u), app_index h, chain_next_idx h).
Definition shown (l : list entry) (k : nat) (e : entry) : list Z * list Z * Z * Z :=
  match e with Field i n v => (n, v, i, 0) | Cookie v => (bs "cookie", v, H_COOKIE, link l k) end.

Record Final (u : UnpackedHeaders) (q : request) : Prop := MkFinal {
  fin_text : bdata (m_buf u) = request_text q;
  fin_method : getMethod u = default [] (q_method q);
  fin_url : getUrl u = default [] (q_path q);
  fin_host : getHost u = default [] (q_host q);
  fin_authority : val_offset (get_hdr 3 u) = m_host_offset u /\ val_len (get_hdr 3 u) = m_host_len u /\ app_index (get_hdr 3 u) = H_HOST;
  fin_entries : map (entry_of u) (zdrop 4 (m_lsxpack u)) = imap (shown (q_entries q)) (q_entries q);
  fin_cookie : forall k, first_at [] (mark (q_entries q)) = Some k -> m_first_cookie_idx u = 4 + Z.of_nat k }.

Lemma request_text_cookies q : cookies (q_entries q) <> [] -> request_text q = (built q ++ bs "cookie: ") ++ join_cookies (cookies (q_entries q)) ++ [13; 10; 13; 10].
Proof. intros H. unfold request_text, cookie_text. destruct (cookies (q_entries q)); [congruence|]. unfold line. rewrite <- !app_assoc. reflexivity. Qed.

Lemma final_shown q b no co x k e : mem b = request_text q ++ x -> q_entries q !! k = Some e ->
  (cookies (q_entries q) <> [] -> no = zlen (built q) /\ co = zlen (built q) + 8) ->
  let h := final_hdr (base q) no co (q_entries q) (length (q_entries q)) k e in
  (get_bytes (name_offset h) (name_len h) b, get_bytes (val_offset h) (val_len h) b, app_index h, chain_next_idx h) = shown (q_entries q) k e.
Proof.
  intros Hm Hk Hco. pose proof (lookup_lt_Some _ _ _ Hk) as Hlt. cbv zeta. destruct e as [i n v|v]; cbn [final_hdr entry_hdr shown name_offset name_len val_offset val_len app_index chain_next_idx].
  - unfold request_text in Hm. rewrite <- app_assoc in Hm. destruct (read_field q k i n v b _ Hm Hk) as [-> ->]. reflexivity.
  - rewrite (proj2 (Nat.ltb_lt _ _) Hlt). cbn [name_offset name_len val_offset val_len app_index chain_next_idx].
    assert (Hne : cookies (q_entries q) <> []) by (intros E; exact (no_cookie _ _ _ E Hk)). destruct (Hco Hne) as [-> ->]. rewrite (request_text_cookies q Hne) in Hm.
    rewrite (get_bytes_mid b (built q) (bs "cookie") ([58; 32] ++ join_cookies (cookies (q_entries q)) ++ [13; 10; 13; 10] ++ x)); [|rewrite Hm, <- !app_assoc; reflexivity|reflexivity|reflexivity].
    replace (zlen (built q) + 8) with (zlen (built q ++ bs "cookie: ")) by (rewrite zlen_app; reflexivity).
    rewrite (read_cookie (q_entries q) k v b _ ([13; 10; 13; 10] ++ x)); [reflexivity|rewrite Hm, <- !app_assoc; reflexivity|exact Hk].
Qed.

Lemma final_make u q p h b no co x first : Rep u q [] [] -> q_path q = Some p -> q_host q = Some h ->
  mem b = request_text q ++ x -> bsize b = zlen (request_text q) -> (cookies (q_entries q) <> [] -> no = zlen (built q) /\ co = zlen (built q) + 8) ->
  (forall k, first_at [] (mark (q_entries q)) = Some k -> first = 4 + Z.of_nat k) ->
  let pre := repeat zero_hdr 3 ++ [Hdr true 0 4 (host_at (q_method q) p) (zlen h) 0 H_HOST true] in
  Final (Upk b (pre ++ imap (final_hdr (base q) no co (q_entries q) (length (q_entries q))) (q_entries q)) (m_url u) (m_url_len u) (m_host u) (m_host_len u) (m_commonHeaderPos u) (m_host_offset u) (m_url_offset u) (m_methodLen u) first) q.
Proof.
  intros R Hp Hh Hm Hs Hco Hfirst pre. assert (Hm' : mem b = built q ++ (cookie_text q ++ [13; 10]) ++ x) by (rewrite Hm; unfold request_text; rewrite <- app_assoc; reflexivity).
  destruct R as [_ _ [_ Rul] [_ Rhl] Rmm Ruo Rho _ _]. rewrite Hp, Hh in *. cbn [default from_option id] in *. split; unfold getMethod, getUrl, getHost, get_hdr; cbn [m_buf m_lsxpack m_url_len m_host_len m_host_offset m_url_offset m_methodLen m_first_cookie_idx].
  - unfold bdata. rewrite Hm, Hs. apply ztake_app_exact.
  - rewrite Rmm. exact (read_method q p b _ Hm' Hp).
  - rewrite Ruo, Rul, Hp. exact (read_url q p b _ Hm' Hp).
  - rewrite Rho, Rhl, Hh. exact (read_host q p h b _ Hm' Hp Hh).
  - rewrite Rho, Rhl. unfold pre. repeat split; reflexivity.
  - rewrite (zdrop_app_len 4) by reflexivity. apply list_eq. intros k. rewrite list_lookup_fmap, !list_lookup_imap. destruct (q_entries q !! k) as [e|] eqn:Ek; [|reflexivity].
    cbn [fmap option_fmap option_map]. f_equal. exact (final_shown q b no co x k e Hm Ek Hco).
  - exact Hfirst.
Qed.

Lemma pop_pending w q extra : Rep (headers w) q [] extra -> pending w extra ->
  Rep (headers (if working w then set_working false (on_headers pop_hdr w) else w)) q [] [].
Proof.
  intros R P. unfold pending in P. destruct (working w); [|subst; exact R]. destruct P as (h & ->). destruct (rep_extra _ _ _ _ R) as (pre & Hl & _ & Hk).
  specialize (Hk (m_buf (headers w)) [] [] (rep_mem _ _ _ _ R) (rep_size _ _ _ _ R)). destruct Hk as [? ? ? ? ? ? ? ? K]. destruct R as [? ? ? ? ? ? ? ? _]. split; auto.
  cbn [headers set_working on_headers pop_hdr on_lsxpack m_lsxpack]. rewrite Hl, removelast_last. cbn [on_lsxpack m_lsxpack] in K. rewrite app_nil_r in K. exact K.
Qed.

(** The entries before and after the chain has its place. *)
Lemma final_0 b no co l : imap (entry_hdr b l) l = imap (final_hdr b no co l 0) l.
Proof. apply imap_ext. intros k x _. destruct x; reflexivity. Qed.

Lemma endHeader_end u a c : mem (m_buf u) = a ++ c -> bsize (m_buf u) = zlen a -> exists x, mem (m_buf (endHeader u)) = (a ++ [13; 10]) ++ x /\ bsize (m_buf (endHeader u)) = zlen (a ++ [13; 10]).
Proof. intros Hm Hs. eexists. exact (append_unsafe_end (m_buf u) a c [13; 10] Hm Hs). Qed.

Lemma end_plain u q p h : Rep u q [] [] -> q_path q = Some p -> q_host q = Some h -> cookies (q_entries q) = [] -> Final (endHeader u) q.
Proof.
  intros R Hp Hh Hc. destruct (entries_at _ _ _ _ _ R Hh) as (off & Hl & Ho). rewrite Hp in Ho. subst off. rewrite app_nil_r in Hl. rewrite (final_0 (base q) 0 0), (final_skip _ _ _ _ 0 (length (q_entries q))) in Hl.
  - destruct (rep_mem _ _ _ _ R) as (sp & Hm). destruct (endHeader_end u (built q) sp Hm (rep_size _ _ _ _ R)) as (x & Bm & Bs).
    refine (eq_ind _ (fun u => Final u q) (final_make u q p h (append_unsafe [13; 10] (m_buf u)) 0 0 x (m_first_cookie_idx u) R Hp Hh _ _ _ _) _ _).
    + unfold request_text, cookie_text. rewrite Hc. exact Bm.
    + unfold request_text, cookie_text. rewrite Hc. exact Bs.
    + congruence.
    + intros k Hk. rewrite (first_at_mark_none _ Hc) in Hk. discriminate.
    + rewrite <- Hl. destruct u. reflexivity.
  - lia.
  - intros i v _. apply no_cookie, Hc.
Qed.

Lemma end_cookies u q p h k0 : Rep u q [] [] -> q_path q = Some p -> q_host q = Some h -> first_at [] (mark (q_entries q)) = Some k0 ->
  Final (endHeader (finalizeCookieHeader (4 + Z.of_nat k0) (join_cookies (cookies (q_entries q))) u)) q.
Proof.
  intros R Hp Hh Hf. destruct (first_at_Some _ _ _ Hf) as (v0 & Hv0). apply mark_cookie in Hv0. set (l := q_entries q) in *. set (val := join_cookies (cookies l)).
  assert (Hne : cookies l <> []) by (intros E; exact (no_cookie _ _ _ E Hv0)).
  destruct (entries_at _ _ _ _ _ R Hh) as (off & Hl & Ho). rewrite Hp in Ho. subst off. rewrite app_nil_r in Hl. fold l in Hl. destruct (rep_mem _ _ _ _ R) as (sp & Hm). pose proof (rep_size _ _ _ _ R) as Rs.
  destruct (guarantee_mem (zlen val + 12) (m_buf u)) as (Gm & Gs & _); [pose proof (zlen_nonneg val); lia|rewrite Rs; apply zlen_nonneg|].
  unfold finalizeCookieHeader. fold val. set (g := guarantee (zlen val + 12) (m_buf u)) in *. rewrite Gs, Rs. cbv zeta.
  destruct (append_unsafe_end g (built q) sp (bs "cookie: ")) as [Am As]; [rewrite Gm; exact Hm|rewrite Gs; exact Rs|]. set (g1 := append_unsafe (bs "cookie: ") g) in *.
  destruct (append_unsafe_end g1 _ _ val Am As) as [Bm Bs]. set (g2 := append_unsafe val g1) in *. destruct (append_unsafe_end g2 _ _ [13; 10] Bm Bs) as [Cm Cs]. set (g3 := append_unsafe [13; 10] g2) in *.
  rewrite As, zlen_app. change (zlen (bs "cookie: ")) with 8.
  set (no := zlen (built q)). set (u1 := set_first_cookie (4 + Z.of_nat k0) (on_buf (fun _ => g3) u)).
  rewrite (cookie_chain_ok (base q) no (no + 8) l (repeat zero_hdr 3 ++ [Hdr true 0 4 (host_at (q_method q) p) (zlen h) 0 H_HOST true]) eq_refl (length (m_lsxpack u)) k0 v0 u1 Hv0).
  - destruct (endHeader_end (on_lsxpack (fun _ => (repeat zero_hdr 3 ++ [Hdr true 0 4 (host_at (q_method q) p) (zlen h) 0 H_HOST true]) ++ imap (final_hdr (base q) no (no + 8) l (length l)) l) u1) _ _ Cm Cs) as (x & Dm & Ds).
    refine (final_make u q p h _ no (no + 8) x (4 + Z.of_nat k0) R Hp Hh _ _ _ _).
    + rewrite (request_text_cookies q Hne). etransitivity; [exact Dm|]. rewrite <- !app_assoc. reflexivity.
    + rewrite (request_text_cookies q Hne). etransitivity; [exact Ds|]. rewrite <- !app_assoc. reflexivity.
    + auto.
    + intros k Hk. fold l in Hk. rewrite Hf in Hk. injection Hk as <-. reflexivity.
  - change (m_lsxpack u1) with (m_lsxpack u). rewrite Hl, (final_0 (base q) no (no + 8)). f_equal. apply final_skip; [lia|]. intros i v Hi Hv. apply mark_cookie in Hv. pose proof (first_at_min _ _ _ _ _ Hf Hv). lia.
  - rewrite Hl, length_app, length_imap. cbn. lia.
Qed.

Lemma finish_rules w q : Inv w q -> match end_request q with
  | inl e => fst (finish w) = e /\ e <> LSXPACK_OK
  | inr q => fst (finish w) = LSXPACK_OK /\ Final (headers (snd (finish w))) q end.
Proof.
  intros (W & B & extra & R & P). unfold finish, end_request. rewrite (isComplete_ok _ _ _ _ W R), (bk_scheme _ _ B).
  destruct (q_scheme q); cbn [negb orb andb]; [|split; [reflexivity|discriminate]].
  destruct (q_path q) as [p|] eqn:Hp; cbn [is_some negb andb]; [|split; [reflexivity|discriminate]]. destruct (q_host q) as [h|] eqn:Hh; cbn [is_some negb]; [|split; [reflexivity|discriminate]].
  destruct (rep_mem _ _ _ _ R) as (sp & Hm). cbn [default from_option id].
  assert (Hu : getUrl (headers w) = p) by (unfold getUrl; destruct (rep_url _ _ _ _ R) as [_ ->]; rewrite (rep_url_offset _ _ _ _ R), Hp; exact (read_url q p _ _ Hm Hp)).
  assert (Hmm : getMethod (headers w) = default [] (q_method q)) by (unfold getMethod; rewrite (rep_method _ _ _ _ R); exact (read_method q p _ _ Hm Hp)).
  rewrite Hu, Hmm. destruct (bytes_eqb p [42] && negb (bytes_eqb (default [] (q_method q)) (bs "OPTIONS"))); [split; [reflexivity|discriminate]|].
  pose proof (pop_pending _ _ _ R P) as R0. set (w0 := if working w then _ else w) in *.
  assert (Hw : cookie_count w0 = cookie_count w /\ total_size w0 = total_size w /\ tmp_buf w0 = tmp_buf w /\ first_cookie_idx w0 = first_cookie_idx w) by (unfold w0; destruct (working w); auto).
  destruct Hw as (E1 & E2 & E3 & E4). rewrite E1, E2, E3, (bk_count _ _ B), (bk_total _ _ B), (bk_tmp _ _ B), Z.gtb_ltb.
  pose proof (bk_chain _ _ B) as Bc. destruct (Z.ltb_spec 0 (zlen (cookies (q_entries q)))) as [Hc|Hc]; cbn [andb].
  - replace (q_total q + (zlen (join_cookies (cookies (q_entries q))) + 6 + 4)) with (q_total q + (zlen (join_cookies (cookies (q_entries q))) + 10)) by lia.
    destruct (_ >=? 65535); [split; [reflexivity|discriminate]|]. split; [reflexivity|]. cbn [snd headers on_headers set_total first_cookie_idx tmp_buf]. rewrite E3, E4, (bk_tmp _ _ B).
    destruct (cookies (q_entries q)) as [|c0 c] eqn:Ec; [discriminate Hc|]. rewrite <- Ec in *. destruct Bc as (k0 & k & -> & Hf & _). exact (end_cookies _ q p h k0 R0 Hp Hh Hf).
  - split; [reflexivity|]. apply (end_plain _ q p h R0 Hp Hh). destruct (cookies (q_entries q)) as [|c0 c]; [reflexivity|]. rewrite zlen_cons in Hc. pose proof (zlen_nonneg c). lia.
Qed.

(** ** A run *)

(** Sizes: the text of the request is not longer than what came, but for a fixed part. *)
Definition len_opt (o : option (list Z)) : Z := zlen (default [] o).
Definition weight (q : request) : Z := 30 + len_opt (q_method q) + len_opt (q_path q) + len_opt (q_host q) + zlen (fields_text (q_entries q)).

Lemma len_opt_nonneg o : 0 <= len_opt o.
Proof. apply zlen_nonneg. Qed.

Lemma built_weight q : 0 <= zlen (built q) <= weight q.
Proof.
  split; [apply zlen_nonneg|]. rewrite zlen_built. unfold base, weight. pose proof (len_opt_nonneg (q_method q)). pose proof (len_opt_nonneg (q_path q)). pose proof (len_opt_nonneg (q_host q)).
  unfold len_opt in *. destruct (q_path q) as [p|]; cbn [head_text default from_option id] in *; [|lia]. rewrite zlen_app, zlen_req_line. unfold url_at.
  destruct (q_host q) as [h|]; rewrite ?zlen_upk_line; change (zlen (bs "host")) with 4; destruct (q_method q); cbn [default from_option id] in *; unfold zlen in *; cbn [length] in *; lia.
Qed.

Lemma weight_add qpack max d q q' : add_header qpack max d q = inr q' -> weight q' <= weight q + zlen (line (d_name d) (d_val d)).
Proof.
  rewrite zlen_upk_line. pose proof (zlen_nonneg (d_name d)). pose proof (zlen_nonneg (d_val d)).
  pose proof (len_opt_nonneg (q_method q)). pose proof (len_opt_nonneg (q_path q)). pose proof (len_opt_nonneg (q_host q)).
  unfold add_header. destruct (_ >? max); [discriminate|]. destruct (kind_of qpack d) as [idx|idx].
  - unfold add_pseudo. repeat (match goal with |- (match ?x with _ => _ end) = _ -> _ => destruct x end; try discriminate); intros [= <-]; unfold weight, len_opt in *; cbn [q_method q_path q_host q_entries default from_option id] in *; lia.
  - unfold add_field. destruct (negb _); [discriminate|]. destruct (field_index idx (d_name d)) as [e|i]; [discriminate|]. destruct (negb _); [discriminate|]. destruct (i =? H_COOKIE).
    + destruct (cookie_room _ _ _) as [room|]; [|discriminate]. intros [= <-]. unfold weight. cbn [q_method q_path q_host q_entries]. rewrite fields_text_app, zlen_app. cbn [fields_text map concat entry_text app]. change (zlen []) with 0. lia.
    + do 3 (match goal with |- (if ?x then _ else _) = _ -> _ => destruct x end; try discriminate). intros [= <-]. unfold weight. cbn [q_method q_path q_host q_entries].
      rewrite fields_text_app, zlen_app. cbn [fields_text map concat entry_text]. rewrite app_nil_r, zlen_upk_line. lia.
Qed.

(** The calls: what the decoder gives is in order, and the text and the room that is
    asked for are below the size of a buffer. *)
Definition call_size (c : decode_result) : Z := match c with Header d => zlen (line (d_name d) (d_val d)) | More_buf _ | Bad_block => 0 end.
Fixpoint calls_size (calls : list decode_result) : Z := match calls with [] => 0 | c :: calls => call_size c + calls_size calls end.
Definition call_ok (qpack : bool) (bound : Z) (c : decode_result) : Prop :=
  match c with Header d => decoder_ok qpack d | More_buf n => 0 <= n /\ aligned n + bound < MAX_BUF_SIZE | Bad_block => True end.

Lemma calls_size_nonneg calls : 0 <= calls_size calls.
Proof. induction calls as [|c calls IH]; [cbn; lia|]. cbn. destruct c; cbn; [|lia|lia]. pose proof (zlen_nonneg (line (d_name d) (d_val d))). lia. Qed.

Definition ends_as (r : Z * UpkdHdrBuilder) (s : Z + request) : Prop :=
  match s with inl e => fst r = e /\ e <> LSXPACK_OK | inr q => fst r = LSXPACK_OK /\ Final (headers (snd r)) q end.

Lemma qpack_kept f b w : is_qpack (set_working b (on_headers f w)) = is_qpack w.
Proof. reflexivity. Qed.

Lemma process_qpack max d w : is_qpack (snd (process max d w)) = is_qpack w.
Proof.
  unfold process. destruct (_ >? max); [reflexivity|]. destruct (_ || _).
  - unfold process_pseudo. repeat (match goal with |- context [match ?x with _ => _ end] => destruct x end; try reflexivity).
  - unfold process_regular, process_cookie. repeat (match goal with |- context [match ?x with _ => _ end] => destruct x end; try reflexivity).
Qed.

Lemma decode_ok qpack max bound d w q mini :
  Inv w q -> is_qpack w = qpack -> max < 65535 -> 0 <= mini -> aligned mini + bound < MAX_BUF_SIZE -> weight q + zlen (line (d_name d) (d_val d)) <= bound -> bound <= 65280 -> decoder_ok qpack d ->
  exists w1, prepareDecode mini w = Some w1 /\ steps_to (process max d (decode_into d w1)) (add_header qpack max d q) /\ is_qpack (snd (process max d (decode_into d w1))) = qpack.
Proof.
  intros (W & B & extra & R & P) Hq Hmax Hmini Hroom Hweight Hbound Hd. pose proof (built_weight q) as Hb. pose proof (zlen_nonneg (line (d_name d) (d_val d))) as Hz.
  destruct (prepareDecode_ok mini w q extra R P Hmini ltac:(lia)) as (u & h & -> & R1). eexists. split; [reflexivity|].
  destruct (decode_into_ok d (set_working true (on_headers (fun _ => u) w)) q h R1) as (u2 & E2 & R2). rewrite E2. split; [|rewrite process_qpack; exact Hq].
  assert (Hv : zlen (d_val d) <= 65280) by (rewrite zlen_upk_line in Hweight; pose proof (zlen_nonneg (d_name d)); lia).
  (* the step is over the request that was built, whatever is pending *)
  set (w2 := on_headers _ (set_working true _)). refine (process_ok max w2 q qpack d W _ Hq R2 Hd Hmax _); [|lia]. destruct B. split; assumption.
Qed.

Lemma run_rules qpack max bound : max < 65535 -> bound <= 65280 -> forall calls mini w q,
  Inv w q -> is_qpack w = qpack -> 0 <= mini -> aligned mini + bound < MAX_BUF_SIZE -> weight q + calls_size calls <= bound -> Forall (call_ok qpack bound) calls ->
  ends_as (decodeReqHdrData max calls mini w) (build qpack max calls q).
Proof.
  intros Hmax Hbound. induction calls as [|c calls IH]; intros mini w q I Hq Hmini Hroom Hw Hcalls; [exact (finish_rules w q I)|].
  inversion Hcalls as [|? ? Hc Hcs]; subst. cbn [calls_size] in Hw. pose proof (calls_size_nonneg calls) as Hz. cbn [decodeReqHdrData build].
  destruct c as [d|need|]; cbn [call_size call_ok] in *.
  - destruct (decode_ok (is_qpack w) max bound d w q mini I eq_refl Hmax Hmini Hroom ltac:(lia) Hbound Hc) as (w1 & -> & S & Hq1).
    pose proof (weight_add (is_qpack w) max d q) as Hadd. destruct (process max d (decode_into d w1)) as [rc w2]. destruct (add_header (is_qpack w) max d q) as [e|q'].
    + destruct S as [Hrc Hne]. cbn [fst] in Hrc. subst rc. rewrite (proj2 (Z.eqb_neq _ _) Hne). split; [reflexivity|exact Hne].
    + destruct S as [Hrc I']. cbn [fst snd] in *. subst rc. cbn [Z.eqb LSXPACK_OK negb]. specialize (Hadd q' eq_refl). apply IH; auto. lia.
  - destruct I as (W & B & extra & R & P). pose proof (built_weight q). destruct (prepareDecode_ok mini w q extra R P Hmini ltac:(lia)) as (u & h & -> & R1).
    apply IH; auto; try lia. split; [exact W|]. split; [exact (books_keep w q _ _ B)|]. exists [h]. split; [exact R1|exists h; reflexivity].
  - destruct I as (W & B & extra & R & P). pose proof (built_weight q). destruct (prepareDecode_ok mini w q extra R P Hmini ltac:(lia)) as (u & h & -> & R1). split; [reflexivity|discriminate].
Qed.

Lemma inv_new qpack : Inv (new_builder qpack) new_request.
Proof.
  split; [split; discriminate||reflexivity|]. split; [split; reflexivity|]. exists []. split; [|reflexivity].
  split; try reflexivity; try (split; reflexivity). - exists []. reflexivity. - exists []. split; reflexivity.
Qed.

Lemma aligned_room mini : 0 <= mini -> 256 <= aligned mini.
Proof.
  intros H. unfold aligned. change (-256) with (Z.lnot 255). rewrite <- Z.ldiff_land. change 255 with (Z.ones 8) at 2. rewrite Z.ldiff_ones_r by lia.
  rewrite Z.shiftl_mul_pow2, Z.shiftr_div_pow2 by lia. change (2 ^ 8) with 256. assert (256 / 256 <= (mini + 2 + 255) / 256) by (apply Z.div_le_mono; lia). change (256 / 256) with 1 in *. lia.
Qed.

(** C6: The builder of an HTTP/2 or HTTP/3 request's headers, run over all that the decoder
    gives, follows the rules: it refuses a block exactly when the rules do and with
    their code, and else its buffer holds exactly the header block of the HTTP/1
    request, whatever the order in which the pseudo headers came, the places of method,
    target and host in it are right, and each entry, the cookies' chain included, names
    the bytes of its header. *)
Theorem decodeReqHdrData_refines qpack max mini calls : max < 65535 -> 0 <= mini ->
  aligned mini + (30 + calls_size calls) < MAX_BUF_SIZE -> Forall (call_ok qpack (30 + calls_size calls)) calls ->
  ends_as (decodeReqHdrData max calls mini (new_builder qpack)) (build qpack max calls new_request).
Proof.
  intros Hmax Hmini Hroom Hcalls. pose proof (aligned_room mini Hmini) as Ha. unfold MAX_BUF_SIZE in Hroom.
  apply (run_rules qpack max (30 + calls_size calls)); try assumption; try reflexivity; try lia. apply inv_new.
Qed.

(** A request with its pseudo headers in an unusual order, two cookies and a field. *)
Definition sample_header (i : Z) (n v : string) : decode_result := Header (Dec i (bs n) (bs v)).
Definition sample_calls : list decode_result := [
  sample_header 1 ":authority" "a.org"; sample_header 4 ":path" "/x?y"; sample_header 7 ":scheme" "https"; More_buf 100; sample_header 2 ":method" "DELETE";
  sample_header 32 "cookie" "a=1"; sample_header 0 "x-y" "z"; sample_header 32 "cookie" "b=2"].

Lemma bytes_okb l : forallb (fun c => (0 <=? c) && (c <? 256)) l = true -> bytes_ok l.
Proof. intros H. apply Forall_forall. intros c Hc. rewrite forallb_forall in H. apply list_elem_of_In in Hc. specialize (H c Hc). cbv beta in H. unfold is_byte. lia. Qed.

Lemma decodeReqHdrData_refines_witness :
  ends_as (decodeReqHdrData 2000 sample_calls 100 (new_builder false)) (build false 2000 sample_calls new_request) /\
  exists q, build false 2000 sample_calls new_request = inr q /\
    zdrop 4 (request_text q) = bs "DELETE /x?y HTTP/1.1" ++ [13; 10] ++ bs "host: a.org" ++ [13; 10] ++ bs "x-y: z" ++ [13; 10] ++ bs "cookie: a=1; b=2" ++ [13; 10; 13; 10].
Proof.
  split.
  - apply decodeReqHdrData_refines; [lia|lia|reflexivity|].
    unfold sample_calls, sample_header. repeat apply List.Forall_cons; try apply List.Forall_nil;
      first [split; [lia|reflexivity]|split; [apply bytes_okb; reflexivity|split; [apply bytes_okb; reflexivity|reflexivity || exact I]]].
  - eexists. split; vm_compute; reflexivity.
Defined.
