(* ===== verification/UpkdClaims.v ===== *)
(** * UpkdClaims: what the rules for an HTTP/2 request's headers give
    (src/src/h2/unpackedheaders.cpp, src/src/h2/unpackedheaders.h)

    The lines of the text that the builder makes are the ones that were meant, so that
    no header can add a line or a word to the request; and what the tables and the
    buffer do at their ends. *)

From S2P Require Import Prelude Chains Headers Request RespHeaders Upkd UpkdSpec UpkdRun.
Import HttpHeader HttpRespHeaders(lsxpack_header, Hdr, hdr_buf, name_offset, name_len, val_offset, val_len, chain_next_idx, app_index, hdr_app_idx).
#[local] Open Scope Z_scope.

(** ** The lines of a text *)

Fixpoint crlf_lines (cur l : list Z) : list (list Z) :=
  match l with
  | [] => [cur]
  | c :: l1 =>
      match l1 with
      | d :: l2 => if (c =? 13) && (d =? 10) then cur :: crlf_lines [] l2 else crlf_lines (cur ++ [c]) l1
      | [] => [cur ++ [c]]
      end
  end.

Definition no_cr (l : list Z) : Prop := forallb value_char l = true.

Lemma value_char_cr c : value_char c = true -> c <> 13.
Proof. intros H ->. discriminate. Qed.

Lemma crlf_lines_app x r : no_cr x -> forall cur, crlf_lines cur (x ++ [13; 10] ++ r) = (cur ++ x) :: crlf_lines [] r.
Proof.
  unfold no_cr. induction x as [|c x IH]; intros Hx cur; [cbn; rewrite app_nil_r; reflexivity|]. cbn [forallb] in Hx. apply andb_true_iff in Hx as [Hc Hx].
  cbn [app]. cbn [crlf_lines]. destruct (x ++ 13 :: 10 :: r) as [|d l] eqn:E; [destruct x; discriminate|]. rewrite (proj2 (Z.eqb_neq c 13)) by (apply value_char_cr, Hc). cbn [andb].
  rewrite <- E. etransitivity; [exact (IH Hx (cur ++ [c]))|]. rewrite <- app_assoc. reflexivity.
Qed.

(** ** What the rules let through *)

Definition clean_entry (e : entry) : Prop := match e with Field _ n v => no_cr n /\ no_cr v | Cookie v => no_cr v end.
Record Clean (q : request) : Prop := MkClean {
  cl_method : forall m, q_method q = Some m -> forallb method_char m = true;
  cl_path : forall p, q_path q = Some p -> forallb method_char p = true;
  cl_host : forall h, q_host q = Some h -> no_cr h;
  cl_entries : Forall clean_entry (q_entries q) }.

Lemma forallb_impl {A} (f g : A -> bool) l : (forall x, f x = true -> g x = true) -> forallb f l = true -> forallb g l = true.
Proof. intros H. rewrite !forallb_forall. auto. Qed.

Lemma method_value c : method_char c = true -> value_char c = true.
Proof. unfold method_char, value_char. intros H. apply andb_true_iff in H as [H1 ->]. rewrite (proj2 (Z.leb_le 32 c)) by lia. apply orb_true_r. Qed.

Lemma path_clean p : path_ok p = true -> forallb method_char p = true.
Proof.
  unfold path_ok. rewrite orb_true_iff. intros [H|H]; [apply bytes_eqb_eq in H; subst; reflexivity|]. apply andb_true_iff in H as [H _]. apply andb_true_iff in H as [_ H].
  revert H. apply forallb_impl. unfold target_char, method_char. intros c Hc. apply andb_true_iff in Hc as [Hc _]. exact Hc.
Qed.

Lemma name_value c : name_char c = true -> value_char c = true.
Proof.
  intros H. assert (33 <= c < 127) as Hc.
  { unfold name_char in H. apply orb_true_iff in H as [H|H]; [unfold isdigit in H; lia|]. apply existsb_exists in H as (x & Hx & ->%Z.eqb_eq).
    assert (forallb (fun c => (33 <=? c) && (c <? 127)) (bs "!#$%&'*+-.^_`|~") = true) as Hl by reflexivity. rewrite forallb_forall in Hl. specialize (Hl x Hx). cbv beta in Hl. lia. }
  unfold value_char. lia.
Qed.

Lemma bad_name_clean n : bad_name n = None -> no_cr n.
Proof.
  unfold no_cr. induction n as [|c n IH]; [reflexivity|]. cbn. destruct (name_char c) eqn:E; [|discriminate]. intros H. rewrite (name_value c E). exact (IH H).
Qed.

Lemma static_clean qpack i n : static_name qpack i = Some n -> no_cr n.
Proof.
  assert (forall i l, forallb (forallb value_char) l = true -> no_cr (nth i l [])) as H.
  { intros k l Hl. destruct (nth_in_or_default k l []) as [Hi|Hi]; [|unfold no_cr; rewrite Hi; reflexivity]. rewrite forallb_forall in Hl. exact (Hl _ Hi). }
  unfold static_name. destruct qpack; (destruct (_ && _); [|discriminate]); intros E;
    [pose proof (H (Z.to_nat i) qpack_names ltac:(vm_compute; reflexivity)) as Hn|pose proof (H (Z.to_nat (i - 1)) hpack_names ltac:(vm_compute; reflexivity)) as Hn];
    congruence.
Qed.

Lemma known_static qpack d : req_index qpack d <> UPK_HDR_UNKNOWN -> exists n, static_name qpack (d_index d) = Some n.
Proof.
  unfold req_index, static_name, hpack2ReqIdx, qpack2ReqIdx. destruct qpack.
  - rewrite Z.geb_leb. destruct (_ && _); [eauto|congruence].
  - destruct ((d_index d >? 0) && (d_index d <=? 61)) eqn:E; [|congruence]. intros _. replace ((1 <=? d_index d) && (d_index d <=? 61)) with true by lia. eauto.
Qed.

Lemma name_clean qpack d i : decoder_ok qpack d -> field_index (req_index qpack d) (d_name d) = inr i -> no_cr (d_name d).
Proof.
  intros (_ & _ & Hs) Hf. unfold field_index in Hf. destruct (Z.eqb_spec (req_index qpack d) UPK_HDR_UNKNOWN) as [_|Hne]; cbn [negb] in Hf.
  - destruct (bytes_eqb _ []); [discriminate|]. destruct (bad_name _) eqn:E; [discriminate|]. apply bad_name_clean, E.
  - destruct (known_static qpack d Hne) as (n & Hn). rewrite Hn in Hs. rewrite Hs. exact (static_clean _ _ _ Hn).
Qed.

Lemma clean_entry_snoc l e : Forall clean_entry l -> clean_entry e -> Forall clean_entry (l ++ [e]).
Proof. intros H He. apply Forall_app. auto. Qed.

Lemma clean_pseudo idx v q q' : Clean q -> add_pseudo idx v q = inr q' -> Clean q'.
Proof.
  intros [Hm Hp Hh He]. unfold add_pseudo. destruct (q_regular q); [discriminate|]. destruct (bytes_eqb v []); [discriminate|]. destruct idx as [i|]; [|discriminate].
  destruct (i =? H_HOST).
  { destruct (forallb value_char v) eqn:E; [|discriminate]. destruct (is_some _); [discriminate|]. intros [= <-]. split; cbn; auto. intros h [= <-]. exact E. }
  destruct (i =? UPK_HDR_METHOD).
  { destruct (forallb method_char v) eqn:E; [|rewrite orb_true_r; discriminate]. destruct (_ || _); [discriminate|]. destruct (is_some _); [discriminate|]. intros [= <-]. split; cbn; auto. intros h [= <-]. exact E. }
  destruct (i =? UPK_HDR_PATH).
  { destruct (path_ok v) eqn:E; [|discriminate]. destruct (is_some _); [discriminate|]. intros [= <-]. split; cbn; auto. intros h [= <-]. apply path_clean, E. }
  destruct (i =? UPK_HDR_SCHEME); [|discriminate]. destruct (q_scheme q); [discriminate|]. destruct (scheme_ok v); [|discriminate]. intros [= <-]. split; cbn; auto.
Qed.

Lemma clean_field qpack d q q' : Clean q -> decoder_ok qpack d -> add_field (req_index qpack d) (d_name d) (d_val d) q = inr q' -> Clean q'.
Proof.
  intros [Hm Hp Hh He] Hd. unfold add_field. destruct (negb _); [discriminate|]. pose proof (name_clean qpack d) as Hn. destruct (field_index _ _) as [e|i]; [discriminate|]. specialize (Hn i Hd eq_refl).
  destruct (forallb value_char (d_val d)) eqn:E; [|discriminate]. cbn [negb]. destruct (i =? H_COOKIE).
  - destruct (cookie_room _ _ _); [|discriminate]. intros [= <-]. split; cbn; auto. apply clean_entry_snoc; [exact He|exact E].
  - do 3 (match goal with |- (if ?x then _ else _) = _ -> _ => destruct x end; try discriminate). intros [= <-]. split; cbn; auto. apply clean_entry_snoc; [exact He|]. split; [exact Hn|exact E].
Qed.

Lemma clean_build qpack max bound calls : Forall (call_ok qpack bound) calls -> forall q q', Clean q -> build qpack max calls q = inr q' -> Clean q'.
Proof.
  induction 1 as [|c calls Hc _ IH]; intros q q' C.
  - cbn. unfold end_request. do 3 (match goal with |- (if ?x then _ else _) = _ -> _ => destruct x end; try discriminate). intros [= <-]. exact C.
  - destruct c as [d|n|]; cbn [build]; [|apply IH, C|discriminate]. destruct (add_header qpack max d q) as [e|q1] eqn:E; [discriminate|]. apply IH. revert E.
    unfold add_header. destruct (_ >? max); [discriminate|]. rewrite kind_of_eq. cbv zeta. destruct (_ || _); [apply clean_pseudo, C|apply clean_field; assumption].
Qed.

(** ** The lines of a request *)

Definition request_line (q : request) : list Z :=
  match q_method q with Some m => m ++ [32] | None => repeat 32 7 end ++ default [] (q_path q) ++ bs " HTTP/1.1".
Definition header_line (n v : list Z) : list Z := n ++ bs ": " ++ v.
Definition entry_lines (l : list entry) : list (list Z) := omap (fun e => match e with Field _ n v => Some (header_line n v) | Cookie _ => None end) l.
Definition request_lines (q : request) : list (list Z) :=
  [request_line q; header_line (bs "host") (default [] (q_host q))] ++ entry_lines (q_entries q) ++
  match cookies (q_entries q) with [] => [] | l => [header_line (bs "cookie") (join_cookies l)] end.

Definition text_of_lines (ls : list (list Z)) : list Z := concat (map (fun l => l ++ [13; 10]) ls).

Lemma crlf_lines_text ls r : Forall no_cr ls -> crlf_lines [] (text_of_lines ls ++ r) = ls ++ crlf_lines [] r.
Proof.
  induction 1 as [|l ls Hl _ IH]; [reflexivity|]. change (text_of_lines (l :: ls)) with ((l ++ [13; 10]) ++ text_of_lines ls). rewrite <- !app_assoc.
  rewrite (crlf_lines_app l _ Hl). rewrite IH. reflexivity.
Qed.

Lemma text_of_lines_app a b : text_of_lines (a ++ b) = text_of_lines a ++ text_of_lines b.
Proof. unfold text_of_lines. rewrite map_app, concat_app. reflexivity. Qed.

Lemma text_of_lines_cons l ls : text_of_lines (l :: ls) = l ++ [13; 10] ++ text_of_lines ls.
Proof. unfold text_of_lines. cbn [map concat]. rewrite <- app_assoc. reflexivity. Qed.

Lemma no_cr_app a b : no_cr a -> no_cr b -> no_cr (a ++ b).
Proof. unfold no_cr. intros Ha Hb. rewrite forallb_app, Ha, Hb. reflexivity. Qed.

Lemma line_text n v : line n v = header_line n v ++ [13; 10].
Proof. unfold line, header_line. rewrite <- !app_assoc. reflexivity. Qed.

Lemma fields_lines l : fields_text l = text_of_lines (entry_lines l).
Proof.
  induction l as [|e l IH]; [reflexivity|]. change (fields_text (e :: l)) with (entry_text e ++ fields_text l). rewrite IH. destruct e as [i n v|v]; [|reflexivity].
  cbn [entry_text]. rewrite line_text. reflexivity.
Qed.

Lemma request_text_lines q p h : q_path q = Some p -> q_host q = Some h -> zdrop 4 (request_text q) = text_of_lines (request_lines q) ++ [13; 10].
Proof.
  intros Hp Hh. unfold request_text. rewrite (built_path q p Hp), Hh, line_text, fields_lines. rewrite <- !app_assoc, (zdrop_app_len 4) by reflexivity.
  unfold request_lines, request_line. rewrite Hp, Hh, !text_of_lines_app. cbn [default from_option id].
  rewrite !text_of_lines_cons. unfold s_http11, cookie_text. change (text_of_lines []) with (@nil Z). rewrite <- !app_assoc.
  destruct (cookies (q_entries q)) as [|c0 c]; [reflexivity|]. rewrite line_text, text_of_lines_cons. change (text_of_lines []) with (@nil Z). rewrite <- !app_assoc. reflexivity.
Qed.

Lemma join_cookies_clean l : Forall no_cr l -> no_cr (join_cookies l).
Proof. induction 1 as [|v l Hv _ IH]; [reflexivity|]. cbn [join_cookies]. destruct l as [|w l]; [exact Hv|]. apply no_cr_app; [exact Hv|]. apply (no_cr_app (bs "; ")); [reflexivity|exact IH]. Qed.

Lemma cookies_clean l : Forall clean_entry l -> Forall no_cr (cookies l).
Proof. induction 1 as [|e l He _ IH]; [constructor|]. destruct e; [exact IH|]. constructor; [exact He|exact IH]. Qed.

Lemma lines_clean q p : Clean q -> q_path q = Some p -> Forall no_cr (request_lines q).
Proof.
  intros [Hm Hp Hh He] Ep. unfold request_lines. constructor; [|constructor; [|apply Forall_app; split]].
  - unfold request_line. rewrite Ep. apply no_cr_app; [|apply no_cr_app; [exact (forallb_impl _ _ _ method_value (Hp p Ep))|reflexivity]].
    destruct (q_method q) as [m|]; [|reflexivity]. apply no_cr_app; [exact (forallb_impl _ _ _ method_value (Hm m eq_refl))|reflexivity].
  - apply (no_cr_app (bs "host")); [reflexivity|]. apply (no_cr_app (bs ": ")); [reflexivity|]. destruct (q_host q) as [h|]; [exact (Hh h eq_refl)|reflexivity].
  - induction He as [|e l He _ IH]; [constructor|]. destruct e as [i n v|v]; [|exact IH]. constructor; [|exact IH]. destruct He as [Hn Hv]. apply no_cr_app; [exact Hn|]. apply (no_cr_app (bs ": ")); [reflexivity|exact Hv].
  - pose proof (cookies_clean _ He) as Hc. destruct (cookies (q_entries q)) as [|c0 c]; [constructor|]. constructor; [|constructor].
    apply (no_cr_app (bs "cookie: ")); [reflexivity|]. apply join_cookies_clean, Hc.
Qed.

Lemma no_blank m r : forallb method_char m = true -> memchr 32 (m ++ 32 :: r) = Some (zlen m).
Proof. intros H. apply memchr_app. intros Hx. apply list_elem_of_In in Hx. rewrite forallb_forall in H. discriminate (H 32 Hx). Qed.

Lemma end_path qpack max calls : forall q q', build qpack max calls q = inr q' -> is_some (q_path q') && is_some (q_host q') = true.
Proof.
  induction calls as [|c calls IH]; intros q q'.
  - cbn. unfold end_request. destruct (q_scheme q); [|discriminate]. cbn [andb negb]. destruct (is_some (q_path q) && is_some (q_host q)) eqn:E; cbn [andb negb]; [|discriminate].
    do 2 (match goal with |- (if ?x then _ else _) = _ -> _ => destruct x end; try discriminate). intros [= <-]. exact E.
  - destruct c as [d|n|]; cbn [build]; [destruct (add_header _ _ _ _); [discriminate|]; apply IH|apply IH|discriminate].
Qed.

(** C7: A header of an HTTP/2 request cannot add a line, or a word of the request line, to the
    HTTP/1 text that is made of it: when the builder accepts a block, cutting its buffer
    at each CR LF gives the request line, the Host line, one line per field in order
    and the line of the cookies, none of them with a control character, and then the
    empty line; and the blanks of the request line are the two that part method,
    target and version. *)
Theorem no_header_injection qpack max mini calls w q : max < 65535 -> 0 <= mini ->
  aligned mini + (30 + calls_size calls) < MAX_BUF_SIZE -> Forall (call_ok qpack (30 + calls_size calls)) calls ->
  build qpack max calls new_request = inr q -> decodeReqHdrData max calls mini (new_builder qpack) = (LSXPACK_OK, w) ->
  crlf_lines [] (zdrop 4 (bdata (m_buf (headers w)))) = request_lines q ++ [[]; []] /\ Forall no_cr (request_lines q) /\
  (forall m, q_method q = Some m -> memchr 32 (request_line q) = Some (zlen m) /\ memchr 32 (zdrop (zlen m + 1) (request_line q)) = Some (zlen (default [] (q_path q)))).
Proof.
  intros Hmax Hmini Hroom Hcalls Hb Hrun. pose proof (aligned_room mini Hmini) as Ha. unfold MAX_BUF_SIZE in Hroom.
  pose proof (run_rules qpack max (30 + calls_size calls) Hmax ltac:(lia) calls mini (new_builder qpack) new_request (inv_new qpack) eq_refl Hmini Hroom ltac:(change (weight new_request) with 30; lia) Hcalls) as R.
  rewrite Hb, Hrun in R. destruct R as [_ R]. cbn [snd] in R.
  assert (C : Clean q) by (refine (clean_build qpack max _ calls Hcalls new_request q _ Hb); split; try discriminate; constructor).
  pose proof (end_path _ _ _ _ _ Hb) as Hph. destruct (q_path q) as [p|] eqn:Hp; [|discriminate]. destruct (q_host q) as [h|] eqn:Hh; [|discriminate].
  pose proof (lines_clean q p C Hp) as Hl. split; [|split; [exact Hl|]].
  - rewrite (fin_text _ _ R), (request_text_lines q p h Hp Hh). rewrite (crlf_lines_text _ _ Hl). reflexivity.
  - intros m Hm. pose proof (cl_method _ C m Hm) as Cm. pose proof (cl_path _ C p Hp) as Cp. unfold request_line. rewrite Hm, Hp. cbn [default from_option id]. rewrite <- app_assoc. split.
    + exact (no_blank m _ Cm).
    + change ([32] ++ p ++ bs " HTTP/1.1") with ([32] ++ (p ++ bs " HTTP/1.1")). rewrite app_assoc, (zdrop_app_len (zlen m + 1)) by (rewrite zlen_app; reflexivity). exact (no_blank p _ Cp).
Qed.

Lemma no_header_injection_witness : exists w q, build false 2000 sample_calls new_request = inr q /\
  crlf_lines [] (zdrop 4 (bdata (m_buf (headers w)))) = request_lines q ++ [[]; []] /\ request_lines q = [bs "DELETE /x?y HTTP/1.1"; bs "host: a.org"; bs "x-y: z"; bs "cookie: a=1; b=2"].
Proof.
  eexists (snd (decodeReqHdrData 2000 sample_calls 100 (new_builder false))), _. split; [vm_compute; reflexivity|]. split; [|vm_compute; reflexivity].
  apply (no_header_injection false 2000 100 sample_calls); [lia|lia|reflexivity| |vm_compute; reflexivity|vm_compute; reflexivity].
  unfold sample_calls, sample_header. repeat apply List.Forall_cons; try apply List.Forall_nil;
    first [split; [lia|reflexivity]|split; [apply bytes_okb; reflexivity|split; [apply bytes_okb; reflexivity|reflexivity || exact I]]].
Defined.

(** ** At the ends *)

(** The headers before their end: what [decodeReqHdrData] does up to [finish]. *)
Fixpoint feed (max : Z) (calls : list decode_result) (mini : Z) (w : UpkdHdrBuilder) : option UpkdHdrBuilder :=
  match calls with
  | [] => Some w
  | Header d :: calls =>
      match prepareDecode mini w with
      | Some w => let '(rc, w) := process max d (decode_into d w) in if rc =? LSXPACK_OK then feed max calls mini w else None
      | None => None
      end
  | More_buf need :: calls => match prepareDecode mini w with Some w => feed max calls need w | None => None end
  | Bad_block :: _ => None
  end.

Lemma feed_decode max : forall calls mini w w', feed max calls mini w = Some w' -> decodeReqHdrData max calls mini w = finish w'.
Proof.
  induction calls as [|c calls IH]; intros mini w w'; cbn [feed decodeReqHdrData]; [intros [= <-]; reflexivity|].
  destruct c as [d|need|]; [| |discriminate]; (destruct (prepareDecode mini w) as [w1|]; [|discriminate]); [|apply IH].
  destruct (process max d _) as [rc w2]. destruct (rc =? LSXPACK_OK); [apply IH|discriminate].
Qed.

Definition long_headers : list decode_result := [
  sample_header 2 ":method" "GET"; sample_header 7 ":scheme" "https"; Header (Dec 1 (bs ":authority") (repeat 97 600)); Header (Dec 4 (bs ":path") (47 :: repeat 98 400))].

(** When the target comes after the authority and no field follows, the room that
    [setUrl2] asks for leaves one byte, and [endHeader] writes two: with an authority of
    600 bytes and a target of 401 every store is inside the buffer until the end of the
    headers, whose last byte is behind the buffer. *)
Theorem endHeader_overflow : exists w, feed 2000 long_headers 0 (new_builder false) = Some w /\ oob (m_buf (headers w)) = false /\ available (m_buf (headers w)) = 1 /\
  exists w', decodeReqHdrData 2000 long_headers 0 (new_builder false) = (LSXPACK_OK, w') /\ oob (m_buf (headers w')) = true /\ bsize (m_buf (headers w')) = cap (m_buf (headers w')) + 1.
Proof.
  assert (H : exists w, feed 2000 long_headers 0 (new_builder false) = Some w /\ oob (m_buf (headers w)) = false /\ available (m_buf (headers w)) = 1 /\
    exists w', finish w = (LSXPACK_OK, w') /\ oob (m_buf (headers w')) = true /\ bsize (m_buf (headers w')) = cap (m_buf (headers w')) + 1).
  { eexists. split; [vm_compute; reflexivity|]. split; [vm_compute; reflexivity|]. split; [vm_compute; reflexivity|]. eexists. split; [vm_compute; reflexivity|]. split; vm_compute; reflexivity. }
  destruct H as (w & Hw & H1 & H2 & H3). exists w. rewrite (feed_decode _ _ _ _ _ Hw). auto.
Qed.

(** The two tables between the request headers and the static table of HPACK do not
    agree: there and back is the same header up to the index of Date, but the way there
    has a row too many, for Proxy-Connection, so that from Date on an index is the one of
    the header before: Date itself has none, Trailer that of Date, Content-Language that
    of Content-Encoding.  And a request without a method is not refused: its request
    line begins with seven blanks. *)
Theorem builder_quirks :
  forallb (fun idx => (lookup_appreq2hpack idx =? 0) || (hpack2ReqIdx (lookup_appreq2hpack idx) =? idx)) (map Z.of_nat (seq 0 (Z.to_nat H_DATE))) = true /\
  lookup_appreq2hpack H_DATE = 0 /\ hpack2ReqIdx (lookup_appreq2hpack H_TRAILER) = H_DATE /\ hpack2ReqIdx (lookup_appreq2hpack H_CONTENT_LANGUAGE) = H_CONTENT_ENCODING /\
  exists w, decodeReqHdrData 2000 [sample_header 7 ":scheme" "https"; sample_header 1 ":authority" "a"; sample_header 4 ":path" "/"] 0 (new_builder false) = (LSXPACK_OK, w) /\
    zdrop 4 (bdata (m_buf (headers w))) = repeat 32 7 ++ bs "/ HTTP/1.1" ++ [13; 10] ++ bs "host: a" ++ [13; 10; 13; 10].
Proof.
  split; [vm_compute; reflexivity|split; [vm_compute; reflexivity|split; [vm_compute; reflexivity|split; [vm_compute; reflexivity|eexists; split; vm_compute; reflexivity]]]].
Qed.
