(* ===== verification/Cookies.v ===== *)
(** * Cookies: the index of a request's cookies
    (src/src/http/httpreq.cpp, src/src/http/httpreq.h)

    The Cookie header is cut into cookies when they are first asked for; an entry for
    each, with the places of name and value in the header buffer, is kept in an array
    that is sorted by name, and one entry is marked as that of the session.  A response
    can set a cookie in the request, for the cache. *)

From S2P Require Import Prelude Headers Request.
Import HttpHeader.
#[local] Open Scope Z_scope.

Definition REBUILD_COOKIE_UPKHDR : Z := 2048.
Definition CACHE_KEY : Z := 131072.
Definition CACHE_PRIVATE_KEY : Z := 262144.
Definition COOKIE_PARSED : Z := 16777216.
Definition DUM_BENCHMARK_TOOL : Z := 67108864.

Definition COOKIE_FLAG_PHPSESSID : Z := 1.
Definition COOKIE_FLAG_FRONTEND : Z := 2.
Definition COOKIE_FLAG_APP_SESSID : Z := 4.
Definition COOKIE_FLAG_RESP_UPDATE : Z := 8.

(** ** The index *)

Record cookieval_t := Ck { ck_keyOff : Z; ck_flag : Z; ck_keyLen : Z; ck_valOff : Z; ck_valLen : Z }.
(** [m_iSessIdx] is one more than the index of the session's entry, or 0. *)
Record CookieList := Cks { ck_list : list cookieval_t; m_iSessIdx : Z }.
Definition no_cookies : CookieList := Cks [] 0.
Definition ck_zero : cookieval_t := Ck 0 0 0 0 0.

Definition getSize (c : CookieList) : Z := zlen (ck_list c).
Definition getObj (i : Z) (c : CookieList) : cookieval_t := nth (Z.to_nat i) (ck_list c) ck_zero.
Definition on_obj (i : Z) (f : cookieval_t -> cookieval_t) (c : CookieList) : CookieList :=
  Cks (<[Z.to_nat i := f (getObj i c)]> (ck_list c)) (m_iSessIdx c).
Definition setSessIdx (i : Z) (c : CookieList) : CookieList := Cks (ck_list c) (i + 1).
Definition getSessIdx (c : CookieList) : Z := m_iSessIdx c - 1.
Definition isSessIdxSet (c : CookieList) : bool := negb (m_iSessIdx c =? 0).

Definition bytes_at (data : list Z) (off len : Z) : list Z := slice off (off + len) data.

(** Whether an entry's name comes after [name]. *)
Definition after (data : list Z) (name : list Z) (e : cookieval_t) : bool :=
  let len := Z.min (ck_keyLen e) (zlen name) in
  let res := strncasecmp (Z.to_nat len) (zdrop (ck_keyOff e) data) name in
  (res >? 0) || ((res =? 0) && (ck_keyLen e >? zlen name)).

(** Where the loop of [insertCookieIndex] stops: behind the last of the first [i]
    entries that does not come after [name]. *)
Fixpoint insert_pos (data name : list Z) (l : list cookieval_t) (i : nat) : nat :=
  match i with
  | O => O
  | S j => if after data name (nth j l ck_zero) then insert_pos data name l j else i
  end.

(** The place of the new entry, which the caller fills. *)
Definition insertCookieIndex (data name : list Z) (c : CookieList) : Z * CookieList :=
  let l := ck_list c in
  let pos := insert_pos data name l (length l) in
  let i := Z.of_nat pos in
  let sess :=
    if negb (i =? zlen l) then if negb (m_iSessIdx c =? 0) && (m_iSessIdx c - 1 >=? i) then m_iSessIdx c + 1 else m_iSessIdx c
    else m_iSessIdx c in
  (i, Cks (take pos l ++ [ck_zero] ++ drop pos l) sess).

Definition add_flag (f : Z) (e : cookieval_t) : cookieval_t := Ck (ck_keyOff e) (Z.lor (ck_flag e) f) (ck_keyLen e) (ck_valOff e) (ck_valLen e).

(** The entry at [i], of a cookie with this name and this length of value. *)
Definition cookieClassify (i : Z) (name : list Z) (valLen : Z) (c : CookieList) : Z * CookieList :=
  let nameLen := zlen name in
  let nm s := strncasecmp (Z.to_nat (zlen (bs s))) name (bs s) =? 0 in
  let overrides c := negb (isSessIdxSet c) || negb (Z.land (ck_flag (getObj (getSessIdx c) c)) COOKIE_FLAG_PHPSESSID =? 0) in
  let app f := let c := on_obj i (add_flag f) c in if overrides c then (1, setSessIdx i c) else (0, c) in
  if valLen <? 16 then (0, c)
  else if nameLen =? 8 then if nm "frontend" then app COOKIE_FLAG_FRONTEND else (0, c)
  else if nameLen =? 9 then
    if nm "PHPSESSID" then let c := on_obj i (add_flag COOKIE_FLAG_PHPSESSID) c in if negb (isSessIdxSet c) then (1, setSessIdx i c) else (0, c) else (0, c)
  else if nameLen =? 10 then if nm "xf_session" then app COOKIE_FLAG_APP_SESSID else (0, c)
  else if nameLen =? 11 then if nm "lsc_private" then app COOKIE_FLAG_APP_SESSID else (0, c)
  else if (nameLen >? 23) && (nm "wp_woocommerce_session_" || nm "wordpress_logged_in_") then app COOKIE_FLAG_APP_SESSID
  else (0, c).

(** ** Parsing *)

(** [parseOneCookie]: the text from [p] up to [e] in the buffer. *)
Definition parseOneCookie (data : list Z) (p e : Z) (c : CookieList) : CookieList :=
  let cookie := p + zlen (span isspace (slice p e data)).1 in
  if e <=? cookie then c
  else
    match memchr 61 (slice cookie e data) with
    | None => c
    | Some n =>
        let pNameEnd := cookie + n in
        let pVal := pNameEnd + 1 in
        let pVal := pVal + zlen (span isspace (slice pVal e data)).1 in
        let e := e - zlen (span isspace (rev (slice pVal e data))).1 in
        let name := slice cookie pNameEnd data in
        let '(i, c) := insertCookieIndex data name c in
        let c := on_obj i (fun _ => Ck cookie 0 (wraps 24 n) pVal (e - pVal)) c in
        (cookieClassify i name (e - pVal) c).2
    end.

Fixpoint cookies_loop (fuel : nat) (data : list Z) (p e : Z) (c : CookieList) : CookieList :=
  match fuel with
  | O => c
  | S fuel =>
      if p <? e then
        let pValEnd := match memchr 59 (slice p e data) with Some n => p + n | None => e end in
        cookies_loop fuel data (pValEnd + 1) e (parseOneCookie data p pValEnd c)
      else c
  end.
(** [parseCookies(cookies, end)]. *)
Definition parse_range (data : list Z) (p e : Z) (c : CookieList) : CookieList :=
  if (znth data p =? 0) || (e <=? p) then c else cookies_loop (S (Z.to_nat (e - p))) data p e c.

(** A request with its cookies. *)
Record cookie_req := Cr { cr_req : HttpReq; m_cookies : CookieList }.
Definition on_cr (f : HttpReq -> HttpReq) (x : cookie_req) : cookie_req := Cr (f (cr_req x)) (m_cookies x).
Definition on_cookies (f : CookieList -> CookieList) (x : cookie_req) : cookie_req := Cr (cr_req x) (f (m_cookies x)).
Definition buf_of (x : cookie_req) : list Z := m_headerBuf (cr_req x).
Definition clearContextState (s : Z) (r : HttpReq) : HttpReq := set_iContextState (Z.ldiff (m_iContextState r) s) r.

(** [parseCookies()]. *)
Definition parseCookies (x : cookie_req) : cookie_req :=
  let r := cr_req x in
  if negb (Z.land (m_iContextState r) COOKIE_PARSED =? 0) then x
  else
    let x := on_cr (orContextState COOKIE_PARSED) x in
    if isHeaderSet r H_COOKIE then
      let off := znth (m_commonHeaderOffset r) H_COOKIE in
      on_cookies (parse_range (m_headerBuf r) off (off + znth (m_commonHeaderLen r) H_COOKIE)) x
    else x.

(** The first entry with this name. *)
Definition named_cookie (data name : list Z) (e : cookieval_t) : bool :=
  (ck_keyLen e =? zlen name) && (strncasecmp (length name) name (zdrop (ck_keyOff e) data) =? 0).
Fixpoint find_cookie (data name : list Z) (l : list cookieval_t) (i : Z) : option Z :=
  match l with
  | [] => None
  | e :: l => if named_cookie data name e then Some i else find_cookie data name l (i + 1)
  end.
Definition getCookie (name : list Z) (x : cookie_req) : option Z * cookie_req :=
  let x := parseCookies x in (find_cookie (buf_of x) name (ck_list (m_cookies x)) 0, x).

(** ** Cookies that a response sets *)

Definition put_common (len off : Z) (r : HttpReq) : HttpReq := store_common H_COOKIE off len r.
Definition cookie_off (x : cookie_req) : Z := znth (m_commonHeaderOffset (cr_req x)) H_COOKIE.
Definition cookie_len (x : cookie_req) : Z := znth (m_commonHeaderLen (cr_req x)) H_COOKIE.
Definition set_cookie_len (n : Z) (x : cookie_req) : cookie_req := on_cr (put_common n (cookie_off x)) x.
Definition set_cookie_off (n : Z) (x : cookie_req) : cookie_req :=
  on_cr (fun r => set_commonHeaderOffset (<[Z.to_nat H_COOKIE := n]> (m_commonHeaderOffset r)) r) x.
Definition append_buf (d : list Z) (r : HttpReq) : HttpReq := set_headerBuf (m_headerBuf r ++ d) r.
Definition resize_buf (n : Z) (r : HttpReq) : HttpReq := set_headerBuf (ztake n (m_headerBuf r)) r.

Definition removeCookie (name : list Z) (x : cookie_req) : Z * cookie_req :=
  let '(idx, x) := getCookie name x in
  match idx with
  | None => (0, x)
  | Some i =>
      let x := on_cr (orContextState REBUILD_COOKIE_UPKHDR) x in
      if getSize (m_cookies x) =? 1 then (1, set_cookie_off 0 x)
      else
        let e := getObj i (m_cookies x) in
        let x := on_cr (memset (ck_keyOff e) 32 (ck_valOff e + ck_valLen e - ck_keyOff e)) x in
        (1, on_cookies (on_obj i (fun e => Ck 0 (ck_flag e) 0 (ck_valOff e) (ck_valLen e))) x)
  end.

(** [copyCookieHeaderToBufEnd] of [len] bytes of the header that is there. *)
Definition copyCookieHeaderToBufEnd (oldOff len : Z) (x : cookie_req) : cookie_req :=
  let d := bytes_at (buf_of x) (cookie_off x) len in
  let x := on_cr (append_buf (bs "Cookie: ")) x in
  let offset := zlen (buf_of x) in
  let x := set_cookie_off offset (on_cr (append_buf (d ++ [13; 10])) x) in
  let diff := offset - oldOff in
  on_cookies (fun c => Cks (map (fun e => Ck (ck_keyOff e + diff) (ck_flag e) (ck_keyLen e) (ck_valOff e + diff) (ck_valLen e)) (ck_list c)) (m_iSessIdx c)) x.

(** [setCookie] up to the place for the new text; [value] is not a null pointer. *)
Definition cookie_place (x : cookie_req) : cookie_req :=
  if getSize (m_cookies x) =? 0 then
    let x := on_cr (append_buf (bs "Cookie: ")) x in
    set_cookie_len 0 (set_cookie_off (zlen (buf_of x)) x)
  else if zlen (buf_of x) >? cookie_off x + cookie_len x + 4 then copyCookieHeaderToBufEnd (cookie_off x) (cookie_len x) x
  else on_cr (resize_buf (cookie_off x + cookie_len x)) x.

Definition append_cookie (i : Z) (name value : list Z) (x : cookie_req) : cookie_req :=
  let x :=
    if (cookie_len x >? 0) && negb (znth (buf_of x) (zlen (buf_of x) - 1) =? 59)
    then set_cookie_len (cookie_len x + 1) (on_cr (append_buf [59]) x) else x in
  let keyOff := zlen (buf_of x) in
  let valOff := keyOff + zlen name + 1 in
  let x := on_cr (append_buf (name ++ [61] ++ value)) x in
  let x := on_cookies (on_obj i (fun e => Ck keyOff (Z.lor (ck_flag e) COOKIE_FLAG_RESP_UPDATE) (wraps 24 (zlen name)) valOff (zlen value))) x in
  let x := set_cookie_len (cookie_len x + (zlen name + zlen value + 1)) x in
  let x := on_cr (append_buf [13; 10; 13; 10]) x in
  on_cr (fun r => let r := clearContextState (Z.lor CACHE_PRIVATE_KEY CACHE_KEY) r in
                  set_iReqHeaderBufFinished (bend r) (set_iHttpHeaderEnd (bend r) r)) x.

Definition is_deleted (value : list Z) : bool := strncasecmp 7 value (bs "deleted") =? 0.

(** [setCookie]; the index of the entry that was written. *)
Definition setCookie (name value : list Z) (x : cookie_req) : option Z * cookie_req :=
  let valLen := zlen value in
  if cookie_len x + valLen + zlen name + 1 >? 65535 then (None, x)
  else
    let '(idx, x) := getCookie name x in
    let fresh (x : cookie_req) :=
      let x := on_cr (orContextState REBUILD_COOKIE_UPKHDR) x in
      if is_deleted value then (None, x)
      else
        let x := cookie_place x in
        match idx with
        | Some i => (Some i, append_cookie i name value x)
        | None =>
            let '(i, c) := insertCookieIndex (buf_of x) name (m_cookies x) in
            let c := (cookieClassify i name valLen (on_obj i (fun e => Ck (ck_keyOff e) 0 (ck_keyLen e) (ck_valOff e) (ck_valLen e)) c)).2 in
            (Some i, append_cookie i name value (on_cookies (fun _ => c) x))
        end in
    match idx with
    | None => fresh x
    | Some i =>
        let e := getObj i (m_cookies x) in
        let p := ck_valOff e in
        if valLen <=? ck_valLen e then
          if (valLen =? ck_valLen e) && bytes_eqb value (bytes_at (buf_of x) p valLen) then (None, x)
          else
            let x := on_cr (fun r => put_ p value (clearContextState (Z.lor CACHE_PRIVATE_KEY CACHE_KEY) r)) x in
            let diff := ck_valLen e - valLen in
            let x := on_cookies (on_obj i (add_flag COOKIE_FLAG_RESP_UPDATE)) x in
            let x :=
              if diff >? 0 then
                let x := if ck_valLen e + ck_valOff e =? cookie_off x + cookie_len x then set_cookie_len (cookie_len x - diff) x else x in
                on_cookies (on_obj i (fun e => Ck (ck_keyOff e) (ck_flag e) (ck_keyLen e) (ck_valOff e) valLen)) (on_cr (memset (p + valLen) 32 diff) x)
              else x in
            (Some i, on_cr (orContextState REBUILD_COOKIE_UPKHDR) x)
        else fresh (on_cr (memset (ck_keyOff e) 32 (ck_valOff e + ck_valLen e - ck_keyOff e)) x)
    end.

(** [processSetCookieHeader]: the name and the value of a Set-Cookie header. *)
Definition processSetCookieHeader (value : list Z) (x : cookie_req) : Z * cookie_req :=
  if negb (Z.land (m_iContextState (cr_req x)) DUM_BENCHMARK_TOOL =? 0) then (0, x)
  else
    let p := (span isspace value).2 in
    match memchr 61 p with
    | None => (-1, x)
    | Some n =>
        let trim l := rev (span isspace (rev l)).2 in
        let name := trim (ztake n p) in
        if zlen name <=? 0 then (-1, x)
        else
          let v := zdrop (n + 1) p in
          let v := match memchr 59 v with Some k => ztake k v | None => v end in
          let '(idx, x) := setCookie name (span isspace (trim v)).2 x in
          (match idx with Some _ => 1 | None => 0 end, x)
    end.
