(* ===== verification/CookieIndex.v ===== *)
(** * CookieIndex: the index of the cookies against their text
    (src/src/http/httpreq.cpp)

    What the Cookie header says, as a list of names and values; that the array which
    Cookies builds is that list sorted by name, with cookies of one name in their
    order; that looking up a name gives its first cookie; and which cookie is taken for
    the session's, however the array moves its entries. *)

From stdpp Require Import sorting.
From S2P Require Import Prelude Headers Request Cookies.
Import HttpHeader.
#[local] Open Scope Z_scope.

Notation pair := (list Z * list Z)%type (only parsing).

(** ** The cookies of a text *)

Fixpoint split_on (c : Z) (l : list Z) : list (list Z) :=
  match l with
  | [] => [[]]
  | x :: l => if x =? c then [] :: split_on c l else match split_on c l with s :: ss => (x :: s) :: ss | [] => [[x]] end
  end.
Definition trim (l : list Z) : list Z := rev (span isspace (rev (span isspace l).2)).2.
Definition one_cookie (seg : list Z) : option pair :=
  let s := (span isspace seg).2 in match memchr 61 s with None => None | Some n => Some (ztake n s, trim (zdrop (n + 1) s)) end.
Definition cookie_pairs (text : list Z) : list pair := omap one_cookie (split_on 59 text).

(** ** The order of names *)

Fixpoint name_ltb (a b : list Z) : bool :=
  match a, b with
  | _, [] => false
  | [], _ :: _ => true
  | x :: a, y :: b => if tolower x =? tolower y then name_ltb a b else tolower x <? tolower y
  end.
Definition name_le (a b : list Z) : Prop := name_ltb b a = false.

(** ** The abstract array *)

Inductive kind := Plain | Php | App.
Definition starts (s : string) (n : list Z) : bool := strcaseeq (ztake (zlen (bs s)) n) (bs s).
Definition kind_of_cookie (c : pair) : kind :=
  let '(n, v) := c in
  if zlen v <? 16 then Plain
  else if strcaseeq n (bs "PHPSESSID") then Php
  else if strcaseeq n (bs "frontend") || strcaseeq n (bs "xf_session") || strcaseeq n (bs "lsc_private")
    || ((zlen n >? 23) && (starts "wp_woocommerce_session_" n || starts "wordpress_logged_in_" n)) then App
  else Plain.

(** The sorted cookies, and the place of the session's. *)
Record jar := Jar { j_list : list pair; j_sess : option nat }.

Fixpoint place_pos (n : list Z) (l : list pair) (i : nat) : nat :=
  match i with
  | O => O
  | S j => if name_ltb n (nth j l ([], [])).1 then place_pos n l j else i
  end.
Definition jar_add (J : jar) (c : pair) : jar :=
  let l := j_list J in
  let pos := place_pos c.1 l (length l) in
  let l' := take pos l ++ [c] ++ drop pos l in
  let s := option_map (fun k => if (pos <=? k)%nat then S k else k) (j_sess J) in
  Jar l' match kind_of_cookie c, s with
         | Plain, _ => s
         | _, None => Some pos
         | Php, Some _ => s
         | App, Some k => match kind_of_cookie (nth k l' ([], [])) with Php => Some pos | _ => s end
         end.
Definition jar_of (l : list pair) : jar := fold_left jar_add l (Jar [] None).

(** The session's cookie: the first of an application, or else the first of PHP. *)
Definition is_app (c : pair) : bool := match kind_of_cookie c with App => true | _ => false end.
Definition is_php (c : pair) : bool := match kind_of_cookie c with Php => true | _ => false end.
Definition session_cookie (l : list pair) : option pair :=
  match List.find is_app l with Some c => Some c | None => List.find is_php l end.

(** ** Names *)

Lemma tolower_0 x : tolower x = 0 -> x = 0.
Proof. unfold tolower. destruct ((65 <=? x) && (x <=? 90)) eqn:E; lia. Qed.

(** The test of [insertCookieIndex] is the order of names. *)
Lemma after_names a : forall name r, 0 ∉ a ->
  (let res := strncasecmp (Nat.min (length a) (length name)) (a ++ r) name in (res >? 0) || ((res =? 0) && (zlen a >? zlen name))) = name_ltb name a.
Proof.
  induction a as [|x a IH]; intros name r Ha; [cbn [length Nat.min app strncasecmp]; change (zlen (@nil Z)) with 0; change (0 >? 0) with false; change (0 =? 0) with true; cbn [orb andb]; rewrite Z.gtb_ltb, (proj2 (Z.ltb_ge _ 0)) by apply zlen_nonneg; destruct name; reflexivity|].
  destruct name as [|y name]; [cbn [length Nat.min strncasecmp name_ltb]; change (zlen (@nil Z)) with 0; change (0 >? 0) with false; change (0 =? 0) with true; cbn [orb andb]; rewrite zlen_cons, Z.gtb_ltb, (proj2 (Z.ltb_lt 0 _)) by (pose proof (zlen_nonneg a); lia); reflexivity|].
  cbn [length Nat.min app strncasecmp hd tl name_ltb]. apply not_elem_of_cons in Ha as [Hx Ha]. rewrite (Z.eqb_sym (tolower y)).
  destruct (Z.eqb_spec (tolower x) (tolower y)) as [E|E]; cbn [negb].
  - rewrite (proj2 (Z.eqb_neq _ 0)) by (intros H; apply tolower_0 in H; congruence). rewrite !zlen_cons, <- (IH name r Ha). cbv zeta. f_equal. f_equal. lia.
  - rewrite (proj2 (Z.eqb_neq (tolower x - tolower y) 0)) by lia. cbn [andb]. rewrite orb_false_r. lia.
Qed.

Lemma strncasecmp_eq a : forall name r, 0 ∉ name -> length a = length name -> (strncasecmp (length name) name (a ++ r) =? 0) = strcaseeq name a.
Proof.
  unfold strcaseeq. induction a as [|x a IH]; intros [|y name] r Hn Hl; cbn in Hl; try discriminate; [reflexivity|].
  cbn [length app strncasecmp hd tl map bytes_eqb]. apply not_elem_of_cons in Hn as [Hy Hn]. destruct (Z.eqb_spec (tolower y) (tolower x)) as [E|E]; cbn [negb andb].
  - rewrite (proj2 (Z.eqb_neq (tolower y) 0)) by (intros H; apply tolower_0 in H; congruence). apply IH; [exact Hn|lia].
  - rewrite (proj2 (Z.eqb_neq (tolower y - tolower x) 0)) by lia. reflexivity.
Qed.

Lemma name_ltb_irrefl a : name_ltb a a = false.
Proof. induction a as [|x a IH]; [reflexivity|]. cbn. rewrite Z.eqb_refl. exact IH. Qed.

Lemma name_ltb_trans a : forall b c, name_ltb a b = true -> name_ltb b c = true -> name_ltb a c = true.
Proof.
  induction a as [|x a IH]; intros [|y b] [|z c]; cbn; try discriminate; auto.
  destruct (Z.eqb_spec (tolower x) (tolower y)), (Z.eqb_spec (tolower y) (tolower z)), (Z.eqb_spec (tolower x) (tolower z)); intros H1 H2; try lia; try (rewrite <- e, e0 in *); eauto; lia.
Qed.

Lemma name_ltb_asym a b : name_ltb a b = true -> name_ltb b a = false.
Proof. intros H. destruct (name_ltb b a) eqn:E; [|reflexivity]. pose proof (name_ltb_trans _ _ _ H E) as C. rewrite name_ltb_irrefl in C. discriminate. Qed.

Lemma name_le_trans a : forall b c, name_le a b -> name_le b c -> name_le a c.
Proof.
  unfold name_le. induction a as [|x a IH]; intros [|y b] [|z c]; cbn; try discriminate; auto.
  destruct (Z.eqb_spec (tolower y) (tolower x)), (Z.eqb_spec (tolower z) (tolower y)), (Z.eqb_spec (tolower z) (tolower x)); intros H1 H2; try lia; eauto.
Qed.

(** Names that are neither before nor behind one another are the same but for case. *)
Lemma name_eqv a : forall b, name_ltb a b = false -> name_ltb b a = false -> strcaseeq a b = true.
Proof.
  unfold strcaseeq. induction a as [|x a IH]; intros [|y b]; cbn; try discriminate; auto. rewrite (Z.eqb_sym (tolower y)).
  destruct (Z.eqb_spec (tolower x) (tolower y)) as [_|E]; [intros; apply IH; assumption|lia].
Qed.

Lemma name_eq_ltb a : forall b, strcaseeq a b = true -> name_ltb a b = false.
Proof.
  unfold strcaseeq. induction a as [|x a IH]; intros [|y b]; cbn; try discriminate; auto. rewrite andb_true_iff, Z.eqb_eq. intros [-> H]. rewrite Z.eqb_refl. apply IH, H.
Qed.

(** ** The abstract array is sorted, and stable *)

Lemma place_pos_le n l i : (place_pos n l i <= i)%nat.
Proof. induction i as [|i IH]; [reflexivity|]. cbn. destruct (name_ltb _ _); [lia|reflexivity]. Qed.

Lemma place_pos_after n l i j : (place_pos n l i <= j < i)%nat -> name_ltb n (nth j l ([], [])).1 = true.
Proof.
  induction i as [|i IH]; [lia|]. cbn. destruct (name_ltb n (nth i l ([], [])).1) eqn:E; [|lia]. intros Hj. destruct (decide (j = i)) as [->|]; [exact E|apply IH; lia].
Qed.

Lemma place_pos_before n l i j : place_pos n l i = S j -> name_ltb n (nth j l ([], [])).1 = false.
Proof. induction i as [|i IH]; [discriminate|]. cbn. destruct (name_ltb n (nth i l ([], [])).1) eqn:E; [exact IH|]. intros [= <-]. exact E. Qed.

Definition by_name (a b : pair) : Prop := name_le a.1 b.1.
Definition same_name (n : list Z) (c : pair) : bool := strcaseeq n c.1.

Lemma sorted_lookup l i : forall j a b, StronglySorted by_name l -> (i < j)%nat -> l !! i = Some a -> l !! j = Some b -> by_name a b.
Proof.
  revert i. induction l as [|x k IH]; intros i j a b Hs Hij Ha Hb; [destruct i; discriminate|]. apply StronglySorted_cons in Hs as [Hx Hs].
  destruct j as [|j]; [lia|]. destruct i as [|i]; cbn in Ha, Hb; [injection Ha as <-; exact (Forall_lookup_1 _ _ _ _ Hx Hb)|]. exact (IH i j a b Hs ltac:(lia) Ha Hb).
Qed.

Section place.
Context (l : list pair) (c : pair) (Hl : StronglySorted by_name l).
Let pos := place_pos c.1 l (length l).

Lemma place_drop a : a ∈ drop pos l -> name_ltb c.1 a.1 = true.
Proof.
  intros Ha. apply list_elem_of_lookup in Ha as (i & Hi). rewrite lookup_drop in Hi. pose proof (lookup_lt_Some _ _ _ Hi) as Hlt.
  pose proof (place_pos_after c.1 l (length l) (pos + i)) as H. rewrite (nth_lookup_Some _ _ _ _ Hi) in H. apply H. fold pos. lia.
Qed.

Lemma place_take a : a ∈ take pos l -> by_name a c.
Proof.
  intros Ha. apply list_elem_of_lookup in Ha as (i & Hi). apply lookup_take_Some in Hi as [Hi Hip]. destruct pos as [|j] eqn:E; [lia|].
  pose proof (place_pos_before c.1 l (length l) j E) as Hj. pose proof (place_pos_le c.1 l (length l)) as Hle. fold pos in Hle. rewrite E in Hle.
  destruct (lookup_lt_is_Some_2 l j ltac:(lia)) as (b & Hb). rewrite (nth_lookup_Some _ _ _ _ Hb) in Hj.
  destruct (decide (i = j)) as [->|]; [rewrite Hb in Hi; injection Hi as <-; exact Hj|]. exact (name_le_trans _ _ _ (sorted_lookup l i j a b Hl ltac:(lia) Hi Hb) Hj).
Qed.

Lemma place_sorted : StronglySorted by_name (take pos l ++ [c] ++ drop pos l).
Proof.
  pose proof Hl as H0. rewrite <- (take_drop pos l) in H0. apply StronglySorted_app in H0 as (H1 & H2 & H3).
  apply StronglySorted_app. split; [|split; [exact H2|]].
  - intros a b Ha Hb. apply elem_of_app in Hb as [Hb|Hb]; [apply list_elem_of_singleton in Hb; subst; apply place_take, Ha|exact (H1 a b Ha Hb)].
  - constructor; [exact H3|]. apply Forall_forall. intros b Hb. unfold by_name, name_le. apply name_ltb_asym, place_drop, Hb.
Qed.

Lemma place_stable n : List.filter (same_name n) (take pos l ++ [c] ++ drop pos l) = List.filter (same_name n) l ++ List.filter (same_name n) [c].
Proof.
  transitivity (List.filter (same_name n) (take pos l) ++ List.filter (same_name n) [c] ++ List.filter (same_name n) (drop pos l)); [rewrite !List.filter_app; reflexivity|].
  rewrite <- (take_drop pos l) at 3. rewrite List.filter_app. cbn. destruct (same_name n c) eqn:E; [|cbn; rewrite app_nil_r; reflexivity].
  assert (Hd : List.filter (same_name n) (drop pos l) = []).
  { pose proof place_drop as Hp. induction (drop pos l) as [|d k IH]; [reflexivity|]. cbn. destruct (same_name n d) eqn:Ed; [|apply IH; intros; apply Hp; right; assumption].
    exfalso. specialize (Hp d ltac:(left)). unfold same_name, strcaseeq in *. apply bytes_eqb_eq in E, Ed. rewrite (name_eq_ltb c.1 d.1) in Hp; [discriminate|].
    unfold strcaseeq. apply bytes_eqb_eq. congruence. }
  rewrite Hd, !app_nil_r. reflexivity.
Qed.
End place.


Lemma jar_of_snoc l c : jar_of (l ++ [c]) = jar_add (jar_of l) c.
Proof. unfold jar_of. apply fold_left_app. Qed.

Lemma jar_sorted l : StronglySorted by_name (j_list (jar_of l)).
Proof. induction l as [|c l IH] using rev_ind; [constructor|]. rewrite jar_of_snoc. apply place_sorted, IH. Qed.

Lemma jar_stable n l : List.filter (same_name n) (j_list (jar_of l)) = List.filter (same_name n) l.
Proof. induction l as [|c l IH] using rev_ind; [reflexivity|]. rewrite jar_of_snoc, List.filter_app, <- IH. apply place_stable. Qed.

Lemma jar_perm l : j_list (jar_of l) ≡ₚ l.
Proof.
  induction l as [|c l IH] using rev_ind; [reflexivity|]. rewrite jar_of_snoc. unfold jar_add. cbn [j_list]. revert IH.
  generalize (j_list (jar_of l)) as k. intros k IH. set (p := place_pos _ _ _). clearbody p. rewrite <- (take_drop p k) in IH. rewrite <- IH. solve_Permutation.
Qed.

(** ** The session's cookie *)

Lemma find_snoc {A} (f : A -> bool) l c : List.find f (l ++ [c]) = match List.find f l with Some x => Some x | None => if f c then Some c else None end.
Proof. induction l as [|x l IH]; cbn; [reflexivity|]. destruct (f x); [reflexivity|exact IH]. Qed.

(** An entry's place after one is put at [pos]. *)
Lemma shifted {A} (l : list A) (c : A) pos k : (pos <= length l)%nat ->
  (take pos l ++ [c] ++ drop pos l) !! (if (pos <=? k)%nat then S k else k) = l !! k.
Proof.
  intros Hp. rewrite <- (take_drop pos l) at 3. destruct (Nat.leb_spec pos k) as [Hk|Hk].
  - rewrite !lookup_app_r by (rewrite ?length_take; cbn; lia). rewrite length_take, Nat.min_l by lia. replace (S k - pos - length [c])%nat with (k - pos)%nat by (cbn; lia). reflexivity.
  - rewrite !lookup_app_l by (rewrite length_take; lia). reflexivity.
Qed.

Lemma placed {A} (l : list A) (c : A) pos : (pos <= length l)%nat -> (take pos l ++ [c] ++ drop pos l) !! pos = Some c.
Proof. intros Hp. rewrite lookup_app_r by (rewrite length_take; lia). rewrite length_take, Nat.min_l, Nat.sub_diag by lia. reflexivity. Qed.

Lemma session_snoc l c :
  session_cookie (l ++ [c]) =
  match kind_of_cookie c, session_cookie l with
  | Plain, s => s
  | _, None => Some c
  | Php, s => s
  | App, Some a => match kind_of_cookie a with Php => Some c | _ => Some a end
  end.
Proof.
  unfold session_cookie. rewrite !find_snoc. unfold is_app at 2, is_php at 2.
  destruct (List.find is_app l) as [a|] eqn:Ea.
  - apply List.find_some in Ea as [_ Ea]. unfold is_app in Ea. destruct (kind_of_cookie a); try discriminate. destruct (kind_of_cookie c); reflexivity.
  - destruct (List.find is_php l) as [b|] eqn:Eb; [|destruct (kind_of_cookie c); reflexivity].
    apply List.find_some in Eb as [_ Eb]. unfold is_php in Eb. destruct (kind_of_cookie b); try discriminate. destruct (kind_of_cookie c); reflexivity.
Qed.

(** The marked entry is that of the session's cookie. *)
Lemma jar_marks l :
  match j_sess (jar_of l) with
  | None => session_cookie l = None
  | Some i => exists a, j_list (jar_of l) !! i = Some a /\ session_cookie l = Some a
  end.
Proof.
  induction l as [|c l IH] using rev_ind; [reflexivity|]. rewrite jar_of_snoc, session_snoc. unfold jar_add. cbn [j_sess j_list].
  set (k := j_list (jar_of l)) in *. set (p := place_pos _ _ _). pose proof (place_pos_le c.1 k (length k)) as Hp. fold p in Hp.
  pose proof (placed k c p Hp) as Hc. destruct (j_sess (jar_of l)) as [i|]; cbn [option_map].
  - destruct IH as (a & Ha & ->). rewrite <- (shifted k c p i Hp) in Ha. rewrite (nth_lookup_Some _ _ ([], []) _ Ha).
    destruct (kind_of_cookie c); [eauto|eauto|]. destruct (kind_of_cookie a); eauto.
  - rewrite IH. destruct (kind_of_cookie c); eauto.
Qed.

(** ** What the array of the code stands for *)

Definition view (data : list Z) (e : cookieval_t) : pair := (bytes_at data (ck_keyOff e) (ck_keyLen e), bytes_at data (ck_valOff e) (ck_valLen e)).
Definition marked_php (e : cookieval_t) : bool := negb (Z.land (ck_flag e) COOKIE_FLAG_PHPSESSID =? 0).

Record entry_ok (data : list Z) (e : cookieval_t) : Prop := {
  ok_off : 0 <= ck_keyOff e;
  ok_len : 0 <= ck_keyLen e;
  ok_in : ck_keyOff e + ck_keyLen e <= zlen data;
  ok_nul : 0 ∉ (view data e).1;
  ok_php : marked_php e = is_php (view data e)
}.

Record represents (data : list Z) (c : CookieList) (J : jar) : Prop := {
  rep_list : map (view data) (ck_list c) = j_list J;
  rep_sess : m_iSessIdx c = match j_sess J with None => 0 | Some k => Z.of_nat k + 1 end;
  rep_in : match j_sess J with None => True | Some k => (k < length (j_list J))%nat end;
  rep_ok : Forall (entry_ok data) (ck_list c)
}.

Lemma key_split data e : entry_ok data e -> zdrop (ck_keyOff e) data = (view data e).1 ++ zdrop (ck_keyOff e + ck_keyLen e) data /\ zlen (view data e).1 = ck_keyLen e.
Proof.
  intros [? ? ? _ _]. unfold view, bytes_at, slice. cbn [fst]. rewrite Z.add_simpl_l. split.
  - rewrite <- (zdrop_zdrop (ck_keyLen e) (ck_keyOff e)) by assumption. symmetry. apply ztake_zdrop.
  - rewrite zlen_ztake, zlen_zdrop by assumption. lia.
Qed.

Lemma after_ok data name e : entry_ok data e -> after data name e = name_ltb name (view data e).1.
Proof.
  intros He. destruct (key_split data e He) as [Hs Hl]. rewrite <- (after_names (view data e).1 name (zdrop (ck_keyOff e + ck_keyLen e) data) (ok_nul _ _ He)).
  unfold after. rewrite Hs, <- Hl. unfold zlen. rewrite <- Nat2Z.inj_min, Nat2Z.id. reflexivity.
Qed.

Lemma insert_pos_ok data name l i : Forall (entry_ok data) l -> (i <= length l)%nat -> insert_pos data name l i = place_pos name (map (view data) l) i.
Proof.
  intros Hl. induction i as [|i IH]; intros Hi; [reflexivity|]. cbn [insert_pos place_pos].
  destruct (lookup_lt_is_Some_2 l i ltac:(lia)) as (e & He). rewrite (nth_lookup_Some l i _ e He), (nth_lookup_Some (map (view data) l) i _ (view data e)) by (rewrite list_lookup_fmap, He; reflexivity).
  rewrite after_ok by (rewrite Forall_lookup in Hl; exact (Hl i e He)). rewrite IH by lia. reflexivity.
Qed.

(** ** Classification *)

Lemma strncasecmp_pre b : forall n, 0 ∉ n -> (length b <= length n)%nat -> (strncasecmp (length b) n b =? 0) = strcaseeq (take (length b) n) b.
Proof.
  unfold strcaseeq. induction b as [|y b IH]; intros [|x n] Hn Hl; cbn in Hl; try lia; try reflexivity. apply not_elem_of_cons in Hn as [Hx Hn].
  cbn [length strncasecmp hd tl take map bytes_eqb]. destruct (Z.eqb_spec (tolower x) (tolower y)) as [E|E]; cbn [negb andb].
  - rewrite (proj2 (Z.eqb_neq (tolower x) 0)) by (intros H; apply tolower_0 in H; congruence). apply IH; [exact Hn|lia].
  - apply Z.eqb_neq. lia.
Qed.

Lemma strcaseeq_len a b : strcaseeq a b = true -> zlen a = zlen b.
Proof. unfold strcaseeq. rewrite bytes_eqb_eq. intros H. apply (f_equal length) in H. rewrite !length_map in H. unfold zlen. lia. Qed.

Lemma strcaseeq_other a b : zlen a <> zlen b -> strcaseeq a b = false.
Proof. intros H. destruct (strcaseeq a b) eqn:E; [apply strcaseeq_len in E; contradiction|reflexivity]. Qed.

Definition overrides (c : CookieList) : bool := negb (isSessIdxSet c) || marked_php (getObj (getSessIdx c) c).
Definition classified (i f : Z) (k : kind) (c : CookieList) : CookieList :=
  match k with
  | Plain => c
  | Php => let c := on_obj i (add_flag COOKIE_FLAG_PHPSESSID) c in if negb (isSessIdxSet c) then setSessIdx i c else c
  | App => let c := on_obj i (add_flag f) c in if overrides c then setSessIdx i c else c
  end.

Section names.
Context (n : list Z) (Hn : 0 ∉ n).
Lemma nm_eq s : zlen n = zlen (bs s) -> (strncasecmp (Z.to_nat (zlen (bs s))) n (bs s) =? 0) = strcaseeq n (bs s).
Proof. intros Hl. unfold zlen in *. rewrite Nat2Z.id, strncasecmp_pre by (assumption || lia). rewrite take_ge by lia. reflexivity. Qed.
Lemma nm_starts s : zlen (bs s) <= zlen n -> (strncasecmp (Z.to_nat (zlen (bs s))) n (bs s) =? 0) = starts s n.
Proof. intros Hl. unfold starts, ztake. unfold zlen in *. rewrite Nat2Z.id. apply strncasecmp_pre; [exact Hn|lia]. Qed.
End names.

Lemma snd_app i f c : (let c := on_obj i (add_flag f) c in if overrides c then (1, setSessIdx i c) else (0, c)).2 = classified i f App c.
Proof. cbn. destruct (overrides _); reflexivity. Qed.

Lemma cookieClassify_kind i n v c : 0 ∉ n -> exists f, (f = COOKIE_FLAG_FRONTEND \/ f = COOKIE_FLAG_APP_SESSID) /\ (cookieClassify i n (zlen v) c).2 = classified i f (kind_of_cookie (n, v)) c.
Proof.
  intros Hn. unfold cookieClassify, kind_of_cookie. destruct (zlen v <? 16); [exists COOKIE_FLAG_FRONTEND; split; [left|]; reflexivity|].
  destruct (Z.eqb_spec (zlen n) 8) as [E|N8].
  { rewrite (strcaseeq_other n (bs "PHPSESSID")), (strcaseeq_other n (bs "xf_session")), (strcaseeq_other n (bs "lsc_private")) by (rewrite E; discriminate). rewrite E, nm_eq by assumption.
    exists COOKIE_FLAG_FRONTEND. split; [left; reflexivity|]. cbn [orb andb Z.gtb Z.compare]. destruct (strcaseeq n (bs "frontend")); [apply snd_app|reflexivity]. }
  rewrite (strcaseeq_other n (bs "frontend")) by exact N8. cbn [orb]. exists COOKIE_FLAG_APP_SESSID. split; [right; reflexivity|].
  destruct (Z.eqb_spec (zlen n) 9) as [E|N9].
  { rewrite (strcaseeq_other n (bs "xf_session")), (strcaseeq_other n (bs "lsc_private")) by (rewrite E; discriminate). rewrite E, nm_eq by assumption.
    destruct (strcaseeq n (bs "PHPSESSID")); [|reflexivity]. cbn [classified]. destruct (negb (isSessIdxSet _)); reflexivity. }
  rewrite (strcaseeq_other n (bs "PHPSESSID")) by exact N9.
  destruct (Z.eqb_spec (zlen n) 10) as [E|N10].
  { rewrite (strcaseeq_other n (bs "lsc_private")) by (rewrite E; discriminate). rewrite E, nm_eq by assumption. destruct (strcaseeq n (bs "xf_session")); [apply snd_app|reflexivity]. }
  rewrite (strcaseeq_other n (bs "xf_session")) by exact N10. cbn [orb].
  destruct (Z.eqb_spec (zlen n) 11) as [E|N11].
  { rewrite E, nm_eq by assumption. destruct (strcaseeq n (bs "lsc_private")); [apply snd_app|reflexivity]. }
  rewrite (strcaseeq_other n (bs "lsc_private")) by exact N11. cbn [orb].
  destruct (zlen n >? 23) eqn:E; [|reflexivity]. rewrite !nm_starts by (assumption || (transitivity 23; [vm_compute; discriminate|lia])). cbn [andb].
  destruct (starts _ n || starts _ n); [apply snd_app|reflexivity].
Qed.

(** ** A cookie is added *)

Definition sess_num (s : option nat) : Z := match s with None => 0 | Some k => Z.of_nat k + 1 end.

Lemma on_obj_placed pos g x l s : (pos <= length l)%nat ->
  on_obj (Z.of_nat pos) g (Cks (take pos l ++ [x] ++ drop pos l) s) = Cks (take pos l ++ [g x] ++ drop pos l) s.
Proof.
  intros Hp. unfold on_obj, getObj. cbn [ck_list m_iSessIdx]. rewrite Nat2Z.id, (nth_lookup_Some _ _ _ _ (placed l x pos Hp)). f_equal.
  rewrite insert_app_r_alt by (rewrite length_take; lia). rewrite length_take, Nat.min_l, Nat.sub_diag by lia. reflexivity.
Qed.

Section add.
Context (data : list Z) (c : CookieList) (J : jar) (Hrep : represents data c J).
Context (e : cookieval_t) (Hflag : ck_flag e = 0) (Hoff : 0 <= ck_keyOff e) (Hlen : 0 <= ck_keyLen e) (Hin : ck_keyOff e + ck_keyLen e <= zlen data) (Hnul : 0 ∉ (view data e).1).
Let p := view data e.
Let l := ck_list c.
Let pos := place_pos p.1 (j_list J) (length (j_list J)).
Let shift := option_map (fun k => if (pos <=? k)%nat then S k else k) (j_sess J).

Lemma len_l : length l = length (j_list J).
Proof. unfold l. rewrite <- (rep_list _ _ _ Hrep), length_map. reflexivity. Qed.

Lemma pos_l : (pos <= length l)%nat.
Proof. rewrite len_l. apply place_pos_le. Qed.

Lemma insert_cookie_ok : insertCookieIndex data p.1 c = (Z.of_nat pos, Cks (take pos l ++ [ck_zero] ++ drop pos l) (sess_num shift)).
Proof.
  unfold insertCookieIndex. fold l. rewrite insert_pos_ok by (exact (rep_ok _ _ _ Hrep) || reflexivity). rewrite len_l. replace (map (view data) l) with (j_list J) by (symmetry; exact (rep_list _ _ _ Hrep)). fold pos. f_equal. f_equal.
  rewrite (rep_sess _ _ _ Hrep). unfold shift. pose proof (rep_in _ _ _ Hrep) as Hk. pose proof len_l as Hl. unfold zlen. destruct (j_sess J) as [k|]; cbn [option_map sess_num].
  - destruct (Nat.leb_spec pos k); destruct (Z.eqb_spec (Z.of_nat pos) (Z.of_nat (length l))) as [E|E]; cbn [negb]; try lia;
      rewrite (proj2 (Z.eqb_neq (Z.of_nat k + 1) 0)) by lia; cbn [negb andb]; destruct (Z.of_nat k + 1 - 1 >=? Z.of_nat pos) eqn:G; lia.
  - destruct (negb _); reflexivity.
Qed.

Lemma flagged_ok f : marked_php (add_flag f e) = is_php p -> Forall (entry_ok data) (take pos l ++ [add_flag f e] ++ drop pos l).
Proof.
  intros Hf. pose proof (rep_ok _ _ _ Hrep) as Ho. rewrite <- (take_drop pos (ck_list c)) in Ho. apply Forall_app in Ho as [Ho1 Ho2]. apply Forall_app. split; [exact Ho1|].
  constructor; [|exact Ho2]. constructor; assumption.
Qed.

Lemma flagged_view f : map (view data) (take pos l ++ [add_flag f e] ++ drop pos l) = take pos (j_list J) ++ [p] ++ drop pos (j_list J).
Proof. rewrite <- (rep_list _ _ _ Hrep), !map_app, firstn_map, skipn_map. reflexivity. Qed.

Lemma flagged_overrides f : marked_php (add_flag f e) = is_php p ->
  overrides (Cks (take pos l ++ [add_flag f e] ++ drop pos l) (sess_num shift)) =
  match shift with None => true | Some k => is_php (nth k (take pos (j_list J) ++ [p] ++ drop pos (j_list J)) ([], [])) end.
Proof.
  intros Hf. unfold overrides, isSessIdxSet, getSessIdx, getObj. cbn [m_iSessIdx ck_list]. pose proof (flagged_ok f Hf) as Ho. pose proof (flagged_view f) as Hv. pose proof pos_l as Hp.
  pose proof (rep_in _ _ _ Hrep) as Hk. unfold shift in *. destruct (j_sess J) as [k|]; [|reflexivity]. cbn [option_map sess_num].
  set (k' := if (pos <=? k)%nat then S k else k). rewrite (proj2 (Z.eqb_neq (Z.of_nat k' + 1) 0)), Z.add_simpl_r, Nat2Z.id by lia. cbn [negb orb].
  destruct (lookup_lt_is_Some_2 (take pos l ++ [add_flag f e] ++ drop pos l) k') as (a & Ha).
  { rewrite !length_app, length_take, length_drop. cbn [length]. pose proof len_l. unfold k'. destruct (pos <=? k)%nat; lia. }
  rewrite <- Hv, (nth_lookup_Some _ _ _ _ Ha), (nth_lookup_Some _ _ _ (view data a)) by (rewrite list_lookup_fmap, Ha; reflexivity). apply (ok_php data). rewrite Forall_lookup in Ho. exact (Ho _ _ Ha).
Qed.

Lemma shift_in : match shift with None => True | Some k => (k < length (take pos (j_list J) ++ [p] ++ drop pos (j_list J)))%nat end.
Proof.
  pose proof (rep_in _ _ _ Hrep) as Hk. unfold shift. destruct (j_sess J) as [k|]; [|exact I]. cbn [option_map]. rewrite !length_app, length_take, length_drop. cbn [length]. destruct (pos <=? k)%nat; lia.
Qed.

Lemma pos_in : (pos < length (take pos (j_list J) ++ [p] ++ drop pos (j_list J)))%nat.
Proof. rewrite !length_app, length_take, length_drop. cbn [length]. pose proof pos_l. pose proof len_l. lia. Qed.

(** The array with the entry, and the session's at [s]. *)
Lemma rep_with f s : marked_php (add_flag f e) = is_php p -> s = shift \/ s = Some pos ->
  represents data (Cks (take pos l ++ [add_flag f e] ++ drop pos l) (sess_num s)) (Jar (take pos (j_list J) ++ [p] ++ drop pos (j_list J)) s).
Proof.
  intros Hf Hs. constructor; cbn [ck_list m_iSessIdx j_list j_sess].
  - apply flagged_view.
  - reflexivity.
  - destruct Hs as [->| ->]; [exact shift_in|exact pos_in].
  - apply flagged_ok, Hf.
Qed.

Lemma classified_rep f : f = COOKIE_FLAG_FRONTEND \/ f = COOKIE_FLAG_APP_SESSID ->
  represents data (classified (Z.of_nat pos) f (kind_of_cookie p) (Cks (take pos l ++ [e] ++ drop pos l) (sess_num shift))) (jar_add J p).
Proof.
  intros Hf. unfold jar_add. fold pos shift. assert (He : forall g, ck_flag (add_flag g e) = g) by (intros g; unfold add_flag; cbn [ck_flag]; rewrite Hflag; apply Z.lor_0_l).
  assert (Hm : forall g, marked_php (add_flag g e) = negb (Z.land g COOKIE_FLAG_PHPSESSID =? 0)) by (intros g; unfold marked_php; rewrite He; reflexivity).
  assert (Hset : forall k, isSessIdxSet (Cks k (sess_num shift)) = match shift with None => false | Some _ => true end) by (intros k; unfold isSessIdxSet; cbn [m_iSessIdx]; destruct shift; [apply negb_true_iff, Z.eqb_neq; cbn; lia|reflexivity]).
  assert (Hk : is_php p = match kind_of_cookie p with Php => true | _ => false end) by reflexivity.
  destruct (kind_of_cookie p) eqn:Ek; cbn [classified].
  - replace e with (add_flag 0 e) at 1 by (unfold add_flag; rewrite Z.lor_0_r; destruct e; reflexivity). apply rep_with; [rewrite Hk, Hm; reflexivity|left; reflexivity].
  - rewrite on_obj_placed, Hset by exact pos_l. assert (Hm' : marked_php (add_flag COOKIE_FLAG_PHPSESSID e) = is_php p) by (rewrite Hk, Hm; reflexivity). destruct shift as [k|] eqn:Es; cbn [negb].
    + rewrite <- Es. apply rep_with; [exact Hm'|left; reflexivity].
    + exact (rep_with _ (Some pos) Hm' (or_intror eq_refl)).
  - rewrite on_obj_placed by exact pos_l. assert (Hm' : marked_php (add_flag f e) = is_php p) by (rewrite Hk, Hm; destruct Hf as [-> | ->]; reflexivity).
    rewrite (flagged_overrides f Hm'). pose proof (rep_with f (Some pos) Hm' (or_intror eq_refl)) as Hyes. pose proof (rep_with f shift Hm' (or_introl eq_refl)) as Hno.
    destruct shift as [k|]; [|exact Hyes]. unfold is_php. destruct (kind_of_cookie (nth k _ _)); [exact Hno|exact Hyes|exact Hno].
Qed.
End add.

(** ** Parsing *)

Section segment.
Context (data : list Z) (a b : Z) (Hab : 0 <= a <= b) (Hb : b <= zlen data).

Lemma skip_front : slice (a + zlen (span isspace (slice a b data)).1) b data = (span isspace (slice a b data)).2.
Proof.
  pose proof (zlen_span_snd isspace (slice a b data)) as Hz. pose proof (zlen_nonneg (span isspace (slice a b data)).2). rewrite zlen_slice in Hz by lia.
  rewrite <- zdrop_slice by (pose proof (zlen_nonneg (span isspace (slice a b data)).1); lia). rewrite <- (span_app isspace (slice a b data)) at 2. apply zdrop_app_exact.
Qed.

Lemma skip_back : slice a (b - zlen (span isspace (rev (slice a b data))).1) data = rev (span isspace (rev (slice a b data))).2.
Proof.
  pose proof (zlen_span_snd isspace (rev (slice a b data))) as Hz. pose proof (span_app isspace (rev (slice a b data))) as Hs. rewrite zlen_rev, zlen_slice in Hz by lia.
  set (x := span isspace _) in *. apply (f_equal (@rev Z)) in Hs. rewrite rev_app_distr, rev_involutive in Hs.
  unfold slice at 1. rewrite <- (ztake_ztake _ (b - a)) by (pose proof (zlen_nonneg x.1); lia). fold (slice a b data). rewrite <- Hs. apply ztake_app_len. rewrite zlen_rev. lia.
Qed.
End segment.

Definition jar_step (J : jar) (seg : list Z) : jar := match one_cookie seg with None => J | Some c => jar_add J c end.

Lemma not_in_slice (x : Z) i j a b (l : list Z) : x ∉ slice a b l -> a <= i -> j <= b -> 0 <= a -> x ∉ slice i j l.
Proof.
  intros Hx Hi Hj Ha Hin. apply Hx. unfold slice, ztake, zdrop in *. apply list_elem_of_lookup in Hin as (k & Hk). apply lookup_take_Some in Hk as [Hk Hl]. rewrite lookup_drop in Hk.
  apply list_elem_of_lookup. exists (k + Z.to_nat (i - a))%nat. apply lookup_take_Some. split; [rewrite lookup_drop, <- Hk; f_equal; lia|lia].
Qed.

Lemma parseOneCookie_rep data p e c J : represents data c J -> 0 <= p <= e -> e <= zlen data -> e - p < 2 ^ 23 -> 0 ∉ slice p e data ->
  represents data (parseOneCookie data p e c) (jar_step J (slice p e data)).
Proof.
  intros Hrep Hpe He H23 Hnul. unfold parseOneCookie, jar_step, one_cookie. set (cookie := p + zlen (span isspace (slice p e data)).1).
  rewrite <- (skip_front data p e Hpe He). fold cookie. assert (Hc : p <= cookie) by (pose proof (zlen_nonneg (span isspace (slice p e data)).1); unfold cookie; lia).
  destruct (Z.leb_spec e cookie) as [Hle|Hlt]; [rewrite slice_nil by exact Hle; exact Hrep|].
  destruct (memchr 61 (slice cookie e data)) as [n|] eqn:Em; [|exact Hrep].
  apply memchr_Some in Em as (Hn & _ & _). rewrite zlen_slice in Hn by lia. set (v0 := cookie + n + 1).
  assert (Hv : zdrop (n + 1) (slice cookie e data) = slice v0 e data) by (rewrite zdrop_slice by lia; unfold v0; f_equal; lia). rewrite Hv.
  set (pVal := v0 + zlen (span isspace (slice v0 e data)).1).
  pose proof (zlen_span_snd isspace (slice v0 e data)) as Hs. pose proof (zlen_nonneg (span isspace (slice v0 e data)).2). pose proof (zlen_nonneg (span isspace (slice v0 e data)).1). rewrite zlen_slice in Hs by lia.
  pose proof (skip_front data v0 e ltac:(lia) He) as Hf. fold pVal in Hf. pose proof (skip_back data pVal e ltac:(lia) He) as Hbk.
  set (e' := e - zlen (span isspace (rev (slice pVal e data))).1) in *.
  set (e0 := Ck cookie 0 (wraps 24 n) pVal (e' - pVal)).
  assert (Hw : wraps 24 n = n) by (unfold wraps; rewrite Z.mod_small; lia).
  assert (Hview : view data e0 = (ztake n (slice cookie e data), trim (slice v0 e data))).
  { unfold view, bytes_at, e0, trim. cbn [ck_keyOff ck_keyLen ck_valOff ck_valLen]. rewrite Hw, <- Hf, <- Hbk. f_equal; [|f_equal; lia].
    unfold slice. rewrite ztake_ztake by lia. f_equal. lia. }
  rewrite <- Hview. assert (Hname : slice cookie (cookie + n) data = (view data e0).1) by (unfold view, bytes_at, e0; cbn; rewrite Hw; reflexivity). rewrite Hname.
  assert (Hval : e' - pVal = zlen (view data e0).2).
  { unfold view, bytes_at, e0. cbn [snd ck_valOff ck_valLen]. pose proof (zlen_span_snd isspace (rev (slice pVal e data))) as Hr. rewrite zlen_rev, zlen_slice in Hr by lia.
    pose proof (zlen_nonneg (span isspace (rev (slice pVal e data))).1). pose proof (zlen_nonneg (span isspace (rev (slice pVal e data))).2). rewrite zlen_slice; unfold e'; lia. }
  assert (Hz : 0 ∉ (view data e0).1) by (rewrite <- Hname; apply (not_in_slice 0 _ _ p e); (assumption || lia)).
  rewrite (insert_cookie_ok data c J Hrep), on_obj_placed by (exact (pos_l data c J Hrep e0)).
  destruct (cookieClassify_kind (Z.of_nat (place_pos (view data e0).1 (j_list J) (length (j_list J)))) (view data e0).1 (view data e0).2
     (Cks (take (place_pos (view data e0).1 (j_list J) (length (j_list J))) (ck_list c) ++ [e0] ++ drop (place_pos (view data e0).1 (j_list J) (length (j_list J))) (ck_list c))
        (sess_num (option_map (fun k => if (place_pos (view data e0).1 (j_list J) (length (j_list J)) <=? k)%nat then S k else k) (j_sess J)))) Hz) as (f & Hf2 & Hcl).
  rewrite Hval, Hcl, <- surjective_pairing. apply classified_rep; try assumption; unfold e0; cbn; lia.
Qed.

(** ** The loop over a text *)

Lemma split_on_None c l : memchr c l = None -> split_on c l = [l].
Proof.
  induction l as [|x l IH]; [reflexivity|]. cbn [memchr split_on]. destruct (x =? c); [discriminate|]. destruct (memchr c l); [discriminate|]. intros _. rewrite IH by reflexivity. reflexivity.
Qed.

Lemma split_on_Some c l : forall n, memchr c l = Some n -> split_on c l = ztake n l :: split_on c (zdrop (n + 1) l).
Proof.
  induction l as [|x l IH]; intros n; [discriminate|]. cbn [memchr split_on]. destruct (x =? c); [intros [= <-]; reflexivity|].
  destruct (memchr c l) as [m|] eqn:E; [|discriminate]. intros [= <-]. apply memchr_Some in E as Em. rewrite (IH m eq_refl), ztake_cons, zdrop_cons by lia.
  replace (1 + m - 1) with m by lia. replace (1 + m + 1 - 1) with (m + 1) by lia. reflexivity.
Qed.

Lemma cookies_loop_rep data e fuel : forall p c J, represents data c J -> 0 <= p <= e -> e <= zlen data -> e - p < 2 ^ 23 -> 0 ∉ slice p e data -> e - p < Z.of_nat fuel ->
  represents data (cookies_loop fuel data p e c) (fold_left jar_step (split_on 59 (slice p e data)) J).
Proof.
  induction fuel as [|fuel IH]; intros p c J Hrep Hpe He H23 Hnul Hf; [lia|]. cbn [cookies_loop].
  destruct (Z.ltb_spec p e) as [Hlt|Hge]; [|rewrite slice_nil by lia; exact Hrep].
  destruct (memchr 59 (slice p e data)) as [n|] eqn:Em.
  - rewrite (split_on_Some _ _ n Em). apply memchr_Some in Em as (Hn & _ & _). rewrite zlen_slice in Hn by lia.
    assert (Hseg : ztake n (slice p e data) = slice p (p + n) data) by (unfold slice; rewrite ztake_ztake by lia; f_equal; lia).
    rewrite Hseg, zdrop_slice by lia. rewrite Z.add_assoc. cbn [fold_left]. apply IH; try lia.
    + apply parseOneCookie_rep; try lia; [exact Hrep|]. apply (not_in_slice 0 _ _ p e); (assumption || lia).
    + apply (not_in_slice 0 _ _ p e); (assumption || lia).
  - rewrite (split_on_None _ _ Em). cbn [fold_left]. assert (Hend : forall k c, cookies_loop k data (e + 1) e c = c) by (intros [|k] c0; cbn [cookies_loop]; [|rewrite (proj2 (Z.ltb_ge (e + 1) e)) by lia]; reflexivity).
    rewrite Hend. apply parseOneCookie_rep; (assumption || lia).
Qed.

Lemma jar_steps segs : forall J, fold_left jar_step segs J = fold_left jar_add (omap one_cookie segs) J.
Proof. induction segs as [|s segs IH]; intros J; [reflexivity|]. cbn. unfold jar_step at 2. destruct (one_cookie s); apply IH. Qed.

Lemma no_cookies_rep data : represents data no_cookies (Jar [] None).
Proof. constructor; cbn; auto. Qed.

(** The array that a Cookie header gives. *)
Lemma parse_range_rep data p e : 0 <= p <= e -> e <= zlen data -> e - p < 2 ^ 23 -> 0 ∉ slice p e data ->
  represents data (parse_range data p e no_cookies) (jar_of (cookie_pairs (slice p e data))).
Proof.
  intros Hpe He H23 Hnul. unfold parse_range. destruct (Z.leb_spec e p) as [Hle|Hlt].
  - rewrite orb_true_r, slice_nil by exact Hle. apply no_cookies_rep.
  - assert (H0 : znth data p <> 0).
    { intros E. apply Hnul. rewrite slice_cons by lia. rewrite E. left. }
    rewrite (proj2 (Z.eqb_neq _ _) H0). unfold jar_of, cookie_pairs. rewrite <- jar_steps. apply cookies_loop_rep; try assumption; [apply no_cookies_rep|lia].
Qed.
