(* ===== verification/CookieClaims.v ===== *)
(** * CookieClaims: a request's cookies
    (src/src/http/httpreq.cpp)

    What [parseCookies] and [getCookie] give for a request with a Cookie header, and
    what [setCookie] leaves of that header when it is not the last one. *)

From stdpp Require Import sorting.
From S2P Require Import Prelude Headers Request ReqFraming Cookies CookieIndex.
Import HttpHeader.
#[local] Open Scope Z_scope.

(** A request whose Cookie header is [text], not yet parsed. *)
Record has_cookies (x : cookie_req) (text : list Z) : Prop := {
  hc_new : Z.land (m_iContextState (cr_req x)) COOKIE_PARSED = 0;
  hc_none : m_cookies x = no_cookies;
  hc_off : 0 < cookie_off x;
  hc_len : 0 <= cookie_len x < 65536;
  hc_in : cookie_off x + cookie_len x <= zlen (buf_of x);
  hc_text : text = bytes_at (buf_of x) (cookie_off x) (cookie_len x);
  hc_nul : 0 ∉ text
}.

(** The cookies of the index, and the session's. *)
Definition cookies_of (x : cookie_req) : list (list Z * list Z) := map (view (buf_of x)) (ck_list (m_cookies x)).
Definition session_of (x : cookie_req) : option (list Z * list Z) :=
  if isSessIdxSet (m_cookies x) then Some (view (buf_of x) (getObj (getSessIdx (m_cookies x)) (m_cookies x))) else None.

Lemma parseCookies_rep x text : has_cookies x text ->
  buf_of (parseCookies x) = buf_of x /\ represents (buf_of x) (m_cookies (parseCookies x)) (jar_of (cookie_pairs text)).
Proof.
  intros [Hn Hc Ho Hl Hi Ht H0]. unfold parseCookies. rewrite Hn. cbn [Z.eqb negb]. unfold isHeaderSet. unfold cookie_off in Ho. rewrite (proj2 (Z.eqb_neq _ 0)) by lia. cbn [negb].
  split; [reflexivity|]. cbn [m_cookies on_cookies on_cr]. rewrite Hc. rewrite Ht in H0 |- *. unfold bytes_at in *. unfold cookie_off, cookie_len in *. apply parse_range_rep; try assumption; lia.
Qed.

Lemma rep_session data c J : represents data c J ->
  (if isSessIdxSet c then Some (view data (getObj (getSessIdx c) c)) else None) = k ← j_sess J; j_list J !! k.
Proof.
  intros [Hl Hs Hi _]. unfold isSessIdxSet, getSessIdx, getObj. rewrite Hs. destruct (j_sess J) as [k|]; [|reflexivity].
  rewrite (proj2 (Z.eqb_neq _ 0)) by lia. cbn [negb mbind option_bind]. rewrite Z.add_simpl_r, Nat2Z.id, <- Hl. rewrite <- Hl, length_map in Hi.
  destruct (lookup_lt_is_Some_2 _ _ Hi) as (e & He). rewrite (nth_lookup_Some _ _ _ _ He), list_lookup_fmap, He. reflexivity.
Qed.

(** C19: the index of the cookies.  After [parseCookies] the array holds exactly the cookies
    that the text of the Cookie header has (its parts between semicolons that have an
    equals sign, with their blanks cut off), sorted by name; cookies of one name keep
    their order; and the session's entry is the first cookie of one of the known
    applications, or else the first PHPSESSID, although every cookie that is put in
    front of it moves it. *)
Theorem cookies_indexed x text (H : has_cookies x text) :
  let x' := parseCookies x in
  cookies_of x' ≡ₚ cookie_pairs text /\
  StronglySorted by_name (cookies_of x') /\
  (forall n, List.filter (same_name n) (cookies_of x') = List.filter (same_name n) (cookie_pairs text)) /\
  session_of x' = session_cookie (cookie_pairs text).
Proof.
  cbv zeta. destruct (parseCookies_rep x text H) as [Hb Hr]. unfold cookies_of, session_of. rewrite Hb, (rep_list _ _ _ Hr), (rep_session _ _ _ Hr).
  split; [apply jar_perm|]. split; [apply jar_sorted|]. split; [intros n; apply jar_stable|].
  pose proof (jar_marks (cookie_pairs text)) as Hm. destruct (j_sess _) as [k|]; [destruct Hm as (a & Ha & ->); exact Ha|symmetry; exact Hm].
Qed.

(** ** Looking a cookie up *)

Lemma named_ok data n e : entry_ok data e -> 0 ∉ n -> named_cookie data n e = same_name n (view data e).
Proof.
  intros He Hn. unfold named_cookie, same_name. destruct (key_split data e He) as [Hs Hl]. rewrite Hs. destruct (Z.eqb_spec (ck_keyLen e) (zlen n)) as [E|E].
  - apply strncasecmp_eq; [exact Hn|]. unfold zlen in *. lia.
  - symmetry. apply strcaseeq_other. congruence.
Qed.

Lemma find_cookie_ok data n l : 0 ∉ n -> Forall (entry_ok data) l -> forall i, 0 <= i ->
  match find_cookie data n l i with
  | None => List.find (same_name n) (map (view data) l) = None
  | Some j => i <= j /\ exists e, l !! Z.to_nat (j - i) = Some e /\ List.find (same_name n) (map (view data) l) = Some (view data e)
  end.
Proof.
  intros Hn Hl. induction Hl as [|e l He _ IH]; intros i Hi; cbn; [reflexivity|]. rewrite (named_ok data n e He Hn). destruct (same_name n (view data e)).
  - split; [lia|]. exists e. rewrite Z.sub_diag. split; reflexivity.
  - specialize (IH (i + 1) ltac:(lia)). destruct (find_cookie data n l (i + 1)) as [j|]; [|exact IH]. destruct IH as (Hj & a & Ha & Hf). split; [lia|]. exists a.
    split; [|exact Hf]. replace (Z.to_nat (j - i)) with (S (Z.to_nat (j - (i + 1)))) by lia. exact Ha.
Qed.

Lemma find_hd {A} (f : A -> bool) l : List.find f l = hd_error (List.filter f l).
Proof. induction l as [|x l IH]; cbn; [reflexivity|]. destruct (f x); [reflexivity|exact IH]. Qed.

(** C20: a lookup.  [getCookie] gives the first cookie of the text with this name, in any
    case of its letters, and none when there is none. *)
Theorem getCookie_first x text name (H : has_cookies x text) (Hn : 0 ∉ name) :
  let '(i, x') := getCookie name x in
  option_map (fun i => view (buf_of x') (getObj i (m_cookies x'))) i = List.find (same_name name) (cookie_pairs text).
Proof.
  unfold getCookie. destruct (parseCookies_rep x text H) as [Hb Hr]. rewrite Hb. pose proof (find_cookie_ok (buf_of x) name _ Hn (rep_ok _ _ _ Hr) 0 ltac:(lia)) as Hf.
  rewrite (rep_list _ _ _ Hr), find_hd, jar_stable, <- find_hd in Hf. destruct (find_cookie _ _ _ _) as [j|]; [|symmetry; exact Hf].
  destruct Hf as (_ & e & He & ->). rewrite Z.sub_0_r in He. cbn [option_map]. unfold getObj. rewrite (nth_lookup_Some _ _ _ _ He). reflexivity.
Qed.

(** A request with a Cookie header, as it is parsed. *)
Definition cookie_request (text : string) : cookie_req :=
  Cr (receive_all sample_config [crlf "GET / HTTP/1.1" ++ bs "Cookie: " ++ bs text ++ crlf "" ++ crlf "Host: x" ++ crlf ""] new_HttpReq).2 no_cookies.
Definition sample_text : string := "b=1; PHPSESSID=0123456789abcdef ;a = 2;;B=3; lsc_private=fedcba9876543210;x".

Lemma sample_has_cookies : has_cookies (cookie_request sample_text) (bs sample_text).
Proof. constructor; [vm_compute; reflexivity..|vm_compute; split; [discriminate|reflexivity]|vm_compute; discriminate|vm_compute; reflexivity|]. apply (bool_decide_unpack _). vm_compute. exact I. Defined.

Lemma cookies_indexed_witness :
  has_cookies (cookie_request sample_text) (bs sample_text) /\
  session_of (parseCookies (cookie_request sample_text)) = Some (bs "lsc_private", bs "fedcba9876543210").
Proof. split; [exact sample_has_cookies|]. destruct (cookies_indexed _ _ sample_has_cookies) as (_ & _ & _ & ->). vm_compute. reflexivity. Defined.

Lemma getCookie_first_witness :
  has_cookies (cookie_request sample_text) (bs sample_text) /\
  (let '(i, x') := getCookie (bs "B") (cookie_request sample_text) in
   option_map (fun i => view (buf_of x') (getObj i (m_cookies x'))) i = Some (bs "b", bs "1")).
Proof.
  split; [exact sample_has_cookies|]. pose proof (getCookie_first (cookie_request sample_text) (bs sample_text) (bs "B") sample_has_cookies) as H.
  destruct (getCookie (bs "B") (cookie_request sample_text)) as [i x']. rewrite H; [vm_compute; reflexivity|]. apply (bool_decide_unpack _). vm_compute. exact I.
Defined.

(** ** A cookie that a response sets *)

Lemma znth_insert_same (l : list Z) i v : (Z.to_nat i < length l)%nat -> znth (<[Z.to_nat i := v]> l) i = v.
Proof. intros Hi. unfold znth. rewrite nth_lookup, list_lookup_insert_eq by exact Hi. reflexivity. Qed.

Section fields.
Context (x : cookie_req).
Hypothesis Hwf : length (m_commonHeaderLen (cr_req x)) = 25%nat /\ length (m_commonHeaderOffset (cr_req x)) = 25%nat.
Lemma cookie_len_set n : cookie_len (set_cookie_len n x) = wrapu 16 n.
Proof. destruct Hwf as [H1 H2]. unfold cookie_len, set_cookie_len, on_cr, put_common, store_common. apply znth_insert_same. cbn. rewrite H1. vm_compute. lia. Qed.
Lemma cookie_off_set n : cookie_off (set_cookie_off n x) = n.
Proof. destruct Hwf as [H1 H2]. apply znth_insert_same. rewrite H2. vm_compute. lia. Qed.
Lemma cookie_off_len n : cookie_off (set_cookie_len n x) = cookie_off x.
Proof. destruct Hwf as [H1 H2]. unfold cookie_off at 1, set_cookie_len, on_cr, put_common, store_common. apply znth_insert_same. rewrite H2. vm_compute. lia. Qed.
End fields.

Lemma znth_last l c : znth (l ++ [c]) (zlen (l ++ [c]) - 1) = c.
Proof. rewrite zlen_app. change (zlen [c]) with 1. rewrite Z.add_simpl_r, znth_app, Z.ltb_irrefl, Z.sub_diag by apply zlen_nonneg. reflexivity. Qed.

(** The buffer, and the Cookie header in it. *)
Record header_at (x : cookie_req) (b : list Z) (o n : Z) : Prop := {
  at_buf : buf_of x = b;
  at_off : cookie_off x = o;
  at_len : cookie_len x = n;
  at_lens : length (m_commonHeaderLen (cr_req x)) = 25%nat /\ length (m_commonHeaderOffset (cr_req x)) = 25%nat
}.

Section moves.
Context (x : cookie_req) (b : list Z) (o n : Z) (H : header_at x b o n).

Lemma at_append d : header_at (on_cr (append_buf d) x) (b ++ d) o n.
Proof. destruct H as [<- Ho Hn Hw]. constructor; [reflexivity|exact Ho|exact Hn|exact Hw]. Qed.
Lemma at_set_len m : 0 <= m < 65536 -> header_at (set_cookie_len m x) b o m.
Proof.
  intros Hm. destruct H as [Hb Ho Hn Hw]. constructor; [exact Hb|rewrite cookie_off_len; assumption|rewrite cookie_len_set by exact Hw; apply wrapu_small, Hm|].
  destruct Hw. unfold set_cookie_len, on_cr, put_common, store_common. cbn. rewrite !length_insert. split; assumption.
Qed.
Lemma at_set_off m : header_at (set_cookie_off m x) b m n.
Proof.
  destruct H as [Hb Ho Hn Hw]. constructor; [exact Hb|apply cookie_off_set; exact Hw|exact Hn|]. destruct Hw. cbn. rewrite length_insert. split; assumption.
Qed.
Lemma at_cookies f : header_at (on_cookies f x) b o n.
Proof. destruct H as [Hb Ho Hn Hw]. constructor; assumption. Qed.
Lemma at_flags s : header_at (on_cr (orContextState s) x) b o n.
Proof. destruct H as [Hb Ho Hn Hw]. constructor; assumption. Qed.
End moves.

Lemma at_copy x b o n : header_at x b o n -> 0 <= n -> header_at (copyCookieHeaderToBufEnd o n x) (b ++ bs "Cookie: " ++ bytes_at b o n ++ [13; 10]) (zlen b + 8) n.
Proof.
  intros H Hn. unfold copyCookieHeaderToBufEnd. rewrite (at_buf _ _ _ _ H), (at_off _ _ _ _ H). apply at_cookies.
  pose proof (at_append x b o n H (bs "Cookie: ")) as H1. set (y := on_cr (append_buf (bs "Cookie: ")) x) in *.
  rewrite (at_buf _ _ _ _ H1), app_assoc. replace (zlen (b ++ bs "Cookie: ")) with (zlen b + 8) by (rewrite zlen_app; reflexivity). apply (at_set_off _ _ _ _ (at_append y _ _ _ H1 _)).
Qed.

Lemma at_append_cookie x b o n i name value : header_at x b o n -> 0 < n -> znth b (zlen b - 1) <> 59 -> n + zlen name + zlen value + 2 < 65536 ->
  header_at (append_cookie i name value x) (b ++ [59] ++ name ++ [61] ++ value ++ [13; 10; 13; 10]) o (n + zlen name + zlen value + 2).
Proof.
  intros H Hn Hl Hm. pose proof (zlen_nonneg name) as Hna. pose proof (zlen_nonneg value) as Hva. unfold append_cookie. rewrite (at_len _ _ _ _ H), (at_buf _ _ _ _ H).
  rewrite (proj2 (Z.gtb_gt n 0)) by lia. rewrite (proj2 (Z.eqb_neq _ 59)) by exact Hl. cbn [andb negb].
  pose proof (at_set_len _ _ _ _ (at_append _ _ _ _ H [59]) (n + 1) ltac:(lia)) as H1. set (x1 := set_cookie_len _ _) in *.
  pose proof (at_append _ _ _ _ H1 (name ++ [61] ++ value)) as H2. set (x2 := on_cr (append_buf (name ++ [61] ++ value)) x1) in *.
  set (f := on_obj i _). pose proof (at_cookies _ _ _ _ H2 f) as H3. set (x3 := on_cookies f x2) in *. rewrite (at_len _ _ _ _ H3).
  pose proof (at_append _ _ _ _ (at_set_len _ _ _ _ H3 (n + 1 + (zlen name + zlen value + 1)) ltac:(lia)) [13; 10; 13; 10]) as H4.
  replace (n + zlen name + zlen value + 2) with (n + 1 + (zlen name + zlen value + 1)) by lia.
  replace (b ++ [59] ++ name ++ [61] ++ value ++ [13; 10; 13; 10]) with (((b ++ [59]) ++ (name ++ [61] ++ value)) ++ [13; 10; 13; 10]) by (rewrite <- !app_assoc; reflexivity).
  destruct H4 as [E1 E2 E3 E4]. constructor; assumption.
Qed.

Lemma at_parse x b o n : header_at x b o n -> header_at (parseCookies x) b o n.
Proof. intros H. unfold parseCookies. destruct (negb _); [exact H|]. destruct (isHeaderSet _ _); [apply at_cookies|]; apply at_flags, H. Qed.

(** C39: a cookie set when another header follows the Cookie header.  The copy of the header
    at the end of the buffer is closed with CR LF, and the new cookie is put behind
    these two bytes, which the header's length leaves out: the header that the request
    has then is the old text, a line end, and the new cookie without its last two bytes. *)
Theorem setCookie_splits_line x text name value
  (H : has_cookies x text)
  (Hwf : length (m_commonHeaderLen (cr_req x)) = 25%nat /\ length (m_commonHeaderOffset (cr_req x)) = 25%nat)
  (Hmore : cookie_off x + cookie_len x + 4 < zlen (buf_of x))
  (Hsome : cookie_pairs text <> []) (Hnew : List.find (same_name name) (cookie_pairs text) = None)
  (Hn : 0 ∉ name) (Hv : is_deleted value = false) (Hfit : zlen text + zlen name + zlen value + 2 < 65536) :
  let x' := (setCookie name value x).2 in
  bytes_at (buf_of x') (cookie_off x') (cookie_len x') = ztake (zlen text + zlen name + zlen value + 2) (text ++ [13; 10] ++ [59] ++ name ++ [61] ++ value).
Proof.
  cbv zeta. pose proof (zlen_nonneg name) as Hna. pose proof (zlen_nonneg value) as Hva. pose proof (getCookie_first x text name H Hn) as Hg.
  destruct (parseCookies_rep x text H) as [_ Hr]. assert (Hat : header_at x (buf_of x) (cookie_off x) (cookie_len x)) by (constructor; [reflexivity..|exact Hwf]).
  assert (Ht : zlen text = cookie_len x) by (rewrite (hc_text _ _ H); unfold bytes_at; rewrite zlen_slice; destruct H; lia).
  assert (Hpos : 0 < zlen text) by (destruct text; [contradiction Hsome; reflexivity|rewrite zlen_cons; pose proof (zlen_nonneg text); lia]).
  unfold setCookie. rewrite Z.gtb_ltb, (proj2 (Z.ltb_ge 65535 _)) by lia. unfold getCookie in *. cbn [fst snd] in Hg. rewrite Hnew in Hg.
  destruct (find_cookie _ _ _ _); [discriminate|]. rewrite Hv.
  set (y := on_cr (orContextState REBUILD_COOKIE_UPKHDR) (parseCookies x)).
  pose proof (at_flags _ _ _ _ (at_parse _ _ _ _ Hat) REBUILD_COOKIE_UPKHDR) as Hy. fold y in Hy.
  assert (Hsz : getSize (m_cookies y) <> 0).
  { change (m_cookies y) with (m_cookies (parseCookies x)). unfold getSize, zlen. rewrite <- (length_map (view (buf_of x))), (rep_list _ _ _ Hr), (jar_perm _). destruct (cookie_pairs text); [congruence|cbn; lia]. }
  unfold cookie_place. rewrite (proj2 (Z.eqb_neq _ 0)) by exact Hsz. rewrite (at_buf _ _ _ _ Hy), (at_off _ _ _ _ Hy), (at_len _ _ _ _ Hy), (proj2 (Z.gtb_gt _ _)) by lia.
  pose proof (at_copy _ _ _ _ Hy ltac:(destruct H; lia)) as Hc. set (z := copyCookieHeaderToBufEnd _ _ y) in *. rewrite <- (hc_text _ _ H) in Hc.
  destruct (insertCookieIndex (buf_of z) name (m_cookies z)) as [i c]. cbn [snd].
  match goal with |- context [append_cookie i name value (on_cookies ?f z)] => pose proof (at_cookies _ _ _ _ Hc f) as Hi end.
  apply (at_append_cookie _ _ _ _ i name value) in Hi; [|lia| |lia].
  2: { change [13; 10] with ([13] ++ [10]). rewrite !app_assoc, znth_last. discriminate. }
  rewrite (at_buf _ _ _ _ Hi), (at_off _ _ _ _ Hi), (at_len _ _ _ _ Hi). unfold bytes_at, slice. rewrite <- Ht, Z.add_simpl_l.
  rewrite <- !app_assoc. rewrite app_assoc. rewrite (zdrop_app_len (zlen (buf_of x) + 8)) by (rewrite zlen_app; reflexivity).
  replace (text ++ [13; 10] ++ [59] ++ name ++ [61] ++ value ++ [13; 10; 13; 10]) with ((text ++ [13; 10] ++ [59] ++ name ++ [61] ++ value) ++ [13; 10; 13; 10]) by (rewrite <- !app_assoc; reflexivity).
  unfold ztake. apply take_app_le. rewrite !length_app. cbn [length]. unfold zlen in *. lia.
Qed.

Lemma setCookie_splits_line_witness :
  let x' := (setCookie (bs "c") (bs "333") (cookie_request "b=1; a=2")).2 in
  bytes_at (buf_of x') (cookie_off x') (cookie_len x') = bs "b=1; a=2" ++ [13; 10] ++ bs ";c=3".
Proof.
  cbv zeta. rewrite (setCookie_splits_line (cookie_request "b=1; a=2") (bs "b=1; a=2") (bs "c") (bs "333")); [vm_compute; reflexivity| |vm_compute; split; reflexivity|vm_compute; reflexivity|vm_compute; discriminate|vm_compute; reflexivity| |vm_compute; reflexivity|vm_compute; reflexivity].
  - constructor; [vm_compute; reflexivity..|vm_compute; split; [discriminate|reflexivity]|vm_compute; discriminate|vm_compute; reflexivity|]. apply (bool_decide_unpack _). vm_compute. exact I.
  - apply (bool_decide_unpack _). vm_compute. exact I.
Defined.
