(* ===== verification/Rewrite.v ===== *)
(** * Rewrite: the data of the rewrite engine and the text it builds
    (src/src/http/rewriteengine.cpp, src/src/http/rewriterule.h,
    src/src/http/requestvars.h, src/src/util/httputil.cpp)

    Rules with their conditions, substitution formats and flags; the state of the
    engine with its three buffers, which the pointers to the URL, to the text of the
    last condition and to the last test string share; and [buildString], which
    expands a format into one of these buffers. *)

From S2P Require Import Prelude Headers Request Uri.
#[local] Open Scope Z_scope.

Definition REWRITE_BUF_SIZE : Z := MAX_BUF_SIZE.
Definition MAX_REWRITE_MATCH : Z := 10.

Definition COND_FLAG_NOCASE : Z := 1.
Definition COND_FLAG_OR : Z := 2.
Definition COND_FLAG_NOMATCH : Z := 4.

Definition RULE_FLAG_LAST : Z := 1.
Definition RULE_FLAG_NEXT : Z := 2.
Definition RULE_FLAG_CHAIN : Z := 4.
Definition RULE_FLAG_QSAPPEND : Z := 32.
Definition RULE_FLAG_NOESCAPE : Z := 64.
Definition RULE_FLAG_NOCASE : Z := 128.
Definition RULE_FLAG_NOMATCH : Z := 256.
Definition RULE_FLAG_NOREWRITE : Z := 512.
Definition RULE_FLAG_WITHQS : Z := 1024.
Definition RULE_FLAG_QSDISCARD : Z := 4096.
Definition RULE_FLAG_END : Z := 8192.
Definition RULE_FLAG_BR_ESCAPE : Z := 16384.
Definition RULE_FLAG_BNP : Z := 2 ^ 19.
Definition RULE_FLAG_BCTLS : Z := 2 ^ 20.
Definition RULE_FLAG_BNE : Z := 2 ^ 21.
Definition RULE_FLAG_UNSAFE_ALLOW3F : Z := 2 ^ 22.
Definition RULE_FLAGS_ESCAPE : Z := Z.lor (Z.lor RULE_FLAG_BR_ESCAPE RULE_FLAG_BNP) (Z.lor RULE_FLAG_BCTLS RULE_FLAG_BNE).

Inductive rule_action := RULE_ACTION_NONE | RULE_ACTION_REDIRECT | RULE_ACTION_FORBID | RULE_ACTION_GONE | RULE_ACTION_PROXY.

Inductive RWCOND_OPS :=
  COND_OP_REGEX | COND_OP_LESS | COND_OP_GREATER | COND_OP_EQ | COND_OP_GE | COND_OP_LE
| COND_OP_LESS_NUM | COND_OP_GREATER_NUM | COND_OP_EQ_NUM | COND_OP_GE_NUM | COND_OP_LE_NUM | COND_OP_NE_NUM
| COND_OP_DIR | COND_OP_FILE | COND_OP_SIZE | COND_OP_SYM | COND_OP_EXEC | COND_OP_FILE_ACC | COND_OP_URL_ACC | COND_OP_EXPR.

Definition REF_PATH_INFO : Z := 118.
Definition REF_SCRIPTFILENAME : Z := 119.
Definition REF_REQUEST_FN : Z := 120.
Definition REF_REQ_URI : Z := 121.
Definition REF_QUERY_STRING : Z := 116.
Definition REF_SCRIPT_NAME : Z := 140.
Definition REF_CUR_REWRITE_URI : Z := 141.

(** ** Rules *)

(** An item of a format, by its type. *)
Inductive RewriteSubstItem :=
| It_STRING (s : list Z)
| It_MAP (map : Z) (key : list RewriteSubstItem) (dflt : option (list RewriteSubstItem))
| It_RULE_SUBSTR (i : Z)
| It_COND_SUBSTR (i : Z)
| It_ENV (name : list Z)
| It_HTTP_HEADER (name : list Z)
| It_VAR (type : Z).
Notation RewriteSubstFormat := (list RewriteSubstItem) (only parsing).

Definition needUrlDecode (it : RewriteSubstItem) : bool :=
  match it with It_STRING _ | It_MAP _ _ _ => true | It_VAR t => t =? REF_REQ_URI | _ => false end.
Definition needsUnsafe3FEscape (it : RewriteSubstItem) : bool :=
  match it with It_RULE_SUBSTR _ | It_COND_SUBSTR _ => true | _ => false end.

(** Items of different formats are compared by type and by the value's word, which is
    a pointer, and never the same, unless the value is an index. *)
Definition item_equal (a b : RewriteSubstItem) : bool :=
  match a, b with
  | It_RULE_SUBSTR i, It_RULE_SUBSTR j => i =? j
  | It_COND_SUBSTR i, It_COND_SUBSTR j => i =? j
  | It_VAR t, It_VAR u => t =? u
  | _, _ => false
  end.
Fixpoint format_equal (a b : RewriteSubstFormat) : bool :=
  match a, b with
  | [], [] => true
  | x :: a, y :: b => item_equal x y && format_equal a b
  | _, _ => false
  end.

Record RewriteCond := Cond {
  c_opcode : RWCOND_OPS; c_flag : Z; c_pattern : list Z; c_testStringFormat : RewriteSubstFormat }.

(** A format of the environment list, and whether it is a cookie. *)
Record RewriteRule := Rule {
  r_pattern : list Z; r_conds : list RewriteCond; r_targetFormat : RewriteSubstFormat; r_mimeType : option (list Z);
  r_action : rule_action; r_flag : Z; r_statusCode : Z; r_skipRules : Z; r_noEscape : list Z;
  r_env : list (bool * RewriteSubstFormat) }.
Definition has (flag bit : Z) : bool := negb (Z.land flag bit =? 0).

(** ** What the engine asks of the request, and does to it *)

Inductive event :=
| E_setEnv (k v : list Z)
| E_addEnv (k v : list Z)
| E_reqCookie (k v : list Z)
| E_respCookie (k v : list Z) (path domain : option (list Z)) (age : Z) (secure httponly : bool)
| E_newHost (v : list Z)
| E_forcedType (v : list Z)
| E_contextState (flag : Z)
| E_status (s : Z)
| E_dropConnection
| E_priority (n : Z) (incremental : bool)
| E_saveCurURL
| E_queryString (q : list Z)
| E_location (url qs : list Z) (escape : bool)
| E_handler (host : list Z)
| E_redirectURI (uri : list Z) (noescape : bool).
Notation trace := (list event) (only parsing).

Record filestat := Stat { st_isdir : bool; st_isreg : bool; st_islnk : bool; st_xusr : bool; st_size : Z }.
(** What [checkPathInfo] finds: the file's path, the path info, the length of the script's name. *)
Record paths := Paths { p_file : list Z; p_info : list Z; p_scriptLen : Z }.

(** The request, the session and the libraries, as far as the engine asks them: what
    they answer may depend on what the engine has done.  A variable is a text of its
    own ([false]) or one put into the buffer ([true]), or fails. *)
Record world := World {
  w_exec : list Z -> bool -> list Z -> Z * list Z;
  w_expr : list Z -> trace -> Z;
  w_fileStat : list Z -> trace -> Z * filestat;
  w_var : Z -> Z -> trace -> option (bool * list Z);
  w_env : list Z -> trace -> list Z;
  w_header : list Z -> trace -> list Z;
  w_map : Z -> list Z -> Z -> option (list Z);
  w_checkPathInfo : list Z -> trace -> paths;
  w_stack : list Z;
  w_URI : list Z;
  w_OrgReqURL : list Z;
  w_QueryString : list Z;
  w_redirects : Z;
  w_matched : option (list Z);
  w_avoidRecaptcha : trace -> bool;
  w_rewriteToRecaptcha : Z -> trace -> Z;
  w_markAsBot : trace -> Z;
  w_dropped : trace -> bool;
  w_codeString : Z -> list Z;
  w_saveCurURL : trace -> Z;
  w_detectLoopRedirect : list Z -> list Z -> trace -> Z;
  w_proxyHandler : list Z -> option bool;
  w_internalRedirectURI : list Z -> bool -> trace -> Z }.

(** ** The engine *)

(** A pointer to the start of a text: one that does not change, or one of the buffers. *)
Inductive ptr := PText (s : list Z) | PBuf (i : nat).

Record RewriteEngine := Eng {
  m_pSourceURL : ptr; m_sourceURLLen : Z; m_pQS : list Z; m_ownQS : bool;
  m_pOrgSourceURL : ptr; m_orgSourceURLLen : Z; m_rewritten : Z; m_ruleMatches : Z; m_condMatches : Z;
  m_paths : option paths; m_flag : Z; m_action : rule_action; m_statusCode : Z;
  m_pDestURL : nat; m_pCondBuf : nat; m_pFreeBuf : nat;
  m_pBase : option (list Z); m_pStrip : option (list Z); m_pLastCondStr : option RewriteSubstFormat;
  m_pLastTestStr : option nat; m_lastTestStrLen : Z; m_pNoEscape : option (list Z); m_noStat : Z; m_st : filestat;
  m_ruleVec : list Z; m_condVec : list Z; m_rewriteBuf : list (list Z);
  m_trace : trace; m_cacheCtl : list Z; m_fault : bool }.
Definition set_pSourceURL x (e : RewriteEngine) : RewriteEngine :=
  Eng x (m_sourceURLLen e) (m_pQS e) (m_ownQS e) (m_pOrgSourceURL e) (m_orgSourceURLLen e) (m_rewritten e)
      (m_ruleMatches e) (m_condMatches e) (m_paths e) (m_flag e) (m_action e) (m_statusCode e) (m_pDestURL e)
      (m_pCondBuf e) (m_pFreeBuf e) (m_pBase e) (m_pStrip e) (m_pLastCondStr e) (m_pLastTestStr e)
      (m_lastTestStrLen e) (m_pNoEscape e) (m_noStat e) (m_st e) (m_ruleVec e) (m_condVec e) (m_rewriteBuf e)
      (m_trace e) (m_cacheCtl e) (m_fault e).
Definition set_sourceURLLen x (e : RewriteEngine) : RewriteEngine :=
  Eng (m_pSourceURL e) x (m_pQS e) (m_ownQS e) (m_pOrgSourceURL e) (m_orgSourceURLLen e) (m_rewritten e)
      (m_ruleMatches e) (m_condMatches e) (m_paths e) (m_flag e) (m_action e) (m_statusCode e) (m_pDestURL e)
      (m_pCondBuf e) (m_pFreeBuf e) (m_pBase e) (m_pStrip e) (m_pLastCondStr e) (m_pLastTestStr e)
      (m_lastTestStrLen e) (m_pNoEscape e) (m_noStat e) (m_st e) (m_ruleVec e) (m_condVec e) (m_rewriteBuf e)
      (m_trace e) (m_cacheCtl e) (m_fault e).
Definition set_pQS x (e : RewriteEngine) : RewriteEngine :=
  Eng (m_pSourceURL e) (m_sourceURLLen e) x (m_ownQS e) (m_pOrgSourceURL e) (m_orgSourceURLLen e) (m_rewritten
      e) (m_ruleMatches e) (m_condMatches e) (m_paths e) (m_flag e) (m_action e) (m_statusCode e) (m_pDestURL
      e) (m_pCondBuf e) (m_pFreeBuf e) (m_pBase e) (m_pStrip e) (m_pLastCondStr e) (m_pLastTestStr e)
      (m_lastTestStrLen e) (m_pNoEscape e) (m_noStat e) (m_st e) (m_ruleVec e) (m_condVec e) (m_rewriteBuf e)
      (m_trace e) (m_cacheCtl e) (m_fault e).
Definition set_ownQS x (e : RewriteEngine) : RewriteEngine :=
  Eng (m_pSourceURL e) (m_sourceURLLen e) (m_pQS e) x (m_pOrgSourceURL e) (m_orgSourceURLLen e) (m_rewritten
      e) (m_ruleMatches e) (m_condMatches e) (m_paths e) (m_flag e) (m_action e) (m_statusCode e) (m_pDestURL
      e) (m_pCondBuf e) (m_pFreeBuf e) (m_pBase e) (m_pStrip e) (m_pLastCondStr e) (m_pLastTestStr e)
      (m_lastTestStrLen e) (m_pNoEscape e) (m_noStat e) (m_st e) (m_ruleVec e) (m_condVec e) (m_rewriteBuf e)
      (m_trace e) (m_cacheCtl e) (m_fault e).
Definition set_pOrgSourceURL x (e : RewriteEngine) : RewriteEngine :=
  Eng (m_pSourceURL e) (m_sourceURLLen e) (m_pQS e) (m_ownQS e) x (m_orgSourceURLLen e) (m_rewritten e)
      (m_ruleMatches e) (m_condMatches e) (m_paths e) (m_flag e) (m_action e) (m_statusCode e) (m_pDestURL e)
      (m_pCondBuf e) (m_pFreeBuf e) (m_pBase e) (m_pStrip e) (m_pLastCondStr e) (m_pLastTestStr e)
      (m_lastTestStrLen e) (m_pNoEscape e) (m_noStat e) (m_st e) (m_ruleVec e) (m_condVec e) (m_rewriteBuf e)
      (m_trace e) (m_cacheCtl e) (m_fault e).
Definition set_orgSourceURLLen x (e : RewriteEngine) : RewriteEngine :=
  Eng (m_pSourceURL e) (m_sourceURLLen e) (m_pQS e) (m_ownQS e) (m_pOrgSourceURL e) x (m_rewritten e)
      (m_ruleMatches e) (m_condMatches e) (m_paths e) (m_flag e) (m_action e) (m_statusCode e) (m_pDestURL e)
      (m_pCondBuf e) (m_pFreeBuf e) (m_pBase e) (m_pStrip e) (m_pLastCondStr e) (m_pLastTestStr e)
      (m_lastTestStrLen e) (m_pNoEscape e) (m_noStat e) (m_st e) (m_ruleVec e) (m_condVec e) (m_rewriteBuf e)
      (m_trace e) (m_cacheCtl e) (m_fault e).
Definition set_rewritten x (e : RewriteEngine) : RewriteEngine :=
  Eng (m_pSourceURL e) (m_sourceURLLen e) (m_pQS e) (m_ownQS e) (m_pOrgSourceURL e) (m_orgSourceURLLen e) x
      (m_ruleMatches e) (m_condMatches e) (m_paths e) (m_flag e) (m_action e) (m_statusCode e) (m_pDestURL e)
      (m_pCondBuf e) (m_pFreeBuf e) (m_pBase e) (m_pStrip e) (m_pLastCondStr e) (m_pLastTestStr e)
      (m_lastTestStrLen e) (m_pNoEscape e) (m_noStat e) (m_st e) (m_ruleVec e) (m_condVec e) (m_rewriteBuf e)
      (m_trace e) (m_cacheCtl e) (m_fault e).
Definition set_ruleMatches x (e : RewriteEngine) : RewriteEngine :=
  Eng (m_pSourceURL e) (m_sourceURLLen e) (m_pQS e) (m_ownQS e) (m_pOrgSourceURL e) (m_orgSourceURLLen e)
      (m_rewritten e) x (m_condMatches e) (m_paths e) (m_flag e) (m_action e) (m_statusCode e) (m_pDestURL e)
      (m_pCondBuf e) (m_pFreeBuf e) (m_pBase e) (m_pStrip e) (m_pLastCondStr e) (m_pLastTestStr e)
      (m_lastTestStrLen e) (m_pNoEscape e) (m_noStat e) (m_st e) (m_ruleVec e) (m_condVec e) (m_rewriteBuf e)
      (m_trace e) (m_cacheCtl e) (m_fault e).
Definition set_condMatches x (e : RewriteEngine) : RewriteEngine :=
  Eng (m_pSourceURL e) (m_sourceURLLen e) (m_pQS e) (m_ownQS e) (m_pOrgSourceURL e) (m_orgSourceURLLen e)
      (m_rewritten e) (m_ruleMatches e) x (m_paths e) (m_flag e) (m_action e) (m_statusCode e) (m_pDestURL e)
      (m_pCondBuf e) (m_pFreeBuf e) (m_pBase e) (m_pStrip e) (m_pLastCondStr e) (m_pLastTestStr e)
      (m_lastTestStrLen e) (m_pNoEscape e) (m_noStat e) (m_st e) (m_ruleVec e) (m_condVec e) (m_rewriteBuf e)
      (m_trace e) (m_cacheCtl e) (m_fault e).
Definition set_paths x (e : RewriteEngine) : RewriteEngine :=
  Eng (m_pSourceURL e) (m_sourceURLLen e) (m_pQS e) (m_ownQS e) (m_pOrgSourceURL e) (m_orgSourceURLLen e)
      (m_rewritten e) (m_ruleMatches e) (m_condMatches e) x (m_flag e) (m_action e) (m_statusCode e)
      (m_pDestURL e) (m_pCondBuf e) (m_pFreeBuf e) (m_pBase e) (m_pStrip e) (m_pLastCondStr e) (m_pLastTestStr
      e) (m_lastTestStrLen e) (m_pNoEscape e) (m_noStat e) (m_st e) (m_ruleVec e) (m_condVec e) (m_rewriteBuf
      e) (m_trace e) (m_cacheCtl e) (m_fault e).
Definition set_flag x (e : RewriteEngine) : RewriteEngine :=
  Eng (m_pSourceURL e) (m_sourceURLLen e) (m_pQS e) (m_ownQS e) (m_pOrgSourceURL e) (m_orgSourceURLLen e)
      (m_rewritten e) (m_ruleMatches e) (m_condMatches e) (m_paths e) x (m_action e) (m_statusCode e)
      (m_pDestURL e) (m_pCondBuf e) (m_pFreeBuf e) (m_pBase e) (m_pStrip e) (m_pLastCondStr e) (m_pLastTestStr
      e) (m_lastTestStrLen e) (m_pNoEscape e) (m_noStat e) (m_st e) (m_ruleVec e) (m_condVec e) (m_rewriteBuf
      e) (m_trace e) (m_cacheCtl e) (m_fault e).
Definition set_action x (e : RewriteEngine) : RewriteEngine :=
  Eng (m_pSourceURL e) (m_sourceURLLen e) (m_pQS e) (m_ownQS e) (m_pOrgSourceURL e) (m_orgSourceURLLen e)
      (m_rewritten e) (m_ruleMatches e) (m_condMatches e) (m_paths e) (m_flag e) x (m_statusCode e)
      (m_pDestURL e) (m_pCondBuf e) (m_pFreeBuf e) (m_pBase e) (m_pStrip e) (m_pLastCondStr e) (m_pLastTestStr
      e) (m_lastTestStrLen e) (m_pNoEscape e) (m_noStat e) (m_st e) (m_ruleVec e) (m_condVec e) (m_rewriteBuf
      e) (m_trace e) (m_cacheCtl e) (m_fault e).
Definition set_statusCode x (e : RewriteEngine) : RewriteEngine :=
  Eng (m_pSourceURL e) (m_sourceURLLen e) (m_pQS e) (m_ownQS e) (m_pOrgSourceURL e) (m_orgSourceURLLen e)
      (m_rewritten e) (m_ruleMatches e) (m_condMatches e) (m_paths e) (m_flag e) (m_action e) x (m_pDestURL e)
      (m_pCondBuf e) (m_pFreeBuf e) (m_pBase e) (m_pStrip e) (m_pLastCondStr e) (m_pLastTestStr e)
      (m_lastTestStrLen e) (m_pNoEscape e) (m_noStat e) (m_st e) (m_ruleVec e) (m_condVec e) (m_rewriteBuf e)
      (m_trace e) (m_cacheCtl e) (m_fault e).
Definition set_pDestURL x (e : RewriteEngine) : RewriteEngine :=
  Eng (m_pSourceURL e) (m_sourceURLLen e) (m_pQS e) (m_ownQS e) (m_pOrgSourceURL e) (m_orgSourceURLLen e)
      (m_rewritten e) (m_ruleMatches e) (m_condMatches e) (m_paths e) (m_flag e) (m_action e) (m_statusCode e)
      x (m_pCondBuf e) (m_pFreeBuf e) (m_pBase e) (m_pStrip e) (m_pLastCondStr e) (m_pLastTestStr e)
      (m_lastTestStrLen e) (m_pNoEscape e) (m_noStat e) (m_st e) (m_ruleVec e) (m_condVec e) (m_rewriteBuf e)
      (m_trace e) (m_cacheCtl e) (m_fault e).
Definition set_pCondBuf x (e : RewriteEngine) : RewriteEngine :=
  Eng (m_pSourceURL e) (m_sourceURLLen e) (m_pQS e) (m_ownQS e) (m_pOrgSourceURL e) (m_orgSourceURLLen e)
      (m_rewritten e) (m_ruleMatches e) (m_condMatches e) (m_paths e) (m_flag e) (m_action e) (m_statusCode e)
      (m_pDestURL e) x (m_pFreeBuf e) (m_pBase e) (m_pStrip e) (m_pLastCondStr e) (m_pLastTestStr e)
      (m_lastTestStrLen e) (m_pNoEscape e) (m_noStat e) (m_st e) (m_ruleVec e) (m_condVec e) (m_rewriteBuf e)
      (m_trace e) (m_cacheCtl e) (m_fault e).
Definition set_pFreeBuf x (e : RewriteEngine) : RewriteEngine :=
  Eng (m_pSourceURL e) (m_sourceURLLen e) (m_pQS e) (m_ownQS e) (m_pOrgSourceURL e) (m_orgSourceURLLen e)
      (m_rewritten e) (m_ruleMatches e) (m_condMatches e) (m_paths e) (m_flag e) (m_action e) (m_statusCode e)
      (m_pDestURL e) (m_pCondBuf e) x (m_pBase e) (m_pStrip e) (m_pLastCondStr e) (m_pLastTestStr e)
      (m_lastTestStrLen e) (m_pNoEscape e) (m_noStat e) (m_st e) (m_ruleVec e) (m_condVec e) (m_rewriteBuf e)
      (m_trace e) (m_cacheCtl e) (m_fault e).
Definition set_pBase x (e : RewriteEngine) : RewriteEngine :=
  Eng (m_pSourceURL e) (m_sourceURLLen e) (m_pQS e) (m_ownQS e) (m_pOrgSourceURL e) (m_orgSourceURLLen e)
      (m_rewritten e) (m_ruleMatches e) (m_condMatches e) (m_paths e) (m_flag e) (m_action e) (m_statusCode e)
      (m_pDestURL e) (m_pCondBuf e) (m_pFreeBuf e) x (m_pStrip e) (m_pLastCondStr e) (m_pLastTestStr e)
      (m_lastTestStrLen e) (m_pNoEscape e) (m_noStat e) (m_st e) (m_ruleVec e) (m_condVec e) (m_rewriteBuf e)
      (m_trace e) (m_cacheCtl e) (m_fault e).
Definition set_pStrip x (e : RewriteEngine) : RewriteEngine :=
  Eng (m_pSourceURL e) (m_sourceURLLen e) (m_pQS e) (m_ownQS e) (m_pOrgSourceURL e) (m_orgSourceURLLen e)
      (m_rewritten e) (m_ruleMatches e) (m_condMatches e) (m_paths e) (m_flag e) (m_action e) (m_statusCode e)
      (m_pDestURL e) (m_pCondBuf e) (m_pFreeBuf e) (m_pBase e) x (m_pLastCondStr e) (m_pLastTestStr e)
      (m_lastTestStrLen e) (m_pNoEscape e) (m_noStat e) (m_st e) (m_ruleVec e) (m_condVec e) (m_rewriteBuf e)
      (m_trace e) (m_cacheCtl e) (m_fault e).
Definition set_pLastCondStr x (e : RewriteEngine) : RewriteEngine :=
  Eng (m_pSourceURL e) (m_sourceURLLen e) (m_pQS e) (m_ownQS e) (m_pOrgSourceURL e) (m_orgSourceURLLen e)
      (m_rewritten e) (m_ruleMatches e) (m_condMatches e) (m_paths e) (m_flag e) (m_action e) (m_statusCode e)
      (m_pDestURL e) (m_pCondBuf e) (m_pFreeBuf e) (m_pBase e) (m_pStrip e) x (m_pLastTestStr e)
      (m_lastTestStrLen e) (m_pNoEscape e) (m_noStat e) (m_st e) (m_ruleVec e) (m_condVec e) (m_rewriteBuf e)
      (m_trace e) (m_cacheCtl e) (m_fault e).
Definition set_pLastTestStr x (e : RewriteEngine) : RewriteEngine :=
  Eng (m_pSourceURL e) (m_sourceURLLen e) (m_pQS e) (m_ownQS e) (m_pOrgSourceURL e) (m_orgSourceURLLen e)
      (m_rewritten e) (m_ruleMatches e) (m_condMatches e) (m_paths e) (m_flag e) (m_action e) (m_statusCode e)
      (m_pDestURL e) (m_pCondBuf e) (m_pFreeBuf e) (m_pBase e) (m_pStrip e) (m_pLastCondStr e) x
      (m_lastTestStrLen e) (m_pNoEscape e) (m_noStat e) (m_st e) (m_ruleVec e) (m_condVec e) (m_rewriteBuf e)
      (m_trace e) (m_cacheCtl e) (m_fault e).
Definition set_lastTestStrLen x (e : RewriteEngine) : RewriteEngine :=
  Eng (m_pSourceURL e) (m_sourceURLLen e) (m_pQS e) (m_ownQS e) (m_pOrgSourceURL e) (m_orgSourceURLLen e)
      (m_rewritten e) (m_ruleMatches e) (m_condMatches e) (m_paths e) (m_flag e) (m_action e) (m_statusCode e)
      (m_pDestURL e) (m_pCondBuf e) (m_pFreeBuf e) (m_pBase e) (m_pStrip e) (m_pLastCondStr e) (m_pLastTestStr
      e) x (m_pNoEscape e) (m_noStat e) (m_st e) (m_ruleVec e) (m_condVec e) (m_rewriteBuf e) (m_trace e)
      (m_cacheCtl e) (m_fault e).
Definition set_pNoEscape x (e : RewriteEngine) : RewriteEngine :=
  Eng (m_pSourceURL e) (m_sourceURLLen e) (m_pQS e) (m_ownQS e) (m_pOrgSourceURL e) (m_orgSourceURLLen e)
      (m_rewritten e) (m_ruleMatches e) (m_condMatches e) (m_paths e) (m_flag e) (m_action e) (m_statusCode e)
      (m_pDestURL e) (m_pCondBuf e) (m_pFreeBuf e) (m_pBase e) (m_pStrip e) (m_pLastCondStr e) (m_pLastTestStr
      e) (m_lastTestStrLen e) x (m_noStat e) (m_st e) (m_ruleVec e) (m_condVec e) (m_rewriteBuf e) (m_trace e)
      (m_cacheCtl e) (m_fault e).
Definition set_noStat x (e : RewriteEngine) : RewriteEngine :=
  Eng (m_pSourceURL e) (m_sourceURLLen e) (m_pQS e) (m_ownQS e) (m_pOrgSourceURL e) (m_orgSourceURLLen e)
      (m_rewritten e) (m_ruleMatches e) (m_condMatches e) (m_paths e) (m_flag e) (m_action e) (m_statusCode e)
      (m_pDestURL e) (m_pCondBuf e) (m_pFreeBuf e) (m_pBase e) (m_pStrip e) (m_pLastCondStr e) (m_pLastTestStr
      e) (m_lastTestStrLen e) (m_pNoEscape e) x (m_st e) (m_ruleVec e) (m_condVec e) (m_rewriteBuf e) (m_trace
      e) (m_cacheCtl e) (m_fault e).
Definition set_st x (e : RewriteEngine) : RewriteEngine :=
  Eng (m_pSourceURL e) (m_sourceURLLen e) (m_pQS e) (m_ownQS e) (m_pOrgSourceURL e) (m_orgSourceURLLen e)
      (m_rewritten e) (m_ruleMatches e) (m_condMatches e) (m_paths e) (m_flag e) (m_action e) (m_statusCode e)
      (m_pDestURL e) (m_pCondBuf e) (m_pFreeBuf e) (m_pBase e) (m_pStrip e) (m_pLastCondStr e) (m_pLastTestStr
      e) (m_lastTestStrLen e) (m_pNoEscape e) (m_noStat e) x (m_ruleVec e) (m_condVec e) (m_rewriteBuf e)
      (m_trace e) (m_cacheCtl e) (m_fault e).
Definition set_ruleVec x (e : RewriteEngine) : RewriteEngine :=
  Eng (m_pSourceURL e) (m_sourceURLLen e) (m_pQS e) (m_ownQS e) (m_pOrgSourceURL e) (m_orgSourceURLLen e)
      (m_rewritten e) (m_ruleMatches e) (m_condMatches e) (m_paths e) (m_flag e) (m_action e) (m_statusCode e)
      (m_pDestURL e) (m_pCondBuf e) (m_pFreeBuf e) (m_pBase e) (m_pStrip e) (m_pLastCondStr e) (m_pLastTestStr
      e) (m_lastTestStrLen e) (m_pNoEscape e) (m_noStat e) (m_st e) x (m_condVec e) (m_rewriteBuf e) (m_trace
      e) (m_cacheCtl e) (m_fault e).
Definition set_condVec x (e : RewriteEngine) : RewriteEngine :=
  Eng (m_pSourceURL e) (m_sourceURLLen e) (m_pQS e) (m_ownQS e) (m_pOrgSourceURL e) (m_orgSourceURLLen e)
      (m_rewritten e) (m_ruleMatches e) (m_condMatches e) (m_paths e) (m_flag e) (m_action e) (m_statusCode e)
      (m_pDestURL e) (m_pCondBuf e) (m_pFreeBuf e) (m_pBase e) (m_pStrip e) (m_pLastCondStr e) (m_pLastTestStr
      e) (m_lastTestStrLen e) (m_pNoEscape e) (m_noStat e) (m_st e) (m_ruleVec e) x (m_rewriteBuf e) (m_trace
      e) (m_cacheCtl e) (m_fault e).
Definition set_rewriteBuf x (e : RewriteEngine) : RewriteEngine :=
  Eng (m_pSourceURL e) (m_sourceURLLen e) (m_pQS e) (m_ownQS e) (m_pOrgSourceURL e) (m_orgSourceURLLen e)
      (m_rewritten e) (m_ruleMatches e) (m_condMatches e) (m_paths e) (m_flag e) (m_action e) (m_statusCode e)
      (m_pDestURL e) (m_pCondBuf e) (m_pFreeBuf e) (m_pBase e) (m_pStrip e) (m_pLastCondStr e) (m_pLastTestStr
      e) (m_lastTestStrLen e) (m_pNoEscape e) (m_noStat e) (m_st e) (m_ruleVec e) (m_condVec e) x (m_trace e)
      (m_cacheCtl e) (m_fault e).
Definition set_trace x (e : RewriteEngine) : RewriteEngine :=
  Eng (m_pSourceURL e) (m_sourceURLLen e) (m_pQS e) (m_ownQS e) (m_pOrgSourceURL e) (m_orgSourceURLLen e)
      (m_rewritten e) (m_ruleMatches e) (m_condMatches e) (m_paths e) (m_flag e) (m_action e) (m_statusCode e)
      (m_pDestURL e) (m_pCondBuf e) (m_pFreeBuf e) (m_pBase e) (m_pStrip e) (m_pLastCondStr e) (m_pLastTestStr
      e) (m_lastTestStrLen e) (m_pNoEscape e) (m_noStat e) (m_st e) (m_ruleVec e) (m_condVec e) (m_rewriteBuf
      e) x (m_cacheCtl e) (m_fault e).
Definition set_cacheCtl x (e : RewriteEngine) : RewriteEngine :=
  Eng (m_pSourceURL e) (m_sourceURLLen e) (m_pQS e) (m_ownQS e) (m_pOrgSourceURL e) (m_orgSourceURLLen e)
      (m_rewritten e) (m_ruleMatches e) (m_condMatches e) (m_paths e) (m_flag e) (m_action e) (m_statusCode e)
      (m_pDestURL e) (m_pCondBuf e) (m_pFreeBuf e) (m_pBase e) (m_pStrip e) (m_pLastCondStr e) (m_pLastTestStr
      e) (m_lastTestStrLen e) (m_pNoEscape e) (m_noStat e) (m_st e) (m_ruleVec e) (m_condVec e) (m_rewriteBuf
      e) (m_trace e) x (m_fault e).
Definition set_fault x (e : RewriteEngine) : RewriteEngine :=
  Eng (m_pSourceURL e) (m_sourceURLLen e) (m_pQS e) (m_ownQS e) (m_pOrgSourceURL e) (m_orgSourceURLLen e)
      (m_rewritten e) (m_ruleMatches e) (m_condMatches e) (m_paths e) (m_flag e) (m_action e) (m_statusCode e)
      (m_pDestURL e) (m_pCondBuf e) (m_pFreeBuf e) (m_pBase e) (m_pStrip e) (m_pLastCondStr e) (m_pLastTestStr
      e) (m_lastTestStrLen e) (m_pNoEscape e) (m_noStat e) (m_st e) (m_ruleVec e) (m_condVec e) (m_rewriteBuf
      e) (m_trace e) (m_cacheCtl e) x.

(** ** Escaping *)

Definition isalnum (c : Z) : bool := isdigit c || ((65 <=? c) && (c <=? 90)) || ((97 <=? c) && (c <=? 122)).
Definition iscntrl (c : Z) : bool := ((0 <=? c) && (c <? 32)) || (c =? 127).
Definition hex_upper (n : Z) : Z := if n <? 10 then 48 + n else 55 + n.
(** [strchr(no_escape, ch)]: a NUL is found, at the text's end. *)
Definition spared (no_escape : option (list Z)) (ch : Z) : bool :=
  match no_escape with None => false | Some l => (ch =? 0) || existsb (Z.eqb ch) l end.

(** [room] bytes before the buffer's end. *)
Fixpoint escape_loop (flags : Z) (no_escape : option (list Z)) (uri : list Z) (room : Z) : list Z :=
  match uri with
  | [] => []
  | ch :: uri =>
      if room <=? 0 then []
      else if isalnum ch || (ch =? 95) || spared no_escape ch then ch :: escape_loop flags no_escape uri (room - 1)
      else if (ch =? 32) && negb (has flags RULE_FLAG_BNP) then 43 :: escape_loop flags no_escape uri (room - 1)
      else if negb (has flags RULE_FLAG_BCTLS) || iscntrl ch then
        if room <? 3 then []
        else [37; hex_upper (Z.shiftr ch 4); hex_upper (Z.land ch 15)] ++ escape_loop flags no_escape uri (room - 3)
      else ch :: escape_loop flags no_escape uri (room - 1)
  end.
Definition escape_uri (uri : list Z) (bufLen flags : Z) (no_escape : option (list Z)) : list Z :=
  if bufLen <=? 1 then [] else escape_loop flags no_escape uri (bufLen - 1).

(** The text with each question mark escaped, if it fits into [room] bytes. *)
Definition escape_3f (l : list Z) : list Z := flat_map (fun c => if c =? 63 then [37; 51; 70] else [c]) l.
Definition escape_unsafe_3f (l : list Z) (room : Z) : option (list Z) :=
  if existsb (Z.eqb 63) l then if zlen (escape_3f l) >? room then None else Some (escape_3f l) else Some l.

(** [HttpUtil::unescape] of a text with a length: what is written, and whether the
    text has no bad escape; [prev] is the byte in front of the next one. *)
Fixpoint unescape_from (prev : Z) (src : list Z) : list Z * bool :=
  match src with
  | [] => ([], true)
  | c :: r =>
      let plain (_ : unit) :=
        let '(d, ok) := unescape_from c r in
        if (c =? 47) && (hd 0 r =? 47) then (if prev =? 58 then c :: d else d, ok) else (c :: d, ok) in
      if c =? 37 then
        match r with
        | x1 :: x2 :: r' =>
            if isxdigit x1 && isxdigit x2 then let '(d, ok) := unescape_from x2 r' in (unhex x1 x2 :: d, ok)
            else ([], false)
        | _ => plain tt
        end
      else plain tt
  end.
Definition unescape (src : list Z) : list Z * bool := unescape_from 0 src.

(** ** The buffers *)

Definition buffer (i : nat) (e : RewriteEngine) : list Z := nth i (m_rewriteBuf e) [].
Definition put_buffer (i : nat) (off : Z) (d : list Z) (e : RewriteEngine) : RewriteEngine :=
  set_rewriteBuf (<[i := store (buffer i e) off d]> (m_rewriteBuf e)) e.
Definition deref (p : ptr) (e : RewriteEngine) : list Z := match p with PText s => s | PBuf i => buffer i e end.
Definition cstr (l : list Z) : list Z := match memchr 0 l with Some n => ztake n l | None => l end.
Definition source (e : RewriteEngine) : list Z := ztake (m_sourceURLLen e) (deref (m_pSourceURL e) e).
Definition emit (v : event) (e : RewriteEngine) : RewriteEngine := set_trace (m_trace e ++ [v]) e.

(** The [i]-th group of a match, of the text that was matched. *)
Definition group (text vec : list Z) (i : Z) : list Z :=
  let a := znth vec (2 * i) in let b := znth vec (2 * i + 1) in slice a b text.
Definition getSubstr (text vec : list Z) (matches i bufLen flags : Z) (no_escape : option (list Z)) : bool * list Z :=
  if i <? matches then
    if flags =? 0 then (false, group text vec i) else (true, escape_uri (group text vec i) bufLen flags no_escape)
  else (false, []).

(** Where a text is built: one of the buffers, or an array of its own. *)
Inductive dest := DBuf (i : nat) | DLocal (b : list Z).
Record bstate := Bs { bs_eng : RewriteEngine; bs_dst : dest; bs_off : Z; bs_esc : bool }.
Definition bs_text (s : bstate) : list Z := match bs_dst s with DBuf i => buffer i (bs_eng s) | DLocal b => b end.
Definition bs_put (off : Z) (d : list Z) (s : bstate) : bstate :=
  match bs_dst s with
  | DBuf i => Bs (put_buffer i off d (bs_eng s)) (bs_dst s) (bs_off s) (bs_esc s)
  | DLocal b => Bs (bs_eng s) (DLocal (store b off d)) (bs_off s) (bs_esc s)
  end.
Definition bs_at (off : Z) (s : bstate) : bstate := Bs (bs_eng s) (bs_dst s) off (bs_esc s).
Definition bs_no_esc (s : bstate) : bstate := Bs (bs_eng s) (bs_dst s) (bs_off s) false.

(** [appendSubst], of a value: what is put at the place of the next text, from [bs_off]
    up to [bufEnd]; [false] when it fails. *)
Definition escape_value (it : RewriteSubstItem) (bufEnd : Z) (v : list Z) (s : bstate) : bool * bstate :=
  let off := bs_off s in
  if negb (has (m_flag (bs_eng s)) RULE_FLAG_UNSAFE_ALLOW3F) && needsUnsafe3FEscape it then
    match escape_unsafe_3f v (bufEnd - off) with
    | None => (false, s)
    | Some w => (true, bs_at (off + zlen w) (bs_put off w s))
    end
  else
    let '(v1, v2, s) := match memchr 63 v with Some n => (ztake n v, zdrop n v, bs_no_esc s) | None => (v, [], s) end in
    if (zlen v1 >? 0) && needUrlDecode it then
      let '(d, ok) := unescape v1 in
      if ok then (true, bs_at (off + zlen d + zlen v2) (bs_put off (d ++ v2) s)) else (false, bs_put off d s)
    else (true, bs_at (off + zlen v) s).

Definition append_value (it : RewriteSubstItem) (nodup : bool) (bufEnd : Z) (val : option (bool * list Z)) (s : bstate) : bool * bstate :=
  match val with
  | None => (false, s)
  | Some (inplace, v) =>
      let s := if inplace : bool then bs_put (bs_off s) (ztake (bufEnd - bs_off s) v) s else s in
      if zlen v <=? 0 then (true, s)
      else if bufEnd <=? bs_off s + zlen v then (true, s)
      else
        let dup := (hd 0 v =? 47) && nodup && (znth (bs_text s) (bs_off s - 1) =? 47) in
        let '(v, s) :=
          if negb inplace then let s := if dup then bs_at (bs_off s - 1) s else s in (v, bs_put (bs_off s) v s)
          else if dup then (tl v, bs_put (bs_off s) (tl v) s) else (v, s) in
        if bs_esc s && (zlen v >? 0) then escape_value it bufEnd v s else (true, bs_at (bs_off s + zlen v) s)
  end.

(** ** Formats *)

Section build.
Context (W : world).

(** The members that [checkPathInfo] fills, once for each source. *)
Definition path_info (e : RewriteEngine) : paths * RewriteEngine :=
  match m_paths e with
  | Some p => (p, e)
  | None => let p := w_checkPathInfo W (source e) (m_trace e) in (p, set_paths (Some p) e)
  end.

(** A variable of the request, for at most [bufLen] bytes. *)
Definition server_var (t bufLen : Z) (e : RewriteEngine) : option (bool * list Z) * RewriteEngine :=
  if (t =? REF_REQUEST_FN) || (t =? REF_SCRIPTFILENAME) then let '(p, e) := path_info e in (Some (false, p_file p), e)
  else if t =? REF_PATH_INFO then let '(p, e) := path_info e in (Some (false, p_info p), e)
  else if t =? REF_SCRIPT_NAME then let '(p, e) := path_info e in (Some (false, ztake (p_scriptLen p) (w_OrgReqURL W)), e)
  else if t =? REF_REQ_URI then
    if w_redirects W =? 0 then (Some (false, w_OrgReqURL W), e)
    else match m_pStrip e with Some s => (Some (true, s ++ source e), e) | None => (Some (false, source e), e) end
  else if t =? REF_CUR_REWRITE_URI then (Some (false, source e), e)
  else if t =? REF_QUERY_STRING then (Some (false, m_pQS e), e)
  else (w_var W t bufLen (m_trace e), e).

Definition flags_escape (e : RewriteEngine) : Z := Z.land (m_flag e) RULE_FLAGS_ESCAPE.

(** [getSubstValue], and in it [buildString] for the key and the default of a map,
    which are not escaped. *)
Fixpoint getSubstValue (it : RewriteSubstItem) (bufLen : Z) (e : RewriteEngine) {struct it} : option (bool * list Z) * RewriteEngine :=
  let build :=
    fix build (l : RewriteSubstFormat) (bufEnd : Z) (s : bstate) {struct l} : bool * bstate :=
      match l with
      | [] => (true, s)
      | it :: l =>
          let '(v, e) := getSubstValue it (bufEnd - bs_off s) (bs_eng s) in
          let '(ok, s) := append_value it false bufEnd v (Bs e (bs_dst s) (bs_off s) (bs_esc s)) in
          if ok then build l bufEnd s else (false, s)
      end in
  match it with
  | It_STRING s => (Some (false, s), e)
  | It_MAP map key dflt =>
      let '(ok, s) := build key 1023 (Bs e (DLocal []) 0 false) in
      let e := bs_eng s in
      if negb ok then (Some (true, []), e)
      else
        match w_map W map (ztake (bs_off s) (bs_text s)) bufLen with
        | Some v => (Some (true, v), e)
        | None =>
            match dflt with
            | None => (Some (true, []), e)
            | Some f =>
                if bufLen <=? 0 then (Some (true, []), e)
                else
                  let '(ok, s) := build f (bufLen - 1) (Bs e (DLocal []) 0 false) in
                  (Some (true, if ok then ztake (bs_off s) (bs_text s) else []), bs_eng s)
            end
        end
  | It_RULE_SUBSTR i => (Some (getSubstr (deref (m_pSourceURL e) e) (m_ruleVec e) (m_ruleMatches e) i bufLen (flags_escape e) (m_pNoEscape e)), e)
  | It_COND_SUBSTR i => (Some (getSubstr (buffer (m_pCondBuf e) e) (m_condVec e) (m_condMatches e) i bufLen (flags_escape e) (m_pNoEscape e)), e)
  | It_ENV n => (Some (false, w_env W n (m_trace e)), e)
  | It_HTTP_HEADER n => (Some (false, w_header W n (m_trace e)), e)
  | It_VAR t => server_var t bufLen e
  end.

(** The loop of [buildString]; slashes are merged from the second text on. *)
Fixpoint build_items (l : RewriteSubstFormat) (noDupSlash : bool) (bufEnd : Z) (s : bstate) : bool * bstate :=
  match l with
  | [] => (true, s)
  | it :: l =>
      let '(v, e) := getSubstValue it (bufEnd - bs_off s) (bs_eng s) in
      let '(ok, s) := append_value it (noDupSlash && (bs_off s >? 0)) bufEnd v (Bs e (bs_dst s) (bs_off s) (bs_esc s)) in
      if ok then build_items l noDupSlash bufEnd s else (false, s)
  end.

(** [buildString] into a place of [len] bytes: the length of the text, if it is built;
    the code returns a null pointer otherwise. *)
Definition buildString (f : RewriteSubstFormat) (dst : dest) (len : Z) (esc nodup : bool) (e : RewriteEngine) : option Z * bstate :=
  if len <=? 0 then (None, Bs e dst 0 esc)
  else
    let '(ok, s) := build_items f nodup (len - 1) (Bs e dst 0 esc) in
    if ok then (Some (bs_off s), bs_put (bs_off s) [0] s) else (None, s).
End build.
