(* ===== verification/RewriteRun.v ===== *)
(** * RewriteRun: the rewrite engine running a set of rules
    (src/src/http/rewriteengine.cpp)

    Conditions with their cached test string, rules, the environment and the cookies
    they set, the query string, the order in which rules run (chains, skips, restarts,
    rules inherited from parent contexts) and what becomes of the result. *)

From S2P Require Import Prelude Headers Request Uri Rewrite.
#[local] Open Scope Z_scope.

Definition SC_301 : Z := 15.
Definition SC_302 : Z := 16.
Definition SC_403 : Z := 26.
Definition URL_MODIFIED : Z := -3.
Definition URL_HANDLER_WEBSOCKET : Z := -4.
Definition REWRITE_REDIR : Z := 64.
Definition SKIP_REWRITE : Z := 128.
Definition REWRITE_QSD : Z := 512.

(** ** The C library *)

(** The sign of [strcmp], and of [strcasecmp] on lower case texts. *)
Fixpoint strcmp (a b : list Z) : Z :=
  match a, b with
  | [], [] => 0
  | x :: _, [] => x
  | [], y :: _ => - y
  | x :: a, y :: b => if x =? y then strcmp a b else x - y
  end.
Definition strcasecmp (a b : list Z) : Z := strcmp (map tolower a) (map tolower b).

Definition strtoll (s : list Z) : Z :=
  let s := (span isspace s).2 in
  let '(neg, s) := match s with 45 :: s => (true, s) | 43 :: s => (false, s) | _ => (false, s) end in
  let v := dec_val (span isdigit s).1 in
  if neg : bool then Z.max (- (INT64_MAX + 1)) (- v) else Z.min INT64_MAX v.

(** The tokens of [strtok_r] with the delimiter [:]. *)
Fixpoint tokens (cur : list Z) (s : list Z) : list (list Z) :=
  match s with
  | [] => match cur with [] => [] | _ => [cur] end
  | c :: s => if c =? 58 then match cur with [] => tokens [] s | _ => cur :: tokens [] s end else tokens (cur ++ [c]) s
  end.

Definition strTrim (l : list Z) : list Z := rev (span isspace (rev (span isspace l).2)).2.
Definition starts_nocase (s : string) (l : list Z) : bool := strncasecmp (length (bs s)) (bs s) l =? 0.
Definition is_nocase (s : string) (l : list Z) : bool := strcasecmp l (bs s) =? 0.

(** ** Conditions *)

Section conditions.
Context (W : world).

(** The test string's buffer, or none when it cannot be built: the last one again when
    its format is the same. *)
Definition test_string (c : RewriteCond) (e : RewriteEngine) : option nat * RewriteEngine :=
  if match m_pLastCondStr e with Some f => format_equal f (c_testStringFormat c) | None => false end
  then (m_pLastTestStr e, e)
  else
    let free := m_pFreeBuf e in
    let '(len, s) := buildString W (c_testStringFormat c) (DBuf free) (REWRITE_BUF_SIZE - 1) true true e in
    let p := match len with Some _ => Some free | None => None end in
    (p, set_noStat 1 (set_lastTestStrLen (match len with Some n => n | None => REWRITE_BUF_SIZE - 1 end)
          (set_pLastTestStr p (set_pLastCondStr (Some (c_testStringFormat c)) (bs_eng s))))).

Definition compare (op : RWCOND_OPS) (ret : Z) : bool :=
  match op with
  | COND_OP_LESS | COND_OP_LESS_NUM => ret >=? 0
  | COND_OP_GREATER | COND_OP_GREATER_NUM => ret <=? 0
  | COND_OP_EQ | COND_OP_EQ_NUM => negb (ret =? 0)
  | COND_OP_LE | COND_OP_LE_NUM => ret >? 0
  | COND_OP_GE | COND_OP_GE_NUM => ret <? 0
  | COND_OP_NE_NUM => ret =? 0
  | _ => false
  end.

Definition file_test (op : RWCOND_OPS) (st : filestat) : bool :=
  match op with
  | COND_OP_DIR => negb (st_isdir st)
  | COND_OP_FILE | COND_OP_FILE_ACC => negb (st_isreg st)
  | COND_OP_SIZE => negb (st_isreg st) || (st_size st =? 0)
  | COND_OP_SYM => negb (st_islnk st)
  | COND_OP_EXEC => negb (st_isreg st && st_xusr st)
  | _ => true
  end.

(** Whether the test fails, and the matches of a pattern. *)
Definition cond_test (c : RewriteCond) (pTest : nat) (e : RewriteEngine) : bool * Z * list Z * RewriteEngine :=
  let text := buffer pTest e in
  match c_opcode c with
  | COND_OP_REGEX =>
      let '(ret, ov) := w_exec W (c_pattern c) (has (c_flag c) COND_FLAG_NOCASE) (ztake (m_lastTestStrLen e) text) in
      (ret <? 0, if ret =? 0 then 10 else ret, ov, e)
  | COND_OP_EXPR => (w_expr W (c_pattern c) (m_trace e) <=? 0, 0, [], e)
  | (COND_OP_LESS | COND_OP_GREATER | COND_OP_EQ | COND_OP_GE | COND_OP_LE) as op =>
      let cmp := if has (c_flag c) COND_FLAG_NOCASE then strcasecmp else strcmp in
      (compare op (cmp (cstr text) (cstr (c_pattern c))), 0, [], e)
  | (COND_OP_LESS_NUM | COND_OP_GREATER_NUM | COND_OP_EQ_NUM | COND_OP_GE_NUM | COND_OP_LE_NUM | COND_OP_NE_NUM) as op =>
      (compare op (wraps 64 (strtoll (cstr text) - strtoll (cstr (c_pattern c)))), 0, [], e)
  | COND_OP_URL_ACC => (false, 0, [], e)
  | op =>
      let e := if m_noStat e =? 1 then let '(r, st) := w_fileStat W (cstr text) (m_trace e) in
                                       let e := set_noStat r e in if r =? 0 then set_st st e else e
               else e in
      (if m_noStat e =? 0 then file_test op (m_st e) else true, 0, [], e)
  end.

(** [processCond]: whether the condition fails. *)
Definition processCond (c : RewriteCond) (e : RewriteEngine) : bool * RewriteEngine :=
  let '(p, e) := test_string c e in
  match p with
  | None => (true, e)
  | Some pTest =>
      let '(bad, condMatches, ov, e) := cond_test c pTest e in
      if has (c_flag c) COND_FLAG_NOMATCH then (negb bad, e)
      else if condMatches >? 0 then
        let e := if Nat.eqb pTest (m_pFreeBuf e) then set_pCondBuf pTest (set_pFreeBuf (m_pCondBuf e) e) else e in
        (bad, set_condVec ov (set_condMatches condMatches e))
      else (bad, e)
  end.

(** The loop over a rule's conditions; after one that holds, the others up to the end
    of its group are left out. *)
Fixpoint processConds (l : list RewriteCond) (skip : bool) (e : RewriteEngine) : bool * RewriteEngine :=
  match l with
  | [] => (true, e)
  | c :: l =>
      let next_or := has (c_flag c) COND_FLAG_OR in
      if skip then processConds l next_or e
      else
        let '(bad, e) := processCond c e in
        if bad then if next_or then processConds l false e else (false, e) else processConds l next_or e
  end.
End conditions.

(** ** Cookies and the environment *)

(** [setCookie] of the engine; a missing name or value is passed to [strlen]. *)
Definition setCookie (text : list Z) (e : RewriteEngine) : RewriteEngine :=
  let t := tokens [] (cstr text) in
  let flag (names : string) (p : option (list Z)) :=
    match p with None => false | Some p => (hd 0 p =? 49) || starts_nocase "true" p || starts_nocase names p end in
  match nth_error t 0, nth_error t 1 with
  | Some pName, Some pVal =>
      let pPath := match nth_error t 4 with Some p => if hd 0 p =? 47 then Some p else None | None => None end in
      let age := match nth_error t 3 with Some p => wraps 32 (strtoll p) | None => 0 end in
      emit (E_respCookie pName pVal pPath (nth_error t 2) age (flag "secure"%string (nth_error t 5)) (flag "HttpOnly"%string (nth_error t 6)))
        (emit (E_reqCookie pName pVal) e)
  | _, _ => set_fault true e
  end.

(** What an environment text sets: the key, the key as a C string, and the value. *)
Definition env_parts (text : list Z) (len : Z) : list Z * list Z * list Z :=
  match memchr 58 (cstr text) with
  | Some k => let key := strTrim (ztake k text) in (key, cstr key, strTrim (slice (k + 1) len text))
  | None => (strTrim (ztake len text), cstr (span isspace (ztake len text)).2, [])
  end.

Section run.
Context (W : world).

Definition setEnv (k v : list Z) : RewriteEngine -> RewriteEngine := emit (E_setEnv k v).

(** The directives of the cache among the variables: what is set besides, whether the
    variable itself is set, and whether the cache's key is changed. *)
Definition cache_env (sub v : list Z) (e : RewriteEngine) : bool * bool * RewriteEngine :=
  if is_nocase "control" sub || is_nocase "ctrl" sub then
    if starts_nocase "vary=" (cstr v) then (true, false, setEnv (bs "LSCACHE_VARY_VALUE") (zdrop 5 v) e)
    else if zlen v >? 0 then (false, false, set_cacheCtl (match m_cacheCtl e with [] => v | l => l ++ [44] ++ v end) e)
    else (true, false, e)
  else if is_nocase "Vary" sub then (true, false, setEnv (bs "LSCACHE_VARY_COOKIE") v e)
  else if is_nocase "Key-Mod" sub then (false, true, setEnv (bs "cache-key-mod") v e)
  else (true, false, e).

Definition set_variable (proxy : bool) (key keyc v : list Z) (e : RewriteEngine) : bool * RewriteEngine :=
  if proxy && is_nocase "Proxy-Host" keyc then (false, emit (E_newHost v) e)
  else
    let '(needSet, keymod, e) :=
      if starts_nocase "cache-" keyc then cache_env (zdrop 6 keyc) v e
      else if is_nocase "modsecurity" keyc then (false, false, e)
      else if is_nocase "http-prio" keyc then
        (true, false, if (hd 0 v <? 48) || (hd 0 v >? 55) then e else emit (E_priority (hd 0 v - 48) ((zlen v >? 1) && (znth v 1 =? 105))) e)
      else (true, false, e) in
    (keymod, if needSet : bool then setEnv key v e else e).

(** One variable; whether the list is left, and whether the cache's key is changed. *)
Definition expand_one (proxy : bool) (key keyc v : list Z) (e : RewriteEngine) : bool * bool * RewriteEngine :=
  let go e := let '(k, e) := set_variable proxy key keyc v e in (false, k, e) in
  if is_nocase "verifycaptcha" keyc then
    if w_avoidRecaptcha W (m_trace e) then (false, false, e)
    else
      let mode := if is_nocase "deny" (cstr v) then 1 else if is_nocase "drop" (cstr v) then 2 else 0 in
      let ret := w_rewriteToRecaptcha W mode (m_trace e) in
      if negb (ret =? 0) then
        (true, false, if ret =? SC_403 then set_action RULE_ACTION_FORBID (set_statusCode SC_403 e) else e)
      else go e
  else if is_nocase "blockbot" keyc then
    if w_markAsBot W (m_trace e) =? 0 then (true, false, emit E_dropConnection (emit (E_status SC_403) e)) else go e
  else go e.

Fixpoint expandEnv (proxy : bool) (l : list (bool * RewriteSubstFormat)) (keymod : bool) (e : RewriteEngine) : bool * RewriteEngine :=
  match l with
  | [] => (keymod, e)
  | (isCookie, f) :: l =>
      let '(len, s) := buildString W f (DLocal (w_stack W)) (REWRITE_BUF_SIZE - 1) false false e in
      let e := bs_eng s in
      let n := match len with Some n => n | None => REWRITE_BUF_SIZE - 1 end in
      if isCookie : bool then let e := setCookie (bs_text s) e in if m_fault e then (keymod, e) else expandEnv proxy l keymod e
      else
        let '(key, keyc, v) := env_parts (bs_text s) n in
        let '(stop, k, e) := expand_one proxy key keyc v e in
        if stop : bool then (keymod, e) else expandEnv proxy l (keymod || k) e
  end.

(** ** The query string *)

Definition processQueryString (flag : Z) (e : RewriteEngine) : RewriteEngine :=
  let pBuf := memchr 63 (cstr (deref (m_pSourceURL e) e)) in
  let e := if has flag RULE_FLAG_QSDISCARD then emit (E_contextState REWRITE_QSD) (set_ownQS true (set_pQS [] e)) else e in
  match pBuf with
  | None => e
  | Some k =>
      let n := m_sourceURLLen e - 1 - k in
      let q := slice (k + 1) (k + 1 + n) (deref (m_pSourceURL e) e) in
      let e := match m_pSourceURL e with PBuf i => put_buffer i k [0] e | PText _ => e end in
      let e := set_sourceURLLen k e in
      if n >? 0 then
        let n := Z.min n (REWRITE_BUF_SIZE - 2) in
        let q := ztake n q in
        let qs :=
          if has flag RULE_FLAG_QSAPPEND then
            let old := if REWRITE_BUF_SIZE <? n + zlen (m_pQS e) + 3 then ztake (REWRITE_BUF_SIZE - n - 3) (m_pQS e) else m_pQS e in
            match old with [] => q | _ => q ++ [38] ++ old end
          else q in
        let qs := if znth qs (zlen qs - 1) =? 38 then ztake (zlen qs - 1) qs else qs in
        set_ownQS true (set_pQS qs e)
      else if negb (has flag RULE_FLAG_QSAPPEND) then set_ownQS true (set_pQS [] e)
      else e
  end.

(** ** A rule *)

Definition apply_action (r : RewriteRule) (e : RewriteEngine) : RewriteEngine :=
  match r_action r with
  | RULE_ACTION_NONE => match r_mimeType r with Some t => emit (E_forcedType t) e | None => e end
  | a => set_statusCode (r_statusCode r) (set_action a e)
  end.

(** [processRewrite]: whether it fails. *)
Definition processRewrite (r : RewriteRule) (e : RewriteEngine) : bool * RewriteEngine :=
  let flag := r_flag r in
  let proxy := match r_action r with RULE_ACTION_PROXY => true | _ => false end in
  let '(keymod, e) := expandEnv proxy (r_env r) false e in
  if m_fault e then (false, e)
  else
    let e := set_rewritten (Z.lor (m_rewritten e) 1) e in
    let e := if keymod : bool then setEnv (bs "!cache-key-mod") [] e else e in
    if negb (has flag RULE_FLAG_NOREWRITE) then
      let e := set_pFreeBuf (m_pDestURL e) (set_pDestURL (m_pFreeBuf e) e) in
      let e := set_flag (wraps 16 flag) e in
      let e := set_pNoEscape (if has (m_flag e) RULE_FLAG_BNE then Some (r_noEscape r) else None) e in
      let '(len, s) := buildString W (r_targetFormat r) (DBuf (m_pDestURL e)) (REWRITE_BUF_SIZE - 1) true true e in
      let e := bs_eng s in
      match len with
      | None => (true, e)
      | Some len =>
          let e := set_rewritten (Z.lor (m_rewritten e) 2) e in
          let e := set_orgSourceURLLen (m_sourceURLLen e) (set_pOrgSourceURL (m_pSourceURL e) e) in
          let e := set_paths None (set_sourceURLLen len (set_pSourceURL (PBuf (m_pDestURL e)) e)) in
          let e := if has flag (Z.lor RULE_FLAG_WITHQS RULE_FLAG_QSDISCARD) then processQueryString flag e else e in
          let code := if m_statusCode e =? 0 then bs "200" else w_codeString W (m_statusCode e) in
          (false, apply_action r (emit (E_addEnv (bs "REDIRECT_STATUS") code) e))
      end
    else (false, apply_action r e).

(** [processRule]: whether the rule does not apply. *)
Definition processRule (r : RewriteRule) (e : RewriteEngine) : bool * RewriteEngine :=
  let '(ret, ov) := w_exec W (r_pattern r) (has (r_flag r) RULE_FLAG_NOCASE) (source e) in
  let e := set_ruleVec ov (set_ruleMatches 0 e) in
  if Bool.eqb (ret <? 0) (negb (has (r_flag r) RULE_FLAG_NOMATCH)) then (true, e)
  else
    let e := if ret <? 0 then e else set_ruleMatches (if ret =? 0 then 10 else ret) e in
    let '(ok, e) := processConds W (r_conds r) false (set_condMatches 0 (set_pLastCondStr None e)) in
    if ok : bool then processRewrite r e else (true, e).
End run.

(** ** A set of rules *)

(** A context: its rules, and whether it inherits those of its parent. *)
Record HttpContext := Ctx {
  x_rewriteRules : option (list RewriteRule); x_inherit : bool; x_hasRewriteConfig : bool;
  x_contextURI : list Z; x_rewriteBase : option (list Z) }.
Definition getRewriteBase (c : HttpContext) : list Z := match x_rewriteBase c with Some b => b | None => x_contextURI c end.

(** The rules that are left, with the current one in front; the context whose rules
    they are with its ancestors below the root context; the root context with its own. *)
Record place := At { p_rules : list RewriteRule; p_context : list HttpContext; p_root : list HttpContext }.

Fixpoint inherited (c : HttpContext) (parents : list HttpContext) : list RewriteRule * list HttpContext :=
  match parents with
  | [] => ([], [c])
  | p :: up =>
      if x_inherit c then
        match (if x_hasRewriteConfig p then x_rewriteRules p else None) with
        | Some l => (l, p :: up)
        | None => inherited p up
        end
      else ([], c :: parents)
  end.

(** [getNextRule]. *)
Definition next_list (p : place) : place :=
  match p_context p, p_root p with
  | [], r :: up => At (match x_rewriteRules r with Some l => l | None => [] end) [r] up
  | c :: parents, root => let '(l, ctx) := inherited c parents in At l ctx root
  | [], [] => At [] [] []
  end.
Definition getNextRule (p : place) : place :=
  match p_rules p with
  | _ :: ((_ :: _) as l) => At l (p_context p) (p_root p)
  | _ => next_list p
  end.

(** The number of rules from the current one on. *)
Definition rules_of (c : HttpContext) : nat := match x_rewriteRules c with Some l => length l | None => 0 end.
Definition rules_ahead (p : place) : nat :=
  (length (p_rules p) + match p_context p with
                        | [] => match p_root p with r :: _ => rules_of r | [] => 0 end
                        | _ :: parents => list_sum (map rules_of parents)
                        end)%nat.

(** The rules that are chained to the one that failed; the flags of the last one left out. *)
Fixpoint skip_chain (fuel : nat) (flag : Z) (p : place) : Z * place :=
  match fuel, p_rules p with
  | S fuel, r :: _ => if has flag RULE_FLAG_CHAIN then skip_chain fuel (r_flag r) (getNextRule p) else (flag, p)
  | _, _ => (flag, p)
  end.
Fixpoint skip_rules (n : nat) (p : place) : place :=
  match n, p_rules p with S n, _ :: _ => skip_rules n (getNextRule p) | _, _ => p end.

Definition isAbsoluteURI (l : list Z) : Z :=
  let pre (s : string) := starts_nocase s l in
  if (hd 0 l =? 47) || (zlen l <? 6) then 0
  else if pre "ftp://"%string then 6
  else if pre "gopher://"%string then 9
  else if pre "http://"%string then 7
  else if pre "https://"%string then 8
  else if pre "mailto:"%string then 7
  else if pre "news:"%string then 5
  else if pre "nntp://"%string then 7
  else if pre "ws://"%string then 5
  else if pre "wss://"%string then 6
  else 0.

Inductive outcome := Returns (code : Z) (e : RewriteEngine) | Faults (e : RewriteEngine) | Again (e : RewriteEngine).

Section ruleset.
Context (W : world).
Context (pRuleList : option (list RewriteRule)) (context : list HttpContext) (root : list HttpContext).

(** The start: with a null list, the rules that the context inherits. *)
Definition first_place (r : list HttpContext) : place :=
  match pRuleList with Some l => At l context r | None => next_list (At [] context r) end.

Definition prefix_of (b l : list Z) : bool := bytes_eqb (ztake (zlen b) l) b.

(** The base and what is stripped; the member that the last step tests for a base. *)
Definition strip_base (e : RewriteEngine) : option (list Z) * RewriteEngine :=
  match context with
  | [] => (None, e)
  | c :: _ =>
      let url := source e in
      let base := getRewriteBase c in
      let '(pBase, strip) :=
        if prefix_of (x_contextURI c) url then (x_contextURI c, Some (x_contextURI c))
        else if prefix_of base url then (base, Some base) else (base, None) in
      let e := set_pStrip strip (set_pBase (Some base) e) in
      let cut n e := set_sourceURLLen (m_sourceURLLen e - n) (set_pSourceURL (PText (zdrop n url)) e) in
      match strip with
      | Some s => (Some pBase, cut (zlen s) e)
      | None =>
          match w_matched W with
          | None => (Some pBase, e)
          | Some rest =>
              let n := zlen url - zlen rest in
              let e := if (zlen rest <? zlen url) && bytes_eqb (zdrop n url) rest then set_pStrip (Some (ztake n url)) e else e in
              (Some pBase, set_sourceURLLen (zlen rest) (set_pSourceURL (PText rest) e))
          end
      end
  end.

Definition start_engine (e : RewriteEngine) : option (list Z) * RewriteEngine :=
  let e := set_rewritten 0 (set_pSourceURL (PText (w_URI W)) (set_sourceURLLen (zlen (w_URI W)) e)) in
  let e := set_paths None (set_pStrip None (set_pBase None e)) in
  let '(pBase, e) := strip_base e in
  let e := set_ownQS false (set_pQS (w_QueryString W) e) in
  let e := set_orgSourceURLLen (m_sourceURLLen e) (set_pOrgSourceURL (m_pSourceURL e) e) in
  let e := set_condMatches 0 (set_pDestURL 0%nat (set_pCondBuf 1%nat (set_pFreeBuf 2%nat e))) in
  (pBase, set_cacheCtl [] (set_statusCode 0 (set_flag 0 (set_action RULE_ACTION_NONE e)))).

(** ** The result *)

(** The rewrite base in front of a relative URL, in the free buffer. *)
Definition add_base (e : RewriteEngine) : RewriteEngine :=
  let free := m_pFreeBuf e in
  let base := match m_pBase e with None => [47] | Some b => b end in
  let len := if m_sourceURLLen e >? REWRITE_BUF_SIZE - 1 - zlen base then REWRITE_BUF_SIZE - 1 - zlen base else m_sourceURLLen e in
  let e := put_buffer free 0 base e in
  let e := put_buffer free (zlen base) (ztake len (deref (m_pSourceURL e) e)) e in
  let e := match m_pSourceURL e with PBuf i => set_pFreeBuf i e | PText _ => e end in
  put_buffer free (len + zlen base) [0] (set_sourceURLLen (len + zlen base) (set_pSourceURL (PBuf free) e)).

Definition to_proxy (e : RewriteEngine) : outcome :=
  let url := cstr (deref (m_pSourceURL e) e) in
  let go https :=
    let h := zdrop (7 + https) url in
    match memchr 47 h with
    | None => Returns SC_500 e
    | Some n =>
        if n =? 0 then Returns SC_500 e
        else
          match w_proxyHandler W (ztake n h) with
          | None => Returns SC_500 e
          | Some ssl =>
              if (https =? 1) && negb ssl then Returns SC_500 e
              else
                let uri := zdrop (7 + https + n) (source e) in
                let noesc := has (m_flag e) RULE_FLAG_NOESCAPE in
                let e := emit (E_redirectURI uri noesc) (emit (E_handler (ztake n h)) e) in
                if negb (w_internalRedirectURI W uri noesc (m_trace e) =? 0) then Returns SC_500 e
                else Returns (m_statusCode e) (if m_ownQS e then emit (E_queryString (m_pQS e)) e else e)
          end
    end in
  if starts_nocase "https://" url then go 1
  else if starts_nocase "http://" url then go 0
  else if starts_nocase "ws://" url || starts_nocase "wss://" url then Returns URL_HANDLER_WEBSOCKET e
  else Returns SC_500 e.

(** The end of [processRuleSet]; [Again] is the jump back to the next rule. *)
Definition finish (pBase : option (list Z)) (e : RewriteEngine) : outcome :=
  let e := match m_cacheCtl e with [] => e | v => setEnv (bs "cache-control") v e end in
  if m_rewritten e =? 0 then Returns 0 e
  else
    match m_action e with
    | RULE_ACTION_FORBID | RULE_ACTION_GONE => Returns (m_statusCode e) e
    | _ =>
        if has (m_rewritten e) 2 then
          let '(e) :=
            if isAbsoluteURI (source e) =? 0 then if hd 0 (source e) =? 47 then e else add_base e
            else match m_action e with RULE_ACTION_NONE => set_statusCode SC_302 (set_action RULE_ACTION_REDIRECT e) | _ => e end in
          match m_action e with
          | RULE_ACTION_NONE =>
              let ret := w_saveCurURL W (m_trace e) in
              let saves := (w_redirects W =? 0) || match pBase with Some _ => true | None => false end in
              if saves && negb (ret =? 0) then Returns ret (emit E_saveCurURL e)
              else
                let e := if saves then emit E_saveCurURL e else e in
                let e := if m_ownQS e then emit (E_queryString (m_pQS e)) e else e in
                Returns URL_MODIFIED (set_statusCode URL_MODIFIED e)
          | RULE_ACTION_REDIRECT =>
              if w_detectLoopRedirect W (source e) (m_pQS e) (m_trace e) =? 0 then
                let e := emit (E_location (source e) (m_pQS e) (negb (has (m_flag e) RULE_FLAG_NOESCAPE))) e in
                Returns (m_statusCode e) (emit (E_contextState REWRITE_REDIR) e)
              else
                let e := set_statusCode 0 (set_rewritten 0 e) in
                Again (set_sourceURLLen (m_orgSourceURLLen e) (set_pSourceURL (m_pOrgSourceURL e) e))
          | RULE_ACTION_PROXY => to_proxy e
          | _ => Returns (m_statusCode e) e
          end
        else
          match m_action e with
          | RULE_ACTION_REDIRECT => if (SC_301 <=? m_statusCode e) && (m_statusCode e <? SC_400) then Returns 0 e else Returns (m_statusCode e) e
          | RULE_ACTION_PROXY => Returns 0 (set_statusCode 0 e)
          | _ => Returns (m_statusCode e) e
          end
    end.

(** ** The order of the rules *)

Record position := Pos { q_place : place; q_flag : Z; q_loop : Z }.
Inductive jump := Loop (q : position) (e : RewriteEngine) | Stop (q : position) (e : RewriteEngine) | Exit (o : outcome).

(** From the label NEXT_RULE to the end of the loop's body. *)
Definition next_rule (q : position) (e : RewriteEngine) : jump :=
  if has (q_flag q) RULE_FLAG_NEXT then
    let q := Pos (first_place (p_root (q_place q))) (q_flag q) (q_loop q + 1) in
    if q_loop q >? 10 then Stop q e else Loop q e
  else
    match p_rules (q_place q) with
    | [] => Stop q e
    | r :: _ => Loop (Pos (skip_rules (Z.to_nat (wraps 32 (r_skipRules r + 1))) (q_place q)) (q_flag q) (q_loop q)) e
    end.

(** One round of the loop. *)
Definition one_rule (q : position) (e : RewriteEngine) : jump :=
  match p_rules (q_place q) with
  | [] => Stop q e
  | r :: _ =>
      let flag := r_flag r in
      let '(fails, e) := processRule W r e in
      if m_fault e then Exit (Faults e)
      else if w_dropped W (m_trace e) then Exit (Returns SC_403 e)
      else if fails : bool then
        let p := getNextRule (q_place q) in
        let '(flag, p) := skip_chain (rules_ahead p) flag p in
        Loop (Pos p flag (q_loop q)) e
      else if has flag RULE_FLAG_LAST && (r_skipRules r =? 0) then
        Stop (Pos (q_place q) flag (q_loop q)) (if has flag RULE_FLAG_END then emit (E_contextState SKIP_REWRITE) e else e)
      else next_rule (Pos (q_place q) flag (q_loop q)) e
  end.

(** The loop, with [fuel] rounds at most. *)
Fixpoint rules_loop (pBase : option (list Z)) (fuel : nat) (q : position) (e : RewriteEngine) : option outcome :=
  match fuel with
  | O => None
  | S fuel =>
      match one_rule q e with
      | Exit o => Some o
      | Loop q e => rules_loop pBase fuel q e
      | Stop q e => match finish pBase e with
                    | Again e => match next_rule q e with
                                 | Loop q e => rules_loop pBase fuel q e
                                 | Stop q e => Some (finish pBase e)
                                 | Exit o => Some o
                                 end
                    | o => Some o
                    end
      end
  end.

(** [processRuleSet]. *)
Definition processRuleSet (fuel : nat) (e : RewriteEngine) : option outcome :=
  let p := first_place root in
  match p_rules p with
  | [] => Some (Returns 0 e)
  | _ => let '(pBase, e) := start_engine e in rules_loop pBase fuel (Pos p 0 0) e
  end.
End ruleset.
