(* ===== verification/RewriteSpec.v ===== *)
(** * RewriteSpec: what the rewrite engine's texts and conditions mean
    (src/src/http/rewriteengine.cpp)

    The expansion of a format as a function of what the engine knows, without buffers,
    pointers or caches; [buildString] puts exactly this text, ended by a NUL, into its
    buffer.  The conditions of a rule are a conjunction of groups; the test string that
    is kept from one condition to the next, and the file status kept with it, do not
    change what a condition says, when no format names a group of another condition. *)

From S2P Require Import Prelude Headers Request Uri Rewrite RewriteRun.
#[local] Open Scope Z_scope.

(** ** What the engine knows *)

Record view := View {
  v_url : list Z; v_len : Z; v_qs : list Z; v_strip : option (list Z); v_ruleVec : list Z; v_ruleMatches : Z;
  v_cond : list Z; v_condVec : list Z; v_condMatches : Z; v_flag : Z; v_noEscape : option (list Z);
  v_paths : paths; v_trace : list event }.
Definition v_source (v : view) : list Z := ztake (v_len v) (v_url v).

Section text.
Context (W : world).

Definition paths_of (e : RewriteEngine) : paths :=
  match m_paths e with Some p => p | None => w_checkPathInfo W (source e) (m_trace e) end.
Definition view_of (e : RewriteEngine) : view :=
  View (deref (m_pSourceURL e) e) (m_sourceURLLen e) (m_pQS e) (m_pStrip e) (m_ruleVec e) (m_ruleMatches e)
    (buffer (m_pCondBuf e) e) (m_condVec e) (m_condMatches e) (m_flag e) (m_pNoEscape e) (paths_of e) (m_trace e).

(** A value behind the text [p]: what is kept of [p], and what follows it; the merged
    slash is the text's, or the value's if that was put in place. *)
Definition merge (nodup inplace : bool) (p v : list Z) : list Z * list Z :=
  if (hd 0 v =? 47) && nodup && (znth p (zlen p - 1) =? 47) then if inplace then (p, tl v) else (ztake (zlen p - 1) p, v)
  else (p, v).

Definition append_text (it : RewriteSubstItem) (nodup : bool) (bufEnd flag : Z) (val : option (bool * list Z)) (s : list Z * bool) : option (list Z * bool) :=
  let '(p, esc) := s in
  match val with
  | None => None
  | Some (inplace, v) =>
      if (zlen v <=? 0) || (bufEnd <=? zlen p + zlen v) then Some (p, esc)
      else
        let '(p, v) := merge nodup inplace p v in
        if esc && (zlen v >? 0) then
          if negb (has flag RULE_FLAG_UNSAFE_ALLOW3F) && needsUnsafe3FEscape it then
            option_map (fun w => (p ++ w, esc)) (escape_unsafe_3f v (bufEnd - zlen p))
          else
            let '(v1, v2, esc) := match memchr 63 v with Some n => (ztake n v, zdrop n v, false) | None => (v, [], esc) end in
            if (zlen v1 >? 0) && needUrlDecode it then
              let '(d, ok) := unescape v1 in if ok then Some (p ++ d ++ v2, esc) else None
            else Some (p ++ v, esc)
        else Some (p ++ v, esc)
  end.

Definition var_text (t bufLen : Z) (v : view) : option (bool * list Z) :=
  if (t =? REF_REQUEST_FN) || (t =? REF_SCRIPTFILENAME) then Some (false, p_file (v_paths v))
  else if t =? REF_PATH_INFO then Some (false, p_info (v_paths v))
  else if t =? REF_SCRIPT_NAME then Some (false, ztake (p_scriptLen (v_paths v)) (w_OrgReqURL W))
  else if t =? REF_REQ_URI then
    if w_redirects W =? 0 then Some (false, w_OrgReqURL W)
    else match v_strip v with Some s => Some (true, s ++ v_source v) | None => Some (false, v_source v) end
  else if t =? REF_CUR_REWRITE_URI then Some (false, v_source v)
  else if t =? REF_QUERY_STRING then Some (false, v_qs v)
  else w_var W t bufLen (v_trace v).

Fixpoint item_text (it : RewriteSubstItem) (bufLen : Z) (v : view) {struct it} : option (bool * list Z) :=
  let expand :=
    fix expand (l : RewriteSubstFormat) (bufEnd : Z) (s : list Z * bool) {struct l} : option (list Z * bool) :=
      match l with
      | [] => Some s
      | it :: l => s' ← append_text it false bufEnd (v_flag v) (item_text it (bufEnd - zlen s.1) v) s; expand l bufEnd s'
      end in
  let esc := Z.land (v_flag v) RULE_FLAGS_ESCAPE in
  match it with
  | It_STRING s => Some (false, s)
  | It_MAP map key dflt =>
      match expand key 1023 ([], false) with
      | None => Some (true, [])
      | Some (k, _) =>
          match w_map W map k bufLen, dflt with
          | Some t, _ => Some (true, t)
          | None, None => Some (true, [])
          | None, Some f => if bufLen <=? 0 then Some (true, []) else
                              Some (true, match expand f (bufLen - 1) ([], false) with Some (t, _) => t | None => [] end)
          end
      end
  | It_RULE_SUBSTR i => Some (getSubstr (v_url v) (v_ruleVec v) (v_ruleMatches v) i bufLen esc (v_noEscape v))
  | It_COND_SUBSTR i => Some (getSubstr (v_cond v) (v_condVec v) (v_condMatches v) i bufLen esc (v_noEscape v))
  | It_ENV n => Some (false, w_env W n (v_trace v))
  | It_HTTP_HEADER n => Some (false, w_header W n (v_trace v))
  | It_VAR t => var_text t bufLen v
  end.

Fixpoint format_text (l : RewriteSubstFormat) (nodup : bool) (bufEnd : Z) (v : view) (s : list Z * bool) : option (list Z * bool) :=
  match l with
  | [] => Some s
  | it :: l => s' ← append_text it (nodup && (zlen s.1 >? 0)) bufEnd (v_flag v) (item_text it (bufEnd - zlen s.1) v) s; format_text l nodup bufEnd v s'
  end.

(** The text of a format in a place of [len] bytes; there is none in a place without a byte. *)
Definition expansion (f : RewriteSubstFormat) (len : Z) (esc nodup : bool) (v : view) : option (list Z) :=
  if len <=? 0 then None else option_map fst (format_text f nodup (len - 1) v ([], esc)).
End text.

(** ** A place where a text is built *)

Definition mk (d : dest) (e : RewriteEngine) (t : list Z) (off : Z) (esc : bool) : bstate :=
  match d with
  | DBuf i => Bs (set_rewriteBuf (<[i := t]> (m_rewriteBuf e)) e) (DBuf i) off esc
  | DLocal _ => Bs e (DLocal t) off esc
  end.
Definition room_for (d : dest) (e : RewriteEngine) : Prop := match d with DBuf i => (i < length (m_rewriteBuf e))%nat | DLocal _ => True end.
Definition dst_text (d : dest) (e : RewriteEngine) : list Z := match d with DBuf i => buffer i e | DLocal b => b end.

Section place.
Context (d : dest) (e : RewriteEngine) (Hd : room_for d e).

Lemma mk_text t off esc : bs_text (mk d e t off esc) = t.
Proof. destruct d as [i|b]; [|reflexivity]. cbn. unfold buffer. rewrite nth_lookup. cbn. rewrite list_lookup_insert_eq by exact Hd. reflexivity. Qed.

Lemma mk_put o x t off esc : bs_put o x (mk d e t off esc) = mk d e (store t o x) off esc.
Proof.
  pose proof (mk_text t off esc) as Ht. destruct d as [i|b]; [|reflexivity]. unfold bs_put, put_buffer, mk in *. cbn [bs_dst bs_eng bs_off bs_esc bs_text] in *. rewrite Ht. f_equal.
  unfold set_rewriteBuf. cbn. rewrite list_insert_insert_eq. reflexivity.
Qed.

Lemma mk_at o t off esc : bs_at o (mk d e t off esc) = mk d e t o esc.
Proof. destruct d; reflexivity. Qed.
Lemma mk_no_esc t off esc : bs_no_esc (mk d e t off esc) = mk d e t off false.
Proof. destruct d; reflexivity. Qed.
Lemma mk_off t off esc : bs_off (mk d e t off esc) = off.
Proof. destruct d; reflexivity. Qed.
Lemma mk_esc t off esc : bs_esc (mk d e t off esc) = esc.
Proof. destruct d; reflexivity. Qed.
Lemma mk_flag t off esc : m_flag (bs_eng (mk d e t off esc)) = m_flag e.
Proof. destruct d; reflexivity. Qed.

Lemma mk_self off esc : Bs e d off esc = mk d e (dst_text d e) off esc.
Proof.
  destruct d as [i|b]; [|reflexivity]. destruct (lookup_lt_is_Some_2 _ _ Hd) as (x & Hx). cbn. unfold buffer. rewrite (nth_lookup_Some _ _ _ _ Hx), list_insert_id by exact Hx.
  f_equal. destruct e; reflexivity.
Qed.
End place.

(** ** A value is appended *)

Lemma ztake_store_in (t v : list Z) off : 0 <= off <= zlen t -> ztake (off + zlen v) (store t off v) = ztake off t ++ v.
Proof.
  intros H. unfold store. rewrite app_assoc, ztake_app_len; [reflexivity|]. rewrite zlen_app, zlen_ztake by lia. lia.
Qed.

Lemma text_before_store (t v : list Z) off : 0 <= off <= zlen t -> ztake off (store t off v) = ztake off t.
Proof. intros H. unfold store. apply ztake_app_len. rewrite zlen_ztake; lia. Qed.

Lemma zlen_store_in (t v : list Z) off : 0 <= off <= zlen t -> off + zlen v <= zlen (store t off v).
Proof. intros H. unfold store. rewrite !zlen_app, zlen_ztake by lia. pose proof (zlen_nonneg (zdrop (off + zlen v) t)). lia. Qed.

(** What a step leaves: it fails with the specification, or the text in front of the
    place is the specification's. *)
Definition follows (d : dest) (e : RewriteEngine) (r : bool * bstate) (o : option (list Z * bool)) : Prop :=
  match o with
  | None => r.1 = false
  | Some (p, esc) => exists t, r = (true, mk d e t (zlen p) esc) /\ ztake (zlen p) t = p /\ zlen p <= zlen t
  end.

Section append.
Context (d : dest) (e : RewriteEngine) (Hd : room_for d e).

Lemma follows_put t off esc v : 0 <= off <= zlen t -> follows d e (true, mk d e (store t off v) (off + zlen v) esc) (Some (ztake off t ++ v, esc)).
Proof.
  intros H. cbn. exists (store t off v). rewrite zlen_app, zlen_ztake, Z.min_l by lia. split; [reflexivity|]. split; [apply ztake_store_in, H|apply zlen_store_in, H].
Qed.

Lemma store_twice (t v w : list Z) off : 0 <= off <= zlen t -> zlen w <= zlen v -> ztake (off + zlen w) (store (store t off v) off w) = ztake off t ++ w.
Proof.
  intros H Hw. pose proof (zlen_nonneg v). pose proof (zlen_store_in t v off H). rewrite ztake_store_in by lia. rewrite text_before_store by exact H. reflexivity.
Qed.

(** The escapes and the decoding of a value that is in place. *)
Lemma escape_value_follows it bufEnd v p t off esc : 0 <= off <= zlen t -> off = zlen p -> ztake off t = p -> ztake (off + zlen v) t = p ++ v -> off + zlen v <= zlen t ->
  follows d e (escape_value it bufEnd v (mk d e t off esc))
    (if negb (has (m_flag e) RULE_FLAG_UNSAFE_ALLOW3F) && needsUnsafe3FEscape it then
       option_map (fun w => (p ++ w, esc)) (escape_unsafe_3f v (bufEnd - zlen p))
     else
       let '(v1, v2, esc) := match memchr 63 v with Some n => (ztake n v, zdrop n v, false) | None => (v, [], esc) end in
       if (zlen v1 >? 0) && needUrlDecode it then
         let '(d, ok) := unescape v1 in if ok then Some (p ++ d ++ v2, esc) else None
       else Some (p ++ v, esc)).
Proof.
  intros Ho Hop Hp Hv Hlen. unfold escape_value. rewrite mk_off, mk_flag by exact Hd. destruct (negb (has (m_flag e) RULE_FLAG_UNSAFE_ALLOW3F) && needsUnsafe3FEscape it).
  - rewrite <- Hop. destruct (escape_unsafe_3f v (bufEnd - off)) as [w|]; [|reflexivity]. cbn [option_map]. rewrite mk_put, mk_at by exact Hd. rewrite <- Hp. apply follows_put, Ho.
  - assert (Hplain : forall esc', follows d e (true, mk d e t (off + zlen v) esc') (Some (p ++ v, esc'))).
    { intros esc'. exists t. rewrite zlen_app, <- Hop. auto. }
    destruct (memchr 63 v) as [n|]; cbv iota zeta beta; rewrite ?mk_no_esc by exact Hd.
    + destruct ((zlen (ztake n v) >? 0) && needUrlDecode it); [|rewrite mk_at by exact Hd; apply Hplain]. destruct (unescape (ztake n v)) as [dd ok]. destruct ok; [|reflexivity].
      rewrite mk_put, mk_at, <- Hp by exact Hd. rewrite <- Z.add_assoc, <- zlen_app. apply follows_put, Ho.
    + destruct ((zlen v >? 0) && needUrlDecode it); [|rewrite mk_at by exact Hd; apply Hplain]. destruct (unescape v) as [dd ok]. destruct ok; [|reflexivity].
      rewrite mk_put, mk_at, <- Hp by exact Hd. rewrite <- Z.add_assoc, <- zlen_app. apply follows_put, Ho.
Qed.

(** What follows once a value is in place behind the text. *)
Lemma placed_follows it bufEnd v p t esc : ztake (zlen p) t = p -> ztake (zlen p + zlen v) t = p ++ v -> zlen p + zlen v <= zlen t ->
  follows d e
    (if bs_esc (mk d e t (zlen p) esc) && (zlen v >? 0) then escape_value it bufEnd v (mk d e t (zlen p) esc)
     else (true, bs_at (bs_off (mk d e t (zlen p) esc) + zlen v) (mk d e t (zlen p) esc)))
    (if esc && (zlen v >? 0) then
       if negb (has (m_flag e) RULE_FLAG_UNSAFE_ALLOW3F) && needsUnsafe3FEscape it then
         option_map (fun w => (p ++ w, esc)) (escape_unsafe_3f v (bufEnd - zlen p))
       else
         let '(v1, v2, esc) := match memchr 63 v with Some n => (ztake n v, zdrop n v, false) | None => (v, [], esc) end in
         if (zlen v1 >? 0) && needUrlDecode it then
           let '(d, ok) := unescape v1 in if ok then Some (p ++ d ++ v2, esc) else None
         else Some (p ++ v, esc)
     else Some (p ++ v, esc)).
Proof.
  intros Hp Hv Hlen. pose proof (zlen_nonneg p). pose proof (zlen_nonneg v). rewrite mk_esc by exact Hd. destruct (esc && (zlen v >? 0)).
  - apply escape_value_follows; auto. lia.
  - rewrite mk_off, mk_at by exact Hd. exists t. rewrite zlen_app. auto.
Qed.

Lemma znth_prefix (t p : list Z) : ztake (zlen p) t = p -> 0 < zlen p -> znth t (zlen p - 1) = znth p (zlen p - 1).
Proof. intros Hp H0. transitivity (znth (ztake (zlen p) t) (zlen p - 1)); [symmetry; apply znth_ztake; lia|rewrite Hp; reflexivity]. Qed.

Lemma append_value_follows it nodup bufEnd val p t esc : (nodup = true -> 0 < zlen p) -> ztake (zlen p) t = p -> zlen p <= zlen t ->
  follows d e (append_value it nodup bufEnd val (mk d e t (zlen p) esc)) (append_text it nodup bufEnd (m_flag e) val (p, esc)).
Proof.
  intros Hnd Hp Hlen. pose proof (zlen_nonneg p) as Hp0. unfold append_value, append_text. destruct val as [[inplace v]|]; [|reflexivity]. pose proof (zlen_nonneg v) as Hv0.
  set (t1 := if inplace then store t (zlen p) (ztake (bufEnd - zlen p) v) else t).
  assert (E : (if inplace then bs_put (bs_off (mk d e t (zlen p) esc)) (ztake (bufEnd - bs_off (mk d e t (zlen p) esc)) v) (mk d e t (zlen p) esc) else mk d e t (zlen p) esc) = mk d e t1 (zlen p) esc)
    by (destruct inplace; [rewrite mk_off, mk_put by exact Hd|]; reflexivity).
  rewrite E. clear E. assert (Hp1 : ztake (zlen p) t1 = p) by (unfold t1; destruct inplace; [rewrite text_before_store by lia|]; exact Hp).
  assert (Hl1 : zlen p <= zlen t1) by (unfold t1; destruct inplace; [pose proof (zlen_store_in t (ztake (bufEnd - zlen p) v) (zlen p) ltac:(lia)); pose proof (zlen_nonneg (ztake (bufEnd - zlen p) v)); lia|exact Hlen]).
  rewrite mk_off by exact Hd. destruct (zlen v <=? 0); [exists t1; auto|]. cbn [orb]. destruct (Z.leb_spec bufEnd (zlen p + zlen v)) as [|Hfit]; [exists t1; auto|].
  rewrite mk_text by exact Hd. unfold merge.
  replace ((hd 0 v =? 47) && nodup && (znth t1 (zlen p - 1) =? 47)) with ((hd 0 v =? 47) && nodup && (znth p (zlen p - 1) =? 47))
    by (destruct nodup; [rewrite (znth_prefix t1 p) by auto; reflexivity|rewrite !andb_false_r; reflexivity]).
  destruct ((hd 0 v =? 47) && nodup && (znth p (zlen p - 1) =? 47)) eqn:Edup; destruct inplace; cbn [negb]; cbv iota beta zeta.
  - rewrite mk_put by exact Hd. apply placed_follows; unfold t1 in *.
    + rewrite text_before_store by lia. exact Hp1.
    + rewrite (ztake_all (bufEnd - zlen p) v) by lia. rewrite store_twice by (destruct v; cbn [tl]; rewrite ?zlen_cons; lia). rewrite Hp. reflexivity.
    + apply zlen_store_in. lia.
  - assert (0 < zlen p) by (apply Hnd; destruct nodup; [reflexivity|rewrite andb_false_r in Edup; discriminate]). rewrite mk_at, mk_put, mk_off by exact Hd. unfold t1 in *.
    set (q := ztake (zlen p - 1) p). assert (Hq : zlen p - 1 = zlen q) by (unfold q; rewrite zlen_ztake; lia).
    assert (Hqt : ztake (zlen q) t = q) by (rewrite <- Hq; rewrite <- (ztake_ztake (zlen p - 1) (zlen p) t) by lia; rewrite Hp; reflexivity). rewrite Hq.
    apply placed_follows; [rewrite text_before_store by lia; exact Hqt|rewrite ztake_store_in by lia; rewrite Hqt; reflexivity|apply zlen_store_in; lia].
  - unfold t1 in *. rewrite (ztake_all (bufEnd - zlen p) v) by lia. apply placed_follows; [rewrite text_before_store by lia; exact Hp|rewrite ztake_store_in by lia; rewrite Hp; reflexivity|apply zlen_store_in; lia].
  - rewrite mk_off, mk_put by exact Hd. unfold t1 in *. apply placed_follows; [rewrite text_before_store by lia; exact Hp|rewrite ztake_store_in by lia; rewrite Hp; reflexivity|apply zlen_store_in; lia].
Qed.
End append.

(** Whatever happens, only the place is written. *)
Definition inside (d : dest) (e : RewriteEngine) (s : bstate) : Prop := exists t off esc, s = mk d e t off esc.

Section shape.
Context (d : dest) (e : RewriteEngine) (Hd : room_for d e).

Lemma inside_put o v s : inside d e s -> inside d e (bs_put o v s).
Proof. intros (t & off & esc & ->). rewrite mk_put by exact Hd. eexists _, _, _. reflexivity. Qed.
Lemma inside_at o s : inside d e s -> inside d e (bs_at o s).
Proof. intros (t & off & esc & ->). rewrite mk_at by exact Hd. eexists _, _, _. reflexivity. Qed.
Lemma inside_no_esc s : inside d e s -> inside d e (bs_no_esc s).
Proof. intros (t & off & esc & ->). rewrite mk_no_esc by exact Hd. eexists _, _, _. reflexivity. Qed.

Lemma escape_value_inside it bufEnd v s : inside d e s -> inside d e (escape_value it bufEnd v s).2.
Proof.
  intros H. unfold escape_value. destruct (_ && needsUnsafe3FEscape it).
  - destruct (escape_unsafe_3f _ _); [apply inside_at, inside_put, H|exact H].
  - destruct (memchr 63 v) as [n|]; destruct (_ && needUrlDecode it); try apply inside_at; try apply inside_no_esc; try exact H;
      destruct (unescape _) as [dd [|]]; repeat first [apply inside_at | apply inside_put | apply inside_no_esc]; exact H.
Qed.

Lemma append_value_inside it nodup bufEnd val s : inside d e s -> inside d e (append_value it nodup bufEnd val s).2.
Proof.
  intros H. unfold append_value. destruct val as [[inplace v]|]; [|exact H]. set (s1 := if inplace then bs_put (bs_off s) (ztake (bufEnd - bs_off s) v) s else s).
  assert (H1 : inside d e s1) by (unfold s1; destruct inplace; [apply inside_put|]; exact H). clearbody s1. destruct (zlen v <=? 0); [exact H1|]. destruct (bufEnd <=? bs_off s1 + zlen v); [exact H1|].
  match goal with |- context [if negb inplace then ?a else ?b] => set (q := if negb inplace then a else b) end.
  assert (Hq : inside d e q.2) by (unfold q; destruct inplace, (_ && (znth _ _ =? 47)); cbn [negb snd]; repeat first [apply inside_put | apply inside_at]; exact H1).
  destruct q as [v' s']. cbn [snd] in Hq. destruct (bs_esc s' && _); [apply escape_value_inside|apply inside_at]; exact Hq.
Qed.
End shape.

(** ** Values *)

Lemma item_ind' (P : RewriteSubstItem -> Prop) :
  (forall s, P (It_STRING s)) ->
  (forall m key dflt, Forall P key -> match dflt with Some f => Forall P f | None => True end -> P (It_MAP m key dflt)) ->
  (forall i, P (It_RULE_SUBSTR i)) -> (forall i, P (It_COND_SUBSTR i)) -> (forall n, P (It_ENV n)) -> (forall n, P (It_HTTP_HEADER n)) -> (forall t, P (It_VAR t)) ->
  forall it, P it.
Proof.
  intros H1 H2 H3 H4 H5 H6 H7. fix rec 1. intros [s|m key dflt|i|i|n|n|t]; [apply H1| |apply H3|apply H4|apply H5|apply H6|apply H7].
  assert (all : forall l, Forall P l) by (fix all 1; intros [|x l]; constructor; [apply rec|apply all]). apply H2; [apply all|]. destruct dflt; [apply all|exact I].
Qed.

Section values.
Context (W : world).

(** Reading changes nothing but the members that [checkPathInfo] fills. *)
Definition cached (e e' : RewriteEngine) : Prop := e' = e \/ e' = set_paths (Some (paths_of W e)) e.
Lemma cached_refl e : cached e e.
Proof. left. reflexivity. Qed.
Lemma cached_trans a b c : cached a b -> cached b c -> cached a c.
Proof. intros [->| ->] [->| ->]; [left|right|right|right]; reflexivity. Qed.
Lemma cached_view a b : cached a b -> view_of W b = view_of W a.
Proof. intros [->| ->]; reflexivity. Qed.

Definition apart (d : dest) (e : RewriteEngine) : Prop :=
  match d with DBuf i => m_pSourceURL e <> PBuf i /\ m_pCondBuf e <> i | DLocal _ => True end.

Lemma other_buffer i j t e : i <> j -> nth j (<[i := t]> (m_rewriteBuf e)) [] = buffer j e.
Proof. intros H. unfold buffer. rewrite !nth_lookup, list_lookup_insert_ne by exact H. reflexivity. Qed.

Lemma mk_view d e t off esc : apart d e -> view_of W (bs_eng (mk d e t off esc)) = view_of W e.
Proof.
  destruct d as [i|b]; [|reflexivity]. intros [Hs Hc]. unfold view_of, paths_of, source. cbn [mk bs_eng].
  assert (Hu : deref (m_pSourceURL e) (set_rewriteBuf (<[i := t]> (m_rewriteBuf e)) e) = deref (m_pSourceURL e) e)
    by (destruct (m_pSourceURL e) as [s|j]; [reflexivity|]; apply other_buffer; congruence).
  assert (Hb : buffer (m_pCondBuf e) (set_rewriteBuf (<[i := t]> (m_rewriteBuf e)) e) = buffer (m_pCondBuf e) e) by (apply other_buffer; congruence).
  cbn [m_pSourceURL m_pCondBuf m_sourceURLLen m_pQS m_pStrip m_ruleVec m_ruleMatches m_condVec m_condMatches m_flag m_pNoEscape m_paths m_trace set_rewriteBuf] in *. rewrite Hu, Hb. reflexivity.
Qed.

(** A cached state around a place is the place around a cached state. *)
Lemma mk_cached d e t off esc e1 : apart d e -> cached (bs_eng (mk d e t off esc)) e1 ->
  exists e', cached e e' /\ Bs e1 (bs_dst (mk d e t off esc)) off esc = mk d e' t off esc /\ apart d e' /\ (room_for d e -> room_for d e').
Proof.
  intros Ha [->| ->].
  - exists e. split; [apply cached_refl|]. split; [destruct d; reflexivity|auto].
  - exists (set_paths (Some (paths_of W e)) e). split; [right; reflexivity|]. pose proof (f_equal v_paths (mk_view d e t off esc Ha)) as Hp. cbn [v_paths view_of] in Hp. rewrite Hp.
    split; [destruct d; reflexivity|]. split; [destruct d; exact Ha|destruct d; auto].
Qed.

Lemma path_info_ok e : (path_info W e).1 = paths_of W e /\ cached e (path_info W e).2.
Proof. unfold path_info, cached, paths_of. destruct (m_paths e); auto. Qed.

Lemma server_var_ok t bufLen e : (server_var W t bufLen e).1 = var_text W t bufLen (view_of W e) /\ cached e (server_var W t bufLen e).2.
Proof.
  unfold server_var, var_text. pose proof (path_info_ok e) as [Hp Hc]. destruct (path_info W e) as [p e']. cbn [fst snd] in Hp, Hc. subst p.
  destruct (_ || _); [auto|]. destruct (t =? REF_PATH_INFO); [auto|]. destruct (t =? REF_SCRIPT_NAME); [auto|].
  destruct (t =? REF_REQ_URI); [|destruct (t =? REF_CUR_REWRITE_URI); [|destruct (t =? REF_QUERY_STRING)]; split; (reflexivity || apply cached_refl)].
  destruct (w_redirects W =? 0); [split; (reflexivity || apply cached_refl)|]. cbn [v_strip view_of]. destruct (m_pStrip e); split; (reflexivity || apply cached_refl).
Qed.

(** The loop of a nested format follows the specification's. *)
Definition value_ok (it : RewriteSubstItem) : Prop :=
  forall bufLen e, (getSubstValue W it bufLen e).1 = item_text W it bufLen (view_of W e) /\ cached e (getSubstValue W it bufLen e).2.

Lemma append_step d e t p esc it nodup bufEnd v e1 : room_for d e -> apart d e -> (nodup = true -> 0 < zlen p) -> ztake (zlen p) t = p -> zlen p <= zlen t ->
  cached (bs_eng (mk d e t (zlen p) esc)) e1 ->
  exists e', cached e e' /\ room_for d e' /\ apart d e' /\
    let r := append_value it nodup bufEnd v (Bs e1 (bs_dst (mk d e t (zlen p) esc)) (zlen p) esc) in
    inside d e' r.2 /\ follows d e' r (append_text it nodup bufEnd (m_flag e) v (p, esc)).
Proof.
  intros Hr Ha Hn Hp Hl Hc. destruct (mk_cached d e t (zlen p) esc e1 Ha Hc) as (e' & He & -> & Ha' & Hr'). exists e'. specialize (Hr' Hr). split; [exact He|]. split; [exact Hr'|]. split; [exact Ha'|]. split.
  - apply append_value_inside; [exact Hr'|]. eexists _, _, _. reflexivity.
  - replace (m_flag e) with (m_flag e') by (destruct He as [->| ->]; reflexivity). apply append_value_follows; assumption.
Qed.

Lemma build_items_ok d l nodup bufEnd : Forall value_ok l -> forall e t p esc, room_for d e -> apart d e -> ztake (zlen p) t = p -> zlen p <= zlen t ->
  exists e', cached e e' /\
    let r := build_items W l nodup bufEnd (mk d e t (zlen p) esc) in
    inside d e' r.2 /\ follows d e' r (format_text W l nodup bufEnd (view_of W e) (p, esc)).
Proof.
  induction 1 as [|it l Hit _ IH]; intros e t p esc Hr Ha Hp Hl; cbn [build_items format_text].
  - exists e. split; [apply cached_refl|]. split; [eexists _, _, _; reflexivity|]. exists t. auto.
  - rewrite mk_off by exact Hr. destruct (Hit (bufEnd - zlen p) (bs_eng (mk d e t (zlen p) esc))) as [Hv Hc]. rewrite mk_view in Hv by exact Ha. cbn [fst snd] in *.
    destruct (getSubstValue W it _ _) as [v e1]. cbn [fst snd] in Hv, Hc. subst v. rewrite mk_esc by exact Hr.
    set (nd := nodup && (zlen p >? 0)). assert (Hnd : nd = true -> 0 < zlen p) by (unfold nd; destruct nodup; cbn; lia).
    destruct (append_step d e t p esc it nd bufEnd (item_text W it (bufEnd - zlen p) (view_of W e)) e1 Hr Ha Hnd Hp Hl Hc) as (e' & He & Hr' & Ha' & Hin & Hf). cbv zeta in *.
    cbn [v_flag view_of]. destruct (append_text it nd bufEnd (m_flag e) _ (p, esc)) as [[p' esc']|]; cbn [mbind option_bind].
    + destruct Hf as (t' & -> & Hp' & Hl'). destruct (IH e' t' p' esc' Hr' Ha' Hp' Hl') as (e2 & He2 & H2). exists e2. split; [exact (cached_trans _ _ _ He He2)|]. rewrite (cached_view e e' He) in H2. exact H2.
    + cbn [follows] in Hf. destruct (append_value _ _ _ _ _) as [ok s']. cbn [fst snd] in Hf, Hin. subst ok. exists e'. split; [exact He|]. split; [exact Hin|reflexivity].
Qed.

Lemma value_of_map map key dflt bufLen e :
  getSubstValue W (It_MAP map key dflt) bufLen e =
    let '(ok, s) := build_items W key false 1023 (Bs e (DLocal []) 0 false) in
    let e := bs_eng s in
    if negb ok then (Some (true, []), e)
    else
      match w_map W map (ztake (bs_off s) (bs_text s)) bufLen with
      | Some v => (Some (true, v), e)
      | None =>
          match dflt with
          | None => (Some (true, []), e)
          | Some f =>
              if bufLen <=? 0 then (Some (true, []), e)
              else
                let '(ok, s) := build_items W f false (bufLen - 1) (Bs e (DLocal []) 0 false) in
                (Some (true, if ok then ztake (bs_off s) (bs_text s) else []), bs_eng s)
          end
      end.
Proof.
  cbn [getSubstValue].
  match goal with |- context [?f key 1023] => assert (E : forall l b s, f l b s = build_items W l false b s) end.
  { induction l as [|it l IH]; intros b s; [reflexivity|]. cbn [build_items andb]. destruct (getSubstValue W it _ _) as [v e1]. destruct (append_value _ _ _ _ _) as [ok s']. destruct ok; [apply IH|reflexivity]. }
  rewrite E. destruct (build_items W key false 1023 _) as [ok s]. destruct ok; [|reflexivity]. cbn [negb]. destruct (w_map W map _ bufLen); [reflexivity|]. destruct dflt as [f|]; [|reflexivity].
  rewrite E. reflexivity.
Qed.

Lemma text_of_map map key dflt bufLen v :
  item_text W (It_MAP map key dflt) bufLen v =
    match format_text W key false 1023 v ([], false) with
    | None => Some (true, [])
    | Some (k, _) =>
        match w_map W map k bufLen, dflt with
        | Some t, _ => Some (true, t)
        | None, None => Some (true, [])
        | None, Some f => if bufLen <=? 0 then Some (true, []) else
                            Some (true, match format_text W f false (bufLen - 1) v ([], false) with Some (t, _) => t | None => [] end)
        end
    end.
Proof.
  cbn [item_text].
  match goal with |- context [?f key 1023] => assert (E : forall l b s, f l b s = format_text W l false b v s) end.
  { induction l as [|it l IH]; intros b s; [reflexivity|]. cbn [format_text andb]. destruct (append_text _ _ _ _ _ _); [apply IH|reflexivity]. }
  rewrite E. destruct (format_text W key false 1023 v ([], false)) as [[k esc]|]; [|reflexivity]. destruct (w_map W map k bufLen); [reflexivity|]. destruct dflt as [f|]; [|reflexivity].
  rewrite E. reflexivity.
Qed.

(** A format built in an array of its own. *)
Lemma local_build l bufEnd e : Forall value_ok l ->
  let r := build_items W l false bufEnd (Bs e (DLocal []) 0 false) in
  cached e (bs_eng r.2) /\
  match format_text W l false bufEnd (view_of W e) ([], false) with
  | None => r.1 = false
  | Some (p, _) => r.1 = true /\ ztake (bs_off r.2) (bs_text r.2) = p
  end.
Proof.
  intros Hl. destruct (build_items_ok (DLocal []) l false bufEnd Hl e [] [] false I I ltac:(reflexivity) ltac:(reflexivity)) as (e' & He & Hin & Hf). cbv zeta in *. cbn [mk] in *.
  change (zlen (@nil Z)) with 0 in *. destruct (build_items W l false bufEnd (Bs e (DLocal []) 0 false)) as [ok s]. cbn [fst snd] in *. split.
  - destruct Hin as (t & off & esc & ->). exact He.
  - destruct (format_text _ _ _ _ _ _) as [[p esc]|]; [|exact Hf]. destruct Hf as (t & [= -> ->] & Hp & _). split; [reflexivity|]. exact Hp.
Qed.

Lemma every_value_ok it : value_ok it.
Proof.
  induction it as [s|map key dflt Hkey Hd|i|i|n|n|t] using item_ind'; intros bufLen e; try (split; [reflexivity|apply cached_refl]).
  - rewrite value_of_map, text_of_map. destruct (local_build key 1023 e Hkey) as [Hc Hk]. cbv zeta in *. destruct (build_items W key false 1023 _) as [ok s]. cbn [fst snd] in *.
    destruct (format_text W key false 1023 (view_of W e) ([], false)) as [[k esc]|]; [|subst ok; split; [reflexivity|exact Hc]]. destruct Hk as [-> ->]. cbn [negb].
    destruct (w_map W map k bufLen); [split; [reflexivity|exact Hc]|]. destruct dflt as [f|]; [|split; [reflexivity|exact Hc]]. destruct (bufLen <=? 0); [split; [reflexivity|exact Hc]|].
    destruct (local_build f (bufLen - 1) (bs_eng s) Hd) as [Hc2 Hf]. cbv zeta in *. rewrite (cached_view _ _ Hc) in Hf. destruct (build_items W f false (bufLen - 1) _) as [ok2 s2]. cbn [fst snd] in *.
    split; [|exact (cached_trans _ _ _ Hc Hc2)]. destruct (format_text W f false (bufLen - 1) _ _) as [[p esc2]|]; [destruct Hf as [-> ->]; reflexivity|subst ok2; reflexivity].
  - apply server_var_ok.
Qed.
End values.

(** ** The length of a text *)

Lemma unescape_short l : forall prev, zlen (unescape_from prev l).1 <= zlen l.
Proof.
  induction l as [l IH] using (well_founded_induction (well_founded_ltof _ (@length Z))). intros prev. destruct l as [|c r]; [reflexivity|].
  assert (Hplain : zlen (let '(d, ok) := unescape_from c r in if (c =? 47) && (hd 0 r =? 47) then (if prev =? 58 then c :: d else d, ok) else (c :: d, ok)).1 <= zlen (c :: r)).
  { pose proof (IH r ltac:(unfold ltof; cbn; lia) c) as H. destruct (unescape_from c r) as [d ok]. cbn [fst] in H. rewrite zlen_cons. destruct (_ && _); [destruct (prev =? 58)|]; cbn [fst]; rewrite ?zlen_cons; lia. }
  cbn [unescape_from]. destruct (c =? 37); [|exact Hplain]. destruct r as [|x1 [|x2 r']]; try exact Hplain.
  destruct (isxdigit x1 && isxdigit x2); [|cbn [fst]; rewrite !zlen_cons; pose proof (zlen_nonneg r'); change (zlen (@nil Z)) with 0; lia].
  pose proof (IH r' ltac:(unfold ltof; cbn; lia) x2) as H. destruct (unescape_from x2 r') as [d ok]. cbn [fst] in *. rewrite !zlen_cons. lia.
Qed.

Lemma merge_short nodup inplace p v : zlen (merge nodup inplace p v).1 + zlen (merge nodup inplace p v).2 <= zlen p + zlen v.
Proof.
  unfold merge. destruct (_ && (znth p (zlen p - 1) =? 47)); [|reflexivity]. destruct inplace; cbn [fst snd].
  - destruct v; cbn [tl]; rewrite ?zlen_cons; lia.
  - unfold ztake, zlen in *. rewrite length_take. lia.
Qed.

Lemma append_text_bound it nodup bufEnd flag val p esc p' esc' : zlen p <= bufEnd -> append_text it nodup bufEnd flag val (p, esc) = Some (p', esc') -> zlen p' <= bufEnd.
Proof.
  intros Hp. unfold append_text. destruct val as [[inplace v]|]; [|discriminate]. destruct ((zlen v <=? 0) || _) eqn:E; [intros [= <- <-]; exact Hp|]. apply orb_false_iff in E as [_ E]. apply Z.leb_gt in E.
  pose proof (merge_short nodup inplace p v) as Hm. destruct (merge nodup inplace p v) as [q w]. cbn [fst snd] in Hm. pose proof (zlen_nonneg q).
  destruct (esc && _); [|intros [= <- <-]; rewrite zlen_app; lia]. destruct (_ && needsUnsafe3FEscape it).
  - unfold escape_unsafe_3f. destruct (existsb _ w); [|intros [= <- <-]; rewrite zlen_app; lia]. destruct (zlen (escape_3f w) >? bufEnd - zlen q) eqn:Er; [discriminate|]. intros [= <- <-]. rewrite zlen_app. lia.
  - destruct (memchr 63 w) as [n|] eqn:Em.
    + apply memchr_Some in Em as (Hn & _ & _). destruct (_ && needUrlDecode it); [|intros [= <- <-]; rewrite zlen_app; lia]. unfold unescape. pose proof (unescape_short (ztake n w) 0) as Hu. destruct (unescape_from 0 (ztake n w)) as [d [|]]; [|discriminate].
      intros [= <- <-]. cbn [fst] in Hu. rewrite !zlen_app. rewrite zlen_ztake in Hu by lia. rewrite zlen_zdrop by lia. lia.
    + destruct (_ && needUrlDecode it); [|intros [= <- <-]; rewrite zlen_app; lia]. unfold unescape. pose proof (unescape_short w 0) as Hu. destruct (unescape_from 0 w) as [d [|]]; [|discriminate].
      intros [= <- <-]. cbn [fst] in Hu. rewrite !zlen_app. change (zlen (@nil Z)) with 0. lia.
Qed.

Lemma format_text_bound W l nodup bufEnd v : forall p esc p' esc', zlen p <= bufEnd -> format_text W l nodup bufEnd v (p, esc) = Some (p', esc') -> zlen p' <= bufEnd.
Proof.
  induction l as [|it l IH]; intros p esc p' esc' Hp; cbn [format_text]; [intros [= <- <-]; exact Hp|].
  destruct (append_text _ _ _ _ _ (p, esc)) as [[q esc1]|] eqn:E; [|discriminate]. cbn [mbind option_bind]. apply IH. exact (append_text_bound _ _ _ _ _ _ _ _ _ Hp E).
Qed.

Lemma buildString_ok W f d len esc nodup e : room_for d e -> apart d e ->
  exists e', cached W e e' /\ inside d e' (buildString W f d len esc nodup e).2 /\
    match expansion W f len esc nodup (view_of W e) with
    | None => (buildString W f d len esc nodup e).1 = None
    | Some t => (buildString W f d len esc nodup e).1 = Some (zlen t) /\ zlen t < len /\
                ztake (zlen t + 1) (bs_text (buildString W f d len esc nodup e).2) = t ++ [0]
    end.
Proof.
  intros Hr Ha. unfold buildString, expansion. rewrite (mk_self d e Hr). destruct (Z.leb_spec len 0) as [|Hlen].
  { exists e. split; [apply cached_refl|]. split; [exists (dst_text d e), 0, esc; reflexivity|reflexivity]. }
  destruct (build_items_ok W d f nodup (len - 1) ltac:(apply Forall_forall; intros; apply every_value_ok) e (dst_text d e) [] esc Hr Ha ltac:(reflexivity) ltac:(apply zlen_nonneg)) as (e' & He & Hin & Hf).
  change (zlen (@nil Z)) with 0 in *. cbv zeta in *. exists e'. split; [exact He|]. destruct (build_items W f nodup (len - 1) _) as [ok s]. cbn [fst snd] in *.
  assert (Hr' : room_for d e') by (destruct He as [->| ->]; destruct d; exact Hr).
  destruct (format_text _ _ _ _ _ _) as [[p esc']|] eqn:Ef; cbn [option_map fst].
  - destruct Hf as (t & [= -> ->] & Hp & Hl). rewrite mk_off by exact Hr'. cbn [fst snd]. split; [apply inside_put; [exact Hr'|exact Hin]|]. split; [reflexivity|].
    assert (zlen p <= len - 1) by (refine (format_text_bound _ _ _ _ _ [] _ _ _ _ Ef); change (zlen (@nil Z)) with 0; lia). split; [lia|].
    rewrite mk_put, mk_text by exact Hr'. pose proof (zlen_nonneg p). change (zlen p + 1) with (zlen p + zlen [0]). rewrite ztake_store_in by lia. rewrite Hp. reflexivity.
  - cbn [follows fst] in Hf. subst ok. split; [exact Hin|reflexivity].
Qed.
