(* ===== verification/RewriteConds.v ===== *)
(** * RewriteConds: what the conditions of a rewrite rule say
    (src/src/http/rewriteengine.cpp)

    A reference reading of a rule's conditions, and the proof that the loop over them,
    with the test string and the file status it keeps from one to the next and the
    buffers it exchanges, follows it. *)

From S2P Require Import Prelude Headers Request Uri Rewrite RewriteRun RewriteSpec.
#[local] Open Scope Z_scope.

(** ** Formats without the groups of a condition *)

Fixpoint no_cond (it : RewriteSubstItem) : bool :=
  match it with
  | It_COND_SUBSTR _ => false
  | It_MAP _ key dflt => forallb no_cond key && match dflt with Some f => forallb no_cond f | None => true end
  | _ => true
  end.
Definition forget (v : view) : view :=
  View (v_url v) (v_len v) (v_qs v) (v_strip v) (v_ruleVec v) (v_ruleMatches v) [] [] 0 (v_flag v) (v_noEscape v) (v_paths v) (v_trace v).

Section reading.
Context (W : world).

(** ** The reference *)

Definition file_says (op : RWCOND_OPS) (st : filestat) : bool :=
  match op with
  | COND_OP_DIR => st_isdir st
  | COND_OP_FILE | COND_OP_FILE_ACC => st_isreg st
  | COND_OP_SIZE => st_isreg st && negb (st_size st =? 0)
  | COND_OP_SYM => st_islnk st
  | COND_OP_EXEC => st_isreg st && st_xusr st
  | _ => false
  end.
Definition test_says (c : RewriteCond) (t : list Z) (v : view) : bool :=
  let order := (if has (c_flag c) COND_FLAG_NOCASE then strcasecmp else strcmp) (cstr t) (cstr (c_pattern c)) in
  let diff := wraps 64 (strtoll (cstr t) - strtoll (cstr (c_pattern c))) in
  match c_opcode c with
  | COND_OP_REGEX => 0 <=? (w_exec W (c_pattern c) (has (c_flag c) COND_FLAG_NOCASE) t).1
  | COND_OP_LESS => order <? 0
  | COND_OP_GREATER => 0 <? order
  | COND_OP_EQ => order =? 0
  | COND_OP_GE => 0 <=? order
  | COND_OP_LE => order <=? 0
  | COND_OP_LESS_NUM => diff <? 0
  | COND_OP_GREATER_NUM => 0 <? diff
  | COND_OP_EQ_NUM => diff =? 0
  | COND_OP_GE_NUM => 0 <=? diff
  | COND_OP_LE_NUM => diff <=? 0
  | COND_OP_NE_NUM => negb (diff =? 0)
  | COND_OP_EXPR => 0 <? w_expr W (c_pattern c) (v_trace v)
  | COND_OP_URL_ACC => true
  | op => let '(r, st) := w_fileStat W (cstr t) (v_trace v) in (r =? 0) && file_says op st
  end.

(** A condition whose test string cannot be built does not hold. *)
Definition cond_says (v : view) (c : RewriteCond) : bool :=
  match expansion W (c_testStringFormat c) (REWRITE_BUF_SIZE - 1) true true v with
  | None => false
  | Some t => xorb (has (c_flag c) COND_FLAG_NOMATCH) (test_says c t v)
  end.

(** The conditions up to the next one without OR are a group; the last group may be
    left open by an OR, and then says nothing. *)
Fixpoint or_groups (l : list RewriteCond) : list (list RewriteCond * bool) :=
  match l with
  | [] => []
  | c :: l =>
      if has (c_flag c) COND_FLAG_OR then
        match or_groups l with (g, closed) :: gs => (c :: g, closed) :: gs | [] => [([c], false)] end
      else ([c], true) :: or_groups l
  end.
Definition group_says (v : view) (g : list RewriteCond * bool) : bool := negb g.2 || existsb (cond_says v) g.1.
Definition conds_say (v : view) (l : list RewriteCond) : bool := forallb (group_says v) (or_groups l).

(** ** Texts without the groups of a condition *)

Lemma format_text_forget l nodup bufEnd v : Forall (fun it => no_cond it = true -> forall b v, item_text W it b v = item_text W it b (forget v)) l -> forallb no_cond l = true ->
  forall s, format_text W l nodup bufEnd v s = format_text W l nodup bufEnd (forget v) s.
Proof.
  induction 1 as [|it l Hit _ IH]; intros Hn s; [reflexivity|]. cbn [forallb] in Hn. apply andb_true_iff in Hn as [H1 H2]. cbn [format_text]. rewrite (Hit H1). cbn [v_flag forget].
  destruct (append_text _ _ _ _ _ _); [apply IH, H2|reflexivity].
Qed.

Lemma item_text_forget it : no_cond it = true -> forall b v, item_text W it b v = item_text W it b (forget v).
Proof.
  induction it as [s|map key dflt Hkey Hd|i|i|n|n|t] using item_ind'; intros Hn b v; try reflexivity; [|discriminate].
  cbn [no_cond] in Hn. apply andb_true_iff in Hn as [H1 H2]. rewrite !text_of_map. rewrite (format_text_forget key false 1023 v Hkey H1). destruct (format_text W key false 1023 (forget v) _) as [[k ?]|]; [|reflexivity].
  destruct (w_map W map k b); [reflexivity|]. destruct dflt as [f|]; [|reflexivity]. rewrite (format_text_forget f false (b - 1) v Hd H2). reflexivity.
Qed.

Lemma expansion_forget f len esc nodup v : forallb no_cond f = true -> expansion W f len esc nodup v = expansion W f len esc nodup (forget v).
Proof. intros Hn. unfold expansion. rewrite (format_text_forget f nodup (len - 1) v); [reflexivity|apply Forall_forall; intros; apply item_text_forget; assumption|exact Hn]. Qed.

Lemma cond_says_forget v c : forallb no_cond (c_testStringFormat c) = true -> cond_says v c = cond_says (forget v) c.
Proof. intros Hn. unfold cond_says. rewrite (expansion_forget _ _ _ _ v Hn). reflexivity. Qed.
End reading.

(** ** C strings in a buffer *)

Lemma cstr_cons c l : cstr (c :: l) = if c =? 0 then [] else c :: cstr l.
Proof.
  unfold cstr. cbn [memchr]. destruct (c =? 0); [reflexivity|]. destruct (memchr 0 l) as [n|] eqn:E; [|reflexivity]. apply memchr_Some in E as (Hn & _ & _). cbn [option_map].
  rewrite ztake_cons by lia. replace (1 + n - 1) with n by lia. reflexivity.
Qed.

Lemma cstr_app t r : cstr (t ++ 0 :: r) = cstr t.
Proof. induction t as [|c t IH]; [reflexivity|]. cbn [app]. rewrite !cstr_cons, IH. reflexivity. Qed.

Lemma cstr_prefix t b : ztake (zlen t + 1) b = t ++ [0] -> cstr b = cstr t /\ ztake (zlen t) b = t.
Proof.
  intros H. split.
  - rewrite <- (ztake_zdrop (zlen t + 1) b), H, <- app_assoc. apply cstr_app.
  - rewrite <- (ztake_ztake (zlen t) (zlen t + 1)) by lia. rewrite H. apply ztake_app_exact.
Qed.

Lemma format_equal_eq f : forall g, format_equal f g = true -> f = g.
Proof.
  induction f as [|x f IH]; intros [|y g]; cbn; try discriminate; [reflexivity|]. rewrite andb_true_iff. intros [Hx Hg]. rewrite (IH g Hg). f_equal.
  destruct x, y; cbn in Hx; try discriminate; f_equal; lia.
Qed.

(** ** The state between two conditions *)

(** Three buffers, one each for the next URL, the condition that matched and the next
    test string, and the URL in neither of the last two: so a run of the rules begins,
    and so a rule leaves the engine unless its substitution fails ([processRewrite_good]). *)
Record good (e : RewriteEngine) : Prop := {
  g_three : length (m_rewriteBuf e) = 3%nat;
  g_free : (m_pFreeBuf e < 3)%nat;
  g_cond : (m_pCondBuf e < 3)%nat;
  g_apart : m_pFreeBuf e <> m_pCondBuf e;
  g_dest : (m_pDestURL e < 3)%nat /\ m_pDestURL e <> m_pFreeBuf e /\ m_pDestURL e <> m_pCondBuf e;
  g_src : m_pSourceURL e <> PBuf (m_pFreeBuf e) /\ m_pSourceURL e <> PBuf (m_pCondBuf e)
}.

Section run.
Context (W : world).

(** The file status that is kept is that of the text, or is to be asked for. *)
Definition stat_ok (t : list Z) (e : RewriteEngine) : Prop :=
  let '(r, st) := w_fileStat W (cstr t) (m_trace e) in m_noStat e = 1 \/ (m_noStat e = r /\ (r = 0 -> m_st e = st)).

(** The text [t] is the one that is kept. *)
Record kept (t : list Z) (e : RewriteEngine) : Prop := {
  k_where : exists i, m_pLastTestStr e = Some i /\ (i = m_pFreeBuf e \/ i = m_pCondBuf e) /\ ztake (zlen t + 1) (buffer i e) = t ++ [0];
  k_len : m_lastTestStrLen e = zlen t;
  k_stat : stat_ok t e
}.
Definition kept_for (f : RewriteSubstFormat) (e : RewriteEngine) : Prop :=
  match expansion W f (REWRITE_BUF_SIZE - 1) true true (view_of W e) with Some t => kept t e | None => m_pLastTestStr e = None end.
Definition cache_ok (e : RewriteEngine) : Prop :=
  match m_pLastCondStr e with Some f => forallb no_cond f = true /\ kept_for f e | None => True end.
Definition alike (e e' : RewriteEngine) : Prop := forget (view_of W e') = forget (view_of W e).

Lemma kept_for_alike f e e' : forallb no_cond f = true -> alike e e' -> expansion W f (REWRITE_BUF_SIZE - 1) true true (view_of W e') = expansion W f (REWRITE_BUF_SIZE - 1) true true (view_of W e).
Proof. intros Hn Ha. rewrite (expansion_forget W _ _ _ _ _ Hn), Ha, <- (expansion_forget W _ _ _ _ _ Hn). reflexivity. Qed.

Lemma cstr_stat t i e : kept t e -> m_pLastTestStr e = Some i -> cstr (buffer i e) = cstr t /\ ztake (m_lastTestStrLen e) (buffer i e) = t.
Proof. intros [(j & Hj & _ & Hb) Hl _] Hi. rewrite Hi in Hj. injection Hj as <-. rewrite Hl. apply cstr_prefix, Hb. Qed.

Lemma test_string_ok c e : good e -> cache_ok e -> forallb no_cond (c_testStringFormat c) = true ->
  let '(p, e') := test_string W c e in
  good e' /\ alike e e' /\ m_pLastCondStr e' = Some (c_testStringFormat c) /\ p = m_pLastTestStr e' /\ kept_for (c_testStringFormat c) e'.
Proof.
  intros Hg Hc Hn. unfold test_string, cache_ok in *. destruct (match m_pLastCondStr e with Some f => _ | None => false end) eqn:Eq.
  - destruct (m_pLastCondStr e) as [f|] eqn:El; [|discriminate]. apply format_equal_eq in Eq as ->. destruct Hc as [_ Hk]. split; [exact Hg|]. split; [reflexivity|]. auto.
  - clear Hc. destruct Hg as [H3 Hfr Hco Hap Hd [Hs1 Hs2]].
    destruct (buildString_ok W (c_testStringFormat c) (DBuf (m_pFreeBuf e)) (REWRITE_BUF_SIZE - 1) true true e) as (e1 & He1 & (t & off & esc & Hin) & Hb); [cbn; lia|split; [exact Hs1|congruence]|].
    destruct (buildString W _ (DBuf (m_pFreeBuf e)) _ true true e) as [len s]. cbn [fst snd] in *. subst s.
    assert (Hap1 : apart (DBuf (m_pFreeBuf e)) e1) by (destruct He1 as [->| ->]; split; cbn; congruence).
    assert (Hr1 : room_for (DBuf (m_pFreeBuf e)) e1) by (destruct He1 as [->| ->]; cbn; lia).
    assert (Hview : view_of W (bs_eng (mk (DBuf (m_pFreeBuf e)) e1 t off esc)) = view_of W e) by (rewrite mk_view by exact Hap1; apply cached_view, He1).
    assert (Hsame : m_pFreeBuf e1 = m_pFreeBuf e /\ m_pCondBuf e1 = m_pCondBuf e /\ m_pSourceURL e1 = m_pSourceURL e /\ length (m_rewriteBuf e1) = 3%nat /\ m_pDestURL e1 = m_pDestURL e) by (destruct He1 as [->| ->]; auto 6).
    destruct Hsame as (Hf1 & Hc1 & Hs & Hl1 & Hd1). set (e2 := bs_eng _) in *.
    set (e3 := set_noStat 1 _). assert (Hv3 : view_of W e3 = view_of W e) by exact Hview.
    split; [constructor; cbn; rewrite ?length_insert, ?Hf1, ?Hc1, ?Hs, ?Hd1; auto|]. split; [unfold alike; rewrite Hv3; reflexivity|]. split; [reflexivity|]. split; [reflexivity|].
    unfold kept_for. rewrite Hv3. destruct (expansion W _ _ true true (view_of W e)) as [x|]; [|unfold e3; rewrite Hb; reflexivity]. destruct Hb as (-> & Hlx & Htx).
    constructor; [|reflexivity|unfold stat_ok; destruct (w_fileStat W _ _); left; reflexivity].
    exists (m_pFreeBuf e). split; [reflexivity|]. split; [left; exact (eq_sym Hf1)|]. exact Htx.
Qed.

(** The file status is asked for once for each text. *)
Definition with_stat (t : list Z) (e : RewriteEngine) : RewriteEngine :=
  if m_noStat e =? 1 then let '(r, st) := w_fileStat W t (m_trace e) in let e := set_noStat r e in if r =? 0 then set_st st e else e else e.

Lemma with_stat_ok t e : kept t e ->
  kept t (with_stat (cstr t) e) /\ (exists r st, with_stat (cstr t) e = set_st st (set_noStat r e)) /\
  forall op, (forall st, file_test op st = negb (file_says op st)) ->
    (if m_noStat (with_stat (cstr t) e) =? 0 then file_test op (m_st (with_stat (cstr t) e)) else true) =
    negb (let '(r, st) := w_fileStat W (cstr t) (m_trace e) in (r =? 0) && file_says op st).
Proof.
  intros Hk. pose proof Hk as [Hw Hl Hst]. unfold stat_ok, with_stat in *. destruct (w_fileStat W (cstr t) (m_trace e)) as [r st] eqn:Est. destruct (Z.eqb_spec (m_noStat e) 1) as [E1|E1].
  - split.
    + destruct (r =? 0) eqn:E0; constructor; try exact Hw; try exact Hl; unfold stat_ok; cbn; rewrite Est; right; (split; [reflexivity|intros ->; try reflexivity; discriminate]).
    + split; [destruct (r =? 0); [exists r, st; reflexivity|exists r, (m_st e); reflexivity]|]. intros op Hop. destruct (r =? 0) eqn:E0; cbn; rewrite E0; [apply Hop|reflexivity].
  - destruct Hst as [|[Hr Hs]]; [contradiction|]. split; [exact Hk|]. split; [exists (m_noStat e), (m_st e); destruct e; reflexivity|]. intros op Hop. rewrite Hr. destruct (Z.eqb_spec r 0) as [E0|]; [rewrite Hs by exact E0; apply Hop|reflexivity].
Qed.

(** What a test on the kept text says. *)
Lemma cond_test_ok c t i e : kept t e -> m_pLastTestStr e = Some i ->
  let '(bad, m, ov, e') := cond_test W c i e in
  bad = negb (test_says W c t (view_of W e)) /\ kept t e' /\ exists r st, e' = set_st st (set_noStat r e).
Proof.
  intros Hk Hi. destruct (cstr_stat t i e Hk Hi) as [Hcs Htk]. pose proof (with_stat_ok t e Hk) as (Hk' & He' & Hf). unfold with_stat in *. unfold cond_test, test_says. rewrite Hcs, Htk.
  assert (Hid : exists r st, e = set_st st (set_noStat r e)) by (exists (m_noStat e), (m_st e); destruct e; reflexivity).
  change (v_trace (view_of W e)) with (m_trace e).
  destruct (c_opcode c); cbn [compare];
    try (destruct (w_exec W _ _ t) as [ret ov]; cbn [fst]);
    try (split; [cbn; lia|split; [exact Hk|exact Hid]]);
    (split; [apply Hf; intros [d r l x z]; cbn; destruct d, r, l, x, (z =? 0); reflexivity|split; [exact Hk'|exact He']]).
Qed.

(** ** The loop *)

Lemma processCond_ok c e : good e -> cache_ok e -> forallb no_cond (c_testStringFormat c) = true ->
  let '(bad, e') := processCond W c e in bad = negb (cond_says W (view_of W e) c) /\ good e' /\ cache_ok e' /\ alike e e'.
Proof.
  intros Hg Hc Hn. unfold processCond. pose proof (test_string_ok c e Hg Hc Hn) as Ht. destruct (test_string W c e) as [p e1]. destruct Ht as (Hg1 & Ha1 & Hl1 & Hp & Hk1).
  rewrite (cond_says_forget W (view_of W e) c Hn), <- Ha1, <- (cond_says_forget W (view_of W e1) c Hn). unfold kept_for in Hk1. unfold cond_says.
  destruct (expansion W (c_testStringFormat c) _ true true (view_of W e1)) as [t|] eqn:Ex.
  2: { rewrite Hp, Hk1. split; [reflexivity|]. split; [exact Hg1|]. split; [|exact Ha1]. unfold cache_ok. rewrite Hl1. split; [exact Hn|]. unfold kept_for. rewrite Ex. exact Hk1. }
  destruct (k_where _ _ Hk1) as (i & Hi & Hwh & _). rewrite Hp, Hi. pose proof (cond_test_ok c t i e1 Hk1 Hi) as Hct. destruct (cond_test W c i e1) as [[[bad m] ov] e2]. destruct Hct as (-> & Hk2 & (r & st & E2)).
  assert (Hg2 : good e2) by (subst e2; destruct Hg1; constructor; assumption). assert (Hv2 : view_of W e2 = view_of W e1) by (subst e2; reflexivity).
  assert (Hl2 : m_pLastCondStr e2 = Some (c_testStringFormat c)) by (subst e2; exact Hl1). assert (Hi2 : m_pLastTestStr e2 = Some i) by (subst e2; exact Hi).
  assert (Hok : forall e3, alike e2 e3 -> m_pLastCondStr e3 = m_pLastCondStr e2 -> kept t e3 -> cache_ok e3).
  { intros e3 Ha Hl Hk. unfold cache_ok. rewrite Hl, Hl2. split; [exact Hn|]. unfold kept_for. rewrite (kept_for_alike _ _ _ Hn Ha), Hv2, Ex. exact Hk. }
  assert (Ha2 : alike e e2) by (unfold alike; rewrite Hv2; exact Ha1).
  destruct (has (c_flag c) COND_FLAG_NOMATCH).
  { refine (conj _ (conj Hg2 (conj (Hok e2 eq_refl eq_refl Hk2) Ha2))). destruct (test_says W c t _); reflexivity. }
  rewrite xorb_false_l. destruct (m >? 0); [|exact (conj eq_refl (conj Hg2 (conj (Hok e2 eq_refl eq_refl Hk2) Ha2)))].
  set (e3 := if Nat.eqb i (m_pFreeBuf e2) then set_pCondBuf i (set_pFreeBuf (m_pCondBuf e2) e2) else e2).
  assert (H3 : good e3 /\ kept t e3 /\ alike e2 e3 /\ m_pLastCondStr e3 = m_pLastCondStr e2).
  { unfold e3. destruct (Nat.eqb_spec i (m_pFreeBuf e2)) as [->|Hne]; [|exact (conj Hg2 (conj Hk2 (conj eq_refl eq_refl)))].
    destruct Hg2 as [H3 Hfr Hco Hap (Hd1 & Hd2 & Hd3) [Hs1 Hs2]]. destruct Hk2 as [(j & Hj & Hjw & Hb) Hln Hst]. split; [constructor; cbn; auto|]. split; [|split; reflexivity].
    constructor; [|exact Hln|exact Hst]. exists j. rewrite Hi2 in Hj. injection Hj as <-. split; [exact Hi2|]. split; [right; reflexivity|exact Hb]. }
  destruct H3 as (Hg3 & Hk3 & Ha3 & Hl3). split; [reflexivity|]. split; [destruct Hg3; constructor; assumption|].
  assert (Ha4 : alike e2 (set_condVec ov (set_condMatches m e3))) by exact Ha3. split; [|unfold alike in *; congruence].
  apply Hok; [exact Ha4|exact Hl3|]. destruct Hk3 as [(j & Hj) Hln Hst]. constructor; [exists j; exact Hj|exact Hln|exact Hst].
Qed.

(** What is left of the groups when the rest of the first one is left out. *)
Definition says_after (v : view) (skip : bool) (l : list RewriteCond) : bool :=
  if skip then forallb (group_says W v) (tl (or_groups l)) else conds_say W v l.

Lemma says_after_cons v c l skip :
  says_after v skip (c :: l) =
    if skip then says_after v (has (c_flag c) COND_FLAG_OR) l
    else if cond_says W v c then says_after v (has (c_flag c) COND_FLAG_OR) l
    else has (c_flag c) COND_FLAG_OR && says_after v false l.
Proof.
  unfold says_after, conds_say. cbn [or_groups]. destruct (has (c_flag c) COND_FLAG_OR).
  - destruct (or_groups l) as [|[g closed] gs]; destruct skip; cbn; unfold group_says; cbn; destruct (cond_says W v c); cbn; rewrite ?orb_true_r, ?andb_true_r; reflexivity.
  - destruct skip; cbn; unfold group_says; cbn; destruct (cond_says W v c); reflexivity.
Qed.

Lemma processConds_ok l : forall skip e, good e -> cache_ok e -> forallb (fun c => forallb no_cond (c_testStringFormat c)) l = true ->
  forall v, forget v = forget (view_of W e) -> (processConds W l skip e).1 = says_after v skip l /\ good (processConds W l skip e).2.
Proof.
  induction l as [|c l IH]; intros skip e Hg Hc Hn v Hv; [destruct skip; (split; [reflexivity|exact Hg])|]. cbn [forallb] in Hn. apply andb_true_iff in Hn as [H1 H2]. rewrite says_after_cons. cbn [processConds].
  destruct skip; [exact (IH _ e Hg Hc H2 v Hv)|]. pose proof (processCond_ok c e Hg Hc H1) as Hp. destruct (processCond W c e) as [bad e']. destruct Hp as (-> & Hg' & Hc' & Ha').
  rewrite (cond_says_forget W v c H1), Hv, <- (cond_says_forget W _ c H1). assert (Hv' : forget v = forget (view_of W e')) by (rewrite Hv; symmetry; exact Ha').
  destruct (cond_says W (view_of W e) c); cbn [negb]; [exact (IH _ e' Hg' Hc' H2 v Hv')|]. destruct (has (c_flag c) COND_FLAG_OR); [exact (IH _ e' Hg' Hc' H2 v Hv')|split; [reflexivity|exact Hg']].
Qed.
End run.
