(* ===== verification/RewriteClaims.v ===== *)
(** * RewriteClaims: the rewrite engine
    (src/src/http/rewriteengine.cpp)

    Which rules apply, that a set of rules comes to an end, what the flags of a rule
    that do not fit into the engine's member do, and where the engine fails. *)

From S2P Require Import Prelude Headers Request Uri Rewrite RewriteRun RewriteSpec RewriteConds.
#[local] Open Scope Z_scope.

(** ** The order of the rules ends *)

(** A skip that goes on to a later rule. *)
Definition skip_ok (r : RewriteRule) : Prop := 0 <= r_skipRules r < 2 ^ 31 - 1.
Definition ctx_ok (c : HttpContext) : Prop := match x_rewriteRules c with Some l => Forall skip_ok l | None => True end.
Definition place_ok (p : place) : Prop := Forall skip_ok (p_rules p) /\ Forall ctx_ok (p_context p) /\ Forall ctx_ok (p_root p).

(** No more rules than this follow one another. *)
Definition all_rules (pRuleList : option (list RewriteRule)) (context root : list HttpContext) : nat :=
  ((match pRuleList with Some l => length l | None => 0 end) + list_sum (map rules_of context) + list_sum (map rules_of root))%nat.

Lemma inherited_shrinks c parents : forall l ctx, inherited c parents = (l, ctx) ->
  (length l + match ctx with [] => 0 | _ :: up => list_sum (map rules_of up) end <= list_sum (map rules_of parents))%nat.
Proof.
  revert c. induction parents as [|p up IH]; intros c l ctx; cbn [inherited]; [intros [= <- <-]; cbn; lia|].
  change (list_sum (map rules_of (p :: up))) with (rules_of p + list_sum (map rules_of up))%nat.
  destruct (x_inherit c); [|intros [= <- <-]; cbn [length]; change (list_sum (map rules_of (p :: up))) with (rules_of p + list_sum (map rules_of up))%nat; lia].
  destruct (x_hasRewriteConfig p); [|intros E; apply IH in E; lia].
  destruct (x_rewriteRules p) eqn:Er; [intros [= <- <-]; unfold rules_of at 2; rewrite Er; lia|]. intros E. apply IH in E. lia.
Qed.

Lemma inherited_ok c parents : Forall ctx_ok (c :: parents) -> forall l ctx, inherited c parents = (l, ctx) -> Forall skip_ok l /\ Forall ctx_ok ctx.
Proof.
  revert c. induction parents as [|p up IH]; intros c Hc l ctx; cbn [inherited]; [intros [= <- <-]; auto|].
  destruct (x_inherit c); [|intros [= <- <-]; auto]. apply Forall_cons in Hc as [Hc Hp]. pose proof Hp as Hp'. apply Forall_cons in Hp as [Hp Hup]. unfold ctx_ok in Hp.
  destruct (x_hasRewriteConfig p); [|intros E; exact (IH _ Hp' _ _ E)]. destruct (x_rewriteRules p) eqn:Er; [intros [= <- <-]; auto|]. intros E. exact (IH _ Hp' _ _ E).
Qed.

Lemma next_list_ahead p : place_ok p -> place_ok (next_list p) /\ (rules_ahead (next_list p) + length (p_rules p) <= rules_ahead p)%nat.
Proof.
  intros (H1 & H2 & H3). unfold next_list, rules_ahead. destruct (p_context p) as [|c parents] eqn:Ec.
  - destruct (p_root p) as [|r up] eqn:Er; [repeat split; auto; cbn; lia|]. apply Forall_cons in H3 as [Hr Hup]. cbn [p_rules p_context p_root map]. split.
    + split; [|split; [constructor; [exact Hr|constructor]|exact Hup]]. cbn. unfold ctx_ok in Hr. destruct (x_rewriteRules r); auto.
    + unfold rules_of. destruct (x_rewriteRules r); cbn; lia.
  - destruct (inherited c parents) as [l ctx] eqn:Ei. pose proof (inherited_shrinks _ _ _ _ Ei). destruct (inherited_ok c parents H2 _ _ Ei). split; [split; auto|]. cbn. destruct ctx; [|lia].
    exfalso. clear - Ei. revert c Ei. induction parents as [|q up IH]; intros c; cbn; [discriminate|]. destruct (x_inherit c); [|discriminate]. destruct (if x_hasRewriteConfig q then _ else _); [discriminate|]. apply IH.
Qed.

Lemma getNextRule_ahead p : place_ok p -> p_rules p <> [] -> place_ok (getNextRule p) /\ (rules_ahead (getNextRule p) < rules_ahead p)%nat.
Proof.
  intros Hp Hne. pose proof (next_list_ahead p Hp) as [Hn Hl]. unfold getNextRule. destruct (p_rules p) as [|r [|r' l]] eqn:E; [congruence|cbn in Hl; split; [exact Hn|lia]|].
  destruct Hp as (H1 & H2 & H3). rewrite E in H1. apply Forall_cons in H1 as [_ H1]. split; [split; auto|]. unfold rules_ahead. rewrite E. cbn. lia.
Qed.

Lemma skip_chain_ahead fuel : forall flag p, place_ok p -> place_ok (skip_chain fuel flag p).2 /\ (rules_ahead (skip_chain fuel flag p).2 <= rules_ahead p)%nat.
Proof.
  induction fuel as [|fuel IH]; intros flag p Hp; cbn; [auto|]. destruct (p_rules p) as [|r l] eqn:E; [auto|]. destruct (has flag RULE_FLAG_CHAIN); [|auto].
  destruct (getNextRule_ahead p Hp ltac:(congruence)) as [Hg Hl]. destruct (IH (r_flag r) _ Hg). split; [assumption|lia].
Qed.

Lemma skip_rules_ahead n : forall p, place_ok p -> place_ok (skip_rules n p) /\ (rules_ahead (skip_rules n p) <= rules_ahead p)%nat.
Proof.
  induction n as [|n IH]; intros p Hp; cbn; [auto|]. destruct (p_rules p) as [|r l] eqn:E; [auto|].
  destruct (getNextRule_ahead p Hp ltac:(congruence)) as [Hg Hl]. destruct (IH _ Hg). split; [assumption|lia].
Qed.

Lemma root_next p : (list_sum (map rules_of (p_root (next_list p))) <= list_sum (map rules_of (p_root p)))%nat.
Proof.
  unfold next_list. destruct (p_context p) as [|c up]; [|destruct (inherited c up); reflexivity]. destruct (p_root p) as [|x y]; [reflexivity|].
  change (list_sum (map rules_of (x :: y))) with (rules_of x + list_sum (map rules_of y))%nat. cbn [p_root]. lia.
Qed.
Lemma root_shrinks p : (list_sum (map rules_of (p_root (getNextRule p))) <= list_sum (map rules_of (p_root p)))%nat.
Proof. unfold getNextRule. destruct (p_rules p) as [|r [|r' l]]; [apply root_next|apply root_next|reflexivity]. Qed.
Lemma chain_root fuel : forall flag p, (list_sum (map rules_of (p_root (skip_chain fuel flag p).2)) <= list_sum (map rules_of (p_root p)))%nat.
Proof.
  induction fuel as [|fuel IH]; intros flag p; [reflexivity|]. cbn [skip_chain]. destruct (p_rules p); [reflexivity|]. destruct (has flag RULE_FLAG_CHAIN); [|reflexivity]. etransitivity; [apply IH|apply root_shrinks].
Qed.
Lemma skip_root n : forall p, (list_sum (map rules_of (p_root (skip_rules n p))) <= list_sum (map rules_of (p_root p)))%nat.
Proof. induction n as [|n IH]; intros p; [reflexivity|]. cbn [skip_rules]. destruct (p_rules p); [reflexivity|]. etransitivity; [apply IH|apply root_shrinks]. Qed.

Lemma ahead_bound l ctx r : (rules_ahead (At l ctx r) <= length l + list_sum (map rules_of ctx) + list_sum (map rules_of r))%nat.
Proof.
  unfold rules_ahead. cbn [p_rules p_context p_root]. destruct ctx as [|c up].
  - destruct r as [|x y]; [lia|]. change (list_sum (map rules_of (x :: y))) with (rules_of x + list_sum (map rules_of y))%nat. lia.
  - change (list_sum (map rules_of (c :: up))) with (rules_of c + list_sum (map rules_of up))%nat. lia.
Qed.

Section ends.
Context (W : world) (pRuleList : option (list RewriteRule)) (context root : list HttpContext).
Let M := all_rules pRuleList context root.

(** The root contexts that are left are ancestors of the first one. *)
Definition below (p : place) : Prop := place_ok p /\ (list_sum (map rules_of (p_root p)) <= list_sum (map rules_of root))%nat.
Hypothesis Hok : place_ok (At (match pRuleList with Some l => l | None => [] end) context root).

Lemma first_ok r : Forall ctx_ok r -> (list_sum (map rules_of r) <= list_sum (map rules_of root))%nat ->
  below (first_place pRuleList context r) /\ (rules_ahead (first_place pRuleList context r) <= M)%nat.
Proof.
  intros Hr Hs. destruct Hok as (H1 & H2 & _). cbn [p_rules p_context] in *.
  assert (Ha : forall l, (rules_ahead (At l context r) <= length l + list_sum (map rules_of context) + list_sum (map rules_of root))%nat) by (intros l; pose proof (ahead_bound l context r); lia).
  unfold first_place, M, all_rules. destruct pRuleList as [l|].
  - split; [split; [split; auto|exact Hs]|]. apply Ha.
  - assert (Hp : place_ok (At [] context r)) by (split; auto). destruct (next_list_ahead _ Hp) as [Hn Hl]. specialize (Ha []). cbn [length p_rules] in *. split; [split; [exact Hn|]|lia].
    etransitivity; [apply root_next|exact Hs].
Qed.

Definition measure (q : position) : nat := (Z.to_nat (10 - q_loop q) * (M + 1) + rules_ahead (q_place q))%nat.
Definition shrinks (q : position) (j : jump) : Prop :=
  match j with
  | Loop q' _ => below (q_place q') /\ q_loop q' <= 10 /\ (measure q' < measure q)%nat
  | Stop q' _ => (q_loop q' > 10 /\ has (q_flag q') RULE_FLAG_NEXT = true) \/ (below (q_place q') /\ q_loop q' = q_loop q /\ (measure q' <= measure q)%nat)
  | Exit (Again _) => False
  | Exit _ => True
  end.

Lemma next_rule_shrinks q e : below (q_place q) -> q_loop q <= 10 -> shrinks q (next_rule pRuleList context q e).
Proof.
  intros [Hp Hr] Hl. unfold next_rule. destruct (has (q_flag q) RULE_FLAG_NEXT) eqn:En.
  - cbn [q_loop]. destruct (q_loop q + 1 >? 10) eqn:E; [left; cbn [q_loop q_flag]; split; [lia|exact En]|].
    destruct (first_ok (p_root (q_place q))) as [Hb Ha]; [apply Hp|exact Hr|]. split; [exact Hb|]. split; [cbn; lia|]. unfold measure. cbn [q_loop q_place].
    replace (Z.to_nat (10 - q_loop q)) with (S (Z.to_nat (10 - (q_loop q + 1)))) by lia. lia.
  - destruct (p_rules (q_place q)) as [|r l] eqn:E; [right; split; [split; assumption|auto]|]. assert (Hs : skip_ok r) by (destruct Hp as (H1 & _); rewrite E in H1; apply Forall_cons in H1; apply H1).
    unfold skip_ok in Hs. assert (Hw : wraps 32 (r_skipRules r + 1) = r_skipRules r + 1) by (apply wraps_small; lia). rewrite Hw.
    replace (Z.to_nat (r_skipRules r + 1)) with (S (Z.to_nat (r_skipRules r))) by lia. cbn [skip_rules]. rewrite E.
    destruct (getNextRule_ahead (q_place q) Hp ltac:(congruence)) as [Hg Hlt]. destruct (skip_rules_ahead (Z.to_nat (r_skipRules r)) _ Hg) as [Hsp Hsl].
    split; [split; [exact Hsp|]|]. { cbn [q_place]. etransitivity; [apply skip_root|]. etransitivity; [apply root_shrinks|exact Hr]. }
    split; [exact Hl|]. unfold measure. cbn [q_loop q_place]. lia.
Qed.

Lemma one_rule_shrinks q e : below (q_place q) -> q_loop q <= 10 -> shrinks q (one_rule W pRuleList context q e).
Proof.
  intros Hb Hl. unfold one_rule. destruct (p_rules (q_place q)) as [|r l] eqn:E; [right; auto|].
  destruct (processRule W r e) as [fails e1]. destruct (m_fault e1); [exact I|]. destruct (w_dropped W (m_trace e1)); [exact I|]. destruct fails.
  - destruct Hb as [Hp Hr]. destruct (getNextRule_ahead (q_place q) Hp ltac:(congruence)) as [Hg Hlt]. pose proof (skip_chain_ahead (rules_ahead (getNextRule (q_place q))) (r_flag r) _ Hg) as [Hsp Hsl].
    pose proof (chain_root (rules_ahead (getNextRule (q_place q))) (r_flag r) (getNextRule (q_place q))) as Hcr. pose proof (root_shrinks (q_place q)) as Hrs.
    destruct (skip_chain _ _ _) as [flag p]. cbn [snd] in *. split; [split; [exact Hsp|cbn [q_place]; lia]|]. split; [exact Hl|]. unfold measure. cbn [q_loop q_place]. lia.
  - destruct (has (r_flag r) RULE_FLAG_LAST && _); [right; auto|]. apply (next_rule_shrinks (Pos (q_place q) (r_flag r) (q_loop q)) e1 Hb Hl).
Qed.

Lemma finish_again pBase e e' : finish W pBase e = Again e' -> m_rewritten e' = 0.
Proof.
  unfold finish, to_proxy. intros H.
  repeat match type of H with
  | context [match ?x with _ => _ end] => first [discriminate H | injection H as <-; reflexivity | destruct x]
  end; try discriminate; injection H as <-; reflexivity.
Qed.

Lemma finish_done pBase e : m_rewritten e = 0 -> exists e', finish W pBase e = Returns 0 e'.
Proof. intros H. unfold finish. destruct (m_cacheCtl e); cbn [m_rewritten setEnv emit set_trace]; rewrite H; eauto. Qed.

Lemma rules_loop_ends pBase fuel : forall q e, below (q_place q) -> q_loop q <= 10 -> (measure q < fuel)%nat -> exists o, rules_loop W pRuleList context pBase fuel q e = Some o.
Proof.
  induction fuel as [|fuel IH]; intros q e Hb Hl Hm; [lia|]. cbn [rules_loop]. pose proof (one_rule_shrinks q e Hb Hl) as Hs. destruct (one_rule W pRuleList context q e) as [q' e'|q' e'|o].
  - destruct Hs as (Hb' & Hl' & Hm'). apply IH; [exact Hb'|exact Hl'|lia].
  - destruct (finish W pBase e') as [c x|x|x] eqn:Ef; eauto. apply finish_again in Ef.
    destruct Hs as [[Hbig Hn]|(Hb' & Hl' & Hm')].
    + unfold next_rule. rewrite Hn. cbn [q_loop]. rewrite (proj2 (Z.gtb_gt (q_loop q' + 1) 10)) by lia. eauto.
    + pose proof (next_rule_shrinks q' x Hb' ltac:(lia)) as Hn. destruct (next_rule pRuleList context q' x) as [q2 e2|q2 e2|o]; eauto. destruct Hn as (Hb2 & Hl2 & Hm2). apply IH; [exact Hb2|exact Hl2|lia].
  - eauto.
Qed.
End ends.

Lemma rules_loop_more W l c pBase fuel : forall q e o k, rules_loop W l c pBase fuel q e = Some o -> rules_loop W l c pBase (fuel + k) q e = Some o.
Proof.
  induction fuel as [|fuel IH]; intros q e o k; [discriminate|]. cbn [Nat.add rules_loop]. destruct (one_rule W l c q e) as [q' e'|q' e'|o']; [apply IH| |auto].
  destruct (finish W pBase e') as [x y|y|y]; auto. destruct (next_rule l c q' y) as [q2 e2|q2 e2|o2]; [apply IH|auto|auto].
Qed.

(** C9: a set of rules comes to an end.  Whatever the patterns and the conditions answer and
    whatever the request does, [processRuleSet] returns after at most eleven passes over
    the rules that follow one another, those inherited from parent contexts among them,
    when no rule skips a negative number of rules, or as many as overflow the counter. *)
Theorem ruleset_terminates W pRuleList context root e
  (Hok : place_ok (At (match pRuleList with Some l => l | None => [] end) context root)) :
  exists o, forall fuel, (11 * (all_rules pRuleList context root + 1) <= fuel)%nat -> processRuleSet W pRuleList context root fuel e = Some o.
Proof.
  set (n := (11 * (all_rules pRuleList context root + 1))%nat). unfold processRuleSet. destruct (p_rules (first_place pRuleList context root)) eqn:E; [eauto|].
  destruct (start_engine W context e) as [pBase e0].
  destruct (first_ok pRuleList context root Hok root) as [Hb Ha]; [apply Hok|reflexivity|].
  destruct (rules_loop_ends W pRuleList context root Hok pBase n (Pos (first_place pRuleList context root) 0 0) e0) as (o & Ho); [exact Hb|cbn; lia| |].
  - unfold measure, n. cbn [q_loop q_place]. change (Z.to_nat (10 - 0)) with 10%nat. lia.
  - exists o. intros fuel Hf. replace fuel with (n + (fuel - n))%nat by lia. apply rules_loop_more, Ho.
Qed.

(** ** A rule that is never left *)

(** Such a rule: without a substitution, and with a pattern that matches whatever the URL is. *)
Definition stays (W : world) (r : RewriteRule) : Prop :=
  r_flag r = RULE_FLAG_NOREWRITE /\ r_conds r = [] /\ r_env r = [] /\ r_action r = RULE_ACTION_NONE /\ r_mimeType r = None /\
  (forall t, 0 <= (w_exec W (r_pattern r) false t).1).

Lemma stays_applies W r e : stays W r -> m_fault e = false -> exists e', processRule W r e = (false, e') /\ m_fault e' = false /\ m_trace e' = m_trace e.
Proof.
  intros (Hf & Hc & Hv & Ha & Hm & Hx) He. unfold processRule. rewrite Hf, Hc. change (has RULE_FLAG_NOREWRITE RULE_FLAG_NOCASE) with false. change (has RULE_FLAG_NOREWRITE RULE_FLAG_NOMATCH) with false.
  specialize (Hx (source e)). destruct (w_exec W (r_pattern r) false (source e)) as [ret ov]. cbn [fst] in Hx. rewrite (proj2 (Z.ltb_ge ret 0)) by exact Hx. cbn [Bool.eqb negb].
  cbn [processConds]. unfold processRewrite. rewrite Hv, Hf. cbn [expandEnv]. unfold apply_action. rewrite Ha, Hm.
  change (m_fault (set_condMatches 0 (set_pLastCondStr None (set_ruleMatches (if ret =? 0 then 10 else ret) (set_ruleVec ov (set_ruleMatches 0 e)))))) with (m_fault e). rewrite He. change (has RULE_FLAG_NOREWRITE RULE_FLAG_NOREWRITE) with true. cbn [negb].
  eexists. split; [reflexivity|]. split; [exact He|reflexivity].
Qed.

(** C38: a negative skip hangs.  A rule with [S=-1] or another negative number (it is read
    with strtol, and not checked), or with the largest int, and without the flag N, is
    followed by itself.  If it always applies to what it leaves behind itself (there is a set [I] of
    engines in which it applies, and that it does not leave; the connection is not dropped
    and nothing faults), then the loop of [processRuleSet] never ends once it has come to
    the rule in such an engine, whatever the rules behind it are; and a set of rules that
    begins with it is never done. *)
Theorem negative_skip_never_ends W r rest pRuleList context (I : RewriteEngine -> Prop)
  (Hs : wraps 32 (r_skipRules r + 1) <= 0) (Hn : has (r_flag r) RULE_FLAG_NEXT = false)
  (HI : forall e, I e -> let '(fails, e') := processRule W r e in fails = false /\ I e' /\ m_fault e' = false /\ w_dropped W (m_trace e') = false) :
  (forall pBase fuel q e, p_rules (q_place q) = r :: rest -> I e -> rules_loop W pRuleList context pBase fuel q e = None) /\
  (forall root fuel e, pRuleList = Some (r :: rest) -> I (start_engine W context e).2 -> processRuleSet W pRuleList context root fuel e = None).
Proof.
  assert (Hloop : forall pBase fuel q e, p_rules (q_place q) = r :: rest -> I e -> rules_loop W pRuleList context pBase fuel q e = None).
  { intros pBase. induction fuel as [|fuel IH]; intros q e Hq He; [reflexivity|]. cbn [rules_loop]. unfold one_rule. rewrite Hq.
    specialize (HI e He). destruct (processRule W r e) as [fails e']. destruct HI as (-> & Hi & -> & ->).
    assert (Hz : (r_skipRules r =? 0) = false) by (destruct (Z.eqb_spec (r_skipRules r) 0) as [E|]; [rewrite E in Hs; vm_compute in Hs; contradiction Hs; reflexivity|reflexivity]).
    rewrite Hz, andb_false_r. unfold next_rule. cbn [q_flag q_place q_loop]. rewrite Hn, Hq.
    replace (Z.to_nat (wraps 32 (r_skipRules r + 1))) with 0%nat by lia. cbn [skip_rules]. apply IH; [exact Hq|exact Hi]. }
  split; [exact Hloop|]. intros root fuel e -> He. unfold processRuleSet, first_place. cbn [p_rules].
  destruct (start_engine W context e) as [pBase e0]. apply Hloop; [reflexivity|exact He].
Qed.

(** ** Flags that do not fit *)

(** A rule without the flags from BNP on: BNP, BCTLS, BNE and UnsafeAllow3F. *)
Definition low_flags (f : Z) : Z := Z.land f (Z.ones 19).
Definition low (r : RewriteRule) : RewriteRule :=
  Rule (r_pattern r) (r_conds r) (r_targetFormat r) (r_mimeType r) (r_action r) (low_flags (r_flag r)) (r_statusCode r) (r_skipRules r) (r_noEscape r) (r_env r).
Definition low_ctx (c : HttpContext) : HttpContext :=
  Ctx (option_map (map low) (x_rewriteRules c)) (x_inherit c) (x_hasRewriteConfig c) (x_contextURI c) (x_rewriteBase c).
Definition low_place (p : place) : place := At (map low (p_rules p)) (map low_ctx (p_context p)) (map low_ctx (p_root p)).
Definition low_pos (q : position) : position := Pos (low_place (q_place q)) (low_flags (q_flag q)) (q_loop q).
Definition low_jump (j : jump) : jump :=
  match j with Loop q e => Loop (low_pos q) e | Stop q e => Stop (low_pos q) e | Exit o => Exit o end.

Lemma has_low f bit : Z.land (Z.ones 19) bit = bit -> has (low_flags f) bit = has f bit.
Proof. intros H. unfold has, low_flags. rewrite <- Z.land_assoc, H. reflexivity. Qed.

Lemma short_low f : wraps 16 (low_flags f) = wraps 16 f.
Proof.
  unfold wraps, low_flags. rewrite Z.land_ones by lia. f_equal. rewrite <- (Z.add_mod_idemp_l (f mod 2 ^ 19)), <- (Z.add_mod_idemp_l f) by lia.
  f_equal. f_equal. change (2 ^ 19) with (2 ^ 16 * 8). rewrite Z.rem_mul_r by lia. rewrite Z.mul_comm, Z.mod_add by lia. apply Z.mod_mod. lia.
Qed.

Lemma processRule_low W r e : processRule W (low r) e = processRule W r e.
Proof.
  unfold processRule, processRewrite, apply_action, processQueryString. cbn [low r_pattern r_flag r_conds r_env r_action r_targetFormat r_noEscape r_mimeType r_statusCode].
  rewrite short_low. rewrite !has_low by reflexivity. reflexivity.
Qed.

Lemma inherited_low c parents : inherited (low_ctx c) (map low_ctx parents) = (map low (inherited c parents).1, map low_ctx (inherited c parents).2).
Proof.
  revert c. induction parents as [|p up IH]; intros c; [reflexivity|]. cbn [map inherited]. change (x_inherit (low_ctx c)) with (x_inherit c). change (x_hasRewriteConfig (low_ctx p)) with (x_hasRewriteConfig p).
  destruct (x_inherit c); [|reflexivity]. destruct (x_hasRewriteConfig p); [|exact (IH p)]. change (x_rewriteRules (low_ctx p)) with (option_map (map low) (x_rewriteRules p)). destruct (x_rewriteRules p); [reflexivity|exact (IH p)].
Qed.

Lemma next_list_low p : next_list (low_place p) = low_place (next_list p).
Proof.
  destruct p as [l ctx root]. unfold next_list, low_place. cbn [p_rules p_context p_root]. destruct ctx as [|c up]; cbn [map].
  - destruct root as [|r up]; [reflexivity|]. cbn. destruct (x_rewriteRules r); reflexivity.
  - rewrite inherited_low. destruct (inherited c up); reflexivity.
Qed.

Lemma getNextRule_low p : getNextRule (low_place p) = low_place (getNextRule p).
Proof. unfold getNextRule. change (p_rules (low_place p)) with (map low (p_rules p)). destruct (p_rules p) as [|r [|r' l]]; cbn [map]; [apply next_list_low|apply next_list_low|reflexivity]. Qed.

Lemma rules_ahead_low p : rules_ahead (low_place p) = rules_ahead p.
Proof.
  assert (Hr : forall c, rules_of (low_ctx c) = rules_of c) by (intros c; unfold rules_of; cbn; destruct (x_rewriteRules c); [apply length_map|reflexivity]).
  unfold rules_ahead, low_place. cbn [p_rules p_context p_root]. rewrite length_map. destruct (p_context p) as [|c up]; cbn [map]; [destruct (p_root p); cbn [map]; rewrite ?Hr; reflexivity|].
  rewrite map_map. f_equal. f_equal. apply map_ext, Hr.
Qed.

Lemma skip_chain_low fuel : forall f p, skip_chain fuel (low_flags f) (low_place p) = (low_flags (skip_chain fuel f p).1, low_place (skip_chain fuel f p).2).
Proof.
  induction fuel as [|fuel IH]; intros f p; [reflexivity|]. cbn [skip_chain]. change (p_rules (low_place p)) with (map low (p_rules p)). destruct (p_rules p) as [|r l]; [reflexivity|]. cbn [map].
  rewrite has_low by reflexivity. destruct (has f RULE_FLAG_CHAIN); [|reflexivity]. rewrite getNextRule_low. apply IH.
Qed.

Lemma skip_rules_low n : forall p, skip_rules n (low_place p) = low_place (skip_rules n p).
Proof.
  induction n as [|n IH]; intros p; [reflexivity|]. cbn [skip_rules]. change (p_rules (low_place p)) with (map low (p_rules p)). destruct (p_rules p); [reflexivity|]. cbn [map]. rewrite getNextRule_low. apply IH.
Qed.

Section lowered.
Context (W : world) (l : option (list RewriteRule)) (ctx : list HttpContext).

Lemma first_place_low root : first_place (option_map (map low) l) (map low_ctx ctx) (map low_ctx root) = low_place (first_place l ctx root).
Proof. unfold first_place. destruct l; [reflexivity|]. exact (next_list_low (At [] ctx root)). Qed.

Lemma next_rule_low q e : next_rule (option_map (map low) l) (map low_ctx ctx) (low_pos q) e = low_jump (next_rule l ctx q e).
Proof.
  unfold next_rule, low_pos. cbn [q_flag q_place q_loop]. rewrite has_low by reflexivity. destruct (has (q_flag q) RULE_FLAG_NEXT).
  - change (p_root (low_place (q_place q))) with (map low_ctx (p_root (q_place q))). rewrite first_place_low. destruct (_ >? 10); reflexivity.
  - change (p_rules (low_place (q_place q))) with (map low (p_rules (q_place q))). destruct (p_rules (q_place q)) as [|r k]; cbn [map]; [reflexivity|]. rewrite skip_rules_low. reflexivity.
Qed.

Lemma one_rule_low q e : one_rule W (option_map (map low) l) (map low_ctx ctx) (low_pos q) e = low_jump (one_rule W l ctx q e).
Proof.
  unfold one_rule, low_pos. cbn [q_place q_loop q_flag]. change (p_rules (low_place (q_place q))) with (map low (p_rules (q_place q))). destruct (p_rules (q_place q)) as [|r k]; cbn [map]; [reflexivity|].
  rewrite processRule_low. destruct (processRule W r e) as [fails e1]. destruct (m_fault e1); [reflexivity|]. destruct (w_dropped W (m_trace e1)); [reflexivity|]. cbn [low r_flag r_skipRules]. destruct fails.
  - rewrite getNextRule_low, rules_ahead_low, skip_chain_low. destruct (skip_chain _ (r_flag r) _); reflexivity.
  - rewrite !has_low by reflexivity. destruct (has (r_flag r) RULE_FLAG_LAST && _); [reflexivity|]. exact (next_rule_low (Pos (q_place q) (r_flag r) (q_loop q)) e1).
Qed.

Lemma rules_loop_low pBase fuel : forall q e, rules_loop W (option_map (map low) l) (map low_ctx ctx) pBase fuel (low_pos q) e = rules_loop W l ctx pBase fuel q e.
Proof.
  induction fuel as [|fuel IH]; intros q e; [reflexivity|]. cbn [rules_loop]. rewrite one_rule_low. destruct (one_rule W l ctx q e) as [q' e'|q' e'|o]; cbn [low_jump]; [apply IH| |reflexivity].
  destruct (finish W pBase e') as [c x|x|x]; try reflexivity. rewrite next_rule_low. destruct (next_rule l ctx q' x); cbn [low_jump]; [apply IH|reflexivity|reflexivity].
Qed.
End lowered.

(** C37: flags without effect.  [RewriteEngine::m_flag] is a short, and a rule's flags are
    an int: BNP, BCTLS, BNE and UnsafeAllow3F, bits 19 to 22, are cut off before any of
    them is tested, so a set of rules gives the same result, down to every buffer, with
    and without them. *)
Theorem high_flags_lost W pRuleList context root fuel e :
  processRuleSet W (option_map (map low) pRuleList) (map low_ctx context) (map low_ctx root) fuel e =
  processRuleSet W pRuleList context root fuel e.
Proof.
  unfold processRuleSet. rewrite first_place_low. change (p_rules (low_place (first_place pRuleList context root))) with (map low (p_rules (first_place pRuleList context root))).
  destruct (p_rules (first_place pRuleList context root)); [reflexivity|]. cbn [map].
  assert (Hs : start_engine W (map low_ctx context) e = start_engine W context e) by (unfold start_engine, strip_base; destruct context; reflexivity). rewrite Hs.
  destruct (start_engine W context e) as [pBase e0]. exact (rules_loop_low W pRuleList context pBase fuel (Pos (first_place pRuleList context root) 0 0) e0).
Qed.

(** ** Which rules apply *)

(** The engine once a rule's pattern has been tried, before its conditions. *)
Definition matched (r : RewriteRule) (ret : Z) (ov : list Z) (e : RewriteEngine) : RewriteEngine :=
  let e := set_ruleVec ov (set_ruleMatches 0 e) in
  set_condMatches 0 (set_pLastCondStr None (if ret <? 0 then e else set_ruleMatches (if ret =? 0 then 10 else ret) e)).
Definition pattern_says (W : world) (r : RewriteRule) (e : RewriteEngine) : bool :=
  xorb (has (r_flag r) RULE_FLAG_NOMATCH) (0 <=? (w_exec W (r_pattern r) (has (r_flag r) RULE_FLAG_NOCASE) (source e)).1).

(** Where the texts of the engine are. *)
Definition layout (e : RewriteEngine) : nat * nat * nat * nat * ptr :=
  (length (m_rewriteBuf e), m_pFreeBuf e, m_pCondBuf e, m_pDestURL e, m_pSourceURL e).

Lemma good_layout e e' : layout e' = layout e -> good e -> good e'.
Proof. unfold layout. intros [= El Ef Ec Ed Es] [H1 H2 H3 H4 H5 H6]. constructor; rewrite ?El, ?Ef, ?Ec, ?Ed, ?Es; assumption. Qed.

(** The start of a run. *)
Lemma start_good W ctx e : length (m_rewriteBuf e) = 3%nat -> good (start_engine W ctx e).2.
Proof.
  intros H. unfold start_engine, strip_base. destruct ctx as [|c ctx]; [constructor; cbn; auto; (split; [lia|auto]) || (split; discriminate)|].
  cbv zeta. destruct (prefix_of (x_contextURI c) _); [|destruct (prefix_of (getRewriteBase c) _); [|destruct (w_matched W) as [rest|]; [destruct (_ && _)|]]];
    (constructor; cbn; [exact H|lia|lia|discriminate|split; [lia|split; discriminate]|split; discriminate]).
Qed.

Lemma layout_cookie t e : layout (setCookie t e) = layout e.
Proof. unfold setCookie. cbv zeta. destruct (nth_error _ 0); [destruct (nth_error _ 1)|]; reflexivity. Qed.

Lemma layout_expand_one W proxy key keyc v e : layout (expand_one W proxy key keyc v e).2 = layout e.
Proof.
  unfold expand_one, set_variable, cache_env, setEnv. cbv zeta.
  repeat match goal with |- context [if ?b then _ else _] => destruct b end; reflexivity.
Qed.

Lemma layout_build W f b len esc nodup e : layout (bs_eng (buildString W f (DLocal b) len esc nodup e).2) = layout e.
Proof. destruct (buildString_ok W f (DLocal b) len esc nodup e I I) as (e' & He & (t & off & x & ->) & _). destruct He as [->| ->]; reflexivity. Qed.

Lemma layout_expandEnv W proxy l : forall k e, layout (expandEnv W proxy l k e).2 = layout e.
Proof.
  induction l as [|[isCookie f] l IH]; intros k e; [reflexivity|]. cbn [expandEnv]. pose proof (layout_build W f (w_stack W) (REWRITE_BUF_SIZE - 1) false false e) as Hb.
  destruct (buildString W f _ _ false false e) as [len s]. cbn [snd] in Hb. cbv zeta. destruct isCookie.
  - destruct (m_fault _); cbn [snd]; rewrite ?IH, layout_cookie; exact Hb.
  - destruct (env_parts _ _) as [[key keyc] v]. pose proof (layout_expand_one W proxy key keyc v (bs_eng s)) as H1.
    destruct (expand_one W proxy key keyc v (bs_eng s)) as [[stop k'] e1]. cbn [snd] in H1. destruct stop; cbn [snd]; rewrite ?IH, H1; exact Hb.
Qed.

Lemma layout_emit v e : layout (emit v e) = layout e.
Proof. reflexivity. Qed.

Lemma layout_action r e : layout (apply_action r e) = layout e.
Proof. unfold apply_action. destruct (r_action r); try reflexivity. destruct (r_mimeType r); reflexivity. Qed.

Lemma layout_query flag e : layout (processQueryString flag e) = layout e.
Proof.
  unfold processQueryString. cbv zeta.
  assert (Hp : forall e k, layout (match m_pSourceURL e with PBuf i => put_buffer i k [0] e | PText _ => e end) = layout e)
    by (intros e0 k; unfold layout; destruct (m_pSourceURL e0) eqn:Es; cbn; rewrite ?length_insert, Es; reflexivity).
  set (e1 := if has flag RULE_FLAG_QSDISCARD then _ else e). assert (H1 : layout e1 = layout e) by (unfold e1; destruct (has flag RULE_FLAG_QSDISCARD); reflexivity).
  destruct (memchr 63 _) as [k|]; [|exact H1]. set (e2 := set_sourceURLLen k _).
  assert (H2 : layout e2 = layout e) by (etransitivity; [exact (Hp e1 k)|exact H1]).
  destruct (_ >? 0); [exact H2|]. destruct (negb _); exact H2.
Qed.

(** A rule whose substitution does not fail leaves the engine as a run begins it. *)
Lemma processRewrite_good W r e : good e -> (processRewrite W r e).1 = false -> good (processRewrite W r e).2.
Proof.
  intros Hg. unfold processRewrite. cbv zeta. pose proof (layout_expandEnv W (match r_action r with RULE_ACTION_PROXY => true | _ => false end) (r_env r) false e) as Hl.
  destruct (expandEnv W _ (r_env r) false e) as [k e1]. cbn [snd] in Hl. assert (Hg1 : good e1) by (eapply good_layout; eassumption). clear Hl Hg e.
  destruct (m_fault e1); [intros _; exact Hg1|]. set (e2 := if k then _ else _).
  assert (Hg2 : good e2) by (unfold e2; destruct k; destruct Hg1; constructor; assumption). clearbody e2. clear Hg1 e1.
  destruct (negb _); [|intros _; cbn [snd]; eapply good_layout; [apply layout_action|exact Hg2]].
  destruct Hg2 as [H3 Hf Hc Hfc (Hd & Hdf & Hdc) [Hs1 Hs2]]. set (e3 := set_pNoEscape _ _).
  assert (L3 : length (m_rewriteBuf e3) = 3%nat) by exact H3. assert (F3 : m_pFreeBuf e3 = m_pDestURL e2) by reflexivity. assert (C3 : m_pCondBuf e3 = m_pCondBuf e2) by reflexivity.
  assert (D3 : m_pDestURL e3 = m_pFreeBuf e2) by reflexivity. assert (S3 : m_pSourceURL e3 = m_pSourceURL e2) by reflexivity.
  clearbody e3. rewrite <- F3, <- C3, <- D3, <- S3 in *. clear F3 C3 D3 S3 H3 e2.
  destruct (buildString_ok W (r_targetFormat r) (DBuf (m_pDestURL e3)) (REWRITE_BUF_SIZE - 1) true true e3) as (e4 & He & (t & off & esc & Hin) & _); [cbn; lia|split; congruence|].
  destruct (buildString W (r_targetFormat r) _ _ true true e3) as [len s]. cbn [snd] in Hin. subst s. destruct len as [len|]; [|intros [=]]. intros _. cbn [snd].
  refine (good_layout _ _ (layout_action _ _) _). refine (good_layout _ _ (layout_emit _ _) _).
  assert (Hz : forall e5, layout e5 = (3%nat, m_pFreeBuf e3, m_pCondBuf e3, m_pDestURL e3, PBuf (m_pDestURL e3)) -> good e5).
  { unfold layout. intros e5 [= El Ef Ec Ed Es]. constructor; rewrite ?El, ?Ef, ?Ec, ?Ed, ?Es; auto; split; congruence. }
  assert (E4 : layout (mk (DBuf (m_pDestURL e3)) e4 t off esc).(bs_eng) = (3%nat, m_pFreeBuf e3, m_pCondBuf e3, m_pDestURL e3, m_pSourceURL e3))
    by (destruct He as [->| ->]; unfold layout; cbn; rewrite length_insert, L3; reflexivity).
  generalize dependent (bs_eng (mk (DBuf (m_pDestURL e3)) e4 t off esc)). intros e5 E5.
  destruct (has (r_flag r) _); [refine (good_layout _ _ (layout_query _ _) _)|]; apply Hz; unfold layout in *; cbn; congruence.
Qed.


(** C10: the text of a format.  [buildString] into a place that is there, and is neither the URL's buffer
    nor the one the condition's groups point into ([apart]) fails exactly when the
    expansion of the format does (its items in order, each with the value, the escapes, the
    decoding and the merged slashes that are its own; there is none in a place without a
    byte); otherwise the place holds the expansion and a NUL, within the length that was
    given.  Of the engine nothing changes but that place and the members that
    [checkPathInfo] fills when an item asks for them. *)
Theorem buildString_expands W f d len esc nodup e (Hr : room_for d e) (Ha : apart d e) :
  let '(n, s) := buildString W f d len esc nodup e in
  (exists e', cached W e e' /\ inside d e' s) /\
  match expansion W f len esc nodup (view_of W e) with
  | None => n = None
  | Some t => n = Some (zlen t) /\ zlen t < len /\ ztake (zlen t + 1) (bs_text s) = t ++ [0]
  end.
Proof.
  destruct (buildString_ok W f d len esc nodup e Hr Ha) as (e' & He & Hi & Hb). destruct (buildString W f d len esc nodup e) as [n s]. cbn [fst snd] in *. split; [eauto|exact Hb].
Qed.

(** ** A request, and rules for it *)

(** Three patterns: the empty one, one that splits a text at its last dot, and [^a$]. *)
Definition p_any : list Z := bs "^".
Definition p_split : list Z := bs "^(.*)\.(.*)$".
Definition p_a : list Z := bs "^a$".
Definition sample_exec (p : list Z) (nocase : bool) (t : list Z) : Z * list Z :=
  if bytes_eqb p p_any then (1, [0; 0])
  else if bytes_eqb p p_split then
    match memchr 46 (rev t) with
    | Some n => let k := zlen t - 1 - n in (3, [0; zlen t; 0; k; k + 1; zlen t])
    | None => (-1, [])
    end
  else if bytes_eqb t (bs "a") then (1, [0; 1]) else (-1, []).
Definition sample_world : world := {|
  w_exec := sample_exec; w_expr _ _ := 0; w_fileStat _ _ := (-1, Stat false false false false 0); w_var _ _ _ := Some (false, []);
  w_env _ _ := []; w_header _ _ := bs "a.b.c"; w_map _ _ _ := None; w_checkPathInfo _ _ := Paths [] [] 0; w_stack := [];
  w_URI := bs "/index.html"; w_OrgReqURL := bs "/index.html"; w_QueryString := bs "q=1"; w_redirects := 0; w_matched := None;
  w_avoidRecaptcha _ := true; w_rewriteToRecaptcha _ _ := 0; w_markAsBot _ := -1; w_dropped _ := false; w_codeString _ := bs "302";
  w_saveCurURL _ := 0; w_detectLoopRedirect _ _ _ := 0; w_proxyHandler _ := None; w_internalRedirectURI _ _ _ := 0 |}.
Definition new_engine : RewriteEngine := {|
  m_pSourceURL := PText []; m_sourceURLLen := 0; m_pQS := []; m_ownQS := false; m_pOrgSourceURL := PText []; m_orgSourceURLLen := 0;
  m_rewritten := 0; m_ruleMatches := 0; m_condMatches := 0; m_paths := None; m_flag := 0; m_action := RULE_ACTION_NONE; m_statusCode := 0;
  m_pDestURL := 0; m_pCondBuf := 0; m_pFreeBuf := 0; m_pBase := None; m_pStrip := None; m_pLastCondStr := None; m_pLastTestStr := None;
  m_lastTestStrLen := 0; m_pNoEscape := None; m_noStat := 0; m_st := Stat false false false false 0; m_ruleVec := []; m_condVec := [];
  m_rewriteBuf := [[]; []; []]; m_trace := []; m_cacheCtl := []; m_fault := false |}.
Definition started : RewriteEngine := (start_engine sample_world [] new_engine).2.
Definition plain_rule (flag skip : Z) (conds : list RewriteCond) (target : RewriteSubstFormat) (env : list (bool * RewriteSubstFormat)) : RewriteRule :=
  Rule p_any conds target None RULE_ACTION_NONE flag 0 skip [] env.
Definition host_cond (p : list Z) : RewriteCond := Cond COND_OP_REGEX 0 p [It_HTTP_HEADER (bs "Host")].
Definition group_cond (p : list Z) : RewriteCond := Cond COND_OP_REGEX 0 p [It_COND_SUBSTR 1].
Definition result_of (o : option outcome) : option (Z * list Z) :=
  match o with Some (Returns c e) => Some (c, source e) | _ => None end.

(** Three failures.  A condition on [%1] that follows another one on [%1] is given the
    test string of that one, not the group which that one has just matched.  A cookie
    without a value, which is what [CO=a:%1] is when the group is empty, passes a null
    pointer to strlen.  And a substitution that fails leaves the engine's free buffer at
    the URL that is being rewritten, so that the next condition writes its test string
    over the URL. *)
Theorem rewrite_failures :
  (let e := (processConds sample_world [host_cond p_split; group_cond p_split] false started).2 in
   cond_says sample_world (view_of sample_world e) (group_cond p_a) = true /\ (processCond sample_world (group_cond p_a) e).1 = true) /\
  (exists e, processRuleSet sample_world (Some [plain_rule RULE_FLAG_NOREWRITE 0 [] [] [(true, [It_STRING (bs "a:"); It_COND_SUBSTR 1])]]) [] [] 12 new_engine = Some (Faults e)) /\
  (let rules bad := [plain_rule 0 0 [] [It_STRING (bs "/target")] []; plain_rule 0 0 [] [It_STRING bad] []; plain_rule RULE_FLAG_NOREWRITE 0 [host_cond p_a] [] []] in
   result_of (processRuleSet sample_world (Some (rules (bs "%zz"))) [] [] 40 new_engine) = Some (URL_MODIFIED, bs "//.b.c" ++ [0; 116]) /\
   result_of (processRuleSet sample_world (Some (rules (bs "/ok"))) [] [] 40 new_engine) = Some (URL_MODIFIED, bs "/ok")).
Proof.
  split; [vm_compute; split; reflexivity|]. split; [eexists; vm_compute; reflexivity|]. vm_compute. split; reflexivity.
Qed.

(** ** The theorems at this request *)

(** Two rules and the rule of a parent context, which is inherited. *)
Definition sample_rules : list RewriteRule := [plain_rule RULE_FLAG_CHAIN 1 [host_cond p_a] [It_STRING (bs "x")] []; plain_rule RULE_FLAG_NEXT 0 [] [It_STRING (bs "/y")] []].
Definition sample_context : list HttpContext := [Ctx (Some sample_rules) true true (bs "/") None; Ctx (Some [plain_rule 0 0 [] [It_STRING (bs "/z")] []]) false true (bs "/") None].

Lemma ruleset_terminates_witness :
  place_ok (At sample_rules sample_context []) /\
  exists o, forall fuel, (66 <= fuel)%nat -> processRuleSet sample_world (Some sample_rules) sample_context [] fuel new_engine = Some o.
Proof.
  assert (H : place_ok (At sample_rules sample_context [])) by (repeat constructor; vm_compute; intros; discriminate).
  split; [exact H|]. exact (ruleset_terminates sample_world (Some sample_rules) sample_context [] new_engine H).
Defined.

Lemma negative_skip_never_ends_witness :
  stays sample_world (plain_rule RULE_FLAG_NOREWRITE (-1) [] [] []) /\
  processRuleSet sample_world (Some [plain_rule RULE_FLAG_NOREWRITE (-1) [] [] []; plain_rule RULE_FLAG_LAST 0 [] [It_STRING (bs "/y")] []]) [] [] 1000 new_engine = None.
Proof.
  assert (H : stays sample_world (plain_rule RULE_FLAG_NOREWRITE (-1) [] [] [])) by (split_and!; try reflexivity; intros t; vm_compute; discriminate).
  split; [exact H|].
  apply (proj2 (negative_skip_never_ends sample_world (plain_rule RULE_FLAG_NOREWRITE (-1) [] [] []) [plain_rule RULE_FLAG_LAST 0 [] [It_STRING (bs "/y")] []] _ []
    (fun e => m_fault e = false) ltac:(vm_compute; discriminate) eq_refl
    ltac:(intros e He; destruct (stays_applies sample_world _ e H He) as (e' & -> & Hf & _); split_and!; [reflexivity|exact Hf|exact Hf|reflexivity]))); reflexivity.
Defined.

Lemma started_good : good started.
Proof. apply start_good. reflexivity. Qed.


Lemma buildString_expands_witness :
  room_for (DBuf 2) started /\
  (let '(n, s) := buildString sample_world [It_STRING (bs "/a%20b/"); It_STRING (bs "/c?d=%20")] (DBuf 2) 100 true true started in
   n = Some 12 /\ ztake 13 (bs_text s) = bs "/a b/c?d=%20" ++ [0]).
Proof.
  split; [vm_compute; lia|].
  pose proof (buildString_expands sample_world [It_STRING (bs "/a%20b/"); It_STRING (bs "/c?d=%20")] (DBuf 2) 100 true true started ltac:(vm_compute; lia) ltac:(vm_compute; split; discriminate)) as H.
  destruct (buildString _ _ _ _ _ _ _) as [n s]. destruct H as [_ H]. vm_compute expansion in H. destruct H as (-> & _ & Ht). split; [reflexivity|exact Ht].
Defined.
