(* ===== verification/Contexts.v ===== *)
(** * Contexts: which context serves a path
    (src/src/http/contexttree.cpp, src/src/http/contexttree.h,
    src/src/http/contextnode.cpp, src/src/http/contextnode.h,
    src/src/http/httpcontext.cpp, src/src/http/httpvhost.cpp)

    The contexts of a virtual host are found by their URIs in a tree of path segments,
    and by their locations in a second one; each knows its parent, whose settings it
    inherits.  A lookup of the virtual host adds a context for every directory of the
    request that it has not seen.  Nodes and contexts are numbered in the order in
    which they are made; a C string is a list without NUL. *)

From S2P Require Import Prelude.
#[local] Open Scope Z_scope.

Definition HT_NULL : Z := 0.
Definition HT_REDIRECT : Z := 3.
Definition EINVAL : Z := 22.
Definition MAX_PATH_LEN : Z := 4096.

(** ** Contexts and nodes *)

(** A context; [m_pURIMatch] is the pattern and the substitution of one that is found
    with a regular expression. *)
Record HttpContext := Ctx {
  m_sContextURI : list Z; m_sLocation : option (list Z); m_pHandler : option Z;
  m_pParent : option nat; x_null : bool; m_pURIMatch : option (list Z * option (list Z)) }.
Definition setParent (p : option nat) (x : HttpContext) : HttpContext :=
  Ctx (m_sContextURI x) (m_sLocation x) (m_pHandler x) p (x_null x) (m_pURIMatch x).
Definition setNullContext (x : HttpContext) : HttpContext :=
  Ctx (m_sContextURI x) (m_sLocation x) (m_pHandler x) (m_pParent x) true (m_pURIMatch x).
Definition new_context : HttpContext := Ctx [] None None None false None.

Record ContextNode := Nd {
  m_pChildren : gmap (list Z) nat; m_pParentNode : option nat; m_pContext : option nat;
  m_pLabel : list Z; m_lHTALastCheck : Z; m_iRelease : Z }.
Definition new_node (label : list Z) (parent : option nat) : ContextNode := Nd ∅ parent None label 0 1.
Definition add_child (l : list Z) (j : nat) (n : ContextNode) : ContextNode :=
  Nd (<[l := j]> (m_pChildren n)) (m_pParentNode n) (m_pContext n) (m_pLabel n) (m_lHTALastCheck n) (m_iRelease n).
Definition setContext (c : option nat) (n : ContextNode) : ContextNode :=
  Nd (m_pChildren n) (m_pParentNode n) c (m_pLabel n) (m_lHTALastCheck n) (m_iRelease n).
Definition setLastCheck (t : Z) (n : ContextNode) : ContextNode :=
  Nd (m_pChildren n) (m_pParentNode n) (m_pContext n) (m_pLabel n) t (m_iRelease n).
Definition setRelease (r : Z) (n : ContextNode) : ContextNode :=
  Nd (m_pChildren n) (m_pParentNode n) (m_pContext n) (m_pLabel n) (m_lHTALastCheck n) r.

Notation tree := (list ContextNode) (only parsing).
Notation contexts := (list HttpContext) (only parsing).
Definition node (t : tree) (i : nat) : ContextNode := nth i t (new_node [] None).
Definition context (cs : contexts) (i : nat) : HttpContext := nth i cs new_context.
Definition getContext_of (t : tree) (i : nat) : option nat := m_pContext (node t i).

(** ** Nodes (ContextNode) *)

Definition findChild (t : tree) (i : nat) (label : list Z) : option nat := m_pChildren (node t i) !! label.
Definition insertChild (t : tree) (i : nat) (label : list Z) : tree * nat :=
  let j := length t in (alter (add_child label j) i t ++ [new_node label (Some i)], j).
Definition getChildNode (t : tree) (i : nat) (label : list Z) (lastCheck : Z) : tree * nat :=
  match findChild t i label with
  | Some j => (t, j)
  | None =>
      let '(t, j) := insertChild t i label in
      (if lastCheck >? 0 then alter (setLastCheck lastCheck) j t else t, j)
  end.
Definition removeChild (t : tree) (i child : nat) : tree :=
  let l := m_pLabel (node t child) in
  alter (fun n => Nd (delete l (m_pChildren n)) (m_pParentNode n) (m_pContext n) (m_pLabel n) (m_lHTALastCheck n) (m_iRelease n)) i t.

(** The loop of [ContextNode::match]; [s] is what is left of the path. *)
Fixpoint match_loop (fuel : nat) (t : tree) (cur last : nat) (s : list Z) : nat :=
  match fuel, s with
  | S fuel, _ :: _ =>
      let '(label, rest) := match memchr 47 s with Some n => (ztake n s, Some (zdrop (n + 1) s)) | None => (s, None) end in
      match findChild t cur label with
      | None => last
      | Some child =>
          let last := match getContext_of t child with Some _ => child | None => last end in
          match rest with Some s => match_loop fuel t child last s | None => last end
      end
  | _, _ => last
  end.
Definition match_node (t : tree) (i : nat) (s : list Z) : nat := match_loop (length s) t i i s.

Fixpoint find_loop (fuel : nat) (t : tree) (cur : nat) (s : list Z) : option nat :=
  match fuel, s with
  | S fuel, _ :: _ =>
      let '(label, rest) := match memchr 47 s with Some n => (ztake n s, Some (zdrop (n + 1) s)) | None => (s, None) end in
      match findChild t cur label with
      | None => None
      | Some child => match rest with Some s => find_loop fuel t child s | None => Some child end
      end
  | _, _ => Some cur
  end.
Definition find_node (t : tree) (i : nat) (s : list Z) : option nat := find_loop (length s) t i s.

(** The nearest context above that is not a redirect; a parent has a smaller number. *)
Definition is_redirect (x : HttpContext) : bool := match m_pHandler x with Some h => h =? HT_REDIRECT | None => false end.
Fixpoint parent_context (fuel : nat) (t : tree) (cs : contexts) (i : nat) : option nat :=
  match fuel, m_pParentNode (node t i) with
  | S fuel, Some p =>
      match getContext_of t p with
      | Some c => if is_redirect (context cs c) then parent_context fuel t cs p else Some c
      | None => parent_context fuel t cs p
      end
  | _, _ => None
  end.
Definition getParentContext (t : tree) (cs : contexts) (i : nat) : option nat := parent_context (S i) t cs i.

(** The nearest contexts below, when their parent is [old]; children have greater
    numbers. *)
Fixpoint children_parent (fuel : nat) (t : tree) (old new : option nat) (noRedirect : bool) (i : nat) (cs : contexts) : contexts :=
  match fuel with
  | O => cs
  | S fuel =>
      fold_left (fun cs j =>
        match getContext_of t j with
        | Some c =>
            if negb noRedirect || negb (is_redirect (context cs c)) then
              if decide (m_pParent (context cs c) = old) then alter (setParent new) c cs else cs
            else children_parent fuel t old new noRedirect j cs
        | None => children_parent fuel t old new noRedirect j cs
        end) (map snd (map_to_list (m_pChildren (node t i)))) cs
  end.
Definition setChildrenParentContext (t : tree) (i : nat) (old new : option nat) (noRedirect : bool) (cs : contexts) : contexts :=
  children_parent (length t) t old new noRedirect i cs.

Definition setContextUpdateParent (t : tree) (cs : contexts) (i : nat) (pContext : option nat) (noRedirect : bool) : tree * contexts :=
  let old := getContext_of t i in
  if decide (pContext = old) then (t, cs)
  else
    let up := getParentContext t cs i in
    let pNewParent := match pContext with Some _ => pContext | None => up end in
    let pOldParent := match old with Some _ => old | None => up end in
    let cs := setChildrenParentContext t i pOldParent pNewParent noRedirect cs in
    let cs := match pContext with
              | Some c => alter (setParent (match old with Some o => m_pParent (context cs o) | None => getParentContext t cs i end)) c cs
              | None => cs
              end in
    (alter (setContext pContext) i t, cs).

(** ** The tree (ContextTree) *)

Record ContextTree := Tree {
  m_pRootNode : tree; m_pRootContext : option nat; m_pLocRootNode : tree; m_pLocRootPath : list Z; c_contexts : contexts }.
Definition on_tree (f : tree -> tree) (T : ContextTree) : ContextTree :=
  Tree (f (m_pRootNode T)) (m_pRootContext T) (m_pLocRootNode T) (m_pLocRootPath T) (c_contexts T).
Definition on_contexts (f : contexts -> contexts) (T : ContextTree) : ContextTree :=
  Tree (m_pRootNode T) (m_pRootContext T) (m_pLocRootNode T) (m_pLocRootPath T) (f (c_contexts T)).
Definition on_locations (f : tree -> tree) (T : ContextTree) : ContextTree :=
  Tree (m_pRootNode T) (m_pRootContext T) (f (m_pLocRootNode T)) (m_pLocRootPath T) (c_contexts T).
Definition new_tree : ContextTree := Tree [new_node [] None] None [new_node [] None] [47] [].
Definition setRootContext (c : option nat) (T : ContextTree) : ContextTree :=
  Tree (m_pRootNode T) c (m_pLocRootNode T) (m_pLocRootPath T) (c_contexts T).
Definition setRootLocation (p : list Z) (T : ContextTree) : ContextTree :=
  Tree (m_pRootNode T) (m_pRootContext T) (m_pLocRootNode T) p (c_contexts T).

Definition starts (p l : list Z) : bool := bytes_eqb (ztake (zlen p) l) p.

Definition bestMatch (T : ContextTree) (uri : list Z) : option nat :=
  if negb (hd 0 uri =? 47) then None else getContext_of (m_pRootNode T) (match_node (m_pRootNode T) 0 (tl uri)).
Definition matchLocation (T : ContextTree) (loc : list Z) : option nat :=
  if negb (starts (m_pLocRootPath T) loc) then None
  else getContext_of (m_pLocRootNode T) (match_node (m_pLocRootNode T) 0 (zdrop (zlen (m_pLocRootPath T)) loc)).
Definition findNode (T : ContextTree) (path : list Z) : option nat :=
  find_node (m_pLocRootNode T) 0 (zdrop (zlen (m_pLocRootPath T)) path).

Definition removeMatchContext (T : ContextTree) (uri : list Z) : option nat * ContextTree :=
  let n := match_node (m_pRootNode T) 0 (tl uri) in
  match getContext_of (m_pRootNode T) n with
  | Some c => if bytes_eqb (m_sContextURI (context (c_contexts T) c)) uri then (Some c, on_tree (alter (setContext None) n) T) else (None, T)
  | None => (None, T)
  end.
(** [getContext] without a regular expression. *)
Definition getContext (T : ContextTree) (uri : list Z) : option nat :=
  match getContext_of (m_pRootNode T) (match_node (m_pRootNode T) 0 (tl uri)) with
  | Some c =>
      let u := m_sContextURI (context (c_contexts T) c) in
      if ((zlen u - 1 >=? zlen uri) && (znth u (zlen u - 1) =? 47)) || bytes_eqb u uri then Some c else None
  | None => None
  end.

Definition getPrefix (T : ContextTree) : list Z :=
  match m_pRootContext T with Some c => m_sContextURI (context (c_contexts T) c) | None => [47] end.

Fixpoint add_loop (fuel : nat) (t : tree) (cur : nat) (s : list Z) (lastCheck : Z) : tree * nat :=
  match fuel, s with
  | S fuel, _ :: _ =>
      match memchr 47 s with
      | Some n => let '(t, c) := getChildNode t cur (ztake n s) lastCheck in add_loop fuel t c (zdrop (n + 1) s) lastCheck
      | None => getChildNode t cur s lastCheck
      end
  | _, _ => (t, cur)
  end.
Definition addNode (t : tree) (prefix uri : list Z) (lastCheck : Z) : option (tree * nat) :=
  if negb (starts prefix uri) then None
  else let s := zdrop (zlen prefix) uri in Some (add_loop (length s) t 0 s lastCheck).

(** [add] of the context [c]. *)
Definition add (c : nat) (T : ContextTree) : Z * ContextTree :=
  let x := context (c_contexts T) c in
  match addNode (m_pRootNode T) (getPrefix T) (m_sContextURI x) 0 with
  | None => (EINVAL, T)
  | Some (t, n) =>
      let T := on_tree (fun _ => t) T in
      match getContext_of t n with
      | Some _ => (EINVAL, T)
      | None =>
          let '(t, cs) := setContextUpdateParent t (c_contexts T) n (Some c) false in
          let cs := match m_pParent (context cs c) with None => alter (setParent (m_pRootContext T)) c cs | Some _ => cs end in
          let T := on_contexts (fun _ => cs) (on_tree (fun _ => t) T) in
          match m_sLocation x with
          | None => (0, T)
          | Some loc =>
              match addNode (m_pLocRootNode T) (m_pLocRootPath T) loc 0 with
              | None => (0, T)
              | Some (t, n) => (0, on_locations (fun _ => alter (setRelease 0) n (alter (setContext (Some c)) n t)) T)
              end
          end
      end
  end.

Definition addContextByUri (uri : list Z) (lastCheck : Z) (T : ContextTree) : option nat * ContextTree :=
  match addNode (m_pRootNode T) (getPrefix T) uri lastCheck with
  | None => (None, T)
  | Some (t, n) =>
      let T := on_tree (fun _ => t) T in
      let '(c, T) :=
        match getContext_of t n with
        | Some c => (c, T)
        | None => let c := length (c_contexts T) in
                  (c, on_contexts (fun cs => cs ++ [new_context]) (on_tree (alter (setContext (Some c)) n) T))
        end in
      (Some c, on_tree (alter (setLastCheck lastCheck) n) T)
  end.

(** ** Contexts of a virtual host *)

(** Whether a pattern and a substitution can be compiled; PCRE does that for
    [URIMatch::set]. *)
Class URIMatch := compiles : list Z -> option (list Z) -> bool.

Section set.
Context {RM : URIMatch}.

(** The pattern of a URI that begins with [exp:]. *)
Definition exp_pattern (uri : list Z) : option (list Z) :=
  if strcaseeq (ztake 4 uri) (bs "exp:") then Some (span isspace (zdrop 4 uri)).2 else None.

(** [HttpContext::set]: the URI, the location, the handler and the regular expression
    that are set, or an error. *)
Definition set (uri : list Z) (loc : option (list Z)) (handler : Z) (regex : bool) (x : HttpContext) : option HttpContext :=
  match uri, exp_pattern uri with
  | [], _ | _, Some [] => None
  | _, exp =>
      let '(uri, regex) := match exp with Some p => (p, true) | None => (uri, regex) end in
      if regex && negb (compiles uri loc) then None
      else
        let old := if regex then match loc with Some _ => loc | None => m_sLocation x end else m_sLocation x in
        let '(l, isDir) :=
          match loc with
          | Some ((_ :: _) as l) => (Some l, znth l (zlen l - 1) =? 47)
          | _ => (old, false)
          end in
        let uri' := if isDir && negb regex && negb (znth uri (zlen uri - 1) =? 47) then uri ++ [47] else uri in
        Some (Ctx uri' l (Some handler) (m_pParent x) (x_null x) (if regex then Some (uri, loc) else m_pURIMatch x))
  end.

(** What becomes of a new context: it is added, or deleted since it cannot be; or it is
    deleted when it cannot be set, and the code goes on with it. *)
Inductive new_result := Added (c : nat) | NotAdded | AfterDelete.

(** [HttpVHost::addContext] with a handler that is there. *)
Definition addContext (uri : list Z) (loc : option (list Z)) (handler : Z) (T : ContextTree) : new_result * ContextTree :=
  match set uri loc handler false new_context with
  | None => (AfterDelete, T)
  | Some x =>
      let c := length (c_contexts T) in
      let '(ret, T) := add c (on_contexts (fun cs => cs ++ [x]) T) in
      if ret =? 0 then (Added c, T) else (NotAdded, on_contexts (take c) T)
  end.
End set.

(** [dirMatch]: the context that is taken, or how far the directory that is missing
    goes in the URI. *)
Definition dirMatch (T : ContextTree) (c : nat) (uri : list Z) : option nat + Z :=
  let x := context (c_contexts T) c in
  if x_null x then inl (m_pParent x)
  else
    let n := zlen (m_sContextURI x) in
    match memchr 47 (zdrop n uri) with
    | Some k => inr (n + k + 1)
    | None => inl (Some c)
    end.

(** The context that is found; or the null location, or the deleted context, that the
    code goes on with. *)
Inductive lookup := Found (c : option nat) (T : ContextTree) | NullLocation (T : ContextTree) | DeletedContext (T : ContextTree).

Section vhost.
Context {RM : URIMatch}.
(** Whether a path can be accessed. *)
Context (access : list Z -> bool).

(** The path of the missing directory, in a buffer of [MAX_PATH_LEN] bytes. *)
Definition real_path (loc missLoc : list Z) : list Z :=
  ztake (MAX_PATH_LEN - 1) loc ++ ztake (MAX_PATH_LEN - zlen loc - 1) missLoc.

(** The loop of [HttpVHost::bestMatch]. *)
Fixpoint match_dirs (fuel : nat) (c : nat) (uri : list Z) (T : ContextTree) : lookup :=
  match fuel with
  | O => Found (Some c) T
  | S fuel =>
      match dirMatch T c uri with
      | inl r => Found r T
      | inr n =>
          let x := context (c_contexts T) c in
          match m_sLocation x with
          | None => NullLocation T
          | Some loc =>
              let path := real_path loc (slice (zlen (m_sContextURI x)) n uri) in
              match addContext (ztake n uri) (Some path) HT_NULL T with
              | (AfterDelete, T) => DeletedContext T
              | (NotAdded, T) => Found (Some c) T
              | (Added c0, T) =>
                  if access path then match_dirs fuel c0 uri T
                  else Found (Some c) (on_contexts (alter setNullContext c0) T)
              end
          end
      end
  end.
Definition vhost_bestMatch (uri : list Z) (T : ContextTree) : lookup :=
  match bestMatch T uri with
  | None => Found None T
  | Some c => match_dirs (S (length uri)) c uri T
  end.
End vhost.

(** The tree of a new virtual host: its root context, with no parent, is not in it. *)
Definition new_vhost : ContextTree :=
  on_contexts (fun _ => [Ctx [47] (Some (bs "/nON eXIST")) (Some HT_NULL) None false None]) (setRootContext (Some 0%nat) new_tree).
