(* ===== verification/ContextSpec.v ===== *)
(** * ContextSpec: the tree of contexts as a table of paths
    (src/src/http/contexttree.cpp, src/src/http/contextnode.cpp)

    A path is the list of the segments of a URI.  The tree's nodes make a table from
    paths to contexts; adding nodes changes nothing in it, setting the context of a
    node changes the node's own path, and [match] finds the longest path of the table
    that leads to the URI. *)

From S2P Require Import Prelude Contexts.
#[local] Open Scope Z_scope.

Notation path := (list (list Z)) (only parsing).

(** ** Paths *)

(** The segments between slashes, without an empty last one. *)
Fixpoint segs_from (cur s : list Z) : path :=
  match s with
  | [] => match cur with [] => [] | _ => [cur] end
  | c :: s => if c =? 47 then cur :: segs_from [] s else segs_from (cur ++ [c]) s
  end.
Definition segs (s : list Z) : path := segs_from [] s.
(** The path of a URI that starts with a slash. *)
Definition dirs (uri : list Z) : path := segs (tl uri).

Lemma segs_from_app cur l s : 47 ∉ l -> segs_from cur (l ++ s) = segs_from (cur ++ l) s.
Proof.
  revert cur. induction l as [|c l IH]; intros cur H; cbn [app segs_from]; [by rewrite app_nil_r|].
  apply not_elem_of_cons in H as [H1 H2]. rewrite (proj2 (Z.eqb_neq c 47)) by congruence.
  rewrite IH by done. by rewrite <- app_assoc.
Qed.
Lemma segs_cut l s : 47 ∉ l -> segs (l ++ 47 :: s) = l :: segs s.
Proof. intros H. unfold segs. rewrite segs_from_app by done. cbn. reflexivity. Qed.
Lemma segs_last l : 47 ∉ l -> l <> [] -> segs l = [l].
Proof.
  intros H Hn. unfold segs. rewrite <- (app_nil_r l) at 1. rewrite segs_from_app by done. cbn.
  destruct l; [done|reflexivity].
Qed.

(** One round of the loops over the segments. *)
Lemma segs_step s : s <> [] ->
  segs s = match memchr 47 s with Some n => ztake n s :: segs (zdrop (n + 1) s) | None => [s] end.
Proof.
  intros Hs. destruct (memchr 47 s) as [n|] eqn:E.
  - destruct (memchr_Some _ _ _ E) as (_ & H1 & H2). rewrite H1 at 1. apply segs_cut, H2.
  - apply segs_last; [|done]. by apply memchr_None.
Qed.
Lemma memchr_shorter s n fuel : memchr 47 s = Some n -> (length s <= S fuel)%nat -> (length (zdrop (n + 1) s) <= fuel)%nat.
Proof.
  intros E H. destruct (memchr_Some _ _ _ E) as (_ & H1 & _). rewrite H1 in H. rewrite length_app in H. cbn in H. lia.
Qed.

(** ** The tree *)

Fixpoint walk (t : tree) (i : nat) (p : path) : option nat :=
  match p with
  | [] => Some i
  | l :: p => match findChild t i l with Some j => walk t j p | None => None end
  end.
(** The table: the context of the node at a path. *)
Definition table (t : tree) (p : path) : option nat := match walk t 0 p with Some i => getContext_of t i | None => None end.

(** Children have greater numbers than their parents, and know them. *)
Record wf (t : tree) : Prop := {
  wf_root : (0 < length t)%nat /\ m_pParentNode (node t 0) = None;
  wf_child : forall i l j, findChild t i l = Some j ->
    (i < j < length t)%nat /\ m_pParentNode (node t j) = Some i /\ m_pLabel (node t j) = l }.

Lemma walk_app t i p q : walk t i (p ++ q) = match walk t i p with Some j => walk t j q | None => None end.
Proof. revert i. induction p as [|l p IH]; intros i; cbn; [done|]. destruct (findChild t i l); [apply IH|done]. Qed.
Lemma walk_snoc t i p l : walk t i (p ++ [l]) = match walk t i p with Some j => findChild t j l | None => None end.
Proof. rewrite walk_app. destruct (walk t i p) as [j|]; [|done]. cbn. by destruct (findChild t j l). Qed.
Lemma walk_bounds t i p j : wf t -> walk t i p = Some j -> (i <= j)%nat /\ (p = [] \/ (i < j < length t)%nat).
Proof.
  intros Hw. revert i. induction p as [|l p IH]; intros i H; cbn in H; [injection H as ->; auto|].
  destruct (findChild t i l) as [k|] eqn:E; [|done]. destruct (wf_child t Hw _ _ _ E) as (Hb & _).
  destruct (IH _ H) as (? & [->|?]); [cbn in H; injection H as ->|]; lia.
Qed.

(** A node has one path. *)
Lemma walk_unique t p : wf t -> forall q j, walk t 0 p = Some j -> walk t 0 q = Some j -> p = q.
Proof.
  intros Hw. induction p as [|l p IH] using rev_ind; intros q j Hp Hq.
  - cbn in Hp. injection Hp as <-. destruct (walk_bounds _ _ _ _ Hw Hq) as (_ & [->|?]); [done|lia].
  - destruct q as [|l' q _] using rev_ind.
    + cbn in Hq. injection Hq as <-. destruct (walk_bounds _ _ _ _ Hw Hp) as (_ & [H|?]); [destruct p; discriminate|lia].
    + rewrite walk_snoc in Hp, Hq. destruct (walk t 0 p) as [i|] eqn:Ep; [|done]. destruct (walk t 0 q) as [k|] eqn:Eq; [|done].
      destruct (wf_child t Hw _ _ _ Hp) as (_ & P1 & L1). destruct (wf_child t Hw _ _ _ Hq) as (_ & P2 & L2).
      rewrite P1 in P2. injection P2 as ->. rewrite (IH _ _ eq_refl Eq). congruence.
Qed.

(** ** Adding nodes *)

(** A tree with more nodes, none of which has a context. *)
Record grows (t t' : tree) : Prop := {
  g_length : (length t <= length t')%nat;
  g_context : forall k, getContext_of t' k = getContext_of t k;
  g_old : forall k l j, findChild t k l = Some j -> findChild t' k l = Some j;
  g_new : forall k l j, findChild t' k l = Some j -> findChild t k l = Some j \/ (length t <= j)%nat }.
Lemma grows_refl t : grows t t.
Proof. split; auto. Qed.
Lemma grows_trans t u v : grows t u -> grows u v -> grows t v.
Proof.
  intros [A B C D] [A' B' C' D']. split; [lia|intros; by rewrite B'|auto|].
  intros k l j H. destruct (D' _ _ _ H) as [H'|H']; [destruct (D _ _ _ H'); auto|right; lia].
Qed.
Lemma node_default t k : (length t <= k)%nat -> node t k = new_node [] None.
Proof. intros. unfold node. by apply nth_overflow. Qed.
Lemma context_default t k : (length t <= k)%nat -> getContext_of t k = None.
Proof. intros. unfold getContext_of. by rewrite node_default. Qed.

Lemma walk_grows t t' i p j : grows t t' -> walk t i p = Some j -> walk t' i p = Some j.
Proof.
  intros G. revert i. induction p as [|l p IH]; intros i H; cbn in *; [done|].
  destruct (findChild t i l) as [k|] eqn:E; [|done]. rewrite (g_old _ _ G _ _ _ E). auto.
Qed.
Lemma walk_new t t' i p j : wf t' -> grows t t' -> walk t' i p = Some j -> walk t i p = Some j \/ (length t <= j)%nat.
Proof.
  intros Hw G. revert i. induction p as [|l p IH]; intros i H; cbn in *; [auto|].
  destruct (findChild t' i l) as [k|] eqn:E; [|done]. destruct (g_new _ _ G _ _ _ E) as [E'|E'].
  - rewrite E'. auto.
  - right. destruct (walk_bounds _ _ _ _ Hw H). lia.
Qed.
Lemma table_grows t t' p : wf t' -> grows t t' -> table t' p = table t p.
Proof.
  intros Hw G. unfold table. destruct (walk t 0 p) as [i|] eqn:E.
  - rewrite (walk_grows _ _ _ _ _ G E). apply (g_context _ _ G).
  - destruct (walk t' 0 p) as [j|] eqn:E'; [|done]. destruct (walk_new _ _ _ _ _ Hw G E') as [H|H]; [congruence|].
    rewrite (g_context _ _ G). by apply context_default.
Qed.

Lemma node_alter f i t k : (i < length t)%nat -> node (alter f i t) k = if decide (k = i) then f (node t i) else node t k.
Proof.
  intros Hi. unfold node. rewrite !nth_lookup. case_decide as E.
  - subst. rewrite list_lookup_alter_eq. destruct (lookup_lt_is_Some_2 t i Hi) as [x Hx]. by rewrite Hx.
  - rewrite list_lookup_alter_ne by congruence. done.
Qed.
Lemma node_snoc t x k : node (t ++ [x]) k = if decide (k = length t) then x else node t k.
Proof.
  unfold node. case_decide as E; [subst; rewrite app_nth2, Nat.sub_diag by lia; done|].
  destruct (decide (k < length t)%nat); [by rewrite app_nth1|]. rewrite !nth_overflow; [done|lia|rewrite length_app; cbn; lia].
Qed.
Lemma node_insert t i l k : (i < length t)%nat ->
  node (insertChild t i l).1 k =
  if decide (k = length t) then new_node l (Some i) else if decide (k = i) then add_child l (length t) (node t i) else node t k.
Proof. intros Hi. unfold insertChild. cbn [fst]. rewrite node_snoc, length_alter. case_decide; [done|]. by apply node_alter. Qed.

Lemma node_insertChild_ok t i l : wf t -> (i < length t)%nat -> findChild t i l = None ->
  let '(t', j) := insertChild t i l in wf t' /\ grows t t' /\ findChild t' i l = Some j.
Proof.
  intros Hw Hi Hn. pose proof (node_insert t i l) as N. destruct (insertChild t i l) as [t' j] eqn:E.
  assert (Ht : length t' = S (length t)) by (unfold insertChild in E; injection E as <- <-; rewrite length_app, length_alter; cbn; lia).
  assert (Hj : j = length t) by (unfold insertChild in E; by injection E as <- <-). subst j. cbn [fst] in N.
  assert (F : forall k m, findChild t' k m = if decide (k = i /\ m = l) then Some (length t) else findChild t k m).
  { intros k m. unfold findChild. rewrite (N k Hi). destruct (decide (k = length t)) as [->|Hk].
    - rewrite decide_False by lia. rewrite (node_default t) by lia. cbn. by rewrite lookup_empty.
    - destruct (decide (k = i)) as [->|Hki]; cbn.
      + destruct (decide (m = l)) as [->|Hm]; [rewrite lookup_insert_eq, decide_True by done; done|].
        rewrite lookup_insert_ne, decide_False by naive_solver. done.
      + rewrite decide_False by naive_solver. done. }
  split; [split|split; [split|]].
  - destruct (wf_root t Hw) as [H0 P0]. split; [lia|]. rewrite (N 0%nat Hi), decide_False by lia. destruct (decide (0%nat = i)) as [<-|]; done.
  - intros k m j H. rewrite F in H. rewrite (N j Hi), Ht. destruct (decide (k = i /\ m = l)) as [[-> ->]|Hkm].
    + injection H as <-. rewrite decide_True by done. cbn. repeat split; lia.
    + destruct (wf_child t Hw _ _ _ H) as (Hb & P & L). rewrite decide_False by lia.
      destruct (decide (j = i)) as [->|]; cbn; repeat split; auto; lia.
  - lia.
  - intros k. unfold getContext_of. rewrite (N k Hi). destruct (decide (k = length t)) as [->|]; [rewrite node_default by lia; done|].
    destruct (decide (k = i)) as [->|]; done.
  - intros k m j H. rewrite F. rewrite decide_False; [done|]. intros [-> ->]. congruence.
  - intros k m j H. rewrite F in H. destruct (decide (k = i /\ m = l)); [injection H as <-; auto|auto].
  - rewrite F. by rewrite decide_True.
Qed.

(** Changing a node but for its children, parent, label and context. *)
Lemma alter_ok f j t : wf t -> (j < length t)%nat ->
  (forall n, m_pChildren (f n) = m_pChildren n /\ m_pParentNode (f n) = m_pParentNode n /\ m_pLabel (f n) = m_pLabel n) ->
  wf (alter f j t) /\ (forall k l, findChild (alter f j t) k l = findChild t k l).
Proof.
  intros Hw Hj Hf.
  assert (N : forall k, m_pChildren (node (alter f j t) k) = m_pChildren (node t k) /\ m_pParentNode (node (alter f j t) k) = m_pParentNode (node t k) /\ m_pLabel (node (alter f j t) k) = m_pLabel (node t k)).
  { intros k. rewrite node_alter by done. case_decide; [subst; apply Hf|done]. }
  assert (F : forall k l, findChild (alter f j t) k l = findChild t k l) by (intros k l; unfold findChild; by rewrite (proj1 (N k))).
  split; [|done]. destruct (wf_root t Hw) as [H0 P0]. split; [rewrite length_alter; destruct (N 0%nat) as (_ & -> & _); done|].
  intros k l i H. rewrite F in H. destruct (wf_child t Hw _ _ _ H) as (A & B & C). rewrite length_alter.
  destruct (N i) as (_ & -> & ->). auto.
Qed.
Lemma walk_same t t' : (forall k l, findChild t' k l = findChild t k l) -> forall p i, walk t' i p = walk t i p.
Proof. intros H. induction p as [|l p IH]; intros i; cbn; [done|]. rewrite H. destruct (findChild t i l); auto. Qed.

Lemma getChildNode_ok t i l lc : wf t -> (i < length t)%nat ->
  let '(t', j) := getChildNode t i l lc in wf t' /\ grows t t' /\ findChild t' i l = Some j /\ (i < j < length t')%nat.
Proof.
  intros Hw Hi. unfold getChildNode. destruct (findChild t i l) as [j|] eqn:E.
  - destruct (wf_child t Hw _ _ _ E) as (Hb & _). auto using grows_refl.
  - pose proof (node_insertChild_ok t i l Hw Hi E) as H. destruct (insertChild t i l) as [t' j]. destruct H as (W & G & F).
    destruct (wf_child t' W _ _ _ F) as (Hb & _). destruct (lc >? 0); [|auto].
    destruct (alter_ok (setLastCheck lc) j t' W) as [W' F']; [lia|done|].
    split; [done|]. split; [|rewrite F', length_alter; auto].
    destruct G as [A B C D]. split; [rewrite length_alter; lia| |intros k m c; rewrite F'; auto|intros k m c; rewrite F'; auto].
    intros k. rewrite <- B. unfold getContext_of. rewrite node_alter by lia. case_decide; [by subst|done].
Qed.

Lemma add_loop_ok fuel : forall t cur s lc, wf t -> (cur < length t)%nat -> (length s <= fuel)%nat ->
  let '(t', j) := add_loop fuel t cur s lc in
  wf t' /\ grows t t' /\ walk t' cur (segs s) = Some j /\ (j < length t')%nat.
Proof.
  induction fuel as [|fuel IH]; intros t cur s lc Hw Hc Hf; cbn [add_loop].
  { destruct s; [|cbn in Hf; lia]. auto using grows_refl. }
  destruct s as [|c0 s0] eqn:Es; [auto using grows_refl|]. rewrite <- Es in *.
  assert (Hs : s <> []) by (subst; done). rewrite (segs_step s Hs). clear Es c0 s0.
  destruct (memchr 47 s) as [n|] eqn:E.
  - pose proof (getChildNode_ok t cur (ztake n s) lc Hw Hc) as H. destruct (getChildNode t cur (ztake n s) lc) as [t1 j1].
    destruct H as (W1 & G1 & F1 & B1). pose proof (IH t1 j1 (zdrop (n + 1) s) lc W1 ltac:(lia) (memchr_shorter _ _ _ E Hf)) as H.
    destruct (add_loop fuel t1 j1 (zdrop (n + 1) s) lc) as [t2 j2]. destruct H as (W2 & G2 & F2 & B2).
    split; [done|]. split; [by eapply grows_trans|]. split; [|done]. cbn. rewrite (g_old _ _ G2 _ _ _ F1). done.
  - pose proof (getChildNode_ok t cur s lc Hw Hc) as H. destruct (getChildNode t cur s lc) as [t1 j1].
    destruct H as (W1 & G1 & F1 & B1). split; [done|]. split; [done|]. split; [|lia]. cbn. by rewrite F1.
Qed.
Lemma add_loop_there fuel : forall t cur s lc j, (length s <= fuel)%nat -> walk t cur (segs s) = Some j -> add_loop fuel t cur s lc = (t, j).
Proof.
  induction fuel as [|fuel IH]; intros t cur s lc j Hf H; cbn [add_loop].
  { destruct s; [|cbn in Hf; lia]. cbn in H. by injection H as ->. }
  destruct s as [|c0 s0] eqn:Es; [cbn in H; by injection H as ->|]. rewrite <- Es in *.
  assert (Hs : s <> []) by (subst; done). rewrite (segs_step s Hs) in H. clear Es c0 s0.
  unfold getChildNode. destruct (memchr 47 s) as [n|] eqn:E; cbn in H.
  - destruct (findChild t cur (ztake n s)) as [k|]; [|done]. apply IH; [by apply (memchr_shorter _ _ _ E)|done].
  - destruct (findChild t cur s) as [k|]; [|done]. congruence.
Qed.

(** ** The longest path *)

(** What a table has for the longest of its paths that lead to [p]. *)
Definition longest (f : path -> option nat) (p : path) (r : option nat) : Prop :=
  match r with
  | Some c => exists q, q `prefix_of` p /\ f q = Some c /\ forall q', q' `prefix_of` p -> f q' <> None -> q' `prefix_of` q
  | None => forall q, q `prefix_of` p -> f q = None
  end.

Lemma longest_ext f g p r : (forall q, q `prefix_of` p -> f q = g q) -> longest f p r -> longest g p r.
Proof.
  intros E. destruct r as [c|]; cbn.
  - intros (q & Hq & Hc & Hl). exists q. split; [done|]. split; [by rewrite <- E|]. intros q' Hq'. rewrite <- E by done. by apply Hl.
  - intros H q Hq. rewrite <- E by done. auto.
Qed.
Lemma longest_unique f p r r' : longest f p r -> longest f p r' -> r = r'.
Proof.
  destruct r as [c|], r' as [c'|]; cbn; [|intros (q & Hq & Hc & _) H; rewrite (H q Hq) in Hc; done|intros H (q & Hq & Hc & _); rewrite (H q Hq) in Hc; done|done].
  intros (q & Hq & Hc & Hl) (q' & Hq' & Hc' & Hl').
  assert (q = q') as ->; [|congruence].
  apply (anti_symm prefix); [apply Hl'|apply Hl]; try done; congruence.
Qed.

Lemma prefix_of_snoc (q p : path) l : q `prefix_of` p ++ [l] <-> q `prefix_of` p \/ q = p ++ [l].
Proof.
  split.
  - intros [k Hk]. destruct k as [|x k _] using rev_ind; [right; by rewrite app_nil_r in Hk|].
    left. rewrite app_assoc in Hk. apply app_inj_tail in Hk as [-> _]. by apply prefix_app_r.
  - intros [H| ->]; [by apply prefix_app_r|done].
Qed.
(** One segment more. *)
Lemma longest_snoc f p l r : longest f p r -> longest f (p ++ [l]) (match f (p ++ [l]) with Some c => Some c | None => r end).
Proof.
  intros H. destruct (f (p ++ [l])) as [c|] eqn:E.
  - exists (p ++ [l]). split; [done|]. split; [done|]. auto.
  - destruct r as [c|]; cbn in *.
    + destruct H as (q & Hq & Hc & Hl). exists q. split; [by apply prefix_app_r|]. split; [done|].
      intros q' Hq' Hn. apply prefix_of_snoc in Hq' as [?| ->]; [auto|congruence].
    + intros q Hq. apply prefix_of_snoc in Hq as [?| ->]; auto.
Qed.
Lemma longest_nil f : longest f [] (f []).
Proof.
  destruct (f []) as [c|] eqn:E; cbn; [exists []; repeat split; auto; intros q' H _; done|].
  intros q Hq. apply prefix_nil_inv in Hq as ->. done.
Qed.
(** Nothing beyond a path whose nodes are not there. *)
Lemma longest_stop f p q r : (forall k, k <> [] -> f (p ++ k) = None) -> longest f p r -> longest f (p ++ q) r.
Proof.
  intros Hn H. induction q as [|l q IH] using rev_ind; [by rewrite app_nil_r|].
  rewrite app_assoc. pose proof (longest_snoc f (p ++ q) l r IH) as L. rewrite <- app_assoc in L.
  rewrite (Hn (q ++ [l])) in L by (destruct q; discriminate). by rewrite app_assoc in L.
Qed.

Lemma table_walk t p i : walk t 0 p = Some i -> table t p = getContext_of t i.
Proof. intros H. unfold table. by rewrite H. Qed.

Lemma match_loop_ok fuel : forall t p cur last s, walk t 0 p = Some cur -> (length s <= fuel)%nat ->
  longest (table t) p (getContext_of t last) ->
  longest (table t) (p ++ segs s) (getContext_of t (match_loop fuel t cur last s)).
Proof.
  assert (A : forall t p cur last l c, walk t 0 p = Some cur -> longest (table t) p (getContext_of t last) -> findChild t cur l = Some c ->
    walk t 0 (p ++ [l]) = Some c /\
    longest (table t) (p ++ [l]) (getContext_of t (match getContext_of t c with Some _ => c | None => last end))).
  { intros t p cur last l c Hp HL Hc.
    assert (W : walk t 0 (p ++ [l]) = Some c) by (rewrite walk_snoc, Hp; done). split; [done|].
    pose proof (longest_snoc _ _ l _ HL) as L. rewrite (table_walk _ _ _ W) in L.
    destruct (getContext_of t c) eqn:E; [by rewrite E|done]. }
  assert (B : forall t p cur last l s, walk t 0 p = Some cur -> longest (table t) p (getContext_of t last) -> findChild t cur l = None ->
    longest (table t) (p ++ l :: s) (getContext_of t last)).
  { intros t p cur last l s Hp HL Hc. rewrite cons_middle, app_assoc. apply longest_stop.
    - intros k _. unfold table. rewrite <- app_assoc, walk_app, Hp. cbn. by rewrite Hc.
    - pose proof (longest_snoc _ _ l _ HL) as L. replace (table t (p ++ [l])) with (@None nat) in L; [done|].
      unfold table. by rewrite walk_snoc, Hp, Hc. }
  induction fuel as [|fuel IH]; intros t p cur last s Hp Hf HL; cbn [match_loop].
  { destruct s; [|cbn in Hf; lia]. cbn. by rewrite app_nil_r. }
  destruct s as [|c0 s0] eqn:Es; [cbn; by rewrite app_nil_r|]. rewrite <- Es in *.
  assert (Hs : s <> []) by (subst; done). rewrite (segs_step s Hs). clear Es c0 s0.
  destruct (memchr 47 s) as [n|] eqn:E.
  - destruct (findChild t cur (ztake n s)) as [c|] eqn:Ec; [|by eapply B].
    destruct (A _ _ _ _ _ _ Hp HL Ec) as [W L]. rewrite cons_middle, app_assoc. apply IH; [done|by apply (memchr_shorter _ _ _ E)|done].
  - destruct (findChild t cur s) as [c|] eqn:Ec; [|by eapply B]. by destruct (A _ _ _ _ _ _ Hp HL Ec).
Qed.

Lemma match_node_ok t s : wf t -> longest (table t) (segs s) (getContext_of t (match_node t 0 s)).
Proof.
  intros Hw. apply (match_loop_ok _ t []); [done|done|]. apply longest_nil.
Qed.

(** ** Setting a context *)

Lemma setContext_ok t n p c : wf t -> walk t 0 p = Some n -> (n < length t)%nat ->
  let t' := alter (setContext (Some c)) n t in
  wf t' /\ (forall q, walk t' 0 q = walk t 0 q) /\ forall q, table t' q = if decide (q = p) then Some c else table t q.
Proof.
  intros Hw Hp Hn t'. destruct (alter_ok (setContext (Some c)) n t Hw Hn) as [W F]; [done|].
  assert (Wk : forall q, walk t' 0 q = walk t 0 q) by (intros q; by apply walk_same). split; [done|]. split; [done|].
  intros q. unfold table. rewrite Wk. destruct (decide (q = p)) as [->|Hq].
  - rewrite Hp. unfold getContext_of, t'. rewrite node_alter by done. by rewrite decide_True.
  - destruct (walk t 0 q) as [k|] eqn:E; [|done]. unfold getContext_of, t'. rewrite node_alter by done.
    rewrite decide_False; [done|]. intros ->. apply Hq. exact (walk_unique t q Hw p n E Hp).
Qed.

(** The table without the redirects. *)
Definition plain (cs : contexts) (f : path -> option nat) (p : path) : option nat :=
  match f p with Some c => if is_redirect (context cs c) then None else Some c | None => None end.

Lemma parent_context_ok t cs : wf t -> forall p l i fuel, walk t 0 (p ++ [l]) = Some i -> (i < fuel)%nat ->
  longest (plain cs (table t)) p (parent_context fuel t cs i).
Proof.
  intros Hw p. induction p as [|m p IH] using rev_ind; intros l i fuel H Hf; (destruct fuel as [|fuel]; [lia|]); cbn [parent_context].
  - cbn in H. destruct (findChild t 0 l) as [j|] eqn:E; [|done]. injection H as <-.
    destruct (wf_child t Hw _ _ _ E) as (B & -> & _).
    assert (P : parent_context fuel t cs 0 = None) by (destruct fuel; [done|]; cbn; by rewrite (proj2 (wf_root t Hw))).
    rewrite P. replace (match getContext_of t 0 with Some c => if is_redirect (context cs c) then None else Some c | None => None end)
      with (plain cs (table t) []) by (unfold plain, table; reflexivity). apply longest_nil.
  - rewrite walk_snoc in H. destruct (walk t 0 (p ++ [m])) as [k|] eqn:E; [|done].
    destruct (wf_child t Hw _ _ _ H) as (B & -> & _).
    pose proof (longest_snoc _ _ m _ (IH m k fuel E ltac:(lia))) as L. unfold plain at 2 in L. rewrite (table_walk _ _ _ E) in L.
    destruct (getContext_of t k) as [c|]; [|exact L]. by destruct (is_redirect (context cs c)).
Qed.
Lemma getParentContext_ok t cs p l i : wf t -> walk t 0 (p ++ [l]) = Some i -> longest (plain cs (table t)) p (getParentContext t cs i).
Proof. intros Hw H. eapply parent_context_ok; eauto. Qed.
Lemma getParentContext_root t cs : wf t -> getParentContext t cs 0 = None.
Proof. intros Hw. unfold getParentContext. cbn. by rewrite (proj2 (wf_root t Hw)). Qed.

(** ** The contexts below a node *)

Lemma context_alter f c cs k : (c < length cs)%nat -> context (alter f c cs) k = if decide (k = c) then f (context cs c) else context cs k.
Proof.
  intros Hc. unfold context. rewrite !nth_lookup. case_decide as E.
  - subst. rewrite list_lookup_alter_eq. destruct (lookup_lt_is_Some_2 cs c Hc) as [x ->]. done.
  - rewrite list_lookup_alter_ne by congruence. done.
Qed.

(** The first contexts on the paths down from a node. *)
Fixpoint below (fuel : nat) (t : tree) (i : nat) : list nat :=
  match fuel with
  | O => []
  | S fuel => flat_map (fun j => match getContext_of t j with Some c => [c] | None => below fuel t j end)
                (map snd (map_to_list (m_pChildren (node t i))))
  end.
Definition reparent (old new : option nat) (cs : contexts) (c : nat) : contexts :=
  if decide (m_pParent (context cs c) = old) then alter (setParent new) c cs else cs.

Lemma fold_left_flat_map {A B C} (f : A -> C -> A) (g : B -> list C) l a :
  fold_left f (flat_map g l) a = fold_left (fun a x => fold_left f (g x) a) l a.
Proof. revert a. induction l as [|x l IH]; intros a; cbn; [done|]. by rewrite fold_left_app, IH. Qed.
Lemma fold_left_same {A B} (f g : A -> B -> A) l a : (forall a x, f a x = g a x) -> fold_left f l a = fold_left g l a.
Proof. intros H. revert a. induction l as [|x l IH]; intros a; cbn; [done|]. by rewrite H, IH. Qed.
Lemma children_parent_below fuel t old new : forall i cs,
  children_parent fuel t old new false i cs = fold_left (reparent old new) (below fuel t i) cs.
Proof.
  induction fuel as [|fuel IH]; intros i cs; cbn [children_parent below]; [done|].
  rewrite fold_left_flat_map. apply fold_left_same. intros a j. destruct (getContext_of t j) as [c|]; [done|]. apply IH.
Qed.

Lemma context_reparent old new cs c k : (c < length cs)%nat -> context (reparent old new cs c) k =
  if decide (k = c /\ m_pParent (context cs k) = old) then setParent new (context cs k) else context cs k.
Proof.
  intros Hc. unfold reparent. destruct (decide (m_pParent (context cs c) = old)) as [E|E].
  - rewrite context_alter by done. destruct (decide (k = c)) as [->|]; [by rewrite decide_True|rewrite decide_False by naive_solver; done].
  - rewrite decide_False by naive_solver. done.
Qed.
Lemma length_reparent old new cs c : length (reparent old new cs c) = length cs.
Proof. unfold reparent. case_decide; [by rewrite length_alter|done]. Qed.
Lemma reparent_all old new l : forall cs k, Forall (fun c => (c < length cs)%nat) l ->
  length (fold_left (reparent old new) l cs) = length cs /\
  context (fold_left (reparent old new) l cs) k =
    if decide (k ∈ l /\ m_pParent (context cs k) = old) then setParent new (context cs k) else context cs k.
Proof.
  induction l as [|c l IH]; intros cs k Hl; cbn [fold_left].
  - split; [done|]. rewrite decide_False; [done|]. intros [H _]. by apply not_elem_of_nil in H.
  - apply Forall_cons in Hl as [Hc Hl]. destruct (IH (reparent old new cs c) k) as [L E].
    { eapply Forall_impl; [exact Hl|]. intros x. by rewrite length_reparent. }
    rewrite L, length_reparent. split; [done|]. rewrite E, context_reparent by done.
    destruct (decide (k = c /\ m_pParent (context cs k) = old)) as [[-> P]|N].
    + rewrite (decide_True (P := c ∈ c :: l /\ _)) by (split; [left|done]). cbn. by destruct (decide (c ∈ l /\ new = old)).
    + assert (D : k ∈ l /\ m_pParent (context cs k) = old <-> k ∈ c :: l /\ m_pParent (context cs k) = old) by (rewrite elem_of_cons; naive_solver).
      destruct (decide (k ∈ l /\ m_pParent (context cs k) = old)), (decide (k ∈ c :: l /\ m_pParent (context cs k) = old)); naive_solver.
Qed.

Lemma below_ok t fuel : wf t -> forall i c, (length t <= i + fuel)%nat -> c ∈ below fuel t i <->
  exists q j, q <> [] /\ walk t i q = Some j /\ getContext_of t j = Some c /\
  forall q1 q2 k, q = q1 ++ q2 -> q1 <> [] -> q2 <> [] -> walk t i q1 = Some k -> getContext_of t k = None.
Proof.
  intros Hw. induction fuel as [|fuel IH]; intros i c Hf; cbn [below].
  - split; [intros H; by apply not_elem_of_nil in H|]. intros (q & j & Hq & Hj & _).
    destruct (walk_bounds _ _ _ _ Hw Hj) as (_ & [?|?]); [done|lia].
  - rewrite list_elem_of_In, in_flat_map. split.
    + intros (j & Hj & Hc). apply in_map_iff in Hj as ([l j'] & <- & Hj). cbn in *.
      apply list_elem_of_In, elem_of_map_to_list in Hj. change (findChild t i l = Some j') in Hj.
      destruct (getContext_of t j') as [c'|] eqn:E.
      * destruct Hc as [<-|[]]. exists [l], j'. cbn. rewrite Hj. repeat split; auto.
        intros q1 q2 k Hq H1 H2. destruct q1 as [|x q1]; [done|]. destruct q1, q2; done.
      * apply list_elem_of_In in Hc. destruct (wf_child t Hw _ _ _ Hj) as (B & _). apply IH in Hc as (q & j & Hq & Hj' & Hc & Hn); [|lia].
        exists (l :: q), j. cbn. rewrite Hj. repeat split; auto. intros q1 q2 k Hq' H1 H2 Hk.
        destruct q1 as [|x q1]; [done|]. cbn in Hq', Hk. injection Hq' as <- Hq'. rewrite Hj in Hk.
        destruct q1 as [|y q1]; [cbn in Hk; congruence|]. by apply (Hn (y :: q1) q2 k).
    + intros (q & j & Hq & Hj & Hc & Hn). destruct q as [|l q]; [done|]. cbn in Hj. destruct (findChild t i l) as [j'|] eqn:E; [|done].
      exists j'. split; [apply in_map_iff; exists (l, j'); split; [done|]; by apply list_elem_of_In, elem_of_map_to_list|].
      destruct q as [|m q]; [cbn in Hj; injection Hj as ->; rewrite Hc; by left|].
      assert (Ej : getContext_of t j' = None) by (apply (Hn [l] (m :: q)); cbn; try done; by rewrite E).
      rewrite Ej. apply list_elem_of_In. destruct (wf_child t Hw _ _ _ E) as (B & _). apply IH; [lia|]. exists (m :: q), j.
      repeat split; auto. intros q1 q2 k Hq' H1 H2 Hk. apply (Hn (l :: q1) q2 k); cbn; [by rewrite Hq'|done|done|by rewrite E].
Qed.

(** ** Adding a context *)

Lemma parent_context_ext fuel t cs cs' : (forall k, is_redirect (context cs' k) = is_redirect (context cs k)) ->
  forall i, parent_context fuel t cs' i = parent_context fuel t cs i.
Proof.
  intros H. induction fuel as [|fuel IH]; intros i; cbn; [done|]. destruct (m_pParentNode (node t i)) as [p|]; [|done].
  destruct (getContext_of t p) as [c|]; [|apply IH]. rewrite H. destruct (is_redirect (context cs c)); auto.
Qed.

Lemma starts_slash uri : starts [47] uri = (hd 0 uri =? 47).
Proof.
  unfold starts. change (zlen [47]) with 1. destruct uri as [|c u]; [done|]. cbn [hd].
  rewrite ztake_cons by lia. change (1 - 1) with 0. rewrite ztake_0. unfold bytes_eqb. cbn. by rewrite andb_true_r.
Qed.
Lemma zdrop_1 (l : list Z) : zdrop 1 l = tl l.
Proof. destruct l; [done|]. rewrite zdrop_cons by lia. change (1 - 1) with 0. by rewrite zdrop_0. Qed.

(** Each context of the table is at the path of its URI; the root's URI is a slash. *)
Record good (T : ContextTree) : Prop := {
  good_wf : wf (m_pRootNode T);
  good_prefix : getPrefix T = [47];
  good_root : forall r, m_pRootContext T = Some r -> (r < length (c_contexts T))%nat;
  good_uri : forall p c, table (m_pRootNode T) p = Some c ->
    (c < length (c_contexts T))%nat /\ hd 0 (m_sContextURI (context (c_contexts T) c)) = 47 /\ dirs (m_sContextURI (context (c_contexts T) c)) = p }.
Lemma good_path T p q c : good T -> table (m_pRootNode T) p = Some c -> table (m_pRootNode T) q = Some c -> p = q.
Proof. intros G Hp Hq. destruct (good_uri T G _ _ Hp) as (_ & _ & <-). by destruct (good_uri T G _ _ Hq) as (_ & _ & <-). Qed.

(** The parent that a context gets, and the contexts that it becomes the parent of. *)
Definition parent_at (T : ContextTree) (n : nat) : option nat := getParentContext (m_pRootNode T) (c_contexts T) n.
Definition set_parents (T : ContextTree) (n c : nat) (cs : contexts) : Prop :=
  length cs = length (c_contexts T) /\
  context cs c = setParent (match parent_at T n with Some o => Some o | None => m_pRootContext T end) (context (c_contexts T) c) /\
  forall k, k <> c -> context cs k =
    if decide (k ∈ below (length (m_pRootNode T)) (m_pRootNode T) n /\ m_pParent (context (c_contexts T) k) = parent_at T n)
    then setParent (Some c) (context (c_contexts T) k) else context (c_contexts T) k.

(** The result of [add], up to the tree of locations. *)
Inductive added (T : ContextTree) (c : nat) : Z -> ContextTree -> Prop :=
| added_bad : hd 0 (m_sContextURI (context (c_contexts T) c)) <> 47 -> added T c EINVAL T
| added_twice c0 :
    hd 0 (m_sContextURI (context (c_contexts T) c)) = 47 ->
    table (m_pRootNode T) (dirs (m_sContextURI (context (c_contexts T) c))) = Some c0 -> added T c EINVAL T
| added_new T1 n T2 :
    hd 0 (m_sContextURI (context (c_contexts T) c)) = 47 ->
    wf (m_pRootNode T1) -> grows (m_pRootNode T) (m_pRootNode T1) -> c_contexts T1 = c_contexts T -> m_pRootContext T1 = m_pRootContext T ->
    table (m_pRootNode T) (dirs (m_sContextURI (context (c_contexts T) c))) = None ->
    walk (m_pRootNode T1) 0 (dirs (m_sContextURI (context (c_contexts T) c))) = Some n ->
    m_pRootNode T2 = alter (setContext (Some c)) n (m_pRootNode T1) -> (n < length (m_pRootNode T1))%nat ->
    m_pRootContext T2 = m_pRootContext T -> set_parents T1 n c (c_contexts T2) ->
    added T c 0 T2.

Lemma is_redirect_setParent p x : is_redirect (setParent p x) = is_redirect x.
Proof. done. Qed.

(** [setContextUpdateParent] of a node without a context. *)
Lemma setContextUpdateParent_ok T n c :
  (c < length (c_contexts T))%nat -> getContext_of (m_pRootNode T) n = None -> c ∉ below (length (m_pRootNode T)) (m_pRootNode T) n ->
  Forall (fun c => (c < length (c_contexts T))%nat) (below (length (m_pRootNode T)) (m_pRootNode T) n) ->
  m_pParent (context (c_contexts T) c) = None ->
  let '(t, cs) := setContextUpdateParent (m_pRootNode T) (c_contexts T) n (Some c) false in
  t = alter (setContext (Some c)) n (m_pRootNode T) /\
  let cs := match m_pParent (context cs c) with None => alter (setParent (m_pRootContext T)) c cs | Some _ => cs end in
  set_parents T n c cs.
Proof.
  intros Hc Hn Hb Hf Hp. unfold setContextUpdateParent. rewrite Hn. rewrite decide_False by done.
  unfold setChildrenParentContext. rewrite children_parent_below.
  set (up := getParentContext (m_pRootNode T) (c_contexts T) n). set (l := below _ _ _) in *.
  set (cs1 := fold_left (reparent up (Some c)) l (c_contexts T)).
  assert (R : forall k, length cs1 = length (c_contexts T) /\ context cs1 k =
    if decide (k ∈ l /\ m_pParent (context (c_contexts T) k) = up) then setParent (Some c) (context (c_contexts T) k) else context (c_contexts T) k).
  { intros k. apply reparent_all, Hf. }
  assert (L1 : length cs1 = length (c_contexts T)) by apply (R 0%nat).
  assert (U : getParentContext (m_pRootNode T) cs1 n = up).
  { unfold getParentContext. apply parent_context_ext. intros k. destruct (R k) as [_ ->]. by case_decide. }
  rewrite U. split; [done|].
  assert (Cc : context cs1 c = context (c_contexts T) c) by (destruct (R c) as [_ ->]; rewrite decide_False by tauto; done).
  rewrite context_alter by lia. rewrite decide_True by done. rewrite Cc. cbn [m_pParent setParent].
  assert (K : forall p, set_parents T n c (alter (setParent p) c cs1) <-> setParent p (context (c_contexts T) c) = setParent (match up with Some o => Some o | None => m_pRootContext T end) (context (c_contexts T) c)).
  { intros p. unfold set_parents. rewrite length_alter, context_alter, decide_True, Cc by (done || lia). change (parent_at T n) with up. fold l.
    split; [tauto|]. intros ->. split; [done|]. split; [done|]. intros k Hk. rewrite context_alter, decide_False by (done || lia). apply R. }
  destruct up as [o|] eqn:Eu; [by apply K|].
  unfold set_parents. change (parent_at T n) with up. rewrite Eu. fold l.
  rewrite !length_alter, !context_alter, !decide_True by (done || rewrite ?length_alter; lia). rewrite Cc.
  split; [done|]. split; [done|]. intros k Hk.
  rewrite !context_alter, !decide_False by (done || rewrite ?length_alter; lia). apply R.
Qed.

Lemma below_in_table T p n c : good T -> walk (m_pRootNode T) 0 p = Some n -> c ∈ below (length (m_pRootNode T)) (m_pRootNode T) n ->
  exists q, q <> [] /\ table (m_pRootNode T) (p ++ q) = Some c /\
  forall q1 q2, q = q1 ++ q2 -> q1 <> [] -> q2 <> [] -> table (m_pRootNode T) (p ++ q1) = None.
Proof.
  intros G Hp Hc. apply below_ok in Hc as (q & j & Hq & Hj & Hc & Hn); [|apply G|lia]. exists q. split; [done|]. split.
  - unfold table. by rewrite walk_app, Hp, Hj.
  - intros q1 q2 E H1 H2. unfold table. rewrite walk_app, Hp. destruct (walk (m_pRootNode T) n q1) as [k|] eqn:Ek; [|done]. by apply (Hn q1 q2 k).
Qed.

Lemma good_grows T t : good T -> wf t -> grows (m_pRootNode T) t -> good (on_tree (fun _ => t) T).
Proof.
  intros [W P R U] Hw G. split; [done|done|done|]. cbn. intros p c. rewrite (table_grows _ _ _ Hw G). apply U.
Qed.
Lemma find_in_table T p n : wf (m_pRootNode T) -> walk (m_pRootNode T) 0 p = Some n -> getContext_of (m_pRootNode T) n = table (m_pRootNode T) p.
Proof. intros _ H. symmetry. by apply table_walk. Qed.

Lemma add_added T c : good T -> (c < length (c_contexts T))%nat -> (forall p, table (m_pRootNode T) p <> Some c) ->
  m_pParent (context (c_contexts T) c) = None -> added T c (add c T).1 (add c T).2.
Proof.
  intros G Hc Hf Hp. unfold add. set (x := context (c_contexts T) c).
  unfold addNode. rewrite (good_prefix T G), starts_slash. destruct (Z.eqb_spec (hd 0 (m_sContextURI x)) 47) as [Hu|Hu]; cbn [negb]; [|by apply added_bad].
  change (zlen [47]) with 1. rewrite zdrop_1. fold (dirs (m_sContextURI x)).
  pose proof (add_loop_ok _ (m_pRootNode T) 0 (tl (m_sContextURI x)) 0 (good_wf T G) (proj1 (wf_root _ (good_wf T G))) (le_n _)) as A.
  pose proof (add_loop_there (length (tl (m_sContextURI x))) (m_pRootNode T) 0 (tl (m_sContextURI x)) 0) as There.
  destruct (add_loop (length (tl (m_sContextURI x))) (m_pRootNode T) 0 (tl (m_sContextURI x)) 0) as [t n].
  destruct A as (W & Gr & Wk & Hn). set (T1 := on_tree (fun _ => t) T).
  assert (G1 : good T1) by (by apply good_grows).
  assert (E : getContext_of t n = table (m_pRootNode T) (dirs (m_sContextURI x))).
  { rewrite <- (table_grows _ _ _ W Gr). symmetry. by apply table_walk. }
  destruct (getContext_of t n) as [c0|] eqn:Ec.
  - cbn [fst snd]. assert (Hw : is_Some (walk (m_pRootNode T) 0 (dirs (m_sContextURI x)))).
    { unfold table in E. destruct (walk (m_pRootNode T) 0 (dirs (m_sContextURI x))); [by eexists|done]. }
    destruct Hw as [j Hj]. specialize (There j (le_n _) Hj). injection There as -> _.
    replace T1 with T by (by destruct T). by apply (added_twice T c c0).
  - assert (Hb : forall k, k ∈ below (length t) t n -> (k < length (c_contexts T))%nat /\ k <> c).
    { intros k Hk. destruct (below_in_table T1 _ _ _ G1 Wk Hk) as (q & _ & Hq & _). split; [apply (good_uri T1 G1 _ _ Hq)|].
      intros ->. cbn in Hq. rewrite (table_grows _ _ _ W Gr) in Hq. by apply Hf in Hq. }
    pose proof (setContextUpdateParent_ok T1 n c Hc Ec) as S.
    change (m_pRootNode T1) with t in S. change (c_contexts T1) with (c_contexts T) in S |- *. destruct (setContextUpdateParent t (c_contexts T) n (Some c) false) as [t2 cs2].
    destruct S as [-> S]; [intros Hk; by apply Hb in Hk as [_ ?]|apply Forall_forall; intros k Hk; by apply Hb|done|].
    match goal with |- added _ _ (fst ?r) (snd ?r) => assert (D : exists T2, r = (0, T2) /\ m_pRootNode T2 = alter (setContext (Some c)) n t /\ m_pRootContext T2 = m_pRootContext T /\
      c_contexts T2 = match m_pParent (context cs2 c) with None => alter (setParent (m_pRootContext T)) c cs2 | Some _ => cs2 end) end.
    { destruct (m_sLocation x) as [loc|]; [|eexists; split; [reflexivity|done]].
      destruct (negb (starts _ loc)); [eexists; split; [reflexivity|done]|].
      destruct (add_loop _ _ _ _ _) as [tl nl]. eexists; split; [reflexivity|done]. }
    destruct D as (T2 & -> & D1 & D2 & D3). cbn [fst snd]. eapply (added_new T c T1 n T2); try done. by rewrite D3.
Qed.

Lemma segs_from_slash s : forall cur, s <> [] /\ last s <> Some 47 \/ s = [] /\ cur <> [] -> segs_from cur (s ++ [47]) = segs_from cur s.
Proof.
  induction s as [|c s IH]; intros cur H; cbn [app segs_from].
  - destruct H as [[? _]|[_ ?]]; [done|]. cbn. by destruct cur.
  - destruct H as [[_ H]|[? _]]; [|done]. destruct s as [|d s].
    + cbn in H. rewrite (proj2 (Z.eqb_neq c 47)) by congruence. apply IH. right. split; [done|]. by destruct cur.
    + destruct (c =? 47); [f_equal|]; apply IH; left; done.
Qed.
Lemma dirs_slash u : hd 0 u = 47 -> znth u (zlen u - 1) <> 47 -> dirs (u ++ [47]) = dirs u.
Proof.
  destruct u as [|c s]; [done|]. cbn [hd]. intros -> H. unfold dirs. cbn [app tl]. apply segs_from_slash. left.
  destruct s as [|d s _] using rev_ind; [by cbn in H|]. split; [by destruct s|].
  rewrite last_snoc. intros [= ->]. apply H. rewrite app_comm_cons, zlen_app. unfold znth.
  replace (zlen (47 :: s) + zlen [47] - 1) with (zlen (47 :: s)) by (change (zlen [47]) with 1; lia).
  unfold zlen. rewrite Nat2Z.id, app_nth2, Nat.sub_diag by lia. done.
Qed.

(** ** A new context of a virtual host *)

Definition table_of (T : ContextTree) : path -> option nat := table (m_pRootNode T).
Definition context_of (T : ContextTree) (c : nat) : HttpContext := context (c_contexts T) c.

(** The context above a path: the nearest that is no redirect. *)
Definition up_of (T : ContextTree) (p : path) (r : option nat) : Prop :=
  p = [] /\ r = None \/ exists p' l, p = p' ++ [l] /\ longest (plain (c_contexts T) (table_of T)) p' r.
(** A context below a path with none between. *)
Definition under (T : ContextTree) (p : path) (k : nat) : Prop :=
  exists q, q <> [] /\ table_of T (p ++ q) = Some k /\
  forall q1 q2, q = q1 ++ q2 -> q1 <> [] -> q2 <> [] -> table_of T (p ++ q1) = None.

Record new_at (T : ContextTree) (p : path) (x : HttpContext) (T2 : ContextTree) : Prop := {
  na_good : good T2;
  na_table : forall q, table_of T2 q = if decide (q = p) then Some (length (c_contexts T)) else table_of T q;
  na_length : length (c_contexts T2) = S (length (c_contexts T));
  na_root : m_pRootContext T2 = m_pRootContext T;
  na_parents : exists up, up_of T p up /\
    context_of T2 (length (c_contexts T)) = setParent (match up with Some o => Some o | None => m_pRootContext T end) x /\
    forall k, k <> length (c_contexts T) ->
      under T p k /\ m_pParent (context_of T k) = up /\ context_of T2 k = setParent (Some (length (c_contexts T))) (context_of T k) \/
      ~ (under T p k /\ m_pParent (context_of T k) = up) /\ context_of T2 k = context_of T k }.

Lemma context_snoc cs x k : context (cs ++ [x]) k = if decide (k = length cs) then x else context cs k.
Proof.
  unfold context. case_decide as E; [subst; rewrite app_nth2, Nat.sub_diag by lia; done|].
  destruct (decide (k < length cs)%nat); [by rewrite app_nth1|]. rewrite !nth_overflow; [done|lia|rewrite length_app; cbn; lia].
Qed.

Lemma good_fresh T p : good T -> table (m_pRootNode T) p <> Some (length (c_contexts T)).
Proof. intros G H. destruct (good_uri T G _ _ H) as [? _]. lia. Qed.

Lemma tree_good_append T x : good T -> good (on_contexts (fun cs => cs ++ [x]) T).
Proof.
  intros [W P R U]. split.
  - done.
  - unfold getPrefix in *. cbn. destruct (m_pRootContext T) as [r|] eqn:E; [|done]. specialize (R r eq_refl).
    change (m_sContextURI (context (c_contexts T ++ [x]) r) = [47]). rewrite context_snoc, decide_False by lia. done.
  - intros r Hr. change (r < length (c_contexts T ++ [x]))%nat. rewrite length_app. specialize (R r Hr). lia.
  - intros p c H. destruct (U _ _ H) as (L & A & B). change (c_contexts (on_contexts (fun cs => cs ++ [x]) T)) with (c_contexts T ++ [x]). rewrite length_app, context_snoc, decide_False by lia. cbn. repeat split; try done; lia.
Qed.

Lemma longest_plain_ext T T1 p r : (forall q, table_of T1 q = table_of T q) ->
  (forall q c, table_of T q = Some c -> is_redirect (context_of T1 c) = is_redirect (context_of T c)) ->
  longest (plain (c_contexts T1) (table_of T1)) p r -> longest (plain (c_contexts T) (table_of T)) p r.
Proof.
  intros E R. apply longest_ext. intros q _. unfold plain. rewrite E. destruct (table_of T q) as [c|] eqn:Ec; [|done].
  specialize (R _ _ Ec). unfold context_of in R. by rewrite R.
Qed.

Lemma added_new_at T x T1 n T2 : good T ->
  hd 0 (m_sContextURI x) = 47 -> m_pParent x = None ->
  let c := length (c_contexts T) in let p := dirs (m_sContextURI x) in
  wf (m_pRootNode T1) -> grows (m_pRootNode T) (m_pRootNode T1) -> c_contexts T1 = c_contexts T ++ [x] -> m_pRootContext T1 = m_pRootContext T ->
  table_of T p = None -> walk (m_pRootNode T1) 0 p = Some n ->
  m_pRootNode T2 = alter (setContext (Some c)) n (m_pRootNode T1) -> (n < length (m_pRootNode T1))%nat ->
  m_pRootContext T2 = m_pRootContext T -> set_parents T1 n c (c_contexts T2) ->
  new_at T p x T2.
Proof.
  intros G Hu Hx c p W Gr C1 R1 Hn Wk M2 Ln R2 (L2 & Cc & Ck).
  assert (G1 : good T1).
  { pose proof (tree_good_append T x G) as GA. replace T1 with (on_locations (fun _ => m_pLocRootNode T1) (setRootLocation (m_pLocRootPath T1) (on_tree (fun _ => m_pRootNode T1) (on_contexts (fun cs => cs ++ [x]) T)))).
    - pose proof (good_grows _ (m_pRootNode T1) GA W Gr) as [? ? ? ?]. by split.
    - destruct T, T1. cbn in *. by subst. }
  assert (TT : forall q, table_of T1 q = table_of T q) by (intros q; by apply table_grows).
  destruct (setContext_ok _ _ _ c W Wk Ln) as (W2 & _ & T2').
  assert (TE : forall q, table_of T2 q = if decide (q = p) then Some c else table_of T q).
  { intros q. unfold table_of at 1. rewrite M2, T2'. case_decide; [done|]. apply TT. }
  assert (Hlen : length (c_contexts T2) = S (length (c_contexts T))) by (rewrite L2, C1, length_app; cbn; lia).
  assert (Old : forall k, k <> c -> context (c_contexts T1) k = context (c_contexts T) k) by (intros k Hk; rewrite C1, context_snoc, decide_False; done).
  assert (New : context (c_contexts T1) c = x) by (rewrite C1, context_snoc, decide_True; done).
  assert (UF : forall k, m_sContextURI (context (c_contexts T2) k) = m_sContextURI (context (c_contexts T1) k)).
  { intros k. destruct (decide (k = c)) as [->|Hk]; [by rewrite Cc|]. rewrite (Ck k Hk). by case_decide. }
  split; [split| | | |].
  - by rewrite M2.
  - unfold getPrefix. rewrite R2. pose proof (good_prefix T G) as GP. unfold getPrefix in GP.
    destruct (m_pRootContext T) as [r|] eqn:Er; [|done]. rewrite UF, Old; [done|]. pose proof (good_root T G r Er). unfold c. lia.
  - intros r Hr. rewrite Hlen. rewrite R2 in Hr. pose proof (good_root T G r Hr). lia.
  - intros q k H. change (table_of T2 q = Some k) in H. rewrite TE in H. rewrite Hlen, UF. destruct (decide (q = p)) as [->|Hq].
    + injection H as <-. rewrite New. split; [lia|]. done.
    + destruct (good_uri T G _ _ H) as (A & B & D). rewrite Old by (unfold c; lia). split; [lia|]. done.
  - done.
  - done.
  - done.
  - exists (parent_at T1 n). split; [|split].
    + destruct p as [|l p' _] eqn:Ep using rev_ind.
      * left. split; [done|]. cbn in Wk. injection Wk as <-. by apply getParentContext_root.
      * right. exists p', l. split; [done|]. eapply longest_plain_ext; [exact TT| |by apply (getParentContext_ok _ _ _ l)].
        intros q k Hk. destruct (good_uri T G _ _ Hk) as (A & _). unfold context_of. rewrite Old; [done|]. unfold c. lia.
    + unfold context_of. fold c. rewrite Cc, R1, New. done.
    + intros k Hk. unfold context_of. rewrite (Ck k Hk), (Old k Hk).
      assert (U : k ∈ below (length (m_pRootNode T1)) (m_pRootNode T1) n <-> under T p k).
      { split.
        - intros H. destruct (below_in_table T1 p n k G1 Wk H) as (q & Hq & Hqk & Hb). exists q. split; [done|].
          rewrite <- TT. split; [done|]. intros q1 q2 E H1 H2. rewrite <- TT. by apply (Hb q1 q2).
        - intros (q & Hq & Hqk & Hb). apply below_ok; [done|lia|]. rewrite <- TT in Hqk. unfold table_of, table in Hqk. rewrite walk_app, Wk in Hqk.
          destruct (walk (m_pRootNode T1) n q) as [j|] eqn:Ej; [|done]. exists q, j. repeat split; auto.
          intros q1 q2 k0 E H1 H2 Hk0. specialize (Hb q1 q2 E H1 H2). rewrite <- TT in Hb. unfold table_of, table in Hb. by rewrite walk_app, Wk, Hk0 in Hb. }
      case_decide as D; rewrite U in D; [left|right]; tauto.
Qed.

(** ** New contexts *)

Section added.
Context {RM : URIMatch}.

(** The URI that a new context is given, but for a slash at its end: the pattern behind
    [exp:], or the URI itself; none if the context cannot be set. *)
Definition context_uri (uri : list Z) (loc : option (list Z)) : option (list Z) :=
  match uri with
  | [] => None
  | _ =>
      match exp_pattern uri with
      | Some [] => None
      | Some p => if compiles p loc then Some p else None
      | None => Some uri
      end
  end.

Lemma context_uri_abs uri loc : hd 0 uri = 47 -> context_uri uri loc = Some uri.
Proof. unfold context_uri, exp_pattern. destruct uri as [|c u]; [done|]. cbn [hd]. intros ->. by rewrite ztake_cons by lia. Qed.

Lemma set_ok uri loc h :
  match context_uri uri loc with
  | None => set uri loc h false new_context = None
  | Some u => exists x, set uri loc h false new_context = Some x /\
      hd 0 (m_sContextURI x) = hd 0 u /\ (hd 0 u = 47 -> dirs (m_sContextURI x) = dirs u) /\
      m_pHandler x = Some h /\ m_pParent x = None /\ x_null x = false /\
      (forall l, loc = Some l -> l <> [] -> m_sLocation x = Some l) /\
      (m_sContextURI x = u \/ m_sContextURI x = u ++ [47] /\ znth u (zlen u - 1) <> 47)
  end.
Proof.
  assert (F : forall (regex : bool) u old, u <> [] ->
    let '(l, isDir) := match loc with Some ((_ :: _) as l) => (Some l, znth l (zlen l - 1) =? 47) | _ => (old, false) end in
    let uri' := if isDir && negb regex && negb (znth u (zlen u - 1) =? 47) then u ++ [47] else u in
    hd 0 uri' = hd 0 u /\ (hd 0 u = 47 -> dirs uri' = dirs u) /\ (forall l', loc = Some l' -> l' <> [] -> l = Some l') /\
    (uri' = u \/ uri' = u ++ [47] /\ znth u (zlen u - 1) <> 47)).
  { intros regex u old Hu. set (P := match loc with Some ((_ :: _) as l) => _ | _ => _ end).
    assert (HP : forall l', loc = Some l' -> l' <> [] -> P.1 = Some l') by (unfold P; destruct loc as [[|a l]|]; cbn; intros l' [= <-]; done).
    destruct P as [l isDir]. cbn in HP. destruct (isDir && negb regex && negb (znth u (zlen u - 1) =? 47)) eqn:E; [|auto].
    apply andb_prop in E as [_ E]. apply negb_true_iff, Z.eqb_neq in E. split; [by destruct u|]. split; [intros H; by apply dirs_slash|]. auto. }
  unfold context_uri, set. destruct uri as [|c u] eqn:Eu; [done|]. rewrite <- Eu. destruct (exp_pattern uri) as [[|p0 p]|]; [done| |].
  - cbn [andb]. destruct (compiles (p0 :: p) loc); cbn [negb]; [|done].
    specialize (F true (p0 :: p) (match loc with Some _ => loc | None => m_sLocation new_context end) ltac:(done)).
    destruct (match loc with Some (_ :: _) => _ | _ => _ end) as [l isDir]. destruct F as (F1 & F2 & F3 & F4). eexists. split; [done|]. by repeat split.
  - cbn [andb]. specialize (F false uri (m_sLocation new_context) ltac:(by subst)).
    destruct (match loc with Some (_ :: _) => _ | _ => _ end) as [l isDir]. destruct F as (F1 & F2 & F3 & F4). eexists. split; [done|]. by repeat split.
Qed.

Lemma addContext_ok T uri loc h : good T ->
  match context_uri uri loc with
  | None => addContext uri loc h T = (AfterDelete, T)
  | Some u =>
      (hd 0 u <> 47 \/ table_of T (dirs u) <> None) /\ addContext uri loc h T = (NotAdded, T) \/
      hd 0 u = 47 /\ table_of T (dirs u) = None /\
      exists x T2, set uri loc h false new_context = Some x /\ addContext uri loc h T = (Added (length (c_contexts T)), T2) /\ new_at T (dirs u) x T2
  end.
Proof.
  intros G. pose proof (set_ok uri loc h) as Es. unfold addContext. destruct (context_uri uri loc) as [u|]; [|by rewrite Es].
  destruct Es as (x & -> & S1 & S2 & S3 & S4 & S5 & S7 & S8).
  pose proof (tree_good_append T x G) as GA.
  assert (N : context (c_contexts (on_contexts (fun cs => cs ++ [x]) T)) (length (c_contexts T)) = x).
  { change (context (c_contexts T ++ [x]) (length (c_contexts T)) = x). by rewrite context_snoc, decide_True. }
  assert (TK : on_contexts (take (length (c_contexts T))) (on_contexts (fun cs => cs ++ [x]) T) = T).
  { destruct T. unfold on_contexts. cbn. f_equal. by rewrite take_app_length. }
  assert (A : added (on_contexts (fun cs => cs ++ [x]) T) (length (c_contexts T))
    (add (length (c_contexts T)) (on_contexts (fun cs => cs ++ [x]) T)).1 (add (length (c_contexts T)) (on_contexts (fun cs => cs ++ [x]) T)).2).
  { apply add_added; [done| |intros p; exact (good_fresh T p G)|by rewrite N].
    change (length (c_contexts T) < length (c_contexts T ++ [x]))%nat. rewrite length_app. cbn. lia. }
  destruct (add (length (c_contexts T)) (on_contexts (fun cs => cs ++ [x]) T)) as [ret T2].
  cbn [fst snd] in A. inversion A as [H1 E1 E2|c0 H1 H2 E1 E2|T1 n T3 H1 H2 H3 H4 H5 H6 H7 H8 H9 H10 H11 E1 E2].
  - rewrite N in H1. left. rewrite S1 in H1. split; [by left|]. cbn. by rewrite TK.
  - rewrite N in H1, H2. rewrite S1 in H1. rewrite (S2 H1) in H2. left. split; [right; change (table_of T (dirs u) = Some c0) in H2; by rewrite H2|]. cbn. by rewrite TK.
  - rewrite N in H1, H6, H7. right. rewrite S1 in H1. rewrite (S2 H1) in H6, H7. split; [done|]. split; [done|]. exists x, T2. split; [done|]. split; [done|].
    rewrite <- (S2 H1). eapply added_new_at; try done; rewrite ?S1, ?(S2 H1); try done.
Qed.

(** A URI that begins with a slash. *)
Lemma addContext_abs T uri loc h : good T -> hd 0 uri = 47 ->
  table_of T (dirs uri) <> None /\ addContext uri loc h T = (NotAdded, T) \/
  table_of T (dirs uri) = None /\
  exists x T2, addContext uri loc h T = (Added (length (c_contexts T)), T2) /\ new_at T (dirs uri) x T2 /\
    m_pHandler x = Some h /\ x_null x = false /\ (forall l, loc = Some l -> l <> [] -> m_sLocation x = Some l) /\
    (m_sContextURI x = uri \/ m_sContextURI x = uri ++ [47] /\ znth uri (zlen uri - 1) <> 47).
Proof.
  intros G Hu. pose proof (addContext_ok T uri loc h G) as A. pose proof (set_ok uri loc h) as S. rewrite (context_uri_abs _ _ Hu) in A, S.
  destruct A as [[[?|?] ->]|(_ & Hn & x & T2 & Hs & E & N)]; [done|by left|right]. destruct S as (x' & Hs' & S). rewrite Hs' in Hs. injection Hs as ->.
  split; [done|]. exists x, T2. tauto.
Qed.
End added.
