(* ===== verification/ContextClaims.v ===== *)
(** * ContextClaims: the contexts of a virtual host
    (src/src/http/contexttree.cpp, src/src/http/contextnode.cpp, src/src/http/httpvhost.cpp)

    Which context a URI gets, which parent a context has, and what the contexts that
    lookups add do to later lookups. *)

From S2P Require Import Prelude Contexts ContextSpec.
#[local] Open Scope Z_scope.

(** ** Configured contexts *)

Notation config := (list (list Z * option (list Z) * Z)) (only parsing).

Section claims.
Context {RM : URIMatch}.

(** The contexts of a configuration, one after the other: what each becomes, and the
    tree; none once the code goes on with a context that it has deleted. *)
Fixpoint add_all (l : config) (T : ContextTree) : option (list (option nat) * ContextTree) :=
  match l with
  | [] => Some ([], T)
  | (uri, loc, h) :: l =>
      match addContext uri loc h T with
      | (AfterDelete, _) => None
      | (Added c, T) => '(rs, T) ← add_all l T; Some (Some c :: rs, T)
      | (NotAdded, T) => '(rs, T) ← add_all l T; Some (None :: rs, T)
      end
  end.

(** The first context of a path has it; contexts are numbered from [n] on. *)
Fixpoint first_wins (l : config) (d : gmap (list (list Z)) nat) (n : nat) : option (list (option nat) * gmap (list (list Z)) nat) :=
  match l with
  | [] => Some ([], d)
  | (uri, loc, _) :: l =>
      u ← context_uri uri loc;
      if (hd 0 u =? 47) && bool_decide (d !! dirs u = None)
      then '(rs, d) ← first_wins l (<[dirs u := n]> d) (S n); Some (Some n :: rs, d)
      else '(rs, d) ← first_wins l d n; Some (None :: rs, d)
  end.

Lemma good_new : good new_vhost.
Proof.
  split.
  - split; [split; [cbn; lia|done]|]. intros i l j H. exfalso. unfold findChild in H. destruct i as [|[|i]]; cbn in H; by rewrite lookup_empty in H.
  - reflexivity.
  - intros r [= <-]. cbn. lia.
  - intros p c H. exfalso. destruct p as [|l p]; [done|]. unfold table in H. cbn in H. unfold findChild in H. cbn in H. by rewrite lookup_empty in H.
Qed.
Lemma table_new p : table_of new_vhost p = None.
Proof. destruct p as [|l p]; [done|]. unfold table_of, table. cbn. unfold findChild. cbn. by rewrite lookup_empty. Qed.

Definition same_table (r : option (list (option nat) * ContextTree)) (r' : option (list (option nat) * gmap (list (list Z)) nat)) : Prop :=
  match r, r' with
  | Some (rs, T), Some (rs', d) => rs = rs' /\ good T /\ forall p, table_of T p = d !! p
  | None, None => True
  | _, _ => False
  end.

Lemma add_all_ok l : forall T d, good T -> (forall p, table_of T p = d !! p) ->
  same_table (add_all l T) (first_wins l d (length (c_contexts T))).
Proof.
  induction l as [|[[uri loc] h] l IH]; intros T d G E; cbn [add_all first_wins]; [done|].
  pose proof (addContext_ok T uri loc h G) as A. destruct (context_uri uri loc) as [u|]; cbn [mbind option_bind]; [|by rewrite A].
  destruct A as [[Hb ->]|(Hu & Hn & x & T2 & _ & -> & N)].
  - replace ((hd 0 u =? 47) && bool_decide (d !! dirs u = None)) with false.
    + specialize (IH T d G E). unfold same_table in *. destruct (add_all l T) as [[rs T']|], (first_wins l d _) as [[rs' d']|]; naive_solver.
    + symmetry. apply andb_false_iff. destruct Hb as [Hb|Hb]; [left; by apply Z.eqb_neq|right]. rewrite E in Hb. by apply bool_decide_eq_false.
  - rewrite Hu, (bool_decide_eq_true_2 (d !! dirs u = None)) by (by rewrite <- E). change (47 =? 47) with true. cbn [andb].
    specialize (IH T2 (<[dirs u := length (c_contexts T)]> d) (na_good _ _ _ _ N)). rewrite (na_length _ _ _ _ N) in IH.
    assert (H : same_table (add_all l T2) (first_wins l (<[dirs u := length (c_contexts T)]> d) (S (length (c_contexts T))))).
    { apply IH. intros q. rewrite (na_table _ _ _ _ N). destruct (decide (q = dirs u)) as [->|Hq]; [by rewrite lookup_insert_eq|by rewrite lookup_insert_ne]. }
    unfold same_table in *. destruct (add_all l T2) as [[rs T']|], (first_wins l _ _) as [[rs' d']|]; naive_solver.
Qed.

(** C11: the context of a URI.  Of the contexts that are configured for a path (its segments
    between slashes, with or without a last slash) the first one stays, the others are
    refused; and a lookup finds the context whose path is the longest one that leads to
    the URI's.  A configuration for which the code goes on with a deleted context is just
    one with a context that cannot be set: without a URI, or with a pattern behind [exp:]
    that is empty or cannot be compiled. *)
Theorem contexts_longest_prefix l u :
  match add_all l new_vhost, first_wins l ∅ 1 with
  | Some (rs, T), Some (rs', d) => rs = rs' /\ longest (fun p => d !! p) (segs u) (bestMatch T (47 :: u))
  | None, None => True
  | _, _ => False
  end.
Proof.
  pose proof (add_all_ok l new_vhost ∅ good_new) as H. change (length (c_contexts new_vhost)) with 1%nat in H. unfold same_table in H.
  destruct (add_all l new_vhost) as [[rs T]|], (first_wins l ∅ 1) as [[rs' d]|]; try apply H; try (intros p; by rewrite table_new, lookup_empty).
  destruct H as (E & G & HT); [intros p; by rewrite table_new, lookup_empty|]. split; [done|].
  eapply longest_ext; [intros q _; apply HT|]. unfold bestMatch. cbn [hd tl]. change (47 =? 47) with true. cbn [negb].
  apply match_node_ok, G.
Qed.

(** ** Parents *)

(** The tree with a context at its root and without redirects: each context has the
    nearest one above it as its parent. *)
Record rooted (T : ContextTree) : Prop := {
  rt_good : good T;
  rt_root : table_of T [] <> None;
  rt_plain : forall p c, table_of T p = Some c -> is_redirect (context_of T c) = false;
  rt_parent : forall p l c, table_of T (p ++ [l]) = Some c -> longest (table_of T) p (m_pParent (context_of T c)) }.

Lemma plain_table T p r : (forall p c, table_of T p = Some c -> is_redirect (context_of T c) = false) ->
  longest (plain (c_contexts T) (table_of T)) p r -> longest (table_of T) p r.
Proof.
  intros H. apply longest_ext. intros q _. unfold plain. destruct (table_of T q) as [c|] eqn:E; [|done].
  specialize (H _ _ E). unfold context_of in H. by rewrite H.
Qed.
Lemma rooted_some T p r : rooted T -> longest (table_of T) p r -> exists c, r = Some c.
Proof. intros R H. destruct r as [c|]; [by eexists|]. exfalso. apply (rt_root T R). apply H. apply prefix_nil. Qed.

(** What a new path changes of the longest paths: nothing outside it and below a deeper
    one. *)
Lemma longest_insert f p c q r : f p = None -> longest f q r ->
  (p `prefix_of` q -> match r with Some c' => exists s, s `prefix_of` q /\ f s = Some c' /\ p `prefix_of` s | None => False end) ->
  (forall s s' c', f s = Some c' -> f s' = Some c' -> s = s') ->
  longest (fun q => if decide (q = p) then Some c else f q) q r.
Proof.
  intros Hn H Hs Inj. destruct r as [c'|]; cbn in *.
  - destruct H as (s & Hsq & Hsc & Hl). exists s. split; [done|]. split; [rewrite decide_False; [done|]; intros ->; congruence|].
    intros q' Hq'. case_decide as D; [|by apply Hl]. subst q'. intros _. destruct (Hs Hq') as (s' & _ & Hs' & Hp). by rewrite (Inj _ _ _ Hsc Hs').
  - intros q' Hq'. case_decide as D; [subst; by destruct (Hs Hq')|by apply H].
Qed.

Lemma new_at_context T p x T2 k : new_at T p x T2 -> k <> length (c_contexts T) ->
  m_sContextURI (context_of T2 k) = m_sContextURI (context_of T k) /\ m_sLocation (context_of T2 k) = m_sLocation (context_of T k) /\
  m_pHandler (context_of T2 k) = m_pHandler (context_of T k) /\ x_null (context_of T2 k) = x_null (context_of T k).
Proof. intros N Hk. destruct (na_parents _ _ _ _ N) as (up & _ & _ & K). destruct (K k Hk) as [(_ & _ & ->)|(_ & ->)]; done. Qed.
Lemma new_at_self T p x T2 : new_at T p x T2 -> exists q, context_of T2 (length (c_contexts T)) = setParent q x.
Proof. intros N. destruct (na_parents _ _ _ _ N) as (up & _ & K & _). by eexists. Qed.

Lemma rooted_new_parent T p l x T2 : rooted T -> table_of T (p ++ [l]) = None -> new_at T (p ++ [l]) x T2 ->
  exists up, longest (table_of T) p (Some up) /\ context_of T2 (length (c_contexts T)) = setParent (Some up) x /\
  forall k, k <> length (c_contexts T) ->
      under T (p ++ [l]) k /\ m_pParent (context_of T k) = Some up /\ context_of T2 k = setParent (Some (length (c_contexts T))) (context_of T k) \/
      ~ (under T (p ++ [l]) k /\ m_pParent (context_of T k) = Some up) /\ context_of T2 k = context_of T k.
Proof.
  intros R Hn N. destruct (na_parents _ _ _ _ N) as (up & U & K & P).
  destruct U as [[E _]|(p' & l' & E & L)]; [by destruct p|]. apply app_inj_tail in E as [<- <-].
  apply plain_table in L; [|apply R]. destruct (rooted_some _ _ _ R L) as [o ->]. by exists o.
Qed.

Lemma rooted_new T p x T2 : rooted T -> table_of T p = None -> is_redirect x = false -> new_at T p x T2 -> rooted T2.
Proof.
  intros R Hn Hx N. set (c := length (c_contexts T)).
  assert (Hp : p <> []) by (intros ->; by apply (rt_root T R)).
  destruct p as [|l p _] using rev_ind; [done|].
  destruct (rooted_new_parent T p l x T2 R Hn N) as (up & L & K & P). fold c in K, P.
  assert (TE := na_table _ _ _ _ N). fold c in TE.
  assert (Old : forall q k, table_of T q = Some k -> k <> c) by (intros q k H ->; by apply (good_fresh T q (rt_good T R))).
  assert (Inj : forall s s' c', table_of T s = Some c' -> table_of T s' = Some c' -> s = s') by (intros s s' c'; apply good_path, R).
  split.
  - apply N.
  - rewrite TE, decide_False by (by destruct p). apply R.
  - intros q k H. rewrite TE in H. case_decide as D.
    + injection H as <-. by rewrite K.
    + destruct (new_at_context _ _ _ _ k N (Old _ _ H)) as (_ & _ & E & _). unfold is_redirect. rewrite E. by apply (rt_plain T R q).
  - intros q m k H. assert (Ext : forall r, longest (fun q => if decide (q = p ++ [l]) then Some c else table_of T q) q r -> longest (table_of T2) q r).
    { intros r. apply longest_ext. intros q' _. by rewrite TE. }
    rewrite TE in H. case_decide as D.
    + injection H as <-. apply app_inj_tail in D as [-> _]. apply Ext. rewrite K. cbn [m_pParent setParent]. apply longest_insert; try done.
      intros [z Hz]. exfalso. apply (f_equal length) in Hz. rewrite !length_app in Hz. cbn in Hz. lia.
    + pose proof (rt_parent T R q m k H) as LK. destruct (P k (Old _ _ H)) as [(U & Pk & ->)|(NU & ->)]; cbn [m_pParent setParent].
      * destruct U as (z & Hz & Hzk & Hb). assert (E := Inj _ _ _ H Hzk). destruct z as [|y z _] using rev_ind; [done|].
        rewrite app_assoc in E. apply app_inj_tail in E as [-> ->]. apply Ext. exists (p ++ [l]). split; [by apply prefix_app_r|]. split; [by rewrite decide_True|].
        intros q' Hq'. case_decide as D'; [by subst|]. intros Hs. destruct (prefix_weak_total q' (p ++ [l]) ((p ++ [l]) ++ z)) as [?|[w ->]]; [done|by apply prefix_app_r|done|].
        destruct w as [|w0 w]; [by rewrite app_nil_r in D'|]. exfalso. apply Hs. destruct Hq' as [v Hv]. rewrite <- (app_assoc (p ++ [l]) (w0 :: w) v) in Hv. apply app_inv_head in Hv.
        apply (Hb (w0 :: w) (v ++ [y])); [by rewrite Hv, <- app_assoc|done|by destruct v].
      * destruct (rooted_some _ _ _ R LK) as [o Eo]. rewrite Eo in LK |- *. apply Ext. apply longest_insert; try done.
        intros Hpq. destruct LK as (s & Hs & Hso & Hl). exists s. split; [done|]. split; [done|].
        destruct (prefix_weak_total (p ++ [l]) s q Hpq Hs) as [?|Hsp]; [done|]. exfalso. apply NU. destruct Hpq as [z ->].
        split.
        { exists (z ++ [m]). split; [by destruct z|]. rewrite app_assoc. split; [done|]. intros q1 q2 E H1 H2.
          destruct (table_of T ((p ++ [l]) ++ q1)) eqn:Et; [|done]. exfalso.
          assert (Hq1 : (p ++ [l]) ++ q1 `prefix_of` (p ++ [l]) ++ z).
          { apply prefix_app. destruct q2 as [|w q2 _] using rev_ind; [done|]. rewrite app_assoc in E. apply app_inj_tail in E as [-> _]. by apply prefix_app_r. }
          assert (Hx' : (p ++ [l]) ++ q1 `prefix_of` s) by (apply Hl; [done|congruence]).
          destruct Hx' as [v ->], Hsp as [v' Hv']. apply (f_equal length) in Hv'. rewrite !length_app in Hv'. cbn in Hv'. destruct q1; [done|cbn in Hv'; lia]. }
        { rewrite Eo. f_equal. assert (E : Some o = Some up); [|by injection E]. apply (longest_unique (table_of T) p); [|done].
          exists s. split.
          - apply prefix_of_snoc in Hsp as [?|Hsp]; [done|]. subst s. congruence.
          - split; [done|]. intros q' Hq'. apply Hl. by do 2 apply prefix_app_r. }
Qed.

(** A tree that lookups can work with: every context of it has a location. *)
Definition located (T : ContextTree) : Prop := forall p c, table_of T p = Some c -> exists a l, m_sLocation (context_of T c) = Some (a :: l).

Lemma located_new T p x T2 : good T -> located T -> (exists a l, m_sLocation x = Some (a :: l)) -> new_at T p x T2 -> located T2.
Proof.
  intros G L (a & l & Hx) N q k H. rewrite (na_table _ _ _ _ N) in H. case_decide.
  - injection H as <-. destruct (new_at_self _ _ _ _ N) as [z ->]. by exists a, l.
  - destruct (new_at_context _ _ _ _ k N) as (_ & -> & _); [intros ->; by apply (good_fresh T q G)|]. by apply (L q).
Qed.

(** A context of a configuration: its URI begins with a slash, it has a location, and it
    is no redirect.  The context of the root comes first. *)
Definition plain_item (i : list Z * option (list Z) * Z) : bool :=
  (hd 0 i.1.1 =? 47) && negb (i.2 =? HT_REDIRECT) && match i.1.2 with Some (_ :: _) => true | _ => false end.

Lemma plain_item_ok uri loc h : plain_item (uri, loc, h) = true -> hd 0 uri = 47 /\ (h =? HT_REDIRECT) = false /\ exists a l, loc = Some (a :: l).
Proof.
  intros Hi. apply andb_prop in Hi as [Hi Hl]. apply andb_prop in Hi as [Hu Hh]. cbn in *. split; [by apply Z.eqb_eq|]. split; [by apply negb_true_iff|].
  destruct loc as [[|a l]|]; try done. by eexists _, _.
Qed.

Lemma rooted_first loc h : plain_item ([47], loc, h) = true ->
  let '(r, T) := addContext [47] loc h new_vhost in r = Added 1 /\ rooted T /\ located T /\ m_pParent (context_of T 1) = Some 0%nat.
Proof.
  intros Hi. destruct (plain_item_ok _ _ _ Hi) as (_ & Hh & a & l & ->). destruct (addContext_abs new_vhost [47] (Some (a :: l)) h good_new eq_refl) as [[H _]|(_ & x & T2 & -> & N & S3 & S5 & S7 & _)].
  - by rewrite table_new in H.
  - split; [done|].
    assert (TE : forall q, table_of T2 q = if decide (q = []) then Some 1%nat else None).
    { intros q. rewrite (na_table _ _ _ _ N). change (dirs [47]) with (@nil (list Z)). repeat case_decide; try done; apply table_new. }
    destruct (na_parents _ _ _ _ N) as (up & U & K & _). change (length (c_contexts new_vhost)) with 1%nat in K.
    assert (Hup : up = None).
    { destruct U as [[_ ->]|(p' & l' & E & _)]; [done|]. change (dirs [47]) with (@nil (list Z)) in E. by destruct p'. }
    subst up. split; [split|split].
    + apply N.
    + rewrite TE. done.
    + intros p c H. rewrite TE in H. case_decide; [|done]. injection H as <-. rewrite K. unfold is_redirect. cbn [m_pHandler setParent]. by rewrite S3.
    + intros p l' c H. rewrite TE in H. case_decide as D; [by destruct p|done].
    + eapply located_new; [exact good_new| |..]; [intros p c H; by rewrite table_new in H| |exact N]. exists a, l. by apply S7.
    + by rewrite K.
Qed.

(** Adding a plain context. *)
Lemma rooted_add T uri loc h : rooted T -> located T -> plain_item (uri, loc, h) = true ->
  match addContext uri loc h T with (AfterDelete, _) => False | (_, T') => rooted T' /\ located T' end.
Proof.
  intros R L Hi. destruct (plain_item_ok _ _ _ Hi) as (Hu & Hh & a & l & ->). destruct (addContext_abs T uri (Some (a :: l)) h (rt_good T R) Hu) as [[_ ->]|(Hn & x & T2 & -> & N & S3 & S5 & S7 & _)]; [done|]. split.
  - eapply rooted_new; try done. unfold is_redirect. by rewrite S3.
  - eapply located_new; try done; [apply R|]. exists a, l. by apply S7.
Qed.

(** The tree of a virtual host after its configuration. *)
Definition configure (l : config) : ContextTree := match add_all l new_vhost with Some (_, T) => T | None => new_vhost end.

(** What adding a plain context keeps holds after a plain configuration. *)
Lemma add_all_keeps (P : ContextTree -> Prop) l :
  (forall T uri loc h, P T -> plain_item (uri, loc, h) = true -> match addContext uri loc h T with (AfterDelete, _) => False | (_, T') => P T' end) ->
  forall T, P T -> forallb plain_item l = true -> exists rs T', add_all l T = Some (rs, T') /\ P T'.
Proof.
  intros HP. induction l as [|[[uri loc] h] l IH]; intros T H Hl; cbn [add_all]; [by eexists _, _|]. cbn [forallb] in Hl. apply andb_prop in Hl as [Hi Hl].
  specialize (HP T uri loc h H Hi). destruct (addContext uri loc h T) as [[c| |] T1]; [| |done]; destruct (IH T1 HP Hl) as (rs & T' & -> & ?); by eexists _, _.
Qed.

Lemma configure_rooted loc h l : forallb plain_item (([47], loc, h) :: l) = true -> rooted (configure (([47], loc, h) :: l)) /\ located (configure (([47], loc, h) :: l)).
Proof.
  cbn [forallb]. intros H. apply andb_prop in H as [Hi H]. pose proof (rooted_first loc h Hi) as F. unfold configure. cbn [add_all].
  destruct (addContext [47] loc h new_vhost) as [r T]. destruct F as (-> & R & L & _).
  destruct (add_all_keeps (fun T => rooted T /\ located T) l) with (T := T) as (rs & T' & -> & ?); [|done..].
  intros T0 uri0 loc0 h0 [? ?]. by apply rooted_add.
Qed.

(** C21: parents.  When the root's context is configured first, and every context has a
    URI that begins with a slash and a location and is no redirect, then in whatever order
    the others are configured, the parent of each context is the one with the longest path
    above its own.  (A redirect's place in the order does make a difference: it is made
    the parent of what is already below it, and of nothing that is added later.) *)
Theorem contexts_parents loc h l p seg c (H : forallb plain_item (([47], loc, h) :: l) = true)
  (Hc : table_of (configure (([47], loc, h) :: l)) (p ++ [seg]) = Some c) :
  longest (table_of (configure (([47], loc, h) :: l))) p (m_pParent (context_of (configure (([47], loc, h) :: l)) c)).
Proof. apply rt_parent with (l := seg); [|done]. by apply configure_rooted. Qed.

(** ** Lookups *)

Lemma segs_from_cut s : forall cur r, segs_from cur (s ++ 47 :: r) = segs_from cur (s ++ [47]) ++ segs r.
Proof. induction s as [|c s IH]; intros cur r; cbn [app segs_from]; [done|]. destruct (c =? 47); [cbn; f_equal|]; apply IH. Qed.
Definition slashes (s : list Z) : nat := length (List.filter (Z.eqb 47) s).
Lemma length_segs s : forall cur, (length (segs_from cur s) <= slashes s + 1)%nat.
Proof.
  unfold slashes. induction s as [|c s IH]; intros cur; cbn [segs_from List.filter]; [destruct cur; cbn; lia|].
  rewrite (Z.eqb_sym 47 c). destruct (c =? 47); cbn [length]; [specialize (IH [])|specialize (IH (cur ++ [c]))]; lia.
Qed.
Lemma length_segs_slash s : forall cur, length (segs_from cur (s ++ [47])) = (slashes s + 1)%nat.
Proof.
  unfold slashes. induction s as [|c s IH]; intros cur; cbn [app segs_from List.filter]; [done|].
  rewrite (Z.eqb_sym 47 c). destruct (c =? 47); cbn [length]; rewrite IH; lia.
Qed.
Lemma slashes_app a b : slashes (a ++ b) = (slashes a + slashes b)%nat.
Proof. unfold slashes. by rewrite List.filter_app, length_app. Qed.
Lemma slashes_none b : 47 ∉ b -> slashes b = 0%nat.
Proof.
  unfold slashes. induction b as [|c b IH]; intros H; [done|]. apply not_elem_of_cons in H as [H1 H2].
  cbn [List.filter]. destruct (Z.eqb_spec 47 c); [congruence|apply IH, H2].
Qed.

(** When the segments of [a] lead to those of [b], so do its bytes, up to a last slash. *)
Lemma segs_prefix n : forall a b, (length a <= n)%nat -> segs a `prefix_of` segs b -> a `prefix_of` b \/ a = b ++ [47].
Proof.
  induction n as [|n IH]; intros a b Hn H; [left; destruct a; [apply prefix_nil|cbn in Hn; lia]|].
  destruct a as [|a0 a1] eqn:Ea; [left; apply prefix_nil|]. rewrite <- Ea in *.
  assert (Ha : a <> []) by (by subst). rewrite (segs_step a Ha) in H. clear Ea a0 a1.
  destruct b as [|b0 b1] eqn:Eb; [destruct (memchr 47 a); apply prefix_nil_inv in H; done|]. rewrite <- Eb in *.
  assert (Hb : b <> []) by (by subst). rewrite (segs_step b Hb) in H. clear Eb b0 b1.
  destruct (memchr 47 a) as [i|] eqn:Ei.
  - pose proof (memchr_shorter a i n Ei Hn) as Hs. destruct (memchr_Some _ _ _ Ei) as (_ & Ea & _).
    set (la := ztake i a) in *. set (ra := zdrop (i + 1) a) in *. clearbody la ra. subst a.
    destruct (memchr 47 b) as [j|] eqn:Ej.
    + destruct (memchr_Some _ _ _ Ej) as (_ & Eb & _). set (lb := ztake j b) in *. set (rb := zdrop (j + 1) b) in *. clearbody lb rb. subst b.
      assert (la = lb) as <- by (by eapply prefix_cons_inv_1). apply prefix_cons_inv_2 in H.
      destruct (IH _ _ Hs H) as [[w ->]| ->]; [left; exists w|right]; by rewrite <- app_assoc.
    + assert (la = b) as -> by (by eapply prefix_cons_inv_1). apply prefix_cons_inv_2, prefix_nil_inv in H.
      destruct ra as [|r0 ra']; [by right|]. exfalso. rewrite (segs_step (r0 :: ra')) in H by done. by destruct (memchr 47 (r0 :: ra')).
  - destruct (memchr 47 b) as [j|] eqn:Ej.
    + destruct (memchr_Some _ _ _ Ej) as (_ & Eb & _). assert (E : a = ztake j b) by (by eapply prefix_cons_inv_1).
      left. rewrite Eb, <- E. by apply prefix_app_r.
    + assert (a = b) as -> by (by eapply prefix_cons_inv_1). by left.
Qed.

Lemma bestMatch_ok T uri : good T -> hd 0 uri = 47 -> longest (table_of T) (dirs uri) (bestMatch T uri).
Proof. intros G H. unfold bestMatch. rewrite H. change (47 =? 47) with true. apply match_node_ok, G. Qed.

(** A tree that is ready for lookups. *)
Record ready (T : ContextTree) : Prop := {
  rd_rooted : rooted T;
  rd_located : located T;
  rd_root : forall c, table_of T [] = Some c -> x_null (context_of T c) = false }.

Lemma ready_best T uri : ready T -> hd 0 uri = 47 -> exists p c, p `prefix_of` dirs uri /\ table_of T p = Some c /\ bestMatch T uri = Some c /\
  forall q, q `prefix_of` dirs uri -> table_of T q <> None -> q `prefix_of` p.
Proof.
  intros R H. pose proof (bestMatch_ok T uri (rt_good T (rd_rooted T R)) H) as L.
  destruct (rooted_some _ _ _ (rd_rooted T R) L) as [c E]. rewrite E in *. destruct L as (p & Hp & Hc & Hl). by exists p, c.
Qed.
Lemma ready_new T p x T2 : ready T -> table_of T p = None -> is_redirect x = false -> x_null x = false ->
  (exists a l, m_sLocation x = Some (a :: l)) -> new_at T p x T2 -> ready T2.
Proof.
  intros [R L Z] Hn Hx Hnull Hl N. split; [by eapply rooted_new|by eapply located_new; try done; apply R|].
  intros c H. rewrite (na_table _ _ _ _ N) in H. case_decide as D; [subst p; exfalso; by apply (rt_root T R)|].
  destruct (new_at_context _ _ _ _ c N) as (_ & _ & _ & ->); [intros ->; by apply (good_fresh T [] (rt_good T R))|]. by apply Z.
Qed.

Lemma context_null T c k : (c < length (c_contexts T))%nat -> context_of (on_contexts (alter setNullContext c) T) k = if decide (k = c) then setNullContext (context_of T c) else context_of T k.
Proof. intros H. unfold context_of. change (c_contexts (on_contexts (alter setNullContext c) T)) with (alter setNullContext c (c_contexts T)). by apply context_alter. Qed.
Lemma ready_null T p c : ready T -> table_of T p = Some c -> p <> [] -> ready (on_contexts (alter setNullContext c) T).
Proof.
  intros [R L Z] Hc Hp. destruct (good_uri T (rt_good T R) _ _ Hc) as (Hl & _).
  assert (F : forall k, m_sContextURI (context_of (on_contexts (alter setNullContext c) T) k) = m_sContextURI (context_of T k) /\
    m_sLocation (context_of (on_contexts (alter setNullContext c) T) k) = m_sLocation (context_of T k) /\
    m_pHandler (context_of (on_contexts (alter setNullContext c) T) k) = m_pHandler (context_of T k) /\
    m_pParent (context_of (on_contexts (alter setNullContext c) T) k) = m_pParent (context_of T k)).
  { intros k. rewrite context_null by done. case_decide; [by subst|done]. }
  assert (Len : length (c_contexts (on_contexts (alter setNullContext c) T)) = length (c_contexts T)) by apply length_alter.
  destruct R as [[W P Rt U] R1 R2 R3]. split; [split; [split| | |]| |].
  - done.
  - unfold getPrefix in *. cbn [m_pRootContext on_contexts]. destruct (m_pRootContext T) as [r|]; [|done]. rewrite <- P. apply F.
  - intros r Hr. rewrite Len. by apply Rt.
  - intros q k Hk. rewrite Len. fold (context_of (on_contexts (alter setNullContext c) T) k). rewrite (proj1 (F k)). by apply (U q).
  - done.
  - intros q k Hk. unfold is_redirect. destruct (F k) as (_ & _ & -> & _). by apply (R2 q).
  - intros q m k Hk. destruct (F k) as (_ & _ & _ & ->). by apply (R3 q m).
  - intros q k Hk. destruct (F k) as (_ & -> & _). by apply (L q).
  - intros k Hk. rewrite context_null by done. rewrite decide_False; [by apply Z|]. intros ->. apply Hp. symmetry. by apply (good_path T _ _ c (Build_good _ W P Rt U)).
Qed.

(** The directory that [dirMatch] misses is below the context's path. *)
Lemma missing_dir T uri p c n : good T -> hd 0 uri = 47 -> p `prefix_of` dirs uri -> table_of T p = Some c ->
  dirMatch T c uri = inr n ->
  zlen (m_sContextURI (context_of T c)) < n <= zlen uri /\ hd 0 (ztake n uri) = 47 /\ znth (ztake n uri) (zlen (ztake n uri) - 1) = 47 /\
  p `prefix_of` dirs (ztake n uri) /\ dirs (ztake n uri) `prefix_of` dirs uri.
Proof.
  intros G Hu Hp Hc Hd. destruct (good_uri T G _ _ Hc) as (_ & Hh & Hpath). fold (context_of T c) in Hh, Hpath.
  unfold dirMatch in Hd. fold (context_of T c) in Hd. destruct (x_null (context_of T c)); [done|].
  destruct (m_sContextURI (context_of T c)) as [|a0 a] eqn:Ea; [done|]. cbn [hd] in Hh. subst a0.
  destruct uri as [|b0 b] eqn:Eb; [done|]. cbn [hd] in Hu. subst b0. unfold dirs in Hpath, Hp |- *. cbn [tl] in *. subst p.
  destruct (memchr 47 (zdrop (zlen (47 :: a)) (47 :: b))) as [k|] eqn:Ek; [|done]. injection Hd as <-.
  destruct (segs_prefix _ a b (le_n _) Hp) as [[w ->]|E].
  2:{ exfalso. rewrite zdrop_all in Ek; [done|]. subst a. rewrite !zlen_cons, zlen_app. change (zlen [47]) with 1. lia. }
  change (47 :: a ++ w) with ((47 :: a) ++ w) in *. rewrite zdrop_app_exact in Ek. destruct (memchr_Some _ _ _ Ek) as (Hk & Ew & Hnot).
  set (w1 := ztake k w) in *. set (w2 := zdrop (k + 1) w) in *. assert (Hw1 : zlen w1 = k) by (unfold w1; rewrite zlen_ztake; lia). clearbody w1 w2. subst w k.
  assert (Et : ztake (zlen (47 :: a) + zlen w1 + 1) ((47 :: a) ++ w1 ++ 47 :: w2) = (47 :: a ++ w1) ++ [47]).
  { replace ((47 :: a) ++ w1 ++ 47 :: w2) with (((47 :: a ++ w1) ++ [47]) ++ w2) by (cbn; by rewrite <- !app_assoc).
    apply ztake_app_len. rewrite zlen_app, !zlen_cons, zlen_app. change (zlen (@nil Z)) with 0. lia. }
  rewrite Et. cbn [app hd tl]. split; [rewrite (zlen_cons 47 a), (zlen_cons 47 (a ++ _)), !zlen_app, (zlen_cons 47 w2); pose proof (zlen_nonneg w1); pose proof (zlen_nonneg w2); lia|]. split; [done|]. split.
  { rewrite app_comm_cons, zlen_app. change (zlen [47]) with 1. rewrite Z.add_simpl_r. unfold znth, zlen. by rewrite Nat2Z.id, app_nth2, Nat.sub_diag by lia. }
  assert (P0 : segs ((a ++ w1) ++ [47]) `prefix_of` segs ((a ++ w1) ++ 47 :: w2)) by (unfold segs at 2; rewrite segs_from_cut; by apply prefix_app_r).
  rewrite app_assoc in Hp |- *. split; [|done].
  destruct (prefix_weak_total _ _ _ Hp P0) as [?|H]; [done|]. apply prefix_length_eq in H as ->; [done|].
  unfold segs. rewrite length_segs_slash, slashes_app, (slashes_none w1) by done. pose proof (length_segs a []). lia.
Qed.

(** The context that the loop adds. *)
Lemma missing_added T uri p c n loc path0 : ready T -> hd 0 uri = 47 -> p `prefix_of` dirs uri -> table_of T p = Some c ->
  (forall q, q `prefix_of` dirs uri -> table_of T q <> None -> q `prefix_of` p) ->
  dirMatch T c uri = inr n -> m_sLocation (context_of T c) = Some loc -> loc <> [] -> path0 <> [] ->
  addContext (ztake n uri) (Some path0) HT_NULL T = (NotAdded, T) \/
  exists T2 x, addContext (ztake n uri) (Some path0) HT_NULL T = (Added (length (c_contexts T)), T2) /\ ready T2 /\
    dirs (ztake n uri) `prefix_of` dirs uri /\ dirs (ztake n uri) <> [] /\
    table_of T2 (dirs (ztake n uri)) = Some (length (c_contexts T)) /\
    (forall q, q `prefix_of` dirs uri -> table_of T2 q <> None -> q `prefix_of` dirs (ztake n uri)) /\
    context_of T2 (length (c_contexts T)) = setParent (Some c) x /\ x_null x = false /\ m_sContextURI x = ztake n uri.
Proof.
  intros R Hu Hp Hc Hl Hd Hloc Hn0 Hpath. destruct (missing_dir T uri p c n (rt_good T (rd_rooted T R)) Hu Hp Hc Hd) as (Hn & H47 & Hlast & Hpp & Hpu).
  destruct (addContext_abs T (ztake n uri) (Some path0) HT_NULL (rt_good T (rd_rooted T R)) H47) as [[_ ->]|(Hnone & x & T2 & -> & N & S3 & S5 & S7 & S8)]; [by left|right].
  exists T2, x. split; [done|].
  assert (Hne : dirs (ztake n uri) <> []) by (intros E; rewrite E in Hnone; by apply (rt_root T (rd_rooted T R))).
  assert (Hx : is_redirect x = false) by (unfold is_redirect; by rewrite S3).
  assert (Hxl : exists a l, m_sLocation x = Some (a :: l)) by (destruct path0 as [|a l]; [done|]; exists a, l; by apply S7).
  split; [by eapply ready_new|]. split; [done|]. split; [done|]. split; [by rewrite (na_table _ _ _ _ N), decide_True|]. split.
  { intros q Hq. rewrite (na_table _ _ _ _ N). case_decide as D; [by subst|]. intros Hqn. etrans; [by apply Hl|done]. }
  split; [|split; [done|destruct S8 as [?|[_ ?]]; done]].
  destruct (dirs (ztake n uri)) as [|seg p' _] eqn:Ed using rev_ind; [done|].
  destruct (rooted_new_parent T p' seg x T2 (rd_rooted T R) Hnone N) as (up & L & -> & _). f_equal.
  apply (longest_unique (table_of T) p'); [done|]. exists p. split.
  - apply prefix_of_snoc in Hpp as [?|Hpp]; [done|]. rewrite <- Hpp in Hnone. congruence.
  - split; [done|]. intros q Hq. apply Hl. etrans; [|exact Hpu]. by apply prefix_app_r.
Qed.

Lemma real_path_some loc m : loc <> [] -> real_path loc m <> [].
Proof. unfold real_path. destruct loc as [|a l]; [done|]. rewrite ztake_cons by (unfold MAX_PATH_LEN; lia). done. Qed.

(** What a lookup gives: a context that leads to the URI, and it is the same again. *)
Definition settled (uri : list Z) (r : lookup) : Prop :=
  exists c T1, r = Found (Some c) T1 /\ ready T1 /\ (exists p, p `prefix_of` dirs uri /\ table_of T1 p = Some c) /\
  forall access, vhost_bestMatch access uri T1 = Found (Some c) T1.

Lemma bestMatch_is T uri p c : ready T -> hd 0 uri = 47 -> p `prefix_of` dirs uri -> table_of T p = Some c ->
  (forall q, q `prefix_of` dirs uri -> table_of T q <> None -> q `prefix_of` p) -> bestMatch T uri = Some c.
Proof.
  intros R Hu Hp Hc Hl. apply (longest_unique (table_of T) (dirs uri)); [by apply bestMatch_ok; [apply R|]|]. by exists p.
Qed.

Lemma match_dirs_settles access uri : hd 0 uri = 47 -> forall fuel T p c, ready T -> p `prefix_of` dirs uri -> table_of T p = Some c ->
  (forall q, q `prefix_of` dirs uri -> table_of T q <> None -> q `prefix_of` p) ->
  x_null (context_of T c) = false -> (zlen uri < Z.of_nat fuel + zlen (m_sContextURI (context_of T c))) ->
  settled uri (match_dirs access fuel c uri T).
Proof.
  intros Hu. induction fuel as [|fuel IH]; intros T p c R Hp Hc Hl Hnull Hf; cbn [match_dirs].
  - exists c, T. split; [done|]. split; [done|]. split; [by exists p|]. intros access2. unfold vhost_bestMatch.
    rewrite (bestMatch_is T uri p c) by done. cbn [match_dirs]. unfold dirMatch. fold (context_of T c). rewrite Hnull.
    rewrite zdrop_all by lia. done.
  - destruct (dirMatch T c uri) as [r|n] eqn:Ed.
    + assert (r = Some c) as ->.
      { unfold dirMatch in Ed. fold (context_of T c) in Ed. rewrite Hnull in Ed. destruct (memchr 47 _); [done|by injection Ed]. }
      exists c, T. split; [done|]. split; [done|]. split; [by exists p|]. intros access2. unfold vhost_bestMatch.
      rewrite (bestMatch_is T uri p c) by done. cbn [match_dirs]. by rewrite Ed.
    + fold (context_of T c). destruct (rd_located T R p c Hc) as (a & l & Hloc). rewrite Hloc.
      set (path0 := real_path _ _). assert (Hpath : path0 <> []) by (by apply real_path_some).
      destruct (missing_added T uri p c n (a :: l) path0 R Hu Hp Hc Hl Ed Hloc ltac:(done) Hpath) as [E|(T2 & x & E & R2 & Hpu & Hne & Hc0 & Hl2 & Hcx & Hxn & Hxu)]; rewrite E.
      * exists c, T. split; [done|]. split; [done|]. split; [by exists p|]. intros access2. unfold vhost_bestMatch.
        rewrite (bestMatch_is T uri p c) by done. cbn [match_dirs]. rewrite Ed. fold (context_of T c). rewrite Hloc. fold path0. by rewrite E.
      * destruct (access path0).
        { assert (Hset : settled uri (match_dirs access fuel (length (c_contexts T)) uri T2)).
          { apply (IH T2 (dirs (ztake n uri))); try done; rewrite Hcx; [done|]. cbn [m_sContextURI setParent]. rewrite Hxu.
            destruct (missing_dir T uri p c n (rt_good T (rd_rooted T R)) Hu Hp Hc Ed) as (Hn & _). pose proof (zlen_nonneg (m_sContextURI (context_of T c))).
            rewrite zlen_ztake by lia. lia. }
          exact Hset. }
        set (c0 := length (c_contexts T)) in *. set (T3 := on_contexts (alter setNullContext c0) T2).
        assert (R3 : ready T3) by (by apply (ready_null T2 (dirs (ztake n uri)) c0)).
        exists c, T3. split; [done|]. split; [done|].
        assert (Hpc : table_of T3 p = Some c).
        { change (table_of T2 p = Some c). pose proof E as E'. destruct (addContext_abs T (ztake n uri) (Some path0) HT_NULL (rt_good T (rd_rooted T R))) as [[_ F]|(Hnone & y & T2' & F & N & _)]; [by destruct (missing_dir T uri p c n (rt_good T (rd_rooted T R)) Hu Hp Hc Ed) as (_ & ? & _)|rewrite E in F; done|rewrite E in F].
          injection F as <-. rewrite (na_table _ _ _ _ N), decide_False; [done|]. intros ->. congruence. }
        split; [by exists p|]. intros access2. unfold vhost_bestMatch. rewrite (bestMatch_is T3 uri (dirs (ztake n uri)) c0) by done.
        cbn [match_dirs]. unfold dirMatch. fold (context_of T3 c0). unfold T3 at 1 2. rewrite context_null.
        { rewrite decide_True by done. cbn [x_null setNullContext m_pParent]. rewrite Hcx. done. }
        { destruct (good_uri T2 (rt_good T2 (rd_rooted T2 R2)) _ _ Hc0) as [? _]. done. }
Qed.

Lemma vhost_settles access uri T : ready T -> hd 0 uri = 47 -> settled uri (vhost_bestMatch access uri T).
Proof.
  intros R Hu. destruct (ready_best T uri R Hu) as (p & c & Hp & Hc & Hb & Hl). unfold vhost_bestMatch. rewrite Hb.
  destruct (x_null (context_of T c)) eqn:En.
  - cbn [match_dirs]. unfold dirMatch. fold (context_of T c). rewrite En.
    destruct p as [|seg p' _] using rev_ind; [rewrite (rd_root T R c Hc) in En; done|].
    pose proof (rt_parent T (rd_rooted T R) _ _ _ Hc) as L. destruct (rooted_some _ _ _ (rd_rooted T R) L) as [r Er]. rewrite Er in *.
    exists r, T. split; [done|]. split; [done|]. split.
    + destruct L as (s & Hs & Hr & _). exists s. split; [|done]. etrans; [exact Hs|]. etrans; [|exact Hp]. by apply prefix_app_r.
    + intros access2. unfold vhost_bestMatch. rewrite Hb. cbn [match_dirs]. unfold dirMatch. fold (context_of T c). by rewrite En, Er.
  - eapply match_dirs_settles; try done. pose proof (zlen_nonneg (m_sContextURI (context_of T c))). unfold zlen in *. lia.
Qed.

(** The tree after some lookups, each at its own time. *)
Fixpoint serve (us : list ((list Z -> bool) * list Z)) (T : ContextTree) : ContextTree :=
  match us with
  | [] => T
  | (access, uri) :: us => match vhost_bestMatch access uri T with Found _ T | NullLocation T | DeletedContext T => serve us T end
  end.
Definition absolute (uri : list Z) : bool := hd 0 uri =? 47.
Lemma serve_ready us : forall T, ready T -> forallb (fun u => absolute u.2) us = true -> ready (serve us T).
Proof.
  induction us as [|[access uri] us IH]; intros T R H; cbn [serve]; [done|]. cbn [forallb] in H. apply andb_prop in H as [Hu H].
  destruct (vhost_settles access uri T R (proj1 (Z.eqb_eq _ _) Hu)) as (c & T1 & -> & R1 & _). by apply IH.
Qed.
Lemma configure_ready loc h l : forallb plain_item (([47], loc, h) :: l) = true -> ready (configure (([47], loc, h) :: l)).
Proof.
  intros H. destruct (configure_rooted loc h l H) as [R L]. split; [done|done|].
  set (P := fun T => good T /\ forall c, x_null (context_of T c) = false).
  destruct (add_all_keeps P (([47], loc, h) :: l)) with (T := new_vhost) as (rs & T' & E & _ & HP); [|split; [apply good_new|intros k; by destruct k as [|[|k]]]|done|unfold configure; rewrite E; intros; apply HP].
  intros T uri loc0 h0 [G HT] Hi. destruct (plain_item_ok _ _ _ Hi) as (Hu & _). destruct (addContext_abs T uri loc0 h0 G Hu) as [[_ ->]|(Hn & x & T2 & -> & N & _ & S5 & _)]; [done|].
  split; [apply N|]. intros k. destruct (decide (k = length (c_contexts T))) as [->|Hk]; [by destruct (new_at_self _ _ _ _ N) as [q ->]|].
  destruct (new_at_context _ _ _ _ k N Hk) as (_ & _ & _ & ->). apply HT.
Qed.

(** C12: lookups settle.  In a virtual host whose root context is configured first, and
    whose contexts all have a URI that begins with a slash and a location and are no
    redirects: whatever absolute URIs were looked up before, a lookup of an absolute URI finds a context
    whose path leads to the URI; and the same lookup finds the same context again and adds
    nothing, even if directories have been made or removed in between.  (Below a redirect
    two lookups can differ, and a context without a location makes the lookup fail:
    [context_failures].) *)
Theorem lookups_settle loc h l us access uri
  (H : forallb plain_item (([47], loc, h) :: l) = true) (Hus : forallb (fun u => absolute u.2) us = true) (Hu : absolute uri = true) :
  exists c T1, vhost_bestMatch access uri (serve us (configure (([47], loc, h) :: l))) = Found (Some c) T1 /\
  (exists p, p `prefix_of` dirs uri /\ table_of T1 p = Some c) /\
  forall access2, vhost_bestMatch access2 uri T1 = Found (Some c) T1.
Proof.
  destruct (vhost_settles access uri (serve us (configure (([47], loc, h) :: l)))) as (c & T1 & E & _ & Hp & Ha).
  - apply serve_ready; [by apply configure_ready|done].
  - by apply Z.eqb_eq.
  - by exists c, T1.
Qed.

(** ** Directories that are not there *)

Definition dir_uri (n : list Z) : list Z := 47 :: n ++ [47].
Definition missing (n : list Z) : (list Z -> bool) * list Z := (fun _ => false, dir_uri n).

(** A tree with the root's context and directories below it. *)
Record flat (T : ContextTree) (names : list (list Z)) : Prop := {
  fl_ready : ready T;
  fl_root : table_of T [] = Some 1%nat;
  fl_uri : m_sContextURI (context_of T 1) = [47];
  fl_names : forall p, table_of T p <> None -> p = [] \/ exists n, p = [n] /\ n ∈ names }.

Lemma flat_lookup T names n : flat T names -> n ∉ names -> 47 ∉ n -> n <> [] ->
  exists T1, vhost_bestMatch (fun _ => false) (dir_uri n) T = Found (Some 1%nat) T1 /\ flat T1 (n :: names) /\
    length (c_contexts T1) = S (length (c_contexts T)).
Proof.
  intros [R E0 E1 En] Hn H47 Hne. assert (Hu : hd 0 (dir_uri n) = 47) by done.
  assert (Hd : dirs (dir_uri n) = [n]) by (unfold dirs, dir_uri; cbn [tl]; rewrite segs_cut by done; done).
  assert (Hnone : table_of T [n] = None).
  { destruct (table_of T [n]) eqn:E; [|done]. destruct (En [n]) as [|(m & [= <-] & ?)]; [congruence|done|done]. }
  assert (Hl : forall q, q `prefix_of` dirs (dir_uri n) -> table_of T q <> None -> q `prefix_of` []).
  { intros q Hq Hqn. destruct (En q Hqn) as [->|(m & -> & Hm)]; [done|]. rewrite Hd in Hq. apply prefix_cons_inv_1 in Hq as ->. done. }
  assert (Hc : bestMatch T (dir_uri n) = Some 1%nat) by (apply (bestMatch_is T (dir_uri n) [] 1%nat); try done; apply prefix_nil).
  assert (Hm : dirMatch T 1 (dir_uri n) = inr (zlen (dir_uri n))).
  { unfold dirMatch. fold (context_of T 1). rewrite (rd_root T R 1%nat E0), E1. change (zlen [47]) with 1. unfold dir_uri.
    rewrite zdrop_cons by lia. change (1 - 1) with 0. rewrite zdrop_0, memchr_app by done. f_equal. rewrite zlen_cons, zlen_app. change (zlen [47]) with 1. lia. }
  destruct (rd_located T R [] 1%nat E0) as (a & l & Hloc).
  set (path0 := real_path (a :: l) (slice (zlen [47]) (zlen (dir_uri n)) (dir_uri n))).
  assert (Ht : ztake (zlen (dir_uri n)) (dir_uri n) = dir_uri n) by (apply ztake_all; lia).
  assert (Hrp : path0 <> []) by (by apply real_path_some).
  pose proof (missing_added T (dir_uri n) [] 1%nat _ (a :: l) path0 R Hu (prefix_nil _) E0 Hl Hm Hloc ltac:(done) Hrp) as A.
  rewrite Ht, Hd in A.
  destruct (addContext_abs T (dir_uri n) (Some path0) HT_NULL (rt_good T (rd_rooted T R)) Hu) as [[F _]|(_ & x & T2 & Ea & N & _)]; [by rewrite Hd in F|].
  rewrite Hd in N. rewrite Ea in A. destruct A as [?|(T2' & x' & Ea' & R2 & _ & _ & Hc0 & _)]; [done|]. injection Ea' as <-.
  set (c0 := length (c_contexts T)) in *. assert (Hc1 : 1%nat <> c0) by (intros E; apply (good_fresh T [] (rt_good T (rd_rooted T R))); change (table_of T [] = Some c0); rewrite <- E; exact E0).
  exists (on_contexts (alter setNullContext c0) T2). split; [|split; [split|]].
  - unfold vhost_bestMatch. rewrite Hc. cbn [match_dirs]. rewrite Hm. fold (context_of T 1). rewrite Hloc, E1. fold path0. rewrite Ht, Ea. done.
  - by apply (ready_null T2 [n]).
  - change (table_of T2 [] = Some 1%nat). rewrite (na_table _ _ _ _ N). by rewrite decide_False.
  - destruct (good_uri T2 (na_good _ _ _ _ N) _ _ Hc0) as [Hb _]. rewrite context_null, decide_False by done.
    destruct (new_at_context _ _ _ _ 1%nat N Hc1) as (-> & _). done.
  - intros p Hp. change (table_of T2 p <> None) in Hp. rewrite (na_table _ _ _ _ N) in Hp. case_decide as D; [subst; right; exists n; split; [done|left]|].
    destruct (En p Hp) as [->|(m & -> & Hm')]; [by left|right]. exists m. split; [done|by right].
  - change (length (alter setNullContext c0 (c_contexts T2)) = S c0). rewrite length_alter. apply N.
Qed.

(** C40: missing directories are kept.  On a host that has only the root's context, each
    request [/name/] for another directory of the root that is not there adds a context,
    which stays for ever: after requests for [k] distinct names the host has [k] contexts
    more. *)
Theorem missing_directories_kept loc h names
  (H : plain_item ([47], loc, h) = true) (Hd : NoDup names) (Hn : Forall (fun n => 47 ∉ n /\ n <> []) names) :
  length (c_contexts (serve (map missing names) (configure [([47], loc, h)]))) = (2 + length names)%nat.
Proof.
  assert (F : flat (configure [([47], loc, h)]) [] /\ length (c_contexts (configure [([47], loc, h)])) = 2%nat).
  { assert (R : ready (configure [([47], loc, h)])) by (apply configure_ready; cbn [forallb]; by rewrite H).
    unfold configure in *. cbn [add_all] in *. destruct (addContext_abs new_vhost [47] loc h good_new eq_refl) as [[F _]|(_ & x & T2 & E & N & _ & _ & _ & S8)]; [by rewrite table_new in F|].
    rewrite E in *. cbn [mbind option_bind] in *. split; [split|apply N].
    - done.
    - rewrite (na_table _ _ _ _ N). by rewrite decide_True.
    - destruct (new_at_self _ _ _ _ N) as [q K]. change (length (c_contexts new_vhost)) with 1%nat in K. rewrite K. destruct S8 as [?|[_ S8]]; [done|]. by exfalso; apply S8.
    - intros p Hp. rewrite (na_table _ _ _ _ N) in Hp. case_decide as D; [left; exact D|]. by rewrite table_new in Hp. }
  destruct F as [F L]. rewrite <- L. clear L. revert F. generalize (configure [([47], loc, h)]) as T.
  assert (Hdis : forall n, n ∈ names -> n ∉ (@nil (list Z))) by (intros n _; apply not_elem_of_nil).
  generalize dependent (@nil (list Z)). induction names as [|n names IH]; intros old Hdis T F; cbn [map serve missing]; [cbn; lia|].
  apply NoDup_cons in Hd as [Hnn Hd]. apply Forall_cons in Hn as [[H47 Hne] Hn].
  destruct (flat_lookup T old n F (Hdis n ltac:(left)) H47 Hne) as (T1 & E & F1 & L1). unfold missing at 1. rewrite E.
  rewrite (IH Hd Hn (n :: old)); [cbn [length]; lia| |done]. intros m Hm. apply not_elem_of_cons. split; [by intros ->|apply Hdis; by right].
Qed.

(** ** What goes wrong *)

Definition nothing (_ : list Z) : bool := false.
Definition root_item : list Z * option (list Z) * Z := (bs "/", Some (bs "/doc/"), HT_NULL).
Definition found (r : lookup) : option nat := match r with Found c _ => c | _ => None end.
Definition tree_after (r : lookup) : ContextTree := match r with Found _ T | NullLocation T | DeletedContext T => T end.

(** The host with a redirect, and with a context below directories that are not there. *)
Definition redirect_host : ContextTree := configure [root_item; (bs "/old/", Some (bs "http://new/"), HT_REDIRECT)].
Definition deep_host : ContextTree := configure [root_item; (bs "/a/b/", Some (bs "/b/"), HT_NULL)].
Definition handler_host : ContextTree := configure [root_item; (bs "/app", None, 15)].

(** Three failures of lookups.  Below a redirect, the first request for a directory that
    is not there finds the redirect, and every later one the context above it.  A
    configured context is given a context of a missing directory, which inherits nothing,
    as its parent by a request for that directory.  And a context without a location
    passes a null pointer to lstrncpy when a directory below its URI is looked up. *)
Theorem context_failures :
  (let r1 := vhost_bestMatch nothing (bs "/old/x/y") redirect_host in
   let r2 := vhost_bestMatch nothing (bs "/old/x/y") (tree_after r1) in
   found r1 = Some 2%nat /\ found r2 = Some 1%nat) /\
  (let T := tree_after (vhost_bestMatch nothing (bs "/a/x") deep_host) in
   m_pParent (context_of deep_host 2) = Some 1%nat /\ m_pParent (context_of T 2) = Some 3%nat /\ x_null (context_of T 3) = true) /\
  vhost_bestMatch nothing (bs "/app/x") handler_host = NullLocation handler_host.
Proof. vm_compute. repeat split. Qed.

End claims.

(** ** The theorems at work *)

#[local] Instance no_patterns : URIMatch := fun _ _ => false.

Example bad_pattern_deleted : (addContext (bs "exp: ^/(") None HT_NULL new_vhost).1 = AfterDelete.
Proof. vm_compute. reflexivity. Qed.

Definition sample_config : list (list Z * option (list Z) * Z) :=
  [root_item; (bs "/a/b/c/", Some (bs "/c/"), HT_NULL); (bs "/a/", Some (bs "/x/"), HT_NULL); (bs "/a", Some (bs "/y/"), HT_NULL)].

Lemma contexts_parents_witness : longest (table_of (configure sample_config)) (segs (bs "a/b")) (m_pParent (context_of (configure sample_config) 2)).
Proof. refine (contexts_parents _ HT_NULL _ (segs (bs "a/b")) (bs "c") 2 _ _); vm_compute; reflexivity. Defined.

Lemma lookups_settle_witness : exists c T1,
  vhost_bestMatch nothing (bs "/a/q/r") (serve [(nothing, bs "/a/q/")] (configure sample_config)) = Found (Some c) T1 /\
  (exists p, p `prefix_of` dirs (bs "/a/q/r") /\ table_of T1 p = Some c) /\
  forall access2, vhost_bestMatch access2 (bs "/a/q/r") T1 = Found (Some c) T1.
Proof. refine (lookups_settle _ HT_NULL _ [(nothing, bs "/a/q/")] nothing (bs "/a/q/r") _ _ _); vm_compute; reflexivity. Defined.

Lemma missing_directories_kept_witness :
  length (c_contexts (serve (map missing [bs "p"; bs "q"]) (configure [root_item]))) = 4%nat.
Proof.
  refine (missing_directories_kept (Some (bs "/doc/")) HT_NULL [bs "p"; bs "q"] _ _ _).
  - vm_compute. reflexivity.
  - apply (bool_decide_unpack _). vm_compute. exact I.
  - apply (bool_decide_unpack _). vm_compute. exact I.
Defined.
